(* ===== verification/_CoqProject ===== *)
-Q . S2P
Prelude.v
Limbs.v
Bytes.v
IntUtil.v
Streaming.v
Varint.v
Difficulty.v
Reward.v
HardFork.v
HardForkFacts.v
Field.v
FieldFacts.v
FieldBytes.v
Scalar.v
ScalarFacts.v
CurveData.v
Group.v
Prime.v
CurveIdentities.v
Edwards.v
Recode.v
ScalarMult.v
GroupFacts.v
GroupSpec.v
BaseTable.v
RecodeFacts.v
ScalarMultFacts.v
PointCodec.v
HashToPoint.v
GroupOrder.v
Keccak.v
KeccakFacts.v
Base58.v
Base58Facts.v
TreeHash.v
ChaCha.v
ChaChaFacts.v
Blake256.v
Blake256Facts.v
Rijndael.v
Groestl.v
GroestlFacts.v
Jh.v
JhPermutation.v
JhFacts.v
Skein.v
SkeinBlock.v
SkeinFacts.v
Aes.v
Oaes.v
OaesFacts.v
OaesMessages.v
Aesb.v
AesbFacts.v
Random.v
SlowHash.v
SlowHashFacts.v
SlowHashInstructions.v
SlowHashWhole.v
Crypto.v
CryptoFacts.v
RingFacts.v
Rct.v
RctFacts.v
RctSigs.v
RctRange.v
RctMlsag.v
RctTransactions.v
CryptoTheorems.v
RingTheorems.v
RctTheorems.v
CurveTheorems.v
FieldTheorems.v
ConsensusTheorems.v
EncodingTheorems.v
ExtraHashTheorems.v
SlowHashTheorems.v
HashTheorems.v
StreamTheorems.v
