(* ===== verification/Prelude.v ===== *)
(** * The cryptographic core and the consensus rules of the wallet server

    A verification of the C code under [src/src/crypto], on which the wallet
    and the daemon rest, of the key operations of [crypto.cpp] that are
    composed from it, of the ring confidential transactions of [src/src/ringct],
    of the encodings of [src/src/common], and of the rules of
    [src/src/cryptonote_basic] that decide which blocks are valid: proof of work,
    difficulty, reward and hard forks.

    ** The program's parts and the files that model them

    - Field arithmetic modulo [2^255 - 19] ([crypto-ops.c], [fe_*]): [Field];
      ten signed 32-bit limbs, products and carries in checked 64-bit integers.
      [Limbs] has the carry steps and an interval analysis that is proved sound
      for them; [FieldFacts] and [FieldBytes] the specifications.
    - Scalar arithmetic modulo the group order ([crypto-ops.c], [sc_*], and
      [rctCryptoOps.c]): [Scalar] and [ScalarFacts].
    - Constants and tables ([crypto-ops-data.c]): [CurveData]; [BaseTable] checks
      every entry.
    - Group operations, point encoding and table lookups ([ge_*]): [Group], with
      [GroupFacts] (formulas and limb bounds), [GroupSpec] (the interface
      [Represents] and the refinement of the curve group), [PointCodec];
      [HashToPoint] is the map from field elements to points and [GroupOrder]
      the order of the base point and of the group.
    - Recodings and scalar multiplication: [Recode], [ScalarMult], [RecodeFacts],
      [ScalarMultFacts].
    - The abstract specification of the above: [Prime] ([p] is prime, by
      Pocklington certificates), [CurveIdentities] and [Edwards] (the twisted
      Edwards curve is a commutative group under its complete addition law).
    - Keccak, [cn_fast_hash] ([keccak.c], [hash.c]): [Keccak], [KeccakFacts] (the
      FIPS 202 permutation, the sponge, the interface [HashContract]).
    - The Merkle root of a block ([tree-hash.c]): [TreeHash].
    - The stream cipher of wallet files ([chacha.c]): [ChaCha], [ChaChaFacts].
    - The hash functions that the proof of work ends with: BLAKE-256 with its
      HMACs ([blake256.c], [hash-extra-blake.c]): [Blake256], [Blake256Facts];
      Groestl-256 ([groestl.c], [groestl_tables.h], [hash-extra-groestl.c]):
      [Groestl], [GroestlFacts]; JH ([jh.c], [hash-extra-jh.c]): [Jh],
      [JhPermutation] (the specification [JhSpec] on nibbles and the
      equivalence of the bitsliced permutation with it), [JhFacts]; Skein
      ([skein.c], [hash-extra-skein.c]): [Skein], [SkeinBlock] (the
      specification [SkeinSpec] and the block functions), [SkeinFacts].
      [Streaming] has what their buffers share, [Rijndael] the field of 256
      elements and the AES S-box, from their definitions.
    - The AES library ([oaes_lib.c]): [Oaes], with [OaesFacts] (key expansion and
      block functions) and [OaesMessages] (ECB and CBC messages); the AES rounds
      by tables ([aesb.c]): [Aesb], [AesbFacts].  [Aes] is FIPS 197.
    - The proof of work ([slow-hash.c]): [SlowHash], with a module for each of
      its implementations ([Portable], [Arm], [X86]) on top of Keccak, the AES
      code and the four hash functions; [SlowHashFacts] has the specification
      [CryptoNight], [SlowHashInstructions] the AES instructions and
      [SlowHashWhole] the composition.
    - The random generator ([random.c]) and [memwipe]: [Random].
    - Keys, derivations, signatures, transaction proofs and ring signatures
      ([crypto.cpp]): [Crypto], [CryptoFacts], [RingFacts].
    - Ring confidential transactions: keys, amounts and commitments
      ([rctTypes.cpp], [rctOps.cpp]) in [Rct] (the namespace [rct] is a module)
      and [RctFacts]; range proofs, MLSAG signatures, transactions and
      multisignatures ([rctSigs.cpp]) in [RctSigs], with [RctRange] (Borromean
      signatures and range proofs), [RctMlsag] (the ring of challenges of an
      MLSAG signature) and [RctTransactions].
    - Integers of 128 bits ([int-util.h]), variable-length integers
      ([varint.h]) and base58 addresses ([base58.cpp]): [IntUtil], [Varint],
      [Base58], [Base58Facts].
    - Proof of work and difficulty ([difficulty.cpp]): [Difficulty]; the block
      reward ([cryptonote_basic_impl.cpp]): [Reward].
    - Hard forks ([hardfork.cpp], [hardfork.h]): [HardFork], with the database as
      the class [BlockchainDB] and its laws [BlockchainDBLaws]; [HardForkFacts]
      defines the state as a function of the chain ([state_at]) and shows that
      every operation reaches it.
    - The properties: [CryptoTheorems], [RingTheorems], [RctTheorems],
      [CurveTheorems], [FieldTheorems], [HashTheorems], [ExtraHashTheorems], [SlowHashTheorems],
      [StreamTheorems], [EncodingTheorems], [ConsensusTheorems].

    ** How the code is modelled

    A C function is a function into [result]: it returns a value or stops with
    a fault, so that every theorem about a returned value also says that the
    code does not overflow a signed integer, leave an array or fail an
    assertion.  Machine integers are [Z] with the wrap-around written out; an
    array is a list with checked accesses; output arguments are results.
    [NDEBUG] is a parameter [ndebug] of the functions whose assertions depend on
    it.  Loops that are not bounded by a constant take fuel: [absorb] takes more
    than [inlen / rate] steps, [chacha_loop] [length / 64 + 1], [squeeze] [n],
    [pow_loop] and [reduce] 64 (a [size_t] has 64 bits), [write_varint] 10,
    [encode_digits] 12 (a 64-bit number has 11 digits in base 58), [full_blocks],
    [Transform] and [jh_blocks] the number of blocks of the input, [output_loop]
    the number of blocks of the digest, [d2h_loop] and [d2b_loop] one more than
    the bytes and bits of an amount, [mg_loop] the number of columns; the theorems
    prove that these are enough.  The fuel of [h2b] is an argument, since the loop
    may not end.  The operating system's [open], [read]
    and [close] are arguments of the model ([system]); so are the results of
    allocations, of [rand] and of [cpuid], and what buffers that are not
    initialised hold.  The constants [MEMORY] and [ITER] of the slow hash are
    arguments: its theorem holds for scratchpads of [2^3] to [2^28] blocks, of
    which [MEMORY] has [2^17], and any number of iterations, so that its witness
    can be evaluated on a small scratchpad.  The AES and vector instructions of
    x86-64 are the functions that Intel documents.  The life-cycle variable
    [curstate] of the random generator exists in debug builds only; in the model
    of release builds it is a ghost that no operation reads or writes.

    ** What the theorems show

    The group layer computes the group law of the curve for all representable
    points, the tables hold the right multiples, and the scalar multiplications,
    encodings and decodings are exact.  The hash layer is the Keccak
    sponge on every input for digest lengths that are multiples of 4, those in use
    among them; for the others the input bytes that the code ignores are
    described, and so is misuse.  The Merkle root is the recursive one
    and binds the leaves.  On top of both, signatures and transaction proofs that
    are made are accepted, a signature is accepted only under its verification
    equation (in release builds on any bytes; debug builds abort at their
    assertions on keys that are not valid), and the two sides of a payment derive matching keys; ring
    signatures made by a member are accepted, acceptance is characterised
    exactly in both builds, and key images lie in the subgroup of prime order.

    A confidential transaction of either kind, made by the owner of its inputs
    with amounts that add up, is accepted by both checks, and its receivers read
    the amounts; a simple transaction that is accepted, whatever bytes its keys
    are, has commitments that are curve points and balance.  Range proofs
    are accepted for their commitment alone, the verification of an MLSAG
    signature is the equation of its ring of challenges, and a multisignature is
    accepted once every signer has added its part.

    BLAKE, Groestl, JH and Skein are the specified functions on every message (the
    specification of BLAKE computes its constants from pi and from square roots
    of primes; the code for BLAKE-224 writes four bytes after the digest), and the
    pieces that the incremental BLAKE and JH interfaces hash right are exactly
    described; the HMACs are RFC 2104 but for long keys of HMAC-BLAKE-224.  The
    AES library is FIPS 197 for its three key lengths and its messages round
    trip in both modes.  The three implementations of the slow hash compute the
    same function, CryptoNight, in bounds; what they do when memory runs out and
    how the scratchpad of a thread is released is exactly described.

    Base58 decoding accepts exactly what encoding makes and addresses round
    trip, but for a truncated tag.  The test of a hash is the comparison of a
    256-bit product, the next difficulty the least at which the middle of the
    window fits the target, the
    reward the documented formula without overflow.  The hard fork object, in
    whatever way it is brought to a chain (block by block, by reorganization, or
    from a database), holds the window of the last votes, their counts and the
    fork that they elect.

    ** Not modelled

    Of the proof of work, the ARMv8 assembly, the products in ARM assembly and the
    allocation on Windows, which are not C; of the AES library, [oaes_sprintf],
    the seed of [rand] and the debug and ISAAC variants, which the build does not
    select; the random lock and failed allocations of [crypto.cpp]; the output argument of [ge_frombytes_vartime]
    after a rejection; timing; locks and database transactions of the hard fork
    object; of the confidential transactions, the bulletproofs (arguments of the
    functions that call them; the theorems on transactions are on range
    signatures), the helpers that fill rings for tests, the checks of [DBG]
    builds, the order of the tasks of the thread pool and the serialization of
    the prunable part; the other C++ layers (wallet, daemon, network,
    serialization) and the vendored libraries. *)

From stdpp Require Import base list numbers.
From Stdlib Require Import ZArith Lia.

#[global] Set Default Goal Selector "!".
Open Scope Z_scope.

(** ** Outcomes of C code

    A routine either returns a value or stops with a fault.  Signed overflow,
    out-of-range accesses and division by zero are undefined behaviour in C; [Aborted] is a
    failed [assert] or a call of [abort]; [Exited] is [exit(EXIT_FAILURE)];
    [Thrown] is a C++ exception; [OutOfFuel] is a loop that did not finish within the fuel it was given. *)
Inductive fault := SignedOverflow | OutOfBounds | DivisionByZero | Aborted | Exited | Thrown | OutOfFuel.

Inductive result (A : Type) := Ok (a : A) | Fail (e : fault).
Arguments Ok {A} _.
Arguments Fail {A} _.

#[export] Instance fault_eq_dec : EqDecision fault.
Proof. solve_decision. Defined.

Definition bind {A B} (m : result A) (k : A -> result B) : result B :=
  match m with Ok a => k a | Fail e => Fail e end.

Declare Scope c_scope.
Delimit Scope c_scope with c.
Notation "'let!' x ':=' m 'in' k" := (bind m (fun x => k))
  (at level 10, x pattern, m at level 200, k at level 200,
   format "'[v' 'let!'  x  ':='  m  'in' '/' k ']'") : c_scope.
Open Scope c_scope.

(** [returns m Q]: [m] does not fault and its value satisfies [Q]. *)
Definition returns {A} (m : result A) (Q : A -> Prop) : Prop :=
  match m with Ok a => Q a | Fail _ => False end.

Section Returns.
Context {A B : Type}.

Lemma returns_ok (a : A) (Q : A -> Prop) : Q a -> returns (Ok a) Q.
Proof. done. Qed.

Lemma returns_bind (m : result A) (k : A -> result B) P Q :
  returns m P -> (forall a, P a -> returns (k a) Q) -> returns (bind m k) Q.
Proof. destruct m; simpl; naive_solver. Qed.

Lemma returns_mono (m : result A) (P Q : A -> Prop) :
  returns m P -> (forall a, P a -> Q a) -> returns m Q.
Proof. destruct m; simpl; naive_solver. Qed.

Lemma returns_inv (m : result A) Q : returns m Q <-> exists a, m = Ok a /\ Q a.
Proof. destruct m; simpl; naive_solver. Qed.

Lemma returns_and (m : result A) (P Q : A -> Prop) :
  returns m P -> returns m Q -> returns m (fun a => P a /\ Q a).
Proof. destruct m; simpl; auto. Qed.
End Returns.

Lemma bind_assoc {A B C} (m : result A) (f : A -> result B) (g : B -> result C) :
  bind (bind m f) g = bind m (fun a => bind (f a) g).
Proof. by destruct m. Qed.

Lemma returns_guard {A B} (m : result A) (k : A -> result B) (e : A) Q :
  m = Ok e -> returns (k e) Q -> returns (bind m k) Q.
Proof. by intros ->. Qed.

(** ** Machine integers

    A [w]-bit integer is a [Z].  Signed arithmetic is checked: the result of
    each operation that leaves the type's range is [Fail SignedOverflow].
    Unsigned arithmetic and conversions wrap.  As the compilers the project
    supports define it, a right shift of a negative value is arithmetic and
    [carry << w] of a negative [carry] is the product with [2^w]. *)
Definition in_range (w z : Z) : bool := (- 2 ^ (w - 1) <=? z) && (z <? 2 ^ (w - 1)).

Definition signed (w z : Z) : result Z :=
  if in_range w z then Ok z else Fail SignedOverflow.

Definition i32 : Z -> result Z := signed 32.
Definition i64 : Z -> result Z := signed 64.

Definition u8 (z : Z) : Z := z mod 2 ^ 8.
Definition u32 (z : Z) : Z := z mod 2 ^ 32.
Definition u64 (z : Z) : Z := z mod 2 ^ 64.

(** Conversion to a signed type of [w] bits. *)
Definition to_signed (w z : Z) : Z := (z + 2 ^ (w - 1)) mod 2 ^ w - 2 ^ (w - 1).
Definition to_i8 : Z -> Z := to_signed 8.
Definition to_i32 : Z -> Z := to_signed 32.

(** [x << k] on [int] where the source may shift a set bit into or past the
    sign bit: the low 32 bits are kept. *)
Definition shl32 (x k : Z) : Z := to_i32 (Z.shiftl x k).

Lemma in_range_spec w z : in_range w z = true <-> - 2 ^ (w - 1) <= z < 2 ^ (w - 1).
Proof. unfold in_range. lia. Qed.

Lemma signed_ok w z : - 2 ^ (w - 1) <= z < 2 ^ (w - 1) -> signed w z = Ok z.
Proof. intros H%in_range_spec. unfold signed. by rewrite H. Qed.

Lemma i64_ok z B : Z.abs z <= B -> (B <? 2 ^ 63) = true -> i64 z = Ok z.
Proof. intros. apply signed_ok. simpl Z.sub. lia. Qed.

Lemma i32_ok z B : Z.abs z <= B -> (B <? 2 ^ 31) = true -> i32 z = Ok z.
Proof. intros. apply signed_ok. simpl Z.sub. lia. Qed.

Lemma i32_abs z : Z.abs z < 2 ^ 31 -> i32 z = Ok z.
Proof. intros. apply signed_ok. simpl Z.sub. lia. Qed.

Lemma to_signed_id w z : 0 < w -> - 2 ^ (w - 1) <= z < 2 ^ (w - 1) -> to_signed w z = z.
Proof.
  intros Hw Hz. unfold to_signed.
  rewrite Z.mod_small; [lia|].
  replace (2 ^ w) with (2 * 2 ^ (w - 1)); [lia|].
  rewrite <- Z.pow_succ_r by lia. f_equal; lia.
Qed.

Lemma to_i32_id z : - 2 ^ 31 <= z < 2 ^ 31 -> to_i32 z = z.
Proof. intros. by apply to_signed_id. Qed.

(** ** Bounds of arithmetic expressions

    [bound] finds a constant that bounds the absolute value of an expression
    from the bounds of its variables in the context. *)
Lemma abs_mul_le a b A B : Z.abs a <= A -> Z.abs b <= B -> Z.abs (a * b) <= A * B.
Proof. intros. rewrite Z.abs_mul. nia. Qed.

Lemma abs_add_le a b A B : Z.abs a <= A -> Z.abs b <= B -> Z.abs (a + b) <= A + B.
Proof. lia. Qed.

Lemma abs_sub_le a b A B : Z.abs a <= A -> Z.abs b <= B -> Z.abs (a - b) <= A + B.
Proof. lia. Qed.

Lemma abs_opp_le a A : Z.abs a <= A -> Z.abs (- a) <= A.
Proof. lia. Qed.

Lemma abs_const_le c : Z.abs c <= Z.abs c.
Proof. lia. Qed.

Ltac bound :=
  lazymatch goal with
  | |- Z.abs (_ * _) <= _ => eapply abs_mul_le; bound
  | |- Z.abs (_ + _) <= _ => eapply abs_add_le; bound
  | |- Z.abs (_ - _) <= _ => eapply abs_sub_le; bound
  | |- Z.abs (- _) <= _ => eapply abs_opp_le; bound
  | |- Z.abs ?x <= _ => first [ eassumption | apply abs_const_le ]
  end.

(** One checked operation of a straight-line routine whose operands are
    bounded in the context. *)
Ltac checked_step :=
  lazymatch goal with
  | |- returns (bind (i64 ?e) _) _ =>
      refine (returns_guard _ _ e _ (i64_ok e _ _ _) _); [bound | vm_compute; reflexivity | cbv beta]
  | |- returns (bind (i32 ?e) _) _ =>
      refine (returns_guard _ _ e _ (i32_ok e _ _ _) _); [bound | vm_compute; reflexivity | cbv beta]
  end.

(** ** Arrays

    A C array is a list; reading or writing outside it is a fault. *)
Definition get {A} (s : list A) (i : nat) : result A :=
  match s !! i with Some x => Ok x | None => Fail OutOfBounds end.

Definition set {A} (s : list A) (i : nat) (x : A) : result (list A) :=
  if decide (i < length s)%nat then Ok (<[i := x]> s) else Fail OutOfBounds.

Lemma get_ok {A} (s : list A) i x : s !! i = Some x -> get s i = Ok x.
Proof. unfold get. by intros ->. Qed.

Lemma get_inv {A} (s : list A) i x : get s i = Ok x -> s !! i = Some x.
Proof. unfold get. destruct (s !! i); naive_solver. Qed.

Lemma set_ok {A} (s : list A) i x : (i < length s)%nat -> set s i x = Ok (<[i := x]> s).
Proof. intros. unfold set. by rewrite decide_True. Qed.

(** [assert(e)]: [ndebug] is whether the build defines [NDEBUG], which removes it. *)
Definition c_assert (ndebug : bool) (e : result bool) : result unit :=
  if ndebug then Ok tt
  else let! b := e in if b then Ok tt else Fail Aborted.

Lemma c_assert_true ndebug m : m = Ok true -> c_assert ndebug m = Ok tt.
Proof. intros ->. by destruct ndebug. Qed.

Lemma c_assert_false m : m = Ok false -> c_assert false m = Fail Aborted.
Proof. by intros ->. Qed.

(** [for_ n f i s]: the loop [for (k = i; k < i + n; ++k) s = f(k, s)]. *)
Fixpoint for_ {A} (n : nat) (f : nat -> A -> result A) (i : nat) (s : A) : result A :=
  match n with
  | O => Ok s
  | S n => let! s := f i s in for_ n f (S i) s
  end.

(** A loop keeps an invariant indexed by its counter. *)
Lemma for_inv {A} n (f : nat -> A -> result A) i s (I : nat -> A -> Prop) :
  I i s ->
  (forall k a, (i <= k < i + n)%nat -> I k a -> returns (f k a) (I (S k))) ->
  returns (for_ n f i s) (I (i + n)%nat).
Proof.
  revert i s. induction n as [|n IH]; intros i s H0 Hstep; simpl.
  - by rewrite Nat.add_0_r.
  - eapply returns_bind; [apply Hstep; [lia|done]|].
    intros a Ha. rewrite <- Nat.add_succ_comm. apply IH; [done|].
    intros k b Hk. apply Hstep. lia.
Qed.

Lemma for_ext {A} n (f g : nat -> A -> result A) i s :
  (forall k a, f k a = g k a) -> for_ n f i s = for_ n g i s.
Proof.
  intros E. revert i s. induction n as [|n IH]; intros i s; [done|]. cbn [for_]. rewrite E.
  destruct (g i s); [apply IH|done].
Qed.

(** A loop that updates the first [n] entries of an array in place. *)
Definition update_first {A} (n : nat) (G : nat -> A -> A) (s : list A) : list A :=
  imap (fun i x => if decide (i < n)%nat then G i x else x) s.

Lemma update_first_lookup {A} n (G : nat -> A -> A) s i :
  update_first n G s !! i = (fun x => if decide (i < n)%nat then G i x else x) <$> s !! i.
Proof. unfold update_first. by rewrite list_lookup_imap. Qed.

Lemma update_first_length {A} n (G : nat -> A -> A) s : length (update_first n G s) = length s.
Proof. apply length_imap. Qed.

Lemma update_first_S {A} n (G : nat -> A -> A) s x :
  s !! n = Some x -> <[n := G n x]> (update_first n G s) = update_first (S n) G s.
Proof.
  intros Hx. apply list_eq. intros i. destruct (decide (i = n)) as [->|Hi].
  - rewrite list_lookup_insert_eq by (rewrite update_first_length; by eapply lookup_lt_Some).
    rewrite update_first_lookup, Hx. cbn [fmap option_fmap option_map]. by rewrite decide_True by lia.
  - rewrite list_lookup_insert_ne, !update_first_lookup by done. destruct (s !! i); [|done].
    cbn [fmap option_fmap option_map]. f_equal.
    destruct (decide (i < n)%nat), (decide (i < S n)%nat); (done || lia).
Qed.

Lemma for_update {A} n (f : nat -> list A -> result (list A)) (G : nat -> A -> A) s :
  (n <= length s)%nat ->
  (forall i x a, (i < n)%nat -> s !! i = Some x -> a !! i = Some x -> length a = length s ->
     f i a = Ok (<[i := G i x]> a)) ->
  for_ n f 0 s = Ok (update_first n G s).
Proof.
  intros Hn Hf.
  assert (returns (for_ n f 0 s) (fun r => r = update_first n G s)) as H.
  { apply (for_inv n f 0 s (fun k r => r = update_first k G s)).
    - apply list_eq. intros i. rewrite update_first_lookup. destruct (s !! i); [|done].
      cbn [fmap option_fmap option_map]. by rewrite decide_False by lia.
    - intros k r Hk ->. destruct (lookup_lt_is_Some_2 s k) as [x Hx]; [lia|].
      rewrite (Hf k x); [by apply update_first_S|lia|done| |apply update_first_length].
      rewrite update_first_lookup, Hx. cbn [fmap option_fmap option_map]. by rewrite decide_False by lia. }
  apply returns_inv in H as (? & -> & ->). done.
Qed.

(** [for_down n f s]: the loop [for (k = n - 1; k >= 0; --k) s = f(k, s)]. *)
Fixpoint for_down {A} (n : nat) (f : nat -> A -> result A) (s : A) : result A :=
  match n with
  | O => Ok s
  | S i => let! s := f i s in for_down i f s
  end.

Lemma for_down_inv {A} n (f : nat -> A -> result A) s (I : nat -> A -> Prop) :
  I n s ->
  (forall k a, (k < n)%nat -> I (S k) a -> returns (f k a) (I k)) ->
  returns (for_down n f s) (I O).
Proof.
  revert s. induction n as [|n IH]; intros s H0 Hstep; simpl; [done|].
  eapply returns_bind; [apply Hstep; [lia|done]|]. intros a Ha.
  apply IH; [done|]. intros k b Hk. apply Hstep. lia.
Qed.

(** [sum64 x l]: the left-associated sum [x + l0 + l1 + ...] of 64-bit terms. *)
Fixpoint sum64 (x : Z) (l : list Z) : result Z :=
  match l with
  | [] => Ok x
  | y :: l => let! x := i64 (x + y) in sum64 x l
  end.

Fixpoint sum_from (x : Z) (l : list Z) : Z :=
  match l with [] => x | y :: l => sum_from (x + y) l end.

Definition abs_bounds : list Z -> list Z -> Prop := Forall2 (fun x b => Z.abs x <= b).

Lemma abs_bounds_nil : abs_bounds [] [].
Proof. constructor. Qed.

Lemma abs_bounds_cons x b l B : Z.abs x <= b -> abs_bounds l B -> abs_bounds (x :: l) (b :: B).
Proof. by constructor. Qed.

Lemma abs_bounds_nonneg l B : abs_bounds l B -> 0 <= foldr Z.add 0 B.
Proof. induction 1; simpl; lia. Qed.

Lemma sum64_ok x l X B :
  Z.abs x <= X -> abs_bounds l B -> (X + foldr Z.add 0 B <? 2 ^ 63) = true ->
  sum64 x l = Ok (sum_from x l).
Proof.
  intros Hx Hl. revert x X Hx. induction Hl as [|y b l B Hy Hl IH]; intros x X Hx Hs; [done|].
  simpl in *. pose proof (abs_bounds_nonneg _ _ Hl) as Hpos.
  rewrite (i64_ok _ (X + b)) by lia. simpl.
  apply (IH _ (X + b)); lia.
Qed.

Ltac bounds :=
  lazymatch goal with
  | |- abs_bounds [] _ => apply abs_bounds_nil
  | |- abs_bounds (_ :: _) _ => eapply abs_bounds_cons; [bound | bounds]
  end.

(** One checked sum of a straight-line routine. *)
Ltac sum_step :=
  lazymatch goal with
  | |- returns (bind (sum64 ?x ?l) _) _ =>
      refine (returns_guard _ _ (sum_from x l) _ (sum64_ok x l _ _ _ _ _) _);
      [bound | bounds | vm_compute; reflexivity | cbv beta]
  end.
