(* ===== verification/Limbs.v ===== *)
(** * Limb vectors

    The scalar and field routines of [crypto-ops.c] keep a multi-precision
    integer in signed locals [s0, s1, ...] (or [h0, ..., h9]).  Here the locals
    are a list; each repeated statement group of the source is an operation on
    it.  An interval domain with one sound abstract operation per concrete
    operation shows that no operation overflows; [eval] is the integer a vector
    stands for. *)

From stdpp Require Import base list numbers.
From Stdlib Require Import ZArith Lia.
From S2P Require Import Prelude.

(** ** Operations

    [n] is the width of the signed type of the locals. *)
Section Limbs.
Context (n : Z).

(** [s_j += x; s_i -= c << w]. *)
Definition move_carry (c x w : Z) (i j : nat) (s : list Z) : result (list Z) :=
  let! sj := get s j in
  let! sj := signed n (sj + x) in
  let! s := set s j sj in
  let! m := signed n (c * 2 ^ w) in
  let! si := get s i in
  let! si := signed n (si - m) in
  set s i si.

(** [carry = (s_i + (1 << (w-1))) >> w; s_{i+1} += carry; s_i -= carry << w]. *)
Definition carry_round (w : Z) (i : nat) (s : list Z) : result (list Z) :=
  let! si := get s i in
  let! t := signed n (si + 2 ^ (w - 1)) in
  let c := Z.shiftr t w in
  move_carry c c w i (S i) s.

(** [carry = s_i >> w; s_{i+1} += carry; s_i -= carry << w]. *)
Definition carry_floor (w : Z) (i : nat) (s : list Z) : result (list Z) :=
  let! si := get s i in
  let c := Z.shiftr si w in
  move_carry c c w i (S i) s.

(** The top carry of the field: [carry = (s_i + (1 << (w-1))) >> w;
    s_0 += carry * 19; s_i -= carry << w]. *)
Definition carry_wrap (w : Z) (i : nat) (s : list Z) : result (list Z) :=
  let! si := get s i in
  let! t := signed n (si + 2 ^ (w - 1)) in
  let c := Z.shiftr t w in
  let! x := signed n (c * 19) in
  move_carry c x w i 0 s.

(** [carry = s_i >> w; s_i -= carry << w]. *)
Definition carry_drop (w : Z) (i : nat) (s : list Z) : result (list Z) :=
  let! si := get s i in
  let c := Z.shiftr si w in
  let! m := signed n (c * 2 ^ w) in
  let! si := signed n (si - m) in
  set s i si.

(** [s_j += x * m]. *)
Definition add_mul (j : nat) (x m : Z) (s : list Z) : result (list Z) :=
  let! t := signed n (x * m) in
  let! sj := get s j in
  let! sj := signed n (sj + t) in
  set s j sj.

(** [s_j -= x * m]. *)
Definition sub_mul (j : nat) (x m : Z) (s : list Z) : result (list Z) :=
  let! t := signed n (x * m) in
  let! sj := get s j in
  let! sj := signed n (sj - t) in
  set s j sj.

(** ** Value of a vector *)
Fixpoint eval (ws s : list Z) : Z :=
  match ws, s with
  | w :: ws, x :: s => w * x + eval ws s
  | _, _ => 0
  end.

Lemma eval_insert ws s i a x :
  s !! i = Some a -> eval ws (<[i := x]> s) = eval ws s + nth i ws 0 * (x - a).
Proof.
  revert s i. induction ws as [|w ws IH]; intros s i Hi.
  { destruct i; simpl; lia. }
  destruct s as [|y s]; [done|]. destruct i as [|i]; simpl in *; [simplify_eq; lia|].
  rewrite (IH _ _ Hi). lia.
Qed.

(** ** Intervals *)
Definition iv : Type := Z * Z.
Definition inside (x : Z) (a : iv) : Prop := a.1 <= x <= a.2.
Definition in_ivs : list Z -> list iv -> Prop := Forall2 inside.

Definition fits (a : iv) : bool := (- 2 ^ (n - 1) <=? a.1) && (a.2 <? 2 ^ (n - 1)).
Definition iv_add (a b : iv) : iv := (a.1 + b.1, a.2 + b.2).
Definition iv_opp (a : iv) : iv := (- a.2, - a.1).
Definition iv_scale (m : Z) (a : iv) : iv :=
  if 0 <=? m then (a.1 * m, a.2 * m) else (a.2 * m, a.1 * m).
Definition iv_shiftr (w : Z) (a : iv) : iv := (Z.shiftr a.1 w, Z.shiftr a.2 w).
Definition guard (a : iv) : option iv := if fits a then Some a else None.

Definition iv_move (c x r : iv) (w : Z) (i j : nat) (A : list iv) : option (list iv) :=
  b ← A !! j;
  b' ← guard (iv_add b x);
  _ ← guard (iv_scale (2 ^ w) c);
  _ ← A !! i;
  if bool_decide (i <> j) && fits r then Some (<[i := r]> (<[j := b']> A)) else None.

Definition iv_carry_round (w : Z) (i : nat) (A : list iv) : option (list iv) :=
  a ← A !! i;
  t ← guard (iv_add a (2 ^ (w - 1), 2 ^ (w - 1)));
  if 0 <? w then
    iv_move (iv_shiftr w t) (iv_shiftr w t) (- 2 ^ (w - 1), 2 ^ (w - 1) - 1) w i (S i) A
  else None.

Definition iv_carry_floor (w : Z) (i : nat) (A : list iv) : option (list iv) :=
  a ← A !! i;
  if 0 <? w then
    iv_move (iv_shiftr w a) (iv_shiftr w a) (0, 2 ^ w - 1) w i (S i) A
  else None.

Definition iv_carry_drop (w : Z) (i : nat) (A : list iv) : option (list iv) :=
  a ← A !! i;
  _ ← guard (iv_scale (2 ^ w) (iv_shiftr w a));
  if (0 <? w) && fits (0, 2 ^ w - 1) then Some (<[i := (0, 2 ^ w - 1)]> A) else None.

Definition iv_carry_wrap (w : Z) (i : nat) (A : list iv) : option (list iv) :=
  a ← A !! i;
  t ← guard (iv_add a (2 ^ (w - 1), 2 ^ (w - 1)));
  x ← guard (iv_scale 19 (iv_shiftr w t));
  if 0 <? w then
    iv_move (iv_shiftr w t) x (- 2 ^ (w - 1), 2 ^ (w - 1) - 1) w i 0 A
  else None.

Definition iv_add_mul (j : nat) (x : iv) (m : Z) (A : list iv) : option (list iv) :=
  t ← guard (iv_scale m x);
  b ← A !! j;
  b' ← guard (iv_add b t);
  Some (<[j := b']> A).

Definition iv_sub_mul (j : nat) (x : iv) (m : Z) (A : list iv) : option (list iv) :=
  t ← guard (iv_scale m x);
  b ← A !! j;
  b' ← guard (iv_add b (iv_opp t));
  Some (<[j := b']> A).

(** ** Soundness *)
Lemma inside_add x y a b : inside x a -> inside y b -> inside (x + y) (iv_add a b).
Proof. unfold inside, iv_add. simpl. lia. Qed.

Lemma inside_opp x a : inside x a -> inside (- x) (iv_opp a).
Proof. unfold inside, iv_opp. simpl. lia. Qed.

Lemma inside_scale x a m : inside x a -> inside (x * m) (iv_scale m a).
Proof. unfold inside, iv_scale. case_match; simpl; nia. Qed.

Lemma inside_shiftr x a w : 0 < w -> inside x a -> inside (Z.shiftr x w) (iv_shiftr w a).
Proof.
  unfold inside, iv_shiftr. simpl. intros Hw H. rewrite !Z.shiftr_div_pow2 by lia.
  split; apply Z.div_le_mono; lia.
Qed.

Lemma guard_ok x a b : guard a = Some b -> inside x a -> inside x b /\ signed n x = Ok x.
Proof.
  unfold guard, fits. case_match eqn:E; [|done]. intros [= <-] Hx. split; [done|].
  unfold inside in Hx. apply signed_ok. lia.
Qed.

Lemma fits_ok x a : fits a = true -> inside x a -> signed n x = Ok x.
Proof. intros H. eapply (guard_ok x a a). unfold guard. by rewrite H. Qed.

Lemma in_ivs_lookup s A i a : in_ivs s A -> A !! i = Some a -> exists x, s !! i = Some x /\ inside x a.
Proof. intros H Ha. destruct (Forall2_lookup_r _ _ _ _ _ H Ha) as (x & ? & ?). eauto. Qed.

Lemma in_ivs_insert s A i x a : in_ivs s A -> inside x a -> in_ivs (<[i := x]> s) (<[i := a]> A).
Proof. apply Forall2_insert. Qed.

(** [carried s s' i j c x w]: [s'] is [s] after [s_j += x; s_i -= c << w]. *)
Definition carried (s s' : list Z) (i j : nat) (c x w : Z) : Prop :=
  exists a b, s !! i = Some a /\ s !! j = Some b /\
    s' = <[i := a - c * 2 ^ w]> (<[j := b + x]> s) /\ i <> j.

Lemma eval_carried ws s s' i j c x w :
  carried s s' i j c x w ->
  eval ws s' = eval ws s + nth j ws 0 * x - nth i ws 0 * 2 ^ w * c.
Proof.
  intros (a & b & Ha & Hb & -> & Hij).
  rewrite (eval_insert _ _ i a), (eval_insert _ _ j b); [lia|done|].
  by rewrite list_lookup_insert_ne.
Qed.

Lemma move_carry_sound s A A' ci xi r w i j c x a :
  in_ivs s A -> iv_move ci xi r w i j A = Some A' ->
  inside c ci -> inside x xi -> s !! i = Some a -> inside (a - c * 2 ^ w) r ->
  returns (move_carry c x w i j s) (fun s' => in_ivs s' A' /\ carried s s' i j c x w).
Proof.
  unfold iv_move, move_carry. intros Hs HA Hc Hx Ha Hr.
  destruct (A !! j) as [bi|] eqn:Ej; [simpl in HA|done].
  destruct (guard (iv_add bi xi)) as [bi'|] eqn:Eb; [simpl in HA|done].
  destruct (guard (iv_scale _ ci)) as [mi|] eqn:Em; [simpl in HA|done].
  destruct (A !! i) as [ai|] eqn:Ei; [simpl in HA|done].
  destruct (bool_decide_reflect (i <> j)) as [Hij|]; [simpl in HA|done].
  destruct (fits r) eqn:Er; [|done]. simplify_eq.
  destruct (in_ivs_lookup _ _ _ _ Hs Ej) as (b & Hb & Hbi).
  destruct (guard_ok _ _ _ Eb (inside_add _ _ _ _ Hbi Hx)) as [Hb' Hbok].
  destruct (guard_ok _ _ _ Em (inside_scale _ _ (2 ^ w) Hc)) as [_ Hmok].
  rewrite (get_ok _ _ _ Hb). simpl. rewrite Hbok. simpl.
  rewrite set_ok by eauto using lookup_lt_Some. simpl. rewrite Hmok. simpl.
  rewrite (get_ok _ i a) by (by rewrite list_lookup_insert_ne). simpl.
  rewrite (fits_ok _ _ Er Hr). simpl.
  rewrite set_ok by (rewrite length_insert; eauto using lookup_lt_Some). simpl.
  split; [by repeat apply in_ivs_insert|]. exists a, b. auto.
Qed.

Lemma round_remainder a w :
  0 < w -> inside (a - Z.shiftr (a + 2 ^ (w - 1)) w * 2 ^ w) (- 2 ^ (w - 1), 2 ^ (w - 1) - 1).
Proof.
  intros Hw. rewrite Z.shiftr_div_pow2 by lia. unfold inside. simpl.
  pose proof (Z.mod_pos_bound (a + 2 ^ (w - 1)) (2 ^ w) ltac:(lia)).
  pose proof (Z.div_mod (a + 2 ^ (w - 1)) (2 ^ w) ltac:(lia)).
  assert (2 ^ w = 2 * 2 ^ (w - 1)) as E by (rewrite <- Z.pow_succ_r by lia; f_equal; lia).
  lia.
Qed.

Lemma floor_remainder a w : 0 < w -> inside (a - Z.shiftr a w * 2 ^ w) (0, 2 ^ w - 1).
Proof.
  intros Hw. rewrite Z.shiftr_div_pow2 by lia. unfold inside. simpl.
  pose proof (Z.mod_pos_bound a (2 ^ w) ltac:(lia)).
  pose proof (Z.div_mod a (2 ^ w) ltac:(lia)). lia.
Qed.

Lemma carry_round_sound w i s A A' :
  in_ivs s A -> iv_carry_round w i A = Some A' ->
  returns (carry_round w i s) (fun s' => in_ivs s' A' /\ exists c, carried s s' i (S i) c c w).
Proof.
  unfold iv_carry_round, carry_round. intros Hs HA.
  destruct (A !! i) as [ai|] eqn:Ei; [simpl in HA|done].
  destruct (guard _) as [ti|] eqn:Et; [simpl in HA|done].
  destruct (Z.ltb_spec 0 w); [|done].
  destruct (in_ivs_lookup _ _ _ _ Hs Ei) as (a & Ha & Hai).
  assert (inside (a + 2 ^ (w - 1)) (iv_add ai (2 ^ (w - 1), 2 ^ (w - 1)))) as Ht
    by (apply inside_add; [done|unfold inside; simpl; lia]).
  destruct (guard_ok _ _ _ Et Ht) as [Ht' Htok].
  rewrite (get_ok _ _ _ Ha). simpl. rewrite Htok. simpl.
  eapply returns_mono; [eapply move_carry_sound; eauto using inside_shiftr, round_remainder|].
  naive_solver.
Qed.

Lemma carry_floor_sound w i s A A' :
  in_ivs s A -> iv_carry_floor w i A = Some A' ->
  returns (carry_floor w i s) (fun s' => in_ivs s' A' /\ exists c, carried s s' i (S i) c c w).
Proof.
  unfold iv_carry_floor, carry_floor. intros Hs HA.
  destruct (A !! i) as [ai|] eqn:Ei; [simpl in HA|done].
  destruct (Z.ltb_spec 0 w); [|done].
  destruct (in_ivs_lookup _ _ _ _ Hs Ei) as (a & Ha & Hai).
  rewrite (get_ok _ _ _ Ha). simpl.
  eapply returns_mono; [eapply move_carry_sound; eauto using inside_shiftr, floor_remainder|].
  naive_solver.
Qed.

Lemma carry_drop_sound w i s A A' :
  in_ivs s A -> iv_carry_drop w i A = Some A' ->
  returns (carry_drop w i s) (fun s' => in_ivs s' A' /\
    exists a, s !! i = Some a /\ s' = <[i := a mod 2 ^ w]> s).
Proof.
  unfold iv_carry_drop, carry_drop. intros Hs HA.
  destruct (A !! i) as [ai|] eqn:Ei; [simpl in HA|done].
  destruct (guard _) as [ti|] eqn:Et; [simpl in HA|done].
  destruct (Z.ltb_spec 0 w) as [Hw|]; [simpl in HA|done].
  destruct (fits _) eqn:Er; [|done]. simplify_eq.
  destruct (in_ivs_lookup _ _ _ _ Hs Ei) as (a & Ha & Hai).
  destruct (guard_ok _ _ _ Et (inside_scale _ _ _ (inside_shiftr _ _ _ Hw Hai))) as [_ Htok].
  rewrite (get_ok _ _ _ Ha). simpl. rewrite Htok. simpl.
  pose proof (floor_remainder a w Hw) as Hr.
  rewrite (fits_ok _ _ Er Hr). simpl. rewrite set_ok by eauto using lookup_lt_Some. simpl.
  split; [by apply in_ivs_insert|]. exists a. split; [done|]. do 2 f_equal.
  rewrite Z.shiftr_div_pow2, Z.mod_eq by lia. lia.
Qed.

Lemma carry_wrap_sound w i s A A' :
  in_ivs s A -> iv_carry_wrap w i A = Some A' ->
  returns (carry_wrap w i s) (fun s' => in_ivs s' A' /\ exists c, carried s s' i 0 c (c * 19) w).
Proof.
  unfold iv_carry_wrap, carry_wrap. intros Hs HA.
  destruct (A !! i) as [ai|] eqn:Ei; [simpl in HA|done].
  destruct (guard _) as [ti|] eqn:Et; [simpl in HA|done].
  destruct (guard (iv_scale _ _)) as [xi|] eqn:Ex; [simpl in HA|done].
  destruct (Z.ltb_spec 0 w); [|done].
  destruct (in_ivs_lookup _ _ _ _ Hs Ei) as (a & Ha & Hai).
  assert (inside (a + 2 ^ (w - 1)) (iv_add ai (2 ^ (w - 1), 2 ^ (w - 1)))) as Ht
    by (apply inside_add; [done|unfold inside; simpl; lia]).
  destruct (guard_ok _ _ _ Et Ht) as [Ht' Htok].
  destruct (guard_ok (Z.shiftr (a + 2 ^ (w - 1)) w * 19) _ _ Ex) as [Hx Hxok];
    [by apply inside_scale, inside_shiftr|].
  rewrite (get_ok _ _ _ Ha). simpl. rewrite Htok. simpl. rewrite Hxok. simpl.
  eapply returns_mono; [eapply move_carry_sound; eauto using inside_shiftr, round_remainder|].
  naive_solver.
Qed.

(** [bumped s s' j x]: [s'] is [s] after [s_j += x]. *)
Definition bumped (s s' : list Z) (j : nat) (x : Z) : Prop :=
  exists b, s !! j = Some b /\ s' = <[j := b + x]> s.

Lemma eval_bumped ws s s' j x : bumped s s' j x -> eval ws s' = eval ws s + nth j ws 0 * x.
Proof. intros (b & Hb & ->). rewrite (eval_insert _ _ _ b) by done. lia. Qed.

Lemma add_mul_sound j x xi m s A A' :
  in_ivs s A -> inside x xi -> iv_add_mul j xi m A = Some A' ->
  returns (add_mul j x m s) (fun s' => in_ivs s' A' /\ bumped s s' j (x * m)).
Proof.
  unfold iv_add_mul, add_mul. intros Hs Hx HA.
  destruct (guard _) as [ti|] eqn:Et; [simpl in HA|done].
  destruct (A !! j) as [bi|] eqn:Ej; [simpl in HA|done].
  destruct (guard (iv_add _ _)) as [bi'|] eqn:Eb; [simpl in HA|done]. simplify_eq.
  destruct (in_ivs_lookup _ _ _ _ Hs Ej) as (b & Hb & Hbi).
  destruct (guard_ok _ _ _ Et (inside_scale _ _ m Hx)) as [Ht Htok].
  destruct (guard_ok _ _ _ Eb (inside_add _ _ _ _ Hbi Ht)) as [Hb' Hbok].
  rewrite Htok. simpl. rewrite (get_ok _ _ _ Hb). simpl. rewrite Hbok. simpl.
  rewrite set_ok by eauto using lookup_lt_Some. simpl.
  split; [by apply in_ivs_insert|]. exists b. auto.
Qed.

Lemma sub_mul_sound j x xi m s A A' :
  in_ivs s A -> inside x xi -> iv_sub_mul j xi m A = Some A' ->
  returns (sub_mul j x m s) (fun s' => in_ivs s' A' /\ bumped s s' j (- (x * m))).
Proof.
  unfold iv_sub_mul, sub_mul. intros Hs Hx HA.
  destruct (guard _) as [ti|] eqn:Et; [simpl in HA|done].
  destruct (A !! j) as [bi|] eqn:Ej; [simpl in HA|done].
  destruct (guard (iv_add _ _)) as [bi'|] eqn:Eb; [simpl in HA|done]. simplify_eq.
  destruct (in_ivs_lookup _ _ _ _ Hs Ej) as (b & Hb & Hbi).
  destruct (guard_ok _ _ _ Et (inside_scale _ _ m Hx)) as [Ht Htok].
  destruct (guard_ok _ _ _ Eb (inside_add _ _ _ _ Hbi (inside_opp _ _ Ht))) as [Hb' Hbok].
  rewrite Htok. simpl. rewrite (get_ok _ _ _ Hb). simpl.
  replace (b - x * m) with (b + - (x * m)) by lia. rewrite Hbok. simpl.
  rewrite set_ok by eauto using lookup_lt_Some. simpl.
  split; [by apply in_ivs_insert|]. exists b. auto.
Qed.

(** The carries keep the value of a vector whose weights match their widths. *)
Lemma carry_round_spec ws w i s A A' :
  in_ivs s A -> iv_carry_round w i A = Some A' -> (nth (S i) ws 0 =? nth i ws 0 * 2 ^ w) = true ->
  returns (carry_round w i s) (fun s' => in_ivs s' A' /\ eval ws s' = eval ws s).
Proof.
  intros Hs HA Hw. eapply returns_mono; [by eapply carry_round_sound|].
  intros s' [Hs' [c Hc]]. split; [done|]. rewrite (eval_carried _ _ _ _ _ _ _ _ Hc). lia.
Qed.

Lemma carry_floor_spec ws w i s A A' :
  in_ivs s A -> iv_carry_floor w i A = Some A' -> (nth (S i) ws 0 =? nth i ws 0 * 2 ^ w) = true ->
  returns (carry_floor w i s) (fun s' => in_ivs s' A' /\ eval ws s' = eval ws s).
Proof.
  intros Hs HA Hw. eapply returns_mono; [by eapply carry_floor_sound|].
  intros s' [Hs' [c Hc]]. split; [done|]. rewrite (eval_carried _ _ _ _ _ _ _ _ Hc). lia.
Qed.
End Limbs.

(** Takes the elements and their bounds out of an interval vector. *)
Ltac ivs_inv H :=
  repeat (apply Forall2_cons_inv_r in H as (? & ? & ? & H & ->));
  apply Forall2_nil_inv_r in H as ->.

(** One carry of a chain: the vector's intervals are computed. *)
Ltac limb_carry lem ws :=
  let s := fresh "s" in let Hs := fresh "Hs" in let Hv := fresh "Hv" in
  eapply returns_bind; [eapply (lem ws); [eassumption | vm_compute; reflexivity | vm_compute; reflexivity] |];
  intros s [Hs Hv].
