(* ===== verification/Bytes.v ===== *)
(** * Byte strings and bit fields

    Little-endian byte strings, the loads [load_3] and [load_4] of
    [crypto-ops.c], and the bit-field view of an integer through which loading
    limbs from bytes and packing limbs into bytes are specified. *)

From stdpp Require Import base list numbers.
From Stdlib Require Import ZArith Lia.
From S2P Require Import Prelude.

(** ** Definitions *)
Definition is_byte (b : Z) : Prop := 0 <= b < 256.
Definition bytes (s : list Z) : Prop := Forall is_byte s.

#[export] Instance is_byte_dec b : Decision (is_byte b) := _.
#[export] Instance bytes_dec s : Decision (bytes s) := _.

(** [s[0] + 256*s[1] + 256^2*s[2] + ...] *)
Fixpoint le_val (s : list Z) : Z :=
  match s with [] => 0 | b :: s => b + 256 * le_val s end.

(** The [n] low bytes of [v], lowest first. *)
Fixpoint le_bytes (n : nat) (v : Z) : list Z :=
  match n with O => [] | S n => v mod 256 :: le_bytes n (v / 256) end.

(** The [w]-bit field of [v] that starts at bit [o]. *)
Definition bits (v o w : Z) : Z := Z.shiftr v o mod 2 ^ w.

Definition load_3 (s : list Z) (o : nat) : result Z :=
  let! b0 := get s o in
  let! b1 := get s (o + 1) in
  let! b2 := get s (o + 2) in
  let result := b0 in
  let result := Z.lor result (u64 (Z.shiftl b1 8)) in
  let result := Z.lor result (u64 (Z.shiftl b2 16)) in
  Ok result.

Definition load_4 (s : list Z) (o : nat) : result Z :=
  let! b0 := get s o in
  let! b1 := get s (o + 1) in
  let! b2 := get s (o + 2) in
  let! b3 := get s (o + 3) in
  let result := b0 in
  let result := Z.lor result (u64 (Z.shiftl b1 8)) in
  let result := Z.lor result (u64 (Z.shiftl b2 16)) in
  let result := Z.lor result (u64 (Z.shiftl b3 24)) in
  Ok result.

(** ** Little-endian values *)
Lemma le_val_app s t : le_val (s ++ t) = le_val s + 256 ^ Z.of_nat (length s) * le_val t.
Proof.
  induction s as [|b s IH]; simpl le_val; simpl length.
  - change (256 ^ Z.of_nat 0) with 1. simpl. lia.
  - rewrite Nat2Z.inj_succ, Z.pow_succ_r by lia. simpl. rewrite IH. lia.
Qed.

Lemma le_val_bound s : bytes s -> 0 <= le_val s < 256 ^ Z.of_nat (length s).
Proof.
  induction 1 as [|b s Hb Hs IH]; simpl le_val; simpl length.
  - change (256 ^ Z.of_nat 0) with 1. lia.
  - rewrite Nat2Z.inj_succ, Z.pow_succ_r by lia. unfold is_byte in Hb. lia.
Qed.

Lemma le_bytes_length n v : length (le_bytes n v) = n.
Proof. revert v. induction n; intros; simpl; auto. Qed.

Lemma le_bytes_bytes n v : bytes (le_bytes n v).
Proof.
  revert v. induction n as [|n IH]; intros v; simpl; constructor; [|apply IH].
  by apply Z.mod_pos_bound.
Qed.

Lemma le_val_bytes n v : le_val (le_bytes n v) = v mod 256 ^ Z.of_nat n.
Proof.
  revert v. induction n as [|n IH]; intros v; simpl le_bytes; simpl le_val.
  - change (256 ^ Z.of_nat 0) with 1. by rewrite Z.mod_1_r.
  - rewrite IH, Nat2Z.inj_succ, Z.pow_succ_r by lia. rewrite Z.rem_mul_r by lia. lia.
Qed.

Lemma le_bytes_val s : bytes s -> le_bytes (length s) (le_val s) = s.
Proof.
  induction 1 as [|b s Hb Hs IH]; [done|]. unfold is_byte in Hb. simpl.
  replace ((b + 256 * le_val s) mod 256) with b
    by (rewrite Z.mul_comm, Z.mod_add, Z.mod_small; lia).
  replace ((b + 256 * le_val s) / 256) with (le_val s)
    by (rewrite Z.mul_comm, Z.div_add, Z.div_small; lia).
  by rewrite IH.
Qed.

Lemma le_val_inj s t : bytes s -> bytes t -> length s = length t -> le_val s = le_val t -> s = t.
Proof. intros Hs Ht Hl Hv. by rewrite <- (le_bytes_val s), <- (le_bytes_val t), Hl, Hv. Qed.

Lemma le_bytes_alt n v :
  le_bytes n v = (fun i => bits v (8 * Z.of_nat i) 8) <$> seq 0 n.
Proof.
  revert v. induction n as [|n IH]; intros v; [done|]. simpl le_bytes.
  cbn [seq]. rewrite fmap_cons. f_equal.
  rewrite IH, <- fmap_S_seq, <- list_fmap_compose. apply list_fmap_ext.
  intros i x _. unfold bits, compose. change 256 with (2 ^ 8).
  rewrite <- (Z.shiftr_div_pow2 v 8) by lia.
  rewrite Z.shiftr_shiftr by lia. do 2 f_equal. lia.
Qed.

Lemma get_le_bytes n v i : (i < n)%nat -> get (le_bytes n v) i = Ok (bits v (8 * Z.of_nat i) 8).
Proof.
  intros Hi. apply get_ok. rewrite le_bytes_alt, list_lookup_fmap, lookup_seq_lt by done. done.
Qed.

(** ** Bit fields *)
Lemma bits_bound v o w : 0 <= w -> 0 <= bits v o w < 2 ^ w.
Proof. intros. apply Z.mod_pos_bound. lia. Qed.

Lemma testbit_bits v o w i :
  0 <= o -> 0 <= w -> 0 <= i -> Z.testbit (bits v o w) i = (i <? w) && Z.testbit v (i + o).
Proof.
  intros. unfold bits. rewrite Z.testbit_mod_pow2 by done.
  by rewrite Z.shiftr_spec by done.
Qed.

(** Equality of integers bit by bit; the case splits on bit positions are left
    to [lia]. *)
Ltac bit_cases :=
  repeat match goal with
  | |- context [ (?a <? ?b)%Z ] => destruct (Z.ltb_spec a b)
  end; simpl; try lia.

Ltac bitwise :=
  apply Z.bits_inj'; intros ?i ?Hi;
  repeat first
    [ rewrite Z.lor_spec | rewrite Z.land_spec | rewrite Z.lxor_spec
    | rewrite testbit_bits by lia | rewrite Z.testbit_mod_pow2 by lia
    | rewrite Z.shiftr_spec by lia | rewrite Z.shiftl_spec by lia ].

Lemma bits_mid lo x hi o w :
  0 <= o -> 0 <= w -> 0 <= lo < 2 ^ o -> 0 <= x < 2 ^ w ->
  bits (lo + 2 ^ o * (x + 2 ^ w * hi)) o w = x.
Proof.
  intros. unfold bits. rewrite Z.shiftr_div_pow2 by done.
  rewrite Z.mul_comm, Z.div_add, Z.div_small by lia.
  rewrite Z.add_0_l, Z.mul_comm, Z.mod_add, Z.mod_small; lia.
Qed.

Lemma bits_bits v o w o' w' :
  0 <= o -> 0 <= o' -> 0 <= w' -> o' + w' <= w -> bits (bits v o w) o' w' = bits v (o + o') w'.
Proof.
  intros. bitwise. bit_cases; try done. f_equal. lia.
Qed.

Lemma land_bits v o w n :
  0 <= o -> 0 <= w <= n -> Z.land (2 ^ w - 1) (bits v o n) = bits v o w.
Proof.
  intros. rewrite Z.land_comm. change (2 ^ w - 1) with (Z.pred (2 ^ w)).
  rewrite <- Z.ones_equiv, Z.land_ones by lia.
  transitivity (bits (bits v o n) 0 w); [unfold bits at 2; by rewrite Z.shiftr_0_r|].
  rewrite bits_bits by lia. f_equal. lia.
Qed.

Lemma shiftr_bits v o w n : 0 <= o -> 0 <= n <= w -> Z.shiftr (bits v o w) n = bits v (o + n) (w - n).
Proof.
  intros. bitwise. bit_cases; try done. f_equal. lia.
Qed.

Lemma testbit_small a k i : 0 <= a < 2 ^ k -> 0 <= k <= i -> Z.testbit a i = false.
Proof.
  intros Ha Hk. rewrite <- (Z.mod_small a (2 ^ k)) by done.
  by apply Z.mod_pow2_bits_high.
Qed.

Lemma lxor_bound a b k : 0 <= k -> 0 <= a < 2 ^ k -> 0 <= b < 2 ^ k -> 0 <= Z.lxor a b < 2 ^ k.
Proof.
  intros Hk Ha Hb. replace (Z.lxor a b) with (Z.lxor a b mod 2 ^ k); [apply Z.mod_pos_bound; lia|].
  bitwise. destruct (Z.ltb_spec i k); simpl; [done|].
  by rewrite !(testbit_small _ k i) by (done || lia).
Qed.

Lemma lor_shiftl_add a b k : 0 <= k -> 0 <= a < 2 ^ k -> Z.lor a (Z.shiftl b k) = a + b * 2 ^ k.
Proof.
  intros Hk Ha. rewrite <- Z.shiftl_mul_pow2 by done.
  assert (Z.land a (Z.shiftl b k) = 0) as H0.
  { bitwise. rewrite Z.bits_0. destruct (Z.ltb_spec i k).
    - rewrite (Z.testbit_neg_r _ (i - k)) by lia. by rewrite andb_false_r.
    - by rewrite (testbit_small a k i). }
  by rewrite Z.add_nocarry_lxor, Z.lxor_lor.
Qed.

(** ** Loads *)
Lemma byte_lookup s i : bytes s -> (i < length s)%nat -> exists b, s !! i = Some b /\ is_byte b.
Proof.
  intros Hs Hi. destruct (lookup_lt_is_Some_2 s i Hi) as [b Hb].
  exists b. split; [done|]. by eapply Forall_lookup_1.
Qed.

Lemma le_val_split s o n :
  bytes s -> (o + n <= length s)%nat ->
  bits (le_val s) (8 * Z.of_nat o) (8 * Z.of_nat n) = le_val (take n (drop o s)).
Proof.
  intros Hs Hl.
  assert (forall k, 256 ^ Z.of_nat k = 2 ^ (8 * Z.of_nat k)) as Hpow
    by (intros k; rewrite Z.pow_mul_r by lia; done).
  rewrite <- (take_drop o s) at 1. rewrite <- (take_drop n (drop o s)) at 1.
  rewrite !le_val_app, !length_take, length_drop.
  rewrite !Nat.min_l by lia. rewrite !Hpow.
  assert (bytes (take o s)) as H1 by by apply Forall_take.
  assert (bytes (take n (drop o s))) as H2 by (by apply Forall_take, Forall_drop).
  apply le_val_bound in H1, H2.
  rewrite !length_take, ?length_drop, Nat.min_l, Hpow in * by lia.
  apply bits_mid; lia.
Qed.

Lemma u64_byte b k : is_byte b -> 0 <= k <= 24 -> u64 (Z.shiftl b k) = Z.shiftl b k.
Proof.
  unfold is_byte, u64. intros. apply Z.mod_small. rewrite Z.shiftl_mul_pow2 by lia.
  pose proof (Z.pow_le_mono_r 2 k 24 ltac:(lia) ltac:(lia)).
  pose proof (Z.pow_pos_nonneg 2 k ltac:(lia) ltac:(lia)). nia.
Qed.

Lemma load_3_ok s o :
  bytes s -> (o + 3 <= length s)%nat -> load_3 s o = Ok (bits (le_val s) (8 * Z.of_nat o) 24).
Proof.
  intros Hs Hl. change 24 with (8 * Z.of_nat 3). rewrite le_val_split by done.
  destruct (byte_lookup s o) as (b0 & E0 & B0); [done|lia|].
  destruct (byte_lookup s (o + 1)) as (b1 & E1 & B1); [done|lia|].
  destruct (byte_lookup s (o + 2)) as (b2 & E2 & B2); [done|lia|].
  unfold load_3. rewrite (get_ok _ _ _ E0), (get_ok _ _ _ E1), (get_ok _ _ _ E2). simpl. f_equal.
  rewrite (drop_S _ _ _ E0). rewrite Nat.add_1_r in E1. rewrite (drop_S _ _ _ E1).
  replace (o + 2)%nat with (S (S o)) in E2 by lia. rewrite (drop_S _ _ _ E2). simpl.
  rewrite !u64_byte by (done || lia). unfold is_byte in *.
  rewrite (lor_shiftl_add b0 b1) by lia. rewrite (lor_shiftl_add _ b2) by lia. lia.
Qed.

Lemma load_4_ok s o :
  bytes s -> (o + 4 <= length s)%nat -> load_4 s o = Ok (bits (le_val s) (8 * Z.of_nat o) 32).
Proof.
  intros Hs Hl. change 32 with (8 * Z.of_nat 4). rewrite le_val_split by done.
  destruct (byte_lookup s o) as (b0 & E0 & B0); [done|lia|].
  destruct (byte_lookup s (o + 1)) as (b1 & E1 & B1); [done|lia|].
  destruct (byte_lookup s (o + 2)) as (b2 & E2 & B2); [done|lia|].
  destruct (byte_lookup s (o + 3)) as (b3 & E3 & B3); [done|lia|].
  unfold load_4. rewrite (get_ok _ _ _ E0), (get_ok _ _ _ E1), (get_ok _ _ _ E2), (get_ok _ _ _ E3).
  simpl. f_equal.
  rewrite (drop_S _ _ _ E0). rewrite Nat.add_1_r in E1. rewrite (drop_S _ _ _ E1).
  replace (o + 2)%nat with (S (S o)) in E2 by lia. rewrite (drop_S _ _ _ E2).
  replace (o + 3)%nat with (S (S (S o))) in E3 by lia. rewrite (drop_S _ _ _ E3). simpl.
  rewrite !u64_byte by (done || lia). unfold is_byte in *.
  rewrite (lor_shiftl_add b0 b1) by lia. rewrite (lor_shiftl_add _ b2) by lia.
  rewrite (lor_shiftl_add _ b3) by lia. lia.
Qed.

(** ** Packing limbs into bytes *)
Lemma u8_lor a b : u8 (Z.lor a b) = Z.lor (u8 a) (u8 b).
Proof. unfold u8. bitwise. by destruct (i <? 8). Qed.

Lemma u8_to_i32 z : u8 (to_i32 z) = u8 z.
Proof.
  unfold u8, to_i32, to_signed.
  rewrite (Z.mod_eq (z + _)) by lia.
  replace (z + 2 ^ (32 - 1) - 2 ^ 32 * ((z + 2 ^ (32 - 1)) / 2 ^ 32) - 2 ^ (32 - 1))
    with (z + - (2 ^ 24 * ((z + 2 ^ (32 - 1)) / 2 ^ 32)) * 2 ^ 8) by lia.
  by rewrite Z.mod_add by lia.
Qed.

(** A byte inside one limb. *)
Lemma pack_one v o w r :
  0 <= o -> 0 <= r -> r + 8 <= w -> u8 (Z.shiftr (bits v o w) r) = bits v (o + r) 8.
Proof.
  intros. rewrite shiftr_bits by lia. unfold u8.
  change (bits (bits v (o + r) (w - r)) 0 8 = bits v (o + r) 8).
  rewrite bits_bits by lia. f_equal. lia.
Qed.

(** A byte across two limbs. *)
Lemma pack_two v o w w' r k :
  0 <= o -> 0 <= r <= w -> k = w - r -> 8 <= k + w' -> 0 <= w' ->
  u8 (Z.lor (Z.shiftr (bits v o w) r) (Z.shiftl (bits v (o + w) w') k)) = bits v (o + r) 8.
Proof.
  intros ? ? -> ? ?. unfold u8. bitwise. bit_cases; try done.
  - rewrite (Z.testbit_neg_r (bits _ _ _) (i - _)) by lia. rewrite orb_false_r. f_equal. lia.
  - rewrite testbit_bits by lia. bit_cases. f_equal. lia.
Qed.

Lemma pack_two32 v o w w' r k :
  0 <= o -> 0 <= r <= w -> k = w - r -> 8 <= k + w' -> 0 <= w' ->
  u8 (Z.lor (Z.shiftr (bits v o w) r) (shl32 (bits v (o + w) w') k)) = bits v (o + r) 8.
Proof.
  intros. unfold shl32. rewrite u8_lor, u8_to_i32, <- u8_lor. by apply pack_two.
Qed.

(** The last byte, where the limb ends early. *)
Lemma pack_last v o w r :
  0 <= o -> 0 <= r <= w -> 0 <= v < 2 ^ (o + w) ->
  u8 (Z.shiftr (bits v o w) r) = bits v (o + r) 8.
Proof.
  intros. unfold u8. bitwise. bit_cases; try done.
  - f_equal. lia.
  - symmetry. apply (testbit_small _ (o + w)); lia.
Qed.

(** ** Digits of mixed width

    [positional ws hs] is the integer whose digits, lowest first, are [hs],
    the digit [h] of width [w] below [2^w]; [bit_fields v o ws] cuts [v] into
    such digits from bit [o] on. *)
Fixpoint positional (ws hs : list Z) : Z :=
  match ws, hs with
  | w :: ws, h :: hs => h + 2 ^ w * positional ws hs
  | _, _ => 0
  end.

Fixpoint bit_fields (v o : Z) (ws : list Z) : list Z :=
  match ws with [] => [] | w :: ws => bits v o w :: bit_fields v (o + w) ws end.

Definition is_digit (w h : Z) : Prop := 0 <= w /\ 0 <= h < 2 ^ w.

Definition total (ws : list Z) : Z := foldr Z.add 0 ws.

Lemma total_nonneg ws : Forall (Z.le 0) ws -> 0 <= total ws.
Proof. induction 1; unfold total in *; simpl; lia. Qed.

Lemma bits_high h w v o w' : 0 <= w -> 0 <= o -> 0 <= h < 2 ^ w -> bits (h + 2 ^ w * v) (w + o) w' = bits v o w'.
Proof.
  intros. unfold bits. rewrite <- Z.shiftr_shiftr by lia. do 2 f_equal.
  rewrite Z.shiftr_div_pow2, Z.mul_comm, Z.div_add, Z.div_small by lia. lia.
Qed.

Lemma bit_fields_high h w v o ws :
  0 <= w -> 0 <= o -> 0 <= h < 2 ^ w -> Forall (Z.le 0) ws ->
  bit_fields (h + 2 ^ w * v) (w + o) ws = bit_fields v o ws.
Proof.
  intros Hw Ho Hh Hws. revert o Ho. induction Hws as [|w' ws Hw' Hws IH]; intros o Ho; [done|].
  simpl. rewrite bits_high by done. f_equal. rewrite <- Z.add_assoc. apply IH. lia.
Qed.

Lemma bit_fields_positional ws hs :
  Forall2 is_digit ws hs -> bit_fields (positional ws hs) 0 ws = hs.
Proof.
  induction 1 as [|w h ws hs [Hw Hh] H IH]; [done|]. simpl. f_equal.
  - unfold bits. rewrite Z.shiftr_0_r, Z.mul_comm, Z.mod_add, Z.mod_small; lia.
  - rewrite <- (Z.add_0_r w) at 2. rewrite Z.add_0_l, bit_fields_high; try done.
    apply (Forall2_Forall_l _ _ _ _ H), Forall_true. by intros ? ? [? ?].
Qed.

Lemma positional_bound ws hs :
  Forall2 is_digit ws hs -> 0 <= positional ws hs < 2 ^ total ws.
Proof.
  induction 1 as [|w h ws hs [Hw Hh] H IH]; unfold total in *; simpl; [done|].
  assert (0 <= foldr Z.add 0 ws).
  { apply (total_nonneg ws), (Forall2_Forall_l _ _ _ _ H), Forall_true. by intros ? ? [? ?]. }
  rewrite Z.pow_add_r by done. nia.
Qed.

Lemma positional_bit_fields v o ws :
  0 <= o -> Forall (Z.le 0) ws -> positional ws (bit_fields v o ws) = bits v o (total ws).
Proof.
  intros Ho Hws. revert o Ho. induction Hws as [|w ws Hw Hws IH]; intros o Ho; simpl.
  - unfold bits. by rewrite Z.mod_1_r.
  - rewrite IH by lia. change (total (w :: ws)) with (w + total ws).
    pose proof (total_nonneg _ Hws). unfold bits.
    rewrite Z.pow_add_r, Z.rem_mul_r by lia.
    by rewrite <- Z.shiftr_div_pow2, Z.shiftr_shiftr by lia.
Qed.

Lemma bits_all v w : 0 <= v < 2 ^ w -> bits v 0 w = v.
Proof. intros. unfold bits. by rewrite Z.shiftr_0_r, Z.mod_small. Qed.

#[global] Arguments le_bytes : simpl never.

(** A test that holds for the 256 bytes. *)
Lemma byte_cases (f : Z -> bool) : forallb f (seqZ 0 256) = true -> forall b, is_byte b -> f b = true.
Proof. intros H b Hb. rewrite forallb_forall in H. apply H, list_elem_of_In, elem_of_seqZ. unfold is_byte in Hb. lia. Qed.
