(* ===== verification/IntUtil.v ===== *)
(** * Integer helpers

    [src/src/common/int-util.h]: 128-bit products and quotients in 64-bit
    words, and byte swapping.  The multiplication that [difficulty.cpp] has for
    other platforms is here as well. *)

From stdpp Require Import base list numbers.
From Stdlib Require Import ZArith Lia.
From S2P Require Import Prelude Bytes.

(** ** Definitions *)
Definition hi_dword (val : Z) : Z := Z.shiftr val 32.
Definition lo_dword (val : Z) : Z := Z.land val 0xFFFFFFFF.

(** The low word of the product, and [*product_hi]. *)
Definition mul128 (ndebug : bool) (multiplier multiplicand : Z) : result (Z * Z) :=
  let a := hi_dword multiplier in
  let b := lo_dword multiplier in
  let c := hi_dword multiplicand in
  let d := lo_dword multiplicand in
  let ac := u64 (a * c) in
  let ad := u64 (a * d) in
  let bc := u64 (b * c) in
  let bd := u64 (b * d) in
  let adbc := u64 (ad + bc) in
  let adbc_carry := if adbc <? ad then 1 else 0 in
  let product_lo := u64 (bd + u64 (Z.shiftl adbc 32)) in
  let product_lo_carry := if product_lo <? bd then 1 else 0 in
  let product_hi := u64 (u64 (u64 (ac + Z.shiftr adbc 32) + u64 (Z.shiftl adbc_carry 32)) + product_lo_carry) in
  let! _ := c_assert ndebug (Ok (ac <=? product_hi)) in
  Ok (product_lo, product_hi).

(** The quotient, and the new [*remainder]. *)
Definition div_with_reminder (dividend divisor remainder : Z) : result (Z * Z) :=
  let dividend := Z.lor dividend (u64 (Z.shiftl remainder 32)) in
  if divisor =? 0 then Fail DivisionByZero
  else Ok (dividend / divisor, u32 (dividend mod divisor)).

(** The remainder, [*quotient_hi] and [*quotient_lo]. *)
Definition div128_32 (dividend_hi dividend_lo divisor : Z) : result (Z * Z * Z) :=
  let d3 := hi_dword dividend_hi in
  let d2 := lo_dword dividend_hi in
  let d1 := hi_dword dividend_lo in
  let d0 := lo_dword dividend_lo in
  let! (q3, remainder) := div_with_reminder d3 divisor 0 in
  let quotient_hi := u64 (Z.shiftl q3 32) in
  let! (q2, remainder) := div_with_reminder d2 divisor remainder in
  let quotient_hi := Z.lor quotient_hi q2 in
  let! (q1, remainder) := div_with_reminder d1 divisor remainder in
  let quotient_lo := u64 (Z.shiftl q1 32) in
  let! (q0, remainder) := div_with_reminder d0 divisor remainder in
  let quotient_lo := Z.lor quotient_lo q0 in
  Ok (remainder, quotient_hi, quotient_lo).

Definition SWAP64 (x : Z) : Z :=
  Z.lor (Z.lor (Z.lor (Z.lor (Z.lor (Z.lor (Z.lor
    (u64 (Z.shiftl (Z.land x 0x00000000000000ff) 56))
    (u64 (Z.shiftl (Z.land x 0x000000000000ff00) 40)))
    (u64 (Z.shiftl (Z.land x 0x0000000000ff0000) 24)))
    (u64 (Z.shiftl (Z.land x 0x00000000ff000000) 8)))
    (Z.shiftr (Z.land x 0x000000ff00000000) 8))
    (Z.shiftr (Z.land x 0x0000ff0000000000) 24))
    (Z.shiftr (Z.land x 0x00ff000000000000) 40))
    (Z.shiftr (Z.land x 0xff00000000000000) 56).

(** [mul] of [src/src/cryptonote_basic/difficulty.cpp], for platforms other than x86-64: the
    low and the high word. *)
Definition mul_portable (a b : Z) : Z * Z :=
  let aLow := Z.land a 0xFFFFFFFF in
  let aHigh := Z.shiftr a 32 in
  let bLow := Z.land b 0xFFFFFFFF in
  let bHigh := Z.shiftr b 32 in
  let res := u64 (aLow * bLow) in
  let lowRes1 := Z.land res 0xFFFFFFFF in
  let carry := Z.shiftr res 32 in
  let res := u64 (u64 (aHigh * bLow) + carry) in
  let highResHigh1 := Z.shiftr res 32 in
  let highResLow1 := Z.land res 0xFFFFFFFF in
  let res := u64 (aLow * bHigh) in
  let lowRes2 := Z.land res 0xFFFFFFFF in
  let carry := Z.shiftr res 32 in
  let res := u64 (u64 (aHigh * bHigh) + carry) in
  let highResHigh2 := Z.shiftr res 32 in
  let highResLow2 := Z.land res 0xFFFFFFFF in
  let r := u64 (highResLow1 + lowRes2) in
  let carry := Z.shiftr r 32 in
  let low := Z.lor (u64 (Z.shiftl r 32)) lowRes1 in
  let r := u64 (u64 (highResHigh1 + highResLow2) + carry) in
  let d3 := Z.land r 0xFFFFFFFF in
  let carry := Z.shiftr r 32 in
  let r := u64 (highResHigh2 + carry) in
  let high := Z.lor d3 (u64 (Z.shiftl r 32)) in
  (low, high).

(** ** Words *)
Definition is_u32 (z : Z) : Prop := 0 <= z < 2 ^ 32.
Definition is_u64 (z : Z) : Prop := 0 <= z < 2 ^ 64.

#[export] Instance is_u32_dec z : Decision (is_u32 z) := _.
#[export] Instance is_u64_dec z : Decision (is_u64 z) := _.

Lemma hi_dword_div z : hi_dword z = z / 2 ^ 32.
Proof. unfold hi_dword. by rewrite Z.shiftr_div_pow2. Qed.

Lemma lo_dword_mod z : lo_dword z = z mod 2 ^ 32.
Proof. unfold lo_dword. change 0xFFFFFFFF with (Z.ones 32). by rewrite Z.land_ones. Qed.

(** The two halves of a word. *)
Lemma dwords z : is_u64 z -> z = 2 ^ 32 * hi_dword z + lo_dword z /\ is_u32 (hi_dword z) /\ is_u32 (lo_dword z).
Proof.
  intros Hz. unfold is_u64, is_u32 in *. rewrite hi_dword_div, lo_dword_mod.
  Z.to_euclidean_division_equations. lia.
Qed.

Lemma u64_id z : is_u64 z -> u64 z = z.
Proof. apply Z.mod_small. Qed.

Lemma lor_shift_add lo hi : is_u32 lo -> 0 <= hi -> Z.lor lo (Z.shiftl hi 32) = lo + 2 ^ 32 * hi.
Proof. intros Hlo Hhi. rewrite lor_shiftl_add by (unfold is_u32 in *; lia). lia. Qed.

Lemma mul_u32 a b : is_u32 a -> is_u32 b -> 0 <= a * b <= (2 ^ 32 - 1) * (2 ^ 32 - 1).
Proof. unfold is_u32. nia. Qed.

Lemma u64_add a b : is_u64 a -> is_u64 b ->
  u64 (a + b) = if u64 (a + b) <? a then a + b - 2 ^ 64 else a + b.
Proof.
  unfold is_u64, u64. intros Ha Hb. destruct (Z.ltb_spec ((a + b) mod 2 ^ 64) a); Z.to_euclidean_division_equations; lia.
Qed.

(** ** Multiplication *)

(** The sum of the four partial products, in two words. *)
Lemma partial_products ac ad bc bd hi lo :
  0 <= lo < 2 ^ 64 -> 2 ^ 64 * ac + 2 ^ 32 * (ad + bc) + bd = 2 ^ 64 * hi + lo ->
  (2 ^ 64 * ac + 2 ^ 32 * (ad + bc) + bd) mod 2 ^ 64 = lo /\ (2 ^ 64 * ac + 2 ^ 32 * (ad + bc) + bd) / 2 ^ 64 = hi.
Proof.
  intros Hlo ->. split; [by rewrite Z.add_comm, Z.mul_comm, Z.mod_add, Z.mod_small by lia|].
  rewrite Z.add_comm, Z.mul_comm, Z.div_add, Z.div_small by lia. lia.
Qed.

Lemma product_split x y :
  x * y = 2 ^ 64 * ((x / 2 ^ 32) * (y / 2 ^ 32)) +
    2 ^ 32 * ((x / 2 ^ 32) * (y mod 2 ^ 32) + (x mod 2 ^ 32) * (y / 2 ^ 32)) + (x mod 2 ^ 32) * (y mod 2 ^ 32).
Proof.
  rewrite (Z.div_mod x (2 ^ 32)) at 1 by lia. rewrite (Z.div_mod y (2 ^ 32)) at 1 by lia. ring.
Qed.

Lemma half_u32 x : is_u64 x -> is_u32 (x / 2 ^ 32) /\ is_u32 (x mod 2 ^ 32).
Proof. unfold is_u64, is_u32. intros. Z.to_euclidean_division_equations. lia. Qed.

Lemma mul128_spec {ndebug} x y :
  is_u64 x -> is_u64 y -> mul128 ndebug x y = Ok ((x * y) mod 2 ^ 64, x * y / 2 ^ 64).
Proof.
  intros Hx Hy. destruct (half_u32 x Hx) as [Ha Hb], (half_u32 y Hy) as [Hc Hd]. unfold mul128.
  rewrite !hi_dword_div, !lo_dword_mod, (product_split x y). cbv zeta.
  pose proof (mul_u32 _ _ Ha Hc) as Hac. pose proof (mul_u32 _ _ Ha Hd) as Had.
  pose proof (mul_u32 _ _ Hb Hc) as Hbc. pose proof (mul_u32 _ _ Hb Hd) as Hbd.
  set (ac := x / 2 ^ 32 * (y / 2 ^ 32)) in *. set (ad := x / 2 ^ 32 * (y mod 2 ^ 32)) in *.
  set (bc := x mod 2 ^ 32 * (y / 2 ^ 32)) in *. set (bd := x mod 2 ^ 32 * (y mod 2 ^ 32)) in *.
  clearbody ac ad bc bd. rewrite !(u64_id ac), !(u64_id ad), !(u64_id bc), !(u64_id bd) by (unfold is_u64; lia).
  remember (u64 (ad + bc)) as s eqn:Es.
  assert (0 <= s < 2 ^ 64 /\ s + 2 ^ 64 * (if s <? ad then 1 else 0) = ad + bc) as [Hs Es'].
  { rewrite Es at 3. rewrite Es. unfold u64. destruct (Z.ltb_spec ((ad + bc) mod 2 ^ 64) ad); Z.to_euclidean_division_equations; lia. }
  clear Es.
  remember (u64 (bd + u64 (Z.shiftl s 32))) as lo eqn:Elo.
  assert (0 <= lo < 2 ^ 64 /\ lo + 2 ^ 64 * (if lo <? bd then 1 else 0) = bd + 2 ^ 32 * (s mod 2 ^ 32)) as [Hlo Elo'].
  { rewrite Z.shiftl_mul_pow2 in Elo by lia. unfold u64 in Elo.
    destruct (Z.ltb_spec lo bd); Z.to_euclidean_division_equations; lia. }
  clear Elo.
  rewrite (Z.shiftr_div_pow2 s), Z.shiftl_mul_pow2 by lia.
  set (c1 := if s <? ad then 1 else 0) in *. set (c2 := if lo <? bd then 1 else 0) in *.
  assert (0 <= c1 <= 1) by (unfold c1; case_match; lia). assert (0 <= c2 <= 1) by (unfold c2; case_match; lia).
  clearbody c1 c2.
  destruct (partial_products ac ad bc bd (ac + s / 2 ^ 32 + c1 * 2 ^ 32 + c2) lo Hlo) as [-> ->].
  { Z.to_euclidean_division_equations. lia. }
  assert (0 <= ac + s / 2 ^ 32 + c1 * 2 ^ 32 + c2 < 2 ^ 64) as Hhi by (Z.to_euclidean_division_equations; lia).
  assert (0 <= s / 2 ^ 32) by (apply Z.div_pos; lia).
  rewrite (u64_id (c1 * 2 ^ 32)), (u64_id (ac + s / 2 ^ 32)), (u64_id (ac + s / 2 ^ 32 + c1 * 2 ^ 32)), u64_id by (unfold is_u64; lia).
  rewrite c_assert_true; [done|]. f_equal. apply Z.leb_le. lia.
Qed.

Lemma u64_shift_mod r : 0 <= r -> u64 (Z.shiftl r 32) = Z.shiftl (r mod 2 ^ 32) 32.
Proof.
  intros Hr. rewrite !Z.shiftl_mul_pow2 by lia. unfold u64. Z.to_euclidean_division_equations. lia.
Qed.

(** Both multiplications compute the product. *)
Lemma mul_portable_spec x y :
  is_u64 x -> is_u64 y -> mul_portable x y = ((x * y) mod 2 ^ 64, x * y / 2 ^ 64).
Proof.
  intros Hx Hy. destruct (half_u32 x Hx) as [Ha Hb], (half_u32 y Hy) as [Hc Hd]. unfold mul_portable.
  fold (lo_dword x) (lo_dword y) (hi_dword x) (hi_dword y).
  rewrite !hi_dword_div, !lo_dword_mod, (product_split x y). cbv zeta.
  pose proof (mul_u32 _ _ Ha Hc) as Hac. pose proof (mul_u32 _ _ Ha Hd) as Had.
  pose proof (mul_u32 _ _ Hb Hc) as Hbc. pose proof (mul_u32 _ _ Hb Hd) as Hbd.
  set (ac := x / 2 ^ 32 * (y / 2 ^ 32)) in *. set (ad := x / 2 ^ 32 * (y mod 2 ^ 32)) in *.
  set (bc := x mod 2 ^ 32 * (y / 2 ^ 32)) in *. set (bd := x mod 2 ^ 32 * (y mod 2 ^ 32)) in *.
  clearbody ac ad bc bd. rewrite !(u64_id ac), !(u64_id ad), !(u64_id bc), !(u64_id bd) by (unfold is_u64; lia).
  fold (lo_dword bd) (lo_dword bc) (hi_dword bd) (hi_dword bc).
  destruct (dwords bd ltac:(unfold is_u64; lia)) as (Ebd & Hbd1 & Hbd0), (dwords bc ltac:(unfold is_u64; lia)) as (Ebc & Hbc1 & Hbc0).
  set (bd1 := hi_dword bd) in *. set (bd0 := lo_dword bd) in *. set (bc1 := hi_dword bc) in *. set (bc0 := lo_dword bc) in *.
  clearbody bd1 bd0 bc1 bc0. unfold is_u32 in Hbd1, Hbd0, Hbc1, Hbc0. subst bd bc.
  rewrite !(u64_id (ad + bd1)), !(u64_id (ac + bc1)) by (unfold is_u64; lia).
  fold (lo_dword (ad + bd1)) (lo_dword (ac + bc1)) (hi_dword (ad + bd1)) (hi_dword (ac + bc1)).
  destruct (dwords (ad + bd1) ltac:(unfold is_u64; lia)) as (E1 & H11 & H10), (dwords (ac + bc1) ltac:(unfold is_u64; lia)) as (E2 & H21 & H20).
  set (m1 := hi_dword (ad + bd1)) in *. set (m0 := lo_dword (ad + bd1)) in *.
  set (n1 := hi_dword (ac + bc1)) in *. set (n0 := lo_dword (ac + bc1)) in *. clearbody m1 m0 n1 n0. unfold is_u32 in H11, H10, H21, H20.
  rewrite !(u64_id (m0 + bc0)), !(u64_id (m1 + n0)) by (unfold is_u64; lia).
  rewrite u64_shift_mod by lia. fold (hi_dword (m0 + bc0)). rewrite hi_dword_div. set (k := (m0 + bc0) / 2 ^ 32).
  assert (0 <= k <= 1 /\ m0 + bc0 = 2 ^ 32 * k + (m0 + bc0) mod 2 ^ 32) as [Hk Ek] by (unfold k; Z.to_euclidean_division_equations; lia).
  rewrite Z.lor_comm, lor_shift_add by (unfold is_u32; Z.to_euclidean_division_equations; lia).
  rewrite (u64_id (m1 + n0 + k)) by (unfold is_u64; lia).
  fold (lo_dword (m1 + n0 + k)) (hi_dword (m1 + n0 + k)). rewrite lo_dword_mod, hi_dword_div.
  set (j := (m1 + n0 + k) / 2 ^ 32).
  assert (0 <= j <= 2 /\ m1 + n0 + k = 2 ^ 32 * j + (m1 + n0 + k) mod 2 ^ 32) as [Hj Ej] by (unfold j; Z.to_euclidean_division_equations; lia).
  pose proof (Z.mod_pos_bound (m0 + bc0) (2 ^ 32) ltac:(lia)) as R0. pose proof (Z.mod_pos_bound (m1 + n0 + k) (2 ^ 32) ltac:(lia)) as R1.
  clearbody k j. rewrite (u64_id (n1 + j)) by (unfold is_u64; lia).
  rewrite u64_shift_mod, lor_shift_add by (unfold is_u32; try apply Z.mod_pos_bound; lia).
  assert (n1 + j < 2 ^ 32) as Hnj by lia. rewrite (Z.mod_small (n1 + j)) by lia.
  destruct (partial_products ac ad (2 ^ 32 * bc1 + bc0) (2 ^ 32 * bd1 + bd0)
    ((m1 + n0 + k) mod 2 ^ 32 + 2 ^ 32 * (n1 + j)) (bd0 + 2 ^ 32 * ((m0 + bc0) mod 2 ^ 32))) as [-> ->]; [lia|lia|done].
Qed.

(** ** Division *)
Lemma div_with_reminder_spec dividend divisor remainder :
  is_u32 dividend -> 0 < divisor < 2 ^ 32 -> 0 <= remainder < divisor ->
  div_with_reminder dividend divisor remainder =
    Ok ((2 ^ 32 * remainder + dividend) / divisor, (2 ^ 32 * remainder + dividend) mod divisor).
Proof.
  intros Hd Hv Hr. unfold div_with_reminder. rewrite (u64_id (Z.shiftl remainder 32))
    by (unfold is_u64; rewrite Z.shiftl_mul_pow2; lia).
  rewrite lor_shift_add, (Z.add_comm dividend) by (done || lia). destruct (Z.eqb_spec divisor 0); [lia|].
  do 2 f_equal. apply Z.mod_small. pose proof (Z.mod_pos_bound (2 ^ 32 * remainder + dividend) divisor ltac:(lia)). lia.
Qed.

(** One digit of the long division. *)
Lemma digit_bound dividend divisor remainder :
  is_u32 dividend -> 0 <= remainder < divisor -> is_u32 ((2 ^ 32 * remainder + dividend) / divisor).
Proof.
  intros Hd Hr. unfold is_u32 in *. split; [apply Z.div_pos; lia|]. apply Z.div_lt_upper_bound; nia.
Qed.

Lemma div128_32_spec hi lo divisor :
  is_u64 hi -> is_u64 lo -> 0 < divisor < 2 ^ 32 ->
  let n := 2 ^ 64 * hi + lo in
  div128_32 hi lo divisor = Ok (n mod divisor, n / divisor / 2 ^ 64, (n / divisor) mod 2 ^ 64).
Proof.
  intros Hhi Hlo Hv n. destruct (dwords hi Hhi) as (Eh & H3 & H2), (dwords lo Hlo) as (El & H1 & H0). unfold div128_32.
  set (d3 := hi_dword hi) in *. set (d2 := lo_dword hi) in *. set (d1 := hi_dword lo) in *. set (d0 := lo_dword lo) in *.
  rewrite (div_with_reminder_spec d3) by (done || lia). cbn [bind].
  set (r3 := (2 ^ 32 * 0 + d3) mod divisor). set (q3 := (2 ^ 32 * 0 + d3) / divisor).
  assert (0 <= r3 < divisor) as R3 by (apply Z.mod_pos_bound; lia). rewrite (div_with_reminder_spec d2) by done. cbn [bind].
  set (r2 := (2 ^ 32 * r3 + d2) mod divisor). set (q2 := (2 ^ 32 * r3 + d2) / divisor).
  assert (0 <= r2 < divisor) as R2 by (apply Z.mod_pos_bound; lia). rewrite (div_with_reminder_spec d1) by done. cbn [bind].
  set (r1 := (2 ^ 32 * r2 + d1) mod divisor). set (q1 := (2 ^ 32 * r2 + d1) / divisor).
  assert (0 <= r1 < divisor) as R1 by (apply Z.mod_pos_bound; lia). rewrite (div_with_reminder_spec d0) by done. cbn [bind].
  set (r0 := (2 ^ 32 * r1 + d0) mod divisor). set (q0 := (2 ^ 32 * r1 + d0) / divisor).
  assert (0 <= r0 < divisor) as R0 by (apply Z.mod_pos_bound; lia).
  assert (is_u32 q3) as Q3 by (apply digit_bound; [done|lia]). assert (is_u32 q2) as Q2 by (by apply digit_bound).
  assert (is_u32 q1) as Q1 by (by apply digit_bound). assert (is_u32 q0) as Q0 by (by apply digit_bound).
  pose proof (Z.div_mod (2 ^ 32 * 0 + d3) divisor ltac:(lia)) as E3. pose proof (Z.div_mod (2 ^ 32 * r3 + d2) divisor ltac:(lia)) as E2.
  pose proof (Z.div_mod (2 ^ 32 * r2 + d1) divisor ltac:(lia)) as E1. pose proof (Z.div_mod (2 ^ 32 * r1 + d0) divisor ltac:(lia)) as E0.
  fold q3 r3 in E3. fold q2 r2 in E2. fold q1 r1 in E1. fold q0 r0 in E0. unfold is_u32 in Q3, Q2, Q1, Q0.
  rewrite !u64_id by (unfold is_u64; rewrite Z.shiftl_mul_pow2; lia).
  rewrite !(Z.lor_comm (Z.shiftl _ _)), !lor_shift_add by (unfold is_u32; lia).
  assert (n = divisor * (2 ^ 64 * (q2 + 2 ^ 32 * q3) + (q0 + 2 ^ 32 * q1)) + r0) as En by (unfold n; rewrite Eh, El; clear -E3 E2 E1 E0; nia).
  rewrite <- (Z.mod_unique n divisor _ r0 (or_introl R0) En), <- (Z.div_unique n divisor _ r0 (or_introl R0) En).
  set (qh := q2 + 2 ^ 32 * q3). set (ql := q0 + 2 ^ 32 * q1). assert (0 <= ql < 2 ^ 64) by (unfold ql; lia).
  rewrite (Z.add_comm _ ql), (Z.mul_comm _ qh), Z.div_add, Z.mod_add, Z.div_small, Z.mod_small by lia. done.
Qed.
