(* ===== verification/Streaming.v ===== *)
(** * Buffered input

    What the hash functions that take their input in pieces share: [memcpy]
    into a buffer, big-endian words, and messages cut into blocks. *)

From stdpp Require Import base list numbers.
From Stdlib Require Import ZArith Lia.
From S2P Require Import Prelude Bytes.

(** ** Definitions *)

(** [memcpy(dst + o, src, n)]: the new contents of [dst]. *)
Definition memcpy (dst : list Z) (o : nat) (src : list Z) (n : nat) : result (list Z) :=
  if decide (o + n <= length dst /\ n <= length src)%nat
  then Ok (take o dst ++ take n src ++ drop (o + n) dst)
  else Fail OutOfBounds.

(** A 64-bit number does not change when it is reduced. *)
Lemma u64_small a : 0 <= a < 2 ^ 64 -> u64 a = a.
Proof. apply Z.mod_small. Qed.

(** ** Big-endian numbers *)
Definition be_val (s : list Z) : Z := le_val (reverse s).

Lemma be_val_bound s : bytes s -> 0 <= be_val s < 256 ^ Z.of_nat (length s).
Proof. intros Hs. unfold be_val. rewrite <- (length_reverse s). by apply le_val_bound, Forall_reverse. Qed.

Lemma be_val_snoc s b : be_val (s ++ [b]) = 256 * be_val s + b.
Proof. unfold be_val. rewrite reverse_snoc. cbn [le_val]. lia. Qed.

(** The big-endian bytes of a number. *)
Definition be_bytes (n : nat) (v : Z) : list Z := reverse (le_bytes n v).

Lemma be_bytes_val s : bytes s -> be_bytes (length s) (be_val s) = s.
Proof.
  intros Hs. unfold be_bytes, be_val. rewrite <- (length_reverse s), le_bytes_val by (by apply Forall_reverse).
  apply reverse_involutive.
Qed.

Lemma be_val_bytes n v : 0 <= v < 256 ^ Z.of_nat n -> be_val (be_bytes n v) = v.
Proof. intros Hv. unfold be_bytes, be_val. rewrite reverse_involutive, le_val_bytes. by apply Z.mod_small. Qed.

Lemma be_bytes_ok n v : bytes (be_bytes n v) /\ length (be_bytes n v) = n.
Proof. unfold be_bytes. split; [apply Forall_reverse, le_bytes_bytes|by rewrite length_reverse, le_bytes_length]. Qed.

(** ** Copying *)
Lemma memcpy_ok dst o src n :
  (o + n <= length dst)%nat -> (n <= length src)%nat -> memcpy dst o src n = Ok (take o dst ++ take n src ++ drop (o + n) dst).
Proof. intros H1 H2. unfold memcpy. by rewrite decide_True. Qed.

(** [take o dst] holds the data so far. *)
Lemma memcpy_append dst pend src n :
  take (length pend) dst = pend -> (length pend + n <= length dst)%nat -> (n <= length src)%nat ->
  exists dst', memcpy dst (length pend) src n = Ok dst' /\ length dst' = length dst /\
    take (length pend + n) dst' = pend ++ take n src.
Proof.
  intros Hp H1 H2. rewrite memcpy_ok by done. eexists. split; [done|]. rewrite Hp. split.
  - rewrite !length_app, length_take, length_drop. lia.
  - rewrite app_assoc, take_app_le by (rewrite length_app, length_take; lia).
    apply take_ge. rewrite length_app, length_take. lia.
Qed.

(** A list of sixteen words, spelled out. *)
Lemma sixteen {A} (y : list A) : length y = 16%nat ->
  exists y0 y1 y2 y3 y4 y5 y6 y7 y8 y9 y10 y11 y12 y13 y14 y15, y = [y0; y1; y2; y3; y4; y5; y6; y7; y8; y9; y10; y11; y12; y13; y14; y15].
Proof. intros Hl. do 16 (destruct y as [|? y]; [done|]). destruct y; [|done]. by repeat eexists. Qed.

(** ** Exclusive or of byte strings *)

(** [bytes] of an explicit list. *)
Ltac byte_list := unfold bytes; repeat (apply List.Forall_cons; [first [assumption|idtac]|]); first [apply List.Forall_nil|idtac].

Lemma lxor_digit a b A B :
  is_byte a -> is_byte b -> Z.lxor (a + 256 * A) (b + 256 * B) = Z.lxor a b + 256 * Z.lxor A B.
Proof.
  intros Ha Hb. unfold is_byte in *.
  assert (forall x X, 0 <= x < 256 -> x + 256 * X = Z.lxor x (Z.shiftl X 8)) as H.
  { intros x X Hx. rewrite <- Z.add_nocarry_lxor; [by rewrite Z.shiftl_mul_pow2, Z.mul_comm by lia|].
    bitwise. rewrite Z.bits_0. destruct (Z.ltb_spec i 8).
    - rewrite (Z.testbit_neg_r X) by lia. apply andb_false_r.
    - rewrite (testbit_small x 8 i) by lia. done. }
  pose proof (lxor_bound a b 8 ltac:(lia) Ha Hb) as Hab. change (2 ^ 8) with 256 in Hab.
  rewrite !H by done. rewrite Z.shiftl_lxor. bitwise.
  repeat match goal with |- context [Z.testbit ?x ?i] => destruct (Z.testbit x i) end; done.
Qed.

Lemma le_val_lxor s t :
  bytes s -> bytes t -> length s = length t -> Z.lxor (le_val s) (le_val t) = le_val (zip_with Z.lxor s t).
Proof.
  intros Hs. revert t. induction Hs as [|a s Ha Hs IH]; intros [|b t] Ht Hl; try done.
  apply Forall_cons_1 in Ht as [Hb Ht]. cbn [zip_with le_val]. rewrite lxor_digit by done. rewrite IH by (done || (cbn in Hl; lia)). done.
Qed.

Lemma lxor_4 a0 a1 a2 a3 b0 b1 b2 b3 :
  bytes [a0; a1; a2; a3] -> bytes [b0; b1; b2; b3] ->
  Z.lxor (le_val [a0; a1; a2; a3]) (le_val [b0; b1; b2; b3]) =
  le_val [Z.lxor a0 b0; Z.lxor a1 b1; Z.lxor a2 b2; Z.lxor a3 b3].
Proof. intros Ha Hb. by rewrite le_val_lxor. Qed.

Lemma lxor_byte a b : is_byte a -> is_byte b -> is_byte (Z.lxor a b).
Proof. intros Ha Hb. by apply (lxor_bound a b 8). Qed.

Lemma zip_lxor_bytes s t : bytes s -> bytes t -> bytes (zip_with Z.lxor s t).
Proof.
  intros Hs. revert t. induction Hs as [|a s Ha Hs IH]; intros t Ht; [constructor|]. destruct Ht as [|b t Hb Ht]; [constructor|].
  cbn [zip_with]. apply List.Forall_cons; [by apply lxor_byte|by apply IH].
Qed.

Lemma le_val_byte w j : bytes w -> (j < length w)%nat -> u8 (Z.shiftr (le_val w) (8 * Z.of_nat j)) = nth j w 0.
Proof.
  intros Hw. revert j. induction Hw as [|b w Hb Hw IH]; intros j Hj; [cbn in Hj; lia|]. unfold is_byte in Hb. cbn [le_val].
  destruct j as [|j].
  - rewrite Z.mul_0_r, Z.shiftr_0_r. unfold u8. change (2 ^ 8) with 256. rewrite Z.mul_comm, Z.mod_add, Z.mod_small by lia. done.
  - cbn [nth]. rewrite <- IH by (cbn in Hj; lia). f_equal. replace (8 * Z.of_nat (S j)) with (8 + 8 * Z.of_nat j) by lia.
    rewrite <- Z.shiftr_shiftr by lia. f_equal. rewrite Z.shiftr_div_pow2 by lia. change (2 ^ 8) with 256.
    rewrite Z.mul_comm, Z.div_add, Z.div_small by lia. lia.
Qed.

Lemma nth_bytes s k : bytes s -> (k < length s)%nat -> is_byte (nth k s 0).
Proof. intros Hs Hk. unfold bytes in Hs. rewrite List.Forall_forall in Hs. by apply Hs, nth_In. Qed.

(** ** Loops *)
Lemma for_snoc {A} n (f : nat -> A -> result A) i s : for_ (S n) f i s = let! s := for_ n f i s in f (i + n)%nat s.
Proof.
  revert i s. induction n as [|n IH]; intros i s; [cbn; rewrite Nat.add_0_r; by destruct (f i s)|].
  cbn [for_] in *. destruct (f i s); [|done]. cbn [bind]. rewrite IH. by rewrite Nat.add_succ_comm.
Qed.

(** A loop whose steps compute [g] on the states with [P]. *)
Lemma for_foldl {A} n (f : nat -> A -> result A) (g : A -> nat -> A) (P : A -> Prop) i s :
  P s -> (forall k a, (i <= k < i + n)%nat -> P a -> f k a = Ok (g a k) /\ P (g a k)) ->
  for_ n f i s = Ok (foldl g s (seq i n)) /\ P (foldl g s (seq i n)).
Proof.
  revert i s. induction n as [|n IH]; intros i s Hs Hf; [done|]. cbn [for_ seq foldl].
  destruct (Hf i s ltac:(lia) Hs) as [-> Hg]. cbn [bind]. apply IH; [exact Hg|]. intros k a Hk. apply Hf. lia.
Qed.

Lemma for_down_foldl {A} n (f : nat -> A -> result A) (g : A -> nat -> A) (P : A -> Prop) s :
  P s -> (forall k a, (k < n)%nat -> P a -> f k a = Ok (g a k) /\ P (g a k)) ->
  for_down n f s = Ok (foldl g s (reverse (seq 0 n))) /\ P (foldl g s (reverse (seq 0 n))).
Proof.
  revert s. induction n as [|n IH]; intros s Hs Hf; [done|]. rewrite seq_S, reverse_snoc. cbn [for_down foldl Nat.add].
  destruct (Hf n s ltac:(lia) Hs) as [-> Hg]. cbn [bind]. apply IH; [exact Hg|]. intros k a Hk. apply Hf. lia.
Qed.

(** ** Writing at a position *)
Lemma memcpy_at (A B src : list Z) o n :
  length A = o -> (n <= length B)%nat -> (n <= length src)%nat -> memcpy (A ++ B) o src n = Ok (A ++ take n src ++ drop n B).
Proof.
  intros <- HB Hs. rewrite memcpy_ok by (rewrite ?length_app; lia). rewrite take_app_length, drop_app_add. done.
Qed.

(** ** Blocks of the same size *)
Definition sized (n : nat) (t : list Z) : Prop := length t = n.

Lemma sized_length n w : Forall (sized n) w -> length (concat w) = (n * length w)%nat.
Proof. induction 1 as [|t w Ht Hw IH]; [cbn; lia|]. unfold sized in Ht. cbn [concat length]. rewrite length_app, IH, Ht. lia. Qed.

Lemma sized_drop n w m : Forall (sized n) w -> drop (n * m) (concat w) = concat (drop m w).
Proof.
  intros Hw. revert m. induction Hw as [|t w Ht Hw IH]; intros m; [cbn [concat]; by rewrite !drop_nil|].
  destruct m as [|m]; [by rewrite Nat.mul_0_r|]. unfold sized in Ht.
  cbn [concat drop]. rewrite <- IH. replace (n * S m)%nat with (length t + n * m)%nat by lia. apply drop_app_add.
Qed.

Lemma sized_take n w m : Forall (sized n) w -> take (n * m) (concat w) = concat (take m w).
Proof.
  intros Hw. revert m. induction Hw as [|t w Ht Hw IH]; intros m; [cbn [concat]; by rewrite !take_nil|].
  destruct m as [|m]; [by rewrite Nat.mul_0_r|]. unfold sized in Ht.
  cbn [concat take]. rewrite <- IH. replace (n * S m)%nat with (length t + n * m)%nat by lia. apply take_app_add.
Qed.

(** The blocks of a string. *)
Lemma sized_blocks n (s : list Z) m : concat ((fun i => take n (drop (n * i) s)) <$> seq 0 m) = take (n * m) s.
Proof.
  induction m as [|m IH]; [by rewrite Nat.mul_0_r|]. rewrite seq_S, fmap_app, concat_app, IH. cbn [fmap list_fmap concat Nat.add].
  rewrite app_nil_r, take_take_drop. f_equal. lia.
Qed.
