(* ===== verification/Varint.v ===== *)
(** * Variable-length integers

    [src/src/common/varint.h]: seven bits per byte, lowest first, the high bit
    set on every byte but the last. *)

From stdpp Require Import base list numbers.
From Stdlib Require Import ZArith Lia.
From S2P Require Import Prelude Bytes.

(** ** Definitions *)

(** A 64-bit integer takes at most 10 bytes: [VARINT_SIZE] is enough fuel. *)
Fixpoint write_varint (fuel : nat) (i : Z) : result (list Z) :=
  match fuel with
  | O => Fail OutOfFuel
  | S fuel =>
      if i >=? 0x80 then
        let! rest := write_varint fuel (Z.shiftr i 7) in
        Ok (Z.lor (Z.land i 0x7f) 0x80 :: rest)
      else Ok [i]
  end.

Definition VARINT_SIZE : nat := 10.

Definition get_varint_data (v : Z) : result (list Z) := write_varint VARINT_SIZE v.

Definition EVARINT_OVERFLOW : Z := -1.
Definition EVARINT_REPRESENT : Z := -2.

(** The loop of [read_varint<bits>] for an integer of [bits] bits: the value returned and [write]. *)
Fixpoint read_varint_loop (bits : Z) (s : list Z) (read shift write : Z) : Z * Z :=
  match s with
  | [] => (read, write)
  | byte :: s =>
      let read := read + 1 in
      if (shift + 7 >=? bits) && (byte >=? Z.shiftl 1 (bits - shift)) then (EVARINT_OVERFLOW, write)
      else if (byte =? 0) && negb (shift =? 0) then (EVARINT_REPRESENT, write)
      else
        let write := Z.lor write (Z.shiftl (Z.land byte 0x7f) shift mod 2 ^ bits) in
        if Z.land byte 0x80 =? 0 then (read, write)
        else read_varint_loop bits s read (shift + 7) write
  end.

Definition read_varint (bits : Z) (s : list Z) : Z * Z := read_varint_loop bits s 0 0 0.

(** ** The format *)
Fixpoint varint_val (s : list Z) : Z :=
  match s with [] => 0 | b :: s => b mod 128 + 128 * varint_val s end.

(** The last byte is not zero, unless it is the only one. *)
Fixpoint canonical (first : bool) (s : list Z) : Prop :=
  match s with
  | [] => False
  | b :: [] => 0 <= b < 128 /\ (first = true \/ b <> 0)
  | b :: s => 128 <= b < 256 /\ canonical false s
  end.

Lemma canonical_cons first b s : s <> [] -> canonical first (b :: s) <-> 128 <= b < 256 /\ canonical false s.
Proof. by destruct s. Qed.

Lemma canonical_nonempty first s : canonical first s -> s <> [].
Proof. by destruct s. Qed.

Lemma canonical_weaken first s : canonical false s -> canonical first s.
Proof. destruct s as [|b [|c s]]; [done| |done]. intros [H [H'|H']]; [done|]. split; [done|by right]. Qed.

Lemma varint_val_nonneg s : 0 <= varint_val s.
Proof.
  induction s as [|b s IH]; [done|]. cbn [varint_val]. pose proof (Z.mod_pos_bound b 128 ltac:(lia)). lia.
Qed.

Lemma canonical_pos s : canonical false s -> 0 < varint_val s.
Proof.
  induction s as [|b s IH]; [done|]. destruct s as [|c s].
  - intros [H [H'|H']]; [done|]. cbn [varint_val]. rewrite Z.mod_small by lia. lia.
  - rewrite canonical_cons by done. intros [_ H]. specialize (IH H). cbn [varint_val] in *.
    pose proof (Z.mod_pos_bound b 128 ltac:(lia)). lia.
Qed.

(** An integer has one canonical form. *)
Lemma canonical_inj first s t : canonical first s -> canonical first t -> varint_val s = varint_val t -> s = t.
Proof.
  revert first t. induction s as [|b s IH]; intros first t Hs Ht E; [done|].
  destruct t as [|c t]; [done|].
  assert (forall b s, s <> [] -> canonical first (b :: s) -> 128 <= varint_val (b :: s)) as Hlong.
  { intros b' s' Hne H. apply canonical_cons in H as [_ H]; [|done]. apply canonical_pos in H. cbn [varint_val].
    pose proof (Z.mod_pos_bound b' 128 ltac:(lia)). lia. }
  assert (forall b, canonical first [b] -> varint_val [b] < 128) as Hshort.
  { intros b' [H _]. cbn [varint_val]. pose proof (Z.mod_pos_bound b' 128 ltac:(lia)). lia. }
  destruct (decide (s = [])) as [->|Hs0], (decide (t = [])) as [->|Ht0].
  - cbn [varint_val] in E. destruct Hs as [Hb _], Ht as [Hc _]. rewrite !Z.mod_small in E by lia. f_equal. lia.
  - specialize (Hlong _ _ Ht0 Ht). specialize (Hshort _ Hs). lia.
  - specialize (Hlong _ _ Hs0 Hs). specialize (Hshort _ Ht). lia.
  - apply canonical_cons in Hs as [Hb Hs], Ht as [Hc Ht]; [|done|done]. cbn [varint_val] in E.
    assert (varint_val s = varint_val t /\ b = c) as [E1 ->] by (Z.to_euclidean_division_equations; lia).
    f_equal. by apply (IH false).
Qed.

(** ** Writing *)
Lemma low_bits i : Z.lor (Z.land i 0x7f) 0x80 = i mod 128 + 128.
Proof.
  change 0x7f with (Z.ones 7). rewrite Z.land_ones by lia. change 0x80 with (Z.shiftl 1 7) at 1.
  rewrite lor_shiftl_add by (try apply Z.mod_pos_bound; lia). change (2 ^ 7) with 128. lia.
Qed.

Lemma write_varint_spec fuel i :
  0 <= i < 128 ^ Z.of_nat (S fuel) ->
  returns (write_varint (S fuel) i) (fun s => canonical true s /\ varint_val s = i /\ (length s <= S fuel)%nat).
Proof.
  revert i. induction fuel as [|fuel IH]; intros i Hi; rewrite Nat2Z.inj_succ, Z.pow_succ_r in Hi by lia.
  - change (128 * 128 ^ Z.of_nat 0) with 128 in Hi. cbn [write_varint].
    destruct (Z.geb_spec i 0x80); [lia|]. cbn [returns varint_val length canonical]. rewrite Z.mod_small by lia. naive_solver lia.
  - remember (S fuel) as n. cbn [write_varint]. destruct (Z.geb_spec i 0x80).
    + assert (Z.shiftr i 7 = i / 128) as Es by (by rewrite Z.shiftr_div_pow2).
      eapply returns_bind; [apply (IH (Z.shiftr i 7)); rewrite Es; Z.to_euclidean_division_equations; lia|].
      intros s (Hc & Hv & Hl). rewrite low_bits. cbn [returns varint_val length].
      assert (canonical false s) as Hc'.
      { destruct s as [|b [|b' s]]; [done| |done]. split; [apply Hc|]. right. intros ->. cbn [varint_val] in Hv.
        rewrite Es in Hv. Z.to_euclidean_division_equations. lia. }
      split; [rewrite canonical_cons by (by eapply canonical_nonempty); split; [Z.to_euclidean_division_equations; lia|done]|].
      split; [|lia]. rewrite Hv, Es. Z.to_euclidean_division_equations. lia.
    + cbn [returns varint_val length canonical]. rewrite Z.mod_small by lia. naive_solver lia.
Qed.

(** ** Reading *)

(** Every byte asks for another one. *)
Definition unfinished (s : list Z) : Prop := Forall (fun b => 128 <= b) s.

Lemma land_7f b : Z.land b 0x7f = b mod 128.
Proof. change 0x7f with (Z.ones 7). by rewrite Z.land_ones. Qed.

Lemma land_80 b : is_byte b -> (Z.land b 0x80 =? 0) = (b <? 128).
Proof.
  intros Hb. apply eqb_true_iff. revert b Hb. apply (byte_cases (fun b => eqb (Z.land b 0x80 =? 0) (b <? 128))).
  by vm_compute.
Qed.

(** One more digit of the value. *)
Lemma write_digit bits write b shift :
  0 <= shift -> 0 <= write < 2 ^ shift -> 0 <= b mod 128 * 2 ^ shift < 2 ^ bits ->
  Z.lor write (Z.shiftl (Z.land b 0x7f) shift mod 2 ^ bits) = write + 2 ^ shift * (b mod 128).
Proof.
  intros Hs Hw Hb. rewrite land_7f. rewrite Z.mod_small by (by rewrite Z.shiftl_mul_pow2).
  rewrite lor_shiftl_add by done. lia.
Qed.

(** What the loop can answer. *)
Definition read_result (bits : Z) (s : list Z) (first : bool) (read shift write r v : Z) : Prop :=
  r = EVARINT_OVERFLOW \/ r = EVARINT_REPRESENT \/
  exists n, (n <= length s)%nat /\ r = read + Z.of_nat n /\ v = write + 2 ^ shift * varint_val (take n s) /\
    (canonical first (take n s) \/ n = length s /\ unfinished s).

Lemma read_loop_spec bits s read shift write r v :
  bytes s -> 0 <= shift < bits -> 0 <= write < 2 ^ shift ->
  read_varint_loop bits s read shift write = (r, v) ->
  read_result bits s (shift =? 0) read shift write r v.
Proof.
  revert read shift write. induction s as [|b s IH]; intros read shift write Hs Hsh Hw E.
  - injection E as <- <-. right. right. exists 0%nat. cbn. split; [lia|]. split; [lia|]. split; [lia|]. right. split; [done|constructor].
  - apply Forall_cons_1 in Hs as [Hb Hs]. cbn [read_varint_loop] in E.
    destruct ((shift + 7 >=? bits) && (b >=? Z.shiftl 1 (bits - shift))) eqn:Eo; [injection E as <- <-; by left|].
    destruct ((b =? 0) && negb (shift =? 0)) eqn:Er; [injection E as <- <-; by right; left|].
    assert (0 <= b mod 128 * 2 ^ shift < 2 ^ bits /\ (128 <= b -> shift + 7 < bits)) as [Hd Hnext].
    { unfold is_byte in Hb. pose proof (Z.mod_pos_bound b 128 ltac:(lia)) as Hm.
      assert (0 < 2 ^ shift) by (apply Z.pow_pos_nonneg; lia).
      destruct (Z.geb_spec (shift + 7) bits) as [H7|H7]; cbn [andb] in Eo.
      - rewrite Z.shiftl_1_l in Eo. destruct (Z.geb_spec b (2 ^ (bits - shift))); [done|].
        assert (2 ^ (bits - shift) <= 2 ^ 7) by (apply Z.pow_le_mono_r; lia).
        replace bits with (shift + (bits - shift)) at 1 by lia. rewrite Z.pow_add_r by lia.
        rewrite (Z.mod_small b) by lia. split; [nia|lia].
      - assert (2 ^ (shift + 7) <= 2 ^ bits) as Hp by (apply Z.pow_le_mono_r; lia). rewrite Z.pow_add_r in Hp by lia.
        split; [nia|lia]. }
    rewrite write_digit in E by (done || lia). rewrite land_80 in E by done. destruct (Z.ltb_spec b 128) as [H128|H128].
    + injection E as <- <-. right. right. exists 1%nat. cbn. rewrite take_0. cbn. split; [lia|]. split; [lia|]. split; [lia|].
      left. unfold is_byte in Hb. split; [lia|]. destruct (Z.eqb_spec b 0); [|by right].
      destruct (shift =? 0); [by left|done].
    + assert (0 <= write + 2 ^ shift * (b mod 128) < 2 ^ (shift + 7)) as Hw'.
      { rewrite Z.pow_add_r by lia. pose proof (Z.mod_pos_bound b 128 ltac:(lia)). nia. }
      apply IH in E; [|done|lia|done]. replace (shift + 7 =? 0) with false in E by lia.
      destruct E as [E|[E|(n & Hn & -> & -> & E)]]; [by left|by right; left|]. right. right.
      exists (S n). cbn [take length varint_val]. split; [lia|]. split; [lia|]. split; [rewrite Z.pow_add_r by lia; lia|].
      destruct E as [E|[-> E]].
      * left. unfold is_byte in Hb. rewrite canonical_cons by (by eapply canonical_nonempty). split; [lia|done].
      * right. split; [done|]. by constructor.
Qed.

(** A canonical form is read back. *)
Lemma read_canonical bits s rest read shift write :
  canonical (shift =? 0) s -> 0 <= shift < bits -> 0 <= write < 2 ^ shift -> 2 ^ shift * varint_val s < 2 ^ bits ->
  read_varint_loop bits (s ++ rest) read shift write = (read + Z.of_nat (length s), write + 2 ^ shift * varint_val s).
Proof.
  revert read shift write. induction s as [|b s IH]; intros read shift write Hc Hsh Hw Hv; [done|].
  assert (is_byte b /\ (s = [] <-> b < 128) /\ (b = 0 -> shift = 0)) as (Hb & Hs & Hz).
  { destruct (decide (s = [])) as [->|Hne].
    - destruct Hc as [Hb Hc]. split; [unfold is_byte; lia|]. split; [split; [lia|done]|]. intros ->.
      destruct Hc as [Hc|Hc]; [lia|done].
    - rewrite canonical_cons in Hc by done. destruct Hc as [Hb Hc]. unfold is_byte. split; [lia|]. split; [|lia].
      split; [done|lia]. }
  pose proof (varint_val_nonneg s) as Hn. cbn [varint_val] in Hv.
  assert (0 < 2 ^ shift) as Hp by (apply Z.pow_pos_nonneg; lia). pose proof (Z.mod_pos_bound b 128 ltac:(lia)) as Hm.
  assert (128 <= b -> canonical false s /\ shift + 7 < bits) as Hnext.
  { intros H128. assert (s <> []) as Hne by (intros H0%Hs; lia). rewrite canonical_cons in Hc by done. destruct Hc as [_ Hc].
    split; [done|]. apply canonical_pos in Hc. apply (Z.pow_lt_mono_r_iff 2); [lia|lia|]. rewrite Z.pow_add_r by lia. nia. }
  assert ((shift + 7 >=? bits) && (b >=? Z.shiftl 1 (bits - shift)) = false) as Eo.
  { rewrite Z.shiftl_1_l. destruct (Z.geb_spec (shift + 7) bits) as [H7|H7]; [|done]. cbn [andb].
    destruct (Z.geb_spec b (2 ^ (bits - shift))) as [Hge|]; [exfalso|done].
    assert (b < 128) as Hlt by lia. unfold is_byte in Hb. rewrite (Z.mod_small b) in Hv by lia.
    replace bits with (shift + (bits - shift)) in Hv by lia. rewrite Z.pow_add_r in Hv by lia. nia. }
  assert ((b =? 0) && negb (shift =? 0) = false) as Er.
  { destruct (Z.eqb_spec b 0) as [E0|E0]; [|done]. by rewrite (Hz E0). }
  cbn [app read_varint_loop]. rewrite Eo, Er, land_80, write_digit by (done || nia).
  destruct (Z.ltb_spec b 128) as [H128|H128].
  - rewrite (proj2 Hs H128). cbn [length varint_val]. f_equal; lia.
  - destruct (Hnext H128) as [Hc' H7]. rewrite IH.
    + cbn [length varint_val]. rewrite Z.pow_add_r by lia. f_equal; lia.
    + replace (shift + 7 =? 0) with false by lia. done.
    + lia.
    + rewrite Z.pow_add_r by lia. nia.
    + rewrite Z.pow_add_r by lia. nia.
Qed.

Lemma read_varint_canonical bits s rest :
  0 < bits -> canonical true s -> varint_val s < 2 ^ bits ->
  read_varint bits (s ++ rest) = (Z.of_nat (length s), varint_val s).
Proof.
  intros Hb Hc Hv. unfold read_varint. rewrite read_canonical; [f_equal; lia|done|lia|lia|lia].
Qed.

Lemma read_varint_spec bits s r v :
  0 < bits -> bytes s -> read_varint bits s = (r, v) -> 0 < r ->
  exists n, (n <= length s)%nat /\ r = Z.of_nat n /\ v = varint_val (take n s) /\
    (canonical true (take n s) \/ n = length s /\ unfinished s).
Proof.
  intros Hb Hs E Hr. apply read_loop_spec in E; [|done|lia|lia].
  destruct E as [->|[->|(n & Hn & E1 & E2 & H)]]; [done|done|]. exists n. split_and!; [done|lia|lia|done].
Qed.
