(* ===== verification/Difficulty.v ===== *)
(** * Proof of work and difficulty

    [src/src/cryptonote_basic/difficulty.cpp]: the test of a hash against the
    difficulty and the difficulty of the next block.  A 64-bit platform is
    assumed ([size_t] has 64 bits); [x86_64] selects the multiplication. *)

From stdpp Require Import base list numbers sorting.
From Stdlib Require Import ZArith Lia.
From S2P Require Import Prelude Bytes IntUtil.

Definition DIFFICULTY_WINDOW : nat := 720.
Definition DIFFICULTY_CUT : nat := 60.

(** ** Definitions *)

(** [mul(a, b, low, high)] *)
Definition mul (x86_64 ndebug : bool) (a b : Z) : result (Z * Z) :=
  if x86_64 then mul128 ndebug a b else Ok (mul_portable a b).

Definition cadd (a b : Z) : bool := u64 (a + b) <? a.

Definition cadc (a b : Z) (c : bool) : bool := (u64 (a + b) <? a) || (c && (u64 (a + b) =? 2 ^ 64 - 1)).

(** [swap64le(((const uint64_t * ) &hash)[i])] *)
Definition hash_word (hash : list Z) (i : nat) : Z := le_val (take 8 (drop (8 * i) hash)).

Definition check_hash (x86_64 ndebug : bool) (hash : list Z) (difficulty : Z) : result bool :=
  let! (top, high) := mul x86_64 ndebug (hash_word hash 3) difficulty in
  if negb (high =? 0) then Ok false
  else
    let! (low, cur) := mul x86_64 ndebug (hash_word hash 0) difficulty in
    let! (low, high) := mul x86_64 ndebug (hash_word hash 1) difficulty in
    let carry := cadd cur low in
    let cur := high in
    let! (low, high) := mul x86_64 ndebug (hash_word hash 2) difficulty in
    let carry := cadc cur low carry in
    let carry := cadc high top carry in
    Ok (negb carry).

(** [std::vector::resize]: the first [n] entries, zeros after the last. *)
Definition resize (n : nat) (v : list Z) : list Z := take n v ++ replicate (n - length v) 0.

(** [std::sort] *)
Definition sort (v : list Z) : list Z := merge_sort Z.le v.

(** [cut_begin] and [cut_end] *)
Definition cut (length : nat) : nat * nat :=
  if (length <=? DIFFICULTY_WINDOW - 2 * DIFFICULTY_CUT)%nat then (0%nat, length)
  else
    let cut_begin := ((length - (DIFFICULTY_WINDOW - 2 * DIFFICULTY_CUT) + 1) / 2)%nat in
    (cut_begin, (cut_begin + (DIFFICULTY_WINDOW - 2 * DIFFICULTY_CUT))%nat).

Definition next_difficulty (x86_64 ndebug : bool) (timestamps cumulative_difficulties : list Z) (target_seconds : Z) :
    result Z :=
  let '(timestamps, cumulative_difficulties) :=
    if (DIFFICULTY_WINDOW <? length timestamps)%nat
    then (resize DIFFICULTY_WINDOW timestamps, resize DIFFICULTY_WINDOW cumulative_difficulties)
    else (timestamps, cumulative_difficulties) in
  let n := length timestamps in
  let! _ := c_assert ndebug (Ok (n =? length cumulative_difficulties)%nat) in
  if (n <=? 1)%nat then Ok 1
  else
    let! _ := c_assert ndebug (Ok (n <=? DIFFICULTY_WINDOW)%nat) in
    let timestamps := sort timestamps in
    let '(cut_begin, cut_end) := cut n in
    let! _ := c_assert ndebug (Ok ((cut_begin + 2 <=? cut_end) && (cut_end <=? n))%nat) in
    let! t1 := get timestamps (cut_end - 1) in
    let! t0 := get timestamps cut_begin in
    let time_span := u64 (t1 - t0) in
    let time_span := if time_span =? 0 then 1 else time_span in
    let! w1 := get cumulative_difficulties (cut_end - 1) in
    let! w0 := get cumulative_difficulties cut_begin in
    let total_work := u64 (w1 - w0) in
    let! _ := c_assert ndebug (Ok (0 <? total_work)) in
    let! (low, high) := mul x86_64 ndebug total_work target_seconds in
    if negb (high =? 0) || (u64 (u64 (low + time_span) - 1) <? low) then Ok 0
    else Ok (u64 (u64 (low + time_span) - 1) / time_span).

(** ** The test of a hash *)
Lemma mul_spec {x86_64 ndebug} a b :
  is_u64 a -> is_u64 b -> mul x86_64 ndebug a b = Ok ((a * b) mod 2 ^ 64, a * b / 2 ^ 64).
Proof.
  intros Ha Hb. unfold mul. destruct x86_64; [by apply mul128_spec|by rewrite mul_portable_spec].
Qed.

Lemma cadd_spec a b : is_u64 a -> is_u64 b -> cadd a b = (2 ^ 64 <=? a + b).
Proof.
  unfold is_u64, cadd, u64. intros Ha Hb. apply eq_iff_eq_true. rewrite Z.ltb_lt, Z.leb_le.
  Z.to_euclidean_division_equations. lia.
Qed.

Lemma cadc_spec a b c : is_u64 a -> is_u64 b -> cadc a b c = (2 ^ 64 <=? a + b + Z.b2z c).
Proof.
  unfold is_u64, cadc, u64. intros Ha Hb. apply eq_iff_eq_true.
  rewrite orb_true_iff, andb_true_iff, Z.ltb_lt, Z.eqb_eq, Z.leb_le.
  destruct c; simpl Z.b2z; Z.to_euclidean_division_equations; lia.
Qed.

Lemma hash_word_u64 hash i : bytes hash -> is_u64 (hash_word hash i).
Proof.
  intros Hb. unfold hash_word. assert (bytes (take 8 (drop (8 * i) hash))) as H by (by apply Forall_take, Forall_drop).
  apply le_val_bound in H. rewrite length_take in H. unfold is_u64. destruct H as [H1 H2]. split; [done|].
  eapply Z.lt_le_trans; [exact H2|]. change (2 ^ 64) with (256 ^ 8). apply Z.pow_le_mono_r; lia.
Qed.

Lemma hash_words hash :
  length hash = 32%nat ->
  le_val hash = hash_word hash 0 + 2 ^ 64 * hash_word hash 1 + 2 ^ 128 * hash_word hash 2 + 2 ^ 192 * hash_word hash 3.
Proof.
  intros Hl. unfold hash_word.
  do 32 (destruct hash as [|? hash]; [done|]). destruct hash; [|done]. cbn -[Z.mul Z.add Z.pow]. ring.
Qed.

(** The sum of four two-word products overflows 256 bits exactly when a word carries out of the top. *)
Lemma check_hash_spec {x86_64 ndebug} hash difficulty :
  bytes hash -> length hash = 32%nat -> is_u64 difficulty ->
  check_hash x86_64 ndebug hash difficulty = Ok (le_val hash * difficulty <? 2 ^ 256).
Proof.
  intros Hb Hl Hd. pose proof (hash_word_u64 hash 0 Hb) as H0. pose proof (hash_word_u64 hash 1 Hb) as H1.
  pose proof (hash_word_u64 hash 2 Hb) as H2. pose proof (hash_word_u64 hash 3 Hb) as H3.
  rewrite (hash_words hash Hl). unfold check_hash. rewrite !mul_spec by done. cbn [bind].
  set (h0 := hash_word hash 0) in *. set (h1 := hash_word hash 1) in *.
  set (h2 := hash_word hash 2) in *. set (h3 := hash_word hash 3) in *.
  replace ((h0 + 2 ^ 64 * h1 + 2 ^ 128 * h2 + 2 ^ 192 * h3) * difficulty) with
    (h0 * difficulty + 2 ^ 64 * (h1 * difficulty) + 2 ^ 128 * (h2 * difficulty) + 2 ^ 192 * (h3 * difficulty)) by ring.
  assert (forall h, is_u64 h -> 0 <= h * difficulty < 2 ^ 64 * 2 ^ 64) as Hm by (unfold is_u64 in *; nia).
  pose proof (Hm _ H0) as M0. pose proof (Hm _ H1) as M1. pose proof (Hm _ H2) as M2. pose proof (Hm _ H3) as M3. clear Hm.
  generalize dependent (h0 * difficulty). generalize dependent (h1 * difficulty).
  generalize dependent (h2 * difficulty). generalize dependent (h3 * difficulty). intros p3 M3 p2 M2 p1 M1 p0 M0.
  assert (forall q, 0 <= q < 2 ^ 64 * 2 ^ 64 -> is_u64 (q mod 2 ^ 64) /\ is_u64 (q / 2 ^ 64)) as Hq
    by (intros q Hq; unfold is_u64; Z.to_euclidean_division_equations; lia).
  destruct (Hq _ M0) as [L0 U0], (Hq _ M1) as [L1 U1], (Hq _ M2) as [L2 U2], (Hq _ M3) as [L3 U3]. clear Hq.
  destruct (Z.eqb_spec (p3 / 2 ^ 64) 0) as [E|E]; cbn [negb].
  - rewrite !cadc_spec, cadd_spec by done. f_equal. apply eq_iff_eq_true. rewrite negb_true_iff, Z.leb_gt, Z.ltb_lt.
    destruct (Z.leb_spec (2 ^ 64) (p0 / 2 ^ 64 + p1 mod 2 ^ 64)); cbn [Z.b2z];
      destruct (Z.leb_spec (2 ^ 64) (p1 / 2 ^ 64 + p2 mod 2 ^ 64 + 1)), (Z.leb_spec (2 ^ 64) (p1 / 2 ^ 64 + p2 mod 2 ^ 64 + 0));
      cbn [Z.b2z]; unfold is_u64 in *; Z.to_euclidean_division_equations; lia.
  - f_equal. symmetry. apply Z.ltb_ge. unfold is_u64 in *. Z.to_euclidean_division_equations. lia.
Qed.

(** ** The next difficulty *)
Lemma cut_bounds n :
  (2 <= n <= DIFFICULTY_WINDOW)%nat -> ((cut n).1 + 2 <= (cut n).2 /\ (cut n).2 <= n)%nat.
Proof.
  unfold cut, DIFFICULTY_WINDOW, DIFFICULTY_CUT. intros Hn. destruct (Nat.leb_spec n (720 - 2 * 60)); cbn [fst snd]; [lia|].
  pose proof (Nat.Div0.div_mod (n - (720 - 2 * 60) + 1) 2). pose proof (Nat.mod_upper_bound (n - (720 - 2 * 60) + 1) 2). lia.
Qed.

(** The entry that a sorted vector has at [i]. *)
Definition ranked (v : list Z) (i : nat) : Z := nth i (sort v) 0.

Lemma sort_length v : length (sort v) = length v.
Proof. apply Permutation_length, merge_sort_Permutation. Qed.

Lemma sort_perm v v' : v ≡ₚ v' -> sort v = sort v'.
Proof.
  intros Hp. unfold sort. apply (Sorted_unique Z.le); [apply Sorted_merge_sort, _|apply Sorted_merge_sort, _|].
  by rewrite !merge_sort_Permutation.
Qed.

Lemma get_ranked v i : (i < length v)%nat -> get (sort v) i = Ok (ranked v i).
Proof.
  intros Hi. destruct (lookup_lt_is_Some_2 (sort v) i) as [x Hx]; [by rewrite sort_length|].
  rewrite (get_ok _ _ _ Hx). unfold ranked. f_equal. symmetry. by apply nth_lookup_Some.
Qed.

Lemma ranked_u64 v i : Forall is_u64 v -> (i < length v)%nat -> is_u64 (ranked v i).
Proof.
  intros Hv Hi. destruct (lookup_lt_is_Some_2 (sort v) i) as [x Hx]; [by rewrite sort_length|].
  unfold ranked. rewrite (nth_lookup_Some _ _ _ _ Hx). apply list_elem_of_lookup_2 in Hx.
  rewrite Forall_forall in Hv. apply Hv. by rewrite <- (merge_sort_Permutation Z.le v).
Qed.

Lemma strongly_sorted_lookup (v : list Z) i j x y :
  StronglySorted Z.le v -> (i < j)%nat -> v !! i = Some x -> v !! j = Some y -> x <= y.
Proof.
  intros Hs. revert i j. induction Hs as [|a v Hs IH Ha]; intros i j Hij Hx Hy; [done|].
  destruct j as [|j]; [lia|]. destruct i as [|i]; cbn in Hx, Hy.
  - injection Hx as ->. rewrite Forall_forall in Ha. apply Ha. by eapply list_elem_of_lookup_2.
  - apply (IH i j); [lia|done|done].
Qed.

Lemma ranked_mono v i j : (i <= j)%nat -> (j < length v)%nat -> ranked v i <= ranked v j.
Proof.
  intros Hij Hj. destruct (lookup_lt_is_Some_2 (sort v) i) as [x Hx]; [rewrite sort_length; lia|].
  destruct (lookup_lt_is_Some_2 (sort v) j) as [y Hy]; [by rewrite sort_length|].
  unfold ranked. rewrite (nth_lookup_Some _ _ _ _ Hx), (nth_lookup_Some _ _ _ _ Hy).
  pose proof (Sorted_merge_sort Z.le v : Sorted Z.le (sort v)) as Hs. apply (Sorted_StronglySorted _) in Hs.
  destruct (decide (i = j)) as [->|Hne]; [rewrite Hx in Hy; injection Hy as ->; lia|].
  by apply (strongly_sorted_lookup (sort v) i j); [|lia|..].
Qed.

(** The middle 600 entries: of [k] entries more, half of them, rounded up, are cut off in front and the rest behind. *)
Definition middle (v : list Z) : list Z :=
  let k := (length v - 600)%nat in take (length v - k) (drop (k - k / 2) v).

(** The last entry less the first. *)
Definition growth (v : list Z) : Z := nth (length v - 1) v 0 - nth 0 v 0.

(** The time that the window took and the work that was done in it. *)
Definition span (ts : list Z) : Z := Z.max 1 (growth (middle (sort ts))).
Definition work (ds : list Z) : Z := growth (middle ds).

Lemma nth_middle v i j d : (i + j < length v)%nat -> (j < d)%nat -> nth j (take d (drop i v)) 0 = nth (i + j) v 0.
Proof.
  intros Hj Hd. destruct (lookup_lt_is_Some_2 v (i + j) Hj) as [x Hx]. rewrite (nth_lookup_Some v _ _ _ Hx).
  apply nth_lookup_Some. by rewrite lookup_take_lt, lookup_drop by done.
Qed.

(** The positions that the code computes are the ends of the middle. *)
Lemma growth_middle v : (2 <= length v)%nat ->
  growth (middle v) = nth ((cut (length v)).2 - 1) v 0 - nth (cut (length v)).1 v 0.
Proof.
  intros Hn. unfold growth, middle, cut, DIFFICULTY_WINDOW, DIFFICULTY_CUT. set (k := (length v - 600)%nat).
  assert (2 * (k / 2) <= k < 2 * (k / 2) + 2)%nat as Hk by (pose proof (Nat.div_mod_eq k 2); pose proof (Nat.mod_upper_bound k 2); lia).
  change (720 - 2 * 60)%nat with 600%nat. destruct (Nat.leb_spec (length v) 600) as [H6|H6]; cbn [fst snd].
  - assert (take (length v - k) (drop (k - k / 2) v) = v) as ->; [|done].
    replace (k - k / 2)%nat with 0%nat by lia. rewrite drop_0. apply take_ge. lia.
  - rewrite length_take, length_drop. replace ((length v - 600 + 1) / 2)%nat with (k - k / 2)%nat.
    + rewrite !nth_middle by lia. f_equal; f_equal; lia.
    + fold k. pose proof (Nat.div_mod_eq (k + 1) 2). pose proof (Nat.mod_upper_bound (k + 1) 2). lia.
Qed.

(** The least difficulty at which the work of the window takes the target time, 0 if it does not fit in 64 bits. *)
Definition target_difficulty (ts ds : list Z) (target : Z) : Z :=
  if 2 ^ 64 <=? work ds * target + span ts - 1 then 0 else (work ds * target + span ts - 1) / span ts.

Lemma get_nth v i : (i < length v)%nat -> get v i = Ok (nth i v 0).
Proof.
  intros Hi. destruct (lookup_lt_is_Some_2 v i Hi) as [x Hx]. rewrite (get_ok _ _ _ Hx).
  f_equal. symmetry. by apply nth_lookup_Some.
Qed.

Lemma nth_u64 v i : Forall is_u64 v -> (i < length v)%nat -> is_u64 (nth i v 0).
Proof. intros Hv Hi. rewrite List.Forall_forall in Hv. by apply Hv, nth_In. Qed.

Lemma resize_take n v : (n <= length v)%nat -> resize n v = take n v.
Proof. intros H. unfold resize. replace (n - length v)%nat with 0%nat by lia. apply app_nil_r. Qed.

(** The last step. *)
Lemma ceiling_spec w target s :
  is_u64 w -> is_u64 target -> 1 <= s < 2 ^ 64 ->
  (let low := (w * target) mod 2 ^ 64 in let high := w * target / 2 ^ 64 in
   if negb (high =? 0) || (u64 (u64 (low + s) - 1) <? low) then Ok 0 else Ok (u64 (u64 (low + s) - 1) / s)) =
  Ok (if 2 ^ 64 <=? w * target + s - 1 then 0 else (w * target + s - 1) / s).
Proof.
  unfold is_u64. intros Hw Ht Hs. cbv zeta. assert (0 <= w * target) as Hp by nia.
  set (n := w * target) in *. clearbody n. destruct (Z.eqb_spec (n / 2 ^ 64) 0) as [E|E]; cbn [negb orb].
  - assert (n < 2 ^ 64) by (Z.to_euclidean_division_equations; lia). rewrite (Z.mod_small n) by lia.
    assert (u64 (u64 (n + s) - 1) = (n + s - 1) mod 2 ^ 64) as -> by (unfold u64; apply Zminus_mod_idemp_l).
    destruct (Z.leb_spec (2 ^ 64) (n + s - 1)) as [H1|H1].
    + destruct (Z.ltb_spec ((n + s - 1) mod 2 ^ 64) n) as [H2|H2]; [done|]. Z.to_euclidean_division_equations. lia.
    + rewrite (Z.mod_small (n + s - 1)) by lia. destruct (Z.ltb_spec (n + s - 1) n) as [H2|H2]; [lia|done].
  - destruct (Z.leb_spec (2 ^ 64) (n + s - 1)) as [H1|H1]; [done|]. Z.to_euclidean_division_equations. lia.
Qed.

Section Window.
Context (x86_64 ndebug : bool) (ts ds : list Z) (target : Z).
Hypothesis Hts : Forall is_u64 ts.
Hypothesis Hds : Forall is_u64 ds.
Hypothesis Htarget : is_u64 target.
Hypothesis Hlen : length ts = length ds.
Hypothesis Hn : (2 <= length ts)%nat.

(** A window of at most 720 blocks. *)
Lemma next_difficulty_window :
  (length ts <= DIFFICULTY_WINDOW)%nat -> 0 < work ds ->
  next_difficulty x86_64 ndebug ts ds target = Ok (target_difficulty ts ds target).
Proof using All.
  intros Hw Hwork. unfold next_difficulty. destruct (Nat.ltb_spec DIFFICULTY_WINDOW (length ts)); [lia|].
  rewrite c_assert_true by (f_equal; by apply Nat.eqb_eq). cbn [bind]. destruct (Nat.leb_spec (length ts) 1); [lia|].
  rewrite c_assert_true by (f_equal; by apply Nat.leb_le). cbn [bind].
  pose proof (cut_bounds (length ts) ltac:(lia)) as [C1 C2]. unfold target_difficulty, span. unfold work in *.
  rewrite (growth_middle ds) in Hwork |- * by lia. rewrite (growth_middle (sort ts)) by (rewrite sort_length; lia).
  rewrite sort_length. fold (ranked ts ((cut (length ts)).2 - 1)) (ranked ts (cut (length ts)).1). rewrite <- Hlen in Hwork |- *.
  destruct (cut (length ts)) as [cb ce]. cbn [fst snd] in *.
  rewrite c_assert_true by (f_equal; apply andb_true_intro; split; apply Nat.leb_le; lia). cbn [bind].
  rewrite !get_ranked by lia. cbn [bind]. rewrite !get_nth by lia. cbn [bind].
  pose proof (ranked_mono ts cb (ce - 1) ltac:(lia) ltac:(lia)) as Hm.
  pose proof (ranked_u64 ts cb Hts ltac:(lia)) as U0. pose proof (ranked_u64 ts (ce - 1) Hts ltac:(lia)) as U1.
  set (w := nth (ce - 1) ds 0 - nth cb ds 0) in *.
  assert (is_u64 w) as Hw64.
  { pose proof (nth_u64 ds (ce - 1) Hds ltac:(lia)) as D1. pose proof (nth_u64 ds cb Hds ltac:(lia)) as D0.
    unfold is_u64, w in *. lia. }
  rewrite !(u64_id w) by done. rewrite c_assert_true by (f_equal; by apply Z.ltb_lt). cbn [bind].
  rewrite mul_spec by done. cbn [bind]. unfold is_u64 in U0, U1.
  set (t := ranked ts (ce - 1) - ranked ts cb) in *. rewrite !(u64_id t) by (unfold is_u64; lia).
  replace (if t =? 0 then 1 else t) with (Z.max 1 t) by (destruct (Z.eqb_spec t 0); lia).
  apply ceiling_spec; [done|done|lia].
Qed.
End Window.

(** Blocks after the first 720 do not count. *)
Lemma next_difficulty_truncate {x86_64 ndebug} ts ds target :
  length ts = length ds ->
  next_difficulty x86_64 ndebug ts ds target =
  next_difficulty x86_64 ndebug (take DIFFICULTY_WINDOW ts) (take DIFFICULTY_WINDOW ds) target.
Proof.
  intros Hl. destruct (Nat.le_gt_cases (length ts) DIFFICULTY_WINDOW) as [H|H]; [by rewrite !take_ge by lia|].
  unfold next_difficulty at 1. destruct (Nat.ltb_spec DIFFICULTY_WINDOW (length ts)); [|lia].
  rewrite !resize_take by lia. unfold next_difficulty.
  destruct (Nat.ltb_spec DIFFICULTY_WINDOW (length (take DIFFICULTY_WINDOW ts))) as [H2|H2]; [rewrite length_take in H2; lia|done].
Qed.

Lemma next_difficulty_spec {x86_64 ndebug} ts ds target :
  Forall is_u64 ts -> Forall is_u64 ds -> is_u64 target -> length ts = length ds -> (2 <= length ts)%nat ->
  0 < work (take DIFFICULTY_WINDOW ds) ->
  next_difficulty x86_64 ndebug ts ds target =
  Ok (target_difficulty (take DIFFICULTY_WINDOW ts) (take DIFFICULTY_WINDOW ds) target).
Proof.
  intros Hts Hds Ht Hl Hn Hw. rewrite next_difficulty_truncate by done.
  apply next_difficulty_window; try done; try by apply Forall_take.
  - rewrite !length_take. lia.
  - rewrite length_take. unfold DIFFICULTY_WINDOW. lia.
  - rewrite length_take. lia.
Qed.
