(* ===== verification/Reward.v ===== *)
(** * The block reward

    [get_min_block_size] and [get_block_reward] of
    [src/src/cryptonote_basic/cryptonote_basic_impl.cpp], with the constants of
    [src/src/cryptonote_config.h]. *)

From stdpp Require Import base list numbers.
From Stdlib Require Import ZArith Lia.
From S2P Require Import Prelude Bytes IntUtil.

Definition MONEY_SUPPLY : Z := 2 ^ 64 - 1.
Definition EMISSION_SPEED_FACTOR_PER_MINUTE : Z := 20.
Definition FINAL_SUBSIDY_PER_MINUTE : Z := 300000000000.
Definition DIFFICULTY_TARGET_V1 : Z := 60.
Definition DIFFICULTY_TARGET_V2 : Z := 120.

(** ** Definitions *)
Definition get_min_block_size (version : Z) : Z :=
  if version <? 2 then 20000
  else if version <? 5 then 60000
  else 300000.

Definition target_minutes (version : Z) : Z :=
  (if version <? 2 then DIFFICULTY_TARGET_V1 else DIFFICULTY_TARGET_V2) / 60.

(** The part up to the size of the block. *)
Definition get_base_reward (version already_generated_coins : Z) : Z :=
  let emission_speed_factor := EMISSION_SPEED_FACTOR_PER_MINUTE - (target_minutes version - 1) in
  let base_reward := Z.shiftr (u64 (MONEY_SUPPLY - already_generated_coins)) emission_speed_factor in
  if base_reward <? u64 (FINAL_SUBSIDY_PER_MINUTE * target_minutes version)
  then u64 (FINAL_SUBSIDY_PER_MINUTE * target_minutes version)
  else base_reward.

(** [None] is the return of [false]. *)
Definition get_block_reward (ndebug : bool) (median_size current_block_size already_generated_coins version : Z) :
    result (option Z) :=
  let base_reward := get_base_reward version already_generated_coins in
  let full_reward_zone := get_min_block_size version in
  let median_size := if median_size <? full_reward_zone then full_reward_zone else median_size in
  if current_block_size <=? median_size then Ok (Some base_reward)
  else if u64 (2 * median_size) <? current_block_size then Ok None
  else
    let! _ := c_assert ndebug (Ok (median_size <? 2 ^ 32 - 1)) in
    let! _ := c_assert ndebug (Ok (current_block_size <? 2 ^ 32 - 1)) in
    let multiplicand := u64 (u64 (2 * median_size) - current_block_size) in
    let multiplicand := u64 (multiplicand * current_block_size) in
    let! (product_lo, product_hi) := mul128 ndebug base_reward multiplicand in
    let! (_, reward_hi, reward_lo) := div128_32 product_hi product_lo (u32 median_size) in
    let! (_, reward_hi, reward_lo) := div128_32 reward_hi reward_lo (u32 median_size) in
    let! _ := c_assert ndebug (Ok (0 =? reward_hi)) in
    let! _ := c_assert ndebug (Ok (reward_lo <? base_reward)) in
    Ok (Some reward_lo).

(** ** The emission *)
Lemma target_minutes_spec version : target_minutes version = if version <? 2 then 1 else 2.
Proof. unfold target_minutes. by destruct (version <? 2). Qed.

(** The reward before the size penalty: a share of what is left of the supply, and never less than the tail. *)
Lemma get_base_reward_spec version coins :
  is_u64 coins ->
  get_base_reward version coins =
    Z.max ((MONEY_SUPPLY - coins) / 2 ^ (21 - target_minutes version)) (FINAL_SUBSIDY_PER_MINUTE * target_minutes version).
Proof.
  intros Hc. unfold get_base_reward. rewrite target_minutes_spec.
  rewrite u64_id by (unfold is_u64, MONEY_SUPPLY in *; lia).
  unfold EMISSION_SPEED_FACTOR_PER_MINUTE, FINAL_SUBSIDY_PER_MINUTE, MONEY_SUPPLY in *.
  destruct (version <? 2); rewrite u64_id by (unfold is_u64; lia); rewrite Z.shiftr_div_pow2 by lia.
  - change (20 - (1 - 1)) with 20. change (21 - 1) with 20.
    destruct (Z.ltb_spec ((2 ^ 64 - 1 - coins) / 2 ^ 20) (300000000000 * 1)); lia.
  - change (20 - (2 - 1)) with 19. change (21 - 2) with 19.
    destruct (Z.ltb_spec ((2 ^ 64 - 1 - coins) / 2 ^ 19) (300000000000 * 2)); lia.
Qed.

Lemma get_base_reward_bounds version coins :
  is_u64 coins -> 0 < get_base_reward version coins < 2 ^ 45.
Proof.
  intros Hc. rewrite get_base_reward_spec by done. rewrite target_minutes_spec.
  unfold FINAL_SUBSIDY_PER_MINUTE, MONEY_SUPPLY, is_u64 in *.
  destruct (version <? 2); [change (21 - 1) with 20|change (21 - 2) with 19];
    Z.to_euclidean_division_equations; lia.
Qed.

(** ** The size penalty *)

(** The median that counts: at least the free zone of the version. *)
Definition effective_median (version median_size : Z) : Z := Z.max (get_min_block_size version) median_size.

(** [base * (2 m - s) s / m^2], rounded down *)
Definition penalised (base m s : Z) : Z := base * ((2 * m - s) * s) / (m * m).

Lemma get_min_block_size_bounds version : 20000 <= get_min_block_size version <= 300000.
Proof. unfold get_min_block_size. destruct (version <? 2), (version <? 5); lia. Qed.

(** A block over the median always loses something. *)
Lemma penalised_bounds base m s : 0 < base -> 0 < m -> m < s -> s <= 2 * m -> 0 <= penalised base m s < base.
Proof.
  intros Hb Hm Hs Hs2. unfold penalised. assert (0 <= (2 * m - s) * s < m * m) as Hk by nia.
  set (k := (2 * m - s) * s) in *. clearbody k. split; [apply Z.div_pos; nia|]. apply Z.div_lt_upper_bound; nia.
Qed.

Lemma get_block_reward_spec {ndebug} version median_size s coins :
  is_u64 coins -> 0 <= s -> 0 <= median_size -> effective_median version median_size < 2 ^ 31 ->
  get_block_reward ndebug median_size s coins version =
    Ok (let m := effective_median version median_size in let base := get_base_reward version coins in
        if decide (s <= m) then Some base else if decide (s <= 2 * m) then Some (penalised base m s) else None).
Proof.
  intros Hc Hs Hm Hlt. pose proof (get_min_block_size_bounds version) as Hz. pose proof (get_base_reward_bounds version coins Hc) as Hb.
  unfold get_block_reward. cbv zeta. set (base := get_base_reward version coins) in *.
  replace (if median_size <? get_min_block_size version then get_min_block_size version else median_size)
    with (effective_median version median_size)
    by (unfold effective_median; destruct (Z.ltb_spec median_size (get_min_block_size version)); lia).
  assert (20000 <= effective_median version median_size) as Hm0 by (unfold effective_median; lia).
  set (m := effective_median version median_size) in *. clearbody m base.
  destruct (Z.leb_spec s m); [by rewrite decide_True|]. rewrite (decide_False (P := s <= m)) by lia.
  rewrite (u64_id (2 * m)) by (unfold is_u64; lia).
  destruct (Z.ltb_spec (2 * m) s) as [H2|H2]; [by rewrite decide_False by lia|]. rewrite decide_True by done.
  rewrite !c_assert_true by (f_equal; apply Z.ltb_lt; lia). cbn [bind].
  rewrite (u64_id (2 * m - s)), (u64_id ((2 * m - s) * s)) by (unfold is_u64; nia).
  set (k := (2 * m - s) * s). assert (0 <= k < m * m) as Hk by (unfold k; nia). assert (m * m < 2 ^ 62) by nia.
  rewrite mul128_spec by (unfold is_u64; lia). cbn [bind].
  assert (u32 m = m) as -> by (apply Z.mod_small; lia). set (n := base * k).
  assert (0 <= n < 2 ^ 64 * 2 ^ 64) as Hn by (unfold n; nia).
  rewrite div128_32_spec by (unfold is_u64; Z.to_euclidean_division_equations; lia). cbn [bind].
  rewrite <- (Z.div_mod n (2 ^ 64)) by lia.
  assert (0 <= n / m < 2 ^ 64 * 2 ^ 64) as Hn' by (split; [apply Z.div_pos; lia|apply Z.div_lt_upper_bound; nia]).
  rewrite div128_32_spec by (unfold is_u64; Z.to_euclidean_division_equations; lia). cbn [bind].
  rewrite <- (Z.div_mod (n / m) (2 ^ 64)), (Z.div_div n m m) by lia.
  pose proof (penalised_bounds base m s ltac:(lia) ltac:(lia) ltac:(lia) ltac:(lia)) as Hp. unfold penalised in *. fold k n in Hp |- *.
  rewrite (Z.mod_small (n / (m * m))), (Z.div_small (n / (m * m))) by lia.
  rewrite !c_assert_true by (f_equal; (apply Z.eqb_eq || apply Z.ltb_lt); lia). done.
Qed.
