(* ===== verification/HardFork.v ===== *)
(** * Hard forks

    [src/src/cryptonote_basic/hardfork.cpp] and [hardfork.h]: which block
    version is in force, from the schedule of forks and the votes of the last
    blocks.  Heights, versions and sizes are naturals; the counters are 32-bit
    words.  The lock and the brackets of database transactions are not
    modelled: one thread runs at a time. *)

From Stdlib Require Import ZArith Lia.
From stdpp Require Import base list numbers.
From S2P Require Import Prelude.

(** ** The database

    What [HardFork] uses of [BlockchainDB]: the number of blocks, the blocks,
    and the fork version recorded for a height.  Reading what is not there
    throws. *)
Record block := Block { major_version : nat; minor_version : nat }.

Class BlockchainDB (DB : Type) := {
  db_height : DB -> nat;
  get_block_from_height : DB -> nat -> result block;
  get_hard_fork_version : DB -> nat -> result nat;
  set_hard_fork_version : DB -> nat -> nat -> DB
}.

Class BlockchainDBLaws (DB : Type) `{BlockchainDB DB} := {
  block_exists : forall db h, (h < db_height db)%nat -> exists b, get_block_from_height db h = Ok b;
  version_set : forall db h v, get_hard_fork_version (set_hard_fork_version db h v) h = Ok v;
  version_other : forall db h v h', h <> h' ->
    get_hard_fork_version (set_hard_fork_version db h v) h' = get_hard_fork_version db h';
  height_set : forall db h v, db_height (set_hard_fork_version db h v) = db_height db;
  block_set : forall db h v h', get_block_from_height (set_hard_fork_version db h v) h' = get_block_from_height db h'
}.

(** ** State *)
Record Params := Fork { fork_version : nat; fork_height : nat; fork_threshold : nat; fork_time : Z }.

(** The members that the constructor sets. *)
Record config := Config {
  original_version : nat; original_version_till_height : nat; forked_time : Z; update_time : Z;
  window_size : nat; default_threshold_percent : nat }.

Record hardfork := Hf {
  heights : list Params; versions : list nat; last_versions : list Z; current_fork_index : nat }.

Inductive State := LikelyForked | UpdateNeeded | Ready.

Definition get_block_vote (b : block) : nat := if (minor_version b =? 0)%nat then 1%nat else minor_version b.

Definition get_block_version (b : block) : nat := major_version b.

(** The constructor throws; the counters are not initialised before [init]. *)
Definition new (c : config) : result hardfork :=
  if (window_size c =? 0)%nat then Fail Thrown
  else if (100 <? default_threshold_percent c)%nat then Fail Thrown
  else Ok (Hf [] [] [] 0).

(** ** The schedule *)
Definition add_fork (version height threshold : nat) (time : Z) (hf : hardfork) : hardfork * bool :=
  if (version =? 0)%nat then (hf, false)
  else if match list.last (heights hf) with
          | Some b => (version <=? fork_version b)%nat || (height <=? fork_height b)%nat || (time <=? fork_time b)
          | None => false
          end then (hf, false)
  else if (100 <? threshold)%nat then (hf, false)
  else (Hf (heights hf ++ [Fork version height threshold time]) (versions hf) (last_versions hf) (current_fork_index hf), true).

Definition add_fork_default (c : config) (version height : nat) (time : Z) (hf : hardfork) : hardfork * bool :=
  add_fork version height (default_threshold_percent c) time hf.

Definition get_effective_version (hf : hardfork) (voting_version : nat) : nat :=
  match list.last (heights hf) with
  | Some b => if (fork_version b <? voting_version)%nat then fork_version b else voting_version
  | None => voting_version
  end.

(** ** Votes *)

(** The votes that the fork [p] needs. *)
Definition votes_needed (c : config) (p : Params) : Z :=
  u32 (u64 (Z.of_nat (window_size c) * Z.of_nat (fork_threshold p) + 99) / 100).

(** The loop of [get_voted_fork_index], from [n] down. *)
Fixpoint voted_loop (c : config) (hf : hardfork) (height n : nat) (accumulated_votes : Z) : result nat :=
  if (n <=? current_fork_index hf)%nat then Ok (current_fork_index hf)
  else
    let! p := get (heights hf) n in
    let! votes := get (last_versions hf) (fork_version p) in
    let accumulated_votes := u32 (accumulated_votes + votes) in
    if (fork_height p <=? height)%nat && (votes_needed c p <=? accumulated_votes) then Ok n
    else match n with O => Ok (current_fork_index hf) | S n => voted_loop c hf height n accumulated_votes end.

Definition get_voted_fork_index (c : config) (hf : hardfork) (height : nat) : result nat :=
  voted_loop c hf height (length (heights hf) - 1) 0.

Definition get_current_version (hf : hardfork) : result nat :=
  let! p := get (heights hf) (current_fork_index hf) in
  Ok (fork_version p).

Definition do_check (hf : hardfork) (block_version voting_version : nat) : result bool :=
  let! v := get_current_version hf in
  Ok ((block_version =? v) && (v <=? voting_version))%nat.

Definition check (hf : hardfork) (b : block) : result bool := do_check hf (get_block_version b) (get_block_vote b).

Definition check_for_height (c : config) (hf : hardfork) (b : block) (height : nat) : result bool :=
  let! n := get_voted_fork_index c hf height in
  let! p := get (heights hf) n in
  Ok ((get_block_version b =? fork_version p) && (fork_version p <=? get_block_vote b))%nat.

(** [last_versions[v]++] or [--] *)
Definition count (v : nat) (d : Z) (last_versions : list Z) : result (list Z) :=
  let! n := get last_versions v in
  set last_versions v (u32 (n + d)).

(** The loop that makes room in the window. *)
Fixpoint shrink (ndebug : bool) (window_size : nat) (versions : list nat) (last_versions : list Z) :
    result (list nat * list Z) :=
  if (window_size <=? length versions)%nat then
    match versions with
    | [] => Fail OutOfBounds
    | old_version :: versions =>
        let! _ := c_assert ndebug (let! n := get last_versions old_version in Ok (1 <=? n)) in
        let! last_versions := count old_version (-1) last_versions in
        shrink ndebug window_size versions last_versions
    end
  else Ok (versions, last_versions).

(** [uint8_t voted = get_voted_fork_index(height); if (voted > current_fork_index) current_fork_index = voted] *)
Definition advance (c : config) (hf : hardfork) (height : nat) : result hardfork :=
  let! n := get_voted_fork_index c hf height in
  let voted := (n mod 256)%nat in
  Ok (if (current_fork_index hf <? voted)%nat
      then Hf (heights hf) (versions hf) (last_versions hf) voted
      else hf).

Section Operations.
Context {DB : Type} `{BlockchainDB DB} (ndebug : bool) (c : config).

(** The fork object and the database after a step. *)
Definition add_vote (block_version voting_version height : nat) (hf : hardfork) (db : DB) :
    result (hardfork * DB * bool) :=
  let! ok := do_check hf block_version voting_version in
  if negb ok then Ok (hf, db, false)
  else
    let! v := get_current_version hf in
    let db := set_hard_fork_version db height v in
    let voting_version := get_effective_version hf voting_version in
    let! (vs, lv) := shrink ndebug (window_size c) (versions hf) (last_versions hf) in
    let! lv := count voting_version 1 lv in
    let hf := Hf (heights hf) (vs ++ [voting_version]) lv (current_fork_index hf) in
    let! hf := advance c hf (height + 1) in
    Ok (hf, db, true).

Definition add (b : block) (height : nat) (hf : hardfork) (db : DB) : result (hardfork * DB * bool) :=
  add_vote (get_block_version b) (get_block_vote b) height hf db.

(** One block of a scan: its vote is counted, whatever its version. *)
Definition scan_block (db : DB) (h : nat) (hf : hardfork) : result hardfork :=
  let! b := get_block_from_height db h in
  let v := get_effective_version hf (get_block_vote b) in
  let! lv := count v 1 (last_versions hf) in
  Ok (Hf (heights hf) (versions hf ++ [v]) lv (current_fork_index hf)).

(** The window is emptied. *)
Definition clear_window (hf : hardfork) : hardfork := Hf (heights hf) [] (replicate 256 0) (current_fork_index hf).

(** [while (current_fork_index > 0 && heights[current_fork_index].version > start_version) --current_fork_index] *)
Fixpoint lower_index (hs : list Params) (start_version n : nat) : result nat :=
  match n with
  | O => Ok O
  | S m =>
      let! p := get hs n in
      if (start_version <? fork_version p)%nat then lower_index hs start_version m else Ok n
  end.

(** A later block is added again, whether its version is right or not. *)
Definition add_again (h : nat) (st : hardfork * DB) : result (hardfork * DB) :=
  let '(hf, db) := st in
  let! b := get_block_from_height db h in
  let! (hf, db, _) := add b h hf db in
  Ok (hf, db).

(** [None] is the return of [false]. *)
Definition reorganize_from_block_height (height : nat) (hf : hardfork) (db : DB) : result (option (hardfork * DB)) :=
  if (db_height db <=? height)%nat then Ok None
  else
    let hf := clear_window hf in
    let rescan_height := if (window_size c - 1 <=? height)%nat then (height - (window_size c - 1))%nat else O in
    let! start_version := if (height =? 0)%nat then Ok (original_version c) else get_hard_fork_version db height in
    let! n := lower_index (heights hf) start_version (current_fork_index hf) in
    let hf := Hf (heights hf) (versions hf) (last_versions hf) n in
    let! hf := for_ (height + 1 - rescan_height) (scan_block db) rescan_height hf in
    let! hf := advance c hf (height + 1) in
    let! (hf, db) := for_ (db_height db - (height + 1)) add_again (height + 1) (hf, db) in
    Ok (Some (hf, db)).

Definition reorganize_from_chain_height (height : nat) (hf : hardfork) (db : DB) : result (option (hardfork * DB)) :=
  if (height =? 0)%nat then Ok None else reorganize_from_block_height (height - 1) hf db.

(** [while (current_fork_index + 1 < heights.size() && heights[current_fork_index].version != lastv) ++current_fork_index] *)
Fixpoint raise_index (hs : list Params) (lastv : nat) (n : nat) : nat :=
  match hs with
  | p :: ((_ :: _) as tl) => if (fork_version p =? lastv)%nat then n else raise_index tl lastv (S n)
  | _ => n
  end.

Definition rescan_from_block_height (height : nat) (hf : hardfork) (db : DB) : result (option hardfork) :=
  if (db_height db <=? height)%nat then Ok None
  else
    let hf := clear_window hf in
    let! hf := for_ (db_height db - height) (scan_block db) height hf in
    let! lastv := get_hard_fork_version db (db_height db - 1) in
    let hf := Hf (heights hf) (versions hf) (last_versions hf) (raise_index (heights hf) lastv 0) in
    let! hf := advance c hf (db_height db) in
    Ok (Some hf).

Definition rescan_from_chain_height (height : nat) (hf : hardfork) (db : DB) : result (option hardfork) :=
  if (height =? 0)%nat then Ok None else rescan_from_block_height (height - 1) hf db.

Definition init (hf : hardfork) (db : DB) : result (hardfork * DB) :=
  let hs := if (length (heights hf) =? 0)%nat then [Fork (original_version c) 0 0 0] else heights hf in
  let hf := Hf hs [] (replicate 256 0) 0 in
  let height := db_height db in
  let height := if (window_size c <? height)%nat then (height - (window_size c - 1))%nat else 1%nat in
  match get_hard_fork_version db 0 with
  | Fail _ =>
      let height := 1%nat in
      let! r := reorganize_from_chain_height height hf db in
      let '(hf, db) := match r with Some (hf, db) => (hf, db) | None => (hf, db) end in
      let db := set_hard_fork_version db 0 (original_version c) in
      Ok (hf, db)
  | Ok _ =>
      let! r := rescan_from_chain_height height hf db in
      Ok (match r with Some hf => hf | None => hf end, db)
  end.

(** ** Queries *)
Definition block_version_at (db : DB) (height : nat) : result nat :=
  if (height <=? original_version_till_height c)%nat then Ok (original_version c)
  else
    let! b := get_block_from_height db height in
    Ok (get_block_version b).

Definition get_version (hf : hardfork) (db : DB) (height : nat) : result nat :=
  if (db_height db <? height)%nat then
    let! _ := c_assert ndebug (Ok false) in
    Ok 255%nat
  else if (height =? db_height db)%nat then get_current_version hf
  else get_hard_fork_version db height.

Definition get_state (hf : hardfork) (t : Z) : result State :=
  if (length (heights hf) <=? 1)%nat then Ok Ready
  else
    let! p := get (heights hf) (length (heights hf) - 1) in
    let t_last_fork := fork_time p in
    let! a := i64 (t_last_fork + forked_time c) in
    if a <=? t then Ok LikelyForked
    else
      let! b := i64 (t_last_fork + update_time c) in
      Ok (if b <=? t then UpdateNeeded else Ready).

Definition get_ideal_version (hf : hardfork) : result nat :=
  let! p := get (heights hf) (length (heights hf) - 1) in
  Ok (fork_version p).

(** The loop [for (n = heights.size() - 1; n > 0; --n)] that looks for a fork. *)
Fixpoint find_fork (hs : list Params) (f : Params -> bool) (n : nat) : result (option nat) :=
  match n with
  | O => Ok None
  | S m =>
      let! p := get hs n in
      if f p then Ok (Some n) else find_fork hs f m
  end.

Definition get_ideal_version_at (hf : hardfork) (height : nat) : result nat :=
  let! o := find_fork (heights hf) (fun p => (fork_height p <=? height)%nat) (length (heights hf) - 1) in
  match o with
  | Some n => let! p := get (heights hf) n in Ok (fork_version p)
  | None => Ok (original_version c)
  end.

Definition get_earliest_ideal_height_for_version (hf : hardfork) (version : nat) : result nat :=
  let! o := find_fork (heights hf) (fun p => (fork_version p <=? version)%nat) (length (heights hf) - 1) in
  match o with
  | Some n => let! p := get (heights hf) n in Ok (fork_height p)
  | None => Ok O
  end.

Definition get_next_version (hf : hardfork) (db : DB) : result nat :=
  let height := db_height db in
  let! o := find_fork (heights hf) (fun p => (fork_height p <=? height)%nat) (length (heights hf) - 1) in
  match o with
  | Some n =>
      let! p := get (heights hf) (if (n <? length (heights hf) - 1)%nat then n + 1 else n)%nat in
      Ok (fork_version p)
  | None => Ok (original_version c)
  end.

(** [enabled], [window], [votes], [threshold], [earliest_height] and [voting]. *)
Definition get_voting_info (hf : hardfork) (version : nat) : result (bool * Z * Z * Z * nat * nat) :=
  let! p := get (heights hf) (current_fork_index hf) in
  let current_version := fork_version p in
  let enabled := (version <=? current_version)%nat in
  let window := u32 (Z.of_nat (length (versions hf))) in
  let! votes := for_ (256 - version) (fun n votes => let! x := get (last_versions hf) n in Ok (u32 (votes + x))) version 0 in
  let threshold := u32 (u32 (window * Z.of_nat (fork_threshold p)) + 99) / 100 in
  let! earliest_height := get_earliest_ideal_height_for_version hf version in
  let! voting := get_ideal_version hf in
  Ok (enabled, window, votes, threshold, earliest_height, voting).
End Operations.
