(* ===== verification/HardForkFacts.v ===== *)
(** * The hard fork state is a function of the chain

    For a schedule and a chain of blocks, the window of votes and the fork in
    force after each block are defined directly.  Adding a block, reorganizing
    from a height and starting from a database all reach that state. *)

From Stdlib Require Import ZArith Lia.
From stdpp Require Import base list numbers.
From S2P Require Import Prelude HardFork.

(** ** Counting votes *)
Definition votes_for (v : nat) (ws : list nat) : nat := List.count_occ Nat.eq_dec ws v.

Lemma votes_for_app v ws ws' : votes_for v (ws ++ ws') = (votes_for v ws + votes_for v ws')%nat.
Proof. apply count_occ_app. Qed.

Lemma votes_for_le v ws : (votes_for v ws <= length ws)%nat.
Proof. apply count_occ_bound. Qed.

(** The 256 counters of a window. *)
Definition counters (ws : list nat) : list Z := (fun v => Z.of_nat (votes_for v ws)) <$> seq 0 256.

Lemma counters_lookup ws v : (v < 256)%nat -> counters ws !! v = Some (Z.of_nat (votes_for v ws)).
Proof. intros Hv. unfold counters. rewrite list_lookup_fmap, lookup_seq_lt by done. done. Qed.

Lemma counters_nil : counters [] = replicate 256 0.
Proof. by vm_compute. Qed.

(** An update of one counter gives the counters of another window. *)
Lemma count_spec v d ws ws' :
  (v < 256)%nat -> u32 (Z.of_nat (votes_for v ws) + d) = Z.of_nat (votes_for v ws') ->
  (forall u, u <> v -> votes_for u ws = votes_for u ws') -> count v d (counters ws) = Ok (counters ws').
Proof.
  intros Hv Hd Hu. unfold count. rewrite (get_ok _ _ _ (counters_lookup ws v Hv)). cbn [bind]. rewrite Hd.
  rewrite set_ok by (unfold counters; rewrite length_fmap, length_seq; done). f_equal.
  apply list_eq. intros u. destruct (decide (u < 256)%nat) as [Hu256|Hu256].
  - rewrite (counters_lookup ws' u Hu256). destruct (decide (u = v)) as [->|Hne].
    + rewrite list_lookup_insert_eq; [done|]. unfold counters. by rewrite length_fmap, length_seq.
    + rewrite list_lookup_insert_ne, counters_lookup by done. by rewrite Hu.
  - rewrite !lookup_ge_None_2; [done|..]; unfold counters; rewrite ?length_insert, length_fmap, length_seq; lia.
Qed.

Lemma count_push v ws :
  (v < 256)%nat -> Z.of_nat (length ws) < 2 ^ 32 - 1 -> count v 1 (counters ws) = Ok (counters (ws ++ [v])).
Proof.
  intros Hv Hl. apply count_spec; [done| |].
  - rewrite votes_for_app. pose proof (votes_for_le v ws).
    assert (votes_for v [v] = 1%nat) as -> by (cbn; by destruct (Nat.eq_dec v v)).
    unfold u32. rewrite Z.mod_small by lia. lia.
  - intros u Hu. rewrite votes_for_app. cbn. destruct (Nat.eq_dec v u); [congruence|lia].
Qed.

Lemma count_pop v ws :
  (v < 256)%nat -> Z.of_nat (length ws) < 2 ^ 32 - 1 -> count v (-1) (counters (v :: ws)) = Ok (counters ws).
Proof.
  intros Hv Hl. pose proof (votes_for_le v ws). apply count_spec; [done| |].
  - unfold votes_for at 1. cbn [count_occ]. destruct (Nat.eq_dec v v); [|done]. fold (votes_for v ws).
    unfold u32. rewrite Z.mod_small by lia. lia.
  - intros u Hu. unfold votes_for at 1. cbn [count_occ]. destruct (Nat.eq_dec v u); [congruence|done].
Qed.

(** ** The window *)
Definition lastn (n : nat) (ws : list nat) : list nat := drop (length ws - n) ws.

Lemma lastn_snoc n ws v : (1 <= n)%nat -> lastn n (lastn n ws ++ [v]) = lastn n (ws ++ [v]).
Proof.
  intros Hn. unfold lastn. rewrite !length_app, length_drop. cbn [length].
  rewrite !drop_app_le by (rewrite ?length_drop; lia). rewrite drop_drop. do 2 f_equal. lia.
Qed.

Lemma lastn_length n ws : (length (lastn n ws) <= n)%nat.
Proof. unfold lastn. rewrite length_drop. lia. Qed.

Lemma shrink_spec ndebug n ws :
  (1 <= n)%nat -> Forall (fun v => v < 256)%nat ws -> Z.of_nat (length ws) < 2 ^ 32 - 1 ->
  shrink ndebug n ws (counters ws) = Ok (drop (S (length ws) - n) ws, counters (drop (S (length ws) - n) ws)).
Proof.
  intros Hn Hv Hl. induction Hv as [|v ws Hv Hws IH].
  - cbn [shrink length]. destruct (Nat.leb_spec n 0); [lia|]. by rewrite drop_nil.
  - cbn [length] in Hl. cbn [shrink]. destruct (Nat.leb_spec n (length (v :: ws))) as [H|H]; cbn [length] in *.
    + rewrite c_assert_true.
      * cbn [bind]. rewrite count_pop by (done || lia). cbn [bind]. rewrite IH by lia.
        replace (S (S (length ws)) - n)%nat with (S (S (length ws) - n)) by lia. done.
      * rewrite (get_ok _ _ _ (counters_lookup (v :: ws) v Hv)). cbn [bind]. f_equal. apply Z.leb_le.
        unfold votes_for. cbn [count_occ]. destruct (Nat.eq_dec v v); [lia|done].
    + replace (S (S (length ws)) - n)%nat with 0%nat by lia. done.
Qed.

(** ** The schedule *)
Record schedule_ok (c : config) (H : list Params) : Prop := {
  schedule_first : exists p, H !! 0%nat = Some p /\ fork_version p = original_version c;
  schedule_increasing : forall i j p q, (i < j)%nat -> H !! i = Some p -> H !! j = Some q -> (fork_version p < fork_version q)%nat;
  schedule_versions : forall i p, H !! i = Some p -> (fork_version p < 256)%nat /\ (fork_threshold p <= 100)%nat;
  schedule_window : (1 <= window_size c)%nat /\ Z.of_nat (window_size c) < 2 ^ 32 - 1
}.

(** A vote counts for the last fork of the schedule at most. *)
Definition effective (H : list Params) (v : nat) : nat :=
  match list.last H with Some b => if (fork_version b <? v)%nat then fork_version b else v | None => v end.

Definition block_vote (H : list Params) (b : block) : nat := effective H (get_block_vote b).

(** The votes for the fork [n] or a later one. *)
Definition support (H : list Params) (ws : list nat) (n : nat) : nat :=
  foldr (fun p m => votes_for (fork_version p) ws + m)%nat 0%nat (drop n H).

(** The fork [n] can be in force at [height]: its share of the window is at least its threshold in percent. *)
Definition eligible (c : config) (H : list Params) (ws : list nat) (height n : nat) : bool :=
  match H !! n with
  | Some p => (fork_height p <=? height)%nat && (Z.of_nat (window_size c) * Z.of_nat (fork_threshold p) <=? 100 * Z.of_nat (support H ws n))
  | None => false
  end.

(** The last eligible fork among the first [n + 1], the one in force if none after it is. *)
Fixpoint elected (c : config) (H : list Params) (ws : list nat) (height index n : nat) : nat :=
  if (n <=? index)%nat then index
  else if eligible c H ws height n then n
  else match n with O => index | S n => elected c H ws height index n end.

Definition next_index (c : config) (H : list Params) (ws : list nat) (height index : nat) : nat :=
  elected c H ws height index (length H - 1).

(** What [elected] means. *)
Lemma elected_spec c H ws height index n :
  let m := elected c H ws height index n in
  (index <= m)%nat /\ (m <> index -> (m <= n)%nat /\ eligible c H ws height m = true) /\
  (forall k, (m < k <= n)%nat -> eligible c H ws height k = false).
Proof.
  induction n as [|n IH]; cbn [elected].
  - destruct (Nat.leb_spec 0 index); [|lia]. split_and!; [done|done|lia].
  - destruct (Nat.leb_spec (S n) index) as [Hi|Hi]; [split_and!; [done|done|lia]|].
    destruct (eligible c H ws height (S n)) eqn:E; [split_and!; [lia|done|lia]|].
    destruct IH as (H1 & H2 & H3). split_and!; [done| |].
    + intros Hm. destruct (H2 Hm). split; [lia|done].
    + intros k Hk. destruct (decide (k = S n)) as [->|Hne]; [done|]. apply H3. lia.
Qed.

(** A vote for a version other than that of [p]. *)
Definition other_votes (p : Params) (ws : list nat) : list nat := filter (fun v => v <> fork_version p) ws.

Lemma votes_split p ws : (votes_for (fork_version p) ws + length (other_votes p ws) = length ws)%nat.
Proof.
  unfold other_votes. induction ws as [|w ws IH]; [done|]. unfold votes_for in *. cbn [count_occ]. rewrite filter_cons.
  destruct (Nat.eq_dec w (fork_version p)), (decide (w <> fork_version p)); cbn [length]; lia.
Qed.

Lemma votes_for_other p v ws : v <> fork_version p -> votes_for v (other_votes p ws) = votes_for v ws.
Proof.
  intros Hv. unfold other_votes. induction ws as [|w ws IH]; [done|]. rewrite filter_cons. unfold votes_for in *. cbn [count_occ].
  destruct (decide (w <> fork_version p)); cbn [count_occ]; destruct (Nat.eq_dec w v); (lia || congruence).
Qed.

Lemma support_distinct H ws n :
  (forall i j p q, (i < j)%nat -> drop n H !! i = Some p -> drop n H !! j = Some q -> fork_version p <> fork_version q) ->
  (support H ws n <= length ws)%nat.
Proof.
  unfold support. generalize (drop n H). intros hs. revert ws. induction hs as [|p hs IH]; intros ws Hne; cbn [foldr]; [lia|].
  assert (forall q, q ∈ hs -> fork_version q <> fork_version p) as Hq.
  { intros q (j & Hj)%list_elem_of_lookup E. apply (Hne 0%nat (S j) p q); [lia|done|done|done]. }
  assert (foldr (fun q m => votes_for (fork_version q) ws + m)%nat 0%nat hs =
    foldr (fun q m => votes_for (fork_version q) (other_votes p ws) + m)%nat 0%nat hs) as ->.
  { clear -Hq. induction hs as [|q hs IH]; [done|]. cbn [foldr]. rewrite IH by (intros q' Hq'; apply Hq; by right).
    by rewrite (votes_for_other p) by (apply Hq; by left). }
  rewrite <- (votes_split p ws). apply Nat.add_le_mono_l. apply IH.
  intros i j p' q Hij Hp Hq'. apply (Hne (S i) (S j)); [lia|done|done].
Qed.

Section Chain.
Context (c : config) (H : list Params) (bs : list block).
Hypothesis Hok : schedule_ok c H.

Lemma window_bounds : (1 <= window_size c)%nat /\ Z.of_nat (window_size c) < 2 ^ 32 - 1.
Proof using Hok. by destruct Hok. Qed.

Lemma schedule_nonempty : (0 < length H)%nat.
Proof using Hok. destruct Hok as [(p & Hp & _) _ _ _]. by apply lookup_lt_Some in Hp. Qed.

Lemma version_lower i p : H !! i = Some p -> (i <= fork_version p)%nat.
Proof using Hok.
  revert p. induction i as [|i IH]; intros p Hp; [lia|].
  destruct (lookup_lt_is_Some_2 H i) as [q Hq]; [apply lookup_lt_Some in Hp; lia|].
  specialize (IH q Hq). pose proof (schedule_increasing _ _ Hok i (S i) q p ltac:(lia) Hq Hp). lia.
Qed.

Lemma index_bound i : (i < length H)%nat -> (i < 256)%nat.
Proof using Hok.
  intros Hi. destruct (lookup_lt_is_Some_2 H i Hi) as [p Hp]. pose proof (version_lower i p Hp).
  pose proof (schedule_versions _ _ Hok i p Hp). lia.
Qed.

Lemma effective_bound v : (effective H v < 256)%nat.
Proof using Hok.
  unfold effective. destruct (list.last H) as [b|] eqn:E.
  - rewrite last_lookup in E. pose proof (schedule_versions _ _ Hok _ b E). destruct (Nat.ltb_spec (fork_version b) v); lia.
  - apply last_None in E. pose proof schedule_nonempty as Hn. rewrite E in Hn. cbn in Hn. lia.
Qed.

(** The versions of the schedule are distinct, so that no vote is counted twice. *)
Lemma support_le ws n : (support H ws n <= length ws)%nat.
Proof using Hok.
  apply support_distinct. intros i j p q Hij Hp Hq. rewrite lookup_drop in Hp, Hq.
  pose proof (schedule_increasing _ _ Hok (n + i) (n + j) p q ltac:(lia) Hp Hq). lia.
Qed.

Lemma support_S ws n p : H !! n = Some p -> support H ws n = (votes_for (fork_version p) ws + support H ws (S n))%nat.
Proof using Type. intros Hp. unfold support. by rewrite (drop_S _ _ _ Hp). Qed.

(** The rounded number of votes that the code compares with is exact. *)
Lemma votes_needed_exact i p n : H !! i = Some p -> 0 <= n ->
  (votes_needed c p <=? n) = (Z.of_nat (window_size c) * Z.of_nat (fork_threshold p) <=? 100 * n).
Proof using Hok.
  intros Hp Hn. destruct (schedule_versions _ _ Hok _ _ Hp) as [_ Ht]. destruct (schedule_window _ _ Hok) as [_ Hw].
  unfold votes_needed, u32, u64. set (w := Z.of_nat (window_size c)) in *. set (t := Z.of_nat (fork_threshold p)).
  assert (0 <= w * t <= 100 * (2 ^ 32 - 2)) as Hb by (unfold t; nia). generalize dependent (w * t). intros m Hm.
  rewrite (Z.mod_small (m + 99)), Z.mod_small by (Z.to_euclidean_division_equations; lia).
  apply Bool.eq_iff_eq_true. rewrite !Z.leb_le. Z.to_euclidean_division_equations. lia.
Qed.

(** The loop of the code elects the same fork. *)
Lemma voted_loop_spec hf ws height n :
  heights hf = H -> last_versions hf = counters ws -> Z.of_nat (length ws) < 2 ^ 32 -> (n < length H)%nat ->
  voted_loop c hf height n (Z.of_nat (support H ws (S n))) = Ok (elected c H ws height (current_fork_index hf) n).
Proof using Hok.
  intros EH EL Hws. induction n as [|n IH]; intros Hn; cbn [voted_loop elected].
  - done.
  - destruct (Nat.leb_spec (S n) (current_fork_index hf)) as [Hi|Hi]; [done|].
    destruct (lookup_lt_is_Some_2 H (S n) Hn) as [p Hp]. rewrite EH, EL, (get_ok _ _ _ Hp). cbn [bind].
    destruct (schedule_versions _ _ Hok _ _ Hp) as [Hv _].
    rewrite (get_ok _ _ _ (counters_lookup ws (fork_version p) Hv)). cbn [bind].
    pose proof (support_le ws (S n)) as Hle. rewrite (support_S ws (S n) p Hp) in Hle.
    assert (u32 (Z.of_nat (support H ws (S (S n))) + Z.of_nat (votes_for (fork_version p) ws)) = Z.of_nat (support H ws (S n))) as ->.
    { rewrite (support_S ws (S n) p Hp). unfold u32. rewrite Z.mod_small by lia. lia. }
    unfold eligible at 1. rewrite Hp, (votes_needed_exact _ _ _ Hp) by lia. case_match; [done|]. apply IH. lia.
Qed.

Lemma get_voted_fork_index_spec hf ws height :
  heights hf = H -> last_versions hf = counters ws -> Z.of_nat (length ws) < 2 ^ 32 ->
  get_voted_fork_index c hf height = Ok (next_index c H ws height (current_fork_index hf)).
Proof using Hok.
  intros EH EL Hws. unfold get_voted_fork_index, next_index. rewrite EH. pose proof schedule_nonempty as Hn.
  rewrite <- (voted_loop_spec hf ws height (length H - 1) EH EL Hws ltac:(lia)). f_equal.
  unfold support. rewrite drop_ge by lia. done.
Qed.

Lemma next_index_bound ws height index : (index < length H)%nat -> (next_index c H ws height index < length H)%nat.
Proof using Type.
  intros Hi. destruct (elected_spec c H ws height index (length H - 1)) as (_ & H2 & _).
  unfold next_index. destruct (decide (elected c H ws height index (length H - 1) = index)) as [->|Hne]; [done|].
  specialize (H2 Hne). lia.
Qed.

Lemma advance_spec ws height index vs :
  (index < length H)%nat -> Z.of_nat (length ws) < 2 ^ 32 ->
  advance c (Hf H vs (counters ws) index) height = Ok (Hf H vs (counters ws) (next_index c H ws height index)).
Proof using Hok.
  intros Hi Hws. unfold advance. rewrite (get_voted_fork_index_spec _ ws) by done. cbn [bind current_fork_index heights versions last_versions].
  pose proof (next_index_bound ws height index Hi) as Hb. rewrite Nat.mod_small by (by apply index_bound).
  destruct (elected_spec c H ws height index (length H - 1)) as (H1 & _ & _). fold (next_index c H ws height index) in H1.
  destruct (Nat.ltb_spec index (next_index c H ws height index)); [done|]. f_equal. f_equal. lia.
Qed.

(** ** The state after a number of blocks *)
Definition votes (n : nat) : list nat := block_vote H <$> take n bs.

Definition window (n : nat) : list nat := lastn (window_size c) (votes n).

(** The fork in force after [n] blocks, which the block [n] is checked against. *)
Fixpoint fork_at (n : nat) : nat :=
  match n with
  | O => O
  | S m => next_index c H (window n) n (fork_at m)
  end.

Definition version_at (n : nat) : nat := match H !! fork_at n with Some p => fork_version p | None => O end.

Definition state_at (n : nat) : hardfork := Hf H (window n) (counters (window n)) (fork_at n).

(** What makes the block [n] acceptable. *)
Definition accepted (n : nat) (b : block) : bool :=
  ((get_block_version b =? version_at n) && (version_at n <=? get_block_vote b))%nat.

Lemma fork_at_bound n : (fork_at n < length H)%nat.
Proof using Hok. induction n as [|n IH]; [apply schedule_nonempty|]. cbn [fork_at]. by apply next_index_bound. Qed.

Lemma state_at_0 : state_at 0 = Hf H [] (replicate 256 0) 0.
Proof using Type.
  unfold state_at, window, votes, lastn. rewrite take_0. cbn [fmap list_fmap]. rewrite drop_nil. by rewrite counters_nil.
Qed.

Lemma fork_at_lookup n : exists p, H !! fork_at n = Some p /\ fork_version p = version_at n.
Proof using Hok.
  destruct (lookup_lt_is_Some_2 H _ (fork_at_bound n)) as [p Hp]. exists p. split; [done|]. unfold version_at. by rewrite Hp.
Qed.

Lemma version_at_0 : version_at 0 = original_version c.
Proof using Hok. destruct (schedule_first _ _ Hok) as (p & Hp & Hv). unfold version_at. cbn [fork_at]. by rewrite Hp. Qed.

Lemma fork_at_mono n m : (n <= m)%nat -> (fork_at n <= fork_at m)%nat.
Proof using Type.
  induction 1 as [|m _ IH]; [done|]. cbn [fork_at]. etrans; [exact IH|].
  apply (elected_spec c H (window (S m)) (S m) (fork_at m) (length H - 1)).
Qed.

Lemma window_length n : Z.of_nat (length (window n)) < 2 ^ 32 - 1.
Proof using Hok. pose proof (lastn_length (window_size c) (votes n)). pose proof window_bounds. unfold window. lia. Qed.

Lemma votes_bound n : Forall (fun v => v < 256)%nat (votes n).
Proof using Hok. unfold votes. apply Forall_fmap, Forall_true. intros b. apply effective_bound. Qed.

Lemma window_votes n : Forall (fun v => v < 256)%nat (window n).
Proof using Hok. unfold window, lastn. apply Forall_drop, votes_bound. Qed.

Lemma votes_S n b : bs !! n = Some b -> votes (S n) = votes n ++ [block_vote H b].
Proof using Type. intros Hb. unfold votes. rewrite (take_S_r _ _ _ Hb), fmap_app. done. Qed.

Lemma window_S n b : bs !! n = Some b -> window (S n) = lastn (window_size c) (window n ++ [block_vote H b]).
Proof using Hok. intros Hb. unfold window. rewrite lastn_snoc by (apply window_bounds). by rewrite (votes_S _ _ Hb). Qed.

Section Operations.
Context {DB : Type} `{Idb : BlockchainDB DB} {Laws : BlockchainDBLaws DB} (ndebug : bool).

(** The database holds the chain. *)
Definition holds_chain (db : DB) : Prop :=
  db_height db = length bs /\ forall n b, bs !! n = Some b -> get_block_from_height db n = Ok b.

Lemma holds_chain_set db n v : holds_chain db -> holds_chain (set_hard_fork_version db n v).
Proof using Laws. intros [H1 H2]. split; [by rewrite height_set|]. intros m b Hb. rewrite block_set. by apply H2. Qed.

Lemma do_check_spec n b vs lv :
  do_check (Hf H vs lv (fork_at n)) (get_block_version b) (get_block_vote b) = Ok (accepted n b).
Proof using Hok.
  destruct (fork_at_lookup n) as (p & Hp & Hv). unfold do_check, get_current_version.
  cbn [heights current_fork_index]. rewrite (get_ok _ _ _ Hp). cbn [bind]. by rewrite Hv.
Qed.

Lemma add_spec n b db :
  bs !! n = Some b ->
  add ndebug c b n (state_at n) db =
    Ok (if accepted n b then (state_at (S n), set_hard_fork_version db n (version_at n), true) else (state_at n, db, false)).
Proof using Hok.
  intros Hb. unfold add, add_vote. unfold state_at at 1. rewrite do_check_spec. cbn [bind].
  destruct (accepted n b); cbn [negb]; [|done].
  destruct (fork_at_lookup n) as (p & Hp & Hv). remember (state_at (S n)) as s eqn:Es.
  unfold get_current_version, state_at. cbn [heights current_fork_index versions last_versions]. rewrite (get_ok _ _ _ Hp). cbn [bind]. rewrite Hv.
  destruct window_bounds as [Hw1 Hw2]. pose proof (window_length n) as Hl.
  pose proof (window_votes n) as HF.
  rewrite shrink_spec by done. cbn [bind].
  change (get_effective_version _ _) with (block_vote H b).
  rewrite count_push; [|apply effective_bound|rewrite length_drop; lia]. cbn [bind].
  assert (drop (S (length (window n)) - window_size c) (window n) ++ [block_vote H b] = window (S n)) as ->.
  { rewrite (window_S _ _ Hb). unfold lastn. rewrite length_app. cbn [length].
    rewrite drop_app_le by lia. do 2 f_equal. lia. }
  rewrite advance_spec; [|apply fork_at_bound|pose proof (window_length (S n)); lia].
  cbn [bind]. rewrite Es. unfold state_at. cbn [fork_at]. rewrite Nat.add_1_r. done.
Qed.

(** ** Scans *)
Lemma scan_spec db m h ws i :
  holds_chain db -> (h + m <= length bs)%nat -> Z.of_nat (length ws + m) < 2 ^ 32 ->
  let ws' := ws ++ (block_vote H <$> take m (drop h bs)) in
  for_ m (scan_block db) h (Hf H ws (counters ws) i) = Ok (Hf H ws' (counters ws') i).
Proof using Hok.
  intros [_ Hdb] Hm Hl. cbn zeta. revert h ws Hm Hl. induction m as [|m IH]; intros h ws Hm Hl; cbn [for_].
  - cbn. by rewrite app_nil_r.
  - destruct (lookup_lt_is_Some_2 bs h ltac:(lia)) as [b Hb]. rewrite (drop_S _ _ _ Hb). cbn [take fmap list_fmap].
    unfold scan_block at 1. rewrite (Hdb _ _ Hb). cbn [bind last_versions heights versions current_fork_index].
    change (get_effective_version _ _) with (block_vote H b).
    rewrite count_push by (apply effective_bound || lia). cbn [bind].
    rewrite IH by (rewrite ?length_app; cbn [length]; lia). by rewrite <- app_assoc.
Qed.

Lemma window_scan n :
  (n <= length bs)%nat -> block_vote H <$> take (n - (n - window_size c)) (drop (n - window_size c) bs) = window n.
Proof using Type.
  intros Hn. unfold window, lastn, votes. rewrite length_fmap, length_take, Nat.min_l by done.
  by rewrite <- fmap_drop, skipn_firstn_comm.
Qed.

Lemma lower_index_spec i n p :
  (n <= i < length H)%nat -> H !! n = Some p -> lower_index H (fork_version p) i = Ok n.
Proof using Hok.
  intros Hi Hp. induction i as [|i IH]; cbn [lower_index]; [by replace n with 0%nat by lia|].
  destruct (lookup_lt_is_Some_2 H (S i) ltac:(lia)) as [q Hq]. rewrite (get_ok _ _ _ Hq). cbn [bind].
  destruct (decide (n = S i)) as [->|Hne].
  - replace q with p by congruence. by rewrite Nat.ltb_irrefl.
  - pose proof (schedule_increasing _ _ Hok n (S i) p q ltac:(lia) Hp Hq).
    destruct (Nat.ltb_spec (fork_version p) (fork_version q)); [|lia]. apply IH. lia.
Qed.

Lemma raise_index_spec hs k i p :
  hs !! i = Some p -> (forall j q, (j < i)%nat -> hs !! j = Some q -> fork_version q <> fork_version p) ->
  raise_index hs (fork_version p) k = (k + i)%nat.
Proof using Type.
  revert k i. induction hs as [|q hs IH]; intros k i Hi Hne; [done|]. cbn [raise_index].
  destruct i as [|i].
  - assert (q = p) as -> by (cbn in Hi; congruence). destruct hs; [lia|]. rewrite Nat.eqb_refl. lia.
  - destruct hs as [|q' hs]; [done|]. destruct (Nat.eqb_spec (fork_version q) (fork_version p)) as [E|_].
    + exfalso. by apply (Hne 0%nat q); [lia| |].
    + rewrite (IH (S k) i Hi); [lia|]. intros j r Hj Hr. apply (Hne (S j)); [lia|done].
Qed.

(** The versions are recorded for the blocks of a range. *)
Definition recorded (lo hi : nat) (db : DB) : Prop :=
  forall n, (lo <= n < hi)%nat -> get_hard_fork_version db n = Ok (version_at n).

(** The blocks from [lo] on are acceptable. *)
Definition accepted_from (lo : nat) : Prop := forall n b, (lo <= n)%nat -> bs !! n = Some b -> accepted n b = true.

Lemma add_loop_spec db h :
  (h <= length bs)%nat -> holds_chain db -> accepted_from h ->
  exists db', for_ (length bs - h) (add_again ndebug c) h (state_at h, db) = Ok (state_at (length bs), db') /\
    holds_chain db' /\ recorded h (length bs) db' /\
    (forall n, (n < h)%nat -> get_hard_fork_version db' n = get_hard_fork_version db n).
Proof using Hok Laws.
  intros Hh Hdb Hacc.
  pose proof (for_inv (length bs - h) (add_again ndebug c) h (state_at h, db)
    (fun k '(hf, db') => hf = state_at k /\ holds_chain db' /\ recorded h k db' /\
      forall n, (n < h)%nat -> get_hard_fork_version db' n = get_hard_fork_version db n)) as Hfor.
  apply returns_inv in Hfor as ([hf db'] & E & HI).
  - replace (h + (length bs - h))%nat with (length bs) in HI by lia. destruct HI as (-> & Hd & Hr & Ho). by exists db'.
  - split_and!; [done|done| |done]. intros n Hn. lia.
  - intros k [hf db'] Hk (-> & Hd & Hr & Ho). destruct (lookup_lt_is_Some_2 bs k ltac:(lia)) as [b Hb].
    unfold add_again. rewrite (proj2 Hd _ _ Hb). cbn [bind]. rewrite add_spec by done. rewrite (Hacc k b) by (done || lia). cbn [bind].
    cbn. split_and!; [done|by apply holds_chain_set| |].
    + intros n Hn. destruct (decide (k = n)) as [->|Hne]; [apply version_set|]. rewrite version_other by done. apply Hr. lia.
    + intros n Hn. rewrite version_other by lia. by apply Ho.
Qed.

(** The window and the fork are restored from the blocks before. *)
Lemma restore_spec db n r index i :
  holds_chain db -> (1 <= n <= length bs)%nat -> r = (n - window_size c)%nat -> index = fork_at (n - 1) ->
  (let! hf := for_ (n - r) (scan_block db) r (Hf H [] (replicate 256 0) i) in
   advance c (Hf (heights hf) (versions hf) (last_versions hf) index) n) = Ok (state_at n).
Proof using Hok.
  intros Hdb Hn -> ->. rewrite <- counters_nil.
  rewrite (scan_spec db _ _ [] i Hdb) by (cbn [length]; pose proof window_bounds; lia).
  cbn [bind heights versions last_versions app]. rewrite window_scan by lia.
  rewrite advance_spec; [|apply fork_at_bound|pose proof (window_length n); lia].
  unfold state_at. do 2 f_equal. destruct n; [lia|]. cbn [fork_at]. do 2 f_equal. lia.
Qed.

Lemma reorganize_spec db h hf :
  holds_chain db -> (h < length bs)%nat -> heights hf = H -> (fork_at h <= current_fork_index hf < length H)%nat ->
  (h <> 0%nat -> get_hard_fork_version db h = Ok (version_at h)) -> accepted_from (S h) ->
  exists db', reorganize_from_block_height ndebug c h hf db = Ok (Some (state_at (length bs), db')) /\
    holds_chain db' /\ recorded (S h) (length bs) db' /\
    (forall n, (n <= h)%nat -> get_hard_fork_version db' n = get_hard_fork_version db n).
Proof using Hok Laws.
  intros Hdb Hh EH Hi Hv Hacc. unfold reorganize_from_block_height. rewrite (proj1 Hdb).
  destruct (Nat.leb_spec (length bs) h); [lia|]. unfold clear_window. cbn [heights versions last_versions current_fork_index].
  rewrite EH.
  assert ((if (h =? 0)%nat then Ok (original_version c) else get_hard_fork_version db h) = Ok (version_at h)) as ->.
  { destruct (Nat.eqb_spec h 0) as [->|Hne]; [by rewrite version_at_0|by apply Hv]. }
  cbn [bind]. destruct (fork_at_lookup h) as (p & Hp & <-). rewrite (lower_index_spec _ (fork_at h)) by done. cbn [bind].
  pose proof window_bounds as [Hw Hw2].
  replace (if (window_size c - 1 <=? h)%nat then (h - (window_size c - 1))%nat else 0%nat) with (h + 1 - window_size c)%nat
    by (destruct (Nat.leb_spec (window_size c - 1) h); lia).
  pose proof (restore_spec db (h + 1) (h + 1 - window_size c) (fork_at h) (fork_at h) Hdb ltac:(lia) eq_refl
    ltac:(f_equal; lia)) as Hr.
  destruct (add_loop_spec db (S h) ltac:(lia) Hdb Hacc) as (db' & E & Hd & Hrec & Ho).
  rewrite Nat.add_1_r in *.
  destruct (for_ _ (scan_block db) _ _) as [hf'|e] eqn:Ef; cbn [bind] in *; [|done].
  assert (hf' = Hf (heights hf') (versions hf') (last_versions hf') (fork_at h)) as ->.
  { rewrite <- counters_nil, (scan_spec db) in Ef by (done || cbn [length]; lia). by injection Ef as <-. }
  cbn [heights versions last_versions] in Hr. rewrite Hr. cbn [bind]. rewrite E. cbn [bind].
  exists db'. split_and!; [done|done|done|]. intros n Hn. apply Ho. lia.
Qed.

(** A database that was never populated: the versions are recorded. *)
Lemma init_unpopulated db hf f :
  holds_chain db -> heights hf = H -> get_hard_fork_version db 0 = Fail f -> accepted_from 1 ->
  exists db', init ndebug c hf db = Ok (state_at (length bs), db') /\ holds_chain db' /\
    recorded 0 (Nat.max 1 (length bs)) db'.
Proof using Hok Laws.
  intros Hdb EH Hf0 Hacc. pose proof schedule_nonempty as Hne. unfold init. rewrite EH, Hf0.
  destruct (Nat.eqb_spec (length H) 0) as [Ez|_]; [lia|]. unfold reorganize_from_chain_height. cbn [Nat.eqb Nat.sub].
  destruct (decide (length bs = 0%nat)) as [E0|E0].
  - unfold reorganize_from_block_height. rewrite (proj1 Hdb), E0. cbn [Nat.leb bind].
    eexists. split_and!; [|by apply holds_chain_set|].
    + by rewrite state_at_0.
    + intros n Hn. replace n with 0%nat by lia. rewrite version_set. by rewrite version_at_0.
  - destruct (reorganize_spec db 0 (Hf H [] (replicate 256 0) 0) Hdb ltac:(lia) eq_refl ltac:(cbn; lia) ltac:(done) Hacc)
      as (db' & E & Hd & Hrec & Ho). rewrite E. cbn [bind]. eexists. split_and!; [done|by apply holds_chain_set|].
    intros n Hn. destruct (decide (n = 0%nat)) as [->|Hn0]; [by rewrite version_set, version_at_0|].
    rewrite version_other by lia. apply Hrec. lia.
Qed.

(** A populated one: the recorded version of the last block restores the fork. *)
Lemma init_populated db hf v :
  holds_chain db -> heights hf = H -> get_hard_fork_version db 0 = Ok v ->
  (bs <> [] -> get_hard_fork_version db (length bs - 1) = Ok (version_at (length bs - 1))) ->
  init ndebug c hf db = Ok (state_at (length bs), db).
Proof using Hok Laws.
  intros Hdb EH Hf0 Hrec. pose proof schedule_nonempty as Hne. pose proof window_bounds as [Hw Hw2]. unfold init. rewrite EH, Hf0.
  destruct (Nat.eqb_spec (length H) 0) as [Ez|_]; [lia|]. unfold rescan_from_chain_height. rewrite (proj1 Hdb).
  set (h := if (window_size c <? length bs)%nat then _ else _).
  assert ((h =? 0)%nat = false /\ (h - 1 = length bs - window_size c)%nat) as [-> ->].
  { subst h. destruct (Nat.ltb_spec (window_size c) (length bs)); split; try (apply Nat.eqb_neq); lia. }
  unfold rescan_from_block_height. rewrite (proj1 Hdb).
  destruct (Nat.leb_spec (length bs) (length bs - window_size c)) as [H0|H0].
  - assert (length bs = 0%nat) as -> by lia. cbn [bind]. by rewrite state_at_0.
  - assert (bs <> []) as Hbs by (intros E; rewrite E in H0; cbn in H0; lia).
    pose proof (restore_spec db (length bs) (length bs - window_size c) (fork_at (length bs - 1)) 0 Hdb ltac:(lia) eq_refl eq_refl) as Hr.
    unfold clear_window. cbn [heights current_fork_index]. rewrite (Hrec Hbs).
    destruct (for_ _ (scan_block db) _ _) as [hf'|e] eqn:Ef; cbn [bind] in *; [|done].
    assert (heights hf' = H) as EH'.
    { rewrite <- counters_nil, (scan_spec db) in Ef by (done || cbn [length]; lia). by injection Ef as <-. }
    destruct (fork_at_lookup (length bs - 1)) as (p & Hp & <-).
    rewrite EH' in *. rewrite (raise_index_spec H 0 (fork_at (length bs - 1)) p Hp).
    + cbn [Nat.add]. rewrite Hr. done.
    + intros j q Hj Hq. pose proof (schedule_increasing _ _ Hok j _ q p Hj Hq Hp). lia.
Qed.

(** ** Queries *)
Lemma elected_idle ws height index n :
  (forall k, (index < k <= n)%nat -> eligible c H ws height k = false) -> elected c H ws height index n = index.
Proof using Type.
  intros Hk. destruct (elected_spec c H ws height index n) as (H1 & H2 & _).
  destruct (decide (elected c H ws height index n = index)) as [E|Hne]; [done|]. destruct (H2 Hne) as [H3 H4].
  rewrite Hk in H4 by lia. done.
Qed.

(** The vote for the next height was taken with the last block. *)
Lemma fork_at_settled n : (1 <= n)%nat -> next_index c H (window n) n (fork_at n) = fork_at n.
Proof using Type.
  intros Hn. apply elected_idle. destruct n as [|n]; [lia|]. intros k Hk.
  by apply (elected_spec c H (window (S n)) (S n) (fork_at n) (length H - 1)).
Qed.

Lemma check_state n b : check (state_at n) b = Ok (accepted n b).
Proof using Hok. apply do_check_spec. Qed.

Lemma check_for_height_state n b : (1 <= n)%nat -> check_for_height c (state_at n) b n = Ok (accepted n b).
Proof using Hok.
  intros Hn. unfold check_for_height.
  rewrite (get_voted_fork_index_spec _ (window n)) by (done || pose proof (window_length n); lia).
  cbn [bind state_at current_fork_index heights]. rewrite fork_at_settled by done.
  destruct (fork_at_lookup n) as (p & Hp & Hv). rewrite (get_ok _ _ _ Hp). cbn [bind]. by rewrite Hv.
Qed.

Lemma get_version_state db n :
  holds_chain db -> recorded 0 (length bs) db -> (n <= length bs)%nat ->
  get_version ndebug (state_at (length bs)) db n = Ok (version_at n).
Proof using Hok.
  intros Hdb Hrec Hn. unfold get_version. rewrite (proj1 Hdb). destruct (Nat.ltb_spec (length bs) n); [lia|].
  destruct (Nat.eqb_spec n (length bs)) as [->|Hne]; [|apply Hrec; lia].
  unfold get_current_version. cbn [state_at heights current_fork_index].
  destruct (fork_at_lookup (length bs)) as (p & Hp & Hv). rewrite (get_ok _ _ _ Hp). cbn [bind]. by rewrite Hv.
Qed.

(** The votes for a version or a later one. *)
Definition votes_from (v : nat) (ws : list nat) : nat := length (filter (fun w => v <= w)%nat ws).

Lemma votes_from_S v ws : votes_from v ws = (votes_for v ws + votes_from (S v) ws)%nat.
Proof using Type.
  unfold votes_from, votes_for. induction ws as [|w ws IH]; [done|]. rewrite !filter_cons. cbn [count_occ].
  destruct (Nat.eq_dec w v), (decide (v <= w)%nat), (decide (S v <= w)%nat); cbn [length]; lia.
Qed.

Lemma votes_from_256 ws : Forall (fun v => v < 256)%nat ws -> votes_from 256 ws = 0%nat.
Proof using Type.
  unfold votes_from. induction 1 as [|w ws Hw _ IH]; [done|]. rewrite filter_cons_False; [done|]. intros H256. lia.
Qed.

Lemma votes_loop ws k v acc :
  (v + k = 256)%nat -> Forall (fun v => v < 256)%nat ws -> Z.of_nat (acc + votes_from v ws) < 2 ^ 32 ->
  for_ k (fun n votes => let! x := get (counters ws) n in Ok (u32 (votes + x))) v (Z.of_nat acc) =
    Ok (Z.of_nat (acc + votes_from v ws)).
Proof using Type.
  intros Hk Hws. revert v acc Hk. induction k as [|k IH]; intros v acc Hk Hl; cbn [for_].
  - replace v with 256%nat by lia. rewrite votes_from_256 by done. do 2 f_equal. lia.
  - rewrite votes_from_S in Hl |- *. rewrite (get_ok _ _ _ (counters_lookup ws v ltac:(lia))). cbn [bind].
    replace (u32 (Z.of_nat acc + Z.of_nat (votes_for v ws))) with (Z.of_nat (acc + votes_for v ws))
      by (unfold u32; rewrite Z.mod_small; lia).
    rewrite IH by lia. do 2 f_equal. lia.
Qed.

Lemma votes_from_le v ws : (votes_from v ws <= length ws)%nat.
Proof using Type. apply length_filter. Qed.

(** The last fork that a test holds for, 0 excepted. *)
Lemma find_fork_spec (f : Params -> bool) n :
  (n < length H)%nat ->
  returns (find_fork H f n) (fun o => match o with
    | Some m => (0 < m <= n)%nat /\ (exists p, H !! m = Some p /\ f p = true) /\
        forall k q, (m < k <= n)%nat -> H !! k = Some q -> f q = false
    | None => forall k q, (0 < k <= n)%nat -> H !! k = Some q -> f q = false
    end).
Proof using Type.
  induction n as [|n IH]; intros Hn; cbn [find_fork]; [cbn; lia|].
  destruct (lookup_lt_is_Some_2 H (S n) Hn) as [p Hp]. rewrite (get_ok _ _ _ Hp). cbn [bind].
  destruct (f p) eqn:E.
  - cbn. split; [lia|]. split; [by exists p|lia].
  - apply (returns_mono _ _ _ (IH ltac:(lia))). intros [m|].
    + intros (Hm & Hex & Hlater). cbn. split; [lia|]. split; [done|]. intros k q Hk Hq.
      destruct (decide (k = S n)) as [->|]; [congruence|]. apply (Hlater k); [lia|done].
    + intros Hnone k q Hk Hq. destruct (decide (k = S n)) as [->|]; [congruence|]. apply (Hnone k); [lia|done].
Qed.
End Operations.
End Chain.

(** ** Building the schedule *)
Definition later (p q : Params) : Prop :=
  (fork_version p < fork_version q)%nat /\ (fork_height p < fork_height q)%nat /\ fork_time p < fork_time q.

Definition ordered (H : list Params) : Prop :=
  (forall i j p q, (i < j)%nat -> H !! i = Some p -> H !! j = Some q -> later p q) /\
  Forall (fun p => fork_version p <> 0%nat /\ (fork_threshold p <= 100)%nat) H.

#[export] Instance later_dec p q : Decision (later p q) := _.

#[export] Instance later_trans : Transitive later.
Proof. unfold later. intros p q r. lia. Qed.

(** The fork can follow the last one. *)
Definition addable (H : list Params) (p : Params) : Prop :=
  fork_version p <> 0%nat /\ (fork_threshold p <= 100)%nat /\ match list.last H with Some b => later b p | None => True end.

#[export] Instance addable_dec H p : Decision (addable H p).
Proof. unfold addable. destruct (list.last H); apply _. Defined.

Lemma add_fork_spec version height threshold time hf :
  add_fork version height threshold time hf =
    let p := Fork version height threshold time in
    if decide (addable (heights hf) p)
    then (Hf (heights hf ++ [p]) (versions hf) (last_versions hf) (current_fork_index hf), true) else (hf, false).
Proof.
  cbn zeta. case_decide as Hd; unfold addable, later in Hd; unfold add_fork; cbn [fork_version fork_threshold fork_height fork_time] in Hd;
    destruct (Nat.eqb_spec version 0) as [E0|E0]; try (done || tauto);
    destruct (Nat.ltb_spec 100 threshold) as [Ht|Ht], (list.last (heights hf)) as [b|]; try lia; try done; try (by case_match).
  - replace (_ || _) with false; [done|]. symmetry. rewrite !orb_false_iff, !Nat.leb_gt, Z.leb_gt. lia.
  - replace (_ || _) with true; [done|]. symmetry. rewrite !orb_true_iff, !Nat.leb_le, Z.leb_le. lia.
Qed.

Lemma ordered_snoc H p : ordered H -> addable H p -> ordered (H ++ [p]).
Proof.
  intros [Ho Hf] (Hv & Ht & Hl). split; [|apply Forall_app; split; [done|by apply Forall_singleton]].
  assert (forall i q, H !! i = Some q -> later q p) as Hlast.
  { intros i q Hq. pose proof (lookup_lt_Some _ _ _ Hq). destruct (list.last H) as [b|] eqn:El.
    - rewrite last_lookup in El. destruct (decide (i = pred (length H))) as [->|Hne]; [congruence|].
      transitivity b; [|done]. apply (Ho i (pred (length H))); [lia|done|done].
    - apply last_None in El as ->. done. }
  intros i j q r Hij Hq Hr. apply lookup_app_Some in Hr as [Hr|[Hlen Hr]].
  - rewrite lookup_app_l in Hq by (pose proof (lookup_lt_Some _ _ _ Hr); lia). by apply (Ho i j).
  - apply list_lookup_singleton_Some in Hr as [E <-]. rewrite lookup_app_l in Hq by lia. by eapply Hlast.
Qed.

Lemma ordered_schedule c H p :
  ordered H -> H !! 0%nat = Some p -> fork_version p = original_version c -> Forall (fun p => fork_version p < 256)%nat H ->
  (1 <= window_size c)%nat -> Z.of_nat (window_size c) < 2 ^ 32 - 1 -> schedule_ok c H.
Proof.
  intros [Ho Hf] Hp Hv H256 Hw1 Hw2. split; [by exists p| | |done].
  - intros i j q r Hij Hq Hr. by apply (Ho i j).
  - intros i q Hq. split; [by apply (Forall_lookup_1 _ _ _ _ H256 Hq)|by apply (Forall_lookup_1 _ _ _ _ Hf Hq)].
Qed.
