(* ===== verification/Field.v ===== *)
(** * Field arithmetic modulo p = 2^255 - 19

    The [fe_*] functions of [src/src/crypto/crypto-ops.c].  An element is an array
    of ten 32-bit limbs of alternately 26 and 25 bits. *)

From stdpp Require Import base list numbers.
From Stdlib Require Import ZArith Lia.
From S2P Require Import Prelude Bytes Limbs.

(** [typedef int32_t fe[10]] *)
Record fe := Fe { l0 : Z; l1 : Z; l2 : Z; l3 : Z; l4 : Z; l5 : Z; l6 : Z; l7 : Z; l8 : Z; l9 : Z }.

#[export] Instance fe_eq_dec : EqDecision fe.
Proof. solve_decision. Defined.

Definition fe_0 : fe := Fe 0 0 0 0 0 0 0 0 0 0.

Definition fe_1 : fe := Fe 1 0 0 0 0 0 0 0 0 0.

Definition fe_add (f g : fe) : result fe :=
  let '(Fe f0 f1 f2 f3 f4 f5 f6 f7 f8 f9) := f in
  let '(Fe g0 g1 g2 g3 g4 g5 g6 g7 g8 g9) := g in
  let! h0 := i32 (f0 + g0) in
  let! h1 := i32 (f1 + g1) in
  let! h2 := i32 (f2 + g2) in
  let! h3 := i32 (f3 + g3) in
  let! h4 := i32 (f4 + g4) in
  let! h5 := i32 (f5 + g5) in
  let! h6 := i32 (f6 + g6) in
  let! h7 := i32 (f7 + g7) in
  let! h8 := i32 (f8 + g8) in
  let! h9 := i32 (f9 + g9) in
  Ok (Fe h0 h1 h2 h3 h4 h5 h6 h7 h8 h9).

Definition fe_sub (f g : fe) : result fe :=
  let '(Fe f0 f1 f2 f3 f4 f5 f6 f7 f8 f9) := f in
  let '(Fe g0 g1 g2 g3 g4 g5 g6 g7 g8 g9) := g in
  let! h0 := i32 (f0 - g0) in
  let! h1 := i32 (f1 - g1) in
  let! h2 := i32 (f2 - g2) in
  let! h3 := i32 (f3 - g3) in
  let! h4 := i32 (f4 - g4) in
  let! h5 := i32 (f5 - g5) in
  let! h6 := i32 (f6 - g6) in
  let! h7 := i32 (f7 - g7) in
  let! h8 := i32 (f8 - g8) in
  let! h9 := i32 (f9 - g9) in
  Ok (Fe h0 h1 h2 h3 h4 h5 h6 h7 h8 h9).

Definition fe_neg (f : fe) : result fe :=
  let '(Fe f0 f1 f2 f3 f4 f5 f6 f7 f8 f9) := f in
  let! h0 := i32 (- f0) in
  let! h1 := i32 (- f1) in
  let! h2 := i32 (- f2) in
  let! h3 := i32 (- f3) in
  let! h4 := i32 (- f4) in
  let! h5 := i32 (- f5) in
  let! h6 := i32 (- f6) in
  let! h7 := i32 (- f7) in
  let! h8 := i32 (- f8) in
  let! h9 := i32 (- f9) in
  Ok (Fe h0 h1 h2 h3 h4 h5 h6 h7 h8 h9).

Definition fe_copy (f : fe) : fe :=
  let '(Fe f0 f1 f2 f3 f4 f5 f6 f7 f8 f9) := f in
  Fe f0 f1 f2 f3 f4 f5 f6 f7 f8 f9.

(** The argument [b] is an [unsigned int]; an [int32_t] operand of [&] is
    converted to it.  [assert] is active. *)
Definition fe_cmov (ndebug : bool) (f g : fe) (b : Z) : result fe :=
  let '(Fe f0 f1 f2 f3 f4 f5 f6 f7 f8 f9) := f in
  let '(Fe g0 g1 g2 g3 g4 g5 g6 g7 g8 g9) := g in
  let x0 := Z.lxor f0 g0 in
  let x1 := Z.lxor f1 g1 in
  let x2 := Z.lxor f2 g2 in
  let x3 := Z.lxor f3 g3 in
  let x4 := Z.lxor f4 g4 in
  let x5 := Z.lxor f5 g5 in
  let x6 := Z.lxor f6 g6 in
  let x7 := Z.lxor f7 g7 in
  let x8 := Z.lxor f8 g8 in
  let x9 := Z.lxor f9 g9 in
  let! _ := c_assert ndebug (Ok (Z.lor (Z.land (u32 (b - 1)) (u32 (Z.lnot b)))
                                       (Z.land (u32 (b - 2)) (u32 (Z.lnot (u32 (b - 1))))) =? u32 (-1))) in
  let b := u32 (- b) in
  let x0 := to_i32 (Z.land (u32 x0) b) in
  let x1 := to_i32 (Z.land (u32 x1) b) in
  let x2 := to_i32 (Z.land (u32 x2) b) in
  let x3 := to_i32 (Z.land (u32 x3) b) in
  let x4 := to_i32 (Z.land (u32 x4) b) in
  let x5 := to_i32 (Z.land (u32 x5) b) in
  let x6 := to_i32 (Z.land (u32 x6) b) in
  let x7 := to_i32 (Z.land (u32 x7) b) in
  let x8 := to_i32 (Z.land (u32 x8) b) in
  let x9 := to_i32 (Z.land (u32 x9) b) in
  Ok (Fe (Z.lxor f0 x0) (Z.lxor f1 x1) (Z.lxor f2 x2) (Z.lxor f3 x3) (Z.lxor f4 x4) (Z.lxor f5 x5) (Z.lxor f6 x6) (Z.lxor f7 x7) (Z.lxor f8 x8) (Z.lxor f9 x9)).

(** The products and sums of [fe_mul]. *)
Definition fe_mul_products (f g : fe) : result (list Z) :=
  let '(Fe f0 f1 f2 f3 f4 f5 f6 f7 f8 f9) := f in
  let '(Fe g0 g1 g2 g3 g4 g5 g6 g7 g8 g9) := g in
  let! g1_19 := i32 (19 * g1) in
  let! g2_19 := i32 (19 * g2) in
  let! g3_19 := i32 (19 * g3) in
  let! g4_19 := i32 (19 * g4) in
  let! g5_19 := i32 (19 * g5) in
  let! g6_19 := i32 (19 * g6) in
  let! g7_19 := i32 (19 * g7) in
  let! g8_19 := i32 (19 * g8) in
  let! g9_19 := i32 (19 * g9) in
  let! f1_2 := i32 (2 * f1) in
  let! f3_2 := i32 (2 * f3) in
  let! f5_2 := i32 (2 * f5) in
  let! f7_2 := i32 (2 * f7) in
  let! f9_2 := i32 (2 * f9) in
  let! f0g0 := i64 (f0 * g0) in
  let! f0g1 := i64 (f0 * g1) in
  let! f0g2 := i64 (f0 * g2) in
  let! f0g3 := i64 (f0 * g3) in
  let! f0g4 := i64 (f0 * g4) in
  let! f0g5 := i64 (f0 * g5) in
  let! f0g6 := i64 (f0 * g6) in
  let! f0g7 := i64 (f0 * g7) in
  let! f0g8 := i64 (f0 * g8) in
  let! f0g9 := i64 (f0 * g9) in
  let! f1g0 := i64 (f1 * g0) in
  let! f1g1_2 := i64 (f1_2 * g1) in
  let! f1g2 := i64 (f1 * g2) in
  let! f1g3_2 := i64 (f1_2 * g3) in
  let! f1g4 := i64 (f1 * g4) in
  let! f1g5_2 := i64 (f1_2 * g5) in
  let! f1g6 := i64 (f1 * g6) in
  let! f1g7_2 := i64 (f1_2 * g7) in
  let! f1g8 := i64 (f1 * g8) in
  let! f1g9_38 := i64 (f1_2 * g9_19) in
  let! f2g0 := i64 (f2 * g0) in
  let! f2g1 := i64 (f2 * g1) in
  let! f2g2 := i64 (f2 * g2) in
  let! f2g3 := i64 (f2 * g3) in
  let! f2g4 := i64 (f2 * g4) in
  let! f2g5 := i64 (f2 * g5) in
  let! f2g6 := i64 (f2 * g6) in
  let! f2g7 := i64 (f2 * g7) in
  let! f2g8_19 := i64 (f2 * g8_19) in
  let! f2g9_19 := i64 (f2 * g9_19) in
  let! f3g0 := i64 (f3 * g0) in
  let! f3g1_2 := i64 (f3_2 * g1) in
  let! f3g2 := i64 (f3 * g2) in
  let! f3g3_2 := i64 (f3_2 * g3) in
  let! f3g4 := i64 (f3 * g4) in
  let! f3g5_2 := i64 (f3_2 * g5) in
  let! f3g6 := i64 (f3 * g6) in
  let! f3g7_38 := i64 (f3_2 * g7_19) in
  let! f3g8_19 := i64 (f3 * g8_19) in
  let! f3g9_38 := i64 (f3_2 * g9_19) in
  let! f4g0 := i64 (f4 * g0) in
  let! f4g1 := i64 (f4 * g1) in
  let! f4g2 := i64 (f4 * g2) in
  let! f4g3 := i64 (f4 * g3) in
  let! f4g4 := i64 (f4 * g4) in
  let! f4g5 := i64 (f4 * g5) in
  let! f4g6_19 := i64 (f4 * g6_19) in
  let! f4g7_19 := i64 (f4 * g7_19) in
  let! f4g8_19 := i64 (f4 * g8_19) in
  let! f4g9_19 := i64 (f4 * g9_19) in
  let! f5g0 := i64 (f5 * g0) in
  let! f5g1_2 := i64 (f5_2 * g1) in
  let! f5g2 := i64 (f5 * g2) in
  let! f5g3_2 := i64 (f5_2 * g3) in
  let! f5g4 := i64 (f5 * g4) in
  let! f5g5_38 := i64 (f5_2 * g5_19) in
  let! f5g6_19 := i64 (f5 * g6_19) in
  let! f5g7_38 := i64 (f5_2 * g7_19) in
  let! f5g8_19 := i64 (f5 * g8_19) in
  let! f5g9_38 := i64 (f5_2 * g9_19) in
  let! f6g0 := i64 (f6 * g0) in
  let! f6g1 := i64 (f6 * g1) in
  let! f6g2 := i64 (f6 * g2) in
  let! f6g3 := i64 (f6 * g3) in
  let! f6g4_19 := i64 (f6 * g4_19) in
  let! f6g5_19 := i64 (f6 * g5_19) in
  let! f6g6_19 := i64 (f6 * g6_19) in
  let! f6g7_19 := i64 (f6 * g7_19) in
  let! f6g8_19 := i64 (f6 * g8_19) in
  let! f6g9_19 := i64 (f6 * g9_19) in
  let! f7g0 := i64 (f7 * g0) in
  let! f7g1_2 := i64 (f7_2 * g1) in
  let! f7g2 := i64 (f7 * g2) in
  let! f7g3_38 := i64 (f7_2 * g3_19) in
  let! f7g4_19 := i64 (f7 * g4_19) in
  let! f7g5_38 := i64 (f7_2 * g5_19) in
  let! f7g6_19 := i64 (f7 * g6_19) in
  let! f7g7_38 := i64 (f7_2 * g7_19) in
  let! f7g8_19 := i64 (f7 * g8_19) in
  let! f7g9_38 := i64 (f7_2 * g9_19) in
  let! f8g0 := i64 (f8 * g0) in
  let! f8g1 := i64 (f8 * g1) in
  let! f8g2_19 := i64 (f8 * g2_19) in
  let! f8g3_19 := i64 (f8 * g3_19) in
  let! f8g4_19 := i64 (f8 * g4_19) in
  let! f8g5_19 := i64 (f8 * g5_19) in
  let! f8g6_19 := i64 (f8 * g6_19) in
  let! f8g7_19 := i64 (f8 * g7_19) in
  let! f8g8_19 := i64 (f8 * g8_19) in
  let! f8g9_19 := i64 (f8 * g9_19) in
  let! f9g0 := i64 (f9 * g0) in
  let! f9g1_38 := i64 (f9_2 * g1_19) in
  let! f9g2_19 := i64 (f9 * g2_19) in
  let! f9g3_38 := i64 (f9_2 * g3_19) in
  let! f9g4_19 := i64 (f9 * g4_19) in
  let! f9g5_38 := i64 (f9_2 * g5_19) in
  let! f9g6_19 := i64 (f9 * g6_19) in
  let! f9g7_38 := i64 (f9_2 * g7_19) in
  let! f9g8_19 := i64 (f9 * g8_19) in
  let! f9g9_38 := i64 (f9_2 * g9_19) in
  let! h0 := sum64 f0g0 [f1g9_38; f2g8_19; f3g7_38; f4g6_19; f5g5_38; f6g4_19; f7g3_38; f8g2_19; f9g1_38] in
  let! h1 := sum64 f0g1 [f1g0; f2g9_19; f3g8_19; f4g7_19; f5g6_19; f6g5_19; f7g4_19; f8g3_19; f9g2_19] in
  let! h2 := sum64 f0g2 [f1g1_2; f2g0; f3g9_38; f4g8_19; f5g7_38; f6g6_19; f7g5_38; f8g4_19; f9g3_38] in
  let! h3 := sum64 f0g3 [f1g2; f2g1; f3g0; f4g9_19; f5g8_19; f6g7_19; f7g6_19; f8g5_19; f9g4_19] in
  let! h4 := sum64 f0g4 [f1g3_2; f2g2; f3g1_2; f4g0; f5g9_38; f6g8_19; f7g7_38; f8g6_19; f9g5_38] in
  let! h5 := sum64 f0g5 [f1g4; f2g3; f3g2; f4g1; f5g0; f6g9_19; f7g8_19; f8g7_19; f9g6_19] in
  let! h6 := sum64 f0g6 [f1g5_2; f2g4; f3g3_2; f4g2; f5g1_2; f6g0; f7g9_38; f8g8_19; f9g7_38] in
  let! h7 := sum64 f0g7 [f1g6; f2g5; f3g4; f4g3; f5g2; f6g1; f7g0; f8g9_19; f9g8_19] in
  let! h8 := sum64 f0g8 [f1g7_2; f2g6; f3g5_2; f4g4; f5g3_2; f6g2; f7g1_2; f8g0; f9g9_38] in
  let! h9 := sum64 f0g9 [f1g8; f2g7; f3g6; f4g5; f5g4; f6g3; f7g2; f8g1; f9g0] in
  Ok [h0; h1; h2; h3; h4; h5; h6; h7; h8; h9].

(** The stores [h[0] = h0; ...; h[9] = h9] after a carry chain. *)
Definition fe_store (h : list Z) : result fe :=
  let! h0 := get h 0 in
  let! h1 := get h 1 in
  let! h2 := get h 2 in
  let! h3 := get h 3 in
  let! h4 := get h 4 in
  let! h5 := get h 5 in
  let! h6 := get h 6 in
  let! h7 := get h 7 in
  let! h8 := get h 8 in
  let! h9 := get h 9 in
  Ok (Fe (to_i32 h0) (to_i32 h1) (to_i32 h2) (to_i32 h3) (to_i32 h4) (to_i32 h5) (to_i32 h6) (to_i32 h7) (to_i32 h8) (to_i32 h9)).

(** The twelve carries and the stores [h[i] = hi] at the end of [fe_mul];
    [fe_sq] and [fe_sq2] end with the same statements. *)
Definition fe_carry (h : list Z) : result fe :=
  let! h := carry_round 64 26 0 h in
  let! h := carry_round 64 26 4 h in
  let! h := carry_round 64 25 1 h in
  let! h := carry_round 64 25 5 h in
  let! h := carry_round 64 26 2 h in
  let! h := carry_round 64 26 6 h in
  let! h := carry_round 64 25 3 h in
  let! h := carry_round 64 25 7 h in
  let! h := carry_round 64 26 4 h in
  let! h := carry_round 64 26 8 h in
  let! h := carry_wrap 64 25 9 h in
  let! h := carry_round 64 26 0 h in
  fe_store h.

Definition fe_mul (f g : fe) : result fe :=
  let! h := fe_mul_products f g in
  fe_carry h.

(** The products and sums of [fe_sq]; [fe_sq2] starts with the same ones. *)
Definition fe_sq_products (f : fe) : result (list Z) :=
  let '(Fe f0 f1 f2 f3 f4 f5 f6 f7 f8 f9) := f in
  let! f0_2 := i32 (2 * f0) in
  let! f1_2 := i32 (2 * f1) in
  let! f2_2 := i32 (2 * f2) in
  let! f3_2 := i32 (2 * f3) in
  let! f4_2 := i32 (2 * f4) in
  let! f5_2 := i32 (2 * f5) in
  let! f6_2 := i32 (2 * f6) in
  let! f7_2 := i32 (2 * f7) in
  let! f5_38 := i32 (38 * f5) in
  let! f6_19 := i32 (19 * f6) in
  let! f7_38 := i32 (38 * f7) in
  let! f8_19 := i32 (19 * f8) in
  let! f9_38 := i32 (38 * f9) in
  let! f0f0 := i64 (f0 * f0) in
  let! f0f1_2 := i64 (f0_2 * f1) in
  let! f0f2_2 := i64 (f0_2 * f2) in
  let! f0f3_2 := i64 (f0_2 * f3) in
  let! f0f4_2 := i64 (f0_2 * f4) in
  let! f0f5_2 := i64 (f0_2 * f5) in
  let! f0f6_2 := i64 (f0_2 * f6) in
  let! f0f7_2 := i64 (f0_2 * f7) in
  let! f0f8_2 := i64 (f0_2 * f8) in
  let! f0f9_2 := i64 (f0_2 * f9) in
  let! f1f1_2 := i64 (f1_2 * f1) in
  let! f1f2_2 := i64 (f1_2 * f2) in
  let! f1f3_4 := i64 (f1_2 * f3_2) in
  let! f1f4_2 := i64 (f1_2 * f4) in
  let! f1f5_4 := i64 (f1_2 * f5_2) in
  let! f1f6_2 := i64 (f1_2 * f6) in
  let! f1f7_4 := i64 (f1_2 * f7_2) in
  let! f1f8_2 := i64 (f1_2 * f8) in
  let! f1f9_76 := i64 (f1_2 * f9_38) in
  let! f2f2 := i64 (f2 * f2) in
  let! f2f3_2 := i64 (f2_2 * f3) in
  let! f2f4_2 := i64 (f2_2 * f4) in
  let! f2f5_2 := i64 (f2_2 * f5) in
  let! f2f6_2 := i64 (f2_2 * f6) in
  let! f2f7_2 := i64 (f2_2 * f7) in
  let! f2f8_38 := i64 (f2_2 * f8_19) in
  let! f2f9_38 := i64 (f2 * f9_38) in
  let! f3f3_2 := i64 (f3_2 * f3) in
  let! f3f4_2 := i64 (f3_2 * f4) in
  let! f3f5_4 := i64 (f3_2 * f5_2) in
  let! f3f6_2 := i64 (f3_2 * f6) in
  let! f3f7_76 := i64 (f3_2 * f7_38) in
  let! f3f8_38 := i64 (f3_2 * f8_19) in
  let! f3f9_76 := i64 (f3_2 * f9_38) in
  let! f4f4 := i64 (f4 * f4) in
  let! f4f5_2 := i64 (f4_2 * f5) in
  let! f4f6_38 := i64 (f4_2 * f6_19) in
  let! f4f7_38 := i64 (f4 * f7_38) in
  let! f4f8_38 := i64 (f4_2 * f8_19) in
  let! f4f9_38 := i64 (f4 * f9_38) in
  let! f5f5_38 := i64 (f5 * f5_38) in
  let! f5f6_38 := i64 (f5_2 * f6_19) in
  let! f5f7_76 := i64 (f5_2 * f7_38) in
  let! f5f8_38 := i64 (f5_2 * f8_19) in
  let! f5f9_76 := i64 (f5_2 * f9_38) in
  let! f6f6_19 := i64 (f6 * f6_19) in
  let! f6f7_38 := i64 (f6 * f7_38) in
  let! f6f8_38 := i64 (f6_2 * f8_19) in
  let! f6f9_38 := i64 (f6 * f9_38) in
  let! f7f7_38 := i64 (f7 * f7_38) in
  let! f7f8_38 := i64 (f7_2 * f8_19) in
  let! f7f9_76 := i64 (f7_2 * f9_38) in
  let! f8f8_19 := i64 (f8 * f8_19) in
  let! f8f9_38 := i64 (f8 * f9_38) in
  let! f9f9_38 := i64 (f9 * f9_38) in
  let! h0 := sum64 f0f0 [f1f9_76; f2f8_38; f3f7_76; f4f6_38; f5f5_38] in
  let! h1 := sum64 f0f1_2 [f2f9_38; f3f8_38; f4f7_38; f5f6_38] in
  let! h2 := sum64 f0f2_2 [f1f1_2; f3f9_76; f4f8_38; f5f7_76; f6f6_19] in
  let! h3 := sum64 f0f3_2 [f1f2_2; f4f9_38; f5f8_38; f6f7_38] in
  let! h4 := sum64 f0f4_2 [f1f3_4; f2f2; f5f9_76; f6f8_38; f7f7_38] in
  let! h5 := sum64 f0f5_2 [f1f4_2; f2f3_2; f6f9_38; f7f8_38] in
  let! h6 := sum64 f0f6_2 [f1f5_4; f2f4_2; f3f3_2; f7f9_76; f8f8_19] in
  let! h7 := sum64 f0f7_2 [f1f6_2; f2f5_2; f3f4_2; f8f9_38] in
  let! h8 := sum64 f0f8_2 [f1f7_4; f2f6_2; f3f5_4; f4f4; f9f9_38] in
  let! h9 := sum64 f0f9_2 [f1f8_2; f2f7_2; f3f6_2; f4f5_2] in
  Ok [h0; h1; h2; h3; h4; h5; h6; h7; h8; h9].

Definition fe_sq (f : fe) : result fe :=
  let! h := fe_sq_products f in
  fe_carry h.

(** [h0 += h0; ...; h9 += h9]. *)
Fixpoint double_all (h : list Z) : result (list Z) :=
  match h with
  | [] => Ok []
  | x :: h => let! x := i64 (x + x) in let! h := double_all h in Ok (x :: h)
  end.

Definition fe_sq2 (f : fe) : result fe :=
  let! h := fe_sq_products f in
  let! h := double_all h in
  fe_carry h.

(** [for (i = 0; i < n; ++i) fe_sq(t, t);] *)
Definition fe_sqn (n : nat) (t : fe) : result fe := for_ n (fun _ t => fe_sq t) 0 t.

Definition fe_invert (z : fe) : result fe :=
  let! t0 := fe_sq z in
  let! t1 := fe_sq t0 in
  let! t1 := fe_sq t1 in
  let! t1 := fe_mul z t1 in
  let! t0 := fe_mul t0 t1 in
  let! t2 := fe_sq t0 in
  let! t1 := fe_mul t1 t2 in
  let! t2 := fe_sq t1 in
  let! t2 := fe_sqn 4 t2 in
  let! t1 := fe_mul t2 t1 in
  let! t2 := fe_sq t1 in
  let! t2 := fe_sqn 9 t2 in
  let! t2 := fe_mul t2 t1 in
  let! t3 := fe_sq t2 in
  let! t3 := fe_sqn 19 t3 in
  let! t2 := fe_mul t3 t2 in
  let! t2 := fe_sq t2 in
  let! t2 := fe_sqn 9 t2 in
  let! t1 := fe_mul t2 t1 in
  let! t2 := fe_sq t1 in
  let! t2 := fe_sqn 49 t2 in
  let! t2 := fe_mul t2 t1 in
  let! t3 := fe_sq t2 in
  let! t3 := fe_sqn 99 t3 in
  let! t2 := fe_mul t3 t2 in
  let! t2 := fe_sq t2 in
  let! t2 := fe_sqn 49 t2 in
  let! t1 := fe_mul t2 t1 in
  let! t1 := fe_sq t1 in
  let! t1 := fe_sqn 4 t1 in
  let! out := fe_mul t1 t0 in
  Ok out.

Definition fe_divpowm1 (u v : fe) : result fe :=
  let! v3 := fe_sq v in
  let! v3 := fe_mul v3 v in
  let! uv7 := fe_sq v3 in
  let! uv7 := fe_mul uv7 v in
  let! uv7 := fe_mul uv7 u in
  let! t0 := fe_sq uv7 in
  let! t1 := fe_sq t0 in
  let! t1 := fe_sq t1 in
  let! t1 := fe_mul uv7 t1 in
  let! t0 := fe_mul t0 t1 in
  let! t0 := fe_sq t0 in
  let! t0 := fe_mul t1 t0 in
  let! t1 := fe_sq t0 in
  let! t1 := fe_sqn 4 t1 in
  let! t0 := fe_mul t1 t0 in
  let! t1 := fe_sq t0 in
  let! t1 := fe_sqn 9 t1 in
  let! t1 := fe_mul t1 t0 in
  let! t2 := fe_sq t1 in
  let! t2 := fe_sqn 19 t2 in
  let! t1 := fe_mul t2 t1 in
  let! t1 := fe_sqn 10 t1 in
  let! t0 := fe_mul t1 t0 in
  let! t1 := fe_sq t0 in
  let! t1 := fe_sqn 49 t1 in
  let! t1 := fe_mul t1 t0 in
  let! t2 := fe_sq t1 in
  let! t2 := fe_sqn 99 t2 in
  let! t1 := fe_mul t2 t1 in
  let! t1 := fe_sqn 50 t1 in
  let! t0 := fe_mul t1 t0 in
  let! t0 := fe_sq t0 in
  let! t0 := fe_sq t0 in
  let! t0 := fe_mul t0 uv7 in
  let! t0 := fe_mul t0 v3 in
  let! r := fe_mul t0 u in
  Ok r.

(** One step [q = (hi + q) >> w] of the quotient estimate in [fe_tobytes]. *)
Definition q_step (w h q : Z) : result Z :=
  let! t := i32 (h + q) in
  Ok (Z.shiftr t w).

(** The quotient [q] of [fe_tobytes]. *)
Definition fe_quotient (h : fe) : result Z :=
  let '(Fe h0 h1 h2 h3 h4 h5 h6 h7 h8 h9) := h in
  let! t := i32 (19 * h9) in
  let! t := i32 (t + 2 ^ 24) in
  let q := Z.shiftr t 25 in
  let! q := q_step 26 h0 q in
  let! q := q_step 25 h1 q in
  let! q := q_step 26 h2 q in
  let! q := q_step 25 h3 q in
  let! q := q_step 26 h4 q in
  let! q := q_step 25 h5 q in
  let! q := q_step 26 h6 q in
  let! q := q_step 25 h7 q in
  let! q := q_step 26 h8 q in
  let! q := q_step 25 h9 q in
  Ok q.

(** The stores [s[0] = h0 >> 0; ...; s[31] = h9 >> 18] of [fe_tobytes]. *)
Definition fe_pack (h : list Z) : result (list Z) :=
  match h with
  | [h0; h1; h2; h3; h4; h5; h6; h7; h8; h9] =>
    Ok [u8 (Z.shiftr h0 0);
      u8 (Z.shiftr h0 8);
      u8 (Z.shiftr h0 16);
      u8 (Z.lor (Z.shiftr h0 24) (shl32 h1 2));
      u8 (Z.shiftr h1 6);
      u8 (Z.shiftr h1 14);
      u8 (Z.lor (Z.shiftr h1 22) (shl32 h2 3));
      u8 (Z.shiftr h2 5);
      u8 (Z.shiftr h2 13);
      u8 (Z.lor (Z.shiftr h2 21) (shl32 h3 5));
      u8 (Z.shiftr h3 3);
      u8 (Z.shiftr h3 11);
      u8 (Z.lor (Z.shiftr h3 19) (shl32 h4 6));
      u8 (Z.shiftr h4 2);
      u8 (Z.shiftr h4 10);
      u8 (Z.shiftr h4 18);
      u8 (Z.shiftr h5 0);
      u8 (Z.shiftr h5 8);
      u8 (Z.shiftr h5 16);
      u8 (Z.lor (Z.shiftr h5 24) (shl32 h6 1));
      u8 (Z.shiftr h6 7);
      u8 (Z.shiftr h6 15);
      u8 (Z.lor (Z.shiftr h6 23) (shl32 h7 3));
      u8 (Z.shiftr h7 5);
      u8 (Z.shiftr h7 13);
      u8 (Z.lor (Z.shiftr h7 21) (shl32 h8 4));
      u8 (Z.shiftr h8 4);
      u8 (Z.shiftr h8 12);
      u8 (Z.lor (Z.shiftr h8 20) (shl32 h9 6));
      u8 (Z.shiftr h9 2);
      u8 (Z.shiftr h9 10);
      u8 (Z.shiftr h9 18)]
  | _ => Fail OutOfBounds
  end.

(** The carries of [fe_tobytes], after [q], and its stores. *)
Definition fe_tobytes_carry (h : list Z) : result (list Z) :=
  let! h := carry_floor 32 26 0 h in
  let! h := carry_floor 32 25 1 h in
  let! h := carry_floor 32 26 2 h in
  let! h := carry_floor 32 25 3 h in
  let! h := carry_floor 32 26 4 h in
  let! h := carry_floor 32 25 5 h in
  let! h := carry_floor 32 26 6 h in
  let! h := carry_floor 32 25 7 h in
  let! h := carry_floor 32 26 8 h in
  let! h := carry_drop 32 25 9 h in
  fe_pack h.

Definition fe_tobytes (h : fe) : result (list Z) :=
  let! q := fe_quotient h in
  let '(Fe h0 h1 h2 h3 h4 h5 h6 h7 h8 h9) := h in
  let! t := i32 (19 * q) in
  let! h0 := i32 (h0 + t) in
  fe_tobytes_carry [h0; h1; h2; h3; h4; h5; h6; h7; h8; h9].

Definition fe_isnegative (f : fe) : result Z :=
  let! s := fe_tobytes f in
  let! s0 := get s 0 in
  Ok (Z.land s0 1).

(** [(((int) (s[0] | s[1] | ... | s[31]) - 1) >> 8) + 1] *)
Definition nonzero_bytes (s : list Z) : Z :=
  Z.shiftr (foldl Z.lor 0 s - 1) 8 + 1.

Definition fe_isnonzero (f : fe) : result Z :=
  let! s := fe_tobytes f in
  Ok (nonzero_bytes s).

(** The loads of [ge_frombytes_vartime], where the top bit of [s[31]] is
    dropped. *)
Definition fe_load (s : list Z) : result (list Z) :=
  let! t := load_4 s 0 in
  let h0 := t in
  let! t := load_3 s 4 in
  let h1 := u64 (Z.shiftl t 6) in
  let! t := load_3 s 7 in
  let h2 := u64 (Z.shiftl t 5) in
  let! t := load_3 s 10 in
  let h3 := u64 (Z.shiftl t 3) in
  let! t := load_3 s 13 in
  let h4 := u64 (Z.shiftl t 2) in
  let! t := load_4 s 16 in
  let h5 := t in
  let! t := load_3 s 20 in
  let h6 := u64 (Z.shiftl t 7) in
  let! t := load_3 s 23 in
  let h7 := u64 (Z.shiftl t 5) in
  let! t := load_3 s 26 in
  let h8 := u64 (Z.shiftl t 4) in
  let! t := load_3 s 29 in
  let h9 := u64 (Z.shiftl (Z.land t 8388607) 2) in
  Ok [h0; h1; h2; h3; h4; h5; h6; h7; h8; h9].

(** The loads of [ge_fromfe_frombytes_vartime], which keep it. *)
Definition fe_load_full (s : list Z) : result (list Z) :=
  let! t := load_4 s 0 in
  let h0 := t in
  let! t := load_3 s 4 in
  let h1 := u64 (Z.shiftl t 6) in
  let! t := load_3 s 7 in
  let h2 := u64 (Z.shiftl t 5) in
  let! t := load_3 s 10 in
  let h3 := u64 (Z.shiftl t 3) in
  let! t := load_3 s 13 in
  let h4 := u64 (Z.shiftl t 2) in
  let! t := load_4 s 16 in
  let h5 := t in
  let! t := load_3 s 20 in
  let h6 := u64 (Z.shiftl t 7) in
  let! t := load_3 s 23 in
  let h7 := u64 (Z.shiftl t 5) in
  let! t := load_3 s 26 in
  let h8 := u64 (Z.shiftl t 4) in
  let! t := load_3 s 29 in
  let h9 := u64 (Z.shiftl t 2) in
  Ok [h0; h1; h2; h3; h4; h5; h6; h7; h8; h9].

(** The carries and stores that follow the loads in both functions. *)
Definition fe_load_carry (h : list Z) : result fe :=
  let! h := carry_wrap 64 25 9 h in
  let! h := carry_round 64 25 1 h in
  let! h := carry_round 64 25 3 h in
  let! h := carry_round 64 25 5 h in
  let! h := carry_round 64 25 7 h in
  let! h := carry_round 64 26 0 h in
  let! h := carry_round 64 26 2 h in
  let! h := carry_round 64 26 4 h in
  let! h := carry_round 64 26 6 h in
  let! h := carry_round 64 26 8 h in
  fe_store h.

(** The test for a non-canonical encoding in [ge_frombytes_vartime]. *)
Definition fe_noncanonical (h : list Z) : bool :=
  match h with
  | [h0; h1; h2; h3; h4; h5; h6; h7; h8; h9] =>
    (h9 =? 33554428) && (h8 =? 268435440) && (h7 =? 536870880) && (h6 =? 2147483520) &&
    (h5 =? 4294967295) && (h4 =? 67108860) && (h3 =? 134217720) && (h2 =? 536870880) &&
    (h1 =? 1073741760) && (4294967277 <=? h0)
  | _ => false
  end.
