(* ===== verification/FieldFacts.v ===== *)
(** * Correctness of the field arithmetic *)

From stdpp Require Import base list numbers.
From Stdlib Require Import ZArith Lia.
From S2P Require Import Prelude Bytes Limbs Field.

(** ** Values and bounds *)
Definition p : Z := 2 ^ 255 - 19.

Definition fe_weights : list Z :=
  [1; 2 ^ 26; 2 ^ 51; 2 ^ 77; 2 ^ 102; 2 ^ 128; 2 ^ 153; 2 ^ 179; 2 ^ 204; 2 ^ 230].

Definition fe_list (f : fe) : list Z :=
  let '(Fe f0 f1 f2 f3 f4 f5 f6 f7 f8 f9) := f in [f0; f1; f2; f3; f4; f5; f6; f7; f8; f9].

Definition fe_val (f : fe) : Z := eval fe_weights (fe_list f).

(** [fe_bounded m f]: the limbs of [f] are bounded by [m/100] times
    [2^25, 2^24, 2^25, 2^24, ...]. *)
Definition fe_units : list Z :=
  [2 ^ 25; 2 ^ 24; 2 ^ 25; 2 ^ 24; 2 ^ 25; 2 ^ 24; 2 ^ 25; 2 ^ 24; 2 ^ 25; 2 ^ 24].

Definition limb_bounded (m x u : Z) : Prop := 100 * Z.abs x <= m * u.

Definition fe_bounded (m : Z) (f : fe) : Prop :=
  Forall2 (limb_bounded m) (fe_list f) fe_units.

#[export] Instance limb_bounded_dec m x u : Decision (limb_bounded m x u).
Proof. unfold limb_bounded. apply _. Defined.

#[export] Instance fe_bounded_dec m f : Decision (fe_bounded m f).
Proof. unfold fe_bounded. apply _. Defined.

(** ** Congruence modulo p *)
Definition eqp (x y : Z) : Prop := x mod p = y mod p.
Infix "=ₚ" := eqp (at level 70) : Z_scope.

#[export] Instance eqp_equiv : Equivalence eqp.
Proof. split; unfold eqp; repeat intro; congruence. Qed.

#[export] Instance eqp_add : Proper (eqp ==> eqp ==> eqp) Z.add.
Proof. unfold eqp. intros x x' Hx y y' Hy. by rewrite Z.add_mod, Hx, Hy, <- Z.add_mod. Qed.

#[export] Instance eqp_sub : Proper (eqp ==> eqp ==> eqp) Z.sub.
Proof. unfold eqp. intros x x' Hx y y' Hy. by rewrite Zminus_mod, Hx, Hy, <- Zminus_mod. Qed.

#[export] Instance eqp_mul : Proper (eqp ==> eqp ==> eqp) Z.mul.
Proof. unfold eqp. intros x x' Hx y y' Hy. by rewrite Z.mul_mod, Hx, Hy, <- Z.mul_mod. Qed.

#[export] Instance eqp_opp : Proper (eqp ==> eqp) Z.opp.
Proof. intros x x' Hx. rewrite <- !Z.sub_0_l. by rewrite Hx. Qed.

Lemma eqp_pow x y e : 0 <= e -> x =ₚ y -> x ^ e =ₚ y ^ e.
Proof.
  intros He Hxy. revert e He. apply natlike_ind; [done|].
  intros e He IH. by rewrite !Z.pow_succ_r, IH, Hxy by done.
Qed.

Lemma eqp_shift x y k : x = y + k * p -> x =ₚ y.
Proof. intros ->. unfold eqp. by rewrite Z.mod_add. Qed.

Lemma eqp_of_eq x y : x = y -> x =ₚ y.
Proof. by intros ->. Qed.

(** ** The carry chain *)
Lemma carry_wrap_spec s A A' :
  in_ivs s A -> iv_carry_wrap 64 25 9 A = Some A' ->
  returns (carry_wrap 64 25 9 s) (fun s' => in_ivs s' A' /\ eval fe_weights s' =ₚ eval fe_weights s).
Proof.
  intros Hs HA. eapply returns_mono; [by eapply carry_wrap_sound|].
  intros s' [Hs' [c Hc]]. split; [done|]. apply (eqp_shift _ _ (- c)).
  rewrite (eval_carried _ _ _ _ _ _ _ _ Hc). simpl nth. unfold p. lia.
Qed.

Ltac fe_round := limb_carry (carry_round_spec 64) fe_weights.
Ltac fe_wrap :=
  let s := fresh "s" in let Hs := fresh "Hs" in let Hv := fresh "Hv" in
  eapply returns_bind; [eapply carry_wrap_spec; [eassumption | vm_compute; reflexivity] |];
  intros s [Hs Hv].

Definition small_iv (a : iv) (u : Z) : Prop :=
  - 101 * u <= 100 * a.1 /\ 100 * a.2 <= 101 * u.
#[local] Instance small_iv_dec a u : Decision (small_iv a u).
Proof. unfold small_iv. apply _. Defined.

Lemma fe_store_spec h A :
  in_ivs h A -> bool_decide (Forall2 small_iv A fe_units) = true ->
  returns (fe_store h) (fun r => fe_bounded 101 r /\ fe_list r = h).
Proof.
  intros Hh HA%bool_decide_eq_true. unfold fe_units in HA.
  repeat (apply Forall2_cons_inv_r in HA as (? & ? & ? & HA & ->)).
  apply Forall2_nil_inv_r in HA as ->. ivs_inv Hh.
  unfold small_iv, inside in *. simpl in *.
  rewrite !to_i32_id by lia. simpl. split; [|done].
  unfold fe_bounded, limb_bounded. simpl. repeat constructor; lia.
Qed.

Definition carry_in : list iv := replicate 10 (- 2 ^ 62, 2 ^ 62).

Lemma fe_carry_spec h :
  in_ivs h carry_in ->
  returns (fe_carry h) (fun r => fe_bounded 101 r /\ fe_val r =ₚ eval fe_weights h).
Proof.
  intros Hh. unfold fe_carry. do 10 fe_round. fe_wrap. fe_round.
  eapply returns_mono; [eapply (fe_store_spec s10); [eassumption | vm_compute; reflexivity]|].
  intros r [Hr Hl]. split; [done|]. unfold fe_val. rewrite Hl. congruence.
Qed.

(** ** Multiplication and squaring *)
Definition fe_abs (B : Z) (f : fe) : Prop :=
  let '(Fe f0 f1 f2 f3 f4 f5 f6 f7 f8 f9) := f in
  (Z.abs f0 <= B /\ Z.abs f1 <= B / 2) /\ (Z.abs f2 <= B /\ Z.abs f3 <= B / 2) /\
  (Z.abs f4 <= B /\ Z.abs f5 <= B / 2) /\ (Z.abs f6 <= B /\ Z.abs f7 <= B / 2) /\
  (Z.abs f8 <= B /\ Z.abs f9 <= B / 2).

Lemma fe_bounded_abs f : fe_bounded 330 f -> fe_abs 110729625 f.
Proof.
  destruct f. unfold fe_bounded, limb_bounded, fe_units, fe_abs. simpl. intros H.
  repeat (apply Forall2_cons_1 in H as [? H]).
  change (110729625 / 2) with 55364812. lia.
Qed.

(** The coefficients of the product of two field elements, with [2^255]
    replaced by [19]. *)
Definition product_coeffs (f g : fe) : list Z :=
  let '(Fe f0 f1 f2 f3 f4 f5 f6 f7 f8 f9) := f in
  let '(Fe g0 g1 g2 g3 g4 g5 g6 g7 g8 g9) := g in
  [(f0 * g0) + 38 * (f1 * g9) + 19 * (f2 * g8) + 38 * (f3 * g7) + 19 * (f4 * g6) +
     38 * (f5 * g5) + 19 * (f6 * g4) + 38 * (f7 * g3) + 19 * (f8 * g2) + 38 * (f9 * g1);
   (f0 * g1) + (f1 * g0) + 19 * (f2 * g9) + 19 * (f3 * g8) + 19 * (f4 * g7) +
     19 * (f5 * g6) + 19 * (f6 * g5) + 19 * (f7 * g4) + 19 * (f8 * g3) + 19 * (f9 * g2);
   (f0 * g2) + 2 * (f1 * g1) + (f2 * g0) + 38 * (f3 * g9) + 19 * (f4 * g8) +
     38 * (f5 * g7) + 19 * (f6 * g6) + 38 * (f7 * g5) + 19 * (f8 * g4) + 38 * (f9 * g3);
   (f0 * g3) + (f1 * g2) + (f2 * g1) + (f3 * g0) + 19 * (f4 * g9) +
     19 * (f5 * g8) + 19 * (f6 * g7) + 19 * (f7 * g6) + 19 * (f8 * g5) + 19 * (f9 * g4);
   (f0 * g4) + 2 * (f1 * g3) + (f2 * g2) + 2 * (f3 * g1) + (f4 * g0) +
     38 * (f5 * g9) + 19 * (f6 * g8) + 38 * (f7 * g7) + 19 * (f8 * g6) + 38 * (f9 * g5);
   (f0 * g5) + (f1 * g4) + (f2 * g3) + (f3 * g2) + (f4 * g1) +
     (f5 * g0) + 19 * (f6 * g9) + 19 * (f7 * g8) + 19 * (f8 * g7) + 19 * (f9 * g6);
   (f0 * g6) + 2 * (f1 * g5) + (f2 * g4) + 2 * (f3 * g3) + (f4 * g2) +
     2 * (f5 * g1) + (f6 * g0) + 38 * (f7 * g9) + 19 * (f8 * g8) + 38 * (f9 * g7);
   (f0 * g7) + (f1 * g6) + (f2 * g5) + (f3 * g4) + (f4 * g3) +
     (f5 * g2) + (f6 * g1) + (f7 * g0) + 19 * (f8 * g9) + 19 * (f9 * g8);
   (f0 * g8) + 2 * (f1 * g7) + (f2 * g6) + 2 * (f3 * g5) + (f4 * g4) +
     2 * (f5 * g3) + (f6 * g2) + 2 * (f7 * g1) + (f8 * g0) + 38 * (f9 * g9);
   (f0 * g9) + (f1 * g8) + (f2 * g7) + (f3 * g6) + (f4 * g5) +
     (f5 * g4) + (f6 * g3) + (f7 * g2) + (f8 * g1) + (f9 * g0)].

Lemma product_coeffs_spec f g : eval fe_weights (product_coeffs f g) =ₚ fe_val f * fe_val g.
Proof.
  destruct f as [f0 f1 f2 f3 f4 f5 f6 f7 f8 f9], g as [g0 g1 g2 g3 g4 g5 g6 g7 g8 g9].
  apply (eqp_shift _ _ (- (
    2 * 2 ^ 0 * (f1 * g9) + 1 * 2 ^ 0 * (f2 * g8) + 1 * 2 ^ 26 * (f2 * g9) +
    2 * 2 ^ 0 * (f3 * g7) + 1 * 2 ^ 26 * (f3 * g8) + 2 * 2 ^ 51 * (f3 * g9) +
    1 * 2 ^ 0 * (f4 * g6) + 1 * 2 ^ 26 * (f4 * g7) + 1 * 2 ^ 51 * (f4 * g8) +
    1 * 2 ^ 77 * (f4 * g9) + 2 * 2 ^ 0 * (f5 * g5) + 1 * 2 ^ 26 * (f5 * g6) +
    2 * 2 ^ 51 * (f5 * g7) + 1 * 2 ^ 77 * (f5 * g8) + 2 * 2 ^ 102 * (f5 * g9) +
    1 * 2 ^ 0 * (f6 * g4) + 1 * 2 ^ 26 * (f6 * g5) + 1 * 2 ^ 51 * (f6 * g6) +
    1 * 2 ^ 77 * (f6 * g7) + 1 * 2 ^ 102 * (f6 * g8) + 1 * 2 ^ 128 * (f6 * g9) +
    2 * 2 ^ 0 * (f7 * g3) + 1 * 2 ^ 26 * (f7 * g4) + 2 * 2 ^ 51 * (f7 * g5) +
    1 * 2 ^ 77 * (f7 * g6) + 2 * 2 ^ 102 * (f7 * g7) + 1 * 2 ^ 128 * (f7 * g8) +
    2 * 2 ^ 153 * (f7 * g9) + 1 * 2 ^ 0 * (f8 * g2) + 1 * 2 ^ 26 * (f8 * g3) +
    1 * 2 ^ 51 * (f8 * g4) + 1 * 2 ^ 77 * (f8 * g5) + 1 * 2 ^ 102 * (f8 * g6) +
    1 * 2 ^ 128 * (f8 * g7) + 1 * 2 ^ 153 * (f8 * g8) + 1 * 2 ^ 179 * (f8 * g9) +
    2 * 2 ^ 0 * (f9 * g1) + 1 * 2 ^ 26 * (f9 * g2) + 2 * 2 ^ 51 * (f9 * g3) +
    1 * 2 ^ 77 * (f9 * g4) + 2 * 2 ^ 102 * (f9 * g5) + 1 * 2 ^ 128 * (f9 * g6) +
    2 * 2 ^ 153 * (f9 * g7) + 1 * 2 ^ 179 * (f9 * g8) + 2 * 2 ^ 204 * (f9 * g9)))).
  unfold fe_val, p. cbn [eval fe_weights fe_list product_coeffs]. ring.
Qed.

(** The coefficients of bounded elements are below [2^61]. *)
Lemma in_ivs_abs h B A :
  abs_bounds h B -> bool_decide (Forall2 (fun b a => a.1 <= - b /\ b <= a.2) B A) = true ->
  in_ivs h A.
Proof.
  intros H HA%bool_decide_eq_true. revert A HA.
  induction H as [|x b h B Hx H IH]; intros A HA.
  - apply Forall2_nil_inv_l in HA as ->. constructor.
  - apply Forall2_cons_inv_l in HA as (a & A' & Ha & HA & ->).
    constructor; [unfold inside; lia|]. by apply IH.
Qed.

Definition product_in : list iv := replicate 10 (- 2 ^ 61, 2 ^ 61).

Lemma fe_mul_products_spec f g :
  fe_bounded 330 f -> fe_bounded 330 g ->
  returns (fe_mul_products f g) (fun h => h = product_coeffs f g /\ in_ivs h product_in).
Proof.
  intros Hf%fe_bounded_abs Hg%fe_bounded_abs.
  destruct f as [f0 f1 f2 f3 f4 f5 f6 f7 f8 f9], g as [g0 g1 g2 g3 g4 g5 g6 g7 g8 g9].
  unfold fe_abs in *. change (110729625 / 2) with 55364812 in *. destruct_and!.
  unfold fe_mul_products. do 114 checked_step. do 10 sum_step.
  simpl sum_from. split.
  - unfold product_coeffs. repeat (apply (f_equal2 cons); [ring|]). done.
  - eapply in_ivs_abs; [bounds | vm_compute; reflexivity].
Qed.

Lemma fe_sq_products_spec f :
  fe_bounded 330 f ->
  returns (fe_sq_products f) (fun h => h = product_coeffs f f /\ in_ivs h product_in).
Proof.
  intros Hf%fe_bounded_abs. destruct f as [f0 f1 f2 f3 f4 f5 f6 f7 f8 f9].
  unfold fe_abs in *. change (110729625 / 2) with 55364812 in *. destruct_and!.
  unfold fe_sq_products. do 68 checked_step. do 10 sum_step.
  simpl sum_from. split.
  - unfold product_coeffs. repeat (apply (f_equal2 cons); [ring|]). done.
  - eapply in_ivs_abs; [bounds | vm_compute; reflexivity].
Qed.

Lemma ivs_weaken h A B :
  in_ivs h A -> bool_decide (Forall2 (fun a b => b.1 <= a.1 /\ a.2 <= b.2) A B) = true -> in_ivs h B.
Proof.
  intros H HB%bool_decide_eq_true. revert B HB.
  induction H as [|x a h A Hx H IH]; intros B HB.
  - apply Forall2_nil_inv_l in HB as ->. constructor.
  - apply Forall2_cons_inv_l in HB as (b & B' & Hb & HB & ->).
    constructor; [unfold inside in *; lia|]. by apply IH.
Qed.

Lemma fe_mul_spec f g :
  fe_bounded 330 f -> fe_bounded 330 g ->
  returns (fe_mul f g) (fun h => fe_bounded 101 h /\ fe_val h =ₚ fe_val f * fe_val g).
Proof.
  intros Hf Hg. unfold fe_mul. eapply returns_bind; [by apply fe_mul_products_spec|].
  intros h [-> Hh]. eapply returns_mono; [eapply fe_carry_spec, ivs_weaken; [done|vm_compute; reflexivity]|].
  intros r [Hr Hv]. split; [done|]. by rewrite Hv, product_coeffs_spec.
Qed.

Lemma fe_sq_spec f :
  fe_bounded 330 f ->
  returns (fe_sq f) (fun h => fe_bounded 101 h /\ fe_val h =ₚ fe_val f * fe_val f).
Proof.
  intros Hf. unfold fe_sq. eapply returns_bind; [by apply fe_sq_products_spec|].
  intros h [-> Hh]. eapply returns_mono; [eapply fe_carry_spec, ivs_weaken; [done|vm_compute; reflexivity]|].
  intros r [Hr Hv]. split; [done|]. by rewrite Hv, product_coeffs_spec.
Qed.

Lemma double_all_spec h n :
  in_ivs h (replicate n (- 2 ^ 61, 2 ^ 61)) ->
  returns (double_all h) (fun r => in_ivs r (replicate n (- 2 ^ 62, 2 ^ 62)) /\
    forall ws, eval ws r = 2 * eval ws h).
Proof.
  revert n. induction h as [|x h IH]; intros [|n] H; simpl.
  - split; [constructor|]. by intros [].
  - by apply Forall2_nil_inv_l in H.
  - by apply Forall2_nil_inv_r in H.
  - apply Forall2_cons_1 in H as [Hx H]. unfold inside in Hx. simpl in Hx.
    rewrite (i64_ok _ (2 ^ 62)) by (done || lia). simpl.
    eapply returns_bind; [by apply IH|]. intros r [Hr Hv]. simpl. split.
    + constructor; [unfold inside; simpl; lia|done].
    + intros [|w ws]; [done|]. simpl. rewrite Hv. lia.
Qed.

Lemma fe_sq2_spec f :
  fe_bounded 330 f ->
  returns (fe_sq2 f) (fun h => fe_bounded 101 h /\ fe_val h =ₚ 2 * fe_val f * fe_val f).
Proof.
  intros Hf. unfold fe_sq2. eapply returns_bind; [by apply fe_sq_products_spec|].
  intros h [-> Hh]. eapply returns_bind; [by apply (double_all_spec _ 10)|].
  intros h [Hd Hv]. eapply returns_mono; [by apply fe_carry_spec|].
  intros r [Hr Hr']. split; [done|]. rewrite Hr', Hv, product_coeffs_spec.
  apply eqp_of_eq. ring.
Qed.

(** ** Addition, subtraction, negation *)
Lemma limb_bounded_le m m' x u : limb_bounded m x u -> m <= m' -> 0 <= u -> limb_bounded m' x u.
Proof. unfold limb_bounded. nia. Qed.

Lemma limb_bounded_add m n x y u :
  limb_bounded m x u -> limb_bounded n y u -> limb_bounded (m + n) (x + y) u.
Proof. unfold limb_bounded. lia. Qed.

Lemma limb_bounded_sub m n x y u :
  limb_bounded m x u -> limb_bounded n y u -> limb_bounded (m + n) (x - y) u.
Proof. unfold limb_bounded. lia. Qed.

Lemma limb_bounded_opp m x u : limb_bounded m x u -> limb_bounded m (- x) u.
Proof. unfold limb_bounded. lia. Qed.

Lemma limb_bounded_i32 m x u : limb_bounded m x u -> m <= 6000 -> 0 <= u <= 2 ^ 25 -> i32 x = Ok x.
Proof. unfold limb_bounded. intros. apply i32_abs. nia. Qed.

Create HintDb limbs.
#[export] Hint Resolve limb_bounded_add limb_bounded_sub limb_bounded_opp : limbs.

Lemma fe_bounded_le m m' f : fe_bounded m f -> m <= m' -> fe_bounded m' f.
Proof.
  unfold fe_bounded. intros H Hm. destruct f.
  unfold fe_units, fe_list in *. repeat (apply Forall2_cons_1 in H as [? H]).
  repeat constructor; eapply limb_bounded_le; (eassumption || done).
Qed.

(** Splits the bound of an element into those of its limbs. *)
Ltac fe_limbs H :=
  unfold fe_bounded, fe_units, fe_list in H; repeat (apply Forall2_cons_1 in H as [? H]); clear H.

Ltac limb_step :=
  lazymatch goal with
  | |- returns (bind (i32 ?e) _) _ =>
      refine (returns_guard _ _ e _ (limb_bounded_i32 _ e _ _ _ _) _);
      [eauto with limbs | eassumption | done | cbv beta]
  end.

Ltac limbs_done :=
  unfold fe_bounded, fe_units, fe_list; repeat constructor; eauto with limbs.

Lemma fe_add_spec m n f g :
  fe_bounded m f -> fe_bounded n g -> m + n <= 6000 ->
  returns (fe_add f g) (fun h => fe_bounded (m + n) h /\ fe_val h = fe_val f + fe_val g).
Proof.
  intros Hf Hg Hm. destruct f, g. fe_limbs Hf. fe_limbs Hg. unfold fe_add. do 10 limb_step.
  split; [limbs_done|]. unfold fe_val. cbn [eval fe_weights fe_list]. ring.
Qed.

Lemma fe_sub_spec m n f g :
  fe_bounded m f -> fe_bounded n g -> m + n <= 6000 ->
  returns (fe_sub f g) (fun h => fe_bounded (m + n) h /\ fe_val h = fe_val f - fe_val g).
Proof.
  intros Hf Hg Hm. destruct f, g. fe_limbs Hf. fe_limbs Hg. unfold fe_sub. do 10 limb_step.
  split; [limbs_done|]. unfold fe_val. cbn [eval fe_weights fe_list]. ring.
Qed.

Lemma fe_neg_spec m f :
  fe_bounded m f -> m <= 6000 ->
  returns (fe_neg f) (fun h => fe_bounded m h /\ fe_val h = - fe_val f).
Proof.
  intros Hf Hm. destruct f. fe_limbs Hf. unfold fe_neg. do 10 limb_step.
  split; [limbs_done|]. unfold fe_val. cbn [eval fe_weights fe_list]. ring.
Qed.

Lemma fe_copy_id f : fe_copy f = f.
Proof. by destruct f. Qed.

(** ** Conditional move *)
Definition is_i32 (z : Z) : Prop := - 2 ^ 31 <= z < 2 ^ 31.

Lemma is_i32_shiftr z : is_i32 z <-> Z.shiftr z 31 = 0 \/ Z.shiftr z 31 = -1.
Proof.
  unfold is_i32. rewrite Z.shiftr_div_pow2 by lia.
  pose proof (Z.div_mod z (2 ^ 31) ltac:(lia)). pose proof (Z.mod_pos_bound z (2 ^ 31) ltac:(lia)).
  lia.
Qed.

Lemma is_i32_lxor a b : is_i32 a -> is_i32 b -> is_i32 (Z.lxor a b).
Proof. rewrite !is_i32_shiftr, Z.shiftr_lxor. by intros [-> | ->] [-> | ->]; auto. Qed.

Lemma to_i32_u32 z : is_i32 z -> to_i32 (u32 z) = z.
Proof.
  unfold to_i32, to_signed, u32, is_i32. intros.
  rewrite Z.add_mod_idemp_l by lia. rewrite Z.mod_small by lia. lia.
Qed.

Lemma cmov_guard b :
  0 <= b < 2 ^ 32 ->
  Z.lor (Z.land (u32 (b - 1)) (u32 (Z.lnot b)))
        (Z.land (u32 (b - 2)) (u32 (Z.lnot (u32 (b - 1))))) = u32 (-1) <-> b = 0 \/ b = 1.
Proof.
  intros Hb. split; [|by intros [-> | ->]]. intros H.
  destruct (decide (b < 2)) as [|Hb2]; [lia|exfalso].
  assert (0 <= Z.log2 b < 32) as Ht by (split; [apply Z.log2_nonneg|apply Z.log2_lt_pow2; lia]).
  pose proof (Z.log2_spec b ltac:(lia)) as Hlog. rewrite Z.pow_succ_r in Hlog by lia.
  set (t := Z.log2 b) in *. apply (f_equal (fun z => Z.testbit z t)) in H.
  assert (Z.testbit b t = true) as Hbt by (apply Z.bit_log2; lia).
  change (u32 (-1)) with (Z.ones 32) in H. rewrite Z.ones_spec_low in H by lia.
  unfold u32 in H. rewrite (Z.mod_small (b - 1)), (Z.mod_small (b - 2)) in H by lia.
  rewrite Z.lor_spec, !Z.land_spec, !Z.mod_pow2_bits_low, !Z.lnot_spec, Hbt in H by lia.
  rewrite andb_false_r in H. simpl in H.
  destruct (decide (b = 2 ^ t)) as [Heq|Hne].
  - rewrite (testbit_small (b - 2) t t) in H; [done|lia|lia].
  - replace (Z.testbit (b - 1) t) with true in H; [by rewrite andb_false_r in H|].
    symmetry. replace t with (Z.log2 (b - 1)); [apply Z.bit_log2; lia|].
    apply Z.log2_unique; [lia|]. rewrite Z.pow_succ_r; lia.
Qed.

Lemma limb_bounded_is_i32 m x u : limb_bounded m x u -> m <= 6000 -> 0 <= u <= 2 ^ 25 -> is_i32 x.
Proof. unfold limb_bounded, is_i32. nia. Qed.

Lemma cmov_keep x y : Z.lxor x (to_i32 (Z.land (u32 (Z.lxor x y)) (u32 (- 0)))) = x.
Proof. change (u32 (- 0)) with 0. rewrite Z.land_0_r. change (to_i32 0) with 0. apply Z.lxor_0_r. Qed.

Lemma cmov_take x y :
  is_i32 x -> is_i32 y -> Z.lxor x (to_i32 (Z.land (u32 (Z.lxor x y)) (u32 (- 1)))) = y.
Proof.
  intros Hx Hy. change (u32 (- 1)) with (Z.ones 32). rewrite Z.land_ones by lia.
  change (u32 (Z.lxor x y) mod 2 ^ 32) with (u32 (u32 (Z.lxor x y))).
  replace (u32 (u32 (Z.lxor x y))) with (u32 (Z.lxor x y)) by (unfold u32; by rewrite Z.mod_mod).
  rewrite to_i32_u32 by by apply is_i32_lxor.
  by rewrite <- Z.lxor_assoc, Z.lxor_nilpotent, Z.lxor_0_l.
Qed.

Lemma fe_cmov_spec {ndebug} m f g b :
  fe_bounded m f -> fe_bounded m g -> m <= 6000 -> b = 0 \/ b = 1 ->
  fe_cmov ndebug f g b = Ok (if decide (b = 1) then g else f).
Proof.
  intros Hf Hg Hm Hb. destruct f, g. fe_limbs Hf. fe_limbs Hg. unfold fe_cmov.
  rewrite c_assert_true by (f_equal; apply Z.eqb_eq, cmov_guard; [lia|done]). cbn [bind].
  destruct Hb as [-> | ->].
  - rewrite decide_False by done. by rewrite !cmov_keep.
  - rewrite decide_True by done.
    rewrite !cmov_take; try done; eapply limb_bounded_is_i32; (eassumption || done).
Qed.

Lemma fe_cmov_abort f g b : 0 <= b < 2 ^ 32 -> ~ (b = 0 \/ b = 1) -> fe_cmov false f g b = Fail Aborted.
Proof.
  intros Hb Hn. destruct f, g. unfold fe_cmov.
  rewrite c_assert_false; [done|]. f_equal. apply Z.eqb_neq. by rewrite cmov_guard.
Qed.

(** ** Exponentiation *)

(** [t] holds the power [z^e]. *)
Definition fe_pow (m z : Z) (t : fe) (e : Z) : Prop :=
  fe_bounded m t /\ 0 <= e /\ fe_val t =ₚ z ^ e.

Lemma fe_pow_base m f : fe_bounded m f -> fe_pow m (fe_val f) f 1.
Proof. intros Hf. split; [done|]. split; [done|]. by rewrite Z.pow_1_r. Qed.

Lemma fe_pow_sq m z t e :
  fe_pow m z t e -> m <= 330 -> returns (fe_sq t) (fun r => fe_pow 101 z r (2 * e)).
Proof.
  intros (Hb & He & Hv) Hm. eapply returns_mono; [eapply fe_sq_spec, fe_bounded_le; done|].
  intros r [Hr Hvr]. split; [done|]. split; [lia|].
  rewrite Hvr, Hv. apply eqp_of_eq. rewrite <- Z.pow_add_r by done. f_equal. lia.
Qed.

Lemma fe_pow_mul m n z t u e e' :
  fe_pow m z t e -> fe_pow n z u e' -> m <= 330 -> n <= 330 ->
  returns (fe_mul t u) (fun r => fe_pow 101 z r (e + e')).
Proof.
  intros (Hb & He & Hv) (Hb' & He' & Hv') Hm Hn.
  eapply returns_mono; [eapply fe_mul_spec; eapply fe_bounded_le; done|].
  intros r [Hr Hvr]. split; [done|]. split; [lia|].
  rewrite Hvr, Hv, Hv'. apply eqp_of_eq. by rewrite Z.pow_add_r.
Qed.

Lemma fe_pow_sqn n z t e :
  fe_pow 101 z t e -> returns (fe_sqn n t) (fun r => fe_pow 101 z r (e * 2 ^ Z.of_nat n)).
Proof.
  intros H. unfold fe_sqn.
  apply (for_inv n _ 0 t (fun k r => fe_pow 101 z r (e * 2 ^ Z.of_nat k))).
  - by rewrite Z.mul_1_r.
  - intros k a _ Ha. eapply returns_mono; [by eapply fe_pow_sq|]. intros r Hr.
    by replace (e * 2 ^ Z.of_nat (S k)) with (2 * (e * 2 ^ Z.of_nat k))
      by (rewrite Nat2Z.inj_succ, Z.pow_succ_r by lia; lia).
Qed.

Ltac pow_step :=
  let t := fresh "t" in let H := fresh "H" in
  lazymatch goal with
  | |- returns (bind (fe_sq _) _) _ => eapply returns_bind; [eapply fe_pow_sq; (eassumption || lia)|]
  | |- returns (bind (fe_mul _ _) _) _ =>
      eapply returns_bind; [eapply fe_pow_mul; (eassumption || lia)|]
  | |- returns (bind (fe_sqn _ _) _) _ => eapply returns_bind; [eapply fe_pow_sqn; eassumption|]
  end; cbv beta; intros t H.

Lemma fe_invert_spec m f :
  fe_bounded m f -> m <= 330 ->
  returns (fe_invert f) (fun r => fe_bounded 101 r /\ fe_val r =ₚ fe_val f ^ (p - 2)).
Proof.
  intros Hf%fe_pow_base Hm. unfold fe_invert. do 31 pow_step.
  match goal with H : fe_pow 101 _ ?t ?e |- returns (Ok ?t) _ =>
    replace e with (p - 2) in H by (vm_compute; reflexivity); destruct H as (? & _ & ?) end.
  done.
Qed.

(** A multiplication or squaring whose operands are bounded in the context. *)
Tactic Notation "fe_mul_step" constr(lem) "as" ident(t) ident(Hb) ident(Hv) :=
  eapply returns_bind; [eapply lem; (eapply fe_bounded_le; [eassumption|lia])|];
  intros t [Hb Hv].

Lemma fe_divpowm1_spec m n u v :
  fe_bounded m u -> fe_bounded n v -> m <= 330 -> n <= 330 ->
  returns (fe_divpowm1 u v) (fun r => fe_bounded 101 r /\
    fe_val r =ₚ fe_val u * fe_val v ^ 3 * (fe_val u * fe_val v ^ 7) ^ ((p - 5) / 8)).
Proof.
  intros Hu Hv Hm Hn. unfold fe_divpowm1.
  fe_mul_step fe_sq_spec as v2 B2 E2. fe_mul_step fe_mul_spec as v3 B3 E3.
  fe_mul_step fe_sq_spec as v6 B6 E6. fe_mul_step fe_mul_spec as v7 B7 E7.
  fe_mul_step fe_mul_spec as uv7 B8 E8.
  assert (fe_val v3 =ₚ fe_val v ^ 3) as F3 by (rewrite E3, E2; apply eqp_of_eq; ring).
  assert (fe_val uv7 =ₚ fe_val u * fe_val v ^ 7) as F7
    by (rewrite E8, E7, E6, F3; apply eqp_of_eq; ring).
  pose proof (fe_pow_base _ _ B8) as Hp. do 29 pow_step.
  match goal with H : fe_pow 101 _ ?t ?e |- returns (bind (fe_mul ?t _) _) _ =>
    replace e with ((p - 5) / 8) in H by (vm_compute; reflexivity); destruct H as (Bt & _ & Et) end.
  fe_mul_step fe_mul_spec as r1 B9 E9. fe_mul_step fe_mul_spec as r2 B10 E10.
  split; [done|]. rewrite E10, E9, Et, F3.
  assert (0 <= (p - 5) / 8) as Hp0 by (apply Z.div_pos; unfold p; lia).
  rewrite (eqp_pow _ _ _ Hp0 F7). apply eqp_of_eq. ring.
Qed.
