(* ===== verification/FieldBytes.v ===== *)
(** * Encoding of field elements

    [fe_tobytes] writes the canonical little-endian encoding; the loads of
    [ge_frombytes_vartime] and [ge_fromfe_frombytes_vartime] read one. *)

From stdpp Require Import base list numbers.
From Stdlib Require Import ZArith Lia.
From S2P Require Import Prelude Bytes Limbs Field FieldFacts.

(** ** The quotient estimate *)
Lemma div_nest S h W w : 0 < W -> 0 <= w -> (h + S / W) / 2 ^ w = (S + W * h) / (W * 2 ^ w).
Proof.
  intros. rewrite <- Z.div_div by lia.
  by rewrite (Z.mul_comm W h), Z.div_add, Z.add_comm by lia.
Qed.

Lemma q_step_spec w S W h q :
  Z.abs h <= 2 ^ 27 -> Z.abs q <= 32 -> q = S / W -> 0 < W -> 25 <= w ->
  returns (q_step w h q) (fun r => Z.abs r <= 32 /\ r = (S + W * h) / (W * 2 ^ w)).
Proof.
  intros Hh Hq HS HW Hw. unfold q_step. rewrite i32_abs by lia. simpl.
  rewrite Z.shiftr_div_pow2 by lia. split; [|subst q; apply div_nest; lia].
  pose proof (Z.pow_le_mono_r 2 25 w ltac:(lia) Hw).
  pose proof (Z.div_mod (h + q) (2 ^ w) ltac:(lia)).
  pose proof (Z.mod_pos_bound (h + q) (2 ^ w) ltac:(lia)). nia.
Qed.

(** The bounds of an element that is small enough for [fe_tobytes]. *)
Lemma fe_bounded_tobytes h :
  fe_bounded 330 h ->
  in_ivs (fe_list h) [(-110729625, 110729625); (-55364812, 55364812); (-110729625, 110729625);
    (-55364812, 55364812); (-110729625, 110729625); (-55364812, 55364812); (-110729625, 110729625);
    (-55364812, 55364812); (-110729625, 110729625); (-55364812, 55364812)].
Proof.
  destruct h. unfold fe_bounded, fe_units, fe_list, limb_bounded. intros H.
  repeat (apply Forall2_cons_1 in H as [? H]). repeat constructor; simpl; lia.
Qed.

Lemma quotient_range V h9 q0 q :
  Z.abs (V - 2 ^ 230 * h9) <= 2 ^ 231 -> Z.abs h9 <= 55364812 ->
  q0 = (19 * h9 + 2 ^ 24) / 2 ^ 25 -> q = (V + q0) / 2 ^ 255 ->
  -3 <= q <= 2 /\ 0 <= V - q * p < p.
Proof.
  intros HV Hh Hq0 Hq. unfold p.
  pose proof (Z.div_mod (19 * h9 + 2 ^ 24) (2 ^ 25) ltac:(lia)) as E0. rewrite <- Hq0 in E0.
  pose proof (Z.mod_pos_bound (19 * h9 + 2 ^ 24) (2 ^ 25) ltac:(lia)).
  pose proof (Z.div_mod (V + q0) (2 ^ 255) ltac:(lia)) as E. rewrite <- Hq in E.
  pose proof (Z.mod_pos_bound (V + q0) (2 ^ 255) ltac:(lia)).
  set (r0 := (19 * h9 + 2 ^ 24) mod 2 ^ 25) in *. set (r := (V + q0) mod 2 ^ 255) in *.
  clearbody r0 r. clear Hq0 Hq.
  assert (-3 <= q <= 2) as Hqr by lia. split; [done|].
  assert (q = -3 \/ q = -2 \/ q = -1 \/ q = 0 \/ q = 1 \/ q = 2) as Hc by lia.
  destruct Hc as [-> | [-> | [-> | [-> | [-> | ->]]]]]; lia.
Qed.

Lemma fe_quotient_spec h :
  fe_bounded 330 h ->
  returns (fe_quotient h) (fun q => -3 <= q <= 2 /\ 0 <= fe_val h - q * p < p).
Proof.
  intros Hb%fe_bounded_tobytes. destruct h as [h0 h1 h2 h3 h4 h5 h6 h7 h8 h9].
  unfold fe_list in Hb. repeat (apply Forall2_cons_1 in Hb as [? Hb]). clear Hb.
  unfold inside in *. simpl fst in *. simpl snd in *. unfold fe_quotient.
  rewrite i32_abs by lia. cbn [bind]. rewrite i32_abs by lia. cbn [bind].
  rewrite Z.shiftr_div_pow2 by lia.
  assert (Z.abs ((19 * h9 + 2 ^ 24) / 2 ^ 25) <= 32) as Hq0.
  { pose proof (Z.div_mod (19 * h9 + 2 ^ 24) (2 ^ 25) ltac:(lia)).
    pose proof (Z.mod_pos_bound (19 * h9 + 2 ^ 24) (2 ^ 25) ltac:(lia)). lia. }
  remember ((19 * h9 + 2 ^ 24) / 2 ^ 25) as q0 eqn:Eq0.
  assert (Z.abs (fe_val (Fe h0 h1 h2 h3 h4 h5 h6 h7 h8 h9) - 2 ^ 230 * h9) <= 2 ^ 231) as HV
    by (unfold fe_val; cbn [eval fe_weights fe_list]; clear Hq0 Eq0; lia).
  assert (Z.abs h9 <= 55364812) as H9 by lia.
  repeat match goal with H : -110729625 <= ?h <= 110729625 |- _ =>
    assert (Z.abs h <= 2 ^ 27) by (clear -H; lia); clear H
  | H : -55364812 <= ?h <= 55364812 |- _ =>
    assert (Z.abs h <= 2 ^ 27) by (clear -H; lia); clear H end.
  apply eq_sym in Eq0. pose proof (eq_sym (Z.div_1_r q0)) as Hq1.
  do 10 (eapply returns_bind;
    [eapply q_step_spec; [eassumption | eassumption | eassumption | done | done]|]; intros ? [? ?]).
  apply (quotient_range _ h9 q0); [done|done|done|].
  unfold fe_val. cbn [eval fe_weights fe_list]. etransitivity; [eassumption|].
  f_equal. ring.
Qed.

(** ** The canonical encoding *)
Definition fe_widths : list Z := [26; 25; 26; 25; 26; 25; 26; 25; 26; 25].

Definition digit_ivs (ws : list Z) : list iv := (fun w => (0, 2 ^ w - 1)) <$> ws.

Lemma in_ivs_digits ws hs :
  Forall (Z.le 0) ws -> in_ivs hs (digit_ivs ws) -> Forall2 is_digit ws hs.
Proof.
  intros Hws. revert hs. induction Hws as [|w ws Hw Hws IH]; intros hs H.
  - apply Forall2_nil_inv_r in H as ->. constructor.
  - apply Forall2_cons_inv_r in H as (h & hs' & Hh & H & ->). constructor; [|by apply IH].
    unfold inside in Hh. simpl in Hh. unfold is_digit. lia.
Qed.

Lemma eval_positional h : length h = 10%nat -> eval fe_weights h = positional fe_widths h.
Proof.
  intros Hl. do 10 (destruct h as [|? h]; [done|]). destruct h; [|done].
  cbn [eval positional fe_weights fe_widths]. ring.
Qed.

Lemma fe_widths_nonneg : Forall (Z.le 0) fe_widths.
Proof. unfold fe_widths. repeat constructor; lia. Qed.

Lemma fe_pack_spec R h :
  in_ivs h (digit_ivs fe_widths) -> eval fe_weights h = R -> fe_pack h = Ok (le_bytes 32 R).
Proof.
  intros Hd HR. assert (length h = 10%nat) as Hl by apply (Forall2_length Hd).
  apply in_ivs_digits in Hd; [|apply fe_widths_nonneg].
  rewrite eval_positional in HR by done.
  pose proof (positional_bound _ _ Hd) as HRb. rewrite HR in HRb.
  apply bit_fields_positional in Hd. rewrite HR in Hd. subst h. clear HR Hl.
  change (total fe_widths) with 255 in HRb.
  rewrite le_bytes_alt. unfold fe_pack, fe_widths. cbn [bit_fields seq fmap list_fmap].
  f_equal. repeat (apply (f_equal2 cons);
    [first [by apply (pack_one R) | by apply (pack_two32 R) | by apply (pack_last R)]|]).
  done.
Qed.

Definition tobytes_in : list iv :=
  [(-110729682, 110729663); (-55364812, 55364812); (-110729625, 110729625);
   (-55364812, 55364812); (-110729625, 110729625); (-55364812, 55364812); (-110729625, 110729625);
   (-55364812, 55364812); (-110729625, 110729625); (-55364812, 55364812)].

Lemma digits_bound h : in_ivs h (digit_ivs fe_widths) -> 0 <= eval fe_weights h < 2 ^ 255.
Proof.
  intros Hd. assert (length h = 10%nat) as Hl by apply (Forall2_length Hd).
  rewrite eval_positional by done. apply positional_bound.
  apply in_ivs_digits; [apply fe_widths_nonneg|done].
Qed.

Lemma fe_tobytes_carry_spec h R q :
  in_ivs h tobytes_in -> eval fe_weights h = R + 2 ^ 255 * q -> 0 <= R < 2 ^ 255 ->
  fe_tobytes_carry h = Ok (le_bytes 32 R).
Proof.
  intros Hh HV HR.
  enough (returns (fe_tobytes_carry h) (fun s => s = le_bytes 32 R)) as (? & -> & ->)%returns_inv by done.
  unfold fe_tobytes_carry. do 9 limb_carry (carry_floor_spec 32) fe_weights.
  eapply returns_bind; [eapply carry_drop_sound; [eassumption | vm_compute; reflexivity]|].
  intros h' [Hd (a & Ha & ->)]. rewrite (fe_pack_spec R); [done|exact Hd|].
  pose proof (digits_bound _ Hd) as Hb. rewrite (eval_insert _ _ _ a) in * by done.
  rewrite (Z.mod_eq a) in * by lia. simpl nth in *. nia.
Qed.

Lemma fe_tobytes_spec h :
  fe_bounded 330 h -> fe_tobytes h = Ok (le_bytes 32 (fe_val h mod p)).
Proof.
  intros Hb. unfold fe_tobytes.
  pose proof (fe_quotient_spec h Hb) as Hq. apply returns_inv in Hq as (q & -> & Hqr & HR). cbn [bind].
  apply fe_bounded_tobytes in Hb.
  rewrite <- (Zmod_unique (fe_val h) p q (fe_val h - q * p)) by lia.
  destruct h as [h0 h1 h2 h3 h4 h5 h6 h7 h8 h9].
  unfold fe_list in Hb. apply Forall2_cons_1 in Hb as [Hh0 Hb]. unfold inside in Hh0. simpl in Hh0.
  rewrite i32_abs by lia. cbn [bind]. rewrite i32_abs by lia. cbn [bind].
  apply (fe_tobytes_carry_spec _ _ q).
  - constructor; [unfold inside; simpl; lia|exact Hb].
  - unfold fe_val, p. cbn [eval fe_weights fe_list]. ring.
  - unfold p in *. lia.
Qed.

(** ** Sign and zero tests *)
Lemma fe_isnegative_spec f : fe_bounded 330 f -> fe_isnegative f = Ok (fe_val f mod p mod 2).
Proof.
  intros Hb. unfold fe_isnegative. rewrite fe_tobytes_spec by done. cbn [bind].
  rewrite get_le_bytes by lia. cbn [bind]. f_equal.
  change 1 with (2 ^ 1 - 1) at 1. rewrite Z.land_comm, land_bits by lia.
  unfold bits. by rewrite Z.shiftr_0_r.
Qed.

Lemma lor_byte a b : is_byte a -> is_byte b -> is_byte (Z.lor a b).
Proof.
  unfold is_byte. intros. split; [apply Z.lor_nonneg; lia|].
  destruct (decide (Z.lor a b = 0)) as [->|]; [lia|].
  assert (0 <= Z.lor a b) by (apply Z.lor_nonneg; lia).
  apply (Z.log2_lt_pow2 (Z.lor a b) 8); [lia|]. rewrite Z.log2_lor by lia.
  apply Z.max_lub_lt.
  - destruct (decide (a = 0)) as [->|]; [done|]. apply Z.log2_lt_pow2; lia.
  - destruct (decide (b = 0)) as [->|]; [done|]. apply Z.log2_lt_pow2; lia.
Qed.

Lemma foldl_lor_spec s x :
  bytes s -> is_byte x ->
  is_byte (foldl Z.lor x s) /\ (foldl Z.lor x s = 0 <-> x = 0 /\ le_val s = 0).
Proof.
  intros Hs. revert x. induction Hs as [|b s Hb Hs IH]; intros x Hx; simpl.
  - tauto.
  - destruct (IH (Z.lor x b)) as [H1 H2]; [by apply lor_byte|]. split; [done|].
    rewrite H2, Z.lor_eq_0_iff. pose proof (le_val_bound _ Hs). unfold is_byte in Hb. lia.
Qed.

Lemma nonzero_bytes_spec s : bytes s -> nonzero_bytes s = if decide (le_val s = 0) then 0 else 1.
Proof.
  intros Hs. destruct (foldl_lor_spec s 0 Hs ltac:(done)) as [Hb H0]. unfold nonzero_bytes, is_byte in *.
  rewrite Z.shiftr_div_pow2 by lia. destruct (decide (le_val s = 0)) as [E|E].
  - by rewrite (proj2 H0).
  - rewrite Z.div_small; [done|]. split; [|lia].
    assert (foldl Z.lor 0 s <> 0) by tauto. lia.
Qed.

Lemma fe_isnonzero_spec f :
  fe_bounded 330 f -> fe_isnonzero f = Ok (if decide (fe_val f mod p = 0) then 0 else 1).
Proof.
  intros Hb. unfold fe_isnonzero. rewrite fe_tobytes_spec by done. simpl. f_equal.
  rewrite nonzero_bytes_spec by apply le_bytes_bytes. rewrite le_val_bytes.
  rewrite (Z.mod_small (_ mod p)); [done|].
  pose proof (Z.mod_pos_bound (fe_val f) p ltac:(done)).
  change (256 ^ Z.of_nat 32) with (2 ^ 256). unfold p in *. lia.
Qed.

(** ** Loads *)
Definition load_widths : list Z := [32; 24; 24; 24; 24; 32; 24; 24; 24; 23].
Definition load_full_widths : list Z := [32; 24; 24; 24; 24; 32; 24; 24; 24; 24].
Definition load_shifts : list Z := [0; 6; 5; 3; 2; 0; 7; 5; 4; 2].
Definition load_in : list iv := (fun s => (0, 2 ^ 32)) <$> load_shifts.

(** The limbs are the bit fields, each shifted to the weight of its limb. *)
Definition shift_all (d : list Z) : list Z := zip_with Z.shiftl d load_shifts.

Lemma u64_shiftl v o w k : 0 <= w -> 0 <= k -> w + k <= 64 -> u64 (Z.shiftl (bits v o w) k) = Z.shiftl (bits v o w) k.
Proof.
  intros. unfold u64. apply Z.mod_small. rewrite Z.shiftl_mul_pow2 by done.
  pose proof (bits_bound v o w ltac:(done)).
  pose proof (Z.pow_le_mono_r 2 (w + k) 64 ltac:(lia) ltac:(lia)) as Hp.
  rewrite Z.pow_add_r in Hp by done. nia.
Qed.

Lemma fe_load_fields s :
  bytes s -> length s = 32%nat ->
  fe_load s = Ok (shift_all (bit_fields (le_val s) 0 load_widths)).
Proof.
  intros Hs Hl. unfold fe_load.
  repeat (rewrite load_4_ok by (done || lia)); repeat (rewrite load_3_ok by (done || lia)).
  cbn [bind]. f_equal. change 8388607 with (2 ^ 23 - 1). rewrite (Z.land_comm (bits _ _ _)).
  rewrite land_bits by lia. rewrite !u64_shiftl by lia. done.
Qed.

Lemma fe_load_full_fields s :
  bytes s -> length s = 32%nat ->
  fe_load_full s = Ok (shift_all (bit_fields (le_val s) 0 load_full_widths)).
Proof.
  intros Hs Hl. unfold fe_load_full.
  repeat (rewrite load_4_ok by (done || lia)); repeat (rewrite load_3_ok by (done || lia)).
  cbn [bind]. f_equal. rewrite !u64_shiftl by lia. done.
Qed.

Lemma eval_shift_all ws v :
  ws = load_widths \/ ws = load_full_widths ->
  eval fe_weights (shift_all (bit_fields v 0 ws)) = bits v 0 (total ws).
Proof.
  intros Hws.
  rewrite <- (positional_bit_fields v 0 ws) by (destruct Hws as [-> | ->]; repeat constructor; lia).
  destruct Hws as [-> | ->]; unfold shift_all, load_shifts, load_widths, load_full_widths;
    cbn [bit_fields zip_with eval positional fe_weights];
    rewrite !Z.shiftl_mul_pow2 by lia; ring.
Qed.

Lemma shift_all_in ws v :
  ws = load_widths \/ ws = load_full_widths -> in_ivs (shift_all (bit_fields v 0 ws)) load_in.
Proof.
  intros [-> | ->]; unfold load_in, shift_all, load_shifts, load_widths, load_full_widths;
    cbn [bit_fields zip_with fmap list_fmap]; repeat constructor; cbn [fst snd];
    rewrite Z.shiftl_mul_pow2 by lia;
    match goal with |- context [bits ?v ?o ?w] => pose proof (bits_bound v o w ltac:(done)) end; lia.
Qed.

Lemma fe_load_carry_spec h :
  in_ivs h load_in ->
  returns (fe_load_carry h) (fun r => fe_bounded 101 r /\ fe_val r =ₚ eval fe_weights h).
Proof.
  intros Hh. unfold fe_load_carry. fe_wrap. do 9 fe_round.
  eapply returns_mono; [eapply fe_store_spec; [eassumption | vm_compute; reflexivity]|].
  intros r [Hr Hl]. split; [done|]. unfold fe_val. rewrite Hl. congruence.
Qed.

Lemma fe_load_spec s :
  bytes s -> length s = 32%nat ->
  returns (fe_load s) (fun h => in_ivs h load_in /\ eval fe_weights h = le_val s mod 2 ^ 255 /\
    (fe_noncanonical h = true <-> p <= le_val s mod 2 ^ 255)).
Proof.
  intros Hs Hl. rewrite fe_load_fields by done. apply returns_ok. split; [apply shift_all_in; auto|].
  split; [rewrite eval_shift_all by auto; unfold bits; by rewrite Z.shiftr_0_r|].
  assert (positional load_widths (bit_fields (le_val s) 0 load_widths) = le_val s mod 2 ^ 255) as HV.
  { rewrite positional_bit_fields by (done || (repeat constructor; lia)).
    unfold bits. by rewrite Z.shiftr_0_r. }
  rewrite <- HV. clear HV. unfold load_widths, shift_all, load_shifts, p.
  cbn [bit_fields zip_with positional]. unfold fe_noncanonical.
  repeat match goal with |- context [bits ?v ?o ?w] =>
    pose proof (bits_bound v o w ltac:(done)); generalize dependent (bits v o w); intros end.
  rewrite !Z.shiftl_mul_pow2 by lia. clear Hs Hl.
  rewrite !andb_true_iff, !Z.eqb_eq, Z.leb_le. split; [intros; destruct_and!; lia|].
  intros H'. repeat split; lia.
Qed.

Lemma fe_load_full_spec s :
  bytes s -> length s = 32%nat ->
  returns (fe_load_full s) (fun h => in_ivs h load_in /\ eval fe_weights h = le_val s).
Proof.
  intros Hs Hl. rewrite fe_load_full_fields by done. apply returns_ok. split; [apply shift_all_in; auto|].
  rewrite eval_shift_all by auto. apply bits_all. pose proof (le_val_bound _ Hs) as H.
  rewrite Hl in H. done.
Qed.
