(* ===== verification/Scalar.v ===== *)
(** * Scalar arithmetic modulo the group order

    The [sc_*] functions of [src/src/crypto/crypto-ops.c] and
    [src/src/ringct/rctCryptoOps.c].  A scalar is a 32-byte little-endian string;
    inside the functions it is kept in 21-bit limbs [s0, s1, ...].  All of them
    end with the same statements, which are the definitions [sc_finish],
    [sc_reduce_12] and [sc_reduce_24]. *)

From stdpp Require Import base list numbers.
From Stdlib Require Import ZArith Lia.
From S2P Require Import Prelude Bytes Limbs Field.

(** ** Loading and storing *)

(** [a0 = 2097151 & load_3(a), ..., a11 = load_4(a + 28) >> 7]. *)
Definition sc_load (s : list Z) : result (list Z) :=
  let! t := load_3 s 0 in
  let s0 := Z.land 2097151 t in
  let! t := load_4 s 2 in
  let s1 := Z.land 2097151 (Z.shiftr t 5) in
  let! t := load_3 s 5 in
  let s2 := Z.land 2097151 (Z.shiftr t 2) in
  let! t := load_4 s 7 in
  let s3 := Z.land 2097151 (Z.shiftr t 7) in
  let! t := load_4 s 10 in
  let s4 := Z.land 2097151 (Z.shiftr t 4) in
  let! t := load_3 s 13 in
  let s5 := Z.land 2097151 (Z.shiftr t 1) in
  let! t := load_4 s 15 in
  let s6 := Z.land 2097151 (Z.shiftr t 6) in
  let! t := load_3 s 18 in
  let s7 := Z.land 2097151 (Z.shiftr t 3) in
  let! t := load_3 s 21 in
  let s8 := Z.land 2097151 t in
  let! t := load_4 s 23 in
  let s9 := Z.land 2097151 (Z.shiftr t 5) in
  let! t := load_3 s 26 in
  let s10 := Z.land 2097151 (Z.shiftr t 2) in
  let! t := load_4 s 28 in
  let s11 := Z.shiftr t 7 in
  Ok [s0; s1; s2; s3; s4; s5; s6; s7; s8; s9; s10; s11].

(** The loads of [sc_reduce]. *)
Definition sc_load_64 (s : list Z) : result (list Z) :=
  let! t := load_3 s 0 in
  let s0 := Z.land 2097151 t in
  let! t := load_4 s 2 in
  let s1 := Z.land 2097151 (Z.shiftr t 5) in
  let! t := load_3 s 5 in
  let s2 := Z.land 2097151 (Z.shiftr t 2) in
  let! t := load_4 s 7 in
  let s3 := Z.land 2097151 (Z.shiftr t 7) in
  let! t := load_4 s 10 in
  let s4 := Z.land 2097151 (Z.shiftr t 4) in
  let! t := load_3 s 13 in
  let s5 := Z.land 2097151 (Z.shiftr t 1) in
  let! t := load_4 s 15 in
  let s6 := Z.land 2097151 (Z.shiftr t 6) in
  let! t := load_3 s 18 in
  let s7 := Z.land 2097151 (Z.shiftr t 3) in
  let! t := load_3 s 21 in
  let s8 := Z.land 2097151 t in
  let! t := load_4 s 23 in
  let s9 := Z.land 2097151 (Z.shiftr t 5) in
  let! t := load_3 s 26 in
  let s10 := Z.land 2097151 (Z.shiftr t 2) in
  let! t := load_4 s 28 in
  let s11 := Z.land 2097151 (Z.shiftr t 7) in
  let! t := load_4 s 31 in
  let s12 := Z.land 2097151 (Z.shiftr t 4) in
  let! t := load_3 s 34 in
  let s13 := Z.land 2097151 (Z.shiftr t 1) in
  let! t := load_4 s 36 in
  let s14 := Z.land 2097151 (Z.shiftr t 6) in
  let! t := load_3 s 39 in
  let s15 := Z.land 2097151 (Z.shiftr t 3) in
  let! t := load_3 s 42 in
  let s16 := Z.land 2097151 t in
  let! t := load_4 s 44 in
  let s17 := Z.land 2097151 (Z.shiftr t 5) in
  let! t := load_3 s 47 in
  let s18 := Z.land 2097151 (Z.shiftr t 2) in
  let! t := load_4 s 49 in
  let s19 := Z.land 2097151 (Z.shiftr t 7) in
  let! t := load_4 s 52 in
  let s20 := Z.land 2097151 (Z.shiftr t 4) in
  let! t := load_3 s 55 in
  let s21 := Z.land 2097151 (Z.shiftr t 1) in
  let! t := load_4 s 57 in
  let s22 := Z.land 2097151 (Z.shiftr t 6) in
  let! t := load_4 s 60 in
  let s23 := Z.shiftr t 3 in
  Ok [s0; s1; s2; s3; s4; s5; s6; s7; s8; s9; s10; s11; s12; s13; s14; s15; s16; s17; s18; s19; s20; s21; s22; s23].

(** [s[0] = s0 >> 0; ...; s[31] = s11 >> 17].  The locals [s12, ...] are not read. *)
Definition sc_pack (s : list Z) : result (list Z) :=
  match s with
  | s0 :: s1 :: s2 :: s3 :: s4 :: s5 :: s6 :: s7 :: s8 :: s9 :: s10 :: s11 :: _ =>
    Ok [u8 (Z.shiftr s0 0);
      u8 (Z.shiftr s0 8);
      u8 (Z.lor (Z.shiftr s0 16) (Z.shiftl s1 5));
      u8 (Z.shiftr s1 3);
      u8 (Z.shiftr s1 11);
      u8 (Z.lor (Z.shiftr s1 19) (Z.shiftl s2 2));
      u8 (Z.shiftr s2 6);
      u8 (Z.lor (Z.shiftr s2 14) (Z.shiftl s3 7));
      u8 (Z.shiftr s3 1);
      u8 (Z.shiftr s3 9);
      u8 (Z.lor (Z.shiftr s3 17) (Z.shiftl s4 4));
      u8 (Z.shiftr s4 4);
      u8 (Z.shiftr s4 12);
      u8 (Z.lor (Z.shiftr s4 20) (Z.shiftl s5 1));
      u8 (Z.shiftr s5 7);
      u8 (Z.lor (Z.shiftr s5 15) (Z.shiftl s6 6));
      u8 (Z.shiftr s6 2);
      u8 (Z.shiftr s6 10);
      u8 (Z.lor (Z.shiftr s6 18) (Z.shiftl s7 3));
      u8 (Z.shiftr s7 5);
      u8 (Z.shiftr s7 13);
      u8 (Z.shiftr s8 0);
      u8 (Z.shiftr s8 8);
      u8 (Z.lor (Z.shiftr s8 16) (Z.shiftl s9 5));
      u8 (Z.shiftr s9 3);
      u8 (Z.shiftr s9 11);
      u8 (Z.lor (Z.shiftr s9 19) (Z.shiftl s10 2));
      u8 (Z.shiftr s10 6);
      u8 (Z.lor (Z.shiftr s10 14) (Z.shiftl s11 7));
      u8 (Z.shiftr s11 1);
      u8 (Z.shiftr s11 9);
      u8 (Z.shiftr s11 17)]
  | _ => Fail OutOfBounds
  end.

(** ** Reduction *)

(** [s_(i-12) += s_i * 666643; s_(i-11) += s_i * 470296; s_(i-10) += s_i * 654183;
    s_(i-9) -= s_i * 997805; s_(i-8) += s_i * 136657; s_(i-7) -= s_i * 683901]. *)
Definition fold_limb (i : nat) (s : list Z) : result (list Z) :=
  let! x := get s i in
  let! s := add_mul 64 (i - 12) x 666643 s in
  let! s := add_mul 64 (i - 11) x 470296 s in
  let! s := add_mul 64 (i - 10) x 654183 s in
  let! s := sub_mul 64 (i - 9) x 997805 s in
  let! s := add_mul 64 (i - 8) x 136657 s in
  let! s := sub_mul 64 (i - 7) x 683901 s in
  Ok s.

(** The rounding carries out of [s0, ..., s11]. *)
Definition sc_round (s : list Z) : result (list Z) :=
  let! s := carry_round 64 21 0 s in
  let! s := carry_round 64 21 2 s in
  let! s := carry_round 64 21 4 s in
  let! s := carry_round 64 21 6 s in
  let! s := carry_round 64 21 8 s in
  let! s := carry_round 64 21 10 s in
  let! s := carry_round 64 21 1 s in
  let! s := carry_round 64 21 3 s in
  let! s := carry_round 64 21 5 s in
  let! s := carry_round 64 21 7 s in
  let! s := carry_round 64 21 9 s in
  let! s := carry_round 64 21 11 s in
  Ok s.

(** The floor carries out of [s0, ..., s10]. *)
Definition sc_floor (s : list Z) : result (list Z) :=
  let! s := carry_floor 64 21 0 s in
  let! s := carry_floor 64 21 1 s in
  let! s := carry_floor 64 21 2 s in
  let! s := carry_floor 64 21 3 s in
  let! s := carry_floor 64 21 4 s in
  let! s := carry_floor 64 21 5 s in
  let! s := carry_floor 64 21 6 s in
  let! s := carry_floor 64 21 7 s in
  let! s := carry_floor 64 21 8 s in
  let! s := carry_floor 64 21 9 s in
  let! s := carry_floor 64 21 10 s in
  Ok s.

(** From [s0 += s12 * 666643], after the rounding carries, to the last carry. *)
Definition sc_finish (s : list Z) : result (list Z) :=
  let! s := fold_limb 12 s in
  let! s := set s 12 0 in
  let! s := sc_floor s in
  let! s := carry_floor 64 21 11 s in
  let! s := fold_limb 12 s in
  sc_floor s.

(** From the first carry of [sc_reduce32], with [s12 = 0]. *)
Definition sc_reduce_12 (s : list Z) : result (list Z) :=
  let! s := sc_round s in
  let! s := sc_finish s in
  sc_pack s.

(** [s23, ..., s18] folded and carried, as after the loads of [sc_reduce]. *)
Definition sc_fold_high (s : list Z) : result (list Z) :=
  let! s := fold_limb 23 s in
  let! s := fold_limb 22 s in
  let! s := fold_limb 21 s in
  let! s := fold_limb 20 s in
  let! s := fold_limb 19 s in
  let! s := fold_limb 18 s in
  let! s := carry_round 64 21 6 s in
  let! s := carry_round 64 21 8 s in
  let! s := carry_round 64 21 10 s in
  let! s := carry_round 64 21 12 s in
  let! s := carry_round 64 21 14 s in
  let! s := carry_round 64 21 16 s in
  let! s := carry_round 64 21 7 s in
  let! s := carry_round 64 21 9 s in
  let! s := carry_round 64 21 11 s in
  let! s := carry_round 64 21 13 s in
  let! s := carry_round 64 21 15 s in
  Ok s.

(** [s17, ..., s12] folded and [s12] cleared. *)
Definition sc_fold_mid (s : list Z) : result (list Z) :=
  let! s := fold_limb 17 s in
  let! s := fold_limb 16 s in
  let! s := fold_limb 15 s in
  let! s := fold_limb 14 s in
  let! s := fold_limb 13 s in
  let! s := fold_limb 12 s in
  set s 12 0.

Definition sc_reduce_24 (s : list Z) : result (list Z) :=
  let! s := sc_fold_high s in
  let! s := sc_fold_mid s in
  sc_reduce_12 s.

Definition sc_0 : list Z := replicate 32 0.

Definition sc_reduce (s : list Z) : result (list Z) :=
  let! s := sc_load_64 s in
  sc_reduce_24 s.

Definition sc_reduce32 (s : list Z) : result (list Z) :=
  let! s := sc_load s in
  sc_reduce_12 (s ++ [0]).

(** The copy in [rctCryptoOps.c] writes its result to [scopy]. *)
Definition sc_reduce32copy (s : list Z) : result (list Z) :=
  let! s := sc_load s in
  let! s := sc_round (s ++ [0]) in
  let! s := sc_finish s in
  let! scopy := sc_pack s in
  Ok scopy.

(** ** Limb-wise arithmetic *)
Fixpoint zipR (f : Z -> Z -> result Z) (a b : list Z) : result (list Z) :=
  match a, b with
  | x :: a, y :: b => let! z := f x y in let! r := zipR f a b in Ok (z :: r)
  | _, _ => Ok []
  end.

Fixpoint mapR {A} (f : A -> result Z) (l : list A) : result (list Z) :=
  match l with
  | [] => Ok []
  | x :: l => let! z := f x in let! r := mapR f l in Ok (z :: r)
  end.

(** [x + a0*b0 + a1*b1 + ...], from the left. *)
Fixpoint dot_from (x : Z) (a b : list Z) : result Z :=
  match a, b with
  | u :: a, v :: b =>
      let! t := i64 (u * v) in
      let! x := i64 (x + t) in
      dot_from x a b
  | _, _ => Ok x
  end.

(** [a0*b0 + a1*b1 + ...]. *)
Definition dot64 (a b : list Z) : result Z :=
  match a, b with
  | u :: a, v :: b => let! t := i64 (u * v) in dot_from t a b
  | _, _ => Ok 0
  end.

(** The factors of [a_i * b_j] with [i + j = k], [i] ascending. *)
Definition conv_left (k : nat) (a : list Z) : list Z :=
  take (S (k `min` 11) - (k - 11)) (drop (k - 11) a).
Definition conv_right (k : nat) (b : list Z) : list Z :=
  reverse (take (S (k `min` 11) - (k - 11)) (drop (k - 11) b)).

Definition conv (k : nat) (a b : list Z) : result Z := dot64 (conv_left k a) (conv_right k b).

(** The sums of products that [sc_mul], [sc_muladd] and [sc_mulsub] assign to
    [s0, ..., s22]. *)
Definition products (a b : list Z) : result (list Z) := mapR (fun k => conv k a b) (seq 0 23).

Definition sc_add (a b : list Z) : result (list Z) :=
  let! a := sc_load a in
  let! b := sc_load b in
  let! s := zipR (fun x y => i64 (x + y)) a b in
  sc_reduce_12 (s ++ [0]).

Definition sc_sub (a b : list Z) : result (list Z) :=
  let! a := sc_load a in
  let! b := sc_load b in
  let! s := zipR (fun x y => i64 (x - y)) a b in
  sc_reduce_12 (s ++ [0]).

(** The carries that follow the products. *)
Definition sc_round_24 (s : list Z) : result (list Z) :=
  let! s := carry_round 64 21 0 s in
  let! s := carry_round 64 21 2 s in
  let! s := carry_round 64 21 4 s in
  let! s := carry_round 64 21 6 s in
  let! s := carry_round 64 21 8 s in
  let! s := carry_round 64 21 10 s in
  let! s := carry_round 64 21 12 s in
  let! s := carry_round 64 21 14 s in
  let! s := carry_round 64 21 16 s in
  let! s := carry_round 64 21 18 s in
  let! s := carry_round 64 21 20 s in
  let! s := carry_round 64 21 22 s in
  let! s := carry_round 64 21 1 s in
  let! s := carry_round 64 21 3 s in
  let! s := carry_round 64 21 5 s in
  let! s := carry_round 64 21 7 s in
  let! s := carry_round 64 21 9 s in
  let! s := carry_round 64 21 11 s in
  let! s := carry_round 64 21 13 s in
  let! s := carry_round 64 21 15 s in
  let! s := carry_round 64 21 17 s in
  let! s := carry_round 64 21 19 s in
  let! s := carry_round 64 21 21 s in
  Ok s.

(** [s0 = a0*b0; ...; s23 = 0]. *)
Definition sc_mul_limbs (a b : list Z) : result (list Z) :=
  let! a := sc_load a in
  let! b := sc_load b in
  let! s := products a b in
  Ok (s ++ [0]).

Definition sc_mul (a b : list Z) : result (list Z) :=
  let! s := sc_mul_limbs a b in
  let! s := sc_round_24 s in
  sc_reduce_24 s.

(** [s0 = c0 + a0*b0; ...; s12 = a1*b11 + ...; ...; s23 = 0]. *)
Definition sc_muladd_limbs (a b c : list Z) : result (list Z) :=
  let! a := sc_load a in
  let! b := sc_load b in
  let! c := sc_load c in
  let! s := products a b in
  let! low := zipR (fun x y => i64 (x + y)) c (take 12 s) in
  Ok (low ++ drop 12 s ++ [0]).

Definition sc_muladd (a b c : list Z) : result (list Z) :=
  let! s := sc_muladd_limbs a b c in
  let! s := sc_round_24 s in
  sc_reduce_24 s.

(** [s0 = c0 - a0*b0; ...; s12 = -(a1*b11 + ...); ...; s22 = -a11*b11; s23 = 0]. *)
Definition sc_mulsub_limbs (a b c : list Z) : result (list Z) :=
  let! a := sc_load a in
  let! b := sc_load b in
  let! c := sc_load c in
  let! s := products a b in
  let! low := zipR (fun x y => i64 (x - y)) c (take 12 s) in
  let! mid := mapR (fun x => i64 (- x)) (take 10 (drop 12 s)) in
  let! a11 := get a 11 in
  let! b11 := get b 11 in
  let! m := i64 (- a11) in
  let! s22 := i64 (m * b11) in
  Ok (low ++ mid ++ [s22; 0]).

Definition sc_mulsub (a b c : list Z) : result (list Z) :=
  let! s := sc_mulsub_limbs a b c in
  let! s := sc_round_24 s in
  sc_reduce_24 s.

(** ** Tests *)

(** [(a >> 63) - ((-a) >> 63)] *)
Definition signum (a : Z) : result Z :=
  let! m := i64 (- a) in
  i64 (Z.shiftr a 63 - Z.shiftr m 63).

(** The limbs of [l - 1] that [sc_check] compares with. *)
Definition sc_check_limbs : list Z :=
  [1559614444; 1477600026; 2734136534; 350157278; 0; 0; 0; 268435456].

(** [signum(c0 - s0) + (signum(c1 - s1) << 1) + ...], where [k] is the shift of
    the first term. *)
Fixpoint signums (k acc : Z) (c s : list Z) : result Z :=
  match c, s with
  | x :: c, y :: s =>
      let! d := i64 (x - y) in
      let! g := signum d in
      let! g := i64 (Z.shiftl g k) in
      let! acc := i64 (acc + g) in
      signums (k + 1) acc c s
  | _, _ => Ok acc
  end.

Definition sc_check (s : list Z) : result Z :=
  let! s0 := load_4 s 0 in
  let! s1 := load_4 s 4 in
  let! s2 := load_4 s 8 in
  let! s3 := load_4 s 12 in
  let! s4 := load_4 s 16 in
  let! s5 := load_4 s 20 in
  let! s6 := load_4 s 24 in
  let! s7 := load_4 s 28 in
  let! t := signums 0 0 sc_check_limbs [s0; s1; s2; s3; s4; s5; s6; s7] in
  Ok (to_i32 (Z.shiftr t 8)).

Definition sc_isnonzero (s : list Z) : Z := nonzero_bytes s.
