(* ===== verification/ScalarFacts.v ===== *)
(** * Correctness of the scalar arithmetic *)

From stdpp Require Import base list numbers.
From Stdlib Require Import ZArith Lia.
From S2P Require Import Prelude Bytes Limbs Field FieldBytes Scalar.

(** The order of the base point. *)
Definition l : Z := 2 ^ 252 + 27742317777372353535851937790883648493.

Definition sc_weights (n : nat) : list Z := (fun k => 2 ^ (21 * Z.of_nat k)) <$> seq 0 n.
Definition sc_widths : list Z := replicate 11 21 ++ [25].
Definition sc_widths_64 : list Z := replicate 23 21 ++ [29].

(** ** Congruence modulo the order *)
Definition eql (x y : Z) : Prop := x mod l = y mod l.
Infix "=ₗ" := eql (at level 70) : Z_scope.

#[export] Instance eql_equiv : Equivalence eql.
Proof. split; unfold eql; repeat intro; congruence. Qed.

Lemma eql_shift x y k : x = y - k * l -> x =ₗ y.
Proof. intros ->. unfold eql. by rewrite <- Z.add_opp_r, <- Z.mul_opp_l, Z.mod_add. Qed.

(** ** Weights *)
Lemma sc_weights_S n : sc_weights (S n) = sc_weights n ++ [2 ^ (21 * Z.of_nat n)].
Proof. unfold sc_weights. by rewrite seq_S, fmap_app. Qed.

Lemma sc_weights_length n : length (sc_weights n) = n.
Proof. unfold sc_weights. by rewrite length_fmap, length_seq. Qed.

Lemma sc_weights_nth n k : (k < n)%nat -> nth k (sc_weights n) 0 = 2 ^ (21 * Z.of_nat k).
Proof.
  intros Hk. apply nth_lookup_Some. unfold sc_weights. rewrite list_lookup_fmap, lookup_seq_lt by done. done.
Qed.

Lemma eval_app ws w s x : s !! length ws = Some x -> eval (ws ++ [w]) s = eval ws s + w * x.
Proof.
  revert s. induction ws as [|v ws IH]; intros [|y s] Hx; try done; simpl in *.
  - simplify_eq. lia.
  - rewrite (IH s) by done. lia.
Qed.

Lemma eval_S n s x :
  s !! n = Some x -> eval (sc_weights (S n)) s = eval (sc_weights n) s + 2 ^ (21 * Z.of_nat n) * x.
Proof. intros Hx. rewrite sc_weights_S. apply eval_app. by rewrite sc_weights_length. Qed.

(** ** Folding a limb *)
Definition iv_fold_limb (i : nat) (A : list iv) : option (list iv) :=
  x ← A !! i;
  A ← iv_add_mul 64 (i - 12) x 666643 A;
  A ← iv_add_mul 64 (i - 11) x 470296 A;
  A ← iv_add_mul 64 (i - 10) x 654183 A;
  A ← iv_sub_mul 64 (i - 9) x 997805 A;
  A ← iv_add_mul 64 (i - 8) x 136657 A;
  iv_sub_mul 64 (i - 7) x 683901 A.

Lemma bumped_lookup s s' j x i : bumped s s' j x -> i <> j -> s' !! i = s !! i.
Proof. intros (b & _ & ->) Hij. by rewrite list_lookup_insert_ne. Qed.

Lemma fold_limb_spec i s A A' :
  (12 <= i)%nat -> in_ivs s A -> iv_fold_limb i A = Some A' ->
  returns (fold_limb i s) (fun s' => in_ivs s' A' /\ exists x, s !! i = Some x /\
    eval (sc_weights i) s' = eval (sc_weights (S i)) s - x * 2 ^ (21 * (Z.of_nat i - 12)) * l).
Proof.
  intros Hi Hs HA. unfold iv_fold_limb in HA. unfold fold_limb.
  destruct (A !! i) as [xi|] eqn:Ei; [cbn [mbind option_bind] in HA|done].
  destruct (in_ivs_lookup _ _ _ _ Hs Ei) as (x & Hx & Hxi).
  rewrite (get_ok _ _ _ Hx). cbn [bind].
  do 5 (match type of HA with (?m ≫= _) = _ => let E := fresh "E" in
    destruct m eqn:E; [cbn [mbind option_bind] in HA|done] end).
  do 6 (eapply returns_bind; [first [eapply add_mul_sound | eapply sub_mul_sound]; eassumption|];
    let H := fresh "B" in intros ? [? H]; apply (eval_bumped (sc_weights i)) in H).
  apply returns_ok. split; [done|]. exists x. split; [done|].
  rewrite (eval_S _ _ _ Hx), B4, B3, B2, B1, B0, B. clear B4 B3 B2 B1 B0 B.
  rewrite !sc_weights_nth by lia.
  set (b := 2 ^ (21 * (Z.of_nat i - 12))).
  assert (forall j, (j <= 12)%nat -> 2 ^ (21 * Z.of_nat (i - (12 - j))) = 2 ^ (21 * Z.of_nat j) * b) as Hb.
  { intros j Hj. unfold b. rewrite <- Z.pow_add_r by lia. f_equal. lia. }
  pose proof (Hb 0%nat ltac:(lia)) as P0. pose proof (Hb 1%nat ltac:(lia)) as P1.
  pose proof (Hb 2%nat ltac:(lia)) as P2. pose proof (Hb 3%nat ltac:(lia)) as P3.
  pose proof (Hb 4%nat ltac:(lia)) as P4. pose proof (Hb 5%nat ltac:(lia)) as P5.
  pose proof (Hb 12%nat ltac:(lia)) as P12. simpl in P0, P1, P2, P3, P4, P5, P12.
  rewrite Nat.sub_0_r in P12. rewrite P0, P1, P2, P3, P4, P5, P12. unfold l.
  change (21 * Z.of_nat 0) with 0. change (21 * Z.of_nat 1) with 21. change (21 * Z.of_nat 2) with 42.
  change (21 * Z.of_nat 3) with 63. change (21 * Z.of_nat 4) with 84. change (21 * Z.of_nat 5) with 105.
  change (21 * Z.of_nat 12) with 252. ring.
Qed.

(** ** The reduction *)
Ltac sc_carry lem n := limb_carry (lem 64) (sc_weights n).

Ltac sc_fold :=
  let s := fresh "s" in let Hs := fresh "Hs" in let x := fresh "x" in
  let Hx := fresh "Hx" in let Hv := fresh "Hv" in
  eapply returns_bind; [eapply fold_limb_spec; [lia | eassumption | vm_compute; reflexivity]|];
  intros s (Hs & x & Hx & Hv).

Definition wide_iv : iv := (- 2 ^ 54, 2 ^ 54).

(** Twelve wide limbs, [s12 = 0], and dead locals [D]. *)
Definition reduce_in (D : list iv) : list iv := replicate 12 wide_iv ++ (0, 0) :: D.

Definition even_iv : iv := (- 2 ^ 20 - 2 ^ 34, 2 ^ 20 + 2 ^ 34).
Definition odd_iv : iv := (- 2 ^ 20, 2 ^ 20).

(** The limbs after the rounding carries. *)
Definition rounded (D : list iv) : list iv :=
  [odd_iv; odd_iv; even_iv; odd_iv; even_iv; odd_iv; even_iv; odd_iv; even_iv; odd_iv; even_iv; odd_iv;
   (- 2 ^ 34, 2 ^ 34)] ++ D.

Lemma in_ivs_prefix s A B D :
  in_ivs s (A ++ D) -> bool_decide (Forall2 (fun a b => b.1 <= a.1 /\ a.2 <= b.2) A B) = true ->
  in_ivs s (B ++ D).
Proof.
  intros H HB%bool_decide_eq_true. revert s H.
  induction HB as [|a b A B Hab HB IH]; intros s H; [done|].
  apply Forall2_cons_inv_r in H as (x & s' & Hx & H & ->).
  constructor; [unfold inside in *; lia|]. by apply IH.
Qed.

Lemma sc_round_spec s D :
  in_ivs s (reduce_in D) ->
  returns (sc_round s) (fun s' => in_ivs s' (rounded D) /\
    eval (sc_weights 13) s' = eval (sc_weights 13) s).
Proof.
  intros Hs. unfold sc_round. unfold reduce_in in Hs. cbn [replicate app] in Hs.
  do 12 sc_carry carry_round_spec 13%nat.
  apply returns_ok. split; [|congruence].
  eapply (in_ivs_prefix _ [_; _; _; _; _; _; _; _; _; _; _; _; _]);
    [cbn [app]; eassumption | vm_compute; reflexivity].
Qed.

Lemma sc_weights_nonneg n : Forall (Z.le 0) (sc_weights n).
Proof. apply Forall_fmap, Forall_true. intros k. simpl. lia. Qed.

(** The value of a vector lies between those of its lower and upper bounds. *)
Lemma eval_bounds ws s A :
  Forall (Z.le 0) ws -> in_ivs s A -> eval ws (A.*1) <= eval ws s <= eval ws (A.*2).
Proof.
  intros Hws. revert s A. induction Hws as [|w ws Hw Hws IH]; intros s A H; [simpl; lia|].
  destruct H as [|x a s A Hx H]; [simpl; lia|]. apply IH in H. unfold inside in Hx.
  rewrite !fmap_cons. cbn [eval].
  pose proof (Z.mul_le_mono_nonneg_l a.1 x w Hw ltac:(lia)).
  pose proof (Z.mul_le_mono_nonneg_l x a.2 w Hw ltac:(lia)). lia.
Qed.

Lemma eval_within n s A lo hi :
  in_ivs s A ->
  (lo <? eval (sc_weights n) (A.*1)) && (eval (sc_weights n) (A.*2) <? hi) = true ->
  lo < eval (sc_weights n) s < hi.
Proof. intros Hs Hb. pose proof (eval_bounds _ _ _ (sc_weights_nonneg n) Hs). lia. Qed.

Definition digit21 : iv := (0, 2 ^ 21 - 1).

Lemma set_spec s A i x :
  in_ivs s A -> (i < length A)%nat ->
  returns (set s i x) (fun s' => in_ivs s' (<[i := (x, x)]> A) /\ s' = <[i := x]> s).
Proof.
  intros Hs Hi. rewrite set_ok by (by rewrite (Forall2_length Hs)). simpl.
  split; [|done]. apply in_ivs_insert; [done|]. unfold inside. simpl. lia.
Qed.

Lemma eval_insert_high n s i x : (n <= i)%nat -> eval (sc_weights n) (<[i := x]> s) = eval (sc_weights n) s.
Proof.
  intros Hn. destruct (s !! i) as [a|] eqn:E.
  - rewrite (eval_insert _ _ _ a) by done. rewrite nth_overflow; [lia|]. by rewrite sc_weights_length.
  - rewrite list_insert_ge; [done|]. by apply lookup_ge_None.
Qed.

(** [s12 = 0] adds a limb without changing the value. *)
Lemma eval_clear n s :
  (n < length s)%nat -> eval (sc_weights (S n)) (<[n := 0]> s) = eval (sc_weights n) s.
Proof.
  intros Hn. rewrite (eval_S _ _ 0) by (by apply list_lookup_insert_eq).
  rewrite eval_insert_high by done. lia.
Qed.

(** The limbs before and after the floor carries. *)
Definition unfloored : list iv := replicate 6 (- 2 ^ 55, 2 ^ 55) ++ replicate 6 (- 2 ^ 35, 2 ^ 35).
Definition floored (a : iv) : list iv := replicate 11 digit21 ++ [a].

Lemma sc_floor_spec s D :
  in_ivs s (unfloored ++ D) ->
  returns (sc_floor s) (fun s' => in_ivs s' (floored (- 2 ^ 36, 2 ^ 36) ++ D) /\
    eval (sc_weights 12) s' = eval (sc_weights 12) s).
Proof.
  intros Hs. unfold sc_floor. unfold unfloored in Hs. cbn [replicate app] in Hs.
  do 11 sc_carry carry_floor_spec 12%nat.
  apply returns_ok. split; [|congruence].
  eapply (in_ivs_prefix _ [_; _; _; _; _; _; _; _; _; _; _; _]);
    [cbn [app]; eassumption | vm_compute; reflexivity].
Qed.

Lemma in_ivs_at s A D i x : in_ivs s (A ++ D) -> A !! i = Some (x, x) -> s !! i = Some x.
Proof.
  intros Hs Hi. destruct (in_ivs_lookup s (A ++ D) i (x, x) Hs) as (y & Hy & [? ?]).
  { by apply lookup_app_l_Some. }
  simpl in *. rewrite Hy. f_equal. lia.
Qed.

(** The first half of [sc_finish] leaves a value in [(-2^252, 2^252)]. *)
Lemma sc_finish_first s D :
  in_ivs s (rounded D) ->
  returns (let! s := fold_limb 12 s in let! s := set s 12 0 in
           let! s := sc_floor s in carry_floor 64 21 11 s)
    (fun s' => in_ivs s' (floored digit21 ++ (- 2 ^ 16, 2 ^ 16) :: D) /\
       - 2 ^ 252 < eval (sc_weights 13) s' < 2 ^ 252 /\
       exists k, eval (sc_weights 13) s' = eval (sc_weights 13) s - k * l).
Proof.
  intros Hs. unfold rounded in Hs. cbn [app] in Hs. sc_fold.
  eapply returns_bind; [eapply set_spec; [eassumption | cbn [length]; lia]|].
  intros s1 [Hs1 ->]. cbn [insert list_insert] in Hs1.
  assert (- 2 ^ 252 < eval (sc_weights 12) (<[12%nat := 0]> s0) < 2 ^ 252) as Hb
    by (eapply eval_within; [exact Hs1 | vm_compute; reflexivity]).
  rewrite eval_insert_high in Hb by done.
  eapply returns_bind.
  { apply (sc_floor_spec _ ((0, 0) :: D)).
    eapply (in_ivs_prefix _ [_; _; _; _; _; _; _; _; _; _; _; _]);
      [cbn [app]; eassumption | vm_compute; reflexivity]. }
  intros s2 [Hs2 Hv2]. rewrite eval_insert_high in Hv2 by done.
  assert (s2 !! 12%nat = Some 0) as E12
    by (eapply (in_ivs_at _ (floored _ ++ [(0, 0)]) D); [by rewrite <- app_assoc | done]).
  eapply returns_mono.
  { eapply (carry_floor_spec 64 (sc_weights 13)); [exact Hs2 | vm_compute; reflexivity | vm_compute; reflexivity]. }
  intros s3 [Hs3 Hv3]. rewrite (eval_S _ _ _ E12), Hv2, Z.mul_0_r, Z.add_0_r in Hv3.
  split_and!; [|lia|lia|].
  - eapply (in_ivs_prefix _ [_; _; _; _; _; _; _; _; _; _; _; _; _] (floored digit21 ++ [_]) D);
      [cbn [app]; eassumption | vm_compute; reflexivity].
  - exists x. rewrite Hv3, Hv. lia.
Qed.

(** The second half subtracts the last multiple of [l]. *)
Lemma sc_finish_second s D :
  in_ivs s (floored digit21 ++ (- 2 ^ 16, 2 ^ 16) :: D) -> - 2 ^ 252 < eval (sc_weights 13) s < 2 ^ 252 ->
  returns (let! s := fold_limb 12 s in sc_floor s)
    (fun s' => in_ivs s' (floored (- 2 ^ 36, 2 ^ 36) ++ (- 2 ^ 16, 2 ^ 16) :: D) /\
       0 <= eval (sc_weights 12) s' < l /\
       exists k, eval (sc_weights 12) s' = eval (sc_weights 13) s - k * l).
Proof.
  intros Hs Hb.
  assert (-1 < eval (sc_weights 12) s < 2 ^ 252) as H12
    by (eapply eval_within; [exact Hs | vm_compute; reflexivity]).
  sc_fold. rewrite (eval_S _ _ _ Hx) in Hv, Hb.
  eapply returns_mono.
  { apply (sc_floor_spec _ ((- 2 ^ 16, 2 ^ 16) :: D)).
    eapply (in_ivs_prefix _ [_; _; _; _; _; _; _; _; _; _; _; _]);
      [cbn [app]; eassumption | vm_compute; reflexivity]. }
  intros s1 [Hs1 Hv1]. split; [done|]. rewrite Hv1, Hv, (eval_S _ _ _ Hx).
  change (21 * Z.of_nat 12) with 252 in *. change (2 ^ (21 * (Z.of_nat 12 - 12))) with 1.
  assert (x = -1 \/ x = 0) as Hx' by lia. split; [unfold l; destruct Hx'; subst; lia|].
  exists x. lia.
Qed.

Lemma sc_finish_spec s D :
  in_ivs s (rounded D) ->
  returns (sc_finish s) (fun s' => in_ivs s' (floored (- 2 ^ 36, 2 ^ 36) ++ (- 2 ^ 16, 2 ^ 16) :: D) /\
    eval (sc_weights 12) s' = eval (sc_weights 13) s mod l).
Proof.
  intros Hs. pose proof (sc_finish_first _ _ Hs) as H1.
  unfold sc_finish.
  destruct (fold_limb 12 s) as [t|]; [cbn [bind] in *|done].
  destruct (set t 12 0) as [t1|]; [cbn [bind] in *|done].
  destruct (sc_floor t1) as [t2|]; [cbn [bind] in *|done].
  eapply returns_bind; [exact H1|].
  intros s1 (Hs1 & Hb1 & k1 & Hv1). eapply returns_mono; [by apply sc_finish_second|].
  intros s2 (Hs2 & Hb2 & k2 & Hv2). split; [done|].
  apply (Z.mod_unique _ _ (k1 + k2)); lia.
Qed.

(** ** Storing the result *)
(** Digits that are [21] bits wide, but for the last, have the weights of the limbs. *)
Lemma eval_positional_21 j n w hs :
  length hs = S n ->
  eval ((fun k => 2 ^ (21 * Z.of_nat k)) <$> seq j (S n)) hs =
  2 ^ (21 * Z.of_nat j) * positional (replicate n 21 ++ [w]) hs.
Proof.
  revert j hs. induction n as [|n IH]; intros j hs Hl.
  - destruct hs as [|h [|]]; [done| |done]. cbn [seq fmap list_fmap eval replicate app positional]. ring.
  - destruct hs as [|h hs]; [done|]. cbn [length] in Hl.
    change (seq j (S (S n))) with (j :: seq (S j) (S n)). rewrite fmap_cons. cbn [eval].
    rewrite IH by lia. cbn [replicate app positional].
    replace (21 * Z.of_nat (S j)) with (21 + 21 * Z.of_nat j) by lia. rewrite Z.pow_add_r by lia. ring.
Qed.

Lemma eval_take n s : eval (sc_weights n) (take n s) = eval (sc_weights n) s.
Proof.
  rewrite <- (sc_weights_length n) at 2. generalize (sc_weights n) as ws. intros ws. revert s.
  induction ws as [|w ws IH]; intros [|x s]; try done. simpl. by rewrite IH.
Qed.

Lemma eval_sc_positional s :
  (12 <= length s)%nat -> eval (sc_weights 12) s = positional sc_widths (take 12 s).
Proof.
  intros Hl. rewrite <- eval_take. unfold sc_weights.
  rewrite (eval_positional_21 0 11 25); [by rewrite Z.mul_1_l|]. rewrite length_take. lia.
Qed.

Lemma sc_pack_fields v s :
  0 <= v < 2 ^ 256 -> take 12 s = bit_fields v 0 sc_widths -> sc_pack s = Ok (le_bytes 32 v).
Proof.
  intros Hv Hs. do 12 (destruct s as [|? s]; [done|]).
  cbn [take sc_widths replicate app bit_fields] in Hs. simplify_eq.
  rewrite le_bytes_alt. unfold sc_pack. cbn [seq fmap list_fmap].
  f_equal. repeat (apply (f_equal2 cons);
    [first [by apply (pack_one v) | by apply (pack_two v) | by apply (pack_last v)]|]).
  done.
Qed.

Lemma sc_pack_spec s D :
  in_ivs s (floored (- 2 ^ 36, 2 ^ 36) ++ D) -> 0 <= eval (sc_weights 12) s < l ->
  sc_pack s = Ok (le_bytes 32 (eval (sc_weights 12) s)).
Proof.
  intros Hs Hv. pose proof (Forall2_length Hs) as Hl. rewrite length_app in Hl. simpl in Hl.
  apply sc_pack_fields; [unfold l in *; lia|].
  rewrite eval_sc_positional in * by lia. symmetry. apply bit_fields_positional.
  unfold floored in Hs. cbn [replicate app] in Hs.
  do 12 (apply Forall2_cons_inv_r in Hs as (? & ? & ? & Hs & ->)).
  cbn [take sc_widths replicate app positional] in *. unfold inside, digit21, l in *. cbn [fst snd] in *.
  repeat constructor; lia.
Qed.

Lemma sc_reduce_12_spec s D :
  in_ivs s (reduce_in D) -> sc_reduce_12 s = Ok (le_bytes 32 (eval (sc_weights 13) s mod l)).
Proof.
  intros Hs. unfold sc_reduce_12.
  pose proof (sc_round_spec _ _ Hs) as (s1 & -> & Hs1 & <-)%returns_inv. cbn [bind].
  pose proof (sc_finish_spec _ _ Hs1) as (s2 & -> & Hs2 & Hv2)%returns_inv. cbn [bind].
  rewrite <- Hv2. eapply sc_pack_spec; [exact Hs2|]. rewrite Hv2. by apply Z.mod_pos_bound.
Qed.

(** ** Reducing a 24-limb value *)
Definition wide_24 : list iv := replicate 24 (- 2 ^ 31, 2 ^ 31).

Lemma eql_fold i s s' x y :
  eval (sc_weights i) s' = eval (sc_weights (S i)) s - x * 2 ^ (21 * (Z.of_nat i - 12)) * l ->
  eval (sc_weights (S i)) s =ₗ y -> eval (sc_weights i) s' =ₗ y.
Proof. intros Hf <-. by apply eql_shift in Hf. Qed.

Lemma eql_same x y z : x = y -> y =ₗ z -> x =ₗ z.
Proof. by intros ->. Qed.

(** Chains the congruences of a sequence of folds and carries. *)
Ltac eql_chain :=
  repeat first [ reflexivity | (eapply eql_fold; [eassumption|]) | (eapply eql_same; [eassumption|]) ].

Lemma sc_fold_high_spec s :
  in_ivs s wide_24 ->
  returns (sc_fold_high s) (fun s' => in_ivs s' (replicate 24 (- 2 ^ 32, 2 ^ 32)) /\
    eval (sc_weights 18) s' =ₗ eval (sc_weights 24) s).
Proof.
  intros Hs. unfold sc_fold_high. unfold wide_24 in Hs. cbn [replicate] in Hs.
  do 6 sc_fold. do 11 sc_carry carry_round_spec 18%nat.
  apply returns_ok. split; [|eql_chain].
  rewrite <- (app_nil_r (replicate _ _)). eapply in_ivs_prefix.
  - by erewrite app_nil_r.
  - vm_compute. reflexivity.
Qed.

Lemma sc_fold_mid_spec s :
  in_ivs s (replicate 24 (- 2 ^ 32, 2 ^ 32)) ->
  returns (sc_fold_mid s) (fun s' => in_ivs s' (reduce_in (replicate 11 (- 2 ^ 60, 2 ^ 60))) /\
    eval (sc_weights 13) s' =ₗ eval (sc_weights 18) s).
Proof.
  intros Hs. unfold sc_fold_mid. cbn [replicate] in Hs. do 6 sc_fold.
  eapply returns_mono; [eapply set_spec; [eassumption | cbn [length]; lia]|].
  intros s' [Hs' ->]. split.
  - rewrite <- (app_nil_r (reduce_in _)). eapply in_ivs_prefix.
    + by erewrite app_nil_r.
    + vm_compute. reflexivity.
  - rewrite eval_clear by (erewrite Forall2_length by eassumption; cbn [length]; lia). eql_chain.
Qed.

Lemma sc_reduce_24_spec s :
  in_ivs s wide_24 -> sc_reduce_24 s = Ok (le_bytes 32 (eval (sc_weights 24) s mod l)).
Proof.
  intros Hs. unfold sc_reduce_24.
  pose proof (sc_fold_high_spec _ Hs) as (s1 & -> & Hs1 & <-)%returns_inv. cbn [bind].
  pose proof (sc_fold_mid_spec _ Hs1) as (s2 & -> & Hs2 & <-)%returns_inv. cbn [bind].
  by eapply sc_reduce_12_spec.
Qed.

(** ** Loading *)
Lemma sc_load_fields s :
  bytes s -> length s = 32%nat -> sc_load s = Ok (bit_fields (le_val s) 0 sc_widths).
Proof.
  intros Hs Hl. unfold sc_load.
  repeat (rewrite load_4_ok by (done || lia)); repeat (rewrite load_3_ok by (done || lia)).
  cbn [bind]. f_equal. change 2097151 with (2 ^ 21 - 1).
  rewrite !shiftr_bits by lia. rewrite !land_bits by lia. done.
Qed.

Lemma sc_load_64_fields s :
  bytes s -> length s = 64%nat -> sc_load_64 s = Ok (bit_fields (le_val s) 0 sc_widths_64).
Proof.
  intros Hs Hl. unfold sc_load_64.
  repeat (rewrite load_4_ok by (done || lia)); repeat (rewrite load_3_ok by (done || lia)).
  cbn [bind]. f_equal. change 2097151 with (2 ^ 21 - 1).
  rewrite !shiftr_bits by lia. rewrite !land_bits by lia. done.
Qed.

Lemma bit_fields_in v o ws :
  Forall (Z.le 0) ws -> in_ivs (bit_fields v o ws) (digit_ivs ws).
Proof.
  intros Hws. revert o. induction Hws as [|w ws Hw Hws IH]; intros o; [constructor|].
  unfold digit_ivs. rewrite fmap_cons. cbn [bit_fields]. constructor; [|apply IH].
  pose proof (bits_bound v o w Hw). unfold inside. simpl. lia.
Qed.

Lemma sc_widths_nonneg : Forall (Z.le 0) sc_widths.
Proof. unfold sc_widths. repeat constructor; lia. Qed.

Lemma sc_widths_64_nonneg : Forall (Z.le 0) sc_widths_64.
Proof. unfold sc_widths_64. repeat constructor; lia. Qed.

Lemma sc_fields_length v : length (bit_fields v 0 sc_widths) = 12%nat.
Proof. done. Qed.

Lemma eval_fields v n w :
  0 <= w -> 0 <= v < 2 ^ (21 * Z.of_nat n + w) ->
  eval (sc_weights (S n)) (bit_fields v 0 (replicate n 21 ++ [w])) = v.
Proof.
  intros Hw Hv. assert (Forall (Z.le 0) (replicate n 21 ++ [w])) as Hws.
  { apply Forall_app. split; [apply Forall_replicate; lia|by repeat constructor]. }
  unfold sc_weights. rewrite (eval_positional_21 0 n w).
  - rewrite Z.mul_1_l, positional_bit_fields by done. apply bits_all.
    enough (total (replicate n 21 ++ [w]) = 21 * Z.of_nat n + w) as -> by done.
    clear. unfold total. induction n as [|n IH]; simpl in *; lia.
  - clear. rewrite <- (Z.add_0_l 0). generalize (0 + 0). induction n as [|n IH]; intros o; [done|].
    simpl. f_equal. apply IH.
Qed.

Lemma sc_load_spec s :
  bytes s -> length s = 32%nat ->
  exists a, sc_load s = Ok a /\ in_ivs a (digit_ivs sc_widths) /\ eval (sc_weights 12) a = le_val s.
Proof.
  intros Hs Hl. rewrite sc_load_fields by done. eexists. split; [done|].
  split; [apply bit_fields_in, sc_widths_nonneg|].
  apply eval_fields; [done|]. pose proof (le_val_bound _ Hs) as Hb. by rewrite Hl in Hb.
Qed.

Lemma sc_load_64_spec s :
  bytes s -> length s = 64%nat ->
  exists a, sc_load_64 s = Ok a /\ in_ivs a (digit_ivs sc_widths_64) /\ eval (sc_weights 24) a = le_val s.
Proof.
  intros Hs Hl. rewrite sc_load_64_fields by done. eexists. split; [done|].
  split; [apply bit_fields_in, sc_widths_64_nonneg|].
  apply eval_fields; [done|]. pose proof (le_val_bound _ Hs) as Hb. by rewrite Hl in Hb.
Qed.

(** A vector whose bounds are constants fits wider constants. *)
Lemma in_ivs_widen s A B :
  in_ivs s A -> bool_decide (Forall2 (fun a b => b.1 <= a.1 /\ a.2 <= b.2) A B) = true -> in_ivs s B.
Proof. intros Hs HB. rewrite <- (app_nil_r B). eapply in_ivs_prefix; [by rewrite app_nil_r|done]. Qed.

Lemma in_ivs_snoc s A a x : in_ivs s A -> inside x a -> in_ivs (s ++ [x]) (A ++ [a]).
Proof. intros. apply Forall2_app; [done|]. constructor; [done|constructor]. Qed.

Lemma eval_snoc_0 n s : length s = n -> eval (sc_weights (S n)) (s ++ [0]) = eval (sc_weights n) s.
Proof.
  intros Hn. rewrite (eval_S _ _ 0) by (by apply list_lookup_middle).
  rewrite <- (eval_take n (s ++ [0])), take_app_length' by done. lia.
Qed.

(** Twelve limbs and [s12 = 0] reduced. *)
Lemma sc_reduce_12_snoc s A :
  in_ivs s A -> bool_decide (Forall2 (fun a b => b.1 <= a.1 /\ a.2 <= b.2) A (replicate 12 wide_iv)) = true ->
  sc_reduce_12 (s ++ [0]) = Ok (le_bytes 32 (eval (sc_weights 12) s mod l)).
Proof.
  intros Hs HA. pose proof (in_ivs_widen _ _ _ Hs HA) as Hs'.
  rewrite (sc_reduce_12_spec _ []).
  - rewrite eval_snoc_0; [done|]. apply (Forall2_length Hs').
  - apply in_ivs_snoc; [done|]. unfold inside. simpl. lia.
Qed.

Lemma sc_reduce_spec s :
  bytes s -> length s = 64%nat -> sc_reduce s = Ok (le_bytes 32 (le_val s mod l)).
Proof.
  intros Hs Hl. unfold sc_reduce. destruct (sc_load_64_spec s Hs Hl) as (a & -> & Ha & <-). cbn [bind].
  apply sc_reduce_24_spec. eapply in_ivs_widen; [done | by vm_compute].
Qed.

Lemma sc_reduce32_spec s :
  bytes s -> length s = 32%nat -> sc_reduce32 s = Ok (le_bytes 32 (le_val s mod l)).
Proof.
  intros Hs Hl. unfold sc_reduce32. destruct (sc_load_spec s Hs Hl) as (a & -> & Ha & <-). cbn [bind].
  by eapply sc_reduce_12_snoc; [|vm_compute].
Qed.

(** ** Limb-wise sums *)
Lemma eval_zip_add ws a b :
  length a = length b -> eval ws (zip_with Z.add a b) = eval ws a + eval ws b.
Proof.
  revert a b. induction ws as [|w ws IH]; intros [|x a] [|y b] Hl; try done.
  simpl in *. rewrite IH by lia. lia.
Qed.

Lemma eval_opp ws a : eval ws (Z.opp <$> a) = - eval ws a.
Proof. revert a. induction ws as [|w ws IH]; intros [|x a]; try done. simpl. rewrite IH. lia. Qed.

Lemma in_ivs_zip_add a b A B :
  in_ivs a A -> in_ivs b B -> in_ivs (zip_with Z.add a b) (zip_with iv_add A B).
Proof.
  intros Ha. revert b B. induction Ha as [|x xi a A Hx Ha IH]; intros b B Hb; [constructor|].
  destruct Hb as [|y yi b B Hy Hb]; [constructor|]. simpl.
  constructor; [by apply inside_add|by apply IH].
Qed.

Lemma in_ivs_opp a A : in_ivs a A -> in_ivs (Z.opp <$> a) (iv_opp <$> A).
Proof. induction 1; [constructor|]. simpl. constructor; [by apply inside_opp|done]. Qed.

Lemma fits_i64 A : forallb (fits 64) A = true -> forall s, in_ivs s A -> Forall (fun x => i64 x = Ok x) s.
Proof.
  intros HA s Hs. induction Hs as [|x a s A Hx Hs IH]; [constructor|].
  simpl in HA. apply andb_prop in HA as [Ha HA]. constructor; [|by apply IH].
  by eapply fits_ok.
Qed.

(** [zipR] of a checked operation is the unchecked operation when every result is in range. *)
Lemma zipR_ok f g a b :
  (forall x y, f x y = i64 (g x y)) -> Forall (fun x => i64 x = Ok x) (zip_with g a b) ->
  zipR f a b = Ok (zip_with g a b).
Proof.
  intros Hf. revert b. induction a as [|x a IH]; intros [|y b] Hall; try done.
  simpl in *. apply Forall_cons_1 in Hall as [H1 H2]. rewrite Hf, H1. simpl. by rewrite IH.
Qed.

Lemma zip_sub a b : zip_with Z.sub a b = zip_with Z.add a (Z.opp <$> b).
Proof. revert b. induction a as [|x a IH]; intros [|y b]; try done. simpl. rewrite IH. f_equal; lia. Qed.

Lemma zipR_add a b A B :
  in_ivs a A -> in_ivs b B -> forallb (fits 64) (zip_with iv_add A B) = true ->
  zipR (fun x y => i64 (x + y)) a b = Ok (zip_with Z.add a b).
Proof.
  intros Ha Hb HAB. apply zipR_ok; [done|]. eapply fits_i64; [done|]. by apply in_ivs_zip_add.
Qed.

Lemma zipR_sub a b A B :
  in_ivs a A -> in_ivs b B -> forallb (fits 64) (zip_with iv_add A (iv_opp <$> B)) = true ->
  zipR (fun x y => i64 (x - y)) a b = Ok (zip_with Z.add a (Z.opp <$> b)).
Proof.
  intros Ha Hb HAB. rewrite <- zip_sub. apply zipR_ok; [done|]. rewrite zip_sub.
  eapply fits_i64; [done|]. by apply in_ivs_zip_add; [|apply in_ivs_opp].
Qed.

Lemma sc_add_spec a b :
  bytes a -> length a = 32%nat -> bytes b -> length b = 32%nat ->
  sc_add a b = Ok (le_bytes 32 ((le_val a + le_val b) mod l)).
Proof.
  intros Ha La Hb Lb. unfold sc_add.
  destruct (sc_load_spec a Ha La) as (x & -> & Hx & <-). destruct (sc_load_spec b Hb Lb) as (y & -> & Hy & <-).
  cbn [bind]. rewrite (zipR_add x y _ _ Hx Hy) by done. cbn [bind].
  erewrite sc_reduce_12_snoc; [|by apply in_ivs_zip_add | by vm_compute].
  by rewrite eval_zip_add by (by rewrite (Forall2_length Hx), (Forall2_length Hy)).
Qed.

Lemma sc_sub_spec a b :
  bytes a -> length a = 32%nat -> bytes b -> length b = 32%nat ->
  sc_sub a b = Ok (le_bytes 32 ((le_val a - le_val b) mod l)).
Proof.
  intros Ha La Hb Lb. unfold sc_sub.
  destruct (sc_load_spec a Ha La) as (x & -> & Hx & <-). destruct (sc_load_spec b Hb Lb) as (y & -> & Hy & <-).
  cbn [bind]. rewrite (zipR_sub x y _ _ Hx Hy) by done. cbn [bind].
  erewrite sc_reduce_12_snoc; [|by apply in_ivs_zip_add; [|apply in_ivs_opp] | by vm_compute].
  rewrite eval_zip_add, eval_opp; [done|].
  by rewrite length_fmap, (Forall2_length Hx), (Forall2_length Hy).
Qed.

(** ** Products *)
Fixpoint dot (a b : list Z) : Z :=
  match a, b with u :: a, v :: b => u * v + dot a b | _, _ => 0 end.

Lemma dot_bound a b A B : abs_bounds a A -> abs_bounds b B -> Z.abs (dot a b) <= dot A B.
Proof.
  intros Ha. revert b B. induction Ha as [|x X a A Hx Ha IH]; intros b B Hb; [done|].
  destruct Hb as [|y Y b B Hy Hb]; [done|]. simpl. specialize (IH _ _ Hb).
  pose proof (abs_mul_le _ _ _ _ Hx Hy). lia.
Qed.

Lemma dot_from_ok x X a b A B :
  Z.abs x <= X -> abs_bounds a A -> abs_bounds b B -> X + dot A B < 2 ^ 63 ->
  dot_from x a b = Ok (x + dot a b).
Proof.
  intros Hx Ha. revert x X Hx b B. induction Ha as [|u U a A Hu Ha IH]; intros x X Hx b B Hb Hs.
  { simpl. by rewrite Z.add_0_r. }
  destruct Hb as [|v V b B Hv Hb]; simpl in *; [by rewrite Z.add_0_r|].
  pose proof (abs_mul_le _ _ _ _ Hu Hv). pose proof (dot_bound _ _ _ _ Ha Hb).
  rewrite (i64_ok (u * v) (U * V)) by lia. simpl. rewrite (i64_ok (x + u * v) (X + U * V)) by lia. simpl.
  rewrite (IH (x + u * v) (X + U * V) ltac:(lia) b B) by (done || lia). f_equal. lia.
Qed.

Lemma dot64_ok a b A B :
  abs_bounds a A -> abs_bounds b B -> dot A B < 2 ^ 63 -> dot64 a b = Ok (dot a b).
Proof.
  intros Ha Hb Hs. destruct Ha as [|u U a A Hu Ha], Hb as [|v V b B Hv Hb]; try done. simpl in *.
  pose proof (abs_mul_le _ _ _ _ Hu Hv). pose proof (dot_bound _ _ _ _ Ha Hb).
  rewrite (i64_ok (u * v) (U * V)) by lia. simpl. by rewrite (dot_from_ok _ (U * V) _ _ A B) by (done || lia).
Qed.

(** Bounds of the limbs of a loaded scalar. *)
Definition limb_abs : list Z := replicate 11 (2 ^ 21) ++ [2 ^ 25].

Definition conv_val (a b : list Z) (k : nat) : Z := dot (conv_left k a) (conv_right k b).

Lemma conv_bounds k a b A B :
  abs_bounds a A -> abs_bounds b B ->
  abs_bounds (conv_left k a) (conv_left k A) /\ abs_bounds (conv_right k b) (conv_right k B).
Proof.
  intros Ha Hb. split; [by apply Forall2_take, Forall2_drop|].
  by apply Forall2_reverse, Forall2_take, Forall2_drop.
Qed.

Lemma mapR_ok {A} (f : A -> result Z) g xs :
  Forall (fun x => f x = Ok (g x)) xs -> mapR f xs = Ok (g <$> xs).
Proof. induction 1 as [|x xs Hx Hxs IH]; [done|]. simpl. rewrite Hx. simpl. by rewrite IH. Qed.

Lemma digits_abs a : in_ivs a (digit_ivs sc_widths) -> abs_bounds a limb_abs.
Proof.
  intros H. unfold digit_ivs, sc_widths in H. cbn [replicate app fmap list_fmap] in H.
  ivs_inv H. unfold inside in *. simpl in *. repeat (constructor; [lia|]). constructor.
Qed.

Lemma products_spec a b :
  in_ivs a (digit_ivs sc_widths) -> in_ivs b (digit_ivs sc_widths) ->
  products a b = Ok (conv_val a b <$> seq 0 23) /\
  in_ivs (conv_val a b <$> seq 0 23) (replicate 23 (- 2 ^ 51, 2 ^ 51)).
Proof.
  intros Ha%digits_abs Hb%digits_abs.
  assert (Forall (fun k => conv_val limb_abs limb_abs k <= 2 ^ 51) (seq 0 23)) as Hall
    by (apply (bool_decide_eq_true_1 _); by vm_compute).
  split.
  - apply mapR_ok. revert Hall. apply Forall_impl. intros k Hk.
    destruct (conv_bounds k _ _ _ _ Ha Hb) as [Hl Hr]. eapply dot64_ok; [done..|]. unfold conv_val in Hk. lia.
  - change (replicate 23 (- 2 ^ 51, 2 ^ 51)) with ((fun _ => (- 2 ^ 51, 2 ^ 51)) <$> seq 0 23).
    apply Forall2_fmap, Forall_Forall2_diag. revert Hall. apply Forall_impl. intros k Hk.
    destruct (conv_bounds k _ _ _ _ Ha Hb) as [Hl Hr]. pose proof (dot_bound _ _ _ _ Hl Hr).
    unfold conv_val, inside in *. simpl in *. lia.
Qed.

Lemma products_value a b :
  length a = 12%nat -> length b = 12%nat ->
  eval (sc_weights 23) (conv_val a b <$> seq 0 23) = eval (sc_weights 12) a * eval (sc_weights 12) b.
Proof.
  intros La Lb. do 12 (destruct a as [|? a]; [done|]). destruct a; [|done].
  do 12 (destruct b as [|? b]; [done|]). destruct b; [|done].
  let w := eval vm_compute in (sc_weights 23) in change (sc_weights 23) with w.
  let w := eval vm_compute in (sc_weights 12) in change (sc_weights 12) with w.
  cbn [seq fmap list_fmap]. unfold conv_val, conv_left, conv_right.
  cbn [Nat.min Nat.sub take drop reverse rev_append dot eval]. ring.
Qed.

Definition product_ivs : list iv := replicate 23 (- 2 ^ 51 - 2 ^ 26, 2 ^ 51 + 2 ^ 26) ++ [(0, 0)].

Lemma sc_round_24_spec s :
  in_ivs s product_ivs ->
  returns (sc_round_24 s) (fun s' => in_ivs s' wide_24 /\ eval (sc_weights 24) s' = eval (sc_weights 24) s).
Proof.
  intros Hs. unfold sc_round_24. unfold product_ivs in Hs. cbn [replicate app] in Hs.
  do 23 sc_carry carry_round_spec 24%nat.
  apply returns_ok. split; [|congruence].
  eapply in_ivs_widen; [eassumption | by vm_compute].
Qed.

Lemma sc_product_reduce s :
  in_ivs s product_ivs ->
  (let! s := sc_round_24 s in sc_reduce_24 s) = Ok (le_bytes 32 (eval (sc_weights 24) s mod l)).
Proof.
  intros Hs. pose proof (sc_round_24_spec _ Hs) as (s' & -> & Hs' & <-)%returns_inv.
  cbn [bind]. by apply sc_reduce_24_spec.
Qed.

Lemma sc_mul_spec a b :
  bytes a -> length a = 32%nat -> bytes b -> length b = 32%nat ->
  sc_mul a b = Ok (le_bytes 32 ((le_val a * le_val b) mod l)).
Proof.
  intros Ha La Hb Lb. unfold sc_mul, sc_mul_limbs.
  destruct (sc_load_spec a Ha La) as (x & -> & Hx & <-). destruct (sc_load_spec b Hb Lb) as (y & -> & Hy & <-).
  cbn [bind]. destruct (products_spec x y Hx Hy) as [-> Hp]. cbn [bind].
  rewrite sc_product_reduce.
  - rewrite eval_snoc_0, products_value by (by eapply Forall2_length in Hx, Hy). done.
  - apply in_ivs_snoc; [|done]. eapply in_ivs_widen; [done|by vm_compute].
Qed.

(** The sums of [sc_muladd] and [sc_mulsub]: the products added to [c] limb by limb. *)
Lemma eval_add_low ws c s :
  (length c <= length s)%nat ->
  eval ws (zip_with Z.add c (take (length c) s) ++ drop (length c) s) = eval ws c + eval ws s.
Proof.
  revert ws s. induction c as [|x c IH]; intros [|w ws] [|y s] Hl; simpl in *; try done; try lia.
  rewrite IH by lia. lia.
Qed.

Lemma eval_short ws ws' s : (length s <= length ws)%nat -> eval (ws ++ ws') s = eval ws s.
Proof.
  revert s. induction ws as [|w ws IH]; intros [|x s] Hl; simpl in *; try done; [|lia|].
  - by destruct ws'.
  - rewrite IH by lia. done.
Qed.

Lemma in_ivs_add_low c s :
  in_ivs c (digit_ivs sc_widths) -> in_ivs s (replicate 23 (- 2 ^ 51, 2 ^ 51)) ->
  in_ivs ((zip_with Z.add c (take 12 s) ++ drop 12 s) ++ [0]) product_ivs.
Proof.
  intros Hc Hs. apply in_ivs_snoc; [|done].
  eapply in_ivs_widen.
  - apply Forall2_app; [apply in_ivs_zip_add; [exact Hc|]|]; [by apply Forall2_take | by apply Forall2_drop].
  - by vm_compute.
Qed.

Lemma sc_low_reduce c s :
  in_ivs c (digit_ivs sc_widths) -> in_ivs s (replicate 23 (- 2 ^ 51, 2 ^ 51)) ->
  (let! s := sc_round_24 (zip_with Z.add c (take 12 s) ++ drop 12 s ++ [0]) in sc_reduce_24 s) =
  Ok (le_bytes 32 ((eval (sc_weights 12) c + eval (sc_weights 23) s) mod l)).
Proof.
  intros Hc Hs. pose proof (Forall2_length Hc) as Lc. pose proof (Forall2_length Hs) as Ls.
  change (length (digit_ivs sc_widths)) with 12%nat in Lc. rewrite length_replicate in Ls.
  rewrite app_assoc, sc_product_reduce by (by apply in_ivs_add_low).
  rewrite eval_snoc_0.
  - pose proof (eval_add_low (sc_weights 23) c s ltac:(lia)) as E. rewrite Lc in E. rewrite E.
    change (sc_weights 23) with (sc_weights 12 ++ drop 12 (sc_weights 23)) at 1.
    by rewrite eval_short by (by rewrite Lc).
  - rewrite length_app, length_zip_with, length_take, length_drop. lia.
Qed.

Lemma sc_muladd_spec a b c :
  bytes a -> length a = 32%nat -> bytes b -> length b = 32%nat -> bytes c -> length c = 32%nat ->
  sc_muladd a b c = Ok (le_bytes 32 ((le_val c + le_val a * le_val b) mod l)).
Proof.
  intros Ha La Hb Lb Hc Lc. unfold sc_muladd, sc_muladd_limbs.
  destruct (sc_load_spec a Ha La) as (x & -> & Hx & <-). destruct (sc_load_spec b Hb Lb) as (y & -> & Hy & <-).
  destruct (sc_load_spec c Hc Lc) as (z & -> & Hz & <-).
  cbn [bind]. destruct (products_spec x y Hx Hy) as [-> Hp]. cbn [bind].
  rewrite (zipR_add _ _ _ _ Hz (Forall2_take _ _ _ 12 Hp)) by done. cbn [bind].
  rewrite sc_low_reduce by done.
  by rewrite products_value by (by eapply Forall2_length in Hx, Hy).
Qed.

(** The top limb [-a11*b11] is the negated last product. *)
Lemma conv_top a b x y :
  length a = 12%nat -> length b = 12%nat -> a !! 11%nat = Some x -> b !! 11%nat = Some y ->
  conv_val a b 22 = x * y.
Proof.
  intros La Lb Hx Hy. do 12 (destruct a as [|? a]; [done|]). destruct a; [|done].
  do 12 (destruct b as [|? b]; [done|]). destruct b; [|done].
  simpl in Hx, Hy. simplify_eq. unfold conv_val. cbn. lia.
Qed.

Lemma sc_mulsub_limbs_spec a b c x y z :
  sc_load a = Ok x -> sc_load b = Ok y -> sc_load c = Ok z ->
  in_ivs x (digit_ivs sc_widths) -> in_ivs y (digit_ivs sc_widths) -> in_ivs z (digit_ivs sc_widths) ->
  let s := Z.opp <$> (conv_val x y <$> seq 0 23) in
  sc_mulsub_limbs a b c = Ok (zip_with Z.add z (take 12 s) ++ drop 12 s ++ [0]).
Proof.
  intros Ea Eb Ec Hx Hy Hz s. unfold sc_mulsub_limbs. rewrite Ea, Eb, Ec. cbn [bind].
  destruct (products_spec x y Hx Hy) as [-> Hp]. cbn [bind].
  pose proof (Forall2_length Hx) as Lx. pose proof (Forall2_length Hy) as Ly.
  change (length (digit_ivs sc_widths)) with 12%nat in *.
  rewrite (zipR_sub _ _ _ _ Hz (Forall2_take _ _ _ 12 Hp)) by done. cbn [bind].
  rewrite (mapR_ok _ Z.opp).
  2:{ assert (in_ivs (take 10 (drop 12 (conv_val x y <$> seq 0 23))) (replicate 10 (- 2 ^ 51, 2 ^ 51))) as H.
      { change (replicate 10 (- 2 ^ 51, 2 ^ 51)) with (take 10 (drop 12 (replicate 23 (- 2 ^ 51, 2 ^ 51)))).
        by apply Forall2_take, Forall2_drop. }
      apply in_ivs_opp in H. eapply fits_i64 in H; [|by vm_compute]. by apply Forall_fmap in H. }
  cbn [bind].
  destruct (in_ivs_lookup _ _ 11 _ Hx eq_refl) as (u & Hu & Bu).
  destruct (in_ivs_lookup _ _ 11 _ Hy eq_refl) as (v & Hv & Bv).
  rewrite (get_ok _ _ _ Hu), (get_ok _ _ _ Hv). cbn [bind]. unfold inside in Bu, Bv. cbn [fst snd] in *.
  rewrite (i64_ok _ (2 ^ 25)) by lia. cbn [bind].
  assert (Z.abs (- u * v) <= 2 ^ 25 * 2 ^ 25) by (apply abs_mul_le; lia).
  rewrite (i64_ok _ (2 ^ 50)) by lia. cbn [bind]. f_equal.
  rewrite fmap_take, fmap_take, fmap_drop. f_equal. subst s.
  change (seq 0 23) with (seq 0 22 ++ [22%nat]). rewrite !fmap_app.
  cbn [fmap list_fmap app drop take seq]. by rewrite (conv_top _ _ _ _ Lx Ly Hu Hv), Z.mul_opp_l.
Qed.

Lemma sc_mulsub_spec a b c :
  bytes a -> length a = 32%nat -> bytes b -> length b = 32%nat -> bytes c -> length c = 32%nat ->
  sc_mulsub a b c = Ok (le_bytes 32 ((le_val c - le_val a * le_val b) mod l)).
Proof.
  intros Ha La Hb Lb Hc Lc. unfold sc_mulsub.
  destruct (sc_load_spec a Ha La) as (x & Ex & Hx & <-). destruct (sc_load_spec b Hb Lb) as (y & Ey & Hy & <-).
  destruct (sc_load_spec c Hc Lc) as (z & Ez & Hz & <-).
  rewrite (sc_mulsub_limbs_spec _ _ _ _ _ _ Ex Ey Ez Hx Hy Hz). cbn [bind].
  destruct (products_spec x y Hx Hy) as [_ Hp]. rewrite sc_low_reduce; [|done|by apply in_ivs_opp in Hp].
  rewrite eval_opp, products_value by (by eapply Forall2_length in Hx, Hy). done.
Qed.

Lemma sc_reduce32copy_spec s :
  bytes s -> length s = 32%nat -> sc_reduce32copy s = Ok (le_bytes 32 (le_val s mod l)).
Proof.
  intros Hs Hl. rewrite <- sc_reduce32_spec by done. unfold sc_reduce32copy, sc_reduce32, sc_reduce_12.
  destruct (sc_load s) as [a|]; [cbn [bind]|done]. destruct (sc_round _) as [b|]; [cbn [bind]|done].
  destruct (sc_finish b) as [c|]; [cbn [bind]|done]. by destruct (sc_pack c).
Qed.

(** ** Range check *)
Lemma signum_spec a : - 2 ^ 63 < a < 2 ^ 63 -> signum a = Ok (Z.sgn a).
Proof.
  intros Ha. unfold signum. rewrite (i64_ok (- a) (Z.abs a)) by lia. cbn [bind].
  rewrite !Z.shiftr_div_pow2 by lia.
  assert (a / 2 ^ 63 = if decide (a < 0) then -1 else 0) as ->.
  { destruct (decide (a < 0)); [|by apply Z.div_small; lia]. symmetry. apply (Z.div_unique _ _ _ (a + 2 ^ 63)); lia. }
  assert (- a / 2 ^ 63 = if decide (0 < a) then -1 else 0) as ->.
  { destruct (decide (0 < a)); [|by apply Z.div_small; lia]. symmetry. apply (Z.div_unique _ _ _ (- a + 2 ^ 63)); lia. }
  destruct (decide (a < 0)), (decide (0 < a)); try lia.
  - by rewrite (i64_ok _ 1), Z.sgn_neg by lia.
  - by rewrite (i64_ok _ 1), Z.sgn_pos by lia.
  - by replace a with 0 by lia.
Qed.

(** [sgn(c0 - s0) + 2*sgn(c1 - s1) + 4*sgn(c2 - s2) + ...] *)
Fixpoint sgn_sum (c s : list Z) : Z :=
  match c, s with x :: c, y :: s => Z.sgn (x - y) + 2 * sgn_sum c s | _, _ => 0 end.

Definition word32 (x : Z) : Prop := 0 <= x < 2 ^ 32.

Lemma sgn_sum_bound c s : Z.abs (sgn_sum c s) < 2 ^ Z.of_nat (length c).
Proof.
  revert s. induction c as [|x c IH]; intros [|y s]; try (cbn [sgn_sum length]; lia).
  cbn [sgn_sum length]. rewrite Nat2Z.inj_succ, Z.pow_succ_r by lia. specialize (IH s). lia.
Qed.

(** The sign of the sum is decided by the highest words that differ. *)
Lemma sgn_sum_sign c s :
  Forall2 (fun x y => word32 x /\ word32 y) c s ->
  Z.sgn (sgn_sum c s) = Z.sgn (positional (replicate (length c) 32) c - positional (replicate (length c) 32) s).
Proof.
  induction 1 as [|x y c s [Hx Hy] H IH]; [done|].
  cbn [sgn_sum length replicate positional]. unfold word32 in *.
  set (P := positional _ c) in *. set (Q := positional _ s) in *. lia.
Qed.

Lemma signums_spec c s k acc :
  Forall2 (fun x y => word32 x /\ word32 y) c s -> 0 <= k -> Z.abs acc < 2 ^ k -> k + Z.of_nat (length c) <= 32 ->
  signums k acc c s = Ok (acc + 2 ^ k * sgn_sum c s).
Proof.
  intros H. revert k acc. induction H as [|x y c s [Hx Hy] H IH]; intros k acc Hk Hacc Hl.
  { simpl. f_equal. lia. }
  cbn [length] in Hl. rewrite Nat2Z.inj_succ in Hl. unfold word32 in *. cbn [signums].
  rewrite (i64_ok _ (2 ^ 32)) by lia. cbn [bind]. rewrite signum_spec by lia. cbn [bind].
  rewrite Z.shiftl_mul_pow2 by lia.
  assert (2 ^ k <= 2 ^ 32) by (apply Z.pow_le_mono_r; lia).
  assert (2 ^ (k + 1) = 2 * 2 ^ k) as E by (rewrite Z.pow_add_r by lia; lia).
  assert (Z.abs (Z.sgn (x - y) * 2 ^ k) <= 2 ^ k) as Hs by nia.
  rewrite (i64_ok _ (2 ^ 32)) by lia. cbn [bind]. rewrite (i64_ok _ (2 ^ 33)) by lia. cbn [bind].
  rewrite IH by lia. cbn [sgn_sum]. f_equal. rewrite E. ring.
Qed.

Lemma sc_check_spec s :
  bytes s -> length s = 32%nat -> sc_check s = Ok (if decide (le_val s < l) then 0 else -1).
Proof.
  intros Hs Hl. pose proof (le_val_bound _ Hs) as Hv. rewrite Hl in Hv. unfold sc_check.
  rewrite !load_4_ok by (done || lia). cbn [bind].
  change (signums 0 0 sc_check_limbs _) with
    (signums 0 0 sc_check_limbs (bit_fields (le_val s) 0 (replicate 8 32))).
  assert (Forall2 (fun x y => word32 x /\ word32 y) sc_check_limbs (bit_fields (le_val s) 0 (replicate 8 32))) as Hw.
  { unfold sc_check_limbs. cbn [replicate bit_fields].
    repeat (constructor; [split; [done | by apply bits_bound]|]). constructor. }
  rewrite signums_spec by (done || simpl; lia). cbn [bind].
  pose proof (sgn_sum_sign _ _ Hw) as Hsg. pose proof (sgn_sum_bound sc_check_limbs (bit_fields (le_val s) 0 (replicate 8 32))) as Hb.
  change (length sc_check_limbs) with 8%nat in *.
  rewrite positional_bit_fields in Hsg by (done || (repeat constructor; lia)).
  change (total (replicate 8 32)) with 256 in Hsg. rewrite bits_all in Hsg by done.
  change (positional (replicate 8 32) sc_check_limbs) with (l - 1) in Hsg.
  change (2 ^ Z.of_nat 8) with 256 in Hb.
  set (t := sgn_sum _ _) in *. replace (0 + 2 ^ 0 * t) with t by lia. f_equal.
  rewrite Z.shiftr_div_pow2 by lia.
  destruct (decide (le_val s < l)).
  - rewrite Z.div_small by lia. done.
  - assert (t / 2 ^ 8 = -1) as -> by (symmetry; apply (Z.div_unique _ _ _ (t + 256)); lia). done.
Qed.

Lemma sc_isnonzero_spec s :
  bytes s -> sc_isnonzero s = if decide (le_val s = 0) then 0 else 1.
Proof. apply nonzero_bytes_spec. Qed.

(** The results of the operations are reduced, so [sc_check] accepts them. *)
Lemma le_val_reduced v : le_val (le_bytes 32 (v mod l)) = v mod l.
Proof.
  rewrite le_val_bytes. apply Z.mod_small. pose proof (Z.mod_pos_bound v l ltac:(done)).
  change (256 ^ Z.of_nat 32) with (2 ^ 256). unfold l in *. lia.
Qed.
