(* ===== verification/Group.v ===== *)
(** * Group operations

    The [ge_*] functions of [src/src/crypto/crypto-ops.c] on points of the twisted
    Edwards curve [-x^2 + y^2 = 1 + d x^2 y^2].  Output parameters are results;
    a function that leaves parts of an output untouched takes the old value. *)

From stdpp Require Import base list numbers.
From Stdlib Require Import ZArith Lia.
From S2P Require Import Prelude Bytes Limbs Field CurveData.

(** ** Representations *)

(** [(X:Y:Z)] with [x = X/Z], [y = Y/Z]. *)
Record ge_p2 := P2 { X2 : fe; Y2 : fe; Z2 : fe }.
(** [(X:Y:Z:T)] with [XY = ZT]. *)
Record ge_p3 := P3 { X3 : fe; Y3 : fe; Z3 : fe; T3 : fe }.
(** [((X:Z),(Y:T))] with [x = X/Z], [y = Y/T]. *)
Record ge_p1p1 := P1P1 { X1 : fe; Y1 : fe; Z1 : fe; T1 : fe }.
Record ge_cached := Cached { YplusX : fe; YminusX : fe; Zc : fe; T2d : fe }.

#[export] Instance ge_p2_eq_dec : EqDecision ge_p2.
Proof. solve_decision. Defined.
#[export] Instance ge_p3_eq_dec : EqDecision ge_p3.
Proof. solve_decision. Defined.

Definition ge_p2_0 : ge_p2 := P2 fe_0 fe_1 fe_1.
Definition ge_p3_0 : ge_p3 := P3 fe_0 fe_1 fe_1 fe_0.
Definition ge_precomp_0 : ge_precomp := Precomp fe_1 fe_1 fe_0.
Definition ge_cached_0 : ge_cached := Cached fe_1 fe_1 fe_1 fe_0.

(** ** Addition and doubling *)

Definition ge_add (p : ge_p3) (q : ge_cached) : result ge_p1p1 :=
  let! rX := fe_add (Y3 p) (X3 p) in
  let! rY := fe_sub (Y3 p) (X3 p) in
  let! rZ := fe_mul rX (YplusX q) in
  let! rY := fe_mul rY (YminusX q) in
  let! rT := fe_mul (T2d q) (T3 p) in
  let! rX := fe_mul (Z3 p) (Zc q) in
  let! t0 := fe_add rX rX in
  let! rX := fe_sub rZ rY in
  let! rY := fe_add rZ rY in
  let! rZ := fe_add t0 rT in
  let! rT := fe_sub t0 rT in
  Ok (P1P1 rX rY rZ rT).

Definition ge_sub (p : ge_p3) (q : ge_cached) : result ge_p1p1 :=
  let! rX := fe_add (Y3 p) (X3 p) in
  let! rY := fe_sub (Y3 p) (X3 p) in
  let! rZ := fe_mul rX (YminusX q) in
  let! rY := fe_mul rY (YplusX q) in
  let! rT := fe_mul (T2d q) (T3 p) in
  let! rX := fe_mul (Z3 p) (Zc q) in
  let! t0 := fe_add rX rX in
  let! rX := fe_sub rZ rY in
  let! rY := fe_add rZ rY in
  let! rZ := fe_sub t0 rT in
  let! rT := fe_add t0 rT in
  Ok (P1P1 rX rY rZ rT).

Definition ge_madd (p : ge_p3) (q : ge_precomp) : result ge_p1p1 :=
  let! rX := fe_add (Y3 p) (X3 p) in
  let! rY := fe_sub (Y3 p) (X3 p) in
  let! rZ := fe_mul rX (yplusx q) in
  let! rY := fe_mul rY (yminusx q) in
  let! rT := fe_mul (xy2d q) (T3 p) in
  let! t0 := fe_add (Z3 p) (Z3 p) in
  let! rX := fe_sub rZ rY in
  let! rY := fe_add rZ rY in
  let! rZ := fe_add t0 rT in
  let! rT := fe_sub t0 rT in
  Ok (P1P1 rX rY rZ rT).

Definition ge_msub (p : ge_p3) (q : ge_precomp) : result ge_p1p1 :=
  let! rX := fe_add (Y3 p) (X3 p) in
  let! rY := fe_sub (Y3 p) (X3 p) in
  let! rZ := fe_mul rX (yminusx q) in
  let! rY := fe_mul rY (yplusx q) in
  let! rT := fe_mul (xy2d q) (T3 p) in
  let! t0 := fe_add (Z3 p) (Z3 p) in
  let! rX := fe_sub rZ rY in
  let! rY := fe_add rZ rY in
  let! rZ := fe_sub t0 rT in
  let! rT := fe_add t0 rT in
  Ok (P1P1 rX rY rZ rT).

Definition ge_p2_dbl (p : ge_p2) : result ge_p1p1 :=
  let! rX := fe_sq (X2 p) in
  let! rZ := fe_sq (Y2 p) in
  let! rT := fe_sq2 (Z2 p) in
  let! rY := fe_add (X2 p) (Y2 p) in
  let! t0 := fe_sq rY in
  let! rY := fe_add rZ rX in
  let! rZ := fe_sub rZ rX in
  let! rX := fe_sub t0 rY in
  let! rT := fe_sub rT rZ in
  Ok (P1P1 rX rY rZ rT).

(** ** Conversions *)

Definition ge_p1p1_to_p2 (p : ge_p1p1) : result ge_p2 :=
  let! rX := fe_mul (X1 p) (T1 p) in
  let! rY := fe_mul (Y1 p) (Z1 p) in
  let! rZ := fe_mul (Z1 p) (T1 p) in
  Ok (P2 rX rY rZ).

Definition ge_p1p1_to_p3 (p : ge_p1p1) : result ge_p3 :=
  let! rX := fe_mul (X1 p) (T1 p) in
  let! rY := fe_mul (Y1 p) (Z1 p) in
  let! rZ := fe_mul (Z1 p) (T1 p) in
  let! rT := fe_mul (X1 p) (Y1 p) in
  Ok (P3 rX rY rZ rT).

Definition ge_p3_to_cached (p : ge_p3) : result ge_cached :=
  let! a := fe_add (Y3 p) (X3 p) in
  let! b := fe_sub (Y3 p) (X3 p) in
  let z := fe_copy (Z3 p) in
  let! t := fe_mul (T3 p) fe_d2 in
  Ok (Cached a b z t).

Definition ge_p3_to_p2 (p : ge_p3) : ge_p2 :=
  P2 (fe_copy (X3 p)) (fe_copy (Y3 p)) (fe_copy (Z3 p)).

Definition ge_p3_dbl (p : ge_p3) : result ge_p1p1 := ge_p2_dbl (ge_p3_to_p2 p).

(** [r = 8 * t] *)
Definition ge_mul8 (t : ge_p2) : result ge_p1p1 :=
  let! r := ge_p2_dbl t in
  let! u := ge_p1p1_to_p2 r in
  let! r := ge_p2_dbl u in
  let! u := ge_p1p1_to_p2 r in
  ge_p2_dbl u.

(** ** Encoding *)

(** [s[31] ^= fe_isnegative(x) << 7] *)
Definition set_sign (s : list Z) (b : Z) : result (list Z) :=
  let! s31 := get s 31 in
  set s 31 (u8 (Z.lxor s31 (Z.shiftl b 7))).

Definition ge_tobytes (h : ge_p2) : result (list Z) :=
  let! recip := fe_invert (Z2 h) in
  let! x := fe_mul (X2 h) recip in
  let! y := fe_mul (Y2 h) recip in
  let! s := fe_tobytes y in
  let! b := fe_isnegative x in
  set_sign s b.

Definition ge_p3_tobytes (h : ge_p3) : result (list Z) :=
  let! recip := fe_invert (Z3 h) in
  let! x := fe_mul (X3 h) recip in
  let! y := fe_mul (Y3 h) recip in
  let! s := fe_tobytes y in
  let! b := fe_isnegative x in
  set_sign s b.

(** ** Decoding *)

(** From [fe_1(h->Z)]: the square root [x] of [(y^2 - 1) / (d y^2 + 1)], the sign
    bit of [s] applied.  [None] is the return of [-1]. *)
Definition ge_frombytes_x (Y : fe) (s31 : Z) : result (option fe) :=
  let hZ := fe_1 in
  let! u := fe_sq Y in
  let! v := fe_mul u fe_d in
  let! u := fe_sub u hZ in
  let! v := fe_add v hZ in
  let! x := fe_divpowm1 u v in
  let! vxx := fe_sq x in
  let! vxx := fe_mul vxx v in
  let! check := fe_sub vxx u in
  let! nz := fe_isnonzero check in
  let! ox :=
    if nz =? 0 then Ok (Some x)
    else
      let! check := fe_add vxx u in
      let! nz := fe_isnonzero check in
      if nz =? 0 then let! x := fe_mul x fe_sqrtm1 in Ok (Some x) else Ok None in
  match ox with
  | None => Ok None
  | Some x =>
      let! neg := fe_isnegative x in
      if neg =? Z.shiftr s31 7 then Ok (Some x)
      else
        let! nz := fe_isnonzero x in
        if nz =? 0 then Ok None
        else let! x := fe_neg x in Ok (Some x)
  end.

(** [None] is the return of [-1]; the callers do not use [h] then. *)
Definition ge_frombytes_vartime (s : list Z) : result (option ge_p3) :=
  let! h := fe_load s in
  if fe_noncanonical h then Ok None
  else
    let! Y := fe_load_carry h in
    let! s31 := get s 31 in
    let! ox := ge_frombytes_x Y s31 in
    match ox with
    | None => Ok None
    | Some X =>
        let! T := fe_mul X Y in
        Ok (Some (P3 X Y fe_1 T))
    end.

(** The debug check of [ge_fromfe_frombytes_vartime]: the point is on the curve. *)
Definition curve_check (r : ge_p2) : result bool :=
  let! check_iz := fe_invert (Z2 r) in
  let! check_x := fe_mul (X2 r) check_iz in
  let! check_y := fe_mul (Y2 r) check_iz in
  let! check_x := fe_sq check_x in
  let! check_y := fe_sq check_y in
  let! check_v := fe_mul check_x check_y in
  let! check_v := fe_mul fe_d check_v in
  let! check_v := fe_add check_v check_x in
  let! check_v := fe_sub check_v check_y in
  let check_x := fe_1 in
  let! check_v := fe_add check_v check_x in
  let! nz := fe_isnonzero check_v in
  Ok (nz =? 0).

(** The part up to [setsign]: from [w], [x], [y = w - x] and [r->X], the new [r->X], [z]
    and [sign]. *)
Definition ge_fromfe_root (ndebug : bool) (u v w x y rX : fe) : result (fe * fe * Z) :=
  let z := fe_copy fe_ma in
  let square rX :=
    let! rX := fe_mul rX u in
    let! z := fe_mul z v in
    Ok (rX, z, 0) in
  let! nz := fe_isnonzero y in
  if nz =? 0 then
    let! rX := fe_mul rX fe_fffb2 in square rX
  else
    let! y := fe_add w x in
    let! nz := fe_isnonzero y in
    if nz =? 0 then
      let! rX := fe_mul rX fe_fffb1 in square rX
    else
      let! x := fe_mul x fe_sqrtm1 in
      let! y := fe_sub w x in
      let! nz := fe_isnonzero y in
      let! rX :=
        if nz =? 0 then fe_mul rX fe_fffb4
        else
          let! _ := c_assert ndebug
            (let! y := fe_add w x in let! nz := fe_isnonzero y in Ok (nz =? 0)) in
          fe_mul rX fe_fffb3 in
      Ok (rX, z, 1).

Definition ge_fromfe_frombytes_vartime (ndebug : bool) (s : list Z) : result ge_p2 :=
  let! h := fe_load_full s in
  let! u := fe_load_carry h in
  let! v := fe_sq2 u in
  let w := fe_1 in
  let! w := fe_add v w in
  let! x := fe_sq w in
  let! y := fe_mul fe_ma2 v in
  let! x := fe_add x y in
  let! rX := fe_divpowm1 w x in
  let! y := fe_sq rX in
  let! x := fe_mul y x in
  let! y := fe_sub w x in
  let! (rX, z, sign) := ge_fromfe_root ndebug u v w x y rX in
  let! neg := fe_isnegative rX in
  let! rX :=
    if neg =? sign then Ok rX
    else
      let! _ := c_assert ndebug (let! nz := fe_isnonzero rX in Ok (negb (nz =? 0))) in
      fe_neg rX in
  let! rZ := fe_add z w in
  let! rY := fe_sub z w in
  let! rX := fe_mul rX rZ in
  let r := P2 rX rY rZ in
  let! _ := c_assert ndebug (curve_check r) in
  Ok r.

(** ** Table lookups *)

Definition equal (b c : Z) : Z :=
  let ub := u8 b in
  let uc := u8 c in
  let x := Z.lxor ub uc in
  let y := x in
  let y := u32 (y - 1) in
  let y := Z.shiftr y 31 in
  u8 y.

Definition negative (b : Z) : Z :=
  let x := u64 b in
  let x := Z.shiftr x 63 in
  u8 x.

(** [babs = b - (((-bnegative) & b) << 1)] *)
Definition babs (b : Z) : Z :=
  let bnegative := negative b in
  u8 (b - Z.shiftl (Z.land (- bnegative) b) 1).

Definition ge_precomp_cmov (ndebug : bool) (t u : ge_precomp) (b : Z) : result ge_precomp :=
  let! a := fe_cmov ndebug (yplusx t) (yplusx u) b in
  let! s := fe_cmov ndebug (yminusx t) (yminusx u) b in
  let! m := fe_cmov ndebug (xy2d t) (xy2d u) b in
  Ok (Precomp a s m).

Definition ge_cached_cmov (ndebug : bool) (t u : ge_cached) (b : Z) : result ge_cached :=
  let! a := fe_cmov ndebug (YplusX t) (YplusX u) b in
  let! s := fe_cmov ndebug (YminusX t) (YminusX u) b in
  let! z := fe_cmov ndebug (Zc t) (Zc u) b in
  let! m := fe_cmov ndebug (T2d t) (T2d u) b in
  Ok (Cached a s z m).

(** The eight moves [t = table[j]] under [equal(babs, j + 1)]. *)
Definition cmov_all {A} (cmov : A -> A -> Z -> result A) (table : list A) (ab : Z) (t : A) : result A :=
  for_ 8 (fun j t => let! u := get table j in cmov t u (equal ab (Z.of_nat j + 1))) 0 t.

Definition select (ndebug : bool) (pos : nat) (b : Z) : result ge_precomp :=
  let! row := get ge_base pos in
  let! t := cmov_all (ge_precomp_cmov ndebug) row (babs b) ge_precomp_0 in
  let a := fe_copy (yminusx t) in
  let s := fe_copy (yplusx t) in
  let! m := fe_neg (xy2d t) in
  ge_precomp_cmov ndebug t (Precomp a s m) (negative b).

(** The selection in the loop of [ge_scalarmult]. *)
Definition select_cached (ndebug : bool) (Ai : list ge_cached) (b : Z) : result ge_cached :=
  let! cur := cmov_all (ge_cached_cmov ndebug) Ai (babs b) ge_cached_0 in
  let a := fe_copy (YminusX cur) in
  let s := fe_copy (YplusX cur) in
  let z := fe_copy (Zc cur) in
  let! m := fe_neg (T2d cur) in
  ge_cached_cmov ndebug cur (Cached a s z m) (negative b).
