(* ===== verification/Prime.v ===== *)
(** * The field prime

    A proof that [2^255 - 19] is prime, by Pocklington certificates that are
    checked by computation. *)

From stdpp Require Import base list numbers.
From Stdlib Require Import ZArith Lia Znumtheory Zpow_facts Zmod.
From S2P Require Import Prelude Limbs Field FieldFacts.

(** ** Prime divisors *)
Lemma prime_divisor n : 1 < n -> exists q, Z.prime q /\ (q | n).
Proof.
  induction n as [n IH] using (well_founded_induction (Z.lt_wf 0)). intros Hn.
  destruct (prime_dec n) as [Hp|Hc]; [exists n; split; [by apply prime_alt|done]|].
  destruct (not_prime_divide n Hn Hc) as (m & Hm & Hd).
  destruct (IH m ltac:(lia) ltac:(lia)) as (q & Hq & Hqm). exists q. split; [done|]. by etransitivity.
Qed.

(** A composite number has a prime divisor up to its square root. *)
Lemma small_prime_divisor n : 1 < n -> ~ Z.prime n -> exists q, Z.prime q /\ (q | n) /\ q * q <= n.
Proof.
  intros Hn Hc. assert (~ Znumtheory.prime n) as Hc' by (by rewrite <- prime_alt).
  destruct (not_prime_divide n Hn Hc') as (m & Hm & [k Hk]).
  assert (exists t, 1 < t /\ (t | n) /\ t * t <= n) as (t & Ht & Htn & Htt).
  { destruct (decide (m * m <= n)).
    - exists m. split; [lia|]. split; [by exists k|done].
    - assert (1 < k) by nia. assert (k < m) by nia. exists k. split; [done|]. split; [exists m; lia|nia]. }
  destruct (prime_divisor t Ht) as (q & Hq & Hqt). exists q.
  pose proof (Z.prime_ge_2 _ Hq). pose proof (Z.divide_pos_le q t ltac:(lia) Hqt).
  split; [done|]. split; [by etransitivity|]. transitivity (t * t); [nia|done].
Qed.

(** ** Powers modulo a prime *)
Lemma pow_mod_1 b q e : 1 < q -> 0 <= e -> b mod q = 1 -> b ^ e mod q = 1.
Proof. intros Hq He Hb. rewrite <- Z.mod_pow_l, Hb, Z.pow_1_l by lia. apply Z.mod_small. lia. Qed.

(** An element whose [x]-th and [y]-th powers are 1, for coprime [x] and [y], is 1. *)
Lemma coprime_orders b q x y :
  1 < q -> 0 < x -> 0 < y -> Z.coprime x y -> b ^ x mod q = 1 -> b ^ y mod q = 1 -> b mod q = 1.
Proof.
  intros Hq Hx Hy Hxy Bx By.
  destruct (proj1 (Z.Bezout_coprime_iff x y) Hxy) as (u & v & Huv).
  set (u' := u mod y).
  assert (0 <= u' < y) as Hu' by (apply Z.mod_pos_bound; lia).
  assert (u' * x = 1 + (x * - (u / y) - v) * y) as E.
  { subst u'. rewrite Z.mod_eq by lia. rewrite <- Huv. ring. }
  set (k := x * - (u / y) - v) in *. clearbody k u'.
  destruct (decide (u' = 0)) as [->|H0].
  - assert (y = 1) as -> by (apply Z.divide_1_r_nonneg; [lia|exists (- k); lia]). by rewrite Z.pow_1_r in By.
  - assert (0 <= k) by nia.
    pose proof (pow_mod_1 (b ^ x) q u' Hq ltac:(lia) Bx) as H1.
    rewrite <- Z.pow_mul_r, (Z.mul_comm x), E, Z.pow_add_r, Z.pow_1_r, (Z.mul_comm k), Z.pow_mul_r in H1 by lia.
    rewrite Z.mul_mod, (pow_mod_1 (b ^ y) q k), Z.mul_1_r, Z.mod_mod in H1 by (done || lia). done.
Qed.

(** ** Pocklington's criterion *)
Definition pocklington_check (n a : Z) (fs : list Z) : bool :=
  (1 <? n) && (Zpow_mod a (n - 1) n =? 1) && (n <=? foldr Z.mul 1 fs * foldr Z.mul 1 fs) &&
  forallb (fun f => (0 <? f) && ((n - 1) mod f =? 0) &&
                    (Z.gcd (Zpow_mod a ((n - 1) / f) n - 1) n =? 1)) fs.

Lemma divide_mod_1 q n x : 1 < q -> 1 < n -> (q | n) -> x mod n = 1 -> x mod q = 1.
Proof.
  intros Hq Hn [k ->] Hx. rewrite Z.mod_eq in Hx by lia.
  replace x with (1 + (k * (x / (k * q))) * q) by lia.
  rewrite Z.mod_add by lia. apply Z.mod_small. lia.
Qed.

Lemma pocklington_divides n a f q :
  1 < n -> Z.prime f -> (f | n - 1) -> a ^ (n - 1) mod n = 1 -> Z.gcd (a ^ ((n - 1) / f) mod n - 1) n = 1 ->
  Z.prime q -> (q | n) -> (f | q - 1).
Proof.
  intros Hn Hf [m Hm] Ha Hg Hq Hqn. pose proof (Z.prime_ge_2 _ Hf). pose proof (Z.prime_ge_2 _ Hq) as Hq2.
  rewrite Hm, Z.div_mul in Hg by lia. assert (0 < m) by nia.
  destruct (Z.BoolSpec_divide_nz f (q - 1) ltac:(lia)) as [|Hnd]; [done|exfalso].
  apply (divide_mod_1 q) in Ha; [|lia|done|done].
  assert (a mod q <> 0) as Ha0.
  { intros Hz. rewrite <- Z.mod_pow_l, Hz, Z.pow_0_l, Z.mod_0_l in Ha by lia. lia. }
  assert (a ^ m mod q = 1) as Hb.
  { apply (coprime_orders _ q f (q - 1)); [lia|lia|lia| | |].
    - by apply Z.coprime_prime_l.
    - by rewrite <- Z.pow_mul_r, <- Hm by lia.
    - rewrite <- Z.pow_mul_r, Z.mul_comm, Z.pow_mul_r by lia. apply pow_mod_1; [lia|lia|].
      by apply Z.fermat_nz. }
  assert (q | Z.gcd (a ^ m mod n - 1) n) as Hd.
  { apply Z.gcd_greatest; [|done]. destruct Hqn as [k ->]. rewrite Z.mod_eq by lia.
    rewrite Z.mod_eq in Hb by lia. exists (a ^ m / q - k * (a ^ m / (k * q))). lia. }
  rewrite Hg in Hd. apply Z.divide_1_r_nonneg in Hd; lia.
Qed.

Lemma product_divides fs q :
  Forall (fun f => Z.prime f /\ (f | q)) fs -> NoDup fs -> (foldr Z.mul 1 fs | q).
Proof.
  intros Hall Hnd. induction Hnd as [|f fs Hf Hnd IH]; [apply Z.divide_1_l|].
  apply Forall_cons_1 in Hall as [[Hp Hd] Hall]. simpl.
  destruct (IH Hall) as [k Hk].
  assert (Z.coprime f (foldr Z.mul 1 fs)) as Hc.
  { clear IH Hk Hd Hnd. induction Hall as [|g fs [Hg _] Hall IH]; simpl; [apply Z.coprime_1_r|].
    apply not_elem_of_cons in Hf as [Hfg Hf]. apply Z.coprime_mul_r; [|by apply IH].
    apply Z.coprime_prime_l; [done|]. intros Hfd. apply Hfg. by apply Z.divide_prime_prime. }
  rewrite Hk in *. rewrite Z.mul_comm in Hd. apply Z.gauss in Hd; [|exact Hc].
  destruct Hd as [k' ->]. exists k'. lia.
Qed.

Lemma pocklington n a fs :
  Forall Z.prime fs -> NoDup fs -> pocklington_check n a fs = true -> Z.prime n.
Proof.
  intros Hfs Hnd Hc. unfold pocklington_check in Hc.
  apply andb_prop in Hc as [Hc Hall]. apply andb_prop in Hc as [Hc Hsq]. apply andb_prop in Hc as [Hn Ha].
  apply Z.ltb_lt in Hn. apply Z.leb_le in Hsq. apply Z.eqb_eq in Ha. rewrite Zpow_mod_correct in Ha by lia.
  destruct (prime_dec n) as [|Hc]; [by apply prime_alt|exfalso].
  destruct (small_prime_divisor n Hn) as (q & Hq & Hqn & Hqq); [by rewrite prime_alt|].
  pose proof (Z.prime_ge_2 _ Hq).
  assert (foldr Z.mul 1 fs | q - 1) as Hd.
  { apply product_divides; [|done]. apply Forall_lookup. intros i f Hf.
    rewrite forallb_forall in Hall. specialize (Hall f).
    assert (In f fs) as Hin by (by apply list_elem_of_In, list_elem_of_lookup_2 with i).
    apply Hall in Hin. apply andb_prop in Hin as [Hin Hg]. apply andb_prop in Hin as [Hf0 Hfd].
    assert (Z.prime f) as Hfp by (by eapply Forall_lookup_1 in Hfs). split; [done|].
    apply Z.ltb_lt in Hf0. apply Z.eqb_eq in Hfd, Hg. rewrite Zpow_mod_correct in Hg by lia.
    apply (pocklington_divides n a); try done. by apply Z.mod_divide; [lia|]. }
  assert (0 < foldr Z.mul 1 fs) as Hpos.
  { clear -Hfs. induction Hfs as [|f fs Hf Hfs IH]; simpl; [done|]. pose proof (Z.prime_ge_2 _ Hf). lia. }
  apply Z.divide_pos_le in Hd; [nia|lia].
Qed.

(** ** Trial division *)
Definition trial_check (n : Z) (k : nat) : bool :=
  (1 <? n) && (n <? Z.of_nat k * Z.of_nat k) &&
  forallb (fun i => negb (n mod Z.of_nat i =? 0)) (seq 2 (k - 2)).

Lemma trial n k : trial_check n k = true -> Z.prime n.
Proof.
  intros Hc. unfold trial_check in Hc. apply andb_prop in Hc as [Hc Hall]. apply andb_prop in Hc as [Hn Hk].
  apply Z.ltb_lt in Hn, Hk. destruct (prime_dec n) as [|Hc]; [by apply prime_alt|exfalso].
  destruct (small_prime_divisor n Hn) as (q & Hq & Hqn & Hqq); [by rewrite prime_alt|].
  pose proof (Z.prime_ge_2 _ Hq). rewrite forallb_forall in Hall.
  specialize (Hall (Z.to_nat q)). rewrite Z2Nat.id in Hall by lia.
  assert (In (Z.to_nat q) (seq 2 (k - 2))) as Hin by (apply in_seq; nia).
  apply Hall in Hin. apply Z.mod_divide in Hqn; [|lia]. rewrite Hqn in Hin. done.
Qed.

(** ** The certificates *)
Lemma prime_127 : Z.prime 127.
Proof. apply (trial 127 12). by vm_compute. Qed.

Lemma prime_75707 : Z.prime 75707.
Proof. apply (trial 75707 276). by vm_compute. Qed.

Lemma prime_1923133 : Z.prime 1923133.
Proof. apply (trial 1923133 1387). by vm_compute. Qed.

Lemma prime_8574133 : Z.prime 8574133.
Proof. apply (trial 8574133 2929). by vm_compute. Qed.

Ltac certificate a fs :=
  apply (pocklington _ a fs);
  [repeat (apply Forall_cons_2; [assumption|]); constructor | apply (bool_decide_eq_true_1 _); by vm_compute | by vm_compute].

Lemma prime_q3 : Z.prime 1919519569386763.
Proof. pose proof prime_127. pose proof prime_8574133. certificate 2 [8574133; 127]. Qed.

Lemma prime_q2 : Z.prime 75445702479781427272750846543864801.
Proof. pose proof prime_q3. pose proof prime_75707. certificate 2 [1919519569386763; 75707]. Qed.

Lemma prime_q1 : Z.prime 74058212732561358302231226437062788676166966415465897661863160754340907.
Proof.
  pose proof prime_q2. pose proof prime_1923133.
  certificate 2 [75445702479781427272750846543864801; 1923133].
Qed.

Lemma prime_p : Z.prime p.
Proof.
  pose proof prime_q1.
  certificate 2 [74058212732561358302231226437062788676166966415465897661863160754340907].
Qed.
