(* ===== verification/CurveIdentities.v ===== *)
(** * Polynomial identities of the Edwards addition law

    The closure and the associativity of the addition law are congruences modulo
    the curve equations [eqn x y = 0].  The cofactors [closure_i], [assoc_x_i] and
    [assoc_y_i] write them, with the denominators cleared, as combinations of
    the curve equations of the operands. *)

From Stdlib Require Import ZArith.
From S2P Require Import Prelude.

Section Identities.
Context (d x1 y1 x2 y2 x3 y3 : Z).

Definition eqn (x y : Z) : Z := y * y - x * x - (1 + d * (x * x) * (y * y)).
Definition nx (x y x' y' : Z) : Z := x * y' + y * x'.
Definition ny (x y x' y' : Z) : Z := y * y' + x * x'.
Definition dx (x y x' y' : Z) : Z := 1 + d * x * x' * y * y'.
Definition dy (x y x' y' : Z) : Z := 1 - d * x * x' * y * y'.

Definition closure_1 : Z :=
    y2 ^ 4 - 4 * x2 ^ 2 * y2 ^ 2 + 2 * x2 ^ 2 * y2 ^ 4 + x2 ^ 4 - 2 * x2 ^ 4 * y2 ^ 2
    - 2 * d * x2 ^ 2 * y2 ^ 2 - 2 * d * x2 ^ 4 * y2 ^ 4 - d * y1 ^ 2 * x2 ^ 2 * y2 ^ 4
    + d * y1 ^ 2 * x2 ^ 4 * y2 ^ 2 + d * x1 ^ 2 * x2 ^ 2 * y2 ^ 4 - d * x1 ^ 2 * x2 ^ 4 * y2 ^ 2
    - d ^ 2 * x2 ^ 4 * y2 ^ 4 + d ^ 2 * y1 ^ 2 * x2 ^ 4 * y2 ^ 4 - d ^ 2 * x1 ^ 2 * x2 ^ 4 * y2 ^ 4
    + d ^ 3 * x1 ^ 2 * y1 ^ 2 * x2 ^ 4 * y2 ^ 4.

Definition closure_2 : Z :=
    1 + y2 ^ 2 - x2 ^ 2 + 2 * x2 ^ 2 * y2 ^ 2 - y1 ^ 2 * y2 ^ 2 + y1 ^ 2 * x2 ^ 2
    - 2 * y1 ^ 2 * x2 ^ 2 * y2 ^ 2 + x1 ^ 2 * y2 ^ 2 - x1 ^ 2 * x2 ^ 2 + 2 * x1 ^ 2 * x2 ^ 2 * y2 ^ 2
    + d * x2 ^ 2 * y2 ^ 2 - 2 * d * y1 ^ 2 * x2 ^ 2 * y2 ^ 2 + d * y1 ^ 4 * x2 ^ 2 * y2 ^ 2
    + 2 * d * x1 ^ 2 * x2 ^ 2 * y2 ^ 2 + d * x1 ^ 4 * x2 ^ 2 * y2 ^ 2.

Definition assoc_x_1 : Z :=
    - d * y1 * x2 * y2 ^ 4 * x3 ^ 2 * y3 - d * y1 * x2 ^ 2 * y2 ^ 3 * x3
    - d * y1 * x2 ^ 2 * y2 ^ 3 * x3 ^ 3 - d * y1 * x2 ^ 3 * y2 ^ 2 * y3
    + d * y1 * x2 ^ 3 * y2 ^ 2 * y3 ^ 3 + d * y1 * x2 ^ 4 * y2 * x3 * y3 ^ 2
    + d * x1 * x2 * y2 ^ 4 * x3 * y3 ^ 2 - d * x1 * x2 ^ 2 * y2 ^ 3 * y3
    + d * x1 * x2 ^ 2 * y2 ^ 3 * y3 ^ 3 - d * x1 * x2 ^ 3 * y2 ^ 2 * x3
    - d * x1 * x2 ^ 3 * y2 ^ 2 * x3 ^ 3 - d * x1 * x2 ^ 4 * y2 * x3 ^ 2 * y3
    + d ^ 2 * y1 * x2 ^ 3 * y2 ^ 4 * x3 ^ 2 * y3 + d ^ 2 * y1 * x2 ^ 4 * y2 ^ 3 * x3 * y3 ^ 2
    - d ^ 2 * x1 * x2 ^ 3 * y2 ^ 4 * x3 * y3 ^ 2 - d ^ 2 * x1 * x2 ^ 4 * y2 ^ 3 * x3 ^ 2 * y3.

Definition assoc_x_2 : Z :=
    y1 * y2 * x3 - y1 * y2 * x3 * y3 ^ 2 + y1 * y2 * x3 ^ 3 + y1 * x2 * y3 - y1 * x2 * y3 ^ 3
    + y1 * x2 * x3 ^ 2 * y3 - y1 ^ 3 * y2 * x3 + y1 ^ 3 * y2 * x3 * y3 ^ 2 - y1 ^ 3 * y2 * x3 ^ 3
    - y1 ^ 3 * x2 * y3 + y1 ^ 3 * x2 * y3 ^ 3 - y1 ^ 3 * x2 * x3 ^ 2 * y3 + x1 * y2 * y3
    - x1 * y2 * y3 ^ 3 + x1 * y2 * x3 ^ 2 * y3 + x1 * x2 * x3 - x1 * x2 * x3 * y3 ^ 2
    + x1 * x2 * x3 ^ 3 - x1 * y1 ^ 2 * y2 * y3 + x1 * y1 ^ 2 * y2 * y3 ^ 3
    - x1 * y1 ^ 2 * y2 * x3 ^ 2 * y3 - x1 * y1 ^ 2 * x2 * x3 + x1 * y1 ^ 2 * x2 * x3 * y3 ^ 2
    - x1 * y1 ^ 2 * x2 * x3 ^ 3 + x1 ^ 2 * y1 * y2 * x3 - x1 ^ 2 * y1 * y2 * x3 * y3 ^ 2
    + x1 ^ 2 * y1 * y2 * x3 ^ 3 + x1 ^ 2 * y1 * x2 * y3 - x1 ^ 2 * y1 * x2 * y3 ^ 3
    + x1 ^ 2 * y1 * x2 * x3 ^ 2 * y3 + x1 ^ 3 * y2 * y3 - x1 ^ 3 * y2 * y3 ^ 3
    + x1 ^ 3 * y2 * x3 ^ 2 * y3 + x1 ^ 3 * x2 * x3 - x1 ^ 3 * x2 * x3 * y3 ^ 2 + x1 ^ 3 * x2 * x3 ^ 3
    + d * y1 * y2 * x3 ^ 3 * y3 ^ 2 + d * y1 * x2 * x3 ^ 2 * y3 ^ 3
    - d * y1 * x2 * y2 ^ 2 * x3 ^ 2 * y3 - d * y1 * x2 ^ 2 * y2 * x3 * y3 ^ 2
    - d * y1 ^ 3 * y2 * x3 ^ 3 * y3 ^ 2 - d * y1 ^ 3 * x2 * x3 ^ 2 * y3 ^ 3
    + d * y1 ^ 3 * x2 * y2 ^ 2 * x3 ^ 2 * y3 + d * y1 ^ 3 * x2 ^ 2 * y2 * x3 * y3 ^ 2
    + d * x1 * y2 * x3 ^ 2 * y3 ^ 3 + d * x1 * x2 * x3 ^ 3 * y3 ^ 2
    + d * x1 * x2 * y2 ^ 2 * x3 * y3 ^ 2 + d * x1 * x2 ^ 2 * y2 * x3 ^ 2 * y3
    - d * x1 * y1 ^ 2 * y2 * x3 ^ 2 * y3 ^ 3 - d * x1 * y1 ^ 2 * x2 * x3 ^ 3 * y3 ^ 2
    - d * x1 * y1 ^ 2 * x2 * y2 ^ 2 * x3 * y3 ^ 2 - d * x1 * y1 ^ 2 * x2 ^ 2 * y2 * x3 ^ 2 * y3
    + d * x1 ^ 2 * y1 * y2 * x3 ^ 3 * y3 ^ 2 + d * x1 ^ 2 * y1 * x2 * x3 ^ 2 * y3 ^ 3
    - d * x1 ^ 2 * y1 * x2 * y2 ^ 2 * x3 ^ 2 * y3 - d * x1 ^ 2 * y1 * x2 ^ 2 * y2 * x3 * y3 ^ 2
    + d * x1 ^ 3 * y2 * x3 ^ 2 * y3 ^ 3 + d * x1 ^ 3 * x2 * x3 ^ 3 * y3 ^ 2
    + d * x1 ^ 3 * x2 * y2 ^ 2 * x3 * y3 ^ 2 + d * x1 ^ 3 * x2 ^ 2 * y2 * x3 ^ 2 * y3
    + d ^ 2 * x1 * y1 ^ 2 * x2 * y2 ^ 2 * x3 ^ 3 * y3 ^ 2
    - d ^ 2 * x1 * y1 ^ 2 * x2 ^ 2 * y2 * x3 ^ 2 * y3 ^ 3
    - d ^ 2 * x1 ^ 2 * y1 * x2 * y2 ^ 2 * x3 ^ 2 * y3 ^ 3
    + d ^ 2 * x1 ^ 2 * y1 * x2 ^ 2 * y2 * x3 ^ 3 * y3 ^ 2.

Definition assoc_x_3 : Z :=
    - y1 * y2 * x3 + y1 * y2 ^ 3 * x3 - y1 * x2 * y3 + y1 * x2 * y2 ^ 2 * y3 - y1 * x2 ^ 2 * y2 * x3
    - y1 * x2 ^ 3 * y3 + y1 ^ 3 * y2 * x3 - y1 ^ 3 * y2 ^ 3 * x3 + y1 ^ 3 * x2 * y3
    - y1 ^ 3 * x2 * y2 ^ 2 * y3 + y1 ^ 3 * x2 ^ 2 * y2 * x3 + y1 ^ 3 * x2 ^ 3 * y3 - x1 * y2 * y3
    + x1 * y2 ^ 3 * y3 - x1 * x2 * x3 + x1 * x2 * y2 ^ 2 * x3 - x1 * x2 ^ 2 * y2 * y3
    - x1 * x2 ^ 3 * x3 + x1 * y1 ^ 2 * y2 * y3 - x1 * y1 ^ 2 * y2 ^ 3 * y3 + x1 * y1 ^ 2 * x2 * x3
    - x1 * y1 ^ 2 * x2 * y2 ^ 2 * x3 + x1 * y1 ^ 2 * x2 ^ 2 * y2 * y3 + x1 * y1 ^ 2 * x2 ^ 3 * x3
    - x1 ^ 2 * y1 * y2 * x3 + x1 ^ 2 * y1 * y2 ^ 3 * x3 - x1 ^ 2 * y1 * x2 * y3
    + x1 ^ 2 * y1 * x2 * y2 ^ 2 * y3 - x1 ^ 2 * y1 * x2 ^ 2 * y2 * x3 - x1 ^ 2 * y1 * x2 ^ 3 * y3
    - x1 ^ 3 * y2 * y3 + x1 ^ 3 * y2 ^ 3 * y3 - x1 ^ 3 * x2 * x3 + x1 ^ 3 * x2 * y2 ^ 2 * x3
    - x1 ^ 3 * x2 ^ 2 * y2 * y3 - x1 ^ 3 * x2 ^ 3 * x3 - d * x1 * y1 ^ 2 * x2 * y2 ^ 2 * x3
    + d * x1 * y1 ^ 2 * x2 ^ 2 * y2 * y3 + d * x1 ^ 2 * y1 * x2 * y2 ^ 2 * y3
    - d * x1 ^ 2 * y1 * x2 ^ 2 * y2 * x3.

Definition assoc_y_1 : Z :=
    d * y1 * x2 * y2 ^ 4 * x3 * y3 ^ 2 - d * y1 * x2 ^ 2 * y2 ^ 3 * y3
    + d * y1 * x2 ^ 2 * y2 ^ 3 * y3 ^ 3 - d * y1 * x2 ^ 3 * y2 ^ 2 * x3
    - d * y1 * x2 ^ 3 * y2 ^ 2 * x3 ^ 3 - d * y1 * x2 ^ 4 * y2 * x3 ^ 2 * y3
    - d * x1 * x2 * y2 ^ 4 * x3 ^ 2 * y3 - d * x1 * x2 ^ 2 * y2 ^ 3 * x3
    - d * x1 * x2 ^ 2 * y2 ^ 3 * x3 ^ 3 - d * x1 * x2 ^ 3 * y2 ^ 2 * y3
    + d * x1 * x2 ^ 3 * y2 ^ 2 * y3 ^ 3 + d * x1 * x2 ^ 4 * y2 * x3 * y3 ^ 2
    - d ^ 2 * y1 * x2 ^ 3 * y2 ^ 4 * x3 * y3 ^ 2 - d ^ 2 * y1 * x2 ^ 4 * y2 ^ 3 * x3 ^ 2 * y3
    + d ^ 2 * x1 * x2 ^ 3 * y2 ^ 4 * x3 ^ 2 * y3 + d ^ 2 * x1 * x2 ^ 4 * y2 ^ 3 * x3 * y3 ^ 2.

Definition assoc_y_2 : Z :=
    y1 * y2 * y3 - y1 * y2 * y3 ^ 3 + y1 * y2 * x3 ^ 2 * y3 + y1 * x2 * x3 - y1 * x2 * x3 * y3 ^ 2
    + y1 * x2 * x3 ^ 3 - y1 ^ 3 * y2 * y3 + y1 ^ 3 * y2 * y3 ^ 3 - y1 ^ 3 * y2 * x3 ^ 2 * y3
    - y1 ^ 3 * x2 * x3 + y1 ^ 3 * x2 * x3 * y3 ^ 2 - y1 ^ 3 * x2 * x3 ^ 3 + x1 * y2 * x3
    - x1 * y2 * x3 * y3 ^ 2 + x1 * y2 * x3 ^ 3 + x1 * x2 * y3 - x1 * x2 * y3 ^ 3
    + x1 * x2 * x3 ^ 2 * y3 - x1 * y1 ^ 2 * y2 * x3 + x1 * y1 ^ 2 * y2 * x3 * y3 ^ 2
    - x1 * y1 ^ 2 * y2 * x3 ^ 3 - x1 * y1 ^ 2 * x2 * y3 + x1 * y1 ^ 2 * x2 * y3 ^ 3
    - x1 * y1 ^ 2 * x2 * x3 ^ 2 * y3 + x1 ^ 2 * y1 * y2 * y3 - x1 ^ 2 * y1 * y2 * y3 ^ 3
    + x1 ^ 2 * y1 * y2 * x3 ^ 2 * y3 + x1 ^ 2 * y1 * x2 * x3 - x1 ^ 2 * y1 * x2 * x3 * y3 ^ 2
    + x1 ^ 2 * y1 * x2 * x3 ^ 3 + x1 ^ 3 * y2 * x3 - x1 ^ 3 * y2 * x3 * y3 ^ 2 + x1 ^ 3 * y2 * x3 ^ 3
    + x1 ^ 3 * x2 * y3 - x1 ^ 3 * x2 * y3 ^ 3 + x1 ^ 3 * x2 * x3 ^ 2 * y3
    + d * y1 * y2 * x3 ^ 2 * y3 ^ 3 + d * y1 * x2 * x3 ^ 3 * y3 ^ 2
    + d * y1 * x2 * y2 ^ 2 * x3 * y3 ^ 2 + d * y1 * x2 ^ 2 * y2 * x3 ^ 2 * y3
    - d * y1 ^ 3 * y2 * x3 ^ 2 * y3 ^ 3 - d * y1 ^ 3 * x2 * x3 ^ 3 * y3 ^ 2
    - d * y1 ^ 3 * x2 * y2 ^ 2 * x3 * y3 ^ 2 - d * y1 ^ 3 * x2 ^ 2 * y2 * x3 ^ 2 * y3
    + d * x1 * y2 * x3 ^ 3 * y3 ^ 2 + d * x1 * x2 * x3 ^ 2 * y3 ^ 3
    - d * x1 * x2 * y2 ^ 2 * x3 ^ 2 * y3 - d * x1 * x2 ^ 2 * y2 * x3 * y3 ^ 2
    - d * x1 * y1 ^ 2 * y2 * x3 ^ 3 * y3 ^ 2 - d * x1 * y1 ^ 2 * x2 * x3 ^ 2 * y3 ^ 3
    + d * x1 * y1 ^ 2 * x2 * y2 ^ 2 * x3 ^ 2 * y3 + d * x1 * y1 ^ 2 * x2 ^ 2 * y2 * x3 * y3 ^ 2
    + d * x1 ^ 2 * y1 * y2 * x3 ^ 2 * y3 ^ 3 + d * x1 ^ 2 * y1 * x2 * x3 ^ 3 * y3 ^ 2
    + d * x1 ^ 2 * y1 * x2 * y2 ^ 2 * x3 * y3 ^ 2 + d * x1 ^ 2 * y1 * x2 ^ 2 * y2 * x3 ^ 2 * y3
    + d * x1 ^ 3 * y2 * x3 ^ 3 * y3 ^ 2 + d * x1 ^ 3 * x2 * x3 ^ 2 * y3 ^ 3
    - d * x1 ^ 3 * x2 * y2 ^ 2 * x3 ^ 2 * y3 - d * x1 ^ 3 * x2 ^ 2 * y2 * x3 * y3 ^ 2
    + d ^ 2 * x1 * y1 ^ 2 * x2 * y2 ^ 2 * x3 ^ 2 * y3 ^ 3
    - d ^ 2 * x1 * y1 ^ 2 * x2 ^ 2 * y2 * x3 ^ 3 * y3 ^ 2
    - d ^ 2 * x1 ^ 2 * y1 * x2 * y2 ^ 2 * x3 ^ 3 * y3 ^ 2
    + d ^ 2 * x1 ^ 2 * y1 * x2 ^ 2 * y2 * x3 ^ 2 * y3 ^ 3.

Definition assoc_y_3 : Z :=
    - y1 * y2 * y3 + y1 * y2 ^ 3 * y3 - y1 * x2 * x3 + y1 * x2 * y2 ^ 2 * x3 - y1 * x2 ^ 2 * y2 * y3
    - y1 * x2 ^ 3 * x3 + y1 ^ 3 * y2 * y3 - y1 ^ 3 * y2 ^ 3 * y3 + y1 ^ 3 * x2 * x3
    - y1 ^ 3 * x2 * y2 ^ 2 * x3 + y1 ^ 3 * x2 ^ 2 * y2 * y3 + y1 ^ 3 * x2 ^ 3 * x3 - x1 * y2 * x3
    + x1 * y2 ^ 3 * x3 - x1 * x2 * y3 + x1 * x2 * y2 ^ 2 * y3 - x1 * x2 ^ 2 * y2 * x3
    - x1 * x2 ^ 3 * y3 + x1 * y1 ^ 2 * y2 * x3 - x1 * y1 ^ 2 * y2 ^ 3 * x3 + x1 * y1 ^ 2 * x2 * y3
    - x1 * y1 ^ 2 * x2 * y2 ^ 2 * y3 + x1 * y1 ^ 2 * x2 ^ 2 * y2 * x3 + x1 * y1 ^ 2 * x2 ^ 3 * y3
    - x1 ^ 2 * y1 * y2 * y3 + x1 ^ 2 * y1 * y2 ^ 3 * y3 - x1 ^ 2 * y1 * x2 * x3
    + x1 ^ 2 * y1 * x2 * y2 ^ 2 * x3 - x1 ^ 2 * y1 * x2 ^ 2 * y2 * y3 - x1 ^ 2 * y1 * x2 ^ 3 * x3
    - x1 ^ 3 * y2 * x3 + x1 ^ 3 * y2 ^ 3 * x3 - x1 ^ 3 * x2 * y3 + x1 ^ 3 * x2 * y2 ^ 2 * y3
    - x1 ^ 3 * x2 ^ 2 * y2 * x3 - x1 ^ 3 * x2 ^ 3 * y3 - d * x1 * y1 ^ 2 * x2 * y2 ^ 2 * y3
    + d * x1 * y1 ^ 2 * x2 ^ 2 * y2 * x3 + d * x1 ^ 2 * y1 * x2 * y2 ^ 2 * x3
    - d * x1 ^ 2 * y1 * x2 ^ 2 * y2 * y3.

Local Abbreviation nx12 := (nx x1 y1 x2 y2).
Local Abbreviation ny12 := (ny x1 y1 x2 y2).
Local Abbreviation dx12 := (dx x1 y1 x2 y2).
Local Abbreviation dy12 := (dy x1 y1 x2 y2).
Local Abbreviation nx23 := (nx x2 y2 x3 y3).
Local Abbreviation ny23 := (ny x2 y2 x3 y3).
Local Abbreviation dx23 := (dx x2 y2 x3 y3).
Local Abbreviation dy23 := (dy x2 y2 x3 y3).

Lemma closure_identity :
  (ny12 * dx12) * (ny12 * dx12) - (nx12 * dy12) * (nx12 * dy12) -
    ((dx12 * dy12) * (dx12 * dy12) + d * (nx12 * nx12) * (ny12 * ny12)) =
  closure_1 * eqn x1 y1 + closure_2 * eqn x2 y2.
Proof. unfold closure_1, closure_2, eqn, nx, ny, dx, dy. ring. Qed.

Lemma assoc_x_identity :
  (nx12 * dy12 * y3 + ny12 * dx12 * x3) * (dx23 * dy23 + d * nx23 * ny23 * x1 * y1) -
    (x1 * ny23 * dx23 + y1 * nx23 * dy23) * (dx12 * dy12 + d * nx12 * ny12 * x3 * y3) =
  assoc_x_1 * eqn x1 y1 + assoc_x_2 * eqn x2 y2 + assoc_x_3 * eqn x3 y3.
Proof. unfold assoc_x_1, assoc_x_2, assoc_x_3, eqn, nx, ny, dx, dy. ring. Qed.

Lemma assoc_y_identity :
  (ny12 * dx12 * y3 + nx12 * dy12 * x3) * (dx23 * dy23 - d * nx23 * ny23 * x1 * y1) -
    (y1 * ny23 * dx23 + x1 * nx23 * dy23) * (dx12 * dy12 - d * nx12 * ny12 * x3 * y3) =
  assoc_y_1 * eqn x1 y1 + assoc_y_2 * eqn x2 y2 + assoc_y_3 * eqn x3 y3.
Proof. unfold assoc_y_1, assoc_y_2, assoc_y_3, eqn, nx, ny, dx, dy. ring. Qed.
End Identities.
