(* ===== verification/Edwards.v ===== *)
(** * The curve group

    The abstract specification of the group operations: the twisted Edwards
    curve [-x^2 + y^2 = 1 + d x^2 y^2] over the integers modulo [p], with its
    complete addition law, is a commutative group. *)

From stdpp Require Import base list numbers.
From Stdlib Require Import ZArith Lia Zmod Zpow_facts.
From S2P Require Import Prelude Limbs Field FieldFacts Prime CurveIdentities.

(** ** The field *)
Definition inv (a : Z) : Z := a ^ (p - 2).

Lemma eqp_iff x y : x =ₚ y <-> exists k, x = y + k * p.
Proof.
  split; [|intros [k ->]; by apply (eqp_shift _ _ k)]. intros H. exists (x / p - y / p).
  unfold eqp in H. rewrite !Z.mod_eq in H by done. lia.
Qed.

Lemma eqp_0 a : a =ₚ 0 <-> (p | a).
Proof. rewrite eqp_iff. split; intros [k Hk]; exists k; lia. Qed.

Lemma eqp_mul_0 a b : a * b =ₚ 0 -> a =ₚ 0 \/ b =ₚ 0.
Proof. rewrite !eqp_0. intros H. by apply Z.divide_prime_mul in H; [|apply prime_p]. Qed.

Lemma eqp_sub_0 a b : a - b =ₚ 0 <-> a =ₚ b.
Proof. rewrite !eqp_iff. split; intros [k Hk]; exists k; lia. Qed.

Lemma eqp_mul_l c a b : ~ c =ₚ 0 -> c * a =ₚ c * b -> a =ₚ b.
Proof.
  intros Hc H. apply eqp_sub_0 in H. rewrite <- Z.mul_sub_distr_l in H.
  apply eqp_mul_0 in H as [H|H]; [done|]. by apply eqp_sub_0.
Qed.

Lemma neq_mul a b : ~ a =ₚ 0 -> ~ b =ₚ 0 -> ~ a * b =ₚ 0.
Proof. intros Ha Hb H. by apply eqp_mul_0 in H as [H|H]. Qed.

Lemma fermat a : ~ a =ₚ 0 -> a ^ (p - 1) =ₚ 1.
Proof. intros Ha. unfold eqp. rewrite Z.fermat_nz; [done|apply prime_p|exact Ha]. Qed.

Lemma mul_inv a : ~ a =ₚ 0 -> a * inv a =ₚ 1.
Proof.
  intros Ha. rewrite <- (fermat a Ha). unfold inv. apply eqp_of_eq.
  rewrite <- Z.pow_succ_r by (unfold p; lia). f_equal.
Qed.

#[export] Instance inv_proper : Proper (eqp ==> eqp) inv.
Proof. intros x y H. apply eqp_pow; [unfold p; lia|done]. Qed.

(** Division: [x = n / m]. *)
Lemma div_unique n m x : ~ m =ₚ 0 -> x * m =ₚ n -> x =ₚ n * inv m.
Proof.
  intros Hm Hx. rewrite <- Hx, <- Z.mul_assoc, mul_inv by done. by rewrite Z.mul_1_r.
Qed.

Lemma div_mul n m : ~ m =ₚ 0 -> (n * inv m) * m =ₚ n.
Proof. intros Hm. rewrite <- Z.mul_assoc, (Z.mul_comm (inv m)), mul_inv by done. by rewrite Z.mul_1_r. Qed.

(** A congruence that is a linear combination of others. *)
Lemma eqp_comb1 c a b x y : a =ₚ b -> x - y = c * (a - b) -> x =ₚ y.
Proof. intros H E. apply eqp_sub_0 in H. apply eqp_sub_0. by rewrite E, H, Z.mul_0_r. Qed.

Lemma eqp_comb2 c c' a b a' b' x y :
  a =ₚ b -> a' =ₚ b' -> x - y = c * (a - b) + c' * (a' - b') -> x =ₚ y.
Proof.
  intros H H' E. apply eqp_sub_0 in H, H'. apply eqp_sub_0. by rewrite E, H, H', !Z.mul_0_r.
Qed.

Lemma eqp_comb3 c1 c2 c3 a1 b1 a2 b2 a3 b3 x y :
  a1 =ₚ b1 -> a2 =ₚ b2 -> a3 =ₚ b3 ->
  x - y = c1 * (a1 - b1) + c2 * (a2 - b2) + c3 * (a3 - b3) -> x =ₚ y.
Proof.
  intros H1 H2 H3 E. apply eqp_sub_0 in H1, H2, H3. apply eqp_sub_0.
  by rewrite E, H1, H2, H3, !Z.mul_0_r.
Qed.

(** ** The curve *)
Definition d : Z := 37095705934669439343138083508754565189542113879843219016388785533085940283555.

Lemma d_fraction : d * 121666 =ₚ -121665.
Proof. unfold eqp. by vm_compute. Qed.

(** A square root of [-1]. *)
Definition i_ : Z := 19681161376707505956807079304988542015446066515923890162744021073123829784752.

Lemma i_square : i_ * i_ =ₚ -1.
Proof. unfold eqp. by vm_compute. Qed.

Lemma d_not_square : d ^ ((p - 1) / 2) =ₚ -1.
Proof.
  unfold eqp. rewrite <- Zpow_mod_correct by (unfold p; lia). by vm_compute.
Qed.

Lemma half_p : 2 * ((p - 1) / 2) = p - 1.
Proof. by vm_compute. Qed.

(** Euler's criterion: such a [c] is not the quotient of two squares. *)
Lemma nonsquare c a b : c ^ ((p - 1) / 2) =ₚ -1 -> ~ b =ₚ 0 -> ~ c * (b * b) =ₚ a * a.
Proof.
  intros Hc1 Hb H. pose proof half_p as Hh. assert (0 < (p - 1) / 2) as Hh0 by (by vm_compute).
  generalize dependent ((p - 1) / 2). intros h Hc1 Hh Hh0.
  assert (~ c =ₚ 0) as Hc.
  { intros Hc. rewrite (eqp_pow _ _ h ltac:(lia) Hc), Z.pow_0_l in Hc1 by lia. by vm_compute in Hc1. }
  assert (~ a =ₚ 0) as Ha.
  { intros Ha. rewrite Ha in H. apply eqp_mul_0 in H as [H|H]; [done|]. by apply eqp_mul_0 in H as [H|H]. }
  assert (forall x, ~ x =ₚ 0 -> (x * x) ^ h =ₚ 1) as Hs.
  { intros x Hx. rewrite <- Z.pow_2_r, <- Z.pow_mul_r, Hh by lia. by apply fermat. }
  apply (eqp_pow _ _ h ltac:(lia)) in H. rewrite Z.pow_mul_l, (Hs a Ha), (Hs b Hb), Hc1 in H.
  by vm_compute in H.
Qed.

Lemma d_nonsquare a b : ~ b =ₚ 0 -> ~ d * (b * b) =ₚ a * a.
Proof. apply nonsquare, d_not_square. Qed.

(** ** Points *)
Definition pt : Type := Z * Z.
Definition pt_eq (P Q : pt) : Prop := P.1 =ₚ Q.1 /\ P.2 =ₚ Q.2.
Infix "≡ₚ" := pt_eq (at level 70).

#[export] Instance pt_eq_equiv : Equivalence pt_eq.
Proof.
  split.
  - intros P. by split.
  - intros P Q [H1 H2]. by split.
  - intros P Q R [H1 H2] [H3 H4]. split; etransitivity; eassumption.
Qed.

Definition on_curve (P : pt) : Prop :=
  let '(x, y) := P in y * y - x * x =ₚ 1 + d * (x * x) * (y * y).

Definition dxy (P Q : pt) : Z := let '(x, y) := P in let '(x', y') := Q in d * x * x' * y * y'.

Definition padd (P Q : pt) : pt :=
  let '(x, y) := P in let '(x', y') := Q in
  ((x * y' + y * x') * inv (1 + dxy P Q), (y * y' + x * x') * inv (1 - dxy P Q)).
Definition pneg (P : pt) : pt := let '(x, y) := P in (- x, y).
Definition pzero : pt := (0, 1).

#[export] Instance on_curve_proper : Proper (pt_eq ==> iff) on_curve.
Proof. intros [x y] [x' y'] [Hx Hy]. simpl in *. by rewrite Hx, Hy. Qed.

#[export] Instance padd_proper : Proper (pt_eq ==> pt_eq ==> pt_eq) padd.
Proof.
  intros [x1 y1] [x1' y1'] [Hx1 Hy1] [x2 y2] [x2' y2'] [Hx2 Hy2]. unfold padd, dxy, pt_eq. simpl in *.
  by rewrite Hx1, Hy1, Hx2, Hy2.
Qed.

#[export] Instance pneg_proper : Proper (pt_eq ==> pt_eq) pneg.
Proof. intros [x y] [x' y'] [Hx Hy]. split; simpl in *; by rewrite ?Hx, ?Hy. Qed.

(** ** Completeness: the denominators of the addition law do not vanish *)
Lemma ones_apart : ~ 1 =ₚ 0.
Proof. unfold eqp. by vm_compute. Qed.

Lemma complete_root x y x' y' e s :
  on_curve (x, y) -> on_curve (x', y') -> d * x * x' * y * y' =ₚ e -> e * e =ₚ 1 -> s * s =ₚ 1 ->
  let c := x * y * (i_ * x' + s * y') in let a := i_ * x + s * e * y in d * (c * c) =ₚ a * a.
Proof.
  simpl. intros H H' He Hee Hs. pose proof i_square as Hi.
  transitivity (y * y - x * x + 2 * i_ * s * x * y * e).
  - transitivity (d * (x * x) * (y * y) * (s * s * (y' * y') + i_ * i_ * (x' * x')) +
      2 * i_ * s * x * y * (d * x * x' * y * y')); [apply eqp_of_eq; ring|].
    rewrite Hi, Hs, He.
    transitivity (d * (x * x) * (y * y) * (y' * y' - x' * x') + 2 * i_ * s * x * y * e); [apply eqp_of_eq; ring|].
    rewrite H'.
    transitivity (d * (x * x) * (y * y) + (d * x * x' * y * y') * (d * x * x' * y * y') +
      2 * i_ * s * x * y * e); [apply eqp_of_eq; ring|].
    rewrite He, Hee, H. apply eqp_of_eq. ring.
  - symmetry. transitivity (i_ * i_ * (x * x) + (s * s) * (e * e) * (y * y) + 2 * i_ * s * x * y * e);
      [apply eqp_of_eq; ring|].
    rewrite Hi, Hs, Hee. apply eqp_of_eq. ring.
Qed.

Lemma complete_square x y x' y' e :
  on_curve (x, y) -> on_curve (x', y') -> d * x * x' * y * y' =ₚ e -> e * e =ₚ 1 -> False.
Proof.
  simpl. intros H H' He Hee.
  assert (~ x * y =ₚ 0) as Hxy.
  { intros H0. apply ones_apart. rewrite <- Hee, <- He.
    apply (eqp_comb1 (d * d * x * x' * y * y' * x' * y') _ _ _ _ H0). ring. }
  assert (~ x' =ₚ 0) as Hx'.
  { intros H0. apply ones_apart. rewrite <- Hee, <- He.
    apply (eqp_comb1 (d * d * x * x' * y * y' * x * y * y') _ _ _ _ H0). ring. }
  assert (forall s, s * s =ₚ 1 -> i_ * x' + s * y' =ₚ 0) as Hroot.
  { intros s Hs. destruct (decide ((i_ * x' + s * y') mod p = 0 mod p)) as [|Hn]; [done|exfalso].
    apply (d_nonsquare (i_ * x + s * e * y) (x * y * (i_ * x' + s * y'))); [by apply neq_mul|].
    by apply complete_root. }
  apply (neq_mul (2 * i_) x'); [by unfold eqp; vm_compute | done|].
  apply (eqp_comb2 1 1 _ _ _ _ _ _ (Hroot 1 ltac:(done)) (Hroot (-1) ltac:(done))). ring.
Qed.

Lemma complete P Q : on_curve P -> on_curve Q -> ~ 1 + dxy P Q =ₚ 0 /\ ~ 1 - dxy P Q =ₚ 0.
Proof.
  destruct P as [x y], Q as [x' y']. intros HP HQ. unfold dxy. split; intros H.
  - apply (complete_square x y x' y' (-1) HP HQ); [|done].
    apply (eqp_comb1 1 _ _ _ _ H). ring.
  - apply (complete_square x y x' y' 1 HP HQ); [|done].
    apply (eqp_comb1 (-1) _ _ _ _ H). ring.
Qed.

(** The coordinates of a sum, without division. *)
Lemma padd_spec P Q :
  on_curve P -> on_curve Q ->
  (padd P Q).1 * (1 + dxy P Q) =ₚ P.1 * Q.2 + P.2 * Q.1 /\
  (padd P Q).2 * (1 - dxy P Q) =ₚ P.2 * Q.2 + P.1 * Q.1.
Proof.
  intros HP HQ. destruct (complete P Q HP HQ) as [H1 H2]. destruct P as [x y], Q as [x' y'].
  unfold padd. cbn [fst snd]. split; by apply div_mul.
Qed.

Lemma padd_unique P Q x y :
  on_curve P -> on_curve Q ->
  x * (1 + dxy P Q) =ₚ P.1 * Q.2 + P.2 * Q.1 -> y * (1 - dxy P Q) =ₚ P.2 * Q.2 + P.1 * Q.1 ->
  padd P Q ≡ₚ (x, y).
Proof.
  intros HP HQ Hx Hy. destruct (complete P Q HP HQ) as [H1 H2]. destruct P as [x1 y1], Q as [x2 y2].
  unfold padd. split; cbn [fst snd]; symmetry; by apply div_unique.
Qed.

(** ** The group laws *)
Lemma on_curve_eqn x y : on_curve (x, y) -> eqn d x y =ₚ 0.
Proof. intros H. by apply eqp_sub_0 in H. Qed.

Lemma padd_on_curve P Q : on_curve P -> on_curve Q -> on_curve (padd P Q).
Proof.
  intros HP HQ. destruct (padd_spec P Q HP HQ) as [Hx Hy]. destruct (complete P Q HP HQ) as [D1 D2].
  destruct P as [x1 y1], Q as [x2 y2], (padd _ _) as [x y]. unfold dxy in *. cbn [fst snd] in *.
  pose proof (closure_identity d x1 y1 x2 y2) as I. unfold nx, ny, dx, dy in I.
  set (N1 := x1 * y2 + y1 * x2) in *. set (N2 := y1 * y2 + x1 * x2) in *.
  set (A := 1 + d * x1 * x2 * y1 * y2) in *. set (B := 1 - d * x1 * x2 * y1 * y2) in *.
  apply (eqp_mul_l ((A * B) * (A * B))); [by repeat apply neq_mul|].
  transitivity ((y * B * A) * (y * B * A) - (x * A * B) * (x * A * B)); [apply eqp_of_eq; ring|].
  transitivity ((A * B) * (A * B) + d * ((x * A) * (x * A)) * ((y * B) * (y * B))); [|apply eqp_of_eq; ring].
  rewrite Hx, Hy. apply eqp_sub_0. rewrite I.
  by rewrite (on_curve_eqn _ _ HP), (on_curve_eqn _ _ HQ), !Z.mul_0_r.
Qed.

Lemma pzero_on_curve : on_curve pzero.
Proof. unfold on_curve, pzero. apply eqp_of_eq. ring. Qed.

Lemma pneg_on_curve P : on_curve P -> on_curve (pneg P).
Proof. destruct P as [x y]. simpl. intros H. apply (eqp_comb1 1 _ _ _ _ H). ring. Qed.

Lemma padd_comm P Q : padd P Q ≡ₚ padd Q P.
Proof.
  destruct P as [x y], Q as [x' y']. unfold padd, dxy. split; cbn [fst snd].
  - replace (d * x' * x * y' * y) with (d * x * x' * y * y') by ring. apply eqp_of_eq. ring.
  - replace (d * x' * x * y' * y) with (d * x * x' * y * y') by ring. apply eqp_of_eq. ring.
Qed.

Lemma padd_0_l P : on_curve P -> padd pzero P ≡ₚ P.
Proof.
  intros HP. destruct P as [x y]. apply padd_unique; [apply pzero_on_curve|done| |];
    unfold dxy, pzero; cbn [fst snd]; apply eqp_of_eq; ring.
Qed.

Lemma padd_neg P : on_curve P -> padd P (pneg P) ≡ₚ pzero.
Proof.
  intros HP. pose proof (pneg_on_curve P HP) as HN. destruct P as [x y].
  apply padd_unique; [done|done| |]; unfold dxy, pneg in *; cbn [fst snd].
  - apply eqp_of_eq. ring.
  - simpl in HP. apply (eqp_comb1 (-1) _ _ _ _ HP). ring.
Qed.

(** Both sides of the associative law as quotients, for one coordinate. *)
Lemma cross_eq a b n m DL DR :
  ~ DL =ₚ 0 -> ~ DR =ₚ 0 -> a * DL =ₚ n -> b * DR =ₚ m -> n * DR =ₚ m * DL -> a =ₚ b.
Proof.
  intros HL HR Ha Hb H. apply (eqp_mul_l (DL * DR)); [by apply neq_mul|].
  transitivity (a * DL * DR); [apply eqp_of_eq; ring|]. rewrite Ha, H, <- Hb. apply eqp_of_eq. ring.
Qed.

Lemma padd_assoc P Q R :
  on_curve P -> on_curve Q -> on_curve R -> padd (padd P Q) R ≡ₚ padd P (padd Q R).
Proof.
  intros HP HQ HR. pose proof (padd_on_curve P Q HP HQ) as HPQ. pose proof (padd_on_curve Q R HQ HR) as HQR.
  destruct (padd_spec P Q HP HQ) as [X12 Y12], (padd_spec Q R HQ HR) as [X23 Y23].
  destruct (complete P Q HP HQ) as [A1 B1], (complete Q R HQ HR) as [A2 B2].
  destruct (padd_spec _ R HPQ HR) as [XL YL], (padd_spec P _ HP HQR) as [XR YR].
  destruct (complete _ R HPQ HR) as [AL BL], (complete P _ HP HQR) as [AR BR].
  destruct (padd (padd P Q) R) as [xL yL], (padd P (padd Q R)) as [xR yR].
  destruct P as [x1 y1], Q as [x2 y2], R as [x3 y3].
  destruct (padd (x1, y1) (x2, y2)) as [x12 y12], (padd (x2, y2) (x3, y3)) as [x23 y23].
  unfold dxy in *. cbn [fst snd] in *.
  pose proof (assoc_x_identity d x1 y1 x2 y2 x3 y3) as IX.
  pose proof (assoc_y_identity d x1 y1 x2 y2 x3 y3) as IY. unfold nx, ny, dx, dy in IX, IY.
  set (A12 := 1 + d * x1 * x2 * y1 * y2) in *. set (B12 := 1 - d * x1 * x2 * y1 * y2) in *.
  set (A23 := 1 + d * x2 * x3 * y2 * y3) in *. set (B23 := 1 - d * x2 * x3 * y2 * y3) in *.
  assert (~ (A12 * B12) * (A23 * B23) =ₚ 0) as Hc by (by repeat apply neq_mul).
  split; cbn [fst snd].
  - apply (cross_eq _ _ _ _ _ _ AL AR XL XR). apply (eqp_mul_l _ _ _ Hc).
    transitivity (((x12 * A12) * B12 * y3 + (y12 * B12) * A12 * x3) *
      (A23 * B23 + d * (x23 * A23) * (y23 * B23) * x1 * y1)); [apply eqp_of_eq; ring|].
    transitivity ((x1 * (y23 * B23) * A23 + y1 * (x23 * A23) * B23) *
      (A12 * B12 + d * (x12 * A12) * (y12 * B12) * x3 * y3)); [|apply eqp_of_eq; ring].
    rewrite X12, Y12, X23, Y23. apply eqp_sub_0. rewrite IX.
    by rewrite (on_curve_eqn _ _ HP), (on_curve_eqn _ _ HQ), (on_curve_eqn _ _ HR), !Z.mul_0_r.
  - apply (cross_eq _ _ _ _ _ _ BL BR YL YR). apply (eqp_mul_l _ _ _ Hc).
    transitivity (((y12 * B12) * A12 * y3 + (x12 * A12) * B12 * x3) *
      (A23 * B23 - d * (x23 * A23) * (y23 * B23) * x1 * y1)); [apply eqp_of_eq; ring|].
    transitivity ((y1 * (y23 * B23) * A23 + x1 * (x23 * A23) * B23) *
      (A12 * B12 - d * (x12 * A12) * (y12 * B12) * x3 * y3)); [|apply eqp_of_eq; ring].
    rewrite X12, Y12, X23, Y23. apply eqp_sub_0. rewrite IY.
    by rewrite (on_curve_eqn _ _ HP), (on_curve_eqn _ _ HQ), (on_curve_eqn _ _ HR), !Z.mul_0_r.
Qed.

(** ** Multiples *)
Lemma pneg_padd P Q : pneg (padd P Q) ≡ₚ padd (pneg P) (pneg Q).
Proof.
  destruct P as [x y], Q as [x' y']. unfold padd, dxy, pneg. split; cbn [fst snd].
  - replace (d * - x * - x' * y * y') with (d * x * x' * y * y') by ring. apply eqp_of_eq. ring.
  - replace (d * - x * - x' * y * y') with (d * x * x' * y * y') by ring. apply eqp_of_eq. ring.
Qed.

Lemma pneg_zero : pneg pzero ≡ₚ pzero.
Proof. split; apply eqp_of_eq; simpl; ring. Qed.

Lemma pneg_involutive P : pneg (pneg P) ≡ₚ P.
Proof. destruct P as [x y]. split; apply eqp_of_eq; simpl; ring. Qed.

(** [smul n P] is [n] times [P]. *)
Definition smul (n : Z) (P : pt) : pt :=
  if 0 <=? n then Nat.iter (Z.to_nat n) (padd P) pzero
  else pneg (Nat.iter (Z.to_nat (- n)) (padd P) pzero).

#[export] Instance smul_proper n : Proper (pt_eq ==> pt_eq) (smul n).
Proof.
  intros P Q H. assert (forall k, Nat.iter k (padd P) pzero ≡ₚ Nat.iter k (padd Q) pzero) as Hk.
  { induction k as [|k IH]; [done|]. simpl. by rewrite IH, H. }
  unfold smul. destruct (0 <=? n); by rewrite Hk.
Qed.

Section Multiples.
Context (P : pt).
Hypothesis HP : on_curve P.

Lemma iter_on_curve k : on_curve (Nat.iter k (padd P) pzero).
Proof. induction k as [|k IH]; [apply pzero_on_curve|]. by apply padd_on_curve. Qed.

Lemma smul_on_curve n : on_curve (smul n P).
Proof.
  unfold smul. destruct (0 <=? n); [apply iter_on_curve|]. apply pneg_on_curve, iter_on_curve.
Qed.

Lemma smul_0 : smul 0 P ≡ₚ pzero.
Proof. done. Qed.

Lemma smul_succ n : smul (n + 1) P ≡ₚ padd (smul n P) P.
Proof.
  unfold smul. destruct (Z.leb_spec 0 n), (Z.leb_spec 0 (n + 1)); try lia.
  - replace (Z.to_nat (n + 1)) with (S (Z.to_nat n)) by lia. simpl. apply padd_comm.
  - replace n with (-1) by lia. simpl. rewrite padd_comm, (padd_comm P pzero), padd_0_l, padd_neg by done. done.
  - replace (Z.to_nat (- n)) with (S (Z.to_nat (- (n + 1)))) by lia. simpl.
    set (Q := Nat.iter _ _ _). assert (on_curve Q) by apply iter_on_curve.
    rewrite pneg_padd, (padd_comm (pneg P)), padd_assoc, (padd_comm (pneg P) P), padd_neg, padd_comm, padd_0_l;
      try done; by apply pneg_on_curve.
Qed.

Lemma smul_1 : smul 1 P ≡ₚ P.
Proof. change 1 with (0 + 1). by rewrite smul_succ, smul_0, padd_0_l. Qed.

Lemma padd_cancel Q R S : on_curve Q -> on_curve R -> on_curve S -> padd Q S ≡ₚ padd R S -> Q ≡ₚ R.
Proof.
  intros HQ HR HS H. assert (forall T, on_curve T -> padd (padd T S) (pneg S) ≡ₚ T) as Hc.
  { intros T HT. rewrite padd_assoc, padd_neg, padd_comm, padd_0_l by (done || by apply pneg_on_curve). done. }
  by rewrite <- (Hc Q HQ), H, Hc.
Qed.

Lemma smul_pred n : padd (smul (n - 1) P) P ≡ₚ smul n P.
Proof. rewrite <- smul_succ. by replace (n - 1 + 1) with n by lia. Qed.

Lemma smul_add m n : smul (m + n) P ≡ₚ padd (smul m P) (smul n P).
Proof.
  pattern n. apply Z.peano_ind; clear n.
  - rewrite Z.add_0_r, smul_0, padd_comm, padd_0_l by apply smul_on_curve. done.
  - intros n IH. replace (m + Z.succ n) with (m + n + 1) by lia. unfold Z.succ.
    rewrite !smul_succ, IH, padd_assoc by (done || apply smul_on_curve). done.
  - intros n IH. apply (padd_cancel _ _ P); [apply smul_on_curve|apply padd_on_curve; apply smul_on_curve|done|].
    replace (m + Z.pred n) with (m + n - 1) by lia. replace (Z.pred n) with (n - 1) by lia.
    rewrite smul_pred, padd_assoc, smul_pred, IH by (done || apply smul_on_curve). done.
Qed.

Lemma smul_double n : smul (2 * n) P ≡ₚ padd (smul n P) (smul n P).
Proof. replace (2 * n) with (n + n) by lia. apply smul_add. Qed.

Lemma smul_opp n : smul (- n) P ≡ₚ pneg (smul n P).
Proof.
  apply (padd_cancel _ _ (smul n P)); [apply smul_on_curve|apply pneg_on_curve, smul_on_curve|apply smul_on_curve|].
  rewrite <- smul_add, padd_comm, padd_neg by apply smul_on_curve. by replace (- n + n) with 0 by lia.
Qed.
End Multiples.

Lemma smul_mul P m n : on_curve P -> smul (m * n) P ≡ₚ smul m (smul n P).
Proof.
  intros HP. assert (on_curve (smul n P)) by (by apply smul_on_curve).
  pattern m. apply Z.peano_ind; clear m; [done| |].
  - intros m IH. unfold Z.succ. by rewrite Z.mul_add_distr_r, Z.mul_1_l, smul_add, IH, smul_succ.
  - intros m IH. apply (padd_cancel _ _ (smul n P)); try by apply smul_on_curve.
    unfold Z.pred. rewrite <- smul_add, <- smul_succ by done.
    replace (m + -1 + 1) with m by lia. by replace ((m + -1) * n + n) with (m * n) by lia.
Qed.

#[global] Opaque smul inv.
