(* ===== verification/Recode.v ===== *)
(** * Recoding of scalars into signed digits

    [slide] and the two radix-16 recodings of [src/src/crypto/crypto-ops.c].  The
    recoded scalar is an array of [signed char]. *)

From stdpp Require Import base list numbers.
From Stdlib Require Import ZArith Lia.
From S2P Require Import Prelude Bytes Limbs.

(** ** Sliding windows *)

(** [for (i = 0; i < 256; ++i) r[i] = 1 & (a[i >> 3] >> (i & 7))] *)
Definition slide_bits (a : list Z) : result (list Z) :=
  for_ 256 (fun i r =>
    let! b := get a (i / 8) in
    set r i (Z.land 1 (Z.shiftr b (Z.of_nat (i mod 8))))) 0 (replicate 256 0).

(** [for (; k < 256; ++k) { if (!r[k]) { r[k] = 1; break; } r[k] = 0; }], where [n]
    is [256 - k]. *)
Fixpoint slide_carry (n k : nat) (r : list Z) : result (list Z) :=
  match n with
  | O => Ok r
  | S n =>
      let! rk := get r k in
      if rk =? 0 then set r k 1
      else let! r := set r k 0 in slide_carry n (S k) r
  end.

(** [for (; b <= 6 && i + b < 256; ++b)], where [n] is [7 - b]. *)
Fixpoint slide_window (n b i : nat) (r : list Z) : result (list Z) :=
  match n with
  | O => Ok r
  | S n =>
      if decide (i + b < 256)%nat then
        let! rib := get r (i + b) in
        if rib =? 0 then slide_window n (S b) i r
        else
          let! ri := get r i in
          let m := Z.shiftl rib (Z.of_nat b) in
          if ri + m <=? 15 then
            let! r := set r i (to_i8 (ri + m)) in
            let! r := set r (i + b) 0 in
            slide_window n (S b) i r
          else if ri - m >=? -15 then
            let! r := set r i (to_i8 (ri - m)) in
            let! r := slide_carry (256 - (i + b)) (i + b) r in
            slide_window n (S b) i r
          else Ok r
      else Ok r
  end.

Definition slide_step (i : nat) (r : list Z) : result (list Z) :=
  let! ri := get r i in
  if ri =? 0 then Ok r else slide_window 6 1 i r.

Definition slide (a : list Z) : result (list Z) :=
  let! r := slide_bits a in
  for_ 256 slide_step 0 r.

(** ** Radix 16 *)

(** The nibbles of [a]. *)
Definition nibbles (a : list Z) : result (list Z) :=
  for_ 32 (fun i e =>
    let! ai := get a i in
    let! e := set e (2 * i) (Z.land (Z.shiftr ai 0) 15) in
    set e (2 * i + 1) (Z.land (Z.shiftr ai 4) 15)) 0 (replicate 64 0).

(** [e[i] += carry; carry = e[i] + 8; carry >>= 4; e[i] -= carry << 4] *)
Definition nibble_carry (i : nat) (st : list Z * Z) : result (list Z * Z) :=
  let '(e, carry) := st in
  let! ei := get e i in
  let ei := to_i8 (ei + carry) in
  let carry := to_i8 (ei + 8) in
  let carry := Z.shiftr carry 4 in
  let! e := set e i (to_i8 (ei - Z.shiftl carry 4)) in
  Ok (e, carry).

(** The recoding in [ge_scalarmult_base]. *)
Definition recode_base (a : list Z) : result (list Z) :=
  let! e := nibbles a in
  let! (e, carry) := for_ 63 nibble_carry 0 (e, 0) in
  let! e63 := get e 63 in
  set e 63 (to_i8 (e63 + carry)).

(** One byte in the recoding of [ge_scalarmult]. *)
Definition byte_carry (a : list Z) (i : nat) (st : list Z * Z) : result (list Z * Z) :=
  let '(e, carry) := st in
  let! ai := get a i in
  let! carry := i32 (carry + ai) in
  let! t := i32 (carry + 8) in
  let carry2 := Z.shiftr t 4 in
  let! e := set e (2 * i) (to_i8 (carry - Z.shiftl carry2 4)) in
  let! t := i32 (carry2 + 8) in
  let carry := Z.shiftr t 4 in
  let! e := set e (2 * i + 1) (to_i8 (carry2 - Z.shiftl carry 4)) in
  Ok (e, carry).

(** The recoding in [ge_scalarmult]. *)
Definition recode (a : list Z) : result (list Z) :=
  let! (e, carry) := for_ 31 (byte_carry a) 0 (replicate 64 0, 0) in
  let! a31 := get a 31 in
  let! carry := i32 (carry + a31) in
  let! t := i32 (carry + 8) in
  let carry2 := Z.shiftr t 4 in
  let! e := set e 62 (to_i8 (carry - Z.shiftl carry2 4)) in
  set e 63 (to_i8 carry2).
