(* ===== verification/ScalarMult.v ===== *)
(** * Scalar multiplication

    The variable-base, fixed-base and double-scalar multiplications of
    [src/src/crypto/crypto-ops.c]. *)

From stdpp Require Import base list numbers.
From Stdlib Require Import ZArith Lia.
From S2P Require Import Prelude Bytes Limbs Field CurveData Group Recode.

(** ** Odd multiples *)

(** [ge_add(&t, &s2, &r[j]); ge_p1p1_to_p3(&u, &t); ge_p3_to_cached(&r[j+1], &u)] *)
Definition dsm_next (s2 : ge_p3) (q : ge_cached) : result ge_cached :=
  let! t := ge_add s2 q in
  let! u := ge_p1p1_to_p3 t in
  ge_p3_to_cached u.

Definition ge_dsm_precomp (s : ge_p3) : result (list ge_cached) :=
  let! r0 := ge_p3_to_cached s in
  let! t := ge_p3_dbl s in
  let! s2 := ge_p1p1_to_p3 t in
  let! r1 := dsm_next s2 r0 in
  let! r2 := dsm_next s2 r1 in
  let! r3 := dsm_next s2 r2 in
  let! r4 := dsm_next s2 r3 in
  let! r5 := dsm_next s2 r4 in
  let! r6 := dsm_next s2 r5 in
  let! r7 := dsm_next s2 r6 in
  Ok [r0; r1; r2; r3; r4; r5; r6; r7].

(** ** Double-scalar multiplication *)

(** [for (i = 255; i >= 0; --i) if (aslide[i] || bslide[i]) break;] as the number
    [i + 1] of digits that remain, from [n]. *)
Fixpoint skip_zeros (n : nat) (a b : list Z) : result nat :=
  match n with
  | O => Ok O
  | S i =>
      let! ai := get a i in
      let! bi := get b i in
      if (ai =? 0) && (bi =? 0) then skip_zeros i a b else Ok n
  end.

(** [if (d > 0) { u = t; t = u + table[d/2] } else if (d < 0) { u = t;
    t = u - table[(-d)/2] }] *)
Definition add_digit {A} (add sub : ge_p3 -> A -> result ge_p1p1) (table : list A) (d : Z)
    (t : ge_p1p1) : result ge_p1p1 :=
  if d >? 0 then
    let! u := ge_p1p1_to_p3 t in
    let! q := get table (Z.to_nat (Z.quot d 2)) in
    add u q
  else if d <? 0 then
    let! u := ge_p1p1_to_p3 t in
    let! q := get table (Z.to_nat (Z.quot (- d) 2)) in
    sub u q
  else Ok t.

Definition ge_double_scalarmult_base_vartime (a : list Z) (A : ge_p3) (b : list Z) : result ge_p2 :=
  let! aslide := slide a in
  let! bslide := slide b in
  let! Ai := ge_dsm_precomp A in
  let r := ge_p2_0 in
  let! n := skip_zeros 256 aslide bslide in
  for_down n (fun i r =>
    let! t := ge_p2_dbl r in
    let! d := get aslide i in
    let! t := add_digit ge_add ge_sub Ai d t in
    let! d := get bslide i in
    let! t := add_digit ge_madd ge_msub ge_Bi d t in
    ge_p1p1_to_p2 t) r.

Definition ge_double_scalarmult_precomp_vartime2 (a : list Z) (Ai : list ge_cached) (b : list Z)
    (Bi : list ge_cached) : result ge_p2 :=
  let! aslide := slide a in
  let! bslide := slide b in
  let r := ge_p2_0 in
  let! n := skip_zeros 256 aslide bslide in
  for_down n (fun i r =>
    let! t := ge_p2_dbl r in
    let! d := get aslide i in
    let! t := add_digit ge_add ge_sub Ai d t in
    let! d := get bslide i in
    let! t := add_digit ge_add ge_sub Bi d t in
    ge_p1p1_to_p2 t) r.

Definition ge_double_scalarmult_precomp_vartime (a : list Z) (A : ge_p3) (b : list Z)
    (Bi : list ge_cached) : result ge_p2 :=
  let! Ai := ge_dsm_precomp A in
  ge_double_scalarmult_precomp_vartime2 a Ai b Bi.

(** ** Fixed base *)

(** [select(&t, i / 2, e[i]); ge_madd(&r, h, &t); ge_p1p1_to_p3(h, &r)] for
    [i = 2 * k + o]. *)
Definition base_step (ndebug : bool) (e : list Z) (o k : nat) (h : ge_p3) : result ge_p3 :=
  let! ei := get e (2 * k + o) in
  let! t := select ndebug k ei in
  let! r := ge_madd h t in
  ge_p1p1_to_p3 r.

Definition ge_scalarmult_base (ndebug : bool) (a : list Z) : result ge_p3 :=
  let! e := recode_base a in
  let h := ge_p3_0 in
  let! h := for_ 32 (base_step ndebug e 1) 0 h in
  let! r := ge_p3_dbl h in
  let! s := ge_p1p1_to_p2 r in
  let! r := ge_p2_dbl s in
  let! s := ge_p1p1_to_p2 r in
  let! r := ge_p2_dbl s in
  let! s := ge_p1p1_to_p2 r in
  let! r := ge_p2_dbl s in
  let! h := ge_p1p1_to_p3 r in
  for_ 32 (base_step ndebug e 0) 0 h.

(** ** Variable base *)

(** [ge_add(&t, A, &Ai[i]); ge_p1p1_to_p3(&u, &t); ge_p3_to_cached(&Ai[i + 1], &u)],
    [n] times. *)
Fixpoint multiples (n : nat) (A : ge_p3) (q : ge_cached) : result (list ge_cached) :=
  match n with
  | O => Ok []
  | S n =>
      let! t := ge_add A q in
      let! u := ge_p1p1_to_p3 t in
      let! q := ge_p3_to_cached u in
      let! qs := multiples n A q in
      Ok (q :: qs)
  end.

Definition scalarmult_table (A : ge_p3) : result (list ge_cached) :=
  let! q := ge_p3_to_cached A in
  let! qs := multiples 7 A q in
  Ok (q :: qs).

(** The body of the loop of [ge_scalarmult]. *)
Definition scalarmult_step (ndebug : bool) (Ai : list ge_cached) (e : list Z) (i : nat) (r : ge_p2) : result ge_p2 :=
  let! b := get e i in
  let! t := ge_p2_dbl r in
  let! r := ge_p1p1_to_p2 t in
  let! t := ge_p2_dbl r in
  let! r := ge_p1p1_to_p2 t in
  let! t := ge_p2_dbl r in
  let! r := ge_p1p1_to_p2 t in
  let! t := ge_p2_dbl r in
  let! u := ge_p1p1_to_p3 t in
  let! cur := select_cached ndebug Ai b in
  let! t := ge_add u cur in
  ge_p1p1_to_p2 t.

Definition ge_scalarmult (ndebug : bool) (a : list Z) (A : ge_p3) : result ge_p2 :=
  let! e := recode a in
  let! Ai := scalarmult_table A in
  for_down 64 (scalarmult_step ndebug Ai e) ge_p2_0.
