(* ===== verification/GroupFacts.v ===== *)
(** * Correctness of the group operations

    Each operation is specified on the affine points that its operands stand
    for; the projective factors are explicit, so the statements need no
    division. *)

From stdpp Require Import base list numbers.
From Stdlib Require Import ZArith Lia.
From S2P Require Import Prelude Bytes Limbs Field FieldFacts FieldBytes Edwards CurveData Group.

(** ** Constants *)
Lemma eqp_compute x y : (x mod p =? y mod p) = true -> x =ₚ y.
Proof. intros H%Z.eqb_eq. exact H. Qed.

Lemma fe_d_value : fe_val fe_d =ₚ d.
Proof. apply eqp_compute. by vm_compute. Qed.

Lemma fe_d2_value : fe_val fe_d2 =ₚ 2 * d.
Proof. apply eqp_compute. by vm_compute. Qed.

Lemma fe_sqrtm1_value : fe_val fe_sqrtm1 =ₚ i_.
Proof. apply eqp_compute. by vm_compute. Qed.

(** ** Bounds of the representations *)
Definition p3_ok (P : ge_p3) : Prop :=
  fe_bounded 101 (X3 P) /\ fe_bounded 101 (Y3 P) /\ fe_bounded 101 (Z3 P) /\ fe_bounded 101 (T3 P).
Definition p2_ok (P : ge_p2) : Prop :=
  fe_bounded 101 (X2 P) /\ fe_bounded 203 (Y2 P) /\ fe_bounded 203 (Z2 P).
Definition p1p1_ok (P : ge_p1p1) : Prop :=
  fe_bounded 303 (X1 P) /\ fe_bounded 303 (Y1 P) /\ fe_bounded 303 (Z1 P) /\ fe_bounded 303 (T1 P).
Definition cached_ok (Q : ge_cached) : Prop :=
  fe_bounded 202 (YplusX Q) /\ fe_bounded 202 (YminusX Q) /\ fe_bounded 101 (Zc Q) /\ fe_bounded 101 (T2d Q).
Definition precomp_ok (Q : ge_precomp) : Prop :=
  fe_bounded 101 (yplusx Q) /\ fe_bounded 101 (yminusx Q) /\ fe_bounded 101 (xy2d Q).

#[export] Instance precomp_ok_dec Q : Decision (precomp_ok Q).
Proof. unfold precomp_ok. apply _. Defined.
#[export] Instance p3_ok_dec P : Decision (p3_ok P).
Proof. unfold p3_ok. apply _. Defined.

(** ** The points they stand for

    [p3_rep P x y z]: [P] stands for the affine point [(x, y)], with denominator
    [z]; and so on. *)
Definition p3_rep (P : ge_p3) (x y z : Z) : Prop :=
  p3_ok P /\ fe_val (X3 P) =ₚ x * z /\ fe_val (Y3 P) =ₚ y * z /\ fe_val (Z3 P) =ₚ z /\
  fe_val (T3 P) =ₚ x * y * z.
Definition p2_rep (P : ge_p2) (x y z : Z) : Prop :=
  p2_ok P /\ fe_val (X2 P) =ₚ x * z /\ fe_val (Y2 P) =ₚ y * z /\ fe_val (Z2 P) =ₚ z.
Definition cached_rep (Q : ge_cached) (x y z : Z) : Prop :=
  cached_ok Q /\ fe_val (YplusX Q) =ₚ (y + x) * z /\ fe_val (YminusX Q) =ₚ (y - x) * z /\
  fe_val (Zc Q) =ₚ z /\ fe_val (T2d Q) =ₚ 2 * d * x * y * z.
Definition precomp_rep (Q : ge_precomp) (x y : Z) : Prop :=
  precomp_ok Q /\ fe_val (yplusx Q) =ₚ y + x /\ fe_val (yminusx Q) =ₚ y - x /\
  fe_val (xy2d Q) =ₚ 2 * d * x * y.
(** [x = nx / dx], [y = ny / dy], with common factor [k]. *)
Definition p1p1_rep (R : ge_p1p1) (k nx dx ny dy : Z) : Prop :=
  p1p1_ok R /\ fe_val (X1 R) =ₚ k * nx /\ fe_val (Z1 R) =ₚ k * dx /\
  fe_val (Y1 R) =ₚ k * ny /\ fe_val (T1 R) =ₚ k * dy.

(** ** Straight-line steps *)

(** One field operation of a straight-line routine; its operands' bounds are in
    the context. *)
Ltac fe_step :=
  let h := fresh "h" in let B := fresh "B" in let E := fresh "E" in
  lazymatch goal with
  | |- returns (bind (fe_add _ _) _) _ => eapply returns_bind; [eapply fe_add_spec; [eassumption|eassumption|lia]|]
  | |- returns (bind (fe_sub _ _) _) _ => eapply returns_bind; [eapply fe_sub_spec; [eassumption|eassumption|lia]|]
  | |- returns (bind (fe_neg _) _) _ => eapply returns_bind; [eapply fe_neg_spec; [eassumption|lia]|]
  | |- returns (bind (fe_mul _ _) _) _ =>
      eapply returns_bind; [eapply fe_mul_spec; (eapply fe_bounded_le; [eassumption|lia])|]
  | |- returns (bind (fe_sq _) _) _ =>
      eapply returns_bind; [eapply fe_sq_spec; (eapply fe_bounded_le; [eassumption|lia])|]
  | |- returns (bind (fe_sq2 _) _) _ =>
      eapply returns_bind; [eapply fe_sq2_spec; (eapply fe_bounded_le; [eassumption|lia])|]
  end; intros h [B E].

Ltac fe_bounds := repeat split; (eapply fe_bounded_le; [eassumption|lia]).

(** A congruence of values that follows from those of the steps. *)
Ltac eqp_ring :=
  repeat match goal with
  | E : fe_val ?h = _ |- context [fe_val ?h] => rewrite E
  | E : fe_val ?h =ₚ _ |- context [fe_val ?h] => rewrite E
  end;
  apply eqp_of_eq; ring.

Lemma ge_add_spec P Q x y z x' y' z' :
  p3_rep P x y z -> cached_rep Q x' y' z' ->
  returns (ge_add P Q) (fun R => p1p1_rep R (2 * z * z')
    (x * y' + y * x') (1 + d * x * x' * y * y') (y * y' + x * x') (1 - d * x * x' * y * y')).
Proof.
  intros [(BX & BY & BZ & BT) (EX & EY & EZ & ET)] [(CP & CM & CZ & CT) (FP & FM & FZ & FT)].
  unfold ge_add. do 11 fe_step. apply returns_ok. split; [fe_bounds|]. cbn [X1 Y1 Z1 T1].
  split_and!; eqp_ring.
Qed.

Lemma ge_sub_spec P Q x y z x' y' z' :
  p3_rep P x y z -> cached_rep Q x' y' z' ->
  returns (ge_sub P Q) (fun R => p1p1_rep R (2 * z * z')
    (x * y' - y * x') (1 - d * x * x' * y * y') (y * y' - x * x') (1 + d * x * x' * y * y')).
Proof.
  intros [(BX & BY & BZ & BT) (EX & EY & EZ & ET)] [(CP & CM & CZ & CT) (FP & FM & FZ & FT)].
  unfold ge_sub. do 11 fe_step. apply returns_ok. split; [fe_bounds|]. cbn [X1 Y1 Z1 T1].
  split_and!; eqp_ring.
Qed.

Lemma ge_madd_spec P Q x y z x' y' :
  p3_rep P x y z -> precomp_rep Q x' y' ->
  returns (ge_madd P Q) (fun R => p1p1_rep R (2 * z)
    (x * y' + y * x') (1 + d * x * x' * y * y') (y * y' + x * x') (1 - d * x * x' * y * y')).
Proof.
  intros [(BX & BY & BZ & BT) (EX & EY & EZ & ET)] [(CP & CM & CT) (FP & FM & FT)].
  unfold ge_madd. do 10 fe_step. apply returns_ok. split; [fe_bounds|]. cbn [X1 Y1 Z1 T1].
  split_and!; eqp_ring.
Qed.

Lemma ge_msub_spec P Q x y z x' y' :
  p3_rep P x y z -> precomp_rep Q x' y' ->
  returns (ge_msub P Q) (fun R => p1p1_rep R (2 * z)
    (x * y' - y * x') (1 - d * x * x' * y * y') (y * y' - x * x') (1 + d * x * x' * y * y')).
Proof.
  intros [(BX & BY & BZ & BT) (EX & EY & EZ & ET)] [(CP & CM & CT) (FP & FM & FT)].
  unfold ge_msub. do 10 fe_step. apply returns_ok. split; [fe_bounds|]. cbn [X1 Y1 Z1 T1].
  split_and!; eqp_ring.
Qed.

(** The doubling formula has [y^2 - x^2] where the addition has [1 + d x^2 y^2]. *)
Lemma ge_p2_dbl_spec P x y z :
  p2_rep P x y z ->
  returns (ge_p2_dbl P) (fun R => p1p1_rep R (z * z)
    (2 * x * y) (y * y - x * x) (y * y + x * x) (2 - (y * y - x * x))).
Proof.
  intros [(BX & BY & BZ) (EX & EY & EZ)].
  unfold ge_p2_dbl. do 9 fe_step. apply returns_ok. split; [fe_bounds|]. cbn [X1 Y1 Z1 T1].
  split_and!; eqp_ring.
Qed.

(** ** Conversions *)
Section Conversions.
Context (R : ge_p1p1) (k nx dx ny dy x y : Z).
Hypothesis HR : p1p1_rep R k nx dx ny dy.
Hypothesis Hx : x * dx =ₚ nx.
Hypothesis Hy : y * dy =ₚ ny.

Lemma ge_p1p1_to_p3_spec : returns (ge_p1p1_to_p3 R) (fun P => p3_rep P x y (k * k * dx * dy)).
Proof.
  destruct HR as [(BX & BY & BZ & BT) (EX & EZ & EY & ET)].
  unfold ge_p1p1_to_p3. do 4 fe_step. apply returns_ok. split; [fe_bounds|]. cbn [X3 Y3 Z3 T3].
  rewrite <- Hx in EX. rewrite <- Hy in EY. split_and!; eqp_ring.
Qed.

Lemma ge_p1p1_to_p2_spec : returns (ge_p1p1_to_p2 R) (fun P => p2_rep P x y (k * k * dx * dy)).
Proof.
  destruct HR as [(BX & BY & BZ & BT) (EX & EZ & EY & ET)].
  unfold ge_p1p1_to_p2. do 3 fe_step. apply returns_ok. split; [fe_bounds|]. cbn [X2 Y2 Z2].
  rewrite <- Hx in EX. rewrite <- Hy in EY. split_and!; eqp_ring.
Qed.
End Conversions.

Lemma ge_p3_to_cached_spec P x y z :
  p3_rep P x y z -> returns (ge_p3_to_cached P) (fun Q => cached_rep Q x y z).
Proof.
  intros [(BX & BY & BZ & BT) (EX & EY & EZ & ET)]. pose proof fe_d2_value as Hd.
  assert (fe_bounded 101 fe_d2) as Bd by (apply (bool_decide_eq_true_1 _); by vm_compute).
  unfold ge_p3_to_cached. rewrite fe_copy_id. do 3 fe_step. apply returns_ok. split; [fe_bounds|].
  cbn [YplusX YminusX Zc T2d]. split_and!; eqp_ring.
Qed.

Lemma ge_p3_to_p2_spec P x y z : p3_rep P x y z -> p2_rep (ge_p3_to_p2 P) x y z.
Proof.
  intros [(BX & BY & BZ & BT) (EX & EY & EZ & ET)]. unfold ge_p3_to_p2. rewrite !fe_copy_id.
  split; [fe_bounds|]. done.
Qed.
