(* ===== verification/GroupSpec.v ===== *)
(** * The group operations implement the curve group

    [represents R A]: the representation [R] stands for the curve point [A].
    Every operation of [Group] is shown to compute the corresponding operation
    of [Edwards] on the points represented. *)

From stdpp Require Import base list numbers.
From Stdlib Require Import ZArith Lia.
From S2P Require Import Prelude Bytes Limbs Field FieldFacts FieldBytes Edwards CurveData Group GroupFacts.

(** ** Representations *)
Class Represents (T : Type) := represents : T -> pt -> Prop.

Definition nz (z : Z) : Prop := ~ z =ₚ 0.

#[export] Instance p3_represents : Represents ge_p3 := fun P A =>
  on_curve A /\ exists z, nz z /\ p3_rep P A.1 A.2 z.
#[export] Instance p2_represents : Represents ge_p2 := fun P A =>
  on_curve A /\ exists z, nz z /\ p2_rep P A.1 A.2 z.
#[export] Instance cached_represents : Represents ge_cached := fun Q A =>
  on_curve A /\ exists z, nz z /\ cached_rep Q A.1 A.2 z.
#[export] Instance precomp_represents : Represents ge_precomp := fun Q A =>
  on_curve A /\ precomp_rep Q A.1 A.2.
#[export] Instance p1p1_represents : Represents ge_p1p1 := fun R A =>
  on_curve A /\ exists k nx dx ny dy, nz k /\ nz dx /\ nz dy /\
    A.1 * dx =ₚ nx /\ A.2 * dy =ₚ ny /\ p1p1_rep R k nx dx ny dy.

(** A representation stands for any coordinates that agree modulo [p]. *)
#[export] Instance p3_rep_proper P : Proper (eqp ==> eqp ==> eq ==> iff) (p3_rep P).
Proof. intros x x' Hx y y' Hy z ? <-. unfold p3_rep. by rewrite Hx, Hy. Qed.
#[export] Instance p2_rep_proper P : Proper (eqp ==> eqp ==> eq ==> iff) (p2_rep P).
Proof. intros x x' Hx y y' Hy z ? <-. unfold p2_rep. by rewrite Hx, Hy. Qed.
#[export] Instance cached_rep_proper Q : Proper (eqp ==> eqp ==> eq ==> iff) (cached_rep Q).
Proof. intros x x' Hx y y' Hy z ? <-. unfold cached_rep. by rewrite Hx, Hy. Qed.
#[export] Instance precomp_rep_proper Q : Proper (eqp ==> eqp ==> iff) (precomp_rep Q).
Proof. intros x x' Hx y y' Hy. unfold precomp_rep. by rewrite Hx, Hy. Qed.

Class RepresentsProper (T : Type) `{Represents T} := {
  represents_proper :: forall R : T, Proper (pt_eq ==> iff) (represents R);
  represents_curve : forall (R : T) A, represents R A -> on_curve A
}.

Lemma exists_rep (rep : Z -> Z -> Z -> Prop) A B :
  Proper (eqp ==> eqp ==> eq ==> iff) rep -> A ≡ₚ B ->
  (on_curve A /\ exists z, nz z /\ rep A.1 A.2 z) <-> (on_curve B /\ exists z, nz z /\ rep B.1 B.2 z).
Proof.
  intros Hp H. rewrite H. destruct H as [Hx Hy].
  split; intros [HB (z & Hz & HR)]; (split; [done|]); exists z; (split; [done|]).
  - by apply (Hp _ _ Hx _ _ Hy z z eq_refl).
  - by apply (Hp _ _ Hx _ _ Hy z z eq_refl).
Qed.

#[export] Instance p3_represents_proper : RepresentsProper ge_p3.
Proof. split; [|by intros R A [H _]]. intros P A B H. by apply exists_rep; [apply _|]. Qed.
#[export] Instance p2_represents_proper : RepresentsProper ge_p2.
Proof. split; [|by intros R A [H _]]. intros P A B H. by apply exists_rep; [apply _|]. Qed.
#[export] Instance cached_represents_proper : RepresentsProper ge_cached.
Proof. split; [|by intros R A [H _]]. intros P A B H. by apply exists_rep; [apply _|]. Qed.
#[export] Instance precomp_represents_proper : RepresentsProper ge_precomp.
Proof.
  split; [|by intros R A [H _]]. intros P A B H. unfold represents, precomp_represents. rewrite H.
  destruct H as [Hx Hy]. pose proof (precomp_rep_proper P _ _ Hx _ _ Hy). tauto.
Qed.
#[export] Instance p1p1_represents_proper : RepresentsProper ge_p1p1.
Proof.
  split; [|by intros R A [H _]]. intros P A B H. unfold represents, p1p1_represents. rewrite H.
  destruct H as [Hx Hy].
  split; intros [HB (k & nx & dx & ny & dy & Hk & H1 & H2 & Ex & Ey & HR)]; (split; [done|]);
    exists k, nx, dx, ny, dy; (do 3 (split; [done|])); (split; [|split; [|done]]).
  - by rewrite <- Hx.
  - by rewrite <- Hy.
  - by rewrite Hx.
  - by rewrite Hy.
Qed.

Lemma nz_mul a b : nz a -> nz b -> nz (a * b).
Proof. apply neq_mul. Qed.

Lemma nz_2 : nz 2.
Proof. unfold nz, eqp. by vm_compute. Qed.

Lemma nz_1 : nz 1.
Proof. unfold nz, eqp. by vm_compute. Qed.

Create HintDb nz.
#[export] Hint Resolve nz_mul nz_2 nz_1 : nz.

(** ** Addition and doubling *)

(** A [p1p1] result that holds the numerators and denominators of a sum. *)
Lemma p1p1_sum R k A B :
  nz k -> on_curve A -> on_curve B ->
  p1p1_rep R k (A.1 * B.2 + A.2 * B.1) (1 + dxy A B) (A.2 * B.2 + A.1 * B.1) (1 - dxy A B) ->
  represents R (padd A B).
Proof.
  intros Hk HA HB HR. destruct (complete A B HA HB) as [D1 D2], (padd_spec A B HA HB) as [Hx Hy].
  split; [by apply padd_on_curve|]. by exists k, (A.1 * B.2 + A.2 * B.1), (1 + dxy A B), (A.2 * B.2 + A.1 * B.1), (1 - dxy A B).
Qed.

#[export] Instance p1p1_rep_proper R : Proper (eq ==> eqp ==> eqp ==> eqp ==> eqp ==> iff) (p1p1_rep R).
Proof.
  intros k ? <- nx nx' H1 dx dx' H2 ny ny' H3 dy dy' H4. unfold p1p1_rep. by rewrite H1, H2, H3, H4.
Qed.

Lemma ge_add_represents P Q A B :
  represents P A -> represents Q B -> returns (ge_add P Q) (fun R => represents R (padd A B)).
Proof.
  intros [HA (z & Hz & HP)] [HB (z' & Hz' & HQ)].
  eapply returns_mono; [by eapply ge_add_spec|]. intros R HR.
  apply (p1p1_sum R (2 * z * z')); [by auto with nz|done|done|]. by destruct A, B.
Qed.

Lemma ge_madd_represents P Q A B :
  represents P A -> represents Q B -> returns (ge_madd P Q) (fun R => represents R (padd A B)).
Proof.
  intros [HA (z & Hz & HP)] [HB HQ].
  eapply returns_mono; [by eapply ge_madd_spec|]. intros R HR.
  apply (p1p1_sum R (2 * z)); [by auto with nz|done|done|]. by destruct A, B.
Qed.

(** Subtraction adds the opposite point. *)
Lemma p1p1_difference R k A B :
  p1p1_rep R k (A.1 * B.2 - A.2 * B.1) (1 - d * A.1 * B.1 * A.2 * B.2)
    (A.2 * B.2 - A.1 * B.1) (1 + d * A.1 * B.1 * A.2 * B.2) ->
  p1p1_rep R k (A.1 * (pneg B).2 + A.2 * (pneg B).1) (1 + dxy A (pneg B))
    (A.2 * (pneg B).2 + A.1 * (pneg B).1) (1 - dxy A (pneg B)).
Proof.
  destruct A as [x y], B as [x' y']. unfold dxy, pneg. cbn [fst snd].
  replace (x * y' - y * x') with (x * y' + y * - x') by ring.
  replace (y * y' - x * x') with (y * y' + x * - x') by ring.
  replace (1 - d * x * x' * y * y') with (1 + d * x * - x' * y * y') by ring.
  by replace (1 + d * x * x' * y * y') with (1 - d * x * - x' * y * y') by ring.
Qed.

Lemma ge_sub_represents P Q A B :
  represents P A -> represents Q B -> returns (ge_sub P Q) (fun R => represents R (padd A (pneg B))).
Proof.
  intros [HA (z & Hz & HP)] [HB (z' & Hz' & HQ)].
  eapply returns_mono; [by eapply ge_sub_spec|]. intros R HR%p1p1_difference.
  apply (p1p1_sum R (2 * z * z')); [by auto with nz|done|by apply pneg_on_curve|done].
Qed.

Lemma ge_msub_represents P Q A B :
  represents P A -> represents Q B -> returns (ge_msub P Q) (fun R => represents R (padd A (pneg B))).
Proof.
  intros [HA (z & Hz & HP)] [HB HQ].
  eapply returns_mono; [by eapply ge_msub_spec|]. intros R HR%p1p1_difference.
  apply (p1p1_sum R (2 * z)); [by auto with nz|done|by apply pneg_on_curve|done].
Qed.

Lemma ge_p2_dbl_represents P A :
  represents P A -> returns (ge_p2_dbl P) (fun R => represents R (padd A A)).
Proof.
  intros [HA (z & Hz & HP)]. eapply returns_mono; [by eapply ge_p2_dbl_spec|]. intros R HR.
  apply (p1p1_sum R (z * z)); [by auto with nz|done|done|]. destruct A as [x y]. simpl in HA, HR.
  unfold dxy. cbn [fst snd]. rewrite HA in HR.
  replace (x * y + y * x) with (2 * x * y) by ring. replace (d * x * x * y * y) with (d * (x * x) * (y * y)) by ring.
  by replace (1 - d * (x * x) * (y * y)) with (2 - (1 + d * (x * x) * (y * y))) by ring.
Qed.

(** ** Conversions *)
Lemma ge_p1p1_to_p3_represents R A :
  represents R A -> returns (ge_p1p1_to_p3 R) (fun P => represents P A).
Proof.
  intros [HA (k & nx & dx & ny & dy & Hk & H1 & H2 & Ex & Ey & HR)].
  eapply returns_mono; [by eapply ge_p1p1_to_p3_spec|]. intros P HP.
  split; [done|]. exists (k * k * dx * dy). split; [by auto with nz|done].
Qed.

Lemma ge_p1p1_to_p2_represents R A :
  represents R A -> returns (ge_p1p1_to_p2 R) (fun P => represents P A).
Proof.
  intros [HA (k & nx & dx & ny & dy & Hk & H1 & H2 & Ex & Ey & HR)].
  eapply returns_mono; [by eapply ge_p1p1_to_p2_spec|]. intros P HP.
  split; [done|]. exists (k * k * dx * dy). split; [by auto with nz|done].
Qed.

Lemma ge_p3_to_cached_represents P A :
  represents P A -> returns (ge_p3_to_cached P) (fun Q => represents Q A).
Proof.
  intros [HA (z & Hz & HP)]. eapply returns_mono; [by eapply ge_p3_to_cached_spec|].
  intros Q HQ. split; [done|]. by exists z.
Qed.

Lemma ge_p3_to_p2_represents P A : represents P A -> represents (ge_p3_to_p2 P) A.
Proof. intros [HA (z & Hz & HP%ge_p3_to_p2_spec)]. split; [done|]. by exists z. Qed.

Lemma ge_p3_dbl_represents P A :
  represents P A -> returns (ge_p3_dbl P) (fun R => represents R (padd A A)).
Proof. intros HP. by apply ge_p2_dbl_represents, ge_p3_to_p2_represents. Qed.

(** ** Constants *)
Ltac rep_constant :=
  split; [apply pzero_on_curve|]; try (exists 1; split; [apply nz_1|]);
  split; [apply (bool_decide_eq_true_1 _); by vm_compute|];
  split_and!; apply eqp_compute; by vm_compute.

Lemma ge_p3_0_represents : represents ge_p3_0 pzero.
Proof. rep_constant. Qed.

Lemma ge_precomp_0_represents : represents ge_precomp_0 pzero.
Proof. rep_constant. Qed.

Lemma ge_p2_0_represents : represents ge_p2_0 pzero.
Proof. apply (ge_p3_to_p2_represents _ _ ge_p3_0_represents). Qed.

#[export] Instance cached_ok_dec Q : Decision (cached_ok Q).
Proof. unfold cached_ok. apply _. Defined.

Lemma ge_cached_0_represents : represents ge_cached_0 pzero.
Proof. rep_constant. Qed.

(** ** Steps of a straight-line group routine *)
Create HintDb group.
#[export] Hint Resolve ge_add_represents ge_sub_represents ge_madd_represents ge_msub_represents
  ge_p2_dbl_represents ge_p3_dbl_represents ge_p1p1_to_p3_represents ge_p1p1_to_p2_represents
  ge_p3_to_cached_represents : group.
#[export] Hint Resolve ge_p3_to_p2_represents ge_p3_0_represents ge_p2_0_represents
  ge_cached_0_represents ge_precomp_0_represents : group.

Ltac ge_op :=
  lazymatch goal with
  | |- returns (ge_add _ _) _ => eapply ge_add_represents
  | |- returns (ge_sub _ _) _ => eapply ge_sub_represents
  | |- returns (ge_madd _ _) _ => eapply ge_madd_represents
  | |- returns (ge_msub _ _) _ => eapply ge_msub_represents
  | |- returns (ge_p2_dbl _) _ => eapply ge_p2_dbl_represents
  | |- returns (ge_p3_dbl _) _ => eapply ge_p3_dbl_represents
  | |- returns (ge_p1p1_to_p3 _) _ => eapply ge_p1p1_to_p3_represents
  | |- returns (ge_p1p1_to_p2 _) _ => eapply ge_p1p1_to_p2_represents
  | |- returns (ge_p3_to_cached _) _ => eapply ge_p3_to_cached_represents
  end; solve [eauto with group].

Ltac ge_step :=
  let R := fresh "R" in let HR := fresh "HR" in
  eapply returns_bind; [ge_op|]; intros R HR; cbv beta in HR.

(** [8 * A], by three doublings. *)
Lemma ge_mul8_represents P A :
  represents P A -> returns (ge_mul8 P) (fun R => represents R (smul 8 A)).
Proof.
  intros HP. pose proof (represents_curve _ _ HP) as HA. unfold ge_mul8. do 4 ge_step.
  eapply returns_mono; [ge_op|]. intros R' HR'.
  enough (smul 8 A ≡ₚ padd (padd (padd A A) (padd A A)) (padd (padd A A) (padd A A))) as -> by done.
  change 8 with (2 * (2 * (2 * 1))). rewrite !smul_double, !smul_1 by done. done.
Qed.
