(* ===== verification/BaseTable.v ===== *)
(** * The base-point tables

    Every entry of [ge_base] and [ge_Bi] is checked, by computation, to stand for
    the multiple of the base point that its position calls for. *)

From stdpp Require Import base list numbers.
From Stdlib Require Import ZArith Lia.
From S2P Require Import Prelude Bytes Limbs Field FieldFacts FieldBytes Edwards CurveData Group GroupFacts GroupSpec.

(** The base point [(x, 4/5)] with [x] even. *)
Definition B : pt :=
  (15112221349535400772501151409588531511454012693041857206046113283949847762202,
   46316835694926478169428394003475163141307993866256225615783033603165251855960).

(** ** Fast arithmetic modulo [p] *)
Definition redp (x : Z) : Z := Z.land x (2 ^ 255 - 1) + 19 * Z.shiftr x 255.
Definition mulp (a b : Z) : Z := redp (redp (a * b)).
Definition eqpb (a b : Z) : bool := let e := redp (redp (a - b)) in (e =? 0) || (e =? p).
(** [z / 2] *)
Definition halve (z : Z) : Z := if Z.even z then Z.div2 z else Z.div2 (z + p).

Lemma redp_eqp x : redp x =ₚ x.
Proof.
  unfold redp. change (2 ^ 255 - 1) with (Z.ones 255). rewrite Z.land_ones, Z.shiftr_div_pow2 by lia.
  apply (eqp_shift _ _ (- (x / 2 ^ 255))). rewrite Z.mod_eq by lia. unfold p. lia.
Qed.

Lemma mulp_eqp a b : mulp a b =ₚ a * b.
Proof. unfold mulp. by rewrite !redp_eqp. Qed.

Lemma eqpb_eqp a b : eqpb a b = true -> a =ₚ b.
Proof.
  unfold eqpb. intros H. apply eqp_sub_0. rewrite <- (redp_eqp (a - b)), <- redp_eqp.
  apply orb_prop in H as [->%Z.eqb_eq| ->%Z.eqb_eq]; [done|]. unfold eqp. by vm_compute.
Qed.

Lemma halve_eqp z : 2 * halve z =ₚ z.
Proof.
  unfold halve. destruct (Z.even z) eqn:E.
  - apply eqp_of_eq. rewrite (Z.div2_odd z) at 2.
    rewrite <- Z.negb_even, E. simpl. lia.
  - apply (eqp_shift _ _ 1). pose proof (Z.div2_odd (z + p)) as H.
    rewrite <- Z.negb_even, Z.even_add, E in H. simpl in H. lia.
Qed.

(** ** Checks on affine points *)
Definition affine (Q : ge_precomp) : pt :=
  let a := redp (fe_val (yplusx Q)) in
  let b := redp (fe_val (yminusx Q)) in
  (halve (a - b), halve (a + b)).

(** [xy2d] agrees with the coordinates, and the limbs are bounded. *)
Definition entry_check (Q : ge_precomp) : bool :=
  let '(x, y) := affine Q in
  eqpb (fe_val (xy2d Q)) (mulp (2 * d) (mulp x y)) && bool_decide (precomp_ok Q).

(** [P + Q = R] *)
Definition sum_check (P Q R : pt) : bool :=
  let '(x1, y1) := P in let '(x2, y2) := Q in let '(x3, y3) := R in
  let t1 := mulp x1 y2 in
  let t2 := mulp y1 x2 in
  let t := mulp d (mulp t1 t2) in
  eqpb (mulp x3 (1 + t)) (t1 + t2) && eqpb (mulp y3 (1 - t)) (mulp y1 y2 + mulp x1 x2).

Lemma sum_check_ok P Q R :
  sum_check P Q R = true -> on_curve P -> on_curve Q -> padd P Q ≡ₚ R.
Proof.
  destruct P as [x1 y1], Q as [x2 y2], R as [x3 y3]. unfold sum_check. intros H HP HQ.
  apply andb_prop in H as [Hx%eqpb_eqp Hy%eqpb_eqp]. repeat rewrite mulp_eqp in Hx. repeat rewrite mulp_eqp in Hy.
  apply padd_unique; [done|done| |]; unfold dxy; cbn [fst snd].
  - rewrite <- Hx. apply eqp_of_eq. ring.
  - rewrite <- Hy. apply eqp_of_eq. ring.
Qed.

(** Doubling in projective coordinates. *)
Definition dblp (P : Z * Z * Z) : Z * Z * Z :=
  let '(X, Y, Z) := P in
  let A := mulp X X in
  let B := mulp Y Y in
  let G := B - A in
  let F := 2 * mulp Z Z - G in
  let E := mulp (X + Y) (X + Y) - (A + B) in
  (mulp E F, mulp (B + A) G, mulp G F).

Definition proj (P : Z * Z * Z) (A : pt) : Prop :=
  let '(X, Y, Z) := P in on_curve A /\ nz Z /\ X =ₚ A.1 * Z /\ Y =ₚ A.2 * Z.

Lemma dblp_proj P A : proj P A -> proj (dblp P) (padd A A).
Proof.
  destruct P as [[X Y] Z], A as [x y]. intros (HA & HZ & HX & HY). cbn [fst snd] in *. unfold dblp.
  destruct (complete _ _ HA HA) as [D1 D2], (padd_spec _ _ HA HA) as [Ex Ey].
  destruct (padd (x, y) (x, y)) as [x' y'] eqn:EP. unfold dxy in *. cbn [fst snd] in *.
  assert (on_curve (x', y')) as HC by (rewrite <- EP; by apply padd_on_curve). clear EP. simpl in HA.
  assert (mulp Y Y - mulp X X =ₚ (Z * Z) * (1 + d * x * x * y * y)) as HG.
  { rewrite !mulp_eqp, HX, HY. transitivity ((Z * Z) * (y * y - x * x)); [apply eqp_of_eq; ring|].
    rewrite HA. apply eqp_of_eq. ring. }
  assert (2 * mulp Z Z - (mulp Y Y - mulp X X) =ₚ (Z * Z) * (1 - d * x * x * y * y)) as HF.
  { rewrite HG, !mulp_eqp. apply eqp_of_eq. ring. }
  split; [done|]. split; [|split]; cbn [fst snd].
  - unfold nz. rewrite mulp_eqp, HF, HG. auto using neq_mul.
  - rewrite (mulp_eqp _ (_ - _)), (mulp_eqp (_ - _) (_ - _)), HF, HG, !mulp_eqp.
    transitivity (x' * (1 + d * x * x * y * y) * (Z * Z) * (Z * Z) * (1 - d * x * x * y * y)); [|apply eqp_of_eq; ring].
    rewrite Ex, HX, HY. apply eqp_of_eq. ring.
  - rewrite (mulp_eqp _ (_ - _)), (mulp_eqp (_ - _) (_ - _)), HF, HG, !mulp_eqp.
    transitivity (y' * (1 - d * x * x * y * y) * (Z * Z) * (Z * Z) * (1 + d * x * x * y * y)); [|apply eqp_of_eq; ring].
    rewrite Ey, HX, HY. apply eqp_of_eq. ring.
Qed.

(** [32 * P = Q] *)
Definition link_check (P Q : pt) : bool :=
  let '(X, Y, Z) := dblp (dblp (dblp (dblp (dblp (P.1, P.2, 1))))) in
  eqpb X (mulp Q.1 Z) && eqpb Y (mulp Q.2 Z).

Lemma link_check_ok P Q : link_check P Q = true -> on_curve P -> smul 32 P ≡ₚ Q.
Proof.
  unfold link_check. intros H HP.
  assert (proj (P.1, P.2, 1) P) as HP0.
  { split; [done|]. split; [apply nz_1|]. split; apply eqp_of_eq; ring. }
  do 5 apply dblp_proj in HP0.
  assert (smul 32 P ≡ₚ padd (padd (padd (padd (padd P P) (padd P P)) (padd (padd P P) (padd P P)))
    (padd (padd (padd P P) (padd P P)) (padd (padd P P) (padd P P))))
    (padd (padd (padd (padd P P) (padd P P)) (padd (padd P P) (padd P P)))
    (padd (padd (padd P P) (padd P P)) (padd (padd P P) (padd P P))))) as ->.
  { change 32 with (2 * (2 * (2 * (2 * (2 * 1))))). rewrite !smul_double, !smul_1 by done. done. }
  destruct (dblp _) as [[X Y] Z]. destruct HP0 as (_ & HZ & HX & HY).
  apply andb_prop in H as [Hx%eqpb_eqp Hy%eqpb_eqp]. rewrite mulp_eqp in Hx, Hy.
  split; apply (eqp_mul_l Z); try done; rewrite !(Z.mul_comm Z); congruence.
Qed.

(** ** Chains of multiples of a point *)
Section Chains.
Context (G : pt).
Hypothesis HG : on_curve G.

(** The points [first, first + step, first + 2*step, ...]. *)
Fixpoint chain_check (step first : pt) (rest : list pt) : bool :=
  match rest with
  | [] => true
  | q :: rest => sum_check step first q && chain_check step q rest
  end.

Lemma chain_check_ok step m n first rest :
  chain_check step first rest = true -> step ≡ₚ smul m G -> first ≡ₚ smul n G ->
  forall j Q, (first :: rest) !! j = Some Q -> Q ≡ₚ smul (n + Z.of_nat j * m) G.
Proof.
  intros Hc Hs Hf. revert n first Hc Hf. induction rest as [|q rest IH]; intros n first Hc Hf [|j] Q HQ;
    try (simpl in HQ; simplify_eq; by rewrite Z.mul_0_l, Z.add_0_r).
  simpl in Hc. apply andb_prop in Hc as [Hsum Hc].
  assert (on_curve step /\ on_curve first) as [? ?] by (rewrite Hs, Hf; split; by apply smul_on_curve).
  apply sum_check_ok in Hsum; [|done|done]. rewrite Hs, Hf, <- smul_add in Hsum by done. symmetry in Hsum.
  rewrite (IH (m + n) q Hc Hsum j Q HQ). enough (m + n + Z.of_nat j * m = n + Z.of_nat (S j) * m) as -> by done. lia.
Qed.

Definition row_check (row : list ge_precomp) : bool :=
  forallb entry_check row &&
  match row with Q :: rest => chain_check (affine Q) (affine Q) (map affine rest) | [] => false end.

(** The rows from the second on start at 32 times the last point of the row before. *)
Fixpoint rows_check (prev : pt) (rows : list (list ge_precomp)) : bool :=
  match rows with
  | [] => true
  | row :: rows =>
      match row !! 0%nat, row !! 7%nat with
      | Some Q, Some Q' => row_check row && link_check prev (affine Q) && rows_check (affine Q') rows
      | _, _ => false
      end
  end.

Lemma entry_check_ok Q A : entry_check Q = true -> affine Q ≡ₚ A -> on_curve A -> represents Q A.
Proof.
  intros H HA HC. unfold entry_check in H. rewrite <- HA. rewrite <- HA in HC. unfold affine in *.
  set (a := redp (fe_val (yplusx Q))) in *. set (b := redp (fe_val (yminusx Q))) in *. cbn [fst snd] in *.
  apply andb_prop in H as [Hxy%eqpb_eqp Hok%bool_decide_eq_true]. rewrite !mulp_eqp in Hxy.
  assert (fe_val (yplusx Q) =ₚ a /\ fe_val (yminusx Q) =ₚ b) as [Ha Hb] by (split; symmetry; apply redp_eqp).
  pose proof (halve_eqp (a - b)) as H1. pose proof (halve_eqp (a + b)) as H2.
  split; [done|]. split; [done|]. cbn [fst snd]. rewrite Ha, Hb, Hxy. split; [|split].
  - apply (eqp_mul_l 2); [apply nz_2|]. rewrite Z.mul_add_distr_l, H1, H2. apply eqp_of_eq. ring.
  - apply (eqp_mul_l 2); [apply nz_2|]. rewrite Z.mul_sub_distr_l, H1, H2. apply eqp_of_eq. ring.
  - apply eqp_of_eq. ring.
Qed.

(** A row that starts at [n * G] holds [n * G, 2 * n * G, ..., 8 * n * G]. *)
Lemma row_check_ok row n Q0 :
  row_check row = true -> row !! 0%nat = Some Q0 -> affine Q0 ≡ₚ smul n G ->
  forall j Q, row !! j = Some Q -> represents Q (smul ((Z.of_nat j + 1) * n) G) /\
    affine Q ≡ₚ smul ((Z.of_nat j + 1) * n) G.
Proof.
  intros H H0 Hn j Q HQ. unfold row_check in H. apply andb_prop in H as [Hall H].
  destruct row as [|q rest]; [done|]. simpl in H0. simplify_eq.
  rename H into Hc.
  assert (affine Q ≡ₚ smul ((Z.of_nat j + 1) * n) G) as HA.
  { replace ((Z.of_nat j + 1) * n) with (n + Z.of_nat j * n) by lia.
    apply (chain_check_ok (affine Q0) n n (affine Q0) (map affine rest) Hc Hn Hn).
    change (((affine <$> (Q0 :: rest) : list pt) !! j) = Some (affine Q)).
    by rewrite list_lookup_fmap, HQ. }
  split; [|done]. apply entry_check_ok; [|done|by apply smul_on_curve].
  rewrite forallb_forall in Hall. apply Hall, list_elem_of_In. by eapply list_elem_of_lookup_2.
Qed.

Lemma rows_check_ok prev rows n :
  rows_check prev rows = true -> prev ≡ₚ smul n G ->
  forall i row j Q, rows !! i = Some row -> row !! j = Some Q ->
    represents Q (smul ((Z.of_nat j + 1) * (256 ^ Z.of_nat i * (32 * n))) G).
Proof.
  revert prev n. induction rows as [|r rows IH]; intros prev n Hc Hp i row j Q Hi Hj; [done|].
  simpl in Hc. destruct (r !! 0%nat) as [Q0|] eqn:E0; [|done]. destruct (r !! 7%nat) as [Q7|] eqn:E7; [|done].
  apply andb_prop in Hc as [Hc Hrest]. apply andb_prop in Hc as [Hrow Hlink].
  apply link_check_ok in Hlink; [|rewrite Hp; by apply smul_on_curve].
  rewrite Hp, <- smul_mul in Hlink by done. symmetry in Hlink.
  destruct i as [|i]; simpl in Hi.
  - simplify_eq. rewrite Z.mul_1_l. by apply (row_check_ok _ _ _ Hrow E0 Hlink).
  - destruct (row_check_ok _ _ _ Hrow E0 Hlink 7%nat Q7 E7) as [_ H7].
    pose proof (IH _ _ Hrest H7 i row j Q Hi Hj) as HQ. revert HQ.
    rewrite (Nat2Z.inj_succ i), Z.pow_succ_r by lia.
    by replace (256 ^ Z.of_nat i * (32 * ((Z.of_nat 7 + 1) * (32 * n)))) with (256 * 256 ^ Z.of_nat i * (32 * n)) by lia.
Qed.
End Chains.

(** ** The tables *)
Lemma B_on_curve : on_curve B.
Proof. unfold on_curve, B. apply eqp_compute. by vm_compute. Qed.

(** [base[i][j] = (j+1)*256^i*B] *)
Definition base_check (base : list (list ge_precomp)) : bool :=
  match base with
  | row :: rows =>
      match row !! 0%nat, row !! 7%nat with
      | Some Q, Some Q' => row_check row && eqpb (affine Q).1 B.1 && eqpb (affine Q).2 B.2 &&
          rows_check (affine Q') rows
      | _, _ => false
      end
  | [] => false
  end.

Lemma base_check_true : base_check ge_base = true.
Proof. by vm_compute. Qed.

Lemma base_check_ok base i j row Q :
  base_check base = true -> base !! i = Some row -> row !! j = Some Q ->
  represents Q (smul ((Z.of_nat j + 1) * 256 ^ Z.of_nat i) B) /\
  (i = 0%nat -> affine Q ≡ₚ smul (Z.of_nat j + 1) B).
Proof.
  intros H Hi Hj. destruct base as [|row0 rows]; [done|]. cbn [base_check] in H.
  destruct (row0 !! 0%nat) as [Q0|] eqn:E0; [|done]. destruct (row0 !! 7%nat) as [Q7|] eqn:E7; [|done].
  apply andb_prop in H as [H Hrows]. apply andb_prop in H as [H Hy%eqpb_eqp].
  apply andb_prop in H as [Hrow Hx%eqpb_eqp].
  assert (affine Q0 ≡ₚ smul 1 B) as H1 by (rewrite smul_1 by apply B_on_curve; by split).
  destruct i as [|i]; simpl in Hi.
  - simplify_eq. destruct (row_check_ok _ B_on_curve _ _ _ Hrow E0 H1 j Q Hj) as [HQ HA].
    change (256 ^ Z.of_nat 0) with 1. split; [exact HQ|]. intros _. by rewrite <- (Z.mul_1_r (_ + 1)).
  - split; [|discriminate]. destruct (row_check_ok _ B_on_curve _ _ _ Hrow E0 H1 7%nat Q7 E7) as [_ H7].
    pose proof (rows_check_ok _ B_on_curve _ _ _ Hrows H7 i row j Q Hi Hj) as HQ. revert HQ.
    rewrite (Nat2Z.inj_succ i), Z.pow_succ_r by lia.
    by replace (256 ^ Z.of_nat i * (32 * ((Z.of_nat 7 + 1) * 1))) with (256 * 256 ^ Z.of_nat i) by lia.
Qed.

Lemma ge_base_represents i j row Q :
  ge_base !! i = Some row -> row !! j = Some Q ->
  represents Q (smul ((Z.of_nat j + 1) * 256 ^ Z.of_nat i) B).
Proof. intros Hi Hj. exact (proj1 (base_check_ok _ i j row Q base_check_true Hi Hj)). Qed.

(** The odd multiples: [Bi[j] = (2*j+1)*B]. *)
Definition Bi_check (Bi : list ge_precomp) (Q2 : ge_precomp) : bool :=
  forallb entry_check Bi &&
  match Bi with
  | Q :: rest => eqpb (affine Q).1 B.1 && eqpb (affine Q).2 B.2 &&
      chain_check (affine Q2) (affine Q) (map affine rest)
  | _ => false
  end.

Lemma Bi_check_true : forall Q2, ge_base_0 !! 1%nat = Some Q2 -> Bi_check ge_Bi Q2 = true.
Proof. intros Q2 H. vm_compute in H. injection H as <-. by vm_compute. Qed.

Lemma Bi_check_ok Bi Q2 j Q :
  Bi_check Bi Q2 = true -> affine Q2 ≡ₚ smul 2 B -> Bi !! j = Some Q ->
  represents Q (smul (2 * Z.of_nat j + 1) B).
Proof.
  intros H H2 Hj. destruct Bi as [|Q0 rest]; [discriminate H|]. unfold Bi_check in H.
  apply andb_prop in H as [Hall H]. apply andb_prop in H as [H Hc]. apply andb_prop in H as [Hx%eqpb_eqp Hy%eqpb_eqp].
  assert (affine Q0 ≡ₚ smul 1 B) as H1 by (rewrite smul_1 by apply B_on_curve; by split).
  assert (affine Q ≡ₚ smul (2 * Z.of_nat j + 1) B) as HA.
  { replace (2 * Z.of_nat j + 1) with (1 + Z.of_nat j * 2) by lia.
    apply (chain_check_ok B B_on_curve (affine Q2) 2 1 (affine Q0) (map affine rest) Hc H2 H1).
    change (((affine <$> (Q0 :: rest) : list pt) !! j) = Some (affine Q)). by rewrite list_lookup_fmap, Hj. }
  apply entry_check_ok; [|exact HA|apply smul_on_curve, B_on_curve].
  rewrite forallb_forall in Hall. apply Hall, list_elem_of_In. by eapply list_elem_of_lookup_2.
Qed.

Lemma ge_Bi_represents j Q : ge_Bi !! j = Some Q -> represents Q (smul (2 * Z.of_nat j + 1) B).
Proof.
  intros Hj. destruct (lookup_lt_is_Some_2 ge_base_0 1) as [Q2 H2]; [unfold ge_base_0; cbn [length]; lia|].
  refine (Bi_check_ok _ Q2 _ _ (Bi_check_true Q2 H2) _ Hj).
  exact (proj2 (base_check_ok _ 0 1 ge_base_0 Q2 base_check_true eq_refl H2) eq_refl).
Qed.
