(* ===== verification/RecodeFacts.v ===== *)
(** * Correctness of the recodings *)

From stdpp Require Import base list numbers.
From Stdlib Require Import ZArith Lia.
From S2P Require Import Prelude Bytes Limbs Recode.

(** ** Signed digits

    [rad b e] is [e[0] + b*e[1] + b^2*e[2] + ...]. *)
Fixpoint rad (b : Z) (e : list Z) : Z :=
  match e with [] => 0 | x :: e => x + b * rad b e end.

Lemma rad_insert b e i x a :
  e !! i = Some a -> rad b (<[i := x]> e) = rad b e + b ^ Z.of_nat i * (x - a).
Proof.
  revert i. induction e as [|y e IH]; intros [|i] Hi; try done.
  - simplify_eq/=. lia.
  - change (<[S i := x]> (y :: e)) with (y :: <[i := x]> e). cbn [rad]. rewrite (IH _ Hi), Nat2Z.inj_succ, Z.pow_succ_r by lia. lia.
Qed.

Lemma rad_zeros b n : rad b (replicate n 0) = 0.
Proof. induction n as [|n IH]; simpl; [done|]. rewrite IH. lia. Qed.

Lemma rad_app b e f : rad b (e ++ f) = rad b e + b ^ Z.of_nat (length e) * rad b f.
Proof.
  induction e as [|x e IH].
  - change (b ^ Z.of_nat (length [])) with 1. cbn [app rad]. lia.
  - cbn [app rad length]. rewrite IH, Nat2Z.inj_succ, Z.pow_succ_r by lia. lia.
Qed.

(** Digits of a balanced radix are determined by their value. *)
Lemma rad_unique b e f :
  0 < b -> length e = length f ->
  (forall i x y, (S i < length e)%nat -> e !! i = Some x -> f !! i = Some y -> Z.abs (x - y) < b) ->
  rad b e = rad b f -> e = f.
Proof.
  intros Hb. revert f. induction e as [|x e IH]; intros [|y f] Hl Hd Hv; try done. simpl in *.
  destruct (decide (e = [])) as [->|He].
  { destruct f; [|done]. f_equal. simpl in *. lia. }
  assert (length e <> 0%nat) by (destruct e; simpl; [done|lia]).
  pose proof (Hd 0%nat x y ltac:(lia) eq_refl eq_refl) as H0.
  assert (rad b e = rad b f) as Hr by (assert (x - y = b * (rad b f - rad b e)) by lia; nia).
  rewrite Hr in Hv. f_equal; [lia|]. apply IH; [lia| |done].
  intros i x' y' Hi Hx' Hy'. apply (Hd (S i)); [lia|done|done].
Qed.

Lemma set_returns {A} (s : list A) i x (Q : list A -> Prop) :
  (i < length s)%nat -> Q (<[i := x]> s) -> returns (set s i x) Q.
Proof. intros Hi HQ. by rewrite set_ok. Qed.

Lemma to_i8_id z : - 128 <= z < 128 -> to_i8 z = z.
Proof. intros. by apply to_signed_id. Qed.

Lemma le_val_take_S a k b :
  a !! k = Some b -> le_val (take (S k) a) = le_val (take k a) + 256 ^ Z.of_nat k * b.
Proof.
  intros Hk. rewrite (take_S_r _ _ _ Hk), le_val_app, length_take.
  rewrite Nat.min_l by (apply lookup_lt_Some in Hk; lia). simpl. lia.
Qed.

(** ** The recoding of [ge_scalarmult] *)
Definition digit8 (x : Z) : Prop := -8 <= x <= 7.

Definition recode_inv (a : list Z) (k : nat) (st : list Z * Z) : Prop :=
  let '(e, carry) := st in
  length e = 64%nat /\ rad 16 e + carry * 256 ^ Z.of_nat k = le_val (take k a) /\
  0 <= carry <= 1 /\ Forall digit8 e /\ (forall j, (2 * k <= j < 64)%nat -> e !! j = Some 0).

Lemma shiftr_4 t : Z.shiftr t 4 = t / 16.
Proof. by rewrite Z.shiftr_div_pow2. Qed.

Lemma shiftl_4 t : Z.shiftl t 4 = 16 * t.
Proof. rewrite Z.shiftl_mul_pow2 by done. lia. Qed.

Lemma pow_256 k : 256 ^ Z.of_nat k = 16 ^ Z.of_nat (2 * k).
Proof. change 256 with (16 ^ 2). rewrite <- Z.pow_mul_r by lia. f_equal. lia. Qed.

Lemma byte_carry_inv a k st :
  bytes a -> (k < 31)%nat -> length a = 32%nat -> recode_inv a k st ->
  returns (byte_carry a k st) (recode_inv a (S k)).
Proof.
  intros Ha Hk Hl. destruct st as [e c]. intros (Le & Hv & Hc & Hd & Hz).
  destruct (byte_lookup a k Ha ltac:(lia)) as (b & Hb & Bb). unfold is_byte in Bb.
  unfold byte_carry. rewrite (get_ok _ _ _ Hb). cbn [bind].
  rewrite (i32_ok _ 256) by lia. cbn [bind]. rewrite (i32_ok _ 264) by lia. cbn [bind].
  rewrite !shiftr_4. set (c2 := (c + b + 8) / 16).
  assert (0 <= c2 <= 16 /\ digit8 (c + b - 16 * c2)) as [Hc2 Hd1] by (subst c2; unfold digit8; Z.to_euclidean_division_equations; lia).
  rewrite !shiftl_4. unfold digit8 in Hd1. rewrite to_i8_id by lia.
  apply (returns_bind _ _ (fun e' => e' = <[(2 * k)%nat := c + b - 16 * c2]> e)); [by apply set_returns; [lia|]|].
  intros ? ->. rewrite (i32_ok _ 24) by lia. cbn [bind]. rewrite shiftr_4. set (c' := (c2 + 8) / 16).
  assert (0 <= c' <= 1 /\ digit8 (c2 - 16 * c')) as [Hc' Hd2] by (subst c'; unfold digit8; Z.to_euclidean_division_equations; lia).
  rewrite shiftl_4. unfold digit8 in Hd2. rewrite to_i8_id by lia.
  apply (returns_bind _ _ (fun e' => e' = <[(2 * k + 1)%nat := c2 - 16 * c']> (<[(2 * k)%nat := c + b - 16 * c2]> e)));
    [by apply set_returns; [rewrite length_insert; lia|]|].
  intros ? ->. apply returns_ok. split_and!; [| |lia|lia| |].
  - by rewrite !length_insert.
  - rewrite (rad_insert _ _ _ _ 0) by (rewrite list_lookup_insert_ne by lia; apply Hz; lia).
    rewrite (rad_insert _ _ _ _ 0) by (apply Hz; lia).
    rewrite (le_val_take_S _ _ _ Hb), !pow_256 in *. rewrite <- Hv.
    replace (2 * S k)%nat with (S (S (2 * k))) by lia. rewrite Nat.add_1_r.
    rewrite !Nat2Z.inj_succ, !Z.pow_succ_r by lia. nia.
  - apply Forall_insert; [|done]. by apply Forall_insert.
  - intros j Hj. rewrite !list_lookup_insert_ne by lia. apply Hz. lia.
Qed.

(** Digits in [-8..7], but for the last, which is in [-8..8]. *)
Definition radix16 (e : list Z) (v : Z) : Prop :=
  length e = 64%nat /\ rad 16 e = v /\ Forall (fun x => -8 <= x <= 8) e /\
  forall i x, (i < 63)%nat -> e !! i = Some x -> digit8 x.

Lemma top_byte a b :
  bytes a -> length a = 32%nat -> a !! 31%nat = Some b ->
  le_val a = le_val (take 31 a) + 256 ^ Z.of_nat 31 * b.
Proof.
  intros Ha Hl Hb. rewrite <- (le_val_take_S _ _ _ Hb), take_ge by lia. done.
Qed.

Lemma recode_spec a b :
  bytes a -> length a = 32%nat -> a !! 31%nat = Some b -> b <= 127 ->
  returns (recode a) (fun e => radix16 e (le_val a)).
Proof.
  intros Ha Hl Hb H127. unfold recode.
  eapply returns_bind.
  { apply (for_inv 31 _ 0 _ (recode_inv a)).
    - split; [done|]. split; [by rewrite rad_zeros|]. split; [lia|]. split; [by apply Forall_replicate|].
      intros j Hj. apply lookup_replicate. split; [done|lia].
    - intros k st Hk. apply byte_carry_inv; [done|lia|done]. }
  intros [e c] (Le & Hv & Hc & Hd & Hz). cbn [Nat.add] in *.
  assert (is_byte b) as Bb by (by eapply Forall_lookup_1). unfold is_byte in Bb.
  rewrite (get_ok _ _ _ Hb). cbn [bind].
  rewrite (i32_ok _ 256) by lia. cbn [bind]. rewrite (i32_ok _ 264) by lia. cbn [bind].
  rewrite shiftr_4. set (c2 := (c + b + 8) / 16).
  assert (0 <= c2 <= 8 /\ digit8 (c + b - 16 * c2)) as [Hc2 Hd1]
    by (subst c2; unfold digit8; Z.to_euclidean_division_equations; lia).
  rewrite shiftl_4. unfold digit8 in Hd1. rewrite !to_i8_id by lia.
  rewrite set_ok by lia. cbn [bind]. apply set_returns; [rewrite length_insert; lia|].
  assert (forall j x, (<[63%nat := c2]> (<[62%nat := c + b - 16 * c2]> e)) !! j = Some x ->
    digit8 x \/ j = 63%nat /\ x = c2) as Hall.
  { intros j x [(-> & <- & _)|[Hj Hx]]%list_lookup_insert_Some; [auto|left].
    apply list_lookup_insert_Some in Hx as [(_ & <- & _)|[_ Hx]]; [done|].
    by eapply Forall_lookup_1 in Hx. }
  split_and!.
  - by rewrite !length_insert.
  - rewrite (rad_insert _ _ _ _ 0) by (rewrite list_lookup_insert_ne by lia; apply Hz; lia).
    rewrite (rad_insert _ _ _ _ 0) by (apply Hz; lia).
    rewrite (top_byte _ _ Ha Hl Hb), <- Hv. change (Z.of_nat 62) with 62. change (Z.of_nat 63) with 63.
    change (256 ^ Z.of_nat 31) with (16 ^ 62). change (16 ^ 63) with (16 * 16 ^ 62). ring.
  - apply Forall_lookup. intros j x Hx. apply Hall in Hx as [Hx|[_ ->]]; unfold digit8 in *; lia.
  - intros j x Hj Hx. apply Hall in Hx as [Hx|[-> _]]; [done|lia].
Qed.

(** ** The recoding of [ge_scalarmult_base] *)
Definition nibble (x : Z) : Prop := 0 <= x <= 15.

Definition nibbles_inv (a : list Z) (k : nat) (e : list Z) : Prop :=
  length e = 64%nat /\ rad 16 e = le_val (take k a) /\ Forall nibble e /\
  (forall j, (2 * k <= j < 64)%nat -> e !! j = Some 0) /\
  (forall j b, (j < k)%nat -> a !! j = Some b -> e !! (2 * j + 1)%nat = Some (b / 16)).

Lemma nibbles_spec a :
  bytes a -> length a = 32%nat -> returns (nibbles a) (nibbles_inv a 32).
Proof.
  intros Ha Hl. unfold nibbles. apply (for_inv 32 _ 0 _ (nibbles_inv a)).
  { split; [done|]. split; [by rewrite rad_zeros|]. split; [by apply Forall_replicate|]. split; [|lia].
    intros j Hj. apply lookup_replicate. split; [done|lia]. }
  intros k e Hk (Le & Hv & Hn & Hz & Hhi).
  destruct (byte_lookup a k Ha ltac:(lia)) as (b & Hb & Bb). unfold is_byte in Bb.
  rewrite (get_ok _ _ _ Hb). cbn [bind]. change 15 with (Z.ones 4). rewrite !Z.land_ones by lia.
  rewrite Z.shiftr_0_r, shiftr_4. change (2 ^ 4) with 16. rewrite (Z.mod_small (b / 16))
    by (Z.to_euclidean_division_equations; lia).
  rewrite set_ok by lia. cbn [bind]. apply set_returns; [rewrite length_insert; lia|].
  pose proof (Z.mod_pos_bound b 16 ltac:(lia)). pose proof (Z.div_mod b 16 ltac:(lia)).
  split_and!.
  - by rewrite !length_insert.
  - rewrite (rad_insert _ _ _ _ 0) by (rewrite list_lookup_insert_ne by lia; apply Hz; lia).
    rewrite (rad_insert _ _ _ _ 0) by (apply Hz; lia).
    rewrite (le_val_take_S _ _ _ Hb), pow_256, <- Hv, Nat.add_1_r, Nat2Z.inj_succ, Z.pow_succ_r by lia. nia.
  - apply Forall_insert; [apply Forall_insert; [done|]|]; unfold nibble; lia.
  - intros j Hj. rewrite !list_lookup_insert_ne by lia. apply Hz. lia.
  - intros j b' Hj Hb'. destruct (decide (j = k)) as [->|].
    + simplify_eq. apply list_lookup_insert_eq. rewrite length_insert. lia.
    + rewrite !list_lookup_insert_ne by lia. apply Hhi; [lia|done].
Qed.

Definition carry_inv (v h : Z) (k : nat) (st : list Z * Z) : Prop :=
  let '(e, carry) := st in
  length e = 64%nat /\ rad 16 e + carry * 16 ^ Z.of_nat k = v /\ 0 <= carry <= 1 /\
  e !! 63%nat = Some h /\
  forall j x, e !! j = Some x -> if decide (j < k)%nat then digit8 x else nibble x.

Lemma nibble_carry_inv v h k st :
  (k < 63)%nat -> carry_inv v h k st -> returns (nibble_carry k st) (carry_inv v h (S k)).
Proof.
  destruct st as [e c]. intros Hk (Le & Hv & Hc & H63 & Hd).
  destruct (lookup_lt_is_Some_2 e k ltac:(lia)) as [x Hx].
  pose proof (Hd _ _ Hx) as Hn. rewrite decide_False in Hn by lia. unfold nibble in Hn.
  unfold nibble_carry. rewrite (get_ok _ _ _ Hx). cbn [bind].
  rewrite !(to_i8_id (x + c)) by lia. rewrite (to_i8_id (x + c + 8)) by lia. rewrite shiftr_4, shiftl_4.
  set (c' := (x + c + 8) / 16).
  assert (0 <= c' <= 1 /\ digit8 (x + c - 16 * c')) as [Hc' Hd']
    by (subst c'; unfold digit8; Z.to_euclidean_division_equations; lia).
  unfold digit8 in Hd'. rewrite to_i8_id by lia. rewrite set_ok by lia. cbn [bind].
  apply returns_ok. split_and!; [| |lia|lia| |].
  - by rewrite length_insert.
  - rewrite (rad_insert _ _ _ _ x) by done. rewrite <- Hv, Nat2Z.inj_succ, Z.pow_succ_r by lia. ring.
  - by rewrite list_lookup_insert_ne by lia.
  - intros j y [(-> & <- & _)|[Hj Hy]]%list_lookup_insert_Some.
    + by rewrite decide_True by lia.
    + specialize (Hd _ _ Hy). destruct (decide (j < k)%nat); [rewrite decide_True by lia; done|].
      rewrite decide_False by lia. done.
Qed.

Lemma recode_base_spec a b :
  bytes a -> length a = 32%nat -> a !! 31%nat = Some b -> b <= 127 ->
  returns (recode_base a) (fun e => radix16 e (le_val a)).
Proof.
  intros Ha Hl Hb H127. unfold recode_base. eapply returns_bind; [by apply nibbles_spec|].
  intros e0 (Le & Hv & Hn & _ & Hhi). rewrite take_ge in Hv by lia.
  pose proof (Hhi 31%nat b ltac:(lia) Hb) as H63. simpl in H63.
  assert (is_byte b) as Bb by (by eapply Forall_lookup_1). unfold is_byte in Bb.
  eapply returns_bind.
  { apply (for_inv 63 _ 0 _ (carry_inv (le_val a) (b / 16))).
    - split; [done|]. split; [lia|]. split; [lia|]. split; [done|]. intros j x Hx. rewrite decide_False by lia. by eapply (Forall_lookup_1 nibble).
    - intros k st Hk. apply nibble_carry_inv. lia. }
  intros [e c] (Le' & Hv' & Hc & E63 & Hd). cbn [Nat.add] in *.
  rewrite (get_ok _ _ _ E63). cbn [bind].
  assert (0 <= b / 16 <= 7) as Hb7 by (Z.to_euclidean_division_equations; lia).
  rewrite to_i8_id by lia. apply set_returns; [lia|]. split_and!.
  - by rewrite length_insert.
  - rewrite (rad_insert _ _ _ _ (b / 16)) by done. rewrite <- Hv'. ring.
  - apply Forall_lookup. intros j x [(<- & <- & _)|[Hj Hx]]%list_lookup_insert_Some; [lia|].
    assert (j < 64)%nat by (apply lookup_lt_Some in Hx; lia).
    specialize (Hd _ _ Hx). rewrite decide_True in Hd by lia. unfold digit8 in Hd. lia.
  - intros j x Hj [(<- & _)|[_ Hx]]%list_lookup_insert_Some; [lia|].
    specialize (Hd _ _ Hx). by rewrite decide_True in Hd by lia.
Qed.

Lemma radix16_unique e f v : radix16 e v -> radix16 f v -> e = f.
Proof.
  intros (Le & He & _ & De) (Lf & Hf & _ & Df). apply (rad_unique 16); [done|congruence| |congruence].
  intros i x y Hi Hx Hy. pose proof (De i x ltac:(lia) Hx). pose proof (Df i y ltac:(lia) Hy).
  unfold digit8 in *. lia.
Qed.

(** ** Correctness of the sliding-window recoding *)

Definition bit (x : Z) : Prop := x = 0 \/ x = 1.
Definition bits_from (k : nat) (r : list Z) : Prop := forall j x, (k <= j)%nat -> r !! j = Some x -> bit x.
(** The entries [k .. m-1] that exist are zero. *)
Definition zeros (k m : nat) (r : list Z) : Prop := forall j x, (k <= j < m)%nat -> r !! j = Some x -> x = 0.
(** A nonzero digit of the result is odd and at most 15 in absolute value. *)
Definition window (x : Z) : Prop := Z.odd x = true /\ Z.abs x <= 15.

Lemma bits_from_insert k i x r : bits_from k r -> bit x -> bits_from k (<[i := x]> r).
Proof. intros Hr Hx j y Hj [(_ & <- & _)|[_ Hy]]%list_lookup_insert_Some; [done|by eapply Hr]. Qed.

Lemma bits_from_low k i x r : bits_from k r -> (i < k)%nat -> bits_from k (<[i := x]> r).
Proof. intros Hr Hi j y Hj. rewrite list_lookup_insert_ne by lia. by apply Hr. Qed.

Lemma bits_from_le k k' r : bits_from k r -> (k <= k')%nat -> bits_from k' r.
Proof. intros Hr Hk j x Hj. apply Hr. lia. Qed.

Lemma take_eq_lookup k (r r' : list Z) j : take k r' = take k r -> (j < k)%nat -> r' !! j = r !! j.
Proof. intros Ht Hj. rewrite <- (lookup_take_lt r' k), <- (lookup_take_lt r k), Ht by done. done. Qed.

Lemma take_le_eq k m (r r' : list Z) : take m r' = take m r -> (k <= m)%nat -> take k r' = take k r.
Proof. intros Ht Hk. rewrite <- (Nat.min_l k m), <- !take_take, Ht by done. done. Qed.

(** The carry loop adds [2^k], unless all bits from [k] on are set. *)
Lemma slide_carry_spec n k r :
  length r = (k + n)%nat -> bits_from k r -> (exists j, (k <= j)%nat /\ r !! j = Some 0) ->
  returns (slide_carry n k r) (fun r' => length r' = length r /\ take k r' = take k r /\
    bits_from k r' /\ rad 2 r' = rad 2 r + 2 ^ Z.of_nat k).
Proof.
  revert k r. induction n as [|n IH]; intros k r Hl Hb (j & Hj & H0).
  { apply lookup_lt_Some in H0. lia. }
  destruct (lookup_lt_is_Some_2 r k ltac:(lia)) as [x Hx]. cbn [slide_carry].
  rewrite (get_ok _ _ _ Hx). cbn [bind].
  destruct (Hb k x ltac:(lia) Hx) as [-> | ->]; cbn [Z.eqb].
  - apply set_returns; [lia|]. split_and!.
    + by rewrite length_insert.
    + by rewrite take_insert_ge by lia.
    + apply bits_from_insert; [done|by right].
    + rewrite (rad_insert _ _ _ _ 0) by done. lia.
  - rewrite set_ok by lia. cbn [bind].
    eapply returns_mono; [apply IH|].
    + rewrite length_insert. lia.
    + apply bits_from_insert; [|by left]. eapply bits_from_le; [done|lia].
    + assert (j <> k) by congruence. exists j. split; [lia|]. by rewrite list_lookup_insert_ne by lia.
    + rewrite length_insert. intros r' (L' & T' & B' & V'). split_and!; [done| | |].
      * rewrite (take_le_eq k (S k) _ _ T') by lia. by rewrite take_insert_ge by lia.
      * intros i y Hi Hy. destruct (decide (i = k)) as [->|]; [|by apply (B' i); [lia|]].
        rewrite (take_eq_lookup _ _ _ k T'), list_lookup_insert_eq in Hy by lia. left. congruence.
      * rewrite V', (rad_insert _ _ _ _ 1), Nat2Z.inj_succ, Z.pow_succ_r by (done || lia). lia.
Qed.

(** ** One window *)
Section Window.
Context (i : nat) (low : list Z) (v : Z).
Hypothesis Hi : (i < 256)%nat.
Hypothesis Hlow : Z.abs (rad 2 low) < 2 ^ Z.of_nat i.
Hypothesis Hlen : length low = i.
Hypothesis Hv : v < 2 ^ 255.

(** The array when the window at [i] covers [i .. i+b-1]. *)
Definition merging (b : nat) (r : list Z) : Prop :=
  length r = 256%nat /\ take i r = low /\ bits_from (S i) r /\ zeros (S i) (i + b) r /\ rad 2 r = v /\
  exists x, r !! i = Some x /\ Z.odd x = true /\ 1 <= x < 2 ^ Z.of_nat b.

(** The array when the window is closed. *)
Definition closed (r : list Z) : Prop :=
  length r = 256%nat /\ take i r = low /\ bits_from (S i) r /\ zeros (S i) (i + 4) r /\ rad 2 r = v /\
  exists x, r !! i = Some x /\ window x.

Lemma merging_closed b r : merging b r -> (b <= 4)%nat -> (b = 4 \/ 256 <= i + b)%nat -> closed r.
Proof.
  intros (L & T & B & Zr & V & x & Hx & Ho & Hxb) Hb Hend. split_and!; try done.
  - intros j y Hj Hy. apply (Zr j y); [|done]. apply lookup_lt_Some in Hy. lia.
  - exists x. split; [done|]. split; [done|].
    pose proof (Z.pow_le_mono_r 2 (Z.of_nat b) 4 ltac:(lia) ltac:(lia)). lia.
Qed.

(** [r[i] += r[i + b] << b; r[i + b] = 0] *)
Lemma merge_step b r :
  merging b r -> (1 <= b <= 3)%nat -> (i + b < 256)%nat -> r !! (i + b)%nat = Some 1 ->
  exists x, r !! i = Some x /\ x + 2 ^ Z.of_nat b <= 15 /\
    merging (S b) (<[(i + b)%nat := 0]> (<[i := x + 2 ^ Z.of_nat b]> r)).
Proof.
  intros (L & T & B & Zr & V & x & Hx & Ho & Hxb) Hb Hib H1. exists x. split; [done|].
  assert (2 ^ Z.of_nat b <= 2 ^ 3) as H8 by (apply Z.pow_le_mono_r; lia).
  split; [lia|]. unfold merging. rewrite !length_insert. split_and!; [done| | | | |].
  - rewrite !take_insert_ge by lia. done.
  - apply bits_from_insert; [|by left]. by apply bits_from_low; [|lia].
  - intros j y Hj [(_ & <- & _)|[Hne Hy]]%list_lookup_insert_Some; [done|].
    rewrite list_lookup_insert_ne in Hy by lia. apply (Zr j); [lia|done].
  - rewrite (rad_insert _ _ _ _ 1) by (by rewrite list_lookup_insert_ne by lia).
    rewrite (rad_insert _ _ _ _ x) by done. rewrite V, Nat2Z.inj_add, Z.pow_add_r by lia. lia.
  - exists (x + 2 ^ Z.of_nat b). rewrite list_lookup_insert_ne, list_lookup_insert_eq by lia.
    split; [done|]. rewrite Nat2Z.inj_succ, Z.pow_succ_r by lia. split; [|lia].
    rewrite Z.odd_add, Ho, Z.odd_pow by lia. done.
Qed.

(** Not all the bits above the window can be set. *)
Lemma ones_rad n : rad 2 (replicate n 1) = 2 ^ Z.of_nat n - 1.
Proof.
  induction n as [|n IH]; [done|]. cbn [replicate rad]. rewrite IH, Nat2Z.inj_succ, Z.pow_succ_r by lia. lia.
Qed.

Lemma zero_above r :
  merging 4 r -> (i + 4 < 256)%nat -> exists j, (i + 4 <= j)%nat /\ r !! j = Some 0.
Proof.
  intros (L & T & B & Zr & V & x & Hx & Ho & Hxb) Hi4.
  destruct (decide (0 ∈ drop (i + 4) r)) as [H0|H0].
  { apply list_elem_of_lookup in H0 as (j & Hj). rewrite lookup_drop in Hj. exists (i + 4 + j)%nat. split; [lia|done]. }
  exfalso. assert (drop (i + 4) r = replicate (252 - i) 1) as Hd.
  { symmetry. apply replicate_as_Forall. rewrite length_drop. split; [lia|]. apply Forall_lookup. intros j y Hy.
    pose proof Hy as He. apply list_elem_of_lookup_2 in He. rewrite lookup_drop in Hy.
    destruct (B (i + 4 + j)%nat y ltac:(lia) Hy) as [-> | ->]; done. }
  assert (take 4 (drop i r) = [x; 0; 0; 0]) as Hw.
  { rewrite (drop_S _ _ _ Hx).
    destruct (lookup_lt_is_Some_2 r (S i) ltac:(lia)) as [a Ha].
    destruct (lookup_lt_is_Some_2 r (S (S i)) ltac:(lia)) as [b Hb].
    destruct (lookup_lt_is_Some_2 r (S (S (S i))) ltac:(lia)) as [c Hc].
    rewrite (drop_S _ _ _ Ha), (drop_S _ _ _ Hb), (drop_S _ _ _ Hc). cbn [take].
    rewrite (Zr (S i) a ltac:(lia) Ha), (Zr (S (S i)) b ltac:(lia) Hb), (Zr (S (S (S i))) c ltac:(lia) Hc). done. }
  rewrite <- (take_drop i r), <- (take_drop 4 (drop i r)), drop_drop, Hd, Hw, T in V.
  rewrite !rad_app, ones_rad, Hlen in V. cbn [length rad] in V.
  assert (2 ^ Z.of_nat i * 2 ^ Z.of_nat 4 * 2 ^ Z.of_nat (252 - i) = 2 ^ 256) as E
    by (rewrite <- !Z.pow_add_r by lia; f_equal; lia).
  assert (2 ^ Z.of_nat i * 2 ^ Z.of_nat 4 <= 2 ^ 255) as E'
    by (rewrite <- !Z.pow_add_r by lia; apply Z.pow_le_mono_r; lia).
  set (P := 2 ^ Z.of_nat i) in *. change (2 ^ Z.of_nat 4) with 16 in *.
  change (2 ^ 256) with (2 * 2 ^ 255) in E. nia.
Qed.

Lemma merging_bit b r :
  merging b r -> (1 <= b)%nat -> (i + b < 256)%nat -> exists y, r !! (i + b)%nat = Some y /\ bit y.
Proof.
  intros (L & _ & B & _) Hb Hib. destruct (lookup_lt_is_Some_2 r (i + b) ltac:(lia)) as [y Hy].
  exists y. split; [done|]. apply (B (i + b)%nat y ltac:(lia) Hy).
Qed.

Lemma merging_skip b r : merging b r -> r !! (i + b)%nat = Some 0 -> merging (S b) r.
Proof.
  intros (L & T & B & Zr & V & x & Hx & Ho & Hxb) H0. split_and!; try done.
  - intros j y Hj Hy. destruct (decide (j = i + b)%nat) as [->|]; [congruence|]. apply (Zr j); [lia|done].
  - exists x. split; [done|]. split; [done|]. rewrite Nat2Z.inj_succ, Z.pow_succ_r by lia. lia.
Qed.

Lemma window_merge n b r :
  merging b r -> (1 <= b <= 3)%nat ->
  (forall r', merging (S b) r' -> returns (slide_window n (S b) i r') closed) ->
  returns (slide_window (S n) b i r) closed.
Proof.
  intros Hm Hb Hnext. cbn [slide_window].
  destruct (decide (i + b < 256)%nat) as [Hib|]; [|apply (merging_closed b); [done|lia|lia]].
  destruct (merging_bit b r Hm ltac:(lia) Hib) as (y & Hy & [-> | ->]);
    rewrite (get_ok _ _ _ Hy); cbn [bind Z.eqb].
  - by apply Hnext, merging_skip.
  - destruct (merge_step b r Hm Hb Hib Hy) as (x & Hx & Hx15 & Hm').
    rewrite (get_ok _ _ _ Hx). cbn [bind]. rewrite Z.shiftl_1_l.
    destruct Hm as (L & _ & _ & _ & _ & x' & Hx' & _ & Hxb). simplify_eq.
    rewrite (proj2 (Z.leb_le _ _)) by done. rewrite to_i8_id by lia.
    rewrite set_ok by lia. cbn [bind]. rewrite set_ok by (rewrite length_insert; lia). cbn [bind].
    by apply Hnext.
Qed.

(** The fifth bit is subtracted, and twice its value carried upwards. *)
Lemma window_borrow n r :
  merging 4 r -> (forall r', closed r' -> returns (slide_window n 5 i r') closed) ->
  returns (slide_window (S n) 4 i r) closed.
Proof.
  intros Hm Hnext. cbn [slide_window].
  destruct (decide (i + 4 < 256)%nat) as [Hib|]; [|apply (merging_closed 4); [done|lia|lia]].
  destruct (merging_bit 4 r Hm ltac:(lia) Hib) as (y & Hy & [-> | ->]);
    rewrite (get_ok _ _ _ Hy); cbn [bind Z.eqb].
  - apply Hnext, (merging_closed 4); [done|lia|lia].
  - pose proof (zero_above r Hm Hib) as Hz.
    destruct Hm as (L & T & B & Zr & V & x & Hx & Ho & Hxb). change (2 ^ Z.of_nat 4) with 16 in Hxb.
    rewrite (get_ok _ _ _ Hx). cbn [bind]. change (Z.shiftl 1 (Z.of_nat 4)) with 16.
    rewrite (proj2 (Z.leb_gt _ _)) by lia. rewrite (proj2 (Z.geb_le _ _)) by lia.
    rewrite to_i8_id by lia. rewrite set_ok by lia. cbn [bind].
    eapply returns_bind; [apply slide_carry_spec|].
    + rewrite length_insert. lia.
    + apply bits_from_low; [|lia]. eapply bits_from_le; [exact B|lia].
    + destruct Hz as (j & Hj & H0). exists j. split; [done|]. by rewrite list_lookup_insert_ne by lia.
    + intros r' (L' & T' & B' & V'). rewrite length_insert in L'. apply Hnext.
      split_and!; [lia| | | | |].
      * rewrite (take_le_eq i (i + 4) _ _ T') by lia. by rewrite take_insert_ge by lia.
      * intros j y Hj Hy'. destruct (decide (j < i + 4)%nat); [|apply (B' j); [lia|done]].
        rewrite (take_eq_lookup _ _ _ _ T'), list_lookup_insert_ne in Hy' by lia. apply (B j); [lia|done].
      * intros j y Hj Hy'. rewrite (take_eq_lookup _ _ _ _ T'), list_lookup_insert_ne in Hy' by lia.
        apply (Zr j); [lia|done].
      * rewrite V', (rad_insert _ _ _ _ x), Nat2Z.inj_add, Z.pow_add_r by (done || lia).
        change (2 ^ Z.of_nat 4) with 16. lia.
      * exists (x - 16). rewrite (take_eq_lookup _ _ _ _ T'), list_lookup_insert_eq by lia.
        split; [done|]. split; [|lia]. by rewrite Z.odd_sub, Ho.
Qed.

(** A later bit ends the window. *)
Lemma window_end n b r :
  closed r -> (5 <= b)%nat -> returns (slide_window n (S b) i r) closed ->
  returns (slide_window (S n) b i r) closed.
Proof.
  intros Hc Hb Hnext. cbn [slide_window]. destruct (decide (i + b < 256)%nat) as [Hib|]; [|done].
  destruct Hc as (L & T & B & Zr & V & x & Hx & Ho & Hx15) eqn:E. clear E.
  destruct (lookup_lt_is_Some_2 r (i + b) ltac:(lia)) as [y Hy]. rewrite (get_ok _ _ _ Hy). cbn [bind].
  destruct (B (i + b)%nat y ltac:(lia) Hy) as [-> | ->]; cbn [Z.eqb]; [done|].
  rewrite (get_ok _ _ _ Hx). cbn [bind]. rewrite Z.shiftl_1_l.
  assert (2 ^ 5 <= 2 ^ Z.of_nat b) by (apply Z.pow_le_mono_r; lia).
  rewrite (proj2 (Z.leb_gt _ _)) by lia. replace (_ >=? _) with false by lia. done.
Qed.

Lemma slide_window_spec r :
  merging 1 r -> returns (slide_window 6 1 i r) closed.
Proof.
  intros Hm. apply window_merge; [done|lia|]. intros r1 H1. apply window_merge; [done|lia|].
  intros r2 H2. apply window_merge; [done|lia|]. intros r3 H3. apply window_borrow; [done|].
  intros r4 H4. apply window_end; [done|lia|]. by apply window_end; [|lia|].
Qed.
End Window.

(** ** The scan *)

(** The digits below [i] are recoded; the digits [i .. q-1] are known to be zero. *)
Definition slide_inv (v : Z) (i : nat) (r : list Z) : Prop :=
  length r = 256%nat /\ bits_from i r /\ rad 2 r = v /\
  (forall j x, (j < i)%nat -> r !! j = Some x -> x = 0 \/ window x) /\
  exists q, zeros i q r /\ Z.abs (rad 2 (take i r)) < 2 ^ Z.of_nat q.

Lemma rad_take_S b r i x :
  r !! i = Some x -> rad b (take (S i) r) = rad b (take i r) + b ^ Z.of_nat i * x.
Proof.
  intros Hx. rewrite (take_S_r _ _ _ Hx), rad_app, length_take.
  rewrite Nat.min_l by (apply lookup_lt_Some in Hx; lia). cbn [rad]. lia.
Qed.

Lemma slide_step_spec v i r :
  (i < 256)%nat -> v < 2 ^ 255 -> slide_inv v i r -> returns (slide_step i r) (slide_inv v (S i)).
Proof.
  intros Hi Hv (L & B & V & D & q & Zq & Hq). unfold slide_step.
  destruct (lookup_lt_is_Some_2 r i ltac:(lia)) as [x Hx]. rewrite (get_ok _ _ _ Hx). cbn [bind].
  destruct (B i x ltac:(lia) Hx) as [-> | ->]; cbn [Z.eqb].
  - apply returns_ok. split_and!; try done.
    + eapply bits_from_le; [done|lia].
    + intros j y Hj Hy. destruct (decide (j = i)) as [->|]; [left; congruence|]. apply (D j); [lia|done].
    + exists q. split; [|by rewrite (rad_take_S _ _ _ _ Hx), Z.mul_0_r, Z.add_0_r].
      intros j y Hj. apply Zq. lia.
  - assert (q <= i)%nat as Hqi.
    { destruct (decide (q <= i)%nat); [done|]. discriminate (Zq i 1 ltac:(lia) Hx). }
    assert (2 ^ Z.of_nat q <= 2 ^ Z.of_nat i) by (apply Z.pow_le_mono_r; lia).
    eapply returns_mono.
    { apply (slide_window_spec i (take i r) v); [done|lia|rewrite length_take; lia|done|].
      split_and!; try done; [eapply bits_from_le; [exact B|lia]| |].
      - intros j y Hj. lia.
      - by exists 1. }
    intros r' (L' & T' & B' & Z' & V' & y & Hy & Wy). split_and!; try done.
    + intros j z Hj Hz. destruct (decide (j = i)) as [->|]; [right; congruence|].
      rewrite (take_eq_lookup _ _ _ _ T') in Hz by lia. apply (D j); [lia|done].
    + exists (i + 4)%nat. split; [done|]. rewrite (rad_take_S _ _ _ _ Hy), T'. destruct Wy as [_ Wy].
      rewrite Nat2Z.inj_add, Z.pow_add_r by lia. change (2 ^ Z.of_nat 4) with 16. nia.
Qed.

(** ** The bits *)
Lemma mod_pow2_S v k :
  0 <= k -> v mod 2 ^ (k + 1) = v mod 2 ^ k + 2 ^ k * bits v k 1.
Proof.
  intros Hk. unfold bits. rewrite Z.pow_add_r, Z.rem_mul_r by lia. by rewrite Z.shiftr_div_pow2 by lia.
Qed.

Lemma bits_bit v o : bit (bits v o 1).
Proof. pose proof (bits_bound v o 1 ltac:(lia)). unfold bit. lia. Qed.

Definition bits_inv (v : Z) (k : nat) (r : list Z) : Prop :=
  length r = 256%nat /\ bits_from 0 r /\ rad 2 r = v mod 2 ^ Z.of_nat k /\
  forall j, (k <= j < 256)%nat -> r !! j = Some 0.

Lemma slide_bits_spec a :
  bytes a -> length a = 32%nat ->
  returns (slide_bits a) (fun r => length r = 256%nat /\ bits_from 0 r /\ rad 2 r = le_val a).
Proof.
  intros Ha Hl. rewrite <- (le_bytes_val a Ha), Hl, le_val_bytes. set (v := le_val a).
  eapply returns_mono; [apply (for_inv 256 _ 0 _ (bits_inv v))| intros r (? & ? & ? & _); done].
  - split; [done|]. split; [|split].
    + intros j x _ Hx. apply lookup_replicate in Hx as [-> _]. by left.
    + rewrite rad_zeros. by rewrite Z.mod_1_r.
    + intros j Hj. apply lookup_replicate. split; [done|lia].
  - intros k r Hk (L & B & V & Z0).
    rewrite get_le_bytes by (apply Nat.Div0.div_lt_upper_bound; lia). cbn [bind].
    pose proof (Nat.mod_upper_bound k 8 ltac:(lia)). pose proof (Nat.div_mod_eq k 8) as Hdm.
    rewrite shiftr_bits by lia. change 1 with (2 ^ 1 - 1). rewrite land_bits by lia.
    replace (8 * Z.of_nat (k / 8) + Z.of_nat (k mod 8)) with (Z.of_nat k) by lia.
    apply set_returns; [lia|]. split_and!.
    + by rewrite length_insert.
    + apply bits_from_insert; [done|apply bits_bit].
    + rewrite (rad_insert _ _ _ _ 0) by (apply Z0; lia).
      rewrite Nat2Z.inj_succ. unfold Z.succ. rewrite mod_pow2_S, V by lia. lia.
    + intros j Hj. rewrite list_lookup_insert_ne by lia. apply Z0. lia.
Qed.

(** A sliding-window recoding of [v]. *)
Definition sliding (r : list Z) (v : Z) : Prop :=
  length r = 256%nat /\ rad 2 r = v /\ Forall (fun x => x = 0 \/ window x) r.

Lemma slide_spec a :
  bytes a -> length a = 32%nat -> le_val a < 2 ^ 255 ->
  returns (slide a) (fun r => sliding r (le_val a)).
Proof.
  intros Ha Hl Hv. unfold slide. eapply returns_bind; [by apply slide_bits_spec|].
  intros r (L & B & V).
  eapply returns_mono; [apply (for_inv 256 _ 0 _ (slide_inv (le_val a)))|].
  - split_and!; try done; [intros j x Hj; lia|]. exists 0%nat. split; [intros j x Hj; lia|done].
  - intros k r' Hk. apply slide_step_spec; [lia|done].
  - intros r' (L' & _ & V' & D & _). split_and!; try done.
    apply Forall_lookup. intros j x Hx. apply (D j); [|done]. apply lookup_lt_Some in Hx. lia.
Qed.
