(* ===== verification/ScalarMultFacts.v ===== *)
(** * Correctness of the scalar multiplications *)

From stdpp Require Import base list numbers.
From Stdlib Require Import ZArith Lia.
From S2P Require Import Prelude Bytes Limbs Field FieldFacts FieldBytes Edwards CurveData Group GroupFacts GroupSpec BaseTable Recode RecodeFacts ScalarMult.

(** ** Branch-free tests *)
Lemma equal_spec b c : equal b c = if decide (u8 b = u8 c) then 1 else 0.
Proof.
  unfold equal. pose proof (Z.mod_pos_bound b (2 ^ 8) ltac:(lia)) as Hb.
  pose proof (Z.mod_pos_bound c (2 ^ 8) ltac:(lia)) as Hc. fold (u8 b) in Hb. fold (u8 c) in Hc.
  destruct (decide (u8 b = u8 c)) as [->|Hne]; [by rewrite Z.lxor_nilpotent|].
  assert (Z.lxor (u8 b) (u8 c) <> 0) as Hx by (by rewrite Z.lxor_eq_0_iff).
  pose proof (lxor_bound (u8 b) (u8 c) 8 ltac:(lia) Hb Hc) as Hr.
  unfold u32. rewrite Z.mod_small by lia. rewrite Z.shiftr_div_pow2, Z.div_small by lia. done.
Qed.

Lemma negative_spec b : - 2 ^ 63 <= b < 2 ^ 63 -> negative b = if decide (b < 0) then 1 else 0.
Proof.
  intros Hb. unfold negative, u64. rewrite Z.shiftr_div_pow2 by lia. destruct (decide (b < 0)).
  - replace (b mod 2 ^ 64) with (b + 2 ^ 64) by (apply (Z.mod_unique _ _ (-1)); lia).
    replace ((b + 2 ^ 64) / 2 ^ 63) with 1 by (apply (Z.div_unique _ _ _ (b + 2 ^ 63)); lia). done.
  - rewrite (Z.mod_small b), Z.div_small by lia. done.
Qed.

Lemma babs_spec b : -128 <= b <= 127 -> babs b = Z.abs b.
Proof.
  intros Hb. unfold babs. rewrite negative_spec by lia. destruct (decide (b < 0)).
  - change (- (1)) with (-1). rewrite Z.land_m1_l, Z.shiftl_mul_pow2 by lia.
    replace (b - b * 2 ^ 1) with (- b) by lia. unfold u8. rewrite Z.mod_small; lia.
  - rewrite Z.land_0_l, Z.shiftl_0_l. unfold u8. rewrite Z.mod_small; lia.
Qed.

(** ** Table lookups by conditional moves *)
Section Moves.
Context {A : Type} (ok : A -> Prop) (cmov : A -> A -> Z -> result A).
Hypothesis cmov_ok : forall t u b, ok t -> ok u -> b = 0 \/ b = 1 ->
  cmov t u b = Ok (if decide (b = 1) then u else t).

Lemma cmov_all_spec table ab t :
  length table = 8%nat -> Forall ok table -> ok t -> 0 <= ab <= 8 ->
  returns (cmov_all cmov table ab t)
    (fun r => (ab = 0 /\ r = t \/ 0 < ab /\ table !! Z.to_nat (ab - 1) = Some r) /\ ok r).
Proof.
  intros Hl Hok Ht Hab. unfold cmov_all.
  eapply returns_mono.
  { apply (for_inv 8 _ 0 _ (fun k r => (if decide (1 <= ab <= Z.of_nat k) then table !! Z.to_nat (ab - 1) = Some r
      else r = t) /\ ok r)).
    - rewrite decide_False by lia. done.
    - intros k r Hk [Hr Hokr]. destruct (lookup_lt_is_Some_2 table k ltac:(lia)) as [u Hu].
      assert (ok u) by (by eapply Forall_lookup_1). rewrite (get_ok _ _ _ Hu). cbn [bind].
      rewrite equal_spec. unfold u8. rewrite !Z.mod_small by lia.
      rewrite cmov_ok; [|done|done|destruct (decide (ab = Z.of_nat k + 1)); auto].
      destruct (decide (ab = Z.of_nat k + 1)) as [E|E]; cbn [returns].
      + rewrite decide_True, decide_True by (done || lia). split; [|done].
        by replace (Z.to_nat (ab - 1)) with k by lia.
      + rewrite (decide_False (P := 0 = 1)) by done. split; [|done].
        destruct (decide (1 <= ab <= Z.of_nat k)); [by rewrite decide_True by lia|by rewrite decide_False by lia]. }
  intros r [Hr Hokr]. split; [|done]. cbn [Nat.add] in Hr. destruct (decide (ab = 0)) as [->|].
  - left. by rewrite decide_False in Hr by lia.
  - right. rewrite decide_True in Hr by lia. split; [lia|done].
Qed.
End Moves.

Lemma ge_precomp_cmov_spec {ndebug} t u b :
  precomp_ok t -> precomp_ok u -> b = 0 \/ b = 1 ->
  ge_precomp_cmov ndebug t u b = Ok (if decide (b = 1) then u else t).
Proof.
  intros (A1 & A2 & A3) (B1 & B2 & B3) Hb. unfold ge_precomp_cmov.
  rewrite !(fe_cmov_spec 101) by (done || lia). cbn [bind]. destruct t, u. by destruct (decide (b = 1)).
Qed.

Lemma ge_cached_cmov_spec {ndebug} t u b :
  cached_ok t -> cached_ok u -> b = 0 \/ b = 1 ->
  ge_cached_cmov ndebug t u b = Ok (if decide (b = 1) then u else t).
Proof.
  intros (A1 & A2 & A3 & A4) (B1 & B2 & B3 & B4) Hb. unfold ge_cached_cmov.
  rewrite !(fe_cmov_spec 202) by (done || lia || (eapply fe_bounded_le; [eassumption|lia])).
  cbn [bind]. destruct t, u. by destruct (decide (b = 1)).
Qed.

(** ** Negation of a table entry *)
Lemma precomp_neg Q A :
  represents Q A ->
  returns (fe_neg (xy2d Q)) (fun m => represents (Precomp (fe_copy (yminusx Q)) (fe_copy (yplusx Q)) m) (pneg A)).
Proof.
  intros [HA [(B1 & B2 & B3) (E1 & E2 & E3)]]. eapply returns_mono; [apply fe_neg_spec; [done|lia]|].
  intros m [Bm Em]. rewrite !fe_copy_id. split; [by apply pneg_on_curve|]. split; [done|].
  cbn [yplusx yminusx xy2d]. destruct A as [x y]. cbn [pneg fst snd] in *.
  rewrite E1, E2, Em, E3. split_and!; apply eqp_of_eq; ring.
Qed.

Lemma cached_neg Q A :
  represents Q A ->
  returns (fe_neg (T2d Q)) (fun m =>
    represents (Cached (fe_copy (YminusX Q)) (fe_copy (YplusX Q)) (fe_copy (Zc Q)) m) (pneg A)).
Proof.
  intros [HA (z & Hz & (B1 & B2 & B3 & B4) & E1 & E2 & E3 & E4)].
  eapply returns_mono; [apply fe_neg_spec; [done|lia]|].
  intros m [Bm Em]. rewrite !fe_copy_id. split; [by apply pneg_on_curve|]. exists z. split; [done|]. split; [done|].
  cbn [YplusX YminusX Zc T2d]. destruct A as [x y]. cbn [pneg fst snd] in *.
  rewrite E1, E2, E3, Em, E4. split_and!; apply eqp_of_eq; ring.
Qed.

Lemma precomp_represents_ok Q A : represents Q A -> precomp_ok Q.
Proof. by intros [_ [H _]]. Qed.

Lemma cached_represents_ok Q A : represents Q A -> cached_ok Q.
Proof. by intros [_ (z & _ & H & _)]. Qed.

(** ** Selection of a signed multiple *)

(** The last move of a selection: [b] times the point, from [|b|] times it. *)
Lemma signed_choice {T} `{RepresentsProper T} (t u : T) b n G :
  on_curve G -> represents t (smul (Z.abs b * n) G) -> represents u (pneg (smul (Z.abs b * n) G)) ->
  represents (if decide (b < 0) then u else t) (smul (b * n) G).
Proof.
  intros HG Ht Hu. destruct (decide (b < 0)).
  - rewrite <- smul_opp in Hu by done. by replace (b * n) with (- (Z.abs b * n)) by lia.
  - by replace (b * n) with (Z.abs b * n) by lia.
Qed.

Lemma negative_01 b : -128 <= b <= 127 -> negative b = 0 \/ negative b = 1.
Proof. intros. rewrite negative_spec by lia. destruct (decide _); auto. Qed.

Lemma decide_negative {T} b (t u : T) :
  -128 <= b <= 127 -> (if decide (negative b = 1) then u else t) = if decide (b < 0) then u else t.
Proof. intros. rewrite negative_spec by lia. by destruct (decide (b < 0)). Qed.

Lemma ge_base_shape : length ge_base = 32%nat /\ Forall (fun row => length row = 8%nat) ge_base.
Proof. split; [done|]. by repeat constructor. Qed.

Lemma select_spec {ndebug} pos b :
  (pos < 32)%nat -> -8 <= b <= 8 ->
  returns (select ndebug pos b) (fun Q => represents Q (smul (b * 256 ^ Z.of_nat pos) B)).
Proof.
  intros Hpos Hb. pose proof B_on_curve as HB. destruct ge_base_shape as [Hl Hrows].
  destruct (lookup_lt_is_Some_2 ge_base pos ltac:(lia)) as [row Hrow]. unfold select.
  rewrite (get_ok _ _ _ Hrow). cbn [bind].
  assert (length row = 8%nat) as Hlr by (by eapply Forall_lookup_1 in Hrows).
  pose proof (fun j Q => ge_base_represents pos j row Q Hrow) as Hrep. rewrite babs_spec by lia.
  eapply returns_bind.
  { apply (cmov_all_spec precomp_ok (ge_precomp_cmov ndebug) ge_precomp_cmov_spec); [done| | |lia].
    - apply Forall_lookup. intros j Q HQ. exact (precomp_represents_ok _ _ (Hrep j Q HQ)).
    - exact (precomp_represents_ok _ _ ge_precomp_0_represents). }
  intros t [Ht Hok].
  assert (represents t (smul (Z.abs b * 256 ^ Z.of_nat pos) B)) as Hrt.
  { destruct Ht as [[Hb0 ->]|[Hb0 Hj]].
    - rewrite Hb0, Z.mul_0_l, smul_0. apply ge_precomp_0_represents.
    - specialize (Hrep _ _ Hj). revert Hrep. by replace (Z.of_nat (Z.to_nat (Z.abs b - 1)) + 1) with (Z.abs b) by lia. }
  eapply returns_bind; [by apply precomp_neg|]. intros m Hm. cbv beta in Hm.
  rewrite ge_precomp_cmov_spec; [|done|exact (precomp_represents_ok _ _ Hm)|apply negative_01; lia].
  rewrite decide_negative by lia. by apply signed_choice.
Qed.

(** [table] holds [A, 2A, ..., 8A]. *)
Definition multiples_of (table : list ge_cached) (A : pt) : Prop :=
  length table = 8%nat /\ forall j Q, table !! j = Some Q -> represents Q (smul (Z.of_nat j + 1) A).

Lemma select_cached_spec {ndebug} table A b :
  on_curve A -> multiples_of table A -> -8 <= b <= 8 ->
  returns (select_cached ndebug table b) (fun Q => represents Q (smul b A)).
Proof.
  intros HA [Hl Hrep] Hb. unfold select_cached. rewrite babs_spec by lia.
  eapply returns_bind.
  { apply (cmov_all_spec cached_ok (ge_cached_cmov ndebug) ge_cached_cmov_spec); [done| | |lia].
    - apply Forall_lookup. intros j Q HQ. exact (cached_represents_ok _ _ (Hrep j Q HQ)).
    - exact (cached_represents_ok _ _ ge_cached_0_represents). }
  intros t [Ht Hok].
  assert (represents t (smul (Z.abs b * 1) A)) as Hrt.
  { rewrite Z.mul_1_r. destruct Ht as [[Hb0 ->]|[Hb0 Hj]].
    - rewrite Hb0, smul_0. apply ge_cached_0_represents.
    - specialize (Hrep _ _ Hj). revert Hrep. by replace (Z.of_nat (Z.to_nat (Z.abs b - 1)) + 1) with (Z.abs b) by lia. }
  eapply returns_bind; [by apply cached_neg|]. intros m Hm. cbv beta in Hm.
  rewrite ge_cached_cmov_spec; [|done|exact (cached_represents_ok _ _ Hm)|apply negative_01; lia].
  rewrite decide_negative by lia. pose proof (signed_choice t _ b 1 A HA Hrt Hm) as Hr.
  by rewrite Z.mul_1_r in Hr.
Qed.

(** ** Fixed base *)

(** [e[o] + 256*e[2+o] + 256^2*e[4+o] + ...], [k] terms. *)
Fixpoint half_sum (e : list Z) (o k : nat) : Z :=
  match k with O => 0 | S k => half_sum e o k + nth (2 * k + o) e 0 * 256 ^ Z.of_nat k end.

Lemma rad_halves e k :
  (2 * k <= length e)%nat -> rad 16 (take (2 * k) e) = half_sum e 0 k + 16 * half_sum e 1 k.
Proof.
  induction k as [|k IH]; intros Hk; [done|]. replace (2 * S k)%nat with (S (S (2 * k))) by lia.
  destruct (lookup_lt_is_Some_2 e (2 * k) ltac:(lia)) as [x Hx].
  destruct (lookup_lt_is_Some_2 e (S (2 * k)) ltac:(lia)) as [y Hy].
  rewrite (rad_take_S _ _ _ _ Hy), (rad_take_S _ _ _ _ Hx), IH by lia. cbn [half_sum].
  rewrite Nat.add_0_r, Nat.add_1_r, (nth_lookup_Some _ _ _ _ Hx), (nth_lookup_Some _ _ _ _ Hy), pow_256.
  rewrite Nat2Z.inj_succ, Z.pow_succ_r by lia. lia.
Qed.

Lemma base_loop {ndebug} e o h S0 :
  length e = 64%nat -> Forall (fun x => -8 <= x <= 8) e -> (o <= 1)%nat -> represents h (smul S0 B) ->
  returns (for_ 32 (base_step ndebug e o) 0 h) (fun h' => represents h' (smul (S0 + half_sum e o 32) B)).
Proof.
  intros Hl He Ho Hh. pose proof B_on_curve as HB.
  apply (for_inv 32 _ 0 h (fun k h => represents h (smul (S0 + half_sum e o k) B))).
  { cbn [half_sum]. by rewrite Z.add_0_r. }
  intros k g Hk Hg. unfold base_step.
  destruct (lookup_lt_is_Some_2 e (2 * k + o) ltac:(lia)) as [x Hx]. rewrite (get_ok _ _ _ Hx). cbn [bind].
  assert (-8 <= x <= 8) by (by eapply Forall_lookup_1 in He).
  eapply returns_bind; [by apply select_spec; [lia|]|]. intros t Ht. cbv beta in Ht.
  ge_step. eapply returns_mono; [ge_op|]. intros g' Hg'. cbv beta in Hg'.
  rewrite <- smul_add in Hg' by done. cbn [half_sum]. by rewrite (nth_lookup_Some _ _ _ _ Hx), Z.add_assoc.
Qed.

Lemma ge_scalarmult_base_spec {ndebug} a b :
  bytes a -> length a = 32%nat -> a !! 31%nat = Some b -> b <= 127 ->
  returns (ge_scalarmult_base ndebug a) (fun h => represents h (smul (le_val a) B)).
Proof.
  intros Ha Hl Hb H127. pose proof B_on_curve as HB. unfold ge_scalarmult_base.
  eapply returns_bind; [by eapply recode_base_spec|]. intros e (Le & He & Hd & _).
  eapply returns_bind.
  { apply (base_loop e 1 ge_p3_0 0); [done|done|done|]. rewrite smul_0. apply ge_p3_0_represents. }
  intros h Hh. cbv beta in Hh. rewrite Z.add_0_l in Hh. do 8 ge_step.
  assert (represents R6 (smul (16 * half_sum e 1 32) B)) as H16.
  { replace (16 * half_sum e 1 32) with (2 * (2 * (2 * (2 * half_sum e 1 32)))) by lia.
    rewrite !smul_double by exact HB. exact HR6. }
  eapply returns_mono; [exact (base_loop e 0 R6 _ Le Hd ltac:(lia) H16)|]. intros h' Hh'. cbv beta in Hh'.
  rewrite <- He, <- (take_ge e (2 * 32)), rad_halves by lia. by rewrite Z.add_comm.
Qed.

(** ** Variable base *)
Lemma multiples_spec n A PA q m :
  on_curve A -> represents PA A -> represents q (smul m A) ->
  returns (multiples n PA q) (fun qs => length qs = n /\
    forall j Q, qs !! j = Some Q -> represents Q (smul (m + 1 + Z.of_nat j) A)).
Proof.
  intros HA HPA. revert q m. induction n as [|n IH]; intros q m Hq; [by split|]. cbn [multiples].
  do 3 ge_step. assert (represents R1 (smul (m + 1) A)) as H1 by (by rewrite smul_succ, padd_comm by done).
  eapply returns_bind; [by apply (IH R1 (m + 1))|]. intros qs [Hl Hqs]. apply returns_ok.
  split; [simpl; lia|]. intros [|j] Q HQ; simpl in HQ.
  - simplify_eq. by rewrite Z.add_0_r.
  - apply Hqs in HQ. by replace (m + 1 + Z.of_nat (S j)) with (m + 1 + 1 + Z.of_nat j) by lia.
Qed.

Lemma scalarmult_table_spec PA A :
  represents PA A -> returns (scalarmult_table PA) (fun table => multiples_of table A).
Proof.
  intros HPA. pose proof (represents_curve _ _ HPA) as HA. unfold scalarmult_table. ge_step.
  assert (represents R (smul 1 A)) as H1 by (by rewrite smul_1).
  eapply returns_bind; [by apply (multiples_spec 7 A PA R 1)|]. intros qs [Hl Hqs]. apply returns_ok.
  split; [simpl; lia|]. intros [|j] Q HQ; simpl in HQ; [by simplify_eq|].
  apply Hqs in HQ. by replace (Z.of_nat (S j) + 1) with (1 + 1 + Z.of_nat j) by lia.
Qed.

Lemma scalarmult_step_spec {ndebug} table A e i r v :
  on_curve A -> multiples_of table A -> e !! i = Some v -> -8 <= v <= 8 ->
  represents r (smul (rad 16 (drop (S i) e)) A) ->
  returns (scalarmult_step ndebug table e i r) (fun r => represents r (smul (rad 16 (drop i e)) A)).
Proof.
  intros HA Ht Hv Hb Hr. unfold scalarmult_step. rewrite (get_ok _ _ _ Hv). cbn [bind]. do 8 ge_step.
  set (n := rad 16 (drop (S i) e)) in *.
  assert (represents R6 (smul (16 * n) A)) as H16.
  { replace (16 * n) with (2 * (2 * (2 * (2 * n)))) by lia. rewrite !smul_double by done. exact HR6. }
  eapply returns_bind; [by apply select_cached_spec|]. intros cur Hcur. cbv beta in Hcur.
  eapply returns_bind; [exact (ge_add_represents _ _ _ _ H16 Hcur)|]. intros t Hadd. cbv beta in Hadd.
  eapply returns_mono; [ge_op|]. intros r' Hr'. cbv beta in Hr'.
  rewrite (drop_S _ _ _ Hv). cbn [rad]. fold n. by rewrite Z.add_comm, smul_add.
Qed.

Lemma ge_scalarmult_spec {ndebug} a b PA A :
  bytes a -> length a = 32%nat -> a !! 31%nat = Some b -> b <= 127 -> represents PA A ->
  returns (ge_scalarmult ndebug a PA) (fun r => represents r (smul (le_val a) A)).
Proof.
  intros Ha Hl Hb H127 HPA. pose proof (represents_curve _ _ HPA) as HA. unfold ge_scalarmult.
  eapply returns_bind; [by eapply recode_spec|]. intros e (Le & He & Hd & _).
  eapply returns_bind; [by apply scalarmult_table_spec|]. intros table Ht. rewrite <- He.
  apply (for_down_inv 64 _ _ (fun i r => represents r (smul (rad 16 (drop i e)) A))).
  - rewrite drop_ge by lia. cbn [rad]. rewrite smul_0. apply ge_p2_0_represents.
  - intros k r Hk Hr. destruct (lookup_lt_is_Some_2 e k ltac:(lia)) as [v Hv].
    apply (scalarmult_step_spec _ _ _ _ _ v); try done. by eapply Forall_lookup_1 in Hd.
Qed.

(** ** Double-scalar multiplication *)

(** [table] holds the odd multiples [A, 3A, ..., 15A]. *)
Definition odd_multiples {T} `{Represents T} (table : list T) (A : pt) : Prop :=
  length table = 8%nat /\ forall j Q, table !! j = Some Q -> represents Q (smul (2 * Z.of_nat j + 1) A).

Lemma dsm_next_spec s2 q A m :
  on_curve A -> represents s2 (smul 2 A) -> represents q (smul m A) ->
  returns (dsm_next s2 q) (fun r => represents r (smul (m + 2) A)).
Proof.
  intros HA Hs Hq. unfold dsm_next. do 2 ge_step. eapply returns_mono; [ge_op|]. intros r Hr. cbv beta in Hr.
  by rewrite Z.add_comm, smul_add.
Qed.

Lemma ge_dsm_precomp_spec s A :
  represents s A -> returns (ge_dsm_precomp s) (fun table => odd_multiples table A).
Proof.
  intros Hs. pose proof (represents_curve _ _ Hs) as HA. unfold ge_dsm_precomp. do 3 ge_step.
  assert (represents R1 (smul 2 A)) as H2 by (change 2 with (2 * 1); by rewrite smul_double, smul_1).
  assert (represents R (smul 1 A)) as H1 by (by rewrite smul_1).
  eapply returns_bind; [exact (dsm_next_spec R1 R A 1 HA H2 H1)|]. intros r1 Hr1.
  eapply returns_bind; [exact (dsm_next_spec R1 r1 A 3 HA H2 Hr1)|]. intros r2 Hr2.
  eapply returns_bind; [exact (dsm_next_spec R1 r2 A 5 HA H2 Hr2)|]. intros r3 Hr3.
  eapply returns_bind; [exact (dsm_next_spec R1 r3 A 7 HA H2 Hr3)|]. intros r4 Hr4.
  eapply returns_bind; [exact (dsm_next_spec R1 r4 A 9 HA H2 Hr4)|]. intros r5 Hr5.
  eapply returns_bind; [exact (dsm_next_spec R1 r5 A 11 HA H2 Hr5)|]. intros r6 Hr6.
  eapply returns_bind; [exact (dsm_next_spec R1 r6 A 13 HA H2 Hr6)|]. intros r7 Hr7.
  apply returns_ok. split; [done|]. intros j Q HQ.
  destruct j as [|j]; [injection HQ as <-; exact H1|].
  destruct j as [|j]; [injection HQ as <-; exact Hr1|].
  destruct j as [|j]; [injection HQ as <-; exact Hr2|].
  destruct j as [|j]; [injection HQ as <-; exact Hr3|].
  destruct j as [|j]; [injection HQ as <-; exact Hr4|].
  destruct j as [|j]; [injection HQ as <-; exact Hr5|].
  destruct j as [|j]; [injection HQ as <-; exact Hr6|].
  destruct j as [|j]; [injection HQ as <-; exact Hr7|].
  discriminate HQ.
Qed.

(** One digit of the recoded scalar. *)
Section Digit.
Context {T : Type} `{RepresentsProper T} (add sub : ge_p3 -> T -> result ge_p1p1).
Hypothesis add_ok : forall P Q A B, represents P A -> represents Q B ->
  returns (add P Q) (fun R => represents R (padd A B)).
Hypothesis sub_ok : forall P Q A B, represents P A -> represents Q B ->
  returns (sub P Q) (fun R => represents R (padd A (pneg B))).

Lemma add_digit_spec table G x t A :
  on_curve G -> odd_multiples table G -> x = 0 \/ window x -> represents t A ->
  returns (add_digit add sub table x t) (fun R => represents R (padd A (smul x G))).
Proof.
  intros HG [Hl Htab] Hx Ht. pose proof (represents_curve _ _ Ht) as HA. unfold add_digit.
  destruct Hx as [->|[Hodd Hx]].
  { simpl. rewrite smul_0, padd_comm, padd_0_l by done. done. }
  assert (forall y, Z.odd y = true -> 0 < y <= 15 ->
    exists Q, table !! Z.to_nat (Z.quot y 2) = Some Q /\ represents Q (smul y G)) as Hget.
  { intros y Hy Hyb. rewrite Z.quot_div_nonneg by lia.
    destruct (lookup_lt_is_Some_2 table (Z.to_nat (y / 2))) as [Q HQ].
    { rewrite Hl. Z.to_euclidean_division_equations; lia. }
    exists Q. split; [done|]. apply Htab in HQ.
    replace (2 * Z.of_nat (Z.to_nat (y / 2)) + 1) with y in HQ; [done|].
    pose proof (Zdiv2_odd_eqn y) as E. rewrite Hy in E. rewrite Z.div2_div in E.
    rewrite Z2Nat.id by (apply Z.div_pos; lia). lia. }
  destruct (Z.gtb_spec x 0).
  - destruct (Hget x Hodd ltac:(lia)) as (Q & HQ & Hrep). ge_step.
    rewrite (get_ok _ _ _ HQ). cbn [bind]. by apply add_ok.
  - assert (x <> 0) by (intros ->; done). rewrite (proj2 (Z.ltb_lt x 0)) by lia.
    destruct (Hget (- x)) as (Q & HQ & Hrep); [by rewrite Z.odd_opp|lia|]. ge_step.
    rewrite (get_ok _ _ _ HQ). cbn [bind]. eapply returns_mono; [by apply sub_ok|].
    intros S HS. cbv beta in HS. rewrite <- smul_opp in HS by done. by rewrite Z.opp_involutive in HS.
Qed.
End Digit.

Lemma skip_zeros_spec n a b :
  (n <= length a)%nat -> (n <= length b)%nat ->
  zeros n (length a) a -> zeros n (length b) b ->
  returns (skip_zeros n a b) (fun m => (m <= n)%nat /\ zeros m (length a) a /\ zeros m (length b) b).
Proof.
  induction n as [|n IH]; intros La Lb Za Zb; [done|]. cbn [skip_zeros].
  destruct (lookup_lt_is_Some_2 a n ltac:(lia)) as [x Hx]. destruct (lookup_lt_is_Some_2 b n ltac:(lia)) as [y Hy].
  rewrite (get_ok _ _ _ Hx), (get_ok _ _ _ Hy). cbn [bind].
  destruct (Z.eqb_spec x 0) as [->|]; [destruct (Z.eqb_spec y 0) as [->|]|]; simpl; try (by split).
  eapply returns_mono; [apply IH; try lia|].
  - intros j z Hj Hz. destruct (decide (j = n)) as [->|]; [congruence|]. apply (Za j); [lia|done].
  - intros j z Hj Hz. destruct (decide (j = n)) as [->|]; [congruence|]. apply (Zb j); [lia|done].
  - intros m (Hm & ? & ?). split; [lia|done].
Qed.

Lemma rad_zeros_from b m a : zeros m (length a) a -> rad b (drop m a) = 0.
Proof.
  intros Hz. enough (drop m a = replicate (length a - m) 0) as -> by apply rad_zeros.
  symmetry. apply replicate_as_Forall. rewrite length_drop. split; [done|].
  apply Forall_lookup. intros j x Hx. rewrite lookup_drop in Hx. symmetry. apply (Hz (m + j)%nat); [|done].
  apply lookup_lt_Some in Hx. lia.
Qed.

(** The loop that both double-scalar multiplications run, for any pair of tables. *)
Section Double.
Context {T U : Type} `{RepresentsProper T} `{RepresentsProper U}.
Context (addA subA : ge_p3 -> T -> result ge_p1p1) (addB subB : ge_p3 -> U -> result ge_p1p1).
Context (tabA : list T) (tabB : list U) (A G : pt) (aslide bslide : list Z) (va vb : Z).
Hypothesis addA_ok : forall P Q A B, represents P A -> represents Q B ->
  returns (addA P Q) (fun R => represents R (padd A B)).
Hypothesis subA_ok : forall P Q A B, represents P A -> represents Q B ->
  returns (subA P Q) (fun R => represents R (padd A (pneg B))).
Hypothesis addB_ok : forall P Q A B, represents P A -> represents Q B ->
  returns (addB P Q) (fun R => represents R (padd A B)).
Hypothesis subB_ok : forall P Q A B, represents P A -> represents Q B ->
  returns (subB P Q) (fun R => represents R (padd A (pneg B))).
Hypothesis HA : on_curve A.
Hypothesis HG : on_curve G.
Hypothesis HtabA : odd_multiples tabA A.
Hypothesis HtabB : odd_multiples tabB G.
Hypothesis Hslide : sliding aslide va.
Hypothesis Hslideb : sliding bslide vb.

Definition dsm_inv (i : nat) (r : ge_p2) : Prop :=
  represents r (padd (smul (rad 2 (drop i aslide)) A) (smul (rad 2 (drop i bslide)) G)).

(** [2(mA + nG) + xA + yG = (x + 2m)A + (y + 2n)G] *)
Lemma dsm_combine m n x y :
  padd (padd (padd (padd (smul m A) (smul n G)) (padd (smul m A) (smul n G))) (smul x A)) (smul y G) ≡ₚ
  padd (smul (x + 2 * m) A) (smul (y + 2 * n) G).
Proof.
  assert (forall k, on_curve (smul k A) /\ on_curve (smul k G)) as Hc by (intros k; split; by apply smul_on_curve).
  destruct (Hc m), (Hc n), (Hc x), (Hc y). rewrite !smul_add, !smul_double by done.
  set (mA := smul m A) in *. set (nG := smul n G) in *. set (xA := smul x A) in *. set (yG := smul y G) in *.
  assert (padd (padd mA nG) (padd mA nG) ≡ₚ padd (padd mA mA) (padd nG nG)) as ->.
  { rewrite !padd_assoc by auto using padd_on_curve. rewrite <- (padd_assoc nG mA nG) by done.
    rewrite (padd_comm nG mA), (padd_assoc mA nG nG) by done. done. }
  rewrite (padd_assoc (padd mA mA)) by auto using padd_on_curve.
  rewrite (padd_comm (padd nG nG) xA), <- (padd_assoc (padd mA mA)) by auto using padd_on_curve.
  rewrite (padd_assoc _ (padd nG nG)) by auto using padd_on_curve.
  by rewrite (padd_comm xA), (padd_comm yG).
Qed.

Lemma dsm_loop n :
  (n <= 256)%nat -> dsm_inv n ge_p2_0 ->
  returns (for_down n (fun i r =>
    let! t := ge_p2_dbl r in
    let! x := get aslide i in
    let! t := add_digit addA subA tabA x t in
    let! y := get bslide i in
    let! t := add_digit addB subB tabB y t in
    ge_p1p1_to_p2 t) ge_p2_0) (dsm_inv 0).
Proof.
  intros Hn Hzero. destruct Hslide as (La & Va & Da), Hslideb as (Lb & Vb & Db).
  apply for_down_inv; [done|]. intros k r Hk Hr. unfold dsm_inv in Hr.
  destruct (lookup_lt_is_Some_2 aslide k ltac:(lia)) as [x Hx].
  destruct (lookup_lt_is_Some_2 bslide k ltac:(lia)) as [y Hy].
  ge_step. rewrite (get_ok _ _ _ Hx). cbn [bind].
  eapply returns_bind.
  { eapply (add_digit_spec addA subA addA_ok subA_ok _ A); [exact HA|exact HtabA| |exact HR].
    exact (Forall_lookup_1 _ _ _ _ Da Hx). }
  intros t Ht. cbv beta in Ht. rewrite (get_ok _ _ _ Hy). cbn [bind].
  eapply returns_bind.
  { eapply (add_digit_spec addB subB addB_ok subB_ok _ G); [exact HG|exact HtabB| |exact Ht].
    exact (Forall_lookup_1 _ _ _ _ Db Hy). }
  intros t' Ht'. cbv beta in Ht'. eapply returns_mono; [ge_op|]. intros r' Hr'. cbv beta in Hr'.
  rewrite dsm_combine in Hr'. unfold dsm_inv. by rewrite (drop_S _ _ _ Hx), (drop_S _ _ _ Hy).
Qed.

Lemma dsm_main :
  returns (let! n := skip_zeros 256 aslide bslide in
    for_down n (fun i r =>
      let! t := ge_p2_dbl r in
      let! x := get aslide i in
      let! t := add_digit addA subA tabA x t in
      let! y := get bslide i in
      let! t := add_digit addB subB tabB y t in
      ge_p1p1_to_p2 t) ge_p2_0) (fun r => represents r (padd (smul va A) (smul vb G))).
Proof.
  destruct Hslide as (La & Va & Da), Hslideb as (Lb & Vb & Db).
  eapply returns_bind; [apply skip_zeros_spec; try lia; intros j x Hj; lia|].
  intros n (Hn & Za & Zb). eapply returns_mono; [apply dsm_loop; [exact Hn|]|].
  - unfold dsm_inv. rewrite (rad_zeros_from 2 n aslide Za), (rad_zeros_from 2 n bslide Zb).
    rewrite (smul_0 A), (smul_0 G), (padd_0_l pzero pzero_on_curve). apply ge_p2_0_represents.
  - intros r Hr. unfold dsm_inv in Hr. rewrite !drop_0, Va, Vb in Hr. exact Hr.
Qed.
End Double.

Lemma ge_Bi_odd : odd_multiples ge_Bi B.
Proof. split; [done|]. exact ge_Bi_represents. Qed.

Lemma ge_double_scalarmult_base_vartime_spec a PA b A :
  bytes a -> length a = 32%nat -> le_val a < 2 ^ 255 -> bytes b -> length b = 32%nat -> le_val b < 2 ^ 255 ->
  represents PA A ->
  returns (ge_double_scalarmult_base_vartime a PA b)
    (fun r => represents r (padd (smul (le_val a) A) (smul (le_val b) B))).
Proof.
  intros Ha La Va Hb Lb Vb HPA. pose proof (represents_curve _ _ HPA) as HA.
  unfold ge_double_scalarmult_base_vartime.
  eapply returns_bind; [by apply slide_spec|]. intros aslide Hsa.
  eapply returns_bind; [by apply slide_spec|]. intros bslide Hsb.
  eapply returns_bind; [by apply ge_dsm_precomp_spec|]. intros Ai HAi.
  exact (dsm_main ge_add ge_sub ge_madd ge_msub Ai ge_Bi A B aslide bslide _ _
    ge_add_represents ge_sub_represents ge_madd_represents ge_msub_represents HA B_on_curve HAi ge_Bi_odd Hsa Hsb).
Qed.

Lemma ge_double_scalarmult_precomp_vartime2_spec a Ai b Bi A G :
  bytes a -> length a = 32%nat -> le_val a < 2 ^ 255 -> bytes b -> length b = 32%nat -> le_val b < 2 ^ 255 ->
  on_curve A -> on_curve G -> odd_multiples Ai A -> odd_multiples Bi G ->
  returns (ge_double_scalarmult_precomp_vartime2 a Ai b Bi)
    (fun r => represents r (padd (smul (le_val a) A) (smul (le_val b) G))).
Proof.
  intros Ha La Va Hb Lb Vb HA HG HAi HBi. unfold ge_double_scalarmult_precomp_vartime2.
  eapply returns_bind; [by apply slide_spec|]. intros aslide Hsa.
  eapply returns_bind; [by apply slide_spec|]. intros bslide Hsb.
  exact (dsm_main ge_add ge_sub ge_add ge_sub Ai Bi A G aslide bslide _ _
    ge_add_represents ge_sub_represents ge_add_represents ge_sub_represents HA HG HAi HBi Hsa Hsb).
Qed.

Lemma ge_double_scalarmult_precomp_vartime_spec a PA b Bi A G :
  bytes a -> length a = 32%nat -> le_val a < 2 ^ 255 -> bytes b -> length b = 32%nat -> le_val b < 2 ^ 255 ->
  represents PA A -> on_curve G -> odd_multiples Bi G ->
  returns (ge_double_scalarmult_precomp_vartime a PA b Bi)
    (fun r => represents r (padd (smul (le_val a) A) (smul (le_val b) G))).
Proof.
  intros Ha La Va Hb Lb Vb HPA HG HBi. pose proof (represents_curve _ _ HPA) as HA.
  unfold ge_double_scalarmult_precomp_vartime.
  eapply returns_bind; [by apply ge_dsm_precomp_spec|]. intros Ai HAi.
  by apply ge_double_scalarmult_precomp_vartime2_spec.
Qed.
