(* ===== verification/PointCodec.v ===== *)
(** * Encoding and decoding of points

    [ge_tobytes], [ge_p3_tobytes] and [ge_frombytes_vartime] are related to an
    abstract encoding of curve points. *)

From stdpp Require Import base list numbers.
From Stdlib Require Import ZArith Lia.
From S2P Require Import Prelude Bytes Limbs Field FieldFacts FieldBytes Edwards CurveData Group GroupFacts GroupSpec RecodeFacts.

(** ** The abstract encoding: [y], and the parity of [x] in the top bit *)
Definition encode (A : pt) : list Z := le_bytes 32 (A.2 mod p + 2 ^ 255 * (A.1 mod p mod 2)).

#[export] Instance encode_proper : Proper (pt_eq ==> eq) encode.
Proof. intros A A' [Hx Hy]. unfold encode, eqp in *. by rewrite Hx, Hy. Qed.

Lemma le_val_rad s : le_val s = rad 256 s.
Proof. induction s as [|b s IH]; [done|]. cbn [le_val rad]. by rewrite IH. Qed.

Lemma set_sign_spec v b :
  0 <= v < 2 ^ 255 -> 0 <= b <= 1 -> set_sign (le_bytes 32 v) b = Ok (le_bytes 32 (v + 2 ^ 255 * b)).
Proof.
  intros Hv Hb. unfold set_sign. rewrite get_le_bytes by lia. cbn [bind].
  set (o := bits v (8 * Z.of_nat 31) 8).
  assert (0 <= o < 2 ^ 7) as Ho.
  { subst o. unfold bits. change (8 * Z.of_nat 31) with 248. rewrite Z.shiftr_div_pow2 by lia.
    assert (0 <= v / 2 ^ 248 < 2 ^ 7) as Hd
      by (split; [apply Z.div_pos; lia|apply Z.div_lt_upper_bound; lia]).
    rewrite Z.mod_small; lia. }
  assert (u8 (Z.lxor o (Z.shiftl b 7)) = o + 128 * b) as Hx.
  { rewrite Z.lxor_lor.
    - rewrite lor_shiftl_add by lia. unfold u8. rewrite Z.mod_small; lia.
    - bitwise. rewrite Z.bits_0. destruct (Z.ltb_spec i 7).
      + rewrite (Z.testbit_neg_r _ (i - 7)) by lia. by rewrite andb_false_r.
      + by rewrite (testbit_small o 7 i) by lia. }
  rewrite Hx, set_ok by (rewrite le_bytes_length; lia). f_equal.
  apply le_val_inj; [|apply le_bytes_bytes|by rewrite length_insert, !le_bytes_length|].
  - apply Forall_insert; [apply le_bytes_bytes|]. unfold is_byte. lia.
  - rewrite le_val_rad, (rad_insert _ _ _ _ o), <- le_val_rad by (apply get_inv, get_le_bytes; lia).
    rewrite !le_val_bytes. change (256 ^ Z.of_nat 32) with (2 ^ 256). rewrite !Z.mod_small by lia.
    change (256 ^ Z.of_nat 31) with (2 ^ 248). lia.
Qed.

(** ** Encoding *)
Lemma mod_p_bound y : 0 <= y mod p < 2 ^ 255.
Proof. pose proof (Z.mod_pos_bound y p ltac:(done)). unfold p in *. lia. Qed.

Lemma mod_2_bound x : 0 <= x mod 2 <= 1.
Proof. pose proof (Z.mod_pos_bound x 2 ltac:(lia)). lia. Qed.

(** The part that both encoders share. *)
Lemma encode_coordinates X Y Z x y z :
  fe_bounded 203 X -> fe_bounded 203 Y -> fe_bounded 203 Z ->
  nz z -> fe_val X =ₚ x * z -> fe_val Y =ₚ y * z -> fe_val Z =ₚ z ->
  (let! recip := fe_invert Z in
   let! x := fe_mul X recip in
   let! y := fe_mul Y recip in
   let! s := fe_tobytes y in
   let! b := fe_isnegative x in
   set_sign s b) = Ok (encode (x, y)).
Proof.
  intros BX BY BZ Hz EX EY EZ.
  pose proof (fe_invert_spec 203 Z BZ ltac:(lia)) as (r & -> & Br & Er)%returns_inv. cbn [bind].
  assert (z * fe_val r =ₚ 1) as Hr by (rewrite Er, (eqp_pow _ _ (p - 2) ltac:(done) EZ); by apply mul_inv).
  pose proof (fe_mul_spec X r (fe_bounded_le 203 330 X BX ltac:(lia)) (fe_bounded_le 101 330 r Br ltac:(lia)))
    as (a & -> & Ba & Ea)%returns_inv. cbn [bind].
  pose proof (fe_mul_spec Y r (fe_bounded_le 203 330 Y BY ltac:(lia)) (fe_bounded_le 101 330 r Br ltac:(lia)))
    as (b & -> & Bb & Eb)%returns_inv. cbn [bind].
  assert (fe_val a =ₚ x) as Ha by (rewrite Ea, EX, <- Z.mul_assoc, Hr, Z.mul_1_r; done).
  assert (fe_val b =ₚ y) as Hb by (rewrite Eb, EY, <- Z.mul_assoc, Hr, Z.mul_1_r; done).
  rewrite fe_tobytes_spec by (eapply fe_bounded_le; [done|lia]). cbn [bind].
  rewrite fe_isnegative_spec by (eapply fe_bounded_le; [done|lia]). cbn [bind].
  unfold eqp in Ha, Hb. rewrite Ha, Hb.
  apply (set_sign_spec (y mod p) (x mod p mod 2) (mod_p_bound y) (mod_2_bound (x mod p))).
Qed.

Lemma ge_tobytes_spec P A : represents P A -> ge_tobytes P = Ok (encode A).
Proof.
  destruct A as [x y]. intros [_ (z & Hz & (BX & BY & BZ) & EX & EY & EZ)].
  apply (encode_coordinates _ _ _ x y z); try done. eapply fe_bounded_le; [done|lia].
Qed.

Lemma ge_p3_tobytes_spec P A : represents P A -> ge_p3_tobytes P = Ok (encode A).
Proof.
  destruct A as [x y]. intros [_ (z & Hz & (BX & BY & BZ & BT) & EX & EY & EZ & ET)].
  apply (encode_coordinates _ _ _ x y z); try done; (eapply fe_bounded_le; [done|lia]).
Qed.

(** ** Square roots *)
Section Root.
Context (u v x : Z).
Hypothesis Hv : nz v.
Hypothesis Hx : x =ₚ u * v ^ 3 * (u * v ^ 7) ^ ((p - 5) / 8).

Definition w : Z := (u * v ^ 7) ^ ((p - 1) / 4).

(** [v x^2 = u w] *)
Lemma root_square : v * (x * x) =ₚ u * w.
Proof.
  rewrite Hx. unfold w. replace ((p - 1) / 4) with (2 * ((p - 5) / 8) + 1) by (by vm_compute).
  assert (0 <= (p - 5) / 8) as H8 by (by vm_compute). generalize dependent ((p - 5) / 8). intros e _ He.
  rewrite Z.pow_add_r, (Z.mul_comm 2), Z.pow_mul_r, Z.pow_1_r by lia. apply eqp_of_eq. ring.
Qed.

(** [w] is a fourth root of unity. *)
Lemma w_fourth : nz u -> (w * w - 1) * (w * w + 1) =ₚ 0.
Proof.
  intros Hu. assert (nz (u * v ^ 7)) as Huv.
  { replace (v ^ 7) with (v * v * v * v * v * v * v) by ring. auto 10 with nz. }
  apply fermat in Huv. unfold w. replace (p - 1) with ((p - 1) / 4 * 4) in Huv by (by vm_compute).
  assert (0 <= (p - 1) / 4) as H4 by (by vm_compute). generalize dependent ((p - 1) / 4). intros e Huv He.
  rewrite Z.pow_mul_r in Huv by lia. apply (eqp_comb1 1 _ _ _ _ Huv). ring.
Qed.

(** If [u / v] is a square then [w] is 1 or -1. *)
Lemma w_square r : nz u -> v * (r * r) =ₚ u -> w * w =ₚ 1.
Proof.
  intros Hu Hr. assert (nz r) as Hrz.
  { intros H0. apply Hu. rewrite <- Hr, H0. apply eqp_of_eq. ring. }
  assert (nz (v * v * v * v * r)) as Hvr by auto with nz.
  apply fermat in Hvr. unfold w. replace (p - 1) with ((p - 1) / 4 * 4) in Hvr by (by vm_compute).
  assert (0 <= (p - 1) / 4) as H4 by (by vm_compute). generalize dependent ((p - 1) / 4). intros e Hvr He.
  assert (u * v ^ 7 =ₚ (v * v * v * v * r) * (v * v * v * v * r)) as E
    by (rewrite <- Hr; apply eqp_of_eq; ring).
  set (c := v * v * v * v * r) in *. rewrite Z.pow_mul_r in Hvr by lia.
  rewrite (eqp_pow _ _ e He E), Z.pow_mul_l. apply (eqp_comb1 1 _ _ _ _ Hvr). ring.
Qed.
End Root.

(** ** Decompression *)
Lemma denominator_nz y : nz (d * (y * y) + 1).
Proof.
  intros H. assert (nz y) as Hy.
  { intros H0. apply nz_1. apply (eqp_comb2 1 (- (d * y)) _ _ _ _ _ _ H H0). ring. }
  apply (d_nonsquare i_ y Hy). rewrite i_square. apply (eqp_comb1 1 _ _ _ _ H). ring.
Qed.

Lemma on_curve_root x y : on_curve (x, y) <-> (d * (y * y) + 1) * (x * x) =ₚ y * y - 1.
Proof. simpl. split; intros H; apply (eqp_comb1 (-1) _ _ _ _ H); ring. Qed.

(** The candidate root: it is a root, or [i] times it is, or there is none. *)
Lemma candidate_root u v x r :
  nz v -> x =ₚ u * v ^ 3 * (u * v ^ 7) ^ ((p - 5) / 8) -> v * (r * r) =ₚ u ->
  v * (x * x) =ₚ u \/ v * (x * x) =ₚ - u.
Proof.
  intros Hv Hx Hr. destruct (decide (u mod p = 0 mod p)) as [Hu|Hu].
  { left. change (u =ₚ 0) in Hu. generalize dependent ((u * v ^ 7) ^ ((p - 5) / 8)). intros k Hx.
    rewrite Hx. apply (eqp_comb1 (u * (v * (v ^ 3 * k) * (v ^ 3 * k)) - 1) _ _ _ _ Hu). ring. }
  pose proof (w_square u v Hv r Hu Hr) as Hw. pose proof (root_square u v x Hx) as Hs.
  assert ((w u v - 1) * (w u v + 1) =ₚ 0) as Hw' by (apply (eqp_comb1 1 _ _ _ _ Hw); ring).
  apply eqp_mul_0 in Hw' as [H1|H1].
  - left. rewrite Hs. apply (eqp_comb1 u _ _ _ _ H1). ring.
  - right. rewrite Hs. apply (eqp_comb1 u _ _ _ _ H1). ring.
Qed.

Lemma parity_neg x : nz x -> (- x) mod p mod 2 = 1 - x mod p mod 2.
Proof.
  intros Hx. rewrite Z.mod_opp_l_nz by (done || exact Hx).
  rewrite Zminus_mod. change (p mod 2) with 1.
  pose proof (mod_2_bound (x mod p)) as H. assert (x mod p mod 2 = 0 \/ x mod p mod 2 = 1) as [-> | ->] by lia; done.
Qed.

Lemma fe_1_bounded : fe_bounded 1 fe_1.
Proof. apply (bool_decide_eq_true_1 _). by vm_compute. Qed.

Lemma fe_const_bounded c : bool_decide (fe_bounded 101 c) = true -> fe_bounded 101 c.
Proof. apply bool_decide_eq_true_1. Qed.

Definition decompressed (y sign : Z) (ox : option fe) : Prop :=
  match ox with
  | Some X => fe_bounded 101 X /\ on_curve (fe_val X, y) /\ fe_val X mod p mod 2 = sign
  | None => forall r, on_curve (r, y) -> r mod p mod 2 <> sign
  end.

(** The last step: the sign of [x]. *)
Lemma decompress_sign X y sign :
  fe_bounded 101 X -> on_curve (fe_val X, y) -> 0 <= sign <= 1 ->
  returns (let! neg := fe_isnegative X in
    if neg =? sign then Ok (Some X)
    else
      let! nz := fe_isnonzero X in
      if nz =? 0 then Ok None
      else let! x := fe_neg X in Ok (Some x)) (decompressed y sign).
Proof.
  intros BX HX Hs. rewrite fe_isnegative_spec by (eapply fe_bounded_le; [done|lia]). cbn [bind].
  pose proof (mod_2_bound (fe_val X mod p)) as H2.
  destruct (Z.eqb_spec (fe_val X mod p mod 2) sign) as [E|E]; [by cbn [returns decompressed]|].
  rewrite fe_isnonzero_spec by (eapply fe_bounded_le; [done|lia]). cbn [bind].
  destruct (decide (fe_val X mod p = 0)) as [H0|H0]; cbn [Z.eqb returns decompressed].
  - intros r Hr Hpar. apply E. rewrite on_curve_root in HX, Hr.
    assert (fe_val X =ₚ 0) as HX0 by exact H0. rewrite HX0, Z.mul_0_r in HX. rewrite <- HX in Hr.
    apply eqp_mul_0 in Hr as [Hr|Hr]; [by apply denominator_nz in Hr|].
    assert (r =ₚ 0) as Hr0 by (by apply eqp_mul_0 in Hr as [Hr|Hr]).
    unfold eqp in Hr0. rewrite Hr0 in Hpar. by rewrite H0.
  - eapply returns_bind; [apply fe_neg_spec; [done|lia]|]. intros x [Bx Ex]. cbn [returns decompressed].
    split; [done|]. rewrite Ex. split; [exact (pneg_on_curve _ HX)|].
    rewrite parity_neg by exact H0. lia.
Qed.

Lemma ge_frombytes_x_spec Y s31 :
  fe_bounded 101 Y -> is_byte s31 ->
  returns (ge_frombytes_x Y s31) (decompressed (fe_val Y) (Z.shiftr s31 7)).
Proof.
  intros BY Hs. pose proof fe_1_bounded as B1. pose proof fe_d_value as Ed. pose proof fe_sqrtm1_value as Ei.
  assert (fe_bounded 101 fe_d) as Bd by (by apply fe_const_bounded).
  assert (fe_bounded 101 fe_sqrtm1) as Bi by (by apply fe_const_bounded).
  assert (fe_val fe_1 = 1) as Eone by done.
  assert (0 <= Z.shiftr s31 7 <= 1) as Hsign.
  { unfold is_byte in Hs. rewrite Z.shiftr_div_pow2 by lia. Z.to_euclidean_division_equations; lia. }
  unfold ge_frombytes_x. do 4 fe_step. set (y := fe_val Y) in *.
  assert (fe_val h1 =ₚ y * y - 1) as Eu by (rewrite E1, Eone, E; done).
  assert (fe_val h2 =ₚ d * (y * y) + 1) as Ev by (rewrite E2, Eone, E0, E, Ed; apply eqp_of_eq; ring).
  pose proof (denominator_nz y) as Hv.
  assert (nz (fe_val h2)) as Hv2 by (unfold nz; by rewrite Ev).
  eapply returns_bind; [eapply fe_divpowm1_spec; [eassumption|eassumption|lia|lia]|]. intros x [Bx Ex].
  do 3 fe_step.
  assert (fe_val h4 =ₚ fe_val h2 * (fe_val x * fe_val x)) as Evx by (rewrite E4, E3; apply eqp_of_eq; ring).
  assert (fe_val h5 =ₚ 0 <-> on_curve (fe_val x, y)) as Hroot.
  { rewrite E5, eqp_sub_0, on_curve_root, Evx, Eu, Ev. done. }
  rewrite fe_isnonzero_spec by (eapply fe_bounded_le; [done|lia]). cbn [bind].
  destruct (decide (fe_val h5 mod p = 0)) as [H0|H0]; cbn [Z.eqb bind].
  { apply decompress_sign; [done|by apply Hroot|done]. }
  rewrite bind_assoc. fe_step. rewrite fe_isnonzero_spec by (eapply fe_bounded_le; [done|lia]). cbn [bind].
  destruct (decide (fe_val h6 mod p = 0)) as [H1|H1]; cbn [Z.eqb bind].
  - pose proof (fe_mul_spec x fe_sqrtm1 (fe_bounded_le 101 330 _ Bx ltac:(lia)) (fe_bounded_le 101 330 _ Bi ltac:(lia)))
      as (xi & -> & Bxi & Exi)%returns_inv. cbn [bind].
    apply decompress_sign; [done| |done]. apply on_curve_root.
    assert (fe_val h6 =ₚ 0) as H6 by exact H1. rewrite E6, Evx, Eu, Ev in H6.
    rewrite Exi, Ei. pose proof i_square as Hi.
    apply (eqp_comb2 ((d * (y * y) + 1) * (fe_val x * fe_val x)) (-1) _ _ _ _ _ _ Hi H6). ring.
  - cbn [returns decompressed]. intros r Hr _. apply on_curve_root in Hr. rewrite <- Ev, <- Eu in Hr.
    destruct (candidate_root _ _ _ _ Hv2 Ex Hr) as [Hc|Hc].
    + apply H0. change (fe_val h5 =ₚ 0). rewrite E5, Evx, Hc. apply eqp_of_eq. ring.
    + apply H1. change (fe_val h6 =ₚ 0). rewrite E6, Evx, Hc. apply eqp_of_eq. ring.
Qed.

(** ** Decoding *)

(** What the decoder returns for [s]: a point whose encoding is [s], or nothing
    when no point of the curve has that encoding. *)
Definition decoded (s : list Z) (o : option ge_p3) : Prop :=
  match o with
  | Some P => exists A, represents P A /\ encode A = s
  | None => forall A, on_curve A -> encode A <> s
  end.

Lemma top_bit s s31 :
  bytes s -> length s = 32%nat -> s !! 31%nat = Some s31 -> Z.shiftr s31 7 = le_val s / 2 ^ 255.
Proof.
  intros Hs Hl H31. rewrite (top_byte s s31 Hs Hl H31), Z.shiftr_div_pow2 by lia.
  assert (0 <= le_val (take 31 s) < 2 ^ 248) as Hb.
  { assert (bytes (take 31 s)) as Ht by (by apply Forall_take). apply le_val_bound in Ht.
    rewrite length_take, Hl in Ht. exact Ht. }
  change (256 ^ Z.of_nat 31) with (2 ^ 248). change (2 ^ 255) with (2 ^ 248 * 2 ^ 7).
  rewrite <- Z.div_div, (Z.mul_comm (2 ^ 248)), Z.div_add, (Z.div_small (le_val _)) by lia. done.
Qed.

Lemma encode_inv A s :
  bytes s -> length s = 32%nat ->
  encode A = s <-> A.2 mod p = le_val s mod 2 ^ 255 /\ A.1 mod p mod 2 = le_val s / 2 ^ 255.
Proof.
  intros Hs Hl. pose proof (mod_p_bound A.2) as Hy. pose proof (mod_2_bound (A.1 mod p)) as Hx.
  assert (le_val (encode A) = A.2 mod p + A.1 mod p mod 2 * 2 ^ 255) as HE.
  { unfold encode. rewrite le_val_bytes. change (256 ^ Z.of_nat 32) with (2 ^ 256). rewrite Z.mod_small; lia. }
  generalize dependent (A.2 mod p). generalize dependent (A.1 mod p mod 2). intros b Hb y Hy HE. split.
  - intros <-. rewrite HE. rewrite Z.mod_add, Z.div_add, Z.mod_small, Z.div_small by lia. done.
  - intros [-> ->]. apply le_val_inj; [apply le_bytes_bytes|done|unfold encode; by rewrite le_bytes_length|].
    rewrite HE. pose proof (Z.div_mod (le_val s) (2 ^ 255) ltac:(lia)). lia.
Qed.

Lemma ge_frombytes_vartime_spec s :
  bytes s -> length s = 32%nat -> returns (ge_frombytes_vartime s) (decoded s).
Proof.
  intros Hs Hl. unfold ge_frombytes_vartime.
  eapply returns_bind; [by apply fe_load_spec|]. intros h (Hh & Hval & Hcan).
  destruct (fe_noncanonical h) eqn:Ec.
  { intros A HA HE. apply encode_inv in HE as [HE _]; [|done|done].
    pose proof (Z.mod_pos_bound A.2 p ltac:(done)) as Hp. rewrite HE in Hp.
    pose proof (proj1 Hcan eq_refl). lia. }
  assert (le_val s mod 2 ^ 255 < p) as Hlt.
  { destruct (Z.lt_ge_cases (le_val s mod 2 ^ 255) p) as [|Hge]; [done|]. by apply Hcan in Hge. }
  eapply returns_bind; [by apply fe_load_carry_spec|]. intros Y [BY EY]. rewrite Hval in EY.
  assert (fe_val Y mod p = le_val s mod 2 ^ 255) as Ey.
  { unfold eqp in EY. rewrite EY. apply Z.mod_small.
    pose proof (Z.mod_pos_bound (le_val s) (2 ^ 255) ltac:(lia)). lia. }
  destruct (byte_lookup s 31 Hs ltac:(lia)) as (s31 & H31 & B31). rewrite (get_ok _ _ _ H31). cbn [bind].
  eapply returns_bind; [by apply ge_frombytes_x_spec|].
  rewrite (top_bit _ _ Hs Hl H31). intros [X|] Hd; cbn [decompressed] in Hd.
  - destruct Hd as (BX & HX & Hpar).
    eapply returns_bind; [apply fe_mul_spec; (eapply fe_bounded_le; [eassumption|lia])|]. intros T [BT ET].
    exists (fe_val X, fe_val Y). split.
    + split; [done|]. exists 1. split; [apply nz_1|]. split.
      * split_and!; [done|done|eapply fe_bounded_le; [apply fe_1_bounded|lia]|done].
      * cbn [X3 Y3 Z3 T3 fst snd]. rewrite ET. split_and!; apply eqp_of_eq; (ring || done).
    + by apply encode_inv.
  - intros A HA HE. apply encode_inv in HE as [HE1 HE2]; [|done|done].
    destruct A as [x y]. cbn [fst snd] in *. apply (Hd x); [|done].
    refine (proj1 (on_curve_proper (x, y) (x, fe_val Y) _) HA). split; [done|].
    cbn [snd]. unfold eqp. congruence.
Qed.

(** Two curve points with the same encoding are equal. *)
Lemma encode_inj A A' : on_curve A -> on_curve A' -> encode A = encode A' -> A ≡ₚ A'.
Proof.
  intros HA HA' HE. apply encode_inv in HE as [Hy Hpar];
    [|apply le_bytes_bytes|unfold encode; by rewrite le_bytes_length].
  destruct (proj1 (encode_inv A' (encode A') (le_bytes_bytes _ _) (le_bytes_length _ _)) eq_refl) as [Hy' Hpar'].
  rewrite <- Hy' in Hy. rewrite <- Hpar' in Hpar. destruct A as [x y], A' as [x' y']. cbn [fst snd] in *.
  assert (y =ₚ y') as Ey by exact Hy. split; [|exact Ey]. cbn [fst].
  apply on_curve_root in HA, HA'. rewrite Ey, <- HA' in HA.
  apply eqp_mul_l in HA; [|apply denominator_nz].
  assert ((x - x') * (x + x') =ₚ 0) as H0 by (apply (eqp_comb1 1 _ _ _ _ HA); ring).
  apply eqp_mul_0 in H0 as [H0|H0]; [by apply eqp_sub_0|].
  assert (x =ₚ - x') as Ex by (apply (eqp_comb1 1 _ _ _ _ H0); ring).
  destruct (decide (x' mod p = 0 mod p)) as [Hz|Hz].
  - change (x' =ₚ 0) in Hz. rewrite Ex, Hz. done.
  - exfalso. unfold eqp in Ex. rewrite Ex, parity_neg in Hpar by exact Hz. lia.
Qed.
