(* ===== verification/HashToPoint.v ===== *)
(** * Hashing to a point

    [ge_fromfe_frombytes_vartime] maps every 32-byte string to a point of the
    curve.  The map is specified on the Montgomery form of the curve: the
    branch that is taken, the coordinate and the sign; that the point exists
    in every case is a matter of quadratic residues, and it makes the debug
    checks of the routine succeed. *)

From stdpp Require Import base list numbers.
From Stdlib Require Import ZArith Lia Zpow_facts.
From S2P Require Import Prelude Bytes Limbs Field FieldFacts FieldBytes Edwards CurveData Group GroupFacts GroupSpec PointCodec.

(** ** The map *)

(** The curve coefficient of the Montgomery form. *)
Definition mont : Z := 486662.

Definition denom (u : Z) : Z := 2 * u * u + 1.
Definition disc (u : Z) : Z := denom u * denom u - mont * mont * (2 * u * u).

Definition is_square (a : Z) : Prop := exists r, r * r =ₚ a.

(** The numerator of the Montgomery coordinate and the sign, in the two branches. *)
Definition branch (u z sign : Z) : Prop :=
  (z =ₚ - mont * (2 * u * u) /\ sign = 0 /\ is_square (denom u * disc u)) \/
  (z =ₚ - mont /\ sign = 1 /\ ~ is_square (denom u * disc u)).

(** [P] is the image of [u]: its Montgomery coordinate is [z / denom u], and the parity
    of [x] is the sign. *)
Definition elligator (u : Z) (P : pt) : Prop :=
  exists z sign, branch u z sign /\ nz (z + denom u) /\ on_curve P /\
    P.2 * (z + denom u) =ₚ z - denom u /\ P.1 mod p mod 2 = sign.

Lemma elligator_unique u P P' : elligator u P -> elligator u P' -> P ≡ₚ P'.
Proof.
  intros (z & s & Hb & Hn & HP & Hy & Hx) (z' & s' & Hb' & Hn' & HP' & Hy' & Hx').
  assert (z =ₚ z' /\ s = s') as [Ez Es].
  { destruct Hb as [(-> & -> & Hs)|(-> & -> & Hs)], Hb' as [(-> & -> & Hs')|(-> & -> & Hs')]; (done || tauto). }
  assert (P.2 =ₚ P'.2) as E2.
  { apply (eqp_mul_l (z + denom u)); [done|]. by rewrite Z.mul_comm, Hy, Ez, (Z.mul_comm _ P'.2), Hy'. }
  apply encode_inj; [done|done|]. unfold encode. unfold eqp in E2. by rewrite E2, Hx, Hx', Es.
Qed.

(** ** Quadratic residues *)
#[export] Instance pow_proper : Proper (eqp ==> eq ==> eqp) Z.pow.
Proof.
  intros a b H e ? <-. destruct (Z.le_gt_cases 0 e); [by apply eqp_pow|]. by rewrite !Z.pow_neg_r.
Qed.

Lemma nonresidue c : (Zpow_mod c ((p - 1) / 2) p =? p - 1) = true -> c ^ ((p - 1) / 2) =ₚ -1.
Proof. intros H%Z.eqb_eq. rewrite Zpow_mod_correct in H by done. unfold eqp. rewrite H. by vm_compute. Qed.

Lemma two_nonsquare a b : nz b -> ~ 2 * (b * b) =ₚ a * a.
Proof. apply nonsquare, nonresidue. by vm_compute. Qed.

Lemma minus_two_nonsquare a b : nz b -> ~ -2 * (b * b) =ₚ a * a.
Proof. apply nonsquare, nonresidue. by vm_compute. Qed.

Lemma is_square_const a r : (r * r mod p =? a mod p) = true -> is_square a.
Proof. intros H. exists r. by apply eqp_compute. Qed.

#[export] Instance denom_proper : Proper (eqp ==> eqp) denom.
Proof. intros u u' H. unfold denom. by rewrite H. Qed.

#[export] Instance disc_proper : Proper (eqp ==> eqp) disc.
Proof. intros u u' H. unfold disc. by rewrite H. Qed.

Lemma denom_nz u : nz (denom u).
Proof.
  intros H. unfold denom in H. assert (nz u) as Hu.
  { intros H0. rewrite H0 in H. by apply nz_1. }
  apply (minus_two_nonsquare 1 u Hu). apply (eqp_comb1 (-1) _ _ _ _ H). ring.
Qed.

Lemma disc_nz u : nz (disc u).
Proof.
  intros H. unfold disc in H. assert (nz u) as Hu.
  { intros H0. unfold denom in H. rewrite H0 in H. by apply nz_1. }
  apply (two_nonsquare (denom u) (mont * u)); [apply nz_mul; [unfold nz, eqp; by vm_compute|done]|].
  apply (eqp_comb1 (-1) _ _ _ _ H). ring.
Qed.

(** The two numerators give the same discriminant. *)
Lemma branch_disc u z sign : branch u z sign -> z * z + mont * z * denom u + denom u * denom u =ₚ disc u.
Proof.
  unfold disc, denom. intros [(-> & _)|(-> & _)]; apply eqp_of_eq; ring.
Qed.

Lemma is_square_div a b c : nz c -> a * (c * c) =ₚ b * b -> is_square a.
Proof.
  intros Hc H. exists (b * inv c). apply (eqp_mul_l (c * c)); [by apply nz_mul|].
  transitivity ((b * inv c * c) * (b * inv c * c)); [apply eqp_of_eq; ring|].
  rewrite (div_mul b c Hc), <- H. apply eqp_of_eq. ring.
Qed.

(** A square root of [mont * (2 - mont)]. *)
Definition root_mm : Z := 35968936912973347785644781578802036789627656222378100413395146289815718405904.

(** The Montgomery coordinate is never [-1]. *)
Lemma branch_nz u z sign : branch u z sign -> nz (z + denom u).
Proof.
  intros [(Hz & _ & Hs)|(Hz & _ & Hs)] H; rewrite Hz in H.
  - (* [2 (mont - 1) u^2 = 1] *)
    assert (nz u) as Hu by (intros H0; unfold denom in H; rewrite H0 in H; by apply nz_1).
    apply (nonsquare (2 * (mont - 1)) 1 u); [apply nonresidue; by vm_compute|done|].
    apply (eqp_comb1 (-1) _ _ _ _ H). unfold denom. ring.
  - (* [denom u = mont], so that the product is the square of [mont * root_mm] *)
    apply Hs. exists (mont * root_mm).
    assert (denom u =ₚ mont) as Hd by (apply (eqp_comb1 1 _ _ _ _ H); ring).
    assert (2 * u * u =ₚ mont - 1) as Hv by (unfold denom in Hd; apply (eqp_comb1 1 _ _ _ _ Hd); ring).
    unfold disc. rewrite Hd, Hv. apply eqp_compute. by vm_compute.
Qed.

Lemma branch_sign u z sign : branch u z sign -> 0 <= sign <= 1.
Proof. intros [(_ & -> & _)|(_ & -> & _)]; lia. Qed.

Lemma branch_root_nz u z x : branch u z 1 -> x * x * disc u =ₚ - (mont + 2) * z * denom u -> nz x.
Proof.
  intros Hb Hx H0. destruct Hb as [(_ & Hs & _)|(Hz & _)]; [done|]. rewrite Hz, H0 in Hx.
  apply (nz_mul (mont * (mont + 2)) (denom u)); [unfold nz, eqp; by vm_compute|apply denom_nz|].
  apply (eqp_comb1 (-1) _ _ _ _ Hx). ring.
Qed.

(** A root of the equation in Montgomery coordinates gives a point of the curve. *)
Lemma montgomery_point u z sign x y :
  branch u z sign -> y * (z + denom u) =ₚ z - denom u -> x * x * disc u =ₚ - (mont + 2) * z * denom u ->
  on_curve (x, y).
Proof.
  intros Hb Hy Hx. pose proof (branch_disc _ _ _ Hb) as Hg. pose proof (branch_nz _ _ _ Hb) as Hn.
  pose proof (disc_nz u) as Hd. generalize dependent (denom u). intros w Hy Hx Hg Hn.
  generalize dependent (disc u). intros g Hd Hx Hg.
  assert (d * (mont + 2) =ₚ 2 - mont) as Ed by (apply eqp_compute; by vm_compute).
  apply on_curve_root. apply (eqp_mul_l (g * (mont + 2) * ((z + w) * (z + w)))).
  { by repeat apply nz_mul. }
  transitivity ((d * (mont + 2) * ((y * (z + w)) * (y * (z + w))) + (mont + 2) * ((z + w) * (z + w))) * (x * x * g));
    [apply eqp_of_eq; ring|].
  transitivity (((y * (z + w)) * (y * (z + w)) - (z + w) * (z + w)) * (mont + 2) * g); [|apply eqp_of_eq; ring].
  rewrite Hy, Hx, Ed, <- Hg. apply eqp_of_eq. ring.
Qed.

(** ** The candidate root *)
Section Candidate.
Context (u x0 : Z).
Hypothesis Hx0 : x0 =ₚ denom u * disc u ^ 3 * (denom u * disc u ^ 7) ^ ((p - 5) / 8).

(** [t], the value that the routine compares with [denom u] and its multiples. *)
Definition candidate : Z := x0 * x0 * disc u.

Lemma candidate_w : candidate =ₚ denom u * w (denom u) (disc u).
Proof. unfold candidate. rewrite <- (root_square _ _ _ Hx0). apply eqp_of_eq. ring. Qed.

Lemma candidate_square : candidate * candidate =ₚ denom u * denom u -> is_square (denom u * disc u).
Proof using Type.
  intros H. assert ((candidate - denom u) * (candidate + denom u) =ₚ 0) as H0 by (apply (eqp_comb1 1 _ _ _ _ H); ring).
  unfold candidate in *. apply eqp_mul_0 in H0 as [H0|H0].
  - exists (x0 * disc u). apply (eqp_comb1 (disc u) _ _ _ _ H0). ring.
  - exists (i_ * x0 * disc u). apply (eqp_comb2 (x0 * x0 * disc u * disc u) (- disc u) _ _ _ _ _ _ i_square H0). ring.
Qed.

Lemma candidate_nonsquare :
  ~ candidate =ₚ denom u -> ~ candidate =ₚ - denom u -> ~ is_square (denom u * disc u).
Proof.
  intros H1 H2 [r Hr]. pose proof (disc_nz u) as Hg.
  assert (w (denom u) (disc u) * w (denom u) (disc u) =ₚ 1) as Hw.
  { apply (w_square _ _ Hg (r * inv (disc u)) (denom_nz u)). apply (eqp_mul_l (disc u)); [done|].
    transitivity ((r * inv (disc u) * disc u) * (r * inv (disc u) * disc u)); [apply eqp_of_eq; ring|].
    rewrite (div_mul r _ Hg), Hr. apply eqp_of_eq. ring. }
  assert ((w (denom u) (disc u) - 1) * (w (denom u) (disc u) + 1) =ₚ 0) as H0 by (apply (eqp_comb1 1 _ _ _ _ Hw); ring).
  pose proof candidate_w as Hc. apply eqp_mul_0 in H0 as [H0|H0].
  - apply H1. rewrite Hc. apply (eqp_comb1 (denom u) _ _ _ _ H0). ring.
  - apply H2. rewrite Hc. apply (eqp_comb1 (denom u) _ _ _ _ H0). ring.
Qed.

(** Otherwise [candidate] is [i] or [-i] times [denom u]. *)
Lemma candidate_imaginary :
  ~ candidate =ₚ denom u -> ~ candidate =ₚ - denom u -> (candidate * i_ - denom u) * (candidate * i_ + denom u) =ₚ 0.
Proof.
  intros H1 H2. pose proof (w_fourth _ _ (disc_nz u) (denom_nz u)) as H4. pose proof candidate_w as Hc.
  apply eqp_mul_0 in H4 as [H4|H4].
  - exfalso. assert (candidate * candidate =ₚ denom u * denom u) as Hs.
    { rewrite Hc. apply (eqp_comb1 (denom u * denom u) _ _ _ _ H4). ring. }
    by apply (candidate_nonsquare H1 H2), candidate_square.
  - rewrite Hc. set (z := w _ _) in *. apply (eqp_comb2 (denom u * denom u * z * z) (- denom u * denom u) _ _ _ _ _ _ i_square H4). ring.
Qed.
End Candidate.

(** ** The constants *)
Ltac field_constant := split; [apply (bool_decide_eq_true_1 _); by vm_compute|apply eqp_compute; by vm_compute].

Lemma fe_ma_spec : fe_bounded 101 (fe_copy fe_ma) /\ fe_val (fe_copy fe_ma) =ₚ - mont.
Proof. field_constant. Qed.

Lemma fe_ma2_spec : fe_bounded 101 fe_ma2 /\ fe_val fe_ma2 =ₚ - (mont * mont).
Proof. field_constant. Qed.

Lemma fe_sqrtm1_spec : fe_bounded 101 fe_sqrtm1 /\ fe_val fe_sqrtm1 =ₚ i_.
Proof. field_constant. Qed.

Lemma fe_fffb1_spec : fe_bounded 101 fe_fffb1 /\ fe_val fe_fffb1 * fe_val fe_fffb1 =ₚ -2 * mont * (mont + 2).
Proof. field_constant. Qed.

Lemma fe_fffb2_spec : fe_bounded 101 fe_fffb2 /\ fe_val fe_fffb2 * fe_val fe_fffb2 =ₚ 2 * mont * (mont + 2).
Proof. field_constant. Qed.

Lemma fe_fffb3_spec : fe_bounded 101 fe_fffb3 /\ fe_val fe_fffb3 * fe_val fe_fffb3 =ₚ - i_ * mont * (mont + 2).
Proof. field_constant. Qed.

Lemma fe_fffb4_spec : fe_bounded 101 fe_fffb4 /\ fe_val fe_fffb4 * fe_val fe_fffb4 =ₚ i_ * mont * (mont + 2).
Proof. field_constant. Qed.

(** ** The routine *)

(** A test for zero, as a step. *)
Lemma isnonzero_step {T} h m c (k1 k2 : result T) Q :
  fe_bounded m h -> m <= 330 -> fe_val h =ₚ c ->
  (c =ₚ 0 -> returns k1 Q) -> (~ c =ₚ 0 -> returns k2 Q) ->
  returns (let! nz := fe_isnonzero h in if nz =? 0 then k1 else k2) Q.
Proof.
  intros Hb Hm Hv H1 H2. rewrite fe_isnonzero_spec by (eapply fe_bounded_le; [done|lia]). cbn [bind].
  assert (fe_val h mod p = 0 <-> c =ₚ 0) as E by (unfold eqp in *; by rewrite Hv).
  destruct (decide (fe_val h mod p = 0)) as [H|H]; cbn [Z.eqb]; [by apply H1, E|]. apply H2. by rewrite <- E.
Qed.

Section Root.
Context (ndebug : bool) (u v w x y rX : fe).
Abbreviation U := (fe_val u).
Hypothesis Bu : fe_bounded 101 u.
Hypothesis Bv : fe_bounded 101 v.
Hypothesis Bw : fe_bounded 102 w.
Hypothesis Bx : fe_bounded 101 x.
Hypothesis By : fe_bounded 203 y.
Hypothesis BrX : fe_bounded 101 rX.
Hypothesis Ev : fe_val v =ₚ 2 * U * U.
Hypothesis Ew : fe_val w =ₚ denom U.
Hypothesis Ex : fe_val x =ₚ candidate U (fe_val rX).
Hypothesis Ey : fe_val y =ₚ denom U - candidate U (fe_val rX).
Hypothesis ErX : fe_val rX =ₚ denom U * disc U ^ 3 * (denom U * disc U ^ 7) ^ ((p - 5) / 8).

Definition rooted (r : fe * fe * Z) : Prop :=
  let '(rX, z, sign) := r in
  fe_bounded 101 rX /\ fe_bounded 101 z /\ branch U (fe_val z) sign /\
  fe_val rX * fe_val rX * disc U =ₚ - (mont + 2) * fe_val z * denom U.

(** The two square branches: [rX] times [f] times [u], for the constant [f] of the branch. *)
Lemma square_spec f e :
  fe_bounded 101 f -> fe_val f * fe_val f =ₚ e * (2 * mont * (mont + 2)) -> e * e = 1 ->
  candidate U (fe_val rX) =ₚ e * denom U ->
  returns (let! rX := fe_mul rX f in
    let! rX := fe_mul rX u in let! z := fe_mul (fe_copy fe_ma) v in Ok (rX, z, 0)) rooted.
Proof using Bu Bv BrX Ev.
  intros Bf Ef Ee Hc. destruct fe_ma_spec as [Bz Ez]. do 3 fe_step. cbn [returns rooted].
  assert (fe_val h1 =ₚ - mont * (2 * U * U)) as Hz by (rewrite E1, Ez, Ev; done).
  split_and!; [done|done| |].
  - left. split_and!; [done|done|]. apply (candidate_square U (fe_val rX)). rewrite Hc. apply eqp_of_eq.
    transitivity ((e * e) * (denom U * denom U)); [ring|]. rewrite Ee. ring.
  - rewrite Hz, E0, E. unfold candidate in Hc. set (X := fe_val rX) in *. set (F := fe_val f) in *. set (V := U) in *.
    transitivity ((X * X * disc V) * (F * F) * (V * V)); [apply eqp_of_eq; ring|]. rewrite Hc, Ef. apply eqp_of_eq.
    transitivity ((e * e) * denom V * (2 * mont * (mont + 2)) * (V * V)); [ring|]. rewrite Ee. ring.
Qed.

(** The two other branches. *)
Lemma nonsquare_spec f e :
  fe_bounded 101 f -> fe_val f * fe_val f =ₚ e * i_ * mont * (mont + 2) -> e * e = 1 ->
  ~ candidate U (fe_val rX) =ₚ denom U -> ~ candidate U (fe_val rX) =ₚ - denom U ->
  candidate U (fe_val rX) * i_ =ₚ e * denom U ->
  returns (let! rX := fe_mul rX f in Ok (rX, fe_copy fe_ma, 1)) rooted.
Proof using BrX ErX.
  intros Bf Ef Ee H1 H2 Hc. destruct fe_ma_spec as [Bz Ez]. fe_step. cbn [returns rooted].
  split_and!; [done|done| |].
  - right. split_and!; [done|done|]. by apply (candidate_nonsquare U (fe_val rX)).
  - rewrite Ez, E. unfold candidate in Hc. set (X := fe_val rX) in *. set (F := fe_val f) in *.
    transitivity ((X * X * disc U) * (F * F)); [apply eqp_of_eq; ring|]. rewrite Ef.
    transitivity ((X * X * disc U * i_) * (e * mont * (mont + 2))); [apply eqp_of_eq; ring|].
    rewrite Hc. apply eqp_of_eq. transitivity ((e * e) * denom U * (mont * (mont + 2))); [ring|]. rewrite Ee. ring.
Qed.

Lemma ge_fromfe_root_spec : returns (ge_fromfe_root ndebug u v w x y rX) rooted.
Proof using All.
  unfold ge_fromfe_root. cbv zeta beta. destruct fe_sqrtm1_spec as [Bi Ei].
  eapply (isnonzero_step _ 203); [done|lia|exact Ey| |]; intros H1.
  { destruct fe_fffb2_spec as [Bf Ef]. apply (square_spec _ 1 Bf); [rewrite Ef; apply eqp_of_eq; ring|done|].
    apply (eqp_comb1 (-1) _ _ _ _ H1). ring. }
  fe_step. assert (fe_val h =ₚ denom U + candidate U (fe_val rX)) as Eh by (by rewrite E, Ew, Ex).
  eapply (isnonzero_step _ (102 + 101)); [done|lia|exact Eh| |]; intros H2.
  { destruct fe_fffb1_spec as [Bf Ef]. apply (square_spec _ (-1) Bf); [rewrite Ef; apply eqp_of_eq; ring|done|].
    apply (eqp_comb1 1 _ _ _ _ H2). ring. }
  assert (~ candidate U (fe_val rX) =ₚ denom U) as N1 by (intros H; apply H1; rewrite H; apply eqp_of_eq; ring).
  assert (~ candidate U (fe_val rX) =ₚ - denom U) as N2 by (intros H; apply H2; rewrite H; apply eqp_of_eq; ring).
  do 2 fe_step. assert (fe_val h0 =ₚ candidate U (fe_val rX) * i_) as Eh0 by (by rewrite E0, Ex, Ei).
  assert (fe_val h1 =ₚ denom U - candidate U (fe_val rX) * i_) as Eh1 by (by rewrite E1, Ew, Eh0).
  rewrite fe_isnonzero_spec by (eapply fe_bounded_le; [done|lia]). cbn [bind].
  destruct (decide (fe_val h1 mod p = 0)) as [H3|H3]; cbn [Z.eqb]; change (fe_val h1 mod p = 0) with (fe_val h1 =ₚ 0) in H3;
    rewrite Eh1 in H3.
  { destruct fe_fffb4_spec as [Bf Ef]. apply (nonsquare_spec _ 1 Bf); [rewrite Ef; apply eqp_of_eq; ring|done|done|done|].
    apply (eqp_comb1 (-1) _ _ _ _ H3). ring. }
  pose proof (candidate_imaginary U _ ErX N1 N2) as H4. apply eqp_mul_0 in H4 as [H4|H4].
  { destruct H3. apply (eqp_comb1 (-1) _ _ _ _ H4). ring. }
  rewrite (c_assert_true ndebug).
  - destruct fe_fffb3_spec as [Bf Ef]. cbn [bind].
    apply (nonsquare_spec _ (-1) Bf); [rewrite Ef; apply eqp_of_eq; ring|done|done|done|].
    apply (eqp_comb1 1 _ _ _ _ H4). ring.
  - pose proof (fe_add_spec _ _ _ _ Bw B0 ltac:(lia)) as (s & -> & Bs & Es)%returns_inv. cbn [bind].
    rewrite fe_isnonzero_spec by (eapply fe_bounded_le; [done|lia]). cbn [bind]. rewrite decide_True; [done|].
    change (fe_val s =ₚ 0). rewrite Es, Ew, Eh0. rewrite <- H4. apply eqp_of_eq. ring.
Qed.
End Root.

#[export] Instance is_square_proper : Proper (eqp ==> iff) is_square.
Proof. intros a b H. unfold is_square. by setoid_rewrite H. Qed.

#[export] Instance branch_proper : Proper (eqp ==> eqp ==> eq ==> iff) branch.
Proof. intros u u' Hu z z' Hz s ? <-. unfold branch. by rewrite Hu, Hz. Qed.

#[export] Instance elligator_proper : Proper (eqp ==> eq ==> iff) elligator.
Proof.
  intros u u' Hu P ? <-. unfold elligator, nz.
  split; intros (z & s & H); exists z, s; [by rewrite <- Hu|by rewrite Hu].
Qed.

(** The debug check accepts a point of the curve. *)
Lemma curve_check_spec r A : represents r A -> curve_check r = Ok true.
Proof.
  destruct A as [x y]. intros [HA (z & Hz & (BX & BY & BZ) & EX & EY & EZ)]. cbn [fst snd] in *.
  enough (returns (curve_check r) (fun b => b = true)) as (? & -> & ->)%returns_inv by done. unfold curve_check.
  eapply returns_bind; [eapply fe_invert_spec; [exact BZ|lia]|]. intros iz [Biz Eiz].
  assert (z * fe_val iz =ₚ 1) as Hiz by (rewrite Eiz, (eqp_pow _ _ (p - 2) ltac:(done) EZ); by apply mul_inv).
  pose proof (fe_const_bounded fe_d eq_refl) as Bd. pose proof fe_d_value as Ed. pose proof fe_1_bounded as B1.
  assert (fe_val fe_1 = 1) as Eone by done.
  do 9 fe_step. rewrite fe_isnonzero_spec by (eapply fe_bounded_le; [done|lia]). cbn [bind].
  rewrite decide_True; [done|]. change (fe_val h7 =ₚ 0).
  assert (fe_val h =ₚ x) as Hx by (rewrite E, EX, <- Z.mul_assoc, Hiz, Z.mul_1_r; done).
  assert (fe_val h0 =ₚ y) as Hy by (rewrite E0, EY, <- Z.mul_assoc, Hiz, Z.mul_1_r; done).
  rewrite E7, E6, E5, E4, E3, E2, E1, Ed, Eone, Hx, Hy. simpl in HA.
  apply (eqp_comb1 (-1) _ _ _ _ HA). ring.
Qed.

(** The sign of the root. *)
Lemma sign_spec {T} ndebug rX sign (k : fe -> result T) Q :
  fe_bounded 101 rX -> 0 <= sign <= 1 -> (sign = 1 -> nz (fe_val rX)) ->
  (forall x, fe_bounded 101 x -> fe_val x = fe_val rX \/ fe_val x = - fe_val rX -> fe_val x mod p mod 2 = sign ->
    returns (k x) Q) ->
  returns (let! neg := fe_isnegative rX in
    let! x := if neg =? sign then Ok rX
      else let! _ := c_assert ndebug (let! nz := fe_isnonzero rX in Ok (negb (nz =? 0))) in fe_neg rX in
    k x) Q.
Proof.
  intros Bx Hs Hz Hk. rewrite fe_isnegative_spec by (eapply fe_bounded_le; [done|lia]). cbn [bind].
  pose proof (mod_2_bound (fe_val rX mod p)) as H2.
  destruct (Z.eqb_spec (fe_val rX mod p mod 2) sign) as [E|E]; [cbn [bind]; by apply Hk; [|left|]|].
  assert (nz (fe_val rX)) as Hn.
  { destruct (decide (sign = 1)) as [H1|H1]; [by apply Hz|]. intros H0. apply E. unfold eqp in H0. rewrite H0.
    change (0 mod p mod 2) with 0. lia. }
  rewrite (c_assert_true ndebug).
  - cbn [bind]. eapply returns_bind; [eapply fe_neg_spec; [done|lia]|]. intros h [Bh Eh]. apply Hk; [done|by right|].
    rewrite Eh, parity_neg by done. lia.
  - rewrite fe_isnonzero_spec by (eapply fe_bounded_le; [done|lia]). cbn [bind]. by rewrite decide_False.
Qed.

Lemma ge_fromfe_frombytes_vartime_spec {ndebug} s :
  bytes s -> length s = 32%nat ->
  returns (ge_fromfe_frombytes_vartime ndebug s) (fun r => exists A, elligator (le_val s) A /\ represents r A).
Proof.
  intros Hs Hl. unfold ge_fromfe_frombytes_vartime.
  eapply returns_bind; [by apply fe_load_full_spec|]. intros hs [Hh Hval].
  eapply returns_bind; [by apply fe_load_carry_spec|]. intros u [Bu Eu]. rewrite Hval in Eu.
  destruct fe_ma2_spec as [Bm Em]. pose proof fe_1_bounded as B1. assert (fe_val fe_1 = 1) as Eone by done.
  cbv zeta. do 5 fe_step.
  assert (fe_val h0 =ₚ denom (fe_val u)) as Ew by (rewrite E0, E, Eone; done).
  assert (fe_val h3 =ₚ disc (fe_val u)) as Eg by (rewrite E3, E2, E1, Ew, E, Em; unfold disc; apply eqp_of_eq; ring).
  eapply returns_bind; [eapply fe_divpowm1_spec; [eassumption|eassumption|lia|lia]|]. intros rX [BrX ErX].
  rewrite Ew, Eg in ErX.
  eapply returns_bind; [eapply fe_sq_spec; (eapply fe_bounded_le; [eassumption|lia])|]. intros y [By Ey].
  do 2 fe_step.
  assert (fe_val h4 =ₚ candidate (fe_val u) (fe_val rX)) as Ex by (rewrite E4, Ey, Eg; done).
  assert (fe_val h5 =ₚ denom (fe_val u) - candidate (fe_val u) (fe_val rX)) as Et by (rewrite E5, Ew, Ex; done).
  eapply returns_bind; [by apply ge_fromfe_root_spec|]. intros [[rX' z] sign] (BrX' & Bz & Hb & Hr). cbv beta iota zeta.
  apply sign_spec; [done|by eapply branch_sign|intros ->; by eapply branch_root_nz|].
  intros rX2 Bx2 Hx2 Hsign. do 3 fe_step.
  assert (fe_val h6 =ₚ fe_val z + denom (fe_val u)) as EZ by (by rewrite E6, Ew).
  assert (fe_val h7 =ₚ fe_val z - denom (fe_val u)) as EY by (by rewrite E7, Ew).
  assert (nz (fe_val h6)) as HZ by (unfold nz; rewrite EZ; by eapply branch_nz).
  set (A := (fe_val rX2, fe_val h7 * inv (fe_val h6))).
  assert (A.2 * (fe_val z + denom (fe_val u)) =ₚ fe_val z - denom (fe_val u)) as HA2
    by (rewrite <- EZ, <- EY; by apply div_mul).
  assert (on_curve A) as HA.
  { eapply montgomery_point; [exact Hb|exact HA2|]. rewrite <- Hr. apply eqp_of_eq. destruct Hx2 as [-> | ->]; ring. }
  assert (represents (P2 h8 h7 h6) A) as HR.
  { split; [done|]. exists (fe_val h6). split; [done|]. split; [|cbn [X2 Y2 Z2 A fst snd]; split_and!; [done| |done]].
    - split_and!; (eapply fe_bounded_le; [eassumption|lia]).
    - symmetry. by apply div_mul. }
  rewrite (c_assert_true ndebug) by (by eapply curve_check_spec). cbn [bind returns]. exists A. split; [|done].
  rewrite <- Eu. exists (fe_val z), sign. split_and!; try done. by eapply branch_nz.
Qed.
