(* ===== verification/GroupOrder.v ===== *)
(** * The order of the curve group

    [l] is prime, the base point has order [l], computed with the verified
    scalar multiplication, and [8 * l] times any point of the curve is zero:
    a point of order [8 * l] generates more than half of the points that the
    encoding can distinguish.  The cofactor-cleared points that the key
    operations use therefore have order [l] as well. *)

From stdpp Require Import base list numbers.
From Stdlib Require Import ZArith Lia Zmod.
From S2P Require Import Prelude Limbs Bytes Field FieldFacts FieldBytes Scalar ScalarFacts CurveData Group Prime Edwards Recode ScalarMult GroupFacts GroupSpec BaseTable RecodeFacts ScalarMultFacts PointCodec.

(** ** [l] is prime *)
Lemma prime_1224481 : Z.prime 1224481.
Proof. apply (trial 1224481 1107). by vm_compute. Qed.

Lemma prime_531581 : Z.prime 531581.
Proof. apply (trial 531581 730). by vm_compute. Qed.

Lemma prime_l5 : Z.prime 1257559732178653.
Proof. pose proof prime_1224481. pose proof prime_531581. certificate 2 [1224481; 531581]. Qed.

Lemma prime_l4 : Z.prime 4434155615661930479.
Proof. pose proof prime_l5. certificate 2 [1257559732178653]. Qed.

Lemma prime_l3 : Z.prime 172054593956031949258510691.
Proof. pose proof prime_l4. certificate 2 [4434155615661930479]. Qed.

Lemma prime_l2 : Z.prime 19757330305831588566944191468367130476339.
Proof. pose proof prime_l3. certificate 2 [172054593956031949258510691]. Qed.

Lemma prime_l1 : Z.prime 276602624281642239937218680557139826668747.
Proof. pose proof prime_l2. certificate 2 [19757330305831588566944191468367130476339]. Qed.

Lemma prime_l : Z.prime l.
Proof. pose proof prime_l1. certificate 2 [276602624281642239937218680557139826668747]. Qed.

Lemma l_bound : 0 < l < 2 ^ 253.
Proof. unfold l. lia. Qed.

(** ** The order of the base point *)
Definition is_identity (h : ge_p3) : bool :=
  (fe_val (X3 h) mod p =? 0) && (fe_val (Y3 h) mod p =? fe_val (Z3 h) mod p).

Lemma is_identity_spec h A : represents h A -> is_identity h = true -> A ≡ₚ pzero.
Proof.
  intros [_ (z & Hz & _ & HX & HY & HZ & _)] H.
  apply andb_prop in H as [H1%Z.eqb_eq H2%Z.eqb_eq].
  assert (z * A.1 =ₚ z * 0) as E1 by (rewrite Z.mul_comm, <- HX, Z.mul_0_r; exact H1).
  assert (z * A.2 =ₚ z * 1) as E2 by (rewrite Z.mul_comm, <- HY, Z.mul_1_r, <- HZ; exact H2).
  split; [exact (eqp_mul_l _ _ _ Hz E1)|exact (eqp_mul_l _ _ _ Hz E2)].
Qed.

Lemma base_order_check :
  match ge_scalarmult_base true (le_bytes 32 l) with Ok h => is_identity h | Fail _ => false end = true.
Proof. vm_compute. reflexivity. Qed.

Lemma base_order : smul l B ≡ₚ pzero.
Proof.
  pose proof (@ge_scalarmult_base_spec true (le_bytes 32 l) 0x10 (le_bytes_bytes 32 l) eq_refl eq_refl ltac:(lia)) as H.
  pose proof base_order_check as Hc. rewrite le_val_bytes in H. change (l mod 256 ^ Z.of_nat 32) with l in H.
  destruct (ge_scalarmult_base true (le_bytes 32 l)) as [h|]; [|discriminate].
  exact (is_identity_spec h _ H Hc).
Qed.

Lemma smul_pzero n : smul n pzero ≡ₚ pzero.
Proof.
  pattern n. apply Z.peano_ind; clear n; [apply smul_0| |].
  - intros n IH. unfold Z.succ. rewrite smul_succ, IH by apply pzero_on_curve. apply padd_0_l, pzero_on_curve.
  - intros n IH. apply (padd_cancel _ _ pzero);
      [apply smul_on_curve, pzero_on_curve|apply pzero_on_curve|apply pzero_on_curve|].
    rewrite <- smul_succ by apply pzero_on_curve. unfold Z.pred. replace (n + -1 + 1) with n by lia.
    rewrite IH. symmetry. apply padd_0_l, pzero_on_curve.
Qed.

(** Multiples of a point of order [l] depend on the scalar modulo [l] only. *)
Lemma smul_mod_order A n : on_curve A -> smul l A ≡ₚ pzero -> smul (n mod l) A ≡ₚ smul n A.
Proof.
  intros HA Hl.
  replace n with (n / l * l + n mod l) at 2 by (pose proof (Z.div_mod n l ltac:(unfold l; lia)); lia).
  rewrite smul_add, smul_mul, Hl, smul_pzero by exact HA.
  symmetry. apply padd_0_l. by apply smul_on_curve.
Qed.

Lemma smul_mod_l n : smul (n mod l) B ≡ₚ smul n B.
Proof. apply smul_mod_order; [apply B_on_curve|apply base_order]. Qed.

(** ** Annihilators

    The integers [n] with [n * A = 0] are closed under the gcd. *)
Lemma smul_gcd A m n : on_curve A -> smul m A ≡ₚ pzero -> smul n A ≡ₚ pzero -> smul (Z.gcd m n) A ≡ₚ pzero.
Proof.
  intros HA Hm Hn. destruct (Z.gcd_bezout m n _ eq_refl) as (u & v & <-).
  rewrite smul_add, !smul_mul, Hm, Hn, !smul_pzero by exact HA. apply padd_0_l, pzero_on_curve.
Qed.

Lemma smul_divide A m n : on_curve A -> (m | n) -> smul m A ≡ₚ pzero -> smul n A ≡ₚ pzero.
Proof. intros HA [k ->] Hm. by rewrite smul_mul, Hm, smul_pzero. Qed.

Lemma padd_swap A A' C C' :
  on_curve A -> on_curve A' -> on_curve C -> on_curve C' ->
  padd (padd A A') (padd C C') ≡ₚ padd (padd A C) (padd A' C').
Proof.
  intros HA HA' HC HC'. rewrite !padd_assoc by (done || by apply padd_on_curve).
  rewrite <- (padd_assoc A' C C'), (padd_comm A' C), padd_assoc by done. done.
Qed.

Lemma smul_padd n A A' : on_curve A -> on_curve A' -> smul n (padd A A') ≡ₚ padd (smul n A) (smul n A').
Proof.
  intros HA HA'. assert (on_curve (padd A A')) as HS by (by apply padd_on_curve).
  pose proof (smul_on_curve A HA) as C. pose proof (smul_on_curve A' HA') as C'.
  assert (forall k, padd (padd (smul k A) (smul k A')) (padd A A') ≡ₚ padd (smul (k + 1) A) (smul (k + 1) A')) as Hk
    by (intros k; by rewrite padd_swap, !smul_succ).
  pattern n. apply Z.peano_ind; clear n.
  - rewrite !smul_0. symmetry. apply padd_0_l, pzero_on_curve.
  - intros n IH. unfold Z.succ. by rewrite smul_succ, IH, Hk.
  - intros n IH. apply (padd_cancel _ _ (padd A A')); [by apply smul_on_curve|by apply padd_on_curve|done|].
    rewrite <- smul_succ, Hk by done. unfold Z.pred. by replace (n + -1 + 1) with n by lia.
Qed.

(** ** A point of order [8 * l] *)
Definition P8 : pt :=
  (14399317868200118260347934320527232580618823971194345261214217575416788799818,
   55188659117513257062467267217118295137698188065244968500265048394206261417927).

Lemma P8_on_curve : on_curve P8.
Proof. unfold on_curve, P8. apply eqp_compute. by vm_compute. Qed.

Ltac add_constants :=
  apply padd_unique; [unfold on_curve; apply eqp_compute; by vm_compute..| |];
  apply eqp_compute; by vm_compute.

Lemma P8_double : padd P8 P8 ≡ₚ (- i_, 0).
Proof. unfold P8. add_constants. Qed.

Lemma P4_double : padd (- i_, 0) (- i_, 0) ≡ₚ (0, -1).
Proof. add_constants. Qed.

Lemma P2_double : padd (0, -1) (0, -1) ≡ₚ pzero.
Proof. unfold pzero. add_constants. Qed.

Lemma P8_4 : smul 4 P8 ≡ₚ (0, -1).
Proof.
  change 4 with (2 * (2 * 1)).
  by rewrite !smul_double, smul_1, P8_double, P4_double by apply P8_on_curve.
Qed.

Lemma P8_8 : smul 8 P8 ≡ₚ pzero.
Proof.
  change 8 with (2 * 4). by rewrite smul_double, P8_4, P2_double by apply P8_on_curve.
Qed.

Lemma minus_one_apart : ~ (0, -1) ≡ₚ pzero.
Proof. intros [_ H]. unfold eqp in H. by vm_compute in H. Qed.

Lemma B_nonzero : ~ B ≡ₚ pzero.
Proof. intros [H _]. unfold eqp in H. by vm_compute in H. Qed.

Definition T : pt := padd B P8.

Lemma T_on_curve : on_curve T.
Proof. apply padd_on_curve; [apply B_on_curve|apply P8_on_curve]. Qed.

(** A summand that is annihilated does not count. *)
Lemma annihilate_l n A A' : on_curve A -> on_curve A' -> smul n A ≡ₚ pzero -> smul n (padd A A') ≡ₚ smul n A'.
Proof. intros HA HA' H. rewrite smul_padd, H by done. by apply padd_0_l, smul_on_curve. Qed.

Lemma T_order : smul (8 * l) T ≡ₚ pzero.
Proof.
  unfold T. etransitivity; [apply annihilate_l; [apply B_on_curve|apply P8_on_curve|]|].
  - apply (smul_divide B l); [apply B_on_curve|by exists 8|apply base_order].
  - apply (smul_divide P8 8); [apply P8_on_curve|exists l; apply Z.mul_comm|apply P8_8].
Qed.

(** [8 * T] and [4 * l * T] are not zero. *)
Lemma T_8 : ~ smul 8 T ≡ₚ pzero.
Proof.
  intros H. apply B_nonzero. rewrite <- (smul_1 B B_on_curve).
  change 1 with (Z.gcd 8 l). apply smul_gcd; [apply B_on_curve| |apply base_order].
  rewrite <- H. unfold T. rewrite padd_comm. symmetry. apply annihilate_l; [apply P8_on_curve|apply B_on_curve|apply P8_8].
Qed.

Lemma T_4l : ~ smul (4 * l) T ≡ₚ pzero.
Proof.
  intros H. apply minus_one_apart. rewrite <- P8_4.
  change 4 with (Z.gcd (4 * l) 8). apply smul_gcd; [apply P8_on_curve| |apply P8_8].
  rewrite <- H. symmetry. apply annihilate_l; [apply B_on_curve|apply P8_on_curve|].
  apply (smul_divide B l); [apply B_on_curve|by exists 4|apply base_order].
Qed.

Lemma divides_8 m k : k * m = 8 -> 0 < m -> (m | 4) \/ m = 8.
Proof.
  intros E Hm. assert (0 < k) by nia. assert (m <= 8) by nia.
  assert (m = 1 \/ m = 2 \/ m = 3 \/ m = 4 \/ m = 5 \/ m = 6 \/ m = 7 \/ m = 8) as Hc by lia.
  destruct Hc as [->|[->|[->|[->|[->|[->|[->| ->]]]]]]]; try lia; left; [by exists 4|by exists 2|by exists 1].
Qed.

Lemma divisor_8l g : 0 < g -> (g | 8 * l) -> (g | 8) \/ (g | 4 * l) \/ g = 8 * l.
Proof.
  intros Hg Hd. pose proof l_bound as [Hl _]. pose proof prime_l as Hp. generalize dependent l. intros q Hd Hl Hp.
  destruct (Z.BoolSpec_divide_nz q g ltac:(lia)) as [[m ->]|Hn].
  - destruct Hd as [k Hk]. destruct (divides_8 m k) as [[j Hj]| ->]; [nia|nia| |by right; right].
    right. left. exists j. rewrite Hj. ring.
  - left. rewrite Z.mul_comm in Hd. apply Z.gauss in Hd; [done|].
    unfold Z.coprime. rewrite Z.gcd_comm. by apply Z.coprime_prime_l.
Qed.

Lemma T_exact k : smul k T ≡ₚ pzero -> (8 * l | k).
Proof.
  intros Hk. pose proof (smul_gcd T k (8 * l) T_on_curve Hk T_order) as Hg.
  assert (0 < Z.gcd k (8 * l)) as Hpos.
  { pose proof (Z.gcd_nonneg k (8 * l)). destruct (decide (Z.gcd k (8 * l) = 0)) as [H0|]; [|lia].
    apply Z.gcd_eq_0_r in H0. by vm_compute in H0. }
  destruct (divisor_8l _ Hpos (Z.gcd_divide_r k (8 * l))) as [H8|[H4|He]].
  - by destruct (T_8 (smul_divide _ _ _ T_on_curve H8 Hg)).
  - by destruct (T_4l (smul_divide _ _ _ T_on_curve H4 Hg)).
  - rewrite <- He. apply Z.gcd_divide_l.
Qed.

(** ** Counting *)

(** An injection of [0, n) into [0, m). *)
Lemma pigeonhole (f : Z -> Z) n m :
  0 <= n -> 0 <= m -> (forall i, 0 <= i < n -> 0 <= f i < m) ->
  (forall i j, 0 <= i < n -> 0 <= j < n -> f i = f j -> i = j) -> n <= m.
Proof.
  intros Hn Hm Hf Hinj.
  assert (f <$> seqZ 0 n ⊆+ seqZ 0 m) as Hs.
  { apply NoDup_submseteq.
    - apply NoDup_fmap_2_strong; [|apply NoDup_seqZ]. intros i j Hi%elem_of_seqZ Hj%elem_of_seqZ. apply Hinj; lia.
    - intros x (i & -> & Hi%elem_of_seqZ)%list_elem_of_fmap. apply elem_of_seqZ. specialize (Hf i). lia. }
  apply submseteq_length in Hs. rewrite length_fmap, !length_seqZ in Hs. lia.
Qed.

(** The number of a point among the [2 * p] possible encodings. *)
Definition point_index (A : pt) : Z := A.2 mod p + p * (A.1 mod p mod 2).

Lemma point_index_bound A : 0 <= point_index A < 2 * p.
Proof.
  unfold point_index. pose proof (Z.mod_pos_bound A.2 p ltac:(done)). pose proof (mod_2_bound (A.1 mod p)). nia.
Qed.

Lemma point_index_inj A A' : on_curve A -> on_curve A' -> point_index A = point_index A' -> A ≡ₚ A'.
Proof.
  intros HA HA' H. apply encode_inj; [done|done|]. unfold point_index, encode in *.
  pose proof (Z.mod_pos_bound A.2 p ltac:(done)). pose proof (Z.mod_pos_bound A'.2 p ltac:(done)).
  assert (A.1 mod p mod 2 = A'.1 mod p mod 2) as E by nia. rewrite E in *. do 2 f_equal. lia.
Qed.

(** Two sums that agree. *)
Lemma padd_difference A A' m n m' n' :
  on_curve A -> on_curve A' -> padd (smul m A) (smul n A') ≡ₚ padd (smul m' A) (smul n' A') ->
  padd (smul (m - m') A) (smul (n - n') A') ≡ₚ pzero.
Proof.
  intros HA HA' H. pose proof (smul_on_curve A HA) as C. pose proof (smul_on_curve A' HA') as C'.
  apply (padd_cancel _ _ (padd (smul m' A) (smul n' A'))); [by apply padd_on_curve|apply pzero_on_curve|by apply padd_on_curve|].
  rewrite padd_swap, <- !smul_add, padd_0_l by (done || by apply padd_on_curve).
  by replace (m - m' + m') with m by lia; replace (n - n' + n') with n by lia.
Qed.

(** The multiples of a point of order [n], and those shifted by [A]. *)
Section Cosets.
Context (C A : pt) (n : Z).
Hypothesis HC : on_curve C.
Hypothesis HA : on_curve A.
Hypothesis Hn : 0 < n.
Hypothesis Horder : smul n C ≡ₚ pzero.
Hypothesis Hexact : forall k, smul k C ≡ₚ pzero -> (n | k).
Hypothesis HN : ~ smul n A ≡ₚ pzero.

Definition coset (i : Z) : pt := padd (smul (i mod n) C) (smul (i / n) A).

Lemma coset_on_curve i : on_curve (coset i).
Proof. apply padd_on_curve; by apply smul_on_curve. Qed.

(** No multiple [a * C] is [A] or [- A]. *)
Lemma coset_disjoint a e : padd (smul a C) (smul e A) ≡ₚ pzero -> e = 1 \/ e = -1 -> False.
Proof.
  intros H He. apply HN. assert (smul (n * e) A ≡ₚ pzero) as H0.
  { rewrite smul_mul, <- (smul_pzero n), <- H by done. symmetry.
    apply annihilate_l; [by apply smul_on_curve..|]. by rewrite <- smul_mul, Z.mul_comm, smul_mul, Horder, smul_pzero. }
  apply (smul_divide A _ _ HA) with (2 := H0). exists e. destruct He as [-> | ->]; lia.
Qed.

Lemma coset_inj i j : 0 <= i < 2 * n -> 0 <= j < 2 * n -> coset i ≡ₚ coset j -> i = j.
Proof using All.
  intros Hi Hj H. apply padd_difference in H; [|done..].
  pose proof (Z.div_mod i n ltac:(lia)). pose proof (Z.div_mod j n ltac:(lia)).
  pose proof (Z.mod_pos_bound i n ltac:(lia)). pose proof (Z.mod_pos_bound j n ltac:(lia)).
  assert (0 <= i / n < 2) by (split; [apply Z.div_pos; lia|apply Z.div_lt_upper_bound; lia]).
  assert (0 <= j / n < 2) by (split; [apply Z.div_pos; lia|apply Z.div_lt_upper_bound; lia]).
  destruct (decide (i / n - j / n = 0)) as [E|E]; [|destruct (coset_disjoint _ _ H); lia].
  rewrite E, smul_0, padd_comm, padd_0_l in H by (by apply smul_on_curve).
  destruct (Hexact _ H) as [k Hk]. assert (k = 0) by nia. nia.
Qed.

(** Then there are at least [2 * n] points. *)
Lemma coset_count : 2 * n <= 2 * p.
Proof using All.
  apply (pigeonhole (fun i => point_index (coset i))); [lia|done|intros; apply point_index_bound|].
  intros i j Hi Hj H. apply coset_inj; [done|done|]. apply point_index_inj; [apply coset_on_curve..|done].
Qed.
End Cosets.

Lemma too_many : ~ 2 * (8 * l) <= 2 * p.
Proof. by vm_compute. Qed.

#[export] Instance pt_eq_dec A A' : Decision (A ≡ₚ A').
Proof. unfold pt_eq, eqp. apply _. Defined.

(** The order of every point divides [8 * l]. *)
Lemma group_order A : on_curve A -> smul (8 * l) A ≡ₚ pzero.
Proof.
  intros HA. destruct (decide (smul (8 * l) A ≡ₚ pzero)) as [|HN]; [done|].
  destruct (too_many (coset_count T A (8 * l) T_on_curve HA ltac:(pose proof l_bound; lia) T_order T_exact HN)).
Qed.

(** Cofactor clearing: eight times a point has order [l]. *)
Lemma cofactor_order A : on_curve A -> smul l (smul 8 A) ≡ₚ pzero.
Proof.
  intros HA. pose proof (group_order A HA) as H. rewrite Z.mul_comm in H. generalize dependent l. intros n H.
  by rewrite smul_mul in H.
Qed.

(** Reduced scalars are determined by the multiple of the base point. *)
Lemma base_exact k : smul k B ≡ₚ pzero -> (l | k).
Proof.
  intros Hk. destruct (Z.BoolSpec_divide_nz l k ltac:(pose proof l_bound; lia)) as [|Hn]; [done|exfalso].
  apply B_nonzero. rewrite <- (smul_1 B B_on_curve).
  assert (Z.gcd l k = 1) as <- by (by apply Z.coprime_prime_l; [apply prime_l|]).
  apply smul_gcd; [apply B_on_curve|apply base_order|exact Hk].
Qed.
