(* ===== verification/Keccak.v ===== *)
(** * Keccak

    [src/src/crypto/keccak.c] and the hash functions of [src/src/crypto/hash.c]
    that are built on it.  The state is an array of 25 64-bit words; on the
    little-endian hosts the project supports, the word view of a byte buffer is
    the little-endian one. *)

From stdpp Require Import base list numbers.
From Stdlib Require Import ZArith Lia.
From S2P Require Import Prelude Bytes.

(** ** The permutation *)
Definition keccakf_rndc : list Z :=
  [0x0000000000000001; 0x0000000000008082; 0x800000000000808a;
   0x8000000080008000; 0x000000000000808b; 0x0000000080000001;
   0x8000000080008081; 0x8000000000008009; 0x000000000000008a;
   0x0000000000000088; 0x0000000080008009; 0x000000008000000a;
   0x000000008000808b; 0x800000000000008b; 0x8000000000008089;
   0x8000000000008003; 0x8000000000008002; 0x8000000000000080;
   0x000000000000800a; 0x800000008000000a; 0x8000000080008081;
   0x8000000000008080; 0x0000000080000001; 0x8000000080008008].

Definition keccakf_rotc : list Z :=
  [1; 3; 6; 10; 15; 21; 28; 36; 45; 55; 2; 14;
   27; 41; 56; 8; 25; 43; 62; 18; 39; 61; 20; 44].

Definition keccakf_piln : list nat :=
  [10; 7; 11; 17; 18; 3; 5; 16; 8; 21; 24; 4;
   15; 23; 19; 13; 12; 2; 20; 14; 22; 9; 6; 1]%nat.

(** [ROTL64] *)
Definition rotl64 (x y : Z) : Z := Z.lor (u64 (Z.shiftl x y)) (Z.shiftr x (64 - y)).

(** [~x] on 64 bits *)
Definition not64 (x : Z) : Z := u64 (Z.lnot x).

Definition theta_bc (st : list Z) : result (list Z) :=
  for_ 5 (fun i bc =>
    let! a0 := get st i in
    let! a1 := get st (i + 5) in
    let! a2 := get st (i + 10) in
    let! a3 := get st (i + 15) in
    let! a4 := get st (i + 20) in
    set bc i (Z.lxor (Z.lxor (Z.lxor (Z.lxor a0 a1) a2) a3) a4)) 0 (replicate 5 0).

Definition theta (st : list Z) : result (list Z) :=
  let! bc := theta_bc st in
  for_ 5 (fun i st =>
    let! b4 := get bc ((i + 4) mod 5) in
    let! b1 := get bc ((i + 1) mod 5) in
    let t := Z.lxor b4 (rotl64 b1 1) in
    for_ 5 (fun j st =>
      let! x := get st (5 * j + i) in
      set st (5 * j + i) (Z.lxor x t)) 0 st) 0 st.

Definition rho_pi (st : list Z) : result (list Z) :=
  let! t := get st 1 in
  let! r := for_ 24 (fun i (r : list Z * Z) =>
    let '(st, t) := r in
    let! j := get keccakf_piln i in
    let! b := get st j in
    let! c := get keccakf_rotc i in
    let! st := set st j (rotl64 t c) in
    Ok (st, b)) 0 (st, t) in
  Ok r.1.

Definition chi (st : list Z) : result (list Z) :=
  for_ 5 (fun j st =>
    let! b0 := get st (5 * j) in
    let! b1 := get st (5 * j + 1) in
    let! b2 := get st (5 * j + 2) in
    let! b3 := get st (5 * j + 3) in
    let! b4 := get st (5 * j + 4) in
    let bc := [b0; b1; b2; b3; b4] in
    for_ 5 (fun i st =>
      let! x := get st (5 * j + i) in
      let! b := get bc ((i + 1) mod 5) in
      let! c := get bc ((i + 2) mod 5) in
      set st (5 * j + i) (Z.lxor x (Z.land (not64 b) c))) 0 st) 0 st.

Definition iota (round : nat) (st : list Z) : result (list Z) :=
  let! x := get st 0 in
  let! c := get keccakf_rndc round in
  set st 0 (Z.lxor x c).

Definition keccakf_round (round : nat) (st : list Z) : result (list Z) :=
  let! st := theta st in
  let! st := rho_pi st in
  let! st := chi st in
  iota round st.

Definition keccakf (st : list Z) (rounds : nat) : result (list Z) :=
  for_ rounds keccakf_round 0 st.

Definition KECCAK_ROUNDS : nat := 24.
Definition HASH_DATA_AREA : Z := 136.
Definition HASH_SIZE : nat := 32.

(** ** The sponge *)

(** [((uint64_t * ) buf)[i]] *)
Definition word_at (buf : list Z) (i : nat) : result Z :=
  if decide (8 * i + 8 <= length buf)%nat then Ok (le_val (take 8 (drop (8 * i) buf)))
  else Fail OutOfBounds.

(** [for (i = 0; i < n; i++) st[i] ^= ((uint64_t * ) buf)[i]] *)
Definition xor_words (n : nat) (buf st : list Z) : result (list Z) :=
  for_ n (fun i st =>
    let! x := get st i in
    let! w := word_at buf i in
    set st i (Z.lxor x w)) 0 st.

(** [for ( ; inlen >= rsiz; inlen -= rsiz, in += rsiz)], the input being what is left of it. *)
Fixpoint absorb (fuel : nat) (rsiz : Z) (inp st : list Z) : result (list Z * list Z) :=
  match fuel with
  | O => Fail OutOfFuel
  | S fuel =>
      if Z.of_nat (length inp) >=? rsiz then
        let! st := xor_words (Z.to_nat (rsiz / 8)) inp st in
        let! st := keccakf st KECCAK_ROUNDS in
        absorb fuel rsiz (drop (Z.to_nat rsiz) inp) st
      else Ok (inp, st)
  end.

(** The byte view of the state. *)
Definition state_bytes (st : list Z) : list Z := concat (le_bytes 8 <$> st).

(** The rate.  [200 - 2 * mdlen] is an [int] that is converted to [size_t]. *)
Definition keccak_rsiz (mdlen : Z) : Z :=
  if mdlen =? 200 then HASH_DATA_AREA else u64 (200 - 2 * mdlen).

(** The condition of the second [abort]; [sizeof(temp)] is 144.  The arithmetic is that
    of [size_t]. *)
Definition keccak_bad (inlen rsiz : Z) : bool :=
  (inlen >=? 144) || (inlen >? rsiz) || (u64 (u64 (rsiz - inlen) + inlen + 1) >=? 144) ||
  (rsiz =? 0) || (u64 (rsiz - 1) >=? 144) || (u64 (rsiz / 8 * 8) >? 144).

(** The last block in [temp]: the rest of the input, 1, zeroes, and [0x80] or'ed into
    the last byte. *)
Definition last_block (inp : list Z) (rsiz : nat) : result (list Z) :=
  let temp := inp ++ [1] ++ replicate (rsiz - (length inp + 1)) 0 in
  let! x := get temp (rsiz - 1) in
  set temp (rsiz - 1) (Z.lor x 0x80).

Definition keccak (fuel : nat) (inp : list Z) (mdlen : Z) : result (list Z) :=
  if (mdlen <=? 0) || (mdlen >? 200) then Fail Aborted
  else
    let rsiz := keccak_rsiz mdlen in
    let st := replicate 25 0 in
    let! (inp, st) := absorb fuel rsiz inp st in
    if keccak_bad (Z.of_nat (length inp)) rsiz then Fail Aborted
    else
      let! temp := last_block inp (Z.to_nat rsiz) in
      let! st := xor_words (Z.to_nat (rsiz / 8)) temp st in
      let! st := keccakf st KECCAK_ROUNDS in
      Ok (take (Z.to_nat mdlen) (state_bytes st)).

Definition keccak1600 (fuel : nat) (inp : list Z) : result (list Z) := keccak fuel inp 200.

(** ** [hash.c] *)

(** One more than the length is enough fuel for the absorbing loop. *)
Definition hash_process (buf : list Z) : result (list Z) := keccak1600 (S (length buf)) buf.

(** The state of [union hash_state] as words. *)
Definition hash_permutation (st : list Z) : result (list Z) := keccakf st 24.

Definition cn_fast_hash (data : list Z) : result (list Z) :=
  let! state := hash_process data in
  Ok (take HASH_SIZE state).
