(* ===== verification/KeccakFacts.v ===== *)
(** * Correctness of Keccak

    The permutation and the sponge of [Keccak] against the definitions of the
    Keccak specification (FIPS 202), which are written here in its coordinates. *)

From stdpp Require Import base list numbers.
From Stdlib Require Import ZArith Lia.
From S2P Require Import Prelude Bytes Keccak.

(** ** The specification of the permutation

    Lane [(x, y)] of a state is the word [x + 5*y]. *)
Module Spec.
Definition lane (A : list Z) (x y : nat) : Z := nth (x mod 5 + 5 * (y mod 5)) A 0.
Definition build (f : nat -> nat -> Z) : list Z := (fun k => f (k mod 5) (k / 5))%nat <$> seq 0 25.

Definition theta (A : list Z) : list Z :=
  let C x := Z.lxor (Z.lxor (Z.lxor (Z.lxor (lane A x 0) (lane A x 1)) (lane A x 2)) (lane A x 3)) (lane A x 4) in
  build (fun x y => Z.lxor (lane A x y) (Z.lxor (C (x + 4)%nat) (rotl64 (C (x + 1)%nat) 1))).

(** The offsets of [rho]: [(t+1)(t+2)/2] along the walk [(x, y) -> (y, 2x+3y)] from [(1, 0)]. *)
Fixpoint walk (n : nat) (t : Z) (x y : nat) : list (nat * nat * Z) :=
  match n with
  | O => []
  | S n => (x, y, ((t + 1) * (t + 2) / 2) mod 64) :: walk n (t + 1) y ((2 * x + 3 * y) mod 5)
  end.

Definition offset (x y : nat) : Z :=
  match find (fun e => let '(a, b, _) := e in (a =? x)%nat && (b =? y)%nat) (walk 24 0 1 0) with
  | Some (_, _, r) => r
  | None => 0
  end.

Definition rho (A : list Z) : list Z :=
  build (fun x y => if offset x y =? 0 then lane A x y else rotl64 (lane A x y) (offset x y)).
Definition pi (A : list Z) : list Z := build (fun x y => lane A (x + 3 * y) x).
Definition chi (A : list Z) : list Z :=
  build (fun x y => Z.lxor (lane A x y) (Z.land (not64 (lane A (x + 1) y)) (lane A (x + 2) y))).

(** The round constants come from a linear feedback shift register. *)
Fixpoint lfsr (n : nat) (r : Z) : Z :=
  match n with
  | O => r
  | S n => let s := Z.shiftl r 1 in lfsr n (if Z.testbit s 8 then Z.lxor s 0x171 else s)
  end.
Definition rc (t : nat) : bool := Z.testbit (lfsr (t mod 255) 1) 0.
Definition round_constant (ir : nat) : Z :=
  foldr Z.lor 0 ((fun j => if rc (j + 7 * ir) then 2 ^ (2 ^ Z.of_nat j - 1) else 0) <$> seq 0 7).

Definition iota (ir : nat) (A : list Z) : list Z := <[0%nat := Z.lxor (lane A 0 0) (round_constant ir)]> A.

Definition round (ir : nat) (A : list Z) : list Z := iota ir (chi (pi (rho (theta A)))).

(** The permutation of [n] rounds. *)
Definition permutation (n : nat) (A : list Z) : list Z := foldl (fun A ir => round ir A) A (seq 0 n).
End Spec.

(** ** The permutation *)
Ltac lanes st H :=
  do 25 (destruct st as [|? st]; [discriminate H|]); destruct st; [|discriminate H].

Lemma theta_spec st : length st = 25%nat -> theta st = Ok (Spec.theta st).
Proof. intros H. lanes st H. lazy -[Z.lxor rotl64]. reflexivity. Qed.

Lemma rho_pi_spec st : length st = 25%nat -> rho_pi st = Ok (Spec.pi (Spec.rho st)).
Proof. intros H. lanes st H. lazy -[Z.lxor rotl64]. reflexivity. Qed.

Lemma chi_spec st : length st = 25%nat -> chi st = Ok (Spec.chi st).
Proof. intros H. lanes st H. lazy -[Z.lxor Z.land not64]. reflexivity. Qed.

Lemma round_constants : keccakf_rndc = Spec.round_constant <$> seq 0 24.
Proof. by vm_compute. Qed.

Lemma build_length f : length (Spec.build f) = 25%nat.
Proof. done. Qed.

Lemma iota_spec round st :
  (round < 24)%nat -> length st = 25%nat -> iota round st = Ok (Spec.iota round st).
Proof.
  intros Hr Hl. unfold iota. rewrite round_constants.
  rewrite (get_ok (_ <$> _) round (Spec.round_constant round))
    by (rewrite list_lookup_fmap, lookup_seq_lt by done; done).
  destruct st as [|x st]; [done|]. cbn [bind get lookup list_lookup]. by rewrite set_ok by lia.
Qed.

Lemma keccakf_round_spec round st :
  (round < 24)%nat -> length st = 25%nat ->
  keccakf_round round st = Ok (Spec.round round st).
Proof.
  intros Hr Hl. unfold keccakf_round, Spec.round. rewrite theta_spec by done. cbn [bind].
  rewrite rho_pi_spec by apply build_length. cbn [bind].
  rewrite chi_spec by apply build_length. cbn [bind]. by rewrite iota_spec by (done || apply build_length).
Qed.

Lemma round_length round st : length (Spec.round round st) = 25%nat.
Proof. unfold Spec.round, Spec.iota. by rewrite length_insert. Qed.

Lemma keccakf_spec st rounds :
  (rounds <= 24)%nat -> length st = 25%nat ->
  keccakf st rounds = Ok (Spec.permutation rounds st) /\ length (Spec.permutation rounds st) = 25%nat.
Proof.
  intros Hr Hl. unfold keccakf, Spec.permutation.
  assert (forall n i, (i + n <= 24)%nat -> forall A, length A = 25%nat ->
    for_ n keccakf_round i A = Ok (foldl (fun A ir => Spec.round ir A) A (seq i n)) /\
    length (foldl (fun A ir => Spec.round ir A) A (seq i n)) = 25%nat) as H; [|by apply H].
  induction n as [|n IH]; intros i Hi A HA; [done|]. cbn [for_ seq foldl].
  rewrite keccakf_round_spec by (done || lia). cbn [bind]. apply IH; [lia|apply round_length].
Qed.

(** ** The specification of the sponge *)
Module Sponge.
(** The padding of [q] bytes: a 1 bit first, a 1 bit last. *)
Definition pad (q : nat) : list Z :=
  if decide (q = 1%nat) then [0x81] else [1] ++ replicate (q - 2) 0 ++ [0x80].

Fixpoint blocks (k r : nat) (data : list Z) : list (list Z) :=
  match k with O => [] | S k => take r data :: blocks k r (drop r data) end.

(** The first [r] bytes of a block, followed by zeroes, xor'ed into the state. *)
Definition xor_block (r : nat) (blk st : list Z) : list Z :=
  imap (fun i x => Z.lxor x (le_val (take 8 (drop (8 * i) (take r blk))))) st.

Definition step (r : nat) (st blk : list Z) : list Z := Spec.permutation 24 (xor_block r blk st).

Definition padded (r : nat) (inp : list Z) : list Z := inp ++ pad (r - length inp mod r).

(** The state after the padded blocks of [r] bytes, of which the first [w] are absorbed. *)
Definition run (w r : nat) (inp : list Z) : list Z :=
  foldl (step w) (replicate 25 0) (blocks (S (length inp / r)) r (padded r inp)).

(** The sponge of rate [r] absorbs all of its blocks. *)
Definition absorbed (r : nat) (inp : list Z) : list Z := run r r inp.

Definition hash (r : nat) (mdlen : nat) (inp : list Z) : list Z :=
  take mdlen (state_bytes (absorbed r inp)).
End Sponge.

Lemma xor_block_length r blk st : length (Sponge.xor_block r blk st) = length st.
Proof. apply length_imap. Qed.

(** The code absorbs whole words. *)
Definition whole (r : nat) : nat := (8 * (r / 8))%nat.

Lemma whole_le r : (whole r <= r)%nat.
Proof. apply Nat.Div0.mul_div_le. Qed.

Lemma whole_id r : (r mod 8 = 0)%nat -> whole r = r.
Proof. intros H. unfold whole. pose proof (Nat.div_mod_eq r 8). lia. Qed.

Lemma xor_words_spec n buf st :
  (8 * n <= length buf)%nat -> (n <= length st)%nat -> xor_words n buf st = Ok (Sponge.xor_block (8 * n) buf st).
Proof.
  intros Hb Hs. unfold xor_words. rewrite (for_update _ _ (fun i x => Z.lxor x (le_val (take 8 (drop (8 * i) buf))))); [|done|].
  - f_equal. apply list_eq. intros i. unfold Sponge.xor_block. rewrite update_first_lookup, list_lookup_imap.
    destruct (st !! i) as [x|]; [|done]. cbn [fmap option_fmap option_map]. f_equal.
    rewrite skipn_firstn_comm, firstn_firstn. destruct (decide (i < n)%nat) as [Hi|Hi].
    + do 3 f_equal. lia.
    + replace (8 `min` (8 * n - 8 * i))%nat with 0%nat by lia. symmetry. apply Z.lxor_0_r.
  - intros i x a Hi _ Ha Hl. rewrite (get_ok _ _ _ Ha). unfold word_at. cbn [bind]. rewrite decide_True by lia.
    apply set_ok. lia.
Qed.

(** ** The sponge *)
Lemma step_spec r st blk :
  (r <= length blk)%nat -> (r <= 200)%nat -> length st = 25%nat ->
  (let! st := xor_words (r / 8) blk st in keccakf st KECCAK_ROUNDS) = Ok (Sponge.step (whole r) st blk) /\
  length (Sponge.step (whole r) st blk) = 25%nat.
Proof.
  intros Hb Hr Hst. assert (8 * (r / 8) <= r)%nat by apply whole_le.
  rewrite xor_words_spec by lia. fold (whole r). unfold Sponge.step, KECCAK_ROUNDS. cbn [bind].
  apply (keccakf_spec _ 24); [lia|]. by rewrite xor_block_length.
Qed.

(** A block beyond the rate is not read. *)
Lemma step_take w r st blk : (w <= r)%nat -> Sponge.step w st (take r blk) = Sponge.step w st blk.
Proof.
  intros Hw. unfold Sponge.step, Sponge.xor_block. by rewrite take_take, Nat.min_l by done.
Qed.

Lemma absorb_spec r : (0 < r <= 200)%nat -> forall k fuel inp st,
  (k < fuel)%nat -> (k * r <= length inp < S k * r)%nat -> length st = 25%nat ->
  let st' := foldl (Sponge.step (whole r)) st (Sponge.blocks k r inp) in
  absorb fuel (Z.of_nat r) inp st = Ok (drop (k * r) inp, st') /\ length st' = 25%nat.
Proof.
  intros Hr. induction k as [|k IH]; intros [|fuel] inp st Hf Hl Hst; [lia| |lia|].
  - cbn [absorb Sponge.blocks foldl]. destruct (Z.geb_spec (Z.of_nat (length inp)) (Z.of_nat r)); [lia|]. done.
  - cbn [absorb Sponge.blocks foldl]. destruct (Z.geb_spec (Z.of_nat (length inp)) (Z.of_nat r)); [|lia].
    replace (Z.to_nat (Z.of_nat r / 8)) with (r / 8)%nat by (change 8 with (Z.of_nat 8); rewrite <- Nat2Z.inj_div; lia).
    rewrite Nat2Z.id.
    destruct (step_spec r st inp) as [Hs Hlen]; [lia|lia|done|].
    rewrite <- bind_assoc, Hs. cbn [bind]. rewrite step_take by apply whole_le.
    replace (S k * r)%nat with (r + k * r)%nat by lia. rewrite <- drop_drop.
    apply IH; [lia| |done]. rewrite length_drop. lia.
Qed.

Lemma blocks_pad r k inp p :
  (k * r <= length inp < S k * r)%nat -> (length p = S k * r - length inp)%nat ->
  Sponge.blocks (S k) r (inp ++ p) = Sponge.blocks k r inp ++ [drop (k * r) inp ++ p].
Proof.
  revert inp. induction k as [|k IH]; intros inp Hl Hp.
  - rewrite Nat.mul_0_l, drop_0. cbn [Sponge.blocks app]. rewrite take_ge by (rewrite length_app; lia). done.
  - replace (S k * r)%nat with (r + k * r)%nat by lia. rewrite <- drop_drop.
    cbn [Sponge.blocks app]. cbn [Sponge.blocks] in IH.
    rewrite take_app_le, drop_app_le by lia. f_equal. apply IH; rewrite length_drop; nia.
Qed.

Lemma last_block_spec inp r : (length inp < r)%nat -> last_block inp r = Ok (inp ++ Sponge.pad (r - length inp)).
Proof.
  intros Hl. unfold last_block, Sponge.pad.
  destruct (decide (r - length inp = 1)%nat) as [E|E].
  - replace (r - (length inp + 1))%nat with O by lia. replace (r - 1)%nat with (length inp) by lia.
    cbn [replicate app].
    rewrite (get_ok _ _ 1) by (by rewrite lookup_app_r, Nat.sub_diag by lia). cbn [bind].
    rewrite set_ok by (rewrite length_app; simpl; lia). f_equal.
    by rewrite insert_app_r_alt, Nat.sub_diag by lia.
  - set (q := (r - length inp - 2)%nat).
    replace (r - (length inp + 1))%nat with (q + 1)%nat by lia. rewrite replicate_add.
    replace (inp ++ [1] ++ replicate q 0 ++ replicate 1 0) with ((inp ++ [1] ++ replicate q 0) ++ [0])
      by (by rewrite <- !app_assoc).
    assert (length (inp ++ [1] ++ replicate q 0) = (r - 1)%nat) as Hlen
      by (rewrite !length_app, length_replicate; simpl; lia).
    rewrite (get_ok _ _ 0) by (by rewrite lookup_app_r, Hlen, Nat.sub_diag by lia). cbn [bind].
    rewrite set_ok by (rewrite length_app, Hlen; simpl; lia). f_equal.
    rewrite insert_app_r_alt, Hlen, Nat.sub_diag by lia. by rewrite <- !app_assoc.
Qed.

Lemma pad_length q : (0 < q)%nat -> length (Sponge.pad q) = q.
Proof.
  intros. unfold Sponge.pad. destruct (decide (q = 1%nat)) as [->|]; [done|].
  rewrite !length_app, length_replicate. simpl. lia.
Qed.

(** The rate of a digest length for which [keccak] returns. *)
Definition rate (mdlen : Z) : nat := if mdlen =? 200 then 136%nat else Z.to_nat (200 - 2 * mdlen).

Lemma keccak_rsiz_rate mdlen : 1 <= mdlen <= 100 \/ mdlen = 200 -> keccak_rsiz mdlen = Z.of_nat (rate mdlen).
Proof.
  intros H. unfold keccak_rsiz, rate. destruct (Z.eqb_spec mdlen 200); [done|].
  unfold u64. rewrite Z.mod_small by lia. lia.
Qed.

(** The input is absorbed and its rest is shorter than a block. *)
Lemma keccak_absorb r fuel inp :
  (0 < r <= 200)%nat -> (length inp / r < fuel)%nat ->
  let k := (length inp / r)%nat in
  let st := foldl (Sponge.step (whole r)) (replicate 25 0) (Sponge.blocks k r inp) in
  absorb fuel (Z.of_nat r) inp (replicate 25 0) = Ok (drop (k * r) inp, st) /\
  length st = 25%nat /\ length (drop (k * r) inp) = (length inp mod r)%nat /\ (length inp mod r < r)%nat.
Proof.
  intros Hr Hf. cbv zeta. pose proof (Nat.div_mod_eq (length inp) r).
  pose proof (Nat.mod_upper_bound (length inp) r ltac:(lia)).
  destruct (absorb_spec r Hr (length inp / r) fuel inp (replicate 25 0)) as [Ha Hl]; [done|lia|done|].
  repeat split; [exact Ha|exact Hl| |lia]. rewrite length_drop. lia.
Qed.

Lemma keccak_bad_rate n r :
  (n < r <= 200)%nat -> keccak_bad (Z.of_nat n) (Z.of_nat r) = (143 <=? r)%nat.
Proof.
  intros H. unfold keccak_bad, u64.
  rewrite (Z.mod_small (Z.of_nat r - Z.of_nat n)), !Z.mod_small
    by (Z.to_euclidean_division_equations; lia).
  assert (0 <= Z.of_nat r / 8 * 8 <= Z.of_nat r) by (Z.to_euclidean_division_equations; lia).
  destruct (Nat.leb_spec 143 r); [|lia].
  apply orb_true_iff. left. apply orb_true_iff. left. apply orb_true_iff. left.
  apply orb_true_iff. right. lia.
Qed.

(** What [keccak] computes: blocks of the rate, of which it absorbs the whole words. *)
Lemma keccak_run fuel inp mdlen :
  29 <= mdlen < 100 \/ mdlen = 200 -> (length inp / rate mdlen < fuel)%nat ->
  keccak fuel inp mdlen = Ok (take (Z.to_nat mdlen) (state_bytes (Sponge.run (whole (rate mdlen)) (rate mdlen) inp))).
Proof.
  intros Hm Hf. assert (0 < rate mdlen <= 142)%nat as Hr
    by (unfold rate; destruct (Z.eqb_spec mdlen 200); lia).
  unfold keccak. replace ((mdlen <=? 0) || (mdlen >? 200)) with false by lia.
  rewrite keccak_rsiz_rate by lia.
  destruct (keccak_absorb (rate mdlen) fuel inp ltac:(lia) Hf) as (Ha & Hst & Hlen & Hmod).
  rewrite Ha. cbn [bind]. rewrite Hlen, keccak_bad_rate by lia.
  replace (143 <=? rate mdlen)%nat with false by (symmetry; apply Nat.leb_gt; lia).
  rewrite Nat2Z.id, last_block_spec, Hlen by lia. cbn [bind].
  change 8 with (Z.of_nat 8). rewrite <- Nat2Z.inj_div, Nat2Z.id.
  match goal with |- context [xor_words _ ?b ?s] => destruct (step_spec (rate mdlen) s b) as [Hs _] end.
  { rewrite length_app, Hlen, pad_length by lia. lia. } { lia. } { done. }
  rewrite <- bind_assoc, Hs. cbn [bind]. unfold Sponge.run, Sponge.padded.
  pose proof (Nat.div_mod_eq (length inp) (rate mdlen)).
  rewrite blocks_pad, foldl_app by (rewrite ?pad_length; lia). done.
Qed.

(** A rate of whole words: the digest length is a multiple of 4. *)
Lemma rate_words mdlen : 29 <= mdlen < 100 /\ mdlen mod 4 = 0 \/ mdlen = 200 -> (rate mdlen mod 8 = 0)%nat.
Proof.
  intros [[Hm H4]| ->]; [|done]. apply Z.mod_divide in H4 as [k ->]; [|lia]. unfold rate.
  destruct (Z.eqb_spec (k * 4) 200); [done|]. replace (Z.to_nat (200 - 2 * (k * 4))) with (Z.to_nat (25 - k) * 8)%nat by lia.
  apply Nat.Div0.mod_mul.
Qed.

Lemma keccak_ok fuel inp mdlen :
  29 <= mdlen < 100 /\ mdlen mod 4 = 0 \/ mdlen = 200 -> (length inp / rate mdlen < fuel)%nat ->
  keccak fuel inp mdlen = Ok (Sponge.hash (rate mdlen) (Z.to_nat mdlen) inp).
Proof.
  intros Hm Hf. rewrite keccak_run, whole_id by (done || lia || by apply rate_words). done.
Qed.

Lemma keccak_long fuel inp mdlen :
  1 <= mdlen <= 28 -> (length inp / rate mdlen < fuel)%nat -> keccak fuel inp mdlen = Fail Aborted.
Proof.
  intros Hm Hf. assert (144 <= rate mdlen <= 198)%nat as Hr
    by (unfold rate; destruct (Z.eqb_spec mdlen 200); lia).
  unfold keccak. replace ((mdlen <=? 0) || (mdlen >? 200)) with false by lia.
  rewrite keccak_rsiz_rate by lia.
  destruct (keccak_absorb (rate mdlen) fuel inp ltac:(lia) Hf) as (Ha & Hst & Hlen & Hmod).
  rewrite Ha. cbn [bind]. rewrite Hlen, keccak_bad_rate by lia.
  by replace (143 <=? rate mdlen)%nat with true by (symmetry; apply Nat.leb_le; lia).
Qed.

(** A digest of more than 100 bytes makes the rate wrap around. *)
Lemma keccak_wrapped fuel inp mdlen :
  100 < mdlen < 200 -> (0 < fuel)%nat -> Z.of_nat (length inp) < 2 ^ 63 ->
  keccak fuel inp mdlen = Fail Aborted.
Proof.
  intros Hm Hf Hl. destruct fuel as [|fuel]; [lia|]. unfold keccak.
  replace ((mdlen <=? 0) || (mdlen >? 200)) with false by lia.
  unfold keccak_rsiz. replace (mdlen =? 200) with false by lia.
  replace (u64 (200 - 2 * mdlen)) with (2 ^ 64 + 200 - 2 * mdlen)
    by (unfold u64; apply (Z.mod_unique_pos _ _ (-1)); lia).
  cbn [absorb]. destruct (Z.geb_spec (Z.of_nat (length inp)) (2 ^ 64 + 200 - 2 * mdlen)); [lia|].
  cbn [bind]. unfold keccak_bad, u64. rewrite (Z.mod_small (2 ^ 64 + 200 - 2 * mdlen - _)) by lia.
  rewrite (Z.mod_small (_ - _ + _ + 1)) by lia.
  match goal with |- context [(?a - ?b + ?b + 1 >=? 144)] =>
    replace (a - b + b + 1 >=? 144) with true by lia
  end.
  by rewrite !orb_true_r.
Qed.

(** A rate of zero: the absorbing loop never ends. *)
Lemma keccak_rate_0 fuel inp : keccak fuel inp 100 = Fail OutOfFuel.
Proof.
  unfold keccak. cbn [Z.leb Z.gtb Z.compare orb]. change (keccak_rsiz 100) with 0.
  assert (forall st, length st = 25%nat -> absorb fuel 0 inp st = Fail OutOfFuel) as H; [|by rewrite H].
  induction fuel as [|fuel IH]; intros st Hst; [done|]. cbn [absorb].
  destruct (Z.geb_spec (Z.of_nat (length inp)) 0); [|lia].
  destruct (step_spec 0 st inp) as [Hs Hl]; [lia|lia|done|].
  rewrite <- bind_assoc. change (Z.to_nat (0 / 8)) with (0 / 8)%nat. rewrite Hs. by apply IH.
Qed.

Lemma state_bytes_bytes st : bytes (state_bytes st) /\ length (state_bytes st) = (8 * length st)%nat.
Proof.
  unfold state_bytes. induction st as [|x st [Hb Hl]]; [by split; [constructor|]|]. cbn [fmap list_fmap concat]. split.
  - apply Forall_app. split; [apply le_bytes_bytes|done].
  - rewrite length_app, le_bytes_length. rewrite Hl. simpl. lia.
Qed.

Lemma absorbed_length r inp : (0 < r)%nat -> length (Sponge.absorbed r inp) = 25%nat.
Proof.
  intros Hr. unfold Sponge.absorbed, Sponge.run.
  assert (forall l st, length st = 25%nat -> length (foldl (Sponge.step r) st l) = 25%nat) as H; [|by apply H].
  induction l as [|b l IH]; intros st Hst; [done|]. cbn [foldl]. apply IH. unfold Sponge.step.
  apply (keccakf_spec _ 24); [lia|]. by rewrite xor_block_length.
Qed.

Lemma cn_fast_hash_spec data :
  cn_fast_hash data = Ok (Sponge.hash 136 HASH_SIZE data).
Proof.
  unfold cn_fast_hash, hash_process, keccak1600.
  assert (length data / rate 200 < S (length data))%nat as Hf.
  { change (rate 200) with 136%nat.
    pose proof (Nat.Div0.div_le_upper_bound (length data) 136 (length data)). lia. }
  rewrite keccak_ok by (done || lia). cbn [bind]. unfold Sponge.hash. rewrite firstn_firstn.
  change (rate 200) with 136%nat. do 2 f_equal.
Qed.

Lemma hash_bytes r n inp : (0 < r)%nat -> (n <= 200)%nat -> bytes (Sponge.hash r n inp) /\ length (Sponge.hash r n inp) = n.
Proof.
  intros Hr Hn. destruct (state_bytes_bytes (Sponge.absorbed r inp)) as [Hb Hl].
  rewrite absorbed_length in Hl by done. split; [by apply Forall_take|].
  unfold Sponge.hash. rewrite length_take. lia.
Qed.

(** ** What a hash function promises to its clients *)
Class HashContract (hash : list Z -> result (list Z)) (H : list Z -> list Z) : Prop := {
  hash_returns : forall d, hash d = Ok (H d);
  hash_length : forall d, length (H d) = HASH_SIZE
}.

#[export] Instance cn_fast_hash_contract : HashContract cn_fast_hash (Sponge.hash 136 HASH_SIZE).
Proof.
  split; [apply cn_fast_hash_spec|]. intros d. apply hash_bytes; unfold HASH_SIZE; lia.
Qed.
