(* ===== verification/Base58.v ===== *)
(** * Base58

    [src/src/common/base58.cpp]: strings of bytes are written in blocks of 8
    bytes, each as 11 letters; addresses carry a tag and a checksum.  A string
    is the list of its bytes; [None] is the return of [false]. *)

From Stdlib Require Import Ascii String.
From stdpp Require Import base list numbers.
From Stdlib Require Import ZArith Lia.
From S2P Require Import Prelude Bytes IntUtil Varint Keccak.

(** ** Tables *)
Definition alphabet : list Z :=
  (fun c => Z.of_N (N_of_ascii c)) <$> list_ascii_of_string "123456789ABCDEFGHJKLMNPQRSTUVWXYZabcdefghijkmnopqrstuvwxyz"%string.
Definition alphabet_size : Z := 58.
Definition encoded_block_sizes : list nat := [0; 2; 3; 5; 6; 7; 9; 10; 11]%nat.
Definition full_block_size : nat := 8.
Definition full_encoded_block_size : nat := 11.
Definition addr_checksum_size : nat := 4.

(** The constructor of [reverse_alphabet]: [m_data]. *)
Definition reverse_alphabet_data : result (list Z) :=
  let! first := get alphabet 0 in
  let! last := get alphabet 57 in
  for_ 58 (fun i m_data =>
    let! a := get alphabet i in
    set m_data (Z.to_nat (u64 (a - first))) (to_i8 (Z.of_nat i))) 0 (replicate (Z.to_nat (last - first + 1)) (-1)).

(** [char] is signed. *)
Definition reverse_alphabet (letter : Z) : result Z :=
  let! m_data := reverse_alphabet_data in
  let! first := get alphabet 0 in
  let idx := u64 (to_i8 letter - first) in
  if idx <? Z.of_nat (length m_data) then get m_data (Z.to_nat idx) else Ok (-1).

(** The constructor of [decoded_block_sizes]: [m_data]. *)
Definition decoded_block_sizes_data : result (list Z) :=
  let! last := get encoded_block_sizes full_block_size in
  for_ (full_block_size + 1) (fun i m_data =>
    let! e := get encoded_block_sizes i in
    set m_data e (Z.of_nat i)) 0 (replicate (last + 1) (-1)).

Definition decoded_block_sizes (ndebug : bool) (encoded_block_size : nat) : result Z :=
  let! _ := c_assert ndebug (Ok (encoded_block_size <=? full_encoded_block_size)%nat) in
  let! m_data := decoded_block_sizes_data in
  get m_data encoded_block_size.

(** ** Blocks *)

(** The cases from [9 - size] to 8. *)
Definition uint_8be_to_64 (ndebug : bool) (data : list Z) (size : nat) : result Z :=
  let! _ := c_assert ndebug (Ok ((1 <=? size) && (size <=? 8))%nat) in
  if ((1 <=? size) && (size <=? 8))%nat then
    for_ size (fun j res =>
      let res := if (9 - size + j =? 1)%nat then res else u64 (Z.shiftl res 8) in
      let! b := get data j in
      Ok (Z.lor res b)) 0 0
  else
    let! _ := c_assert ndebug (Ok false) in
    Ok 0.

(** The bytes written to [data]. *)
Definition uint_64_to_8be (ndebug : bool) (num : Z) (size : nat) : result (list Z) :=
  let! _ := c_assert ndebug (Ok ((1 <=? size) && (size <=? 8))%nat) in
  let num_be := SWAP64 num in
  Ok (drop (8 - size) (le_bytes 8 num_be)).

(** The loop of [encode_block], with [n = i + 1]; a 64-bit number has at most 11 digits. *)
Fixpoint encode_digits (fuel : nat) (num : Z) (n : nat) (res : list Z) : result (list Z) :=
  if 0 <? num then
    match fuel with
    | O => Fail OutOfFuel
    | S fuel =>
        let remainder := num mod alphabet_size in
        let num := num / alphabet_size in
        match n with
        | O => Fail OutOfBounds
        | S i =>
            let! a := get alphabet (Z.to_nat remainder) in
            let! res := set res i a in
            encode_digits fuel num i res
        end
    end
  else Ok res.

(** [block] and [res] are what the pointers point to; the new contents of [res]. *)
Definition encode_block (ndebug : bool) (block : list Z) (size : nat) (res : list Z) : result (list Z) :=
  let! _ := c_assert ndebug (Ok ((1 <=? size) && (size <=? full_block_size))%nat) in
  let! num := uint_8be_to_64 ndebug block size in
  let! n := get encoded_block_sizes size in
  encode_digits 12 num n res.

(** One letter of [decode_block]: [res_num] and [order], or an early [return false]. *)
Definition decode_letter (ndebug : bool) (block : list Z) (i : nat) (st : option (Z * Z)) : result (option (Z * Z)) :=
  match st with
  | None => Ok None
  | Some (res_num, order) =>
      let! letter := get block i in
      let! digit := reverse_alphabet letter in
      if digit <? 0 then Ok None
      else
        let! (lo, product_hi) := mul128 ndebug order digit in
        let tmp := u64 (res_num + lo) in
        if (tmp <? res_num) || negb (product_hi =? 0) then Ok None
        else Ok (Some (tmp, u64 (order * alphabet_size)))
  end.

(** The bytes written to [res]. *)
Definition decode_block (ndebug : bool) (block : list Z) (size : nat) : result (option (list Z)) :=
  let! _ := c_assert ndebug (Ok ((1 <=? size) && (size <=? full_encoded_block_size))%nat) in
  let! res_size := decoded_block_sizes ndebug size in
  if res_size <=? 0 then Ok None
  else
    let! st := for_down size (decode_letter ndebug block) (Some (0, 1)) in
    match st with
    | None => Ok None
    | Some (res_num, _) =>
        if (res_size <? Z.of_nat full_block_size) && (u64 (Z.shiftl 1 (8 * res_size)) <=? res_num) then Ok None
        else
          let! res := uint_64_to_8be ndebug res_num (Z.to_nat res_size) in
          Ok (Some res)
    end.

(** ** Strings *)

(** The [n] bytes at [o], and their replacement. *)
Definition slice (o n : nat) (s : list Z) : list Z := take n (drop o s).
Definition splice (o : nat) (t s : list Z) : list Z := take o s ++ t ++ drop (o + length t) s.

Definition encode (ndebug : bool) (data : list Z) : result (list Z) :=
  if (length data =? 0)%nat then Ok []
  else
    let full_block_count := (length data / full_block_size)%nat in
    let last_block_size := (length data mod full_block_size)%nat in
    let! last_encoded := get encoded_block_sizes last_block_size in
    let! first := get alphabet 0 in
    let res := replicate (full_block_count * full_encoded_block_size + last_encoded) first in
    let! res :=
      for_ full_block_count (fun i res =>
        let! r := encode_block ndebug (slice (i * full_block_size) full_block_size data) full_block_size
          (slice (i * full_encoded_block_size) full_encoded_block_size res) in
        Ok (splice (i * full_encoded_block_size) r res)) 0 res in
    if (0 <? last_block_size)%nat then
      let! r := encode_block ndebug (slice (full_block_count * full_block_size) last_block_size data) last_block_size
        (slice (full_block_count * full_encoded_block_size) last_encoded res) in
      Ok (splice (full_block_count * full_encoded_block_size) r res)
    else Ok res.

(** One full block of [decode]: [data] so far, or an early [return false]. *)
Definition decode_full (ndebug : bool) (enc : list Z) (i : nat) (st : option (list Z)) : result (option (list Z)) :=
  match st with
  | None => Ok None
  | Some data =>
      let! r := decode_block ndebug (slice (i * full_encoded_block_size) full_encoded_block_size enc) full_encoded_block_size in
      Ok (match r with Some b => Some (splice (i * full_block_size) b data) | None => None end)
  end.

Definition decode (ndebug : bool) (enc : list Z) : result (option (list Z)) :=
  if (length enc =? 0)%nat then Ok (Some [])
  else
    let full_block_count := (length enc / full_encoded_block_size)%nat in
    let last_block_size := (length enc mod full_encoded_block_size)%nat in
    let! last_block_decoded_size := decoded_block_sizes ndebug last_block_size in
    if last_block_decoded_size <? 0 then Ok None
    else
      let data := replicate (full_block_count * full_block_size + Z.to_nat last_block_decoded_size) 0 in
      let! st := for_ full_block_count (decode_full ndebug enc) 0 (Some data) in
      match st with
      | None => Ok None
      | Some data =>
          if (0 <? last_block_size)%nat then
            let! r := decode_block ndebug (slice (full_block_count * full_encoded_block_size) last_block_size enc) last_block_size in
            Ok (match r with Some b => Some (splice (full_block_count * full_block_size) b data) | None => None end)
          else Ok (Some data)
      end.

(** ** Addresses *)
Definition encode_addr (ndebug : bool) (tag : Z) (data : list Z) : result (list Z) :=
  let! buf := get_varint_data tag in
  let buf := buf ++ data in
  let! hash := cn_fast_hash buf in
  let buf := buf ++ take addr_checksum_size hash in
  encode ndebug buf.

(** The tag and the data. *)
Definition decode_addr (ndebug : bool) (addr : list Z) : result (option (Z * list Z)) :=
  let! r := decode ndebug addr in
  match r with
  | None => Ok None
  | Some addr_data =>
      if (length addr_data <=? addr_checksum_size)%nat then Ok None
      else
        let checksum := drop (length addr_data - addr_checksum_size) addr_data in
        let addr_data := take (length addr_data - addr_checksum_size) addr_data in
        let! hash := cn_fast_hash addr_data in
        let expected_checksum := take addr_checksum_size hash in
        if negb (bool_decide (expected_checksum = checksum)) then Ok None
        else
          let '(read, tag) := read_varint 64 addr_data in
          if read <=? 0 then Ok None
          else Ok (Some (tag, drop (Z.to_nat read) addr_data))
  end.
