(* ===== verification/Base58Facts.v ===== *)
(** * Correctness of Base58

    A block is the big-endian number of its bytes, written with a fixed number
    of letters; decoding accepts exactly the strings that encoding writes. *)

From stdpp Require Import base list numbers.
From Stdlib Require Import ZArith Lia.
From S2P Require Import Prelude Bytes Streaming IntUtil Varint Keccak KeccakFacts Base58.

(** ** Digits *)

(** The [n] low digits of [v] in base 58, lowest first, and the number they stand for. *)
Fixpoint digits (n : nat) (v : Z) : list Z :=
  match n with O => [] | S n => v mod 58 :: digits n (v / 58) end.

Fixpoint undigits (ds : list Z) : Z := match ds with [] => 0 | d :: ds => d + 58 * undigits ds end.

Definition is_digit58 (d : Z) : Prop := 0 <= d < 58.

Lemma digits_length n v : length (digits n v) = n.
Proof. revert v. induction n as [|n IH]; intros v; [done|]. cbn [digits length]. by rewrite IH. Qed.

Lemma digits_range n v : Forall is_digit58 (digits n v).
Proof. revert v. induction n as [|n IH]; intros v; constructor; [apply Z.mod_pos_bound; lia|apply IH]. Qed.

Lemma undigits_digits n v : 0 <= v < 58 ^ Z.of_nat n -> undigits (digits n v) = v.
Proof.
  revert v. induction n as [|n IH]; intros v Hv; [change (58 ^ Z.of_nat 0) with 1 in Hv; cbn; lia|].
  rewrite Nat2Z.inj_succ, Z.pow_succ_r in Hv by lia. cbn [digits undigits].
  rewrite IH by (Z.to_euclidean_division_equations; lia). Z.to_euclidean_division_equations; lia.
Qed.

Lemma undigits_range ds : Forall is_digit58 ds -> 0 <= undigits ds < 58 ^ Z.of_nat (length ds).
Proof.
  induction 1 as [|d ds Hd _ IH]; cbn [undigits length]; [change (58 ^ Z.of_nat 0) with 1; lia|].
  rewrite Nat2Z.inj_succ, Z.pow_succ_r by lia. unfold is_digit58 in Hd. lia.
Qed.

Lemma digits_undigits ds : Forall is_digit58 ds -> digits (length ds) (undigits ds) = ds.
Proof.
  induction 1 as [|d ds Hd _ IH]; [done|]. cbn [undigits length digits]. unfold is_digit58 in Hd.
  replace ((d + 58 * undigits ds) mod 58) with d by (Z.to_euclidean_division_equations; lia).
  replace ((d + 58 * undigits ds) / 58) with (undigits ds) by (Z.to_euclidean_division_equations; lia). by rewrite IH.
Qed.

Lemma undigits_app ds es : undigits (ds ++ es) = undigits ds + 58 ^ Z.of_nat (length ds) * undigits es.
Proof.
  induction ds as [|d ds IH]; cbn [app undigits length]; [change (58 ^ Z.of_nat 0) with 1; lia|].
  rewrite IH, Nat2Z.inj_succ, Z.pow_succ_r by lia. ring.
Qed.

(** ** Letters *)
Definition letter (d : Z) : Z := nth (Z.to_nat d) alphabet 0.

Lemma digit_cases (f : Z -> bool) : forallb f (seqZ 0 58) = true -> forall d, is_digit58 d -> f d = true.
Proof. intros H d Hd. rewrite forallb_forall in H. apply H, list_elem_of_In, elem_of_seqZ. unfold is_digit58 in Hd. lia. Qed.

Lemma letter_get d : is_digit58 d -> get alphabet (Z.to_nat d) = Ok (letter d).
Proof.
  intros Hd. unfold is_digit58 in Hd. destruct (lookup_lt_is_Some_2 alphabet (Z.to_nat d)) as [a Ha].
  { change (length alphabet) with 58%nat. lia. }
  rewrite (get_ok _ _ _ Ha). unfold letter. f_equal. symmetry. by apply nth_lookup_Some.
Qed.

(** The reverse table inverts the alphabet. *)
Lemma reverse_letter d : is_digit58 d -> reverse_alphabet (letter d) = Ok d /\ is_byte (letter d).
Proof.
  intros Hd. enough (match reverse_alphabet (letter d) with Ok e => e =? d | Fail _ => false end && bool_decide (is_byte (letter d)) = true) as H.
  { apply andb_prop in H as [H Hb%bool_decide_eq_true_1]. destruct (reverse_alphabet (letter d)); [|done].
    apply Z.eqb_eq in H as ->. done. }
  revert d Hd. apply (digit_cases (fun d => _)). by vm_compute.
Qed.

Lemma reverse_byte c :
  is_byte c -> exists d, reverse_alphabet c = Ok d /\ (d < 0 /\ (forall e, is_digit58 e -> letter e <> c) \/ is_digit58 d /\ letter d = c).
Proof.
  intros Hc. enough (match reverse_alphabet c with
    Ok d => (d <? 0) || bool_decide (is_digit58 d) && (letter d =? c) | Fail _ => false end = true) as H.
  { destruct (reverse_alphabet c) as [d|] eqn:E; [|done]. exists d. split; [done|].
    apply orb_prop in H as [H%Z.ltb_lt|H].
    - left. split; [done|]. intros e He <-. destruct (reverse_letter e He) as [E' _]. rewrite E' in E. injection E as ->.
      unfold is_digit58 in He. lia.
    - right. apply andb_prop in H as [H%bool_decide_eq_true_1 H2%Z.eqb_eq]. split; assumption. }
  revert c Hc. apply (byte_cases (fun c => _)). by vm_compute.
Qed.

Lemma letter_inj d e : is_digit58 d -> is_digit58 e -> letter d = letter e -> d = e.
Proof.
  intros Hd He E. destruct (reverse_letter d Hd) as [Ed _], (reverse_letter e He) as [Ee _]. rewrite E, Ee in Ed. by injection Ed.
Qed.

(** The number [v] in [n] letters, highest digit first. *)
Definition block_letters (n : nat) (v : Z) : list Z := letter <$> reverse (digits n v).

Lemma block_letters_length n v : length (block_letters n v) = n.
Proof. unfold block_letters. by rewrite length_fmap, length_reverse, digits_length. Qed.

Lemma block_letters_bytes n v : bytes (block_letters n v).
Proof.
  unfold block_letters. apply Forall_fmap, Forall_reverse. generalize (digits_range n v). apply Forall_impl.
  intros d Hd. by apply reverse_letter.
Qed.

Lemma letters_inj ds es : Forall is_digit58 ds -> Forall is_digit58 es -> letter <$> ds = letter <$> es -> ds = es.
Proof.
  intros Hd. revert es. induction Hd as [|d ds Hd _ IH]; intros [|e es] He E; [done..|].
  apply Forall_cons_1 in He as [He Hes]. rewrite !fmap_cons in E.
  pose proof (f_equal (List.hd 0) E : letter d = letter e) as E1. pose proof (f_equal (List.tl (A := Z)) E) as E2. cbn [List.tl] in E2.
  f_equal; [by apply letter_inj|by apply IH].
Qed.

Lemma block_letters_inj n v w :
  0 <= v < 58 ^ Z.of_nat n -> 0 <= w < 58 ^ Z.of_nat n -> block_letters n v = block_letters n w -> v = w.
Proof.
  intros Hv Hw E. unfold block_letters in E.
  apply letters_inj in E; [|apply Forall_reverse, digits_range..]. apply (inj reverse) in E.
  by rewrite <- (undigits_digits n v), <- (undigits_digits n w), E.
Qed.

(** ** Writing a block *)
Lemma encode_digits_spec fuel num n suffix :
  (n < fuel)%nat -> 0 <= num < 58 ^ Z.of_nat n ->
  encode_digits fuel num n (replicate n (letter 0) ++ suffix) = Ok (block_letters n num ++ suffix).
Proof.
  revert num n suffix. induction fuel as [|fuel IH]; intros num n suffix Hn Hv; [lia|]. cbn [encode_digits].
  destruct (Z.ltb_spec 0 num) as [Hp|Hp].
  - destruct n as [|n]; [change (58 ^ Z.of_nat 0) with 1 in Hv; lia|].
    rewrite Nat2Z.inj_succ, Z.pow_succ_r in Hv by lia. unfold alphabet_size.
    rewrite letter_get by (unfold is_digit58; apply Z.mod_pos_bound; lia). cbn [bind].
    rewrite set_ok by (rewrite length_app, length_replicate; lia). cbn [bind].
    rewrite replicate_S_end, <- app_assoc, insert_app_r_alt, length_replicate, Nat.sub_diag by (rewrite length_replicate; lia).
    cbn [app list_insert insert]. rewrite IH by (try lia; Z.to_euclidean_division_equations; lia).
    unfold block_letters. cbn [digits]. rewrite reverse_cons, fmap_app, <- app_assoc. done.
  - assert (num = 0) as -> by lia. f_equal. f_equal. unfold block_letters. clear. induction n as [|n IH]; [done|].
    cbn [digits]. change (0 mod 58) with 0. change (0 / 58) with 0. rewrite reverse_cons, fmap_app, <- IH.
    rewrite replicate_S_end. done.
Qed.

(** ** Big-endian numbers *)
Lemma uint_8be_to_64_spec ndebug data :
  bytes data -> (1 <= length data <= 8)%nat -> uint_8be_to_64 ndebug data (length data) = Ok (be_val data).
Proof.
  intros Hb Hl. set (size := length data) in *. unfold uint_8be_to_64.
  assert (((1 <=? size) && (size <=? 8))%nat = true) as -> by (apply andb_true_intro; split; apply Nat.leb_le; lia).
  rewrite c_assert_true by done. cbn [bind].
  match goal with |- ?m = _ => enough (returns m (fun r => r = be_val (take size data))) as H end.
  { apply returns_inv in H as (r & -> & ->). by rewrite take_ge by done. }
  apply (for_inv _ _ 0 0 (fun j r => r = be_val (take j data))); [done|]. intros j r Hj ->.
  destruct (byte_lookup data j Hb ltac:(lia)) as (b & Eb & Hbb). rewrite (get_ok _ _ _ Eb). cbn [bind returns].
  rewrite (take_S_r _ _ _ Eb), be_val_snoc. pose proof (be_val_bound (take j data) (Forall_take _ _ _ Hb)) as Hv.
  rewrite length_take in Hv. set (v := be_val (take j data)) in *.
  assert (v < 256 ^ 7) as Hv7 by (eapply Z.lt_le_trans; [apply Hv|apply Z.pow_le_mono_r; [done|lia]]).
  destruct (Nat.eqb_spec (9 - size + j) 1) as [E|E].
  - assert (j = 0%nat) as Ej by lia. assert (v = 0) as -> by (unfold v; by rewrite Ej). by rewrite Z.lor_0_l.
  - rewrite u64_id by (unfold is_u64; rewrite Z.shiftl_mul_pow2; lia).
    rewrite Z.lor_comm, lor_shiftl_add by (unfold is_byte in Hbb; lia). lia.
Qed.

(** Bit [i] of a byte-swapped word, for each [i]. *)
Ltac swap_bit :=
  rewrite ?Z.lor_spec, ?Z.mod_pow2_bits_low, ?Z.shiftl_spec, ?Z.shiftr_spec, ?Z.land_spec by lia; simpl Z.sub; simpl Z.add.

Lemma swap64_byte x k : (k < 8)%nat -> bits (SWAP64 x) (8 * Z.of_nat k) 8 = bits x (8 * Z.of_nat (7 - k)) 8.
Proof.
  intros Hk. unfold bits. apply Z.bits_inj'. intros i Hi. destruct (Z.lt_ge_cases i 8) as [H8|H8].
  - rewrite !Z.mod_pow2_bits_low by lia. rewrite !Z.shiftr_spec by lia.
    assert (i = 0 \/ i = 1 \/ i = 2 \/ i = 3 \/ i = 4 \/ i = 5 \/ i = 6 \/ i = 7) as Hc by lia.
    unfold SWAP64, u64.
    do 8 (destruct k as [|k]; [destruct Hc as [->|[->|[->|[->|[->|[->|[->| ->]]]]]]];
      simpl Z.of_nat; simpl Z.mul; simpl Z.add; swap_bit; cbn -[Z.testbit]; rewrite ?andb_true_r, ?andb_false_r, ?orb_false_r; reflexivity|]).
    lia.
  - rewrite !Z.mod_pow2_bits_high by lia. done.
Qed.

Lemma swap64_bytes x : le_bytes 8 (SWAP64 x) = reverse (le_bytes 8 x).
Proof.
  rewrite !le_bytes_alt. apply list_eq. intros k. destruct (decide (k < 8)%nat) as [Hk|Hk].
  - rewrite reverse_lookup, !list_lookup_fmap by (rewrite length_fmap, length_seq; lia).
    rewrite length_fmap, length_seq, !lookup_seq_lt by lia. cbn [fmap option_fmap option_map]. f_equal.
    rewrite !Nat.add_0_l. replace (8 - S k)%nat with (7 - k)%nat by lia. by apply swap64_byte.
  - rewrite !lookup_ge_None_2; [done|..]; rewrite ?length_reverse, length_fmap, length_seq; lia.
Qed.

Lemma take_le_bytes m n v : (m <= n)%nat -> take m (le_bytes n v) = le_bytes m v.
Proof.
  revert n v. induction m as [|m IH]; intros [|n] v H; [done..|lia|].
  change (le_bytes (S n) v) with (v mod 256 :: le_bytes n (v / 256)).
  change (le_bytes (S m) v) with (v mod 256 :: le_bytes m (v / 256)). cbn [take]. by rewrite IH by lia.
Qed.

Lemma uint_64_to_8be_spec ndebug v size :
  (1 <= size <= 8)%nat -> uint_64_to_8be ndebug v size = Ok (be_bytes size v).
Proof.
  intros Hs. unfold uint_64_to_8be.
  rewrite c_assert_true by (f_equal; apply andb_true_intro; split; apply Nat.leb_le; lia). cbn [bind]. f_equal.
  unfold be_bytes. rewrite swap64_bytes, <- (take_le_bytes size 8 v) by lia.
  rewrite <- (take_drop size (le_bytes 8 v)) at 1. rewrite reverse_app, drop_app_length'; [done|].
  rewrite length_reverse, length_drop, le_bytes_length. done.
Qed.

(** ** Block sizes *)
Definition enc_size (n : nat) : nat := nth n encoded_block_sizes 0%nat.

(** The encoding of a block of at most 8 bytes. *)
Definition enc_block (d : list Z) : list Z := block_letters (enc_size (length d)) (be_val d).

Lemma enc_size_get n : (n <= 8)%nat -> get encoded_block_sizes n = Ok (enc_size n).
Proof. intros Hn. do 9 (destruct n as [|n]; [done|]). lia. Qed.

(** The letters suffice. *)
Lemma enc_size_enough n : (n <= 8)%nat -> 256 ^ Z.of_nat n <= 58 ^ Z.of_nat (enc_size n) /\ (enc_size n <= 11)%nat.
Proof. intros Hn. do 9 (destruct n as [|n]; [split; [by vm_compute|cbn; lia]|]). lia. Qed.

Lemma enc_block_length d : length (enc_block d) = enc_size (length d).
Proof. apply block_letters_length. Qed.

Lemma be_val_letters d : bytes d -> (length d <= 8)%nat -> 0 <= be_val d < 58 ^ Z.of_nat (enc_size (length d)).
Proof. intros Hd Hl. pose proof (be_val_bound d Hd). pose proof (enc_size_enough (length d) Hl). lia. Qed.

Lemma enc_block_inj d e : bytes d -> bytes e -> length d = length e -> (length d <= 8)%nat -> enc_block d = enc_block e -> d = e.
Proof.
  intros Hd He Hl H8 E. unfold enc_block in E. rewrite <- Hl in E.
  apply block_letters_inj in E; [|by apply be_val_letters|rewrite Hl; apply be_val_letters; [done|lia]].
  by rewrite <- (be_bytes_val d), <- (be_bytes_val e), Hl, E.
Qed.

Lemma encode_block_spec ndebug d :
  bytes d -> (1 <= length d <= 8)%nat ->
  encode_block ndebug d (length d) (replicate (enc_size (length d)) (letter 0)) = Ok (enc_block d).
Proof.
  intros Hd Hl. unfold encode_block, full_block_size.
  rewrite c_assert_true by (f_equal; apply andb_true_intro; split; apply Nat.leb_le; lia). cbn [bind].
  rewrite uint_8be_to_64_spec by done. cbn [bind]. rewrite enc_size_get by lia. cbn [bind].
  pose proof (enc_size_enough (length d) ltac:(lia)) as [_ H11]. pose proof (be_val_letters d Hd ltac:(lia)) as Hv.
  pose proof (encode_digits_spec 12 (be_val d) (enc_size (length d)) [] ltac:(lia) Hv) as H.
  rewrite !app_nil_r in H. exact H.
Qed.

(** ** Reading a block *)

(** The letters [s] are those of the number [v]. *)
Definition denotes (s : list Z) (v : Z) : Prop := s = block_letters (length s) v /\ 0 <= v < 58 ^ Z.of_nat (length s).

Lemma denotes_nil v : denotes [] v <-> v = 0.
Proof. unfold denotes. change (58 ^ Z.of_nat (length [])) with 1. split; [lia|]. intros ->. done. Qed.

(** A letter in front is a higher digit. *)
Lemma denotes_cons c s v :
  denotes (c :: s) v <-> exists d w, is_digit58 d /\ letter d = c /\ denotes s w /\ v = d * 58 ^ Z.of_nat (length s) + w.
Proof.
  assert (forall ds d, Forall is_digit58 ds -> is_digit58 d ->
    undigits (ds ++ [d]) = d * 58 ^ Z.of_nat (length ds) + undigits ds) as Hu.
  { intros ds d _ _. rewrite undigits_app. cbn [undigits]. lia. }
  split.
  - intros [E Hv]. unfold block_letters in E. pose proof (digits_range (length (c :: s)) v) as Hr.
    pose proof (digits_length (length (c :: s)) v) as Hl. rewrite <- (undigits_digits _ v Hv).
    set (ds := digits (length (c :: s)) v) in *. clearbody ds. destruct ds as [|e es _] using rev_ind; [done|].
    rewrite length_app in Hl. cbn [length] in Hl. apply Forall_app in Hr as [Hes He]. apply Forall_cons_1 in He as [He _].
    rewrite reverse_snoc, fmap_cons in E.
    pose proof (f_equal (List.hd 0) E : c = letter e) as Ec. pose proof (f_equal (List.tl (A := Z)) E) as Es. cbn [List.tl] in Es.
    exists e, (undigits es). assert (length es = length s) as Hls by lia.
    split_and!; [done|done| |by rewrite (Hu es e Hes He), Hls]. split; [|rewrite <- Hls; by apply undigits_range].
    unfold block_letters. rewrite <- Hls, digits_undigits by done. exact Es.
  - intros (d & w & Hd & <- & [Es Hw] & ->). unfold is_digit58 in Hd. unfold denotes. cbn [length]. split.
    + unfold block_letters in *. pose proof (digits_range (length s) w) as Hr. pose proof (digits_length (length s) w) as Hl.
      assert (digits (S (length s)) (d * 58 ^ Z.of_nat (length s) + w) = digits (length s) w ++ [d]) as ->.
      { rewrite <- (digits_undigits (digits (length s) w ++ [d])) by (apply Forall_app; split; [done|by constructor]).
        rewrite length_app, Hl. cbn [length]. rewrite Nat.add_1_r. f_equal.
        rewrite Hu, Hl, undigits_digits by done. done. }
      rewrite reverse_snoc, fmap_cons, <- Es. done.
    + rewrite Nat2Z.inj_succ, Z.pow_succ_r by lia. nia.
Qed.

Lemma denotes_unique s v w : denotes s v -> denotes s w -> v = w.
Proof. intros [E1 H1] [E2 H2]. apply (block_letters_inj (length s)); [done|done|congruence]. Qed.

(** The letters from [k] on have been read. *)
Definition letters_read (block : list Z) (k : nat) (st : option (Z * Z)) : Prop :=
  match st with
  | None => forall v, denotes (drop k block) v -> 2 ^ 64 <= v
  | Some (r, o) => denotes (drop k block) r /\ r < 2 ^ 64 /\ o = 58 ^ Z.of_nat (length block - k) mod 2 ^ 64
  end.

Lemma decode_letter_spec ndebug block k st :
  bytes block -> (k < length block <= 11)%nat -> letters_read block (S k) st ->
  returns (decode_letter ndebug block k st) (letters_read block k).
Proof.
  intros Hb Hk Hst. destruct (byte_lookup block k Hb ltac:(lia)) as (c & Ec & Hc).
  assert (drop k block = c :: drop (S k) block) as Ed by (by apply drop_S).
  assert (length (drop (S k) block) = length block - S k)%nat as Ls by (by rewrite length_drop).
  set (p := 58 ^ Z.of_nat (length block - S k)) in *.
  assert (0 < p <= 58 ^ 10) as Hp by (split; [by apply Z.pow_pos_nonneg; lia|apply Z.pow_le_mono_r; lia]).
  destruct st as [[r o]|]; cbn [letters_read] in Hst.
  - destruct Hst as (Hr & Hr64 & Ho). fold p in Ho. rewrite Z.mod_small in Ho by lia. subst o.
    unfold decode_letter. rewrite (get_ok _ _ _ Ec). cbn [bind].
    destruct (reverse_byte c Hc) as (d & -> & [[Hd Hno]|[Hd Hl]]); cbn [bind].
    { destruct (Z.ltb_spec d 0); [|lia]. cbn [returns letters_read]. rewrite Ed. intros v Hv.
      apply denotes_cons in Hv as (e & w & He & Hel & _). by destruct (Hno e He). }
    unfold is_digit58 in Hd. destruct (Z.ltb_spec d 0); [lia|].
    assert (denotes (drop k block) (d * p + r)) as Hden
      by (rewrite Ed; apply denotes_cons; exists d, r; rewrite Ls; done).
    assert (forall v, denotes (drop k block) v -> v = d * p + r) as Hun by (intros v Hv; by apply (denotes_unique (drop k block))).
    assert (0 <= r) as Hr0 by apply Hr. rewrite mul128_spec by (unfold is_u64; lia). cbn [bind].
    rewrite (Z.mul_comm p d). assert (0 <= d * p) by nia. set (n := d * p) in *. clearbody n.
    destruct ((u64 (r + n mod 2 ^ 64) <? r) || negb (n / 2 ^ 64 =? 0)) eqn:E; cbn [returns letters_read].
    + intros v ->%Hun. unfold u64 in E. rewrite orb_true_iff, negb_true_iff, Z.ltb_lt, Z.eqb_neq in E.
      Z.to_euclidean_division_equations; lia.
    + unfold u64 in *. rewrite orb_false_iff, negb_false_iff, Z.ltb_ge, Z.eqb_eq in E.
      assert ((r + n mod 2 ^ 64) mod 2 ^ 64 = n + r /\ n + r < 2 ^ 64) as [-> ?] by (Z.to_euclidean_division_equations; lia).
      split_and!; [done|done|]. unfold alphabet_size. replace (length block - k)%nat with (S (length block - S k)) by lia.
      rewrite Nat2Z.inj_succ, Z.pow_succ_r by lia. fold p. f_equal. lia.
  - cbn [decode_letter returns letters_read]. rewrite Ed. intros v Hv.
    apply denotes_cons in Hv as (d & w & Hd & _ & Hw & ->). specialize (Hst w Hw). rewrite Ls. fold p. unfold is_digit58 in Hd. nia.
Qed.

(** The block size that [n] letters stand for. *)
Definition dec_size (n : nat) : option nat :=
  match n with
  | 0 => Some 0 | 2 => Some 1 | 3 => Some 2 | 5 => Some 3 | 6 => Some 4 | 7 => Some 5 | 9 => Some 6 | 10 => Some 7 | 11 => Some 8
  | _ => None
  end%nat.

Lemma decoded_block_sizes_spec ndebug n :
  (n <= 11)%nat -> decoded_block_sizes ndebug n = Ok (match dec_size n with Some k => Z.of_nat k | None => -1 end).
Proof.
  intros Hn. unfold decoded_block_sizes.
  rewrite c_assert_true by (f_equal; unfold full_encoded_block_size; apply Nat.leb_le; lia). cbn [bind].
  do 12 (destruct n as [|n]; [by vm_compute|]). lia.
Qed.

Lemma dec_size_spec n k : dec_size n = Some k <-> (k <= 8)%nat /\ enc_size k = n.
Proof.
  split.
  - do 12 (destruct n as [|n]; [cbn; intros E; first [discriminate | injection E as <-; split; [lia|done]]|]). done.
  - intros [Hk <-]. do 9 (destruct k as [|k]; [done|]). lia.
Qed.

Lemma block_limit n : (n < 8)%nat -> u64 (Z.shiftl 1 (8 * Z.of_nat n)) = 256 ^ Z.of_nat n.
Proof. intros Hn. do 8 (destruct n as [|n]; [by vm_compute|]). lia. Qed.

(** What [decode_block] answers: the block that has this encoding, or nothing when there is none. *)
Definition block_decoded (block : list Z) (o : option (list Z)) : Prop :=
  match o with
  | Some d => bytes d /\ (1 <= length d <= 8)%nat /\ enc_block d = block
  | None => forall d, bytes d -> (1 <= length d <= 8)%nat -> enc_block d <> block
  end.

Lemma enc_block_denotes d block :
  bytes d -> (length d <= 8)%nat -> enc_block d = block <-> length block = enc_size (length d) /\ denotes block (be_val d).
Proof.
  intros Hd Hl. pose proof (be_val_letters d Hd Hl) as Hv. unfold denotes. split.
  - intros <-. rewrite enc_block_length. split; [done|]. split; [reflexivity|exact Hv].
  - intros [El [Eb _]]. rewrite El in Eb. symmetry. exact Eb.
Qed.

Lemma enc_size_length (d : list Z) n : (length d <= 8)%nat -> (n <= 8)%nat -> enc_size (length d) = enc_size n -> length d = n.
Proof.
  intros Hd Hn E. assert (dec_size (enc_size n) = Some n) as H1 by (by apply dec_size_spec).
  assert (dec_size (enc_size n) = Some (length d)) as H2 by (by apply dec_size_spec). congruence.
Qed.

Lemma decode_block_spec ndebug block :
  bytes block -> (1 <= length block <= 11)%nat ->
  returns (decode_block ndebug block (length block)) (block_decoded block).
Proof.
  intros Hb Hl. unfold decode_block, full_encoded_block_size.
  rewrite c_assert_true by (f_equal; apply andb_true_intro; split; apply Nat.leb_le; lia). cbn [bind].
  rewrite decoded_block_sizes_spec by lia. cbn [bind].
  destruct (dec_size (length block)) as [n|] eqn:En.
  2: { cbn [returns block_decoded]. intros d Hd Hd8 E. rewrite <- E, enc_block_length in En.
    assert (dec_size (enc_size (length d)) = Some (length d)) as H by (apply dec_size_spec; split; [lia|done]). congruence. }
  apply dec_size_spec in En as [Hn En]. destruct (Z.leb_spec (Z.of_nat n) 0) as [H0|H0].
  { assert (n = 0%nat) as -> by lia. cbn in En. lia. }
  eapply returns_bind.
  { apply (for_down_inv (length block) _ _ (letters_read block)).
    - cbn [letters_read]. rewrite drop_all, Nat.sub_diag. split_and!; [by apply denotes_nil|done|done].
    - intros k a Hk Ha. apply decode_letter_spec; [done|lia|done]. }
  intros [[r o]|] Hst; cbn [letters_read] in Hst; rewrite drop_0 in Hst.
  2: { cbn [returns block_decoded]. intros d Hd Hd8 E. apply enc_block_denotes in E as [_ E]; [|done|lia]. apply Hst in E.
    pose proof (be_val_bound d Hd) as Hv. assert (256 ^ Z.of_nat (length d) <= 256 ^ 8) by (apply Z.pow_le_mono_r; lia). lia. }
  destruct Hst as (Hr & Hr64 & _). assert (0 <= r) as Hr0 by apply Hr.
  assert (forall d, bytes d -> (1 <= length d <= 8)%nat -> enc_block d = block -> length d = n /\ be_val d = r) as Hun.
  { intros d Hd Hd8 E. apply enc_block_denotes in E as [El E]; [|done|lia].
    split; [apply enc_size_length; [lia|done|congruence]|by apply (denotes_unique block)]. }
  unfold full_block_size.
  destruct ((Z.of_nat n <? Z.of_nat 8) && (u64 (Z.shiftl 1 (8 * Z.of_nat n)) <=? r)) eqn:Eo.
  - cbn [returns block_decoded]. intros d Hd Hd8 E. destruct (Hun d Hd Hd8 E) as [Ln Ev].
    apply andb_prop in Eo as [E1%Z.ltb_lt E2%Z.leb_le]. pose proof (be_val_bound d Hd) as Hv. rewrite Ln, Ev in Hv.
    rewrite block_limit in E2 by lia. lia.
  - rewrite uint_64_to_8be_spec by lia. cbn [bind returns block_decoded]. rewrite Nat2Z.id.
    destruct (be_bytes_ok n r) as [Bb Bl].
    assert (r < 256 ^ Z.of_nat n) as Hlt.
    { destruct (decide (n = 8%nat)) as [->|Hn8]; [done|]. rewrite block_limit in Eo by lia.
      apply andb_false_iff in Eo as [E1%Z.ltb_ge|E2%Z.leb_gt]; lia. }
    split_and!; [done|lia|lia|]. apply enc_block_denotes; [done|lia|]. rewrite Bl. split; [done|].
    by rewrite be_val_bytes.
Qed.

(** ** Strings of blocks *)

(** The first [q] of a sequence of strings, one after the other. *)
Definition joined (f : nat -> list Z) (q : nat) : list Z := mjoin (f <$> seq 0 q).

Lemma joined_S f q : joined f (S q) = joined f q ++ f q.
Proof. unfold joined. rewrite seq_S, fmap_app, join_app. cbn. by rewrite app_nil_r. Qed.

Lemma joined_ext f g q : (forall i, (i < q)%nat -> f i = g i) -> joined f q = joined g q.
Proof. intros H. induction q as [|q IH]; [done|]. rewrite !joined_S, IH, H by (intros; (apply H || idtac); lia). done. Qed.

Lemma joined_length f q n : (forall i, (i < q)%nat -> length (f i) = n) -> length (joined f q) = (q * n)%nat.
Proof.
  intros H. induction q as [|q IH]; [done|]. rewrite joined_S, length_app, IH, H by (intros; (apply H || idtac); lia). lia.
Qed.

Lemma joined_bytes f q : (forall i, (i < q)%nat -> bytes (f i)) -> bytes (joined f q).
Proof.
  intros H. induction q as [|q IH]; [constructor|]. rewrite joined_S. apply Forall_app. split; [apply IH; intros; apply H; lia|apply H; lia].
Qed.

Lemma joined_split f q i : (i < q)%nat -> exists rest, joined f q = joined f i ++ f i ++ rest.
Proof.
  induction q as [|q IH]; intros Hi; [lia|]. rewrite joined_S. destruct (decide (i = q)) as [->|Hne].
  - exists []. by rewrite app_nil_r.
  - destruct IH as [rest ->]; [lia|]. exists (rest ++ f q). by rewrite <- !app_assoc.
Qed.

Lemma slice_joined f q n i last :
  (forall i, (i < q)%nat -> length (f i) = n) -> (i < q)%nat -> slice (i * n) n (joined f q ++ last) = f i.
Proof.
  intros H Hi. destruct (joined_split f q i Hi) as [rest ->]. unfold slice.
  rewrite <- app_assoc, drop_app_length' by (symmetry; apply joined_length; intros; apply H; lia).
  rewrite <- app_assoc. apply take_app_length'. symmetry. by apply H.
Qed.

Lemma drop_joined f q n last :
  (forall i, (i < q)%nat -> length (f i) = n) -> drop (q * n) (joined f q ++ last) = last.
Proof. intros H. apply drop_app_length'. symmetry. by apply joined_length. Qed.

(** A string is its blocks. *)
Lemma slices_joined s q n : (q * n <= length s)%nat -> joined (fun i => slice (i * n) n s) q ++ drop (q * n) s = s.
Proof.
  intros H. induction q as [|q IH]; [done|]. rewrite joined_S, <- app_assoc.
  rewrite <- (IH ltac:(lia)) at 3. f_equal. unfold slice.
  rewrite <- (take_drop n (drop (q * n) s)) at 2. f_equal. rewrite drop_drop. f_equal. lia.
Qed.

Lemma slice_length o n s : (o + n <= length s)%nat -> length (slice o n s) = n.
Proof. intros H. unfold slice. rewrite length_take, length_drop. lia. Qed.

Lemma slice_bytes o n s : bytes s -> bytes (slice o n s).
Proof. intros H. by apply Forall_take, Forall_drop. Qed.

(** Replacing the blank after a prefix. *)
Lemma splice_blank s t n (x : Z) :
  (length t <= n)%nat -> splice (length s) t (s ++ replicate n x) = s ++ t ++ replicate (n - length t) x.
Proof.
  intros H. unfold splice. rewrite take_app_length. f_equal. f_equal.
  rewrite <- drop_drop, drop_app_length. apply drop_replicate.
Qed.

Lemma slice_blank s m n (x : Z) : (m <= n)%nat -> slice (length s) m (s ++ replicate n x) = replicate m x.
Proof. intros H. unfold slice. rewrite drop_app_length, take_replicate. by rewrite Nat.min_l. Qed.

(** ** Encoding a string *)
Definition enc_string (data : list Z) : list Z :=
  joined (fun i => enc_block (slice (i * 8) 8 data)) (length data / 8) ++ enc_block (drop (length data / 8 * 8) data).

Lemma block_split (n : nat) : (n / 8 * 8 + n mod 8 = n /\ n mod 8 < 8)%nat.
Proof. pose proof (Nat.Div0.div_mod n 8). pose proof (Nat.mod_upper_bound n 8). lia. Qed.

Lemma full_blocks data i : (i < length data / 8)%nat -> length (slice (i * 8) 8 data) = 8%nat.
Proof. intros Hi. destruct (block_split (length data)). apply slice_length. nia. Qed.

Lemma full_block_letters data i : (i < length data / 8)%nat -> length (enc_block (slice (i * 8) 8 data)) = 11%nat.
Proof. intros Hi. by rewrite enc_block_length, full_blocks. Qed.

Lemma encode_spec ndebug data : bytes data -> encode ndebug data = Ok (enc_string data).
Proof.
  intros Hd. unfold encode. destruct (Nat.eqb_spec (length data) 0) as [H0|H0].
  { apply length_zero_iff_nil in H0 as ->. done. }
  destruct (block_split (length data)) as [Hsplit Hmod]. unfold full_block_size, full_encoded_block_size, enc_string.
  set (q := (length data / 8)%nat) in *. set (m := (length data mod 8)%nat) in *.
  rewrite enc_size_get by lia. cbn [bind]. change (get alphabet 0) with (Ok (letter 0)). cbn [bind].
  set (f := fun i => enc_block (slice (i * 8) 8 data)).
  assert (forall i, (i < q)%nat -> length (f i) = 11%nat) as Hf by (intros; by apply full_block_letters).
  match goal with |- bind ?loop _ = _ =>
    assert (returns loop (fun r => r = joined f q ++ replicate (enc_size m) (letter 0))) as H end.
  { eapply returns_mono; [apply (for_inv q _ 0 _ (fun k r => r = joined f k ++ replicate ((q - k) * 11 + enc_size m) (letter 0)))|].
    - rewrite Nat.sub_0_r. done.
    - intros k r Hk ->. assert (length (joined f k) = (k * 11)%nat) as Lj by (apply joined_length; intros; apply Hf; lia).
      rewrite <- Lj, slice_blank by nia. pose proof (full_blocks data k ltac:(lia)) as L8.
      pose proof (encode_block_spec ndebug (slice (k * 8) 8 data) (slice_bytes _ _ _ Hd) ltac:(lia)) as HB.
      rewrite L8 in HB. change (enc_size 8) with 11%nat in HB. rewrite HB. cbn [bind returns].
      change (enc_block (slice (k * 8) 8 data)) with (f k).
      rewrite splice_blank, joined_S, <- app_assoc by (rewrite (Hf k) by lia; nia).
      rewrite (Hf k) by lia. do 3 f_equal. nia.
    - intros r ->. rewrite Nat.add_0_l, Nat.sub_diag. done. }
  apply returns_inv in H as (r & -> & ->). cbn [bind].
  assert (length (joined f q) = (q * 11)%nat) as Lj by (by apply joined_length).
  destruct (Nat.ltb_spec 0 m) as [Hm|Hm].
  - assert (length (drop (q * 8) data) = m) as Ld by (rewrite length_drop; lia).
    assert (slice (q * 8) m data = drop (q * 8) data) as -> by (unfold slice; apply take_ge; lia).
    pose proof (encode_block_spec ndebug (drop (q * 8) data) (Forall_drop _ _ _ Hd) ltac:(lia)) as HB. rewrite Ld in HB.
    rewrite <- Lj, slice_blank by lia. rewrite HB. cbn [bind]. f_equal.
    rewrite splice_blank, enc_block_length, Ld, Nat.sub_diag by (rewrite enc_block_length, Ld; lia).
    by rewrite app_nil_r.
  - assert (m = 0%nat) as -> by lia. f_equal. f_equal. rewrite drop_ge by lia. done.
Qed.

(** ** Decoding a string *)

(** What [decode] answers: the string that has this encoding, or nothing when there is none. *)
Definition string_decoded (enc : list Z) (o : option (list Z)) : Prop :=
  match o with
  | Some d => bytes d /\ enc_string d = enc
  | None => forall d, bytes d -> enc_string d <> enc
  end.

Lemma enc_size_small n : (n < 8)%nat -> (enc_size n < 11)%nat.
Proof. intros Hn. do 8 (destruct n as [|n]; [cbn; lia|]). lia. Qed.

(** The number of blocks of an encoding. *)
Lemma enc_string_shape d :
  (length (enc_string d) = length d / 8 * 11 + enc_size (length d mod 8) /\
   length (enc_string d) / 11 = length d / 8 /\ length (enc_string d) mod 11 = enc_size (length d mod 8))%nat.
Proof.
  destruct (block_split (length d)) as [Hs Hm]. pose proof (enc_size_small _ Hm) as He.
  assert (length (enc_string d) = length d / 8 * 11 + enc_size (length d mod 8))%nat as L.
  { unfold enc_string. rewrite length_app, (joined_length _ _ 11) by (intros; by apply full_block_letters).
    rewrite enc_block_length, length_drop. do 2 f_equal. lia. }
  split; [done|]. rewrite L. split.
  - rewrite Nat.div_add_l, (Nat.div_small (enc_size _)) by lia. lia.
  - rewrite Nat.add_comm, Nat.Div0.mod_add, Nat.mod_small by lia. done.
Qed.

Lemma enc_string_slice d i :
  (i < length d / 8)%nat -> slice (i * 11) 11 (enc_string d) = enc_block (slice (i * 8) 8 d).
Proof. intros Hi. apply (slice_joined (fun i => enc_block (slice (i * 8) 8 d))); [|done]. intros; by apply full_block_letters. Qed.

Lemma enc_string_last d : drop (length d / 8 * 11) (enc_string d) = enc_block (drop (length d / 8 * 8) d).
Proof. apply drop_joined. intros; by apply full_block_letters. Qed.

(** A string put together from blocks. *)
Lemma enc_string_joined g q t :
  (forall i, (i < q)%nat -> length (g i) = 8%nat) -> (length t < 8)%nat ->
  enc_string (joined g q ++ t) = joined (fun i => enc_block (g i)) q ++ enc_block t.
Proof.
  intros Hg Ht. assert (length (joined g q ++ t) / 8 = q)%nat as E.
  { rewrite length_app, (joined_length g q 8), Nat.div_add_l, Nat.div_small by (done || lia). lia. }
  unfold enc_string. rewrite E, (drop_joined g q 8) by done. f_equal. apply joined_ext. intros i Hi.
  by rewrite (slice_joined g q 8) by done.
Qed.

(** The blocks decoded so far. *)
Definition blocks_decoded (enc : list Z) (q r k : nat) (st : option (list Z)) : Prop :=
  match st with
  | None => exists i, (i < q)%nat /\ forall b, bytes b -> length b = 8%nat -> enc_block b <> slice (i * 11) 11 enc
  | Some data => exists g, (forall i, (i < k)%nat -> bytes (g i) /\ length (g i) = 8%nat /\ enc_block (g i) = slice (i * 11) 11 enc) /\
      data = joined g k ++ replicate ((q - k) * 8 + r) 0
  end.

Lemma decode_full_spec ndebug enc q r k st :
  bytes enc -> (k < q)%nat -> (q * 11 <= length enc)%nat -> blocks_decoded enc q r k st ->
  returns (decode_full ndebug enc k st) (blocks_decoded enc q r (S k)).
Proof.
  intros Hb Hk Hq Hst. destruct st as [data|]; [|exact Hst]. destruct Hst as (g & Hg & ->).
  unfold decode_full, full_encoded_block_size, full_block_size. assert (length (slice (k * 11) 11 enc) = 11%nat) as L by (apply slice_length; nia).
  pose proof (decode_block_spec ndebug (slice (k * 11) 11 enc) (slice_bytes _ _ _ Hb) ltac:(lia)) as HB. rewrite L in HB.
  eapply returns_bind; [exact HB|]. intros [b|] Hd; cbn [block_decoded] in Hd; cbn [returns blocks_decoded].
  - destruct Hd as (Bb & Lb & Eb).
    assert (length b = 8%nat) as L8 by (apply enc_size_length; [lia|lia|]; by rewrite <- enc_block_length, Eb, L).
    set (g' := fun i => if decide (i = k) then b else g i). exists g'.
    assert (joined g' k = joined g k) as Ej by (apply joined_ext; intros i Hi; unfold g'; by rewrite decide_False by lia).
    split.
    + intros i Hi. unfold g'. destruct (decide (i = k)) as [->|Hne]; [done|]. apply Hg. lia.
    + assert (length (joined g k) = (k * 8)%nat) as Lj by (apply joined_length; intros i Hi; by apply Hg).
      rewrite <- Lj, splice_blank, joined_S, Ej, <- app_assoc by nia. unfold g' at 1. rewrite decide_True by done.
      do 3 f_equal. nia.
  - exists k. split; [done|]. intros b Bb Lb. apply Hd; [done|lia].
Qed.

Lemma decode_spec ndebug enc : bytes enc -> returns (decode ndebug enc) (string_decoded enc).
Proof.
  intros Hb. unfold decode. destruct (Nat.eqb_spec (length enc) 0) as [H0|H0].
  { apply length_zero_iff_nil in H0 as ->. split; [constructor|done]. }
  unfold full_block_size, full_encoded_block_size. pose proof (Nat.Div0.div_mod (length enc) 11) as Hs.
  pose proof (Nat.mod_upper_bound (length enc) 11 ltac:(lia)) as Hm.
  set (q := (length enc / 11)%nat) in *. set (m := (length enc mod 11)%nat) in *.
  rewrite decoded_block_sizes_spec by lia. cbn [bind].
  assert (forall d, enc_string d = enc -> (length d / 8)%nat = q /\ enc_size (length d mod 8) = m) as Hshape.
  { intros d E. destruct (enc_string_shape d) as (_ & E1 & E2). rewrite E in E1, E2. done. }
  destruct (dec_size m) as [r|] eqn:Er.
  2: { cbn. intros d Hd E. destruct (Hshape d E) as [_ E2]. destruct (block_split (length d)) as [_ H8].
    assert (dec_size m = Some (length d mod 8)%nat) by (apply dec_size_spec; split; [lia|done]). congruence. }
  apply dec_size_spec in Er as [Hr Er]. destruct (Z.ltb_spec (Z.of_nat r) 0); [lia|]. rewrite Nat2Z.id.
  assert (r < 8)%nat as Hr8 by (destruct (decide (r = 8%nat)) as [->|]; [cbn in Er; lia|lia]).
  eapply returns_bind.
  { apply (for_inv q _ 0 _ (blocks_decoded enc q r)).
    - exists (fun _ => []). split; [intros; lia|]. by rewrite Nat.sub_0_r.
    - intros k st Hk Hst. apply decode_full_spec; [done|lia|lia|done]. }
  intros [data|] Hst; cbn [blocks_decoded] in Hst.
  2: { destruct Hst as (i & Hi & Hno). cbn. intros d Hd E. destruct (Hshape d E) as [E1 _].
    apply (Hno (slice (i * 8) 8 d)); [by apply slice_bytes|apply full_blocks; lia|]. rewrite <- E. symmetry. apply enc_string_slice. lia. }
  destruct Hst as (g & Hg & ->). rewrite Nat.add_0_l, Nat.sub_diag in *. cbn [Nat.mul Nat.add].
  assert (joined (fun i => enc_block (g i)) q ++ drop (q * 11) enc = enc) as Ejoin.
  { rewrite <- (slices_joined enc q 11) at 2 by lia. f_equal. apply joined_ext. intros i Hi. by apply Hg. }
  assert (forall i, (i < q)%nat -> length (g i) = 8%nat) as Hg8 by (intros i Hi; by apply Hg).
  assert (bytes (joined g q)) as Hgb by (apply joined_bytes; intros i Hi; by apply Hg).
  destruct (Nat.ltb_spec 0 m) as [Hm0|Hm0].
  - assert (slice (q * 11) m enc = drop (q * 11) enc) as -> by (unfold slice; apply take_ge; rewrite length_drop; lia).
    assert (length (drop (q * 11) enc) = m) as L by (rewrite length_drop; lia).
    pose proof (decode_block_spec ndebug (drop (q * 11) enc) (Forall_drop _ _ _ Hb) ltac:(lia)) as HB. rewrite L in HB.
    eapply returns_bind; [exact HB|]. intros [b|] Hd; cbn [block_decoded] in Hd; cbn [returns string_decoded].
    + destruct Hd as (Bb & Lb & Eb).
      assert (length b = r) as Lr by (apply enc_size_length; [lia|lia|]; by rewrite <- enc_block_length, Eb, L).
      assert (length (joined g q) = (q * 8)%nat) as Lj by (by apply joined_length).
      rewrite <- Lj, splice_blank, Lr, Nat.sub_diag, app_nil_r by lia.
      split; [apply Forall_app; by split|]. rewrite enc_string_joined by (done || lia). by rewrite Eb.
    + intros d Hdb E. destruct (Hshape d E) as [E1 E2]. destruct (block_split (length d)) as [Hsd H8].
      assert (length (drop (q * 8) d) = length d mod 8)%nat as Ld by (rewrite length_drop, <- E1; lia).
      apply (Hd (drop (q * 8) d)); [by apply Forall_drop| |].
      * rewrite Ld. assert (length d mod 8 <> 0)%nat as N0 by (intros E0; rewrite E0 in E2; change (enc_size 0) with 0%nat in E2; lia). clear -N0 H8. lia.
      * rewrite <- E, <- E1. symmetry. apply enc_string_last.
  - assert (dec_size 0 = Some r) as [= <-] by (apply dec_size_spec; split; [lia|lia]).
    rewrite app_nil_r. cbn [returns string_decoded]. split; [done|].
    rewrite <- (app_nil_r (joined g q)), enc_string_joined by (done || cbn; lia). etransitivity; [|exact Ejoin]. f_equal.
    rewrite drop_ge by lia. done.
Qed.

(** Different strings have different encodings. *)
Lemma enc_string_inj d e : bytes d -> bytes e -> enc_string d = enc_string e -> d = e.
Proof.
  intros Hd He E. destruct (enc_string_shape d) as (_ & Dq & Dm), (enc_string_shape e) as (_ & Eq & Em).
  rewrite E in Dq, Dm. rewrite Eq in Dq. rewrite Em in Dm.
  destruct (block_split (length d)) as [Sd Md], (block_split (length e)) as [Se Me].
  assert (dec_size (enc_size (length d mod 8)) = Some (length d mod 8)%nat) as H1 by (apply dec_size_spec; split; [lia|done]).
  assert (dec_size (enc_size (length d mod 8)) = Some (length e mod 8)%nat) as H2 by (apply dec_size_spec; split; [lia|done]).
  assert (length d mod 8 = length e mod 8)%nat as Hm by congruence. assert (length d = length e) as Hl by lia.
  rewrite <- (slices_joined d (length d / 8) 8), <- (slices_joined e (length e / 8) 8) by lia. rewrite <- Hl. f_equal.
  - apply joined_ext. intros i Hi. apply enc_block_inj; try by apply slice_bytes.
    + rewrite !full_blocks by lia. done.
    + rewrite full_blocks by lia. done.
    + rewrite <- !enc_string_slice by lia. by rewrite E.
  - apply enc_block_inj; [by apply Forall_drop|by apply Forall_drop|rewrite !length_drop; lia|rewrite length_drop; lia|].
    rewrite Hl at 2. rewrite <- !enc_string_last. by rewrite E, Hl.
Qed.

(** ** Addresses *)
Definition checksum (s : list Z) : list Z := take addr_checksum_size (Sponge.hash 136 HASH_SIZE s).

Definition addr_string (s : list Z) : list Z := enc_string (s ++ checksum s).

Lemma checksum_ok s : bytes (checksum s) /\ length (checksum s) = addr_checksum_size.
Proof.
  destruct (hash_bytes 136 HASH_SIZE s) as [Hb Hl]; [lia|unfold HASH_SIZE; lia|]. unfold checksum.
  split; [by apply Forall_take|]. rewrite length_take, Hl. done.
Qed.

Lemma canonical_bytes first s : canonical first s -> bytes s.
Proof.
  revert first. induction s as [|b s IH]; intros first H; [done|]. destruct (decide (s = [])) as [->|Hne].
  - destruct H as [H _]. constructor; [unfold is_byte; lia|constructor].
  - rewrite canonical_cons in H by done. destruct H as [H1 H2]. constructor; [unfold is_byte; lia|by eapply IH].
Qed.

Lemma encode_addr_spec ndebug tag data :
  is_u64 tag -> bytes data ->
  exists pre, canonical true pre /\ varint_val pre = tag /\ encode_addr ndebug tag data = Ok (addr_string (pre ++ data)).
Proof.
  intros Ht Hd. pose proof (write_varint_spec 9 tag) as H. unfold is_u64 in Ht.
  specialize (H ltac:(change (128 ^ Z.of_nat 10) with (2 ^ 70); lia)). apply returns_inv in H as (pre & Ep & Hc & Hv & _).
  exists pre. split_and!; [done|done|]. unfold encode_addr, get_varint_data, VARINT_SIZE. rewrite Ep. cbn [bind].
  rewrite cn_fast_hash_spec. cbn [bind]. apply encode_spec. apply Forall_app. split.
  - apply Forall_app. split; [by eapply canonical_bytes|done].
  - apply checksum_ok.
Qed.

(** What [decode_addr] answers: a tag read from the front of a string with a good checksum. *)
Definition addr_decoded (addr : list Z) (o : option (Z * list Z)) : Prop :=
  match o with
  | Some (tag, data) => exists pre, bytes (pre ++ data) /\ addr = addr_string (pre ++ data) /\ tag = varint_val pre /\
      (canonical true pre \/ data = [] /\ pre <> [] /\ unfinished pre)
  | None => forall pre data, canonical true pre -> varint_val pre < 2 ^ 64 -> bytes data -> addr <> addr_string (pre ++ data)
  end.

Lemma decode_addr_spec ndebug addr : bytes addr -> returns (decode_addr ndebug addr) (addr_decoded addr).
Proof.
  intros Hb. unfold decode_addr. eapply returns_bind; [by apply decode_spec|]. intros [s|] Hs; cbn [string_decoded] in Hs.
  2: { intros pre data Hc _ Hd E. apply (Hs ((pre ++ data) ++ checksum (pre ++ data))); [|symmetry; exact E]. apply Forall_app. split; [|apply checksum_ok].
    apply Forall_app. split; [by eapply canonical_bytes|done]. }
  destruct Hs as [Bs <-].
  assert (forall t, bytes t -> enc_string s = addr_string t -> s = t ++ checksum t) as Hinj.
  { intros t Ht E. apply enc_string_inj; [done| |done]. apply Forall_app. split; [done|apply checksum_ok]. }
  assert (forall pre data, canonical true pre -> bytes data -> bytes (pre ++ data)) as Hpb.
  { intros pre data Hc Hd. apply Forall_app. split; [by eapply canonical_bytes|done]. }
  destruct (Nat.leb_spec (length s) addr_checksum_size) as [Hl|Hl].
  { intros pre data Hc _ Hd E. apply Hinj in E; [|by apply Hpb]. rewrite E, !length_app, (proj2 (checksum_ok _)) in Hl.
    apply canonical_nonempty in Hc. destruct pre; [done|]. cbn in Hl. unfold addr_checksum_size in Hl. lia. }
  set (t := take (length s - addr_checksum_size) s). assert (bytes t) as Bt by (by apply Forall_take).
  assert (s = t ++ drop (length s - addr_checksum_size) s) as Es by (symmetry; apply take_drop).
  rewrite cn_fast_hash_spec. cbn [bind].
  change (take addr_checksum_size (Sponge.hash 136 HASH_SIZE t)) with (checksum t).
  assert (forall u, bytes u -> s = u ++ checksum u -> t = u /\ drop (length s - addr_checksum_size) s = checksum u) as Hsplit.
  { intros u Hu E. apply app_inj_2; [|by rewrite <- Es]. rewrite (proj2 (checksum_ok u)), length_drop. lia. }
  case_bool_decide as Hsum; cbn [negb].
  2: { intros pre data Hc _ Hd E. apply Hinj in E; [|by apply Hpb]. apply Hsplit in E as [Et Ec]; [|by apply Hpb].
    apply Hsum. rewrite Et. by rewrite Ec. }
  assert (enc_string s = addr_string t) as Ea by (unfold addr_string; rewrite Hsum; by rewrite <- Es).
  destruct (read_varint 64 t) as [r v] eqn:Er. destruct (Z.leb_spec r 0) as [Hr|Hr].
  - intros pre data Hc Hv Hd E. apply Hinj in E; [|by apply Hpb]. apply Hsplit in E as [Et _]; [|by apply Hpb].
    rewrite Et, read_varint_canonical in Er by (done || lia). injection Er as <- _.
    apply canonical_nonempty in Hc. destruct pre; [done|]. cbn in Hr. lia.
  - apply read_varint_spec in Er as (n & Hn & -> & -> & Hcan); [|lia|done|done]. rewrite Nat2Z.id.
    cbn [returns addr_decoded]. exists (take n t). rewrite take_drop. split_and!; [done|done|done|].
    destruct Hcan as [Hcan|[-> Hu]]; [by left|]. right. rewrite drop_all, take_ge by done. split_and!; [done| |done].
    intros ->. cbn in Hr. lia.
Qed.
