(* ===== verification/TreeHash.v ===== *)
(** * Tree hash

    [src/src/crypto/tree-hash.c]: the root hash of the transactions of a
    block.  The array of hashes is a list of byte strings of [HASH_SIZE]
    bytes; [cn_fast_hash(x[i], 64, _)] reads the two consecutive entries [i]
    and [i + 1]. *)

From stdpp Require Import base list numbers.
From Stdlib Require Import ZArith Lia.
From S2P Require Import Prelude Bytes Keccak KeccakFacts.

Abbreviation hash_str := (list Z).

(** [while (pow < count) pow <<= 1;] *)
Fixpoint pow_loop (fuel : nat) (pow count : Z) : result Z :=
  match fuel with
  | O => Fail OutOfFuel
  | S fuel => if pow <? count then pow_loop fuel (u64 (Z.shiftl pow 1)) count else Ok pow
  end.

Definition tree_hash_cnt (ndebug : bool) (fuel : nat) (count : Z) : result Z :=
  let! _ := c_assert ndebug (Ok (count >=? 3)) in
  let! _ := c_assert ndebug (Ok (count <=? 0x10000000)) in
  let pow := 2 in
  let! pow := pow_loop fuel pow count in
  Ok (Z.shiftr pow 1).

(** The 64 bytes at entry [i]. *)
Definition pair_at (h : list hash_str) (i : nat) : result (list Z) :=
  let! a := get h i in
  let! b := get h (i + 1) in
  Ok (a ++ b).

(** [memcpy(ints, hashes, n * HASH_SIZE)] *)
Definition copy_hashes (n : nat) (hashes ints : list hash_str) : result (list hash_str) :=
  for_ n (fun i ints => let! x := get hashes i in set ints i x) 0 ints.

(** [for (i = k, j = k; j < k + n; i += 2, ++j) cn_fast_hash(hashes[i], 64, ints[j])] *)
Definition hash_pairs (k n : nat) (hashes ints : list hash_str) : result (list hash_str) :=
  for_ n (fun t ints =>
    let! d := pair_at hashes (k + 2 * t) in
    let! x := cn_fast_hash d in
    set ints (k + t) x) 0 ints.

(** [for (i = 0, j = 0; j < cnt; i += 2, ++j) cn_fast_hash(ints[i], 64, ints[j])], in place *)
Definition reduce_level (cnt : nat) (ints : list hash_str) : result (list hash_str) :=
  for_ cnt (fun j ints =>
    let! d := pair_at ints (2 * j) in
    let! x := cn_fast_hash d in
    set ints j x) 0 ints.

(** [while (cnt > 2)] *)
Fixpoint reduce (fuel cnt : nat) (ints : list hash_str) : result (list hash_str) :=
  match fuel with
  | O => Fail OutOfFuel
  | S fuel =>
      if (2 <? cnt)%nat then
        let cnt := (cnt / 2)%nat in
        let! ints := reduce_level cnt ints in
        reduce fuel cnt ints
      else Ok ints
  end.

(** A [size_t] halves or doubles at most 64 times before it is 0. *)
Definition SIZE_BITS : nat := 64.

Definition tree_hash (ndebug : bool) (hashes : list hash_str) (count : nat) : result hash_str :=
  let! _ := c_assert ndebug (Ok (0 <? count)%nat) in
  if (count =? 1)%nat then get hashes 0
  else if (count =? 2)%nat then
    let! d := pair_at hashes 0 in
    cn_fast_hash d
  else
    let! cntz := tree_hash_cnt ndebug SIZE_BITS (Z.of_nat count) in
    let cnt := Z.to_nat cntz in
    let ints := replicate cnt (replicate HASH_SIZE 0) in
    let k := Z.to_nat (u64 (2 * cntz - Z.of_nat count)) in
    let! ints := copy_hashes k hashes ints in
    let! ints := hash_pairs k (cnt - k) hashes ints in
    let i := (k + 2 * (cnt - k))%nat in
    let! _ := c_assert ndebug (Ok (i =? count)%nat) in
    let! ints := reduce SIZE_BITS cnt ints in
    let! d := pair_at ints 0 in
    cn_fast_hash d.

(** ** Correctness of the tree hash

    The in-place, bottom-up computation of [tree_hash] against the recursive
    Merkle tree, and the binding of the root to the leaves. *)

(** ** The specification: a Merkle tree over a hash function [H] *)
Module Merkle.
Section Tree.
Context (H : list Z -> list Z).

(** The perfect tree of depth [n], top down. *)
Fixpoint tree (n : nat) (l : list hash_str) : hash_str :=
  match n with
  | O => default [] (head l)
  | S n => H (tree n (take (2 ^ n) l) ++ tree n (drop (2 ^ n) l))
  end.

(** The hashes of consecutive pairs. *)
Fixpoint pairs (l : list hash_str) : list hash_str :=
  match l with
  | a :: b :: l => H (a ++ b) :: pairs l
  | _ => []
  end.

(** The depth of the smallest perfect tree with [count] leaves. *)
Definition depth (count : nat) : nat := Nat.log2_up count.

(** Leaves that are missing to fill it: that many of the first leaves sit one level up. *)
Definition missing (count : nat) : nat := 2 ^ depth count - count.

Definition level (l : list hash_str) : list hash_str :=
  let k := missing (length l) in take k l ++ pairs (drop k l).

Definition root (l : list hash_str) : hash_str :=
  match l with
  | [x] => x
  | _ => tree (depth (length l) - 1) (level l)
  end.
End Tree.
End Merkle.

(** ** Pairs and perfect trees *)
Section Pairs.
Context (H : list Z -> list Z).
Abbreviation tree := (Merkle.tree H).
Abbreviation pairs := (Merkle.pairs H).

Lemma pairs_length m l : length l = (2 * m)%nat -> length (pairs l) = m.
Proof.
  revert l. induction m as [|m IH]; intros [|a [|b l]] Hl; simpl in *; try lia.
  f_equal. apply IH. lia.
Qed.

Lemma pairs_app m l l' : length l = (2 * m)%nat -> pairs (l ++ l') = pairs l ++ pairs l'.
Proof.
  revert l. induction m as [|m IH]; intros [|a [|b l]] Hl; simpl in *; try lia; [done|].
  f_equal. apply IH. lia.
Qed.

Lemma pairs_split m l :
  (2 * m <= length l)%nat ->
  pairs (take (2 * m) l) = take m (pairs l) /\ pairs (drop (2 * m) l) = drop m (pairs l).
Proof.
  intros Hl. rewrite <- (take_drop (2 * m) l) at 2 4.
  assert (length (take (2 * m) l) = 2 * m)%nat as E by (rewrite length_take; lia).
  rewrite (pairs_app m) by done. pose proof (pairs_length m _ E) as Hp.
  by rewrite take_app_length', drop_app_length' by done.
Qed.

Lemma pairs_lookup l t a b :
  l !! (2 * t)%nat = Some a -> l !! (2 * t + 1)%nat = Some b -> pairs l !! t = Some (H (a ++ b)).
Proof.
  revert l. induction t as [|t IH]; intros [|x [|y l]] Ha Hb; try done.
  - change (Some x = Some a) in Ha. change (Some y = Some b) in Hb. by simplify_eq.
  - replace (2 * S t)%nat with (S (S (2 * t))) in * by lia.
    cbn [lookup list_lookup Nat.add Merkle.pairs] in *. by apply IH.
Qed.

(** One level of hashing pairs leaves a tree of one level less. *)
Lemma tree_pairs n l : length l = (2 ^ S n)%nat -> tree (S n) l = tree n (pairs l).
Proof.
  revert l. induction n as [|n IH]; intros l Hl.
  - destruct l as [|a [|b [|]]]; try discriminate. done.
  - change (tree (S (S n)) l) with (H (tree (S n) (take (2 ^ S n) l) ++ tree (S n) (drop (2 ^ S n) l))).
    change (tree (S n) (pairs l)) with (H (tree n (take (2 ^ n) (pairs l)) ++ tree n (drop (2 ^ n) (pairs l)))).
    rewrite Nat.pow_succ_r' in Hl.
    rewrite !IH by (rewrite ?length_take, ?length_drop; lia).
    rewrite Nat.pow_succ_r'. destruct (pairs_split (2 ^ n) l) as [-> ->]; [rewrite Hl; simpl; lia|]. done.
Qed.
End Pairs.

(** ** The number of leaves of the level above *)
Lemma u64_double i : 0 <= i < 63 -> u64 (Z.shiftl (2 ^ i) 1) = 2 ^ (i + 1).
Proof.
  intros Hi. rewrite Z.shiftl_mul_pow2, <- Z.pow_add_r by lia. apply Z.mod_small.
  split; [lia|]. apply Z.pow_lt_mono_r; lia.
Qed.

Lemma pow_loop_spec count n :
  2 ^ (n - 1) < count <= 2 ^ n -> n <= 63 -> forall fuel i,
  1 <= i <= n -> n - i < Z.of_nat fuel -> pow_loop fuel (2 ^ i) count = Ok (2 ^ n).
Proof.
  intros Hc Hn. induction fuel as [|fuel IH]; intros i Hi Hf; [lia|]. cbn [pow_loop].
  destruct (decide (i = n)) as [->|].
  - by destruct (Z.ltb_spec (2 ^ n) count); [lia|].
  - assert (2 ^ i <= 2 ^ (n - 1)) by (apply Z.pow_le_mono_r; lia).
    destruct (Z.ltb_spec (2 ^ i) count); [|lia]. rewrite u64_double by lia. apply IH; lia.
Qed.

(** Above [2^63] the shift drops the only bit that is set and the loop never ends. *)
Lemma pow_loop_diverges count fuel pow :
  2 ^ 63 < count -> pow = 0 \/ (exists i, pow = 2 ^ i /\ 0 <= i <= 63) ->
  pow_loop fuel pow count = Fail OutOfFuel.
Proof.
  intros Hc. revert pow. induction fuel as [|fuel IH]; intros pow Hp; [done|]. cbn [pow_loop].
  assert (pow < count) as Hlt.
  { destruct Hp as [->|(i & -> & Hi)]; [lia|]. assert (2 ^ i <= 2 ^ 63) by (apply Z.pow_le_mono_r; lia). lia. }
  destruct (Z.ltb_spec pow count); [|lia]. apply IH.
  destruct Hp as [->|(i & -> & Hi)]; [by left|]. destruct (decide (i = 63)) as [->|]; [by left|].
  right. exists (i + 1). split; [apply u64_double|]; lia.
Qed.

Lemma depth_bounds count :
  (2 <= count)%nat ->
  (1 <= Merkle.depth count)%nat /\ (2 ^ (Merkle.depth count - 1) < count <= 2 ^ Merkle.depth count)%nat.
Proof.
  intros Hc. unfold Merkle.depth. pose proof (Nat.log2_up_spec count ltac:(lia)) as Hs.
  rewrite Nat.sub_1_r. split; [|done]. pose proof (Nat.log2_up_pos count ltac:(lia)). lia.
Qed.

Lemma tree_hash_cnt_ok ndebug count :
  (3 <= count)%nat -> Z.of_nat count <= 2 ^ 28 ->
  tree_hash_cnt ndebug SIZE_BITS (Z.of_nat count) = Ok (Z.of_nat (2 ^ (Merkle.depth count - 1))).
Proof.
  intros H3 Hc. unfold tree_hash_cnt, c_assert.
  replace (Z.of_nat count >=? 3) with true by lia.
  replace (Z.of_nat count <=? 0x10000000) with true by lia.
  destruct (depth_bounds count) as [H1 [Hl Hu]]; [lia|]. set (n := Merkle.depth count) in *.
  assert (Z.of_nat (2 ^ (n - 1)) = 2 ^ (Z.of_nat n - 1)) as E by (rewrite Nat2Z.inj_pow; f_equal; lia).
  assert (Z.of_nat (2 ^ n) = 2 ^ Z.of_nat n) as E' by (by rewrite Nat2Z.inj_pow).
  assert (Z.of_nat n <= 28) as Hn.
  { destruct (decide (Z.of_nat n <= 28)); [done|].
    assert (2 ^ 28 <= 2 ^ (Z.of_nat n - 1)) by (apply Z.pow_le_mono_r; lia). lia. }
  destruct ndebug; cbn [bind]; change (pow_loop SIZE_BITS 2) with (pow_loop SIZE_BITS (2 ^ 1));
    rewrite (pow_loop_spec (Z.of_nat count) (Z.of_nat n) ltac:(lia) ltac:(lia) SIZE_BITS 1) by (unfold SIZE_BITS; lia);
    cbn [bind]; rewrite Z.shiftr_div_pow2, E by lia; f_equal;
    replace (Z.of_nat n) with (Z.of_nat n - 1 + 1) at 1 by lia;
    rewrite Z.pow_add_r by lia; by apply Z.div_mul.
Qed.

(** ** The array loops *)
Section Loops.
Context {H : list Z -> list Z} `{HashContract cn_fast_hash H}.
Abbreviation pairs := (Merkle.pairs H).
Abbreviation tree := (Merkle.tree H).

Lemma pair_at_ok (h : list hash_str) i (a b : hash_str) :
  h !! i = Some a -> h !! (i + 1)%nat = Some b -> pair_at h i = Ok (a ++ b).
Proof. intros Ha Hb. unfold pair_at. by rewrite (get_ok _ _ _ Ha), (get_ok _ _ _ Hb). Qed.

Lemma insert_app_length (l r : list hash_str) x y :
  <[length l := x]> (l ++ y :: r) = (l ++ [x]) ++ r.
Proof. by rewrite insert_app_r_alt, Nat.sub_diag, <- app_assoc by lia. Qed.

(** A loop that fills an array from the left. *)
Lemma fill_spec n (f : nat -> list hash_str -> result hash_str) (out pre rest : list hash_str) :
  length out = n -> (n <= length rest)%nat ->
  (forall t x, out !! t = Some x -> f t (pre ++ take t out ++ drop t rest) = Ok x) ->
  for_ n (fun t a => let! x := f t a in set a (length pre + t) x) 0 (pre ++ rest) =
  Ok (pre ++ out ++ drop n rest).
Proof.
  intros Ho Hr Hf.
  match goal with |- for_ n ?g 0 _ = _ =>
    assert (returns (for_ n g 0 (pre ++ rest)) (fun a => a = pre ++ take n out ++ drop n rest)) as G;
    [apply (for_inv n g 0 _ (fun t a => a = pre ++ take t out ++ drop t rest))|]
  end; [done| |].
  - intros t a Ht ->. destruct (lookup_lt_is_Some_2 out t) as [x Hx]; [lia|].
    destruct (lookup_lt_is_Some_2 rest t) as [y Hy]; [lia|].
    rewrite (Hf t x Hx). cbn [bind].
    assert (length (take t out) = t) as Hlt by (rewrite length_take; lia).
    rewrite set_ok by (rewrite !length_app, length_drop; lia). cbn [returns].
    rewrite (drop_S _ _ _ Hy), app_assoc.
    replace (length pre + t)%nat with (length (pre ++ take t out)) by (rewrite length_app; lia).
    rewrite insert_app_length, (take_S_r _ _ _ Hx). by rewrite <- !app_assoc.
  - apply returns_inv in G as (? & -> & ->). by rewrite (take_ge out) by lia.
Qed.

Lemma copy_hashes_spec k hashes ints :
  (k <= length hashes)%nat -> (k <= length ints)%nat ->
  copy_hashes k hashes ints = Ok (take k hashes ++ drop k ints).
Proof.
  intros Hh Hi. unfold copy_hashes.
  apply (fill_spec k (fun t _ => get hashes t) (take k hashes) [] ints); [rewrite length_take; lia|done|].
  intros t x Hx. apply get_ok. by apply lookup_take_Some in Hx as [? _].
Qed.

Lemma hash_pair_ok h i a b :
  h !! i = Some a -> h !! (i + 1)%nat = Some b ->
  (let! d := pair_at h i in cn_fast_hash d) = Ok (H (a ++ b)).
Proof. intros Ha Hb. rewrite (pair_at_ok _ _ _ _ Ha Hb). cbn [bind]. apply hash_returns. Qed.

Lemma pairs_lookup_inv n (l : list hash_str) t x :
  length l = (2 * n)%nat -> pairs l !! t = Some x ->
  exists a b, l !! (2 * t)%nat = Some a /\ l !! (2 * t + 1)%nat = Some b /\ x = H (a ++ b).
Proof.
  intros Hl Hx. pose proof (lookup_lt_Some _ _ _ Hx) as Ht. rewrite (pairs_length _ n) in Ht by done.
  destruct (lookup_lt_is_Some_2 l (2 * t)) as [a Ha]; [lia|].
  destruct (lookup_lt_is_Some_2 l (2 * t + 1)) as [b Hb]; [lia|].
  exists a, b. repeat split; [done..|]. rewrite (pairs_lookup _ _ _ _ _ Ha Hb) in Hx. congruence.
Qed.

Lemma hash_pairs_spec k n (hashes pre rest : list hash_str) :
  length pre = k -> length hashes = (k + 2 * n)%nat -> length rest = n ->
  hash_pairs k n hashes (pre ++ rest) = Ok (pre ++ pairs (drop k hashes)).
Proof.
  intros Hp Hh Hr. unfold hash_pairs.
  assert (length (drop k hashes) = 2 * n)%nat as Hd by (rewrite length_drop; lia).
  rewrite (for_ext _ _ (fun t a =>
    let! x := let! d := pair_at hashes (k + 2 * t) in cn_fast_hash d in set a (length pre + t) x))
    by (intros; by rewrite bind_assoc, Hp).
  rewrite (fill_spec n (fun t _ => let! d := pair_at hashes (k + 2 * t) in cn_fast_hash d)
    (pairs (drop k hashes))).
  - by rewrite (drop_ge rest), app_nil_r by lia.
  - by apply pairs_length.
  - lia.
  - intros t x Hx. destruct (pairs_lookup_inv n _ _ _ Hd Hx) as (a & b & Ha & Hb & ->).
    rewrite lookup_drop in Ha, Hb. apply hash_pair_ok; [done|]. by rewrite <- Nat.add_assoc.
Qed.

Lemma reduce_level_spec n (ints : list hash_str) :
  (2 * n <= length ints)%nat ->
  reduce_level n ints = Ok (pairs (take (2 * n) ints) ++ drop n ints).
Proof.
  intros Hl. unfold reduce_level.
  assert (length (take (2 * n) ints) = 2 * n)%nat as Hd by (rewrite length_take; lia).
  rewrite (for_ext _ _ (fun t a =>
    let! x := let! d := pair_at a (2 * t) in cn_fast_hash d in set a (length (@nil hash_str) + t) x))
    by (intros; by rewrite bind_assoc).
  apply (fill_spec n (fun t a => let! d := pair_at a (2 * t) in cn_fast_hash d)
    (pairs (take (2 * n) ints)) []); [by apply pairs_length|lia|].
  intros t x Hx. pose proof (lookup_lt_Some _ _ _ Hx) as Ht. rewrite (pairs_length _ n) in Ht by done.
  destruct (pairs_lookup_inv n _ _ _ Hd Hx) as (a & b & Ha & Hb & ->).
  apply lookup_take_Some in Ha as [Ha _], Hb as [Hb _].
  assert (length (take t (pairs (take (2 * n) ints))) = t) as Hlt
    by (rewrite length_take, (pairs_length _ n) by done; lia).
  apply hash_pair_ok; cbn [app]; rewrite lookup_app_r, Hlt, lookup_drop by lia.
  - rewrite <- Ha. f_equal. lia.
  - rewrite <- Hb. f_equal. lia.
Qed.

(** The loop over the levels: two hashes are left, under the same root. *)
Lemma reduce_spec n : forall fuel (ints : list hash_str),
  (n < fuel)%nat -> (2 ^ S n <= length ints)%nat ->
  returns (reduce fuel (2 ^ S n) ints) (fun r =>
    (2 <= length r)%nat /\ tree 1 (take 2 r) = tree (S n) (take (2 ^ S n) ints)).
Proof.
  induction n as [|n IH]; intros [|fuel] ints Hf Hl; try lia; cbn [reduce].
  - change (2 <? 2 ^ 1)%nat with false. done.
  - assert (0 < 2 ^ n)%nat by (apply Nat.neq_0_lt_0, Nat.pow_nonzero; lia).
    rewrite Nat.pow_succ_r' in Hl.
    replace (2 <? 2 ^ S (S n))%nat with true by (symmetry; apply Nat.ltb_lt; rewrite !Nat.pow_succ_r'; lia).
    replace (2 ^ S (S n) / 2)%nat with (2 ^ S n)%nat
      by (rewrite (Nat.pow_succ_r' 2 (S n)), Nat.mul_comm, Nat.div_mul; lia).
    rewrite reduce_level_spec by lia. cbn [bind].
    set (l := take (2 * 2 ^ S n) ints).
    assert (length l = 2 * 2 ^ S n)%nat as Hll by (unfold l; rewrite length_take; lia).
    assert (length (pairs l) = 2 ^ S n)%nat as Hp by (by apply pairs_length).
    eapply returns_mono; [apply IH; [lia|rewrite length_app, Hp; lia]|].
    intros r [H2 Hr]. split; [done|]. rewrite Hr. rewrite take_app_length' by done.
    rewrite (Nat.pow_succ_r' 2 (S n)). symmetry. apply tree_pairs. by rewrite (Nat.pow_succ_r' 2 (S n)).
Qed.
End Loops.

(** ** The root *)
Lemma depth_ge_2 count : (3 <= count)%nat -> (2 <= Merkle.depth count)%nat.
Proof.
  intros Hc. destruct (depth_bounds count) as [H1 [_ Hu]]; [lia|].
  destruct (Merkle.depth count) as [|[|]]; simpl in Hu; lia.
Qed.

Section Root.
Context {H : list Z -> list Z} `{HashContract cn_fast_hash H}.

Lemma level_length l :
  (2 <= length l)%nat -> length (Merkle.level H l) = (2 ^ (Merkle.depth (length l) - 1))%nat.
Proof.
  intros Hl. destruct (depth_bounds _ Hl) as [H1 [Hlo Hhi]]. unfold Merkle.level, Merkle.missing.
  set (n := Merkle.depth (length l)) in *.
  assert (2 ^ n = 2 * 2 ^ (n - 1))%nat as E by (rewrite <- Nat.pow_succ_r'; f_equal; lia).
  rewrite length_app, length_take, (pairs_length _ (length l - 2 ^ (n - 1))) by (rewrite length_drop; lia).
  lia.
Qed.

Lemma tree_hash_spec ndebug hashes :
  (1 <= length hashes)%nat -> Z.of_nat (length hashes) <= 2 ^ 28 ->
  tree_hash ndebug hashes (length hashes) = Ok (Merkle.root H hashes).
Proof.
  intros H1 H28. unfold tree_hash.
  replace (0 <? length hashes)%nat with true by (symmetry; apply Nat.ltb_lt; lia).
  assert (forall b, c_assert ndebug (Ok b) = if ndebug || b then Ok tt else Fail Aborted) as Hassert
    by (by intros []; destruct ndebug).
  rewrite Hassert, orb_true_r. cbn [bind].
  destruct hashes as [|a [|b [|c hashes]]]; [simpl in H1; lia|done|by apply hash_pair_ok|].
  set (l := a :: b :: c :: hashes) in *. assert (3 <= length l)%nat as H3 by (simpl; lia).
  change (length l =? 1)%nat with false. change (length l =? 2)%nat with false. cbv iota.
  rewrite tree_hash_cnt_ok by done. cbn [bind]. rewrite Nat2Z.id.
  destruct (depth_bounds (length l)) as [_ [Hlo Hhi]]; [lia|]. pose proof (depth_ge_2 _ H3) as H2.
  change (Merkle.root H l) with (Merkle.tree H (Merkle.depth (length l) - 1) (Merkle.level H l)).
  pose proof (level_length l ltac:(lia)) as Hlen. unfold Merkle.level, Merkle.missing in *.
  set (n := Merkle.depth (length l)) in *. set (cnt := (2 ^ (n - 1))%nat) in *.
  assert (2 ^ n = 2 * cnt)%nat as E by (unfold cnt; rewrite <- Nat.pow_succ_r'; f_equal; lia).
  replace (Z.to_nat (u64 (2 * Z.of_nat cnt - Z.of_nat (length l)))) with (2 ^ n - length l)%nat
    by (unfold u64; rewrite Z.mod_small; lia).
  set (k := (2 ^ n - length l)%nat) in *.
  rewrite copy_hashes_spec by (rewrite ?length_replicate; lia). cbn [bind].
  rewrite (hash_pairs_spec k (cnt - k))
    by (rewrite ?length_take, ?length_drop, ?length_replicate; lia). cbn [bind].
  replace (k + 2 * (cnt - k) =? length l)%nat with true by (symmetry; apply Nat.eqb_eq; lia).
  rewrite Hassert, orb_true_r. cbn [bind]. unfold cnt in *.
  replace (n - 1)%nat with (S (n - 2)) in * by lia.
  assert (n < 32)%nat as Hn.
  { apply (Nat.pow_lt_mono_r_iff 2); [lia|]. rewrite E.
    apply Nat2Z.inj_lt. rewrite Nat2Z.inj_mul, (Nat2Z.inj_pow _ 32). lia. }
  pose proof (reduce_spec (n - 2) SIZE_BITS (take k l ++ Merkle.pairs H (drop k l))) as Hr.
  apply returns_inv in Hr as (r & -> & [Hr2 Hroot]); [|unfold SIZE_BITS; lia|lia].
  cbn [bind]. rewrite (take_ge (take k l ++ _)) in Hroot by lia. rewrite <- Hroot.
  destruct r as [|x [|y r]]; [simpl in Hr2; lia..|]. by apply hash_pair_ok.
Qed.
End Root.

(** ** Binding: two leaf lists with the same root are equal, or the hash function collides *)
Section Binding.
Context (H : list Z -> list Z) (Hlen : forall d, length (H d) = HASH_SIZE).

Definition collision : Prop := exists x y, x <> y /\ H x = H y.
Definition hashes_ok (l : list hash_str) : Prop := Forall (fun x => length x = HASH_SIZE) l.

Lemma hash_pair_inj a b a' b' :
  length a = HASH_SIZE -> length a' = HASH_SIZE -> H (a ++ b) = H (a' ++ b') ->
  (a = a' /\ b = b') \/ collision.
Proof.
  intros Ha Ha' E. destruct (decide (a ++ b = a' ++ b')) as [Eq|Ne].
  - left. apply app_inj_1 in Eq; [done|congruence].
  - right. by exists (a ++ b), (a' ++ b').
Qed.

Lemma tree_length n l :
  hashes_ok l -> length l = (2 ^ n)%nat -> length (Merkle.tree H n l) = HASH_SIZE.
Proof.
  destruct n as [|n]; intros Hl E; [|apply Hlen].
  destruct l as [|x l]; [discriminate|]. by apply Forall_cons_1 in Hl as [? _].
Qed.

Lemma tree_binding n l l' :
  hashes_ok l -> hashes_ok l' -> length l = (2 ^ n)%nat -> length l' = (2 ^ n)%nat ->
  Merkle.tree H n l = Merkle.tree H n l' -> l = l' \/ collision.
Proof.
  revert l l'. induction n as [|n IH]; intros l l' Hl Hl' E E' Ht.
  - destruct l as [|x [|]], l' as [|x' [|]]; try discriminate. left. simpl in Ht. by rewrite Ht.
  - rewrite Nat.pow_succ_r' in E, E'. cbn [Merkle.tree] in Ht.
    assert (forall m, hashes_ok m -> length m = (2 * 2 ^ n)%nat ->
      (hashes_ok (take (2 ^ n) m) /\ length (take (2 ^ n) m) = (2 ^ n)%nat) /\
      (hashes_ok (drop (2 ^ n) m) /\ length (drop (2 ^ n) m) = (2 ^ n)%nat)) as Hhalf.
    { intros m Hm Em. rewrite length_take, length_drop.
      split; (split; [by apply Forall_take || by apply Forall_drop|lia]). }
    destruct (Hhalf l Hl E) as [[Ha1 La1] [Hb1 Lb1]], (Hhalf l' Hl' E') as [[Ha2 La2] [Hb2 Lb2]].
    apply hash_pair_inj in Ht as [[Ht1 Ht2]|]; [|by right|by apply tree_length..].
    destruct (IH _ _ Ha1 Ha2 La1 La2 Ht1) as [Eq1|]; [|by right].
    destruct (IH _ _ Hb1 Hb2 Lb1 Lb2 Ht2) as [Eq2|]; [|by right].
    left. by rewrite <- (take_drop (2 ^ n) l), <- (take_drop (2 ^ n) l'), Eq1, Eq2.
Qed.

Lemma pairs_binding m l l' :
  hashes_ok l -> hashes_ok l' -> length l = (2 * m)%nat -> length l' = (2 * m)%nat ->
  Merkle.pairs H l = Merkle.pairs H l' -> l = l' \/ collision.
Proof.
  revert l l'. induction m as [|m IH]; intros [|a [|b l]] [|a' [|b' l']] Hl Hl' E E' Ht; simpl in E, E'; try lia.
  - by left.
  - cbn [Merkle.pairs] in Ht. injection Ht as H1 H2.
    apply Forall_cons_1 in Hl as [Ha [Hb Hl]%Forall_cons_1], Hl' as [Ha' [Hb' Hl']%Forall_cons_1].
    apply hash_pair_inj in H1 as [[-> ->]|]; [|by right|done..].
    destruct (IH l l') as [->|]; [done|done|lia|lia|done|by left|by right].
Qed.

Lemma pairs_ok m l : length l = (2 * m)%nat -> hashes_ok (Merkle.pairs H l).
Proof.
  revert l. induction m as [|m IH]; intros [|a [|b l]] E; simpl in *; try lia; constructor; [done|].
  apply IH. lia.
Qed.

Lemma root_binding l l' :
  hashes_ok l -> hashes_ok l' -> length l = length l' -> (1 <= length l)%nat ->
  Merkle.root H l = Merkle.root H l' -> l = l' \/ collision.
Proof.
  intros Hl Hl' E H1 Ht. destruct (decide (length l = 1)%nat) as [E1|].
  { destruct l as [|x [|]], l' as [|x' [|]]; try discriminate. left. simpl in Ht. by rewrite Ht. }
  assert (2 <= length l)%nat as H2 by lia.
  assert (forall m, (2 <= length m)%nat ->
    Merkle.root H m = Merkle.tree H (Merkle.depth (length m) - 1) (Merkle.level H m)) as Hroot
    by (intros [|? [|]]; simpl; (done || lia)).
  rewrite !Hroot, <- E in Ht by lia. destruct (depth_bounds _ H2) as [D1 [Dlo Dhi]].
  assert (2 ^ Merkle.depth (length l) = 2 * 2 ^ (Merkle.depth (length l) - 1))%nat as E2
    by (rewrite <- Nat.pow_succ_r'; f_equal; lia).
  set (k := Merkle.missing (length l)).
  set (m := (length l - 2 ^ (Merkle.depth (length l) - 1))%nat).
  assert (length (drop k l) = 2 * m /\ length (drop k l') = 2 * m)%nat as [Ed Ed']
    by (unfold k, m, Merkle.missing; rewrite !length_drop; lia).
  apply tree_binding in Ht as [Ht|]; [|by right|..].
  - unfold Merkle.level in Ht. rewrite <- E in Ht. fold k in Ht.
    apply app_inj_1 in Ht as [Ht1 Ht2]; [|rewrite !length_take; lia].
    apply (pairs_binding m) in Ht2 as [Ht2|]; [|by right|by apply Forall_drop|by apply Forall_drop|done|done].
    left. by rewrite <- (take_drop k l), <- (take_drop k l'), Ht1, Ht2.
  - apply Forall_app. split; [by apply Forall_take|by apply (pairs_ok m)].
  - unfold Merkle.level. rewrite <- E. apply Forall_app.
    split; [by apply Forall_take|by apply (pairs_ok m)].
  - by apply level_length.
  - rewrite E. apply level_length. lia.
Qed.
End Binding.
