(* ===== verification/ChaCha.v ===== *)
(** * ChaCha

    [src/src/crypto/chacha.c]: the stream cipher that encrypts wallet keys.
    The sixteen [uint32_t] variables [x0] to [x15] are a list of 16 words, as
    are [j0] to [j15]. *)

From stdpp Require Import base list numbers.
From Stdlib Require Import ZArith Lia.
From S2P Require Import Prelude Bytes.

(** [rol32] of [int-util.h]: [(x << (r & 31)) | (x >> (-r & 31))] *)
Definition rol32 (x r : Z) : Z :=
  Z.lor (u32 (Z.shiftl x (Z.land r 31))) (Z.shiftr x (Z.land (- r) 31)).

(** [PLUS] *)
Definition PLUS (v w : Z) : Z := u32 (v + w).

Definition QUARTERROUND (a b c d : nat) (x : list Z) : result (list Z) :=
  let! xa := get x a in
  let! xb := get x b in
  let! xc := get x c in
  let! xd := get x d in
  let xa := PLUS xa xb in let xd := rol32 (Z.lxor xd xa) 16 in
  let xc := PLUS xc xd in let xb := rol32 (Z.lxor xb xc) 12 in
  let xa := PLUS xa xb in let xd := rol32 (Z.lxor xd xa) 8 in
  let xc := PLUS xc xd in let xb := rol32 (Z.lxor xb xc) 7 in
  let! x := set x a xa in
  let! x := set x b xb in
  let! x := set x c xc in
  set x d xd.

(** The body of [for (i = rounds; i > 0; i -= 2)]. *)
Definition double_round (x : list Z) : result (list Z) :=
  let! x := QUARTERROUND 0 4 8 12 x in
  let! x := QUARTERROUND 1 5 9 13 x in
  let! x := QUARTERROUND 2 6 10 14 x in
  let! x := QUARTERROUND 3 7 11 15 x in
  let! x := QUARTERROUND 0 5 10 15 x in
  let! x := QUARTERROUND 1 6 11 12 x in
  let! x := QUARTERROUND 2 7 8 13 x in
  QUARTERROUND 3 4 9 14 x.

(** [U8TO32_LITTLE(p + o)] *)
Definition u8to32_little (p : list Z) (o : nat) : result Z :=
  if decide (o + 4 <= length p)%nat then Ok (le_val (take 4 (drop o p))) else Fail OutOfBounds.

(** ["expand 32-byte k"] *)
Definition sigma : list Z :=
  [0x65; 0x78; 0x70; 0x61; 0x6e; 0x64; 0x20; 0x33; 0x32; 0x2d; 0x62; 0x79; 0x74; 0x65; 0x20; 0x6b].

Definition chacha_init (key iv : list Z) : result (list Z) :=
  let! j0 := u8to32_little sigma 0 in
  let! j1 := u8to32_little sigma 4 in
  let! j2 := u8to32_little sigma 8 in
  let! j3 := u8to32_little sigma 12 in
  let! j4 := u8to32_little key 0 in
  let! j5 := u8to32_little key 4 in
  let! j6 := u8to32_little key 8 in
  let! j7 := u8to32_little key 12 in
  let! j8 := u8to32_little key 16 in
  let! j9 := u8to32_little key 20 in
  let! j10 := u8to32_little key 24 in
  let! j11 := u8to32_little key 28 in
  let j12 := 0 in
  let j13 := 0 in
  let! j14 := u8to32_little iv 0 in
  let! j15 := u8to32_little iv 4 in
  Ok [j0; j1; j2; j3; j4; j5; j6; j7; j8; j9; j10; j11; j12; j13; j14; j15].

(** [x_i = PLUS(x_i, j_i)] *)
Definition add_input (j x : list Z) : result (list Z) :=
  for_ 16 (fun i x => let! xi := get x i in let! ji := get j i in set x i (PLUS xi ji)) 0 x.

(** [x_i = XOR(x_i, U8TO32_LITTLE(data + 4*i))] *)
Definition xor_data (data x : list Z) : result (list Z) :=
  for_ 16 (fun i x =>
    let! xi := get x i in
    let! w := u8to32_little data (4 * i) in
    set x i (Z.lxor xi w)) 0 x.

(** [j12 = PLUSONE(j12); if (!j12) j13 = PLUSONE(j13)] *)
Definition next_counter (j : list Z) : result (list Z) :=
  let! j12 := get j 12 in
  let j12 := PLUS j12 1 in
  let! j := set j 12 j12 in
  if j12 =? 0 then
    let! j13 := get j 13 in
    set j 13 (PLUS j13 1)
  else Ok j.

(** [U32TO8_LITTLE(cipher + 4*i, x_i)] *)
Definition store_words (x : list Z) : list Z := concat (le_bytes 4 <$> x).

(** The 64 bytes of one block: [data] holds 64 bytes. *)
Definition chacha_block (rounds : nat) (j data : list Z) : result (list Z) :=
  let! x := for_ ((rounds + 1) / 2) (fun _ x => double_round x) 0 j in
  let! x := add_input j x in
  let! x := xor_data data x in
  Ok (store_words x).

(** [for (;;)]: [data] is what is left of the input and [tmp] the scratch buffer, whose
    first contents are indeterminate. *)
Fixpoint chacha_loop (fuel rounds : nat) (j data tmp : list Z) : result (list Z) :=
  match fuel with
  | O => Fail OutOfFuel
  | S fuel =>
      let length_ := length data in
      let short := (length_ <? 64)%nat in
      let src := if short then data ++ drop length_ tmp else data in
      let! out := chacha_block rounds j src in
      let! j := next_counter j in
      if (length_ <=? 64)%nat then Ok (if short then take length_ out else out)
      else
        let! rest := chacha_loop fuel rounds j (drop 64 data) tmp in
        Ok (out ++ rest)
  end.

Definition chacha (rounds : nat) (data key iv tmp : list Z) : result (list Z) :=
  if (length data =? 0)%nat then Ok []
  else
    let! j := chacha_init key iv in
    chacha_loop (S (length data / 64)) rounds j data tmp.

Definition chacha8 (data key iv tmp : list Z) : result (list Z) := chacha 8 data key iv tmp.
Definition chacha20 (data key iv tmp : list Z) : result (list Z) := chacha 20 data key iv tmp.
