(* ===== verification/ChaChaFacts.v ===== *)
(** * Correctness of ChaCha

    [chacha] xors the input with the ChaCha key stream, which is defined here
    from the matrix form of the cipher. *)

From stdpp Require Import base list numbers.
From Stdlib Require Import ZArith Lia.
From S2P Require Import Prelude Bytes ChaCha.

(** ** The specification

    The state is a 4x4 matrix of 32-bit words, row by row. *)
Module Stream.
Definition entry (x : list Z) (r c : nat) : Z := nth (4 * r + c mod 4) x 0.
Definition matrix (f : nat -> nat -> Z) : list Z := (fun k => f (k / 4) (k mod 4))%nat <$> seq 0 16.

Definition quarter (v : Z * Z * Z * Z) : Z * Z * Z * Z :=
  let half n1 n2 v :=
    let '(a, b, c, d) := v in
    let a := PLUS a b in
    let d := rol32 (Z.lxor d a) n1 in
    let c := PLUS c d in
    let b := rol32 (Z.lxor b c) n2 in
    (a, b, c, d) in
  half 8 7 (half 16 12 v).

Definition row (v : Z * Z * Z * Z) (r : nat) : Z :=
  let '(a, b, c, d) := v in nth r [a; b; c; d] 0.

Definition column_round (x : list Z) : list Z :=
  matrix (fun r c => row (quarter (entry x 0 c, entry x 1 c, entry x 2 c, entry x 3 c)) r).

(** Row [r] is turned left by [r], and back. *)
Definition turn (x : list Z) : list Z := matrix (fun r c => entry x r (c + r)).
Definition turn_back (x : list Z) : list Z := matrix (fun r c => entry x r (c + 4 - r)).

Definition double_round (x : list Z) : list Z := turn_back (column_round (turn (column_round x))).

Fixpoint words (n : nat) (s : list Z) : list Z :=
  match n with O => [] | S n => le_val (take 4 s) :: words n (drop 4 s) end.

(** The input of block [ctr]. *)
Definition input (key iv : list Z) (ctr : Z) : list Z :=
  words 4 sigma ++ words 8 key ++ [ctr mod 2 ^ 32; (ctr / 2 ^ 32) mod 2 ^ 32] ++ words 2 iv.

Definition core (n : nat) (x : list Z) : list Z := zip_with PLUS (Nat.iter n double_round x) x.

Definition block (n : nat) (key iv : list Z) (ctr : Z) : list Z :=
  store_words (core n (input key iv ctr)).

(** [k] blocks of key stream from block [ctr] on, of [2*n] rounds. *)
Fixpoint keystream (n k : nat) (key iv : list Z) (ctr : Z) : list Z :=
  match k with O => [] | S k => block n key iv ctr ++ keystream n k key iv (ctr + 1) end.

(** The input xor'ed with the key stream. *)
Definition crypt (n : nat) (key iv data : list Z) : list Z :=
  zip_with Z.lxor data (keystream n (S (length data / 64)) key iv 0).
End Stream.

(** ** The block function *)
Lemma double_round_spec x : length x = 16%nat -> double_round x = Ok (Stream.double_round x).
Proof.
  intros H. do 16 (destruct x as [|? x]; [discriminate H|]). destruct x; [|discriminate H].
  lazy -[Z.lxor PLUS rol32]. reflexivity.
Qed.

Lemma matrix_length f : length (Stream.matrix f) = 16%nat.
Proof. done. Qed.

Lemma iter_length n x : length x = 16%nat -> length (Nat.iter n Stream.double_round x) = 16%nat.
Proof. intros H. destruct n; [done|]. apply matrix_length. Qed.

Lemma rounds_spec n i x :
  length x = 16%nat -> for_ n (fun _ x => double_round x) i x = Ok (Nat.iter n Stream.double_round x).
Proof.
  intros Hx. revert i x Hx. induction n as [|n IH]; intros i x Hx; [done|]. cbn [for_].
  rewrite double_round_spec by done. cbn [bind]. rewrite IH by apply matrix_length.
  by rewrite Nat.iter_succ_r.
Qed.

Lemma update_all {A} (s : list A) (G : nat -> A -> A) (t : list A) :
  length t = length s -> (forall i x, s !! i = Some x -> t !! i = Some (G i x)) -> update_first (length s) G s = t.
Proof.
  intros Hl Ht. apply list_eq. intros i. rewrite update_first_lookup.
  destruct (s !! i) as [x|] eqn:E.
  - cbn [fmap option_fmap option_map]. rewrite decide_True by (by eapply lookup_lt_Some). symmetry. by apply Ht.
  - cbn [fmap option_fmap option_map]. symmetry. apply lookup_ge_None. apply lookup_ge_None in E. lia.
Qed.

Lemma add_input_spec j x :
  length j = 16%nat -> length x = 16%nat -> add_input j x = Ok (zip_with PLUS x j).
Proof.
  intros Hj Hx. unfold add_input.
  rewrite (for_update _ _ (fun i xi => PLUS xi (nth i j 0))); [|lia|].
  - f_equal. rewrite <- Hx at 1. apply update_all; [rewrite length_zip_with; lia|].
    intros i xi Hi. destruct (lookup_lt_is_Some_2 j i) as [ji Hji]; [apply lookup_lt_Some in Hi; lia|].
    rewrite lookup_zip_with, Hi, Hji. cbn. by rewrite (nth_lookup_Some j i 0 ji).
  - intros i xi a Hi Hs Ha Hl. rewrite (get_ok _ _ _ Ha). cbn [bind].
    destruct (lookup_lt_is_Some_2 j i) as [ji Hji]; [lia|].
    rewrite (get_ok _ _ _ Hji), (nth_lookup_Some j i 0 ji) by done. apply set_ok. lia.
Qed.

(** ** Words and bytes *)
Lemma lxor_mod_pow2 a b k : 0 <= k -> Z.lxor a b mod 2 ^ k = Z.lxor (a mod 2 ^ k) (b mod 2 ^ k).
Proof. intros. bitwise. by destruct (i <? k). Qed.

Lemma le_bytes_lxor v s :
  bytes s -> le_bytes (length s) (Z.lxor v (le_val s)) = zip_with Z.lxor s (le_bytes (length s) v).
Proof.
  intros Hs. revert v. induction Hs as [|b s Hb Hs IH]; intros v; [done|]. unfold is_byte in Hb.
  change (le_bytes (length (b :: s))) with (fun v => v mod 256 :: le_bytes (length s) (v / 256)).
  cbv beta. cbn [zip_with le_val]. f_equal.
  - change 256 with (2 ^ 8). rewrite lxor_mod_pow2, Z.lxor_comm by lia. f_equal.
    change (2 ^ 8) with 256. rewrite Z.mul_comm, Z.mod_add, Z.mod_small; lia.
  - rewrite <- IH. f_equal. change 256 with (2 ^ 8). rewrite <- !Z.shiftr_div_pow2 by lia.
    rewrite Z.shiftr_lxor. f_equal. rewrite Z.shiftr_div_pow2 by lia.
    change (2 ^ 8) with 256. rewrite Z.mul_comm, Z.div_add, Z.div_small; lia.
Qed.

Lemma store_words_length x : length (store_words x) = (4 * length x)%nat.
Proof.
  unfold store_words. induction x as [|w x IH]; [done|]. cbn [fmap list_fmap concat].
  rewrite length_app, le_bytes_length, IH. simpl. lia.
Qed.

Lemma store_words_bytes x : bytes (store_words x).
Proof.
  unfold store_words. induction x as [|w x IH]; [constructor|]. cbn [fmap list_fmap concat].
  apply Forall_app. split; [apply le_bytes_bytes|done].
Qed.

Lemma zip_with_app_take {A B C} (f : A -> B -> C) n l k1 k2 :
  (n <= length l)%nat -> length k1 = n ->
  zip_with f l (k1 ++ k2) = zip_with f (take n l) k1 ++ zip_with f (drop n l) k2.
Proof.
  intros Hl Hk. rewrite <- (take_drop n l) at 1. apply zip_with_app. rewrite length_take. lia.
Qed.

Lemma store_words_xor data x :
  bytes data -> (4 * length x <= length data)%nat ->
  store_words (imap (fun i xi => Z.lxor xi (le_val (take 4 (drop (4 * i) data)))) x) =
  zip_with Z.lxor data (store_words x).
Proof.
  revert data. induction x as [|w x IH]; intros data Hd Hl.
  - symmetry. apply zip_with_nil_r.
  - rewrite imap_cons. unfold store_words in *. cbn [fmap list_fmap concat].
    cbn [length] in Hl. rewrite (zip_with_app_take _ 4) by (rewrite ?le_bytes_length; lia). f_equal.
    + rewrite Nat.mul_0_r, drop_0. pose proof (le_bytes_lxor w (take 4 data)) as E.
      rewrite length_take, Nat.min_l in E by lia. by apply E, Forall_take.
    + rewrite <- IH; [|by apply Forall_drop|rewrite length_drop; lia].
      do 2 f_equal. apply imap_ext. intros i y _. unfold compose. rewrite drop_drop.
      do 4 f_equal. lia.
Qed.

Lemma u8to32_little_ok s o : (o + 4 <= length s)%nat -> u8to32_little s o = Ok (le_val (take 4 (drop o s))).
Proof. intros. unfold u8to32_little. by rewrite decide_True. Qed.

Lemma xor_data_spec data x :
  bytes data -> (64 <= length data)%nat -> length x = 16%nat ->
  returns (xor_data data x) (fun y => store_words y = zip_with Z.lxor data (store_words x)).
Proof.
  intros Hb Hd Hx. unfold xor_data.
  rewrite (for_update _ _ (fun i xi => Z.lxor xi (le_val (take 4 (drop (4 * i) data))))); [|lia|].
  - rewrite <- store_words_xor by (done || lia). cbn [returns]. f_equal. rewrite <- Hx.
    apply update_all; [apply length_imap|]. intros i xi Hi. by rewrite list_lookup_imap, Hi.
  - intros i xi a Hi Hs Ha Hl. rewrite (get_ok _ _ _ Ha). cbn [bind].
    rewrite u8to32_little_ok by lia. apply set_ok. lia.
Qed.

Lemma chacha_block_spec rounds j data :
  bytes data -> (64 <= length data)%nat -> length j = 16%nat ->
  chacha_block rounds j data =
  Ok (zip_with Z.lxor data (store_words (Stream.core ((rounds + 1) / 2) j))).
Proof.
  intros Hb Hd Hj. unfold chacha_block. rewrite rounds_spec by done. cbn [bind].
  rewrite add_input_spec by (done || by apply iter_length). cbn [bind].
  pose proof (xor_data_spec data (Stream.core ((rounds + 1) / 2) j) Hb Hd) as H.
  apply returns_inv in H as (y & Hy & <-).
  - unfold Stream.core in Hy. by rewrite Hy.
  - unfold Stream.core. rewrite length_zip_with, iter_length; lia.
Qed.

(** ** The counter and the loop *)
Lemma words_length n s : length (Stream.words n s) = n.
Proof. revert s. induction n; intros; simpl; auto. Qed.

Lemma input_length key iv ctr : length (Stream.input key iv ctr) = 16%nat.
Proof. done. Qed.

Lemma next_counter_spec key iv ctr :
  0 <= ctr -> next_counter (Stream.input key iv ctr) = Ok (Stream.input key iv (ctr + 1)).
Proof.
  intros Hc. unfold next_counter, PLUS, u32. cbn [Stream.input Stream.words app get lookup list_lookup bind].
  rewrite Zplus_mod_idemp_l. rewrite set_ok by (simpl; lia).
  cbn [bind get lookup list_lookup insert list_insert].
  destruct (Z.eqb_spec ((ctr + 1) mod 2 ^ 32) 0) as [E|E].
  - rewrite set_ok by (simpl; lia). cbn [insert list_insert]. rewrite Zplus_mod_idemp_l. unfold Stream.input.
    replace ((ctr + 1) / 2 ^ 32) with (ctr / 2 ^ 32 + 1) by (Z.to_euclidean_division_equations; lia). done.
  - unfold Stream.input.
    replace ((ctr + 1) / 2 ^ 32) with (ctr / 2 ^ 32) by (Z.to_euclidean_division_equations; lia). done.
Qed.

Lemma block_length n key iv ctr : length (Stream.block n key iv ctr) = 64%nat.
Proof.
  unfold Stream.block, Stream.core. rewrite store_words_length, length_zip_with, iter_length by apply input_length.
  done.
Qed.

Lemma chacha_loop_spec rounds key iv tmp :
  bytes tmp -> length tmp = 64%nat -> forall fuel ctr data,
  0 <= ctr -> bytes data -> (length data / 64 < fuel)%nat ->
  chacha_loop fuel rounds (Stream.input key iv ctr) data tmp =
  Ok (zip_with Z.lxor data (Stream.keystream ((rounds + 1) / 2) (S (length data / 64)) key iv ctr)).
Proof.
  intros Htb Htl. induction fuel as [|fuel IH]; intros ctr data Hc Hd Hf; [lia|].
  pose proof (block_length ((rounds + 1) / 2) key iv ctr) as Hbl.
  cbn [chacha_loop Stream.keystream]. destruct (Nat.ltb_spec (length data) 64) as [Hs|Hs].
  - rewrite chacha_block_spec; [|apply Forall_app; split; [done|by apply Forall_drop]
      |rewrite length_app, length_drop; lia|done].
    cbn [bind]. rewrite next_counter_spec by done. cbn [bind].
    replace (length data <=? 64)%nat with true by (symmetry; apply Nat.leb_le; lia).
    rewrite (Nat.div_small (length data)) by done. cbn [Stream.keystream]. rewrite app_nil_r.
    fold (Stream.block ((rounds + 1) / 2) key iv ctr).
    rewrite zip_with_app_l, take_app_length' by (rewrite length_zip_with, length_take; lia).
    by rewrite zip_with_take_r.
  - rewrite chacha_block_spec by (done || lia). cbn [bind]. rewrite next_counter_spec by done. cbn [bind].
    fold (Stream.block ((rounds + 1) / 2) key iv ctr).
    rewrite (zip_with_app_take _ 64) by done.
    rewrite <- (zip_with_take_l _ data), Hbl.
    destruct (Nat.leb_spec (length data) 64) as [Hl|Hl].
    + rewrite drop_ge by done. by rewrite app_nil_r.
    + pose proof (Nat.div_add_l 1 64 (length data - 64) ltac:(lia)) as E.
      replace (1 * 64 + (length data - 64))%nat with (length data) in E by lia.
      rewrite IH by (try (by apply Forall_drop); rewrite ?length_drop; lia). cbn [bind].
      rewrite length_drop, E. done.
Qed.

Lemma chacha_init_spec key iv :
  length key = 32%nat -> length iv = 8%nat -> chacha_init key iv = Ok (Stream.input key iv 0).
Proof.
  intros Hk Hi. unfold chacha_init. rewrite !u8to32_little_ok by (simpl; lia). cbn [bind].
  unfold Stream.input. cbn [Stream.words]. by rewrite !drop_drop, !drop_0.
Qed.

Lemma chacha_spec rounds data key iv tmp :
  bytes data -> length key = 32%nat -> length iv = 8%nat -> bytes tmp -> length tmp = 64%nat ->
  chacha rounds data key iv tmp = Ok (Stream.crypt ((rounds + 1) / 2) key iv data).
Proof.
  intros Hd Hk Hi Htb Htl. unfold chacha, Stream.crypt. destruct (Nat.eqb_spec (length data) 0) as [E|_].
  - by destruct data.
  - rewrite chacha_init_spec by done. cbn [bind]. by apply chacha_loop_spec; try lia.
Qed.

Lemma keystream_length n k key iv ctr : length (Stream.keystream n k key iv ctr) = (64 * k)%nat.
Proof.
  revert ctr. induction k as [|k IH]; intros ctr; [done|]. cbn [Stream.keystream].
  rewrite length_app, block_length, IH. lia.
Qed.

Lemma keystream_bytes n k key iv ctr : bytes (Stream.keystream n k key iv ctr).
Proof.
  revert ctr. induction k as [|k IH]; intros ctr; [constructor|]. apply Forall_app.
  split; [apply store_words_bytes|apply IH].
Qed.

Lemma crypt_length n key iv data : length (Stream.crypt n key iv data) = length data.
Proof.
  unfold Stream.crypt. rewrite length_zip_with, keystream_length.
  pose proof (Nat.div_mod_eq (length data) 64). pose proof (Nat.mod_upper_bound (length data) 64 ltac:(lia)). lia.
Qed.

Lemma crypt_bytes n key iv data : bytes data -> bytes (Stream.crypt n key iv data).
Proof.
  intros Hd. unfold Stream.crypt. generalize (keystream_bytes n (S (length data / 64)) key iv 0).
  generalize (Stream.keystream n (S (length data / 64)) key iv 0). intros k.
  revert k. induction Hd as [|b s Hb Hs IH]; intros [|x k] Hk; try constructor.
  - apply Forall_cons_1 in Hk as [Hx _]. unfold is_byte in *. by apply (lxor_bound _ _ 8).
  - apply IH. by apply Forall_cons_1 in Hk as [_ ?].
Qed.

Lemma zip_lxor_twice data k : (length data <= length k)%nat -> zip_with Z.lxor (zip_with Z.lxor data k) k = data.
Proof.
  revert k. induction data as [|b s IH]; intros [|x k] Hk; simpl in *; try (done || lia).
  rewrite IH by lia. by rewrite Z.lxor_assoc, Z.lxor_nilpotent, Z.lxor_0_r.
Qed.

Lemma crypt_involutive n key iv data : Stream.crypt n key iv (Stream.crypt n key iv data) = data.
Proof.
  unfold Stream.crypt at 1. rewrite crypt_length. apply zip_lxor_twice. rewrite keystream_length.
  pose proof (Nat.div_mod_eq (length data) 64). pose proof (Nat.mod_upper_bound (length data) 64 ltac:(lia)). lia.
Qed.
