(* ===== verification/Blake256.v ===== *)
(** * BLAKE-256

    [src/src/crypto/blake256.c] and [blake256.h]: BLAKE-256 and BLAKE-224 with
    incremental input, and the HMACs built on them.  The lengths of [update] are
    in bits, as in the source. *)

From stdpp Require Import base list numbers.
From Stdlib Require Import ZArith Lia.
From S2P Require Import Prelude Bytes Streaming.

(** ** Words and tables *)

(** [U8TO32(p + o)]: big-endian *)
Definition U8TO32 (p : list Z) (o : nat) : result Z :=
  let! p0 := get p o in
  let! p1 := get p (o + 1) in
  let! p2 := get p (o + 2) in
  let! p3 := get p (o + 3) in
  Ok (Z.lor (Z.lor (Z.lor (u32 (Z.shiftl p0 24)) (u32 (Z.shiftl p1 16))) (u32 (Z.shiftl p2 8))) p3).

(** The four bytes that [U32TO8] writes. *)
Definition U32TO8 (v : Z) : list Z := [u8 (Z.shiftr v 24); u8 (Z.shiftr v 16); u8 (Z.shiftr v 8); u8 v].

Definition sigma : list (list nat) := [
  [ 0; 1; 2; 3; 4; 5; 6; 7; 8; 9;10;11;12;13;14;15];
  [14;10; 4; 8; 9;15;13; 6; 1;12; 0; 2;11; 7; 5; 3];
  [11; 8;12; 0; 5; 2;15;13;10;14; 3; 6; 7; 1; 9; 4];
  [ 7; 9; 3; 1;13;12;11;14; 2; 6; 5;10; 4; 0;15; 8];
  [ 9; 0; 5; 7; 2; 4;10;15;14; 1;11;12; 6; 8; 3;13];
  [ 2;12; 6;10; 0;11; 8; 3; 4;13; 7; 5;15;14; 1; 9];
  [12; 5; 1;15;14;13; 4;10; 0; 7; 6; 3; 9; 2; 8;11];
  [13;11; 7;14;12; 1; 3; 9; 5; 0;15; 4; 8; 6; 2;10];
  [ 6;15;14; 9;11; 3; 0; 8;12; 2;13; 7; 1; 4;10; 5];
  [10; 2; 8; 4; 7; 6; 1; 5;15;11; 9;14; 3;12;13; 0];
  [ 0; 1; 2; 3; 4; 5; 6; 7; 8; 9;10;11;12;13;14;15];
  [14;10; 4; 8; 9;15;13; 6; 1;12; 0; 2;11; 7; 5; 3];
  [11; 8;12; 0; 5; 2;15;13;10;14; 3; 6; 7; 1; 9; 4];
  [ 7; 9; 3; 1;13;12;11;14; 2; 6; 5;10; 4; 0;15; 8]]%nat.

Definition cst : list Z := [
  0x243F6A88; 0x85A308D3; 0x13198A2E; 0x03707344;
  0xA4093822; 0x299F31D0; 0x082EFA98; 0xEC4E6C89;
  0x452821E6; 0x38D01377; 0xBE5466CF; 0x34E90C6C;
  0xC0AC29B7; 0xC97C50DD; 0x3F84D5B5; 0xB5470917].

Definition padding : list Z := 0x80 :: replicate 63 0.

(** ** State *)
Record state := St {
  st_h : list Z; st_s : list Z; st_t0 : Z; st_t1 : Z; buflen : Z; nullt : Z; buf : list Z }.

Definition ROT (x n : Z) : Z := Z.lor (u32 (Z.shiftl x (32 - n))) (Z.shiftr x n).

(** [v[a] += x] *)
Definition vadd (a : nat) (x : Z) (v : list Z) : result (list Z) :=
  let! va := get v a in
  set v a (u32 (va + x)).

(** [v[d] = ROT(v[d] ^ v[a], n)] *)
Definition vrot (d a : nat) (n : Z) (v : list Z) : result (list Z) :=
  let! vd := get v d in
  let! va := get v a in
  set v d (ROT (Z.lxor vd va) n).

(** [v[a] += (m[j] ^ cst[k]) + v[b]] *)
Definition vmsg (a b j k : nat) (m v : list Z) : result (list Z) :=
  let! mj := get m j in
  let! ck := get cst k in
  let! vb := get v b in
  vadd a (u32 (Z.lxor mj ck + vb)) v.

Definition G (i : nat) (m : list Z) (a b c d e : nat) (v : list Z) : result (list Z) :=
  let! row := get sigma i in
  let! se := get row e in
  let! se1 := get row (e + 1) in
  let! v := vmsg a b se se1 m v in
  let! v := vrot d a 16 v in
  let! vd := get v d in
  let! v := vadd c vd v in
  let! v := vrot b c 12 v in
  let! v := vmsg a b se1 se m v in
  let! v := vrot d a 8 v in
  let! vd := get v d in
  let! v := vadd c vd v in
  vrot b c 7 v.

Definition blake_round (m : list Z) (i : nat) (v : list Z) : result (list Z) :=
  let! v := G i m 0 4 8 12 0 v in
  let! v := G i m 1 5 9 13 2 v in
  let! v := G i m 2 6 10 14 4 v in
  let! v := G i m 3 7 11 15 6 v in
  let! v := G i m 3 4 9 14 14 v in
  let! v := G i m 2 7 8 13 12 v in
  let! v := G i m 0 5 10 15 8 v in
  G i m 1 6 11 12 10 v.

(** [m[i] = U8TO32(block + i * 4)] *)
Definition load_block (block : list Z) : result (list Z) :=
  for_ 16 (fun i m => let! w := U8TO32 block (i * 4) in set m i w) 0 (replicate 16 0).

(** [v] before the rounds *)
Definition compress_init (st : state) : result (list Z) :=
  let! v := for_ 8 (fun i v => let! hi := get (st_h st) i in set v i hi) 0 (replicate 16 0) in
  let! s0 := get (st_s st) 0 in
  let! v := set v 8 (Z.lxor s0 0x243F6A88) in
  let! s1 := get (st_s st) 1 in
  let! v := set v 9 (Z.lxor s1 0x85A308D3) in
  let! s2 := get (st_s st) 2 in
  let! v := set v 10 (Z.lxor s2 0x13198A2E) in
  let! s3 := get (st_s st) 3 in
  let! v := set v 11 (Z.lxor s3 0x03707344) in
  let! v := set v 12 0xA4093822 in
  let! v := set v 13 0x299F31D0 in
  let! v := set v 14 0x082EFA98 in
  let! v := set v 15 0xEC4E6C89 in
  if nullt st =? 0 then
    let! v12 := get v 12 in
    let! v := set v 12 (Z.lxor v12 (st_t0 st)) in
    let! v13 := get v 13 in
    let! v := set v 13 (Z.lxor v13 (st_t0 st)) in
    let! v14 := get v 14 in
    let! v := set v 14 (Z.lxor v14 (st_t1 st)) in
    let! v15 := get v 15 in
    set v 15 (Z.lxor v15 (st_t1 st))
  else Ok v.

(** The two loops after the rounds: the new [h]. *)
Definition compress_final (st : state) (v : list Z) : result (list Z) :=
  let! h := for_ 16 (fun i h =>
    let! hi := get h (i mod 8) in
    let! vi := get v i in
    set h (i mod 8) (Z.lxor hi vi)) 0 (st_h st) in
  for_ 8 (fun i h =>
    let! hi := get h i in
    let! si := get (st_s st) (i mod 4) in
    set h i (Z.lxor hi si)) 0 h.

(** [block] holds at least 64 bytes; the new state. *)
Definition blake256_compress (st : state) (block : list Z) : result state :=
  let! m := load_block block in
  let! v := compress_init st in
  let! v := for_ 14 (blake_round m) 0 v in
  let! h := compress_final st v in
  Ok (St h (st_s st) (st_t0 st) (st_t1 st) (buflen st) (nullt st) (buf st)).

(** [buf] keeps the contents it had, which are indeterminate at first. *)
Definition blake256_init (buf : list Z) : state :=
  St [0x6A09E667; 0xBB67AE85; 0x3C6EF372; 0xA54FF53A; 0x510E527F; 0x9B05688C; 0x1F83D9AB; 0x5BE0CD19]
    [0; 0; 0; 0] 0 0 0 0 buf.

Definition blake224_init (buf : list Z) : state :=
  St [0xC1059ED8; 0x367CD507; 0x3070DD17; 0xF70E5939; 0xFFC00B31; 0x68581511; 0x64F98FA7; 0xBEFA4FA4]
    [0; 0; 0; 0] 0 0 0 0 buf.

(** ** Input *)

(** [S->t[0] += 512; if (S->t[0] == 0) S->t[1]++] *)
Definition count_block (st : state) : state :=
  let t0 := u32 (st_t0 st + 512) in
  St (st_h st) (st_s st) t0 (if t0 =? 0 then u32 (st_t1 st + 1) else st_t1 st) (buflen st) (nullt st) (buf st).

(** [while (datalen >= 512)]: the state and what is left of the input. *)
Fixpoint full_blocks (fuel : nat) (st : state) (data : list Z) (datalen : Z) : result (state * list Z * Z) :=
  if 512 <=? datalen then
    match fuel with
    | O => Fail OutOfFuel
    | S fuel =>
        let! st := blake256_compress (count_block st) data in
        full_blocks fuel st (drop 64 data) (u64 (datalen - 512))
    end
  else Ok (st, data, datalen).

Definition set_buf (st : state) (buf : list Z) (buflen : Z) : state :=
  St (st_h st) (st_s st) (st_t0 st) (st_t1 st) buflen (nullt st) buf.

(** The part of [blake256_update] after the buffer was filled or left alone. *)
Definition update_rest (st : state) (data : list Z) (datalen left : Z) : result state :=
  let! (st, data, datalen) := full_blocks (Z.to_nat (datalen / 512)) st data datalen in
  if 0 <? datalen then
    let! buf := memcpy (buf st) (Z.to_nat left) data (Z.to_nat (Z.shiftr datalen 3)) in
    Ok (set_buf st buf (to_i32 (u64 (Z.shiftl left 3 + datalen))))
  else Ok (set_buf st (buf st) 0).

(** [data] is what the pointer points to; [datalen] is in bits. *)
Definition blake256_update (st : state) (data : list Z) (datalen : Z) : result state :=
  let left := Z.shiftr (buflen st) 3 in
  let! fill := i32 (64 - left) in
  if negb (left =? 0) && (u32 fill <=? Z.land (Z.shiftr datalen 3) 0x3F) then
    let! buf := memcpy (buf st) (Z.to_nat left) data (Z.to_nat fill) in
    let st := count_block (set_buf st buf (buflen st)) in
    let! st := blake256_compress st buf in
    update_rest st (drop (Z.to_nat fill) data) (u64 (datalen - Z.shiftl fill 3)) 0
  else update_rest st data datalen left.

Definition blake224_update (st : state) (data : list Z) (datalen : Z) : result state := blake256_update st data datalen.

(** ** Output *)

(** [S->t[0] -= k] *)
Definition uncount (k : Z) (st : state) : state :=
  St (st_h st) (st_s st) (u32 (st_t0 st - k)) (st_t1 st) (buflen st) (nullt st) (buf st).

(** [S->nullt = 1] *)
Definition set_nullt (st : state) : state := St (st_h st) (st_s st) (st_t0 st) (st_t1 st) (buflen st) 1 (buf st).

(** The 32 bytes of the digest. *)
Definition blake256_final_h (st : state) (pa pb : Z) : result (list Z) :=
  let lo := u32 (st_t0 st + buflen st) in
  let hi := if lo <? u32 (buflen st) then u32 (st_t1 st + 1) else st_t1 st in
  let msglen := U32TO8 hi ++ U32TO8 lo in
  let! st :=
    if buflen st =? 440 then
      let st := uncount 8 st in
      blake256_update st [pa] 8
    else
      let! st :=
        if buflen st <? 440 then
          let st := if buflen st =? 0 then set_nullt st else st in
          let st := uncount (440 - buflen st) st in
          blake256_update st padding (440 - buflen st)
        else
          let st := uncount (512 - buflen st) st in
          let! st := blake256_update st padding (512 - buflen st) in
          let st := uncount 440 st in
          let! st := blake256_update st (drop 1 padding) 440 in
          Ok (set_nullt st) in
      let! st := blake256_update st [pb] 8 in
      Ok (uncount 8 st) in
  let st := uncount 64 st in
  let! st := blake256_update st msglen 64 in
  for_ 8 (fun i digest => let! hi := get (st_h st) i in Ok (digest ++ U32TO8 hi)) 0 [].

Definition blake256_final (st : state) : result (list Z) := blake256_final_h st 0x81 0x01.
Definition blake224_final (st : state) : result (list Z) := blake256_final_h st 0x80 0x00.

(** [buf] is the indeterminate buffer of the local state. *)
Definition blake256_hash (buf data : list Z) (inlen : Z) : result (list Z) :=
  let! st := blake256_update (blake256_init buf) data (u64 (inlen * 8)) in
  blake256_final st.

Definition blake224_hash (buf data : list Z) (inlen : Z) : result (list Z) :=
  let! st := blake224_update (blake224_init buf) data (u64 (inlen * 8)) in
  blake224_final st.

(** [hash_extra_blake] of [hash-extra-blake.c] *)
Definition hash_extra_blake (buf data : list Z) (length : Z) : result (list Z) := blake256_hash buf data length.

(** ** HMAC *)
Record hmac_state := Hmac { inner : state; outer : state }.

(** [for (i = 0; i < keylen; ++i) pad[i] ^= key[i]], after [memset(pad, c, 64)] *)
Definition hmac_pad (c : Z) (key : list Z) (keylen : Z) : result (list Z) :=
  for_ (Z.to_nat keylen) (fun i pad =>
    let! p := get pad i in
    let! k := get key i in
    set pad i (Z.lxor p k)) 0 (replicate 64 c).

Definition hmac_blake256_init (buf _key : list Z) (keylen : Z) : result hmac_state :=
  let! (key, keylen) :=
    if 64 <? keylen then
      let! keyhash := blake256_hash buf _key keylen in
      Ok (keyhash, 32)
    else Ok (_key, keylen) in
  let! pad := hmac_pad 0x36 key keylen in
  let! inner := blake256_update (blake256_init buf) pad 512 in
  let! pad := hmac_pad 0x5c key keylen in
  let! outer := blake256_update (blake256_init buf) pad 512 in
  Ok (Hmac inner outer).

Definition hmac_blake224_init (buf _key : list Z) (keylen : Z) : result hmac_state :=
  let! (key, keylen) :=
    if 64 <? keylen then
      let! keyhash := blake256_hash buf _key keylen in
      Ok (keyhash, 28)
    else Ok (_key, keylen) in
  let! pad := hmac_pad 0x36 key keylen in
  let! inner := blake224_update (blake224_init buf) pad 512 in
  let! pad := hmac_pad 0x5c key keylen in
  let! outer := blake224_update (blake224_init buf) pad 512 in
  Ok (Hmac inner outer).

Definition hmac_blake256_update (st : hmac_state) (data : list Z) (datalen : Z) : result hmac_state :=
  let! inner := blake256_update (inner st) data datalen in
  Ok (Hmac inner (outer st)).

Definition hmac_blake224_update (st : hmac_state) (data : list Z) (datalen : Z) : result hmac_state :=
  let! inner := blake224_update (inner st) data datalen in
  Ok (Hmac inner (outer st)).

Definition hmac_blake256_final (st : hmac_state) : result (list Z) :=
  let! ihash := blake256_final (inner st) in
  let! outer := blake256_update (outer st) ihash 256 in
  blake256_final outer.

Definition hmac_blake224_final (st : hmac_state) : result (list Z) :=
  let! ihash := blake224_final (inner st) in
  let! outer := blake224_update (outer st) ihash 224 in
  blake224_final outer.

Definition hmac_blake256_hash (buf key : list Z) (keylen : Z) (data : list Z) (inlen : Z) : result (list Z) :=
  let! st := hmac_blake256_init buf key keylen in
  let! st := hmac_blake256_update st data (u64 (inlen * 8)) in
  hmac_blake256_final st.

Definition hmac_blake224_hash (buf key : list Z) (keylen : Z) (data : list Z) (inlen : Z) : result (list Z) :=
  let! st := hmac_blake224_init buf key keylen in
  let! st := hmac_blake224_update st data (u64 (inlen * 8)) in
  hmac_blake224_final st.
