(* ===== verification/Blake256Facts.v ===== *)
(** * Correctness of BLAKE-256

    The specification follows the document that defines the function: the
    compression in columns and diagonals of a 4x4 matrix, the padding, and a
    counter of message bits per block.  The code takes its input in pieces and
    keeps the counter right by subtracting the padding from it beforehand. *)

From stdpp Require Import base list numbers.
From Stdlib Require Import ZArith Lia.
From S2P Require Import Prelude Bytes Streaming ChaChaFacts Blake256.

(** ** The specification *)
Module Blake.
Definition word (m : list Z) (j : nat) : Z := nth j m 0.

(** Pi, scaled by [2^640], by Machin's formula. *)
Fixpoint arctan (fuel : nat) (n k power : Z) : Z :=
  match fuel with
  | O => 0
  | S fuel => power / k - arctan fuel n (k + 2) (power / (n * n))
  end.
Definition pi : Z := 16 * arctan 150 5 1 (2 ^ 640 / 5) - 4 * arctan 150 239 1 (2 ^ 640 / 239).

(** The sixteen constants are the first 512 bits of its fractional part. *)
Definition cst : list Z :=
  Eval vm_compute in (fun i => (pi / 2 ^ (640 - 32 * Z.of_nat (i + 1))) mod 2 ^ 32) <$> seq 0 16.

(** The [k]-th 32 bits of the fractional part of the square root of [n]. *)
Definition root_bits (k n : Z) : Z := Z.sqrt (n * 2 ^ (64 * k)) mod 2 ^ 32.

(** The initial values are those of SHA-256 and SHA-224: the first 32 bits for the first eight primes, the second 32 bits
    for the next eight. *)
Definition iv256 : list Z := Eval vm_compute in root_bits 1 <$> [2; 3; 5; 7; 11; 13; 17; 19].
Definition iv224 : list Z := Eval vm_compute in root_bits 2 <$> [23; 29; 31; 37; 41; 43; 47; 53].

(** The ten permutations of the message words. *)
Definition sigma : list (list nat) :=
  [[0; 1; 2; 3; 4; 5; 6; 7; 8; 9; 10; 11; 12; 13; 14; 15];
   [14; 10; 4; 8; 9; 15; 13; 6; 1; 12; 0; 2; 11; 7; 5; 3];
   [11; 8; 12; 0; 5; 2; 15; 13; 10; 14; 3; 6; 7; 1; 9; 4];
   [7; 9; 3; 1; 13; 12; 11; 14; 2; 6; 5; 10; 4; 0; 15; 8];
   [9; 0; 5; 7; 2; 4; 10; 15; 14; 1; 11; 12; 6; 8; 3; 13];
   [2; 12; 6; 10; 0; 11; 8; 3; 4; 13; 7; 5; 15; 14; 1; 9];
   [12; 5; 1; 15; 14; 13; 4; 10; 0; 7; 6; 3; 9; 2; 8; 11];
   [13; 11; 7; 14; 12; 1; 3; 9; 5; 0; 15; 4; 8; 6; 2; 10];
   [6; 15; 14; 9; 11; 3; 0; 8; 12; 2; 13; 7; 1; 4; 10; 5];
   [10; 2; 8; 4; 7; 6; 1; 5; 15; 11; 9; 14; 3; 12; 13; 0]]%nat.

(** The rotation of a 32-bit word to the right. *)
Definition rotr (x n : Z) : Z := Z.lor (u32 (Z.shiftl x (32 - n))) (Z.shiftr x n).

(** Half of the function G: the message word [x] and two rotations. *)
Definition half (x n1 n2 : Z) (v : Z * Z * Z * Z) : Z * Z * Z * Z :=
  let '(a, b, c, d) := v in
  let a := u32 (a + u32 (x + b)) in
  let d := rotr (Z.lxor d a) n1 in
  let c := u32 (c + d) in
  let b := rotr (Z.lxor b c) n2 in
  (a, b, c, d).

(** G number [i] of round [r]; the permutations repeat after ten rounds. *)
Definition mix (r : nat) (m : list Z) (i : nat) (v : Z * Z * Z * Z) : Z * Z * Z * Z :=
  let row := nth (r mod 10) sigma [] in
  let j := nth (2 * i) row 0%nat in
  let k := nth (2 * i + 1) row 0%nat in
  half (Z.lxor (word m k) (word cst j)) 8 7 (half (Z.lxor (word m j) (word cst k)) 16 12 v).

(** The four columns at once, with the functions [g] to [g + 3]. *)
Definition columns (r : nat) (m : list Z) (g : nat) (x : list Z) : list Z :=
  Stream.matrix (fun k c =>
    Stream.row (mix r m (g + c) (Stream.entry x 0 c, Stream.entry x 1 c, Stream.entry x 2 c, Stream.entry x 3 c)) k).

Definition round (m : list Z) (r : nat) (x : list Z) : list Z :=
  Stream.turn_back (columns r m 4 (Stream.turn (columns r m 0 x))).

(** The chain value after a block, for the salt [s] and the counter [t]. *)
Definition compress (s h : list Z) (t : Z * Z) (m : list Z) : list Z :=
  let '(t0, t1) := t in
  let v := h ++ zip_with Z.lxor s (take 4 cst) ++
    [Z.lxor (word cst 4) t0; Z.lxor (word cst 5) t0; Z.lxor (word cst 6) t1; Z.lxor (word cst 7) t1] in
  let v := foldl (fun v r => round m r v) v (seq 0 14) in
  (fun i => Z.lxor (Z.lxor (Z.lxor (word h i) (word v i)) (word v (i + 8))) (word s (i mod 4))) <$> seq 0 8.
End Blake.

(** A rotation moves bit [i + n], modulo 32, to bit [i]. *)
Lemma rotr_bits x n i :
  0 <= x < 2 ^ 32 -> 0 <= n < 32 -> 0 <= i < 32 -> Z.testbit (Blake.rotr x n) i = Z.testbit x ((i + n) mod 32).
Proof.
  intros Hx Hn Hi. unfold Blake.rotr, u32. rewrite Z.lor_spec, Z.shiftr_spec, Z.mod_pow2_bits_low, Z.shiftl_spec by lia.
  destruct (Z_lt_le_dec (i + n) 32) as [H|H].
  - rewrite (Z.mod_small (i + n)), (Z.testbit_neg_r _ (i - (32 - n))) by lia. done.
  - replace ((i + n) mod 32) with (i - (32 - n)) by (apply (Z.mod_unique_pos _ _ 1); lia).
    rewrite (testbit_small x 32 (i + n)) by lia. apply orb_false_r.
Qed.

(** ** The compression *)
Lemma U8TO32_spec p o :
  bytes p -> (o + 4 <= length p)%nat -> U8TO32 p o = Ok (be_val (take 4 (drop o p))).
Proof.
  intros Hp Ho. unfold U8TO32.
  destruct (lookup_lt_is_Some_2 p o ltac:(lia)) as [b0 H0], (lookup_lt_is_Some_2 p (o + 1) ltac:(lia)) as [b1 H1],
    (lookup_lt_is_Some_2 p (o + 2) ltac:(lia)) as [b2 H2], (lookup_lt_is_Some_2 p (o + 3) ltac:(lia)) as [b3 H3].
  rewrite (get_ok _ _ _ H0), (get_ok _ _ _ H1), (get_ok _ _ _ H2), (get_ok _ _ _ H3). cbn [bind]. f_equal.
  assert (take 4 (drop o p) = [b0; b1; b2; b3]) as ->.
  { rewrite Nat.add_1_r in H1. replace (o + 2)%nat with (S (S o)) in H2 by lia. replace (o + 3)%nat with (S (S (S o))) in H3 by lia.
    rewrite (drop_S _ _ _ H0), (drop_S _ _ _ H1), (drop_S _ _ _ H2), (drop_S _ _ _ H3). done. }
  pose proof (Forall_lookup_1 _ _ _ _ Hp H0) as B0. pose proof (Forall_lookup_1 _ _ _ _ Hp H1) as B1.
  pose proof (Forall_lookup_1 _ _ _ _ Hp H2) as B2. pose proof (Forall_lookup_1 _ _ _ _ Hp H3) as B3.
  unfold is_byte in *. unfold u32. rewrite !Z.mod_small by (rewrite Z.shiftl_mul_pow2; lia).
  rewrite (Z.lor_comm _ b3), (Z.lor_comm _ (Z.shiftl b2 8)), (Z.lor_comm _ (Z.shiftl b1 16)).
  change 24 with (8 + 16). change 16 with (8 + 8). rewrite <- !Z.shiftl_shiftl by lia.
  rewrite <- !Z.shiftl_lor.
  rewrite (lor_shiftl_add b1 b0 8), (lor_shiftl_add b2 _ 8), (lor_shiftl_add b3 _ 8) by lia. cbn. lia.
Qed.

(** The sixteen message words of a block. *)
Definition block_words (block : list Z) : list Z := (fun i => be_val (take 4 (drop (i * 4) block))) <$> seq 0 16.

Lemma load_block_spec block : bytes block -> (64 <= length block)%nat -> load_block block = Ok (block_words block).
Proof.
  intros Hb Hl. unfold load_block. rewrite (for_update _ _ (fun i _ => be_val (take 4 (drop (i * 4) block)))).
  - done.
  - by rewrite length_replicate.
  - intros i x a Hi _ Ha Hla. rewrite U8TO32_spec by (done || lia). cbn [bind]. apply set_ok.
    rewrite Hla. by rewrite length_replicate.
Qed.

Lemma block_words_length block : length (block_words block) = 16%nat.
Proof. done. Qed.

Lemma blake_round_spec m r v :
  length m = 16%nat -> length v = 16%nat -> (r < 14)%nat -> blake_round m r v = Ok (Blake.round m r v).
Proof.
  intros Hm Hv Hr. do 16 (destruct m as [|? m]; [discriminate Hm|]). destruct m; [|discriminate Hm].
  do 16 (destruct v as [|? v]; [discriminate Hv|]). destruct v; [|discriminate Hv].
  unfold blake_round, G, vrot. change ROT with Blake.rotr.
  do 14 (destruct r as [|r]; [lazy -[Z.lxor Blake.rotr u32 Z.add]; reflexivity|]). lia.
Qed.

Lemma blake_round_length m r v : length (Blake.round m r v) = 16%nat.
Proof. apply matrix_length. Qed.

Lemma blake_rounds_spec m n r v :
  length m = 16%nat -> length v = 16%nat -> (r + n <= 14)%nat ->
  for_ n (blake_round m) r v = Ok (foldl (fun v r => Blake.round m r v) v (seq r n)).
Proof.
  intros Hm. revert r v. induction n as [|n IH]; intros r v Hv Hr; [done|]. cbn [for_ seq foldl].
  rewrite blake_round_spec by (done || lia). cbn [bind]. apply IH; [apply blake_round_length|lia].
Qed.

(** The counter that the compression sees. *)
Definition counter (st : state) : Z * Z := if nullt st =? 0 then (st_t0 st, st_t1 st) else (0, 0).

Definition set_h (h : list Z) (st : state) : state := St h (st_s st) (st_t0 st) (st_t1 st) (buflen st) (nullt st) (buf st).

Lemma compress_init_spec st :
  length (st_h st) = 8%nat -> length (st_s st) = 4%nat ->
  compress_init st = Ok (st_h st ++ zip_with Z.lxor (st_s st) (take 4 cst) ++
    let '(t0, t1) := counter st in
    [Z.lxor 0xA4093822 t0; Z.lxor 0x299F31D0 t0; Z.lxor 0x082EFA98 t1; Z.lxor 0xEC4E6C89 t1]).
Proof.
  destruct st as [h s t0 t1 bl nt bf]. cbn [st_h st_s]. intros Hh Hs. unfold compress_init, counter.
  cbn [st_h st_s st_t0 st_t1 nullt].
  do 8 (destruct h as [|? h]; [discriminate Hh|]). destruct h; [|discriminate Hh].
  do 4 (destruct s as [|? s]; [discriminate Hs|]). destruct s; [|discriminate Hs].
  destruct (nt =? 0); [|rewrite !Z.lxor_0_r]; lazy -[Z.lxor]; reflexivity.
Qed.

Lemma compress_final_spec st v :
  length (st_h st) = 8%nat -> length (st_s st) = 4%nat -> length v = 16%nat ->
  compress_final st v = Ok ((fun i => Z.lxor (Z.lxor (Z.lxor (Blake.word (st_h st) i) (Blake.word v i)) (Blake.word v (i + 8)))
    (Blake.word (st_s st) (i mod 4))) <$> seq 0 8).
Proof.
  destruct st as [h s t0 t1 bl nt bf]. cbn [st_h st_s]. intros Hh Hs Hv. unfold compress_final. cbn [st_h st_s].
  do 8 (destruct h as [|? h]; [discriminate Hh|]). destruct h; [|discriminate Hh].
  do 4 (destruct s as [|? s]; [discriminate Hs|]). destruct s; [|discriminate Hs].
  do 16 (destruct v as [|? v]; [discriminate Hv|]). destruct v; [|discriminate Hv].
  lazy -[Z.lxor]. reflexivity.
Qed.

Lemma compress_spec st block :
  length (st_h st) = 8%nat -> length (st_s st) = 4%nat -> bytes block -> (64 <= length block)%nat ->
  blake256_compress st block = Ok (set_h (Blake.compress (st_s st) (st_h st) (counter st) (block_words block)) st).
Proof.
  intros Hh Hs Hb Hl. unfold blake256_compress. rewrite load_block_spec, compress_init_spec by done. cbn [bind].
  unfold Blake.compress. destruct (counter st) as [t0 t1].
  rewrite blake_rounds_spec; [|done| |lia].
  - cbn [bind]. rewrite compress_final_spec; [done|done|done|]. apply (blake_round_length _ 13).
  - rewrite !length_app, length_zip_with, Hh, Hs. done.
Qed.

Lemma compress_length s h t m : length (Blake.compress s h t m) = 8%nat.
Proof. unfold Blake.compress. by destruct t. Qed.

(** ** Input in pieces *)
Definition salt : list Z := [0; 0; 0; 0].

(** The counter after one more block. *)
Definition tick (t : Z * Z) : Z * Z := let t0 := u32 (t.1 + 512) in (t0, if t0 =? 0 then u32 (t.2 + 1) else t.2).

Definition seen (n : Z) (t : Z * Z) : Z * Z := if n =? 0 then t else (0, 0).

(** The chain value and the counter after [k] blocks of [m]. *)
Fixpoint absorb (k : nat) (n : Z) (h : list Z) (t : Z * Z) (m : list Z) : list Z * (Z * Z) :=
  match k with
  | O => (h, t)
  | S k => absorb k n (Blake.compress salt h (seen n (tick t)) (block_words (take 64 m))) (tick t) (drop 64 m)
  end.

(** A state that absorbed full blocks up to the chain value [h] and holds [pend] in its buffer; [buflen] says so
    between calls. *)
Record loaded (st : state) (n : Z) (h : list Z) (t : Z * Z) (pend : list Z) : Prop := {
  loaded_h : st_h st = h; loaded_length : length h = 8%nat; loaded_salt : st_s st = salt;
  loaded_t : (st_t0 st, st_t1 st) = t; loaded_nullt : nullt st = n;
  loaded_buf : length (buf st) = 64%nat /\ bytes (buf st);
  loaded_pend : take (length pend) (buf st) = pend; loaded_short : (length pend < 64)%nat }.

Definition stream (st : state) (n : Z) (h : list Z) (t : Z * Z) (pend : list Z) : Prop :=
  loaded st n h t pend /\ buflen st = 8 * Z.of_nat (length pend).

Lemma block_words_take block : block_words (take 64 block) = block_words block.
Proof.
  unfold block_words. apply list_fmap_ext. intros k i Hi. apply lookup_seq in Hi as [-> Hk].
  rewrite skipn_firstn_comm, take_take. do 2 f_equal. lia.
Qed.

(** The state after the chain value and the counter moved. *)
Definition moved (ht : list Z * (Z * Z)) (st : state) : state :=
  St ht.1 (st_s st) ht.2.1 ht.2.2 (buflen st) (nullt st) (buf st).

Lemma full_blocks_spec k st data r :
  length (st_h st) = 8%nat -> st_s st = salt -> bytes data -> (64 * k + r <= length data)%nat -> (r < 64)%nat ->
  8 * Z.of_nat (64 * k + r) < 2 ^ 64 ->
  full_blocks k st data (8 * Z.of_nat (64 * k + r)) =
    Ok (moved (absorb k (nullt st) (st_h st) (st_t0 st, st_t1 st) data) st, drop (64 * k) data, 8 * Z.of_nat r).
Proof.
  revert st data. induction k as [|k IH]; intros st data Hh Hs Hb Hl Hr Hlt.
  - destruct st. cbn [full_blocks absorb]. rewrite Nat.mul_0_r, Nat.add_0_l, drop_0.
    destruct (Z.leb_spec 512 (8 * Z.of_nat r)); [lia|]. done.
  - cbn [full_blocks]. destruct (Z.leb_spec 512 (8 * Z.of_nat (64 * S k + r))); [|lia].
    rewrite compress_spec by (done || (cbn [count_block st_s]; rewrite Hs; done) || lia). cbn [bind].
    replace (u64 (8 * Z.of_nat (64 * S k + r) - 512)) with (8 * Z.of_nat (64 * k + r)) by (unfold u64; rewrite Z.mod_small; lia).
    rewrite IH; [|apply compress_length|exact Hs|by apply Forall_drop|rewrite length_drop; lia|done|lia].
    rewrite drop_drop. replace (64 + 64 * k)%nat with (64 * S k)%nat by lia. cbn [absorb]. rewrite <- (block_words_take data).
    cbn [set_h count_block st_h st_s st_t0 st_t1 nullt]. rewrite Hs. done.
Qed.

Lemma absorb_length k n h t m : length h = 8%nat -> length (absorb k n h t m).1 = 8%nat.
Proof. revert h t m. induction k as [|k IH]; intros h t m Hh; [done|]. apply IH, compress_length. Qed.

(** Only the blocks of the message matter. *)
Lemma absorb_take k n h t m j : (64 * k <= j)%nat -> absorb k n h t (take j m) = absorb k n h t m.
Proof.
  revert h t m j. induction k as [|k IH]; intros h t m j Hj; [done|]. cbn [absorb].
  rewrite take_take, Nat.min_l, skipn_firstn_comm by lia. apply IH. lia.
Qed.

Lemma shiftr_bits8 z : Z.shiftr (8 * z) 3 = z.
Proof. rewrite Z.shiftr_div_pow2 by lia. change (2 ^ 3) with 8. rewrite Z.mul_comm. by apply Z.div_mul. Qed.

Lemma divide_512 k r : (r < 64)%nat -> Z.to_nat (8 * Z.of_nat (64 * k + r) / 512) = k.
Proof. intros Hr. rewrite <- (Nat2Z.id k) at 2. f_equal. symmetry. apply (Z.div_unique _ _ _ (8 * Z.of_nat r)); lia. Qed.

(** The end of [update], with an empty buffer or with less than a block. *)
Lemma update_rest_spec st n h t pend data k r :
  loaded st n h t pend -> bytes data -> (64 * k + r <= length data)%nat -> (r < 64)%nat -> 8 * Z.of_nat (64 * k + r) < 2 ^ 64 ->
  pend = [] \/ (k = 0%nat /\ (0 < r)%nat /\ (length pend + r < 64)%nat) ->
  returns (update_rest st data (8 * Z.of_nat (64 * k + r)) (Z.of_nat (length pend))) (fun st' =>
    let ht := absorb k n h t data in stream st' n ht.1 ht.2 (pend ++ take r (drop (64 * k) data))).
Proof.
  intros [E1 E2 E3 E4 E5 [E7 E8] E9 E10] Hb Hl Hr Hlt Hp. unfold update_rest. rewrite divide_512 by done.
  rewrite full_blocks_spec by (done || congruence). cbn [bind]. rewrite E1, E4, E5.
  set (ht := absorb k n h t data). assert (length ht.1 = 8%nat) as Hht by (by apply absorb_length).
  destruct (Z.ltb_spec 0 (8 * Z.of_nat r)) as [H0|H0].
  - rewrite shiftr_bits8, !Nat2Z.id. cbn [moved buf].
    assert (length pend + r < 64)%nat as Hpr by (destruct Hp as [->|Hp]; cbn [length] in *; lia).
    destruct (memcpy_append (buf st) pend (drop (64 * k) data) r E9) as (b & Em & Lb & Tb); [lia|rewrite length_drop; lia|].
    rewrite Em. cbn [bind]. assert (length (take r (drop (64 * k) data)) = r) as Lr by (rewrite length_take, length_drop; lia).
    cbn [returns]. split; [|cbn [set_buf buflen]; rewrite length_app, Lr, Z.shiftl_mul_pow2 by lia; unfold u64;
      rewrite Z.mod_small, to_i32_id by lia; lia].
    split; cbn [set_buf moved st_h st_s st_t0 st_t1 nullt buf]; try done.
    + by destruct ht as [? [??]].
    + split; [lia|]. rewrite memcpy_ok in Em by (rewrite ?length_drop; lia). injection Em as <-.
      apply Forall_app. split; [by apply Forall_take|]. apply Forall_app. split; [by apply Forall_take, Forall_drop|by apply Forall_drop].
    + by rewrite length_app, Lr.
    + rewrite length_app, Lr. done.
  - assert (r = 0%nat) as -> by lia. destruct Hp as [->|Hp]; [|lia]. cbn [returns app]. rewrite take_0.
    split; [|done]. split; cbn [set_buf moved st_h st_s st_t0 st_t1 nullt buf length]; try done. by destruct ht as [? [??]].
Qed.

(** The pieces that [update] treats right: with a buffer that is not empty, it looks at the length of the input
    modulo the block only. *)
Definition regular (p L : nat) : Prop :=
  p = 0%nat \/ ((0 < L)%nat /\ ((p + L < 64)%nat \/ (64 <= p + L mod 64)%nat)).

#[export] Instance regular_dec p L : Decision (regular p L) := _.

Lemma regular_short p L : (p < 64)%nat -> (0 < L < 64)%nat -> regular p L.
Proof. intros Hp HL. unfold regular. rewrite Nat.mod_small by lia. lia. Qed.

(** The state after the whole blocks of [m]. *)
Definition absorbed (n : Z) (h : list Z) (t : Z * Z) (m : list Z) (st : state) : Prop :=
  let k := (length m / 64)%nat in
  stream st n (absorb k n h t m).1 (absorb k n h t m).2 (drop (64 * k) m).

Lemma split_64 (n : nat) : exists k r, n = (64 * k + r)%nat /\ (r < 64)%nat /\ (n / 64)%nat = k /\ (n mod 64)%nat = r.
Proof.
  exists (n / 64)%nat, (n mod 64)%nat. split_and!; [apply Nat.Div0.div_mod|apply Nat.mod_upper_bound; lia|done|done].
Qed.

Lemma div_64 k r : (r < 64)%nat -> ((64 * k + r) / 64)%nat = k.
Proof. intros Hr. symmetry. apply (Nat.div_unique _ _ _ r); lia. Qed.

Lemma land_63 L : Z.land (Z.of_nat L) 0x3F = Z.of_nat (L mod 64).
Proof. change 0x3F with (Z.ones 6). rewrite Z.land_ones by lia. by rewrite Nat2Z.inj_mod. Qed.

Lemma update_spec st n h t pend data L :
  stream st n h t pend -> bytes data -> (L <= length data)%nat -> 8 * Z.of_nat L < 2 ^ 64 -> regular (length pend) L ->
  returns (blake256_update st data (8 * Z.of_nat L)) (absorbed n h t (pend ++ take L data)).
Proof.
  intros [Hst E6] Hb HL Hlt Hreg. destruct (Hst) as [E1 E2 E3 E4 E5 [E7 E8] E9 E10]. unfold blake256_update, absorbed.
  rewrite E6, !shiftr_bits8, land_63. rewrite i32_abs by lia. cbn [bind].
  destruct (split_64 L) as (k & r & EL & Hr & _ & Er). rewrite Er. unfold u32. rewrite Z.mod_small by lia.
  assert (length (take L data) = L) as LL by (rewrite length_take; lia).
  destruct (Z.eqb_spec (Z.of_nat (length pend)) 0) as [Hp0|Hp0]; cbn [negb andb].
  - assert (pend = []) as -> by (apply length_zero_iff_nil; lia). cbn [app length]. rewrite LL, EL, div_64 by done.
    rewrite <- EL, absorb_take, skipn_firstn_comm by lia. replace (L - 64 * k)%nat with r by lia. rewrite EL.
    apply (update_rest_spec st n h t []); [done|done|lia|done|lia|by left].
  - destruct Hreg as [Hreg|[HL0 Hreg]]; [lia|]. rewrite length_app, LL.
    destruct (Z.leb_spec (64 - Z.of_nat (length pend)) (Z.of_nat r)) as [Hf|Hf].
    + set (fill := (64 - length pend)%nat). replace (64 - Z.of_nat (length pend)) with (Z.of_nat fill) by lia. rewrite !Nat2Z.id.
      destruct (memcpy_append (buf st) pend data fill E9) as (b & Em & Lb & Tb); [lia|lia|].
      assert (bytes b) as Bb.
      { rewrite memcpy_ok in Em by lia. injection Em as <-.
        apply Forall_app. split; [by apply Forall_take|]. apply Forall_app. split; [by apply Forall_take|by apply Forall_drop]. }
      rewrite Em. cbn [bind]. rewrite compress_spec; [|cbn; congruence|cbn; by rewrite E3|done|lia]. cbn [bind].
      replace (length pend + fill)%nat with 64%nat in Tb by lia. rewrite take_ge in Tb by lia. subst b.
      replace (u64 (8 * Z.of_nat L - Z.shiftl (Z.of_nat fill) 3)) with (8 * Z.of_nat (64 * k + (r - fill)))
        by (rewrite Z.shiftl_mul_pow2 by lia; unfold u64; rewrite Z.mod_small; lia).
      replace ((length pend + L) / 64)%nat with (S k) by (apply (Nat.div_unique _ _ _ (r - fill)); lia).
      cbn [absorb]. rewrite take_app_ge, drop_app_ge by lia. fold fill.
      rewrite take_take, Nat.min_l, skipn_firstn_comm by lia. rewrite absorb_take by lia.
      replace (64 * S k)%nat with (64 + 64 * k)%nat by lia. rewrite <- drop_drop, drop_app_ge by lia. fold fill.
      rewrite skipn_firstn_comm, skipn_firstn_comm. replace (L - fill - 64 * k)%nat with (r - fill)%nat by lia.
      change 0 with (Z.of_nat (length (@nil Z))).
      apply (update_rest_spec _ n _ _ [] (drop fill data) k (r - fill)); [|by apply Forall_drop|rewrite length_drop; lia|lia|lia|by left].
      split; cbn [set_h count_block set_buf st_h st_s st_t0 st_t1 nullt buf]; try done.
      * rewrite E1, E3. unfold counter, seen. cbn [count_block set_buf nullt st_t0 st_t1]. rewrite E5, <- E4. done.
      * apply compress_length.
      * rewrite <- E4. done.
      * split; [rewrite Lb; done|done].
      * cbn. lia.
    + assert (k = 0%nat) as -> by lia.
      replace ((length pend + L) / 64)%nat with 0%nat by (symmetry; apply Nat.div_small; lia). cbn [absorb]. rewrite drop_0.
      rewrite EL. replace (take (64 * 0 + r) data) with (take r (drop (64 * 0) data)) by done.
      apply (update_rest_spec st n h t pend data 0 r); [done|done|lia|done|lia|right; lia].
Qed.

(** ** Pieces in a row *)
Lemma absorb_add j k n h t m :
  absorb (j + k) n h t m = absorb k n (absorb j n h t m).1 (absorb j n h t m).2 (drop (64 * j) m).
Proof.
  revert h t m. induction j as [|j IH]; intros h t m; [by rewrite Nat.mul_0_r, drop_0|]. cbn [Nat.add absorb].
  rewrite IH, drop_drop. do 2 f_equal. lia.
Qed.

Lemma absorb_app k n h t a b : (64 * k <= length a)%nat -> absorb k n h t (a ++ b) = absorb k n h t a.
Proof. intros Hk. rewrite <- (absorb_take k n h t (a ++ b) (length a)) by done. by rewrite take_app_length. Qed.

Lemma absorbed_app n h t m d st :
  absorbed n (absorb (length m / 64) n h t m).1 (absorb (length m / 64) n h t m).2 (drop (64 * (length m / 64)) m ++ d) st ->
  absorbed n h t (m ++ d) st.
Proof.
  unfold absorbed. rewrite !length_app, length_drop. destruct (split_64 (length m)) as (k & r & E & Hr & -> & _). rewrite E.
  replace (64 * k + r - 64 * k)%nat with r by lia.
  replace ((64 * k + r + length d) / 64)%nat with (k + (r + length d) / 64)%nat
    by (rewrite <- Nat.add_assoc, (Nat.mul_comm 64 k), Nat.add_comm, Nat.div_add_l by lia; lia).
  set (j := ((r + length d) / 64)%nat). rewrite absorb_add, (absorb_app k) by lia.
  rewrite !Nat.mul_add_distr_l, <- drop_drop. rewrite (drop_app_le m d) by lia. done.
Qed.

(** A piece after others, if it is regular. *)
Lemma update_absorbed_take st n h t m data L :
  absorbed n h t m st -> bytes data -> (L <= length data)%nat -> 8 * Z.of_nat L < 2 ^ 64 -> regular (length m mod 64) L ->
  returns (blake256_update st data (8 * Z.of_nat L)) (absorbed n h t (m ++ take L data)).
Proof.
  intros Hst Hb HL Hlt Hreg. unfold absorbed in Hst. eapply returns_mono.
  - apply (update_spec _ _ _ _ _ data L Hst Hb HL Hlt).
    destruct (split_64 (length m)) as (k & r & E & Hr & -> & Er). rewrite length_drop, E.
    replace (64 * k + r - 64 * k)%nat with r by lia. by rewrite <- Er.
  - intros st' Hst'. by apply absorbed_app.
Qed.

Lemma update_absorbed st n h t m data :
  absorbed n h t m st -> bytes data -> 8 * Z.of_nat (length data) < 2 ^ 64 -> regular (length m mod 64) (length data) ->
  returns (blake256_update st data (8 * Z.of_nat (length data))) (absorbed n h t (m ++ data)).
Proof.
  intros Hst Hb Hlt Hreg. pose proof (update_absorbed_take st n h t m data (length data) Hst Hb ltac:(lia) Hlt Hreg) as H.
  by rewrite (take_ge data) in H.
Qed.

(** A piece that does not fill the block, and one that does. *)
Lemma update_more st n h t pend data L :
  stream st n h t pend -> bytes data -> (L <= length data)%nat -> (0 < L)%nat -> (length pend + L < 64)%nat ->
  returns (blake256_update st data (8 * Z.of_nat L)) (fun st' => stream st' n h t (pend ++ take L data)).
Proof.
  intros Hst Hb HL H0 Hlt. eapply returns_mono; [apply (update_spec _ _ _ _ _ data L Hst Hb HL); [lia|apply regular_short; lia]|].
  intros st' Hst'. unfold absorbed in Hst'. rewrite length_app, length_take, Nat.min_l, Nat.div_small in Hst' by lia.
  by rewrite Nat.mul_0_r, drop_0 in Hst'.
Qed.

Lemma update_full st n h t pend data L :
  stream st n h t pend -> bytes data -> (L <= length data)%nat -> (0 < L < 64)%nat -> (length pend + L = 64)%nat ->
  returns (blake256_update st data (8 * Z.of_nat L)) (fun st' =>
    stream st' n (Blake.compress salt h (seen n (tick t)) (block_words (pend ++ take L data))) (tick t) []).
Proof.
  intros Hst Hb HL H0 Hlt. eapply returns_mono; [apply (update_spec _ _ _ _ _ data L Hst Hb HL); [lia|apply regular_short; lia]|].
  intros st' Hst'. unfold absorbed in Hst'. rewrite length_app, length_take, Nat.min_l in Hst' by lia. rewrite Hlt in Hst'.
  change (64 / 64)%nat with 1%nat in Hst'. cbn [absorb fst snd] in Hst'.
  rewrite drop_ge, take_ge in Hst' by (rewrite length_app, length_take; lia). done.
Qed.

Lemma stream_uncount k st n h t pend : stream st n h t pend -> stream (uncount k st) n h (u32 (t.1 - k), t.2) pend.
Proof. intros [[E1 E2 E3 <- E5 E7 E9 E10] E6]. split; [by split|done]. Qed.

Lemma buflen_uncount k st : buflen (uncount k st) = buflen st.
Proof. done. Qed.

Lemma stream_nullt st n h t pend : stream st n h t pend -> stream (set_nullt st) 1 h t pend.
Proof. intros [[E1 E2 E3 <- E5 E7 E9 E10] E6]. split; [by split|done]. Qed.

(** ** The end of the message *)

(** A count of bits in two words. *)
Definition split_count (c : Z) : Z * Z := (c mod 2 ^ 32, c / 2 ^ 32).

Definition digest (h : list Z) : list Z := concat (be_bytes 4 <$> h).

(** The chain value after the last blocks, with [pend] left over after [T] bits. *)
Definition last_blocks (pa pb : Z) (h : list Z) (T : Z) (pend : list Z) : list Z :=
  let r := length pend in
  let c := T + 8 * Z.of_nat r in
  let tail := be_bytes 8 c in
  if decide (r = 55)%nat then Blake.compress salt h (split_count c) (block_words (pend ++ [pa] ++ tail))
  else if decide (r < 55)%nat then
    Blake.compress salt h (if decide (r = 0%nat) then (0, 0) else split_count c)
      (block_words (pend ++ (0x80 :: replicate (54 - r) 0) ++ [pb] ++ tail))
  else
    Blake.compress salt (Blake.compress salt h (split_count c) (block_words (pend ++ 0x80 :: replicate (63 - r) 0))) (0, 0)
      (block_words (replicate 55 0 ++ [pb] ++ tail)).

Lemma U32TO8_spec v : U32TO8 v = be_bytes 4 v.
Proof.
  unfold U32TO8, u8, be_bytes. change (le_bytes 4 v) with [v mod 256; v / 256 mod 256; v / 256 / 256 mod 256; v / 256 / 256 / 256 mod 256].
  rewrite !Z.shiftr_div_pow2, !Z.div_div by lia. done.
Qed.

Lemma be_bytes_8 hi lo : 0 <= lo < 2 ^ 32 -> be_bytes 8 (2 ^ 32 * hi + lo) = be_bytes 4 hi ++ be_bytes 4 lo.
Proof.
  intros Hlo. unfold be_bytes. rewrite <- reverse_app. f_equal.
  apply le_val_inj; [apply le_bytes_bytes|apply Forall_app; split; apply le_bytes_bytes|by rewrite length_app, !le_bytes_length|].
  rewrite le_val_app, !le_val_bytes, le_bytes_length. change (256 ^ Z.of_nat 8) with (2 ^ 32 * 2 ^ 32). change (256 ^ Z.of_nat 4) with (2 ^ 32).
  rewrite (Z.mod_small lo) by done. Z.to_euclidean_division_equations. nia.
Qed.

Lemma digest_spec st n h t pend : stream st n h t pend ->
  for_ 8 (fun i digest => let! hi := get (st_h st) i in Ok (digest ++ U32TO8 hi)) 0 [] = Ok (digest h).
Proof.
  intros [[-> Hh _ _ _ _ _ _] _].
  do 8 (destruct h as [|? h]; [discriminate Hh|]). destruct h; [|discriminate Hh].
  cbn [for_ get lookup list_lookup bind]. rewrite !U32TO8_spec. unfold digest. cbn [fmap list_fmap concat app].
  by rewrite <- !app_assoc, app_nil_r.
Qed.

Lemma u32_sub a b c : u32 (u32 (a - b) - c) = u32 (a - (b + c)).
Proof. unfold u32. rewrite Zminus_mod_idemp_l. f_equal. lia. Qed.

(** The counter that was set back by the padding stands at the message bits after the block. *)
Lemma tick_count T x :
  T mod 512 = 0 -> 0 <= T -> 0 < x < 512 -> tick (u32 (T mod 2 ^ 32 - (512 - x)), T / 2 ^ 32) = split_count (T + x).
Proof.
  intros HT H0 Hx. unfold tick, split_count. cbn [fst snd].
  assert (exists j, T mod 2 ^ 32 = 512 * j /\ 0 <= j < 2 ^ 23) as (j & Ej & Hj).
  { exists (T mod 2 ^ 32 / 512). change (2 ^ 32) with (512 * 2 ^ 23). Z.to_euclidean_division_equations. lia. }
  assert (u32 (u32 (T mod 2 ^ 32 - (512 - x)) + 512) = T mod 2 ^ 32 + x) as ->.
  { unfold u32. rewrite Zplus_mod_idemp_l. rewrite Z.mod_small; lia. }
  destruct (Z.eqb_spec (T mod 2 ^ 32 + x) 0); [lia|].
  assert (T + x = 2 ^ 32 * (T / 2 ^ 32) + (T mod 2 ^ 32 + x)) as E by (pose proof (Z.div_mod T (2 ^ 32)); lia).
  f_equal; [by apply (Z.mod_unique _ _ (T / 2 ^ 32)); [lia|]|by apply (Z.div_unique _ _ _ (T mod 2 ^ 32 + x)); [lia|]].
Qed.

Lemma finish_spec st n h t pend msglen :
  stream st n h t pend -> length pend = 56%nat -> bytes msglen -> length msglen = 8%nat ->
  (let! st := blake256_update (uncount 64 st) msglen 64 in
   for_ 8 (fun i digest => let! hi := get (st_h st) i in Ok (digest ++ U32TO8 hi)) 0 []) =
  Ok (digest (Blake.compress salt h (seen n (tick (u32 (t.1 - 64), t.2))) (block_words (pend ++ msglen)))).
Proof.
  intros Hst Hp Hb Hl.
  destruct (proj1 (returns_inv _ _) (update_full _ _ _ _ _ msglen 8 (stream_uncount 64 _ _ _ _ _ Hst) Hb ltac:(lia) ltac:(lia) ltac:(lia)))
    as (st' & E & Hst'). change (8 * Z.of_nat 8) with 64 in E. rewrite E. cbn [bind].
  rewrite (take_ge msglen) in Hst' by lia. by apply digest_spec in Hst'.
Qed.

Lemma bytes_one b : 0 <= b < 256 -> bytes [b].
Proof. intros H. by apply Forall_singleton. Qed.

Lemma padding_bytes : bytes padding.
Proof. unfold padding. constructor; [unfold is_byte; lia|]. apply Forall_replicate. unfold is_byte. lia. Qed.

Lemma take_padding k : (k < 64)%nat -> take (S k) padding = 0x80 :: replicate k 0.
Proof. intros Hk. unfold padding. cbn [take]. rewrite take_replicate, Nat.min_l by lia. done. Qed.

Section Final.
Context (st : state) (pa pb : Z) (h : list Z) (T : Z) (pend : list Z).
Hypothesis Hst : stream st 0 h (split_count T) pend.
Hypothesis HT : T mod 512 = 0.
Hypothesis HT0 : 0 <= T.
Hypothesis Hlen : T + 8 * Z.of_nat (length pend) < 2 ^ 64.
Hypothesis Hpa : 0 <= pa < 256.
Hypothesis Hpb : 0 <= pb < 256.

Let tail := be_bytes 8 (T + 8 * Z.of_nat (length pend)).

Lemma tail_ok : bytes tail /\ length tail = 8%nat.
Proof using Type. apply be_bytes_ok. Qed.

(** The padding in one more block. *)
Lemma final_short : (length pend < 55)%nat ->
  returns (let st := if buflen st =? 0 then set_nullt st else st in
    let! st := blake256_update (uncount (440 - buflen st) st) padding (440 - buflen st) in
    let! st := blake256_update st [pb] 8 in
    Ok (uncount 8 st)) (fun st' => stream st' (if decide (length pend = 0%nat) then 1 else 0) h
      (u32 (T mod 2 ^ 32 - (448 - 8 * Z.of_nat (length pend))), T / 2 ^ 32)
      (pend ++ (0x80 :: replicate (54 - length pend) 0) ++ [pb])).
Proof using All.
  intros Hr. cbv zeta. set (st1 := if buflen st =? 0 then set_nullt st else st).
  assert (stream st1 (if decide (length pend = 0%nat) then 1 else 0) h (split_count T) pend) as H1.
  { unfold st1. rewrite (proj2 Hst). case_decide as Hd.
    - rewrite Hd. by eapply stream_nullt.
    - destruct (Z.eqb_spec (8 * Z.of_nat (length pend)) 0); [lia|done]. }
  clearbody st1. rewrite (proj2 H1).
  replace (440 - 8 * Z.of_nat (length pend)) with (8 * Z.of_nat (S (54 - length pend))) by lia.
  eapply returns_bind; [apply (update_more _ _ _ _ _ padding _ (stream_uncount _ _ _ _ _ _ H1) padding_bytes);
    [cbn; lia|lia|lia]|].
  intros st2 H2. rewrite take_padding in H2 by lia.
  eapply returns_bind; [apply (update_more _ _ _ _ _ [pb] 1 H2 (bytes_one _ Hpb));
    [done|lia|rewrite length_app; cbn; rewrite length_replicate; lia]|].
  intros st3 H3. cbn [returns]. apply (stream_uncount 8) in H3. cbn [fst snd split_count take] in H3. rewrite u32_sub in H3.
  rewrite <- app_assoc in H3. replace (8 * Z.of_nat (S (54 - length pend)) + 8) with (448 - 8 * Z.of_nat (length pend)) in H3 by lia. done.
Qed.

(** The padding in two blocks. *)
Lemma final_long : (55 < length pend)%nat ->
  returns (let! st := blake256_update (uncount (512 - buflen st) st) padding (512 - buflen st) in
    let! st := blake256_update (uncount 440 st) (drop 1 padding) 440 in
    let! st := blake256_update (set_nullt st) [pb] 8 in
    Ok (uncount 8 st)) (fun st' => exists t,
      stream st' 1 (Blake.compress salt h (split_count (T + 8 * Z.of_nat (length pend))) (block_words (pend ++ 0x80 :: replicate (63 - length pend) 0))) t
      (replicate 55 0 ++ [pb])).
Proof using All.
  intros Hr. pose proof (loaded_short _ _ _ _ _ (proj1 Hst)) as H64. rewrite (proj2 Hst).
  replace (512 - 8 * Z.of_nat (length pend)) with (8 * Z.of_nat (S (63 - length pend))) by lia.
  eapply returns_bind; [apply (update_full _ _ _ _ _ padding _ (stream_uncount _ _ _ _ _ _ Hst) padding_bytes);
    [cbn; lia|lia|lia]|].
  intros st1 H1. rewrite take_padding in H1 by lia. cbn [split_count fst snd] in H1.
  replace (8 * Z.of_nat (S (63 - length pend))) with (512 - 8 * Z.of_nat (length pend)) in H1 by lia.
  rewrite tick_count in H1 by lia. cbn [seen Z.eqb] in H1.
  assert (bytes (drop 1 padding)) as Bd by (apply Forall_drop, padding_bytes).
  eapply returns_bind; [
    apply (update_more _ _ _ _ _ (drop 1 padding) 55 (stream_uncount _ _ _ _ _ _ H1) Bd); [cbn; lia|lia|cbn; lia]|].
  intros st2 H2. change (take 55 (drop 1 padding)) with (replicate 55 0) in H2. cbn [app] in H2. apply stream_nullt in H2.
  eapply returns_bind; [apply (update_more _ _ _ _ _ [pb] 1 H2 (bytes_one _ Hpb)); [done|lia|cbn; lia]|].
  intros st3 H3. cbn [returns]. eexists. apply (stream_uncount 8) in H3. exact H3.
Qed.

Lemma msglen_spec :
  let lo := u32 (st_t0 st + buflen st) in
  U32TO8 (if lo <? u32 (buflen st) then u32 (st_t1 st + 1) else st_t1 st) ++ U32TO8 lo = tail.
Proof using All.
  cbv zeta. pose proof (loaded_short _ _ _ _ _ (proj1 Hst)) as H64. pose proof (loaded_t _ _ _ _ _ (proj1 Hst)) as Ht.
  injection Ht as -> ->. rewrite (proj2 Hst), !U32TO8_spec.
  assert (exists j, T mod 2 ^ 32 = 512 * j /\ 0 <= j < 2 ^ 23) as (j & Ej & Hj).
  { exists (T mod 2 ^ 32 / 512). change (2 ^ 32) with (512 * 2 ^ 23). Z.to_euclidean_division_equations. lia. }
  assert (u32 (T mod 2 ^ 32 + 8 * Z.of_nat (length pend)) = T mod 2 ^ 32 + 8 * Z.of_nat (length pend)) as -> by (apply Z.mod_small; lia).
  assert (u32 (8 * Z.of_nat (length pend)) = 8 * Z.of_nat (length pend)) as -> by (apply Z.mod_small; lia).
  destruct (Z.ltb_spec (T mod 2 ^ 32 + 8 * Z.of_nat (length pend)) (8 * Z.of_nat (length pend))); [lia|].
  unfold tail. rewrite <- be_bytes_8 by lia. f_equal. pose proof (Z.div_mod T (2 ^ 32)). lia.
Qed.

Lemma final_spec : blake256_final_h st pa pb = Ok (digest (last_blocks pa pb h T pend)).
Proof using All.
  unfold blake256_final_h, last_blocks. cbv zeta. fold tail. rewrite msglen_spec. destruct tail_ok as [Bt Lt].
  pose proof (loaded_short _ _ _ _ _ (proj1 Hst)) as H64.
  destruct (decide (length pend = 55)%nat) as [H55|H55]; [|destruct (decide (length pend < 55)%nat) as [Hs|Hs]].
  - replace (buflen st =? 440) with true by (rewrite (proj2 Hst), H55; done).
    destruct (proj1 (returns_inv _ _) (update_more _ _ _ _ _ [pa] 1 (stream_uncount 8 _ _ _ _ _ Hst) (bytes_one _ Hpa) ltac:(done) ltac:(lia) ltac:(lia)))
      as (st' & E & Hst'). change (8 * Z.of_nat 1) with 8 in E. rewrite E. cbn [bind].
    rewrite (finish_spec _ _ _ _ _ tail Hst') by (done || (rewrite length_app, H55; done)).
    cbn [take fst snd split_count seen Z.eqb]. rewrite u32_sub. change (8 + 64) with (512 - 440). rewrite tick_count by lia.
    rewrite <- app_assoc. unfold seen. cbn [Z.eqb]. by rewrite H55.
  - replace (buflen st =? 440) with false by (symmetry; apply Z.eqb_neq; rewrite (proj2 Hst); lia).
    replace (buflen st <? 440) with true by (symmetry; apply Z.ltb_lt; rewrite (proj2 Hst); lia).
    destruct (proj1 (returns_inv _ _) (final_short Hs)) as (st' & E & Hst'). cbv zeta in E. rewrite buflen_uncount, E. cbn [bind].
    rewrite (finish_spec _ _ _ _ _ tail Hst') by (done || (rewrite !length_app; cbn [length]; rewrite length_replicate; lia)).
    cbn [fst snd]. rewrite u32_sub. rewrite <- !app_assoc. do 4 f_equal.
    case_decide as H0; [done|]. unfold seen. cbn [Z.eqb].
    replace (448 - 8 * Z.of_nat (length pend) + 64) with (512 - 8 * Z.of_nat (length pend)) by lia. apply tick_count; lia.
  - replace (buflen st =? 440) with false by (symmetry; apply Z.eqb_neq; rewrite (proj2 Hst); lia).
    replace (buflen st <? 440) with false by (symmetry; apply Z.ltb_ge; rewrite (proj2 Hst); lia).
    destruct (proj1 (returns_inv _ _) (final_long ltac:(lia))) as (st' & E & t & Hst').
    rewrite buflen_uncount. destruct (blake256_update _ padding _) as [st1|]; cbn [bind] in *; [|done].
    destruct (blake256_update _ (drop 1 padding) _) as [st2|]; cbn [bind] in *; [|done].
    destruct (blake256_update _ [pb] _) as [st3|]; cbn [bind] in *; [|done]. injection E as ->.
    rewrite (finish_spec _ _ _ _ _ tail Hst') by (done || (rewrite length_app; done)). by rewrite <- !app_assoc.
Qed.
End Final.

(** ** The hash of a message *)
Module BlakeHash.
(** The message bits up to the block [i], 0 if it has none. *)
Definition count (n i : nat) : Z := if decide (64 * i < n)%nat then 8 * Z.of_nat (Nat.min n (64 * (i + 1))) else 0.

(** A bit 1, zeros up to 448 bits modulo 512, the last bit [b]. *)
Definition pad (b : Z) (n : nat) : list Z :=
  let d := (1 + (119 - n mod 64) mod 64)%nat in
  alter (Z.lor b) (d - 1)%nat (alter (Z.lor 0x80) 0%nat (replicate d 0)).

Definition padded (b : Z) (msg : list Z) : list Z :=
  msg ++ pad b (length msg) ++ be_bytes 8 (8 * Z.of_nat (length msg)).

Definition chain (n : nat) (s h : list Z) (k : nat) : list Z :=
  foldl (fun h i => Blake.compress salt h (split_count (count n i)) (block_words (drop (64 * i) s))) h (seq 0 k).

(** The final chain value; [b] is 1 for BLAKE-256 and 0 for BLAKE-224. *)
Definition final (b : Z) (iv msg : list Z) : list Z :=
  digest (chain (length msg) (padded b msg) iv (length (padded b msg) / 64)).

(** The digests: BLAKE-224 leaves out the last word. *)
Definition blake256 (msg : list Z) : list Z := final 1 Blake.iv256 msg.
Definition blake224 (msg : list Z) : list Z := take 28 (final 0 Blake.iv224 msg).
End BlakeHash.

Lemma tick_block k : 0 <= k -> 512 * (k + 1) < 2 ^ 64 -> tick (split_count (512 * k)) = split_count (512 * (k + 1)).
Proof.
  intros Hk Hlt. unfold tick, split_count. cbn [fst snd]. unfold u32. rewrite Zplus_mod_idemp_l.
  replace (512 * k + 512) with (512 * (k + 1)) by lia.
  destruct (Z.eqb_spec ((512 * (k + 1)) mod 2 ^ 32) 0) as [E|E]; f_equal; Z.to_euclidean_division_equations; lia.
Qed.

Lemma chain_S n s h k :
  BlakeHash.chain n s h (S k) =
  Blake.compress salt (BlakeHash.chain n s h k) (split_count (BlakeHash.count n k)) (block_words (drop (64 * k) s)).
Proof. unfold BlakeHash.chain. by rewrite seq_S, foldl_app. Qed.

(** The whole blocks of a message. *)
Lemma absorb_chain k h msg rest :
  (64 * k <= length msg)%nat -> 8 * Z.of_nat (length msg) < 2 ^ 64 ->
  absorb k 0 h (0, 0) msg = (BlakeHash.chain (length msg) (msg ++ rest) h k, split_count (512 * Z.of_nat k)).
Proof.
  intros Hk Hlt. induction k as [|k IH]; [done|]. rewrite <- Nat.add_1_r, absorb_add, IH by lia. cbn [absorb fst snd].
  rewrite tick_block, Nat.add_1_r, chain_S by lia. unfold seen. cbn [Z.eqb].
  assert (BlakeHash.count (length msg) k = 512 * (Z.of_nat k + 1)) as -> by (unfold BlakeHash.count; rewrite decide_True, Nat.min_r by lia; lia).
  replace (512 * Z.of_nat (S k)) with (512 * (Z.of_nat k + 1)) by lia.
  assert (block_words (drop (64 * k) (msg ++ rest)) = block_words (take 64 (drop (64 * k) msg))) as ->; [|reflexivity].
  rewrite <- (block_words_take (drop (64 * k) (msg ++ rest))).
  rewrite drop_app_le, take_app_le by (rewrite ?length_drop; lia). reflexivity.
Qed.

Lemma pad_short r : (r <= 55)%nat -> (1 + (119 - r) mod 64 = 56 - r)%nat.
Proof. intros Hr. replace (119 - r)%nat with (55 - r + 1 * 64)%nat by lia. rewrite Nat.Div0.mod_add, Nat.mod_small by lia. lia. Qed.

Lemma pad_long r : (55 < r < 64)%nat -> (1 + (119 - r) mod 64 = 120 - r)%nat.
Proof. intros Hr. rewrite Nat.mod_small by lia. lia. Qed.

Lemma alter_last b d : alter (Z.lor b) (S d) (alter (Z.lor 0x80) 0%nat (replicate (S (S d)) 0)) = 0x80 :: replicate d 0 ++ [b].
Proof.
  cbn [replicate]. change (alter (Z.lor 128) 0%nat (0 :: 0 :: replicate d 0)) with (128 :: 0 :: replicate d 0).
  change (alter (Z.lor b) (S d) (128 :: 0 :: replicate d 0)) with (128 :: alter (Z.lor b) d (0 :: replicate d 0)). f_equal.
  induction d as [|d IH]; [by cbn; rewrite Z.lor_0_r|]. cbn [replicate app].
  change (alter (Z.lor b) (S d) (0 :: 0 :: replicate d 0)) with (0 :: alter (Z.lor b) d (0 :: replicate d 0)). by rewrite IH.
Qed.

Lemma pad_spec b n r :
  (n mod 64)%nat = r -> (r < 64)%nat ->
  BlakeHash.pad b n =
    if decide (r = 55)%nat then [Z.lor b 0x80]
    else if decide (r < 55)%nat then (0x80 :: replicate (54 - r) 0) ++ [b]
    else (0x80 :: replicate (63 - r) 0) ++ replicate 55 0 ++ [b].
Proof.
  intros Hn Hr. unfold BlakeHash.pad. rewrite Hn. cbv zeta. case_decide as H1; [rewrite H1; reflexivity|]. case_decide as H2.
  - rewrite pad_short by lia. replace (56 - r)%nat with (S (S (54 - r))) by lia. replace (S (S (54 - r)) - 1)%nat with (S (54 - r)) by lia.
    apply alter_last.
  - rewrite pad_long by lia. replace (120 - r)%nat with (S (S (118 - r))) by lia. replace (S (S (118 - r)) - 1)%nat with (S (118 - r)) by lia.
    rewrite alter_last, app_assoc. cbn [app]. rewrite <- replicate_add. do 3 f_equal. lia.
Qed.

(** What [final] does after a whole message. *)
Lemma last_blocks_spec b h msg :
  8 * Z.of_nat (length msg) < 2 ^ 64 ->
  let k := (length msg / 64)%nat in
  last_blocks (Z.lor b 0x80) b (BlakeHash.chain (length msg) (BlakeHash.padded b msg) h k) (512 * Z.of_nat k) (drop (64 * k) msg) =
  BlakeHash.chain (length msg) (BlakeHash.padded b msg) h (length (BlakeHash.padded b msg) / 64).
Proof.
  intros Hlt k. destruct (split_64 (length msg)) as (k' & r & En & Hr & Ek & Er). fold k in Ek. subst k'.
  assert (length (drop (64 * k) msg) = r) as Lp by (rewrite length_drop; lia).
  unfold last_blocks. cbv zeta. rewrite Lp.
  replace (512 * Z.of_nat k + 8 * Z.of_nat r) with (8 * Z.of_nat (length msg)) by lia.
  set (tail := be_bytes 8 (8 * Z.of_nat (length msg))). assert (length tail = 8%nat) as Lt by apply be_bytes_ok.
  assert (drop (64 * k) (BlakeHash.padded b msg) = drop (64 * k) msg ++ BlakeHash.pad b (length msg) ++ tail) as Ed.
  { unfold BlakeHash.padded. by rewrite drop_app_le by lia. }
  assert (length (BlakeHash.padded b msg) = (length msg + length (BlakeHash.pad b (length msg)) + 8)%nat) as Ll
    by (unfold BlakeHash.padded; rewrite !length_app; fold tail; lia).
  assert (BlakeHash.count (length msg) k = if decide (r = 0%nat) then 0 else 8 * Z.of_nat (length msg)) as Ec.
  { unfold BlakeHash.count. case_decide as H1; case_decide as H2; try lia. }
  rewrite (pad_spec b _ r Er Hr) in Ed, Ll. destruct (decide (r = 55)%nat) as [H55|H55]; [|destruct (decide (r < 55)%nat) as [Hs|Hs]].
  - rewrite Ll. cbn [length]. replace ((length msg + 1 + 8) / 64)%nat with (S k) by (apply (Nat.div_unique _ _ _ 0); lia).
    rewrite chain_S, Ed, Ec. by rewrite decide_False by lia.
  - rewrite Ll. rewrite length_app. cbn [length]. rewrite length_replicate.
    replace ((length msg + (S (54 - r) + 1) + 8) / 64)%nat with (S k) by (apply (Nat.div_unique _ _ _ 0); lia).
    rewrite chain_S, Ed, Ec, <- !app_assoc. by case_decide.
  - rewrite Ll. rewrite !length_app. cbn [length]. rewrite !length_replicate.
    replace ((length msg + (S (63 - r) + (55 + 1)) + 8) / 64)%nat with (S (S k)) by (apply (Nat.div_unique _ _ _ 0); lia).
    rewrite !chain_S, Ec, decide_False by lia.
    assert (BlakeHash.count (length msg) (S k) = 0) as -> by (unfold BlakeHash.count; rewrite decide_False by lia; done).
    replace (64 * S k)%nat with (64 * k + 64)%nat by lia. rewrite <- drop_drop, Ed.
    assert (length (drop (64 * k) msg ++ 128 :: replicate (63 - r) 0) = 64%nat) as L64
      by (rewrite length_app, Lp; cbn [length]; rewrite length_replicate; lia).
    rewrite <- (block_words_take (drop (64 * k) msg ++ _ ++ _)), <- !app_assoc. rewrite !(app_assoc (drop (64 * k) msg)).
    rewrite <- L64 at 2 4. rewrite take_app_length, drop_app_length. reflexivity.
Qed.

Lemma init_absorbed bf :
  length bf = 64%nat -> bytes bf ->
  absorbed 0 Blake.iv256 (0, 0) [] (blake256_init bf) /\ absorbed 0 Blake.iv224 (0, 0) [] (blake224_init bf).
Proof. intros Hl Hb. split; (split; [split; cbn; first [done|lia]|done]). Qed.

Lemma final_absorbed b iv msg st :
  absorbed 0 iv (0, 0) msg st -> b = 0 \/ b = 1 -> 8 * Z.of_nat (length msg) < 2 ^ 64 ->
  blake256_final_h st (Z.lor b 0x80) b = Ok (BlakeHash.final b iv msg).
Proof.
  intros Hst Hb Hlt. unfold absorbed in Hst. destruct (split_64 (length msg)) as (k & r & En & Hr & Ek & _). rewrite Ek in Hst.
  unfold BlakeHash.final. rewrite <- last_blocks_spec by done. cbv zeta. rewrite Ek.
  rewrite (absorb_chain k iv msg (BlakeHash.pad b (length msg) ++ be_bytes 8 (8 * Z.of_nat (length msg)))) in Hst by lia.
  cbn [fst snd] in Hst. apply (final_spec _ _ _ _ _ _ Hst).
  - rewrite Z.mul_comm. apply Z.mod_mul. lia.
  - lia.
  - rewrite length_drop. lia.
  - destruct Hb as [-> | ->]; [change (Z.lor 0 128) with 128|change (Z.lor 1 128) with 129]; lia.
  - lia.
Qed.

(** ** Several pieces *)
Fixpoint update_all (st : state) (ps : list (list Z)) : result state :=
  match ps with
  | [] => Ok st
  | p :: ps => let! st := blake256_update st p (8 * Z.of_nat (length p)) in update_all st ps
  end.

(** Every piece is regular where it comes. *)
Fixpoint regular_pieces (n : nat) (ps : list (list Z)) : Prop :=
  match ps with
  | [] => True
  | p :: ps => regular (n mod 64) (length p) /\ regular_pieces (n + length p) ps
  end.

Lemma update_all_spec iv ps msg st :
  absorbed 0 iv (0, 0) msg st -> Forall bytes ps -> 8 * Z.of_nat (length (msg ++ concat ps)) < 2 ^ 64 ->
  regular_pieces (length msg) ps -> returns (update_all st ps) (absorbed 0 iv (0, 0) (msg ++ concat ps)).
Proof.
  intros Hst Hb. revert msg st Hst. induction Hb as [|p ps Hp Hps IH]; intros msg st Hst Hlt Hreg.
  - cbn. by rewrite app_nil_r.
  - cbn [concat] in *. destruct Hreg as [H1 H2]. rewrite app_assoc in *. rewrite !length_app in Hlt.
    eapply returns_bind; [apply (update_absorbed _ _ _ _ _ _ Hst Hp); [lia|done]|].
    intros st' Hst'. apply IH; [done|rewrite !length_app; lia|by rewrite length_app].
Qed.

Lemma update_once iv st msg :
  absorbed 0 iv (0, 0) [] st -> bytes msg -> 8 * Z.of_nat (length msg) < 2 ^ 64 ->
  returns (blake256_update st msg (u64 (Z.of_nat (length msg) * 8))) (absorbed 0 iv (0, 0) msg).
Proof.
  intros Hst Hb Hlt. unfold u64. rewrite Z.mod_small, Z.mul_comm by lia.
  apply (update_absorbed st 0 iv (0, 0) [] msg Hst Hb Hlt). by left.
Qed.

Lemma blake256_hash_spec bf msg :
  length bf = 64%nat -> bytes bf -> bytes msg -> 8 * Z.of_nat (length msg) < 2 ^ 64 ->
  blake256_hash bf msg (Z.of_nat (length msg)) = Ok (BlakeHash.final 1 Blake.iv256 msg) /\
  blake224_hash bf msg (Z.of_nat (length msg)) = Ok (BlakeHash.final 0 Blake.iv224 msg).
Proof.
  intros Hl Hbf Hb Hlt. destruct (init_absorbed bf Hl Hbf) as [H256 H224].
  unfold blake256_hash, blake224_hash, blake224_update, blake256_final, blake224_final. split.
  - destruct (proj1 (returns_inv _ _) (update_once _ _ _ H256 Hb Hlt)) as (st & -> & Hst). cbn [bind].
    by apply (final_absorbed 1 Blake.iv256 msg st Hst); [right|].
  - destruct (proj1 (returns_inv _ _) (update_once _ _ _ H224 Hb Hlt)) as (st & -> & Hst). cbn [bind].
    by apply (final_absorbed 0 Blake.iv224 msg st Hst); [left|].
Qed.

(** ** HMAC *)

(** The key with zeros up to a block, xor'ed with [c]. *)
Definition key_block (c : Z) (key : list Z) : list Z := Z.lxor c <$> (key ++ replicate (64 - length key) 0).

(** RFC 2104 for a hash function with blocks of 64 bytes. *)
Definition rfc2104 (H : list Z -> list Z) (key msg : list Z) : list Z := H (key_block 0x5c key ++ H (key_block 0x36 key ++ msg)).

(** The final chain value of the outer hash. *)
Definition hmac (b : Z) (iv : list Z) (size : nat) (key msg : list Z) : list Z :=
  BlakeHash.final b iv (key_block 0x5c key ++ take size (BlakeHash.final b iv (key_block 0x36 key ++ msg))).

Lemma hmac_pad_spec c key n :
  (n <= 64)%nat -> (n <= length key)%nat -> hmac_pad c key (Z.of_nat n) = Ok (key_block c (take n key)).
Proof.
  intros Hn Hk. unfold hmac_pad. rewrite Nat2Z.id.
  rewrite (for_update _ _ (fun i p => Z.lxor p (nth i key 0))); [|by rewrite length_replicate|].
  - f_equal. apply list_eq. intros i. rewrite update_first_lookup. unfold key_block. rewrite list_lookup_fmap, length_take, Nat.min_l by done.
    destruct (decide (i < 64)%nat) as [Hi|Hi].
    + rewrite lookup_replicate_2 by done. cbn [fmap option_fmap option_map]. case_decide as Hd.
      * rewrite lookup_app_l, lookup_take_lt by (rewrite ?length_take; lia).
        destruct (lookup_lt_is_Some_2 key i ltac:(lia)) as [x Hx]. rewrite Hx, (nth_lookup_Some _ _ _ _ Hx). done.
      * rewrite lookup_app_r, lookup_replicate_2 by (rewrite length_take; lia). cbn. by rewrite Z.lxor_0_r.
    + rewrite lookup_ge_None_2 by (rewrite length_replicate; lia).
      rewrite lookup_ge_None_2 by (rewrite length_app, length_take, length_replicate; lia). done.
  - intros i x a Hi _ Ha Hla. rewrite length_replicate in Hla. rewrite (get_ok _ _ _ Ha). cbn [bind].
    destruct (lookup_lt_is_Some_2 key i ltac:(lia)) as [y Hy]. rewrite (get_ok _ _ _ Hy), (nth_lookup_Some _ _ _ _ Hy). cbn [bind].
    apply set_ok. lia.
Qed.

Lemma key_block_ok c key : is_byte c -> bytes key -> (length key <= 64)%nat -> bytes (key_block c key) /\ length (key_block c key) = 64%nat.
Proof.
  intros Hc Hk Hl. unfold key_block. split; [|rewrite length_fmap, length_app, length_replicate; lia].
  apply Forall_fmap, Forall_app. split.
  - revert Hk. apply Forall_impl. intros x Hx. apply (lxor_bound c x 8); [lia|done|done].
  - apply Forall_replicate. apply (lxor_bound c 0 8); [lia|done|lia].
Qed.

(** The digest of a stream that began with the key block. *)
Lemma hmac_stream iv st c key msg :
  absorbed 0 iv (0, 0) [] st -> is_byte c -> bytes key -> (length key <= 64)%nat -> bytes msg ->
  8 * Z.of_nat (64 + length msg) < 2 ^ 64 ->
  exists st', blake256_update st (key_block c key) 512 = Ok st' /\
    returns (blake256_update st' msg (8 * Z.of_nat (length msg))) (absorbed 0 iv (0, 0) (key_block c key ++ msg)).
Proof.
  intros Hst Hc Hk Hl Hm Hlt. destruct (key_block_ok c key Hc Hk Hl) as [Bk Lk].
  destruct (proj1 (returns_inv _ _) (update_absorbed st 0 iv (0, 0) [] (key_block c key) Hst Bk ltac:(lia) ltac:(by left)))
    as (st' & E & Hst'). rewrite Lk in E. exists st'. split; [exact E|].
  apply update_absorbed; [exact Hst'|done|lia|]. left. cbn [app]. by rewrite Lk.
Qed.

Lemma hash_length b iv msg : length iv = 8%nat -> length (BlakeHash.final b iv msg) = 32%nat /\ bytes (BlakeHash.final b iv msg).
Proof.
  intros Hiv. unfold BlakeHash.final. assert (length (BlakeHash.chain (length msg) (BlakeHash.padded b msg) iv (length (BlakeHash.padded b msg) / 64)) = 8%nat) as Hl.
  { generalize (length (BlakeHash.padded b msg) / 64)%nat. intros [|k]; [exact Hiv|]. rewrite chain_S. apply compress_length. }
  generalize dependent (BlakeHash.chain (length msg) (BlakeHash.padded b msg) iv (length (BlakeHash.padded b msg) / 64)).
  intros h Hh. unfold digest. split.
  - do 8 (destruct h as [|? h]; [discriminate Hh|]). destruct h; [done|discriminate Hh].
  - clear Hh. induction h as [|x h IH]; [constructor|]. cbn [fmap list_fmap concat]. apply Forall_app. split; [apply be_bytes_ok|done].
Qed.

(** The two passes, from the initial state. *)
Lemma hmac_passes b iv st size key msg :
  absorbed 0 iv (0, 0) [] st -> b = 0 \/ b = 1 -> length iv = 8%nat -> (0 < size <= 32)%nat -> bytes key -> bytes msg ->
  (length key <= 64)%nat -> 8 * Z.of_nat (64 + length msg) < 2 ^ 64 ->
  exists inner outer, blake256_update st (key_block 0x36 key) 512 = Ok inner /\
    blake256_update st (key_block 0x5c key) 512 = Ok outer /\
    (let! inner := blake256_update inner msg (u64 (Z.of_nat (length msg) * 8)) in
     let! ihash := blake256_final_h inner (Z.lor b 0x80) b in
     let! outer := blake256_update outer ihash (8 * Z.of_nat size) in
     blake256_final_h outer (Z.lor b 0x80) b) = Ok (hmac b iv size key msg).
Proof.
  intros Hst Hb Hiv Hsize Bt Bm Lt Hlt. replace (u64 (Z.of_nat (length msg) * 8)) with (8 * Z.of_nat (length msg))
    by (unfold u64; rewrite Z.mod_small; lia).
  assert (is_byte 0x36 /\ is_byte 0x5c) as [B36 B5c] by (unfold is_byte; lia).
  destruct (key_block_ok 0x36 _ B36 Bt Lt) as [_ L36], (key_block_ok 0x5c _ B5c Bt Lt) as [_ L5c].
  destruct (hmac_stream iv st 0x36 key msg Hst B36 Bt Lt Bm Hlt) as (inner & Ei & Hi).
  set (ih := BlakeHash.final b iv (key_block 0x36 key ++ msg)).
  destruct (hash_length b iv (key_block 0x36 key ++ msg) Hiv) as [Lh Bh]. fold ih in Lh, Bh.
  destruct (proj1 (returns_inv _ _) (update_absorbed st 0 iv (0, 0) [] (key_block 0x5c key) Hst
    (proj1 (key_block_ok 0x5c _ B5c Bt Lt)) ltac:(lia) ltac:(by left))) as (outer & Eo & Ho). rewrite L5c in Eo. cbn [app] in Ho.
  exists inner, outer. split; [exact Ei|]. split; [exact Eo|].
  apply returns_inv in Hi as (st1 & -> & H1). cbn [bind].
  rewrite (final_absorbed b iv _ st1 H1 Hb) by (rewrite length_app, L36; lia). cbn [bind]. fold ih.
  destruct (proj1 (returns_inv _ _) (update_absorbed_take outer 0 iv (0, 0) _ ih size Ho Bh ltac:(lia) ltac:(lia)
    ltac:(left; by rewrite L5c))) as (st2 & -> & H2). cbn [bind].
  apply (final_absorbed b iv _ st2 H2 Hb). rewrite length_app, length_take, L5c. lia.
Qed.

Lemma hmac_blake256_spec bf key msg :
  length bf = 64%nat -> bytes bf -> bytes key -> bytes msg -> 8 * Z.of_nat (length key) < 2 ^ 64 -> 8 * Z.of_nat (64 + length msg) < 2 ^ 64 ->
  hmac_blake256_hash bf key (Z.of_nat (length key)) msg (Z.of_nat (length msg)) =
    Ok (hmac 1 Blake.iv256 32 (if decide (64 < length key)%nat then BlakeHash.final 1 Blake.iv256 key else key) msg) /\
  hmac_blake224_hash bf key (Z.of_nat (length key)) msg (Z.of_nat (length msg)) =
    Ok (hmac 0 Blake.iv224 28 (if decide (64 < length key)%nat then take 28 (BlakeHash.final 1 Blake.iv256 key) else key) msg).
Proof.
  intros Hl Hbf Bk Bm Hlk Hlm. destruct (init_absorbed bf Hl Hbf) as [H256 H224].
  destruct (blake256_hash_spec bf key Hl Hbf Bk Hlk) as [Ek _]. destruct (hash_length 1 Blake.iv256 key eq_refl) as [Lk Bh].
  unfold hmac_blake256_hash, hmac_blake224_hash, hmac_blake256_init, hmac_blake224_init, hmac_blake256_final, hmac_blake224_final,
    hmac_blake256_update, hmac_blake224_update, blake224_update, blake256_final, blake224_final. rewrite Ek. cbn [bind].
  destruct (Z.ltb_spec 64 (Z.of_nat (length key))) as [H64|H64];
    [rewrite !decide_True by lia|rewrite !decide_False by lia]; cbn [bind]; split.
  - destruct (hmac_passes 1 Blake.iv256 _ 32 (BlakeHash.final 1 Blake.iv256 key) msg H256) as (i & o & Ei & Eo & E); try (done || lia).
    rewrite (hmac_pad_spec _ _ 32), (hmac_pad_spec _ _ 32), take_ge by lia. cbn [bind]. rewrite Ei. cbn [bind]. rewrite Eo. cbn [bind inner outer].
    rewrite bind_assoc. exact E.
  - destruct (hmac_passes 0 Blake.iv224 _ 28 (take 28 (BlakeHash.final 1 Blake.iv256 key)) msg H224) as (i & o & Ei & Eo & E);
      try (done || lia); [by apply Forall_take|rewrite length_take; lia|].
    rewrite (hmac_pad_spec _ _ 28), (hmac_pad_spec _ _ 28) by lia. cbn [bind]. rewrite Ei. cbn [bind]. rewrite Eo. cbn [bind inner outer].
    rewrite bind_assoc. exact E.
  - destruct (hmac_passes 1 Blake.iv256 _ 32 key msg H256) as (i & o & Ei & Eo & E); try (done || lia).
    rewrite !hmac_pad_spec, take_ge by lia. cbn [bind]. rewrite Ei. cbn [bind]. rewrite Eo. cbn [bind inner outer].
    rewrite bind_assoc. exact E.
  - destruct (hmac_passes 0 Blake.iv224 _ 28 key msg H224) as (i & o & Ei & Eo & E); try (done || lia).
    rewrite !hmac_pad_spec, take_ge by lia. cbn [bind]. rewrite Ei. cbn [bind]. rewrite Eo. cbn [bind inner outer].
    rewrite bind_assoc. exact E.
Qed.

Lemma hmac_rfc2104 key msg :
  hmac 1 Blake.iv256 32 key msg = rfc2104 BlakeHash.blake256 key msg /\ take 28 (hmac 0 Blake.iv224 28 key msg) = rfc2104 BlakeHash.blake224 key msg.
Proof.
  split; [|reflexivity]. unfold hmac, rfc2104, BlakeHash.blake256.
  by rewrite take_ge by (rewrite (proj1 (hash_length 1 Blake.iv256 _ eq_refl)); lia).
Qed.

(** The bytes that are written after a BLAKE-224 digest. *)
Lemma blake224_split msg : exists extra, length extra = 4%nat /\ length (BlakeHash.blake224 msg) = 28%nat /\
  BlakeHash.final 0 Blake.iv224 msg = BlakeHash.blake224 msg ++ extra.
Proof.
  pose proof (proj1 (hash_length 0 Blake.iv224 msg eq_refl)) as L. exists (drop 28 (BlakeHash.final 0 Blake.iv224 msg)).
  unfold BlakeHash.blake224. rewrite length_drop, length_take, take_drop, L. done.
Qed.
