(* ===== verification/Rijndael.v ===== *)
(** * The field of 256 elements and the AES substitution

    The byte field modulo [x^8 + x^4 + x^3 + x + 1] and the S-box, from their
    definitions: what the tables of the optimised code are checked against. *)

From stdpp Require Import base list numbers.
From Stdlib Require Import ZArith Lia.
From S2P Require Import Prelude Bytes.

(** Multiplication by [x]. *)
Definition xtime (b : Z) : Z := Z.lxor (Z.shiftl b 1) (if Z.testbit b 7 then 0x11b else 0).

Definition gmul (a b : Z) : Z :=
  foldr Z.lxor 0 ((fun i => if Z.testbit b (Z.of_nat i) then Nat.iter i xtime a else 0) <$> seq 0 8).

(** [a^254], the inverse of [a], and 0 for 0. *)
Definition ginv (a : Z) : Z :=
  let a2 := gmul a a in
  let a4 := gmul a2 a2 in
  let a8 := gmul a4 a4 in
  let a16 := gmul a8 a8 in
  let a32 := gmul a16 a16 in
  let a64 := gmul a32 a32 in
  let a128 := gmul a64 a64 in
  gmul a128 (gmul a64 (gmul a32 (gmul a16 (gmul a8 (gmul a4 a2))))).

Definition rotl8 (b k : Z) : Z := (Z.shiftl b k + Z.shiftr b (8 - k)) mod 256.

Definition sbox (a : Z) : Z :=
  let b := ginv a in
  Z.lxor b (Z.lxor (rotl8 b 1) (Z.lxor (rotl8 b 2) (Z.lxor (rotl8 b 3) (Z.lxor (rotl8 b 4) 0x63)))).

Definition all_bytes : list Z := seqZ 0 256.

Lemma ginv_spec a : is_byte a -> a <> 0 -> gmul a (ginv a) = 1.
Proof.
  intros Ha Hne. assert ((a =? 0) || (gmul a (ginv a) =? 1) = true) as H.
  { revert a Ha Hne. intros a Ha _. revert a Ha. apply (byte_cases (fun a => (a =? 0) || (gmul a (ginv a) =? 1))). by vm_compute. }
  apply orb_prop in H as [H|H]; [apply Z.eqb_eq in H; done|by apply Z.eqb_eq in H].
Qed.

Lemma sbox_byte a : is_byte a -> is_byte (sbox a).
Proof.
  intros Ha. assert (((0 <=? sbox a) && (sbox a <? 256)) = true) as H.
  { revert a Ha. apply (byte_cases (fun a => (0 <=? sbox a) && (sbox a <? 256))). by vm_compute. }
  unfold is_byte. lia.
Qed.
