(* ===== verification/GroestlFacts.v ===== *)
(** * Correctness of Groestl-256

    The specification works on an 8x8 matrix of bytes with the AES S-box and a
    multiplication of columns by a circulant matrix; the code looks rows up in a
    table of columns and rotates them. *)

From stdpp Require Import base list numbers.
From Stdlib Require Import ZArith Lia.
From S2P Require Import Prelude Bytes Streaming Rijndael Groestl.

(** ** The specification *)
Module Grostl.
(** A state is 64 bytes, column by column. *)
Definition entry (s : list Z) (r c : nat) : Z := nth (8 * (c mod 8) + r) s 0.
Definition matrix (f : nat -> nat -> Z) : list Z := (fun k => f (k mod 8) (k / 8))%nat <$> seq 0 64.

Definition add_P (i : Z) (s : list Z) : list Z :=
  matrix (fun r c => Z.lxor (entry s r c) (if (r =? 0)%nat then Z.lxor (16 * Z.of_nat c) i else 0)).
Definition add_Q (i : Z) (s : list Z) : list Z :=
  matrix (fun r c => Z.lxor (entry s r c) (Z.lxor 0xff (if (r =? 7)%nat then Z.lxor (16 * Z.of_nat c) i else 0))).

Definition sub_bytes (s : list Z) : list Z := sbox <$> s.

(** Row [r] is shifted left by the entry [r] of [shifts]. *)
Definition shift_bytes (shifts : list nat) (s : list Z) : list Z :=
  matrix (fun r c => entry s r (c + nth r shifts 0%nat)).
Definition shifts_P : list nat := [0; 1; 2; 3; 4; 5; 6; 7]%nat.
Definition shifts_Q : list nat := [1; 3; 5; 7; 0; 2; 4; 6]%nat.

(** The first row of the circulant matrix. *)
Definition circ : list Z := [2; 2; 3; 4; 5; 3; 5; 7].
Definition mix_column (col : list Z) (r : nat) : Z :=
  foldr Z.lxor 0 ((fun j => gmul (nth ((j + 8 - r) mod 8) circ 0) (nth j col 0)) <$> seq 0 8).
Definition mix_bytes (s : list Z) : list Z :=
  matrix (fun r c => mix_column ((fun j => entry s j c) <$> seq 0 8) r).

Definition round_P (i : Z) (s : list Z) : list Z := mix_bytes (shift_bytes shifts_P (sub_bytes (add_P i s))).
Definition round_Q (i : Z) (s : list Z) : list Z := mix_bytes (shift_bytes shifts_Q (sub_bytes (add_Q i s))).
Definition perm_P (s : list Z) : list Z := foldl (fun s i => round_P i s) s (seqZ 0 10).
Definition perm_Q (s : list Z) : list Z := foldl (fun s i => round_Q i s) s (seqZ 0 10).

Definition xor (s t : list Z) : list Z := zip_with Z.lxor s t.
Definition compress (h m : list Z) : list Z := xor h (xor (perm_P (xor h m)) (perm_Q m)).
Definition output (h : list Z) : list Z := xor h (perm_P h).

(** The chain value after [k] blocks of [m]. *)
Fixpoint chain (k : nat) (h m : list Z) : list Z :=
  match k with O => h | S k => chain k (compress h (take 64 m)) (drop 64 m) end.

(** The digest length in bits, in the last column. *)
Definition iv : list Z := replicate 56 0 ++ be_bytes 8 256.

Definition zeros (len : nat) : nat := ((119 - len mod 64) mod 64)%nat.
Definition block_count (len : nat) : nat := ((len + zeros len + 9) / 64)%nat.
Definition pad (m : list Z) : list Z :=
  m ++ [0x80] ++ replicate (zeros (length m)) 0 ++ be_bytes 8 (Z.of_nat (block_count (length m))).
Definition hash (m : list Z) : list Z := drop 32 (output (chain (block_count (length m)) iv (pad m))).
End Grostl.

(** ** Words and bytes *)

Definition words_of (s : list Z) : list Z := (fun i => le_val (take 4 (drop (4 * i) s))) <$> seq 0 16.

(** Two words turned by [length t] bytes. *)
Lemma rot_word s t s' t' :
  bytes s -> bytes t -> bytes s' -> bytes t' -> (length s + length t = 4)%nat -> length s' = length s -> length t' = length t ->
  let w := 8 * Z.of_nat (length t) in
  Z.lor (u32 (Z.shiftl (le_val (s ++ t)) w)) (Z.shiftr (le_val (s' ++ t')) (32 - w)) = le_val (t' ++ s).
Proof.
  intros Bs Bt Bs' Bt' Hl Hl1 Hl2 w. rewrite !le_val_app, Hl1, Hl2.
  pose proof (le_val_bound s Bs) as Vs. pose proof (le_val_bound s' Bs') as Vs'. pose proof (le_val_bound t' Bt') as Vt'.
  rewrite Hl1 in Vs'. rewrite Hl2 in Vt'.
  assert (forall n, 256 ^ Z.of_nat n = 2 ^ (8 * Z.of_nat n)) as Hp by (intros n; rewrite Z.pow_mul_r by lia; done).
  rewrite !Hp in *. replace (8 * Z.of_nat (length s)) with (32 - w) in * by lia. fold w in Vt' |- *. assert (0 <= w <= 32) as Hw by lia.
  rewrite Z.shiftr_div_pow2 by lia.
  assert ((le_val s' + 2 ^ (32 - w) * le_val t') / 2 ^ (32 - w) = le_val t') as ->.
  { rewrite Z.mul_comm, Z.div_add, Z.div_small by lia. lia. }
  assert (u32 (Z.shiftl (le_val s + 2 ^ (32 - w) * le_val t) w) = Z.shiftl (le_val s) w) as ->.
  { rewrite !Z.shiftl_mul_pow2 by lia. unfold u32. rewrite Z.mul_add_distr_r.
    replace (2 ^ (32 - w) * le_val t * 2 ^ w) with (le_val t * (2 ^ (32 - w) * 2 ^ w)) by ring.
    rewrite <- Z.pow_add_r by lia. replace (32 - w + w) with 32 by lia. rewrite Z.mod_add, Z.mod_small; [done| |lia].
    assert (2 ^ 32 = 2 ^ (32 - w) * 2 ^ w) as -> by (rewrite <- Z.pow_add_r by lia; f_equal; lia).
    assert (0 < 2 ^ w) by (apply Z.pow_pos_nonneg; lia). nia. }
  rewrite Z.lor_comm, lor_shiftl_add by lia. lia.
Qed.

(** The rotations of a column given by its two words. *)
Lemma rotate_spec a0 a1 a2 a3 a4 a5 a6 a7 :
  bytes [a0; a1; a2; a3; a4; a5; a6; a7] ->
  ROTATE_COLUMN_DOWN (le_val [a0; a1; a2; a3]) (le_val [a4; a5; a6; a7]) 1 = (le_val [a7; a0; a1; a2], le_val [a3; a4; a5; a6]) /\
  ROTATE_COLUMN_DOWN (le_val [a0; a1; a2; a3]) (le_val [a4; a5; a6; a7]) 2 = (le_val [a6; a7; a0; a1], le_val [a2; a3; a4; a5]) /\
  ROTATE_COLUMN_DOWN (le_val [a0; a1; a2; a3]) (le_val [a4; a5; a6; a7]) 3 = (le_val [a5; a6; a7; a0], le_val [a1; a2; a3; a4]).
Proof.
  intros Hb. do 8 (apply Forall_cons_1 in Hb as [? Hb]). clear Hb.
  assert (forall s t s' t', bytes s -> bytes t -> bytes s' -> bytes t' -> (length s + length t = 4)%nat -> length s' = length s -> length t' = length t ->
    ROTATE_COLUMN_DOWN (le_val (s ++ t)) (le_val (s' ++ t')) (Z.of_nat (length t)) = (le_val (t' ++ s), le_val (t ++ s'))) as Hrot.
  { intros s t s' t' Bs Bt Bs' Bt' Hl Hl1 Hl2. unfold ROTATE_COLUMN_DOWN.
    replace (8 * (4 - Z.of_nat (length t))) with (32 - 8 * Z.of_nat (length t)) by lia. rewrite rot_word by done.
    f_equal. rewrite <- Hl2. apply rot_word; (done || lia). }
  split; [|split].
  - apply (Hrot [a0; a1; a2] [a3] [a4; a5; a6] [a7]); first [done|byte_list].
  - apply (Hrot [a0; a1] [a2; a3] [a4; a5] [a6; a7]); first [done|byte_list].
  - apply (Hrot [a0] [a1; a2; a3] [a4] [a5; a6; a7]); first [done|byte_list].
Qed.

(** ** The table *)
Lemma table_spec b :
  is_byte b ->
  get T (Z.to_nat (2 * b)) = Ok (le_val [gmul 2 (sbox b); gmul 7 (sbox b); gmul 5 (sbox b); gmul 3 (sbox b)]) /\
  get T (Z.to_nat (2 * b + 1)) = Ok (le_val [gmul 5 (sbox b); gmul 4 (sbox b); gmul 3 (sbox b); gmul 2 (sbox b)]).
Proof.
  set (ok := fun b => bool_decide (T !! Z.to_nat (2 * b) = Some (le_val [gmul 2 (sbox b); gmul 7 (sbox b); gmul 5 (sbox b); gmul 3 (sbox b)]) /\
    T !! Z.to_nat (2 * b + 1) = Some (le_val [gmul 5 (sbox b); gmul 4 (sbox b); gmul 3 (sbox b); gmul 2 (sbox b)]))).
  intros Hb. assert (ok b = true) as H by (revert b Hb; apply (byte_cases ok); by vm_compute).
  apply bool_decide_eq_true in H as [H1 H2]. by rewrite (get_ok _ _ _ H1), (get_ok _ _ _ H2).
Qed.

Lemma gmul_byte k b : k = 2 \/ k = 3 \/ k = 4 \/ k = 5 \/ k = 7 -> is_byte b -> is_byte (gmul k b).
Proof.
  intros Hk Hb. assert (forallb (fun k => (0 <=? gmul k b) && (gmul k b <? 256)) [2; 3; 4; 5; 7] = true) as H.
  { revert b Hb. apply (byte_cases (fun b => forallb (fun k => (0 <=? gmul k b) && (gmul k b <? 256)) [2; 3; 4; 5; 7])). by vm_compute. }
  rewrite forallb_forall in H. specialize (H k). unfold is_byte. cbn [In] in H. destruct Hk as [->|[->|[->|[->| ->]]]]; specialize (H ltac:(tauto)); lia.
Qed.

(** The column of the matrix for a byte in row 0. *)
Definition table_column (b : Z) : list Z := [gmul 2 (sbox b); gmul 7 (sbox b); gmul 5 (sbox b); gmul 3 (sbox b); gmul 5 (sbox b); gmul 4 (sbox b); gmul 3 (sbox b); gmul 2 (sbox b)].

Lemma table_column_bytes b : is_byte b -> bytes (table_column b).
Proof. intros Hb%sbox_byte. unfold table_column. byte_list; (apply gmul_byte; [tauto|done]). Qed.

Lemma table_at_spec x i b :
  byte_at x i = Ok b -> is_byte b ->
  table_at x i = Ok (le_val (take 4 (table_column b)), le_val (drop 4 (table_column b))).
Proof.
  intros E Hb. unfold table_at. rewrite E. cbn [bind]. destruct (table_spec b Hb) as [-> ->]. done.
Qed.

(** ** Columns *)
Ltac byte_terms :=
  repeat match goal with
  | |- is_byte (Z.lxor _ _) => apply lxor_byte
  | |- is_byte (gmul _ _) => apply gmul_byte; [tauto|]
  | |- is_byte (sbox _) => apply sbox_byte; assumption
  end.

Lemma lxor_lists u v s t :
  bytes s -> bytes t -> length s = length t -> u = le_val s -> v = le_val t -> Z.lxor u v = le_val (zip_with Z.lxor s t).
Proof. intros Hs Ht Hl -> ->. by apply le_val_lxor. Qed.

(** The column that the bytes [b0] to [b7] of the eight rows give. *)
Definition mixed (bs : list Z) : list Z := Grostl.mix_column (sbox <$> bs) <$> seq 0 8.

Lemma COLUMN_spec x y i c0 c1 c2 c3 c4 c5 c6 c7 b0 b1 b2 b3 b4 b5 b6 b7 :
  byte_at x (4 * c0 + 0) = Ok b0 -> byte_at x (4 * c1 + 1) = Ok b1 -> byte_at x (4 * c2 + 2) = Ok b2 -> byte_at x (4 * c3 + 3) = Ok b3 ->
  byte_at x (4 * c4 + 0) = Ok b4 -> byte_at x (4 * c5 + 1) = Ok b5 -> byte_at x (4 * c6 + 2) = Ok b6 -> byte_at x (4 * c7 + 3) = Ok b7 ->
  bytes [b0; b1; b2; b3; b4; b5; b6; b7] ->
  COLUMN x y i c0 c1 c2 c3 c4 c5 c6 c7 =
    (let! y := set y i (le_val (take 4 (mixed [b0; b1; b2; b3; b4; b5; b6; b7]))) in
     set y (i + 1) (le_val (drop 4 (mixed [b0; b1; b2; b3; b4; b5; b6; b7])))).
Proof.
  intros E0 E1 E2 E3 E4 E5 E6 E7 Hb. do 8 (apply Forall_cons_1 in Hb as [? Hb]). clear Hb. unfold COLUMN.
  rewrite (table_at_spec _ _ _ E0), (table_at_spec _ _ _ E1), (table_at_spec _ _ _ E2), (table_at_spec _ _ _ E3),
    (table_at_spec _ _ _ E4), (table_at_spec _ _ _ E5), (table_at_spec _ _ _ E6), (table_at_spec _ _ _ E7) by done. cbn [bind].
  clear E0 E1 E2 E3 E4 E5 E6 E7.
  destruct (rotate_spec _ _ _ _ _ _ _ _ (table_column_bytes b1 ltac:(done))) as (R1 & _ & _).
  destruct (rotate_spec _ _ _ _ _ _ _ _ (table_column_bytes b2 ltac:(done))) as (_ & R2 & _).
  destruct (rotate_spec _ _ _ _ _ _ _ _ (table_column_bytes b3 ltac:(done))) as (_ & _ & R3).
  destruct (rotate_spec _ _ _ _ _ _ _ _ (table_column_bytes b5 ltac:(done))) as (R5 & _ & _).
  destruct (rotate_spec _ _ _ _ _ _ _ _ (table_column_bytes b6 ltac:(done))) as (_ & R6 & _).
  destruct (rotate_spec _ _ _ _ _ _ _ _ (table_column_bytes b7 ltac:(done))) as (_ & _ & R7).
  cbn [take drop table_column]. rewrite R1, R2, R3, R5, R6, R7. clear R1 R2 R3 R5 R6 R7.
  rewrite !lxor_4 by (byte_list; byte_terms).
  unfold mixed, Grostl.mix_column. cbn -[gmul sbox Z.lxor le_val set]. rewrite !Z.lxor_0_r, !Z.lxor_assoc. reflexivity.
Qed.

(** ** States

    A state given by its 64 bytes. *)
Definition st (b : nat -> Z) : list Z := b <$> seq 0 64.
Definition good (b : nat -> Z) : Prop := forall k, is_byte (b k).

Lemma st_of s : bytes s -> length s = 64%nat -> exists b, good b /\ s = st b.
Proof.
  intros Hs Hl. exists (fun k => nth k s 0). split.
  - intros k. destruct (decide (k < 64)%nat); [apply nth_bytes; (done || lia)|]. rewrite nth_overflow by lia. done.
  - apply list_eq. intros k. unfold st. rewrite list_lookup_fmap. destruct (decide (k < 64)%nat).
    + rewrite lookup_seq_lt by done. cbn. destruct (s !! k) eqn:E; [by rewrite (nth_lookup_Some _ _ _ _ E)|apply lookup_ge_None in E; lia].
    + rewrite lookup_seq_ge by lia. apply lookup_ge_None. lia.
Qed.

Lemma st_bytes b : good b -> bytes (st b) /\ length (st b) = 64%nat.
Proof. intros Hb. split; [|done]. unfold st, bytes. apply Forall_fmap, Forall_true. intros k. apply Hb. Qed.

Lemma byte_at_st b k : good b -> (k < 64)%nat -> byte_at (words_of (st b)) k = Ok (b k).
Proof.
  intros Hb Hk. assert (exists i j, k = (4 * i + j)%nat /\ (j < 4)%nat /\ (i < 16)%nat) as (i & j & -> & Hj & Hi).
  { exists (k / 4)%nat, (k mod 4)%nat. pose proof (Nat.Div0.div_mod k 4). pose proof (Nat.mod_upper_bound k 4). lia. }
  unfold byte_at. replace ((4 * i + j) / 4)%nat with i by (apply (Nat.div_unique _ 4 i j); lia).
  replace ((4 * i + j) mod 4)%nat with j by (apply (Nat.mod_unique _ 4 i j); lia).
  rewrite (get_ok (words_of (st b)) i (le_val [b (4 * i)%nat; b (4 * i + 1)%nat; b (4 * i + 2)%nat; b (4 * i + 3)%nat]))
    by (do 16 (destruct i as [|i]; [done|]); lia).
  cbn [bind]. rewrite le_val_byte by (byte_list; apply Hb || done). f_equal. do 4 (destruct j as [|j]; [cbn; f_equal; lia|]). lia.
Qed.

(** ** Rounds *)
Definition columns_P (x y : list Z) : result (list Z) :=
  let! y := COLUMN x y 0 0 2 4 6 9 11 13 15 in
  let! y := COLUMN x y 2 2 4 6 8 11 13 15 1 in
  let! y := COLUMN x y 4 4 6 8 10 13 15 1 3 in
  let! y := COLUMN x y 6 6 8 10 12 15 1 3 5 in
  let! y := COLUMN x y 8 8 10 12 14 1 3 5 7 in
  let! y := COLUMN x y 10 10 12 14 0 3 5 7 9 in
  let! y := COLUMN x y 12 12 14 0 2 5 7 9 11 in
  COLUMN x y 14 14 0 2 4 7 9 11 13.

Definition columns_Q (x y : list Z) : result (list Z) :=
  let! y := COLUMN x y 0 2 6 10 14 1 5 9 13 in
  let! y := COLUMN x y 2 4 8 12 0 3 7 11 15 in
  let! y := COLUMN x y 4 6 10 14 2 5 9 13 1 in
  let! y := COLUMN x y 6 8 12 0 4 7 11 15 3 in
  let! y := COLUMN x y 8 10 14 2 6 9 13 1 5 in
  let! y := COLUMN x y 10 12 0 4 8 11 15 3 7 in
  let! y := COLUMN x y 12 14 2 6 10 13 1 5 9 in
  COLUMN x y 14 0 4 8 12 15 3 7 11.

(** Column [i / 2] of [y] replaced. *)
Definition set_column (y : list Z) (i : nat) (col : list Z) : result (list Z) :=
  let! y := set y i (le_val (take 4 col)) in
  set y (i + 1) (le_val (drop 4 col)).

Lemma set_column_ok y i col :
  (i + 1 < length y)%nat -> set_column y i col = Ok (<[i + 1 := le_val (drop 4 col)]> (<[i := le_val (take 4 col)]> y))%nat.
Proof. intros Hi. unfold set_column. rewrite set_ok by lia. cbn [bind]. rewrite set_ok; [done|]. rewrite length_insert. lia. Qed.

Lemma COLUMN_st b y i c0 c1 c2 c3 c4 c5 c6 c7 :
  good b -> forallb (fun c => c <? 16)%nat [c0; c1; c2; c3; c4; c5; c6; c7] = true ->
  COLUMN (words_of (st b)) y i c0 c1 c2 c3 c4 c5 c6 c7 =
    set_column y i (mixed [b (4 * c0 + 0); b (4 * c1 + 1); b (4 * c2 + 2); b (4 * c3 + 3); b (4 * c4 + 0); b (4 * c5 + 1); b (4 * c6 + 2); b (4 * c7 + 3)]%nat).
Proof.
  intros Hb Hc. cbn [forallb] in Hc. repeat rewrite andb_true_iff in Hc. rewrite !Nat.ltb_lt in Hc.
  apply COLUMN_spec; try (apply byte_at_st; [done|lia]). byte_list; apply Hb.
Qed.

(** The steps of the specification on a state given by its bytes. *)
Lemma entry_st b r c : (r < 8)%nat -> Grostl.entry (st b) r c = b (8 * (c mod 8) + r)%nat.
Proof.
  intros Hr. unfold Grostl.entry, st. pose proof (Nat.mod_upper_bound c 8). apply nth_lookup_Some.
  rewrite list_lookup_fmap, lookup_seq_lt by lia. done.
Qed.

Lemma matrix_ext f g : (forall r c, (r < 8)%nat -> (c < 8)%nat -> f r c = g r c) -> Grostl.matrix f = Grostl.matrix g.
Proof.
  intros H. apply list_fmap_ext. intros i k E. apply lookup_seq in E as [-> Hi].
  apply H; [apply Nat.mod_upper_bound; lia|apply Nat.Div0.div_lt_upper_bound; lia].
Qed.

Lemma mix_shift_st sh b :
  Grostl.mix_bytes (Grostl.shift_bytes sh (Grostl.sub_bytes (st b))) =
  Grostl.matrix (fun r c => Grostl.mix_column ((fun j => sbox (b (8 * ((c + nth j sh 0) mod 8) + j)%nat)) <$> seq 0 8) r).
Proof.
  apply matrix_ext. intros r c Hr Hc. f_equal. apply list_fmap_ext. intros i j E. apply lookup_seq in E as [-> Hj].
  change (Grostl.sub_bytes (st b)) with (st (fun k => sbox (b k))).
  unfold Grostl.shift_bytes. pose proof (entry_st (fun k => Grostl.entry (st (fun k => sbox (b k))) (k mod 8) (k / 8 + nth (k mod 8) sh 0))%nat (0 + i)%nat c ltac:(lia)) as E.
  unfold Grostl.matrix. unfold st in E at 1. rewrite E, (Nat.mod_small c) by lia.
  replace ((8 * c + (0 + i)) mod 8)%nat with i by (apply (Nat.mod_unique _ 8 c i); lia).
  replace ((8 * c + (0 + i)) / 8)%nat with c by (apply (Nat.div_unique _ 8 c i); lia).
  apply entry_st. lia.
Qed.

(** The words of a state, column by column. *)
Lemma words_of_columns (col : nat -> nat -> Z) :
  words_of (Grostl.matrix (fun r c => col c r)) =
  concat ((fun c => [le_val (take 4 (col c <$> seq 0 8)); le_val (drop 4 (col c <$> seq 0 8))]) <$> seq 0 8).
Proof. cbv -[le_val]. reflexivity. Qed.

Lemma columns_P_spec b y :
  good b -> length y = 16%nat ->
  columns_P (words_of (st b)) y = Ok (words_of (Grostl.mix_bytes (Grostl.shift_bytes Grostl.shifts_P (Grostl.sub_bytes (st b))))).
Proof.
  intros Hb Hy. apply sixteen in Hy as (? & ? & ? & ? & ? & ? & ? & ? & ? & ? & ? & ? & ? & ? & ? & ? & ->).
  unfold columns_P. do 8 (rewrite COLUMN_st, set_column_ok by (done || (rewrite ?length_insert; cbn [length]; lia)); cbn [bind]).
  rewrite mix_shift_st, words_of_columns. unfold mixed. cbv -[Grostl.mix_column sbox le_val]. reflexivity.
Qed.

Lemma columns_Q_spec b y :
  good b -> length y = 16%nat ->
  columns_Q (words_of (st b)) y = Ok (words_of (Grostl.mix_bytes (Grostl.shift_bytes Grostl.shifts_Q (Grostl.sub_bytes (st b))))).
Proof.
  intros Hb Hy. apply sixteen in Hy as (? & ? & ? & ? & ? & ? & ? & ? & ? & ? & ? & ? & ? & ? & ? & ? & ->).
  unfold columns_Q. do 8 (rewrite COLUMN_st, set_column_ok by (done || (rewrite ?length_insert; cbn [length]; lia)); cbn [bind]).
  rewrite mix_shift_st, words_of_columns. unfold mixed. cbv -[Grostl.mix_column sbox le_val]. reflexivity.
Qed.

(** ** Round constants *)
Ltac byte_lists := first [assumption|byte_list; byte_terms; first [assumption|unfold is_byte; lia]].

Lemma entry_div_mod b k : (k < 64)%nat -> Grostl.entry (st b) (k mod 8) (k / 8) = b k.
Proof.
  intros Hk. pose proof (Nat.mod_upper_bound k 8 ltac:(lia)). pose proof (Nat.Div0.div_mod k 8). rewrite entry_st by done.
  f_equal. rewrite Nat.mod_small by (apply Nat.Div0.div_lt_upper_bound; lia). lia.
Qed.

Lemma add_P_st i b : Grostl.add_P i (st b) = st (fun k => Z.lxor (b k) (if (k mod 8 =? 0)%nat then Z.lxor (16 * Z.of_nat (k / 8)) i else 0)).
Proof.
  apply list_fmap_ext. intros i' k E. apply lookup_seq in E as [-> Hi]. cbn [Nat.add].
  by rewrite entry_div_mod.
Qed.

Lemma add_Q_st i b : Grostl.add_Q i (st b) = st (fun k => Z.lxor (b k) (Z.lxor 0xff (if (k mod 8 =? 7)%nat then Z.lxor (16 * Z.of_nat (k / 8)) i else 0))).
Proof.
  apply list_fmap_ext. intros i' k E. apply lookup_seq in E as [-> Hi]. cbn [Nat.add].
  by rewrite entry_div_mod.
Qed.

Lemma lxor_low a0 a1 a2 a3 x :
  bytes [a0; a1; a2; a3] -> is_byte x -> Z.lxor (le_val [a0; a1; a2; a3]) x = le_val [Z.lxor a0 x; a1; a2; a3].
Proof.
  intros Ha Hx. replace x with (le_val [x; 0; 0; 0]) at 1 by (cbn; lia). rewrite lxor_4, !Z.lxor_0_r by byte_lists. done.
Qed.

Lemma lxor_high a0 a1 a2 a3 c i :
  bytes [a0; a1; a2; a3] -> is_byte c -> is_byte i ->
  Z.lxor (le_val [a0; a1; a2; a3]) (Z.lxor (le_val [0xff; 0xff; 0xff; c]) (Z.shiftl i 24)) =
  le_val [Z.lxor a0 0xff; Z.lxor a1 0xff; Z.lxor a2 0xff; Z.lxor a3 (Z.lxor c i)].
Proof.
  intros Ha Hc Hi. replace (Z.shiftl i 24) with (le_val [0; 0; 0; i]) by (rewrite Z.shiftl_mul_pow2 by lia; cbn; lia).
  rewrite (lxor_4 0xff), !Z.lxor_0_r, lxor_4 by byte_lists. done.
Qed.

Lemma lnot_word a0 a1 a2 a3 :
  bytes [a0; a1; a2; a3] ->
  u32 (Z.lnot (le_val [a0; a1; a2; a3])) = le_val [Z.lxor a0 0xff; Z.lxor a1 0xff; Z.lxor a2 0xff; Z.lxor a3 0xff].
Proof.
  intros Ha. rewrite <- lxor_4 by byte_lists. pose proof (le_val_bound _ Ha) as Hv. cbn [length] in Hv. change (256 ^ Z.of_nat 4) with (2 ^ 32) in Hv.
  change (le_val [255; 255; 255; 255]) with (Z.ones 32). revert Hv. generalize (le_val [a0; a1; a2; a3]). intros v Hv. unfold u32.
  rewrite <- Z.land_ones by lia. bitwise. destruct (Z.ltb_spec i 32).
  - rewrite Z.ones_spec_low, Z.lnot_spec by lia. by destruct (Z.testbit v i).
  - rewrite Z.ones_spec_high, (testbit_small v 32) by lia. apply andb_false_r.
Qed.

Lemma words_of_st b :
  words_of (st b) = [
    le_val [b 0; b 1; b 2; b 3]; le_val [b 4; b 5; b 6; b 7]; le_val [b 8; b 9; b 10; b 11]; le_val [b 12; b 13; b 14; b 15];
    le_val [b 16; b 17; b 18; b 19]; le_val [b 20; b 21; b 22; b 23]; le_val [b 24; b 25; b 26; b 27]; le_val [b 28; b 29; b 30; b 31];
    le_val [b 32; b 33; b 34; b 35]; le_val [b 36; b 37; b 38; b 39]; le_val [b 40; b 41; b 42; b 43]; le_val [b 44; b 45; b 46; b 47];
    le_val [b 48; b 49; b 50; b 51]; le_val [b 52; b 53; b 54; b 55]; le_val [b 56; b 57; b 58; b 59]; le_val [b 60; b 61; b 62; b 63]]%nat.
Proof. reflexivity. Qed.

Lemma constants_P b i :
  good b -> is_byte i ->
  for_ 8 (fun k x => let! c := get P_constants k in xor_at x (2 * k) (Z.lxor c i)) 0 (words_of (st b)) = Ok (words_of (Grostl.add_P i (st b))).
Proof.
  intros Hb Hi. rewrite add_P_st, !words_of_st. cbv -[Z.lxor le_val bytes is_byte].
  assert (forall k, bytes [b k; b (k + 1); b (k + 2); b (k + 3)]%nat) as Hw by (intros k; byte_list; apply Hb).
  assert (forall c, is_byte c -> is_byte (Z.lxor c i)) as Hc by (intros c ?; by apply lxor_byte).
  rewrite !lxor_low by first [apply Hc; unfold is_byte; lia|apply Hw]. rewrite !Z.lxor_0_r. reflexivity.
Qed.

Lemma constants_Q b i :
  good b -> is_byte i ->
  for_ 8 (fun k x =>
    let! x := not_at x (2 * k) in
    let! c := get Q_constants k in
    xor_at x (2 * k + 1) (Z.lxor c (Z.shiftl i 24))) 0 (words_of (st b)) = Ok (words_of (Grostl.add_Q i (st b))).
Proof.
  intros Hb Hi. rewrite add_Q_st, !words_of_st. cbv -[Z.lxor le_val u32 Z.lnot Z.shiftl].
  assert (forall k, bytes [b k; b (k + 1); b (k + 2); b (k + 3)]%nat) as Hw by (intros k; byte_list; apply Hb).
  change 4294967295 with (le_val [0xff; 0xff; 0xff; 0xff]). change 4026531839 with (le_val [0xff; 0xff; 0xff; 0xef]).
  change 3758096383 with (le_val [0xff; 0xff; 0xff; 0xdf]). change 3489660927 with (le_val [0xff; 0xff; 0xff; 0xcf]).
  change 3221225471 with (le_val [0xff; 0xff; 0xff; 0xbf]). change 2952790015 with (le_val [0xff; 0xff; 0xff; 0xaf]).
  change 2684354559 with (le_val [0xff; 0xff; 0xff; 0x9f]). change 2415919103 with (le_val [0xff; 0xff; 0xff; 0x8f]).
  rewrite !lxor_high, !lnot_word by first [done|unfold is_byte; lia|apply Hw].
  assert (forall c i, Z.lxor 255 (Z.lxor c i) = Z.lxor (Z.lxor 255 c) i) as Hc by (intros; by rewrite Z.lxor_assoc).
  rewrite !Hc, !Z.lxor_0_r. reflexivity.
Qed.

(** The two rounds. *)
Lemma add_P_good i b : good b -> is_byte i -> exists b', good b' /\ Grostl.add_P i (st b) = st b'.
Proof.
  intros Hb Hi. apply st_of; [|done]. rewrite add_P_st. apply Forall_fmap, Forall_forall. intros k Hk%in_seq.
  unfold compose. apply lxor_byte; [apply Hb|]. destruct (k mod 8 =? 0)%nat; [|done]. apply lxor_byte; [|done].
  assert (k / 8 < 8)%nat by (apply Nat.Div0.div_lt_upper_bound; lia). unfold is_byte. lia.
Qed.

Lemma add_Q_good i b : good b -> is_byte i -> exists b', good b' /\ Grostl.add_Q i (st b) = st b'.
Proof.
  intros Hb Hi. apply st_of; [|done]. rewrite add_Q_st. apply Forall_fmap, Forall_forall. intros k Hk%in_seq.
  unfold compose. apply lxor_byte; [apply Hb|]. apply lxor_byte; [unfold is_byte; lia|]. destruct (k mod 8 =? 7)%nat; [|done]. apply lxor_byte; [|done].
  assert (k / 8 < 8)%nat by (apply Nat.Div0.div_lt_upper_bound; lia). unfold is_byte. lia.
Qed.

Lemma mix_good sh b : good b -> exists b', good b' /\ Grostl.mix_bytes (Grostl.shift_bytes sh (Grostl.sub_bytes (st b))) = st b'.
Proof.
  intros Hb. rewrite mix_shift_st. apply st_of; [|done]. apply Forall_fmap, Forall_forall. intros k _. unfold compose.
  assert (Hr : forall r, (r < 8)%nat -> forall col, (forall j, is_byte (nth j col 0)) -> is_byte (Grostl.mix_column col r)).
  { intros r Hr col Hcol. unfold Grostl.mix_column. do 8 (destruct r as [|r]; [cbn -[gmul Z.lxor nth];
      cbn [nth Grostl.circ]; byte_terms; first [apply Hcol|done]|]). lia. }
  apply Hr; [apply Nat.mod_upper_bound; lia|]. intros j. destruct (decide (j < 8)%nat).
  - erewrite nth_lookup_Some by (rewrite list_lookup_fmap, lookup_seq_lt by lia; done). apply sbox_byte, Hb.
  - rewrite nth_overflow; [done|]. rewrite length_fmap, length_seq. lia.
Qed.

(** The eight columns in turn, all of which return. *)
Ltac step_columns H :=
  repeat match type of H with
  | (let! y := ?c in _) = Ok _ => destruct c; cbn [bind] in H |- *; [|done]
  | ?c = Ok _ => rewrite H; cbn [bind]
  end.

Lemma RND512P_spec b y i :
  good b -> is_byte i -> length y = 16%nat ->
  RND512P (words_of (st b)) y i = Ok (words_of (Grostl.add_P i (st b)), words_of (Grostl.round_P i (st b))).
Proof.
  intros Hb Hi Hy. unfold RND512P. rewrite constants_P by done. cbn [bind].
  destruct (add_P_good i b Hb Hi) as (b' & Hb' & E).
  unfold Grostl.round_P. rewrite E. pose proof (columns_P_spec b' y Hb' Hy) as HC. unfold columns_P in HC. by step_columns HC.
Qed.

Lemma RND512Q_spec b y i :
  good b -> is_byte i -> length y = 16%nat ->
  RND512Q (words_of (st b)) y (Z.shiftl i 24) = Ok (words_of (Grostl.add_Q i (st b)), words_of (Grostl.round_Q i (st b))).
Proof.
  intros Hb Hi Hy. unfold RND512Q. rewrite constants_Q by done. cbn [bind].
  destruct (add_Q_good i b Hb Hi) as (b' & Hb' & E).
  unfold Grostl.round_Q. rewrite E. pose proof (columns_Q_spec b' y Hb' Hy) as HC. unfold columns_Q in HC. by step_columns HC.
Qed.

(** ** Permutations *)
Definition state_ok (s : list Z) : Prop := bytes s /\ length s = 64%nat.

Lemma words_of_length s : length (words_of s) = 16%nat.
Proof. done. Qed.

Lemma state_st b : good b -> state_ok (st b).
Proof. apply st_bytes. Qed.

Lemma round_P_ok s i : state_ok s -> is_byte i -> state_ok (Grostl.round_P i s).
Proof.
  intros [Hs Hl] Hi. destruct (st_of s Hs Hl) as (b & Hb & ->). destruct (add_P_good i b Hb Hi) as (b' & Hb' & E).
  destruct (mix_good Grostl.shifts_P b' Hb') as (b'' & Hb'' & E'). unfold Grostl.round_P. rewrite E, E'. by apply state_st.
Qed.

Lemma round_Q_ok s i : state_ok s -> is_byte i -> state_ok (Grostl.round_Q i s).
Proof.
  intros [Hs Hl] Hi. destruct (st_of s Hs Hl) as (b & Hb & ->). destruct (add_Q_good i b Hb Hi) as (b' & Hb' & E).
  destruct (mix_good Grostl.shifts_Q b' Hb') as (b'' & Hb'' & E'). unfold Grostl.round_Q. rewrite E, E'. by apply state_st.
Qed.

Lemma RND512P_step s y i :
  state_ok s -> is_byte i -> length y = 16%nat ->
  exists x', length x' = 16%nat /\ RND512P (words_of s) y i = Ok (x', words_of (Grostl.round_P i s)).
Proof.
  intros [Hs Hl] Hi Hy. destruct (st_of s Hs Hl) as (b & Hb & ->). eexists. split; [|by apply RND512P_spec]. done.
Qed.

Lemma RND512Q_step s y i :
  state_ok s -> is_byte i -> length y = 16%nat ->
  exists x', length x' = 16%nat /\ RND512Q (words_of s) y (Z.shiftl i 24) = Ok (x', words_of (Grostl.round_Q i s)).
Proof.
  intros [Hs Hl] Hi Hy. destruct (st_of s Hs Hl) as (b & Hb & ->). eexists. split; [|by apply RND512Q_spec]. done.
Qed.

(** The next round of a permutation: the new state and the array it was read from are named. *)
Ltac next_round step ok round i :=
  match goal with
  | |- context [bind (_ (words_of ?s) ?y ?r) _] =>
      let x := fresh "x" in let Hx := fresh "Hx" in let E := fresh "E" in let s' := fresh "s" in let Hs' := fresh "Hs" in
      destruct (step s y i ltac:(assumption) ltac:(done) ltac:(first [assumption|reflexivity])) as (x & Hx & E);
      match type of E with _ _ _ ?r' = _ => change r' with r in E end;
      rewrite E; cbn [bind]; clear E; pose proof (ok s i ltac:(assumption) ltac:(done)) as Hs';
      generalize dependent (round i s); intros s' Hs'
  end.
Ltac next_P i := next_round RND512P_step round_P_ok Grostl.round_P i.
Ltac next_Q i := next_round RND512Q_step round_Q_ok Grostl.round_Q i.

Lemma P_rounds_spec s y z :
  state_ok s -> length y = 16%nat -> length z = 16%nat ->
  exists y' z', length y' = 16%nat /\ length z' = 16%nat /\ P_rounds (words_of s) y z = Ok (words_of (Grostl.perm_P s), y', z').
Proof.
  intros Hs Hy Hz. unfold P_rounds, Grostl.perm_P. change (seqZ 0 10) with [0; 1; 2; 3; 4; 5; 6; 7; 8; 9]. cbn [foldl].
  next_P 0. next_P 1. next_P 2. next_P 3. next_P 4. next_P 5. next_P 6. next_P 7. next_P 8. next_P 9.
  do 2 eexists; split; [|split; [|reflexivity]]; assumption.
Qed.

Lemma perm_P_ok s : state_ok s -> state_ok (Grostl.perm_P s).
Proof. intros Hs. unfold Grostl.perm_P. change (seqZ 0 10) with [0; 1; 2; 3; 4; 5; 6; 7; 8; 9]. cbn [foldl]. by repeat apply round_P_ok. Qed.

Lemma perm_Q_ok s : state_ok s -> state_ok (Grostl.perm_Q s).
Proof. intros Hs. unfold Grostl.perm_Q. change (seqZ 0 10) with [0; 1; 2; 3; 4; 5; 6; 7; 8; 9]. cbn [foldl]. by repeat apply round_Q_ok. Qed.

(** ** Compression *)
Lemma xor_ok s t : state_ok s -> state_ok t -> state_ok (Grostl.xor s t).
Proof. intros [Hs Ls] [Ht Lt]. split; [by apply zip_lxor_bytes|]. unfold Grostl.xor. rewrite length_zip_with. lia. Qed.

Lemma words_of_xor s t : state_ok s -> state_ok t -> words_of (Grostl.xor s t) = zip_with Z.lxor (words_of s) (words_of t).
Proof.
  intros [Hs Ls] [Ht Lt]. destruct (st_of s Hs Ls) as (a & Ha & ->), (st_of t Ht Lt) as (b & Hb & ->).
  change (Grostl.xor (st a) (st b)) with (st (fun k => Z.lxor (a k) (b k))). rewrite !words_of_st. cbn [zip_with].
  rewrite !lxor_4 by (byte_list; first [apply Ha|apply Hb]). reflexivity.
Qed.

(** The copying loops on sixteen words. *)
Lemma copy_words (z m : list Z) : length z = 16%nat -> length m = 16%nat -> for_ 16 (fun i z => let! mi := get m i in set z i mi) 0 z = Ok m.
Proof.
  intros Hz Hm. apply sixteen in Hz as (? & ? & ? & ? & ? & ? & ? & ? & ? & ? & ? & ? & ? & ? & ? & ? & ->).
  apply sixteen in Hm as (? & ? & ? & ? & ? & ? & ? & ? & ? & ? & ? & ? & ? & ? & ? & ? & ->). reflexivity.
Qed.

Lemma copy_xor (z h m : list Z) :
  length z = 16%nat -> length h = 16%nat -> length m = 16%nat ->
  for_ 16 (fun i z => let! hi := get h i in let! mi := get m i in set z i (Z.lxor hi mi)) 0 z = Ok (zip_with Z.lxor h m).
Proof.
  intros Hz Hh Hm. apply sixteen in Hz as (? & ? & ? & ? & ? & ? & ? & ? & ? & ? & ? & ? & ? & ? & ? & ? & ->).
  apply sixteen in Hh as (? & ? & ? & ? & ? & ? & ? & ? & ? & ? & ? & ? & ? & ? & ? & ? & ->).
  apply sixteen in Hm as (? & ? & ? & ? & ? & ? & ? & ? & ? & ? & ? & ? & ? & ? & ? & ? & ->). cbv -[Z.lxor]. reflexivity.
Qed.

Lemma xor_words h t :
  length h = 16%nat -> length t = 16%nat -> for_ 16 (fun i h => let! ti := get t i in xor_at h i ti) 0 h = Ok (zip_with Z.lxor h t).
Proof.
  intros Hh Hm. apply sixteen in Hh as (? & ? & ? & ? & ? & ? & ? & ? & ? & ? & ? & ? & ? & ? & ? & ? & ->).
  apply sixteen in Hm as (? & ? & ? & ? & ? & ? & ? & ? & ? & ? & ? & ? & ? & ? & ? & ? & ->). cbv -[Z.lxor]. reflexivity.
Qed.

Lemma xor_words_2 h p q :
  length h = 16%nat -> length p = 16%nat -> length q = 16%nat ->
  for_ 16 (fun i h => let! pi := get p i in let! qi := get q i in xor_at h i (Z.lxor pi qi)) 0 h = Ok (zip_with Z.lxor h (zip_with Z.lxor p q)).
Proof.
  intros Hz Hh Hm. apply sixteen in Hz as (? & ? & ? & ? & ? & ? & ? & ? & ? & ? & ? & ? & ? & ? & ? & ? & ->).
  apply sixteen in Hh as (? & ? & ? & ? & ? & ? & ? & ? & ? & ? & ? & ? & ? & ? & ? & ? & ->).
  apply sixteen in Hm as (? & ? & ? & ? & ? & ? & ? & ? & ? & ? & ? & ? & ? & ? & ? & ? & ->). cbv -[Z.lxor]. reflexivity.
Qed.

Lemma F512_spec zero h m :
  length zero = 16%nat -> state_ok h -> state_ok m -> F512 zero (words_of h) (words_of m) = Ok (words_of (Grostl.compress h m)).
Proof.
  intros Hz Hh Hm. unfold F512. rewrite copy_words, copy_xor, <- words_of_xor by done. cbn [bind].
  pose proof (xor_ok h m Hh Hm) as Hx. unfold Grostl.compress. unfold Grostl.perm_Q.
  change (seqZ 0 10) with [0; 1; 2; 3; 4; 5; 6; 7; 8; 9]. cbn [foldl].
  next_Q 0. next_Q 1. next_Q 2. next_Q 3. next_Q 4. next_Q 5. next_Q 6. next_Q 7. next_Q 8. next_Q 9.
  match goal with |- context [P_rounds _ ?y ?z] =>
    destruct (P_rounds_spec (Grostl.xor h m) y z Hx ltac:(assumption) ltac:(assumption)) as (? & ? & _ & _ & ->) end. cbn [bind].
  pose proof (perm_P_ok _ Hx) as HP. rewrite !words_of_xor by first [assumption|by apply xor_ok].
  by apply xor_words_2.
Qed.

Lemma compress_ok h m : state_ok h -> state_ok m -> state_ok (Grostl.compress h m).
Proof. intros Hh Hm. unfold Grostl.compress. apply xor_ok; [done|]. apply xor_ok; [by apply perm_P_ok, xor_ok|by apply perm_Q_ok]. Qed.

Lemma OutputTransformation_spec zero h :
  length zero = 16%nat -> state_ok h -> OutputTransformation zero (words_of h) = Ok (words_of (Grostl.output h)).
Proof.
  intros Hz Hh. unfold OutputTransformation. rewrite copy_words by done. cbn [bind].
  destruct (P_rounds_spec h zero zero Hh Hz Hz) as (? & ? & _ & _ & ->). cbn [bind].
  unfold Grostl.output. rewrite words_of_xor by first [assumption|by apply perm_P_ok]. by apply xor_words.
Qed.

(** ** Blocks *)
Lemma words_of_take s : words_of (take 64 s) = words_of s.
Proof.
  unfold words_of. apply list_fmap_ext. intros k i Hi. apply lookup_seq in Hi as [-> Hk].
  rewrite skipn_firstn_comm, take_take. do 2 f_equal. lia.
Qed.

(** The two halves of the block counter. *)
Definition counter (n : nat) : Z * Z := (u32 (Z.of_nat n), u32 (Z.of_nat n / 2 ^ 32)).

Lemma count_block_spec n : count_block (counter n).1 (counter n).2 = counter (S n).
Proof.
  unfold count_block, counter, u32. cbn [fst snd]. rewrite Zplus_mod_idemp_l. replace (Z.of_nat n + 1) with (Z.of_nat (S n)) by lia. f_equal.
  pose proof (Z.div_mod (Z.of_nat n) (2 ^ 32) ltac:(lia)) as E. pose proof (Z.mod_pos_bound (Z.of_nat n) (2 ^ 32) ltac:(lia)) as B.
  destruct (Z.eqb_spec (Z.of_nat (S n) mod 2 ^ 32) 0) as [H|H].
  - rewrite Zplus_mod_idemp_l. f_equal. apply Z.mod_divide in H as [c Hc]; [|lia]. rewrite Hc, Z.div_mul by lia. lia.
  - f_equal. assert (Z.of_nat n mod 2 ^ 32 <> 2 ^ 32 - 1).
    { intros Hm. apply H. symmetry. apply (Z.mod_unique _ _ (Z.of_nat n / 2 ^ 32 + 1)); lia. }
    apply (Z.div_unique _ _ _ (Z.of_nat n mod 2 ^ 32 + 1)); lia.
Qed.

(** A state that absorbed [n] blocks up to the chain value [h] and holds [pend] in its buffer. *)
Record loaded (ctx : groestl_state) (h : list Z) (n : nat) (pend : list Z) : Prop := {
  loaded_h : chaining ctx = words_of h; loaded_ok : state_ok h;
  loaded_counter : (block_counter1 ctx, block_counter2 ctx) = counter n; loaded_bits : bits_in_last_byte ctx = 0;
  loaded_buf : state_ok (g_buffer ctx); loaded_pend : take (length pend) (g_buffer ctx) = pend;
  loaded_ptr : buf_ptr ctx = length pend; loaded_short : (length pend <= 64)%nat }.

Lemma Transform_spec zero k r fuel ctx input h n pend :
  length zero = 16%nat -> loaded ctx h n pend -> bytes input -> (64 * k + r <= length input)%nat -> (r < 64)%nat -> (k <= fuel)%nat ->
  returns (Transform fuel zero ctx input (Z.of_nat (64 * k + r))) (fun ctx' =>
    loaded ctx' (Grostl.chain k h input) (n + k) pend /\ g_buffer ctx' = g_buffer ctx).
Proof.
  intros Hz Hl. remember (g_buffer ctx) as buf eqn:Eb. symmetry in Eb. revert fuel ctx input h n Hl Eb.
  induction k as [|k IH]; intros fuel ctx input h n Hl Eb Hb Hlen Hr Hf.
  - rewrite Nat.add_0_r. destruct fuel; cbn [Transform]; (destruct (Z.leb_spec (Z.of_nat SIZE512) (Z.of_nat (64 * 0 + r))); [unfold SIZE512 in *; lia|done]).
  - destruct fuel as [|fuel]; [lia|]. cbn [Transform]. destruct (Z.leb_spec (Z.of_nat SIZE512) (Z.of_nat (64 * S k + r))); [|unfold SIZE512 in *; lia].
    unfold input_words. rewrite decide_True by lia. cbn [bind]. fold (words_of input). rewrite <- (words_of_take input).
    destruct Hl as [E1 E2 E3 E4 E5 E6 E7 E8]. assert (state_ok (take 64 input)) as Ht by (split; [by apply Forall_take|rewrite length_take; lia]).
    rewrite E1, F512_spec by done. cbn [bind].
    replace (block_counter1 ctx) with (counter n).1 by (by rewrite <- E3). replace (block_counter2 ctx) with (counter n).2 by (by rewrite <- E3).
    rewrite count_block_spec. destruct (counter (S n)) as [c1 c2] eqn:Ec. cbn [Grostl.chain].
    replace (Z.of_nat (64 * S k + r) - Z.of_nat SIZE512) with (Z.of_nat (64 * k + r)) by (unfold SIZE512; lia).
    replace (n + S k)%nat with (S n + k)%nat by lia.
    apply IH; [|done|by apply Forall_drop|rewrite length_drop; unfold SIZE512; lia|done|lia].
    split; cbn [chaining block_counter1 block_counter2 g_buffer buf_ptr bits_in_last_byte]; try done. by apply compress_ok.
Qed.

Lemma push_spec ctx h n pend b :
  loaded ctx h n pend -> is_byte b -> (length pend < 64)%nat -> returns (push ctx b) (fun ctx' => loaded ctx' h n (pend ++ [b])).
Proof.
  intros [E1 E2 E3 E4 [E5 E5'] E6 E7 E8] Hb Hp. unfold push. rewrite set_ok by lia. cbn [bind returns].
  split; cbn [chaining block_counter1 block_counter2 g_buffer buf_ptr bits_in_last_byte]; try done.
  - split; [by apply Forall_insert|by rewrite length_insert].
  - rewrite length_app, E7. cbn [length]. rewrite Nat.add_1_r, (take_S_r _ _ b); [|apply list_lookup_insert_eq; lia].
    rewrite take_insert_ge by lia. by rewrite E6.
  - rewrite length_app. cbn [length]. lia.
  - rewrite length_app. cbn [length]. lia.
Qed.

Lemma push_loop ctx h n pend input index k :
  loaded ctx h n pend -> bytes input -> (length pend + k <= 64)%nat -> (index + k <= length input)%nat ->
  returns (for_ k (fun i ctx => let! b := get input i in push ctx b) index ctx) (fun ctx' =>
    loaded ctx' h n (pend ++ take k (drop index input))).
Proof.
  revert ctx pend index. induction k as [|k IH]; intros ctx pend index Hl Hb Hk Hi.
  - rewrite take_0, app_nil_r. done.
  - cbn [for_]. destruct (lookup_lt_is_Some_2 input index ltac:(lia)) as [b Eb]. rewrite (get_ok _ _ _ Eb). cbn [bind].
    eapply returns_bind; [apply push_spec; [done|by eapply (Forall_lookup_1 _ _ _ _ Hb)|lia]|]. intros ctx' Hl'.
    rewrite (drop_S _ b) by done. cbn [take]. rewrite cons_middle, app_assoc.
    apply IH; [done|done|rewrite length_app; cbn [length]; lia|lia].
Qed.

(** [fill_buffer] is that loop, up to the end of the buffer. *)
Lemma fill_buffer_spec ctx h n pend input index k :
  loaded ctx h n pend -> bytes input -> (index + k <= length input)%nat ->
  returns (fill_buffer ctx input index k) (fun '(ctx', index') =>
    let j := Nat.min k (64 - length pend) in index' = (index + j)%nat /\ loaded ctx' h n (pend ++ take j (drop index input))).
Proof.
  revert ctx pend index. induction k as [|k IH]; intros ctx pend index Hl Hb Hi.
  - cbn [fill_buffer returns Nat.min]. rewrite take_0, app_nil_r, Nat.add_0_r. done.
  - cbn [fill_buffer]. rewrite (loaded_ptr _ _ _ _ Hl). unfold SIZE512. destruct (Nat.ltb_spec (length pend) 64).
    + destruct (lookup_lt_is_Some_2 input index ltac:(lia)) as [b Eb]. rewrite (get_ok _ _ _ Eb). cbn [bind].
      eapply returns_bind; [apply push_spec; [done|by eapply (Forall_lookup_1 _ _ _ _ Hb)|lia]|]. intros ctx' Hl'.
      eapply returns_mono; [apply (IH ctx' (pend ++ [b]) (index + 1)%nat); [done|done|lia]|]. intros [ctx'' index'] [Ei Hl''].
      rewrite length_app in Ei, Hl''. cbn [length] in Ei, Hl''.
      replace (Nat.min (S k) (64 - length pend)) with (S (Nat.min k (64 - (length pend + 1)))) by lia.
      cbn zeta. split; [lia|]. rewrite (drop_S _ b) by done. cbn [take]. rewrite cons_middle, app_assoc.
      by rewrite <- (Nat.add_1_r index).
    + replace (Nat.min (S k) (64 - length pend)) with 0%nat by lia. cbn [returns]. rewrite take_0, app_nil_r. cbn zeta. split; [lia|done].
Qed.

(** ** Messages *)
(** The state between calls, after the message [m]. *)
Definition absorbed (ctx : groestl_state) (m : list Z) : Prop :=
  let k := (length m / 64)%nat in loaded ctx (Grostl.chain k Grostl.iv m) k (drop (64 * k) m).

Lemma iv_ok : state_ok Grostl.iv.
Proof. split; [|done]. apply Forall_app. split; [by apply Forall_replicate|apply be_bytes_ok]. Qed.

Lemma chain_ok k h m : state_ok h -> bytes m -> (64 * k <= length m)%nat -> state_ok (Grostl.chain k h m).
Proof.
  revert h m. induction k as [|k IH]; intros h m Hh Hm Hl; [done|]. cbn [Grostl.chain]. apply IH; [|by apply Forall_drop|rewrite length_drop; lia].
  apply compress_ok; [done|]. split; [by apply Forall_take|]. rewrite length_take. lia.
Qed.

Lemma chain_add j k h m : Grostl.chain (j + k) h m = Grostl.chain k (Grostl.chain j h m) (drop (64 * j) m).
Proof.
  revert h m. induction j as [|j IH]; intros h m; [by rewrite Nat.mul_0_r, drop_0|]. cbn [Nat.add Grostl.chain].
  rewrite IH, drop_drop. do 2 f_equal. lia.
Qed.

Lemma chain_app k h a b : (64 * k <= length a)%nat -> Grostl.chain k h (a ++ b) = Grostl.chain k h a.
Proof.
  revert h a. induction k as [|k IH]; intros h a Hk; [done|]. cbn [Grostl.chain].
  rewrite take_app_le, drop_app_le by lia. apply IH. rewrite length_drop. lia.
Qed.

Lemma groestl_Init_spec buffer : state_ok buffer -> returns (groestl_Init buffer) (fun ctx => absorbed ctx []).
Proof. intros Hb. unfold groestl_Init. rewrite set_ok by (cbn; lia). cbn [bind returns]. split; try done; [apply iv_ok|cbn; lia]. Qed.

Lemma push_rem_0 input index ctx : push_rem 0 input index ctx = Ok ctx.
Proof. done. Qed.

(** The end of [Update], with an empty buffer. *)
Lemma update_bulk_spec zero ctx h n input index L :
  length zero = 16%nat -> loaded ctx h n [] -> bytes input -> (index <= L <= length input)%nat ->
  let k := ((L - index) / 64)%nat in
  returns (update_bulk zero ctx input index (Z.of_nat L) 0) (fun ctx' =>
    loaded ctx' (Grostl.chain k h (drop index input)) (n + k) (take (L - index - 64 * k) (drop (64 * k) (drop index input)))).
Proof.
  intros Hz Hl Hb HL k. unfold update_bulk. rewrite andb_false_r, Nat2Z.id.
  pose proof (Nat.Div0.div_mod (L - index) 64) as E. pose proof (Nat.mod_upper_bound (L - index) 64 ltac:(lia)) as Hr. fold k in E.
  set (r := ((L - index) mod 64)%nat) in *. unfold SIZE512. fold k.
  eapply returns_bind.
  { rewrite E at 2. apply (Transform_spec zero k r (L - index) ctx (drop index input) h n []);
      [done|done|by apply Forall_drop|rewrite length_drop; lia|done|lia]. }
  intros ctx' [Hl' _]. cbn zeta. eapply returns_bind.
  { eapply (push_loop ctx' _ _ [] input); [exact Hl'|done|cbn [length]; lia|lia]. }
  intros ctx'' Hl''. rewrite push_rem_0. cbn [returns]. rewrite drop_drop.
  replace (L - index - 64 * k)%nat with (L - (index + k * 64))%nat by lia. by replace (index + 64 * k)%nat with (index + k * 64)%nat by lia.
Qed.

Lemma loaded_empty ctx h n pend : loaded ctx h n pend -> loaded (set_ptr 0 ctx) h n [].
Proof. intros [E1 E2 E3 E4 E5 E6 E7 E8]. split; cbn [set_ptr chaining block_counter1 block_counter2 g_buffer buf_ptr bits_in_last_byte length]; (done || lia). Qed.

(** A full buffer goes through [Transform]. *)
Lemma Transform_buffer zero ctx h n pend :
  length zero = 16%nat -> loaded ctx h n pend -> length pend = 64%nat ->
  returns (Transform 1 zero (set_ptr 0 ctx) (g_buffer ctx) (Z.of_nat SIZE512)) (fun ctx' => loaded ctx' (Grostl.compress h pend) (S n) []).
Proof.
  intros Hz Hl Hp. destruct (loaded_buf _ _ _ _ Hl) as [Bb Lb]. pose proof (loaded_pend _ _ _ _ Hl) as Ep. rewrite Hp, take_ge in Ep by lia.
  eapply returns_mono; [apply (Transform_spec zero 1 0 1 (set_ptr 0 ctx) (g_buffer ctx) h n []);
    [done|by apply (loaded_empty _ _ _ pend)|done|lia|lia|lia]|].
  intros ctx' [Hl' _]. cbn [Grostl.chain] in Hl'. rewrite Nat.add_1_r, Ep, take_ge in Hl' by lia. done.
Qed.

Lemma Update_step zero ctx h n pend data :
  length zero = 16%nat -> loaded ctx h n pend -> (length pend < 64)%nat -> bytes data -> Z.of_nat (length data) < 2 ^ 31 ->
  returns (groestl_Update zero ctx data (8 * Z.of_nat (length data))) (fun ctx' =>
    let j := (length (pend ++ data) / 64)%nat in
    loaded ctx' (Grostl.chain j h (pend ++ data)) (n + j) (drop (64 * j) (pend ++ data))).
Proof.
  intros Hz Hst Hp Hb Hlen. unfold groestl_Update. rewrite (Z.mul_comm 8), Z.div_mul, Z.mod_mul, to_i32_id by lia. cbn zeta.
  rewrite (loaded_ptr _ _ _ _ Hst), Nat2Z.id. set (L := length data) in *.
  destruct (Nat.eqb_spec (length pend) 0) as [Hp0|Hp0].
  - assert (pend = []) as -> by (by apply length_zero_iff_nil). cbn [app]. fold L.
    eapply returns_mono; [apply (update_bulk_spec zero ctx h n data 0 L); [done|done|done|lia]|]. intros ctx' Hl. cbn beta in Hl.
    rewrite Nat.sub_0_r, !drop_0 in Hl. rewrite take_ge in Hl by (rewrite length_drop; lia). done.
  - eapply returns_bind; [apply (fill_buffer_spec ctx h n pend data 0 L); [done|done|lia]|]. intros [ctx' index] [-> Hl].
    rewrite drop_0, Nat.add_0_l in *. rewrite (loaded_ptr _ _ _ _ Hl), length_app, length_take. unfold SIZE512 at 1.
    destruct (Nat.ltb_spec (length pend + Nat.min (Nat.min L (64 - length pend)) (length data)) 64) as [Hlt|Hge].
    + rewrite push_rem_0. cbn [returns]. replace (length (pend ++ data) / 64)%nat with 0%nat by (symmetry; apply Nat.div_small; rewrite length_app; lia).
      rewrite Nat.min_l in Hl by lia. rewrite take_ge in Hl by lia. rewrite Nat.add_0_r, drop_0. done.
    + set (f := (64 - length pend)%nat) in *. replace (Nat.min L f) with f in * by lia.
      cbn zeta. eapply returns_bind; [apply (Transform_buffer zero ctx' h n _ Hz Hl); rewrite length_app, length_take; lia|]. intros ctx'' Hl''.
      eapply returns_mono; [eapply (update_bulk_spec zero ctx'' _ _ data f L); [done|exact Hl''|done|lia]|]. intros c Hc. cbn beta in Hc.
      set (k := ((L - f) / 64)%nat) in *.
      replace (length (pend ++ data) / 64)%nat with (1 + k)%nat.
      2: { rewrite length_app. replace (length pend + length data)%nat with (1 * 64 + (L - f))%nat by lia. by rewrite Nat.div_add_l by lia. }
      rewrite chain_add. cbn [Grostl.chain]. rewrite take_app_ge, drop_app_ge by lia. fold f.
      replace (64 * (1 + k))%nat with (64 + 64 * k)%nat by lia. rewrite <- drop_drop, drop_app_ge by lia. fold f.
      replace (n + (1 + k))%nat with (S n + k)%nat by lia. rewrite (take_ge (drop _ (drop f data))) in Hc by (rewrite !length_drop; lia). done.
Qed.

Lemma groestl_absorbed_app ctx m d :
  let k := (length m / 64)%nat in let pend := drop (64 * k) m in let j := (length (pend ++ d) / 64)%nat in
  loaded ctx (Grostl.chain j (Grostl.chain k Grostl.iv m) (pend ++ d)) (k + j) (drop (64 * j) (pend ++ d)) -> absorbed ctx (m ++ d).
Proof.
  intros k pend j Hl. unfold absorbed. pose proof (Nat.Div0.div_mod (length m) 64) as E. fold k in E.
  pose proof (Nat.mod_upper_bound (length m) 64 ltac:(lia)).
  replace (length (m ++ d) / 64)%nat with (k + j)%nat.
  2: { subst j pend. rewrite !length_app, length_drop. rewrite <- Nat.div_add_l by lia. f_equal. lia. }
  rewrite chain_add, chain_app by lia. rewrite Nat.mul_add_distr_l, <- drop_drop. rewrite (drop_app_le m d) by lia. done.
Qed.

Lemma Update_spec zero ctx m data :
  length zero = 16%nat -> absorbed ctx m -> bytes data -> Z.of_nat (length data) < 2 ^ 31 ->
  returns (groestl_Update zero ctx data (8 * Z.of_nat (length data))) (fun ctx' => absorbed ctx' (m ++ data)).
Proof.
  intros Hz Hst Hb Hlen. eapply returns_mono; [apply (Update_step zero ctx _ _ _ data Hz Hst); [|done|done]|].
  - rewrite length_drop. pose proof (Nat.Div0.div_mod (length m) 64). pose proof (Nat.mod_upper_bound (length m) 64 ltac:(lia)). lia.
  - intros ctx' Hl. by apply groestl_absorbed_app.
Qed.

(** ** The end of the message *)
Lemma push_zeros_spec n ctx h c pend :
  loaded ctx h c pend -> (length pend <= n <= 64)%nat ->
  returns (push_zeros n ctx) (fun ctx' => loaded ctx' h c (pend ++ replicate (n - length pend) 0)).
Proof.
  intros Hl Hn. unfold push_zeros. rewrite (loaded_ptr _ _ _ _ Hl). generalize 0%nat at 1 as i. intros i.
  assert (exists d, d = n - length pend /\ length pend + d <= 64)%nat as (d & <- & Hd) by (exists (n - length pend)%nat; lia).
  clear Hn. revert ctx pend i Hl Hd. induction d as [|d IH]; intros ctx pend i Hl Hd.
  - by rewrite app_nil_r.
  - cbn [for_]. eapply returns_bind; [apply push_spec; [done|done|lia]|]. intros ctx' Hl'. cbn [replicate].
    rewrite cons_middle, app_assoc. apply IH; [done|]. rewrite length_app. cbn [length]. lia.
Qed.

Lemma store_counter_spec p k c buffer :
  (k <= p <= length buffer)%nat -> store_counter p k c buffer = Ok (take (p - k) buffer ++ be_bytes k c ++ drop p buffer).
Proof.
  revert p c buffer. induction k as [|k IH]; intros p c buffer Hp.
  - rewrite Nat.sub_0_r. change (be_bytes 0 c) with (@nil Z). cbn [app store_counter]. by rewrite take_drop.
  - cbn [store_counter]. rewrite set_ok by lia. cbn [bind]. rewrite IH by (rewrite length_insert; lia). f_equal.
    rewrite take_insert_ge by lia. replace (p - 1 - k)%nat with (p - S k)%nat by lia. f_equal.
    rewrite (drop_S _ (u8 c)) by (apply list_lookup_insert_eq; lia). replace (S (p - 1)) with p by lia.
    rewrite drop_insert_lt by lia. unfold be_bytes. change (le_bytes (S k) c) with (u8 c :: le_bytes k (c / 256)). rewrite reverse_cons, <- app_assoc. cbn [app]. do 2 f_equal.
    by rewrite Z.shiftr_div_pow2 by lia.
Qed.

Lemma counter_bytes n : be_bytes 4 (counter n).2 ++ be_bytes 4 (counter n).1 = be_bytes 8 (Z.of_nat n).
Proof.
  unfold be_bytes. rewrite <- reverse_app. f_equal. apply le_val_inj.
  - apply Forall_app. split; apply le_bytes_bytes.
  - apply le_bytes_bytes.
  - by rewrite length_app, !le_bytes_length.
  - rewrite le_val_app, !le_val_bytes, le_bytes_length. unfold counter, u32. cbn [fst snd].
    change (256 ^ Z.of_nat 4) with (2 ^ 32). change (256 ^ Z.of_nat 8) with (2 ^ 32 * 2 ^ 32). rewrite !Z.mod_mod by lia.
    by rewrite Z.rem_mul_r by lia.
Qed.

(** The last 32 bytes of a state. *)
Lemma output_bytes s :
  state_ok s -> for_ 32 (fun i output => let! b := byte_at (words_of s) i in Ok (output ++ [b])) 32 [] = Ok (drop 32 s).
Proof.
  intros [Hs Hl]. destruct (st_of s Hs Hl) as (b & Hb & ->).
  assert (forall k i acc, (i + k <= 64)%nat ->
    for_ k (fun i output => let! v := byte_at (words_of (st b)) i in Ok (output ++ [v])) i acc = Ok (acc ++ (b <$> seq i k))) as H.
  { induction k as [|k IH]; intros i acc Hi; [by rewrite app_nil_r|]. cbn [for_]. rewrite byte_at_st by (done || lia). cbn [bind].
    rewrite IH by lia. by rewrite <- app_assoc. }
  rewrite H by lia. reflexivity.
Qed.

(** The last block: the counter is stored behind 56 bytes. *)
Lemma last_block zero ctx h n pend :
  length zero = 16%nat -> loaded ctx h n pend -> length pend = 56%nat ->
  (let '(c1, c2) := count_block (block_counter1 ctx) (block_counter2 ctx) in
   let! buffer := store_counter SIZE512 4 c1 (g_buffer ctx) in
   let! buffer := store_counter (SIZE512 - 4) 4 c2 buffer in
   let ctx := Groestl (chaining ctx) 0 0 buffer (SIZE512 - LENGTHFIELDLEN) (bits_in_last_byte ctx) in
   let! ctx := Transform 1 zero ctx (g_buffer ctx) (Z.of_nat SIZE512) in
   let! h := OutputTransformation zero (chaining ctx) in
   for_ 32 (fun i output => let! b := byte_at h i in Ok (output ++ [b])) 32 []) =
  Ok (drop 32 (Grostl.output (Grostl.compress h (pend ++ be_bytes 8 (Z.of_nat (S n)))))).
Proof.
  intros Hz [E1 E2 E3 E4 [E5 E5'] E6 E7 E8] Hp.
  replace (block_counter1 ctx) with (counter n).1 by (by rewrite <- E3). replace (block_counter2 ctx) with (counter n).2 by (by rewrite <- E3).
  rewrite count_block_spec. destruct (counter (S n)) as [c1 c2] eqn:Ec. unfold SIZE512, LENGTHFIELDLEN. cbn [Nat.sub].
  rewrite store_counter_spec by lia. cbn [bind]. destruct (be_bytes_ok 4 c1) as [B1 L1], (be_bytes_ok 4 c2) as [B2 L2].
  rewrite store_counter_spec by (rewrite !length_app, length_take, length_drop, L1; lia). cbn [bind Nat.sub].
  assert (take 56 (take 60 (g_buffer ctx) ++ be_bytes 4 c1 ++ drop 64 (g_buffer ctx)) = pend) as ->
    by (rewrite take_app_le, take_take by (rewrite length_take; lia); cbn [Nat.min]; by rewrite <- Hp).
  assert (drop 60 (take 60 (g_buffer ctx) ++ be_bytes 4 c1 ++ drop 64 (g_buffer ctx)) = be_bytes 4 c1) as ->
    by (rewrite drop_app_ge, (drop_ge (g_buffer ctx)), app_nil_r by (rewrite ?length_take; lia); rewrite length_take, E5'; done).
  pose proof (counter_bytes (S n)) as Eb. rewrite Ec in Eb. cbn [fst snd] in Eb. rewrite Eb.
  set (block := pend ++ be_bytes 8 (Z.of_nat (S n))).
  destruct (be_bytes_ok 8 (Z.of_nat (S n))) as [B8 L8]. assert (bytes pend) as Bp by (rewrite <- E6; by apply Forall_take).
  assert (state_ok block) as Hblock by (split; [by apply Forall_app|unfold block; rewrite length_app; lia]).
  destruct (proj1 (returns_inv _ _) (Transform_spec zero 1 0 1 (Groestl (chaining ctx) 0 0 block 56 (bits_in_last_byte ctx)) block h 0 pend Hz
    ltac:(split; cbn [chaining block_counter1 block_counter2 g_buffer buf_ptr bits_in_last_byte]; try done; unfold block; by rewrite take_app_length)
    (proj1 Hblock) ltac:(rewrite (proj2 Hblock); lia) ltac:(lia) ltac:(lia))) as (ctx' & Et & Hl' & _).
  cbn [Grostl.chain] in Hl'. rewrite take_ge in Hl' by (rewrite (proj2 Hblock); lia).
  cbn [g_buffer]. change (Z.of_nat 64) with (Z.of_nat (64 * 1 + 0)). rewrite Et. cbn [bind].
  rewrite (loaded_h _ _ _ _ Hl'), OutputTransformation_spec by (done || apply (loaded_ok _ _ _ _ Hl')). cbn [bind].
  apply output_bytes. unfold Grostl.output. pose proof (loaded_ok _ _ _ _ Hl'). by apply xor_ok; [|apply perm_P_ok].
Qed.

(** The block with the first padding byte, when it has no room for the counter. *)
Lemma first_block zero ctx h n pend :
  length zero = 16%nat -> loaded ctx h n pend -> (length pend <= 64)%nat ->
  returns (let! ctx := push_zeros SIZE512 ctx in
           let! ctx := Transform 1 zero ctx (g_buffer ctx) (Z.of_nat SIZE512) in
           Ok (set_ptr 0 ctx))
    (fun ctx' => loaded ctx' (Grostl.compress h (pend ++ replicate (64 - length pend) 0)) (S n) []).
Proof.
  intros Hz Hl Hp. unfold SIZE512. eapply returns_bind; [apply (push_zeros_spec 64 _ _ _ _ Hl); lia|]. intros ctx' Hl'.
  set (block := pend ++ replicate (64 - length pend) 0) in *.
  assert (length block = 64%nat) as Lb by (unfold block; rewrite length_app, length_replicate; lia).
  destruct (loaded_buf _ _ _ _ Hl') as [Bb Lg]. pose proof (loaded_pend _ _ _ _ Hl') as Ep. rewrite Lb, take_ge in Ep by lia.
  change (Z.of_nat 64) with (Z.of_nat (64 * 1 + 0)). eapply returns_bind.
  { apply (Transform_spec zero 1 0 1 ctx' (g_buffer ctx') h n block); [done|done|done|lia|lia|lia]. }
  intros ctx'' [Hl'' _]. cbn [Grostl.chain] in Hl''. rewrite Ep, take_ge, Nat.add_1_r in Hl'' by lia. by eapply loaded_empty.
Qed.

Lemma zeros_low k r : (r <= 55)%nat -> Grostl.zeros (64 * k + r) = (55 - r)%nat /\ Grostl.block_count (64 * k + r) = S k.
Proof.
  intros Hr. assert ((64 * k + r) mod 64 = r)%nat as E by (symmetry; apply (Nat.mod_unique _ _ k); lia).
  assert (Grostl.zeros (64 * k + r) = 55 - r)%nat as Ez by (unfold Grostl.zeros; rewrite E; symmetry; apply (Nat.mod_unique _ _ 1); lia).
  split; [done|]. unfold Grostl.block_count. rewrite Ez. symmetry. apply (Nat.div_unique _ _ _ 0); lia.
Qed.

Lemma zeros_high k r : (55 < r < 64)%nat -> Grostl.zeros (64 * k + r) = (119 - r)%nat /\ Grostl.block_count (64 * k + r) = S (S k).
Proof.
  intros Hr. assert ((64 * k + r) mod 64 = r)%nat as E by (symmetry; apply (Nat.mod_unique _ _ k); lia).
  assert (Grostl.zeros (64 * k + r) = 119 - r)%nat as Ez by (unfold Grostl.zeros; rewrite E; apply Nat.mod_small; lia).
  split; [done|]. unfold Grostl.block_count. rewrite Ez. symmetry. apply (Nat.div_unique _ _ _ 0); lia.
Qed.

Lemma Final_spec zero ctx m :
  length zero = 16%nat -> absorbed ctx m -> groestl_Final zero ctx = Ok (Grostl.hash m).
Proof.
  intros Hz Hst. unfold absorbed in Hst. set (k := (length m / 64)%nat) in *.
  pose proof (Nat.Div0.div_mod (length m) 64) as E. pose proof (Nat.mod_upper_bound (length m) 64 ltac:(lia)) as Hr. fold k in E.
  set (r := (length m mod 64)%nat) in *. set (pend := drop (64 * k) m) in *. assert (length pend = r) as Lp by (unfold pend; rewrite length_drop; lia).
  set (h := Grostl.chain k Grostl.iv m) in *.
  assert (forall j tail, Grostl.chain (k + j) Grostl.iv (m ++ tail) = Grostl.chain j h (pend ++ tail)) as Hchain.
  { intros j tail. rewrite chain_add, chain_app by lia. by rewrite (drop_app_le m tail) by lia. }
  unfold groestl_Final, pad_one. rewrite (loaded_bits _ _ _ _ Hst). cbn [Z.eqb].
  destruct (proj1 (returns_inv _ _) (push_spec ctx h k pend 0x80 Hst ltac:(done) ltac:(lia))) as (c1 & -> & H1). cbn [bind].
  assert (length (pend ++ [0x80]) = S r) as L1 by (rewrite length_app; cbn [length]; lia).
  rewrite (loaded_ptr _ _ _ _ H1), L1. unfold SIZE512, LENGTHFIELDLEN. cbn [Nat.sub]. unfold Grostl.hash, Grostl.pad.
  destruct (Nat.ltb_spec 56 (S r)) as [Hlong|Hshort].
  - destruct (zeros_high k r ltac:(lia)) as [Ez Eb]. rewrite <- E in Ez, Eb. rewrite Ez, Eb.
    destruct (proj1 (returns_inv _ _) (first_block zero c1 h k _ Hz H1 ltac:(lia))) as (c2 & E2 & H2).
    unfold SIZE512 in E2. rewrite E2. cbn [bind]. clear E2.
    destruct (proj1 (returns_inv _ _) (push_zeros_spec 56 c2 _ _ _ H2 ltac:(cbn [length]; lia))) as (c3 & E3 & H3). rewrite E3. cbn [bind].
    etransitivity; [by apply (last_block zero c3 _ _ _ Hz H3)|]. replace (S (S k)) with (k + 2)%nat by lia. rewrite Hchain.
    cbn [Grostl.chain app length Nat.sub]. rewrite L1.
    replace (pend ++ 128 :: replicate (119 - r) 0 ++ be_bytes 8 (Z.of_nat (k + 2))) with
      (((pend ++ [128]) ++ replicate (64 - S r) 0) ++ (replicate 56 0 ++ be_bytes 8 (Z.of_nat (k + 2)))).
    2: { replace (119 - r)%nat with (64 - S r + 56)%nat by lia. rewrite replicate_add, <- !app_assoc. done. }
    assert (length ((pend ++ [128]) ++ replicate (64 - S r) 0) = 64%nat) as L2 by (rewrite length_app, length_replicate; lia).
    rewrite take_app_length', drop_app_length' by done. rewrite take_ge by (rewrite length_app, length_replicate, (proj2 (be_bytes_ok _ _)); lia). done.
  - destruct (zeros_low k r ltac:(lia)) as [Ez Eb]. rewrite <- E in Ez, Eb. rewrite Ez, Eb. cbn [bind].
    destruct (proj1 (returns_inv _ _) (push_zeros_spec 56 c1 _ _ _ H1 ltac:(lia))) as (c3 & E3 & H3). rewrite E3. cbn [bind].
    etransitivity; [apply (last_block zero c3 _ _ _ Hz H3); rewrite length_app, length_replicate; lia|].
    replace (S k) with (k + 1)%nat by lia. rewrite Hchain. cbn [Grostl.chain app]. rewrite L1. replace (56 - S r)%nat with (55 - r)%nat by lia.
    rewrite <- !app_assoc. cbn [app]. rewrite take_ge; [done|].
    rewrite length_app. cbn [length]. rewrite length_app, length_replicate, (proj2 (be_bytes_ok _ _)). lia.
Qed.

Lemma groestl_spec zero buffer data :
  length zero = 16%nat -> state_ok buffer -> bytes data -> Z.of_nat (length data) < 2 ^ 31 ->
  groestl zero buffer data (8 * Z.of_nat (length data)) = Ok (Grostl.hash data).
Proof.
  intros Hz Hb Hd Hl. unfold groestl. destruct (proj1 (returns_inv _ _) (groestl_Init_spec buffer Hb)) as (c & -> & Hc). cbn [bind].
  destruct (proj1 (returns_inv _ _) (Update_spec zero c [] data Hz Hc Hd Hl)) as (c' & -> & Hc'). cbn [bind]. by apply Final_spec.
Qed.

(** Messages in pieces. *)
Fixpoint groestl_update_all (zero : list Z) (ctx : groestl_state) (pieces : list (list Z)) : result groestl_state :=
  match pieces with
  | [] => Ok ctx
  | d :: pieces =>
      let! ctx := groestl_Update zero ctx d (8 * Z.of_nat (length d)) in
      groestl_update_all zero ctx pieces
  end.

Lemma update_all_absorbed zero ctx m pieces :
  length zero = 16%nat -> absorbed ctx m -> Forall bytes pieces -> Z.of_nat (length (concat pieces)) < 2 ^ 31 ->
  returns (groestl_update_all zero ctx pieces) (fun ctx' => absorbed ctx' (m ++ concat pieces)).
Proof.
  intros Hz. revert ctx m. induction pieces as [|d pieces IH]; intros ctx m Hst Hp Hl; cbn [groestl_update_all concat] in *.
  - by rewrite app_nil_r.
  - rewrite length_app in Hl. apply Forall_cons_1 in Hp as [Hd Hp].
    eapply returns_bind; [apply (Update_spec zero ctx m d); (done || lia)|]. intros ctx' Hst'. rewrite app_assoc. apply IH; (done || lia).
Qed.

Lemma groestl_pieces zero buffer pieces :
  length zero = 16%nat -> state_ok buffer -> Forall bytes pieces -> Z.of_nat (length (concat pieces)) < 2 ^ 31 ->
  (let! ctx := groestl_Init buffer in
   let! ctx := groestl_update_all zero ctx pieces in
   groestl_Final zero ctx) = Ok (Grostl.hash (concat pieces)).
Proof.
  intros Hz Hb Hp Hl. destruct (proj1 (returns_inv _ _) (groestl_Init_spec buffer Hb)) as (c & -> & Hc). cbn [bind].
  destruct (proj1 (returns_inv _ _) (update_all_absorbed zero c [] pieces Hz Hc Hp Hl)) as (c' & -> & Hc'). cbn [bind]. by apply Final_spec.
Qed.

(** The length is an [int]: at 2^32 bytes it is 0. *)
Lemma groestl_wraps zero buffer data :
  length zero = 16%nat -> state_ok buffer -> groestl zero buffer data (8 * 2 ^ 32) = Ok (Grostl.hash []).
Proof.
  intros Hz Hb. unfold groestl. destruct (proj1 (returns_inv _ _) (groestl_Init_spec buffer Hb)) as (c & -> & Hc). cbn [bind].
  unfold groestl_Update. rewrite (loaded_ptr _ _ _ _ Hc). change (to_i32 (8 * 2 ^ 32 / 8)) with 0. change ((8 * 2 ^ 32) mod 8) with 0. cbn [length drop Nat.eqb].
  eapply (Final_spec zero) in Hc as <-; [|done]. unfold update_bulk. cbn. by destruct c.
Qed.
