(* ===== verification/Jh.v ===== *)
(** * JH

    [src/src/crypto/jh.c], [jh.h] and [hash-extra-jh.c], on a little-endian
    host: the bitsliced permutation [E8], the compression [F8] and the hash with
    incremental input in bits.  The word [x[i][k]] of the state is the word
    [2 i + k] of a list. *)

From stdpp Require Import base list numbers.
From Stdlib Require Import ZArith Lia.
From S2P Require Import Prelude Bytes Streaming.

(** ** Constants *)
Definition JH224_H0 : list Z := [
  0x2d; 0xfe; 0xdd; 0x62; 0xf9; 0x9a; 0x98; 0xac; 0xae; 0x7c; 0xac; 0xd6; 0x19; 0xd6; 0x34; 0xe7;
  0xa4; 0x83; 0x10; 0x05; 0xbc; 0x30; 0x12; 0x16; 0xb8; 0x60; 0x38; 0xc6; 0xc9; 0x66; 0x14; 0x94;
  0x66; 0xd9; 0x89; 0x9f; 0x25; 0x80; 0x70; 0x6f; 0xce; 0x9e; 0xa3; 0x1b; 0x1d; 0x9b; 0x1a; 0xdc;
  0x11; 0xe8; 0x32; 0x5f; 0x7b; 0x36; 0x6e; 0x10; 0xf9; 0x94; 0x85; 0x7f; 0x02; 0xfa; 0x06; 0xc1;
  0x1b; 0x4f; 0x1b; 0x5c; 0xd8; 0xc8; 0x40; 0xb3; 0x97; 0xf6; 0xa1; 0x7f; 0x6e; 0x73; 0x80; 0x99;
  0xdc; 0xdf; 0x93; 0xa5; 0xad; 0xea; 0xa3; 0xd3; 0xa4; 0x31; 0xe8; 0xde; 0xc9; 0x53; 0x9a; 0x68;
  0x22; 0xb4; 0xa9; 0x8a; 0xec; 0x86; 0xa1; 0xe4; 0xd5; 0x74; 0xac; 0x95; 0x9c; 0xe5; 0x6c; 0xf0;
  0x15; 0x96; 0x0d; 0xea; 0xb5; 0xab; 0x2b; 0xbf; 0x96; 0x11; 0xdc; 0xf0; 0xdd; 0x64; 0xea; 0x6e].

Definition JH256_H0 : list Z := [
  0xeb; 0x98; 0xa3; 0x41; 0x2c; 0x20; 0xd3; 0xeb; 0x92; 0xcd; 0xbe; 0x7b; 0x9c; 0xb2; 0x45; 0xc1;
  0x1c; 0x93; 0x51; 0x91; 0x60; 0xd4; 0xc7; 0xfa; 0x26; 0x00; 0x82; 0xd6; 0x7e; 0x50; 0x8a; 0x03;
  0xa4; 0x23; 0x9e; 0x26; 0x77; 0x26; 0xb9; 0x45; 0xe0; 0xfb; 0x1a; 0x48; 0xd4; 0x1a; 0x94; 0x77;
  0xcd; 0xb5; 0xab; 0x26; 0x02; 0x6b; 0x17; 0x7a; 0x56; 0xf0; 0x24; 0x42; 0x0f; 0xff; 0x2f; 0xa8;
  0x71; 0xa3; 0x96; 0x89; 0x7f; 0x2e; 0x4d; 0x75; 0x1d; 0x14; 0x49; 0x08; 0xf7; 0x7d; 0xe2; 0x62;
  0x27; 0x76; 0x95; 0xf7; 0x76; 0x24; 0x8f; 0x94; 0x87; 0xd5; 0xb6; 0x57; 0x47; 0x80; 0x29; 0x6c;
  0x5c; 0x5e; 0x27; 0x2d; 0xac; 0x8e; 0x0d; 0x6c; 0x51; 0x84; 0x50; 0xc6; 0x57; 0x05; 0x7a; 0x0f;
  0x7b; 0xe4; 0xd3; 0x67; 0x70; 0x24; 0x12; 0xea; 0x89; 0xe3; 0xab; 0x13; 0xd3; 0x1c; 0xd7; 0x69].

Definition JH384_H0 : list Z := [
  0x48; 0x1e; 0x3b; 0xc6; 0xd8; 0x13; 0x39; 0x8a; 0x6d; 0x3b; 0x5e; 0x89; 0x4a; 0xde; 0x87; 0x9b;
  0x63; 0xfa; 0xea; 0x68; 0xd4; 0x80; 0xad; 0x2e; 0x33; 0x2c; 0xcb; 0x21; 0x48; 0x0f; 0x82; 0x67;
  0x98; 0xae; 0xc8; 0x4d; 0x90; 0x82; 0xb9; 0x28; 0xd4; 0x55; 0xea; 0x30; 0x41; 0x11; 0x42; 0x49;
  0x36; 0xf5; 0x55; 0xb2; 0x92; 0x48; 0x47; 0xec; 0xc7; 0x25; 0x0a; 0x93; 0xba; 0xf4; 0x3c; 0xe1;
  0x56; 0x9b; 0x7f; 0x8a; 0x27; 0xdb; 0x45; 0x4c; 0x9e; 0xfc; 0xbd; 0x49; 0x63; 0x97; 0xaf; 0x0e;
  0x58; 0x9f; 0xc2; 0x7d; 0x26; 0xaa; 0x80; 0xcd; 0x80; 0xc0; 0x8b; 0x8c; 0x9d; 0xeb; 0x2e; 0xda;
  0x8a; 0x79; 0x81; 0xe8; 0xf8; 0xd5; 0x37; 0x3a; 0xf4; 0x39; 0x67; 0xad; 0xdd; 0xd1; 0x7a; 0x71;
  0xa9; 0xb4; 0xd3; 0xbd; 0xa4; 0x75; 0xd3; 0x94; 0x97; 0x6c; 0x3f; 0xba; 0x98; 0x42; 0x73; 0x7f].

Definition JH512_H0 : list Z := [
  0x6f; 0xd1; 0x4b; 0x96; 0x3e; 0x00; 0xaa; 0x17; 0x63; 0x6a; 0x2e; 0x05; 0x7a; 0x15; 0xd5; 0x43;
  0x8a; 0x22; 0x5e; 0x8d; 0x0c; 0x97; 0xef; 0x0b; 0xe9; 0x34; 0x12; 0x59; 0xf2; 0xb3; 0xc3; 0x61;
  0x89; 0x1d; 0xa0; 0xc1; 0x53; 0x6f; 0x80; 0x1e; 0x2a; 0xa9; 0x05; 0x6b; 0xea; 0x2b; 0x6d; 0x80;
  0x58; 0x8e; 0xcc; 0xdb; 0x20; 0x75; 0xba; 0xa6; 0xa9; 0x0f; 0x3a; 0x76; 0xba; 0xf8; 0x3b; 0xf7;
  0x01; 0x69; 0xe6; 0x05; 0x41; 0xe3; 0x4a; 0x69; 0x46; 0xb5; 0x8a; 0x8e; 0x2e; 0x6f; 0xe6; 0x5a;
  0x10; 0x47; 0xa7; 0xd0; 0xc1; 0x84; 0x3c; 0x24; 0x3b; 0x6e; 0x71; 0xb1; 0x2d; 0x5a; 0xc1; 0x99;
  0xcf; 0x57; 0xf6; 0xec; 0x9d; 0xb1; 0xf8; 0x56; 0xa7; 0x06; 0x88; 0x7c; 0x57; 0x16; 0xb1; 0x56;
  0xe3; 0xc2; 0xfc; 0xdf; 0xe6; 0x85; 0x17; 0xfb; 0x54; 0x5a; 0x46; 0x78; 0xcc; 0x8c; 0xdd; 0x4b].

Definition E8_bitslice_roundconstant : list (list Z) := [
  [0x72;0xd5;0xde;0xa2;0xdf;0x15;0xf8;0x67;0x7b;0x84;0x15;0x0a;0xb7;0x23;0x15;0x57;0x81;0xab;0xd6;0x90;0x4d;0x5a;0x87;0xf6;0x4e;0x9f;0x4f;0xc5;0xc3;0xd1;0x2b;0x40];
  [0xea;0x98;0x3a;0xe0;0x5c;0x45;0xfa;0x9c;0x03;0xc5;0xd2;0x99;0x66;0xb2;0x99;0x9a;0x66;0x02;0x96;0xb4;0xf2;0xbb;0x53;0x8a;0xb5;0x56;0x14;0x1a;0x88;0xdb;0xa2;0x31];
  [0x03;0xa3;0x5a;0x5c;0x9a;0x19;0x0e;0xdb;0x40;0x3f;0xb2;0x0a;0x87;0xc1;0x44;0x10;0x1c;0x05;0x19;0x80;0x84;0x9e;0x95;0x1d;0x6f;0x33;0xeb;0xad;0x5e;0xe7;0xcd;0xdc];
  [0x10;0xba;0x13;0x92;0x02;0xbf;0x6b;0x41;0xdc;0x78;0x65;0x15;0xf7;0xbb;0x27;0xd0;0x0a;0x2c;0x81;0x39;0x37;0xaa;0x78;0x50;0x3f;0x1a;0xbf;0xd2;0x41;0x00;0x91;0xd3];
  [0x42;0x2d;0x5a;0x0d;0xf6;0xcc;0x7e;0x90;0xdd;0x62;0x9f;0x9c;0x92;0xc0;0x97;0xce;0x18;0x5c;0xa7;0x0b;0xc7;0x2b;0x44;0xac;0xd1;0xdf;0x65;0xd6;0x63;0xc6;0xfc;0x23];
  [0x97;0x6e;0x6c;0x03;0x9e;0xe0;0xb8;0x1a;0x21;0x05;0x45;0x7e;0x44;0x6c;0xec;0xa8;0xee;0xf1;0x03;0xbb;0x5d;0x8e;0x61;0xfa;0xfd;0x96;0x97;0xb2;0x94;0x83;0x81;0x97];
  [0x4a;0x8e;0x85;0x37;0xdb;0x03;0x30;0x2f;0x2a;0x67;0x8d;0x2d;0xfb;0x9f;0x6a;0x95;0x8a;0xfe;0x73;0x81;0xf8;0xb8;0x69;0x6c;0x8a;0xc7;0x72;0x46;0xc0;0x7f;0x42;0x14];
  [0xc5;0xf4;0x15;0x8f;0xbd;0xc7;0x5e;0xc4;0x75;0x44;0x6f;0xa7;0x8f;0x11;0xbb;0x80;0x52;0xde;0x75;0xb7;0xae;0xe4;0x88;0xbc;0x82;0xb8;0x00;0x1e;0x98;0xa6;0xa3;0xf4];
  [0x8e;0xf4;0x8f;0x33;0xa9;0xa3;0x63;0x15;0xaa;0x5f;0x56;0x24;0xd5;0xb7;0xf9;0x89;0xb6;0xf1;0xed;0x20;0x7c;0x5a;0xe0;0xfd;0x36;0xca;0xe9;0x5a;0x06;0x42;0x2c;0x36];
  [0xce;0x29;0x35;0x43;0x4e;0xfe;0x98;0x3d;0x53;0x3a;0xf9;0x74;0x73;0x9a;0x4b;0xa7;0xd0;0xf5;0x1f;0x59;0x6f;0x4e;0x81;0x86;0x0e;0x9d;0xad;0x81;0xaf;0xd8;0x5a;0x9f];
  [0xa7;0x05;0x06;0x67;0xee;0x34;0x62;0x6a;0x8b;0x0b;0x28;0xbe;0x6e;0xb9;0x17;0x27;0x47;0x74;0x07;0x26;0xc6;0x80;0x10;0x3f;0xe0;0xa0;0x7e;0x6f;0xc6;0x7e;0x48;0x7b];
  [0x0d;0x55;0x0a;0xa5;0x4a;0xf8;0xa4;0xc0;0x91;0xe3;0xe7;0x9f;0x97;0x8e;0xf1;0x9e;0x86;0x76;0x72;0x81;0x50;0x60;0x8d;0xd4;0x7e;0x9e;0x5a;0x41;0xf3;0xe5;0xb0;0x62];
  [0xfc;0x9f;0x1f;0xec;0x40;0x54;0x20;0x7a;0xe3;0xe4;0x1a;0x00;0xce;0xf4;0xc9;0x84;0x4f;0xd7;0x94;0xf5;0x9d;0xfa;0x95;0xd8;0x55;0x2e;0x7e;0x11;0x24;0xc3;0x54;0xa5];
  [0x5b;0xdf;0x72;0x28;0xbd;0xfe;0x6e;0x28;0x78;0xf5;0x7f;0xe2;0x0f;0xa5;0xc4;0xb2;0x05;0x89;0x7c;0xef;0xee;0x49;0xd3;0x2e;0x44;0x7e;0x93;0x85;0xeb;0x28;0x59;0x7f];
  [0x70;0x5f;0x69;0x37;0xb3;0x24;0x31;0x4a;0x5e;0x86;0x28;0xf1;0x1d;0xd6;0xe4;0x65;0xc7;0x1b;0x77;0x04;0x51;0xb9;0x20;0xe7;0x74;0xfe;0x43;0xe8;0x23;0xd4;0x87;0x8a];
  [0x7d;0x29;0xe8;0xa3;0x92;0x76;0x94;0xf2;0xdd;0xcb;0x7a;0x09;0x9b;0x30;0xd9;0xc1;0x1d;0x1b;0x30;0xfb;0x5b;0xdc;0x1b;0xe0;0xda;0x24;0x49;0x4f;0xf2;0x9c;0x82;0xbf];
  [0xa4;0xe7;0xba;0x31;0xb4;0x70;0xbf;0xff;0x0d;0x32;0x44;0x05;0xde;0xf8;0xbc;0x48;0x3b;0xae;0xfc;0x32;0x53;0xbb;0xd3;0x39;0x45;0x9f;0xc3;0xc1;0xe0;0x29;0x8b;0xa0];
  [0xe5;0xc9;0x05;0xfd;0xf7;0xae;0x09;0x0f;0x94;0x70;0x34;0x12;0x42;0x90;0xf1;0x34;0xa2;0x71;0xb7;0x01;0xe3;0x44;0xed;0x95;0xe9;0x3b;0x8e;0x36;0x4f;0x2f;0x98;0x4a];
  [0x88;0x40;0x1d;0x63;0xa0;0x6c;0xf6;0x15;0x47;0xc1;0x44;0x4b;0x87;0x52;0xaf;0xff;0x7e;0xbb;0x4a;0xf1;0xe2;0x0a;0xc6;0x30;0x46;0x70;0xb6;0xc5;0xcc;0x6e;0x8c;0xe6];
  [0xa4;0xd5;0xa4;0x56;0xbd;0x4f;0xca;0x00;0xda;0x9d;0x84;0x4b;0xc8;0x3e;0x18;0xae;0x73;0x57;0xce;0x45;0x30;0x64;0xd1;0xad;0xe8;0xa6;0xce;0x68;0x14;0x5c;0x25;0x67];
  [0xa3;0xda;0x8c;0xf2;0xcb;0x0e;0xe1;0x16;0x33;0xe9;0x06;0x58;0x9a;0x94;0x99;0x9a;0x1f;0x60;0xb2;0x20;0xc2;0x6f;0x84;0x7b;0xd1;0xce;0xac;0x7f;0xa0;0xd1;0x85;0x18];
  [0x32;0x59;0x5b;0xa1;0x8d;0xdd;0x19;0xd3;0x50;0x9a;0x1c;0xc0;0xaa;0xa5;0xb4;0x46;0x9f;0x3d;0x63;0x67;0xe4;0x04;0x6b;0xba;0xf6;0xca;0x19;0xab;0x0b;0x56;0xee;0x7e];
  [0x1f;0xb1;0x79;0xea;0xa9;0x28;0x21;0x74;0xe9;0xbd;0xf7;0x35;0x3b;0x36;0x51;0xee;0x1d;0x57;0xac;0x5a;0x75;0x50;0xd3;0x76;0x3a;0x46;0xc2;0xfe;0xa3;0x7d;0x70;0x01];
  [0xf7;0x35;0xc1;0xaf;0x98;0xa4;0xd8;0x42;0x78;0xed;0xec;0x20;0x9e;0x6b;0x67;0x79;0x41;0x83;0x63;0x15;0xea;0x3a;0xdb;0xa8;0xfa;0xc3;0x3b;0x4d;0x32;0x83;0x2c;0x83];
  [0xa7;0x40;0x3b;0x1f;0x1c;0x27;0x47;0xf3;0x59;0x40;0xf0;0x34;0xb7;0x2d;0x76;0x9a;0xe7;0x3e;0x4e;0x6c;0xd2;0x21;0x4f;0xfd;0xb8;0xfd;0x8d;0x39;0xdc;0x57;0x59;0xef];
  [0x8d;0x9b;0x0c;0x49;0x2b;0x49;0xeb;0xda;0x5b;0xa2;0xd7;0x49;0x68;0xf3;0x70;0x0d;0x7d;0x3b;0xae;0xd0;0x7a;0x8d;0x55;0x84;0xf5;0xa5;0xe9;0xf0;0xe4;0xf8;0x8e;0x65];
  [0xa0;0xb8;0xa2;0xf4;0x36;0x10;0x3b;0x53;0x0c;0xa8;0x07;0x9e;0x75;0x3e;0xec;0x5a;0x91;0x68;0x94;0x92;0x56;0xe8;0x88;0x4f;0x5b;0xb0;0x5c;0x55;0xf8;0xba;0xbc;0x4c];
  [0xe3;0xbb;0x3b;0x99;0xf3;0x87;0x94;0x7b;0x75;0xda;0xf4;0xd6;0x72;0x6b;0x1c;0x5d;0x64;0xae;0xac;0x28;0xdc;0x34;0xb3;0x6d;0x6c;0x34;0xa5;0x50;0xb8;0x28;0xdb;0x71];
  [0xf8;0x61;0xe2;0xf2;0x10;0x8d;0x51;0x2a;0xe3;0xdb;0x64;0x33;0x59;0xdd;0x75;0xfc;0x1c;0xac;0xbc;0xf1;0x43;0xce;0x3f;0xa2;0x67;0xbb;0xd1;0x3c;0x02;0xe8;0x43;0xb0];
  [0x33;0x0a;0x5b;0xca;0x88;0x29;0xa1;0x75;0x7f;0x34;0x19;0x4d;0xb4;0x16;0x53;0x5c;0x92;0x3b;0x94;0xc3;0x0e;0x79;0x4d;0x1e;0x79;0x74;0x75;0xd7;0xb6;0xee;0xaf;0x3f];
  [0xea;0xa8;0xd4;0xf7;0xbe;0x1a;0x39;0x21;0x5c;0xf4;0x7e;0x09;0x4c;0x23;0x27;0x51;0x26;0xa3;0x24;0x53;0xba;0x32;0x3c;0xd2;0x44;0xa3;0x17;0x4a;0x6d;0xa6;0xd5;0xad];
  [0xb5;0x1d;0x3e;0xa6;0xaf;0xf2;0xc9;0x08;0x83;0x59;0x3d;0x98;0x91;0x6b;0x3c;0x56;0x4c;0xf8;0x7c;0xa1;0x72;0x86;0x60;0x4d;0x46;0xe2;0x3e;0xcc;0x08;0x6e;0xc7;0xf6];
  [0x2f;0x98;0x33;0xb3;0xb1;0xbc;0x76;0x5e;0x2b;0xd6;0x66;0xa5;0xef;0xc4;0xe6;0x2a;0x06;0xf4;0xb6;0xe8;0xbe;0xc1;0xd4;0x36;0x74;0xee;0x82;0x15;0xbc;0xef;0x21;0x63];
  [0xfd;0xc1;0x4e;0x0d;0xf4;0x53;0xc9;0x69;0xa7;0x7d;0x5a;0xc4;0x06;0x58;0x58;0x26;0x7e;0xc1;0x14;0x16;0x06;0xe0;0xfa;0x16;0x7e;0x90;0xaf;0x3d;0x28;0x63;0x9d;0x3f];
  [0xd2;0xc9;0xf2;0xe3;0x00;0x9b;0xd2;0x0c;0x5f;0xaa;0xce;0x30;0xb7;0xd4;0x0c;0x30;0x74;0x2a;0x51;0x16;0xf2;0xe0;0x32;0x98;0x0d;0xeb;0x30;0xd8;0xe3;0xce;0xf8;0x9a];
  [0x4b;0xc5;0x9e;0x7b;0xb5;0xf1;0x79;0x92;0xff;0x51;0xe6;0x6e;0x04;0x86;0x68;0xd3;0x9b;0x23;0x4d;0x57;0xe6;0x96;0x67;0x31;0xcc;0xe6;0xa6;0xf3;0x17;0x0a;0x75;0x05];
  [0xb1;0x76;0x81;0xd9;0x13;0x32;0x6c;0xce;0x3c;0x17;0x52;0x84;0xf8;0x05;0xa2;0x62;0xf4;0x2b;0xcb;0xb3;0x78;0x47;0x15;0x47;0xff;0x46;0x54;0x82;0x23;0x93;0x6a;0x48];
  [0x38;0xdf;0x58;0x07;0x4e;0x5e;0x65;0x65;0xf2;0xfc;0x7c;0x89;0xfc;0x86;0x50;0x8e;0x31;0x70;0x2e;0x44;0xd0;0x0b;0xca;0x86;0xf0;0x40;0x09;0xa2;0x30;0x78;0x47;0x4e];
  [0x65;0xa0;0xee;0x39;0xd1;0xf7;0x38;0x83;0xf7;0x5e;0xe9;0x37;0xe4;0x2c;0x3a;0xbd;0x21;0x97;0xb2;0x26;0x01;0x13;0xf8;0x6f;0xa3;0x44;0xed;0xd1;0xef;0x9f;0xde;0xe7];
  [0x8b;0xa0;0xdf;0x15;0x76;0x25;0x92;0xd9;0x3c;0x85;0xf7;0xf6;0x12;0xdc;0x42;0xbe;0xd8;0xa7;0xec;0x7c;0xab;0x27;0xb0;0x7e;0x53;0x8d;0x7d;0xda;0xaa;0x3e;0xa8;0xde];
  [0xaa;0x25;0xce;0x93;0xbd;0x02;0x69;0xd8;0x5a;0xf6;0x43;0xfd;0x1a;0x73;0x08;0xf9;0xc0;0x5f;0xef;0xda;0x17;0x4a;0x19;0xa5;0x97;0x4d;0x66;0x33;0x4c;0xfd;0x21;0x6a];
  [0x35;0xb4;0x98;0x31;0xdb;0x41;0x15;0x70;0xea;0x1e;0x0f;0xbb;0xed;0xcd;0x54;0x9b;0x9a;0xd0;0x63;0xa1;0x51;0x97;0x40;0x72;0xf6;0x75;0x9d;0xbf;0x91;0x47;0x6f;0xe2]].

(** ** Words *)
Definition SWAP1 (x : Z) : Z := Z.lor (u64 (Z.shiftl (Z.land x 0x5555555555555555) 1)) (Z.shiftr (Z.land x 0xaaaaaaaaaaaaaaaa) 1).
Definition SWAP2 (x : Z) : Z := Z.lor (u64 (Z.shiftl (Z.land x 0x3333333333333333) 2)) (Z.shiftr (Z.land x 0xcccccccccccccccc) 2).
Definition SWAP4 (x : Z) : Z := Z.lor (u64 (Z.shiftl (Z.land x 0x0f0f0f0f0f0f0f0f) 4)) (Z.shiftr (Z.land x 0xf0f0f0f0f0f0f0f0) 4).
Definition SWAP8 (x : Z) : Z := Z.lor (u64 (Z.shiftl (Z.land x 0x00ff00ff00ff00ff) 8)) (Z.shiftr (Z.land x 0xff00ff00ff00ff00) 8).
Definition SWAP16 (x : Z) : Z := Z.lor (u64 (Z.shiftl (Z.land x 0x0000ffff0000ffff) 16)) (Z.shiftr (Z.land x 0xffff0000ffff0000) 16).
Definition SWAP32 (x : Z) : Z := Z.lor (u64 (Z.shiftl x 32)) (Z.shiftr x 32).

(** [~x] *)
Definition not64 (x : Z) : Z := u64 (Z.lnot x).

(** The eight words [m0] to [m7] of a column of the state. *)
Record words8 := W8 { m0 : Z; m1 : Z; m2 : Z; m3 : Z; m4 : Z; m5 : Z; m6 : Z; m7 : Z }.

(** The MDS transform. *)
Definition L (m : words8) : words8 :=
  let '(W8 m0 m1 m2 m3 m4 m5 m6 m7) := m in
  let m4 := Z.lxor m4 m1 in
  let m5 := Z.lxor m5 m2 in
  let m6 := Z.lxor m6 (Z.lxor m0 m3) in
  let m7 := Z.lxor m7 m0 in
  let m0 := Z.lxor m0 m5 in
  let m1 := Z.lxor m1 m6 in
  let m2 := Z.lxor m2 (Z.lxor m4 m7) in
  let m3 := Z.lxor m3 m4 in
  W8 m0 m1 m2 m3 m4 m5 m6 m7.

(** Two S-boxes. *)
Definition SS (m : words8) (cc0 cc1 : Z) : words8 :=
  let '(W8 m0 m1 m2 m3 m4 m5 m6 m7) := m in
  let m3 := not64 m3 in
  let m7 := not64 m7 in
  let m0 := Z.lxor m0 (Z.land (not64 m2) cc0) in
  let m4 := Z.lxor m4 (Z.land (not64 m6) cc1) in
  let temp0 := Z.lxor cc0 (Z.land m0 m1) in
  let temp1 := Z.lxor cc1 (Z.land m4 m5) in
  let m0 := Z.lxor m0 (Z.land m2 m3) in
  let m4 := Z.lxor m4 (Z.land m6 m7) in
  let m3 := Z.lxor m3 (Z.land (not64 m1) m2) in
  let m7 := Z.lxor m7 (Z.land (not64 m5) m6) in
  let m1 := Z.lxor m1 (Z.land m0 m2) in
  let m5 := Z.lxor m5 (Z.land m4 m6) in
  let m2 := Z.lxor m2 (Z.land m0 (not64 m3)) in
  let m6 := Z.lxor m6 (Z.land m4 (not64 m7)) in
  let m0 := Z.lxor m0 (Z.lor m1 m3) in
  let m4 := Z.lxor m4 (Z.lor m5 m7) in
  let m3 := Z.lxor m3 (Z.land m1 m2) in
  let m7 := Z.lxor m7 (Z.land m5 m6) in
  let m1 := Z.lxor m1 (Z.land temp0 m0) in
  let m5 := Z.lxor m5 (Z.land temp1 m4) in
  let m2 := Z.lxor m2 temp0 in
  let m6 := Z.lxor m6 temp1 in
  W8 m0 m1 m2 m3 m4 m5 m6 m7.

(** [((uint64 * ) s)[i]] *)
Definition word64 (s : list Z) (i : nat) : result Z :=
  if decide (8 * i + 8 <= length s)%nat then Ok (le_val (take 8 (drop (8 * i) s))) else Fail OutOfBounds.

(** ** The permutation *)

(** [x[0][i], x[2][i], x[4][i], x[6][i], x[1][i], x[3][i], x[5][i], x[7][i]] *)
Definition load_column (x : list Z) (i : nat) : result words8 :=
  let! m0 := get x (0 + i) in
  let! m1 := get x (4 + i) in
  let! m2 := get x (8 + i) in
  let! m3 := get x (12 + i) in
  let! m4 := get x (2 + i) in
  let! m5 := get x (6 + i) in
  let! m6 := get x (10 + i) in
  let! m7 := get x (14 + i) in
  Ok (W8 m0 m1 m2 m3 m4 m5 m6 m7).

Definition store_column (x : list Z) (i : nat) (m : words8) : result (list Z) :=
  let! x := set x (0 + i) (m0 m) in
  let! x := set x (4 + i) (m1 m) in
  let! x := set x (8 + i) (m2 m) in
  let! x := set x (12 + i) (m3 m) in
  let! x := set x (2 + i) (m4 m) in
  let! x := set x (6 + i) (m5 m) in
  let! x := set x (10 + i) (m6 m) in
  set x (14 + i) (m7 m).

(** [SWAP(x[1][i]); SWAP(x[3][i]); SWAP(x[5][i]); SWAP(x[7][i])] *)
Definition swap_odd (SWAP : Z -> Z) (m : words8) : words8 :=
  W8 (m0 m) (m1 m) (m2 m) (m3 m) (SWAP (m4 m)) (SWAP (m5 m)) (SWAP (m6 m)) (SWAP (m7 m)).

(** The loop over [i] of one round. *)
Definition E8_round (SWAP : Z -> Z) (roundnumber : nat) (x : list Z) : result (list Z) :=
  for_ 2 (fun i x =>
    let! m := load_column x i in
    let! rc := get E8_bitslice_roundconstant roundnumber in
    let! cc0 := word64 rc i in
    let! cc1 := word64 rc (i + 2) in
    store_column x i (swap_odd SWAP (L (SS m cc0 cc1)))) 0 x.

(** [for (i = 1; i < 8; i = i+2)] exchange [x[i][0]] and [x[i][1]]. *)
Definition swap_halves (x : list Z) : result (list Z) :=
  for_ 4 (fun k x =>
    let i := (2 * k + 1)%nat in
    let! temp0 := get x (2 * i) in
    let! w := get x (2 * i + 1) in
    let! x := set x (2 * i) w in
    set x (2 * i + 1) temp0) 0 x.

Definition E8 (x : list Z) : result (list Z) :=
  for_ 6 (fun k x =>
    let roundnumber := (7 * k)%nat in
    let! x := E8_round SWAP1 (roundnumber + 0) x in
    let! x := E8_round SWAP2 (roundnumber + 1) x in
    let! x := E8_round SWAP4 (roundnumber + 2) x in
    let! x := E8_round SWAP8 (roundnumber + 3) x in
    let! x := E8_round SWAP16 (roundnumber + 4) x in
    let! x := E8_round SWAP32 (roundnumber + 5) x in
    let! x := E8_round (fun w => w) (roundnumber + 6) x in
    swap_halves x) 0 x.

(** ** State *)
Record jh_state := JH {
  hashbitlen : Z; databitlen : Z; datasize_in_buffer : Z; jh_x : list Z; jh_buffer : list Z }.

(** [x[(8 * half + i) / 2][i & 1] ^= buffer[i]] for the eight words of the buffer *)
Definition xor_block (half : nat) (x buffer : list Z) : result (list Z) :=
  for_ 8 (fun i x =>
    let! w := get x (8 * half + i) in
    let! b := word64 buffer i in
    set x (8 * half + i) (Z.lxor w b)) 0 x.

Definition F8 (st : jh_state) : result jh_state :=
  let! x := xor_block 0 (jh_x st) (jh_buffer st) in
  let! x := E8 x in
  let! x := xor_block 1 x (jh_buffer st) in
  Ok (JH (hashbitlen st) (databitlen st) (datasize_in_buffer st) x (jh_buffer st)).

(** [memcpy(x, h0, 128)] *)
Definition load_state (h0 : list Z) : list Z := (fun i => le_val (take 8 (drop (8 * i) h0))) <$> seq 0 16.

(** [x] and [buffer] are what the arrays held. *)
Definition jh_Init (x buffer : list Z) (hashbitlen : Z) : jh_state :=
  JH hashbitlen 0 0
    (if hashbitlen =? 224 then load_state JH224_H0
     else if hashbitlen =? 256 then load_state JH256_H0
     else if hashbitlen =? 384 then load_state JH384_H0
     else if hashbitlen =? 512 then load_state JH512_H0
     else x) buffer.

(** ** Input *)
Definition jh_set_buffer (st : jh_state) (buffer : list Z) (size : Z) : jh_state :=
  JH (hashbitlen st) (databitlen st) size (jh_x st) buffer.

(** The full blocks from [data]: the state, what is left of the data and its length. *)
Fixpoint jh_blocks (fuel : nat) (st : jh_state) (data : list Z) (len : Z) : result (jh_state * list Z * Z) :=
  if 512 <=? len then
    match fuel with
    | O => Fail OutOfFuel
    | S fuel =>
        let! buffer := memcpy (jh_buffer st) 0 data 64 in
        let! st := F8 (jh_set_buffer st buffer (datasize_in_buffer st)) in
        jh_blocks fuel st (drop 64 data) (len - 512)
    end
  else Ok (st, data, len).

(** Data in the buffer, and not enough for a block. *)
Definition jh_short (st : jh_state) (data : list Z) (len : Z) : result (jh_state * Z) :=
  let size := datasize_in_buffer st in
  if (0 <? size) && (u64 (size + len) <? 512) then
    let at_ := Z.to_nat (Z.shiftr size 3) in
    let! buffer := memcpy (jh_buffer st) at_ data (if Z.land len 7 =? 0 then (64 - at_)%nat else (64 - at_ + 1)%nat) in
    Ok (jh_set_buffer st buffer (u64 (size + len)), 0)
  else Ok (st, len).

(** Data in the buffer, and enough for a block. *)
Definition jh_fill (st : jh_state) (data : list Z) (len : Z) : result (jh_state * list Z * Z) :=
  let size := datasize_in_buffer st in
  if (0 <? size) && (512 <=? u64 (size + len)) then
    let at_ := Z.to_nat (Z.shiftr size 3) in
    let! buffer := memcpy (jh_buffer st) at_ data (64 - at_) in
    let! st := F8 (jh_set_buffer st buffer size) in
    Ok (jh_set_buffer st (jh_buffer st) 0, drop (64 - at_) data, u64 (len - (512 - size)))
  else Ok (st, data, len).

(** [len] is in bits. *)
Definition jh_Update (st : jh_state) (data : list Z) (len : Z) : result jh_state :=
  let st := JH (hashbitlen st) (u64 (databitlen st + len)) (datasize_in_buffer st) (jh_x st) (jh_buffer st) in
  let! (st, len) := jh_short st data len in
  let! (st, data, len) := jh_fill st data len in
  let! (st, data, len) := jh_blocks (Z.to_nat (len / 512)) st data len in
  if 0 <? len then
    let n := Z.to_nat (Z.shiftr (Z.land len 0x1ff) 3) in
    let! buffer := memcpy (jh_buffer st) 0 data (if Z.land len 7 =? 0 then n else (n + 1)%nat) in
    Ok (jh_set_buffer st buffer len)
  else Ok st.

(** ** Output *)

(** [buffer[63]] down to [buffer[56]]: the length, big-endian *)
Definition store_length (len : Z) (buffer : list Z) : result (list Z) :=
  let! buffer := set buffer 63 (Z.land len 0xff) in
  let! buffer := set buffer 62 (Z.land (Z.shiftr len 8) 0xff) in
  let! buffer := set buffer 61 (Z.land (Z.shiftr len 16) 0xff) in
  let! buffer := set buffer 60 (Z.land (Z.shiftr len 24) 0xff) in
  let! buffer := set buffer 59 (Z.land (Z.shiftr len 32) 0xff) in
  let! buffer := set buffer 58 (Z.land (Z.shiftr len 40) 0xff) in
  let! buffer := set buffer 57 (Z.land (Z.shiftr len 48) 0xff) in
  set buffer 56 (Z.land (Z.shiftr len 56) 0xff).

Definition with_buffer (st : jh_state) (buffer : list Z) : jh_state := jh_set_buffer st buffer (datasize_in_buffer st).

(** The bytes of the state. *)
Definition jh_state_bytes (x : list Z) : list Z := concat (le_bytes 8 <$> x).

(** The bytes that are written to [hashval]. *)
Definition jh_Final (st : jh_state) : result (list Z) :=
  let len := databitlen st in
  let! st :=
    if Z.land len 0x1ff =? 0 then
      let! buffer := set (replicate 64 0) 0 0x80 in
      let! buffer := store_length len buffer in
      F8 (with_buffer st buffer)
    else
      let n := Z.to_nat (Z.shiftr (Z.land len 0x1ff) 3) in
      let from := if Z.land (datasize_in_buffer st) 7 =? 0 then n else (n + 1)%nat in
      let! buffer := for_ (64 - from) (fun i buffer => set buffer i 0) from (jh_buffer st) in
      let! b := get buffer n in
      let! buffer := set buffer n (u8 (Z.lor b (Z.shiftl 1 (7 - Z.land len 7)))) in
      let! st := F8 (with_buffer st buffer) in
      let! buffer := store_length len (replicate 64 0) in
      F8 (with_buffer st buffer) in
  let s := jh_state_bytes (jh_x st) in
  if hashbitlen st =? 224 then memcpy (replicate 28 0) 0 (drop (64 + 36) s) 28
  else if hashbitlen st =? 256 then memcpy (replicate 32 0) 0 (drop (64 + 32) s) 32
  else if hashbitlen st =? 384 then memcpy (replicate 48 0) 0 (drop (64 + 16) s) 48
  else if hashbitlen st =? 512 then memcpy (replicate 64 0) 0 (drop 64 s) 64
  else Ok [].

Inductive HashReturn := SUCCESS | FAIL | BAD_HASHLEN.

(** [x] and [buffer] are the indeterminate arrays of the local state; the result and the bytes written. *)
Definition jh_hash (x buffer : list Z) (hashbitlen : Z) (data : list Z) (databitlen : Z) : result (HashReturn * list Z) :=
  if (hashbitlen =? 224) || (hashbitlen =? 256) || (hashbitlen =? 384) || (hashbitlen =? 512) then
    let st := jh_Init x buffer hashbitlen in
    let! st := jh_Update st data databitlen in
    let! hashval := jh_Final st in
    Ok (SUCCESS, hashval)
  else Ok (BAD_HASHLEN, []).

(** [hash_extra_jh] of [hash-extra-jh.c] *)
Definition hash_extra_jh (ndebug : bool) (x buffer data : list Z) (length : Z) : result (list Z) :=
  let! (r, hash) := jh_hash x buffer (32 * 8) data (u64 (8 * length)) in
  let! _ := c_assert ndebug (Ok (match r with SUCCESS => true | _ => false end)) in
  Ok hash.
