(* ===== verification/JhPermutation.v ===== *)
(** * The permutation of JH

    The specification works on 256 elements of four bits with two S-boxes, a
    linear map on pairs of elements and a permutation of the elements; its round
    constants and initial values come from the same rounds.  The code keeps bit
    [i] of all elements in one row and permutes bits inside the rows. *)

From stdpp Require Import base list numbers.
From Stdlib Require Import ZArith Lia.
From S2P Require Import Prelude Bytes Streaming Jh.

(** ** The specification *)
Module JhSpec.
Definition S0 : list Z := [9; 0; 4; 11; 13; 12; 3; 15; 1; 10; 2; 6; 7; 5; 8; 14].
Definition S1 : list Z := [3; 12; 6; 13; 5; 7; 1; 9; 15; 2; 0; 4; 11; 10; 14; 8].
Definition sbox (c : bool) (a : Z) : Z := nth (Z.to_nat a) (if c then S1 else S0) 0.

(** Multiplication by [x] modulo [x^4 + x + 1]. *)
Definition double (a : Z) : Z := Z.lxor (Z.land (Z.shiftl a 1) 15) (if Z.testbit a 3 then 3 else 0).
Definition mix (a b : Z) : Z * Z := let d := Z.lxor b (double a) in (Z.lxor a (double d), d).

(** The linear layer on adjacent elements. *)
Fixpoint mix_pairs (v : list Z) : list Z :=
  match v with a :: b :: v => (mix a b).1 :: (mix a b).2 :: mix_pairs v | _ => v end.

(** The permutation [P_d] of [2^d] elements: from where each element comes. *)
Definition pi (i : nat) : nat := match (i mod 4)%nat with 2 => i + 1 | 3 => i - 1 | _ => i end%nat.
Definition unshuffle (d i : nat) : nat := let half := (2 ^ (d - 1))%nat in if (i <? half)%nat then (2 * i)%nat else (2 * (i - half) + 1)%nat.
Definition phi (d i : nat) : nat :=
  if (i <? 2 ^ (d - 1))%nat then i else if Nat.even i then (i + 1)%nat else (i - 1)%nat.
Definition P (d i : nat) : nat := pi (unshuffle d (phi d i)).

Definition gather (p : list nat) (v : list Z) : list Z := (fun i => nth i v 0) <$> p.
Definition permute (d : nat) (v : list Z) : list Z := gather (P d <$> seq 0 (2 ^ d)) v.

(** The round [R_d] with one constant bit for each element. *)
Definition round (d : nat) (cs : list bool) (v : list Z) : list Z := permute d (mix_pairs (zip_with sbox cs v)).

(** Bits, the highest of a byte first, and groups of four. *)
Definition bits_of (s : list Z) : list bool := s ≫= (fun b => (fun i => Z.testbit b (7 - Z.of_nat i)) <$> seq 0 8).
Definition nibble (b3 b2 b1 b0 : bool) : Z := 8 * Z.b2z b3 + 4 * Z.b2z b2 + 2 * Z.b2z b1 + Z.b2z b0.
Definition nibble_bits (a : Z) : list bool := [Z.testbit a 3; Z.testbit a 2; Z.testbit a 1; Z.testbit a 0].

(** 256 bits of the fraction of the square root of 2. *)
Definition C0 : list Z :=
  [0x6; 0xa; 0x0; 0x9; 0xe; 0x6; 0x6; 0x7; 0xf; 0x3; 0xb; 0xc; 0xc; 0x9; 0x0; 0x8;
   0xb; 0x2; 0xf; 0xb; 0x1; 0x3; 0x6; 0x6; 0xe; 0xa; 0x9; 0x5; 0x7; 0xd; 0x3; 0xe;
   0x3; 0xa; 0xd; 0xe; 0xc; 0x1; 0x7; 0x5; 0x1; 0x2; 0x7; 0x7; 0x5; 0x0; 0x9; 0x9;
   0xd; 0xa; 0x2; 0xf; 0x5; 0x9; 0x0; 0xb; 0x0; 0x6; 0x6; 0x7; 0x3; 0x2; 0x2; 0xa].
Fixpoint constants (n : nat) (c : list Z) : list (list bool) :=
  match n with O => [] | S n => (c ≫= nibble_bits) :: constants n (round 6 (replicate 64 false) c) end.

(** The bits of the 1024-bit state [a] that make element [k]. *)
Definition group (a : list bool) : list Z :=
  (fun k => let i := (k / 2 + 128 * (k mod 2))%nat in
    nibble (nth i a false) (nth (i + 256) a false) (nth (i + 512) a false) (nth (i + 768) a false)) <$> seq 0 256.
(** Bit [i] of the state: row [i / 128], whose parity chooses the element and whose half chooses the bit. *)
Definition degroup (v : list Z) : list bool :=
  (fun i => Z.testbit (nth (2 * (i mod 128) + (i / 128) mod 2)%nat v 0) (3 - Z.of_nat (i / 256))) <$> seq 0 1024.

Definition E8 (a : list bool) : list bool :=
  degroup (foldl (fun v cs => round 8 cs v) (group a) (constants 42 C0)).

(** [h] is 1024 bits and [m] is 512. *)
Definition F8 (h m : list bool) : list bool :=
  let h := E8 (zip_with xorb h m ++ drop 512 h) in take 512 h ++ zip_with xorb (drop 512 h) m.

(** The chain value after [k] blocks of 64 bytes. *)
Fixpoint chain (k : nat) (h : list bool) (m : list Z) : list bool :=
  match k with O => h | S k => chain k (F8 h (bits_of (take 64 m))) (drop 64 m) end.

(** The initial value: one compression of the digest length. *)
Definition iv (n : Z) : list bool := F8 (bits_of (be_bytes 2 n ++ replicate 126 0)) (replicate 512 false).

(** A one bit, zero bits and the length in 128 bits. *)
Definition zeros (len : nat) : nat := (47 + (64 - len mod 64) mod 64)%nat.
Definition pad (m : list Z) : list Z := m ++ [0x80] ++ replicate (zeros (length m)) 0 ++ be_bytes 16 (8 * Z.of_nat (length m)).

(** The bytes of a list of bits. *)
Definition byte_of (a : list bool) : Z := foldl (fun v b => 2 * v + Z.b2z b) 0 a.
Definition bytes_of (n : nat) (a : list bool) : list Z := (fun i => byte_of (take 8 (drop (8 * i) a))) <$> seq 0 n.

(** The digest of [n] bits: the last bits of the chain value. *)
Definition hash (n : Z) (m : list Z) : list Z :=
  bytes_of (Z.to_nat (n / 8)) (drop (1024 - Z.to_nat n) (chain (length (pad m) / 64) (iv n) (pad m))).
End JhSpec.
Import JhSpec.

(** ** The positions of the elements

    The code permutes the elements otherwise than the specification: before round [r], element [k] of the code is
    element [nth k (slots r)] of the specification. *)

(** The odd rows are permuted by [SWAP] in round [r]. *)
Definition swapped (r k : nat) : nat := if Nat.even k then k else (2 * Nat.lxor (k / 2) (2 ^ (r mod 7)) + 1)%nat.

Definition inverse (p : list nat) : list nat := foldl (fun q i => <[nth i p 0%nat := i]> q) (replicate (length p) 0%nat) (seq 0 (length p)).
Definition P8 : list nat := P 8 <$> seq 0 256.

Fixpoint slots (r : nat) : list nat :=
  match r with
  | O => seq 0 256
  | S r => let p := slots r in let q := inverse P8 in (fun k => nth (nth (swapped r k) p 0) q 0)%nat <$> seq 0 256
  end.

(** What one round needs of the positions before and after it. *)
Definition slots_ok (r : nat) (p p' : list nat) : bool :=
  bool_decide (length p = 256%nat /\ length p' = 256%nat) &&
  forallb (fun k => bool_decide (nth (nth k p' 0) P8 0 = nth (swapped r k) p 0)%nat &&
    (nth k p 0 <? 256)%nat && (nth k p' 0 <? 256)%nat && (swapped r k <? 256)%nat) (seq 0 256) &&
  forallb (fun j => Nat.even (nth (2 * j) p 0) && (nth (2 * j + 1) p 0 =? nth (2 * j) p 0 + 1))%nat (seq 0 128).

Lemma slots_steps : forallb (fun r => slots_ok r (slots r) (slots (S r))) (seq 0 7) = true /\ slots 7 = slots 0.
Proof. split; by vm_compute. Qed.

#[local] Opaque slots.

Lemma slots_S r : slots (S r) = let p := slots r in let q := inverse P8 in (fun k => nth (nth (swapped r k) p 0) q 0)%nat <$> seq 0 256.
Proof. done. Qed.

Lemma slots_period r : slots (r + 7) = slots r.
Proof.
  induction r as [|r IH]; [exact (proj2 slots_steps)|]. cbn [Nat.add]. rewrite !slots_S, IH. apply list_fmap_ext. intros i k _.
  unfold swapped. replace ((r + 7) mod 7)%nat with (r mod 7)%nat; [done|]. replace (r + 7)%nat with (r + 1 * 7)%nat by lia. by rewrite Nat.Div0.mod_add.
Qed.

Lemma slots_mod r : slots r = slots (r mod 7).
Proof.
  rewrite (Nat.div_mod r 7) at 1 by lia. generalize (r / 7)%nat as q. intros q. rewrite Nat.add_comm.
  induction q as [|q IH]; [by rewrite Nat.mul_0_r, Nat.add_0_r|]. rewrite <- IH, <- (slots_period (r mod 7 + 7 * q)). f_equal. lia.
Qed.

Lemma forallb_eq {A} (f g : A -> bool) s : (forall x, f x = g x) -> forallb f s = forallb g s.
Proof. intros E. induction s as [|x s IH]; [done|]. cbn [forallb]. by rewrite E, IH. Qed.

Lemma slots_ok_mod r p p' : slots_ok (r mod 7) p p' = slots_ok r p p'.
Proof. unfold slots_ok. f_equal. f_equal. apply forallb_eq. intros k. unfold swapped. by rewrite Nat.Div0.mod_mod. Qed.

Lemma slots_next r : slots_ok r (slots r) (slots (S r)) = true.
Proof.
  assert (slots_ok (r mod 7) (slots (r mod 7)) (slots (S (r mod 7))) = true) as H.
  { destruct slots_steps as [H _]. rewrite forallb_forall in H. apply H, in_seq. pose proof (Nat.mod_upper_bound r 7 ltac:(lia)). lia. }
  assert (forall k, swapped (r mod 7) k = swapped r k) as E by (intros k; unfold swapped; by rewrite Nat.Div0.mod_mod).
  assert (slots (S (r mod 7)) = slots (S r)) as E'.
  { rewrite !slots_S, <- slots_mod. apply list_fmap_ext. intros i k _. by rewrite E. }
  by rewrite <- slots_mod, E', slots_ok_mod in H.
Qed.

(** ** Rounds on permuted elements *)
Definition gatherb (p : list nat) (cs : list bool) : list bool := (fun i => nth i cs false) <$> p.

(** A round of the code, on its elements. *)
Definition code_round (r : nat) (cs : list bool) (v : list Z) : list Z :=
  gather (swapped r <$> seq 0 256) (mix_pairs (zip_with sbox cs v)).

Lemma nth_gather p v k : (k < length p)%nat -> nth k (gather p v) 0 = nth (nth k p 0%nat) v 0.
Proof.
  intros Hk. unfold gather. destruct (lookup_lt_is_Some_2 p k Hk) as [i Hi]. rewrite (nth_lookup_Some _ _ _ _ Hi).
  apply nth_lookup_Some. by rewrite list_lookup_fmap, Hi.
Qed.

Lemma nth_gatherb p v k : (k < length p)%nat -> nth k (gatherb p v) false = nth (nth k p 0%nat) v false.
Proof.
  intros Hk. unfold gatherb. destruct (lookup_lt_is_Some_2 p k Hk) as [i Hi]. rewrite (nth_lookup_Some _ _ _ _ Hi).
  apply nth_lookup_Some. by rewrite list_lookup_fmap, Hi.
Qed.

Lemma nth_zip_with {A B C} (f : A -> B -> C) a b k da db dc :
  (k < length a)%nat -> (k < length b)%nat -> nth k (zip_with f a b) dc = f (nth k a da) (nth k b db).
Proof.
  intros H1 H2. destruct (lookup_lt_is_Some_2 a k H1) as [c Hc], (lookup_lt_is_Some_2 b k H2) as [d Hd].
  rewrite (nth_lookup_Some _ _ _ _ Hc), (nth_lookup_Some _ _ _ _ Hd). apply nth_lookup_Some. by rewrite lookup_zip_with, Hc, Hd.
Qed.

Lemma nth_zip_sbox cs v k : (k < length cs)%nat -> (k < length v)%nat -> nth k (zip_with sbox cs v) 0 = sbox (nth k cs false) (nth k v 0).
Proof. apply nth_zip_with. Qed.

Lemma nth_zip_xorb a b k : (k < length a)%nat -> (k < length b)%nat -> nth k (zip_with xorb a b) false = xorb (nth k a false) (nth k b false).
Proof. apply nth_zip_with. Qed.

Lemma mix_pairs_length v : length (mix_pairs v) = length v.
Proof.
  assert (forall n v, (length v <= n)%nat -> length (mix_pairs v) = length v) as H; [|by apply (H (length v))].
  induction n as [|n IH]; intros [|a [|b v']] Hl; cbn in *; try lia. rewrite IH; lia.
Qed.

(** The element [k] of a mixed list, from the pair it is in. *)
Definition mix_at (f : nat -> Z) (k : nat) : Z :=
  let j := (k / 2)%nat in let m := mix (f (2 * j)%nat) (f (2 * j + 1)%nat) in if Nat.even k then m.1 else m.2.

Lemma nth_mix_pairs v k : Nat.even (length v) = true -> (k < length v)%nat -> nth k (mix_pairs v) 0 = mix_at (fun i => nth i v 0) k.
Proof.
  assert (forall n v k, (length v <= n)%nat -> Nat.even (length v) = true -> (k < length v)%nat ->
    nth k (mix_pairs v) 0 = mix_at (fun i => nth i v 0) k) as H; [|by apply (H (length v))].
  induction n as [|n IH]; intros [|a [|b w]] i Hl He Hi; cbn [length] in *; try lia; [done|].
  destruct i as [|[|i]]; [done|done|]. cbn [mix_pairs nth]. rewrite IH by (done || lia). unfold mix_at.
  replace (S (S i) / 2)%nat with (S (i / 2)) by (replace (S (S i)) with (1 * 2 + i)%nat by lia; by rewrite Nat.div_add_l by lia).
  replace (2 * S (i / 2))%nat with (S (S (2 * (i / 2)))) by lia. done.
Qed.

Lemma list_eq_nth {A} (d : A) (v w : list A) n :
  length v = n -> length w = n -> (forall k, (k < n)%nat -> nth k v d = nth k w d) -> v = w.
Proof. intros Hv Hw H. apply (nth_ext _ _ d d); [lia|]. intros k Hk. apply H. lia. Qed.

Lemma gather_length p v : length (gather p v) = length p.
Proof. apply length_fmap. Qed.

Lemma nth_seq_fmap {A} (d : A) (f : nat -> A) n k : (k < n)%nat -> nth k (f <$> seq 0 n) d = f k.
Proof. intros Hk. apply nth_lookup_Some. by rewrite list_lookup_fmap, lookup_seq_lt. Qed.

Lemma swapped_parity r k : Nat.even (swapped r k) = Nat.even k.
Proof. unfold swapped. destruct (Nat.even k) eqn:E; [done|]. by rewrite Nat.add_1_r, Nat.even_succ, <- Nat.negb_even, Nat.even_mul. Qed.

(** A round of the code on permuted elements is a round of the specification. *)
Lemma round_permuted r cs v :
  length cs = 256%nat -> length v = 256%nat ->
  code_round r (gatherb (slots r) cs) (gather (slots r) v) = gather (slots (S r)) (round 8 cs v).
Proof.
  intros Hc Hv. pose proof (slots_next r) as H. unfold slots_ok in H. apply andb_prop in H as [H Hpair]. apply andb_prop in H as [Hl Hk].
  apply bool_decide_eq_true in Hl as [Hp Hp']. rewrite forallb_forall in Hk, Hpair.
  set (p := slots r) in *. set (p' := slots (S r)) in *.
  assert (forall k, (k < 256)%nat -> nth (nth k p' 0) P8 0 = nth (swapped r k) p 0 /\ nth k p 0 < 256 /\ nth k p' 0 < 256 /\ swapped r k < 256)%nat as Hk'.
  { intros k Hlt. specialize (Hk k ltac:(apply in_seq; lia)). repeat rewrite andb_true_iff in Hk. destruct Hk as (((E & H1) & H2) & H3).
    apply bool_decide_eq_true in E. rewrite Nat.ltb_lt in H1, H2, H3. by split_and!. }
  set (w := zip_with sbox cs v). assert (length w = 256%nat) as Hw by (unfold w; rewrite length_zip_with; lia).
  apply (list_eq_nth 0 _ _ 256); [done|by rewrite gather_length|]. intros k Hlt. destruct (Hk' k Hlt) as (E & H1 & H2 & H3).
  unfold code_round, round. rewrite nth_gather by done. rewrite (nth_seq_fmap 0%nat (swapped r)) by done.
  assert (length (zip_with sbox (gatherb p cs) (gather p v)) = 256%nat) as Hz by (rewrite length_zip_with, gather_length; unfold gatherb; rewrite length_fmap; lia).
  rewrite nth_mix_pairs by (rewrite Hz; done). fold w.
  rewrite nth_gather by lia. unfold permute. rewrite nth_gather by (rewrite length_fmap, length_seq; done).
  change (P 8 <$> seq 0 (2 ^ 8)) with P8. rewrite E, nth_mix_pairs by (rewrite Hw; first [done|apply Hk'; done]).
  assert (forall i, (i < 256)%nat -> nth i (zip_with sbox (gatherb p cs) (gather p v)) 0 = nth (nth i p 0%nat) w 0) as Hnth.
  { intros i Hi. unfold w. destruct (Hk' i Hi) as (_ & Hi' & _). rewrite !nth_zip_sbox by (rewrite ?gather_length; unfold gatherb; rewrite ?length_fmap; lia).
    by rewrite nth_gatherb, nth_gather by lia. }
  unfold mix_at. set (s := swapped r k) in *. set (j := (s / 2)%nat).
  pose proof (Nat.Div0.div_mod s 2) as Es. pose proof (Nat.mod_upper_bound s 2 ltac:(lia)) as Hs. fold j in Es.
  specialize (Hpair j ltac:(apply in_seq; lia)). apply andb_prop in Hpair as [He Ho]. apply Nat.eqb_eq in Ho. cbv beta.
  rewrite !Hnth, Ho by lia. apply Nat.even_spec in He as [q Hq].
  assert (s = 2 * j \/ s = 2 * j + 1)%nat as [Hs'|Hs'] by lia; rewrite Hs'.
  - assert (forall q, Nat.even (2 * q) = true) as Ev by (intros; by rewrite Nat.even_mul). rewrite Ev, Hq, Ev.
    replace (2 * q / 2)%nat with q by (rewrite Nat.mul_comm, Nat.div_mul; lia). done.
  - assert (forall q, Nat.even (2 * q + 1) = false) as Ev by (intros; by rewrite Nat.even_add, Nat.even_mul). rewrite Ev, Ho, Hq, Ev.
    replace ((2 * q + 1) / 2)%nat with q by (apply (Nat.div_unique _ _ _ 1); lia). done.
Qed.

Lemma halves j : (2 * j / 2 = j /\ (2 * j + 1) / 2 = j /\ (2 * j) mod 2 = 0 /\ (2 * j + 1) mod 2 = 1)%nat.
Proof.
  split_and!; symmetry; [apply (Nat.div_unique _ _ _ 0)|apply (Nat.div_unique _ _ _ 1)|apply (Nat.mod_unique _ _ j)|apply (Nat.mod_unique _ _ j)]; lia.
Qed.

(** ** Bits of the words *)

(** The bit of a little-endian word that is bit [t] of its bytes, the highest of a byte first. *)
Definition zb (t : nat) : Z := 8 * (Z.of_nat t / 8) + 7 - Z.of_nat t mod 8.

Lemma zb_range t : (t < 64)%nat -> 0 <= zb t < 64.
Proof. intros Ht. unfold zb. pose proof (Z.mod_pos_bound (Z.of_nat t) 8 ltac:(lia)). pose proof (Z.div_mod (Z.of_nat t) 8 ltac:(lia)). lia. Qed.

(** Bit [p] of the state. *)
Definition xbit (x : list Z) (p : nat) : bool := Z.testbit (nth (p / 64) x 0) (zb (p mod 64)).
Definition rows (x : list Z) : list bool := xbit x <$> seq 0 1024.
Definition elements (x : list Z) : list Z := group (rows x).

Definition nibA (m : words8) (b : Z) : Z := nibble (Z.testbit (m0 m) b) (Z.testbit (m1 m) b) (Z.testbit (m2 m) b) (Z.testbit (m3 m) b).
Definition nibB (m : words8) (b : Z) : Z := nibble (Z.testbit (m4 m) b) (Z.testbit (m5 m) b) (Z.testbit (m6 m) b) (Z.testbit (m7 m) b).

(** The words that column [i] of the code works on. *)
Definition column (x : list Z) (i : nat) : words8 :=
  W8 (nth i x 0) (nth (4 + i) x 0) (nth (8 + i) x 0) (nth (12 + i) x 0) (nth (2 + i) x 0) (nth (6 + i) x 0) (nth (10 + i) x 0) (nth (14 + i) x 0).

Lemma elements_length x : length (elements x) = 256%nat.
Proof. done. Qed.

Lemma xbit_at x i t q : (i < 2)%nat -> (t < 64)%nat -> xbit x (64 * i + t + 64 * q) = Z.testbit (nth (q + i) x 0) (zb t).
Proof.
  intros Hi Ht. unfold xbit. replace ((64 * i + t + 64 * q) / 64)%nat with (q + i)%nat by (apply (Nat.div_unique _ _ _ t); lia).
  by replace ((64 * i + t + 64 * q) mod 64)%nat with t by (apply (Nat.mod_unique _ _ (q + i)); lia).
Qed.

Lemma elements_at x i t :
  (i < 2)%nat -> (t < 64)%nat ->
  nth (2 * (64 * i + t)) (elements x) 0 = nibA (column x i) (zb t) /\ nth (2 * (64 * i + t) + 1) (elements x) 0 = nibB (column x i) (zb t).
Proof.
  intros Hi Ht. unfold elements, group. rewrite !(nth_seq_fmap 0) by lia.
  set (j := (64 * i + t)%nat). destruct (halves j) as (-> & -> & -> & ->).
  unfold rows. rewrite !(nth_seq_fmap false) by lia. unfold nibA, nibB, column. cbn [m0 m1 m2 m3 m4 m5 m6 m7]. subst j.
  split.
  - replace (64 * i + t + 128 * 0)%nat with (64 * i + t + 64 * 0)%nat by lia. rewrite <- !Nat.add_assoc.
    change (64 * 0 + 256)%nat with (64 * 4)%nat. change (64 * 0 + 512)%nat with (64 * 8)%nat. change (64 * 0 + 768)%nat with (64 * 12)%nat.
    rewrite !Nat.add_assoc, !xbit_at by done. done.
  - rewrite <- !Nat.add_assoc. change (128 * 1)%nat with (64 * 2)%nat. change (64 * 2 + 256)%nat with (64 * 6)%nat.
    change (64 * 2 + 512)%nat with (64 * 10)%nat. change (64 * 2 + 768)%nat with (64 * 14)%nat. rewrite !Nat.add_assoc, !xbit_at by done. done.
Qed.

Lemma not64_bit w b : 0 <= b < 64 -> Z.testbit (not64 w) b = negb (Z.testbit w b).
Proof. intros Hb. unfold not64, u64. rewrite Z.testbit_mod_pow2, Z.lnot_spec by lia. by destruct (Z.ltb_spec b 64); [|lia]. Qed.

(** The S-boxes and the linear map, bit by bit. *)
Ltac bits_of_words := repeat first [rewrite Z.lxor_spec | rewrite Z.land_spec | rewrite Z.lor_spec | rewrite not64_bit by assumption].
Ltac all_bits := repeat match goal with |- context [Z.testbit ?w ?b] => is_var w; generalize (Z.testbit w b); intros [] end; reflexivity.

Lemma SS_spec m c0 c1 b :
  0 <= b < 64 ->
  nibA (SS m c0 c1) b = sbox (Z.testbit c0 b) (nibA m b) /\ nibB (SS m c0 c1) b = sbox (Z.testbit c1 b) (nibB m b).
Proof.
  intros Hb. destruct m as [w0 w1 w2 w3 w4 w5 w6 w7]. unfold nibA, nibB. cbn [SS m0 m1 m2 m3 m4 m5 m6 m7]. split; bits_of_words; all_bits.
Qed.

Lemma L_spec m b : mix (nibA m b) (nibB m b) = (nibA (L m) b, nibB (L m) b).
Proof. destruct m as [w0 w1 w2 w3 w4 w5 w6 w7]. unfold nibA, nibB. cbn [L m0 m1 m2 m3 m4 m5 m6 m7]. rewrite !Z.lxor_spec. all_bits. Qed.

(** ** Swapping bits *)
Definition is_word (w : Z) : Prop := 0 <= w < 2 ^ 64.
Definition words (x : list Z) : Prop := Forall is_word x.

(** What the masks [lo] and [hi] must satisfy at bit [b] for a swap by [k] bits. *)
Definition mask_ok (lo hi k b : Z) : bool :=
  if Z.testbit b (Z.log2 k) then Z.testbit lo (b - k) && negb (Z.testbit hi (b + k)) && (k <=? b) && (Z.lxor b k =? b - k)
  else negb ((k <=? b) && Z.testbit lo (b - k)) && Z.testbit hi (b + k) && (Z.lxor b k =? b + k).

Lemma swap_bit lo hi k w b :
  1 <= k < 64 -> 0 <= b < 64 -> mask_ok lo hi k b = true ->
  Z.testbit (Z.lor (u64 (Z.shiftl (Z.land w lo) k)) (Z.shiftr (Z.land w hi) k)) b = Z.testbit w (Z.lxor b k).
Proof.
  intros Hk Hb H. unfold u64. rewrite Z.lor_spec, Z.testbit_mod_pow2, Z.shiftl_spec, Z.shiftr_spec, !Z.land_spec by lia.
  destruct (Z.ltb_spec b 64); [|lia]. cbn [andb]. unfold mask_ok in H. destruct (Z.testbit b (Z.log2 k)).
  - repeat rewrite andb_true_iff in H. destruct H as (((H1 & H2) & H3) & H4). apply Z.eqb_eq in H4. rewrite H4, H1.
    apply negb_true_iff in H2. by rewrite H2, andb_false_r, andb_true_r, orb_false_r.
  - repeat rewrite andb_true_iff in H. destruct H as ((H1 & H2) & H3). apply Z.eqb_eq in H3. rewrite H3, H2. apply negb_true_iff in H1.
    destruct (Z.leb_spec k b); cbn [andb] in H1.
    + by rewrite H1, andb_false_r, andb_true_r.
    + rewrite (Z.testbit_neg_r w (b - k)) by lia. cbn [andb orb]. apply andb_true_r.
Qed.

Lemma mask_all lo hi k : forallb (mask_ok lo hi k) (seqZ 0 64) = true -> forall b, 0 <= b < 64 -> mask_ok lo hi k b = true.
Proof. intros H b Hb. rewrite forallb_forall in H. apply H, list_elem_of_In, elem_of_seqZ. lia. Qed.

Lemma SWAP1_bit w b : 0 <= b < 64 -> Z.testbit (SWAP1 w) b = Z.testbit w (Z.lxor b 1).
Proof. intros Hb. apply swap_bit; [lia|done|]. revert b Hb. apply mask_all. by vm_compute. Qed.
Lemma SWAP2_bit w b : 0 <= b < 64 -> Z.testbit (SWAP2 w) b = Z.testbit w (Z.lxor b 2).
Proof. intros Hb. apply swap_bit; [lia|done|]. revert b Hb. apply mask_all. by vm_compute. Qed.
Lemma SWAP4_bit w b : 0 <= b < 64 -> Z.testbit (SWAP4 w) b = Z.testbit w (Z.lxor b 4).
Proof. intros Hb. apply swap_bit; [lia|done|]. revert b Hb. apply mask_all. by vm_compute. Qed.
Lemma SWAP8_bit w b : 0 <= b < 64 -> Z.testbit (SWAP8 w) b = Z.testbit w (Z.lxor b 8).
Proof. intros Hb. apply swap_bit; [lia|done|]. revert b Hb. apply mask_all. by vm_compute. Qed.
Lemma SWAP16_bit w b : 0 <= b < 64 -> Z.testbit (SWAP16 w) b = Z.testbit w (Z.lxor b 16).
Proof. intros Hb. apply swap_bit; [lia|done|]. revert b Hb. apply mask_all. by vm_compute. Qed.

Lemma word_ones w : is_word w -> Z.land w (2 ^ 64 - 1) = w.
Proof. intros Hw. change (2 ^ 64 - 1) with (Z.ones 64). rewrite Z.land_ones by lia. by apply Z.mod_small. Qed.

Lemma SWAP32_bit w b : is_word w -> 0 <= b < 64 -> Z.testbit (SWAP32 w) b = Z.testbit w (Z.lxor b 32).
Proof.
  intros Hw Hb. unfold SWAP32. rewrite <- (swap_bit (2 ^ 64 - 1) (2 ^ 64 - 1) 32 w b); [by rewrite word_ones|lia|done|].
  revert b Hb. apply mask_all. by vm_compute.
Qed.

(** A word operation that swaps bits at distance [2^r] and keeps words. *)
Definition swaps (SWAP : Z -> Z) (r : nat) : Prop :=
  forall w, is_word w -> is_word (SWAP w) /\ forall b, 0 <= b < 64 -> Z.testbit (SWAP w) b = Z.testbit w (Z.lxor b (2 ^ Z.of_nat r)).

Lemma lor_word a b : is_word a -> is_word b -> is_word (Z.lor a b).
Proof.
  intros Ha Hb. assert (Z.lor a b = Z.lor a b mod 2 ^ 64) as ->; [|apply Z.mod_pos_bound; lia].
  bitwise. destruct (Z.ltb_spec i 64); [done|]. by rewrite (testbit_small a 64), (testbit_small b 64) by (done || lia).
Qed.
Lemma lxor_word a b : is_word a -> is_word b -> is_word (Z.lxor a b).
Proof. intros Ha Hb. apply (lxor_bound a b 64); (done || lia). Qed.
Lemma land_word a b : is_word a -> is_word (Z.land a b).
Proof.
  intros Ha. assert (Z.land a b = Z.land a b mod 2 ^ 64) as ->; [|apply Z.mod_pos_bound; lia].
  bitwise. destruct (Z.ltb_spec i 64); [done|]. by rewrite (testbit_small a 64) by (done || lia).
Qed.
Lemma not64_word w : is_word (not64 w).
Proof. apply Z.mod_pos_bound. lia. Qed.
Lemma shiftr_word a k : is_word a -> 0 <= k -> is_word (Z.shiftr a k).
Proof.
  intros Ha Hk. unfold is_word in *. rewrite Z.shiftr_div_pow2 by done. split; [apply Z.div_pos; lia|].
  apply Z.div_lt_upper_bound; [lia|]. nia.
Qed.

Lemma swaps_all : swaps SWAP1 0 /\ swaps SWAP2 1 /\ swaps SWAP4 2 /\ swaps SWAP8 3 /\ swaps SWAP16 4 /\ swaps SWAP32 5.
Proof.
  split_and!; intros w Hw; (split; [apply lor_word; [apply Z.mod_pos_bound; lia|apply shiftr_word; [|lia]; first [by apply land_word|done]]|]); intros b Hb.
  - by apply SWAP1_bit.
  - by apply SWAP2_bit.
  - by apply SWAP4_bit.
  - by apply SWAP8_bit.
  - by apply SWAP16_bit.
  - by apply SWAP32_bit.
Qed.

Lemma zb_swap r t : (r < 6)%nat -> (t < 64)%nat -> Z.lxor (zb t) (2 ^ Z.of_nat r) = zb (Nat.lxor t (2 ^ r)) /\ (Nat.lxor t (2 ^ r) < 64)%nat.
Proof.
  intros Hr Ht. assert (forallb (fun r => forallb (fun t => (Z.lxor (zb t) (2 ^ Z.of_nat r) =? zb (Nat.lxor t (2 ^ r))) && (Nat.lxor t (2 ^ r) <? 64)%nat) (seq 0 64)) (seq 0 6) = true) as H by (by vm_compute).
  rewrite forallb_forall in H. specialize (H r ltac:(apply in_seq; lia)). rewrite forallb_forall in H. specialize (H t ltac:(apply in_seq; lia)).
  apply andb_prop in H as [H1 H2]. apply Z.eqb_eq in H1. apply Nat.ltb_lt in H2. done.
Qed.

(** ** Rounds of the code *)
Definition words_column (m : words8) : Prop :=
  is_word (m0 m) /\ is_word (m1 m) /\ is_word (m2 m) /\ is_word (m3 m) /\ is_word (m4 m) /\ is_word (m5 m) /\ is_word (m6 m) /\ is_word (m7 m).

Lemma SS_L_words m c0 c1 : words_column m -> is_word c0 -> is_word c1 -> words_column (L (SS m c0 c1)).
Proof.
  intros (H0 & H1 & H2 & H3 & H4 & H5 & H6 & H7) Hc0 Hc1. destruct m as [w0 w1 w2 w3 w4 w5 w6 w7]. cbn [m0 m1 m2 m3 m4 m5 m6 m7] in *.
  unfold words_column. cbn [SS L m0 m1 m2 m3 m4 m5 m6 m7].
  split_and!; repeat first [assumption | apply lxor_word | apply land_word | apply lor_word | apply not64_word].
Qed.

(** The words from the two columns. *)
Definition unpack (a b : words8) : list Z :=
  [m0 a; m0 b; m4 a; m4 b; m1 a; m1 b; m5 a; m5 b; m2 a; m2 b; m6 a; m6 b; m3 a; m3 b; m7 a; m7 b].

Lemma column_unpack a b : column (unpack a b) 0 = a /\ column (unpack a b) 1 = b.
Proof. by destruct a, b. Qed.

Lemma words_columns x i : words x -> length x = 16%nat -> (i < 2)%nat -> words_column (column x i).
Proof.
  intros Hx Hl Hi. apply sixteen in Hl as (? & ? & ? & ? & ? & ? & ? & ? & ? & ? & ? & ? & ? & ? & ? & ? & ->). unfold words in Hx.
  do 16 (apply Forall_cons_1 in Hx as [? Hx]). destruct i as [|[|i]]; [done|done|lia].
Qed.

Lemma unpack_words a b : words_column a -> words_column b -> words (unpack a b).
Proof. intros (?&?&?&?&?&?&?&?) (?&?&?&?&?&?&?&?). unfold words, unpack. repeat (apply List.Forall_cons; [done|]). apply List.Forall_nil. Qed.

(** Word [q] of a round constant. *)
Definition cword (rn q : nat) : Z := le_val (take 8 (drop (8 * q) (nth rn E8_bitslice_roundconstant []))).

Lemma constants_ok rn : (rn < 42)%nat -> bytes (nth rn E8_bitslice_roundconstant []) /\ length (nth rn E8_bitslice_roundconstant []) = 32%nat.
Proof.
  intros Hrn. assert (forallb (fun rn => bool_decide (bytes (nth rn E8_bitslice_roundconstant []) /\ length (nth rn E8_bitslice_roundconstant []) = 32%nat)) (seq 0 42) = true) as H by (by vm_compute).
  rewrite forallb_forall in H. specialize (H rn ltac:(apply in_seq; lia)). by apply bool_decide_eq_true in H.
Qed.

Lemma word64_constant rn q : (rn < 42)%nat -> (q < 4)%nat -> word64 (nth rn E8_bitslice_roundconstant []) q = Ok (cword rn q) /\ is_word (cword rn q).
Proof.
  intros Hrn Hq. destruct (constants_ok rn Hrn) as [Hb Hl]. unfold word64. rewrite decide_True by lia. split; [done|].
  unfold cword. set (s := take 8 _). assert (length s = 8%nat) as Hs by (unfold s; rewrite length_take, length_drop; lia).
  assert (bytes s) as Bs by (by apply Forall_take, Forall_drop). pose proof (le_val_bound s Bs) as H. by rewrite Hs in H.
Qed.

(** The column [i] after round [rn]. *)
Definition mixed_column (rn : nat) (x : list Z) (i : nat) : words8 := L (SS (column x i) (cword rn i) (cword rn (i + 2))).

Lemma load_column_ok x i : length x = 16%nat -> (i < 2)%nat -> load_column x i = Ok (column x i).
Proof.
  intros Hl Hi. apply sixteen in Hl as (? & ? & ? & ? & ? & ? & ? & ? & ? & ? & ? & ? & ? & ? & ? & ? & ->).
  destruct i as [|[|i]]; [reflexivity|reflexivity|lia].
Qed.

Lemma store_column_0 x m : length x = 16%nat -> store_column x 0 m = Ok (unpack m (column x 1)).
Proof.
  intros Hl. apply sixteen in Hl as (? & ? & ? & ? & ? & ? & ? & ? & ? & ? & ? & ? & ? & ? & ? & ? & ->). destruct m. reflexivity.
Qed.

Lemma store_column_1 x m : length x = 16%nat -> store_column x 1 m = Ok (unpack (column x 0) m).
Proof.
  intros Hl. apply sixteen in Hl as (? & ? & ? & ? & ? & ? & ? & ? & ? & ? & ? & ? & ? & ? & ? & ? & ->). destruct m. reflexivity.
Qed.

Lemma E8_round_words SWAP rn x :
  (rn < 42)%nat -> length x = 16%nat ->
  E8_round SWAP rn x = Ok (unpack (swap_odd SWAP (mixed_column rn x 0)) (swap_odd SWAP (mixed_column rn x 1))).
Proof.
  intros Hrn Hl.
  assert (get E8_bitslice_roundconstant rn = Ok (nth rn E8_bitslice_roundconstant [])) as Eg.
  { destruct (lookup_lt_is_Some_2 E8_bitslice_roundconstant rn Hrn) as [rc Hrc]. by rewrite (get_ok _ _ _ Hrc), (nth_lookup_Some _ _ _ _ Hrc). }
  unfold E8_round. cbn [for_]. rewrite load_column_ok by (done || lia). cbn [bind]. rewrite Eg. cbn [bind Nat.add].
  rewrite (proj1 (word64_constant rn 0 Hrn ltac:(lia))), (proj1 (word64_constant rn 2 Hrn ltac:(lia))). cbn [bind].
  rewrite store_column_0 by done. cbn [bind]. rewrite load_column_ok by (done || lia). cbn [bind].
  rewrite (proj1 (word64_constant rn 1 Hrn ltac:(lia))), (proj1 (word64_constant rn 3 Hrn ltac:(lia))). cbn [bind].
  rewrite store_column_1 by done. rewrite (proj1 (column_unpack _ _)), (proj2 (column_unpack _ _)). reflexivity.
Qed.

(** The constants in the order of the elements of the code. *)
Definition code_constants (rn : nat) : list bool :=
  (fun k => Z.testbit (cword rn (k / 2 / 64 + 2 * (k mod 2))) (zb ((k / 2) mod 64))) <$> seq 0 256.

Lemma code_constants_spec rn : (rn < 42)%nat -> code_constants rn = gatherb (slots rn) (nth rn (constants 42 C0) []).
Proof.
  intros Hrn. rewrite slots_mod.
  assert (let cs := constants 42 C0 in let sl := slots <$> seq 0 7 in
    forallb (fun rn => bool_decide (code_constants rn = gatherb (nth (rn mod 7) sl []) (nth rn cs []))) (seq 0 42) = true) as H by (by vm_compute).
  cbv zeta in H. rewrite forallb_forall in H. specialize (H rn ltac:(apply in_seq; lia)). apply bool_decide_eq_true in H. rewrite H. f_equal.
  apply nth_seq_fmap, Nat.mod_upper_bound. lia.
Qed.

(** What a round does to the elements, if the new columns are the mixed ones with the odd rows permuted. *)
Lemma elements_round rn x x' :
  (forall i t, (i < 2)%nat -> (t < 64)%nat -> nibA (column x' i) (zb t) = nibA (mixed_column rn x i) (zb t)) ->
  (forall i t, (i < 2)%nat -> (t < 64)%nat -> exists i' t', (i' < 2)%nat /\ (t' < 64)%nat /\
    (64 * i' + t' = Nat.lxor (64 * i + t) (2 ^ (rn mod 7)))%nat /\ nibB (column x' i) (zb t) = nibB (mixed_column rn x i') (zb t')) ->
  elements x' = code_round rn (code_constants rn) (elements x).
Proof.
  intros HA HB.
  assert (forall i t, (i < 2)%nat -> (t < 64)%nat ->
    let f := fun k => nth k (zip_with sbox (code_constants rn) (elements x)) 0 in let j := (64 * i + t)%nat in
    mix (f (2 * j)%nat) (f (2 * j + 1)%nat) = (nibA (mixed_column rn x i) (zb t), nibB (mixed_column rn x i) (zb t))) as Hmix.
  { intros i t Hi Ht f j. unfold f. rewrite !nth_zip_sbox by (rewrite ?elements_length; cbn [code_constants]; unfold j; first [lia|unfold code_constants; rewrite length_fmap, length_seq; lia]).
    unfold j. destruct (elements_at x i t Hi Ht) as [-> ->]. unfold mixed_column. rewrite <- L_spec.
    destruct (SS_spec (column x i) (cword rn i) (cword rn (i + 2)) (zb t) (zb_range t Ht)) as [-> ->].
    unfold code_constants. rewrite !(nth_seq_fmap false) by lia.
    destruct (halves (64 * i + t)) as (-> & -> & -> & ->).
    replace ((64 * i + t) / 64)%nat with i by (apply (Nat.div_unique _ _ _ t); lia).
    replace ((64 * i + t) mod 64)%nat with t by (apply (Nat.mod_unique _ _ i); lia). by rewrite Nat.mul_0_r, Nat.add_0_r. }
  assert (length (zip_with sbox (code_constants rn) (elements x)) = 256%nat) as Hz by done.
  apply (list_eq_nth 0 _ _ 256); [done|done|]. intros k Hk. unfold code_round. rewrite nth_gather by done. rewrite (nth_seq_fmap 0%nat) by done.
  assert (exists i t, (i < 2 /\ t < 64)%nat /\ (k = 2 * (64 * i + t) \/ k = 2 * (64 * i + t) + 1)%nat) as (i & t & [Hi Ht] & Hkit).
  { exists (k / 2 / 64)%nat, ((k / 2) mod 64)%nat. pose proof (Nat.Div0.div_mod k 2). pose proof (Nat.mod_upper_bound k 2 ltac:(lia)).
    pose proof (Nat.Div0.div_mod (k / 2) 64). pose proof (Nat.mod_upper_bound (k / 2) 64 ltac:(lia)). lia. }
  destruct (elements_at x' i t Hi Ht) as [E0 E1]. destruct Hkit as [-> | ->].
  - rewrite E0, HA by done. unfold swapped. rewrite Nat.even_mul. cbn [Nat.even orb]. rewrite nth_mix_pairs by (rewrite Hz; done || lia).
    unfold mix_at. rewrite Nat.even_mul. cbn [Nat.even orb]. rewrite (proj1 (halves (64 * i + t))). cbv beta. by rewrite (Hmix i t Hi Ht).
  - rewrite E1. destruct (HB i t Hi Ht) as (i' & t' & Hi' & Ht' & El & ->). unfold swapped.
    assert (forall q, Nat.even (2 * q + 1) = false) as Ev by (intros; by rewrite Nat.even_add, Nat.even_mul). rewrite Ev.
    rewrite (proj1 (proj2 (halves (64 * i + t)))), <- El.
    rewrite nth_mix_pairs by (rewrite Hz; done || lia). unfold mix_at. rewrite Ev, (proj1 (proj2 (halves (64 * i' + t')))). cbv beta.
    by rewrite (Hmix i' t' Hi' Ht').
Qed.

Lemma index_lxor_low i t r : (i < 2)%nat -> (t < 64)%nat -> (r < 6)%nat -> (64 * i + Nat.lxor t (2 ^ r) = Nat.lxor (64 * i + t) (2 ^ r))%nat.
Proof.
  intros Hi Ht Hr.
  assert (forallb (fun i => forallb (fun t => forallb (fun r => 64 * i + Nat.lxor t (2 ^ r) =? Nat.lxor (64 * i + t) (2 ^ r)) (seq 0 6)) (seq 0 64)) (seq 0 2) = true)%nat as H by (by vm_compute).
  rewrite forallb_forall in H. specialize (H i ltac:(apply in_seq; lia)). rewrite forallb_forall in H. specialize (H t ltac:(apply in_seq; lia)).
  rewrite forallb_forall in H. specialize (H r ltac:(apply in_seq; lia)). by apply Nat.eqb_eq in H.
Qed.

Lemma index_lxor_high i t : (i < 2)%nat -> (t < 64)%nat -> (64 * (1 - i) + t = Nat.lxor (64 * i + t) (2 ^ 6))%nat.
Proof.
  intros Hi Ht.
  assert (forallb (fun i => forallb (fun t => 64 * (1 - i) + t =? Nat.lxor (64 * i + t) (2 ^ 6)) (seq 0 64)) (seq 0 2) = true)%nat as H by (by vm_compute).
  rewrite forallb_forall in H. specialize (H i ltac:(apply in_seq; lia)). rewrite forallb_forall in H. specialize (H t ltac:(apply in_seq; lia)). by apply Nat.eqb_eq in H.
Qed.

Definition sound (x : list Z) : Prop := words x /\ length x = 16%nat.

Lemma mixed_words rn x i : (rn < 42)%nat -> sound x -> (i < 2)%nat -> words_column (mixed_column rn x i).
Proof. intros Hrn [Hx Hl] Hi. apply SS_L_words; [by apply words_columns|apply word64_constant; lia|apply word64_constant; lia]. Qed.

#[local] Opaque mixed_column.

Lemma swap_odd_words SWAP r m : swaps SWAP r -> words_column m -> words_column (swap_odd SWAP m).
Proof. intros Hs (?&?&?&?&?&?&?&?). unfold words_column. cbn [swap_odd m0 m1 m2 m3 m4 m5 m6 m7]. split_and!; try done; by apply Hs. Qed.

Lemma nibA_swap_odd SWAP m z : nibA (swap_odd SWAP m) z = nibA m z.
Proof. done. Qed.

(** The first six rounds of seven. *)
Lemma round_swap SWAP rn x :
  swaps SWAP (rn mod 7) -> (rn mod 7 < 6)%nat -> (rn < 42)%nat -> sound x ->
  returns (E8_round SWAP rn x) (fun x' => sound x' /\ elements x' = code_round rn (code_constants rn) (elements x)).
Proof.
  intros Hs Hr Hrn Hx. rewrite E8_round_words by (done || apply Hx). cbn [returns].
  assert (forall i, (i < 2)%nat -> column (unpack (swap_odd SWAP (mixed_column rn x 0)) (swap_odd SWAP (mixed_column rn x 1))) i = swap_odd SWAP (mixed_column rn x i)) as Ec.
  { intros [|[|i]] Hi; [apply column_unpack|apply column_unpack|lia]. }
  split; [split; [|done]|].
  - apply unpack_words; eapply swap_odd_words; try done; apply mixed_words; (done || lia).
  - apply elements_round.
    + intros i t Hi Ht. rewrite Ec by done. apply nibA_swap_odd.
    + intros i t Hi Ht. exists i, (Nat.lxor t (2 ^ (rn mod 7))). destruct (zb_swap (rn mod 7) t Hr Ht) as [Ez Ht'].
      split; [done|]. split; [done|]. split; [by apply index_lxor_low|]. rewrite Ec by done.
      destruct (mixed_words rn x i Hrn Hx Hi) as (_ & _ & _ & _ & H4 & H5 & H6 & H7). unfold nibB. cbn [swap_odd m4 m5 m6 m7].
      rewrite (proj2 (Hs _ H4)), (proj2 (Hs _ H5)), (proj2 (Hs _ H6)), (proj2 (Hs _ H7)) by (by apply zb_range). by rewrite Ez.
Qed.

(** The seventh, with the halves exchanged. *)
Definition with_odd (a b : words8) : words8 := W8 (m0 a) (m1 a) (m2 a) (m3 a) (m4 b) (m5 b) (m6 b) (m7 b).

Lemma nib_with_odd a b z : nibA (with_odd a b) z = nibA a z /\ nibB (with_odd a b) z = nibB b z.
Proof. done. Qed.

Lemma with_odd_words a b : words_column a -> words_column b -> words_column (with_odd a b).
Proof. intros (?&?&?&?&?&?&?&?) (?&?&?&?&?&?&?&?). by split_and!. Qed.

Lemma swap_halves_unpack a b : swap_halves (unpack a b) = Ok (unpack (with_odd a b) (with_odd b a)).
Proof. reflexivity. Qed.

Lemma round_last rn x :
  (rn mod 7 = 6)%nat -> (rn < 42)%nat -> sound x ->
  returns (let! x := E8_round (fun w => w) rn x in swap_halves x) (fun x' => sound x' /\ elements x' = code_round rn (code_constants rn) (elements x)).
Proof.
  intros Hr Hrn Hx. rewrite E8_round_words by (done || apply Hx). cbn [bind].
  assert (forall m, swap_odd (fun w => w) m = m) as -> by (by intros []). assert (forall m, swap_odd (fun w => w) m = m) as -> by (by intros []).
  rewrite swap_halves_unpack. cbn [returns].
  assert (forall i, (i < 2)%nat -> column (unpack (with_odd (mixed_column rn x 0) (mixed_column rn x 1)) (with_odd (mixed_column rn x 1) (mixed_column rn x 0))) i =
    with_odd (mixed_column rn x i) (mixed_column rn x (1 - i))) as Ec by (intros [|[|i]] Hi; [apply column_unpack|apply column_unpack|lia]).
  split; [split; [|done]|].
  - apply unpack_words; apply with_odd_words; apply mixed_words; (done || lia).
  - apply elements_round.
    + intros i t Hi Ht. rewrite Ec by done. apply nib_with_odd.
    + intros i t Hi Ht. exists (1 - i)%nat, t. split; [lia|]. split; [done|]. split; [rewrite Hr; by apply index_lxor_high|]. rewrite Ec by done. apply nib_with_odd.
Qed.

(** The state of the specification after [r] rounds. *)
Definition after (r : nat) (v : list Z) : list Z := foldl (fun v cs => round 8 cs v) v (take r (constants 42 C0)).

Lemma after_S r v : (r < 42)%nat -> after (S r) v = round 8 (nth r (constants 42 C0) []) (after r v).
Proof.
  intros Hr. unfold after. destruct (lookup_lt_is_Some_2 (constants 42 C0) r) as [c Hc]; [by vm_compute|].
  rewrite (nth_lookup_Some _ _ _ _ Hc), (take_S_r _ _ _ Hc), foldl_app. done.
Qed.

(** The words [x] hold the elements [v] of the specification before round [r]. *)
Definition holds (r : nat) (x v : list Z) : Prop := sound x /\ length v = 256%nat /\ elements x = gather (slots r) v.

Lemma holds_next m r x v :
  (r < 42)%nat -> holds r x v -> returns m (fun x' => sound x' /\ elements x' = code_round r (code_constants r) (elements x)) ->
  returns m (fun x' => holds (S r) x' (round 8 (nth r (constants 42 C0) []) v)).
Proof.
  intros Hr (Hx & Hv & E) Hm. eapply returns_mono; [exact Hm|]. intros x' [Hx' E']. split; [done|]. split; [done|].
  rewrite E', E, code_constants_spec by done. apply round_permuted; [|done].
  assert (forallb (fun r => length (nth r (constants 42 C0) []) =? 256)%nat (seq 0 42) = true) as H by (by vm_compute).
  rewrite forallb_forall in H. apply Nat.eqb_eq, H, in_seq. lia.
Qed.

Lemma gather_seq v n : length v = n -> gather (seq 0 n) v = v.
Proof.
  intros Hv. apply (list_eq_nth 0 _ _ n); [by rewrite gather_length, length_seq|done|]. intros k Hk.
  rewrite nth_gather by (by rewrite length_seq). by rewrite seq_nth.
Qed.

Lemma slots_7 k : slots (7 * k) = seq 0 256.
Proof. rewrite slots_mod, Nat.mul_comm, Nat.Div0.mod_mul. reflexivity. Qed.

(** Seven rounds. *)
Lemma E8_seven k x v :
  (k < 6)%nat -> holds (7 * k) x (after (7 * k) v) ->
  returns (let roundnumber := (7 * k)%nat in
    let! x := E8_round SWAP1 (roundnumber + 0) x in
    let! x := E8_round SWAP2 (roundnumber + 1) x in
    let! x := E8_round SWAP4 (roundnumber + 2) x in
    let! x := E8_round SWAP8 (roundnumber + 3) x in
    let! x := E8_round SWAP16 (roundnumber + 4) x in
    let! x := E8_round SWAP32 (roundnumber + 5) x in
    let! x := E8_round (fun w => w) (roundnumber + 6) x in
    swap_halves x) (fun x' => holds (7 * S k) x' (after (7 * S k) v)).
Proof.
  intros Hk Hx. destruct swaps_all as (S1 & S2 & S4 & S8 & S16 & S32). cbn zeta. replace (7 * S k)%nat with (S (7 * k + 6)) by lia.
  assert (forall j, (j < 7)%nat -> (7 * k + j) mod 7 = j)%nat as Hmod by (intros j Hj; symmetry; apply (Nat.mod_unique _ _ k); lia).
  assert (forall SWAP j x, (j < 6)%nat -> swaps SWAP j -> holds (7 * k + j) x (after (7 * k + j) v) ->
    returns (E8_round SWAP (7 * k + j) x) (fun x' => holds (7 * k + S j) x' (after (7 * k + S j) v))) as Hstep.
  { intros SWAP j y Hj Hs Hy. rewrite Nat.add_succ_r, after_S by lia. apply (holds_next _ _ y); [lia|done|].
    apply round_swap; [by rewrite Hmod by lia|rewrite Hmod; lia|lia|apply Hy]. }
  rewrite <- (Nat.add_0_r (7 * k)) in Hx at 1 2.
  eapply returns_bind; [apply (Hstep SWAP1 0%nat); [lia|done|exact Hx]|]. clear x Hx. intros x Hx.
  eapply returns_bind; [apply (Hstep SWAP2 1%nat); [lia|done|exact Hx]|]. clear x Hx. intros x Hx.
  eapply returns_bind; [apply (Hstep SWAP4 2%nat); [lia|done|exact Hx]|]. clear x Hx. intros x Hx.
  eapply returns_bind; [apply (Hstep SWAP8 3%nat); [lia|done|exact Hx]|]. clear x Hx. intros x Hx.
  eapply returns_bind; [apply (Hstep SWAP16 4%nat); [lia|done|exact Hx]|]. clear x Hx. intros x Hx.
  eapply returns_bind; [apply (Hstep SWAP32 5%nat); [lia|done|exact Hx]|]. clear x Hx. intros x Hx.
  rewrite after_S by lia. apply (holds_next _ _ x); [lia|exact Hx|]. apply round_last; [by rewrite Hmod by lia|lia|apply Hx].
Qed.

(** ** The permutation *)
Lemma E8_elements x :
  sound x -> returns (Jh.E8 x) (fun x' => sound x' /\ elements x' = after 42 (elements x)).
Proof.
  intros Hx. unfold Jh.E8. eapply returns_mono.
  - apply (for_inv 6 _ 0 x (fun k x' => holds (7 * k) x' (after (7 * k) (elements x)))).
    + split; [done|]. split; [done|]. rewrite slots_7, gather_seq; done.
    + intros k x' Hk Hx'. apply E8_seven; [lia|done].
  - intros x' (Hx' & Hl & E). split; [done|]. rewrite slots_7, gather_seq in E by done. exact E.
Qed.

Lemma group_bit a i :
  length a = 1024%nat -> (i < 1024)%nat -> nth i (degroup (group a)) false = nth i a false.
Proof.
  intros Ha Hi. unfold degroup. rewrite (nth_seq_fmap false) by done. unfold group.
  assert (exists c h q, (c < 128 /\ h < 2 /\ q < 4 /\ i = c + 128 * h + 256 * q)%nat) as (c & h & q & Hc & Hh & Hq & ->).
  { exists (i mod 128)%nat, ((i / 128) mod 2)%nat, (i / 128 / 2)%nat.
    pose proof (Nat.Div0.div_mod i 128). pose proof (Nat.mod_upper_bound i 128 ltac:(lia)).
    pose proof (Nat.Div0.div_mod (i / 128) 2). pose proof (Nat.mod_upper_bound (i / 128) 2 ltac:(lia)). lia. }
  replace ((c + 128 * h + 256 * q) mod 128)%nat with c by (apply (Nat.mod_unique _ _ (h + 2 * q)); lia).
  replace ((c + 128 * h + 256 * q) / 128)%nat with (h + 2 * q)%nat by (apply (Nat.div_unique _ _ _ c); lia).
  replace ((h + 2 * q) mod 2)%nat with h by (apply (Nat.mod_unique _ _ q); lia).
  replace ((c + 128 * h + 256 * q) / 256)%nat with q by (apply (Nat.div_unique _ _ _ (128 * h + c)); lia).
  rewrite (nth_seq_fmap 0) by lia. cbv zeta.
  replace ((2 * c + h) / 2)%nat with c by (apply (Nat.div_unique _ _ _ h); lia).
  replace ((2 * c + h) mod 2)%nat with h by (apply (Nat.mod_unique _ _ c); lia).
  clear - Hq. do 4 (destruct q as [|q]; [change (256 * 0)%nat with 0%nat; change (256 * 1)%nat with 256%nat;
    change (256 * 2)%nat with 512%nat; change (256 * 3)%nat with 768%nat; rewrite ?Nat.add_0_r; unfold nibble;
    repeat match goal with |- context [nth ?i a false] => generalize (nth i a false); intros [] end; reflexivity|]). lia.
Qed.

Lemma nth_rows x p : (p < 1024)%nat -> nth p (rows x) false = xbit x p.
Proof. intros Hp. unfold rows. by apply nth_seq_fmap. Qed.

Lemma E8_rows x : sound x -> returns (Jh.E8 x) (fun x' => sound x' /\ rows x' = JhSpec.E8 (rows x)).
Proof.
  intros Hx. eapply returns_mono; [by apply E8_elements|]. intros x' [Hx' E]. split; [done|].
  transitivity (degroup (elements x')).
  - apply (list_eq_nth false _ _ 1024); [done|done|]. intros i Hi. unfold elements. by rewrite group_bit.
  - rewrite E. unfold JhSpec.E8, after. rewrite take_ge; [done|]. by vm_compute.
Qed.

(** ** Bytes and words *)
Lemma nth_bits_of s p : (p < 8 * length s)%nat -> nth p (bits_of s) false = Z.testbit (nth (p / 8) s 0) (7 - Z.of_nat (p mod 8)).
Proof.
  revert p. induction s as [|b s IH]; intros p Hp; cbn [length] in Hp; [lia|]. unfold bits_of. cbn [mbind list_bind].
  set (f := fun b : Z => (fun i => Z.testbit b (7 - Z.of_nat i)) <$> seq 0 8).
  destruct (decide (p < 8)%nat) as [H8|H8].
  - rewrite app_nth1 by (by rewrite length_fmap, length_seq). rewrite (nth_seq_fmap false) by done.
    by rewrite Nat.div_small, Nat.mod_small by done.
  - rewrite app_nth2 by (rewrite length_fmap, length_seq; lia). rewrite length_fmap, length_seq.
    etransitivity; [apply (IH (p - 8)%nat); lia|]. replace p with (1 * 8 + (p - 8))%nat at 3 4 by lia.
    rewrite Nat.div_add_l by lia. rewrite (Nat.add_comm (1 * 8)), Nat.Div0.mod_add. done.
Qed.

Lemma bits_of_length s : length (bits_of s) = (8 * length s)%nat.
Proof. induction s as [|b s IH]; [done|]. unfold bits_of in *. cbn [mbind list_bind]. rewrite length_app, length_fmap, length_seq, IH. cbn [length]. lia. Qed.

Lemma testbit_le_val w a c : bytes w -> (a < length w)%nat -> 0 <= c < 8 -> Z.testbit (le_val w) (8 * Z.of_nat a + c) = Z.testbit (nth a w 0) c.
Proof.
  intros Hw. revert a. induction Hw as [|b w Hb Hw IH]; intros a Ha Hc; cbn [length] in Ha; [lia|]. cbn [le_val]. unfold is_byte in Hb.
  assert (b + 256 * le_val w = Z.lor b (Z.shiftl (le_val w) 8)) as -> by (rewrite lor_shiftl_add by lia; lia).
  rewrite Z.lor_spec, Z.shiftl_spec by lia. destruct a as [|a].
  - cbn [nth]. rewrite Z.add_0_l, (Z.testbit_neg_r (le_val w)) by lia. apply orb_false_r.
  - rewrite (testbit_small b 8) by lia. cbn [orb nth]. rewrite <- IH by lia. f_equal. lia.
Qed.

(** The words of a list of bytes. *)
Definition le_words (n : nat) (s : list Z) : list Z := (fun i => le_val (take 8 (drop (8 * i) s))) <$> seq 0 n.

Lemma le_words_bit n s p :
  bytes s -> length s = (8 * n)%nat -> (p < 64 * n)%nat ->
  Z.testbit (nth (p / 64) (le_words n s) 0) (zb (p mod 64)) = nth p (bits_of s) false.
Proof.
  intros Hs Hl Hp. rewrite nth_bits_of by lia.
  assert (exists a b c, (b < 8 /\ c < 8 /\ a < n /\ p = 64 * a + 8 * b + c)%nat) as (a & b & c & Hb & Hc & Ha & ->).
  { exists (p / 64)%nat, ((p mod 64) / 8)%nat, ((p mod 64) mod 8)%nat.
    pose proof (Nat.Div0.div_mod p 64). pose proof (Nat.mod_upper_bound p 64 ltac:(lia)).
    pose proof (Nat.Div0.div_mod (p mod 64) 8). pose proof (Nat.mod_upper_bound (p mod 64) 8 ltac:(lia)). lia. }
  replace ((64 * a + 8 * b + c) / 64)%nat with a by (apply (Nat.div_unique _ _ _ (8 * b + c)); lia).
  replace ((64 * a + 8 * b + c) mod 64)%nat with (8 * b + c)%nat by (apply (Nat.mod_unique _ _ a); lia).
  replace ((64 * a + 8 * b + c) / 8)%nat with (8 * a + b)%nat by (apply (Nat.div_unique _ _ _ c); lia).
  replace ((64 * a + 8 * b + c) mod 8)%nat with c by (apply (Nat.mod_unique _ _ (8 * a + b)); lia).
  unfold le_words. rewrite (nth_seq_fmap 0) by done.
  assert (zb (8 * b + c) = 8 * Z.of_nat b + (7 - Z.of_nat c)) as ->.
  { unfold zb. replace (Z.of_nat (8 * b + c) / 8) with (Z.of_nat b) by (apply (Z.div_unique _ _ _ (Z.of_nat c)); lia).
    replace (Z.of_nat (8 * b + c) mod 8) with (Z.of_nat c) by (apply (Z.mod_unique _ _ (Z.of_nat b)); lia). lia. }
  rewrite testbit_le_val; [|by apply Forall_take, Forall_drop|rewrite length_take, length_drop; lia|lia]. f_equal.
  destruct (lookup_lt_is_Some_2 s (8 * a + b) ltac:(lia)) as [v Hv]. rewrite (nth_lookup_Some _ _ _ _ Hv).
  apply nth_lookup_Some. by rewrite lookup_take_lt, lookup_drop.
Qed.

Lemma le_words_sound s : bytes s -> length s = 128%nat -> sound (le_words 16 s) /\ rows (le_words 16 s) = bits_of s.
Proof.
  intros Hs Hl. split; [split; [|done]|].
  - apply Forall_fmap, Forall_forall. intros i Hi%in_seq. unfold compose. set (w := take 8 _).
    assert (length w = 8%nat) as Hw by (unfold w; rewrite length_take, length_drop; lia).
    assert (bytes w) as Bw by (by apply Forall_take, Forall_drop). pose proof (le_val_bound w Bw) as H. by rewrite Hw in H.
  - apply (list_eq_nth false _ _ 1024); [done|by rewrite bits_of_length, Hl|]. intros p Hp. rewrite nth_rows by done.
    unfold xbit. apply le_words_bit; (done || lia).
Qed.

Lemma byte_of_bits b : is_byte b -> byte_of ((fun i => Z.testbit b (7 - Z.of_nat i)) <$> seq 0 8) = b.
Proof.
  intros Hb. apply Z.eqb_eq. revert b Hb. apply (byte_cases (fun b => byte_of ((fun i => Z.testbit b (7 - Z.of_nat i)) <$> seq 0 8) =? b)). by vm_compute.
Qed.

Lemma bytes_of_bits s : bytes s -> bytes_of (length s) (bits_of s) = s.
Proof.
  induction 1 as [|b s Hb Hs IH]; [done|]. cbn [length]. unfold bytes_of, bits_of. cbn [seq mbind list_bind]. rewrite fmap_cons. f_equal.
  - etransitivity; [|by apply byte_of_bits]. reflexivity.
  - rewrite <- fmap_S_seq, <- list_fmap_compose. rewrite <- IH at 2. apply list_fmap_ext. intros k i _. unfold compose. f_equal. f_equal.
    replace (8 * S i)%nat with (8 + 8 * i)%nat by lia. reflexivity.
Qed.

Lemma state_bytes_rows x : sound x -> bytes (jh_state_bytes x) /\ length (jh_state_bytes x) = 128%nat /\ bits_of (jh_state_bytes x) = rows x.
Proof.
  intros [Hx Hl].
  assert (bytes (jh_state_bytes x)) as Hb by (apply Forall_concat, Forall_fmap, Forall_forall; intros w _; apply le_bytes_bytes).
  assert (forall y, length (jh_state_bytes y) = (8 * length y)%nat) as Hlen.
  { induction y as [|w y IH]; [done|]. unfold jh_state_bytes in *. rewrite fmap_cons. cbn [concat length]. rewrite length_app, le_bytes_length, IH. lia. }
  split; [done|]. rewrite Hlen, Hl. split; [done|].
  assert (le_words 16 (jh_state_bytes x) = x) as E.
  { apply (list_eq_nth 0 _ _ 16); [done|done|]. apply sixteen in Hl as (? & ? & ? & ? & ? & ? & ? & ? & ? & ? & ? & ? & ? & ? & ? & ? & ->).
    unfold words in Hx. intros k Hk. unfold le_words. rewrite (nth_seq_fmap 0) by done.
    assert (forall w, is_word w -> le_val (le_bytes 8 w) = w) as Hw by (intros w Hw; rewrite le_val_bytes; by apply Z.mod_small).
    do 16 (apply Forall_cons_1 in Hx as [? Hx]). do 16 (destruct k as [|k]; [by apply Hw|]). lia. }
  pose proof (proj2 (le_words_sound (jh_state_bytes x) Hb ltac:(rewrite Hlen; lia))) as R. by rewrite E in R.
Qed.

(** ** The compression *)
Lemma word64_ok s i : (8 * i + 8 <= length s)%nat -> word64 s i = Ok (le_val (take 8 (drop (8 * i) s))).
Proof. intros Hi. unfold word64. by rewrite decide_True. Qed.

(** The words of a block added to one half of the state. *)
Definition add_words (half : nat) (x b : list Z) : list Z :=
  if (half =? 0)%nat then zip_with Z.lxor (take 8 x) b ++ drop 8 x else take 8 x ++ zip_with Z.lxor (drop 8 x) b.

Lemma xor_block_words half x buffer :
  (half < 2)%nat -> length x = 16%nat -> length buffer = 64%nat -> xor_block half x buffer = Ok (add_words half x (le_words 8 buffer)).
Proof.
  intros Hh Hx Hb. apply sixteen in Hx as (? & ? & ? & ? & ? & ? & ? & ? & ? & ? & ? & ? & ? & ? & ? & ? & ->).
  unfold xor_block. cbn [for_]. rewrite !word64_ok by lia. set (w := fun i => le_val (take 8 (drop (8 * i) buffer))).
  change (le_words 8 buffer) with (w <$> seq 0 8). fold (w 0%nat) (w 1%nat) (w 2%nat) (w 3%nat) (w 4%nat) (w 5%nat) (w 6%nat) (w 7%nat). clearbody w.
  destruct half as [|[|half]]; [cbv -[Z.lxor]; reflexivity|cbv -[Z.lxor]; reflexivity|lia].
Qed.

Lemma add_words_rows half x buffer :
  (half < 2)%nat -> sound x -> bytes buffer -> length buffer = 64%nat ->
  let x' := add_words half x (le_words 8 buffer) in
  sound x' /\ rows x' = (if (half =? 0)%nat then zip_with xorb (rows x) (bits_of buffer) ++ drop 512 (rows x)
                         else take 512 (rows x) ++ zip_with xorb (drop 512 (rows x)) (bits_of buffer)).
Proof.
  intros Hh [Hx Hl] Hb Hlb x'.
  assert (length (le_words 8 buffer) = 8%nat) as Hw by done.
  assert (words (le_words 8 buffer)) as Ww.
  { apply Forall_fmap, Forall_forall. intros i Hi%in_seq. unfold compose. set (w := take 8 _).
    assert (length w = 8%nat) as Lw by (unfold w; rewrite length_take, length_drop; lia).
    assert (bytes w) as Bw by (by apply Forall_take, Forall_drop). pose proof (le_val_bound w Bw) as H. by rewrite Lw in H. }
  assert (forall a b, words a -> words b -> words (zip_with Z.lxor a b)) as Wz.
  { intros a b Ha. revert b. induction Ha as [|u a Hu Ha IH]; intros b Hb'; [constructor|]. destruct Hb' as [|v b Hv Hb']; [constructor|].
    cbn [zip_with]. apply List.Forall_cons; [by apply lxor_word|by apply IH]. }
  split.
  { split.
    - unfold x', add_words. destruct half as [|half]; cbn [Nat.eqb]; apply Forall_app; (split; [first [by apply Wz; [apply Forall_take|]|by apply Forall_take]|first [by apply Wz; [apply Forall_drop|]|by apply Forall_drop]]).
    - unfold x', add_words. destruct half as [|half]; cbn [Nat.eqb]; rewrite length_app, length_zip_with, length_take, length_drop, Hw; lia. }
  assert (forall p, (p < 1024)%nat -> xbit x' p = xorb (xbit x p) (if (p / 512 =? half)%nat then nth (p mod 512) (bits_of buffer) false else false)) as Hbit.
  { intros p Hp.
    assert (exists h q t, (h < 2 /\ q < 8 /\ t < 64 /\ p = 512 * h + 64 * q + t)%nat) as (h & q & t & Hhh & Hq & Ht & ->).
    { exists (p / 512)%nat, ((p mod 512) / 64)%nat, ((p mod 512) mod 64)%nat.
      pose proof (Nat.Div0.div_mod p 512). pose proof (Nat.mod_upper_bound p 512 ltac:(lia)).
      pose proof (Nat.Div0.div_mod (p mod 512) 64). pose proof (Nat.mod_upper_bound (p mod 512) 64 ltac:(lia)). lia. }
    replace ((512 * h + 64 * q + t) / 512)%nat with h by (apply (Nat.div_unique _ _ _ (64 * q + t)); lia).
    replace ((512 * h + 64 * q + t) mod 512)%nat with (64 * q + t)%nat by (apply (Nat.mod_unique _ _ h); lia).
    unfold xbit. replace ((512 * h + 64 * q + t) / 64)%nat with (8 * h + q)%nat by (apply (Nat.div_unique _ _ _ t); lia).
    replace ((512 * h + 64 * q + t) mod 64)%nat with t by (apply (Nat.mod_unique _ _ (8 * h + q)); lia).
    rewrite <- (le_words_bit 8) by (done || lia).
    replace ((64 * q + t) / 64)%nat with q by (apply (Nat.div_unique _ _ _ t); lia).
    replace ((64 * q + t) mod 64)%nat with t by (apply (Nat.mod_unique _ _ q); lia).
    assert (nth (8 * h + q) x' 0 = if (h =? half)%nat then Z.lxor (nth (8 * h + q) x 0) (nth q (le_words 8 buffer) 0) else nth (8 * h + q) x 0) as ->.
    { unfold x', add_words. apply sixteen in Hl as (? & ? & ? & ? & ? & ? & ? & ? & ? & ? & ? & ? & ? & ? & ? & ? & ->).
      unfold le_words. cbn [seq]. generalize (fun i => le_val (take 8 (drop (8 * i) buffer))) as w. intros w.
      destruct half as [|[|]], h as [|[|]]; try lia; do 8 (destruct q as [|q]; [reflexivity|]); lia. }
    destruct (h =? half)%nat; [by rewrite Z.lxor_spec|by rewrite xorb_false_r]. }
  assert (length (bits_of buffer) = 512%nat) as Lb by (rewrite bits_of_length; lia).
  destruct half as [|[|]]; [| |lia]; cbn [Nat.eqb]; apply (list_eq_nth false _ _ 1024); try done.
  - rewrite length_app, length_zip_with, length_drop, Lb. done.
  - intros p Hp. rewrite nth_rows, Hbit by done. destruct (decide (p < 512)%nat) as [H|H].
    + rewrite Nat.div_small, Nat.mod_small by done. cbn [Nat.eqb]. rewrite app_nth1 by (rewrite length_zip_with, Lb; done).
      by rewrite nth_zip_xorb, nth_rows by (rewrite ?Lb; done || lia).
    + replace (p / 512)%nat with 1%nat by (apply (Nat.div_unique _ _ _ (p - 512)); lia). cbn [Nat.eqb]. rewrite xorb_false_r.
      rewrite app_nth2 by (rewrite length_zip_with, Lb; lia). rewrite length_zip_with, Lb. change (length (rows x) `min` 512)%nat with 512%nat.
      rewrite nth_skipn, nth_rows by lia. f_equal. lia.
  - rewrite length_app, length_zip_with, length_take, length_drop, Lb. done.
  - intros p Hp. rewrite nth_rows, Hbit by done. destruct (decide (p < 512)%nat) as [H|H].
    + rewrite Nat.div_small by done. cbn [Nat.eqb]. rewrite app_nth1 by (rewrite length_take; unfold rows; rewrite length_fmap, length_seq; lia).
      rewrite nth_firstn. destruct (Nat.ltb_spec p 512); [|lia]. by rewrite xorb_false_r, nth_rows.
    + replace (p / 512)%nat with 1%nat by (apply (Nat.div_unique _ _ _ (p - 512)); lia). cbn [Nat.eqb].
      replace (p mod 512)%nat with (p - 512)%nat by (apply (Nat.mod_unique _ _ 1); lia).
      assert (length (take 512 (rows x)) = 512%nat) as Lt by done. rewrite app_nth2, Lt by (rewrite Lt; lia).
      assert (length (drop 512 (rows x)) = 512%nat) as Ld by done. rewrite nth_zip_xorb by (rewrite ?Ld, ?Lb; lia).
      rewrite nth_skipn, nth_rows by lia. do 2 f_equal. lia.
Qed.

#[local] Opaque JhSpec.E8 rows add_words.

Lemma F8_rows st :
  sound (jh_x st) -> bytes (jh_buffer st) -> length (jh_buffer st) = 64%nat ->
  returns (Jh.F8 st) (fun st' => exists x, st' = JH (hashbitlen st) (databitlen st) (datasize_in_buffer st) x (jh_buffer st) /\ sound x /\
    rows x = JhSpec.F8 (rows (jh_x st)) (bits_of (jh_buffer st))).
Proof.
  intros Hx Hb Hl. unfold Jh.F8. rewrite (xor_block_words 0 _ _ ltac:(lia) (proj2 Hx) Hl). cbn [bind].
  destruct (add_words_rows 0 (jh_x st) (jh_buffer st) ltac:(lia) Hx Hb Hl) as [H1 R1]. cbn [Nat.eqb] in R1.
  eapply returns_bind; [apply (E8_rows _ H1)|]. intros x2 [H2 R2]. rewrite (xor_block_words 1 x2 _ ltac:(lia) (proj2 H2) Hl). cbn [bind returns].
  destruct (add_words_rows 1 x2 (jh_buffer st) ltac:(lia) H2 Hb Hl) as [H3 R3]. cbn [Nat.eqb] in R3.
  eexists. split; [reflexivity|]. split; [exact H3|]. rewrite R3, R2, R1. reflexivity.
Qed.
