(* ===== verification/JhFacts.v ===== *)
(** * Correctness of JH

    The compression on words is that of [JhSpec]; here the input in pieces, the
    padding and the digests. *)

From stdpp Require Import base list numbers.
From Stdlib Require Import ZArith Lia.
From S2P Require Import Prelude Bytes Streaming Jh JhPermutation.

#[local] Opaque JhSpec.F8 rows.

(** ** Blocks *)

(** A state with the chain value [h] after [n] bytes, the last of which, [pend], are in the buffer. *)
Record jh_loaded (st : jh_state) (bitlen : Z) (h : list bool) (n : Z) (pend : list Z) : Prop := {
  jl_len : hashbitlen st = bitlen; jl_bits : databitlen st = u64 (8 * n); jl_sound : sound (jh_x st); jl_rows : rows (jh_x st) = h;
  jl_size : datasize_in_buffer st = 8 * Z.of_nat (length pend); jl_buffer : bytes (jh_buffer st) /\ length (jh_buffer st) = 64%nat;
  jl_pend : take (length pend) (jh_buffer st) = pend; jl_short : (length pend < 64)%nat }.

Lemma F8_block st h :
  sound (jh_x st) -> rows (jh_x st) = h -> bytes (jh_buffer st) -> length (jh_buffer st) = 64%nat ->
  exists x, Jh.F8 st = Ok (JH (hashbitlen st) (databitlen st) (datasize_in_buffer st) x (jh_buffer st)) /\ sound x /\
    rows x = JhSpec.F8 h (JhSpec.bits_of (jh_buffer st)).
Proof.
  intros Hx <- Hb Hl. destruct (proj1 (returns_inv _ _) (F8_rows st Hx Hb Hl)) as (st' & E & x & -> & Hs & R).
  exists x. exact (conj E (conj Hs R)).
Qed.

Lemma memcpy_bytes dst o src n dst' : bytes dst -> bytes src -> memcpy dst o src n = Ok dst' -> bytes dst'.
Proof.
  unfold memcpy. intros Hd Hs E. destruct (decide _); [|done]. injection E as <-.
  apply Forall_app. split; [by apply Forall_take|]. apply Forall_app. split; [by apply Forall_take|by apply Forall_drop].
Qed.

(** [memcpy] of a whole block. *)
Lemma memcpy_block dst src : length dst = 64%nat -> (64 <= length src)%nat -> memcpy dst 0 src 64 = Ok (take 64 src).
Proof. intros Hd Hs. rewrite memcpy_ok by lia. rewrite take_0, (drop_ge dst) by lia. by rewrite app_nil_r. Qed.

Lemma jh_blocks_spec k r st data bitlen h n :
  jh_loaded st bitlen h n [] -> bytes data -> (64 * k + r <= length data)%nat -> (r < 64)%nat ->
  returns (jh_blocks k st data (8 * Z.of_nat (64 * k + r))) (fun '(st', data', len) =>
    jh_loaded st' bitlen (JhSpec.chain k h data) n [] /\ data' = drop (64 * k) data /\ len = 8 * Z.of_nat r).
Proof.
  revert st data h. induction k as [|k IH]; intros st data h Hst Hb Hl Hr.
  - cbn [jh_blocks]. destruct (Z.leb_spec 512 (8 * Z.of_nat (64 * 0 + r))); [lia|]. cbn [returns JhSpec.chain]. rewrite Nat.mul_0_r, drop_0. exact (conj Hst (conj eq_refl eq_refl)).
  - cbn [jh_blocks]. destruct (Z.leb_spec 512 (8 * Z.of_nat (64 * S k + r))); [|lia]. destruct Hst as [E1 E2 E3 E4 E5 [E6 E7] E8 E9].
    rewrite memcpy_block by (done || lia). cbn [bind].
    destruct (F8_block (jh_set_buffer st (take 64 data) (datasize_in_buffer st)) h) as (x & -> & Hx & Rx); cbn [jh_set_buffer jh_x jh_buffer]; [assumption|assumption|by apply Forall_take|rewrite length_take; lia|].
    cbn [bind jh_set_buffer hashbitlen databitlen datasize_in_buffer jh_buffer] in *.
    replace (8 * Z.of_nat (64 * S k + r) - 512) with (8 * Z.of_nat (64 * k + r)) by lia.
    eapply returns_mono; [apply (IH _ (drop 64 data) (JhSpec.F8 h (JhSpec.bits_of (take 64 data))))|].
    + split; cbn [hashbitlen databitlen datasize_in_buffer jh_x jh_buffer length take]; try assumption; try reflexivity. split; [by apply Forall_take|rewrite length_take; lia].
    + by apply Forall_drop.
    + rewrite length_drop. lia.
    + done.
    + intros [[st' data'] len] (H1 & -> & ->). cbn [JhSpec.chain]. split; [assumption|]. split; [|reflexivity]. rewrite drop_drop. f_equal. lia.
Qed.

(** ** Pieces *)
Lemma land_low n k : 0 <= k -> Z.land n (2 ^ k - 1) = n mod 2 ^ k.
Proof. intros Hk. rewrite <- Z.land_ones by done. f_equal. rewrite Z.ones_equiv. lia. Qed.

Lemma land_7 L : Z.land (8 * L) 7 = 0.
Proof. change 7 with (2 ^ 3 - 1). rewrite land_low by lia. change (2 ^ 3) with 8. rewrite Z.mul_comm. by apply Z.mod_mul. Qed.

Lemma land_511 L : Z.land (8 * Z.of_nat L) 0x1ff = 8 * Z.of_nat (L mod 64).
Proof.
  change 0x1ff with (2 ^ 9 - 1). rewrite land_low by lia. change (2 ^ 9) with (8 * 64). rewrite Z.mul_mod_distr_l by lia.
  by rewrite Nat2Z.inj_mod.
Qed.

Lemma shiftr_3 z : Z.shiftr (8 * z) 3 = z.
Proof. rewrite Z.shiftr_div_pow2 by lia. change (2 ^ 3) with 8. rewrite Z.mul_comm. by apply Z.div_mul. Qed.

(** What an empty buffer makes of the rest of the input. *)
Definition jh_rest (st : jh_state) (data : list Z) (len : Z) : result jh_state :=
  let! (st, data, len) := jh_blocks (Z.to_nat (len / 512)) st data len in
  if 0 <? len then
    let n := Z.to_nat (Z.shiftr (Z.land len 0x1ff) 3) in
    let! buffer := memcpy (jh_buffer st) 0 data (if Z.land len 7 =? 0 then n else (n + 1)%nat) in
    Ok (jh_set_buffer st buffer len)
  else Ok st.

Lemma jh_rest_spec st data L bitlen h n :
  jh_loaded st bitlen h n [] -> bytes data -> (L <= length data)%nat ->
  let k := (L / 64)%nat in
  returns (jh_rest st data (8 * Z.of_nat L)) (fun st' => jh_loaded st' bitlen (JhSpec.chain k h data) n (take (L - 64 * k) (drop (64 * k) data))).
Proof.
  intros Hst Hb HL k. pose proof (Nat.Div0.div_mod L 64) as E. pose proof (Nat.mod_upper_bound L 64 ltac:(lia)) as Hr. fold k in E.
  set (r := (L mod 64)%nat) in *. clearbody k r. subst L. replace (64 * k + r - 64 * k)%nat with r by lia. unfold jh_rest.
  replace (Z.to_nat (8 * Z.of_nat (64 * k + r) / 512)) with k.
  2: { rewrite <- (Nat2Z.id k) at 1. f_equal. apply (Z.div_unique _ _ _ (8 * Z.of_nat r)); lia. }
  eapply returns_bind; [apply (jh_blocks_spec k r st data bitlen h n Hst Hb); lia|]. intros [[st' data'] len] (Hst' & -> & ->).
  destruct (Z.ltb_spec 0 (8 * Z.of_nat r)) as [H0|H0].
  - rewrite land_7, land_511, shiftr_3, Nat.mod_small, Nat2Z.id by lia. cbn [Z.eqb]. destruct Hst' as [E1 E2 E3 E4 E5 [E6 E7] E8 E9].
    destruct (memcpy_append (jh_buffer st') [] (drop (64 * k) data) r) as (b & Em & Lb & Tb); [done|cbn; lia|rewrite length_drop; lia|].
    cbn [length] in Em. rewrite Em. cbn [bind returns].
    assert (length (take r (drop (64 * k) data)) = r) as Lr by (rewrite length_take, length_drop; lia).
    split; cbn [jh_set_buffer hashbitlen databitlen datasize_in_buffer jh_x jh_buffer]; rewrite ?Lr; try assumption; [reflexivity|].
    split; [|lia]. eapply memcpy_bytes; [exact E6| |exact Em]. by apply Forall_drop.
  - assert (r = 0%nat) as -> by lia. cbn [returns]. rewrite take_0. exact Hst'.
Qed.

Lemma jh_chain_app k h a b : (64 * k <= length a)%nat -> JhSpec.chain k h (a ++ b) = JhSpec.chain k h a.
Proof.
  revert h a. induction k as [|k IH]; intros h a Hk; [reflexivity|]. cbn [JhSpec.chain].
  rewrite take_app_le, drop_app_le by lia. apply IH. rewrite length_drop. lia.
Qed.

Lemma jh_chain_take k h m L : (64 * k <= L)%nat -> (L <= length m)%nat -> JhSpec.chain k h m = JhSpec.chain k h (take L m).
Proof. intros Hk HL. rewrite <- (take_drop L m) at 1. apply jh_chain_app. rewrite length_take. lia. Qed.

Lemma jh_chain_add j k h m : JhSpec.chain (j + k) h m = JhSpec.chain k (JhSpec.chain j h m) (drop (64 * j) m).
Proof.
  revert h m. induction j as [|j IH]; intros h m; [by rewrite Nat.mul_0_r, drop_0|]. cbn [Nat.add JhSpec.chain].
  rewrite IH, drop_drop. do 2 f_equal. lia.
Qed.

(** What [Update] reads: with data in the buffer and too little input for a block, it copies up to the end of the
    block all the same. *)
Definition readable (p L avail : nat) : Prop := p = 0%nat \/ (64 <= p + L)%nat \/ (64 - p <= avail)%nat.

#[export] Instance readable_dec p L avail : Decision (readable p L avail) := _.

Definition counted (st : jh_state) (len : Z) : jh_state :=
  JH (hashbitlen st) (u64 (databitlen st + len)) (datasize_in_buffer st) (jh_x st) (jh_buffer st).

Lemma counted_loaded st bitlen h n pend L :
  jh_loaded st bitlen h n pend -> jh_loaded (counted st (8 * Z.of_nat L)) bitlen h (n + Z.of_nat L) pend.
Proof.
  intros [E1 E2 E3 E4 E5 E6 E7 E8]. split; cbn [counted hashbitlen databitlen datasize_in_buffer jh_x jh_buffer]; try assumption.
  rewrite E2. unfold u64. rewrite Zplus_mod_idemp_l. f_equal. lia.
Qed.

Lemma jh_Update_rest st data len :
  jh_Update st data len =
    (let! (st, len) := jh_short (counted st len) data len in
     let! (st, data, len) := jh_fill st data len in
     jh_rest st data len).
Proof. reflexivity. Qed.

(** Less than a block in all: the input goes to the buffer. *)
Lemma jh_short_spec c bitlen h n pend data L :
  jh_loaded c bitlen h n pend -> bytes data -> (L <= length data)%nat -> (0 < length pend)%nat -> (length pend + L < 64)%nat ->
  (64 - length pend <= length data)%nat ->
  returns (jh_short c data (8 * Z.of_nat L)) (fun '(st', len) => jh_loaded st' bitlen h n (pend ++ take L data) /\ len = 0).
Proof.
  intros [E1 E2 E3 E4 E5 [E6 E7] E8 E9] Hb HL H0 Hs Hr. unfold jh_short. rewrite E5, u64_small by lia.
  destruct (Z.ltb_spec 0 (8 * Z.of_nat (length pend))); [|lia].
  destruct (Z.ltb_spec (8 * Z.of_nat (length pend) + 8 * Z.of_nat L) 512); [|lia]. cbn [andb].
  rewrite land_7, shiftr_3, Nat2Z.id. cbn [Z.eqb].
  destruct (memcpy_append (jh_buffer c) pend data (64 - length pend) E8) as (b & Em & Lb & Tb); [lia|lia|].
  rewrite Em. cbn [bind returns]. split; [|reflexivity].
  assert (length (pend ++ take L data) = length pend + L)%nat as Ll by (rewrite length_app, length_take; lia).
  split; cbn [jh_set_buffer hashbitlen databitlen datasize_in_buffer jh_x jh_buffer]; rewrite ?Ll; try assumption; [lia| |].
  - split; [|lia]. eapply memcpy_bytes; [exact E6|exact Hb|exact Em].
  - replace (length pend + L)%nat with (Nat.min (length pend + L) (length pend + (64 - length pend))) by lia.
    rewrite <- take_take, Tb, take_app_ge, take_take by lia. do 2 f_equal. lia.
Qed.

(** A block in all: the buffer is filled and compressed. *)
Lemma jh_fill_spec c bitlen h n pend data L :
  jh_loaded c bitlen h n pend -> bytes data -> (L <= length data)%nat -> (0 < length pend)%nat -> (64 <= length pend + L)%nat ->
  8 * Z.of_nat (length pend + L) < 2 ^ 64 ->
  let f := (64 - length pend)%nat in
  returns (jh_fill c data (8 * Z.of_nat L)) (fun '(st', data', len) =>
    jh_loaded st' bitlen (JhSpec.F8 h (JhSpec.bits_of (pend ++ take f data))) n [] /\ data' = drop f data /\ len = 8 * Z.of_nat (L - f)).
Proof.
  intros [E1 E2 E3 E4 E5 [E6 E7] E8 E9] Hb HL H0 Hs Hlt f. unfold jh_fill. rewrite E5, u64_small by lia.
  destruct (Z.ltb_spec 0 (8 * Z.of_nat (length pend))); [|lia].
  destruct (Z.leb_spec 512 (8 * Z.of_nat (length pend) + 8 * Z.of_nat L)); [|lia]. cbn [andb]. rewrite shiftr_3, Nat2Z.id. fold f.
  destruct (memcpy_append (jh_buffer c) pend data f E8) as (b & Em & Lb & Tb); [lia|lia|].
  replace (length pend + f)%nat with 64%nat in Tb by lia. rewrite take_ge in Tb by lia. subst b.
  assert (bytes (pend ++ take f data)) as Bb by (eapply memcpy_bytes; [exact E6|exact Hb|exact Em]).
  rewrite Em. cbn [bind].
  destruct (F8_block (jh_set_buffer c (pend ++ take f data) (8 * Z.of_nat (length pend))) h) as (x & -> & Hx & Rx);
    cbn [jh_set_buffer jh_x jh_buffer]; [assumption|assumption|assumption|lia|].
  cbn [bind returns jh_set_buffer hashbitlen databitlen datasize_in_buffer jh_x jh_buffer] in *. split; [|split; [reflexivity|]].
  - split; cbn [jh_set_buffer hashbitlen databitlen datasize_in_buffer jh_x jh_buffer]; try assumption; try reflexivity; [|cbn; lia]. split; [assumption|rewrite Lb; exact E7].
  - rewrite u64_small by lia. lia.
Qed.

Lemma jh_short_skip c data len (pend : list Z) :
  datasize_in_buffer c = 8 * Z.of_nat (length pend) -> pend = [] \/ 512 <= u64 (8 * Z.of_nat (length pend) + len) -> jh_short c data len = Ok (c, len).
Proof.
  intros E H. unfold jh_short. rewrite E. destruct H as [-> | H]; [reflexivity|].
  destruct (Z.ltb_spec (u64 (8 * Z.of_nat (length pend) + len)) 512); [lia|]. by rewrite andb_false_r.
Qed.

Lemma jh_fill_skip c data len (pend : list Z) :
  datasize_in_buffer c = 8 * Z.of_nat (length pend) -> pend = [] \/ u64 (8 * Z.of_nat (length pend) + len) < 512 -> jh_fill c data len = Ok (c, data, len).
Proof.
  intros E H. unfold jh_fill. rewrite E. destruct H as [-> | H]; [reflexivity|].
  destruct (Z.leb_spec 512 (u64 (8 * Z.of_nat (length pend) + len))); [lia|]. by rewrite andb_false_r.
Qed.

Lemma jh_Update_step st bitlen h n pend data L :
  jh_loaded st bitlen h n pend -> bytes data -> (L <= length data)%nat -> 8 * Z.of_nat (length pend + L) < 2 ^ 64 ->
  readable (length pend) L (length data) ->
  let m := pend ++ take L data in let j := (length m / 64)%nat in
  returns (jh_Update st data (8 * Z.of_nat L)) (fun st' => jh_loaded st' bitlen (JhSpec.chain j h m) (n + Z.of_nat L) (drop (64 * j) m)).
Proof.
  intros Hst Hb HL Hlt Hread m j. rewrite jh_Update_rest. pose proof (counted_loaded st bitlen h n pend L Hst) as Hc. clear Hst.
  set (c := counted st (8 * Z.of_nat L)) in *. clearbody c. pose proof (jl_size _ _ _ _ _ Hc) as E5. pose proof (jl_short _ _ _ _ _ Hc) as E9.
  assert (length (take L data) = L) as LL by (rewrite length_take; lia). assert (length m = length pend + L)%nat as Lm by (unfold m; rewrite length_app; lia).
  destruct (decide (length pend = 0)%nat) as [Hp0|Hp0].
  - assert (pend = []) as -> by (by apply length_zero_iff_nil). cbn [app] in m. rewrite (jh_short_skip c data _ []) by (done || by left). cbn [bind].
    rewrite (jh_fill_skip c data _ []) by (done || by left). cbn [bind].
    eapply returns_mono; [apply (jh_rest_spec c data L bitlen h _ Hc Hb HL)|]. intros st' Hst'. unfold j, m. rewrite LL, skipn_firstn_comm.
    rewrite <- jh_chain_take; [exact Hst'| |lia]. pose proof (Nat.Div0.mul_div_le L 64). lia.
  - destruct (decide (length pend + L < 64)%nat) as [Hs|Hs].
    + eapply returns_bind; [apply (jh_short_spec c bitlen h _ pend data L Hc Hb HL); [lia|lia|destruct Hread as [?|[?|?]]; lia]|].
      intros [st' len] [Hst' ->]. fold m in Hst'. rewrite (jh_fill_skip st' data 0 m (jl_size _ _ _ _ _ Hst')) by (right; rewrite u64_small; lia). cbn [bind].
      assert (j = 0%nat) as -> by (apply Nat.div_small; lia). cbn. rewrite Z.mul_0_r || idtac. destruct data; exact Hst'.
    + rewrite (jh_short_skip c data _ pend E5) by (right; rewrite u64_small; lia). cbn [bind].
      set (f := (64 - length pend)%nat).
      eapply returns_bind; [apply (jh_fill_spec c bitlen h _ pend data L Hc Hb HL); lia|]. intros [[st' data'] len] (Hst' & -> & ->). fold f in Hst' |- *.
      eapply returns_mono; [apply (jh_rest_spec st' (drop f data) (L - f) bitlen _ _ Hst' ltac:(by apply Forall_drop)); rewrite length_drop; lia|].
      intros st'' Hst''. cbn beta in Hst''. set (k := ((L - f) / 64)%nat) in *.
      assert (64 * k <= L - f)%nat as Hk by (pose proof (Nat.Div0.mul_div_le (L - f) 64); unfold k; lia).
      assert (j = 1 + k)%nat as ->.
      { unfold j, k. replace (length m) with (1 * 64 + (L - f))%nat by lia. by rewrite Nat.div_add_l by lia. }
      rewrite jh_chain_add. cbn [JhSpec.chain]. change (64 * 1)%nat with 64%nat. unfold m. rewrite take_app_ge, drop_app_ge by lia. fold f.
      rewrite take_take, Nat.min_l by lia. replace (64 * (1 + k))%nat with (64 + 64 * k)%nat by lia.
      rewrite <- drop_drop, drop_app_ge by lia. fold f. rewrite !skipn_firstn_comm.
      rewrite <- jh_chain_take; [exact Hst''|lia|rewrite length_drop; lia].
Qed.

(** Data in the buffer and less than a block in all, at the end of the memory that can be read: the copy leaves it. *)
Lemma jh_Update_overread st bitlen h n pend data :
  jh_loaded st bitlen h n pend -> (0 < length pend)%nat -> (length pend + length data < 64)%nat ->
  jh_Update st data (8 * Z.of_nat (length data)) = Fail OutOfBounds.
Proof.
  intros Hst H0 Hs. rewrite jh_Update_rest. pose proof (counted_loaded st bitlen h n pend (length data) Hst) as Hc.
  set (c := counted st (8 * Z.of_nat (length data))) in *. clearbody c. destruct Hc as [E1 E2 E3 E4 E5 [E6 E7] E8 E9].
  unfold jh_short. rewrite E5, u64_small by lia. destruct (Z.ltb_spec 0 (8 * Z.of_nat (length pend))); [|lia].
  destruct (Z.ltb_spec (8 * Z.of_nat (length pend) + 8 * Z.of_nat (length data)) 512); [|lia]. cbn [andb].
  rewrite land_7, shiftr_3, Nat2Z.id. cbn [Z.eqb]. unfold memcpy. rewrite decide_False by lia. reflexivity.
Qed.

(** ** Messages *)
Definition jh_absorbed (bitlen : Z) (st : jh_state) (m : list Z) : Prop :=
  let k := (length m / 64)%nat in jh_loaded st bitlen (JhSpec.chain k (JhSpec.iv bitlen) m) (Z.of_nat (length m)) (drop (64 * k) m).

Definition supported (bitlen : Z) : Prop := bitlen = 224 \/ bitlen = 256 \/ bitlen = 384 \/ bitlen = 512.

#[local] Transparent JhSpec.F8 rows.
Lemma initial_values :
  forallb (fun '(n, h0) => bool_decide (rows (le_words 16 h0) = JhSpec.iv n /\ bytes h0 /\ length h0 = 128%nat))
    [(224, JH224_H0); (256, JH256_H0); (384, JH384_H0); (512, JH512_H0)] = true.
Proof. by vm_compute. Qed.
#[local] Opaque JhSpec.F8 rows JhSpec.iv.

Lemma initial_value n h0 :
  In (n, h0) [(224, JH224_H0); (256, JH256_H0); (384, JH384_H0); (512, JH512_H0)] -> sound (load_state h0) /\ rows (load_state h0) = JhSpec.iv n.
Proof.
  intros Hin. pose proof initial_values as H. rewrite forallb_forall in H. specialize (H _ Hin). cbv beta iota in H.
  apply bool_decide_eq_true in H as (R & Hb & Hl). split; [exact (proj1 (le_words_sound h0 Hb Hl))|exact R].
Qed.

Lemma jh_Init_spec bitlen x buffer :
  supported bitlen -> bytes buffer -> length buffer = 64%nat -> jh_absorbed bitlen (jh_Init x buffer bitlen) [].
Proof.
  intros Hn Hb Hl. unfold jh_absorbed. cbn [length Nat.div Nat.mul drop JhSpec.chain]. unfold jh_Init.
  assert (exists h0, In (bitlen, h0) [(224, JH224_H0); (256, JH256_H0); (384, JH384_H0); (512, JH512_H0)] /\
    (if bitlen =? 224 then load_state JH224_H0 else if bitlen =? 256 then load_state JH256_H0
     else if bitlen =? 384 then load_state JH384_H0 else if bitlen =? 512 then load_state JH512_H0 else x) = load_state h0) as (h0 & Hin & ->).
  { destruct Hn as [->|[->|[->| ->]]]; cbn [Z.eqb Pos.eqb]; eexists; (split; [|reflexivity]); cbn [In]; auto. }
  destruct (initial_value _ _ Hin) as [Hs Hr]. split; cbn [hashbitlen databitlen datasize_in_buffer jh_x jh_buffer]; try assumption; try reflexivity; [|cbn; lia]. by split.
Qed.

Lemma jh_absorbed_app bitlen st m d :
  let k := (length m / 64)%nat in let pend := drop (64 * k) m in let j := (length (pend ++ d) / 64)%nat in
  jh_loaded st bitlen (JhSpec.chain j (JhSpec.chain k (JhSpec.iv bitlen) m) (pend ++ d)) (Z.of_nat (length m) + Z.of_nat (length d)) (drop (64 * j) (pend ++ d)) ->
  jh_absorbed bitlen st (m ++ d).
Proof.
  intros k pend j Hl. unfold jh_absorbed. pose proof (Nat.Div0.div_mod (length m) 64) as E. fold k in E.
  pose proof (Nat.mod_upper_bound (length m) 64 ltac:(lia)).
  replace (length (m ++ d) / 64)%nat with (k + j)%nat.
  2: { subst j pend. rewrite !length_app, length_drop. rewrite <- Nat.div_add_l by lia. f_equal. lia. }
  rewrite jh_chain_add, jh_chain_app by lia. rewrite Nat.mul_add_distr_l, <- drop_drop. rewrite (drop_app_le m d) by lia.
  rewrite length_app, Nat2Z.inj_add. exact Hl.
Qed.

Lemma jh_Update_spec bitlen st m data L :
  jh_absorbed bitlen st m -> bytes data -> (L <= length data)%nat -> 8 * Z.of_nat (length m + L) < 2 ^ 64 ->
  readable (length m mod 64) L (length data) ->
  returns (jh_Update st data (8 * Z.of_nat L)) (fun st' => jh_absorbed bitlen st' (m ++ take L data)).
Proof.
  intros Hst Hb HL Hlt Hr. unfold jh_absorbed in Hst. pose proof (Nat.Div0.div_mod (length m) 64) as E. pose proof (Nat.mod_upper_bound (length m) 64 ltac:(lia)).
  assert (length (drop (64 * (length m / 64)) m) = length m mod 64)%nat as Lp by (rewrite length_drop; lia).
  eapply returns_mono; [apply (jh_Update_step st bitlen _ _ _ data L Hst Hb HL); rewrite Lp; [lia|exact Hr]|].
  intros st' Hst'. apply jh_absorbed_app. rewrite length_take, Nat.min_l by lia. exact Hst'.
Qed.

(** ** The end of the message *)
Lemma zero_loop k o (b : list Z) : (o + k <= length b)%nat -> for_ k (fun i b => set b i 0) o b = Ok (take o b ++ replicate k 0 ++ drop (o + k) b).
Proof.
  revert o b. induction k as [|k IH]; intros o b Hl; [by rewrite Nat.add_0_r, app_nil_l, take_drop|]. cbn [for_]. rewrite set_ok by lia. cbn [bind].
  rewrite IH by (rewrite length_insert; lia). f_equal. rewrite (take_S_r _ _ 0) by (apply list_lookup_insert_eq; lia).
  rewrite take_insert_ge, drop_insert_lt by lia. rewrite <- app_assoc. by replace (S o + k)%nat with (o + S k)%nat by lia.
Qed.

Lemma be_length v :
  be_bytes 8 v = [Z.land (Z.shiftr v 56) 0xff; Z.land (Z.shiftr v 48) 0xff; Z.land (Z.shiftr v 40) 0xff; Z.land (Z.shiftr v 32) 0xff;
    Z.land (Z.shiftr v 24) 0xff; Z.land (Z.shiftr v 16) 0xff; Z.land (Z.shiftr v 8) 0xff; Z.land v 0xff].
Proof.
  unfold be_bytes. rewrite le_bytes_alt. unfold bits. change 0xff with (Z.ones 8). rewrite !Z.land_ones by lia. replace (v mod 2 ^ 8) with (Z.shiftr v 0 mod 2 ^ 8) by (by rewrite Z.shiftr_0_r). reflexivity.
Qed.

Lemma store_length_spec v : store_length v (replicate 64 0) = Ok (replicate 56 0 ++ be_bytes 8 v).
Proof. rewrite be_length. cbv -[Z.land Z.shiftr]. reflexivity. Qed.

Lemma store_length_one v : store_length v (0x80 :: replicate 63 0) = Ok ([0x80] ++ replicate 55 0 ++ be_bytes 8 v).
Proof. rewrite be_length. cbv -[Z.land Z.shiftr]. reflexivity. Qed.

Lemma be_bytes_16 v : 0 <= v < 2 ^ 64 -> be_bytes 16 v = replicate 8 0 ++ be_bytes 8 v.
Proof.
  intros Hv. unfold be_bytes. assert (le_bytes 16 v = le_bytes 8 v ++ replicate 8 0) as ->; [|by rewrite reverse_app].
  apply le_val_inj; [apply le_bytes_bytes|apply Forall_app; split; [apply le_bytes_bytes|by apply Forall_replicate]|by rewrite length_app, !le_bytes_length|].
  rewrite le_val_app, !le_val_bytes, !Z.mod_small by (cbn; lia). cbn [replicate le_val]. lia.
Qed.

(** The digest, from the last state. *)
Definition digest (st : jh_state) : result (list Z) :=
  let s := jh_state_bytes (jh_x st) in
  if hashbitlen st =? 224 then memcpy (replicate 28 0) 0 (drop (64 + 36) s) 28
  else if hashbitlen st =? 256 then memcpy (replicate 32 0) 0 (drop (64 + 32) s) 32
  else if hashbitlen st =? 384 then memcpy (replicate 48 0) 0 (drop (64 + 16) s) 48
  else if hashbitlen st =? 512 then memcpy (replicate 64 0) 0 (drop 64 s) 64
  else Ok [].

Lemma bits_of_drop n s : JhSpec.bits_of (drop n s) = drop (8 * n) (JhSpec.bits_of s).
Proof.
  revert s. induction n as [|n IH]; intros s; [by rewrite Nat.mul_0_r, !drop_0|]. destruct s as [|b s]; [by rewrite !drop_nil|].
  cbn [drop]. rewrite IH. replace (8 * S n)%nat with (8 + 8 * n)%nat by lia. reflexivity.
Qed.

Lemma jh_digest_spec st : supported (hashbitlen st) -> sound (jh_x st) ->
  digest st = Ok (JhSpec.bytes_of (Z.to_nat (hashbitlen st / 8)) (drop (1024 - Z.to_nat (hashbitlen st)) (rows (jh_x st)))).
Proof.
  intros Hn Hs. destruct (state_bytes_rows _ Hs) as (Hb & Hl & R). unfold digest. set (s := jh_state_bytes (jh_x st)) in *. clearbody s.
  assert (forall n o, (o + n = 128)%nat -> memcpy (replicate n 0) 0 (drop o s) n = Ok (JhSpec.bytes_of n (drop (8 * o) (rows (jh_x st))))) as H.
  { intros n o Hno. rewrite memcpy_ok by (rewrite ?length_replicate, ?length_drop; lia). f_equal. rewrite take_0, (drop_ge (replicate n 0)) by (rewrite length_replicate; lia).
    rewrite app_nil_r, take_ge by (rewrite length_drop; lia). cbn [app].
    rewrite <- R, <- bits_of_drop. rewrite <- (bytes_of_bits (drop o s)) at 1 by (by apply Forall_drop). f_equal. rewrite length_drop. lia. }
  destruct Hn as [->|[->|[->| ->]]]; cbn [Z.eqb Pos.eqb].
  - exact (H 28 100 eq_refl)%nat.
  - exact (H 32 96 eq_refl)%nat.
  - exact (H 48 80 eq_refl)%nat.
  - exact (H 64 64 eq_refl)%nat.
Qed.

(** The chain value after the last blocks. *)
Lemma jh_pad_blocks bitlen m :
  let k := (length m / 64)%nat in let pend := drop (64 * k) m in let h := JhSpec.chain k (JhSpec.iv bitlen) m in
  8 * Z.of_nat (length m) < 2 ^ 64 ->
  JhSpec.chain (length (JhSpec.pad m) / 64) (JhSpec.iv bitlen) (JhSpec.pad m) =
    (if (length m mod 64 =? 0)%nat then JhSpec.F8 h (JhSpec.bits_of ([0x80] ++ replicate 55 0 ++ be_bytes 8 (8 * Z.of_nat (length m))))
     else JhSpec.F8 (JhSpec.F8 h (JhSpec.bits_of (pend ++ [0x80] ++ replicate (63 - length m mod 64) 0)))
       (JhSpec.bits_of (replicate 56 0 ++ be_bytes 8 (8 * Z.of_nat (length m))))).
Proof.
  intros k pend h Hlt. pose proof (Nat.Div0.div_mod (length m) 64) as E. pose proof (Nat.mod_upper_bound (length m) 64 ltac:(lia)) as Hr. fold k in E.
  set (r := (length m mod 64)%nat) in *. assert (length pend = r) as Lp by (unfold pend; rewrite length_drop; lia).
  assert (forall j tail, JhSpec.chain (k + j) (JhSpec.iv bitlen) (m ++ tail) = JhSpec.chain j h (pend ++ tail)) as Hchain.
  { intros j tail. rewrite jh_chain_add, jh_chain_app by lia. by rewrite (drop_app_le m tail) by lia. }
  unfold JhSpec.pad, JhSpec.zeros. fold r. rewrite be_bytes_16 by lia. set (len := be_bytes 8 (8 * Z.of_nat (length m))).
  assert (length len = 8%nat) as Ll by apply be_bytes_ok. clearbody len.
  destruct (Nat.eqb_spec r 0) as [H0|H0].
  - rewrite H0. change ((64 - 0) mod 64)%nat with 0%nat. rewrite !length_app, !length_replicate, Ll. cbn [length].
    replace ((length m + (1 + (47 + 0 + (8 + 8)))) / 64)%nat with (k + 1)%nat by (apply (Nat.div_unique _ _ _ 0); lia).
    rewrite Hchain. assert (pend = []) as -> by (apply length_zero_iff_nil; lia). cbn [app JhSpec.chain].
    rewrite (take_ge (128 :: _)) by (cbn [length]; rewrite !length_app, !length_replicate, Ll; lia). reflexivity.
  - rewrite (Nat.mod_small (64 - r)) by lia. rewrite !length_app, !length_replicate, Ll. cbn [length].
    replace ((length m + (1 + (47 + (64 - r) + (8 + 8)))) / 64)%nat with (k + 2)%nat by (apply (Nat.div_unique _ _ _ 0); lia).
    rewrite Hchain. cbn [JhSpec.chain].
    replace (pend ++ [128] ++ replicate (47 + (64 - r)) 0 ++ replicate 8 0 ++ len) with
      ((pend ++ [128] ++ replicate (63 - r) 0) ++ (replicate 56 0 ++ len)).
    2: { replace (47 + (64 - r))%nat with (63 - r + 48)%nat by lia. rewrite replicate_add. change (replicate 56 0) with (replicate 48 0 ++ replicate 8 0). by rewrite <- !app_assoc. }
    assert (length (pend ++ [128] ++ replicate (63 - r) 0) = 64%nat) as L1 by (rewrite !length_app, length_replicate; cbn [length]; lia).
    rewrite take_app_length', drop_app_length' by done. rewrite (take_ge (replicate 56 0 ++ len)) by (rewrite length_app, length_replicate, Ll; lia). reflexivity.
Qed.

Lemma jh_Final_spec bitlen st m :
  supported bitlen -> jh_absorbed bitlen st m -> bytes m -> 8 * Z.of_nat (length m) < 2 ^ 64 -> jh_Final st = Ok (JhSpec.hash bitlen m).
Proof.
  intros Hn Hst Hm Hlt. unfold jh_absorbed in Hst. unfold JhSpec.hash. rewrite jh_pad_blocks by done. cbv zeta.
  set (k := (length m / 64)%nat) in *. set (h := JhSpec.chain k (JhSpec.iv bitlen) m) in *. clearbody h.
  pose proof (Nat.Div0.div_mod (length m) 64) as E. pose proof (Nat.mod_upper_bound (length m) 64 ltac:(lia)) as Hr. fold k in E.
  set (pend := drop (64 * k) m) in *. set (r := (length m mod 64)%nat) in *. assert (length pend = r) as Lp by (unfold pend; rewrite length_drop; lia).
  assert (bytes pend) as Bp by (by apply Forall_drop).
  destruct Hst as [E1 E2 E3 E4 E5 [E6 E7] E8 E9]. rewrite u64_small in E2 by lia.
  assert (bytes (be_bytes 8 (8 * Z.of_nat (length m))) /\ length (be_bytes 8 (8 * Z.of_nat (length m))) = 8%nat) as [Bl Ll] by apply be_bytes_ok.
  unfold jh_Final. rewrite E2, land_511. fold r.
  destruct (Nat.eqb_spec r 0) as [H0|H0].
  - rewrite H0. cbn [Z.of_nat Z.mul Z.eqb]. rewrite set_ok by (cbn; lia). cbn [bind].
    change (<[0%nat:=128]> (replicate 64 0)) with (0x80 :: replicate 63 0). rewrite store_length_one. cbn [bind].
    set (block := [0x80] ++ replicate 55 0 ++ be_bytes 8 (8 * Z.of_nat (length m))).
    assert (bytes block) as Bb by (apply Forall_app; split; [by repeat constructor|apply Forall_app; split; [by apply Forall_replicate|done]]).
    assert (length block = 64%nat) as Lb by (unfold block; rewrite !length_app, length_replicate, Ll; done).
    destruct (F8_block (with_buffer st block) h E3 E4 Bb Lb) as (x & -> & Hx & Rx). cbn [bind with_buffer jh_set_buffer hashbitlen databitlen datasize_in_buffer jh_buffer] in *.
    pose proof (jh_digest_spec (JH (hashbitlen st) (databitlen st) (datasize_in_buffer st) x block)) as Hd. cbn [hashbitlen jh_x] in Hd.
    rewrite E1 in *. etransitivity; [exact (Hd Hn Hx)|]. rewrite Rx. reflexivity.
  - destruct (Z.eqb_spec (8 * Z.of_nat r) 0) as [|_]; [lia|]. rewrite E5, !land_7, shiftr_3, Nat2Z.id. cbn [Z.eqb].
    rewrite zero_loop by lia. cbn [bind]. rewrite (drop_ge (jh_buffer st)), app_nil_r by lia. rewrite Lp in E8. rewrite E8.
    assert (forall v, (pend ++ replicate (64 - r) 0) !! r = Some v -> v = 0) as Hv.
    { intros v. rewrite lookup_app_r, Lp, Nat.sub_diag by lia. destruct (64 - r)%nat eqn:E64; [lia|]. cbn. by intros [= <-]. }
    destruct (lookup_lt_is_Some_2 (pend ++ replicate (64 - r) 0) r) as [v Ev]; [rewrite length_app, length_replicate; lia|].
    rewrite (get_ok _ _ _ Ev). apply Hv in Ev as Hv0. subst v. cbn [bind]. rewrite Z.sub_0_r, set_ok by (rewrite length_app, length_replicate; lia). cbn [bind].
    change (u8 (Z.lor 0 (Z.shiftl 1 7))) with 128.
    assert (<[r:=128]> (pend ++ replicate (64 - r) 0) = pend ++ [0x80] ++ replicate (63 - r) 0) as ->.
    { rewrite insert_app_r_alt, Lp, Nat.sub_diag by lia. f_equal. replace (64 - r)%nat with (S (63 - r)) by lia. reflexivity. }
    set (block := pend ++ [0x80] ++ replicate (63 - r) 0).
    assert (bytes block) as Bb by (apply Forall_app; split; [done|apply Forall_app; split; [by repeat constructor|by apply Forall_replicate]]).
    assert (length block = 64%nat) as Lb by (unfold block; rewrite !length_app, length_replicate, Lp; cbn [length]; lia).
    set (block2 := replicate 56 0 ++ be_bytes 8 (8 * Z.of_nat (length m))).
    assert (bytes block2) as Bb2 by (apply Forall_app; split; [by apply Forall_replicate|done]).
    assert (length block2 = 64%nat) as Lb2 by (unfold block2; rewrite length_app, length_replicate, Ll; done).
    destruct (F8_block (with_buffer st block) h E3 E4 Bb Lb) as (x & -> & Hx & Rx). cbn [bind]. rewrite store_length_spec. cbn [bind]. fold block2.
    destruct (F8_block (with_buffer (JH (hashbitlen st) (databitlen st) (datasize_in_buffer st) x block) block2) _ Hx Rx Bb2 Lb2) as (y & Ey & Hy & Ry).
    cbn [with_buffer jh_set_buffer hashbitlen databitlen datasize_in_buffer jh_buffer jh_x] in *. rewrite Ey. cbn [bind].
    pose proof (jh_digest_spec (JH (hashbitlen st) (databitlen st) (datasize_in_buffer st) y block2)) as Hd. cbn [hashbitlen jh_x] in Hd.
    rewrite E1 in *. etransitivity; [exact (Hd Hn Hy)|]. rewrite Ry. reflexivity.
Qed.

Lemma supported_dec_true bitlen : supported bitlen -> (bitlen =? 224) || (bitlen =? 256) || (bitlen =? 384) || (bitlen =? 512) = true.
Proof. intros [->|[->|[->| ->]]]; reflexivity. Qed.

(** The whole hash, in one piece. *)
Lemma jh_hash_spec x buffer bitlen data :
  supported bitlen -> bytes buffer -> length buffer = 64%nat -> bytes data -> 8 * Z.of_nat (length data) < 2 ^ 64 ->
  jh_hash x buffer bitlen data (8 * Z.of_nat (length data)) = Ok (SUCCESS, JhSpec.hash bitlen data).
Proof.
  intros Hn Hb Hl Hd Hlt. unfold jh_hash. rewrite supported_dec_true by exact Hn. cbv zeta.
  pose proof (jh_Init_spec bitlen x buffer Hn Hb Hl) as Hi.
  destruct (proj1 (returns_inv _ _) (jh_Update_spec bitlen _ [] data (length data) Hi Hd ltac:(lia) ltac:(cbn [length Nat.add]; lia) ltac:(by left))) as (st & -> & Hst).
  cbn [bind app] in *. rewrite take_ge in Hst by lia. rewrite (jh_Final_spec bitlen st data Hn Hst Hd Hlt). reflexivity.
Qed.
