(* ===== verification/Skein.v ===== *)
(** * Skein

    [src/src/crypto/skein.c], [skein.h], [skein_port.h] and
    [hash-extra-skein.c], on a little-endian host and with the default switches:
    [SKEIN_ERR_CHECK] undefined (no assertions), [SKEIN_LOOP] 001 (the rounds of
    256 and 512 bits unrolled, those of 1024 bits in a loop).  The three copies
    of every function in the source differ in the number of words and in the
    round macros; here a [variant] holds the difference and each function is one
    definition, of which the copies are instances. *)

From stdpp Require Import base list numbers.
From Stdlib Require Import ZArith Lia.
From S2P Require Import Prelude Bytes Streaming.

(** ** Constants *)
Definition MK_64 (hi32 lo32 : Z) : Z := u64 (lo32 + u64 (Z.shiftl hi32 32)).

Definition SKEIN_T1_POS_BIT_PAD : Z := 119 - 64.
Definition SKEIN_T1_POS_BLK_TYPE : Z := 120 - 64.
Definition SKEIN_T1_POS_FIRST : Z := 126 - 64.
Definition SKEIN_T1_POS_FINAL : Z := 127 - 64.
Definition SKEIN_T1_FLAG_FIRST : Z := u64 (Z.shiftl 1 SKEIN_T1_POS_FIRST).
Definition SKEIN_T1_FLAG_FINAL : Z := u64 (Z.shiftl 1 SKEIN_T1_POS_FINAL).
Definition SKEIN_T1_FLAG_BIT_PAD : Z := u64 (Z.shiftl 1 SKEIN_T1_POS_BIT_PAD).
Definition SKEIN_BLK_TYPE_CFG : Z := 4.
Definition SKEIN_BLK_TYPE_MSG : Z := 48.
Definition SKEIN_BLK_TYPE_OUT : Z := 63.
Definition SKEIN_T1_BLK_TYPE (T : Z) : Z := u64 (Z.shiftl T SKEIN_T1_POS_BLK_TYPE).
Definition SKEIN_T1_BLK_TYPE_MSG : Z := SKEIN_T1_BLK_TYPE SKEIN_BLK_TYPE_MSG.
Definition SKEIN_T1_BLK_TYPE_CFG_FINAL : Z := Z.lor (SKEIN_T1_BLK_TYPE SKEIN_BLK_TYPE_CFG) SKEIN_T1_FLAG_FINAL.
Definition SKEIN_T1_BLK_TYPE_OUT_FINAL : Z := Z.lor (SKEIN_T1_BLK_TYPE SKEIN_BLK_TYPE_OUT) SKEIN_T1_FLAG_FINAL.
Definition SKEIN_VERSION : Z := 1.
Definition SKEIN_ID_STRING_LE : Z := 0x33414853.
Definition SKEIN_SCHEMA_VER : Z := MK_64 SKEIN_VERSION SKEIN_ID_STRING_LE.
Definition SKEIN_KS_PARITY : Z := MK_64 0x1BD11BDA 0xA9FC1A22.
Definition SKEIN_CFG_STR_LEN : Z := 4 * 8.
Definition SKEIN_CFG_TREE_INFO_SEQUENTIAL : Z := 0.

(** The initial values. *)
Definition SKEIN_256_IV_128 : list Z := [
  MK_64 0xE1111906 0x964D7260; MK_64 0x883DAAA7 0x7C8D811C; MK_64 0x10080DF4 0x91960F7A; MK_64 0xCCF7DDE5 0xB45BC1C2].

Definition SKEIN_256_IV_160 : list Z := [
  MK_64 0x14202314 0x72825E98; MK_64 0x2AC4E9A2 0x5A77E590; MK_64 0xD47A5856 0x8838D63E; MK_64 0x2DD2E496 0x8586AB7D].

Definition SKEIN_256_IV_224 : list Z := [
  MK_64 0xC6098A8C 0x9AE5EA0B; MK_64 0x876D5686 0x08C5191C; MK_64 0x99CB88D7 0xD7F53884; MK_64 0x384BDDB1 0xAEDDB5DE].

Definition SKEIN_256_IV_256 : list Z := [
  MK_64 0xFC9DA860 0xD048B449; MK_64 0x2FCA6647 0x9FA7D833; MK_64 0xB33BC389 0x6656840F; MK_64 0x6A54E920 0xFDE8DA69].

Definition SKEIN_512_IV_128 : list Z := [
  MK_64 0xA8BC7BF3 0x6FBF9F52; MK_64 0x1E9872CE 0xBD1AF0AA; MK_64 0x309B1790 0xB32190D3; MK_64 0xBCFBB854 0x3F94805C;
  MK_64 0x0DA61BCD 0x6E31B11B; MK_64 0x1A18EBEA 0xD46A32E3; MK_64 0xA2CC5B18 0xCE84AA82; MK_64 0x6982AB28 0x9D46982D].

Definition SKEIN_512_IV_160 : list Z := [
  MK_64 0x28B81A2A 0xE013BD91; MK_64 0xC2F11668 0xB5BDF78F; MK_64 0x1760D8F3 0xF6A56F12; MK_64 0x4FB74758 0x8239904F;
  MK_64 0x21EDE07F 0x7EAF5056; MK_64 0xD908922E 0x63ED70B8; MK_64 0xB8EC76FF 0xECCB52FA; MK_64 0x01A47BB8 0xA3F27A6E].

Definition SKEIN_512_IV_224 : list Z := [
  MK_64 0xCCD06162 0x48677224; MK_64 0xCBA65CF3 0xA92339EF; MK_64 0x8CCD69D6 0x52FF4B64; MK_64 0x398AED7B 0x3AB890B4;
  MK_64 0x0F59D1B1 0x457D2BD0; MK_64 0x6776FE65 0x75D4EB3D; MK_64 0x99FBC70E 0x997413E9; MK_64 0x9E2CFCCF 0xE1C41EF7].

Definition SKEIN_512_IV_256 : list Z := [
  MK_64 0xCCD044A1 0x2FDB3E13; MK_64 0xE8359030 0x1A79A9EB; MK_64 0x55AEA061 0x4F816E6F; MK_64 0x2A2767A4 0xAE9B94DB;
  MK_64 0xEC06025E 0x74DD7683; MK_64 0xE7A436CD 0xC4746251; MK_64 0xC36FBAF9 0x393AD185; MK_64 0x3EEDBA18 0x33EDFC13].

Definition SKEIN_512_IV_384 : list Z := [
  MK_64 0xA3F6C6BF 0x3A75EF5F; MK_64 0xB0FEF9CC 0xFD84FAA4; MK_64 0x9D77DD66 0x3D770CFE; MK_64 0xD798CBF3 0xB468FDDA;
  MK_64 0x1BC4A666 0x8A0E4465; MK_64 0x7ED7D434 0xE5807407; MK_64 0x548FC1AC 0xD4EC44D6; MK_64 0x266E1754 0x6AA18FF8].

Definition SKEIN_512_IV_512 : list Z := [
  MK_64 0x4903ADFF 0x749C51CE; MK_64 0x0D95DE39 0x9746DF03; MK_64 0x8FD19341 0x27C79BCE; MK_64 0x9A255629 0xFF352CB1;
  MK_64 0x5DB62599 0xDF6CA7B0; MK_64 0xEABE394C 0xA9D5C3F4; MK_64 0x991112C7 0x1A75B523; MK_64 0xAE18A40B 0x660FCC33].

Definition SKEIN1024_IV_384 : list Z := [
  MK_64 0x5102B6B8 0xC1894A35; MK_64 0xFEEBC9E3 0xFE8AF11A; MK_64 0x0C807F06 0xE32BED71; MK_64 0x60C13A52 0xB41A91F6;
  MK_64 0x9716D35D 0xD4917C38; MK_64 0xE780DF12 0x6FD31D3A; MK_64 0x797846B6 0xC898303A; MK_64 0xB172C2A8 0xB3572A3B;
  MK_64 0xC9BC8203 0xA6104A6C; MK_64 0x65909338 0xD75624F4; MK_64 0x94BCC568 0x4B3F81A0; MK_64 0x3EBBF51E 0x10ECFD46;
  MK_64 0x2DF50F0B 0xEEB08542; MK_64 0x3B5A6530 0x0DBC6516; MK_64 0x484B9CD2 0x167BBCE1; MK_64 0x2D136947 0xD4CBAFEA].

Definition SKEIN1024_IV_512 : list Z := [
  MK_64 0xCAEC0E5D 0x7C1B1B18; MK_64 0xA01B0E04 0x5F03E802; MK_64 0x33840451 0xED912885; MK_64 0x374AFB04 0xEAEC2E1C;
  MK_64 0xDF25A0E2 0x813581F7; MK_64 0xE4004093 0x8B12F9D2; MK_64 0xA662D539 0xC2ED39B6; MK_64 0xFA8B85CF 0x45D8C75A;
  MK_64 0x8316ED8E 0x29EDE796; MK_64 0x053289C0 0x2E9F91B8; MK_64 0xC3F8EF1D 0x6D518B73; MK_64 0xBDCEC3C4 0xD5EF332E;
  MK_64 0x549A7E52 0x22974487; MK_64 0x67070872 0x5B749816; MK_64 0xB9CD28FB 0xF0581BD1; MK_64 0x0E2940B8 0x15804974].

Definition SKEIN1024_IV_1024 : list Z := [
  MK_64 0xD593DA07 0x41E72355; MK_64 0x15B5E511 0xAC73E00C; MK_64 0x5180E5AE 0xBAF2C4F0; MK_64 0x03BD41D3 0xFCBCAFAF;
  MK_64 0x1CAEC6FD 0x1983A898; MK_64 0x6E510B8B 0xCDD0589F; MK_64 0x77E2BDFD 0xC6394ADA; MK_64 0xC11E1DB5 0x24DCB0A3;
  MK_64 0xD6D14AF9 0xC6329AB5; MK_64 0x6A9B0BFC 0x6EB67E0D; MK_64 0x9243C60D 0xCCFF1332; MK_64 0x1A1F1DDE 0x743F02D4;
  MK_64 0x0996753C 0x10ED0BB8; MK_64 0x6572DD22 0xF2B4969A; MK_64 0x61FD3062 0xD00A579A; MK_64 0x1DE0536E 0x8682E539].

(** The rotations [R_256_0_0] to [R1024_7_7]. *)
Definition R_256 : list (list Z) := [[14; 16]; [52; 57]; [23; 40]; [5; 37]; [25; 33]; [46; 12]; [58; 22]; [32; 32]].

Definition R_512 : list (list Z) := [
  [46; 36; 19; 37]; [33; 27; 14; 42]; [17; 49; 36; 39]; [44; 9; 54; 56];
  [39; 30; 34; 24]; [13; 50; 10; 17]; [25; 29; 39; 43]; [8; 35; 56; 22]].

Definition R1024 : list (list Z) := [
  [24; 13; 8; 47; 8; 17; 22; 37]; [38; 19; 10; 55; 49; 18; 23; 52]; [33; 4; 51; 13; 34; 41; 59; 17]; [5; 20; 48; 41; 47; 28; 16; 25];
  [41; 9; 37; 31; 12; 47; 44; 30]; [16; 34; 56; 51; 4; 53; 42; 41]; [31; 44; 47; 46; 19; 42; 44; 25]; [9; 48; 35; 52; 23; 31; 37; 20]].

(** The arguments [p0, p1, ...] of the calls of [R256_8_rounds], [R512_8_rounds] and [R1024_8_rounds]. *)
Definition R256_8_rounds : list (list nat) := [
  [0; 1; 2; 3]; [0; 3; 2; 1]; [0; 1; 2; 3]; [0; 3; 2; 1];
  [0; 1; 2; 3]; [0; 3; 2; 1]; [0; 1; 2; 3]; [0; 3; 2; 1]]%nat.

Definition R512_8_rounds : list (list nat) := [
  [0; 1; 2; 3; 4; 5; 6; 7]; [2; 1; 4; 7; 6; 5; 0; 3]; [4; 1; 6; 3; 0; 5; 2; 7]; [6; 1; 0; 7; 2; 5; 4; 3];
  [0; 1; 2; 3; 4; 5; 6; 7]; [2; 1; 4; 7; 6; 5; 0; 3]; [4; 1; 6; 3; 0; 5; 2; 7]; [6; 1; 0; 7; 2; 5; 4; 3]]%nat.

Definition R1024_8_rounds : list (list nat) := [
  [0; 1; 2; 3; 4; 5; 6; 7; 8; 9; 10; 11; 12; 13; 14; 15]; [0; 9; 2; 13; 6; 11; 4; 15; 10; 7; 12; 3; 14; 5; 8; 1];
  [0; 7; 2; 5; 4; 3; 6; 1; 12; 15; 14; 13; 8; 11; 10; 9]; [0; 15; 2; 11; 6; 13; 4; 9; 14; 1; 8; 5; 10; 3; 12; 7];
  [0; 1; 2; 3; 4; 5; 6; 7; 8; 9; 10; 11; 12; 13; 14; 15]; [0; 9; 2; 13; 6; 11; 4; 15; 10; 7; 12; 3; 14; 5; 8; 1];
  [0; 7; 2; 5; 4; 3; 6; 1; 12; 15; 14; 13; 8; 11; 10; 9]; [0; 15; 2; 11; 6; 13; 4; 9; 14; 1; 8; 5; 10; 3; 12; 7]]%nat.

(** ** The variants *)
Record variant := Variant {
  WCNT : nat; ROUNDS_TOTAL : nat; rotations : list (list Z); round_calls : list (list nat); looped : bool;
  precomputed : list (Z * list Z) }.

Definition skein256 : variant := Variant 4 72 R_256 R256_8_rounds false
  [(256, SKEIN_256_IV_256); (224, SKEIN_256_IV_224); (160, SKEIN_256_IV_160); (128, SKEIN_256_IV_128)].
Definition skein512 : variant := Variant 8 72 R_512 R512_8_rounds false
  [(512, SKEIN_512_IV_512); (384, SKEIN_512_IV_384); (256, SKEIN_512_IV_256); (224, SKEIN_512_IV_224)].
Definition skein1024 : variant := Variant 16 80 R1024 R1024_8_rounds true
  [(512, SKEIN1024_IV_512); (384, SKEIN1024_IV_384); (1024, SKEIN1024_IV_1024)].

(** [RCNT] and the size of a block in bytes *)
Definition RCNT (v : variant) : nat := ROUNDS_TOTAL v / 8.
Definition BLOCK_BYTES (v : variant) : nat := 8 * WCNT v.

(** ** The block function *)
Definition RotL_64 (x N : Z) : Z := Z.lor (u64 (Z.shiftl x N)) (Z.shiftr x (64 - N)).

(** [Round256], [Round512] and [Round1024] on the words [X0], [X1], ... *)
Fixpoint Round (p : list nat) (ROT : list Z) (X : list Z) : result (list Z) :=
  match p, ROT with
  | p0 :: p1 :: p, n :: ROT =>
      let! x0 := get X p0 in
      let! x1 := get X p1 in
      let x0 := u64 (x0 + x1) in
      let x1 := Z.lxor (RotL_64 x1 n) x0 in
      let! X := set X p0 x0 in
      let! X := set X p1 x1 in
      Round p ROT X
  | _, _ => Ok X
  end.

(** The words [KW_TWK_BASE] on of [kw] are the tweak [ts], those from [KW_KEY_BASE] on the key schedule [ks]. *)
Definition KW_TWK_BASE : nat := 0.
Definition KW_KEY_BASE : nat := 3.

(** [Xi += ks[k i]] for all words, with [+ ts[t0]], [+ ts[t1]] and [+ s] for the last three. *)
Definition add_key (v : variant) (kw : list Z) (k : nat -> nat) (t0 t1 : nat) (s : Z) (X : list Z) : result (list Z) :=
  for_ (WCNT v) (fun i X =>
    let! x := get X i in
    let! key := get kw (KW_KEY_BASE + k i) in
    let! extra :=
      if (i =? WCNT v - 3)%nat then get kw (KW_TWK_BASE + t0)
      else if (i =? WCNT v - 2)%nat then get kw (KW_TWK_BASE + t1)
      else if (i =? WCNT v - 1)%nat then Ok s
      else Ok 0 in
    set X i (u64 (x + u64 (key + extra)))) 0 X.

(** [I256(R)] and [I512(R)]: the schedule is indexed modulo its length. *)
Definition inject_unrolled (v : variant) (R : nat) (kw X : list Z) : result (list Z * list Z) :=
  let! X := add_key v kw (fun i => (R + 1 + i) mod (WCNT v + 1))%nat ((R + 1) mod 3) ((R + 2) mod 3) (Z.of_nat R + 1) X in
  Ok (kw, X).

(** [I1024(R)]: the schedule is rotated in the array, over the words used before. *)
Definition inject_looped (v : variant) (r R : nat) (kw X : list Z) : result (list Z * list Z) :=
  let! X := add_key v kw (fun i => (r + R + i)%nat) (r + R) (r + R + 1) (Z.of_nat (r + R)) X in
  let! k := get kw (KW_KEY_BASE + (r + R - 1)) in
  let! kw := set kw (KW_KEY_BASE + (r + R + WCNT v)) k in
  let! t := get kw (KW_TWK_BASE + (r + R - 1)) in
  let! kw := set kw (KW_TWK_BASE + (r + R + 2)) t in
  Ok (kw, X).

(** Four of the calls of the round macro, from the [n]th on. *)
Definition four_rounds (v : variant) (n : nat) (X : list Z) : result (list Z) :=
  for_ 4 (fun i X =>
    let! p := get (round_calls v) i in
    let! ROT := get (rotations v) i in
    Round p ROT X) n X.

(** [R512_8_rounds(R)] with the injection [I512]. *)
Definition eight_rounds (v : variant) (inject : nat -> list Z -> list Z -> result (list Z * list Z)) (R : nat) (st : list Z * list Z) : result (list Z * list Z) :=
  let '(kw, X) := st in
  let! X := four_rounds v 0 X in
  let! (kw, X) := inject (2 * R)%nat kw X in
  let! X := four_rounds v 4 X in
  inject (2 * R + 1)%nat kw X.

Definition all_rounds (v : variant) (st : list Z * list Z) : result (list Z * list Z) :=
  if looped v
  then for_ (RCNT v) (fun j st => let r := (1 + 2 * j)%nat in eight_rounds v (inject_looped v r) 0 st) 0 st
  else for_ (RCNT v) (fun R st => eight_rounds v (inject_unrolled v) R st) 0 st.

(** [Skein_Get64_LSB_First(w, blkPtr, WCNT)] *)
Definition Skein_Get64_LSB_First (src08 : list Z) (wCnt : nat) : result (list Z) :=
  if decide (8 * wCnt <= length src08)%nat
  then Ok ((fun i => le_val (take 8 (drop (8 * i) src08))) <$> seq 0 wCnt) else Fail OutOfBounds.

(** One pass of the loop of [Process_Block]: the schedule and the chaining variables. *)
Definition block_step (v : variant) (byteCntAdd : Z) (blkPtr kw X : list Z) : result (list Z * list Z) :=
  let! t0 := get kw KW_TWK_BASE in
  let! kw := set kw KW_TWK_BASE (u64 (t0 + byteCntAdd)) in
  let! kw := for_ (WCNT v) (fun i kw => let! x := get X i in set kw (KW_KEY_BASE + i) x) 0 kw in
  let! parity := for_ (WCNT v) (fun i p => let! k := get kw (KW_KEY_BASE + i) in Ok (Z.lxor p k)) 0 0 in
  let! kw := set kw (KW_KEY_BASE + WCNT v) (Z.lxor parity SKEIN_KS_PARITY) in
  let! t0 := get kw KW_TWK_BASE in
  let! t1 := get kw (KW_TWK_BASE + 1) in
  let! kw := set kw (KW_TWK_BASE + 2) (Z.lxor t0 t1) in
  let! w := Skein_Get64_LSB_First blkPtr (WCNT v) in
  let! Y := add_key v kw (fun i => i) 0 1 0 w in
  let! (kw, Y) := all_rounds v (kw, Y) in
  let! X := for_ (WCNT v) (fun i X =>
    let! y := get Y i in
    let! m := get w i in
    set X i (Z.lxor y m)) 0 X in
  let! t1 := get kw (KW_TWK_BASE + 1) in
  let! kw := set kw (KW_TWK_BASE + 1) (Z.land t1 (u64 (Z.lnot SKEIN_T1_FLAG_FIRST))) in
  Ok (kw, X).

(** The loop, for [n + 1] blocks. *)
Fixpoint block_loop (v : variant) (byteCntAdd : Z) (n : nat) (blkPtr kw X : list Z) : result (list Z * list Z) :=
  let! (kw, X) := block_step v byteCntAdd blkPtr kw X in
  match n with
  | O => Ok (kw, X)
  | S n => block_loop v byteCntAdd n (drop (BLOCK_BYTES v) blkPtr) kw X
  end.

(** ** The context *)
Record skein_ctxt := Ctxt { h_hashBitLen : Z; h_bCnt : Z; h_T0 : Z; h_T1 : Z; ctx_X : list Z; ctx_b : list Z }.

Definition set_hashBitLen (ctx : skein_ctxt) (n : Z) := Ctxt n (h_bCnt ctx) (h_T0 ctx) (h_T1 ctx) (ctx_X ctx) (ctx_b ctx).
Definition set_T1 (ctx : skein_ctxt) (T1 : Z) := Ctxt (h_hashBitLen ctx) (h_bCnt ctx) (h_T0 ctx) T1 (ctx_X ctx) (ctx_b ctx).
Definition set_X (ctx : skein_ctxt) (X : list Z) := Ctxt (h_hashBitLen ctx) (h_bCnt ctx) (h_T0 ctx) (h_T1 ctx) X (ctx_b ctx).
Definition set_b (ctx : skein_ctxt) (b : list Z) (bCnt : Z) := Ctxt (h_hashBitLen ctx) bCnt (h_T0 ctx) (h_T1 ctx) (ctx_X ctx) b.

Definition Skein_Start_New_Type (ctx : skein_ctxt) (BLK_TYPE : Z) : skein_ctxt :=
  Ctxt (h_hashBitLen ctx) 0 0 (Z.lor SKEIN_T1_FLAG_FIRST BLK_TYPE) (ctx_X ctx) (ctx_b ctx).

(** The words of [kw] are written before they are read. *)
Definition Process_Block (v : variant) (ctx : skein_ctxt) (blkPtr : list Z) (blkCnt byteCntAdd : Z) : result skein_ctxt :=
  let kw := replicate (WCNT v + 4 + if looped v then 2 * RCNT v else 0) 0 in
  let! kw := set kw KW_TWK_BASE (h_T0 ctx) in
  let! kw := set kw (KW_TWK_BASE + 1) (h_T1 ctx) in
  let! (kw, X) := block_loop v byteCntAdd (Z.to_nat (u64 (blkCnt - 1))) blkPtr kw (ctx_X ctx) in
  let! T0 := get kw KW_TWK_BASE in
  let! T1 := get kw (KW_TWK_BASE + 1) in
  Ok (Ctxt (h_hashBitLen ctx) (h_bCnt ctx) T0 T1 X (ctx_b ctx)).

(** The configuration block [cfg]. *)
Definition cfg_block (v : variant) (hashBitLen : Z) : list Z :=
  concat (le_bytes 8 <$> [SKEIN_SCHEMA_VER; hashBitLen; SKEIN_CFG_TREE_INFO_SEQUENTIAL] ++ replicate (WCNT v - 3) 0).

(** The [switch] over [hashBitLen]. *)
Definition initial_X (v : variant) (hashBitLen : Z) : option (list Z) := snd <$> find (fun p => fst p =? hashBitLen) (precomputed v).

Definition Skein_Init (v : variant) (ctx : skein_ctxt) (hashBitLen : Z) : result skein_ctxt :=
  let ctx := set_hashBitLen ctx hashBitLen in
  let! ctx :=
    match initial_X v hashBitLen with
    | Some X => Ok (set_X ctx X)
    | None =>
        let ctx := Skein_Start_New_Type ctx SKEIN_T1_BLK_TYPE_CFG_FINAL in
        let ctx := set_X ctx (replicate (WCNT v) 0) in
        Process_Block v ctx (cfg_block v hashBitLen) 1 SKEIN_CFG_STR_LEN
    end in
  Ok (Skein_Start_New_Type ctx SKEIN_T1_BLK_TYPE_MSG).

(** Buffered data is completed to a block: the context and what is left of the input. *)
Definition finish_buffer (v : variant) (ctx : skein_ctxt) (msg : list Z) (msgByteCnt : Z) : result (skein_ctxt * list Z * Z) :=
  let BYTES := Z.of_nat (BLOCK_BYTES v) in
  if negb (h_bCnt ctx =? 0) then
    let n := u64 (BYTES - h_bCnt ctx) in
    let! (ctx, msg, msgByteCnt) :=
      if negb (n =? 0) then
        let! b := memcpy (ctx_b ctx) (Z.to_nat (h_bCnt ctx)) msg (Z.to_nat n) in
        Ok (set_b ctx b (u64 (h_bCnt ctx + n)), drop (Z.to_nat n) msg, u64 (msgByteCnt - n))
      else Ok (ctx, msg, msgByteCnt) in
    let! ctx := Process_Block v ctx (ctx_b ctx) 1 BYTES in
    Ok (set_b ctx (ctx_b ctx) 0, msg, msgByteCnt)
  else Ok (ctx, msg, msgByteCnt).

(** The full blocks of the input, but not the last one. *)
Definition direct_blocks (v : variant) (ctx : skein_ctxt) (msg : list Z) (msgByteCnt : Z) : result (skein_ctxt * list Z * Z) :=
  let BYTES := Z.of_nat (BLOCK_BYTES v) in
  if BYTES <? msgByteCnt then
    let n := (msgByteCnt - 1) / BYTES in
    let! ctx := Process_Block v ctx msg n BYTES in
    Ok (ctx, drop (Z.to_nat (n * BYTES)) msg, u64 (msgByteCnt - n * BYTES))
  else Ok (ctx, msg, msgByteCnt).

Definition Skein_Update (v : variant) (ctx : skein_ctxt) (msg : list Z) (msgByteCnt : Z) : result skein_ctxt :=
  let! (ctx, msg, msgByteCnt) :=
    if Z.of_nat (BLOCK_BYTES v) <? u64 (msgByteCnt + h_bCnt ctx) then
      let! (ctx, msg, msgByteCnt) := finish_buffer v ctx msg msgByteCnt in
      direct_blocks v ctx msg msgByteCnt
    else Ok (ctx, msg, msgByteCnt) in
  if negb (msgByteCnt =? 0) then
    let! b := memcpy (ctx_b ctx) (Z.to_nat (h_bCnt ctx)) msg (Z.to_nat msgByteCnt) in
    Ok (set_b ctx b (u64 (h_bCnt ctx + msgByteCnt)))
  else Ok ctx.

(** [Skein_Put64_LSB_First(dst, src, bCnt)]: the bytes written. *)
Definition Skein_Put64_LSB_First (src64 : list Z) (bCnt : nat) : result (list Z) :=
  let s := concat (le_bytes 8 <$> src64) in
  if decide (bCnt <= length s)%nat then Ok (take bCnt s) else Fail OutOfBounds.

(** The loop of [Final] from [i] on; [X] is the copy of the chaining variables, the result the bytes written from there. *)
Fixpoint output_loop (v : variant) (fuel : nat) (ctx : skein_ctxt) (X : list Z) (byteCnt i : Z) : result (list Z) :=
  let BYTES := Z.of_nat (BLOCK_BYTES v) in
  if i * BYTES <? byteCnt then
    match fuel with
    | O => Fail OutOfFuel
    | S fuel =>
        let! b := memcpy (ctx_b ctx) 0 (le_bytes 8 i) 8 in
        let ctx := Skein_Start_New_Type (set_b ctx b (h_bCnt ctx)) SKEIN_T1_BLK_TYPE_OUT_FINAL in
        let! ctx := Process_Block v ctx (ctx_b ctx) 1 8 in
        let n := byteCnt - i * BYTES in
        let n := if BYTES <=? n then BYTES else n in
        let! out := Skein_Put64_LSB_First (ctx_X ctx) (Z.to_nat n) in
        let! rest := output_loop v fuel (set_X ctx X) X byteCnt (i + 1) in
        Ok (out ++ rest)
    end
  else Ok [].

(** [memset(&b[bCnt], 0, BLOCK_BYTES - bCnt)] when there is room *)
Definition zero_pad (v : variant) (b : list Z) (bCnt : Z) : result (list Z) :=
  if bCnt <? Z.of_nat (BLOCK_BYTES v) then
    let n := (BLOCK_BYTES v - Z.to_nat bCnt)%nat in
    memcpy b (Z.to_nat bCnt) (replicate n 0) n
  else Ok b.

(** The bytes written to [hashVal]. *)
Definition Skein_Final (v : variant) (ctx : skein_ctxt) : result (list Z) :=
  let ctx := set_T1 ctx (Z.lor (h_T1 ctx) SKEIN_T1_FLAG_FINAL) in
  let! b := zero_pad v (ctx_b ctx) (h_bCnt ctx) in
  let ctx := set_b ctx b (h_bCnt ctx) in
  let! ctx := Process_Block v ctx (ctx_b ctx) 1 (h_bCnt ctx) in
  let byteCnt := Z.shiftr (u64 (h_hashBitLen ctx + 7)) 3 in
  let ctx := set_b ctx (replicate (BLOCK_BYTES v) 0) (h_bCnt ctx) in
  output_loop v (Z.to_nat (byteCnt / Z.of_nat (BLOCK_BYTES v) + 1)) ctx (ctx_X ctx) byteCnt 0.

(** The copies. *)
Definition Skein_256_Process_Block := Process_Block skein256.
Definition Skein_512_Process_Block := Process_Block skein512.
Definition Skein1024_Process_Block := Process_Block skein1024.
Definition Skein_512_Init := Skein_Init skein512.
Definition Skein1024_Init := Skein_Init skein1024.
Definition Skein_256_Update := Skein_Update skein256.
Definition Skein_512_Update := Skein_Update skein512.
Definition Skein1024_Update := Skein_Update skein1024.
Definition Skein_256_Final := Skein_Final skein256.
Definition Skein_512_Final := Skein_Final skein512.
Definition Skein1024_Final := Skein_Final skein1024.

(** ** The interface in bits *)
Inductive skein_HashReturn := SKEIN_SUCCESS | SKEIN_FAIL | SKEIN_BAD_HASHLEN.

(** The union: the member that [statebits] selects. *)
Record skein_state := SkeinState { statebits : Z; ctx_u : skein_ctxt }.

Definition skein_init (u : skein_ctxt) (hashbitlen : Z) : result (skein_HashReturn * skein_state) :=
  if hashbitlen <=? 512 then
    let! ctx := Skein_512_Init u (u64 hashbitlen) in
    Ok (SKEIN_SUCCESS, SkeinState (64 * 8) ctx)
  else
    let! ctx := Skein1024_Init u (u64 hashbitlen) in
    Ok (SKEIN_SUCCESS, SkeinState (64 * 16) ctx).

(** [switch ((statebits >> 8) & 3)] over the three members *)
Definition select_update (statebits : Z) : option (skein_ctxt -> list Z -> Z -> result skein_ctxt) :=
  let k := Z.land (Z.shiftr statebits 8) 3 in
  if k =? 2 then Some Skein_512_Update
  else if k =? 1 then Some Skein_256_Update
  else if k =? 0 then Some Skein1024_Update
  else None.

Definition skein_update (st : skein_state) (data : list Z) (databitlen : Z) : result (skein_HashReturn * skein_state) :=
  if Z.land databitlen 7 =? 0 then
    match select_update (statebits st) with
    | Some update =>
        let! ctx := update (ctx_u st) data (Z.shiftr databitlen 3) in
        Ok (SKEIN_SUCCESS, SkeinState (statebits st) ctx)
    | None => Ok (SKEIN_FAIL, st)
    end
  else
    let bCnt := Z.shiftr databitlen 3 + 1 in
    let mask := u8 (Z.shiftl 1 (7 - Z.land databitlen 7)) in
    let! last := get data (Z.to_nat (bCnt - 1)) in
    let b := u8 (Z.lor (Z.land last (0 - mask)) mask) in
    match select_update (statebits st) with
    | Some update =>
        let! ctx := update (ctx_u st) data (bCnt - 1) in
        let! ctx := update ctx [b] 1 in
        Ok (SKEIN_SUCCESS, SkeinState (statebits st) (set_T1 ctx (Z.lor (h_T1 ctx) SKEIN_T1_FLAG_BIT_PAD)))
    | None => Ok (SKEIN_FAIL, st)
    end.

Definition skein_final (st : skein_state) : result (skein_HashReturn * list Z) :=
  let k := Z.land (Z.shiftr (statebits st) 8) 3 in
  if k =? 2 then let! h := Skein_512_Final (ctx_u st) in Ok (SKEIN_SUCCESS, h)
  else if k =? 1 then let! h := Skein_256_Final (ctx_u st) in Ok (SKEIN_SUCCESS, h)
  else if k =? 0 then let! h := Skein1024_Final (ctx_u st) in Ok (SKEIN_SUCCESS, h)
  else Ok (SKEIN_FAIL, []).

(** [u] is what the union of the local state holds; the result and the bytes written. *)
Definition skein_hash (u : skein_ctxt) (hashbitlen : Z) (data : list Z) (databitlen : Z) : result (skein_HashReturn * list Z) :=
  let! (r, st) := skein_init u hashbitlen in
  match r with
  | SKEIN_SUCCESS =>
      let! (r, st) := skein_update st data databitlen in
      let! (_, hashval) := skein_final st in
      Ok (r, hashval)
  | _ => Ok (r, [])
  end.

(** [hash_extra_skein] of [hash-extra-skein.c] *)
Definition hash_extra_skein (ndebug : bool) (u : skein_ctxt) (data : list Z) (length : Z) : result (list Z) :=
  let! (r, hash) := skein_hash u (8 * 32) data (u64 (8 * length)) in
  let! _ := c_assert ndebug (Ok (match r with SKEIN_SUCCESS => true | _ => false end)) in
  Ok hash.
