(* ===== verification/SkeinBlock.v ===== *)
(** * The Skein block function

    The specification of Skein ([SkeinSpec]: Threefish, the UBI chaining and the
    hash, as in the submission to the SHA-3 competition, version 1.3), and the
    proof that the unrolled and the looped code of [Skein] compute its block
    function. *)

From stdpp Require Import base list numbers.
From Stdlib Require Import ZArith Lia.
From S2P Require Import Prelude Bytes Streaming Skein.

Module SkeinSpec.
(** ** Threefish *)
Record threefish := Threefish { Nw : nat; Nr : nat; rotation : list (list Z); pi : list nat }.

Definition tf256 : threefish := Threefish 4 72
  [[14; 16]; [52; 57]; [23; 40]; [5; 37]; [25; 33]; [46; 12]; [58; 22]; [32; 32]] [0; 3; 2; 1]%nat.
Definition tf512 : threefish := Threefish 8 72
  [[46; 36; 19; 37]; [33; 27; 14; 42]; [17; 49; 36; 39]; [44; 9; 54; 56];
   [39; 30; 34; 24]; [13; 50; 10; 17]; [25; 29; 39; 43]; [8; 35; 56; 22]] [2; 1; 4; 7; 6; 5; 0; 3]%nat.
Definition tf1024 : threefish := Threefish 16 80
  [[24; 13; 8; 47; 8; 17; 22; 37]; [38; 19; 10; 55; 49; 18; 23; 52]; [33; 4; 51; 13; 34; 41; 59; 17]; [5; 20; 48; 41; 47; 28; 16; 25];
   [41; 9; 37; 31; 12; 47; 44; 30]; [16; 34; 56; 51; 4; 53; 42; 41]; [31; 44; 47; 46; 19; 42; 44; 25]; [9; 48; 35; 52; 23; 31; 37; 20]]
  [0; 9; 2; 13; 6; 11; 4; 15; 10; 7; 12; 3; 14; 5; 8; 1]%nat.

Definition add64 (x y : Z) : Z := (x + y) mod 2 ^ 64.
Definition rotl (x n : Z) : Z := Z.lor (x * 2 ^ n mod 2 ^ 64) (x / 2 ^ (64 - n)).

(** The [n]th word. *)
Definition word (s : list Z) (n : nat) : Z := nth n s 0.

Fixpoint mix (r v : list Z) : list Z :=
  match v, r with
  | x0 :: x1 :: v, n :: r => let y0 := add64 x0 x1 in y0 :: Z.lxor (rotl x1 n) y0 :: mix r v
  | _, _ => []
  end.

Definition permute (p : list nat) (v : list Z) : list Z := word v <$> p.

Definition C240 : Z := 0x1BD11BDAA9FC1A22.
Definition key_words (K : list Z) : list Z := K ++ [foldl Z.lxor C240 K].
Definition tweak_words (T : Z * Z) : list Z := [T.1; T.2; Z.lxor T.1 T.2].

(** The [i]th word of the [s]th subkey. *)
Definition subkey (tf : threefish) (K : list Z) (T : Z * Z) (s i : nat) : Z :=
  let k := word (key_words K) ((s + i) mod (Nw tf + 1)) in
  if (i =? Nw tf - 3)%nat then add64 k (word (tweak_words T) (s mod 3))
  else if (i =? Nw tf - 2)%nat then add64 k (word (tweak_words T) ((s + 1) mod 3))
  else if (i =? Nw tf - 1)%nat then add64 k (Z.of_nat s)
  else k.

Definition inject (tf : threefish) (K : list Z) (T : Z * Z) (s : nat) (v : list Z) : list Z :=
  imap (fun i x => add64 x (subkey tf K T s i)) v.

Definition mix_round (tf : threefish) (d : nat) (v : list Z) : list Z :=
  permute (pi tf) (mix (nth (d mod 8) (rotation tf) []) v).

Definition round (tf : threefish) (K : list Z) (T : Z * Z) (v : list Z) (d : nat) : list Z :=
  mix_round tf d (if (d mod 4 =? 0)%nat then inject tf K T (d / 4) v else v).

Definition encrypt (tf : threefish) (K : list Z) (T : Z * Z) (P : list Z) : list Z :=
  inject tf K T (Nr tf / 4) (foldl (round tf K T) P (seq 0 (Nr tf))).

(** ** Unique block iteration *)
Definition Nb (tf : threefish) : nat := 8 * Nw tf.

Definition to_words (n : nat) (s : list Z) : list Z := (fun i => le_val (take 8 (drop (8 * i) s))) <$> seq 0 n.

Definition compress (tf : threefish) (G : list Z) (T : Z * Z) (M : list Z) : list Z :=
  let P := to_words (Nw tf) M in zip_with Z.lxor (encrypt tf G T P) P.

(** The tweak of a block: the position, the type, and the flags for a padded last byte, the first and the last block. *)
Definition tweak (position type : Z) (pad first final : bool) : Z * Z :=
  let T := position + Z.b2z pad * 2 ^ 119 + type * 2 ^ 120 + Z.b2z first * 2 ^ 126 + Z.b2z final * 2 ^ 127 in
  (T mod 2 ^ 64, T / 2 ^ 64).

(** The [i]th block of a message, and the number of blocks. *)
Definition block (tf : threefish) (M : list Z) (i : nat) : list Z :=
  let b := take (Nb tf) (drop (Nb tf * i) M) in b ++ replicate (Nb tf - length b) 0.
Definition block_count (tf : threefish) (M : list Z) : nat := Nat.max 1 ((length M + Nb tf - 1) / Nb tf).

Definition ubi_step (tf : threefish) (type : Z) (pad : bool) (M G : list Z) (i : nat) : list Z :=
  let final := (i + 1 =? block_count tf M)%nat in
  compress tf G (tweak (Z.of_nat (Nat.min (length M) (Nb tf * (i + 1)))) type (pad && final) (i =? 0)%nat final) (block tf M i).

Definition ubi (tf : threefish) (type : Z) (pad : bool) (G M : list Z) : list Z :=
  foldl (ubi_step tf type pad M) G (seq 0 (block_count tf M)).

(** ** The hash *)
Definition type_cfg : Z := 4.
Definition type_msg : Z := 48.
Definition type_out : Z := 63.

(** "SHA3", version 1, the output length in bits, no tree. *)
Definition config_string (No : Z) : list Z := [0x53; 0x48; 0x41; 0x33] ++ le_bytes 2 1 ++ [0; 0] ++ le_bytes 8 No ++ replicate 16 0.

Definition initial (tf : threefish) (No : Z) : list Z := ubi tf type_cfg false (replicate (Nw tf) 0) (config_string No).

Definition of_words (s : list Z) : list Z := concat (le_bytes 8 <$> s).

Definition output (tf : threefish) (No : Z) (G : list Z) : list Z :=
  let n := Z.to_nat ((No + 7) / 8) in
  take n (concat ((fun i => of_words (ubi tf type_out false G (le_bytes 8 (Z.of_nat i)))) <$> seq 0 ((n + Nb tf - 1) / Nb tf))).

(** The first [n] bits of [data], with a last part of a byte padded with a one and zeros. *)
Definition message (data : list Z) (n : Z) : list Z * bool :=
  let whole := take (Z.to_nat (n / 8)) data in
  let r := n mod 8 in
  if r =? 0 then (whole, false)
  else (whole ++ [word data (Z.to_nat (n / 8)) / 2 ^ (8 - r) * 2 ^ (8 - r) + 2 ^ (7 - r)], true).

Definition hash (tf : threefish) (No : Z) (data : list Z) (n : Z) : list Z :=
  let (M, pad) := message data n in output tf No (ubi tf type_msg pad (initial tf No) M).
End SkeinSpec.
Import SkeinSpec.

(** ** The rounds *)
Lemma RotL_64_spec x n : 0 <= n <= 64 -> RotL_64 x n = rotl x n.
Proof. intros Hn. unfold RotL_64, rotl, u64. by rewrite Z.shiftl_mul_pow2, Z.shiftr_div_pow2 by lia. Qed.

(** The code leaves the words in place and permutes its arguments: the [i]th call sees the state of the specification in the order of its arguments. *)
Definition matches (v : variant) (tf : threefish) : Prop :=
  forall i X, (i < 8)%nat -> length X = WCNT v ->
  exists p ROT X', get (round_calls v) i = Ok p /\ get (rotations v) i = Ok ROT /\ Round p ROT X = Ok X' /\ length X' = WCNT v /\
    permute (nth ((i + 1) mod 8) (round_calls v) []) X' = mix_round tf i (permute p X).

Ltac rotations_small :=
  repeat match goal with |- context [RotL_64 ?x ?n] => rewrite (RotL_64_spec x n) by (split; discriminate) end.

Ltac one_round :=
  eexists _, _, _; split; [reflexivity|]; split; [reflexivity|]; split;
    [cbv -[u64 Z.add Z.lxor RotL_64]; reflexivity|split; [reflexivity|]];
  cbv -[u64 Z.add Z.lxor RotL_64 add64 rotl]; rotations_small; reflexivity.

Lemma eight_words (X : list Z) : length X = 8%nat ->
  exists x0 x1 x2 x3 x4 x5 x6 x7, X = [x0; x1; x2; x3; x4; x5; x6; x7].
Proof. intros Hl. do 8 (destruct X as [|? X]; [done|]). destruct X; [|done]. by repeat eexists. Qed.

Lemma four_words (X : list Z) : length X = 4%nat -> exists x0 x1 x2 x3, X = [x0; x1; x2; x3].
Proof. intros Hl. do 4 (destruct X as [|? X]; [done|]). destruct X; [|done]. by repeat eexists. Qed.

Lemma matches_256 : matches skein256 tf256.
Proof.
  intros i X Hi Hl. apply four_words in Hl as (x0 & x1 & x2 & x3 & ->).
  do 8 (destruct i as [|i]; [one_round|]). lia.
Qed.

Lemma matches_512 : matches skein512 tf512.
Proof.
  intros i X Hi Hl. apply eight_words in Hl as (x0 & x1 & x2 & x3 & x4 & x5 & x6 & x7 & ->).
  do 8 (destruct i as [|i]; [one_round|]). lia.
Qed.

Lemma matches_1024 : matches skein1024 tf1024.
Proof.
  intros i X Hi Hl. apply sixteen in Hl as (x0 & x1 & x2 & x3 & x4 & x5 & x6 & x7 & x8 & x9 & xa & xb & xc & xd & xe & xf & ->).
  do 8 (destruct i as [|i]; [one_round|]). lia.
Qed.

(** The code [v] is for the cipher [tf]. *)
Class Agrees (v : variant) (tf : threefish) : Prop := {
  ag_words : WCNT v = Nw tf; ag_min : (4 <= WCNT v)%nat; ag_max : (WCNT v <= 16)%nat; ag_rounds : Nr tf = (8 * RCNT v)%nat;
  ag_order : nth 0 (round_calls v) [] = seq 0 (WCNT v) /\ nth 4 (round_calls v) [] = seq 0 (WCNT v);
  ag_pi : length (pi tf) = Nw tf; ag_matches : matches v tf }.

#[export] Instance agrees_256 : Agrees skein256 tf256.
Proof. split; [reflexivity|cbn; lia|cbn; lia|reflexivity|split; reflexivity|reflexivity|exact matches_256]. Qed.
#[export] Instance agrees_512 : Agrees skein512 tf512.
Proof. split; [reflexivity|cbn; lia|cbn; lia|reflexivity|split; reflexivity|reflexivity|exact matches_512]. Qed.
#[export] Instance agrees_1024 : Agrees skein1024 tf1024.
Proof. split; [reflexivity|cbn; lia|cbn; lia|reflexivity|split; reflexivity|reflexivity|exact matches_1024]. Qed.

Lemma word_lookup s i x : s !! i = Some x -> word s i = x.
Proof. revert i. induction s as [|y s IH]; intros [|i]; cbn; [done|done|by intros [= ->]|apply IH]. Qed.

Lemma lookup_word s i : (i < length s)%nat -> s !! i = Some (word s i).
Proof. intros Hi. destruct (lookup_lt_is_Some_2 s i Hi) as [x Hx]. by rewrite Hx, (word_lookup _ _ _ Hx). Qed.

Lemma permute_id X n : length X = n -> permute (seq 0 n) X = X.
Proof.
  intros Hl. apply list_eq. intros i. unfold permute. rewrite list_lookup_fmap. destruct (decide (i < n)%nat) as [Hi|Hi].
  - rewrite lookup_seq_lt by done. cbn. rewrite lookup_word by lia. done.
  - rewrite lookup_seq_ge by lia. cbn. by rewrite lookup_ge_None_2 by lia.
Qed.

(** ** Key injection *)
Section Variant.
Context (v : variant) (tf : threefish) `{Ag : !Agrees v tf}.

Lemma round_step i X spec :
  (i < 8)%nat -> length X = WCNT v -> permute (nth i (round_calls v) []) X = spec ->
  exists X', (let! p := get (round_calls v) i in let! ROT := get (rotations v) i in Round p ROT X) = Ok X' /\
    length X' = WCNT v /\ permute (nth ((i + 1) mod 8) (round_calls v) []) X' = mix_round tf i spec.
Proof.
  intros Hi Hl Hs. destruct (ag_matches i X Hi Hl) as (p & ROT & X' & E1 & E2 & E3 & Hl' & Hm).
  assert (nth i (round_calls v) [] = p) as En.
  { apply get_inv in E1. clear -E1. revert i E1. generalize (round_calls v) as l. induction l as [|y l IH]; intros [|i]; cbn; [done|done|by intros [= ->]|apply IH]. }
  rewrite En in Hs. subst spec. exists X'. rewrite E1, E2. cbn [bind]. done.
Qed.

Definition mix_rounds (ds : list nat) (X : list Z) : list Z := foldl (fun X d => mix_round tf d X) X ds.

Lemma four_rounds_spec n X :
  n = 0%nat \/ n = 4%nat -> length X = WCNT v -> four_rounds v n X = Ok (mix_rounds (seq n 4) X) /\ length (mix_rounds (seq n 4) X) = WCNT v.
Proof.
  intros Hn Hl. destruct ag_order as [O0 O4].
  assert (permute (nth n (round_calls v) []) X = X) as H0 by (destruct Hn as [-> | ->]; rewrite ?O0, ?O4; by apply permute_id).
  destruct (round_step n X X ltac:(lia) Hl H0) as (X1 & E1 & L1 & H1).
  replace ((n + 1) mod 8)%nat with (S n) in H1 by (destruct Hn as [-> | ->]; reflexivity).
  destruct (round_step (S n) X1 _ ltac:(lia) L1 H1) as (X2 & E2 & L2 & H2).
  replace ((S n + 1) mod 8)%nat with (S (S n)) in H2 by (destruct Hn as [-> | ->]; reflexivity).
  destruct (round_step (S (S n)) X2 _ ltac:(lia) L2 H2) as (X3 & E3 & L3 & H3).
  replace ((S (S n) + 1) mod 8)%nat with (S (S (S n))) in H3 by (destruct Hn as [-> | ->]; reflexivity).
  destruct (round_step (S (S (S n))) X3 _ ltac:(lia) L3 H3) as (X4 & E4 & L4 & H4).
  assert (mix_rounds (seq n 4) X = X4) as E.
  { unfold mix_rounds. cbn [seq foldl]. rewrite <- H4. destruct Hn as [-> | ->]; cbn [Nat.add Nat.modulo Nat.divmod fst snd Nat.sub]; rewrite ?O0, ?O4; by apply permute_id. }
  rewrite E. split; [|exact L4]. unfold four_rounds. cbn [for_]. rewrite E1. cbn [bind]. rewrite E2. cbn [bind]. rewrite E3. cbn [bind]. by rewrite E4.
Qed.

Lemma add_key_spec kw k t0 t1 s X (key : nat -> Z) a b :
  length X = WCNT v -> (forall i, (i < WCNT v)%nat -> kw !! (3 + k i)%nat = Some (key i)) -> kw !! t0 = Some a -> kw !! t1 = Some b ->
  add_key v kw k t0 t1 s X = Ok (imap (fun i x => add64 x (key i +
    if (i =? WCNT v - 3)%nat then a else if (i =? WCNT v - 2)%nat then b else if (i =? WCNT v - 1)%nat then s else 0)) X).
Proof.
  intros Hl Hk Ha Hb. unfold add_key.
  rewrite (for_update _ _ (fun i x => add64 x (key i +
    if (i =? WCNT v - 3)%nat then a else if (i =? WCNT v - 2)%nat then b else if (i =? WCNT v - 1)%nat then s else 0))); [|lia|].
  - f_equal. unfold update_first. apply list_eq. intros i. rewrite !list_lookup_imap. destruct (X !! i) eqn:E; [|done]. cbn.
    apply lookup_lt_Some in E. by rewrite decide_True by lia.
  - intros i x c Hi Hx Hc Hlc. rewrite (get_ok _ _ _ Hc). cbn [bind]. unfold KW_KEY_BASE, KW_TWK_BASE. rewrite (get_ok _ _ _ (Hk i Hi)). cbn [bind Nat.add].
    rewrite (get_ok _ _ _ Ha), (get_ok _ _ _ Hb). destruct (i =? WCNT v - 3)%nat, (i =? WCNT v - 2)%nat, (i =? WCNT v - 1)%nat; cbn [bind];
      rewrite set_ok by lia; unfold u64, add64; by rewrite Z.add_mod_idemp_r by lia.
Qed.

Lemma inject_imap K T s X :
  inject tf K T s X = imap (fun i x => add64 x (word (key_words K) ((s + i) mod (WCNT v + 1)) +
    if (i =? WCNT v - 3)%nat then word (tweak_words T) (s mod 3) else if (i =? WCNT v - 2)%nat then word (tweak_words T) ((s + 1) mod 3)
    else if (i =? WCNT v - 1)%nat then Z.of_nat s else 0)) X.
Proof.
  unfold inject. apply imap_ext. intros i x _. unfold subkey. rewrite <- ag_words.
  destruct (i =? WCNT v - 3)%nat, (i =? WCNT v - 2)%nat, (i =? WCNT v - 1)%nat; unfold add64; by rewrite ?Z.add_mod_idemp_r, ?Z.add_0_r by lia.
Qed.

(** The array holds the schedule from the [s]th injection on. *)
Record schedule (K : list Z) (T : Z * Z) (s : nat) (kw : list Z) : Prop := {
  sc_length : length kw = (WCNT v + 4 + if looped v then 2 * RCNT v else 0)%nat;
  sc_tweak : kw !! 0%nat = Some T.1 /\ kw !! 1%nat = Some T.2;
  sc_keys : if looped v
    then (forall j, (j < 3)%nat -> kw !! (s - 1 + j)%nat = Some (word (tweak_words T) ((s - 1 + j) mod 3))) /\
         (forall j, (j <= WCNT v)%nat -> kw !! (s + 2 + j)%nat = Some (word (key_words K) ((s - 1 + j) mod (WCNT v + 1))))
    else (forall j, (j < 3)%nat -> kw !! j = Some (word (tweak_words T) j)) /\
         (forall j, (j <= WCNT v)%nat -> kw !! (3 + j)%nat = Some (word (key_words K) j)) }.

Lemma inject_unrolled_spec K T R kw X :
  looped v = false -> schedule K T (R + 1) kw -> length X = WCNT v ->
  inject_unrolled v R kw X = Ok (kw, inject tf K T (R + 1) X) /\ schedule K T (R + 2) kw.
Proof.
  intros Hv [S1 S2 S3] Hl. pose proof ag_min. split; [|split; [exact S1|exact S2|by rewrite Hv in *]]. rewrite Hv in S3. destruct S3 as [S3 S4].
  unfold inject_unrolled. rewrite (add_key_spec _ _ _ _ _ _ (fun i => word (key_words K) ((R + 1 + i) mod (WCNT v + 1))%nat)
    (word (tweak_words T) ((R + 1) mod 3)) (word (tweak_words T) ((R + 2) mod 3)) Hl).
  - cbn [bind]. rewrite inject_imap. do 3 f_equal. replace (R + 1 + 1)%nat with (R + 2)%nat by lia. by rewrite Nat2Z.inj_add.
  - intros i Hi. apply S4. pose proof (Nat.mod_upper_bound (R + 1 + i) (WCNT v + 1)). lia.
  - apply S3, Nat.mod_upper_bound. lia.
  - apply S3, Nat.mod_upper_bound. lia.
Qed.

Lemma inject_looped_spec K T r R kw X :
  looped v = true -> schedule K T (r + R) kw -> (1 <= r + R <= 2 * RCNT v)%nat -> length X = WCNT v ->
  exists kw', inject_looped v r R kw X = Ok (kw', inject tf K T (r + R) X) /\ schedule K T (r + R + 1) kw'.
Proof.
  intros Hv [S1 S2 S3] Hr Hl. pose proof ag_min. rewrite Hv in S1, S3. destruct S3 as [S3 S4]. set (s := (r + R)%nat) in *.
  unfold inject_looped. fold s. rewrite (add_key_spec _ _ _ _ _ _ (fun i => word (key_words K) ((s + i) mod (WCNT v + 1))%nat)
    (word (tweak_words T) (s mod 3)) (word (tweak_words T) ((s + 1) mod 3)) Hl).
  - cbn [bind]. rewrite <- inject_imap. unfold KW_KEY_BASE, KW_TWK_BASE. cbn [Nat.add].
    rewrite (get_ok kw (S (S (S (s - 1)))) (word (key_words K) ((s - 1 + 0) mod (WCNT v + 1)))).
    2: { rewrite <- (S4 0%nat) by lia. f_equal. lia. }
    cbn [bind]. rewrite set_ok by lia. cbn [bind].
    rewrite (get_ok _ (s - 1) (word (tweak_words T) ((s - 1 + 0) mod 3))).
    2: { rewrite list_lookup_insert_ne by lia. rewrite <- (S3 0%nat) by lia. f_equal. lia. }
    cbn [bind]. rewrite set_ok by (rewrite length_insert; lia). cbn [bind]. eexists. split; [reflexivity|].
    split; rewrite ?Hv.
    + rewrite !length_insert. lia.
    + rewrite !list_lookup_insert_ne by lia. exact S2.
    + split; intros j Hj.
      * destruct (decide (j = 2)%nat) as [->|Hne].
        -- replace (s + 1 - 1 + 2)%nat with (s + 2)%nat by lia. rewrite list_lookup_insert_eq by (rewrite length_insert; lia). do 2 f_equal.
           replace (s + 2)%nat with (s - 1 + 0 + 1 * 3)%nat by lia. by rewrite Nat.Div0.mod_add.
        -- rewrite !list_lookup_insert_ne by lia. replace (s + 1 - 1 + j)%nat with (s - 1 + (j + 1))%nat by lia. apply S3. lia.
      * destruct (decide (j = WCNT v)) as [->|Hne].
        -- rewrite list_lookup_insert_ne by lia. replace (s + 1 + 2 + WCNT v)%nat with (S (S (S (s + WCNT v)))) by lia.
           rewrite list_lookup_insert_eq by lia. do 2 f_equal.
           replace (s + 1 - 1 + WCNT v)%nat with (s - 1 + 0 + 1 * (WCNT v + 1))%nat by lia. by rewrite Nat.Div0.mod_add.
        -- rewrite !list_lookup_insert_ne by lia. replace (s + 1 + 2 + j)%nat with (s + 2 + (j + 1))%nat by lia.
           replace (s + 1 - 1 + j)%nat with (s - 1 + (j + 1))%nat by lia. apply S4. lia.
  - intros i Hi. replace (3 + (s + i))%nat with (s + 2 + (i + 1))%nat by lia. rewrite S4 by lia. do 3 f_equal. lia.
  - replace s with (s - 1 + 1)%nat at 1 by lia. rewrite S3 by lia. do 3 f_equal. lia.
  - replace (s + 1)%nat with (s - 1 + 2)%nat at 1 by lia. rewrite S3 by lia. do 3 f_equal. lia.
Qed.

(** ** The cipher *)

(** The state before round [d]. *)
Definition state_at (K : list Z) (T : Z * Z) (P : list Z) (d : nat) : list Z := foldl (round tf K T) P (seq 0 d).

Lemma mix_round_mod k d X : mix_round tf (8 * k + d) X = mix_round tf d X.
Proof. unfold mix_round. replace (8 * k + d)%nat with (d + k * 8)%nat by lia. by rewrite Nat.Div0.mod_add. Qed.

(** Eight rounds of the specification, grouped as the code groups them. *)
Lemma state_at_eight K T P j :
  state_at K T P (8 * (j + 1)) =
  mix_rounds (seq 4 4) (inject tf K T (2 * j + 1) (mix_rounds (seq 0 4) (inject tf K T (2 * j) (state_at K T P (8 * j))))).
Proof.
  unfold state_at. replace (8 * (j + 1))%nat with (8 * j + 8)%nat by lia. rewrite seq_app, foldl_app. cbn [Nat.add]. set (V := foldl (round tf K T) P (seq 0 (8 * j))). clearbody V.
  assert (forall c, (c < 8)%nat -> forall W, round tf K T W (8 * j + c) =
    mix_round tf c (if (c mod 4 =? 0)%nat then inject tf K T (2 * j + c / 4) W else W)) as Hr.
  { intros c Hc W. unfold round. rewrite mix_round_mod. replace (8 * j + c)%nat with (c + 2 * j * 4)%nat by lia.
    rewrite Nat.Div0.mod_add, Nat.div_add by lia. by rewrite (Nat.add_comm (c / 4)). }
  replace (seq (8 * j) 8) with (Nat.add (8 * j) <$> seq 0 8) by (rewrite fmap_add_seq; f_equal; lia).
  unfold mix_rounds. cbn [seq fmap list_fmap foldl]. rewrite !Hr by lia.
  cbn [Nat.modulo Nat.divmod fst snd Nat.sub Nat.eqb Nat.div]. by rewrite !Nat.add_0_r.
Qed.

Lemma inject_length K T s X : length (inject tf K T s X) = length X.
Proof. apply length_imap. Qed.

(** The invariant of the loop over the rounds. *)
Definition keyed (K : list Z) (T : Z * Z) (P : list Z) (j : nat) (st : list Z * list Z) : Prop :=
  schedule K T (2 * j + 1) st.1 /\ length st.2 = WCNT v /\ st.2 = inject tf K T (2 * j) (state_at K T P (8 * j)).

Lemma eight_rounds_spec K T P j R (inj : nat -> list Z -> list Z -> result (list Z * list Z)) st :
  (forall c kw X, (c < 2)%nat -> schedule K T (2 * j + 1 + c) kw -> length X = WCNT v ->
     exists kw', inj (2 * R + c)%nat kw X = Ok (kw', inject tf K T (2 * j + 1 + c) X) /\ schedule K T (2 * j + 2 + c) kw') ->
  keyed K T P j st -> returns (eight_rounds v inj R st) (keyed K T P (j + 1)).
Proof.
  intros Hi (Hs & Hl & HX). destruct st as [kw X]. cbn [fst snd] in *. unfold eight_rounds.
  destruct (four_rounds_spec 0 X ltac:(by left) Hl) as [-> L1]. cbn [bind].
  destruct (Hi 0%nat kw (mix_rounds (seq 0 4) X) ltac:(lia) ltac:(by rewrite Nat.add_0_r) L1) as (kw1 & E1 & Hs1). rewrite !Nat.add_0_r in *. rewrite E1. cbn [bind].
  set (Y := inject tf K T (2 * j + 1) _). assert (length Y = WCNT v) as LY by (unfold Y; by rewrite inject_length).
  destruct (four_rounds_spec 4 Y ltac:(by right) LY) as [-> L2]. cbn [bind].
  replace (2 * j + 2)%nat with (2 * j + 1 + 1)%nat in Hs1 by lia.
  destruct (Hi 1%nat kw1 (mix_rounds (seq 4 4) Y) ltac:(lia) Hs1 L2) as (kw2 & -> & Hs2). unfold keyed. cbn [returns fst snd].
  replace (2 * (j + 1) + 1)%nat with (2 * j + 2 + 1)%nat by lia. split; [exact Hs2|]. split; [by rewrite inject_length|].
  rewrite state_at_eight. subst Y X. do 2 f_equal. lia.
Qed.

Lemma all_rounds_spec K T P kw :
  schedule K T 1 kw -> length P = WCNT v ->
  exists kw', all_rounds v (kw, inject tf K T 0 P) = Ok (kw', encrypt tf K T P) /\ length kw' = length kw /\ kw' !! 0%nat = Some T.1 /\ kw' !! 1%nat = Some T.2.
Proof.
  intros Hs Hl. assert (keyed K T P 0 (kw, inject tf K T 0 P)) as H0 by (split; [exact Hs|split; [cbn [snd]; by rewrite inject_length|reflexivity]]).
  assert (returns (all_rounds v (kw, inject tf K T 0 P)) (keyed K T P (0 + RCNT v))) as Hr.
  { unfold all_rounds. destruct (looped v) eqn:Hv.
    - apply for_inv; [exact H0|]. intros j st Hj Hst. replace (S j) with (j + 1)%nat by lia. apply eight_rounds_spec; [|exact Hst].
      intros c kw1 X Hc Hs1 HX. replace (2 * j + 1 + c)%nat with (1 + 2 * j + (2 * 0 + c))%nat in * by lia.
      replace (2 * j + 2 + c)%nat with (1 + 2 * j + (2 * 0 + c) + 1)%nat by lia. apply inject_looped_spec; [done|done|lia|done].
    - apply for_inv; [exact H0|]. intros j st Hj Hst. replace (S j) with (j + 1)%nat by lia. apply eight_rounds_spec; [|exact Hst].
      intros c kw1 X Hc Hs1 HX. replace (2 * j + 1 + c)%nat with (2 * j + c + 1)%nat in * by lia. replace (2 * j + 2 + c)%nat with (2 * j + c + 2)%nat by lia.
      exists kw1. by apply inject_unrolled_spec. }
  apply returns_inv in Hr as ([kw' X] & E & Hs' & _ & HX). cbn [fst snd Nat.add] in *. exists kw'. rewrite E. split.
  - do 2 f_equal. rewrite HX. unfold encrypt, state_at. rewrite ag_rounds. f_equal. rewrite (Nat.mul_comm 8), <- (Nat.div_mul (2 * RCNT v) 4) by lia. f_equal. lia.
  - split; [|apply (sc_tweak _ _ _ _ Hs')]. by rewrite (sc_length _ _ _ _ Hs'), (sc_length _ _ _ _ Hs).
Qed.

Lemma mix_round_length d X : length (mix_round tf d X) = WCNT v.
Proof. unfold mix_round, permute. by rewrite length_fmap, ag_pi, ag_words. Qed.

Lemma encrypt_length K T P : length P = WCNT v -> length (encrypt tf K T P) = WCNT v.
Proof.
  intros HP. unfold encrypt. rewrite inject_length. generalize (seq 0 (Nr tf)) as ds. intros ds. revert P HP.
  induction ds as [|d ds IH]; intros P HP; [done|]. cbn [foldl]. apply IH. apply mix_round_length.
Qed.

(** ** A block *)
Lemma load_loop (kw X : list Z) :
  (3 + WCNT v <= length kw)%nat -> length X = WCNT v ->
  for_ (WCNT v) (fun i kw => let! x := get X i in set kw (KW_KEY_BASE + i) x) 0 kw = Ok (take 3 kw ++ X ++ drop (3 + WCNT v) kw).
Proof.
  intros Hk Hl. assert (returns (for_ (WCNT v) (fun i kw => let! x := get X i in set kw (KW_KEY_BASE + i) x) 0 kw)
    (fun r => r = take 3 kw ++ take (0 + WCNT v) X ++ drop (3 + (0 + WCNT v)) kw)) as H.
  { apply (for_inv (WCNT v) _ 0 kw (fun i r => r = take 3 kw ++ take i X ++ drop (3 + i) kw)).
    - symmetry. apply (take_drop 3 kw).
    - intros i r Hi ->. destruct (lookup_lt_is_Some_2 X i) as [x Hx]; [lia|]. rewrite (get_ok _ _ _ Hx). cbn [bind].
      destruct (lookup_lt_is_Some_2 kw (3 + i)) as [y Hy]; [lia|].
      rewrite set_ok by (unfold KW_KEY_BASE; rewrite !length_app, !length_take, length_drop; lia). cbn [returns].
      unfold KW_KEY_BASE. rewrite insert_app_r_alt by (rewrite length_take; lia). f_equal. rewrite length_take, Nat.min_l by lia.
      replace (3 + i - 3)%nat with i by lia. rewrite insert_app_r_alt by (rewrite length_take; lia). rewrite length_take, Nat.min_l by lia. rewrite Nat.sub_diag.
      rewrite (drop_S kw y (3 + i) Hy). cbn [insert list_insert]. rewrite (take_S_r X i x Hx), <- app_assoc. do 2 f_equal. }
  apply returns_inv in H as (r & -> & ->). cbn [Nat.add]. by rewrite (take_ge X) by lia.
Qed.

Lemma parity_loop (kw X : list Z) n : length X = n -> (forall i, (i < n)%nat -> kw !! (3 + i)%nat = X !! i) ->
  for_ n (fun i p => let! k := get kw (KW_KEY_BASE + i) in Ok (Z.lxor p k)) 0 0 = Ok (foldl Z.lxor 0 X).
Proof.
  intros Hn Hk. assert (returns (for_ n (fun i p => let! k := get kw (KW_KEY_BASE + i) in Ok (Z.lxor p k)) 0 0)
    (fun p => p = foldl Z.lxor 0 (take (0 + n) X))) as H.
  { apply (for_inv n _ 0 0 (fun i p => p = foldl Z.lxor 0 (take i X))); [done|]. intros i p Hi ->.
    destruct (lookup_lt_is_Some_2 X i) as [x Hx]; [lia|]. unfold KW_KEY_BASE. rewrite (get_ok kw (3 + i) x) by (rewrite Hk by lia; done). cbn [bind returns].
    by rewrite (take_S_r X i x Hx), foldl_snoc. }
  apply returns_inv in H as (p & -> & ->). cbn [Nat.add]. by rewrite take_ge by lia.
Qed.

Lemma foldl_lxor_start a X : foldl Z.lxor a X = Z.lxor (foldl Z.lxor 0 X) a.
Proof.
  induction X as [|x X IH] using rev_ind; [cbn; by rewrite Z.lxor_0_l|]. rewrite !foldl_snoc, IH.
  by rewrite !Z.lxor_assoc, (Z.lxor_comm a x).
Qed.

(** The array before the rounds. *)
Lemma schedule_intro K T rest :
  length K = WCNT v -> length rest = (if looped v then 2 * RCNT v else 0)%nat ->
  schedule K T 1 (tweak_words T ++ key_words K ++ rest).
Proof.
  intros HK Hr. assert (length (key_words K) = WCNT v + 1)%nat as Lk by (unfold key_words; rewrite length_app, HK; done).
  assert (forall j, (j < 3)%nat -> (tweak_words T ++ key_words K ++ rest) !! j = Some (word (tweak_words T) j)) as H1.
  { intros j Hj. rewrite lookup_app_l by (cbn; lia). apply lookup_word. cbn. lia. }
  assert (forall j, (j <= WCNT v)%nat -> (tweak_words T ++ key_words K ++ rest) !! (3 + j)%nat = Some (word (key_words K) j)) as H2.
  { intros j Hj. rewrite lookup_app_r by (cbn; lia). change (length (tweak_words T)) with 3%nat. replace (3 + j - 3)%nat with j by lia.
    rewrite lookup_app_l by lia. apply lookup_word. lia. }
  split.
  - rewrite !length_app, Lk, Hr. cbn. lia.
  - split; reflexivity.
  - destruct (looped v); [|by split]. change (1 - 1)%nat with 0%nat. change (1 + 2)%nat with 3%nat. split; intros j Hj; change (0 + j)%nat with j.
    + rewrite H1 by done. by rewrite Nat.mod_small by lia.
    + rewrite (H2 j Hj). by rewrite Nat.mod_small by lia.
Qed.

Lemma xor_loop Y (w X : list Z) :
  length X = WCNT v -> length Y = WCNT v -> length w = WCNT v ->
  for_ (WCNT v) (fun i X => let! y := get Y i in let! m := get w i in set X i (Z.lxor y m)) 0 X = Ok (zip_with Z.lxor Y w).
Proof.
  intros HX HY Hw. rewrite (for_update _ _ (fun i _ => Z.lxor (word Y i) (word w i))); [|lia|].
  - f_equal. apply list_eq. intros i. rewrite update_first_lookup, lookup_zip_with. destruct (decide (i < WCNT v)%nat) as [Hi|Hi].
    + rewrite !lookup_word by lia. cbn. by rewrite ?decide_True by done.
    + by rewrite !lookup_ge_None_2 by lia.
  - intros i x a Hi Hx Ha La. rewrite (get_ok _ _ _ (lookup_word Y i ltac:(lia))), (get_ok _ _ _ (lookup_word w i ltac:(lia))). cbn [bind]. apply set_ok. lia.
Qed.

Lemma block_step_spec add blk kw X a b :
  kw !! 0%nat = Some a -> kw !! 1%nat = Some b -> length kw = (WCNT v + 4 + if looped v then 2 * RCNT v else 0)%nat -> length X = WCNT v ->
  (BLOCK_BYTES v <= length blk)%nat ->
  exists kw', block_step v add blk kw X = Ok (kw', compress tf X (u64 (a + add), b) (take (BLOCK_BYTES v) blk)) /\ length kw' = length kw /\
    kw' !! 0%nat = Some (u64 (a + add)) /\ kw' !! 1%nat = Some (Z.land b (u64 (Z.lnot SKEIN_T1_FLAG_FIRST))).
Proof.
  intros Ha Hb Hk HX Hblk. pose proof ag_min as Hm. unfold BLOCK_BYTES in *. destruct kw as [|k0 [|k1 [|k2 kw]]]; [done|done|cbn in Hk; lia|].
  cbn in Ha, Hb. injection Ha as ->. injection Hb as ->. cbn [length] in Hk. unfold block_step, KW_TWK_BASE.
  cbn [get lookup list_lookup Nat.add]. change (get (a :: b :: k2 :: kw) 0) with (Ok a). cbn [bind].
  rewrite set_ok by (cbn; lia). cbn [bind insert list_insert]. rewrite load_loop by (cbn [length]; lia). cbn [bind].
  set (t0 := u64 (a + add)). change (take 3 (t0 :: b :: k2 :: kw)) with [t0; b; k2]. change (drop (3 + WCNT v) (t0 :: b :: k2 :: kw)) with (drop (WCNT v) kw).
  destruct (drop (WCNT v) kw) as [|r0 rest] eqn:Er; [apply (f_equal length) in Er; rewrite length_drop in Er; cbn in Er; lia|].
  assert (length rest = if looped v then 2 * RCNT v else 0)%nat as Lr by (apply (f_equal length) in Er; rewrite length_drop in Er; cbn in Er; lia).
  rewrite (parity_loop _ X (WCNT v) HX).
  2: { intros i Hi. rewrite lookup_app_r by (cbn; lia). change (length [t0; b; k2]) with 3%nat. rewrite lookup_app_l by lia. f_equal. lia. }
  cbn [bind]. unfold KW_KEY_BASE. rewrite set_ok by (rewrite !length_app; cbn [length]; lia). cbn [bind].
  rewrite insert_app_r_alt by (cbn; lia). cbn [length]. replace (3 + WCNT v - 3)%nat with (WCNT v) by lia.
  rewrite insert_app_r_alt by lia. rewrite HX, Nat.sub_diag. cbn [insert list_insert app].
  rewrite <- foldl_lxor_start. change (get (t0 :: ?s) 0) with (Ok t0). change (get (t0 :: b :: ?s) 1) with (Ok b). cbn [bind].
  rewrite set_ok by (cbn [length]; lia). cbn [bind insert list_insert].
  replace (X ++ foldl Z.lxor SKEIN_KS_PARITY X :: rest) with (key_words X ++ rest) by (unfold key_words; by rewrite <- app_assoc).
  change (t0 :: b :: Z.lxor t0 b :: key_words X ++ rest) with (tweak_words (t0, b) ++ key_words X ++ rest).
  pose proof (schedule_intro X (t0, b) rest HX Lr) as Hs. set (kw1 := tweak_words (t0, b) ++ key_words X ++ rest) in *.
  unfold Skein_Get64_LSB_First. rewrite decide_True by lia. cbn [bind]. fold (to_words (WCNT v) blk).
  assert (to_words (WCNT v) blk = to_words (WCNT v) (take (8 * WCNT v) blk)) as ->.
  { unfold to_words. apply list_fmap_ext. intros i j Hj. apply lookup_seq in Hj as [-> Hj]. f_equal. rewrite skipn_firstn_comm, take_take. f_equal. lia. }
  set (P := to_words (WCNT v) _). assert (length P = WCNT v) as LP by (unfold P, to_words; rewrite length_fmap, length_seq; done).
  rewrite (add_key_spec kw1 (fun i => i) 0 1 0 P (fun i => word (key_words X) i) t0 b LP).
  - cbn [bind]. replace (imap _ P) with (inject tf X (t0, b) 0 P).
    2: { rewrite inject_imap. apply imap_ext. intros i x Hi. apply lookup_lt_Some in Hi. cbn [Nat.add]. by rewrite Nat.mod_small by lia. }
    destruct (all_rounds_spec X (t0, b) P kw1 Hs LP) as (kw' & -> & Lk & K0 & K1). cbn [bind].
    rewrite xor_loop by (try done; by apply encrypt_length). cbn [bind]. rewrite (get_ok _ _ _ K1). cbn [bind].
    rewrite set_ok by (by eapply lookup_lt_Some). cbn [bind]. eexists. split; [unfold compress; by rewrite <- ag_words|].
    rewrite length_insert, Lk, (sc_length _ _ _ _ Hs). split; [cbn [length]; lia|].
    rewrite list_lookup_insert_ne by done. split; [exact K0|]. rewrite list_lookup_insert_eq by (by eapply lookup_lt_Some). done.
  - intros i Hi. unfold kw1. rewrite lookup_app_r by (cbn; lia). change (length (tweak_words (t0, b))) with 3%nat. replace (3 + i - 3)%nat with i by lia.
    rewrite lookup_app_l by (unfold key_words; rewrite length_app; lia). apply lookup_word. unfold key_words. rewrite length_app. lia.
  - reflexivity.
  - reflexivity.
Qed.

(** ** Several blocks *)

(** The chain over [n] blocks of the input, each of which adds [add] to the position. *)
Fixpoint chain_from (n : nat) (add : Z) (X : list Z) (T : Z * Z) (blk : list Z) : list Z * (Z * Z) :=
  match n with
  | O => (X, T)
  | S n =>
      let t0 := u64 (T.1 + add) in
      chain_from n add (compress tf X (t0, T.2) (take (BLOCK_BYTES v) blk)) (t0, Z.land T.2 (u64 (Z.lnot SKEIN_T1_FLAG_FIRST))) (drop (BLOCK_BYTES v) blk)
  end.

Lemma skein_compress_length X T M : length (compress tf X T M) = WCNT v.
Proof.
  unfold compress. assert (length (to_words (Nw tf) M) = WCNT v) as Hl by (unfold to_words; by rewrite length_fmap, length_seq, ag_words).
  rewrite length_zip_with, encrypt_length by done. lia.
Qed.

Lemma block_loop_spec add n : forall blk kw X T,
  kw !! 0%nat = Some T.1 -> kw !! 1%nat = Some T.2 -> length kw = (WCNT v + 4 + if looped v then 2 * RCNT v else 0)%nat -> length X = WCNT v ->
  (BLOCK_BYTES v * S n <= length blk)%nat ->
  exists kw', block_loop v add n blk kw X = Ok (kw', (chain_from (S n) add X T blk).1) /\
    kw' !! 0%nat = Some (chain_from (S n) add X T blk).2.1 /\ kw' !! 1%nat = Some (chain_from (S n) add X T blk).2.2.
Proof.
  induction n as [|n IH]; intros blk kw X [a b] Ha Hb Hk HX Hblk; cbn [fst snd] in *;
    destruct (block_step_spec add blk kw X a b Ha Hb Hk HX ltac:(lia)) as (kw' & E & Lk & K0 & K1); cbn [block_loop]; rewrite E; cbn [bind].
  - exists kw'. done.
  - apply IH; cbn [fst snd]; [done|done|lia|apply skein_compress_length|rewrite length_drop; lia].
Qed.

Lemma Process_Block_spec ctx blk n add :
  (1 <= n)%nat -> Z.of_nat n < 2 ^ 64 -> length (ctx_X ctx) = WCNT v -> (BLOCK_BYTES v * n <= length blk)%nat ->
  Process_Block v ctx blk (Z.of_nat n) add =
    let '(X, T) := chain_from n add (ctx_X ctx) (h_T0 ctx, h_T1 ctx) blk in
    Ok (Ctxt (h_hashBitLen ctx) (h_bCnt ctx) T.1 T.2 X (ctx_b ctx)).
Proof.
  intros H1 Hn HX Hblk. pose proof ag_min as Hm. unfold Process_Block, KW_TWK_BASE. destruct n as [|n]; [lia|].
  replace (u64 (Z.of_nat (S n) - 1)) with (Z.of_nat n) by (unfold u64; rewrite Z.mod_small; lia). rewrite Nat2Z.id.
  set (z := (WCNT v + 4 + _)%nat). assert (2 <= z)%nat as Hz by (unfold z; lia).
  rewrite set_ok by (rewrite length_replicate; lia). cbn [bind Nat.add]. rewrite set_ok by (rewrite length_insert, length_replicate; lia). cbn [bind].
  destruct (block_loop_spec add n blk (<[1%nat:=h_T1 ctx]> (<[0%nat:=h_T0 ctx]> (replicate z 0))) (ctx_X ctx) (h_T0 ctx, h_T1 ctx)) as (kw' & -> & K0 & K1).
  - rewrite list_lookup_insert_ne by done. apply list_lookup_insert_eq. rewrite length_replicate. lia.
  - apply list_lookup_insert_eq. rewrite length_insert, length_replicate. lia.
  - rewrite !length_insert, length_replicate. reflexivity.
  - done.
  - done.
  - cbn [bind]. rewrite (get_ok _ _ _ K0). cbn [bind]. rewrite (get_ok _ _ _ K1). cbn [bind]. by destruct (chain_from _ _ _ _ _) as [X [T0 T1]].
Qed.
End Variant.
