(* ===== verification/SkeinFacts.v ===== *)
(** * Correctness of Skein

    Input in pieces, the last block, the output and the initial values, against
    [SkeinSpec]. *)

From stdpp Require Import base list numbers.
From Stdlib Require Import ZArith Lia.
From S2P Require Import Prelude Bytes Streaming Skein SkeinBlock.
Import SkeinSpec.

(** ** Tweaks *)

(** The second word of a tweak. *)
Definition flags (type : Z) (pad first final : bool) : Z :=
  Z.b2z pad * 2 ^ 55 + type * 2 ^ 56 + Z.b2z first * 2 ^ 62 + Z.b2z final * 2 ^ 63.

Lemma tweak_spec position type pad first final : 0 <= position < 2 ^ 64 -> tweak position type pad first final = (position, flags type pad first final).
Proof.
  intros Hp. unfold tweak, flags. set (F := Z.b2z pad * 2 ^ 55 + _ + _ + _).
  replace (position + _ + _ + _ + _) with (position + F * 2 ^ 64) by (unfold F; lia).
  f_equal; [by rewrite Z.mod_add, Z.mod_small by lia|]. rewrite Z.div_add, Z.div_small by lia. lia.
Qed.

Lemma flags_start_msg : Z.lor SKEIN_T1_FLAG_FIRST SKEIN_T1_BLK_TYPE_MSG = flags type_msg false true false.
Proof. reflexivity. Qed.
Lemma flags_start_cfg : Z.lor SKEIN_T1_FLAG_FIRST SKEIN_T1_BLK_TYPE_CFG_FINAL = flags type_cfg false true true.
Proof. reflexivity. Qed.
Lemma flags_start_out : Z.lor SKEIN_T1_FLAG_FIRST SKEIN_T1_BLK_TYPE_OUT_FINAL = flags type_out false true true.
Proof. reflexivity. Qed.
Lemma flags_clear first : Z.land (flags type_msg false first false) (u64 (Z.lnot SKEIN_T1_FLAG_FIRST)) = flags type_msg false false false.
Proof. by destruct first. Qed.
Lemma flags_final pad first : Z.lor (flags type_msg pad first false) SKEIN_T1_FLAG_FINAL = flags type_msg pad first true.
Proof. by destruct pad, first. Qed.
Lemma flags_pad first : Z.lor (flags type_msg false first false) SKEIN_T1_FLAG_BIT_PAD = flags type_msg true first false.
Proof. by destruct first. Qed.

Section Variant.
Context (v : variant) (tf : threefish) `{Ag : !Agrees v tf}.
#[local] Abbreviation B := (BLOCK_BYTES v).

Lemma B_Nb : Nb tf = B.
Proof. unfold Nb, BLOCK_BYTES. by rewrite (ag_words (v := v)). Qed.

Lemma B_min : (32 <= B <= 128)%nat.
Proof. unfold BLOCK_BYTES. pose proof (ag_min (v := v) (tf := tf)). pose proof (ag_max (v := v) (tf := tf)). lia. Qed.

(** ** The chain of the message blocks that are not the last *)
Definition msg_chain (k : nat) (G M : list Z) : list Z :=
  foldl (fun H i => compress tf H (Z.of_nat (B * (i + 1)), flags type_msg false (i =? 0)%nat false) (take B (drop (B * i) M))) G (seq 0 k).

Lemma msg_chain_S k G M :
  msg_chain (S k) G M = compress tf (msg_chain k G M) (Z.of_nat (B * (k + 1)), flags type_msg false (k =? 0)%nat false) (take B (drop (B * k) M)).
Proof. unfold msg_chain. by rewrite seq_S, foldl_snoc. Qed.

Lemma msg_chain_app k G M d : (B * k <= length M)%nat -> msg_chain k G (M ++ d) = msg_chain k G M.
Proof.
  induction k as [|k IH]; intros Hk; [done|]. rewrite !msg_chain_S, IH by lia. f_equal. rewrite drop_app_le by lia. rewrite take_app_le; [done|].
  rewrite length_drop. lia.
Qed.

Lemma msg_chain_length k G M : length G = WCNT v -> length (msg_chain k G M) = WCNT v.
Proof. intros HG. destruct k as [|k]; [done|]. rewrite msg_chain_S. apply (skein_compress_length v tf). Qed.

(** What the code computes from block [k] on. *)
Lemma chain_from_msg n : forall k G M blk,
  take (B * n) blk = take (B * n) (drop (B * k) M) -> (B * (k + n) <= length M)%nat -> Z.of_nat (length M) < 2 ^ 64 ->
  chain_from v tf n (Z.of_nat B) (msg_chain k G M) (Z.of_nat (B * k), flags type_msg false (k =? 0)%nat false) blk =
  (msg_chain (k + n) G M, (Z.of_nat (B * (k + n)), flags type_msg false (k + n =? 0)%nat false)).
Proof.
  induction n as [|n IH]; intros k G M blk Hblk Hk HM; [by rewrite !Nat.add_0_r|]. cbn [chain_from fst snd].
  replace (u64 (Z.of_nat (B * k) + Z.of_nat B)) with (Z.of_nat (B * (k + 1))) by (unfold u64; rewrite Z.mod_small; lia).
  assert (take B blk = take B (drop (B * k) M)) as E.
  { apply (f_equal (take B)) in Hblk. rewrite !take_take in Hblk. by replace (B `min` (B * S n))%nat with B in Hblk by lia. }
  rewrite E, <- msg_chain_S, flags_clear. replace (k + S n)%nat with (S k + n)%nat by lia.
  replace (B * (k + 1))%nat with (B * S k)%nat by lia. change false with (S k =? 0)%nat at 2. apply IH; [|lia|done].
  apply (f_equal (drop B)) in Hblk. rewrite !skipn_firstn_comm, drop_drop in Hblk. replace (B * S n - B)%nat with (B * n)%nat in Hblk by lia.
  by replace (B * S k)%nat with (B * k + B)%nat by lia.
Qed.

(** ** The context after a message *)
Record at_block (n : Z) (G : list Z) (ctx : skein_ctxt) (k : nat) (M : list Z) : Prop := {
  ab_len : h_hashBitLen ctx = n; ab_X : ctx_X ctx = msg_chain k G M; ab_T0 : h_T0 ctx = Z.of_nat (B * k);
  ab_T1 : h_T1 ctx = flags type_msg false (k =? 0)%nat false; ab_b : length (ctx_b ctx) = B }.

(** The blocks before the last one, which is never empty unless the message is. *)
Definition full (M : list Z) : nat := ((length M - 1) / B)%nat.

Record sk_absorbed (n : Z) (G : list Z) (ctx : skein_ctxt) (M : list Z) : Prop := {
  sa_block : at_block n G ctx (full M) M; sa_bCnt : h_bCnt ctx = Z.of_nat (length M - B * full M);
  sa_pend : take (length M - B * full M) (ctx_b ctx) = drop (B * full M) M }.

Lemma full_spec M : (B * full M <= length M)%nat /\ (length M - B * full M <= B)%nat /\ (M <> [] -> 0 < length M - B * full M)%nat.
Proof.
  pose proof B_min. unfold full. pose proof (Nat.Div0.div_mod (length M - 1) B) as E. pose proof (Nat.mod_upper_bound (length M - 1) B ltac:(lia)).
  split; [lia|]. split; [lia|]. destruct M; [done|]. cbn [length] in *. lia.
Qed.

Lemma full_unique M k : (B * k < length M)%nat -> (length M <= B * (k + 1))%nat -> full M = k.
Proof. intros H1 H2. unfold full. symmetry. apply (Nat.div_unique _ _ _ (length M - 1 - B * k)); lia. Qed.

Lemma full_short M : (length M <= B)%nat -> full M = 0%nat.
Proof. pose proof B_min. intros Hl. unfold full. apply Nat.div_small. lia. Qed.

Lemma at_block_process n G ctx k j M blk c b :
  at_block n G ctx k M -> length G = WCNT v -> (1 <= j)%nat -> take (B * j) blk = take (B * j) (drop (B * k) M) -> (B * j <= length blk)%nat ->
  (B * (k + j) <= length M)%nat -> Z.of_nat (length M) < 2 ^ 64 -> length b = B ->
  exists ctx', Process_Block v (set_b ctx b c) blk (Z.of_nat j) (Z.of_nat B) = Ok (set_b ctx' b c) /\ at_block n G ctx' (k + j) M.
Proof.
  intros [A1 A2 A3 A4 A5] HG Hj Hblk Hl HM Hlt Hb. pose proof B_min.
  assert (Z.of_nat j < 2 ^ 64) as Hj64 by nia.
  rewrite (Process_Block_spec v tf) by (try done; cbn; rewrite A2; by apply msg_chain_length). cbn [set_b ctx_X h_T0 h_T1 h_hashBitLen h_bCnt ctx_b].
  rewrite A1, A2, A3, A4, (chain_from_msg j k G M blk Hblk HM Hlt).
  exists (Ctxt n c (Z.of_nat (B * (k + j))) (flags type_msg false (k + j =? 0)%nat false) (msg_chain (k + j) G M) b). split; [done|]. by split.
Qed.

(** ** Input *)
Lemma set_b_id ctx : set_b ctx (ctx_b ctx) (h_bCnt ctx) = ctx.
Proof. by destruct ctx. Qed.

Lemma at_block_set_b n G ctx k M b c : at_block n G ctx k M -> length b = B -> at_block n G (set_b ctx b c) k M.
Proof. intros [A1 A2 A3 A4 A5] Hb. by split. Qed.

Lemma at_block_app n G ctx k M d : at_block n G ctx k M -> (B * k <= length M)%nat -> at_block n G ctx k (M ++ d).
Proof. intros [A1 A2 A3 A4 A5] Hk. split; [done| |done|done|done]. by rewrite msg_chain_app. Qed.

Lemma finish_buffer_spec n G ctx M msg L :
  length G = WCNT v -> sk_absorbed n G ctx M -> M <> [] -> (L <= length msg)%nat -> (B < length M - B * full M + L)%nat -> Z.of_nat (length M + L) < 2 ^ 64 ->
  let r := (B - (length M - B * full M))%nat in
  exists ctx', finish_buffer v ctx msg (Z.of_nat L) = Ok (ctx', drop r msg, Z.of_nat (L - r)) /\
    at_block n G ctx' (full M + 1) (M ++ take L msg) /\ h_bCnt ctx' = 0.
Proof.
  intros HG [Ab Ac Ap] HM HL Hgt Hlt r. pose proof B_min as HB. destruct (full_spec M) as (F1 & F2 & F3). specialize (F3 HM).
  set (k := full M) in *. set (p := (length M - B * k)%nat) in *. unfold finish_buffer. rewrite Ac.
  destruct (Z.eqb_spec (Z.of_nat p) 0) as [|_]; [lia|]. cbn [negb]. replace (u64 (Z.of_nat B - Z.of_nat p)) with (Z.of_nat r) by (rewrite u64_small; lia).
  assert (exists b, (if negb (Z.of_nat r =? 0)
      then let! b := memcpy (ctx_b ctx) (Z.to_nat (Z.of_nat p)) msg (Z.to_nat (Z.of_nat r)) in
           Ok (set_b ctx b (u64 (Z.of_nat p + Z.of_nat r)), drop (Z.to_nat (Z.of_nat r)) msg, u64 (Z.of_nat L - Z.of_nat r))
      else Ok (ctx, msg, Z.of_nat L)) = Ok (set_b ctx b (Z.of_nat B), drop r msg, Z.of_nat (L - r)) /\
      length b = B /\ b = drop (B * k) M ++ take r msg) as (b & Eb & Lb & Hb).
  { destruct (Z.eqb_spec (Z.of_nat r) 0) as [E0|_]; cbn [negb].
    - replace r with 0%nat by lia. exists (ctx_b ctx). assert (p = B) as EB by lia. rewrite drop_0, Nat.sub_0_r.
      replace (Z.of_nat B) with (h_bCnt ctx) by lia. rewrite set_b_id. split; [done|]. split; [apply Ab|].
      rewrite <- Ap, EB, take_ge, app_nil_r; [done|]. by rewrite (ab_b _ _ _ _ _ Ab).
    - rewrite !Nat2Z.id. rewrite memcpy_ok by (rewrite ?(ab_b _ _ _ _ _ Ab); lia). cbn [bind].
      exists (drop (B * k) M ++ take r msg). rewrite (drop_ge (ctx_b ctx)), app_nil_r by (rewrite (ab_b _ _ _ _ _ Ab); lia).
      rewrite Ap. split; [|split; [rewrite length_app, length_take, length_drop; lia|done]]. do 2 f_equal; [f_equal; f_equal; rewrite u64_small; lia|rewrite u64_small; lia]. }
  rewrite Eb. cbn [bind set_b ctx_b]. change 1 with (Z.of_nat 1).
  destruct (at_block_process n G ctx k 1 (M ++ take L msg) b (Z.of_nat B) b) as (ctx' & -> & Hab).
  - apply at_block_app; [exact Ab|lia].
  - done.
  - lia.
  - rewrite Nat.mul_1_r, (take_ge b) by lia. rewrite Hb, drop_app_le, take_app_ge by (rewrite ?length_drop; lia). f_equal.
    rewrite take_take, length_drop. f_equal. lia.
  - lia.
  - rewrite length_app, length_take. lia.
  - rewrite length_app, length_take. lia.
  - done.
  - cbn [bind]. eexists. split; [reflexivity|]. split; [repeat (apply at_block_set_b; [|exact Lb]); exact Hab|done].
Qed.

Lemma direct_blocks_spec n G ctx k M msg L :
  length G = WCNT v -> at_block n G ctx k M -> h_bCnt ctx = 0 -> take L msg = drop (B * k) M -> (L <= length msg)%nat -> (1 <= L)%nat -> length M = (B * k + L)%nat ->
  Z.of_nat (length M) < 2 ^ 64 ->
  exists ctx' j, direct_blocks v ctx msg (Z.of_nat L) = Ok (ctx', drop (B * j) msg, Z.of_nat (L - B * j)) /\ (B * j < L)%nat /\ (L <= B * (j + 1))%nat /\
    at_block n G ctx' (k + j) M /\ h_bCnt ctx' = 0.
Proof.
  intros HG Hab Hc Hm HL H1 Hlen Hlt. pose proof B_min as HB. unfold direct_blocks. destruct (Z.ltb_spec (Z.of_nat B) (Z.of_nat L)) as [Hgt|Hle].
  - set (j := ((L - 1) / B)%nat). pose proof (Nat.Div0.div_mod (L - 1) B) as E. pose proof (Nat.mod_upper_bound (L - 1) B ltac:(lia)). fold j in E.
    assert (1 <= j)%nat as Hj by (apply Nat.div_le_lower_bound; lia).
    replace ((Z.of_nat L - 1) / Z.of_nat B) with (Z.of_nat j) by (unfold j; rewrite Nat2Z.inj_div; f_equal; lia).
    destruct (at_block_process n G ctx k j M msg (h_bCnt ctx) (ctx_b ctx)) as (ctx' & Ep & Hab').
    + done.
    + done.
    + done.
    + rewrite <- Hm, take_take. f_equal. lia.
    + lia.
    + lia.
    + done.
    + apply Hab.
    + rewrite set_b_id in Ep. rewrite Ep. cbn [bind]. eexists _, j. split; [|split; [lia|split; [lia|split; [apply at_block_set_b; [exact Hab'|apply Hab]|exact Hc]]]].
      rewrite <- Nat2Z.inj_mul, Nat2Z.id, u64_small by lia. do 2 f_equal; [do 2 f_equal|]; lia.
  - exists ctx, 0%nat. rewrite Nat.mul_0_r, drop_0, Nat.sub_0_r, Nat.add_0_r. split; [done|]. split; [lia|]. split; [lia|]. done.
Qed.

Lemma Skein_Update_spec n G ctx M msg L :
  length G = WCNT v -> sk_absorbed n G ctx M -> (L <= length msg)%nat -> Z.of_nat (length M + L) + Z.of_nat B < 2 ^ 64 ->
  exists ctx', Skein_Update v ctx msg (Z.of_nat L) = Ok ctx' /\ sk_absorbed n G ctx' (M ++ take L msg).
Proof.
  intros HG Hst HL Hlt. pose proof B_min as HB. destruct (full_spec M) as (F1 & F2 & F3). pose proof Hst as [Ab Ac Ap].
  set (p := (length M - B * full M)%nat) in *. set (M' := M ++ take L msg). assert (length M' = (length M + L)%nat) as LM by (unfold M'; rewrite length_app, length_take; lia).
  unfold Skein_Update. rewrite Ac, u64_small by lia. destruct (Z.ltb_spec (Z.of_nat B) (Z.of_nat L + Z.of_nat p)) as [Hgt|Hle].
  - assert (exists ctx1 c, finish_buffer v ctx msg (Z.of_nat L) = Ok (ctx1, drop c msg, Z.of_nat (L - c)) /\ (c < L)%nat /\
      exists k, at_block n G ctx1 k M' /\ h_bCnt ctx1 = 0 /\ (B * k)%nat = (length M + c)%nat) as (ctx1 & c & E1 & Hc & k & Hab & Hb & Hk).
    { destruct (decide (M = [])) as [->|HM].
      - exists ctx, 0%nat. unfold finish_buffer. rewrite Ac. unfold p. cbn [length Nat.sub Z.of_nat Z.eqb negb]. rewrite drop_0, Nat.sub_0_r. split; [done|]. split; [cbn in *; lia|].
        exists 0%nat. split; [|split; [done|cbn; lia]]. replace (full []) with 0%nat in Ab by (symmetry; apply full_short; cbn; lia).
        change M' with ([] ++ take L msg). apply at_block_app; [exact Ab|cbn; lia].
      - destruct (finish_buffer_spec n G ctx M msg L HG Hst HM HL ltac:(fold p; lia) ltac:(lia)) as (ctx1 & E & Hab & Hb).
        fold p in E. exists ctx1, (B - p)%nat. split; [exact E|]. split; [lia|]. exists (full M + 1)%nat. split; [exact Hab|]. split; [exact Hb|]. lia. }
    rewrite E1. cbn [bind]. destruct (direct_blocks_spec n G ctx1 k M' (drop c msg) (L - c)) as (ctx2 & j & -> & J1 & J2 & Hab2 & Hb2).
    + done.
    + done.
    + done.
    + unfold M'. rewrite Hk, <- drop_drop, drop_app_length. by rewrite skipn_firstn_comm.
    + rewrite length_drop. lia.
    + lia.
    + lia.
    + lia.
    + cbn [bind]. rewrite drop_drop. destruct (Z.eqb_spec (Z.of_nat (L - c - B * j)) 0) as [|_]; [lia|]. cbn [negb]. rewrite Hb2, Nat2Z.id. cbn [Z.to_nat].
      rewrite memcpy_ok by (rewrite ?(ab_b _ _ _ _ _ Hab2), ?length_drop; lia). cbn [bind]. eexists. split; [reflexivity|].
      assert (full M' = k + j)%nat as Hf by (apply full_unique; lia).
      assert (length M' - B * (k + j) = L - c - B * j)%nat as Hr by lia.
      split; rewrite Hf.
      * apply at_block_set_b; [exact Hab2|]. pose proof (ab_b _ _ _ _ _ Hab2). rewrite !length_app, !length_take, !length_drop. lia.
      * cbn [h_bCnt set_b]. rewrite u64_small by lia. lia.
      * cbn [ctx_b set_b]. rewrite take_0, app_nil_l, Hr. rewrite take_app_le, take_ge by (rewrite ?length_take, ?length_drop; lia).
        unfold M'. replace (B * (k + j))%nat with (length M + (c + B * j))%nat by lia. rewrite drop_app_add, skipn_firstn_comm. f_equal. lia.
  - cbn [bind]. assert (full M' = full M) as Hf.
    { destruct (decide (M = [])) as [EM|HM].
      - rewrite !full_short; [done| |]; subst M; cbn in *; lia.
      - specialize (F3 HM). apply full_unique; lia. }
    destruct (Z.eqb_spec (Z.of_nat L) 0) as [H0|H0]; cbn [negb].
    + exists ctx. split; [done|]. unfold M'. replace L with 0%nat by lia. by rewrite take_0, app_nil_r.
    + rewrite Ac, !Nat2Z.id, memcpy_ok by (rewrite ?(ab_b _ _ _ _ _ Ab); lia). cbn [bind]. eexists. split; [reflexivity|].
      assert (length M' - B * full M = p + L)%nat as Hr by lia.
      split; rewrite Hf.
      * apply at_block_set_b; [by apply at_block_app|]. rewrite !length_app, !length_take, length_drop. pose proof (ab_b _ _ _ _ _ Ab). lia.
      * cbn [h_bCnt set_b]. rewrite u64_small by lia. lia.
      * cbn [ctx_b set_b]. rewrite Hr, Ap. unfold M'. rewrite drop_app_le by lia. rewrite app_assoc, take_app_le, take_ge; [done| |]; rewrite length_app, length_take, length_drop; lia.
Qed.

(** ** The end of the message *)
Lemma block_count_full M : block_count tf M = (full M + 1)%nat.
Proof.
  pose proof B_min as HB. unfold block_count, full. rewrite B_Nb. destruct (length M) as [|l].
  - cbn [Nat.add Nat.sub]. rewrite (Nat.div_small (B - 1) B), (Nat.div_small 0 B) by lia. reflexivity.
  - replace (S l + B - 1)%nat with (l + 1 * B)%nat by lia. rewrite Nat.div_add by lia. replace (S l - 1)%nat with l by lia. lia.
Qed.

Lemma ubi_prefix pad G M j : (j <= full M)%nat -> Z.of_nat (length M) < 2 ^ 64 -> foldl (ubi_step tf type_msg pad M) G (seq 0 j) = msg_chain j G M.
Proof.
  intros Hj HM. pose proof B_min as HB. destruct (full_spec M) as (F1 & F2 & F3). induction j as [|j IH]; [done|].
  rewrite seq_S, foldl_snoc, IH, msg_chain_S by lia. cbn [Nat.add]. unfold ubi_step. rewrite block_count_full, B_Nb.
  destruct (Nat.eqb_spec (j + 1) (full M + 1)) as [|_]; [lia|]. rewrite andb_false_r. assert (B * (j + 1) <= length M)%nat as Hle by nia.
  rewrite Nat.min_r, tweak_spec by lia. f_equal. unfold block. rewrite B_Nb.
  rewrite length_take, length_drop, Nat.min_l, Nat.sub_diag by lia. by rewrite app_nil_r.
Qed.

Lemma ubi_msg pad G M : Z.of_nat (length M) < 2 ^ 64 ->
  ubi tf type_msg pad G M =
  compress tf (msg_chain (full M) G M) (Z.of_nat (length M), flags type_msg pad (full M =? 0)%nat true)
    (drop (B * full M) M ++ replicate (B - (length M - B * full M)) 0).
Proof.
  intros HM. destruct (full_spec M) as (F1 & F2 & F3). unfold ubi. rewrite block_count_full, seq_app, foldl_app, ubi_prefix by done. cbn [seq foldl Nat.add].
  unfold ubi_step. rewrite block_count_full, Nat.eqb_refl, andb_true_r, B_Nb. rewrite Nat.min_l, tweak_spec by lia. f_equal. unfold block. rewrite B_Nb.
  rewrite take_ge by (rewrite length_drop; lia). by rewrite length_drop.
Qed.

(** A message of at most one block. *)
Lemma ubi_short type G M : (length M <= B)%nat ->
  ubi tf type false G M = compress tf G (Z.of_nat (length M), flags type false true true) (M ++ replicate (B - length M) 0).
Proof.
  intros HM. pose proof B_min. unfold ubi. rewrite block_count_full, full_short by done. cbn [Nat.add seq foldl]. unfold ubi_step.
  rewrite block_count_full, full_short by done. cbn [Nat.add Nat.eqb andb]. rewrite B_Nb, Nat.min_l, tweak_spec by lia. f_equal.
  unfold block. rewrite B_Nb, Nat.mul_0_r, drop_0, take_ge by lia. done.
Qed.

(** One block with the tweak words given. *)
Lemma Process_Block_one ctx blk add : length (ctx_X ctx) = WCNT v -> length blk = B -> 0 <= h_T0 ctx + add < 2 ^ 64 ->
  exists T1, Process_Block v ctx blk 1 add =
    Ok (Ctxt (h_hashBitLen ctx) (h_bCnt ctx) (h_T0 ctx + add) T1 (compress tf (ctx_X ctx) (h_T0 ctx + add, h_T1 ctx) blk) (ctx_b ctx)).
Proof.
  intros HX Hb Hadd. change 1 with (Z.of_nat 1). rewrite (Process_Block_spec v tf) by (done || lia). cbn [chain_from fst snd].
  rewrite u64_small by lia. rewrite take_ge by lia. by eexists.
Qed.

(** The output of [Final]: [i] blocks have been written. *)
Definition out_block (G : list Z) (i : nat) : list Z := of_words (ubi tf type_out false G (le_bytes 8 (Z.of_nat i))).

Lemma ubi_length type pad G M : length (ubi tf type pad G M) = WCNT v.
Proof.
  unfold ubi. rewrite block_count_full, Nat.add_1_r, seq_S, foldl_snoc. unfold ubi_step. apply (skein_compress_length v tf).
Qed.

Lemma of_words_length s : length (of_words s) = (8 * length s)%nat.
Proof. unfold of_words. induction s as [|x s IH]; [done|]. cbn [fmap list_fmap concat]. rewrite length_app, le_bytes_length, IH. cbn [length]. lia. Qed.

Lemma output_loop_spec G n : length G = WCNT v -> forall fuel ctx i,
  ctx_X ctx = G -> length (ctx_b ctx) = B -> drop 8 (ctx_b ctx) = replicate (B - 8) 0 -> (n <= B * (i + fuel))%nat -> Z.of_nat n < 2 ^ 61 ->
  output_loop v fuel ctx G (Z.of_nat n) (Z.of_nat i) =
  Ok (take (n - B * i) (concat (out_block G <$> seq i ((n + B - 1) / B - i)))).
Proof.
  intros HG. pose proof B_min as HB. induction fuel as [|fuel IH]; intros ctx i HX Hb Hz Hf Hn; cbn [output_loop].
  - destruct (Z.ltb_spec (Z.of_nat i * Z.of_nat B) (Z.of_nat n)); [lia|]. replace (n - B * i)%nat with 0%nat by lia. by rewrite take_0.
  - destruct (Z.ltb_spec (Z.of_nat i * Z.of_nat B) (Z.of_nat n)) as [Hlt|Hge].
    2: { replace (n - B * i)%nat with 0%nat by lia. by rewrite take_0. }
    rewrite memcpy_ok by (rewrite ?le_bytes_length; lia). rewrite take_0, app_nil_l. cbn [bind Nat.add]. rewrite (take_ge (le_bytes 8 _)) by (by rewrite le_bytes_length).
    rewrite Hz. set (blk := le_bytes 8 (Z.of_nat i) ++ replicate (B - 8) 0).
    assert (length blk = B) as Lb by (unfold blk; rewrite length_app, le_bytes_length, length_replicate; lia).
    set (c := Skein_Start_New_Type _ _). destruct (Process_Block_one c blk 8) as (T1 & E); [by rewrite <- HX in HG|done|done|].
    change (ctx_b c) with blk in *. rewrite E. cbn [bind ctx_X]. change (ctx_X c) with (ctx_X ctx). rewrite HX. unfold c. cbn [Skein_Start_New_Type h_T0 h_T1 Z.add].
    rewrite flags_start_out. replace (compress tf G _ blk) with (ubi tf type_out false G (le_bytes 8 (Z.of_nat i))).
    2: { rewrite ubi_short by (rewrite le_bytes_length; lia). by rewrite le_bytes_length. }
    set (X := ubi _ _ _ _ _). assert (length (of_words X) = B) as LX by (rewrite of_words_length; unfold X; by rewrite ubi_length).
    set (m := if Z.of_nat B <=? _ then _ else _). assert (m = Z.of_nat (Nat.min (n - B * i) B)) as -> by (unfold m; destruct (Z.leb_spec (Z.of_nat B) (Z.of_nat n - Z.of_nat i * Z.of_nat B)); lia).
    rewrite Nat2Z.id. unfold Skein_Put64_LSB_First. fold (of_words X). rewrite decide_True by lia. cbn [bind].
    replace (Z.of_nat i + 1) with (Z.of_nat (S i)) by lia.
    rewrite (IH _ (S i)); [|reflexivity|exact Lb|exact (drop_app_length' _ _ 8 (eq_sym (le_bytes_length 8 _)))|lia|exact Hn]. cbn [bind]. f_equal.
    assert (i < (n + B - 1) / B)%nat as Hi by (apply Nat.div_le_lower_bound; lia).
    replace ((n + B - 1) / B - i)%nat with (S ((n + B - 1) / B - S i)) by lia. cbn [seq fmap list_fmap concat]. change (out_block G i) with (of_words X).
    destruct (decide (n - B * i <= B)%nat) as [Hs|Hs].
    + rewrite Nat.min_l by lia. rewrite (take_app_le (of_words X)) by lia. replace (n - B * S i)%nat with 0%nat by lia. by rewrite take_0, app_nil_r.
    + rewrite Nat.min_r, (take_ge (of_words X)) by lia. rewrite (take_app_ge (of_words X)) by lia. do 2 f_equal. lia.
Qed.

Lemma Skein_Final_spec n G ctx M pad :
  length G = WCNT v -> 0 <= n < 2 ^ 31 -> sk_absorbed n G ctx M -> Z.of_nat (length M) < 2 ^ 64 ->
  Skein_Final v (set_T1 ctx (flags type_msg pad (full M =? 0)%nat false)) = Ok (output tf n (ubi tf type_msg pad G M)).
Proof.
  intros HG Hn [[A1 A2 A3 A4 A5] Ac Ap] HM. pose proof B_min as HB. destruct (full_spec M) as (F1 & F2 & F3). set (k := full M) in *.
  unfold Skein_Final. cbn [set_T1 h_T1 ctx_b h_bCnt]. rewrite flags_final, Ac. set (p := (length M - B * k)%nat) in *.
  assert (zero_pad v (ctx_b ctx) (Z.of_nat p) = Ok (drop (B * k) M ++ replicate (B - p) 0)) as ->.
  { unfold zero_pad. destruct (Z.ltb_spec (Z.of_nat p) (Z.of_nat B)).
    - rewrite Nat2Z.id, memcpy_ok by (rewrite ?length_replicate; lia). rewrite Ap, (take_ge (replicate _ _)) by (rewrite length_replicate; lia).
      rewrite (drop_ge (ctx_b ctx)), app_nil_r by lia. done.
    - replace (B - p)%nat with 0%nat by lia. cbn [replicate]. rewrite app_nil_r, <- Ap. rewrite take_ge by lia. done. }
  cbn [bind]. set (blk := drop (B * k) M ++ replicate (B - p) 0).
  assert (length blk = B) as Lb by (unfold blk; rewrite length_app, length_drop, length_replicate; lia).
  set (c := set_b _ blk _). destruct (Process_Block_one c blk (h_bCnt c)) as (T1 & E).
  - unfold c. cbn [set_b set_T1 ctx_X]. rewrite A2. by apply msg_chain_length.
  - done.
  - unfold c. cbn [set_b set_T1 h_T0 h_bCnt]. rewrite A3, ?Ac. lia.
  - change (ctx_b c) with blk in *. rewrite E. unfold c. cbn [bind set_b set_T1 h_hashBitLen h_bCnt h_T0 h_T1 ctx_X ctx_b]. rewrite A1, A2, A3.
    replace (compress tf _ _ blk) with (ubi tf type_msg pad G M).
    2: { rewrite ubi_msg by done. fold k p blk. do 2 f_equal. lia. }
    set (G1 := ubi _ _ _ _ _). rewrite u64_small, Z.shiftr_div_pow2 by lia. change (2 ^ 3) with 8. set (m := Z.to_nat ((n + 7) / 8)).
    assert (0 <= (n + 7) / 8 < 2 ^ 61) as Hm by (split; [apply Z.div_pos; lia|apply Z.div_lt_upper_bound; lia]).
    replace ((n + 7) / 8) with (Z.of_nat m) by (unfold m; lia).
    etransitivity; [apply (output_loop_spec G1 m (ubi_length _ _ _ _) _ _ 0%nat)|].
    + done.
    + cbn [set_b ctx_b]. apply length_replicate.
    + cbn [set_b ctx_b]. apply drop_replicate.
    + replace (Z.to_nat (Z.of_nat m / Z.of_nat B + 1)) with (m / B + 1)%nat by (rewrite <- Nat2Z.inj_div; lia).
      pose proof (Nat.Div0.div_mod m B). pose proof (Nat.mod_upper_bound m B ltac:(lia)). lia.
    + unfold m. lia.
    + rewrite Nat.mul_0_r, !Nat.sub_0_r. unfold output. rewrite B_Nb. fold m. reflexivity.
Qed.

(** ** The initial values *)
Lemma cfg_block_spec n : cfg_block v n = config_string n ++ replicate (B - 32) 0.
Proof.
  unfold cfg_block, config_string. rewrite fmap_app, concat_app. cbn [fmap list_fmap concat]. rewrite app_nil_r. unfold BLOCK_BYTES. pose proof (ag_min (v := v) (tf := tf)).
  replace (8 * WCNT v - 32)%nat with (8 * (WCNT v - 4))%nat by lia. replace (WCNT v - 3)%nat with (S (WCNT v - 4)) by lia. generalize (WCNT v - 4)%nat as w. intros w.
  assert (concat (le_bytes 8 <$> replicate w 0) = replicate (8 * w) 0) as E.
  { induction w as [|w IH]; [done|]. cbn [replicate fmap list_fmap concat]. rewrite IH. replace (8 * S w)%nat with (8 + 8 * w)%nat by lia. by rewrite replicate_add. }
  cbn [replicate fmap list_fmap concat]. rewrite E. change (replicate 16 0) with (replicate 8 0 ++ replicate 8 0). rewrite <- !app_assoc. reflexivity.
Qed.

Lemma config_string_length n : length (config_string n) = 32%nat.
Proof. reflexivity. Qed.

Lemma initial_ubi n :
  initial tf n = compress tf (replicate (WCNT v) 0) (32, flags type_cfg false true true) (config_string n ++ replicate (B - 32) 0).
Proof. pose proof B_min. unfold initial. rewrite <- (ag_words (v := v)). rewrite ubi_short by (rewrite config_string_length; lia). by rewrite config_string_length. Qed.

Lemma initial_length n : length (initial tf n) = WCNT v.
Proof. apply ubi_length. Qed.

Context (Hpre : Forall (fun p => p.2 = initial tf p.1) (precomputed v)).

Lemma Skein_Init_spec ctx n : length (ctx_b ctx) = B ->
  exists ctx', Skein_Init v ctx n = Ok ctx' /\ sk_absorbed n (initial tf n) ctx' [].
Proof.
  intros Hb. pose proof B_min as HB. unfold Skein_Init.
  assert (exists c, match initial_X v n with
    | Some X => Ok (set_X (set_hashBitLen ctx n) X)
    | None => Process_Block v (set_X (Skein_Start_New_Type (set_hashBitLen ctx n) SKEIN_T1_BLK_TYPE_CFG_FINAL) (replicate (WCNT v) 0)) (cfg_block v n) 1 SKEIN_CFG_STR_LEN
    end = Ok c /\ h_hashBitLen c = n /\ ctx_X c = initial tf n /\ ctx_b c = ctx_b ctx) as (c & -> & C1 & C2 & C3).
  { unfold initial_X. destruct (find _ (precomputed v)) as [[m X]|] eqn:E; cbn [fmap option_fmap option_map snd].
    - apply find_some in E as [Hin E]. cbn in E. apply Z.eqb_eq in E as ->. rewrite Forall_forall in Hpre. specialize (Hpre (n, X)). cbn in Hpre.
      eexists. split; [reflexivity|]. split; [done|]. split; [|done]. apply Hpre. exact Hin.
    - rewrite cfg_block_spec.
      destruct (Process_Block_one (set_X (Skein_Start_New_Type (set_hashBitLen ctx n) SKEIN_T1_BLK_TYPE_CFG_FINAL) (replicate (WCNT v) 0)) (config_string n ++ replicate (B - 32) 0) 32)
        as (T1 & E1).
      + cbn. apply length_replicate.
      + rewrite length_app, length_replicate, config_string_length. lia.
      + cbn. lia.
      + change SKEIN_CFG_STR_LEN with 32. rewrite E1. eexists. split; [reflexivity|]. split; [done|]. split; [|done]. cbn [ctx_X h_T0 h_T1 set_X Skein_Start_New_Type Z.add].
        by rewrite flags_start_cfg, initial_ubi. }
  cbn [bind]. eexists. split; [reflexivity|]. assert (full [] = 0%nat) as Hf by (apply full_short; cbn; lia).
  split; rewrite Hf; [split|..]; cbn [Skein_Start_New_Type h_hashBitLen ctx_X h_T0 h_T1 ctx_b h_bCnt]; rewrite ?Nat.mul_0_r; [done|exact C2|done|exact flags_start_msg|by rewrite C3|done|done].
Qed.

(** ** The whole hash, of a message in bytes and the flag of its last byte *)
Lemma skein_absorbs n ctx (M msg : list Z) L (pad : bool) :
  sk_absorbed n (initial tf n) ctx M -> 0 <= n < 2 ^ 31 -> (L <= length msg)%nat -> Z.of_nat (length M + L) + Z.of_nat B < 2 ^ 64 ->
  exists ctx', Skein_Update v ctx msg (Z.of_nat L) = Ok ctx' /\ sk_absorbed n (initial tf n) ctx' (M ++ take L msg) /\
    Skein_Final v (set_T1 ctx' (if pad then Z.lor (h_T1 ctx') SKEIN_T1_FLAG_BIT_PAD else h_T1 ctx')) =
    Ok (output tf n (ubi tf type_msg pad (initial tf n) (M ++ take L msg))).
Proof.
  intros Hst Hn HL Hlt. destruct (Skein_Update_spec n (initial tf n) ctx M msg L (initial_length n) Hst HL Hlt) as (ctx' & E & Hst').
  exists ctx'. split; [exact E|]. split; [exact Hst'|]. rewrite (ab_T1 _ _ _ _ _ (sa_block _ _ _ _ Hst')), flags_pad.
  replace (if pad then _ else _) with (flags type_msg pad (full (M ++ take L msg) =? 0)%nat false) by (by destruct pad).
  apply Skein_Final_spec; [apply initial_length|exact Hn|exact Hst'|rewrite length_app, length_take; lia].
Qed.
End Variant.

(** The tables of the source are what the configuration block gives. *)
Definition precomputed_right (v : variant) (tf : threefish) : bool :=
  forallb (fun p => bool_decide (p.2 = initial tf p.1)) (precomputed v).

Lemma precomputed_tables : precomputed_right skein256 tf256 && precomputed_right skein512 tf512 && precomputed_right skein1024 tf1024 = true.
Proof. vm_compute. reflexivity. Qed.

Lemma precomputed_right_spec v tf : precomputed_right v tf = true -> Forall (fun p => p.2 = initial tf p.1) (precomputed v).
Proof.
  unfold precomputed_right. rewrite forallb_forall. intros Hp. apply List.Forall_forall. intros p Hin. apply Hp in Hin. by apply bool_decide_eq_true in Hin.
Qed.

Lemma precomputed_512 : Forall (fun p => p.2 = initial tf512 p.1) (precomputed skein512).
Proof. apply precomputed_right_spec. pose proof precomputed_tables as H. apply andb_prop in H as [H _]. by apply andb_prop in H as [_ H]. Qed.

Lemma precomputed_1024 : Forall (fun p => p.2 = initial tf1024 p.1) (precomputed skein1024).
Proof. apply precomputed_right_spec. pose proof precomputed_tables as H. by apply andb_prop in H as [_ H]. Qed.
#[local] Opaque initial ubi output.

(** ** The interface in bits *)
Lemma last_byte_spec : forall b, is_byte b -> forall r, 1 <= r <= 7 ->
  let mask := u8 (Z.shiftl 1 (7 - r)) in u8 (Z.lor (Z.land b (0 - mask)) mask) = b / 2 ^ (8 - r) * 2 ^ (8 - r) + 2 ^ (7 - r).
Proof.
  intros b Hb r Hr mask. pose proof (byte_cases (fun b => forallb (fun r =>
    u8 (Z.lor (Z.land b (0 - u8 (Z.shiftl 1 (7 - r)))) (u8 (Z.shiftl 1 (7 - r)))) =? b / 2 ^ (8 - r) * 2 ^ (8 - r) + 2 ^ (7 - r)) [1; 2; 3; 4; 5; 6; 7])
    ltac:(vm_compute; reflexivity) b Hb) as H.
  rewrite forallb_forall in H. apply Z.eqb_eq, H. cbn [In]. lia.
Qed.

(** The variant that [Init] selects. *)
Definition selected (hashbitlen : Z) : variant := if hashbitlen <=? 512 then skein512 else skein1024.
Definition cipher (hashbitlen : Z) : threefish := if hashbitlen <=? 512 then tf512 else tf1024.

#[export] Instance selected_agrees hashbitlen : Agrees (selected hashbitlen) (cipher hashbitlen).
Proof. unfold selected, cipher. destruct (hashbitlen <=? 512); exact _. Qed.

Lemma selected_precomputed hashbitlen : Forall (fun p => p.2 = initial (cipher hashbitlen) p.1) (precomputed (selected hashbitlen)).
Proof. unfold selected, cipher. destruct (hashbitlen <=? 512); [exact precomputed_512|exact precomputed_1024]. Qed.

Definition selected_bits (hashbitlen : Z) : Z := if hashbitlen <=? 512 then 512 else 1024.

Lemma skein_init_selected u hashbitlen : 0 <= hashbitlen < 2 ^ 31 ->
  skein_init u hashbitlen = let! ctx := Skein_Init (selected hashbitlen) u hashbitlen in Ok (SKEIN_SUCCESS, SkeinState (selected_bits hashbitlen) ctx).
Proof. intros Hn. unfold skein_init, selected, selected_bits, Skein_512_Init, Skein1024_Init. rewrite u64_small by lia. by destruct (hashbitlen <=? 512). Qed.

Lemma select_update_selected hashbitlen : select_update (selected_bits hashbitlen) = Some (Skein_Update (selected hashbitlen)).
Proof. unfold selected_bits, selected. by destruct (hashbitlen <=? 512). Qed.

Lemma skein_final_selected hashbitlen ctx :
  skein_final (SkeinState (selected_bits hashbitlen) ctx) = let! h := Skein_Final (selected hashbitlen) ctx in Ok (SKEIN_SUCCESS, h).
Proof. unfold selected_bits, selected. by destruct (hashbitlen <=? 512). Qed.

Lemma set_T1_id ctx : set_T1 ctx (h_T1 ctx) = ctx.
Proof. by destruct ctx. Qed.

Lemma land_7_mod z : Z.land z 7 = z mod 8.
Proof. change 7 with (Z.ones 3). by rewrite Z.land_ones. Qed.

Lemma skein_hash_spec u hashbitlen data n :
  0 <= hashbitlen < 2 ^ 31 -> length (ctx_b u) = BLOCK_BYTES (selected hashbitlen) -> bytes data -> 0 <= n <= 8 * Z.of_nat (length data) -> n < 2 ^ 64 ->
  skein_hash u hashbitlen data n = Ok (SKEIN_SUCCESS, hash (cipher hashbitlen) hashbitlen data n).
Proof.
  intros Hh Hb Hd Hn Hlt. unfold skein_hash. rewrite skein_init_selected by done.
  destruct (Skein_Init_spec _ _ (selected_precomputed hashbitlen) u hashbitlen Hb) as (ctx & -> & Hst). cbn [bind].
  pose proof (B_min (selected hashbitlen) (cipher hashbitlen)) as HB.
  set (L := Z.to_nat (n / 8)). pose proof (Z.div_mod n 8 ltac:(lia)) as En. pose proof (Z.mod_pos_bound n 8 ltac:(lia)) as Hr.
  assert (0 <= n / 8) as Hdiv by (apply Z.div_pos; lia). assert (Z.of_nat L = n / 8) as EL by (unfold L; lia).
  unfold skein_update. cbn [statebits ctx_u]. rewrite land_7_mod, select_update_selected. rewrite Z.shiftr_div_pow2 by lia. change (2 ^ 3) with 8. rewrite <- EL.
  unfold hash, message. fold L. destruct (Z.eqb_spec (n mod 8) 0) as [H0|H0].
  - destruct (skein_absorbs (selected hashbitlen) (cipher hashbitlen) hashbitlen ctx [] data L false Hst Hh ltac:(lia) ltac:(cbn [length]; lia)) as (ctx' & -> & _ & Ef).
    cbn [bind]. rewrite skein_final_selected. rewrite set_T1_id in Ef. rewrite Ef. reflexivity.
  - replace (Z.to_nat (Z.of_nat L + 1 - 1)) with L by lia. replace (Z.of_nat L + 1 - 1) with (Z.of_nat L) by lia.
    destruct (byte_lookup data L Hd ltac:(lia)) as (b & Eb & Hbb). rewrite (get_ok _ _ _ Eb). cbn [bind]. rewrite last_byte_spec by (done || lia).
    rewrite (word_lookup _ _ _ Eb). set (last := b / _ * _ + _).
    destruct (skein_absorbs (selected hashbitlen) (cipher hashbitlen) hashbitlen ctx [] data L false Hst Hh ltac:(lia) ltac:(cbn [length]; lia)) as (ctx' & -> & Hst' & _).
    cbn [bind app] in *. assert (length (take L data) = L) as LL by (rewrite length_take; lia).
    destruct (skein_absorbs (selected hashbitlen) (cipher hashbitlen) hashbitlen ctx' (take L data) [last] 1 true Hst' Hh ltac:(cbn; lia) ltac:(lia)) as (ctx2 & E2 & _ & Ef).
    change (Z.of_nat 1) with 1 in E2. rewrite E2. cbn [bind]. rewrite skein_final_selected, Ef. reflexivity.
Qed.

(** The input in pieces of whole bytes. *)
Fixpoint skein_update_all (st : skein_state) (pieces : list (list Z)) : result skein_state :=
  match pieces with
  | [] => Ok st
  | p :: pieces =>
      let! (_, st) := skein_update st p (8 * Z.of_nat (length p)) in
      skein_update_all st pieces
  end.

Lemma skein_update_all_spec hashbitlen pieces : forall ctx M,
  sk_absorbed (selected hashbitlen) (cipher hashbitlen) hashbitlen (initial (cipher hashbitlen) hashbitlen) ctx M ->
  8 * Z.of_nat (length M + length (concat pieces)) < 2 ^ 64 ->
  exists ctx', skein_update_all (SkeinState (selected_bits hashbitlen) ctx) pieces = Ok (SkeinState (selected_bits hashbitlen) ctx') /\
    sk_absorbed (selected hashbitlen) (cipher hashbitlen) hashbitlen (initial (cipher hashbitlen) hashbitlen) ctx' (M ++ concat pieces).
Proof.
  pose proof (B_min (selected hashbitlen) (cipher hashbitlen)) as HB.
  induction pieces as [|p pieces IH]; intros ctx M Hst Hlt; cbn [skein_update_all concat] in *.
  - exists ctx. rewrite app_nil_r. done.
  - rewrite length_app in Hlt. unfold skein_update. cbn [statebits ctx_u].
    rewrite land_7_mod, Z.mul_comm, Z.mod_mul, select_update_selected, Z.shiftr_div_pow2 by lia. change (2 ^ 3) with 8. rewrite Z.div_mul by lia. cbn [Z.eqb].
    destruct (Skein_Update_spec (selected hashbitlen) (cipher hashbitlen) hashbitlen _ ctx M p (length p) (initial_length _ _ _) Hst ltac:(lia) ltac:(lia)) as (ctx1 & -> & Hst1).
    cbn [bind]. rewrite take_ge in Hst1 by lia. rewrite app_assoc. apply IH; [exact Hst1|]. rewrite length_app. lia.
Qed.

Lemma skein_pieces_spec u hashbitlen pieces :
  0 <= hashbitlen < 2 ^ 31 -> length (ctx_b u) = BLOCK_BYTES (selected hashbitlen) -> 8 * Z.of_nat (length (concat pieces)) < 2 ^ 64 ->
  (let! (_, st) := skein_init u hashbitlen in let! st := skein_update_all st pieces in skein_final st) =
  Ok (SKEIN_SUCCESS, hash (cipher hashbitlen) hashbitlen (concat pieces) (8 * Z.of_nat (length (concat pieces)))).
Proof.
  intros Hh Hb Hlt. pose proof (B_min (selected hashbitlen) (cipher hashbitlen)) as HB. rewrite skein_init_selected by done.
  destruct (Skein_Init_spec _ _ (selected_precomputed hashbitlen) u hashbitlen Hb) as (ctx & -> & Hst). cbn [bind].
  destruct (skein_update_all_spec hashbitlen pieces ctx [] Hst Hlt) as (ctx' & -> & Hst'). cbn [bind app] in *. rewrite skein_final_selected.
  pose proof (Skein_Final_spec (selected hashbitlen) (cipher hashbitlen) hashbitlen _ ctx' (concat pieces) false (initial_length _ _ _) Hh Hst' ltac:(lia)) as Ef.
  rewrite <- (ab_T1 _ _ _ _ _ _ _ (sa_block _ _ _ _ _ _ Hst')), set_T1_id in Ef. rewrite Ef. cbn [bind]. unfold hash, message.
  rewrite Z.mul_comm, Z.mod_mul, Z.div_mul, Nat2Z.id, take_ge by lia. reflexivity.
Qed.
