(* ===== verification/Aes.v ===== *)
(** * AES

    The cipher of FIPS 197 on lists of bytes, column by column: what the AES code
    is checked against. *)

From stdpp Require Import base list numbers.
From Stdlib Require Import ZArith Lia Btauto.
From S2P Require Import Prelude Bytes Streaming Rijndael.

Module AES.
(** ** Rounds *)
Definition entry (s : list Z) (r c : nat) : Z := nth (4 * c + r) s 0.
Definition matrix (f : nat -> nat -> Z) : list Z := (fun k => f (k mod 4) (k / 4))%nat <$> seq 0 16.

(** The inverse of the affine map, and the inverse in the field. *)
Definition inv_sbox (b : Z) : Z := ginv (Z.lxor (rotl8 b 1) (Z.lxor (rotl8 b 3) (Z.lxor (rotl8 b 6) 0x05))).

Definition sub_bytes (s : list Z) : list Z := sbox <$> s.
Definition inv_sub_bytes (s : list Z) : list Z := inv_sbox <$> s.
Definition shift_rows (s : list Z) : list Z := matrix (fun r c => entry s r ((c + r) mod 4)%nat).
Definition inv_shift_rows (s : list Z) : list Z := matrix (fun r c => entry s r ((c + 4 - r) mod 4)%nat).

(** Every column is multiplied by the circulant matrix with this first row. *)
Definition mix (row : list Z) (s : list Z) : list Z :=
  matrix (fun r c => foldr Z.lxor 0 ((fun j => gmul (nth ((j + 4 - r) mod 4) row 0) (entry s j c)) <$> seq 0 4)).
Definition mix_columns : list Z -> list Z := mix [2; 3; 1; 1].
Definition inv_mix_columns : list Z -> list Z := mix [0x0e; 0x0b; 0x0d; 0x09].

Definition xor (s t : list Z) : list Z := zip_with Z.lxor s t.
Definition round (s key : list Z) : list Z := xor (mix_columns (shift_rows (sub_bytes s))) key.
Definition final_round (s key : list Z) : list Z := xor (shift_rows (sub_bytes s)) key.
Definition inv_round (s key : list Z) : list Z := inv_mix_columns (xor (inv_sub_bytes (inv_shift_rows s)) key).
Definition inv_final_round (s key : list Z) : list Z := xor (inv_sub_bytes (inv_shift_rows s)) key.

(** ** Keys *)
Definition rcon (i : nat) : Z := Nat.iter (i - 1) xtime 1.

(** The word after the words [w]. *)
Definition next_word (Nk : nat) (w : list (list Z)) : list Z :=
  let i := length w in
  let t := nth (i - 1) w [] in
  let t :=
    if (i mod Nk =? 0)%nat then xor (sub_bytes (drop 1 t ++ take 1 t)) [rcon (i / Nk); 0; 0; 0]
    else if (6 <? Nk)%nat && (i mod Nk =? 4)%nat then sub_bytes t
    else t in
  xor (nth (i - Nk) w []) t.

Definition words (key : list Z) : list (list Z) := (fun i => take 4 (drop (4 * i) key)) <$> seq 0 (length key / 4).
Definition rounds (Nk : nat) : nat := (Nk + 6)%nat.

Definition expand (key : list Z) : list (list Z) :=
  let Nk := (length key / 4)%nat in
  Nat.iter (4 * (rounds Nk + 1) - Nk) (fun w => w ++ [next_word Nk w]) (words key).

Definition round_key (w : list (list Z)) (i : nat) : list Z := concat (take 4 (drop (4 * i) w)).

(** ** The cipher *)
Definition cipher (Nr : nat) (w : list (list Z)) (s : list Z) : list Z :=
  let s := xor s (round_key w 0) in
  let s := foldl (fun s i => round s (round_key w i)) s (seq 1 (Nr - 1)) in
  final_round s (round_key w Nr).

Definition inv_cipher (Nr : nat) (w : list (list Z)) (s : list Z) : list Z :=
  let s := xor s (round_key w Nr) in
  let s := foldl (fun s i => inv_round s (round_key w i)) s (reverse (seq 1 (Nr - 1))) in
  inv_final_round s (round_key w 0).
End AES.

(** ** Blocks *)
Definition block16 (s : list Z) : Prop := bytes s /\ length s = 16%nat.

Lemma block16_inv s : block16 s ->
  exists b0 b1 b2 b3 b4 b5 b6 b7 b8 b9 ba bb bc bd be bf, s = [b0; b1; b2; b3; b4; b5; b6; b7; b8; b9; ba; bb; bc; bd; be; bf] /\
    is_byte b0 /\ is_byte b1 /\ is_byte b2 /\ is_byte b3 /\ is_byte b4 /\ is_byte b5 /\ is_byte b6 /\ is_byte b7 /\
    is_byte b8 /\ is_byte b9 /\ is_byte ba /\ is_byte bb /\ is_byte bc /\ is_byte bd /\ is_byte be /\ is_byte bf.
Proof.
  intros [Hb Hl]. destruct (sixteen s Hl) as (b0 & b1 & b2 & b3 & b4 & b5 & b6 & b7 & b8 & b9 & ba & bb & bc & bd & be & bf & ->).
  do 16 (apply Forall_cons_1 in Hb as [? Hb]). do 16 eexists. split; [reflexivity|]. repeat (split; [assumption|]). assumption.
Qed.

(** ** Multiplication in the field *)
Lemma gmul_lxor k a b : gmul k (Z.lxor a b) = Z.lxor (gmul k a) (gmul k b).
Proof.
  unfold gmul. induction (seq 0 8) as [|i l IH]; [done|]. cbn [fmap list_fmap foldr]. rewrite IH, Z.lxor_spec.
  set (x := foldr _ _ (_ <$> l)). set (y := foldr _ _ (_ <$> l)). clearbody x y.
  destruct (Z.testbit a (Z.of_nat i)), (Z.testbit b (Z.of_nat i)); cbn [xorb]; apply Z.bits_inj'; intros n _;
    rewrite ?Z.lxor_spec, ?Z.bits_0; btauto.
Qed.

Lemma lxor_columns a0 a1 a2 a3 b0 b1 b2 b3 :
  Z.lxor (Z.lxor a0 (Z.lxor a1 (Z.lxor a2 a3))) (Z.lxor b0 (Z.lxor b1 (Z.lxor b2 b3))) =
  Z.lxor (Z.lxor a0 b0) (Z.lxor (Z.lxor a1 b1) (Z.lxor (Z.lxor a2 b2) (Z.lxor a3 b3))).
Proof. apply Z.bits_inj'. intros n _. rewrite !Z.lxor_spec. btauto. Qed.

(** The sum of the rows is the sum of the columns. *)
Lemma lxor_transpose m00 m01 m02 m03 m10 m11 m12 m13 m20 m21 m22 m23 m30 m31 m32 m33 x0 x1 x2 x3 :
  Z.lxor m00 (Z.lxor m10 (Z.lxor m20 m30)) = x0 ->
  Z.lxor m01 (Z.lxor m11 (Z.lxor m21 m31)) = x1 ->
  Z.lxor m02 (Z.lxor m12 (Z.lxor m22 m32)) = x2 ->
  Z.lxor m03 (Z.lxor m13 (Z.lxor m23 m33)) = x3 ->
  Z.lxor (Z.lxor m00 (Z.lxor m01 (Z.lxor m02 m03))) (Z.lxor (Z.lxor m10 (Z.lxor m11 (Z.lxor m12 m13))) (Z.lxor (Z.lxor m20 (Z.lxor m21 (Z.lxor m22 m23))) (Z.lxor m30 (Z.lxor m31 (Z.lxor m32 m33))))) =
  Z.lxor x0 (Z.lxor x1 (Z.lxor x2 x3)).
Proof. intros <- <- <- <-. by rewrite (lxor_columns m20), (lxor_columns m10), (lxor_columns m00). Qed.

Lemma gmul_check : forallb (fun k => forallb (fun b => (0 <=? gmul k b) && (gmul k b <? 256)) all_bytes) [1; 2; 3; 0x09; 0x0b; 0x0d; 0x0e] = true.
Proof. by vm_compute. Qed.

Lemma gmul_is_byte k b : In k [1; 2; 3; 0x09; 0x0b; 0x0d; 0x0e] -> is_byte b -> is_byte (gmul k b).
Proof.
  intros Hk Hb. pose proof gmul_check as H. rewrite forallb_forall in H. specialize (H k Hk).
  pose proof (byte_cases _ H b Hb) as H1. cbv beta in H1. apply andb_prop in H1 as [H1 H2]. unfold is_byte. lia.
Qed.

Lemma gmul_1 b : is_byte b -> gmul 1 b = b.
Proof. intros Hb. apply Z.eqb_eq. revert b Hb. apply (byte_cases (fun b => gmul 1 b =? b)). by vm_compute. Qed.

(** The product of the two circulant matrices is the identity. *)
Lemma mix_matrices b : is_byte b ->
  forall r i : nat, (r < 4)%nat -> (i < 4)%nat ->
  Z.lxor (gmul (nth ((0 + 4 - r) mod 4) [0x0e; 0x0b; 0x0d; 0x09] 0) (gmul (nth ((i + 4 - 0) mod 4) [2; 3; 1; 1] 0) b))
    (Z.lxor (gmul (nth ((1 + 4 - r) mod 4) [0x0e; 0x0b; 0x0d; 0x09] 0) (gmul (nth ((i + 4 - 1) mod 4) [2; 3; 1; 1] 0) b))
       (Z.lxor (gmul (nth ((2 + 4 - r) mod 4) [0x0e; 0x0b; 0x0d; 0x09] 0) (gmul (nth ((i + 4 - 2) mod 4) [2; 3; 1; 1] 0) b))
               (gmul (nth ((3 + 4 - r) mod 4) [0x0e; 0x0b; 0x0d; 0x09] 0) (gmul (nth ((i + 4 - 3) mod 4) [2; 3; 1; 1] 0) b)))) =
  if (r =? i)%nat then b else 0.
Proof.
  intros Hb r i Hr Hi. apply Z.eqb_eq. revert b Hb.
  do 4 (destruct r as [|r]; [do 4 (destruct i as [|i]; [apply byte_cases; by vm_compute|]); lia|]). lia.
Qed.

(** ** The inverse cipher *)
Import AES.

Lemma inv_sbox_sbox b : is_byte b -> inv_sbox (sbox b) = b.
Proof. intros Hb. apply Z.eqb_eq. revert b Hb. apply (byte_cases (fun b => inv_sbox (sbox b) =? b)). by vm_compute. Qed.

Lemma inv_sub_sub s : bytes s -> inv_sub_bytes (sub_bytes s) = s.
Proof.
  intros Hs. unfold inv_sub_bytes, sub_bytes. rewrite <- list_fmap_compose. induction Hs as [|b s Hb Hs IH]; [done|].
  cbn [fmap list_fmap]. rewrite IH. f_equal. by apply inv_sbox_sbox.
Qed.

Lemma inv_shift_shift s : length s = 16%nat -> inv_shift_rows (shift_rows s) = s.
Proof.
  intros Hl. destruct (sixteen s Hl) as (b0 & b1 & b2 & b3 & b4 & b5 & b6 & b7 & b8 & b9 & ba & bb & bc & bd & be & bf & ->). reflexivity.
Qed.

(** One column, as the sum that [mix] computes. *)
Definition column (row : list Z) (a0 a1 a2 a3 : Z) (r : nat) : Z :=
  foldr Z.lxor 0 ((fun j => gmul (nth ((j + 4 - r) mod 4) row 0) (nth j [a0; a1; a2; a3] 0)) <$> seq 0 4).

Lemma mix_columns_explicit row b0 b1 b2 b3 b4 b5 b6 b7 b8 b9 ba bb bc bd be bf :
  mix row [b0; b1; b2; b3; b4; b5; b6; b7; b8; b9; ba; bb; bc; bd; be; bf] =
  (column row b0 b1 b2 b3 <$> seq 0 4) ++ (column row b4 b5 b6 b7 <$> seq 0 4) ++
  (column row b8 b9 ba bb <$> seq 0 4) ++ (column row bc bd be bf <$> seq 0 4).
Proof. reflexivity. Qed.

Definition row_ok (row : list Z) : Prop := forall i, In (nth (i mod 4) row 0) [1; 2; 3; 0x09; 0x0b; 0x0d; 0x0e].

Lemma column_byte row a0 a1 a2 a3 r :
  row_ok row -> is_byte a0 -> is_byte a1 -> is_byte a2 -> is_byte a3 -> is_byte (column row a0 a1 a2 a3 r).
Proof.
  intros Hr H0 H1 H2 H3. unfold column. cbn [seq fmap list_fmap foldr nth].
  do 4 (apply lxor_byte; [apply gmul_is_byte; [apply Hr|assumption]|]). unfold is_byte. lia.
Qed.

Lemma row_mix : row_ok [2; 3; 1; 1].
Proof.
  intros i. pose proof (Nat.mod_upper_bound i 4 ltac:(lia)) as H.
  destruct (i mod 4)%nat as [|[|[|[|n]]]]; [cbn; tauto|cbn; tauto|cbn; tauto|cbn; tauto|lia].
Qed.

Lemma row_inv_mix : row_ok [0x0e; 0x0b; 0x0d; 0x09].
Proof.
  intros i. pose proof (Nat.mod_upper_bound i 4 ltac:(lia)) as H.
  destruct (i mod 4)%nat as [|[|[|[|n]]]]; [cbn; tauto|cbn; tauto|cbn; tauto|cbn; tauto|lia].
Qed.

Lemma inv_column a0 a1 a2 a3 (r : nat) :
  is_byte a0 -> is_byte a1 -> is_byte a2 -> is_byte a3 -> (r < 4)%nat ->
  let c := column [2; 3; 1; 1] a0 a1 a2 a3 in
  column [0x0e; 0x0b; 0x0d; 0x09] (c 0%nat) (c 1%nat) (c 2%nat) (c 3%nat) r = nth r [a0; a1; a2; a3] 0.
Proof.
  intros H0 H1 H2 H3 Hr c. subst c.
  pose proof (mix_matrices a0 H0 r 0 Hr ltac:(lia)) as M0. pose proof (mix_matrices a1 H1 r 1 Hr ltac:(lia)) as M1.
  pose proof (mix_matrices a2 H2 r 2 Hr ltac:(lia)) as M2. pose proof (mix_matrices a3 H3 r 3 Hr ltac:(lia)) as M3.
  unfold column. cbn [seq fmap list_fmap foldr nth]. rewrite !Z.lxor_0_r, !gmul_lxor.
  etransitivity; [apply (lxor_transpose _ _ _ _ _ _ _ _ _ _ _ _ _ _ _ _ _ _ _ _ M0 M1 M2 M3)|]. clear - Hr.
  do 4 (destruct r as [|r]; [cbn [Nat.eqb nth]; by rewrite ?Z.lxor_0_r, ?Z.lxor_0_l|]). lia.
Qed.

Lemma inv_mix_mix s : block16 s -> inv_mix_columns (mix_columns s) = s.
Proof.
  intros Hs. destruct (block16_inv s Hs) as (b0 & b1 & b2 & b3 & b4 & b5 & b6 & b7 & b8 & b9 & ba & bb & bc & bd & be & bf & -> & H).
  destruct H as (H0 & H1 & H2 & H3 & H4 & H5 & H6 & H7 & H8 & H9 & Ha & Hb & Hc & Hd & He & Hf).
  unfold inv_mix_columns, mix_columns. rewrite mix_columns_explicit. cbn [seq fmap list_fmap app]. rewrite mix_columns_explicit. cbn [seq fmap list_fmap app].
  rewrite !inv_column by (assumption || lia). reflexivity.
Qed.

(** ** Blocks stay blocks *)
Lemma sub_bytes_block s : block16 s -> block16 (sub_bytes s).
Proof. intros [Hb Hl]. split; [|by unfold sub_bytes; rewrite length_fmap]. unfold bytes, sub_bytes. apply Forall_fmap. eapply List.Forall_impl; [|exact Hb]. intros a; apply sbox_byte. Qed.

Lemma matrix_entries f : length (matrix f) = 16%nat.
Proof. reflexivity. Qed.

Lemma shift_rows_block s : block16 s -> block16 (shift_rows s).
Proof.
  intros Hs. split; [|reflexivity]. destruct (block16_inv s Hs) as (b0 & b1 & b2 & b3 & b4 & b5 & b6 & b7 & b8 & b9 & ba & bb & bc & bd & be & bf & -> & H).
  destruct H as (H0 & H1 & H2 & H3 & H4 & H5 & H6 & H7 & H8 & H9 & Ha & Hb & Hc & Hd & He & Hf).
  change (bytes [b0; b5; ba; bf; b4; b9; be; b3; b8; bd; b2; b7; bc; b1; b6; bb]). byte_list.
Qed.

Lemma mix_block row s : row_ok row -> block16 s -> block16 (mix row s).
Proof.
  intros Hr Hs. split; [|reflexivity]. destruct (block16_inv s Hs) as (b0 & b1 & b2 & b3 & b4 & b5 & b6 & b7 & b8 & b9 & ba & bb & bc & bd & be & bf & -> & H).
  destruct H as (H0 & H1 & H2 & H3 & H4 & H5 & H6 & H7 & H8 & H9 & Ha & Hb & Hc & Hd & He & Hf).
  rewrite mix_columns_explicit. cbn [seq fmap list_fmap app]. byte_list; by apply column_byte.
Qed.

Lemma xor_block s k : block16 s -> block16 k -> block16 (xor s k).
Proof.
  intros [Hs Ls] [Hk Lk]. split; [by apply zip_lxor_bytes|]. unfold xor. rewrite length_zip_with. lia.
Qed.

Lemma xor_xor s k : length s = length k -> xor (xor s k) k = s.
Proof.
  revert k. induction s as [|a s IH]; intros [|b k] Hl; [done|done|done|]. unfold xor in *. cbn [zip_with]. rewrite IH by (cbn in Hl; lia).
  by rewrite Z.lxor_assoc, Z.lxor_nilpotent, Z.lxor_0_r.
Qed.

Lemma round_block s k : block16 s -> block16 k -> block16 (round s k).
Proof. intros Hs Hk. apply xor_block; [|exact Hk]. apply mix_block; [exact row_mix|]. by apply shift_rows_block, sub_bytes_block. Qed.

Lemma foldl_round_block ks s : Forall block16 ks -> block16 s -> block16 (foldl round s ks).
Proof. intros Hk. revert s. induction Hk as [|k ks Hk Hks IH]; intros s Hs; [done|]. cbn [foldl]. apply IH. by apply round_block. Qed.

Lemma inv_round_round s k : block16 s -> block16 k -> inv_round (shift_rows (sub_bytes (round s k))) k = shift_rows (sub_bytes s).
Proof.
  intros Hs Hk. pose proof (round_block s k Hs Hk) as [Br Lr]. unfold inv_round. rewrite inv_shift_shift by (unfold sub_bytes; by rewrite length_fmap).
  rewrite inv_sub_sub by exact Br. assert (block16 (shift_rows (sub_bytes s))) as Ht by (by apply shift_rows_block, sub_bytes_block).
  unfold round. rewrite xor_xor by (destruct Hk as [_ ->]; reflexivity). by apply inv_mix_mix.
Qed.

Lemma inv_rounds ks s : Forall block16 ks -> block16 s ->
  foldl inv_round (shift_rows (sub_bytes (foldl round s ks))) (reverse ks) = shift_rows (sub_bytes s).
Proof.
  intros Hk Hs. induction ks as [|k ks IH] using rev_ind; [done|]. apply Forall_app in Hk as [Hks Hk]. apply Forall_cons_1 in Hk as [Hk _].
  rewrite foldl_snoc, reverse_snoc. cbn [foldl]. rewrite inv_round_round by (try done; by apply foldl_round_block). by apply IH.
Qed.

Lemma foldl_keys (f : list Z -> list Z -> list Z) (g : nat -> list Z) l s : foldl (fun s i => f s (g i)) s l = foldl f s (g <$> l).
Proof. revert s. induction l as [|i l IH]; intros s; [done|]. cbn [fmap list_fmap foldl]. apply IH. Qed.

Lemma inv_cipher_cipher Nr w s :
  (forall i, (i <= Nr)%nat -> block16 (round_key w i)) -> block16 s -> (1 <= Nr)%nat -> inv_cipher Nr w (cipher Nr w s) = s.
Proof.
  intros Hw Hs HN. unfold inv_cipher, cipher. rewrite !foldl_keys, fmap_reverse. set (ks := round_key w <$> seq 1 (Nr - 1)).
  assert (Forall block16 ks) as Hks.
  { unfold ks. apply Forall_fmap, Forall_forall. intros i Hi. apply in_seq in Hi. apply Hw. lia. }
  pose proof (Hw 0%nat ltac:(lia)) as K0. pose proof (Hw Nr ltac:(lia)) as KN. pose proof (xor_block s _ Hs K0) as H0.
  unfold final_round. rewrite xor_xor by (destruct KN as [_ ->]; reflexivity). rewrite inv_rounds by done.
  unfold inv_final_round. rewrite inv_shift_shift by (unfold sub_bytes; rewrite length_fmap; apply H0). rewrite inv_sub_sub by apply H0.
  apply xor_xor. destruct Hs as [_ ->], K0 as [_ ->]. reflexivity.
Qed.
