(* ===== verification/Oaes.v ===== *)
(** * The AES library

    [src/src/crypto/oaes_lib.c] and [oaes_lib.h], as the configuration compiles
    them ([OAES_HAVE_ISAAC] and [OAES_DEBUG] undefined): keys and their
    expansion, the block cipher, and the messages with header, initial vector and
    padding.  A pointer argument that may be [NULL] is an option; the functions
    that change a context return it.  The results of [rand] and of the
    allocations are arguments. *)

From stdpp Require Import base list numbers.
From Stdlib Require Import ZArith Lia.
From S2P Require Import Prelude Bytes Streaming.

(** ** Constants *)
Definition OAES_BLOCK_SIZE : nat := 16.
Definition OAES_RKEY_LEN : nat := 4.
Definition OAES_COL_LEN : nat := 4.
Definition OAES_ROUND_BASE : nat := 7.
Definition OAES_FLAG_PAD : Z := 0x01.
Definition OAES_OPTION_NONE : Z := 0.
Definition OAES_OPTION_ECB : Z := 1.
Definition OAES_OPTION_CBC : Z := 2.

Definition oaes_header : list Z :=
  [0x4f; 0x41; 0x45; 0x53; 0x01; 0x02; 0x00; 0x00; 0x00; 0x00; 0x00; 0x00; 0x00; 0x00; 0x00; 0x00].

Definition oaes_gf_8 : list Z := [0x01; 0x02; 0x04; 0x08; 0x10; 0x20; 0x40; 0x80; 0x1b; 0x36].

Definition oaes_sub_byte_value : list (list Z) := [
  [0x63; 0x7c; 0x77; 0x7b; 0xf2; 0x6b; 0x6f; 0xc5; 0x30; 0x01; 0x67; 0x2b; 0xfe; 0xd7; 0xab; 0x76];
  [0xca; 0x82; 0xc9; 0x7d; 0xfa; 0x59; 0x47; 0xf0; 0xad; 0xd4; 0xa2; 0xaf; 0x9c; 0xa4; 0x72; 0xc0];
  [0xb7; 0xfd; 0x93; 0x26; 0x36; 0x3f; 0xf7; 0xcc; 0x34; 0xa5; 0xe5; 0xf1; 0x71; 0xd8; 0x31; 0x15];
  [0x04; 0xc7; 0x23; 0xc3; 0x18; 0x96; 0x05; 0x9a; 0x07; 0x12; 0x80; 0xe2; 0xeb; 0x27; 0xb2; 0x75];
  [0x09; 0x83; 0x2c; 0x1a; 0x1b; 0x6e; 0x5a; 0xa0; 0x52; 0x3b; 0xd6; 0xb3; 0x29; 0xe3; 0x2f; 0x84];
  [0x53; 0xd1; 0x00; 0xed; 0x20; 0xfc; 0xb1; 0x5b; 0x6a; 0xcb; 0xbe; 0x39; 0x4a; 0x4c; 0x58; 0xcf];
  [0xd0; 0xef; 0xaa; 0xfb; 0x43; 0x4d; 0x33; 0x85; 0x45; 0xf9; 0x02; 0x7f; 0x50; 0x3c; 0x9f; 0xa8];
  [0x51; 0xa3; 0x40; 0x8f; 0x92; 0x9d; 0x38; 0xf5; 0xbc; 0xb6; 0xda; 0x21; 0x10; 0xff; 0xf3; 0xd2];
  [0xcd; 0x0c; 0x13; 0xec; 0x5f; 0x97; 0x44; 0x17; 0xc4; 0xa7; 0x7e; 0x3d; 0x64; 0x5d; 0x19; 0x73];
  [0x60; 0x81; 0x4f; 0xdc; 0x22; 0x2a; 0x90; 0x88; 0x46; 0xee; 0xb8; 0x14; 0xde; 0x5e; 0x0b; 0xdb];
  [0xe0; 0x32; 0x3a; 0x0a; 0x49; 0x06; 0x24; 0x5c; 0xc2; 0xd3; 0xac; 0x62; 0x91; 0x95; 0xe4; 0x79];
  [0xe7; 0xc8; 0x37; 0x6d; 0x8d; 0xd5; 0x4e; 0xa9; 0x6c; 0x56; 0xf4; 0xea; 0x65; 0x7a; 0xae; 0x08];
  [0xba; 0x78; 0x25; 0x2e; 0x1c; 0xa6; 0xb4; 0xc6; 0xe8; 0xdd; 0x74; 0x1f; 0x4b; 0xbd; 0x8b; 0x8a];
  [0x70; 0x3e; 0xb5; 0x66; 0x48; 0x03; 0xf6; 0x0e; 0x61; 0x35; 0x57; 0xb9; 0x86; 0xc1; 0x1d; 0x9e];
  [0xe1; 0xf8; 0x98; 0x11; 0x69; 0xd9; 0x8e; 0x94; 0x9b; 0x1e; 0x87; 0xe9; 0xce; 0x55; 0x28; 0xdf];
  [0x8c; 0xa1; 0x89; 0x0d; 0xbf; 0xe6; 0x42; 0x68; 0x41; 0x99; 0x2d; 0x0f; 0xb0; 0x54; 0xbb; 0x16]].

Definition oaes_inv_sub_byte_value : list (list Z) := [
  [0x52; 0x09; 0x6a; 0xd5; 0x30; 0x36; 0xa5; 0x38; 0xbf; 0x40; 0xa3; 0x9e; 0x81; 0xf3; 0xd7; 0xfb];
  [0x7c; 0xe3; 0x39; 0x82; 0x9b; 0x2f; 0xff; 0x87; 0x34; 0x8e; 0x43; 0x44; 0xc4; 0xde; 0xe9; 0xcb];
  [0x54; 0x7b; 0x94; 0x32; 0xa6; 0xc2; 0x23; 0x3d; 0xee; 0x4c; 0x95; 0x0b; 0x42; 0xfa; 0xc3; 0x4e];
  [0x08; 0x2e; 0xa1; 0x66; 0x28; 0xd9; 0x24; 0xb2; 0x76; 0x5b; 0xa2; 0x49; 0x6d; 0x8b; 0xd1; 0x25];
  [0x72; 0xf8; 0xf6; 0x64; 0x86; 0x68; 0x98; 0x16; 0xd4; 0xa4; 0x5c; 0xcc; 0x5d; 0x65; 0xb6; 0x92];
  [0x6c; 0x70; 0x48; 0x50; 0xfd; 0xed; 0xb9; 0xda; 0x5e; 0x15; 0x46; 0x57; 0xa7; 0x8d; 0x9d; 0x84];
  [0x90; 0xd8; 0xab; 0x00; 0x8c; 0xbc; 0xd3; 0x0a; 0xf7; 0xe4; 0x58; 0x05; 0xb8; 0xb3; 0x45; 0x06];
  [0xd0; 0x2c; 0x1e; 0x8f; 0xca; 0x3f; 0x0f; 0x02; 0xc1; 0xaf; 0xbd; 0x03; 0x01; 0x13; 0x8a; 0x6b];
  [0x3a; 0x91; 0x11; 0x41; 0x4f; 0x67; 0xdc; 0xea; 0x97; 0xf2; 0xcf; 0xce; 0xf0; 0xb4; 0xe6; 0x73];
  [0x96; 0xac; 0x74; 0x22; 0xe7; 0xad; 0x35; 0x85; 0xe2; 0xf9; 0x37; 0xe8; 0x1c; 0x75; 0xdf; 0x6e];
  [0x47; 0xf1; 0x1a; 0x71; 0x1d; 0x29; 0xc5; 0x89; 0x6f; 0xb7; 0x62; 0x0e; 0xaa; 0x18; 0xbe; 0x1b];
  [0xfc; 0x56; 0x3e; 0x4b; 0xc6; 0xd2; 0x79; 0x20; 0x9a; 0xdb; 0xc0; 0xfe; 0x78; 0xcd; 0x5a; 0xf4];
  [0x1f; 0xdd; 0xa8; 0x33; 0x88; 0x07; 0xc7; 0x31; 0xb1; 0x12; 0x10; 0x59; 0x27; 0x80; 0xec; 0x5f];
  [0x60; 0x51; 0x7f; 0xa9; 0x19; 0xb5; 0x4a; 0x0d; 0x2d; 0xe5; 0x7a; 0x9f; 0x93; 0xc9; 0x9c; 0xef];
  [0xa0; 0xe0; 0x3b; 0x4d; 0xae; 0x2a; 0xf5; 0xb0; 0xc8; 0xeb; 0xbb; 0x3c; 0x83; 0x53; 0x99; 0x61];
  [0x17; 0x2b; 0x04; 0x7e; 0xba; 0x77; 0xd6; 0x26; 0xe1; 0x69; 0x14; 0x63; 0x55; 0x21; 0x0c; 0x7d]].

Definition oaes_gf_mul_2 : list (list Z) := [
  [0x00; 0x02; 0x04; 0x06; 0x08; 0x0a; 0x0c; 0x0e; 0x10; 0x12; 0x14; 0x16; 0x18; 0x1a; 0x1c; 0x1e];
  [0x20; 0x22; 0x24; 0x26; 0x28; 0x2a; 0x2c; 0x2e; 0x30; 0x32; 0x34; 0x36; 0x38; 0x3a; 0x3c; 0x3e];
  [0x40; 0x42; 0x44; 0x46; 0x48; 0x4a; 0x4c; 0x4e; 0x50; 0x52; 0x54; 0x56; 0x58; 0x5a; 0x5c; 0x5e];
  [0x60; 0x62; 0x64; 0x66; 0x68; 0x6a; 0x6c; 0x6e; 0x70; 0x72; 0x74; 0x76; 0x78; 0x7a; 0x7c; 0x7e];
  [0x80; 0x82; 0x84; 0x86; 0x88; 0x8a; 0x8c; 0x8e; 0x90; 0x92; 0x94; 0x96; 0x98; 0x9a; 0x9c; 0x9e];
  [0xa0; 0xa2; 0xa4; 0xa6; 0xa8; 0xaa; 0xac; 0xae; 0xb0; 0xb2; 0xb4; 0xb6; 0xb8; 0xba; 0xbc; 0xbe];
  [0xc0; 0xc2; 0xc4; 0xc6; 0xc8; 0xca; 0xcc; 0xce; 0xd0; 0xd2; 0xd4; 0xd6; 0xd8; 0xda; 0xdc; 0xde];
  [0xe0; 0xe2; 0xe4; 0xe6; 0xe8; 0xea; 0xec; 0xee; 0xf0; 0xf2; 0xf4; 0xf6; 0xf8; 0xfa; 0xfc; 0xfe];
  [0x1b; 0x19; 0x1f; 0x1d; 0x13; 0x11; 0x17; 0x15; 0x0b; 0x09; 0x0f; 0x0d; 0x03; 0x01; 0x07; 0x05];
  [0x3b; 0x39; 0x3f; 0x3d; 0x33; 0x31; 0x37; 0x35; 0x2b; 0x29; 0x2f; 0x2d; 0x23; 0x21; 0x27; 0x25];
  [0x5b; 0x59; 0x5f; 0x5d; 0x53; 0x51; 0x57; 0x55; 0x4b; 0x49; 0x4f; 0x4d; 0x43; 0x41; 0x47; 0x45];
  [0x7b; 0x79; 0x7f; 0x7d; 0x73; 0x71; 0x77; 0x75; 0x6b; 0x69; 0x6f; 0x6d; 0x63; 0x61; 0x67; 0x65];
  [0x9b; 0x99; 0x9f; 0x9d; 0x93; 0x91; 0x97; 0x95; 0x8b; 0x89; 0x8f; 0x8d; 0x83; 0x81; 0x87; 0x85];
  [0xbb; 0xb9; 0xbf; 0xbd; 0xb3; 0xb1; 0xb7; 0xb5; 0xab; 0xa9; 0xaf; 0xad; 0xa3; 0xa1; 0xa7; 0xa5];
  [0xdb; 0xd9; 0xdf; 0xdd; 0xd3; 0xd1; 0xd7; 0xd5; 0xcb; 0xc9; 0xcf; 0xcd; 0xc3; 0xc1; 0xc7; 0xc5];
  [0xfb; 0xf9; 0xff; 0xfd; 0xf3; 0xf1; 0xf7; 0xf5; 0xeb; 0xe9; 0xef; 0xed; 0xe3; 0xe1; 0xe7; 0xe5]].

Definition oaes_gf_mul_3 : list (list Z) := [
  [0x00; 0x03; 0x06; 0x05; 0x0c; 0x0f; 0x0a; 0x09; 0x18; 0x1b; 0x1e; 0x1d; 0x14; 0x17; 0x12; 0x11];
  [0x30; 0x33; 0x36; 0x35; 0x3c; 0x3f; 0x3a; 0x39; 0x28; 0x2b; 0x2e; 0x2d; 0x24; 0x27; 0x22; 0x21];
  [0x60; 0x63; 0x66; 0x65; 0x6c; 0x6f; 0x6a; 0x69; 0x78; 0x7b; 0x7e; 0x7d; 0x74; 0x77; 0x72; 0x71];
  [0x50; 0x53; 0x56; 0x55; 0x5c; 0x5f; 0x5a; 0x59; 0x48; 0x4b; 0x4e; 0x4d; 0x44; 0x47; 0x42; 0x41];
  [0xc0; 0xc3; 0xc6; 0xc5; 0xcc; 0xcf; 0xca; 0xc9; 0xd8; 0xdb; 0xde; 0xdd; 0xd4; 0xd7; 0xd2; 0xd1];
  [0xf0; 0xf3; 0xf6; 0xf5; 0xfc; 0xff; 0xfa; 0xf9; 0xe8; 0xeb; 0xee; 0xed; 0xe4; 0xe7; 0xe2; 0xe1];
  [0xa0; 0xa3; 0xa6; 0xa5; 0xac; 0xaf; 0xaa; 0xa9; 0xb8; 0xbb; 0xbe; 0xbd; 0xb4; 0xb7; 0xb2; 0xb1];
  [0x90; 0x93; 0x96; 0x95; 0x9c; 0x9f; 0x9a; 0x99; 0x88; 0x8b; 0x8e; 0x8d; 0x84; 0x87; 0x82; 0x81];
  [0x9b; 0x98; 0x9d; 0x9e; 0x97; 0x94; 0x91; 0x92; 0x83; 0x80; 0x85; 0x86; 0x8f; 0x8c; 0x89; 0x8a];
  [0xab; 0xa8; 0xad; 0xae; 0xa7; 0xa4; 0xa1; 0xa2; 0xb3; 0xb0; 0xb5; 0xb6; 0xbf; 0xbc; 0xb9; 0xba];
  [0xfb; 0xf8; 0xfd; 0xfe; 0xf7; 0xf4; 0xf1; 0xf2; 0xe3; 0xe0; 0xe5; 0xe6; 0xef; 0xec; 0xe9; 0xea];
  [0xcb; 0xc8; 0xcd; 0xce; 0xc7; 0xc4; 0xc1; 0xc2; 0xd3; 0xd0; 0xd5; 0xd6; 0xdf; 0xdc; 0xd9; 0xda];
  [0x5b; 0x58; 0x5d; 0x5e; 0x57; 0x54; 0x51; 0x52; 0x43; 0x40; 0x45; 0x46; 0x4f; 0x4c; 0x49; 0x4a];
  [0x6b; 0x68; 0x6d; 0x6e; 0x67; 0x64; 0x61; 0x62; 0x73; 0x70; 0x75; 0x76; 0x7f; 0x7c; 0x79; 0x7a];
  [0x3b; 0x38; 0x3d; 0x3e; 0x37; 0x34; 0x31; 0x32; 0x23; 0x20; 0x25; 0x26; 0x2f; 0x2c; 0x29; 0x2a];
  [0x0b; 0x08; 0x0d; 0x0e; 0x07; 0x04; 0x01; 0x02; 0x13; 0x10; 0x15; 0x16; 0x1f; 0x1c; 0x19; 0x1a]].

Definition oaes_gf_mul_9 : list (list Z) := [
  [0x00; 0x09; 0x12; 0x1b; 0x24; 0x2d; 0x36; 0x3f; 0x48; 0x41; 0x5a; 0x53; 0x6c; 0x65; 0x7e; 0x77];
  [0x90; 0x99; 0x82; 0x8b; 0xb4; 0xbd; 0xa6; 0xaf; 0xd8; 0xd1; 0xca; 0xc3; 0xfc; 0xf5; 0xee; 0xe7];
  [0x3b; 0x32; 0x29; 0x20; 0x1f; 0x16; 0x0d; 0x04; 0x73; 0x7a; 0x61; 0x68; 0x57; 0x5e; 0x45; 0x4c];
  [0xab; 0xa2; 0xb9; 0xb0; 0x8f; 0x86; 0x9d; 0x94; 0xe3; 0xea; 0xf1; 0xf8; 0xc7; 0xce; 0xd5; 0xdc];
  [0x76; 0x7f; 0x64; 0x6d; 0x52; 0x5b; 0x40; 0x49; 0x3e; 0x37; 0x2c; 0x25; 0x1a; 0x13; 0x08; 0x01];
  [0xe6; 0xef; 0xf4; 0xfd; 0xc2; 0xcb; 0xd0; 0xd9; 0xae; 0xa7; 0xbc; 0xb5; 0x8a; 0x83; 0x98; 0x91];
  [0x4d; 0x44; 0x5f; 0x56; 0x69; 0x60; 0x7b; 0x72; 0x05; 0x0c; 0x17; 0x1e; 0x21; 0x28; 0x33; 0x3a];
  [0xdd; 0xd4; 0xcf; 0xc6; 0xf9; 0xf0; 0xeb; 0xe2; 0x95; 0x9c; 0x87; 0x8e; 0xb1; 0xb8; 0xa3; 0xaa];
  [0xec; 0xe5; 0xfe; 0xf7; 0xc8; 0xc1; 0xda; 0xd3; 0xa4; 0xad; 0xb6; 0xbf; 0x80; 0x89; 0x92; 0x9b];
  [0x7c; 0x75; 0x6e; 0x67; 0x58; 0x51; 0x4a; 0x43; 0x34; 0x3d; 0x26; 0x2f; 0x10; 0x19; 0x02; 0x0b];
  [0xd7; 0xde; 0xc5; 0xcc; 0xf3; 0xfa; 0xe1; 0xe8; 0x9f; 0x96; 0x8d; 0x84; 0xbb; 0xb2; 0xa9; 0xa0];
  [0x47; 0x4e; 0x55; 0x5c; 0x63; 0x6a; 0x71; 0x78; 0x0f; 0x06; 0x1d; 0x14; 0x2b; 0x22; 0x39; 0x30];
  [0x9a; 0x93; 0x88; 0x81; 0xbe; 0xb7; 0xac; 0xa5; 0xd2; 0xdb; 0xc0; 0xc9; 0xf6; 0xff; 0xe4; 0xed];
  [0x0a; 0x03; 0x18; 0x11; 0x2e; 0x27; 0x3c; 0x35; 0x42; 0x4b; 0x50; 0x59; 0x66; 0x6f; 0x74; 0x7d];
  [0xa1; 0xa8; 0xb3; 0xba; 0x85; 0x8c; 0x97; 0x9e; 0xe9; 0xe0; 0xfb; 0xf2; 0xcd; 0xc4; 0xdf; 0xd6];
  [0x31; 0x38; 0x23; 0x2a; 0x15; 0x1c; 0x07; 0x0e; 0x79; 0x70; 0x6b; 0x62; 0x5d; 0x54; 0x4f; 0x46]].

Definition oaes_gf_mul_b : list (list Z) := [
  [0x00; 0x0b; 0x16; 0x1d; 0x2c; 0x27; 0x3a; 0x31; 0x58; 0x53; 0x4e; 0x45; 0x74; 0x7f; 0x62; 0x69];
  [0xb0; 0xbb; 0xa6; 0xad; 0x9c; 0x97; 0x8a; 0x81; 0xe8; 0xe3; 0xfe; 0xf5; 0xc4; 0xcf; 0xd2; 0xd9];
  [0x7b; 0x70; 0x6d; 0x66; 0x57; 0x5c; 0x41; 0x4a; 0x23; 0x28; 0x35; 0x3e; 0x0f; 0x04; 0x19; 0x12];
  [0xcb; 0xc0; 0xdd; 0xd6; 0xe7; 0xec; 0xf1; 0xfa; 0x93; 0x98; 0x85; 0x8e; 0xbf; 0xb4; 0xa9; 0xa2];
  [0xf6; 0xfd; 0xe0; 0xeb; 0xda; 0xd1; 0xcc; 0xc7; 0xae; 0xa5; 0xb8; 0xb3; 0x82; 0x89; 0x94; 0x9f];
  [0x46; 0x4d; 0x50; 0x5b; 0x6a; 0x61; 0x7c; 0x77; 0x1e; 0x15; 0x08; 0x03; 0x32; 0x39; 0x24; 0x2f];
  [0x8d; 0x86; 0x9b; 0x90; 0xa1; 0xaa; 0xb7; 0xbc; 0xd5; 0xde; 0xc3; 0xc8; 0xf9; 0xf2; 0xef; 0xe4];
  [0x3d; 0x36; 0x2b; 0x20; 0x11; 0x1a; 0x07; 0x0c; 0x65; 0x6e; 0x73; 0x78; 0x49; 0x42; 0x5f; 0x54];
  [0xf7; 0xfc; 0xe1; 0xea; 0xdb; 0xd0; 0xcd; 0xc6; 0xaf; 0xa4; 0xb9; 0xb2; 0x83; 0x88; 0x95; 0x9e];
  [0x47; 0x4c; 0x51; 0x5a; 0x6b; 0x60; 0x7d; 0x76; 0x1f; 0x14; 0x09; 0x02; 0x33; 0x38; 0x25; 0x2e];
  [0x8c; 0x87; 0x9a; 0x91; 0xa0; 0xab; 0xb6; 0xbd; 0xd4; 0xdf; 0xc2; 0xc9; 0xf8; 0xf3; 0xee; 0xe5];
  [0x3c; 0x37; 0x2a; 0x21; 0x10; 0x1b; 0x06; 0x0d; 0x64; 0x6f; 0x72; 0x79; 0x48; 0x43; 0x5e; 0x55];
  [0x01; 0x0a; 0x17; 0x1c; 0x2d; 0x26; 0x3b; 0x30; 0x59; 0x52; 0x4f; 0x44; 0x75; 0x7e; 0x63; 0x68];
  [0xb1; 0xba; 0xa7; 0xac; 0x9d; 0x96; 0x8b; 0x80; 0xe9; 0xe2; 0xff; 0xf4; 0xc5; 0xce; 0xd3; 0xd8];
  [0x7a; 0x71; 0x6c; 0x67; 0x56; 0x5d; 0x40; 0x4b; 0x22; 0x29; 0x34; 0x3f; 0x0e; 0x05; 0x18; 0x13];
  [0xca; 0xc1; 0xdc; 0xd7; 0xe6; 0xed; 0xf0; 0xfb; 0x92; 0x99; 0x84; 0x8f; 0xbe; 0xb5; 0xa8; 0xa3]].

Definition oaes_gf_mul_d : list (list Z) := [
  [0x00; 0x0d; 0x1a; 0x17; 0x34; 0x39; 0x2e; 0x23; 0x68; 0x65; 0x72; 0x7f; 0x5c; 0x51; 0x46; 0x4b];
  [0xd0; 0xdd; 0xca; 0xc7; 0xe4; 0xe9; 0xfe; 0xf3; 0xb8; 0xb5; 0xa2; 0xaf; 0x8c; 0x81; 0x96; 0x9b];
  [0xbb; 0xb6; 0xa1; 0xac; 0x8f; 0x82; 0x95; 0x98; 0xd3; 0xde; 0xc9; 0xc4; 0xe7; 0xea; 0xfd; 0xf0];
  [0x6b; 0x66; 0x71; 0x7c; 0x5f; 0x52; 0x45; 0x48; 0x03; 0x0e; 0x19; 0x14; 0x37; 0x3a; 0x2d; 0x20];
  [0x6d; 0x60; 0x77; 0x7a; 0x59; 0x54; 0x43; 0x4e; 0x05; 0x08; 0x1f; 0x12; 0x31; 0x3c; 0x2b; 0x26];
  [0xbd; 0xb0; 0xa7; 0xaa; 0x89; 0x84; 0x93; 0x9e; 0xd5; 0xd8; 0xcf; 0xc2; 0xe1; 0xec; 0xfb; 0xf6];
  [0xd6; 0xdb; 0xcc; 0xc1; 0xe2; 0xef; 0xf8; 0xf5; 0xbe; 0xb3; 0xa4; 0xa9; 0x8a; 0x87; 0x90; 0x9d];
  [0x06; 0x0b; 0x1c; 0x11; 0x32; 0x3f; 0x28; 0x25; 0x6e; 0x63; 0x74; 0x79; 0x5a; 0x57; 0x40; 0x4d];
  [0xda; 0xd7; 0xc0; 0xcd; 0xee; 0xe3; 0xf4; 0xf9; 0xb2; 0xbf; 0xa8; 0xa5; 0x86; 0x8b; 0x9c; 0x91];
  [0x0a; 0x07; 0x10; 0x1d; 0x3e; 0x33; 0x24; 0x29; 0x62; 0x6f; 0x78; 0x75; 0x56; 0x5b; 0x4c; 0x41];
  [0x61; 0x6c; 0x7b; 0x76; 0x55; 0x58; 0x4f; 0x42; 0x09; 0x04; 0x13; 0x1e; 0x3d; 0x30; 0x27; 0x2a];
  [0xb1; 0xbc; 0xab; 0xa6; 0x85; 0x88; 0x9f; 0x92; 0xd9; 0xd4; 0xc3; 0xce; 0xed; 0xe0; 0xf7; 0xfa];
  [0xb7; 0xba; 0xad; 0xa0; 0x83; 0x8e; 0x99; 0x94; 0xdf; 0xd2; 0xc5; 0xc8; 0xeb; 0xe6; 0xf1; 0xfc];
  [0x67; 0x6a; 0x7d; 0x70; 0x53; 0x5e; 0x49; 0x44; 0x0f; 0x02; 0x15; 0x18; 0x3b; 0x36; 0x21; 0x2c];
  [0x0c; 0x01; 0x16; 0x1b; 0x38; 0x35; 0x22; 0x2f; 0x64; 0x69; 0x7e; 0x73; 0x50; 0x5d; 0x4a; 0x47];
  [0xdc; 0xd1; 0xc6; 0xcb; 0xe8; 0xe5; 0xf2; 0xff; 0xb4; 0xb9; 0xae; 0xa3; 0x80; 0x8d; 0x9a; 0x97]].

Definition oaes_gf_mul_e : list (list Z) := [
  [0x00; 0x0e; 0x1c; 0x12; 0x38; 0x36; 0x24; 0x2a; 0x70; 0x7e; 0x6c; 0x62; 0x48; 0x46; 0x54; 0x5a];
  [0xe0; 0xee; 0xfc; 0xf2; 0xd8; 0xd6; 0xc4; 0xca; 0x90; 0x9e; 0x8c; 0x82; 0xa8; 0xa6; 0xb4; 0xba];
  [0xdb; 0xd5; 0xc7; 0xc9; 0xe3; 0xed; 0xff; 0xf1; 0xab; 0xa5; 0xb7; 0xb9; 0x93; 0x9d; 0x8f; 0x81];
  [0x3b; 0x35; 0x27; 0x29; 0x03; 0x0d; 0x1f; 0x11; 0x4b; 0x45; 0x57; 0x59; 0x73; 0x7d; 0x6f; 0x61];
  [0xad; 0xa3; 0xb1; 0xbf; 0x95; 0x9b; 0x89; 0x87; 0xdd; 0xd3; 0xc1; 0xcf; 0xe5; 0xeb; 0xf9; 0xf7];
  [0x4d; 0x43; 0x51; 0x5f; 0x75; 0x7b; 0x69; 0x67; 0x3d; 0x33; 0x21; 0x2f; 0x05; 0x0b; 0x19; 0x17];
  [0x76; 0x78; 0x6a; 0x64; 0x4e; 0x40; 0x52; 0x5c; 0x06; 0x08; 0x1a; 0x14; 0x3e; 0x30; 0x22; 0x2c];
  [0x96; 0x98; 0x8a; 0x84; 0xae; 0xa0; 0xb2; 0xbc; 0xe6; 0xe8; 0xfa; 0xf4; 0xde; 0xd0; 0xc2; 0xcc];
  [0x41; 0x4f; 0x5d; 0x53; 0x79; 0x77; 0x65; 0x6b; 0x31; 0x3f; 0x2d; 0x23; 0x09; 0x07; 0x15; 0x1b];
  [0xa1; 0xaf; 0xbd; 0xb3; 0x99; 0x97; 0x85; 0x8b; 0xd1; 0xdf; 0xcd; 0xc3; 0xe9; 0xe7; 0xf5; 0xfb];
  [0x9a; 0x94; 0x86; 0x88; 0xa2; 0xac; 0xbe; 0xb0; 0xea; 0xe4; 0xf6; 0xf8; 0xd2; 0xdc; 0xce; 0xc0];
  [0x7a; 0x74; 0x66; 0x68; 0x42; 0x4c; 0x5e; 0x50; 0x0a; 0x04; 0x16; 0x18; 0x32; 0x3c; 0x2e; 0x20];
  [0xec; 0xe2; 0xf0; 0xfe; 0xd4; 0xda; 0xc8; 0xc6; 0x9c; 0x92; 0x80; 0x8e; 0xa4; 0xaa; 0xb8; 0xb6];
  [0x0c; 0x02; 0x10; 0x1e; 0x34; 0x3a; 0x28; 0x26; 0x7c; 0x72; 0x60; 0x6e; 0x44; 0x4a; 0x58; 0x56];
  [0x37; 0x39; 0x2b; 0x25; 0x0f; 0x01; 0x13; 0x1d; 0x47; 0x49; 0x5b; 0x55; 0x7f; 0x71; 0x63; 0x6d];
  [0xd7; 0xd9; 0xcb; 0xc5; 0xef; 0xe1; 0xf3; 0xfd; 0xa7; 0xa9; 0xbb; 0xb5; 0x9f; 0x91; 0x83; 0x8d]].

(** ** Bytes, words and blocks

    The static functions are only called with pointers that are not [NULL]; their checks are left out. *)

(** The entry of a table at the high and the low half of a byte. *)
Definition table_entry (table : list (list Z)) (byte : Z) : result Z :=
  let _x := Z.land byte 0x0f in
  let _y := Z.shiftr (Z.land byte 0xf0) 4 in
  let! row := get table (Z.to_nat _y) in
  get row (Z.to_nat _x).

Definition oaes_sub_byte (byte : Z) : result Z := table_entry oaes_sub_byte_value byte.
Definition oaes_inv_sub_byte (byte : Z) : result Z := table_entry oaes_inv_sub_byte_value byte.

Definition oaes_word_rot_left (word : list Z) : result (list Z) :=
  let! t0 := get word 1 in
  let! t1 := get word 2 in
  let! t2 := get word 3 in
  let! t3 := get word 0 in
  memcpy word 0 [t0; t1; t2; t3] OAES_COL_LEN.

(** [_temp[i] = block[idx i]] for the entries of [idx] *)
Fixpoint gather (idx : list nat) (block : list Z) : result (list Z) :=
  match idx with
  | [] => Ok []
  | i :: idx =>
      let! b := get block i in
      let! rest := gather idx block in
      Ok (b :: rest)
  end.

Definition oaes_shift_rows (block : list Z) : result (list Z) :=
  let! _temp := gather [0x00; 0x05; 0x0a; 0x0f; 0x04; 0x09; 0x0e; 0x03; 0x08; 0x0d; 0x02; 0x07; 0x0c; 0x01; 0x06; 0x0b]%nat block in
  memcpy block 0 _temp OAES_BLOCK_SIZE.

Definition oaes_inv_shift_rows (block : list Z) : result (list Z) :=
  let! _temp := gather [0x00; 0x0d; 0x0a; 0x07; 0x04; 0x01; 0x0e; 0x0b; 0x08; 0x05; 0x02; 0x0f; 0x0c; 0x09; 0x06; 0x03]%nat block in
  memcpy block 0 _temp OAES_BLOCK_SIZE.

Definition oaes_gf_mul (left right : Z) : result Z :=
  if right =? 0x02 then table_entry oaes_gf_mul_2 left
  else if right =? 0x03 then table_entry oaes_gf_mul_3 left
  else if right =? 0x09 then table_entry oaes_gf_mul_9 left
  else if right =? 0x0b then table_entry oaes_gf_mul_b left
  else if right =? 0x0d then table_entry oaes_gf_mul_d left
  else if right =? 0x0e then table_entry oaes_gf_mul_e left
  else Ok left.

(** The xor of four products; a factor of 1 leaves the byte as it is. *)
Definition gf_sum (word factors : list Z) : result Z :=
  let! w0 := get word 0 in
  let! w1 := get word 1 in
  let! w2 := get word 2 in
  let! w3 := get word 3 in
  let! f0 := get factors 0 in
  let! f1 := get factors 1 in
  let! f2 := get factors 2 in
  let! f3 := get factors 3 in
  let! p0 := oaes_gf_mul w0 f0 in
  let! p1 := oaes_gf_mul w1 f1 in
  let! p2 := oaes_gf_mul w2 f2 in
  let! p3 := oaes_gf_mul w3 f3 in
  Ok (Z.lxor (Z.lxor (Z.lxor p0 p1) p2) p3).

(** On the word [c + o] of a block. *)
Definition oaes_mix_cols (c : list Z) (o : nat) : result (list Z) :=
  let word := drop o c in
  let! t0 := gf_sum word [0x02; 0x03; 1; 1] in
  let! t1 := gf_sum word [1; 0x02; 0x03; 1] in
  let! t2 := gf_sum word [1; 1; 0x02; 0x03] in
  let! t3 := gf_sum word [0x03; 1; 1; 0x02] in
  memcpy c o [t0; t1; t2; t3] OAES_COL_LEN.

Definition oaes_inv_mix_cols (c : list Z) (o : nat) : result (list Z) :=
  let word := drop o c in
  let! t0 := gf_sum word [0x0e; 0x0b; 0x0d; 0x09] in
  let! t1 := gf_sum word [0x09; 0x0e; 0x0b; 0x0d] in
  let! t2 := gf_sum word [0x0d; 0x09; 0x0e; 0x0b] in
  let! t3 := gf_sum word [0x0b; 0x0d; 0x09; 0x0e] in
  memcpy c o [t0; t1; t2; t3] OAES_COL_LEN.

(** [for (i = 0; i < n; i++) f(c + i)] on bytes *)
Definition each_byte (f : Z -> result Z) (n : nat) (c : list Z) : result (list Z) :=
  for_ n (fun i c => let! b := get c i in let! b := f b in set c i b) 0 c.

(** [for (i = 0; i < n; i++) c[i] = c[i] ^ key[o + i]] *)
Definition xor_key (key : list Z) (o n : nat) (c : list Z) : result (list Z) :=
  for_ n (fun i c => let! b := get c i in let! k := get key (o + i) in set c i (Z.lxor b k)) 0 c.

(** ** Keys *)
Inductive OAES_RET :=
  OAES_RET_SUCCESS | OAES_RET_UNKNOWN | OAES_RET_ARG1 | OAES_RET_ARG2 | OAES_RET_ARG3 | OAES_RET_ARG4 | OAES_RET_ARG5 |
  OAES_RET_NOKEY | OAES_RET_MEM | OAES_RET_BUF | OAES_RET_HEADER | OAES_RET_COUNT.

#[export] Instance OAES_RET_eq_dec : EqDecision OAES_RET.
Proof. solve_decision. Defined.

(** [a || b]: the value 0 or 1, as a return code. *)
Definition rc_or (a b : OAES_RET) : OAES_RET :=
  match a, b with OAES_RET_SUCCESS, OAES_RET_SUCCESS => OAES_RET_SUCCESS | _, _ => OAES_RET_UNKNOWN end.

Record oaes_key := OaesKey {
  data_len : Z; key_data : list Z; exp_data_len : Z; exp_data : list Z; num_keys : nat; key_base : nat }.

Record oaes_ctx := OaesCtx { ctx_key : option oaes_key; ctx_options : Z; ctx_iv : list Z }.

Definition set_key (ctx : oaes_ctx) (k : option oaes_key) : oaes_ctx := OaesCtx k (ctx_options ctx) (ctx_iv ctx).

(** The fields are freed and the pointer is cleared. *)
Definition oaes_key_destroy (key : option oaes_key) : OAES_RET * option oaes_key := (OAES_RET_SUCCESS, None).

(** [ctx] is [NULL] or points to a context or to [NULL]; the code and what it points to afterwards. *)
Definition oaes_free (ctx : option (option oaes_ctx)) : OAES_RET * option (option oaes_ctx) :=
  match ctx with
  | None => (OAES_RET_ARG1, None)
  | Some _ => (OAES_RET_SUCCESS, Some None)
  end.

(** One column of the expansion. *)
Definition expand_column (base i : nat) (exp : list Z) : result (list Z) :=
  let! temp := memcpy (replicate OAES_COL_LEN 0) 0 (drop ((i - 1) * OAES_RKEY_LEN) exp) OAES_COL_LEN in
  let! temp :=
    if (i mod base =? 0)%nat then
      let! temp := oaes_word_rot_left temp in
      let! temp := each_byte oaes_sub_byte OAES_COL_LEN temp in
      let! t0 := get temp 0 in
      let! g := get oaes_gf_8 (i / base - 1) in
      set temp 0 (Z.lxor t0 g)
    else if (6 <? base)%nat && (i mod base =? 4)%nat then each_byte oaes_sub_byte OAES_COL_LEN temp
    else Ok temp in
  for_ OAES_COL_LEN (fun j exp =>
    let! a := get exp ((i - base) * OAES_RKEY_LEN + j) in
    let! t := get temp j in
    set exp (i * OAES_RKEY_LEN + j) (Z.lxor a t)) 0 exp.

(** [mem] is whether the allocation succeeds. *)
Definition oaes_key_expand (mem : bool) (ctx : option oaes_ctx) : result (OAES_RET * option oaes_ctx) :=
  match ctx with
  | None => Ok (OAES_RET_ARG1, ctx)
  | Some c =>
      match ctx_key c with
      | None => Ok (OAES_RET_NOKEY, ctx)
      | Some k =>
          let base := (Z.to_nat (data_len k) / OAES_RKEY_LEN)%nat in
          let num := (base + OAES_ROUND_BASE)%nat in
          let len := (num * OAES_RKEY_LEN * OAES_COL_LEN)%nat in
          let key exp := Some (set_key c (Some (OaesKey (data_len k) (key_data k) (Z.of_nat len) exp num base))) in
          if mem then
            let! exp := memcpy (replicate len 0) 0 (key_data k) (Z.to_nat (data_len k)) in
            let! exp := for_ (num * OAES_RKEY_LEN - base) (fun i exp => expand_column base i exp) base exp in
            Ok (OAES_RET_SUCCESS, key exp)
          else Ok (OAES_RET_MEM, key [])
      end
  end.

(** The allocations of the key, of its data and of its expansion. *)
Record allocations := Allocations { mem_key : bool; mem_data : bool; mem_exp : bool }.

(** The end of the imports and of the generation: the key with [data] is installed and expanded, or destroyed. *)
Definition install_key (mem : allocations) (c : oaes_ctx) (data : list Z) (len : Z) : result (OAES_RET * option oaes_ctx) :=
  if mem_key mem then
    if mem_data mem then
      let! bytes := memcpy (replicate (Z.to_nat len) 0) 0 data (Z.to_nat len) in
      let! (rc, ctx) := oaes_key_expand (mem_exp mem) (Some (set_key c (Some (OaesKey len bytes 0 [] 0 0)))) in
      let rc := rc_or OAES_RET_SUCCESS rc in
      if decide (rc = OAES_RET_SUCCESS) then Ok (OAES_RET_SUCCESS, ctx) else Ok (rc, Some (set_key c None))
    else Ok (OAES_RET_MEM, Some (set_key c None))
  else Ok (OAES_RET_MEM, Some (set_key c None)).

Definition key_size_ok (n : Z) : bool := (n =? 16) || (n =? 24) || (n =? 32).

Definition oaes_key_import_data (mem : allocations) (ctx : option oaes_ctx) (data : option (list Z)) (len : Z) : result (OAES_RET * option oaes_ctx) :=
  match ctx, data with
  | None, _ => Ok (OAES_RET_ARG1, ctx)
  | Some c, None => Ok (OAES_RET_ARG2, ctx)
  | Some c, Some data =>
      if key_size_ok len then install_key mem c data len
      else Ok (OAES_RET_ARG3, ctx)
  end.

(** [memcmp(data, oaes_header, 4)] and the version and the type of a header *)
Definition header_bad (data : list Z) (type : Z) : result bool :=
  let! d0 := get data 0 in
  let! d1 := get data 1 in
  let! d2 := get data 2 in
  let! d3 := get data 3 in
  let! d4 := get data 4 in
  let! d5 := get data 5 in
  Ok (negb (bool_decide ([d0; d1; d2; d3] = take 4 oaes_header)) || negb (d4 =? 0x01) || negb (d5 =? type)).

Definition oaes_key_import (mem : allocations) (ctx : option oaes_ctx) (data : option (list Z)) (len : Z) : result (OAES_RET * option oaes_ctx) :=
  match ctx, data with
  | None, _ => Ok (OAES_RET_ARG1, ctx)
  | Some c, None => Ok (OAES_RET_ARG2, ctx)
  | Some c, Some data =>
      if key_size_ok (len - 16) then
        let! bad := header_bad data 0x01 in
        if bad then Ok (OAES_RET_HEADER, ctx)
        else
          let! n := get data 7 in
          if negb (key_size_ok n) then Ok (OAES_RET_HEADER, ctx)
          else if negb (len =? n + 16) then Ok (OAES_RET_ARG3, ctx)
          else install_key mem c (drop OAES_BLOCK_SIZE data) n
      else Ok (OAES_RET_ARG3, ctx)
  end.

(** The buffer is [NULL] or has room for [len] bytes; the code, the length and the bytes written. *)
Definition oaes_key_export (ctx : option oaes_ctx) (buffer : bool) (len : option Z) : result (OAES_RET * option Z * list Z) :=
  match ctx with
  | None => Ok (OAES_RET_ARG1, len, [])
  | Some c =>
      match ctx_key c, len with
      | None, _ => Ok (OAES_RET_NOKEY, len, [])
      | Some k, None => Ok (OAES_RET_ARG3, len, [])
      | Some k, Some room =>
          let n := u64 (data_len k + 16) in
          if negb buffer then Ok (OAES_RET_SUCCESS, Some n, [])
          else if room <? n then Ok (OAES_RET_BUF, Some n, [])
          else
            let! data := memcpy (replicate (Z.to_nat n) 0) 0 oaes_header OAES_BLOCK_SIZE in
            let! data := set data 5 0x01 in
            let! data := set data 7 (u8 (data_len k)) in
            let! data := memcpy data OAES_BLOCK_SIZE (key_data k) (Z.to_nat (data_len k)) in
            Ok (OAES_RET_SUCCESS, Some n, data)
      end
  end.

Definition oaes_key_export_data (ctx : option oaes_ctx) (buffer : bool) (len : option Z) : result (OAES_RET * option Z * list Z) :=
  match ctx with
  | None => Ok (OAES_RET_ARG1, len, [])
  | Some c =>
      match ctx_key c, len with
      | None, _ => Ok (OAES_RET_NOKEY, len, [])
      | Some k, None => Ok (OAES_RET_ARG3, len, [])
      | Some k, Some room =>
          let n := data_len k in
          if negb buffer then Ok (OAES_RET_SUCCESS, Some n, [])
          else if room <? n then Ok (OAES_RET_BUF, Some n, [])
          else
            let! data := memcpy (replicate (Z.to_nat n) 0) 0 (key_data k) (Z.to_nat n) in
            Ok (OAES_RET_SUCCESS, Some n, data)
      end
  end.

(** ** Options and contexts *)

(** [rand] are the results of the calls of [rand()]; [value] is the initial vector or [NULL]. *)
Definition oaes_set_option (rand : list Z) (ctx : option oaes_ctx) (option : Z) (value : Datatypes.option (list Z)) : result (OAES_RET * Datatypes.option oaes_ctx) :=
  match ctx with
  | None => Ok (OAES_RET_ARG1, ctx)
  | Some c =>
      if option =? OAES_OPTION_ECB then
        let opts := Z.land (ctx_options c) (Z.lnot OAES_OPTION_CBC) in
        Ok (OAES_RET_SUCCESS, Some (OaesCtx (ctx_key c) (Z.lor opts option) (replicate OAES_BLOCK_SIZE 0)))
      else if option =? OAES_OPTION_CBC then
        let opts := Z.land (ctx_options c) (Z.lnot OAES_OPTION_ECB) in
        let! iv :=
          match value with
          | Some v => memcpy (ctx_iv c) 0 v OAES_BLOCK_SIZE
          | None => for_ OAES_BLOCK_SIZE (fun i iv => let! r := get rand i in set iv i (u8 r)) 0 (ctx_iv c)
          end in
        Ok (OAES_RET_SUCCESS, Some (OaesCtx (ctx_key c) (Z.lor opts option) iv))
      else Ok (OAES_RET_ARG2, ctx)
  end.

Definition oaes_alloc (mem : bool) (rand : list Z) : result (option oaes_ctx) :=
  if mem then
    let! (_, ctx) := oaes_set_option rand (Some (OaesCtx None 0 (replicate OAES_BLOCK_SIZE 0))) OAES_OPTION_CBC None in
    Ok ctx
  else Ok None.

Definition oaes_key_gen (mem : allocations) (rand : list Z) (ctx : option oaes_ctx) (key_size : Z) : result (OAES_RET * option oaes_ctx) :=
  match ctx with
  | None => Ok (OAES_RET_ARG1, ctx)
  | Some c =>
      if mem_key mem then
        if mem_data mem then
          let! data := for_ (Z.to_nat key_size) (fun i data => let! r := get rand i in set data i (u8 r)) 0 (replicate (Z.to_nat key_size) 0) in
          install_key mem c data key_size
        else Ok (OAES_RET_MEM, Some (set_key c None))
      else Ok (OAES_RET_MEM, ctx)
  end.

Definition oaes_key_gen_128 mem rand ctx := oaes_key_gen mem rand ctx 16.
Definition oaes_key_gen_192 mem rand ctx := oaes_key_gen mem rand ctx 24.
Definition oaes_key_gen_256 mem rand ctx := oaes_key_gen mem rand ctx 32.

(** ** Blocks *)
Definition mix_all_cols (c : list Z) : result (list Z) :=
  let! c := oaes_mix_cols c 0 in
  let! c := oaes_mix_cols c 4 in
  let! c := oaes_mix_cols c 8 in
  oaes_mix_cols c 12.

Definition inv_mix_all_cols (c : list Z) : result (list Z) :=
  let! c := oaes_inv_mix_cols c 0 in
  let! c := oaes_inv_mix_cols c 4 in
  let! c := oaes_inv_mix_cols c 8 in
  oaes_inv_mix_cols c 12.

(** The round of [oaes_encryption_round]. *)
Definition encryption_round (key c : list Z) : result (list Z) :=
  let! c := each_byte oaes_sub_byte OAES_BLOCK_SIZE c in
  let! c := oaes_shift_rows c in
  let! c := mix_all_cols c in
  xor_key key 0 OAES_BLOCK_SIZE c.

Definition oaes_encryption_round (key c : option (list Z)) : result (OAES_RET * option (list Z)) :=
  match key, c with
  | None, _ => Ok (OAES_RET_ARG1, c)
  | Some key, None => Ok (OAES_RET_ARG2, c)
  | Some key, Some b => let! b := encryption_round key b in Ok (OAES_RET_SUCCESS, Some b)
  end.

(** The round [i] of the cipher. *)
Definition encrypt_round (k : oaes_key) (i : nat) (c : list Z) : result (list Z) :=
  let! c := each_byte oaes_sub_byte OAES_BLOCK_SIZE c in
  let! c := oaes_shift_rows c in
  let! c := mix_all_cols c in
  xor_key (exp_data k) (i * OAES_RKEY_LEN * OAES_COL_LEN) OAES_BLOCK_SIZE c.

Definition oaes_encrypt_block (ctx : oaes_ctx) (c : list Z) (c_len : nat) : result (OAES_RET * list Z) :=
  if negb (c_len =? OAES_BLOCK_SIZE)%nat then Ok (OAES_RET_ARG3, c)
  else
    match ctx_key ctx with
    | None => Ok (OAES_RET_NOKEY, c)
    | Some k =>
        let! c := xor_key (exp_data k) 0 c_len c in
        let! c := for_ (num_keys k - 1 - 1) (encrypt_round k) 1 c in
        let! c := each_byte oaes_sub_byte c_len c in
        let! c := oaes_shift_rows c in
        let! c := xor_key (exp_data k) ((num_keys k - 1) * OAES_RKEY_LEN * OAES_COL_LEN) c_len c in
        Ok (OAES_RET_SUCCESS, c)
    end.

Definition decrypt_round (k : oaes_key) (i : nat) (c : list Z) : result (list Z) :=
  let! c := oaes_inv_shift_rows c in
  let! c := each_byte oaes_inv_sub_byte OAES_BLOCK_SIZE c in
  let! c := xor_key (exp_data k) (i * OAES_RKEY_LEN * OAES_COL_LEN) OAES_BLOCK_SIZE c in
  inv_mix_all_cols c.

(** [for (i = num_keys - 2; i > 0; i--)] *)
Definition oaes_decrypt_block (ctx : oaes_ctx) (c : list Z) (c_len : nat) : result (OAES_RET * list Z) :=
  if negb (c_len =? OAES_BLOCK_SIZE)%nat then Ok (OAES_RET_ARG3, c)
  else
    match ctx_key ctx with
    | None => Ok (OAES_RET_NOKEY, c)
    | Some k =>
        let! c := xor_key (exp_data k) ((num_keys k - 1) * OAES_RKEY_LEN * OAES_COL_LEN) c_len c in
        let! c := for_down (num_keys k - 2) (fun i c => decrypt_round k (S i) c) c in
        let! c := oaes_inv_shift_rows c in
        let! c := each_byte oaes_inv_sub_byte c_len c in
        let! c := xor_key (exp_data k) 0 c_len c in
        Ok (OAES_RET_SUCCESS, c)
    end.

Definition oaes_pseudo_encrypt_ecb (ctx : option oaes_ctx) (c : option (list Z)) : result (OAES_RET * option (list Z)) :=
  match ctx, c with
  | None, _ => Ok (OAES_RET_ARG1, c)
  | Some x, None => Ok (OAES_RET_ARG2, c)
  | Some x, Some b =>
      match ctx_key x with
      | None => Ok (OAES_RET_NOKEY, c)
      | Some k =>
          let! b := for_ 10 (fun i b => encryption_round (drop (i * OAES_RKEY_LEN * OAES_COL_LEN) (exp_data k)) b) 0 b in
          Ok (OAES_RET_SUCCESS, Some b)
      end
  end.

(** ** Messages *)

(** [a = a || f], where [f] is only called when [a] is 0 *)
Definition and_then (rc : OAES_RET) (f : result (OAES_RET * list Z)) (block : list Z) : result (OAES_RET * list Z) :=
  match rc with
  | OAES_RET_SUCCESS => let! (r, block) := f in Ok (rc_or OAES_RET_SUCCESS r, block)
  | _ => Ok (OAES_RET_UNKNOWN, block)
  end.

Definition is_cbc (options : Z) : bool := negb (Z.land options OAES_OPTION_CBC =? 0).

(** One block of [oaes_encrypt]: the code, the context and the output buffer. *)
Definition encrypt_step (m_len : Z) (n : nat) (st : OAES_RET * oaes_ctx * list Z) : result (OAES_RET * oaes_ctx * list Z) :=
  let '(rc, ctx, c) := st in
  let i := (16 * n)%nat in
  let size := Z.to_nat (Z.min (m_len - Z.of_nat i) 16) in
  let! block := memcpy (replicate OAES_BLOCK_SIZE 0) 0 (drop (2 * OAES_BLOCK_SIZE + i) c) size in
  let! block := for_ (OAES_BLOCK_SIZE - size) (fun j block => set block (size + j) (u8 (Z.of_nat j + 1))) 0 block in
  let! block := if is_cbc (ctx_options ctx) then xor_key (ctx_iv ctx) 0 OAES_BLOCK_SIZE block else Ok block in
  let! (rc, block) := and_then rc (oaes_encrypt_block ctx block OAES_BLOCK_SIZE) block in
  let! c := memcpy c (2 * OAES_BLOCK_SIZE + i) block OAES_BLOCK_SIZE in
  let! iv := if is_cbc (ctx_options ctx) then memcpy (ctx_iv ctx) 0 block OAES_BLOCK_SIZE else Ok (ctx_iv ctx) in
  Ok (rc, OaesCtx (ctx_key ctx) (ctx_options ctx) iv, c).

(** The code, the context, the output buffer and its length. *)
Definition oaes_encrypt (ctx : option oaes_ctx) (m : option (list Z)) (m_len : Z) (c : option (list Z)) (c_len : option Z) :
    result (OAES_RET * option oaes_ctx * option (list Z) * option Z) :=
  let pad_len := if m_len mod 16 =? 0 then 0 else 16 - m_len mod 16 in
  let flags := if pad_len =? 0 then 0 else OAES_FLAG_PAD in
  match ctx, m, c_len with
  | None, _, _ => Ok (OAES_RET_ARG1, ctx, c, c_len)
  | Some _, None, _ => Ok (OAES_RET_ARG2, ctx, c, c_len)
  | Some _, Some _, None => Ok (OAES_RET_ARG5, ctx, c, c_len)
  | Some x, Some m, Some room =>
      let c_data_len := u64 (m_len + pad_len) in
      let len := u64 (2 * 16 + m_len + pad_len) in
      match c with
      | None => Ok (OAES_RET_SUCCESS, ctx, c, Some len)
      | Some buf =>
          if room <? len then Ok (OAES_RET_BUF, ctx, c, Some len)
          else
            match ctx_key x with
            | None => Ok (OAES_RET_NOKEY, ctx, c, Some len)
            | Some _ =>
                let! buf := memcpy buf 0 oaes_header OAES_BLOCK_SIZE in
                let! buf := memcpy buf 6 (le_bytes 2 (ctx_options x)) 2 in
                let! buf := memcpy buf 8 [flags] 1 in
                let! buf := memcpy buf OAES_BLOCK_SIZE (ctx_iv x) OAES_BLOCK_SIZE in
                let! buf := memcpy buf (2 * OAES_BLOCK_SIZE) m (Z.to_nat m_len) in
                let! (rc, x, buf) := for_ (Z.to_nat (c_data_len / 16)) (encrypt_step m_len) 0 (OAES_RET_SUCCESS, x, buf) in
                Ok (rc, Some x, Some buf, Some len)
            end
      end
  end.

(** One block of [oaes_decrypt]: the code, the initial vector and the output buffer. *)
Definition decrypt_step (ctx : oaes_ctx) (options : Z) (c : list Z) (n : nat) (st : OAES_RET * list Z * list Z) : result (OAES_RET * list Z * list Z) :=
  let '(rc, iv, m) := st in
  let i := (16 * n)%nat in
  let! iv :=
    if is_cbc options && (0 <? i)%nat then memcpy iv 0 (drop (OAES_BLOCK_SIZE + i) c) OAES_BLOCK_SIZE else Ok iv in
  let! block := memcpy (replicate OAES_BLOCK_SIZE 0) 0 (drop i m) OAES_BLOCK_SIZE in
  let! (rc, block) := and_then rc (oaes_decrypt_block ctx block OAES_BLOCK_SIZE) block in
  let! block := if is_cbc options then xor_key iv 0 OAES_BLOCK_SIZE block else Ok block in
  let! m := memcpy m i block OAES_BLOCK_SIZE in
  Ok (rc, iv, m).

(** [m[*m_len - 1 - i] != temp - i] for the [temp] last bytes *)
Definition is_pad (m : list Z) (len temp : nat) : result bool :=
  for_ temp (fun i ok => let! b := get m (len - 1 - i) in Ok (ok && (b =? Z.of_nat temp - Z.of_nat i))) 0 true.

(** The padding is removed: the code, the output buffer and its length. *)
Definition remove_pad (m : list Z) (len : nat) : result (OAES_RET * list Z * nat) :=
  if (len =? 0)%nat then Fail OutOfBounds
  else
    let! t := get m (len - 1) in
    if (t <=? 0x00) || (0x0f <? t) then Ok (OAES_RET_HEADER, m, len)
    else
      let temp := Z.to_nat t in
      let! ok := is_pad m len temp in
      if ok then
        let! m := memcpy m (len - temp) (replicate temp 0) temp in
        Ok (OAES_RET_SUCCESS, m, len - temp)%nat
      else Ok (OAES_RET_HEADER, m, len).

(** The options and the flags of a header are valid. *)
Definition options_bad (options flags : Z) : bool :=
  negb (Z.land options (Z.lnot (Z.lor OAES_OPTION_ECB OAES_OPTION_CBC)) =? 0)
  || (negb (Z.land options OAES_OPTION_ECB =? 0) && negb (Z.land options OAES_OPTION_CBC =? 0))
  || (options =? OAES_OPTION_NONE)
  || negb (Z.land flags (Z.lnot OAES_FLAG_PAD) =? 0).

(** The code, the output buffer and its length. *)
Definition oaes_decrypt (ctx : option oaes_ctx) (c : option (list Z)) (c_len : Z) (m : option (list Z)) (m_len : option Z) :
    result (OAES_RET * option (list Z) * option Z) :=
  match ctx, c with
  | None, _ => Ok (OAES_RET_ARG1, m, m_len)
  | Some _, None => Ok (OAES_RET_ARG2, m, m_len)
  | Some x, Some c =>
      if negb (c_len mod 16 =? 0) then Ok (OAES_RET_ARG3, m, m_len)
      else
        match m_len with
        | None => Ok (OAES_RET_ARG5, m, m_len)
        | Some room =>
            let len := u64 (c_len - 2 * 16) in
            match m with
            | None => Ok (OAES_RET_SUCCESS, m, Some len)
            | Some buf =>
                if room <? len then Ok (OAES_RET_BUF, m, Some len)
                else
                  match ctx_key x with
                  | None => Ok (OAES_RET_NOKEY, m, Some len)
                  | Some _ =>
                      let! bad := header_bad c 0x02 in
                      if bad then Ok (OAES_RET_HEADER, m, Some len)
                      else
                        let! o := memcpy [0; 0] 0 (drop 6 c) 2 in
                        let options := le_val o in
                        let! flags := get c 8 in
                        if options_bad options flags then Ok (OAES_RET_HEADER, m, Some len)
                        else
                          let! iv := memcpy (replicate OAES_BLOCK_SIZE 0) 0 (drop OAES_BLOCK_SIZE c) OAES_BLOCK_SIZE in
                          let n := Z.to_nat len in
                          let! buf := memcpy buf 0 (drop (2 * OAES_BLOCK_SIZE) c) n in
                          let! (_, _, buf) := for_ (n / 16) (decrypt_step x options c) 0 (OAES_RET_SUCCESS, iv, buf) in
                          if negb (Z.land flags OAES_FLAG_PAD =? 0) then
                            let! (rc, buf, n) := remove_pad buf n in
                            Ok (rc, Some buf, Some (Z.of_nat n))
                          else Ok (OAES_RET_SUCCESS, Some buf, Some len)
                  end
            end
        end
  end.
