(* ===== verification/OaesFacts.v ===== *)
(** * The AES library computes AES

    The tables are the field operations, the key expansion and the block cipher
    are those of FIPS 197, and the messages round trip. *)

From stdpp Require Import base list numbers.
From Stdlib Require Import ZArith Lia.
From S2P Require Import Prelude Bytes Streaming Rijndael Aes Oaes.

(** ** Loops over a block *)
Lemma update_first_all {A} (G : nat -> A -> A) s : update_first (length s) G s = imap G s.
Proof.
  apply list_eq. intros i. rewrite update_first_lookup, list_lookup_imap. destruct (s !! i) eqn:E; [|done].
  cbn. by rewrite decide_True by (by eapply lookup_lt_Some).
Qed.

Lemma each_byte_spec f g c :
  (forall b, is_byte b -> f b = Ok (g b)) -> bytes c -> each_byte f (length c) c = Ok (g <$> c).
Proof.
  intros Hf Hc. unfold each_byte. rewrite (for_update _ _ (fun _ b => g b)); [|lia|].
  - f_equal. rewrite update_first_all. apply list_eq. intros i. by rewrite list_lookup_imap, list_lookup_fmap.
  - intros i b a Hi Hb Ha Hl. rewrite (get_ok _ _ _ Ha). cbn [bind]. rewrite Hf by (by eapply Forall_lookup_1 in Hc). cbn [bind].
    apply set_ok. lia.
Qed.

Lemma xor_key_spec key o c :
  (o + length c <= length key)%nat -> xor_key key o (length c) c = Ok (AES.xor c (take (length c) (drop o key))).
Proof.
  intros Hk. unfold xor_key. rewrite (for_update _ _ (fun i b => Z.lxor b (nth (o + i) key 0))); [|lia|].
  - f_equal. rewrite update_first_all. apply list_eq. intros i. unfold AES.xor. rewrite list_lookup_imap, lookup_zip_with.
    destruct (c !! i) as [b|] eqn:E; [|done]. apply lookup_lt_Some in E. cbn. rewrite lookup_take_lt, lookup_drop by lia.
    destruct (lookup_lt_is_Some_2 key (o + i)) as [k Hk']; [lia|]. rewrite Hk'. cbn. by rewrite (nth_lookup_Some _ _ _ _ Hk').
  - intros i b a Hi Hb Ha Hl. rewrite (get_ok _ _ _ Ha). cbn [bind].
    destruct (lookup_lt_is_Some_2 key (o + i)) as [k Hk']; [lia|]. rewrite (get_ok _ _ _ Hk'), (nth_lookup_Some _ _ _ _ Hk'). cbn [bind].
    apply set_ok. lia.
Qed.

(** ** Tables *)
Definition returns_value (m : result Z) (v : Z) : bool := match m with Ok x => x =? v | Fail _ => false end.

Lemma returns_value_ok m v : returns_value m v = true -> m = Ok v.
Proof. unfold returns_value. destruct m; [intros ->%Z.eqb_eq; done|done]. Qed.

Lemma oaes_sub_byte_spec b : is_byte b -> oaes_sub_byte b = Ok (sbox b).
Proof. intros Hb. apply returns_value_ok. revert b Hb. apply (byte_cases (fun b => returns_value (oaes_sub_byte b) (sbox b))). by vm_compute. Qed.

Lemma oaes_inv_sub_byte_spec b : is_byte b -> oaes_inv_sub_byte b = Ok (AES.inv_sbox b).
Proof. intros Hb. apply returns_value_ok. revert b Hb. apply (byte_cases (fun b => returns_value (oaes_inv_sub_byte b) (AES.inv_sbox b))). by vm_compute. Qed.

Lemma oaes_gf_mul_check :
  forallb (fun k => forallb (fun b => returns_value (oaes_gf_mul b k) (gmul k b)) all_bytes) [1; 2; 3; 0x09; 0x0b; 0x0d; 0x0e] = true.
Proof. by vm_compute. Qed.

Lemma oaes_gf_mul_spec k b : In k [1; 2; 3; 0x09; 0x0b; 0x0d; 0x0e] -> is_byte b -> oaes_gf_mul b k = Ok (gmul k b).
Proof.
  intros Hk Hb. apply returns_value_ok. pose proof oaes_gf_mul_check as H. rewrite forallb_forall in H. specialize (H k Hk).
  exact (byte_cases _ H b Hb).
Qed.

(** ** Rows and columns *)
Lemma oaes_shift_rows_spec s : length s = 16%nat -> oaes_shift_rows s = Ok (AES.shift_rows s).
Proof.
  intros Hl. destruct (sixteen s Hl) as (b0 & b1 & b2 & b3 & b4 & b5 & b6 & b7 & b8 & b9 & ba & bb & bc & bd & be & bf & ->). reflexivity.
Qed.

Lemma oaes_inv_shift_rows_spec s : length s = 16%nat -> oaes_inv_shift_rows s = Ok (AES.inv_shift_rows s).
Proof.
  intros Hl. destruct (sixteen s Hl) as (b0 & b1 & b2 & b3 & b4 & b5 & b6 & b7 & b8 & b9 & ba & bb & bc & bd & be & bf & ->). reflexivity.
Qed.

Lemma gf_sum_spec f0 f1 f2 f3 w0 w1 w2 w3 rest :
  Forall (fun k => In k [1; 2; 3; 0x09; 0x0b; 0x0d; 0x0e]) [f0; f1; f2; f3] -> bytes [w0; w1; w2; w3] ->
  gf_sum (w0 :: w1 :: w2 :: w3 :: rest) [f0; f1; f2; f3] =
  Ok (foldr Z.lxor 0 [gmul f0 w0; gmul f1 w1; gmul f2 w2; gmul f3 w3]).
Proof.
  intros Hf Hw. do 4 (apply Forall_cons_1 in Hf as [? Hf]). do 4 (apply Forall_cons_1 in Hw as [? Hw]). unfold gf_sum.
  cbn [get lookup list_lookup bind]. rewrite !oaes_gf_mul_spec by assumption. cbn [bind foldr]. by rewrite Z.lxor_0_r, !Z.lxor_assoc.
Qed.

Ltac factors := repeat (apply List.Forall_cons; [cbn [In]; tauto|]); apply List.Forall_nil.

(** The four columns of a block are multiplied one after the other. *)
Section Columns.
Context (mix : list Z -> nat -> result (list Z)) (row : list Z).
Context (mix_spec : forall s o a0 a1 a2 a3 rest, drop o s = a0 :: a1 :: a2 :: a3 :: rest -> bytes [a0; a1; a2; a3] ->
  mix s o = memcpy s o (column row a0 a1 a2 a3 <$> seq 0 4) 4).

Lemma mix_all s : block16 s ->
  (let! s := mix s 0 in let! s := mix s 4 in let! s := mix s 8 in mix s 12) = Ok (AES.mix row s).
Proof using mix_spec.
  intros Hs. destruct (block16_inv s Hs) as (b0 & b1 & b2 & b3 & b4 & b5 & b6 & b7 & b8 & b9 & ba & bb & bc & bd & be & bf & -> & H).
  destruct H as (H0 & H1 & H2 & H3 & H4 & H5 & H6 & H7 & H8 & H9 & Ha & Hb & Hc & Hd & He & Hf).
  rewrite mix_columns_explicit. cbn [seq fmap list_fmap app].
  erewrite mix_spec; [|reflexivity|byte_list]. rewrite memcpy_ok by (cbn; lia). cbn [bind seq fmap list_fmap take drop app Nat.add].
  erewrite mix_spec; [|reflexivity|byte_list]. rewrite memcpy_ok by (cbn; lia). cbn [bind seq fmap list_fmap take drop app Nat.add].
  erewrite mix_spec; [|reflexivity|byte_list]. rewrite memcpy_ok by (cbn; lia). cbn [bind seq fmap list_fmap take drop app Nat.add].
  erewrite mix_spec; [|reflexivity|byte_list]. rewrite memcpy_ok by (cbn; lia). reflexivity.
Qed.
End Columns.

Lemma mix_all_cols_spec s : block16 s -> mix_all_cols s = Ok (AES.mix_columns s).
Proof.
  intros Hs. apply (mix_all oaes_mix_cols); [|exact Hs]. clear. intros s o a0 a1 a2 a3 rest E Hb. unfold oaes_mix_cols. rewrite E.
  rewrite !gf_sum_spec by (first [exact Hb|factors]). reflexivity.
Qed.

Lemma inv_mix_all_cols_spec s : block16 s -> inv_mix_all_cols s = Ok (AES.inv_mix_columns s).
Proof.
  intros Hs. apply (mix_all oaes_inv_mix_cols); [|exact Hs]. clear. intros s o a0 a1 a2 a3 rest E Hb. unfold oaes_inv_mix_cols. rewrite E.
  rewrite !gf_sum_spec by (first [exact Hb|factors]). reflexivity.
Qed.

(** ** Words of a key *)
Definition word (w : list Z) : Prop := bytes w /\ length w = 4%nat.

Lemma word_inv t : word t -> exists t0 t1 t2 t3, t = [t0; t1; t2; t3] /\ bytes [t0; t1; t2; t3].
Proof.
  intros [Hb Hl]. destruct t as [|t0 [|t1 [|t2 [|t3 [|? ?]]]]]; try done. by exists t0, t1, t2, t3.
Qed.

Lemma word_sized w : Forall word w -> Forall (sized 4) w.
Proof. apply List.Forall_impl. by intros t [_ Ht]. Qed.

Lemma concat_length w : Forall word w -> length (concat w) = (4 * length w)%nat.
Proof. intros Hw. by apply sized_length, word_sized. Qed.

Lemma concat_bytes w : Forall word w -> bytes (concat w).
Proof. induction 1 as [|t w [Ht _] Hw IH]; [constructor|]. cbn [concat]. unfold bytes in *. rewrite Forall_app. by split. Qed.

Lemma concat_drop w m : Forall word w -> drop (4 * m) (concat w) = concat (drop m w).
Proof. intros Hw. by apply sized_drop, word_sized. Qed.

Lemma concat_take w m : Forall word w -> take (4 * m) (concat w) = concat (take m w).
Proof. intros Hw. by apply sized_take, word_sized. Qed.

Lemma nth_word w k : Forall word w -> (k < length w)%nat -> word (nth k w []).
Proof. intros Hw Hk. rewrite List.Forall_forall in Hw. by apply Hw, nth_In. Qed.

Lemma drop_word w z k :
  Forall word w -> (k < length w)%nat -> drop (k * 4) (concat w ++ z) = nth k w [] ++ concat (drop (S k) w) ++ z.
Proof.
  intros Hw Hk. rewrite drop_app_le by (rewrite concat_length by done; lia). rewrite Nat.mul_comm, concat_drop by done.
  destruct (lookup_lt_is_Some_2 w k Hk) as [t Ht]. rewrite (drop_S _ _ _ Ht), (nth_lookup_Some _ _ _ _ Ht). cbn [concat]. by rewrite app_assoc.
Qed.

Lemma get_word w z k j : Forall word w -> (k < length w)%nat -> (j < 4)%nat -> get (concat w ++ z) (k * 4 + j) = get (nth k w []) j.
Proof.
  intros Hw Hk Hj. unfold get. rewrite <- lookup_drop, drop_word by done.
  rewrite lookup_app_l by (destruct (nth_word w k Hw Hk) as [_ ->]; done). done.
Qed.

Lemma xor_word s t : word s -> word t -> word (AES.xor s t).
Proof.
  intros [Hs Ls] [Ht Lt]. split; [by apply zip_lxor_bytes|]. unfold AES.xor. rewrite length_zip_with. lia.
Qed.

Lemma sub_word t : word t -> word (AES.sub_bytes t).
Proof.
  intros [Hb Hl]. unfold AES.sub_bytes. split; [|by rewrite length_fmap]. apply Forall_fmap. eapply List.Forall_impl; [|exact Hb]. intros a; apply sbox_byte.
Qed.

Lemma sub_word_spec t : word t -> each_byte oaes_sub_byte 4 t = Ok (AES.sub_bytes t).
Proof. intros [Hb Hl]. rewrite <- Hl. by apply each_byte_spec; [exact oaes_sub_byte_spec|]. Qed.

(** ** Key expansion *)
Definition base_ok (base : nat) : Prop := base = 4%nat \/ base = 6%nat \/ base = 8%nat.

Lemma oaes_gf_8_spec k : (1 <= k <= 10)%nat -> get oaes_gf_8 (k - 1) = Ok (AES.rcon k) /\ is_byte (AES.rcon k).
Proof.
  intros Hk. destruct k as [|k]; [lia|]. do 10 (destruct k as [|k]; [split; [reflexivity|]; by vm_compute|]). lia.
Qed.

Lemma expand_round base i : base_ok base -> (base <= i < 4 * (base + 7))%nat -> (1 <= i / base <= 10)%nat.
Proof.
  intros Hb Hi. split.
  - apply Nat.div_le_lower_bound; [destruct Hb; lia|lia].
  - enough (i / base < 11)%nat by lia. apply Nat.Div0.div_lt_upper_bound. destruct Hb as [->|[->| ->]]; lia.
Qed.

(** The word before it, as the new word uses it. *)
Definition key_word (Nk i : nat) (t : list Z) : list Z :=
  if (i mod Nk =? 0)%nat then AES.xor (AES.sub_bytes (drop 1 t ++ take 1 t)) [AES.rcon (i / Nk); 0; 0; 0]
  else if (6 <? Nk)%nat && (i mod Nk =? 4)%nat then AES.sub_bytes t
  else t.

Lemma key_word_word Nk i t : base_ok Nk -> (Nk <= i < 4 * (Nk + 7))%nat -> word t -> word (key_word Nk i t).
Proof.
  intros HN Hi Ht. unfold key_word. destruct (oaes_gf_8_spec _ (expand_round _ _ HN Hi)) as [_ Hr].
  destruct (word_inv t Ht) as (t0 & t1 & t2 & t3 & -> & Hb). do 4 (apply Forall_cons_1 in Hb as [? Hb]).
  destruct (_ =? _)%nat; [|destruct (_ && _); [by apply sub_word|done]]. cbn [drop take app].
  apply xor_word; [apply sub_word|]; (split; [byte_list; unfold is_byte; lia|reflexivity]).
Qed.

(** The writes of one column. *)
Lemma write_column base w z i t :
  base_ok base -> Forall word w -> length w = i -> (base <= i)%nat -> word t ->
  for_ OAES_COL_LEN (fun j exp =>
    let! a := get exp ((i - base) * OAES_RKEY_LEN + j) in
    let! t := get t j in
    set exp (i * OAES_RKEY_LEN + j) (Z.lxor a t)) 0 (concat w ++ [0; 0; 0; 0] ++ z) =
  Ok (concat (w ++ [AES.xor (nth (i - base) w []) t]) ++ z).
Proof.
  intros HN Hw Hl Hi Ht. pose proof (concat_length w Hw) as Hc. rewrite concat_app. cbn [concat]. rewrite app_nil_r, <- app_assoc.
  unfold OAES_COL_LEN, OAES_RKEY_LEN in *.
  assert (i - base < length w)%nat as Hk by (destruct HN as [->|[->| ->]]; lia).
  destruct (word_inv _ (nth_word w _ Hw Hk)) as (a0 & a1 & a2 & a3 & Ea & _). destruct (word_inv t Ht) as (t0 & t1 & t2 & t3 & -> & _).
  assert (forall e j x, (j < length e)%nat -> set (concat w ++ e) (i * 4 + j) x = Ok (concat w ++ <[j := x]> e)) as Hset.
  { intros e j x Hj. rewrite set_ok by (rewrite length_app; lia). f_equal. replace (i * 4 + j)%nat with (length (concat w) + j)%nat by lia.
    apply insert_app_r. }
  cbn [for_]. rewrite !get_word by (done || lia). rewrite Ea. cbn [get lookup list_lookup bind].
  rewrite Hset by (cbn; lia). cbn [bind]. rewrite !get_word by (done || lia). rewrite Ea. cbn [get lookup list_lookup bind].
  rewrite Hset by (cbn; lia). cbn [bind]. rewrite !get_word by (done || lia). rewrite Ea. cbn [get lookup list_lookup bind].
  rewrite Hset by (cbn; lia). cbn [bind]. rewrite !get_word by (done || lia). rewrite Ea. cbn [get lookup list_lookup bind].
  rewrite Hset by (cbn; lia). reflexivity.
Qed.

Lemma expand_column_spec base w z i :
  base_ok base -> Forall word w -> length w = i -> (base <= i < 4 * (base + 7))%nat ->
  expand_column base i (concat w ++ [0; 0; 0; 0] ++ z) = Ok (concat (w ++ [AES.next_word base w]) ++ z) /\
  word (AES.next_word base w).
Proof.
  intros HN Hw Hl Hi. assert (i - 1 < length w)%nat as Hp by (destruct HN as [->|[->| ->]]; lia).
  assert (i - base < length w)%nat as Hk by (destruct HN as [->|[->| ->]]; lia).
  pose proof (nth_word w _ Hw Hp) as Wp. pose proof (key_word_word base i _ HN Hi Wp) as Wt.
  assert (AES.next_word base w = AES.xor (nth (i - base) w []) (key_word base i (nth (i - 1) w []))) as En.
  { unfold AES.next_word, key_word. by rewrite Hl. }
  split; [|rewrite En; apply xor_word; [by apply nth_word|done]].
  rewrite En. rewrite <- write_column by (done || lia). unfold expand_column, OAES_RKEY_LEN at 1. rewrite drop_word by done.
  destruct (oaes_gf_8_spec _ (expand_round _ _ HN Hi)) as [Eg _].
  destruct (word_inv _ Wp) as (t0 & t1 & t2 & t3 & -> & Hb). unfold OAES_COL_LEN. rewrite memcpy_ok by (cbn; lia). cbn [bind take drop app replicate Nat.add]. rewrite take_0. cbn [app].
  unfold key_word. destruct (_ =? 0)%nat.
  - change (oaes_word_rot_left [t0; t1; t2; t3]) with (Ok [t1; t2; t3; t0]). cbn [bind].
    rewrite sub_word_spec by (split; [do 4 (apply Forall_cons_1 in Hb as [? Hb]); byte_list|reflexivity]).
    cbn [bind AES.sub_bytes fmap list_fmap get lookup list_lookup]. fold (get oaes_gf_8 (i / base - 1)). rewrite Eg. cbn [bind].
    rewrite set_ok by (cbn; lia). cbn [bind insert list_insert]. cbn -[sbox AES.rcon for_]. by rewrite !Z.lxor_0_r.
  - destruct (_ && _); [|done]. by rewrite sub_word_spec.
Qed.

(** The words after [n] steps. *)
Definition expand_n (key : list Z) (n : nat) : list (list Z) :=
  Nat.iter n (fun w => w ++ [AES.next_word (length key / 4) w]) (AES.words key).

Definition key_ok (key : list Z) : Prop := bytes key /\ (length key = 16 \/ length key = 24 \/ length key = 32)%nat.

Lemma key_base_ok key : key_ok key -> base_ok (length key / 4) /\ length key = (4 * (length key / 4))%nat.
Proof. intros [_ [-> |[-> | ->]]]; (split; [|reflexivity]); [by left|by right; left|by right; right]. Qed.

Lemma words_spec key n : bytes key -> length key = (4 * n)%nat ->
  concat (AES.words key) = key /\ Forall word (AES.words key) /\ length (AES.words key) = n.
Proof.
  intros Hb Hl. unfold AES.words. replace (length key / 4)%nat with n by (rewrite Hl, Nat.mul_comm, Nat.div_mul; lia).
  split; [rewrite sized_blocks; apply take_ge; lia|]. rewrite length_fmap, length_seq. split; [|done].
  apply Forall_fmap, Forall_forall. intros i Hi%in_seq. split; [by apply Forall_take, Forall_drop|].
  cbn [compose]. rewrite length_take, length_drop. lia.
Qed.

Lemma expand_loop key n :
  key_ok key -> (n <= 3 * (length key / 4) + 28)%nat ->
  let base := (length key / 4)%nat in
  for_ n (fun i exp => expand_column base i exp) base (key ++ replicate (4 * (3 * base + 28)) 0) =
    Ok (concat (expand_n key n) ++ replicate (4 * (3 * base + 28 - n)) 0) /\
  Forall word (expand_n key n) /\ length (expand_n key n) = (base + n)%nat.
Proof.
  intros Hk Hn base. destruct (key_base_ok key Hk) as [HN Hl]. fold base in HN, Hl. destruct Hk as [Hb _].
  destruct (words_spec key base Hb Hl) as (Ew & Ww & Lw).
  induction n as [|n IH].
  - cbn [for_]. rewrite Nat.sub_0_r, Nat.add_0_r. change (expand_n key 0) with (AES.words key). rewrite Ew. done.
  - destruct IH as (E & W & L); [lia|].
    rewrite for_snoc, E. cbn [bind]. replace (4 * (3 * base + 28 - n))%nat with (4 + 4 * (3 * base + 28 - S n))%nat by lia.
    rewrite replicate_add. destruct (expand_column_spec base (expand_n key n) (replicate (4 * (3 * base + 28 - S n)) 0) (base + n) HN W L ltac:(lia)) as [E1 W1].
    change (expand_n key (S n)) with (expand_n key n ++ [AES.next_word base (expand_n key n)]).
    split; [exact E1|]. rewrite length_app, L. split; [|cbn [length]; lia]. apply Forall_app. split; [done|]. constructor; [exact W1|constructor].
Qed.

Lemma expand_words key : key_ok key ->
  Forall word (AES.expand key) /\ length (AES.expand key) = (4 * (length key / 4 + 7))%nat.
Proof.
  intros Hk. destruct (expand_loop key (3 * (length key / 4) + 28) Hk ltac:(lia)) as (_ & W & L).
  assert (AES.expand key = expand_n key (3 * (length key / 4) + 28)) as ->.
  { unfold AES.expand, expand_n, AES.rounds. f_equal. lia. }
  split; [exact W|]. rewrite L. lia.
Qed.

(** The key that the library keeps. *)
Definition expanded_key (key : list Z) : oaes_key :=
  let base := (length key / 4)%nat in
  OaesKey (Z.of_nat (length key)) key (Z.of_nat (16 * (base + 7))) (concat (AES.expand key)) (base + 7) base.

Lemma oaes_key_expand_spec c key l e n b :
  key_ok key -> 
  oaes_key_expand true (Some (set_key c (Some (OaesKey (Z.of_nat (length key)) key l e n b)))) =
  Ok (OAES_RET_SUCCESS, Some (set_key c (Some (expanded_key key)))).
Proof.
  intros Hk. destruct (key_base_ok key Hk) as [HN Hl]. set (base := (length key / 4)%nat) in *.
  destruct (expand_loop key (3 * base + 28) Hk ltac:(fold base; lia)) as (E & _ & _). fold base in E.
  unfold oaes_key_expand, OAES_RKEY_LEN, OAES_COL_LEN, OAES_ROUND_BASE. cbn [set_key ctx_key data_len key_data]. rewrite Nat2Z.id. fold base.
  rewrite memcpy_ok by (rewrite ?length_replicate; lia). rewrite take_0. cbn [app bind]. rewrite firstn_all, drop_replicate.
  replace ((base + 7) * 4 * 4 - (0 + length key))%nat with (4 * (3 * base + 28))%nat by lia.
  replace ((base + 7) * 4 - base)%nat with (3 * base + 28)%nat by lia. rewrite E. cbn [bind]. do 3 f_equal. unfold set_key. cbn [ctx_options ctx_iv]. do 2 f_equal.
  unfold expanded_key. fold base. f_equal; [f_equal; lia|]. rewrite Nat.sub_diag. cbn [replicate Nat.mul]. rewrite app_nil_r.
  unfold AES.expand, expand_n, AES.rounds. fold base. do 2 f_equal. lia.
Qed.

Definition no_fault : allocations := Allocations true true true.

Lemma install_key_spec c key rest :
  key_ok key -> install_key no_fault c (key ++ rest) (Z.of_nat (length key)) = Ok (OAES_RET_SUCCESS, Some (set_key c (Some (expanded_key key)))).
Proof.
  intros Hk. unfold install_key. cbn [no_fault mem_key mem_data mem_exp]. rewrite Nat2Z.id.
  rewrite memcpy_ok by (rewrite ?length_replicate, ?length_app; lia). rewrite take_0. cbn [app Nat.add]. rewrite take_app_length, drop_ge, app_nil_r by (rewrite length_replicate; lia).
  cbn [bind]. rewrite oaes_key_expand_spec by done. reflexivity.
Qed.

Lemma key_size_ok_spec key : key_ok key -> key_size_ok (Z.of_nat (length key)) = true.
Proof. intros [_ [-> |[-> | ->]]]; reflexivity. Qed.

(** ** The block cipher *)
Lemma round_key_spec w i :
  Forall word w -> (4 * i + 4 <= length w)%nat ->
  take 16 (drop (16 * i) (concat w)) = AES.round_key w i /\ block16 (AES.round_key w i).
Proof.
  intros Hw Hi. assert (Forall word (take 4 (drop (4 * i) w))) as Hk by (by apply Forall_take, Forall_drop).
  split.
  - replace (16 * i)%nat with (4 * (4 * i))%nat by lia. rewrite concat_drop by done.
    change 16%nat with (4 * 4)%nat. rewrite concat_take by (by apply Forall_drop). reflexivity.
  - split; [by apply concat_bytes|]. unfold AES.round_key. rewrite concat_length by done. rewrite length_take, length_drop. lia.
Qed.

Lemma sub_block_spec s : block16 s -> each_byte oaes_sub_byte OAES_BLOCK_SIZE s = Ok (AES.sub_bytes s).
Proof. intros [Hb Hl]. unfold OAES_BLOCK_SIZE. rewrite <- Hl. by apply each_byte_spec; [exact oaes_sub_byte_spec|]. Qed.

Lemma inv_sub_block_spec s : block16 s -> each_byte oaes_inv_sub_byte OAES_BLOCK_SIZE s = Ok (AES.inv_sub_bytes s).
Proof. intros [Hb Hl]. unfold OAES_BLOCK_SIZE. rewrite <- Hl. by apply each_byte_spec; [exact oaes_inv_sub_byte_spec|]. Qed.

Lemma xor_block_spec key o s :
  block16 s -> (o + 16 <= length key)%nat -> xor_key key o OAES_BLOCK_SIZE s = Ok (AES.xor s (take 16 (drop o key))).
Proof. intros [_ Hl] Hk. unfold OAES_BLOCK_SIZE. rewrite <- Hl. apply xor_key_spec. lia. Qed.

Lemma inv_sbox_byte b : is_byte b -> is_byte (AES.inv_sbox b).
Proof.
  intros Hb. assert (((0 <=? AES.inv_sbox b) && (AES.inv_sbox b <? 256)) = true) as H.
  { revert b Hb. apply (byte_cases (fun b => (0 <=? AES.inv_sbox b) && (AES.inv_sbox b <? 256))). by vm_compute. }
  unfold is_byte. lia.
Qed.

Lemma inv_sub_block s : block16 s -> block16 (AES.inv_sub_bytes s).
Proof.
  intros [Hb Hl]. unfold AES.inv_sub_bytes. split; [|by rewrite length_fmap]. apply Forall_fmap. eapply List.Forall_impl; [|exact Hb].
  intros a; apply inv_sbox_byte.
Qed.

Lemma inv_shift_block s : block16 s -> block16 (AES.inv_shift_rows s).
Proof.
  intros Hs. split; [|reflexivity]. destruct (block16_inv s Hs) as (b0 & b1 & b2 & b3 & b4 & b5 & b6 & b7 & b8 & b9 & ba & bb & bc & bd & be & bf & -> & H).
  destruct H as (H0 & H1 & H2 & H3 & H4 & H5 & H6 & H7 & H8 & H9 & Ha & Hb & Hc & Hd & He & Hf).
  change (bytes [b0; bd; ba; b7; b4; b1; be; bb; b8; b5; b2; bf; bc; b9; b6; b3]). byte_list.
Qed.

Lemma encryption_round_spec key s :
  block16 s -> (16 <= length key)%nat -> encryption_round key s = Ok (AES.round s (take 16 key)).
Proof.
  intros Hs Hk. unfold encryption_round. rewrite sub_block_spec by done. cbn [bind]. pose proof (sub_bytes_block s Hs) as H1.
  rewrite oaes_shift_rows_spec by apply H1. cbn [bind]. pose proof (shift_rows_block _ H1) as H2. rewrite mix_all_cols_spec by done. cbn [bind].
  rewrite xor_block_spec by (first [lia|apply mix_block; [exact row_mix|done]]). by rewrite drop_0.
Qed.

(** The context has the key [key]. *)
Definition has_key (ctx : oaes_ctx) (key : list Z) : Prop := key_ok key /\ ctx_key ctx = Some (expanded_key key).
Definition Nr (key : list Z) : nat := AES.rounds (length key / 4).
Definition encrypt (key s : list Z) : list Z := AES.cipher (Nr key) (AES.expand key) s.
Definition decrypt (key s : list Z) : list Z := AES.inv_cipher (Nr key) (AES.expand key) s.

Lemma round_keys key i :
  key_ok key -> (i <= Nr key)%nat ->
  take 16 (drop (16 * i) (concat (AES.expand key))) = AES.round_key (AES.expand key) i /\
  block16 (AES.round_key (AES.expand key) i) /\ (16 * i + 16 <= length (concat (AES.expand key)))%nat.
Proof.
  intros Hk Hi. destruct (expand_words key Hk) as [W L]. unfold Nr, AES.rounds in Hi.
  destruct (round_key_spec _ i W ltac:(lia)) as [E B]. split; [exact E|]. split; [exact B|]. rewrite concat_length by done. lia.
Qed.

Lemma encrypt_round_spec key i s :
  key_ok key -> (i <= Nr key)%nat -> block16 s ->
  encrypt_round (expanded_key key) i s = Ok (AES.round s (AES.round_key (AES.expand key) i)) /\
  block16 (AES.round s (AES.round_key (AES.expand key) i)).
Proof.
  intros Hk Hi Hs. destruct (round_keys key i Hk Hi) as (E & B & L). split; [|by apply round_block].
  unfold encrypt_round, OAES_RKEY_LEN, OAES_COL_LEN. rewrite sub_block_spec by done. cbn [bind]. pose proof (sub_bytes_block s Hs) as H1.
  rewrite oaes_shift_rows_spec by apply H1. cbn [bind]. pose proof (shift_rows_block _ H1) as H2. rewrite mix_all_cols_spec by done. cbn [bind].
  cbn [expanded_key exp_data]. replace (i * 4 * 4)%nat with (16 * i)%nat by lia.
  rewrite xor_block_spec by (first [lia|apply mix_block; [exact row_mix|done]]). by rewrite E.
Qed.

Lemma encrypt_block_spec ctx key s :
  has_key ctx key -> block16 s ->
  oaes_encrypt_block ctx s OAES_BLOCK_SIZE = Ok (OAES_RET_SUCCESS, encrypt key s) /\ block16 (encrypt key s).
Proof.
  intros [Hk Ek] Hs. unfold oaes_encrypt_block. rewrite Ek. cbn [Nat.eqb OAES_BLOCK_SIZE negb]. fold OAES_BLOCK_SIZE.
  destruct (round_keys key 0 Hk ltac:(lia)) as (E0 & B0 & L0). destruct (round_keys key (Nr key) Hk ltac:(lia)) as (En & Bn & Ln).
  cbn [expanded_key exp_data num_keys]. rewrite xor_block_spec by (done || lia).
  change (drop 0 (concat (AES.expand key))) with (drop (16 * 0) (concat (AES.expand key))). rewrite E0. cbn [bind].
  destruct (for_foldl (length key / 4 + 7 - 1 - 1) (encrypt_round (expanded_key key))
    (fun s i => AES.round s (AES.round_key (AES.expand key) i)) block16 1 (AES.xor s (AES.round_key (AES.expand key) 0))) as [Ef Bf].
  { by apply xor_block. }
  { intros k a Hi Ha. apply encrypt_round_spec; [done| |done]. unfold Nr, AES.rounds. lia. }
  change {| data_len := _; key_data := _; exp_data_len := _; exp_data := _; num_keys := _; key_base := _ |} with (expanded_key key).
  rewrite Ef. cbn [bind]. rewrite sub_block_spec by done. cbn [bind]. pose proof (sub_bytes_block _ Bf) as H1.
  rewrite oaes_shift_rows_spec by apply H1. cbn [bind]. pose proof (shift_rows_block _ H1) as H2.
  unfold OAES_RKEY_LEN, OAES_COL_LEN.
  replace ((length key / 4 + 7 - 1) * 4 * 4)%nat with (16 * Nr key)%nat by (unfold Nr, AES.rounds; lia).
  rewrite xor_block_spec by (done || lia). rewrite En. cbn [bind]. pose proof (xor_block _ _ H2 Bn) as H3.
  replace (length key / 4 + 7 - 1 - 1)%nat with (Nr key - 1)%nat in * by (unfold Nr, AES.rounds; lia). split; [reflexivity|exact H3].
Qed.

Lemma decrypt_round_spec key i s :
  key_ok key -> (i <= Nr key)%nat -> block16 s ->
  decrypt_round (expanded_key key) i s = Ok (AES.inv_round s (AES.round_key (AES.expand key) i)) /\
  block16 (AES.inv_round s (AES.round_key (AES.expand key) i)).
Proof.
  intros Hk Hi Hs. destruct (round_keys key i Hk Hi) as (E & B & L). pose proof (inv_shift_block s Hs) as H1. pose proof (inv_sub_block _ H1) as H2.
  pose proof (xor_block _ _ H2 B) as H3. split; [|apply mix_block; [exact row_inv_mix|exact H3]].
  unfold decrypt_round, OAES_RKEY_LEN, OAES_COL_LEN. rewrite oaes_inv_shift_rows_spec by apply Hs. cbn [bind].
  rewrite inv_sub_block_spec by done. cbn [bind expanded_key exp_data]. replace (i * 4 * 4)%nat with (16 * i)%nat by lia.
  rewrite xor_block_spec by (done || lia). rewrite E. cbn [bind]. by apply inv_mix_all_cols_spec.
Qed.

Lemma foldl_S {A} (g : A -> nat -> A) s l : foldl (fun s i => g s (S i)) s l = foldl g s (S <$> l).
Proof. revert s. induction l as [|i l IH]; intros s; [done|]. cbn [fmap list_fmap foldl]. apply IH. Qed.

Lemma decrypt_block_spec ctx key s :
  has_key ctx key -> block16 s ->
  oaes_decrypt_block ctx s OAES_BLOCK_SIZE = Ok (OAES_RET_SUCCESS, decrypt key s) /\ block16 (decrypt key s).
Proof.
  intros [Hk Ek] Hs. unfold oaes_decrypt_block. rewrite Ek. cbn [Nat.eqb OAES_BLOCK_SIZE negb]. fold OAES_BLOCK_SIZE.
  destruct (round_keys key 0 Hk ltac:(lia)) as (E0 & B0 & L0). destruct (round_keys key (Nr key) Hk ltac:(lia)) as (En & Bn & Ln).
  cbn [expanded_key exp_data num_keys]. unfold OAES_RKEY_LEN, OAES_COL_LEN.
  replace ((length key / 4 + 7 - 1) * 4 * 4)%nat with (16 * Nr key)%nat by (unfold Nr, AES.rounds; lia).
  rewrite xor_block_spec by (done || lia). rewrite En. cbn [bind].
  destruct (for_down_foldl (length key / 4 + 7 - 2) (fun i c => decrypt_round (expanded_key key) (S i) c)
    (fun s i => AES.inv_round s (AES.round_key (AES.expand key) (S i))) block16 (AES.xor s (AES.round_key (AES.expand key) (Nr key)))) as [Ef Bf].
  { by apply xor_block. }
  { intros k a Hi Ha. apply decrypt_round_spec; [done| |done]. unfold Nr, AES.rounds. lia. }
  change {| data_len := _; key_data := _; exp_data_len := _; exp_data := _; num_keys := _; key_base := _ |} with (expanded_key key).
  rewrite Ef. cbn [bind]. rewrite (oaes_inv_shift_rows_spec _ (proj2 Bf)). cbn [bind]. pose proof (inv_shift_block _ Bf) as H1.
  rewrite inv_sub_block_spec by done. cbn [bind]. pose proof (inv_sub_block _ H1) as H2.
  rewrite xor_block_spec by (done || lia). change (drop 0 (concat (AES.expand key))) with (drop (16 * 0) (concat (AES.expand key))). rewrite E0. cbn [bind].
  pose proof (xor_block _ _ H2 B0) as H3.
  assert (decrypt key s = AES.xor (AES.inv_sub_bytes (AES.inv_shift_rows
    (foldl (fun s i => AES.inv_round s (AES.round_key (AES.expand key) (S i))) (AES.xor s (AES.round_key (AES.expand key) (Nr key)))
       (reverse (seq 0 (length key / 4 + 7 - 2)))))) (AES.round_key (AES.expand key) 0)) as ->; [|done].
  unfold decrypt, AES.inv_cipher, AES.inv_final_round. do 3 f_equal.
  rewrite (foldl_S (fun s i => AES.inv_round s (AES.round_key (AES.expand key) i))), fmap_reverse, fmap_S_seq.
  do 3 f_equal. unfold Nr, AES.rounds. lia.
Qed.

Lemma decrypt_encrypt key s : key_ok key -> block16 s -> decrypt key (encrypt key s) = s.
Proof.
  intros Hk Hs. apply (inv_cipher_cipher (Nr key) (AES.expand key) s); [|exact Hs|unfold Nr, AES.rounds; lia].
  intros i Hi. destruct (round_keys key i Hk Hi) as (_ & B & _). exact B.
Qed.
