(* ===== verification/OaesMessages.v ===== *)
(** * Messages of the AES library

    What [oaes_encrypt] writes, and that [oaes_decrypt] reads it back. *)

From stdpp Require Import base list numbers.
From Stdlib Require Import ZArith Lia.
From S2P Require Import Prelude Bytes Streaming Rijndael Aes Oaes OaesFacts.

(** ** The format *)
Module Message.
Definition pad_len (m : list Z) : nat := ((16 - length m mod 16) mod 16)%nat.
Definition padding (n : nat) : list Z := (fun j => Z.of_nat (S j)) <$> seq 0 n.
Definition padded (m : list Z) : list Z := m ++ padding (pad_len m).
Definition count (m : list Z) : nat := (length (padded m) / 16)%nat.
Definition block (m : list Z) (k : nat) : list Z := take 16 (drop (16 * k) (padded m)).

Definition header (options flags : Z) : list Z :=
  [0x4f; 0x41; 0x45; 0x53; 0x01; 0x02] ++ le_bytes 2 options ++ [flags] ++ replicate 7 0.

Section Blocks.
Context (cbc : bool) (key iv m : list Z).

Definition seal (v : list Z) (k : nat) : list Z := encrypt key (if cbc then AES.xor (block m k) v else block m k).

(** The vector before the block [k]: the cipher block before it. *)
Fixpoint vector (k : nat) : list Z :=
  match k with O => iv | S k => if cbc then seal (vector k) k else iv end.

Definition sealed (k : nat) : list Z := seal (vector k) k.
Definition body (n : nat) : list Z := concat (sealed <$> seq 0 n).
End Blocks.

Definition flags (m : list Z) : Z := if (pad_len m =? 0)%nat then 0 else OAES_FLAG_PAD.

Definition message (options : Z) (key iv m : list Z) : list Z :=
  header options (flags m) ++ iv ++ body (is_cbc options) key iv m (count m).
End Message.

Import Message.

(** ** Lengths *)
Lemma padding_length n : length (padding n) = n.
Proof. unfold padding. by rewrite length_fmap, length_seq. Qed.

Lemma pad_len_spec m : (pad_len m < 16 /\ (length m + pad_len m) mod 16 = 0)%nat.
Proof.
  unfold pad_len. pose proof (Nat.mod_upper_bound (length m) 16 ltac:(lia)) as Hr. split; [apply Nat.mod_upper_bound; lia|].
  destruct (decide (length m mod 16 = 0)%nat) as [E|E].
  - rewrite E. change ((16 - 0) mod 16)%nat with 0%nat. by rewrite Nat.add_0_r.
  - rewrite (Nat.mod_small (16 - _)) by lia. rewrite (Nat.div_mod_eq (length m) 16) at 1.
    replace (16 * (length m / 16) + length m mod 16 + (16 - length m mod 16))%nat with ((length m / 16 + 1) * 16)%nat by lia.
    apply Nat.Div0.mod_mul.
Qed.

Lemma padded_length m : length (padded m) = (16 * count m)%nat /\ (16 * count m = length m + pad_len m)%nat.
Proof.
  assert (length (padded m) = length m + pad_len m)%nat as E by (unfold padded; by rewrite length_app, padding_length).
  destruct (pad_len_spec m) as [_ H]. unfold count. rewrite E. pose proof (Nat.div_mod_eq (length m + pad_len m) 16). lia.
Qed.

Lemma padded_bytes m : bytes m -> bytes (padded m).
Proof.
  intros Hm. unfold padded, bytes. apply Forall_app. split; [done|]. destruct (pad_len_spec m) as [Hp _].
  apply Forall_fmap, Forall_forall. intros j Hj%in_seq. unfold compose, is_byte. lia.
Qed.

Lemma block_ok m k : bytes m -> (k < count m)%nat -> block16 (block m k).
Proof.
  intros Hm Hk. destruct (padded_length m) as [L _]. split; [by apply Forall_take, Forall_drop, padded_bytes|].
  unfold block. rewrite length_take, length_drop. lia.
Qed.

Lemma encrypt_ok key s : key_ok key -> block16 s -> block16 (encrypt key s).
Proof.
  intros Hk Hs. destruct (encrypt_block_spec (OaesCtx (Some (expanded_key key)) 0 []) key s) as [_ H]; [by split|done|done].
Qed.

Lemma seal_ok cbc key m v k : key_ok key -> bytes m -> (k < count m)%nat -> block16 v -> block16 (seal cbc key m v k).
Proof.
  intros Hk Hm Hn Hv. pose proof (block_ok m k Hm Hn) as Hb. unfold seal. apply encrypt_ok; [done|]. destruct cbc; [by apply xor_block|done].
Qed.

Lemma vector_ok cbc key iv m k : key_ok key -> bytes m -> block16 iv -> (k <= count m)%nat -> block16 (vector cbc key iv m k).
Proof.
  intros Hk Hm Hv. induction k as [|k IH]; intros Hn; [done|]. cbn [vector]. destruct cbc; [|done]. apply seal_ok; (done || (try apply IH; lia)).
Qed.

Lemma sealed_ok cbc key iv m k : key_ok key -> bytes m -> block16 iv -> (k < count m)%nat -> block16 (sealed cbc key iv m k).
Proof. intros Hk Hm Hv Hn. apply seal_ok; try done. apply vector_ok; (done || lia). Qed.

Lemma body_sized cbc key iv m n : key_ok key -> bytes m -> block16 iv -> (n <= count m)%nat ->
  Forall (sized 16) (sealed cbc key iv m <$> seq 0 n).
Proof.
  intros Hk Hm Hv Hn. apply Forall_fmap, Forall_forall. intros k Hi%in_seq. destruct (sealed_ok cbc key iv m k) as [_ H]; (done || lia).
Qed.

Lemma body_length cbc key iv m n : key_ok key -> bytes m -> block16 iv -> (n <= count m)%nat -> length (body cbc key iv m n) = (16 * n)%nat.
Proof. intros Hk Hm Hv Hn. unfold body. rewrite (sized_length 16) by (by apply body_sized). by rewrite length_fmap, length_seq. Qed.

Lemma body_S cbc key iv m n : body cbc key iv m (S n) = body cbc key iv m n ++ sealed cbc key iv m n.
Proof. unfold body. rewrite seq_S, fmap_app, concat_app. cbn [fmap list_fmap concat Nat.add]. by rewrite app_nil_r. Qed.

(** ** Encryption *)
Lemma pad_loop p o n : length p = o -> (n <= 16)%nat ->
  for_ n (fun j block => set block (o + j) (u8 (Z.of_nat j + 1))) 0 (p ++ replicate n 0) = Ok (p ++ padding n).
Proof.
  intros <- Hn. enough (forall k, (k <= n)%nat ->
    for_ k (fun j block => set block (length p + j) (u8 (Z.of_nat j + 1))) 0 (p ++ replicate n 0) = Ok (p ++ padding k ++ replicate (n - k) 0)) as H.
  { rewrite H by lia. rewrite Nat.sub_diag. cbn [replicate]. by rewrite app_nil_r. }
  induction k as [|k IH]; intros Hk; [by rewrite Nat.sub_0_r|]. rewrite for_snoc, IH by lia. cbn [bind Nat.add].
  assert (length (padding k) = k) as Lk by apply padding_length.
  rewrite set_ok by (rewrite !length_app, length_replicate; lia). f_equal. rewrite insert_app_r. f_equal.
  rewrite insert_app_r_alt by lia. rewrite Lk, Nat.sub_diag. replace (n - k)%nat with (S (n - S k)) by lia. cbn [replicate insert list_insert].
  unfold padding. rewrite seq_S, fmap_app, <- app_assoc. cbn. f_equal. f_equal. unfold u8. rewrite Z.mod_small by lia. lia.
Qed.

(** The block that a step takes from the message. *)
Lemma block_of m tail k :
  (k < count m)%nat ->
  let size := Z.to_nat (Z.min (Z.of_nat (length m) - Z.of_nat (16 * k)) 16) in
  (size <= 16)%nat /\ (size <= length (drop (16 * k) (m ++ tail)))%nat /\
  block m k = take size (drop (16 * k) (m ++ tail)) ++ padding (16 - size) /\ length (take size (drop (16 * k) (m ++ tail))) = size.
Proof.
  intros Hk size. destruct (padded_length m) as [L1 L2]. destruct (pad_len_spec m) as [Hp _].
  assert (size = Nat.min (length m - 16 * k) 16) as Es by (unfold size; lia). clearbody size.
  assert (16 * k <= length m)%nat as Hm by lia.
  assert (size <= length (drop (16 * k) (m ++ tail)))%nat as Hs by (rewrite length_drop, length_app; lia).
  split; [lia|]. split; [exact Hs|]. split; [|rewrite length_take; lia].
  unfold block, padded. rewrite !drop_app_le by lia. destruct (decide (16 <= length m - 16 * k)%nat) as [Hf|Hf].
  - replace size with 16%nat by lia. rewrite !take_app_le by (rewrite length_drop; lia). by rewrite app_nil_r.
  - rewrite take_ge by (rewrite length_app, padding_length, length_drop; lia).
    rewrite take_app_le by (rewrite length_drop; lia). rewrite (take_ge _ size) by (rewrite length_drop; lia).
    do 2 f_equal. lia.
Qed.

Lemma encrypt_step_spec x key m buf k :
  has_key x key -> bytes m -> block16 (ctx_iv x) -> (k < count m)%nat -> (32 + 16 * count m <= length buf)%nat ->
  let cbc := is_cbc (ctx_options x) in
  let at_ n := (OAES_RET_SUCCESS, OaesCtx (ctx_key x) (ctx_options x) (vector cbc key (ctx_iv x) m n),
    take 32 buf ++ body cbc key (ctx_iv x) m n ++ drop (16 * n) (m ++ drop (32 + length m) buf)) in
  encrypt_step (Z.of_nat (length m)) k (at_ k) = Ok (at_ (S k)).
Proof.
  intros Hx Hm Hv Hn Hb cbc at_. destruct Hx as [Hk Ek]. subst at_. cbv beta. unfold encrypt_step. cbn [ctx_options ctx_iv ctx_key].
  set (tail := drop (32 + length m) buf). destruct (block_of m tail k Hn) as (Z1 & Z2 & Eb & Z3).
  set (size := Z.to_nat (Z.min (Z.of_nat (length m) - Z.of_nat (16 * k)) 16)) in *.
  pose proof (body_length cbc key (ctx_iv x) m k Hk Hm Hv ltac:(lia)) as Lb. unfold OAES_BLOCK_SIZE.
  rewrite app_assoc. set (front := take 32 buf ++ body cbc key (ctx_iv x) m k).
  assert (length front = 32 + 16 * k)%nat as Lf by (unfold front; rewrite length_app, length_take, Lb; lia).
  rewrite drop_app_length' by (rewrite Lf; lia). rewrite memcpy_ok by (rewrite ?length_replicate; lia). cbn [bind Nat.add]. rewrite take_0. cbn [app].
  rewrite drop_replicate. rewrite (pad_loop _ size) by (first [exact Z3|lia]). rewrite <- Eb. cbn [bind]. change (is_cbc (ctx_options x)) with cbc. clearbody cbc.
  pose proof (block_ok m k Hm Hn) as Bk. pose proof (vector_ok cbc key (ctx_iv x) m k Hk Hm Hv ltac:(lia)) as Bv.
  assert ((if cbc then xor_key (vector cbc key (ctx_iv x) m k) 0 16 (block m k) else Ok (block m k)) =
    Ok (if cbc then AES.xor (block m k) (vector cbc key (ctx_iv x) m k) else block m k)) as ->.
  { destruct cbc; [|done]. rewrite (xor_block_spec _ 0) by (first [done|destruct Bv as [_ ->]; lia]). rewrite drop_0, take_ge by (destruct Bv as [_ ->]; lia). done. }
  cbn [bind and_then].
  destruct (encrypt_block_spec (OaesCtx (ctx_key x) (ctx_options x) (vector cbc key (ctx_iv x) m k)) key
    (if cbc then AES.xor (block m k) (vector cbc key (ctx_iv x) m k) else block m k)) as [Ee Be].
  { by split. }
  { destruct cbc; [by apply xor_block|done]. }
  unfold OAES_BLOCK_SIZE in Ee. rewrite Ee. cbn [bind]. fold (seal cbc key m (vector cbc key (ctx_iv x) m k) k) in Be |- *.
  fold (sealed cbc key (ctx_iv x) m k) in Be |- *. destruct Be as [_ Le].
  destruct (padded_length m) as [_ Lp].
  rewrite memcpy_at by (rewrite ?Le, ?length_drop, ?length_app; unfold tail; rewrite ?length_drop; lia). cbn [bind].
  rewrite (take_ge (sealed _ _ _ _ _)) by lia. rewrite drop_drop.
  assert ((if cbc then memcpy (vector cbc key (ctx_iv x) m k) 0 (sealed cbc key (ctx_iv x) m k) 16 else Ok (vector cbc key (ctx_iv x) m k)) =
    Ok (vector cbc key (ctx_iv x) m (S k))) as ->.
  { cbn [vector]. fold (sealed cbc key (ctx_iv x) m k). destruct cbc; [|f_equal; by destruct k].
    destruct Bv as [_ Lv]. rewrite memcpy_ok by lia. rewrite take_0, (take_ge (sealed _ _ _ _ _)), drop_ge by lia. cbn [app]. by rewrite app_nil_r. }
  cbn [bind rc_or]. rewrite body_S. unfold front. rewrite <- !app_assoc. by replace (16 * S k)%nat with (16 * k + 16)%nat by lia.
Qed.

Lemma encrypt_loop x key m buf n :
  has_key x key -> bytes m -> block16 (ctx_iv x) -> (n <= count m)%nat -> (32 + 16 * count m <= length buf)%nat ->
  let cbc := is_cbc (ctx_options x) in
  for_ n (encrypt_step (Z.of_nat (length m))) 0 (OAES_RET_SUCCESS, x, take 32 buf ++ m ++ drop (32 + length m) buf) =
  Ok (OAES_RET_SUCCESS, OaesCtx (ctx_key x) (ctx_options x) (vector cbc key (ctx_iv x) m n),
    take 32 buf ++ body cbc key (ctx_iv x) m n ++ drop (16 * n) (m ++ drop (32 + length m) buf)).
Proof.
  intros Hx Hm Hv Hn Hb cbc. induction n as [|n IH]; [destruct x; reflexivity|]. rewrite for_snoc, IH by lia. cbn [bind Nat.add].
  by apply (encrypt_step_spec x key m buf n).
Qed.

Lemma pad_len_Z m :
  let n := Z.of_nat (length m) in (if n mod 16 =? 0 then 0 else 16 - n mod 16) = Z.of_nat (pad_len m).
Proof.
  intros n. unfold pad_len. assert (n mod 16 = Z.of_nat (length m mod 16)) as -> by (unfold n; by rewrite Nat2Z.inj_mod).
  pose proof (Nat.mod_upper_bound (length m) 16 ltac:(lia)) as Hr. destruct (Z.eqb_spec (Z.of_nat (length m mod 16)) 0) as [E|E].
  - replace (length m mod 16)%nat with 0%nat by lia. reflexivity.
  - rewrite (Nat.mod_small (16 - _)) by lia. lia.
Qed.

Lemma write_header (buf iv m : list Z) (options flags : Z) :
  (32 + length m <= length buf)%nat -> length iv = 16%nat ->
  (let! buf := memcpy buf 0 oaes_header 16 in
   let! buf := memcpy buf 6 (le_bytes 2 options) 2 in
   let! buf := memcpy buf 8 [flags] 1 in
   let! buf := memcpy buf 16 iv 16 in
   memcpy buf 32 m (length m)) =
  Ok ((header options flags ++ iv) ++ m ++ drop (32 + length m) buf).
Proof.
  intros Hb Hv. rewrite (memcpy_at [] buf) by (first [reflexivity|lia|vm_compute; lia]). cbn [bind app].
  pose proof (le_bytes_length 2 options) as Lo. unfold header.
  destruct (le_bytes 2 options) as [|o1 [|o2 [|? ?]]]; try discriminate Lo.
  change (take 16 oaes_header) with ([0x4f; 0x41; 0x45; 0x53; 0x01; 0x02] ++ [0; 0; 0; 0; 0; 0; 0; 0; 0; 0]). rewrite <- app_assoc.
  rewrite memcpy_at by (cbn [length app]; rewrite ?length_app; cbn [length]; lia). cbn [bind].
  change ([0x4f; 0x41; 0x45; 0x53; 0x01; 0x02] ++ take 2 [o1; o2] ++ drop 2 ([0; 0; 0; 0; 0; 0; 0; 0; 0; 0] ++ drop 16 buf))
    with ([0x4f; 0x41; 0x45; 0x53; 0x01; 0x02; o1; o2] ++ [0; 0; 0; 0; 0; 0; 0; 0] ++ drop 16 buf).
  rewrite memcpy_at by (cbn [length app]; rewrite ?length_app; cbn [length]; lia). cbn [bind].
  change ([0x4f; 0x41; 0x45; 0x53; 0x01; 0x02; o1; o2] ++ take 1 [flags] ++ drop 1 ([0; 0; 0; 0; 0; 0; 0; 0] ++ drop 16 buf))
    with ([0x4f; 0x41; 0x45; 0x53; 0x01; 0x02; o1; o2; flags; 0; 0; 0; 0; 0; 0; 0] ++ drop 16 buf).
  rewrite memcpy_at by (cbn [length]; rewrite ?length_drop; lia). cbn [bind]. rewrite (take_ge iv), drop_drop by lia. rewrite app_assoc.
  rewrite memcpy_at by (rewrite ?length_app, ?length_drop; cbn [length]; lia). rewrite firstn_all, drop_drop. reflexivity.
Qed.

Lemma oaes_encrypt_spec x key m buf room :
  has_key x key -> bytes m -> block16 (ctx_iv x) -> Z.of_nat (length m) + 48 < 2 ^ 64 ->
  32 + 16 * Z.of_nat (count m) <= room -> room <= Z.of_nat (length buf) ->
  oaes_encrypt (Some x) (Some m) (Z.of_nat (length m)) (Some buf) (Some room) =
  Ok (OAES_RET_SUCCESS,
    Some (OaesCtx (ctx_key x) (ctx_options x) (vector (is_cbc (ctx_options x)) key (ctx_iv x) m (count m))),
    Some (message (ctx_options x) key (ctx_iv x) m ++ drop (32 + 16 * count m) buf),
    Some (32 + 16 * Z.of_nat (count m))).
Proof.
  intros Hx Hm Hv Hl Hr Hb. unfold oaes_encrypt. rewrite !(pad_len_Z m). destruct (padded_length m) as [_ Lp]. destruct (pad_len_spec m) as [Hp _].
  assert ((if Z.of_nat (pad_len m) =? 0 then 0 else OAES_FLAG_PAD) = flags m) as ->.
  { unfold flags. destruct (Z.eqb_spec (Z.of_nat (pad_len m)) 0), (Nat.eqb_spec (pad_len m) 0); (done || lia). }
  rewrite !u64_small by lia. destruct (Z.ltb_spec room (2 * 16 + Z.of_nat (length m) + Z.of_nat (pad_len m))); [lia|].
  destruct Hx as [Hk Ek]. rewrite Ek. unfold OAES_BLOCK_SIZE. rewrite Nat2Z.id. change (2 * 16)%nat with 32%nat.
  pose proof (write_header buf (ctx_iv x) m (ctx_options x) (flags m) ltac:(lia) (proj2 Hv)) as Hw.
  repeat lazymatch type of Hw with
  | bind ?a _ = _ => let E := fresh "E" in destruct a eqn:E; [cbn [bind] in Hw |- *|discriminate Hw]
  end.
  rewrite Hw. cbn [bind]. clear - Hk Ek Hm Hv Lp Hp Hl Hr Hb.
  assert (length (header (ctx_options x) (flags m) ++ ctx_iv x) = 32%nat) as L32 by (rewrite length_app, (proj2 Hv); reflexivity).
  set (b := (header (ctx_options x) (flags m) ++ ctx_iv x) ++ drop 32 buf).
  assert (take 32 b = header (ctx_options x) (flags m) ++ ctx_iv x) as Et by (unfold b; by rewrite take_app_le, take_ge by lia).
  assert (forall n, drop (32 + n) b = drop (32 + n) buf) as Ed by (intros n; unfold b; rewrite <- L32 at 1; by rewrite drop_app_add, drop_drop).
  rewrite <- Et, <- Ed. replace (Z.to_nat ((Z.of_nat (length m) + Z.of_nat (pad_len m)) / 16)) with (count m); last first.
  { replace (Z.of_nat (length m) + Z.of_nat (pad_len m)) with (Z.of_nat (count m) * 16) by lia. rewrite Z.div_mul by lia. lia. }
  rewrite (encrypt_loop x key) by (first [by split|done|unfold b; rewrite length_app, L32, length_drop; lia|lia]). cbn [bind].
  assert (drop (16 * count m) (m ++ drop (32 + length m) buf) = drop (32 + 16 * count m) buf) as Ej.
  { rewrite Lp, drop_app_add, drop_drop. f_equal; lia. }
  rewrite Et, Ed, Ej, Ek. unfold message. rewrite <- !app_assoc.
  by replace (2 * 16 + Z.of_nat (length m) + Z.of_nat (pad_len m)) with (32 + 16 * Z.of_nat (count m)) by lia.
Qed.

(** ** Decryption *)
Lemma sealed_at cbc key iv m k tail :
  key_ok key -> bytes m -> block16 iv -> (k < count m)%nat ->
  take 16 (drop (16 * k) (body cbc key iv m (count m) ++ tail)) = sealed cbc key iv m k.
Proof.
  intros Hk Hm Hv Hn. pose proof (body_length cbc key iv m (count m) Hk Hm Hv ltac:(lia)) as L.
  rewrite drop_app_le, take_app_le by (rewrite ?length_drop; lia).
  unfold body. rewrite sized_drop by (by apply body_sized). change 16%nat with (16 * 1)%nat at 1.
  rewrite sized_take by (apply Forall_drop; by apply body_sized).
  assert ((sealed cbc key iv m <$> seq 0 (count m)) !! k = Some (sealed cbc key iv m k)) as E.
  { rewrite list_lookup_fmap, lookup_seq_lt by done. done. }
  rewrite (drop_S _ _ _ E). cbn [take concat]. by rewrite take_0, app_nil_r.
Qed.

(** A block is opened by decryption and the vector before it. *)
Lemma open_sealed (cbc : bool) key iv m k :
  key_ok key -> bytes m -> block16 iv -> (k < count m)%nat ->
  (if cbc then AES.xor (decrypt key (sealed cbc key iv m k)) (vector cbc key iv m k) else decrypt key (sealed cbc key iv m k)) = block m k.
Proof.
  intros Hk Hm Hv Hn. pose proof (block_ok m k Hm Hn) as Hb. pose proof (vector_ok cbc key iv m k Hk Hm Hv ltac:(lia)) as Bv. unfold sealed, seal.
  destruct cbc; rewrite decrypt_encrypt by (try done; by apply xor_block); [|done].
  apply xor_xor. destruct Hb as [_ ->], Bv as [_ ->]. done.
Qed.

Lemma decrypt_step_spec x options key iv m front rest k v :
  has_key x key -> bytes m -> block16 iv -> (k < count m)%nat -> length front = 16%nat ->
  let cbc := is_cbc options in
  let data := body cbc key iv m (count m) in
  let at_ n := take (16 * n) (padded m) ++ drop (16 * n) data ++ rest in
  length v = 16%nat -> (cbc = true -> k = 0%nat -> v = iv) ->
  exists v', length v' = 16%nat /\
    decrypt_step x options (front ++ iv ++ data) k (OAES_RET_SUCCESS, v, at_ k) = Ok (OAES_RET_SUCCESS, v', at_ (S k)).
Proof.
  intros Hx Hm Hi Hn Hf cbc data at_ Lv H0. pose proof (body_length cbc key iv m (count m) (proj1 Hx) Hm Hi ltac:(lia)) as L. fold data in L.
  destruct (padded_length m) as [Lp _]. unfold decrypt_step, OAES_BLOCK_SIZE. change (is_cbc options) with cbc.
  assert ((if cbc && (0 <? 16 * k)%nat then memcpy v 0 (drop (16 + 16 * k) (front ++ iv ++ data)) 16 else Ok v) =
    Ok (if cbc then vector cbc key iv m k else v)) as ->.
  { clearbody cbc. destruct cbc; [|done]. destruct (Nat.ltb_spec 0 (16 * k)) as [Hk|Hk]; cbn [andb].
    - replace (16 + 16 * k)%nat with (length front + (length iv + 16 * (k - 1)))%nat by (rewrite Hf, (proj2 Hi); lia). rewrite !drop_app_add.
      assert (length (drop (16 * (k - 1)) data) >= 16)%nat by (rewrite length_drop; lia).
      rewrite memcpy_ok by lia. rewrite take_0, (drop_ge v) by lia. cbn [app]. rewrite app_nil_r. f_equal.
      destruct k as [|k]; [lia|]. replace (S k - 1)%nat with k by lia. unfold data. rewrite <- (app_nil_r (body _ _ _ _ _)).
      rewrite sealed_at by (first [apply Hx|done|lia]). done.
    - replace k with 0%nat in * by lia. cbn [vector]. f_equal. by apply H0. }
  cbn [bind]. set (u := if cbc then vector cbc key iv m k else v).
  assert (length u = 16%nat) as Lu.
  { unfold u. destruct cbc; [|done]. apply (vector_ok true key iv m k); (apply Hx || done || lia). }
  exists u. split; [exact Lu|]. subst at_. cbv beta.
  assert (length (take (16 * k) (padded m)) = 16 * k)%nat as Lt by (rewrite length_take; lia).
  rewrite drop_app_length' by (symmetry; exact Lt).
  assert (length (drop (16 * k) data ++ rest) >= 16)%nat as Ld by (rewrite length_app, length_drop; lia).
  rewrite memcpy_ok by (rewrite ?length_replicate; lia). rewrite take_0, (drop_ge (replicate 16 0)) by (rewrite length_replicate; lia).
  cbn [app bind and_then]. rewrite app_nil_r.
  assert (take 16 (drop (16 * k) data ++ rest) = sealed cbc key iv m k) as ->.
  { rewrite <- drop_app_le by lia. apply sealed_at; (apply Hx || done). }
  pose proof (sealed_ok cbc key iv m k (proj1 Hx) Hm Hi Hn) as Bs.
  destruct (decrypt_block_spec x key (sealed cbc key iv m k) Hx Bs) as [Ed Bd]. unfold OAES_BLOCK_SIZE in Ed. rewrite Ed. cbn [bind rc_or].
  assert ((if cbc then xor_key u 0 16 (decrypt key (sealed cbc key iv m k)) else Ok (decrypt key (sealed cbc key iv m k))) = Ok (block m k)) as ->.
  { rewrite <- (open_sealed cbc key iv m k) by (first [apply Hx|done]). unfold u in *. destruct cbc; [|done].
    rewrite (xor_block_spec _ 0) by (done || lia). by rewrite drop_0, take_ge by lia. }
  cbn [bind]. pose proof (block_ok m k Hm Hn) as [_ Lb].
  rewrite memcpy_at by (first [exact Lt|lia]). cbn [bind]. rewrite (take_ge (block m k)) by lia. unfold block.
  rewrite app_assoc, take_take_drop. replace (16 * S k)%nat with (16 * k + 16)%nat by lia.
  by rewrite drop_app_le, drop_drop by (rewrite length_drop; lia).
Qed.

Lemma decrypt_loop x options key iv m front rest :
  has_key x key -> bytes m -> block16 iv -> length front = 16%nat ->
  let cbc := is_cbc options in
  let data := body cbc key iv m (count m) in
  exists v, for_ (count m) (decrypt_step x options (front ++ iv ++ data)) 0 (OAES_RET_SUCCESS, iv, data ++ rest) =
    Ok (OAES_RET_SUCCESS, v, padded m ++ rest).
Proof.
  intros Hx Hm Hi Hf cbc data. pose proof (body_length cbc key iv m (count m) (proj1 Hx) Hm Hi ltac:(lia)) as L. fold data in L.
  destruct (padded_length m) as [Lp _].
  assert (forall n, (n <= count m)%nat -> exists v, length v = 16%nat /\ (n = 0%nat -> v = iv) /\
    for_ n (decrypt_step x options (front ++ iv ++ data)) 0 (OAES_RET_SUCCESS, iv, data ++ rest) =
    Ok (OAES_RET_SUCCESS, v, take (16 * n) (padded m) ++ drop (16 * n) data ++ rest)) as H.
  { induction n as [|n IH]; intros Hn.
    - exists iv. rewrite Nat.mul_0_r, take_0, drop_0. split; [apply Hi|]. done.
    - destruct IH as (v & Lv & Ev & E); [lia|]. rewrite for_snoc, E. cbn [bind Nat.add].
      destruct (decrypt_step_spec x options key iv m front rest n v Hx Hm Hi ltac:(lia) Hf Lv ltac:(intros _; exact Ev)) as (v' & Lv' & E').
      exists v'. split; [exact Lv'|]. split; [lia|]. exact E'. }
  destruct (H (count m) ltac:(lia)) as (v & _ & _ & E). exists v. rewrite E. rewrite take_ge, (drop_ge data) by lia. done.
Qed.

Lemma padding_lookup n i : (i < n)%nat -> padding n !! i = Some (Z.of_nat (S i)).
Proof. intros Hi. unfold padding. rewrite list_lookup_fmap, lookup_seq_lt by done. done. Qed.

Lemma is_pad_spec m n rest : is_pad (m ++ padding n ++ rest) (length m + n) n = Ok true.
Proof.
  unfold is_pad. enough (forall k, (k <= n)%nat -> for_ k (fun i ok => let! b := get (m ++ padding n ++ rest) (length m + n - 1 - i) in
    Ok (ok && (b =? Z.of_nat n - Z.of_nat i))) 0 true = Ok true) as H by (by apply H).
  induction k as [|k IH]; intros Hk; [done|]. rewrite for_snoc, IH by lia. cbn [bind Nat.add].
  replace (length m + n - 1 - k)%nat with (length m + (n - 1 - k))%nat by lia.
  rewrite (get_ok _ _ (Z.of_nat (n - k))); last first.
  { rewrite lookup_app_r, Nat.add_comm, Nat.add_sub, lookup_app_l, padding_lookup by (rewrite ?padding_length; lia). do 2 f_equal. lia. }
  cbn [bind andb]. do 2 f_equal. apply Z.eqb_eq. lia.
Qed.

Lemma remove_pad_spec m rest :
  pad_len m <> 0%nat ->
  remove_pad (padded m ++ rest) (length (padded m)) = Ok (OAES_RET_SUCCESS, m ++ replicate (pad_len m) 0 ++ rest, length m).
Proof.
  intros Hp. destruct (pad_len_spec m) as [Hp1 _]. unfold padded. rewrite length_app, padding_length, <- app_assoc. unfold remove_pad.
  destruct (Nat.eqb_spec (length m + pad_len m) 0); [lia|].
  rewrite (get_ok _ _ (Z.of_nat (pad_len m))); last first.
  { rewrite lookup_app_r by lia. rewrite lookup_app_l, padding_lookup by (rewrite ?padding_length; lia). f_equal. lia. }
  cbn [bind]. destruct (Z.leb_spec (Z.of_nat (pad_len m)) 0), (Z.ltb_spec 15 (Z.of_nat (pad_len m))); try lia. cbn [orb].
  rewrite Nat2Z.id, is_pad_spec. cbn [bind]. replace (length m + pad_len m - pad_len m)%nat with (length m) by lia.
  rewrite memcpy_at by (rewrite ?length_app, ?padding_length, ?length_replicate; lia). cbn [bind].
  rewrite take_ge by (rewrite length_replicate; lia). by rewrite drop_app_length' by (by rewrite padding_length).
Qed.

Definition options_ok (options : Z) : Prop := options = OAES_OPTION_ECB \/ options = OAES_OPTION_CBC.

(** The message without its padding, then zeros where the padding was. *)
Lemma oaes_decrypt_spec x options key iv m buf room :
  has_key x key -> bytes m -> block16 iv -> options_ok options -> Z.of_nat (length m) + 48 < 2 ^ 64 ->
  16 * Z.of_nat (count m) <= room -> room <= Z.of_nat (length buf) ->
  oaes_decrypt (Some x) (Some (message options key iv m)) (Z.of_nat (length (message options key iv m))) (Some buf) (Some room) =
  Ok (OAES_RET_SUCCESS, Some (m ++ replicate (pad_len m) 0 ++ drop (16 * count m) buf), Some (Z.of_nat (length m))).
Proof.
  intros Hx Hm Hi Ho Hl Hr Hb. pose proof (body_length (is_cbc options) key iv m (count m) (proj1 Hx) Hm Hi ltac:(lia)) as L.
  destruct (padded_length m) as [L1 L2]. destruct (pad_len_spec m) as [Hp _]. pose proof (le_bytes_length 2 options) as Lo.
  assert (length (header options (flags m)) = 16%nat) as Lh by (unfold header; rewrite !length_app, Lo; reflexivity).
  unfold message at 2. rewrite !length_app, L, Lh, (proj2 Hi). unfold oaes_decrypt, OAES_BLOCK_SIZE.
  replace (Z.of_nat (16 + (16 + 16 * count m))) with ((2 + Z.of_nat (count m)) * 16) by lia. rewrite Z.mod_mul by lia. cbn [Z.eqb negb].
  rewrite u64_small by lia. replace ((2 + Z.of_nat (count m)) * 16 - 2 * 16) with (Z.of_nat (16 * count m)) by lia.
  destruct (Z.ltb_spec room (Z.of_nat (16 * count m))); [lia|]. rewrite (proj2 Hx).
  assert (exists o1 o2, le_bytes 2 options = [o1; o2] /\ le_val [o1; o2] = options /\ options_bad options (flags m) = false) as (o1 & o2 & Eo & Ev & Eb).
  { destruct Ho as [-> | ->]; (eexists _, _; split; [reflexivity|]; split; [reflexivity|]); unfold flags; by destruct (_ =? _)%nat. }
  unfold message. set (data := body (is_cbc options) key iv m (count m)) in *.
  assert (header options (flags m) = [0x4f; 0x41; 0x45; 0x53; 0x01; 0x02; o1; o2; flags m; 0; 0; 0; 0; 0; 0; 0]) as Eh by (unfold header; by rewrite Eo).
  assert (header_bad (header options (flags m) ++ iv ++ data) 0x02 = Ok false) as -> by (rewrite Eh; reflexivity). cbn [bind].
  assert (memcpy [0; 0] 0 (drop 6 (header options (flags m) ++ iv ++ data)) 2 = Ok [o1; o2]) as -> by (rewrite Eh; rewrite memcpy_ok by (cbn; lia); reflexivity).
  cbn [bind]. rewrite Ev. assert (get (header options (flags m) ++ iv ++ data) 8 = Ok (flags m)) as -> by (rewrite Eh; reflexivity). cbn [bind]. rewrite Eb.
  assert (drop 16 (header options (flags m) ++ iv ++ data) = iv ++ data) as -> by (by apply drop_app_length'). 
  rewrite memcpy_ok by (rewrite ?length_replicate, ?length_app, ?(proj2 Hi); lia). rewrite take_0, take_app_length', (drop_ge (replicate 16 0)), app_nil_r by (rewrite ?length_replicate, ?(proj2 Hi); lia).
  cbn [app bind]. rewrite Nat2Z.id.
  assert (drop (2 * 16) (header options (flags m) ++ iv ++ data) = data) as ->.
  { rewrite app_assoc. apply drop_app_length'. rewrite length_app, Lh, (proj2 Hi). done. }
  rewrite memcpy_ok by lia. rewrite take_0, take_ge by lia. cbn [app bind Nat.add].
  replace (16 * count m / 16)%nat with (count m) by (rewrite Nat.mul_comm, Nat.div_mul; lia).
  destruct (decrypt_loop x options key iv m (header options (flags m)) (drop (16 * count m) buf) Hx Hm Hi Lh) as [v Ed]. fold data in Ed. rewrite Ed. cbn [bind].
  unfold flags. destruct (Nat.eqb_spec (pad_len m) 0) as [Ep|Ep].
  - cbn [Z.land Z.eqb negb]. unfold padded. rewrite Ep. cbn [padding seq fmap list_fmap replicate app]. rewrite app_nil_r. do 2 f_equal. f_equal. lia.
  - change (negb (Z.land OAES_FLAG_PAD OAES_FLAG_PAD =? 0)) with true. cbv iota. rewrite <- L1, remove_pad_spec by done. reflexivity.
Qed.

Lemma message_length options key iv m : key_ok key -> bytes m -> block16 iv -> length (message options key iv m) = (32 + 16 * count m)%nat.
Proof.
  intros Hk Hm Hv. unfold message, header. rewrite !length_app, body_length, le_bytes_length, (proj2 Hv) by (done || lia). cbn [length replicate]. lia.
Qed.
