(* ===== verification/Aesb.v ===== *)
(** * AES rounds with tables

    [src/src/crypto/aesb.c], little endian: the rounds of the slow hash, as four
    table lookups for each column. *)

From stdpp Require Import base list numbers.
From Stdlib Require Import ZArith Lia.
From S2P Require Import Prelude Bytes Streaming.

(** ** Tables *)
Definition WPOLY : Z := 0x011b.
Definition N_COLS : nat := 4.

Definition sb_data : list Z := [
  0x63; 0x7c; 0x77; 0x7b; 0xf2; 0x6b; 0x6f; 0xc5; 0x30; 0x01; 0x67; 0x2b; 0xfe; 0xd7; 0xab; 0x76;
  0xca; 0x82; 0xc9; 0x7d; 0xfa; 0x59; 0x47; 0xf0; 0xad; 0xd4; 0xa2; 0xaf; 0x9c; 0xa4; 0x72; 0xc0;
  0xb7; 0xfd; 0x93; 0x26; 0x36; 0x3f; 0xf7; 0xcc; 0x34; 0xa5; 0xe5; 0xf1; 0x71; 0xd8; 0x31; 0x15;
  0x04; 0xc7; 0x23; 0xc3; 0x18; 0x96; 0x05; 0x9a; 0x07; 0x12; 0x80; 0xe2; 0xeb; 0x27; 0xb2; 0x75;
  0x09; 0x83; 0x2c; 0x1a; 0x1b; 0x6e; 0x5a; 0xa0; 0x52; 0x3b; 0xd6; 0xb3; 0x29; 0xe3; 0x2f; 0x84;
  0x53; 0xd1; 0x00; 0xed; 0x20; 0xfc; 0xb1; 0x5b; 0x6a; 0xcb; 0xbe; 0x39; 0x4a; 0x4c; 0x58; 0xcf;
  0xd0; 0xef; 0xaa; 0xfb; 0x43; 0x4d; 0x33; 0x85; 0x45; 0xf9; 0x02; 0x7f; 0x50; 0x3c; 0x9f; 0xa8;
  0x51; 0xa3; 0x40; 0x8f; 0x92; 0x9d; 0x38; 0xf5; 0xbc; 0xb6; 0xda; 0x21; 0x10; 0xff; 0xf3; 0xd2;
  0xcd; 0x0c; 0x13; 0xec; 0x5f; 0x97; 0x44; 0x17; 0xc4; 0xa7; 0x7e; 0x3d; 0x64; 0x5d; 0x19; 0x73;
  0x60; 0x81; 0x4f; 0xdc; 0x22; 0x2a; 0x90; 0x88; 0x46; 0xee; 0xb8; 0x14; 0xde; 0x5e; 0x0b; 0xdb;
  0xe0; 0x32; 0x3a; 0x0a; 0x49; 0x06; 0x24; 0x5c; 0xc2; 0xd3; 0xac; 0x62; 0x91; 0x95; 0xe4; 0x79;
  0xe7; 0xc8; 0x37; 0x6d; 0x8d; 0xd5; 0x4e; 0xa9; 0x6c; 0x56; 0xf4; 0xea; 0x65; 0x7a; 0xae; 0x08;
  0xba; 0x78; 0x25; 0x2e; 0x1c; 0xa6; 0xb4; 0xc6; 0xe8; 0xdd; 0x74; 0x1f; 0x4b; 0xbd; 0x8b; 0x8a;
  0x70; 0x3e; 0xb5; 0x66; 0x48; 0x03; 0xf6; 0x0e; 0x61; 0x35; 0x57; 0xb9; 0x86; 0xc1; 0x1d; 0x9e;
  0xe1; 0xf8; 0x98; 0x11; 0x69; 0xd9; 0x8e; 0x94; 0x9b; 0x1e; 0x87; 0xe9; 0xce; 0x55; 0x28; 0xdf;
  0x8c; 0xa1; 0x89; 0x0d; 0xbf; 0xe6; 0x42; 0x68; 0x41; 0x99; 0x2d; 0x0f; 0xb0; 0x54; 0xbb; 0x16].

Definition bytes2word (b0 b1 b2 b3 : Z) : Z :=
  Z.lor (Z.lor (Z.lor (u32 (Z.shiftl b3 24)) (u32 (Z.shiftl b2 16))) (u32 (Z.shiftl b1 8))) b0.

Definition f2 (x : Z) : Z := Z.lxor (Z.shiftl x 1) (Z.land (Z.shiftr x 7) 1 * WPOLY).
Definition f3 (x : Z) : Z := Z.lxor (f2 x) x.

Definition u0 (p : Z) : Z := bytes2word (f2 p) p p (f3 p).
Definition u1 (p : Z) : Z := bytes2word (f3 p) (f2 p) p p.
Definition u2 (p : Z) : Z := bytes2word p (f3 p) (f2 p) p.
Definition u3 (p : Z) : Z := bytes2word p p (f3 p) (f2 p).

(** [t_fn], the macro [d_4] applied to [sb_data] and [u0] to [u3] *)
Definition t_fn : list (list Z) := [u0 <$> sb_data; u1 <$> sb_data; u2 <$> sb_data; u3 <$> sb_data].

(** ** Rounds *)
Definition bval (x : Z) (n : nat) : Z := Z.land (Z.shiftr x (8 * Z.of_nat n)) 0xff.

(** [fwd_var]: row [r] of column [c] comes from column [r + c]. *)
Definition fwd_var (x : list Z) (r c : nat) : result Z :=
  match r, c with
  | 0%nat, 0%nat => get x 0 | 0%nat, 1%nat => get x 1 | 0%nat, 2%nat => get x 2 | 0%nat, _ => get x 3
  | 1%nat, 0%nat => get x 1 | 1%nat, 1%nat => get x 2 | 1%nat, 2%nat => get x 3 | 1%nat, _ => get x 0
  | 2%nat, 0%nat => get x 2 | 2%nat, 1%nat => get x 3 | 2%nat, 2%nat => get x 0 | 2%nat, _ => get x 1
  | _, 0%nat => get x 3 | _, 1%nat => get x 0 | _, 2%nat => get x 1 | _, _ => get x 2
  end.

(** [tab[r][bval(fwd_var(x,r,c),r)]] *)
Definition table_word (tab : list (list Z)) (x : list Z) (r c : nat) : result Z :=
  let! w := fwd_var x r c in
  let! t := get tab r in
  get t (Z.to_nat (bval w r)).

Definition four_tables (x : list Z) (tab : list (list Z)) (c : nat) : result Z :=
  let! w0 := table_word tab x 0 c in
  let! w1 := table_word tab x 1 c in
  let! w2 := table_word tab x 2 c in
  let! w3 := table_word tab x 3 c in
  Ok (Z.lxor (Z.lxor (Z.lxor w0 w1) w2) w3).

(** The new column [c], with the word [c] of the round key [k]. *)
Definition fwd_rnd (x k : list Z) (c : nat) : result Z :=
  let! w := get k c in
  let! t := four_tables x t_fn c in
  Ok (Z.lxor w t).

Definition round (x k : list Z) : result (list Z) :=
  let! y0 := fwd_rnd x k 0 in
  let! y1 := fwd_rnd x k 1 in
  let! y2 := fwd_rnd x k 2 in
  let! y3 := fwd_rnd x k 3 in
  Ok [y0; y1; y2; y3].

(** [((uint32_t * ) buf)[i]] *)
Definition word_in (buf : list Z) (i : nat) : result Z :=
  if decide (4 * i + 4 <= length buf)%nat then Ok (le_val (take 4 (drop (4 * i) buf))) else Fail OutOfBounds.

Definition state_in (buf : list Z) : result (list Z) :=
  let! x0 := word_in buf 0 in
  let! x1 := word_in buf 1 in
  let! x2 := word_in buf 2 in
  let! x3 := word_in buf 3 in
  Ok [x0; x1; x2; x3].

Definition state_out (y : list Z) : list Z := concat (le_bytes 4 <$> y).

(** The block written to [out]; [in] and [out] may be the same. *)
Definition aesb_single_round (inp expandedKey : list Z) : result (list Z) :=
  let! b0 := state_in inp in
  let! k := state_in expandedKey in
  let! b1 := round b0 k in
  Ok (state_out b1).

(** Ten rounds, with the round keys one after the other. *)
Definition aesb_pseudo_round (inp expandedKey : list Z) : result (list Z) :=
  let! b := state_in inp in
  let! b := for_ 10 (fun i b =>
    let! k := state_in (drop (4 * (i * N_COLS)) expandedKey) in
    round b k) 0 b in
  Ok (state_out b).
