(* ===== verification/AesbFacts.v ===== *)
(** * The table rounds are AES rounds *)

From stdpp Require Import base list numbers.
From Stdlib Require Import ZArith Lia Btauto.
From S2P Require Import Prelude Bytes Streaming Rijndael Aes Aesb.

(** The four bytes that row [r] adds to a column. *)
Definition table_bytes (r : nat) (b : Z) : list Z :=
  match r with
  | 0%nat => [gmul 2 (sbox b); sbox b; sbox b; gmul 3 (sbox b)]
  | 1%nat => [gmul 3 (sbox b); gmul 2 (sbox b); sbox b; sbox b]
  | 2%nat => [sbox b; gmul 3 (sbox b); gmul 2 (sbox b); sbox b]
  | _ => [sbox b; sbox b; gmul 3 (sbox b); gmul 2 (sbox b)]
  end.

Definition t_fn_ok (b : Z) : bool :=
  forallb (fun r => match t_fn !! r with
    | Some t => match t !! Z.to_nat b with Some w => w =? le_val (table_bytes r b) | None => false end
    | None => false end) [0; 1; 2; 3]%nat.

Lemma t_fn_check b : is_byte b -> t_fn_ok b = true.
Proof. revert b. apply byte_cases. by vm_compute. Qed.

Lemma t_fn_spec r b : (r < 4)%nat -> is_byte b ->
  (let! t := get t_fn r in get t (Z.to_nat b)) = Ok (le_val (table_bytes r b)).
Proof.
  intros Hr Hb. pose proof (t_fn_check b Hb) as H. unfold t_fn_ok in H. rewrite forallb_forall in H. specialize (H r).
  unfold get. destruct (t_fn !! r) as [t|].
  - cbn [bind]. destruct (t !! Z.to_nat b) as [w|]; [f_equal; apply Z.eqb_eq, H|discriminate H]; (do 4 (destruct r as [|r]; [cbn; tauto|]); lia).
  - discriminate H. do 4 (destruct r as [|r]; [cbn; tauto|]). lia.
Qed.

Lemma bval_spec w n : bytes w -> (n < length w)%nat -> bval (le_val w) n = nth n w 0.
Proof.
  intros Hw Hn. rewrite <- (le_val_byte w n Hw Hn). unfold bval, u8. change 0xff with (Z.ones 8). apply Z.land_ones. lia.
Qed.

Lemma table_word_spec x r c w :
  fwd_var x r c = Ok (le_val w) -> bytes w -> length w = 4%nat -> (r < 4)%nat ->
  table_word t_fn x r c = Ok (le_val (table_bytes r (nth r w 0))).
Proof.
  intros E Hw Hl Hr. unfold table_word. rewrite E. cbn [bind]. rewrite bval_spec by (done || lia). apply t_fn_spec; [done|]. apply nth_bytes; (done || lia).
Qed.

Lemma table_bytes_ok r b : is_byte b -> bytes (table_bytes r b).
Proof.
  intros Hb%sbox_byte. assert (forall k, In k [1; 2; 3; 0x09; 0x0b; 0x0d; 0x0e] -> is_byte (gmul k (sbox b))) as H by (intros k Hk; by apply gmul_is_byte).
  pose proof (H 2 ltac:(cbn; tauto)). pose proof (H 3 ltac:(cbn; tauto)). destruct r as [|[|[|r]]]; cbn [table_bytes]; byte_list.
Qed.

(** One column from the four columns that its rows come from. *)
Lemma fwd_rnd_spec x k c w0 w1 w2 w3 kw :
  fwd_var x 0 c = Ok (le_val w0) -> fwd_var x 1 c = Ok (le_val w1) -> fwd_var x 2 c = Ok (le_val w2) -> fwd_var x 3 c = Ok (le_val w3) ->
  Forall (fun w => bytes w /\ length w = 4%nat) [w0; w1; w2; w3; kw] -> get k c = Ok (le_val kw) ->
  fwd_rnd x k c = Ok (le_val (AES.xor (column [2; 3; 1; 1] (sbox (nth 0 w0 0)) (sbox (nth 1 w1 0)) (sbox (nth 2 w2 0)) (sbox (nth 3 w3 0)) <$> seq 0 4) kw)).
Proof.
  intros E0 E1 E2 E3 HF Ek. do 5 (apply Forall_cons_1 in HF as [[? ?] HF]). clear HF. unfold fwd_rnd, four_tables. rewrite Ek.
  rewrite (table_word_spec _ _ _ _ E0), (table_word_spec _ _ _ _ E1), (table_word_spec _ _ _ _ E2), (table_word_spec _ _ _ _ E3) by (done || lia).
  cbn [bind]. f_equal.
  assert (is_byte (nth 0 w0 0)) as B0 by (apply nth_bytes; (done || lia)). assert (is_byte (nth 1 w1 0)) as B1 by (apply nth_bytes; (done || lia)).
  assert (is_byte (nth 2 w2 0)) as B2 by (apply nth_bytes; (done || lia)). assert (is_byte (nth 3 w3 0)) as B3 by (apply nth_bytes; (done || lia)).
  pose proof (table_bytes_ok 0 _ B0). pose proof (table_bytes_ok 1 _ B1). pose proof (table_bytes_ok 2 _ B2). pose proof (table_bytes_ok 3 _ B3).
  destruct kw as [|k0 [|k1 [|k2 [|k3 [|? ?]]]]]; try discriminate.
  cbn [table_bytes] in *. unfold column. cbn [seq fmap list_fmap foldr nth Nat.add Nat.sub Nat.modulo Nat.divmod fst snd AES.xor zip_with].
  rewrite !gmul_1 by (by apply sbox_byte). rewrite !Z.lxor_0_r.
  assert (forall k a, In k [1; 2; 3; 0x09; 0x0b; 0x0d; 0x0e] -> is_byte a -> is_byte (gmul k (sbox a))) as Hg by (intros k' a Hk Ha; by apply gmul_is_byte, sbox_byte).
  rewrite !lxor_4 by (first [assumption|byte_list; repeat first [assumption|apply sbox_byte; assumption|apply Hg; [cbn; tauto|assumption]|apply lxor_byte]]).
  apply (f_equal le_val). repeat apply (f_equal2 cons); try reflexivity; apply Z.bits_inj'; intros n _; rewrite !Z.lxor_spec; btauto.
Qed.

(** The columns of a block as words. *)
Definition columns (s : list Z) : list Z := (fun i => le_val (take 4 (drop (4 * i) s))) <$> seq 0 4.

Lemma state_in_spec buf : (16 <= length buf)%nat -> state_in buf = Ok (columns (take 16 buf)).
Proof.
  intros Hl. unfold state_in, word_in. rewrite !decide_True by lia. cbn [bind]. unfold columns. cbn [seq fmap list_fmap].
  rewrite !skipn_firstn_comm, !firstn_firstn. reflexivity.
Qed.

(** The words of a list are columns. *)
Ltac all_words := repeat (apply List.Forall_cons; [split; [byte_list|reflexivity]|]); apply List.Forall_nil.

Lemma round_spec s k : block16 s -> block16 k -> round (columns s) (columns k) = Ok (columns (AES.round s k)).
Proof.
  intros Hs Hk. destruct (block16_inv s Hs) as (b0 & b1 & b2 & b3 & b4 & b5 & b6 & b7 & b8 & b9 & ba & bb & bc & bd & be & bf & -> & H).
  destruct H as (H0 & H1 & H2 & H3 & H4 & H5 & H6 & H7 & H8 & H9 & Ha & Hb & Hc & Hd & He & Hf).
  destruct (block16_inv k Hk) as (k0 & k1 & k2 & k3 & k4 & k5 & k6 & k7 & k8 & k9 & ka & kb & kc & kd & ke & kf & -> & K).
  destruct K as (K0 & K1 & K2 & K3 & K4 & K5 & K6 & K7 & K8 & K9 & Ka & Kb & Kc & Kd & Ke & Kf). clear Hs Hk.
  change (columns [b0; b1; b2; b3; b4; b5; b6; b7; b8; b9; ba; bb; bc; bd; be; bf]) with
    [le_val [b0; b1; b2; b3]; le_val [b4; b5; b6; b7]; le_val [b8; b9; ba; bb]; le_val [bc; bd; be; bf]].
  change (columns [k0; k1; k2; k3; k4; k5; k6; k7; k8; k9; ka; kb; kc; kd; ke; kf]) with
    [le_val [k0; k1; k2; k3]; le_val [k4; k5; k6; k7]; le_val [k8; k9; ka; kb]; le_val [kc; kd; ke; kf]].
  unfold round.
  rewrite (fwd_rnd_spec _ _ 0 [b0; b1; b2; b3] [b4; b5; b6; b7] [b8; b9; ba; bb] [bc; bd; be; bf] [k0; k1; k2; k3]); [|reflexivity|reflexivity|reflexivity|reflexivity|all_words|reflexivity].
  rewrite (fwd_rnd_spec _ _ 1 [b4; b5; b6; b7] [b8; b9; ba; bb] [bc; bd; be; bf] [b0; b1; b2; b3] [k4; k5; k6; k7]); [|reflexivity|reflexivity|reflexivity|reflexivity|all_words|reflexivity].
  rewrite (fwd_rnd_spec _ _ 2 [b8; b9; ba; bb] [bc; bd; be; bf] [b0; b1; b2; b3] [b4; b5; b6; b7] [k8; k9; ka; kb]); [|reflexivity|reflexivity|reflexivity|reflexivity|all_words|reflexivity].
  rewrite (fwd_rnd_spec _ _ 3 [bc; bd; be; bf] [b0; b1; b2; b3] [b4; b5; b6; b7] [b8; b9; ba; bb] [kc; kd; ke; kf]); [|reflexivity|reflexivity|reflexivity|reflexivity|all_words|reflexivity].
  cbn [bind nth]. unfold AES.round, AES.mix_columns.
  change (AES.shift_rows (AES.sub_bytes [b0; b1; b2; b3; b4; b5; b6; b7; b8; b9; ba; bb; bc; bd; be; bf])) with
    [sbox b0; sbox b5; sbox ba; sbox bf; sbox b4; sbox b9; sbox be; sbox b3; sbox b8; sbox bd; sbox b2; sbox b7; sbox bc; sbox b1; sbox b6; sbox bb].
  rewrite mix_columns_explicit. cbn [seq fmap list_fmap app]. unfold AES.xor, columns.
  cbn [zip_with seq fmap list_fmap take drop Nat.mul Nat.add]. reflexivity.
Qed.

Lemma state_out_columns s : block16 s -> state_out (columns s) = s.
Proof.
  intros Hs. destruct (block16_inv s Hs) as (b0 & b1 & b2 & b3 & b4 & b5 & b6 & b7 & b8 & b9 & ba & bb & bc & bd & be & bf & -> & H).
  destruct H as (H0 & H1 & H2 & H3 & H4 & H5 & H6 & H7 & H8 & H9 & Ha & Hb & Hc & Hd & He & Hf).
  change (columns [b0; b1; b2; b3; b4; b5; b6; b7; b8; b9; ba; bb; bc; bd; be; bf]) with
    [le_val [b0; b1; b2; b3]; le_val [b4; b5; b6; b7]; le_val [b8; b9; ba; bb]; le_val [bc; bd; be; bf]].
  unfold state_out. cbn [fmap list_fmap concat].
  assert (forall a b c d, bytes [a; b; c; d] -> le_bytes 4 (le_val [a; b; c; d]) = [a; b; c; d]) as Hw by (intros a b c d; apply (le_bytes_val [a; b; c; d])).
  rewrite !Hw by byte_list. reflexivity.
Qed.

Lemma aesb_single_round_spec s key :
  block16 s -> block16 (take 16 key) -> (16 <= length key)%nat -> aesb_single_round s key = Ok (AES.round s (take 16 key)).
Proof.
  intros Hs Hk Hl. unfold aesb_single_round. rewrite !state_in_spec by (first [exact Hl|destruct Hs as [_ ->]; lia]). cbn [bind].
  rewrite (take_ge s) by (destruct Hs as [_ ->]; lia). rewrite round_spec by done. cbn [bind]. by rewrite state_out_columns by (by apply round_block).
Qed.

(** The round keys in a string. *)
Definition keys10 (key : list Z) : list (list Z) := (fun i => take 16 (drop (16 * i) key)) <$> seq 0 10.

Lemma keys10_ok key : bytes key -> (160 <= length key)%nat -> Forall block16 (keys10 key).
Proof.
  intros Hb Hl. apply Forall_fmap, Forall_forall. intros i Hi%in_seq. split; [by apply Forall_take, Forall_drop|].
  cbn [compose]. rewrite length_take, length_drop. lia.
Qed.

Lemma aesb_pseudo_round_spec s key :
  block16 s -> bytes key -> (160 <= length key)%nat ->
  aesb_pseudo_round s key = Ok (foldl AES.round s (keys10 key)) /\ block16 (foldl AES.round s (keys10 key)).
Proof.
  intros Hs Hb Hl. unfold aesb_pseudo_round. rewrite state_in_spec by (destruct Hs as [_ ->]; lia).
  rewrite (take_ge s) by (destruct Hs as [_ ->]; lia). cbn [bind].
  assert (forall n, (n <= 10)%nat ->
    for_ n (fun i b => let! k := state_in (drop (4 * (i * N_COLS)) key) in round b k) 0 (columns s) =
      Ok (columns (foldl AES.round s ((fun i => take 16 (drop (16 * i) key)) <$> seq 0 n))) /\
    block16 (foldl AES.round s ((fun i => take 16 (drop (16 * i) key)) <$> seq 0 n))) as H.
  { induction n as [|n IH]; intros Hn; [done|]. destruct IH as [E B]; [lia|]. rewrite for_snoc, E. cbn [bind Nat.add].
    rewrite seq_S, fmap_app, foldl_app. cbn [fmap list_fmap foldl Nat.add].
    assert (block16 (take 16 (drop (16 * n) key))) as Bk.
    { split; [by apply Forall_take, Forall_drop|]. rewrite length_take, length_drop. lia. }
    unfold N_COLS. replace (4 * (n * 4))%nat with (16 * n)%nat by lia. rewrite state_in_spec by (rewrite length_drop; lia). cbn [bind].
    rewrite round_spec by done. split; [done|by apply round_block]. }
  destruct (H 10%nat ltac:(lia)) as [E B]. rewrite E. cbn [bind]. split; [by rewrite state_out_columns|exact B].
Qed.
