(* ===== verification/Random.v ===== *)
(** * Random bytes

    [src/src/crypto/random.c]: a Keccak state that is seeded from the system
    and squeezed on demand, with the life-cycle variable [curstate] of debug
    builds; and [memwipe] of [src/src/common/memwipe.c].  The lock that
    [crypto.cpp] holds around the calls is outside this code. *)

From stdpp Require Import base list numbers.
From Stdlib Require Import ZArith Lia.
From S2P Require Import Prelude Bytes Keccak KeccakFacts.

(** ** The system source *)

(** What one call [read(fd, result, n)] does: it stores some bytes and returns their number
    (0 at the end of the file), or it fails, with [EINTR] or another error. *)
Inductive read_outcome := Read (chunk : list Z) | Interrupted | ReadError.

(** The loop of [generate_system_random_bytes]; [reads] are the outcomes of the calls to
    come, and the bytes stored so far are in [acc]. *)
Fixpoint read_loop (n : nat) (acc : list Z) (reads : list read_outcome) : result (list Z) :=
  match reads with
  | [] => Fail OutOfFuel
  | Read chunk :: reads =>
      if (length chunk =? n)%nat then Ok (acc ++ chunk)
      else if (length chunk =? 0)%nat then Fail Exited
      else read_loop (n - length chunk) (acc ++ chunk) reads
  | Interrupted :: reads => read_loop n acc reads
  | ReadError :: _ => Fail Exited
  end.

(** The operating system: whether [open] succeeds, the calls of [read], whether [close] succeeds. *)
Record system := System { open_ok : bool; reads : list read_outcome; close_ok : bool }.

Definition generate_system_random_bytes (sys : system) (n : nat) : result (list Z) :=
  if open_ok sys then
    let! result := read_loop n [] (reads sys) in
    if close_ok sys then Ok result else Fail Exited
  else Fail Exited.

(** ** The generator *)

(** The static variables: [state] as words, and [curstate].  The code has [curstate] in debug builds only; in release
    builds the field is a ghost that no operation reads or writes.  The registration of a finalizer at the end of
    [init_random], for the operating system to call [deinit_random] at exit, is left out. *)
Record rng := Rng { state : list Z; curstate : Z }.

(** Static storage is zero before [init_random] runs. *)
Definition rng_static : rng := Rng (replicate 25 0) 0.

(** [#if !defined(NDEBUG)  assert(curstate == a); curstate = b;] *)
Definition transition (ndebug : bool) (a b : Z) (g : rng) : result rng :=
  let! _ := c_assert ndebug (Ok (curstate g =? a)) in
  Ok (if ndebug then g else Rng (state g) b).

(** [memset(&state, 0, sizeof(union hash_state))] *)
Definition deinit_random (ndebug : bool) (g : rng) : result rng :=
  let! g := transition ndebug 1 0 g in
  Ok (Rng (replicate 25 0) (curstate g)).

(** Storing bytes at the start of the state. *)
Definition store_prefix (s st : list Z) : list Z :=
  let b := s ++ drop (length s) (state_bytes st) in
  (fun i => le_val (take 8 (drop (8 * i) b))) <$> seq 0 25.

Definition init_random (ndebug : bool) (sys : system) (g : rng) : result rng :=
  let! s := generate_system_random_bytes sys 32 in
  transition ndebug 0 1 (Rng (store_prefix s (state g)) (curstate g)).

(** [for (;;)] of [generate_random_bytes_not_thread_safe]: the state and the bytes stored. *)
Fixpoint squeeze (fuel n : nat) (st : list Z) : result (list Z * list Z) :=
  match fuel with
  | O => Fail OutOfFuel
  | S fuel =>
      let! st := hash_permutation st in
      if (n <=? Z.to_nat HASH_DATA_AREA)%nat then Ok (st, take n (state_bytes st))
      else
        let! (st', out) := squeeze fuel (n - Z.to_nat HASH_DATA_AREA) st in
        Ok (st', take (Z.to_nat HASH_DATA_AREA) (state_bytes st) ++ out)
  end.

Definition generate_random_bytes_not_thread_safe (ndebug : bool) (n : nat) (g : rng) :
    result (rng * list Z) :=
  let! g := transition ndebug 1 2 g in
  if (n =? 0)%nat then
    let! g := transition ndebug 2 1 g in
    Ok (g, [])
  else
    let! (st, out) := squeeze n n (state g) in
    let! g := transition ndebug 2 1 (Rng st (curstate g)) in
    Ok (g, out).

(** ** [memwipe] *)

(** The buffer after [memwipe(ptr, n)]. *)
Definition memwipe (buf : list Z) (n : nat) : result (list Z) :=
  for_ n (fun i buf => set buf i 0) 0 buf.

(** ** Correctness of the random generator

    The generator is a sponge in its squeezing phase; its life cycle; and the
    system source, whatever the pattern of short reads. *)

(** ** Squeezing *)
Definition next (st : list Z) : list Z := Spec.permutation 24 st.

(** [k] output blocks of the sponge with rate 136. *)
Fixpoint squeezed (k : nat) (st : list Z) : list Z :=
  match k with
  | O => []
  | S k => take 136 (state_bytes (next st)) ++ squeezed k (next st)
  end.

(** Blocks that [n] bytes need. *)
Definition blocks_for (n : nat) : nat := ((n + 135) / 136)%nat.

Lemma next_length st : length st = 25%nat -> length (next st) = 25%nat.
Proof. intros H. by apply (keccakf_spec _ 24); [lia|]. Qed.

Lemma hash_permutation_spec st : length st = 25%nat -> hash_permutation st = Ok (next st).
Proof. intros H. by apply (keccakf_spec _ 24); [lia|]. Qed.

Lemma state_block st : length st = 25%nat -> length (take 136 (state_bytes st)) = 136%nat.
Proof. intros H. destruct (state_bytes_bytes st) as [_ E]. rewrite length_take, E, H. done. Qed.

Lemma squeezed_length k st : length st = 25%nat -> length (squeezed k st) = (136 * k)%nat.
Proof.
  revert st. induction k as [|k IH]; intros st H; [done|]. cbn [squeezed].
  apply next_length in H. rewrite length_app, state_block, IH by done. lia.
Qed.

Lemma squeezed_bytes k st : bytes (squeezed k st).
Proof.
  revert st. induction k as [|k IH]; intros st; [constructor|]. apply Forall_app.
  split; [apply Forall_take, state_bytes_bytes|apply IH].
Qed.

Lemma squeeze_spec fuel : forall n st,
  (0 < n <= fuel)%nat -> length st = 25%nat ->
  squeeze fuel n st = Ok (Nat.iter (blocks_for n) next st, take n (squeezed (blocks_for n) st)).
Proof.
  induction fuel as [|fuel IH]; intros n st Hn Hst; [lia|]. cbn [squeeze].
  rewrite hash_permutation_spec by done. cbn [bind]. change (Z.to_nat HASH_DATA_AREA) with 136%nat.
  pose proof (next_length _ Hst) as Hst'. destruct (Nat.leb_spec n 136) as [Hle|Hgt].
  - replace (blocks_for n) with 1%nat
      by (unfold blocks_for; apply Nat.div_unique with (n - 1)%nat; lia).
    cbn [squeezed Nat.iter nat_rect]. rewrite app_nil_r, firstn_firstn, Nat.min_l by done. done.
  - rewrite IH by (done || lia). cbn [bind].
    replace (blocks_for n) with (S (blocks_for (n - 136))).
    2:{ unfold blocks_for. replace (n + 135)%nat with (1 * 136 + (n - 136 + 135))%nat by lia.
        rewrite Nat.div_add_l by lia. lia. }
    rewrite Nat.iter_succ_r. cbn [squeezed].
    by rewrite take_app, state_block, (take_ge (take 136 _)) by (rewrite ?state_block; (done || lia)).
Qed.

(** ** The life cycle *)
(** The generator is ready: in debug builds [init_random] has set [curstate]; in release builds the value is a ghost. *)
Definition initialised (g : rng) : Prop := curstate g = 1 /\ length (state g) = 25%nat.

Lemma transition_spec ndebug a b g :
  curstate g = a -> transition ndebug a b g = Ok (if ndebug then g else Rng (state g) b).
Proof. intros E. unfold transition, c_assert. rewrite E, Z.eqb_refl. by destruct ndebug. Qed.

Lemma transition_abort a b g : curstate g <> a -> transition false a b g = Fail Aborted.
Proof. intros E. unfold transition, c_assert. by destruct (Z.eqb_spec (curstate g) a). Qed.

Lemma generate_spec ndebug n g :
  initialised g ->
  generate_random_bytes_not_thread_safe ndebug n g =
  Ok (Rng (Nat.iter (blocks_for n) next (state g)) 1, take n (squeezed (blocks_for n) (state g))).
Proof.
  intros [Hc Hl]. unfold generate_random_bytes_not_thread_safe. rewrite transition_spec by done. cbn [bind].
  destruct g as [st c]. simpl in Hc, Hl. subst c. destruct (Nat.eqb_spec n 0) as [->|Hn].
  - by destruct ndebug.
  - assert (state (if ndebug then Rng st 1 else Rng (state (Rng st 1)) 2) = st) as -> by (by destruct ndebug).
    rewrite squeeze_spec by (done || lia). cbn [bind]. by destruct ndebug.
Qed.

Lemma iter_next_length k st : length st = 25%nat -> length (Nat.iter k next st) = 25%nat.
Proof. intros H. induction k as [|k IH]; [done|]. cbn [Nat.iter nat_rect]. by apply next_length. Qed.

Lemma blocks_for_enough n : (n <= 136 * blocks_for n)%nat.
Proof. unfold blocks_for. pose proof (Nat.div_mod_eq (n + 135) 136). pose proof (Nat.mod_upper_bound (n + 135) 136 ltac:(lia)). lia. Qed.

(** ** Seeding *)
Lemma state_bytes_words k b :
  bytes b -> length b = (8 * k)%nat ->
  state_bytes ((fun i => le_val (take 8 (drop (8 * i) b))) <$> seq 0 k) = b.
Proof.
  revert b. induction k as [|k IH]; intros b Hb Hl; [by destruct b|].
  cbn [seq]. rewrite fmap_cons, <- fmap_S_seq, <- list_fmap_compose.
  unfold state_bytes. cbn [fmap list_fmap concat]. rewrite Nat.mul_0_r, drop_0.
  etransitivity; [|apply (take_drop 8 b)]. f_equal.
  - pose proof (le_bytes_val (take 8 b)) as E. rewrite length_take, Nat.min_l in E by lia.
    by apply E, Forall_take.
  - etransitivity; [|apply (IH (drop 8 b)); [by apply Forall_drop|rewrite length_drop; lia]].
    unfold state_bytes. do 2 f_equal. apply list_fmap_ext. intros i x _. unfold compose. cbv beta.
    rewrite drop_drop. do 3 f_equal. lia.
Qed.

Lemma store_prefix_spec s st :
  bytes s -> (length s <= 200)%nat -> length st = 25%nat ->
  state_bytes (store_prefix s st) = s ++ drop (length s) (state_bytes st).
Proof.
  intros Hs Hl Hst. destruct (state_bytes_bytes st) as [Hb Hbl]. rewrite Hst in Hbl.
  apply (state_bytes_words 25); [apply Forall_app; split; [done|by apply Forall_drop]|].
  rewrite length_app, length_drop, Hbl. lia.
Qed.

(** ** The system source *)

(** The bytes that the calls of [read] store. *)
Fixpoint stored (reads : list read_outcome) : list Z :=
  match reads with
  | [] => []
  | Read c :: reads => c ++ stored reads
  | _ :: reads => stored reads
  end.

(** [read] stores at most the bytes it is asked for. *)
Fixpoint conforming (n : nat) (reads : list read_outcome) : Prop :=
  match reads with
  | Read c :: reads => (length c <= n)%nat /\ conforming (n - length c) reads
  | Interrupted :: reads => conforming n reads
  | _ => True
  end.

(** The calls deliver [n] bytes before an error or the end of the file. *)
Fixpoint delivers (n : nat) (reads : list read_outcome) : Prop :=
  match reads with
  | Read c :: reads => length c = n \/ ((0 < length c < n)%nat /\ delivers (n - length c) reads)
  | Interrupted :: reads => delivers n reads
  | _ => False
  end.

Lemma read_loop_delivers n acc reads :
  delivers n reads -> read_loop n acc reads = Ok (acc ++ take n (stored reads)).
Proof.
  revert n acc. induction reads as [|[c| |] reads IH]; intros n acc Hd; cbn [read_loop stored delivers] in *; try done.
  - destruct (Nat.eqb_spec (length c) n) as [<-|Hne]; [by rewrite take_app_length|].
    destruct Hd as [|[Hc Hd]]; [done|]. destruct (Nat.eqb_spec (length c) 0); [lia|].
    rewrite IH by done. rewrite <- app_assoc, take_app, (take_ge c) by lia. done.
  - by apply IH.
Qed.

Lemma read_loop_returns n acc reads s :
  conforming n reads -> read_loop n acc reads = Ok s -> delivers n reads.
Proof.
  revert n acc. induction reads as [|[c| |] reads IH]; intros n acc Hc H; cbn [read_loop conforming delivers] in *; try done.
  - destruct (Nat.eqb_spec (length c) n) as [|Hne]; [by left|]. right.
    destruct (Nat.eqb_spec (length c) 0); [done|]. destruct Hc as [Hl Hc]. split; [lia|]. by eapply IH.
  - by eapply IH.
Qed.

Lemma delivers_length n reads : delivers n reads -> (n <= length (stored reads))%nat.
Proof.
  revert n. induction reads as [|[c| |] reads IH]; intros n Hd; cbn [stored delivers] in *; try done.
  - rewrite length_app. destruct Hd as [<-|[Hc Hd]]; [lia|]. apply IH in Hd. lia.
  - by apply IH.
Qed.

(** ** [memwipe] *)
Lemma memwipe_spec buf n : (n <= length buf)%nat -> memwipe buf n = Ok (replicate n 0 ++ drop n buf).
Proof.
  intros Hn. unfold memwipe. rewrite (for_update _ _ (fun _ _ => 0)); [|done|].
  - f_equal. apply list_eq. intros i. rewrite update_first_lookup.
    destruct (decide (i < n)%nat) as [Hi|Hi].
    + destruct (lookup_lt_is_Some_2 buf i) as [x ->]; [lia|].
      rewrite lookup_app_l, lookup_replicate_2 by (rewrite ?length_replicate; lia). done.
    + rewrite lookup_app_r, lookup_drop, length_replicate by (rewrite length_replicate; lia).
      replace (n + (i - n))%nat with i by lia. by destruct (buf !! i).
  - intros i x a Hi _ Ha Hl. apply set_ok. lia.
Qed.
