(* ===== verification/SlowHash.v ===== *)
(** * The slow hash

    [src/src/crypto/slow-hash.c], little endian: the portable code, the x86-64
    code with the AES instructions and with tables, and the C code for ARM.  The
    size of the scratchpad and the number of iterations are the arguments
    [MEMORY] and [ITER]; the memory that the code does not initialise, the
    allocations and the results of [rand] are arguments too. *)

From stdpp Require Import base list numbers strings.
From Stdlib Require Import ZArith Lia.
From S2P Require Import Prelude Bytes IntUtil Streaming Keccak Blake256 Groestl Jh Skein Rijndael Aes Oaes Aesb.

(** ** Constants *)
Definition MEMORY : nat := 2 ^ 21.
Definition ITER : nat := 2 ^ 20.
Definition AES_BLOCK_SIZE : nat := 16.
Definition AES_KEY_SIZE : nat := 32.
Definition INIT_SIZE_BLK : nat := 8.
Definition INIT_SIZE_BYTE : nat := INIT_SIZE_BLK * AES_BLOCK_SIZE.

(** ** The extra hashes

    What the locals of the four functions hold before they are written. *)
Record extra_locals := ExtraLocals {
  blake_buf : list Z; groestl_zero : list Z; groestl_buffer : list Z; jh_x : list Z; jh_buffer : list Z; skein_u : skein_ctxt }.

(** [extra_hashes[i](&state, 200, hash)] *)
Definition extra_hashes (ndebug : bool) (l : extra_locals) (i : Z) (state : list Z) : result (list Z) :=
  if i =? 0 then hash_extra_blake (blake_buf l) state 200
  else if i =? 1 then hash_extra_groestl (groestl_zero l) (groestl_buffer l) state 200
  else if i =? 2 then hash_extra_jh ndebug (jh_x l) (jh_buffer l) state 200
  else if i =? 3 then hash_extra_skein ndebug (skein_u l) state 200
  else Fail OutOfBounds.

(** The end of [cn_slow_hash]: [text] goes back into the state, which is permuted and hashed. *)
Definition finish (ndebug : bool) (l : extra_locals) (state text : list Z) : result (list Z) :=
  let! state := memcpy state 64 text INIT_SIZE_BYTE in
  let! w := hash_permutation ((fun i => le_val (take 8 (drop (8 * i) state))) <$> seq 0 25) in
  let state := state_bytes w in
  let! b := get state 0 in
  extra_hashes ndebug l (Z.land b 3) state.

(** ** Blocks *)

(** [&s[o]], 16 bytes *)
Definition block_at (s : list Z) (o : nat) : result (list Z) :=
  if decide (o + 16 <= length s)%nat then Ok (take 16 (drop o s)) else Fail OutOfBounds.

Definition put_block (s : list Z) (o : nat) (b : list Z) : result (list Z) := memcpy s o b AES_BLOCK_SIZE.

(** [((uint64_t * ) x)[0]] and [[1]] of a block *)
Definition word0 (x : list Z) : Z := le_val (take 8 x).
Definition word1 (x : list Z) : Z := le_val (take 8 (drop 8 x)).
Definition of_words (w0 w1 : Z) : list Z := le_bytes 8 w0 ++ le_bytes 8 w1.

(** [xor_blocks] of the x86-64 and the ARM code, by words *)
Definition xor_blocks64 (a b : list Z) : list Z :=
  of_words (Z.lxor (word0 a) (word0 b)) (Z.lxor (word1 a) (word1 b)).

(** [xor_blocks] of the portable code, by bytes *)
Definition xor_blocks (a b : list Z) : result (list Z) := xor_key b 0 AES_BLOCK_SIZE a.

(** The new [a]. *)
Definition sum_half_blocks (a b : list Z) : list Z :=
  of_words (u64 (word0 a + word0 b)) (u64 (word1 a + word1 b)).

(** The new [a] and the new [b]. *)
Definition swap_blocks (a b : list Z) : list Z * list Z :=
  (of_words (word0 b) (word1 b), of_words (word0 a) (word1 a)).

(** ** The key schedule of the library *)

(** The allocations of the context and of the two keys, and the results of [rand]. *)
Record aes_env := AesEnv { mem_ctx : bool; mem_key1 : allocations; mem_key2 : allocations; rand_results : list Z }.

(** [oaes_key_import_data(aes_ctx, key, AES_KEY_SIZE)], its result ignored *)
Definition import_key (mem : allocations) (ctx : option oaes_ctx) (key : list Z) : result (option oaes_ctx) :=
  let! (_, ctx) := oaes_key_import_data mem ctx (Some key) (Z.of_nat AES_KEY_SIZE) in
  Ok ctx.

(** [aes_ctx->key] *)
Definition ctx_exp_key (ctx : option oaes_ctx) : result oaes_key :=
  match ctx with
  | Some c => match ctx_key c with Some k => Ok k | None => Fail OutOfBounds end
  | None => Fail OutOfBounds
  end.

(** ** The passes over the scratchpad that the software AES uses *)

(** [aesb_pseudo_round(&text[16 * j], &text[16 * j], key)] for every block *)
Definition pseudo_text (key text : list Z) : result (list Z) :=
  for_ INIT_SIZE_BLK (fun j text =>
    let! b := block_at text (AES_BLOCK_SIZE * j) in
    let! b := aesb_pseudo_round b key in
    put_block text (AES_BLOCK_SIZE * j) b) 0 text.

(** The first pass: the text and the scratchpad. *)
Definition fill (MEMORY : nat) (key text long_state : list Z) : result (list Z * list Z) :=
  for_ (MEMORY / INIT_SIZE_BYTE) (fun i '(text, long_state) =>
    let! text := pseudo_text key text in
    let! long_state := memcpy long_state (i * INIT_SIZE_BYTE) text INIT_SIZE_BYTE in
    Ok (text, long_state)) 0 (text, long_state).

(** The last pass, with the [xor_blocks] of the code. *)
Definition drain (xor : list Z -> list Z -> result (list Z)) (MEMORY : nat) (key long_state text : list Z) : result (list Z) :=
  for_ (MEMORY / INIT_SIZE_BYTE) (fun i text =>
    for_ INIT_SIZE_BLK (fun j text =>
      let! b := block_at text (j * AES_BLOCK_SIZE) in
      let! p := block_at long_state (i * INIT_SIZE_BYTE + j * AES_BLOCK_SIZE) in
      let! b := xor b p in
      let! text := put_block text (j * AES_BLOCK_SIZE) b in
      let! b := block_at text (AES_BLOCK_SIZE * j) in
      let! b := aesb_pseudo_round b key in
      put_block text (AES_BLOCK_SIZE * j) b) 0 text) 0 text.

(** [U64(a)[i] = U64(&state.k[o])[i] ^ U64(&state.k[o + 32])[i]] *)
Definition key_block64 (state : list Z) (o : nat) : result (list Z) :=
  let! x := block_at state o in
  let! y := block_at state (o + 32) in
  Ok (xor_blocks64 x y).

(** ** The portable code *)
Module Portable.
Definition e2i (a : list Z) (count : Z) : Z := Z.land (word0 a / 16) (count - 1).

Definition mul (ndebug : bool) (a b : list Z) : result (list Z) :=
  let! (lo, hi) := mul128 ndebug (word0 a) (word0 b) in
  Ok (of_words hi lo).

(** One iteration on [a], [b] and the scratchpad. *)
Definition iteration (ndebug : bool) (MEMORY : nat) (st : list Z * list Z * list Z) : result (list Z * list Z * list Z) :=
  let '(a, b, long_state) := st in
  let count := Z.of_nat (MEMORY / AES_BLOCK_SIZE) in
  let j := e2i a count in
  let! c := block_at long_state (Z.to_nat j * AES_BLOCK_SIZE) in
  let! c := aesb_single_round c a in
  let! b := xor_blocks b c in
  let (b, c) := swap_blocks b c in
  let! long_state := put_block long_state (Z.to_nat j * AES_BLOCK_SIZE) c in
  let! _ := c_assert ndebug (Ok (j =? e2i a count)) in
  let (a, b) := swap_blocks a b in
  let j := e2i a count in
  let! c := block_at long_state (Z.to_nat j * AES_BLOCK_SIZE) in
  let! d := mul ndebug a c in
  let b := sum_half_blocks b d in
  let (b, c) := swap_blocks b c in
  let! b := xor_blocks b c in
  let! long_state := put_block long_state (Z.to_nat j * AES_BLOCK_SIZE) c in
  let! _ := c_assert ndebug (Ok (j =? e2i a count)) in
  let (a, b) := swap_blocks a b in
  Ok (a, b, long_state).

(** [for (i = 0; i < 16; i++) a[i] = state.k[o + i] ^ state.k[o + 32 + i]] *)
Definition key_block (state : list Z) (o : nat) (a : list Z) : result (list Z) :=
  for_ 16 (fun i a =>
    let! x := get state (o + i) in
    let! y := get state (o + 32 + i) in
    set a i (Z.lxor x y)) 0 a.

(** The uninitialised [long_state], [text], [a], [b] and [aes_key]. *)
Record locals := Locals { l_long_state : list Z; l_text : list Z; l_a : list Z; l_b : list Z; l_aes_key : list Z }.

Definition cn_slow_hash (MEMORY ITER : nat) (ndebug : bool) (l : locals) (e : extra_locals) (env : aes_env) (data : list Z) : result (list Z) :=
  let! state := hash_process data in
  let! text := memcpy (l_text l) 0 (drop 64 state) INIT_SIZE_BYTE in
  let! aes_key := memcpy (l_aes_key l) 0 state AES_KEY_SIZE in
  let! aes_ctx := oaes_alloc (mem_ctx env) (rand_results env) in
  let! aes_ctx := import_key (mem_key1 env) aes_ctx aes_key in
  let! k := ctx_exp_key aes_ctx in
  let! (_, long_state) := fill MEMORY (exp_data k) text (l_long_state l) in
  let! a := key_block state 0 (l_a l) in
  let! b := key_block state 16 (l_b l) in
  let! (_, _, long_state) := for_ (ITER / 2) (fun _ st => iteration ndebug MEMORY st) 0 (a, b, long_state) in
  let! text := memcpy text 0 (drop 64 state) INIT_SIZE_BYTE in
  let! aes_ctx := import_key (mem_key2 env) aes_ctx (drop 32 state) in
  let! k := ctx_exp_key aes_ctx in
  let! text := drain xor_blocks MEMORY (exp_data k) long_state text in
  finish ndebug e state text.
End Portable.

(** ** The C code for ARM *)
Module Arm.
(** [mul] with 32-bit words, as [NO_OPTIMIZED_MULTIPLY_ON_ARM] selects it *)
Definition mul (ca cb : list Z) : list Z :=
  let a := le_val (take 4 ca) in
  let A := le_val (take 4 (drop 4 ca)) in
  let b := le_val (take 4 cb) in
  let B := le_val (take 4 (drop 4 cb)) in
  let l0 := u64 (a * b) in
  let l1 := u64 (a * B) in
  let l2 := u64 (A * b) in
  let l3 := u64 (A * B) in
  let r2 := lo_dword l0 in
  let l1 := u64 (l1 + hi_dword l0) in
  let l1 := u64 (l1 + lo_dword l2) in
  let l3 := u64 (l3 + hi_dword l1) in
  let l3 := u64 (l3 + hi_dword l2) in
  let r3 := lo_dword l1 in
  le_bytes 4 (lo_dword l3) ++ le_bytes 4 (hi_dword l3) ++ le_bytes 4 r2 ++ le_bytes 4 r3.

Definition MASK (MEMORY : nat) : Z := u32 (Z.shiftl (Z.of_nat (MEMORY / AES_BLOCK_SIZE) - 1) 4).
Definition state_index (MEMORY : nat) (x : list Z) : nat := Z.to_nat (Z.land (le_val (take 4 x)) (MASK MEMORY)).

(** [swap_blocks(b, p)] where [p] points into the scratchpad: [b] and the scratchpad *)
Definition swap_state (b s : list Z) (p : nat) : result (list Z * list Z) :=
  let! x := block_at s p in
  let (b, x) := swap_blocks b x in
  let! s := put_block s p x in
  Ok (b, s).

Definition iteration (MEMORY : nat) (st : list Z * list Z * list Z) : result (list Z * list Z * list Z) :=
  let '(a, b, long_state) := st in
  let p := state_index MEMORY a in
  let! x := block_at long_state p in
  let! x := aesb_single_round x a in
  let! long_state := put_block long_state p x in
  let! x := block_at long_state p in
  let b := xor_blocks64 b x in
  let! (b, long_state) := swap_state b long_state p in
  let (a, b) := swap_blocks a b in
  let p := state_index MEMORY a in
  let! x := block_at long_state p in
  let d := mul a x in
  let b := sum_half_blocks b d in
  let! (b, long_state) := swap_state b long_state p in
  let! x := block_at long_state p in
  let b := xor_blocks64 b x in
  let (a, b) := swap_blocks a b in
  Ok (a, b, long_state).

Record locals := Locals { l_long_state : list Z; l_text : list Z; l_expandedKey : list Z }.

(** [memcpy(expandedKey, aes_ctx->key->exp_data, aes_ctx->key->exp_data_len)] *)
Definition copy_key (expandedKey : list Z) (ctx : option oaes_ctx) : result (list Z) :=
  let! k := ctx_exp_key ctx in
  memcpy expandedKey 0 (exp_data k) (Z.to_nat (exp_data_len k)).

Definition cn_slow_hash (MEMORY ITER : nat) (ndebug : bool) (l : locals) (e : extra_locals) (env : aes_env) (data : list Z) : result (list Z) :=
  let! state := hash_process data in
  let! text := memcpy (l_text l) 0 (drop 64 state) INIT_SIZE_BYTE in
  let! aes_ctx := oaes_alloc (mem_ctx env) (rand_results env) in
  let! aes_ctx := import_key (mem_key1 env) aes_ctx state in
  let! expandedKey := copy_key (l_expandedKey l) aes_ctx in
  let! (_, long_state) := fill MEMORY expandedKey text (l_long_state l) in
  let! a := key_block64 state 0 in
  let! b := key_block64 state 16 in
  let! (_, _, long_state) := for_ (ITER / 2) (fun _ st => iteration MEMORY st) 0 (a, b, long_state) in
  let! text := memcpy text 0 (drop 64 state) INIT_SIZE_BYTE in
  let! aes_ctx := import_key (mem_key2 env) aes_ctx (drop 32 state) in
  let! expandedKey := copy_key expandedKey aes_ctx in
  let! text := drain (fun b p => Ok (xor_blocks64 b p)) MEMORY expandedKey long_state text in
  finish ndebug e state text.
End Arm.

(** ** The x86-64 code *)
Module X86.
(** The intrinsics on vectors of 16 bytes. *)
Definition dword (v : list Z) (i : nat) : list Z := take 4 (drop (4 * i) v).
Definition mm_xor_si128 (a b : list Z) : list Z := zip_with Z.lxor a b.
Definition mm_slli_si128 (a : list Z) (n : nat) : list Z := replicate n 0 ++ take (16 - n) a.
Definition mm_shuffle_epi32 (a : list Z) (imm : Z) : list Z :=
  concat ((fun i => dword a (Z.to_nat (Z.land (Z.shiftr imm (2 * Z.of_nat i)) 3))) <$> seq 0 4).
Definition RotWord (w : list Z) : list Z := drop 1 w ++ take 1 w.
Definition mm_aeskeygenassist_si128 (a : list Z) (rcon : Z) : list Z :=
  let X1 := sbox <$> dword a 1 in
  let X3 := sbox <$> dword a 3 in
  X1 ++ zip_with Z.lxor (RotWord X1) [rcon; 0; 0; 0] ++ X3 ++ zip_with Z.lxor (RotWord X3) [rcon; 0; 0; 0].
Definition mm_aesenc_si128 (a key : list Z) : list Z :=
  zip_with Z.lxor (AES.mix_columns (AES.sub_bytes (AES.shift_rows a))) key.

(** *** Which AES *)

(** The static [use] and the value of [MONERO_USE_SOFTWARE_AES]; the new [use], which is returned. *)
Definition force_software_aes (use : Z) (env : option string) : Z :=
  if negb (use =? -1) then use
  else
    match env with
    | None => 0
    | Some s => if bool_decide (s = "0"%string) || bool_decide (s = "no"%string) then 0 else 1
    end.

(** The static [supported] and the third word of [cpuid]; the new [supported], which is returned. *)
Definition check_aes_hw (supported ecx : Z) : Z :=
  if 0 <=? supported then supported else Z.land ecx (Z.shiftl 1 25).

Definition useAes (use : Z) (env : option string) (supported ecx : Z) : bool :=
  (force_software_aes use env =? 0) && negb (check_aes_hw supported ecx =? 0).

(** *** The key schedule with the instructions *)

(** The new [t1] and [t2]. *)
Definition aes_256_assist1 (t1 t2 : list Z) : list Z * list Z :=
  let t2 := mm_shuffle_epi32 t2 0xff in
  let t4 := mm_slli_si128 t1 0x04 in
  let t1 := mm_xor_si128 t1 t4 in
  let t4 := mm_slli_si128 t4 0x04 in
  let t1 := mm_xor_si128 t1 t4 in
  let t4 := mm_slli_si128 t4 0x04 in
  let t1 := mm_xor_si128 t1 t4 in
  let t1 := mm_xor_si128 t1 t2 in
  (t1, t2).

(** The new [t3]. *)
Definition aes_256_assist2 (t1 t3 : list Z) : list Z :=
  let t4 := mm_aeskeygenassist_si128 t1 0x00 in
  let t2 := mm_shuffle_epi32 t4 0xaa in
  let t4 := mm_slli_si128 t3 0x04 in
  let t3 := mm_xor_si128 t3 t4 in
  let t4 := mm_slli_si128 t4 0x04 in
  let t3 := mm_xor_si128 t3 t4 in
  let t4 := mm_slli_si128 t4 0x04 in
  let t3 := mm_xor_si128 t3 t4 in
  mm_xor_si128 t3 t2.

(** [t2 = _mm_aeskeygenassist_si128(t3, rcon); aes_256_assist1(&t1, &t2); ek[n] = t1;] *)
Definition expand_even (rcon : Z) (n : nat) (t1 t3 ek : list Z) : result (list Z * list Z) :=
  let t2 := mm_aeskeygenassist_si128 t3 rcon in
  let (t1, _) := aes_256_assist1 t1 t2 in
  let! ek := put_block ek (16 * n) t1 in
  Ok (t1, ek).

(** [aes_256_assist2(&t1, &t3); ek[n] = t3;] *)
Definition expand_odd (n : nat) (t1 t3 ek : list Z) : result (list Z * list Z) :=
  let t3 := aes_256_assist2 t1 t3 in
  let! ek := put_block ek (16 * n) t3 in
  Ok (t3, ek).

Definition aes_expand_key (key ek : list Z) : result (list Z) :=
  let! t1 := block_at key 0 in
  let! t3 := block_at key 16 in
  let! ek := put_block ek 0 t1 in
  let! ek := put_block ek 16 t3 in
  let! (t1, ek) := expand_even 0x01 2 t1 t3 ek in
  let! (t3, ek) := expand_odd 3 t1 t3 ek in
  let! (t1, ek) := expand_even 0x02 4 t1 t3 ek in
  let! (t3, ek) := expand_odd 5 t1 t3 ek in
  let! (t1, ek) := expand_even 0x04 6 t1 t3 ek in
  let! (t3, ek) := expand_odd 7 t1 t3 ek in
  let! (t1, ek) := expand_even 0x08 8 t1 t3 ek in
  let! (t3, ek) := expand_odd 9 t1 t3 ek in
  let! (t1, ek) := expand_even 0x10 10 t1 t3 ek in
  Ok ek.

(** [d = _mm_aesenc_si128(d, k[0]); ... d = _mm_aesenc_si128(d, k[9]);] *)
Definition aesenc10 (k d : list Z) : result (list Z) :=
  for_ 10 (fun i d => let! key := block_at k (16 * i) in Ok (mm_aesenc_si128 d key)) 0 d.

(** [in] and [out] are both [text]. *)
Definition aes_pseudo_round (text expandedKey : list Z) (nblocks : nat) : result (list Z) :=
  for_ nblocks (fun i text =>
    let! d := block_at text (i * AES_BLOCK_SIZE) in
    let! d := aesenc10 expandedKey d in
    put_block text (i * AES_BLOCK_SIZE) d) 0 text.

(** [xor] points to the offset [x] of the scratchpad. *)
Definition aes_pseudo_round_xor (text expandedKey hp : list Z) (x : nat) (nblocks : nat) : result (list Z) :=
  for_ nblocks (fun i text =>
    let! d := block_at text (i * AES_BLOCK_SIZE) in
    let! y := block_at hp (x + 16 * i) in
    let d := mm_xor_si128 d y in
    let! d := aesenc10 expandedKey d in
    put_block text (i * AES_BLOCK_SIZE) d) 0 text.

(** *** The scratchpad of the thread *)
Record hp := Hp { hp_state : option (list Z); hp_allocated : bool }.

(** [mmap] and [malloc] are the memory that the calls give, or [None]. *)
Definition slow_hash_allocate_state (mmap malloc : option (list Z)) (h : hp) : hp :=
  match hp_state h with
  | Some _ => h
  | None => match mmap with Some m => Hp (Some m) true | None => Hp malloc false end
  end.

Inductive release := Free (m : list Z) | Munmap (m : list Z).

Definition slow_hash_free_state (h : hp) : option release * hp :=
  match hp_state h with
  | None => (None, h)
  | Some m => (Some (if hp_allocated h then Munmap m else Free m), Hp None false)
  end.

(** *** The hash *)
Definition state_index (MEMORY : nat) (x0 : Z) : nat :=
  Z.to_nat (Z.shiftl (Z.land (Z.shiftr x0 4) (Z.of_nat (MEMORY / AES_BLOCK_SIZE) - 1)) 4).

(** [pre_aes], the round and [post_aes] on [a], [_b] and the scratchpad. *)
Definition iteration (aes : list Z -> list Z -> result (list Z)) (MEMORY : nat) (st : Z * Z * list Z * list Z) : result (Z * Z * list Z * list Z) :=
  let '(a0, a1, _b, hp_state) := st in
  let j := state_index MEMORY a0 in
  let! _c := block_at hp_state j in
  let _a := of_words a0 a1 in
  let! _c := aes _c _a in
  let c0 := word0 _c in
  let _b := mm_xor_si128 _b _c in
  let! hp_state := put_block hp_state j _b in
  let j := state_index MEMORY c0 in
  let! p := block_at hp_state j in
  let b0 := word0 p in
  let b1 := word1 p in
  let hi := c0 * b0 / 2 ^ 64 in
  let lo := u64 (c0 * b0) in
  let a0 := u64 (a0 + hi) in
  let a1 := u64 (a1 + lo) in
  let! hp_state := put_block hp_state j (of_words a0 a1) in
  Ok (Z.lxor a0 b0, Z.lxor a1 b1, _c, hp_state).

(** The uninitialised [text] and [expandedKey]. *)
Record locals := Locals { l_text : list Z; l_expandedKey : list Z }.

(** The scratchpad is filled: the text, the scratchpad, the context of the library and [expandedKey]. *)
Definition step2 (aes : bool) (MEMORY : nat) (env : aes_env) (state text key0 hp_state : list Z) :
    result (list Z * list Z * option oaes_ctx * list Z) :=
  if aes then
    let! expandedKey := aes_expand_key state key0 in
    let! (text, hp_state) := for_ (MEMORY / INIT_SIZE_BYTE) (fun i '(text, hp_state) =>
      let! text := aes_pseudo_round text expandedKey INIT_SIZE_BLK in
      let! hp_state := memcpy hp_state (i * INIT_SIZE_BYTE) text INIT_SIZE_BYTE in
      Ok (text, hp_state)) 0 (text, hp_state) in
    Ok (text, hp_state, None, expandedKey)
  else
    let! aes_ctx := oaes_alloc (mem_ctx env) (rand_results env) in
    let! aes_ctx := import_key (mem_key1 env) aes_ctx state in
    let! k := ctx_exp_key aes_ctx in
    let! (text, hp_state) := fill MEMORY (exp_data k) text hp_state in
    Ok (text, hp_state, aes_ctx, key0).

(** The scratchpad is mixed into the text. *)
Definition step4 (aes : bool) (MEMORY : nat) (env : aes_env) (state text key0 hp_state : list Z) (aes_ctx : option oaes_ctx) : result (list Z) :=
  if aes then
    let! expandedKey := aes_expand_key (drop 32 state) key0 in
    for_ (MEMORY / INIT_SIZE_BYTE) (fun i text =>
      aes_pseudo_round_xor text expandedKey hp_state (i * INIT_SIZE_BYTE) INIT_SIZE_BLK) 0 text
  else
    let! aes_ctx := import_key (mem_key2 env) aes_ctx (drop 32 state) in
    let! k := ctx_exp_key aes_ctx in
    drain (fun b p => Ok (xor_blocks64 b p)) MEMORY (exp_data k) hp_state text.

(** The hash and the state of the thread; [aes] is [useAes]. *)
Definition cn_slow_hash (MEMORY ITER : nat) (aes ndebug : bool) (mmap malloc : option (list Z)) (l : locals) (e : extra_locals) (env : aes_env)
    (h : hp) (data : list Z) : result (list Z * hp) :=
  let h := slow_hash_allocate_state mmap malloc h in
  let! state := hash_process data in
  let! text := memcpy (l_text l) 0 (drop 64 state) INIT_SIZE_BYTE in
  match hp_state h with
  | None => Fail OutOfBounds
  | Some hp_state =>
      let! (text, hp_state, aes_ctx, expandedKey) := step2 aes MEMORY env state text (l_expandedKey l) hp_state in
      let! a := key_block64 state 0 in
      let! b := key_block64 state 16 in
      let round := if aes then (fun c a => Ok (mm_aesenc_si128 c a)) else aesb_single_round in
      let! (_, _, _, hp_state) := for_ (ITER / 2) (fun _ st => iteration round MEMORY st) 0 (word0 a, word1 a, b, hp_state) in
      let! text := memcpy text 0 (drop 64 state) INIT_SIZE_BYTE in
      let! text := step4 aes MEMORY env state text expandedKey hp_state aes_ctx in
      let! hash := finish ndebug e state text in
      Ok (hash, Hp (Some hp_state) (hp_allocated h))
  end.
End X86.
