(* ===== verification/SlowHashFacts.v ===== *)
(** * The slow hash computes CryptoNight

    CryptoNight on blocks of 16 bytes, and the three implementations against it. *)

From stdpp Require Import base list numbers.
From Stdlib Require Import ZArith Lia.
From S2P Require Import Prelude Bytes IntUtil Streaming Keccak KeccakFacts Blake256 Blake256Facts Groestl GroestlFacts Jh JhPermutation JhFacts Skein SkeinBlock SkeinFacts Rijndael Aes Oaes OaesFacts Aesb AesbFacts SlowHash Random.

Module CryptoNight.
Section Parameters.
(** The blocks of the scratchpad, and the iterations. *)
Context (N iterations : nat).

Definition index (a : list Z) : nat := Z.to_nat ((word0 a / 16) mod Z.of_nat N).

(** The ten rounds of a pass. *)
Definition keys (key : list Z) : list (list Z) := AES.round_key (AES.expand key) <$> seq 0 10.
Definition cipher10 (ks : list (list Z)) (b : list Z) : list Z := foldl AES.round b ks.

(** The text after [i] passes, and the scratchpad that the passes fill. *)
Definition texts (ks text : list (list Z)) (i : nat) : list (list Z) := Nat.iter i (fun t => cipher10 ks <$> t) text.
Definition explode (ks text : list (list Z)) (n : nat) : list (list Z) := concat (texts ks text <$> seq 1 n).

Definition mix (st : list Z * list Z * list (list Z)) : list Z * list Z * list (list Z) :=
  let '(a, b, pad) := st in
  let i := index a in
  let c := AES.round (nth i pad []) a in
  let pad := <[i := AES.xor b c]> pad in
  let j := index c in
  let d := nth j pad [] in
  let p := word0 c * word0 d in
  let s := of_words ((word0 a + p / 2 ^ 64) mod 2 ^ 64) ((word1 a + p mod 2 ^ 64) mod 2 ^ 64) in
  (AES.xor s d, c, <[j := s]> pad).

Definition implode (ks pad text : list (list Z)) (n : nat) : list (list Z) :=
  foldl (fun text i => imap (fun j b => cipher10 ks (AES.xor b (nth (8 * i + j) pad []))) text) text (seq 0 n).

Definition blocks8 (s : list Z) : list (list Z) := (fun i => take 16 (drop (16 * i) s)) <$> seq 0 8.
Definition words25 (s : list Z) : list Z := (fun i => le_val (take 8 (drop (8 * i) s))) <$> seq 0 25.

(** One of the four hashes, by the last two bits. *)
Definition select (s : list Z) : list Z :=
  match Z.to_nat (Z.land (nth 0 s 0) 3) with
  | 0%nat => BlakeHash.blake256 s
  | 1%nat => Grostl.hash s
  | 2%nat => JhSpec.hash 256 s
  | _ => SkeinSpec.hash SkeinSpec.tf512 256 s (8 * Z.of_nat (length s))
  end.

Definition scratchpad (s : list Z) : list (list Z) :=
  let a := AES.xor (take 16 s) (take 16 (drop 32 s)) in
  let b := AES.xor (take 16 (drop 16 s)) (take 16 (drop 48 s)) in
  let '(_, _, pad) := Nat.iter iterations mix (a, b, explode (keys (take 32 s)) (blocks8 (drop 64 s)) (N / 8)) in
  pad.

Definition hash (data : list Z) : list Z :=
  let s := Sponge.hash 136 200 data in
  let text := implode (keys (take 32 (drop 32 s))) (scratchpad s) (blocks8 (drop 64 s)) (N / 8) in
  select (state_bytes (Spec.permutation 24 (words25 (take 64 s ++ concat text ++ drop 192 s)))).
End Parameters.
End CryptoNight.

Import CryptoNight.

(** ** Blocks and words *)
Lemma block16_sized w : Forall block16 w -> Forall (sized 16) w.
Proof. apply List.Forall_impl. by intros t [_ Ht]. Qed.

Lemma of_words_block w0 w1 : block16 (of_words w0 w1).
Proof.
  unfold of_words. split; [apply Forall_app; split; apply le_bytes_bytes|]. by rewrite length_app, !le_bytes_length.
Qed.

Lemma word_halves b : block16 b -> exists x y, b = x ++ y /\ bytes x /\ bytes y /\ length x = 8%nat /\ length y = 8%nat.
Proof.
  intros [Hb Hl]. exists (take 8 b), (drop 8 b). rewrite take_drop, length_take, length_drop. split; [done|].
  split; [by apply Forall_take|]. split; [by apply Forall_drop|]. lia.
Qed.

Lemma words_app x y : length x = 8%nat -> length y = 8%nat -> word0 (x ++ y) = le_val x /\ word1 (x ++ y) = le_val y.
Proof.
  intros Hx Hy. unfold word0, word1. rewrite take_app_length', drop_app_length' by done. by rewrite (take_ge y) by lia.
Qed.

Lemma of_words_words b : block16 b -> of_words (word0 b) (word1 b) = b.
Proof.
  intros Hb. destruct (word_halves b Hb) as (x & y & -> & Bx & By & Lx & Ly). destruct (words_app x y Lx Ly) as [-> ->].
  unfold of_words. rewrite <- Lx at 1. rewrite <- Ly. by rewrite !le_bytes_val.
Qed.

Lemma words_of_words w0 w1 : word0 (of_words w0 w1) = w0 mod 2 ^ 64 /\ word1 (of_words w0 w1) = w1 mod 2 ^ 64.
Proof.
  unfold of_words. destruct (words_app (le_bytes 8 w0) (le_bytes 8 w1)) as [-> ->]; try apply le_bytes_length. by rewrite !le_val_bytes.
Qed.

Lemma word_bound b : block16 b -> 0 <= word0 b < 2 ^ 64 /\ 0 <= word1 b < 2 ^ 64.
Proof.
  intros Hb. destruct (word_halves b Hb) as (x & y & -> & Bx & By & Lx & Ly). destruct (words_app x y Lx Ly) as [-> ->].
  pose proof (le_val_bound x Bx) as Hx. pose proof (le_val_bound y By) as Hy. rewrite Lx in Hx. rewrite Ly in Hy. done.
Qed.

Lemma zip_with_app_xor a b c d : length a = length c -> AES.xor (a ++ b) (c ++ d) = AES.xor a c ++ AES.xor b d.
Proof. intros H. by apply zip_with_app. Qed.

Lemma xor_words_block a b : block16 a -> block16 b ->
  word0 (AES.xor a b) = Z.lxor (word0 a) (word0 b) /\ word1 (AES.xor a b) = Z.lxor (word1 a) (word1 b).
Proof.
  intros Ha Hb. destruct (word_halves a Ha) as (x & y & -> & Bx & By & Lx & Ly). destruct (word_halves b Hb) as (u & v & -> & Bu & Bv & Lu & Lv).
  rewrite zip_with_app_xor by lia. unfold AES.xor.
  destruct (words_app (zip_with Z.lxor x u) (zip_with Z.lxor y v)) as [-> ->]; [rewrite length_zip_with; lia..|].
  destruct (words_app x y Lx Ly) as [-> ->]. destruct (words_app u v Lu Lv) as [-> ->]. rewrite !le_val_lxor by (done || lia). done.
Qed.

Lemma xor_blocks64_spec a b : block16 a -> block16 b -> xor_blocks64 a b = AES.xor a b.
Proof.
  intros Ha Hb. unfold xor_blocks64. destruct (xor_words_block a b Ha Hb) as [<- <-]. apply of_words_words. by apply xor_block.
Qed.

Lemma xor_blocks_spec a b : block16 a -> block16 b -> xor_blocks a b = Ok (AES.xor a b).
Proof.
  intros Ha Hb. unfold xor_blocks. rewrite xor_block_spec by (first [done|destruct Hb as [_ ->]; lia]).
  by rewrite drop_0, take_ge by (destruct Hb as [_ ->]; lia).
Qed.

Lemma swap_blocks_spec a b : block16 a -> block16 b -> swap_blocks a b = (b, a).
Proof. intros Ha Hb. unfold swap_blocks. by rewrite !of_words_words. Qed.

(** ** Arrays of blocks *)
Lemma nth_block pad k : Forall block16 pad -> (k < length pad)%nat -> block16 (nth k pad []).
Proof. intros Hp Hk. rewrite List.Forall_forall in Hp. by apply Hp, nth_In. Qed.

Lemma block_at_spec pad tail k : Forall block16 pad -> (k < length pad)%nat -> block_at (concat pad ++ tail) (16 * k) = Ok (nth k pad []).
Proof.
  intros Hp Hk. pose proof (block16_sized _ Hp) as Hs. unfold block_at.
  rewrite decide_True by (rewrite length_app, (sized_length 16) by done; lia). f_equal.
  rewrite drop_app_le by (rewrite (sized_length 16) by done; lia). rewrite sized_drop by done.
  destruct (lookup_lt_is_Some_2 pad k Hk) as [b Hb]. rewrite (drop_S _ _ _ Hb), (nth_lookup_Some _ _ _ _ Hb). cbn [concat].
  rewrite <- app_assoc. apply take_app_length'. symmetry. by apply (Forall_lookup_1 _ _ _ _ Hs Hb).
Qed.

Lemma put_block_spec pad k b : Forall block16 pad -> (k < length pad)%nat -> block16 b ->
  put_block (concat pad) (16 * k) b = Ok (concat (<[k := b]> pad)).
Proof.
  intros Hp Hk Hb. pose proof (block16_sized _ Hp) as Hs. destruct (lookup_lt_is_Some_2 pad k Hk) as [x Hx].
  unfold put_block, AES_BLOCK_SIZE. rewrite <- (take_drop_middle _ _ _ Hx) at 1. rewrite concat_app. cbn [concat].
  pose proof (Forall_lookup_1 _ _ _ _ Hs Hx) as Lx. unfold sized in Lx.
  rewrite memcpy_at; [| |rewrite length_app; lia|destruct Hb as [_ ->]; lia].
  - rewrite (take_ge b) by (destruct Hb as [_ ->]; lia). rewrite drop_app_length' by done. f_equal.
    rewrite insert_take_drop by done. rewrite concat_app. done.
  - rewrite (sized_length 16) by (by apply Forall_take). rewrite length_take. lia.
Qed.

(** A loop that replaces the blocks one after the other. *)
Lemma blocks_loop n (F : nat -> list Z -> result (list Z)) (g : nat -> list Z -> list Z) ts :
  Forall block16 ts -> length ts = n ->
  (forall j x us, (j < n)%nat -> us !! j = Some x -> block16 x -> Forall block16 us -> length us = n ->
     F j (concat us) = Ok (concat (<[j := g j x]> us)) /\ block16 (g j x)) ->
  for_ n F 0 (concat ts) = Ok (concat (imap g ts)) /\ Forall block16 (imap g ts).
Proof.
  intros Ht Hl HF.
  assert (forall k, (k <= n)%nat -> for_ k F 0 (concat ts) = Ok (concat (update_first k g ts)) /\ Forall block16 (update_first k g ts)) as H.
  { induction k as [|k IH]; intros Hk.
    - assert (update_first 0 g ts = ts) as -> by (apply list_eq; intros i; rewrite update_first_lookup; by destruct (ts !! i)). done.
    - destruct IH as [E B]; [lia|]. rewrite for_snoc, E. cbn [bind Nat.add]. destruct (lookup_lt_is_Some_2 ts k) as [x Hx]; [lia|].
      destruct (HF k x (update_first k g ts)) as [E1 B1]; [lia| |by apply (Forall_lookup_1 _ _ _ _ Ht Hx)|exact B|by rewrite update_first_length|].
      { rewrite update_first_lookup, Hx. cbn. by rewrite decide_False by lia. }
      rewrite E1, (update_first_S _ _ _ _ Hx). split; [done|]. rewrite <- (update_first_S _ _ _ _ Hx). by apply Forall_insert. }
  destruct (H n ltac:(lia)) as [E B]. rewrite E. subst n. rewrite update_first_all in *. done.
Qed.

(** ** The passes with the tables *)
Lemma imap_fmap {A B} (f : A -> B) l : imap (fun _ => f) l = f <$> l.
Proof. apply list_eq. intros i. by rewrite list_lookup_imap, list_lookup_fmap. Qed.

Lemma put_at_spec us j (x y : list Z) :
  us !! j = Some x -> Forall block16 us -> block16 y -> put_block (concat us) (16 * j) y = Ok (concat (<[j := y]> us)).
Proof. intros Hx Hu Hy. apply put_block_spec; [done|by eapply lookup_lt_Some|done]. Qed.

Lemma at_spec us j x : us !! j = Some x -> Forall block16 us -> block_at (concat us) (16 * j) = Ok x.
Proof.
  intros Hx Hu. pose proof (block_at_spec us [] j Hu ltac:(by eapply lookup_lt_Some)) as H. rewrite app_nil_r in H.
  rewrite H. by rewrite (nth_lookup_Some _ _ _ _ Hx).
Qed.

Lemma cipher10_block ks b : Forall block16 ks -> block16 b -> block16 (cipher10 ks b).
Proof. apply foldl_round_block. Qed.

Lemma texts_ok ks ts i : Forall block16 ks -> Forall block16 ts -> length ts = 8%nat -> Forall block16 (texts ks ts i) /\ length (texts ks ts i) = 8%nat.
Proof.
  intros Hk Ht Hl. induction i as [|i [B L]]; [done|]. change (texts ks ts (S i)) with (cipher10 ks <$> texts ks ts i). rewrite length_fmap. split; [|done].
  apply Forall_fmap. eapply List.Forall_impl; [|exact B]. intros b Hb. by apply cipher10_block.
Qed.

Lemma explode_S ks ts n : explode ks ts (S n) = explode ks ts n ++ texts ks ts (S n).
Proof. unfold explode. rewrite seq_S, fmap_app, concat_app. cbn [fmap list_fmap concat Nat.add]. by rewrite app_nil_r. Qed.

Lemma explode_ok ks ts n : Forall block16 ks -> Forall block16 ts -> length ts = 8%nat ->
  Forall block16 (explode ks ts n) /\ length (explode ks ts n) = (8 * n)%nat.
Proof.
  intros Hk Ht Hl. induction n as [|n [B L]]; [by split; [constructor|]|]. rewrite explode_S. destruct (texts_ok ks ts (S n) Hk Ht Hl) as [B1 L1].
  split; [by apply Forall_app|]. rewrite length_app. lia.
Qed.

(** A pass over the text, and where it is stored: what the instructions and the tables have in common. *)
Section Fill.
Context (pass : list Z -> result (list Z)) (ks : list (list Z)) (ks_ok : Forall block16 ks).
Context (pass_spec : forall ts, Forall block16 ts -> length ts = 8%nat ->
  pass (concat ts) = Ok (concat (cipher10 ks <$> ts)) /\ Forall block16 (cipher10 ks <$> ts)).

Lemma fill_loop ts long_state n :
  Forall block16 ts -> length ts = 8%nat -> (128 * n <= length long_state)%nat ->
  for_ n (fun i '(text, long_state) =>
    let! text := pass text in
    let! long_state := memcpy long_state (i * INIT_SIZE_BYTE) text INIT_SIZE_BYTE in
    Ok (text, long_state)) 0 (concat ts, long_state) =
  Ok (concat (texts ks ts n), concat (explode ks ts n) ++ drop (128 * n) long_state).
Proof using pass_spec ks_ok.
  intros Ht Hl. induction n as [|n IH]; intros Hn; [by rewrite Nat.mul_0_r|]. rewrite for_snoc, IH by lia. cbn [bind Nat.add].
  destruct (texts_ok ks ts n ks_ok Ht Hl) as [B L]. destruct (pass_spec _ B L) as [E B1]. rewrite E. cbn [bind].
  change (cipher10 ks <$> texts ks ts n) with (texts ks ts (S n)) in *.
  destruct (texts_ok ks ts (S n) ks_ok Ht Hl) as [_ L1]. destruct (explode_ok ks ts n ks_ok Ht Hl) as [Be Le].
  pose proof (sized_length 16 _ (block16_sized _ B1)) as S1. pose proof (sized_length 16 _ (block16_sized _ Be)) as Se.
  unfold INIT_SIZE_BYTE, INIT_SIZE_BLK, AES_BLOCK_SIZE. change (8 * 16)%nat with 128%nat.
  rewrite memcpy_at by (rewrite ?length_drop; lia). cbn [bind]. rewrite take_ge, drop_drop by lia. rewrite explode_S, concat_app, <- app_assoc.
  do 4 f_equal. f_equal. lia.
Qed.
End Fill.

Section Passes.
Context (key : list Z) (key_bytes : bytes key) (key_length : (160 <= length key)%nat).
Let ks := keys10 key.

Lemma ks_ok : Forall block16 ks.
Proof using key_bytes key_length. by apply keys10_ok. Qed.

Lemma pseudo_text_spec ts : Forall block16 ts -> length ts = 8%nat ->
  pseudo_text key (concat ts) = Ok (concat (cipher10 ks <$> ts)) /\ Forall block16 (cipher10 ks <$> ts).
Proof using key_bytes key_length.
  intros Ht Hl. unfold pseudo_text. rewrite <- imap_fmap. apply blocks_loop; [done|done|].
  intros j x us Hj Hx Bx Hu Lu. unfold AES_BLOCK_SIZE. rewrite (at_spec _ _ _ Hx Hu). cbn [bind].
  destruct (aesb_pseudo_round_spec x key Bx key_bytes key_length) as [-> B]. cbn [bind]. split; [by eapply put_at_spec|done].
Qed.

Lemma scratchpad_fill ts long_state N :
  Forall block16 ts -> length ts = 8%nat -> (N mod 8 = 0)%nat -> length long_state = (16 * N)%nat ->
  exists text, fill (16 * N) key (concat ts) long_state = Ok (text, concat (explode ks ts (N / 8))) /\ length text = 128%nat.
Proof using key_bytes key_length.
  intros Ht Hl HN Hm. pose proof (Nat.div_mod_eq N 8) as Hd. unfold fill.
  replace (16 * N / INIT_SIZE_BYTE)%nat with (N / 8)%nat by (unfold INIT_SIZE_BYTE, INIT_SIZE_BLK, AES_BLOCK_SIZE; change (8 * 16)%nat with (16 * 8)%nat; rewrite Nat.Div0.div_mul_cancel_l by lia; done).
  rewrite (fill_loop _ ks ks_ok pseudo_text_spec) by (done || lia).
  exists (concat (texts ks ts (N / 8))). rewrite (drop_ge long_state), app_nil_r by lia. split; [done|].
  destruct (texts_ok ks ts (N / 8) ks_ok Ht Hl) as [B L]. rewrite (sized_length 16) by (by apply block16_sized). lia.
Qed.

Lemma drain_spec xor pad ts N :
  (forall a b, block16 a -> block16 b -> xor a b = Ok (AES.xor a b)) ->
  Forall block16 ts -> length ts = 8%nat -> (N mod 8 = 0)%nat -> Forall block16 pad -> length pad = N ->
  drain xor (16 * N) key (concat pad) (concat ts) = Ok (concat (implode ks pad ts (N / 8))) /\ Forall block16 (implode ks pad ts (N / 8)).
Proof using key_bytes key_length.
  intros Hxor Ht Hl HN Hp Lp. pose proof (Nat.div_mod_eq N 8) as Hd. unfold drain.
  replace (16 * N / INIT_SIZE_BYTE)%nat with (N / 8)%nat by (unfold INIT_SIZE_BYTE, INIT_SIZE_BLK, AES_BLOCK_SIZE; change (8 * 16)%nat with (16 * 8)%nat; rewrite Nat.Div0.div_mul_cancel_l by lia; done).
  assert (forall n, (8 * n <= N)%nat -> for_ n (fun i text => for_ INIT_SIZE_BLK (fun j text =>
    let! b := block_at text (j * AES_BLOCK_SIZE) in
    let! p := block_at (concat pad) (i * INIT_SIZE_BYTE + j * AES_BLOCK_SIZE) in
    let! b := xor b p in
    let! text := put_block text (j * AES_BLOCK_SIZE) b in
    let! b := block_at text (AES_BLOCK_SIZE * j) in
    let! b := aesb_pseudo_round b key in
    put_block text (AES_BLOCK_SIZE * j) b) 0 text) 0 (concat ts) = Ok (concat (implode ks pad ts n)) /\
    Forall block16 (implode ks pad ts n) /\ length (implode ks pad ts n) = 8%nat) as H.
  { induction n as [|n IH]; intros Hn; [done|]. destruct IH as (E & B & L); [lia|]. rewrite for_snoc, E. cbn [bind Nat.add].
    unfold implode. rewrite seq_S, foldl_app. cbn [foldl Nat.add]. fold (implode ks pad ts n). rewrite length_imap, L.
    match goal with |- ?a /\ ?b /\ _ => enough (a /\ b) by tauto end.
    apply blocks_loop; [done|exact L|]. intros j x us Hj Hx Bx Hu Lu. unfold AES_BLOCK_SIZE, INIT_SIZE_BYTE, INIT_SIZE_BLK, AES_BLOCK_SIZE in *.
    replace (j * 16)%nat with (16 * j)%nat by lia. replace (n * (8 * 16) + 16 * j)%nat with (16 * (8 * n + j))%nat by lia.
    rewrite (at_spec _ _ _ Hx Hu). cbn [bind].
    destruct (lookup_lt_is_Some_2 pad (8 * n + j)) as [p Hpj]; [lia|]. rewrite (at_spec _ _ _ Hpj Hp), (nth_lookup_Some _ _ _ _ Hpj). cbn [bind].
    pose proof (Forall_lookup_1 _ _ _ _ Hp Hpj) as Bp. rewrite Hxor by done. cbn [bind]. pose proof (xor_block _ _ Bx Bp) as Bxp.
    rewrite (put_at_spec _ _ _ _ Hx Hu Bxp). cbn [bind].
    assert (<[j := AES.xor x p]> us !! j = Some (AES.xor x p)) as Hx' by (apply list_lookup_insert_eq; lia).
    assert (Forall block16 (<[j := AES.xor x p]> us)) as Hu' by (by apply Forall_insert).
    rewrite (at_spec _ _ _ Hx' Hu'). cbn [bind].
    destruct (aesb_pseudo_round_spec (AES.xor x p) key Bxp key_bytes key_length) as [-> B2]. cbn [bind].
    rewrite (put_at_spec _ _ _ _ Hx' Hu' B2), list_insert_insert_eq. done. }
  destruct (H (N / 8)%nat ltac:(lia)) as (E & B & _). done.
Qed.
End Passes.

(** ** Addresses *)
Lemma low_word a : block16 a -> le_val (take 4 a) = word0 a mod 2 ^ 32.
Proof.
  intros [Hb Hl]. unfold word0. change (take 8 a) with (take (4 + 4) a). rewrite <- (take_take_drop a 4 4), le_val_app, length_take, Hl. change (Nat.min 4 16) with 4%nat.
  pose proof (le_val_bound (take 4 a) ltac:(by apply Forall_take)) as Hv. rewrite length_take, Hl in Hv. change (256 ^ Z.of_nat (Nat.min 4 16)) with (2 ^ 32) in Hv.
  change (256 ^ Z.of_nat 4) with (2 ^ 32). rewrite Z.mul_comm, Z.mod_add by lia. by rewrite Z.mod_small.
Qed.

Section Addresses.
Context (k : nat).
Let N := (2 ^ k)%nat.

Lemma blocks_count : (16 * N / AES_BLOCK_SIZE = N)%nat.
Proof. unfold AES_BLOCK_SIZE. rewrite Nat.mul_comm. apply Nat.div_mul. lia. Qed.

Lemma count_Z : Z.of_nat N = 2 ^ Z.of_nat k.
Proof. unfold N. by rewrite Nat2Z.inj_pow. Qed.

Lemma land_count w : 0 <= w -> Z.land w (Z.of_nat N - 1) = w mod Z.of_nat N.
Proof. intros Hw. rewrite count_Z. replace (2 ^ Z.of_nat k - 1) with (Z.ones (Z.of_nat k)) by (rewrite Z.ones_equiv; lia). apply Z.land_ones. lia. Qed.

Lemma address_bound a : (index N a < N)%nat.
Proof.
  unfold index. pose proof (Z.pow_pos_nonneg 2 (Z.of_nat k) ltac:(lia) ltac:(lia)) as Hp. pose proof count_Z as E.
  pose proof (Z.mod_pos_bound (word0 a / 16) (Z.of_nat N) ltac:(lia)). lia.
Qed.

Lemma e2i_spec a : block16 a -> Z.to_nat (Portable.e2i a (Z.of_nat (16 * N / AES_BLOCK_SIZE))) = index N a.
Proof.
  intros Ha. destruct (word_bound a Ha) as [Hw _]. rewrite blocks_count. unfold Portable.e2i.
  rewrite land_count by (apply Z.div_pos; lia). reflexivity.
Qed.

Lemma x86_index_spec a : block16 a -> X86.state_index (16 * N) (word0 a) = (16 * index N a)%nat.
Proof.
  intros Ha. destruct (word_bound a Ha) as [Hw _]. unfold X86.state_index. rewrite blocks_count, Z.shiftr_div_pow2 by lia. change (2 ^ 4) with 16.
  rewrite land_count by (apply Z.div_pos; lia). rewrite Z.shiftl_mul_pow2 by lia. change (2 ^ 4) with 16.
  pose proof count_Z as E. pose proof (Z.pow_pos_nonneg 2 (Z.of_nat k) ltac:(lia) ltac:(lia)) as Hp.
  pose proof (Z.mod_pos_bound (word0 a / 16) (Z.of_nat N) ltac:(lia)). unfold index. lia.
Qed.

(** The mask of the ARM code keeps the block number. *)
Lemma arm_index_spec a : (k <= 28)%nat -> block16 a -> Arm.state_index (16 * N) a = (16 * index N a)%nat.
Proof.
  intros Hk Ha. rewrite <- x86_index_spec by done. unfold Arm.state_index, X86.state_index, Arm.MASK. rewrite blocks_count, low_word by done. f_equal.
  destruct (word_bound a Ha) as [Hw _]. rewrite count_Z.
  replace (2 ^ Z.of_nat k - 1) with (Z.ones (Z.of_nat k)) by (rewrite Z.ones_equiv; lia).
  assert (u32 (Z.shiftl (Z.ones (Z.of_nat k)) 4) = Z.shiftl (Z.ones (Z.of_nat k)) 4) as ->.
  { apply Z.mod_small. rewrite Z.shiftl_mul_pow2, Z.ones_equiv by lia. change (2 ^ 4) with 16.
    pose proof (Z.pow_le_mono_r 2 (Z.of_nat k) 28 ltac:(lia) ltac:(lia)). pose proof (Z.pow_pos_nonneg 2 (Z.of_nat k) ltac:(lia) ltac:(lia)). lia. }
  rewrite <- Z.land_ones by lia. apply Z.bits_inj'. intros n Hn. rewrite !Z.land_spec, Z.shiftl_spec by done.
  destruct (Z.ltb_spec n 4) as [H4|H4].
  - rewrite (Z.testbit_neg_r _ (n - 4)) by lia. rewrite (Z.shiftl_spec _ _ _ Hn), (Z.testbit_neg_r _ (n - 4)) by lia. apply andb_false_r.
  - rewrite (Z.shiftl_spec _ _ _ Hn). rewrite Z.land_spec, Z.shiftr_spec by lia. replace (n - 4 + 4) with n by lia.
    rewrite <- andb_assoc. f_equal. destruct (Z.ltb_spec n 32) as [H32|H32]; [by rewrite Z.ones_spec_low by lia|].
    rewrite (Z.ones_spec_high 32), (Z.ones_spec_high (Z.of_nat k)) by lia. done.
Qed.
End Addresses.

(** ** Products *)
Lemma portable_mul_spec ndebug a b : block16 a -> block16 b ->
  let p := word0 a * word0 b in Portable.mul ndebug a b = Ok (of_words (p / 2 ^ 64) (p mod 2 ^ 64)).
Proof.
  intros Ha Hb p. destruct (word_bound a Ha) as [Wa _], (word_bound b Hb) as [Wb _]. unfold Portable.mul. by rewrite mul128_spec by (unfold is_u64; lia).
Qed.

Lemma digits4 n v : 0 <= v -> le_bytes n (lo_dword v) = le_bytes n (v mod 2 ^ 32).
Proof. intros Hv. unfold lo_dword. change 0xFFFFFFFF with (Z.ones 32). by rewrite Z.land_ones by lia. Qed.

Lemma le_bytes_8 v : 0 <= v < 2 ^ 64 -> le_bytes 8 v = le_bytes 4 (lo_dword v) ++ le_bytes 4 (hi_dword v).
Proof.
  intros Hv. rewrite digits4 by lia. unfold hi_dword. rewrite Z.shiftr_div_pow2 by lia.
  assert (bytes (le_bytes 4 (v mod 2 ^ 32) ++ le_bytes 4 (v / 2 ^ 32))) as Hb by (apply Forall_app; split; apply le_bytes_bytes).
  rewrite <- (le_bytes_val _ Hb), length_app, !le_bytes_length. change (4 + 4)%nat with 8%nat. f_equal. rewrite le_val_app, !le_val_bytes, le_bytes_length.
  change (256 ^ Z.of_nat 4) with (2 ^ 32). rewrite Z.mod_mod by lia. rewrite (Z.mod_small (v / 2 ^ 32)).
  - pose proof (Z.div_mod v (2 ^ 32) ltac:(lia)). lia.
  - split; [apply Z.div_pos; lia|]. apply Z.div_lt_upper_bound; lia.
Qed.

Lemma high_word a : block16 a -> le_val (take 4 (drop 4 a)) = word0 a / 2 ^ 32.
Proof.
  intros Ha. pose proof (low_word a Ha) as El. destruct Ha as [Hb Hl]. assert (word0 a = le_val (take 4 a) + 2 ^ 32 * le_val (take 4 (drop 4 a))) as E.
  { unfold word0. change (take 8 a) with (take (4 + 4) a). rewrite <- (take_take_drop a 4 4), le_val_app, length_take, Hl. reflexivity. }
  rewrite El in E. pose proof (Z.div_mod (word0 a) (2 ^ 32) ltac:(lia)). lia.
Qed.

Lemma split32 v : v = 2 ^ 32 * hi_dword v + lo_dword v /\ 0 <= lo_dword v < 2 ^ 32.
Proof.
  unfold hi_dword, lo_dword. change 0xFFFFFFFF with (Z.ones 32). rewrite Z.land_ones, Z.shiftr_div_pow2 by lia.
  split; [apply Z.div_mod; lia|apply Z.mod_pos_bound; lia].
Qed.

Lemma arm_mul_spec a b : block16 a -> block16 b -> let p := word0 a * word0 b in Arm.mul a b = of_words (p / 2 ^ 64) (p mod 2 ^ 64).
Proof.
  intros Ha Hb p. destruct (word_bound a Ha) as [Wa _], (word_bound b Hb) as [Wb _]. unfold Arm.mul. rewrite (low_word a Ha), (low_word b Hb), (high_word a Ha), (high_word b Hb).
  pose proof (Z.div_mod (word0 a) (2 ^ 32) ltac:(lia)) as Ea. pose proof (Z.div_mod (word0 b) (2 ^ 32) ltac:(lia)) as Eb.
  pose proof (Z.mod_pos_bound (word0 a) (2 ^ 32) ltac:(lia)) as Ra. pose proof (Z.mod_pos_bound (word0 b) (2 ^ 32) ltac:(lia)) as Rb.
  assert (0 <= word0 a / 2 ^ 32 < 2 ^ 32) as Qa by (split; [apply Z.div_pos; lia|apply Z.div_lt_upper_bound; lia]).
  assert (0 <= word0 b / 2 ^ 32 < 2 ^ 32) as Qb by (split; [apply Z.div_pos; lia|apply Z.div_lt_upper_bound; lia]).
  set (x := word0 a mod 2 ^ 32) in *. set (X := word0 a / 2 ^ 32) in *. set (y := word0 b mod 2 ^ 32) in *. set (Y := word0 b / 2 ^ 32) in *.
  assert (p = x * y + (x * Y + X * y) * 2 ^ 32 + X * Y * 2 ^ 64) as Ep by (unfold p; rewrite Ea, Eb; ring). clearbody p x X y Y. clear Ea Eb.
  assert (forall u v, 0 <= u < 2 ^ 32 -> 0 <= v < 2 ^ 32 -> 0 <= u * v <= (2 ^ 32 - 1) * (2 ^ 32 - 1)) as Hm by (intros; nia).
  pose proof (Hm x y Ra Rb) as M0. pose proof (Hm x Y Ra Qb) as M1. pose proof (Hm X y Qa Rb) as M2. pose proof (Hm X Y Qa Qb) as M3. clear Hm.
  rewrite (u64_small (x * y)), (u64_small (x * Y)), (u64_small (X * y)), (u64_small (X * Y)) by lia.
  destruct (split32 (x * y)) as [E0 B0]. destruct (split32 (X * y)) as [E2 B2].
  assert (0 <= hi_dword (x * y) < 2 ^ 32 /\ 0 <= hi_dword (X * y) < 2 ^ 32) as [C0 C2] by lia.
  set (l1 := x * Y + hi_dword (x * y) + lo_dword (X * y)).
  rewrite (u64_small (x * Y + hi_dword (x * y))) by lia. rewrite (u64_small (x * Y + hi_dword (x * y) + lo_dword (X * y))) by lia. fold l1.
  destruct (split32 l1) as [E1 B1]. assert (0 <= hi_dword l1 < 2 ^ 32) as C1 by lia.
  set (l3 := X * Y + hi_dword l1 + hi_dword (X * y)).
  assert (p = l3 * 2 ^ 64 + (lo_dword (x * y) + 2 ^ 32 * lo_dword l1)) as E3 by (unfold l3; lia).
  rewrite (u64_small (X * Y + hi_dword l1)) by lia. rewrite (u64_small (X * Y + hi_dword l1 + hi_dword (X * y))) by lia. fold l3.
  assert (0 <= l3 < 2 ^ 64) as B3 by (unfold l3; lia).
  unfold of_words. rewrite <- (Z.div_unique p (2 ^ 64) l3 (lo_dword (x * y) + 2 ^ 32 * lo_dword l1)) by lia.
  rewrite <- (Z.mod_unique p (2 ^ 64) l3 (lo_dword (x * y) + 2 ^ 32 * lo_dword l1)) by lia.
  set (v := lo_dword (x * y) + 2 ^ 32 * lo_dword l1) in *. rewrite !le_bytes_8 by lia.
  destruct (split32 v) as [Ev Bv]. assert (hi_dword v = lo_dword l1 /\ lo_dword v = lo_dword (x * y)) as [-> ->] by lia.
  by rewrite <- !app_assoc.
Qed.

(** ** Iterations *)
Lemma xor_comm s t : AES.xor s t = AES.xor t s.
Proof. revert t. induction s as [|x s IH]; intros [|y t]; [done..|]. unfold AES.xor in *. cbn [zip_with]. by rewrite IH, Z.lxor_comm. Qed.

Definition mixing (N : nat) (st : list Z * list Z * list (list Z)) : Prop :=
  let '(a, b, pad) := st in block16 a /\ block16 b /\ Forall block16 pad /\ length pad = N.

Definition flat (st : list Z * list Z * list (list Z)) : list Z * list Z * list Z := let '(a, b, pad) := st in (a, b, concat pad).

Section Mix.
Context (k : nat).
Let N := (2 ^ k)%nat.
Context (a b : list Z) (pad : list (list Z)) (st_ok : mixing N (a, b, pad)).
Let i := index N a.
Let c := AES.round (nth i pad []) a.
Let pad1 := <[i := AES.xor b c]> pad.
Let j := index N c.
Let d := nth j pad1 [].
Let p := word0 c * word0 d.
Let s := of_words ((word0 a + p / 2 ^ 64) mod 2 ^ 64) ((word1 a + p mod 2 ^ 64) mod 2 ^ 64).

Lemma mix_blocks :
  block16 a /\ block16 b /\ block16 (nth i pad []) /\ block16 c /\ block16 (AES.xor b c) /\ block16 d /\ block16 s /\
  Forall block16 pad /\ Forall block16 pad1 /\ (i < length pad)%nat /\ (j < length pad1)%nat /\ length pad1 = N.
Proof using st_ok.
  destruct st_ok as (Ha & Hb & Hp & Lp). pose proof (address_bound k a) as Hi. pose proof (address_bound k c) as Hj. fold N in Hi, Hj. fold i in Hi. fold j in Hj.
  assert (block16 (nth i pad [])) as Bi by (apply nth_block; (done || lia)).
  assert (block16 c) as Bc by (by apply round_block). assert (block16 (AES.xor b c)) as Bx by (by apply xor_block).
  assert (Forall block16 pad1) as P1 by (by apply Forall_insert). assert (length pad1 = N) as L1 by (unfold pad1; by rewrite length_insert).
  assert (block16 d) as Bd by (apply nth_block; (done || lia)). pose proof (of_words_block ((word0 a + p / 2 ^ 64) mod 2 ^ 64) ((word1 a + p mod 2 ^ 64) mod 2 ^ 64)).
  repeat (split; [first [done|lia]|]). exact L1.
Qed.

Lemma mix_mixing : mixing N (mix N (a, b, pad)).
Proof using st_ok.
  destruct mix_blocks as (Ha & Hb & Bi & Bc & Bx & Bd & Bs & Hp & P1 & Hi & Hj & L1).
  change (mix N (a, b, pad)) with (AES.xor s d, c, <[j := s]> pad1). split; [by apply xor_block|]. split; [exact Bc|]. split; [by apply Forall_insert|].
  by rewrite length_insert.
Qed.

(** The second half on words. *)
Lemma sum_spec : sum_half_blocks a (of_words (p / 2 ^ 64) (p mod 2 ^ 64)) = s.
Proof using st_ok.
  destruct mix_blocks as (Ha & Hb & Bi & Bc & Bx & Bd & Bs & _). unfold sum_half_blocks.
  destruct (words_of_words (p / 2 ^ 64) (p mod 2 ^ 64)) as [-> ->]. destruct (word_bound c Bc) as [Wc _], (word_bound d Bd) as [Wd _].
  assert (0 <= p < 2 ^ 64 * 2 ^ 64) as Hp by (unfold p; nia).
  rewrite (Z.mod_small (p / 2 ^ 64)) by (split; [apply Z.div_pos; lia|apply Z.div_lt_upper_bound; lia]). rewrite Z.mod_mod by lia. reflexivity.
Qed.

Lemma pad_at m x : Forall block16 x -> (m < length x)%nat -> block_at (concat x) (16 * m) = Ok (nth m x []).
Proof using Type. intros Hx Hm. pose proof (block_at_spec x [] m Hx Hm) as H. by rewrite app_nil_r in H. Qed.

Lemma portable_iteration ndebug : Portable.iteration ndebug (16 * N) (a, b, concat pad) = Ok (flat (mix N (a, b, pad))).
Proof using st_ok.
  destruct mix_blocks as (Ha & Hb & Bi & Bc & Bx & Bd & Bs & Hp & P1 & Hi & Hj & L1). unfold Portable.iteration.
  pose proof (e2i_spec k a Ha) as Ea. pose proof (e2i_spec k c Bc) as Ec. fold N in Ea, Ec. fold i in Ea. fold j in Ec. unfold AES_BLOCK_SIZE in *.
  rewrite Ea. rewrite (Nat.mul_comm i), pad_at by done. cbn [bind].
  rewrite aesb_single_round_spec by (rewrite ?take_ge by (destruct Ha as [_ ->]; lia); first [done|destruct Ha as [_ ->]; lia]).
  rewrite (take_ge a) by (destruct Ha as [_ ->]; lia). fold c. cbn [bind]. rewrite xor_blocks_spec by done. cbn [bind].
  rewrite swap_blocks_spec by done. rewrite put_block_spec by done. fold pad1. cbn [bind].
  rewrite c_assert_true by (by rewrite Z.eqb_refl). cbn [bind]. rewrite swap_blocks_spec by done.
  rewrite Ec. rewrite (Nat.mul_comm j), pad_at by done. fold d. cbn [bind]. rewrite portable_mul_spec by done. fold p. cbn [bind]. rewrite sum_spec.
  rewrite swap_blocks_spec by done. rewrite xor_blocks_spec by done. cbn [bind]. rewrite put_block_spec by done. cbn [bind].
  rewrite c_assert_true by (by rewrite Z.eqb_refl). cbn [bind]. rewrite swap_blocks_spec by (first [done|by apply xor_block]).
  rewrite (xor_comm d s). reflexivity.
Qed.

Lemma swap_state_spec x y m : Forall block16 y -> (m < length y)%nat -> block16 x ->
  Arm.swap_state x (concat y) (16 * m) = Ok (nth m y [], concat (<[m := x]> y)).
Proof using Type.
  intros Hy Hm Hx. unfold Arm.swap_state. rewrite pad_at by done. cbn [bind]. rewrite swap_blocks_spec by (first [done|by apply nth_block]).
  rewrite put_block_spec by done. reflexivity.
Qed.

Lemma arm_iteration : (k <= 28)%nat -> Arm.iteration (16 * N) (a, b, concat pad) = Ok (flat (mix N (a, b, pad))).
Proof using st_ok.
  intros Hk. destruct mix_blocks as (Ha & Hb & Bi & Bc & Bx & Bd & Bs & Hp & P1 & Hi & Hj & L1). unfold Arm.iteration.
  pose proof (arm_index_spec k a Hk Ha) as Ea. pose proof (arm_index_spec k c Hk Bc) as Ec. fold N in Ea, Ec. fold i in Ea. fold j in Ec.
  rewrite Ea, pad_at by done. cbn [bind].
  rewrite aesb_single_round_spec by (rewrite ?take_ge by (destruct Ha as [_ ->]; lia); first [done|destruct Ha as [_ ->]; lia]).
  rewrite (take_ge a) by (destruct Ha as [_ ->]; lia). fold c. cbn [bind]. rewrite put_block_spec by done. cbn [bind].
  assert (Forall block16 (<[i := c]> pad)) as Pc by (by apply Forall_insert). assert (i < length (<[i := c]> pad))%nat as Hic by (by rewrite length_insert).
  rewrite pad_at by done. cbn [bind]. assert (nth i (<[i := c]> pad) [] = c) as Ei by (apply nth_lookup_Some; by apply list_lookup_insert_eq).
  rewrite Ei, xor_blocks64_spec by done. rewrite swap_state_spec by done. rewrite Ei. cbn [bind]. rewrite list_insert_insert_eq. fold pad1.
  rewrite swap_blocks_spec by done. rewrite Ec, pad_at by done. fold d. cbn [bind]. rewrite arm_mul_spec by done. fold p. rewrite sum_spec.
  rewrite swap_state_spec by done. fold d. cbn [bind].
  assert (Forall block16 (<[j := s]> pad1)) as Ps by (by apply Forall_insert). assert (j < length (<[j := s]> pad1))%nat as Hjs by (by rewrite length_insert).
  rewrite pad_at by done. cbn [bind]. assert (nth j (<[j := s]> pad1) [] = s) as Ej by (apply nth_lookup_Some; by apply list_lookup_insert_eq).
  rewrite Ej, xor_blocks64_spec by done. rewrite swap_blocks_spec by (first [done|by apply xor_block]). rewrite (xor_comm d s). reflexivity.
Qed.

Lemma x86_iteration aes :
  (forall x y, block16 x -> block16 y -> aes x y = Ok (AES.round x y)) ->
  X86.iteration aes (16 * N) (word0 a, word1 a, b, concat pad) =
    Ok (let '(a, b, pad) := mix N (a, b, pad) in (word0 a, word1 a, b, concat pad)).
Proof using st_ok.
  intros Haes. destruct mix_blocks as (Ha & Hb & Bi & Bc & Bx & Bd & Bs & Hp & P1 & Hi & Hj & L1). unfold X86.iteration.
  pose proof (x86_index_spec k a Ha) as Ea. pose proof (x86_index_spec k c Bc) as Ec. fold N in Ea, Ec. fold i in Ea. fold j in Ec.
  rewrite Ea, pad_at by done. cbn [bind]. rewrite of_words_words by done. rewrite Haes by done. fold c. cbn [bind].
  change (X86.mm_xor_si128 b c) with (AES.xor b c). rewrite put_block_spec by done. fold pad1. cbn [bind]. rewrite Ec, pad_at by done. fold d. cbn [bind].
  fold p. change (u64 p) with (p mod 2 ^ 64). change (u64 (word0 a + p / 2 ^ 64)) with ((word0 a + p / 2 ^ 64) mod 2 ^ 64).
  change (u64 (word1 a + p mod 2 ^ 64)) with ((word1 a + p mod 2 ^ 64) mod 2 ^ 64). fold s. rewrite put_block_spec by done. cbn [bind].
  change (mix N (a, b, pad)) with (AES.xor s d, c, <[j := s]> pad1). cbv beta iota.
  destruct (xor_words_block s d Bs Bd) as [-> ->].
  destruct (words_of_words ((word0 a + p / 2 ^ 64) mod 2 ^ 64) ((word1 a + p mod 2 ^ 64) mod 2 ^ 64)) as [Es0 Es1]. fold s in Es0, Es1.
  rewrite Es0, Es1, !Z.mod_mod by lia. reflexivity.
Qed.
End Mix.
