(* ===== verification/SlowHashInstructions.v ===== *)
(** * The slow hash with the AES instructions

    The key schedule and the rounds of the x86-64 code. *)

From stdpp Require Import base list numbers.
From Stdlib Require Import ZArith Lia.
From S2P Require Import Prelude Bytes Streaming Rijndael Aes Oaes OaesFacts Aesb AesbFacts SlowHash SlowHashFacts.
Import CryptoNight.

(** ** The AES instructions *)
Lemma fmap_shift (f : Z -> Z) a : length a = 16%nat -> f <$> AES.shift_rows a = AES.shift_rows (f <$> a).
Proof.
  intros Hl. destruct (sixteen a Hl) as (b0 & b1 & b2 & b3 & b4 & b5 & b6 & b7 & b8 & b9 & ba & bb & bc & bd & be & bf & ->). reflexivity.
Qed.

Lemma aesenc_spec a key : length a = 16%nat -> X86.mm_aesenc_si128 a key = AES.round a key.
Proof. intros Hl. unfold X86.mm_aesenc_si128, AES.round. unfold AES.sub_bytes. by rewrite fmap_shift. Qed.

(** Four words from the four before them, where [g] goes into the first. *)
Definition next4 (a0 a1 a2 a3 g : list Z) : list (list Z) :=
  let n0 := AES.xor a0 g in
  let n1 := AES.xor a1 n0 in
  let n2 := AES.xor a2 n1 in
  let n3 := AES.xor a3 n2 in
  [n0; n1; n2; n3].

Ltac four_bytes := match goal with H : word ?t |- _ =>
  let t0 := fresh "x" in let t1 := fresh "x" in let t2 := fresh "x" in let t3 := fresh "x" in
  destruct (word_inv t H) as (t0 & t1 & t2 & t3 & -> & _); clear H end.

Lemma shift_xor a0 a1 a2 a3 g : word a0 -> word a1 -> word a2 -> word a3 -> word g ->
  let t := concat [a0; a1; a2; a3] in
  let t4 := X86.mm_slli_si128 t 4 in
  let t5 := X86.mm_slli_si128 t4 4 in
  let t6 := X86.mm_slli_si128 t5 4 in
  X86.mm_xor_si128 (X86.mm_xor_si128 (X86.mm_xor_si128 (X86.mm_xor_si128 t t4) t5) t6) (g ++ g ++ g ++ g) = concat (next4 a0 a1 a2 a3 g).
Proof.
  intros H0 H1 H2 H3 Hg. do 5 four_bytes. unfold next4, AES.xor, X86.mm_xor_si128, X86.mm_slli_si128.
  cbn [concat app take drop replicate zip_with Nat.sub]. by rewrite !Z.lxor_0_r, !Z.lxor_assoc.
Qed.

Lemma dword_spec b0 b1 b2 b3 : word b0 -> word b1 -> word b2 -> word b3 ->
  X86.dword (concat [b0; b1; b2; b3]) 1 = b1 /\ X86.dword (concat [b0; b1; b2; b3]) 3 = b3.
Proof. intros H0 H1 H2 H3. do 4 four_bytes. split; reflexivity. Qed.

Lemma shuffle_spec b0 b1 b2 b3 : word b0 -> word b1 -> word b2 -> word b3 ->
  X86.mm_shuffle_epi32 (b0 ++ b1 ++ b2 ++ b3) 0xff = b3 ++ b3 ++ b3 ++ b3 /\
  X86.mm_shuffle_epi32 (b0 ++ b1 ++ b2 ++ b3) 0xaa = b2 ++ b2 ++ b2 ++ b2.
Proof. intros H0 H1 H2 H3. do 4 four_bytes. split; reflexivity. Qed.

Lemma rot_word_ok b : word b -> word (X86.RotWord b).
Proof.
  intros H. destruct (word_inv b H) as (x0 & x1 & x2 & x3 & -> & Hb). do 4 (apply Forall_cons_1 in Hb as [? Hb]). split; [byte_list|reflexivity].
Qed.

Lemma rcon_word rcon : is_byte rcon -> word [rcon; 0; 0; 0].
Proof. intros Hr. split; [byte_list; unfold is_byte; lia|reflexivity]. Qed.

Lemma sub_rot b : word b -> X86.RotWord (sbox <$> b) = AES.sub_bytes (drop 1 b ++ take 1 b).
Proof. intros H. destruct (word_inv b H) as (x0 & x1 & x2 & x3 & -> & _). reflexivity. Qed.

Lemma assist1_spec a0 a1 a2 a3 b0 b1 b2 b3 rcon :
  word a0 -> word a1 -> word a2 -> word a3 -> word b0 -> word b1 -> word b2 -> word b3 -> is_byte rcon ->
  fst (X86.aes_256_assist1 (concat [a0; a1; a2; a3]) (X86.mm_aeskeygenassist_si128 (concat [b0; b1; b2; b3]) rcon)) =
  concat (next4 a0 a1 a2 a3 (AES.xor (AES.sub_bytes (drop 1 b3 ++ take 1 b3)) [rcon; 0; 0; 0])).
Proof.
  intros H0 H1 H2 H3 G0 G1 G2 G3 Hr. unfold X86.mm_aeskeygenassist_si128.
  destruct (dword_spec b0 b1 b2 b3 G0 G1 G2 G3) as [-> ->].
  assert (forall b, word b -> word (sbox <$> b)) as Hs by (intros b Hb; by apply sub_word).
  assert (forall b, word b -> word (zip_with Z.lxor (X86.RotWord (sbox <$> b)) [rcon; 0; 0; 0])) as Hx.
  { intros b Hb. apply (xor_word (X86.RotWord (sbox <$> b))); [by apply rot_word_ok, Hs|by apply rcon_word]. }
  unfold X86.aes_256_assist1. destruct (shuffle_spec _ _ _ _ (Hs b1 G1) (Hx b1 G1) (Hs b3 G3) (Hx b3 G3)) as [-> _]. cbn [fst].
  rewrite <- (sub_rot b3 G3). rewrite <- shift_xor by (done || by apply Hx). reflexivity.
Qed.

Lemma assist2_spec n0 n1 n2 n3 b0 b1 b2 b3 :
  word n0 -> word n1 -> word n2 -> word n3 -> word b0 -> word b1 -> word b2 -> word b3 ->
  X86.aes_256_assist2 (concat [n0; n1; n2; n3]) (concat [b0; b1; b2; b3]) = concat (next4 b0 b1 b2 b3 (AES.sub_bytes n3)).
Proof.
  intros H0 H1 H2 H3 G0 G1 G2 G3. unfold X86.aes_256_assist2, X86.mm_aeskeygenassist_si128.
  destruct (dword_spec n0 n1 n2 n3 H0 H1 H2 H3) as [-> ->].
  assert (forall b, word b -> word (sbox <$> b)) as Hs by (intros b Hb; by apply sub_word).
  assert (forall b, word b -> word (zip_with Z.lxor (X86.RotWord (sbox <$> b)) [0; 0; 0; 0])) as Hx.
  { intros b Hb. apply (xor_word (X86.RotWord (sbox <$> b))); [by apply rot_word_ok, Hs|by apply rcon_word]. }
  destruct (shuffle_spec _ _ _ _ (Hs n1 H1) (Hx n1 H1) (Hs n3 H3) (Hx n3 H3)) as [_ ->].
  rewrite <- shift_xor by (done || by apply sub_word). reflexivity.
Qed.

(** *** The words of the expansion *)
Lemma expand_rec key n i :
  key_ok key -> (n <= 3 * (length key / 4) + 28)%nat -> let Nk := (length key / 4)%nat in
  (Nk <= i < Nk + n)%nat ->
  let w := expand_n key n in nth i w [] = AES.xor (nth (i - Nk) w []) (key_word Nk i (nth (i - 1) w [])).
Proof.
  intros Hk. induction n as [|n IH]; intros Hn Nk Hi; [lia|]. cbv zeta. destruct (expand_loop key n Hk ltac:(lia)) as (_ & _ & L). fold Nk in L.
  destruct (key_base_ok key Hk) as [HN _]. fold Nk in HN. assert (4 <= Nk)%nat as HN4 by (destruct HN as [->|[->| ->]]; lia).
  change (expand_n key (S n)) with (expand_n key n ++ [AES.next_word Nk (expand_n key n)]).
  rewrite (app_nth1 _ _ _ (n := i - Nk)), (app_nth1 _ _ _ (n := i - 1)) by lia.
  destruct (decide (i < Nk + n)%nat) as [Hlt|Hge].
  - rewrite app_nth1 by lia. apply IH; lia.
  - replace i with (Nk + n)%nat by lia. rewrite app_nth2, L, Nat.sub_diag by lia. cbn [nth]. unfold AES.next_word, key_word. by rewrite L.
Qed.

Section Schedule.
Context (key : list Z) (key_valid : key_ok key) (key_32 : length key = 32%nat).
Let w := AES.expand key.
Let at_ n := nth n w [].

Lemma schedule_words : Forall word w /\ length w = 60%nat.
Proof using key_valid key_32. destruct (expand_words key key_valid) as [W L]. unfold w. rewrite L, key_32. done. Qed.

Lemma at_word n : (n < 60)%nat -> word (at_ n).
Proof using key_valid key_32. intros Hn. destruct schedule_words as [W L]. apply nth_word; [done|lia]. Qed.

Lemma at_rec i : (8 <= i < 60)%nat -> at_ i = AES.xor (at_ (i - 8)) (key_word 8 i (at_ (i - 1))).
Proof using key_valid key_32.
  intros Hi. pose proof (expand_rec key 52 i key_valid) as H. rewrite key_32 in H. change (32 / 4)%nat with 8%nat in H. specialize (H ltac:(lia) ltac:(lia)).
  assert (w = expand_n key 52) as E by (unfold w, AES.expand, expand_n; rewrite key_32; reflexivity). unfold at_. rewrite E. exact H.
Qed.

Lemma round_key_words n : (4 * n + 4 <= 60)%nat -> AES.round_key w n = concat [at_ (4 * n); at_ (4 * n + 1); at_ (4 * n + 2); at_ (4 * n + 3)].
Proof using key_valid key_32.
  intros Hn. destruct schedule_words as [_ L]. unfold AES.round_key. f_equal. unfold at_.
  assert (forall m, (m < 60)%nat -> drop m w = nth m w [] :: drop (S m) w) as Hd.
  { intros m Hm. destruct (lookup_lt_is_Some_2 w m) as [x Hx]; [lia|]. by rewrite (drop_S _ _ _ Hx), (nth_lookup_Some _ _ _ _ Hx). }
  rewrite (Hd (4 * n)%nat), (Hd (S (4 * n))), (Hd (S (S (4 * n)))), (Hd (S (S (S (4 * n))))) by lia. cbn [take]. rewrite take_0.
  repeat f_equal; lia.
Qed.

Lemma round_key_next4 n g : (2 <= n)%nat -> (4 * n + 4 <= 60)%nat ->
  key_word 8 (4 * n) (at_ (4 * n - 1)) = g ->
  (forall t, key_word 8 (4 * n + 1) t = t) -> (forall t, key_word 8 (4 * n + 2) t = t) -> (forall t, key_word 8 (4 * n + 3) t = t) ->
  AES.round_key w n = concat (next4 (at_ (4 * (n - 2))) (at_ (4 * (n - 2) + 1)) (at_ (4 * (n - 2) + 2)) (at_ (4 * (n - 2) + 3)) g).
Proof using key_valid key_32.
  intros Hn Hm Hg H1 H2 H3. rewrite round_key_words by lia. f_equal.
  assert (at_ (4 * n) = AES.xor (at_ (4 * (n - 2))) g) as E0.
  { rewrite at_rec, Hg by lia. do 2 f_equal. lia. }
  assert (at_ (4 * n + 1) = AES.xor (at_ (4 * (n - 2) + 1)) (at_ (4 * n))) as E1.
  { rewrite (at_rec (4 * n + 1)), H1 by lia. f_equal; f_equal; lia. }
  assert (at_ (4 * n + 2) = AES.xor (at_ (4 * (n - 2) + 2)) (at_ (4 * n + 1))) as E2.
  { rewrite (at_rec (4 * n + 2)), H2 by lia. f_equal; f_equal; lia. }
  assert (at_ (4 * n + 3) = AES.xor (at_ (4 * (n - 2) + 3)) (at_ (4 * n + 2))) as E3.
  { rewrite (at_rec (4 * n + 3)), H3 by lia. f_equal; f_equal; lia. }
  unfold next4. rewrite <- E0, <- E1, <- E2, <- E3. reflexivity.
Qed.

Lemma expand_even_spec rcon n (ek0 A : list Z) :
  In (n, rcon) [(2%nat, 0x01); (4%nat, 0x02); (6%nat, 0x04); (8%nat, 0x08); (10%nat, 0x10)] -> length A = (16 * n)%nat -> (176 <= length ek0)%nat ->
  X86.expand_even rcon n (AES.round_key w (n - 2)) (AES.round_key w (n - 1)) (A ++ drop (16 * n) ek0) =
  Ok (AES.round_key w n, (A ++ AES.round_key w n) ++ drop (16 * S n) ek0).
Proof using key_valid key_32.
  intros Hin LA Le. assert (2 <= n <= 10)%nat as Hn by (cbn [In] in Hin; naive_solver lia).
  assert (block16 (AES.round_key w n)) as [_ Lk] by (destruct schedule_words as [W L]; apply round_key_spec; [done|lia]).
  assert (fst (X86.aes_256_assist1 (AES.round_key w (n - 2)) (X86.mm_aeskeygenassist_si128 (AES.round_key w (n - 1)) rcon)) = AES.round_key w n) as E.
  { rewrite (round_key_words (n - 2)), (round_key_words (n - 1)) by lia.
    rewrite assist1_spec; [|apply at_word; lia..|cbn [In] in Hin; unfold is_byte; naive_solver lia]. symmetry.
    apply round_key_next4; [lia|lia|..]; cbn [In] in Hin; destruct Hin as [[= <- <-]|[[= <- <-]|[[= <- <-]|[[= <- <-]|[[= <- <-]|[]]]]]]; reflexivity. }
  unfold X86.expand_even. destruct (X86.aes_256_assist1 _ _) as [t1 t2]. cbn [fst] in E. subst t1. unfold put_block, AES_BLOCK_SIZE.
  rewrite memcpy_at by (rewrite ?length_drop; lia). cbn [bind]. rewrite take_ge, drop_drop, <- app_assoc by lia.
  by replace (16 * S n)%nat with (16 * n + 16)%nat by lia.
Qed.

Lemma expand_odd_spec n (ek0 A : list Z) :
  In n [3; 5; 7; 9]%nat -> length A = (16 * n)%nat -> (176 <= length ek0)%nat ->
  X86.expand_odd n (AES.round_key w (n - 1)) (AES.round_key w (n - 2)) (A ++ drop (16 * n) ek0) =
  Ok (AES.round_key w n, (A ++ AES.round_key w n) ++ drop (16 * S n) ek0).
Proof using key_valid key_32.
  intros Hin LA Le. assert (3 <= n <= 9)%nat as Hn by (cbn [In] in Hin; naive_solver lia).
  assert (block16 (AES.round_key w n)) as [_ Lk] by (destruct schedule_words as [W L]; apply round_key_spec; [done|lia]).
  assert (X86.aes_256_assist2 (AES.round_key w (n - 1)) (AES.round_key w (n - 2)) = AES.round_key w n) as E.
  { rewrite (round_key_words (n - 2)), (round_key_words (n - 1)) by lia. rewrite assist2_spec by (apply at_word; lia). symmetry.
    apply round_key_next4; [lia|lia|..]; cbn [In] in Hin; destruct Hin as [<-|[<-|[<-|[<-|[]]]]]; reflexivity. }
  unfold X86.expand_odd. rewrite E. unfold put_block, AES_BLOCK_SIZE.
  rewrite memcpy_at by (rewrite ?length_drop; lia). cbn [bind]. rewrite take_ge, drop_drop, <- app_assoc by lia.
  by replace (16 * S n)%nat with (16 * n + 16)%nat by lia.
Qed.
End Schedule.

(** The expansion starts with the key. *)
Lemma expand_prefix key : key_ok key -> length key = 32%nat -> take 32 (concat (AES.expand key)) = key.
Proof.
  intros Hk Hl. destruct (expand_words key Hk) as [W _]. change 32%nat with (4 * 8)%nat. rewrite concat_take by done.
  destruct (words_spec key 8 (proj1 Hk) Hl) as (Ew & _ & Lw).
  assert (forall n, take 8 (expand_n key n) = AES.words key) as H.
  { induction n as [|n IH]; [change (expand_n key 0) with (AES.words key); apply take_ge; lia|].
    change (expand_n key (S n)) with (expand_n key n ++ [AES.next_word (length key / 4) (expand_n key n)]).
    rewrite take_app_le; [exact IH|]. assert (length (take 8 (expand_n key n)) = 8%nat) as L by (rewrite IH; exact Lw). rewrite length_take in L. lia. }
  rewrite <- Ew at 2. rewrite <- (H 52%nat). unfold AES.expand, expand_n. by rewrite Hl.
Qed.

Definition schedule (key : list Z) : list (list Z) := AES.round_key (AES.expand key) <$> seq 0 11.

Lemma schedule_blocks key : key_ok key -> length key = 32%nat -> Forall block16 (schedule key).
Proof.
  intros Hk Hl. destruct (expand_words key Hk) as [W L]. rewrite Hl in L. change (4 * (32 / 4 + 7))%nat with 60%nat in L.
  apply Forall_fmap, Forall_forall. intros n Hn%in_seq. apply round_key_spec; [done|lia].
Qed.

Lemma aes_expand_key_spec key rest ek0 :
  key_ok key -> length key = 32%nat -> (176 <= length ek0)%nat ->
  X86.aes_expand_key (key ++ rest) ek0 = Ok (concat (schedule key) ++ drop 176 ek0).
Proof.
  intros Hk Hl He. destruct (expand_words key Hk) as [W L]. rewrite Hl in L. change (4 * (32 / 4 + 7))%nat with 60%nat in L.
  assert (forall n, (n < 15)%nat -> block16 (AES.round_key (AES.expand key) n)) as Hb by (intros n Hn; apply round_key_spec; [done|lia]).
  destruct (round_key_spec (AES.expand key) 0 W ltac:(lia)) as [E0 _]. destruct (round_key_spec (AES.expand key) 1 W ltac:(lia)) as [E1 _].
  pose proof (expand_prefix key Hk Hl) as Ep.
  assert (take 16 key = AES.round_key (AES.expand key) 0) as K0.
  { rewrite <- E0, <- Ep at 1. rewrite firstn_firstn. by rewrite drop_0. }
  assert (take 16 (drop 16 key) = AES.round_key (AES.expand key) 1) as K1.
  { rewrite <- E1, <- Ep at 1. change 32%nat with (16 + 16)%nat. rewrite skipn_firstn_comm, firstn_firstn. reflexivity. }
  unfold X86.aes_expand_key, block_at. rewrite !decide_True by (rewrite length_app; lia). cbn [bind].
  rewrite drop_0, take_app_le by lia. rewrite drop_app_le, take_app_le by (rewrite ?length_drop; lia). rewrite K0, K1.
  set (k := AES.round_key (AES.expand key)) in *.
  assert (forall n, (n < 15)%nat -> length (k n) = 16%nat) as Lk by (intros n Hn; by apply Hb).
  unfold put_block, AES_BLOCK_SIZE. rewrite (memcpy_at [] ek0) by (rewrite ?Lk by lia; first [reflexivity|lia]). cbn [bind app].
  rewrite (take_ge (k 0%nat)) by (rewrite Lk; lia). rewrite memcpy_at by (rewrite ?length_drop, ?Lk by lia; lia). cbn [bind].
  rewrite (take_ge (k 1%nat)), drop_drop by (rewrite Lk; lia). rewrite app_assoc. change (16 + 16)%nat with (16 * 2)%nat.
  rewrite (expand_even_spec key Hk Hl 0x01 2) by (rewrite ?length_app, ?Lk by lia; cbn [In]; first [tauto|lia]). fold k. cbn [bind].
  rewrite (expand_odd_spec key Hk Hl 3) by (rewrite ?length_app, ?Lk by lia; cbn [In]; first [tauto|lia]). fold k. cbn [bind].
  rewrite (expand_even_spec key Hk Hl 0x02 4) by (rewrite ?length_app, ?Lk by lia; cbn [In]; first [tauto|lia]). fold k. cbn [bind].
  rewrite (expand_odd_spec key Hk Hl 5) by (rewrite ?length_app, ?Lk by lia; cbn [In]; first [tauto|lia]). fold k. cbn [bind].
  rewrite (expand_even_spec key Hk Hl 0x04 6) by (rewrite ?length_app, ?Lk by lia; cbn [In]; first [tauto|lia]). fold k. cbn [bind].
  rewrite (expand_odd_spec key Hk Hl 7) by (rewrite ?length_app, ?Lk by lia; cbn [In]; first [tauto|lia]). fold k. cbn [bind].
  rewrite (expand_even_spec key Hk Hl 0x08 8) by (rewrite ?length_app, ?Lk by lia; cbn [In]; first [tauto|lia]). fold k. cbn [bind].
  rewrite (expand_odd_spec key Hk Hl 9) by (rewrite ?length_app, ?Lk by lia; cbn [In]; first [tauto|lia]). fold k. cbn [bind].
  rewrite (expand_even_spec key Hk Hl 0x10 10) by (rewrite ?length_app, ?Lk by lia; cbn [In]; first [tauto|lia]). fold k. cbn [bind].
  unfold schedule. fold k. cbn [seq fmap list_fmap concat]. rewrite app_nil_r. by rewrite <- !app_assoc.
Qed.

Section Instructions.
Context (key : list Z) (key_valid : key_ok key) (key_32 : length key = 32%nat) (tail : list Z).
Let ek := concat (schedule key) ++ tail.

Lemma keys_blocks : Forall block16 (keys key).
Proof using key_valid key_32.
  exact (Forall_take block16 10 _ (schedule_blocks key key_valid key_32)).
Qed.

Lemma aesenc10_spec d : block16 d -> X86.aesenc10 ek d = Ok (cipher10 (keys key) d) /\ block16 (cipher10 (keys key) d).
Proof using key_valid key_32.
  intros Hd. split; [|apply cipher10_block; [exact keys_blocks|done]].
  pose proof (schedule_blocks key key_valid key_32) as Hs. unfold X86.aesenc10, ek, cipher10, keys.
  rewrite <- (foldl_keys AES.round (AES.round_key (AES.expand key))).
  apply (for_foldl 10 _ (fun s i => AES.round s (AES.round_key (AES.expand key) i)) block16); [done|]. intros i a Hi Ha.
  rewrite block_at_spec by (first [done|unfold schedule; rewrite length_fmap, length_seq; lia]). cbn [bind].
  assert (nth i (schedule key) [] = AES.round_key (AES.expand key) i) as ->.
  { apply nth_lookup_Some. unfold schedule. rewrite list_lookup_fmap, lookup_seq_lt by lia. done. }
  rewrite aesenc_spec by apply Ha. split; [done|]. apply round_block; [done|].
  rewrite List.Forall_forall in Hs. apply Hs. apply (in_map (AES.round_key (AES.expand key)) (seq 0 11)). apply in_seq. lia.
Qed.

Lemma aes_pseudo_round_spec ts : Forall block16 ts -> length ts = 8%nat ->
  X86.aes_pseudo_round (concat ts) ek INIT_SIZE_BLK = Ok (concat (cipher10 (keys key) <$> ts)) /\ Forall block16 (cipher10 (keys key) <$> ts).
Proof using key_valid key_32.
  intros Ht Hl. unfold X86.aes_pseudo_round. rewrite <- imap_fmap. apply blocks_loop; [done|done|].
  intros j x us Hj Hx Bx Hu Lu. unfold AES_BLOCK_SIZE. rewrite (Nat.mul_comm j), (at_spec _ _ _ Hx Hu). cbn [bind].
  destruct (aesenc10_spec x Bx) as [-> B]. cbn [bind]. split; [by eapply put_at_spec|done].
Qed.

Lemma aes_pseudo_round_xor_spec pad ts n :
  Forall block16 ts -> length ts = 8%nat -> Forall block16 pad -> (8 * n + 8 <= length pad)%nat ->
  let g := imap (fun j b => cipher10 (keys key) (AES.xor b (nth (8 * n + j) pad []))) ts in
  X86.aes_pseudo_round_xor (concat ts) ek (concat pad) (n * INIT_SIZE_BYTE) INIT_SIZE_BLK = Ok (concat g) /\ Forall block16 g.
Proof using key_valid key_32.
  intros Ht Hl Hp Lp g. unfold X86.aes_pseudo_round_xor. apply blocks_loop; [done|done|].
  intros j x us Hj Hx Bx Hu Lu. unfold INIT_SIZE_BYTE, INIT_SIZE_BLK, AES_BLOCK_SIZE in *. rewrite (Nat.mul_comm j), (at_spec _ _ _ Hx Hu). cbn [bind].
  replace (n * (8 * 16) + 16 * j)%nat with (16 * (8 * n + j))%nat by lia.
  destruct (lookup_lt_is_Some_2 pad (8 * n + j)) as [p Hpj]; [lia|]. rewrite (at_spec _ _ _ Hpj Hp), (nth_lookup_Some _ _ _ _ Hpj). cbn [bind].
  pose proof (Forall_lookup_1 _ _ _ _ Hp Hpj) as Bp. pose proof (xor_block _ _ Bx Bp) as Bxp. change (X86.mm_xor_si128 x p) with (AES.xor x p).
  destruct (aesenc10_spec (AES.xor x p) Bxp) as [-> B]. cbn [bind]. split; [by eapply put_at_spec|done].
Qed.

Lemma x86_drain pad ts n :
  Forall block16 ts -> length ts = 8%nat -> Forall block16 pad -> (8 * n <= length pad)%nat ->
  for_ n (fun i text => X86.aes_pseudo_round_xor text ek (concat pad) (i * INIT_SIZE_BYTE) INIT_SIZE_BLK) 0 (concat ts) =
    Ok (concat (implode (keys key) pad ts n)) /\
  Forall block16 (implode (keys key) pad ts n) /\ length (implode (keys key) pad ts n) = 8%nat.
Proof using key_valid key_32.
  intros Ht Hl Hp. induction n as [|n IH]; intros Hn; [done|]. destruct IH as (E & B & L); [lia|]. rewrite for_snoc, E. cbn [bind Nat.add].
  unfold implode. rewrite seq_S, foldl_app. cbn [foldl Nat.add]. fold (implode (keys key) pad ts n). rewrite length_imap, L.
  destruct (aes_pseudo_round_xor_spec pad (implode (keys key) pad ts n) n B L Hp ltac:(lia)) as [E1 B1]. done.
Qed.
End Instructions.
