(* ===== verification/SlowHashWhole.v ===== *)
(** * The slow hash as a whole

    The state, the key schedules and the end of the hash, and the three
    implementations from start to end. *)

From stdpp Require Import base list numbers.
From Stdlib Require Import ZArith Lia.
From S2P Require Import Prelude Bytes Streaming Keccak KeccakFacts Blake256 Blake256Facts Groestl GroestlFacts Jh JhPermutation JhFacts Skein SkeinBlock SkeinFacts Rijndael Aes Oaes OaesFacts Aesb AesbFacts SlowHash SlowHashFacts SlowHashInstructions Random.
Import CryptoNight.

(** ** The end *)
Definition extra_ok (e : extra_locals) : Prop :=
  (bytes (blake_buf e) /\ length (blake_buf e) = 64%nat) /\ (length (groestl_zero e) = 16%nat /\ state_ok (groestl_buffer e)) /\
  (bytes (jh_buffer e) /\ length (jh_buffer e) = 64%nat) /\ length (ctx_b (skein_u e)) = 64%nat.

Lemma extra_hashes_spec ndebug e s : extra_ok e -> bytes s -> length s = 200%nat ->
  (let! b := get s 0 in extra_hashes ndebug e (Z.land b 3) s) = Ok (select s).
Proof.
  intros ((B1 & B2) & (G1 & G2) & (J1 & J2) & S1) Hb Hl. destruct (lookup_lt_is_Some_2 s 0) as [b E0]; [lia|].
  rewrite (get_ok _ _ _ E0). cbn [bind]. unfold select. rewrite (nth_lookup_Some _ _ _ _ E0).
  assert (0 <= Z.land b 3 < 4) as Hr by (change 3 with (Z.ones 2); rewrite Z.land_ones by lia; apply Z.mod_pos_bound; lia).
  assert (Z.land b 3 = 0 \/ Z.land b 3 = 1 \/ Z.land b 3 = 2 \/ Z.land b 3 = 3) as Hc by lia. unfold extra_hashes.
  assert (200 = Z.of_nat (length s)) as L200 by lia. rewrite L200.
  destruct Hc as [-> |[-> |[-> | ->]]]; cbn [Z.eqb Z.to_nat Pos.eqb Pos.to_nat Pos.iter_op Nat.add].
  - by apply blake256_hash_spec; (done || lia).
  - unfold hash_extra_groestl. rewrite u64_small, Z.mul_comm by lia. apply groestl_spec; (done || lia).
  - unfold hash_extra_jh. rewrite u64_small by lia. change (32 * 8) with 256. rewrite (jh_hash_spec _ _ 256) by (first [done|lia|right; left; reflexivity]).
    cbn [bind]. rewrite c_assert_true by reflexivity. reflexivity.
  - unfold hash_extra_skein. rewrite u64_small by lia. change (8 * 32) with 256. rewrite (skein_hash_spec _ 256) by (first [done|lia]).
    cbn [bind]. rewrite c_assert_true by reflexivity. reflexivity.
Qed.

Lemma slow_finish ndebug e s ts : extra_ok e -> length s = 200%nat -> Forall block16 ts -> length ts = 8%nat ->
  finish ndebug e s (concat ts) = Ok (select (state_bytes (Spec.permutation 24 (words25 (take 64 s ++ concat ts ++ drop 192 s))))).
Proof.
  intros He Hl Ht Lt. pose proof (sized_length 16 _ (block16_sized _ Ht)) as Lc. unfold finish, INIT_SIZE_BYTE, INIT_SIZE_BLK, AES_BLOCK_SIZE.
  rewrite memcpy_ok by lia. rewrite (take_ge (concat ts)) by lia. change (64 + 8 * 16)%nat with 192%nat. cbn [bind].
  rewrite hash_permutation_spec by reflexivity. cbn [bind]. fold (words25 (take 64 s ++ concat ts ++ drop 192 s)).
  destruct (state_bytes_bytes (next (words25 (take 64 s ++ concat ts ++ drop 192 s)))) as [Sb Sl]. rewrite next_length in Sl by reflexivity.
  by apply extra_hashes_spec.
Qed.

(** ** The key schedule of the library *)
Lemma oaes_alloc_spec rand : (16 <= length rand)%nat -> exists c, oaes_alloc true rand = Ok (Some c).
Proof.
  intros Hr. unfold oaes_alloc, oaes_set_option. cbn [Z.eqb OAES_OPTION_CBC OAES_OPTION_ECB Pos.eqb].
  rewrite (for_update _ _ (fun i _ => u8 (nth i rand 0))).
  - cbn [bind]. by eexists.
  - cbn. unfold OAES_BLOCK_SIZE. lia.
  - intros i x a Hi Hx Ha La. unfold OAES_BLOCK_SIZE in Hi. destruct (lookup_lt_is_Some_2 rand i) as [r Er]; [lia|].
    rewrite (get_ok _ _ _ Er), (nth_lookup_Some _ _ _ _ Er). cbn [bind]. apply set_ok. by eapply lookup_lt_Some.
Qed.

Lemma import_key_spec c key rest : key_ok key -> length key = 32%nat ->
  exists c', import_key no_fault (Some c) (key ++ rest) = Ok (Some c') /\ ctx_exp_key (Some c') = Ok (expanded_key key).
Proof.
  intros Hk Hl. unfold import_key, oaes_key_import_data. change (key_size_ok (Z.of_nat AES_KEY_SIZE)) with true. cbv iota.
  replace (Z.of_nat AES_KEY_SIZE) with (Z.of_nat (length key)) by (rewrite Hl; reflexivity). rewrite install_key_spec by done. cbn [bind]. by eexists.
Qed.

Lemma keys10_expand key tail : key_ok key -> length key = 32%nat -> keys10 (concat (AES.expand key) ++ tail) = keys key.
Proof.
  intros Hk Hl. unfold keys10, keys. apply list_fmap_ext. intros i x Hx. apply lookup_seq in Hx as [-> Hi]. cbn [Nat.add].
  destruct (round_keys key i Hk) as (E & _ & L); [unfold Nr, AES.rounds; rewrite Hl; change (32 / 4)%nat with 8%nat; lia|].
  rewrite drop_app_le, take_app_le by (rewrite ?length_drop; lia). exact E.
Qed.

Lemma expand_buffer key : key_ok key -> length key = 32%nat -> bytes (concat (AES.expand key)) /\ length (concat (AES.expand key)) = 240%nat.
Proof.
  intros Hk Hl. destruct (expand_words key Hk) as [W L]. split; [by apply concat_bytes|]. rewrite concat_length, L, Hl by done. reflexivity.
Qed.

(** ** The state after the first step *)
Section State.
Context (data : list Z).
Let s := Sponge.hash 136 200 data.

Lemma state_ok200 : bytes s /\ length s = 200%nat.
Proof using Type. apply hash_bytes; lia. Qed.

Lemma hash_process_spec : hash_process data = Ok s.
Proof using Type.
  unfold hash_process, keccak1600. rewrite keccak_ok; [reflexivity|by right|]. change (rate 200) with 136%nat.
  pose proof (Nat.Div0.div_le_upper_bound (length data) 136 (length data)). lia.
Qed.

Lemma key_ok32 o : (o + 32 <= 200)%nat -> key_ok (take 32 (drop o s)) /\ length (take 32 (drop o s)) = 32%nat.
Proof using Type.
  intros Ho. destruct state_ok200 as [Hb Hl]. assert (length (take 32 (drop o s)) = 32%nat) as L by (rewrite length_take, length_drop; lia).
  split; [|exact L]. split; [by apply Forall_take, Forall_drop|]. rewrite L. tauto.
Qed.

Lemma state_block16 o : (o + 16 <= 200)%nat -> block16 (take 16 (drop o s)).
Proof using Type.
  intros Ho. destruct state_ok200 as [Hb Hl]. split; [by apply Forall_take, Forall_drop|]. rewrite length_take, length_drop. lia.
Qed.

Lemma blocks8_spec : Forall block16 (blocks8 (drop 64 s)) /\ length (blocks8 (drop 64 s)) = 8%nat /\
  concat (blocks8 (drop 64 s)) = take 128 (drop 64 s).
Proof using Type.
  split; [|split; [reflexivity|exact (sized_blocks 16 (drop 64 s) 8)]].
  apply Forall_fmap, Forall_forall. intros i Hi%in_seq. cbn [compose]. rewrite drop_drop. apply state_block16. lia.
Qed.

Lemma text_spec t : length t = 128%nat -> memcpy t 0 (drop 64 s) INIT_SIZE_BYTE = Ok (concat (blocks8 (drop 64 s))).
Proof using Type.
  intros Ht. destruct state_ok200 as [_ Hl]. destruct blocks8_spec as (_ & _ & ->). unfold INIT_SIZE_BYTE, INIT_SIZE_BLK, AES_BLOCK_SIZE. change (8 * 16)%nat with 128%nat.
  rewrite memcpy_ok by (rewrite ?length_drop; lia). rewrite take_0, (drop_ge t), app_nil_r by lia. done.
Qed.

Lemma key_block64_spec o : (o + 48 <= 200)%nat -> key_block64 s o = Ok (AES.xor (take 16 (drop o s)) (take 16 (drop (o + 32) s))).
Proof using Type.
  intros Ho. destruct state_ok200 as [_ Hl]. unfold key_block64, block_at. rewrite !decide_True by lia. cbn [bind].
  rewrite xor_blocks64_spec by (apply state_block16; lia). done.
Qed.

Lemma key_block_spec o a : (o + 48 <= 200)%nat -> length a = 16%nat ->
  Portable.key_block s o a = Ok (AES.xor (take 16 (drop o s)) (take 16 (drop (o + 32) s))).
Proof using Type.
  intros Ho Ha. destruct state_ok200 as [_ Hl]. unfold Portable.key_block.
  rewrite (for_update _ _ (fun i _ => Z.lxor (nth (o + i) s 0) (nth (o + 32 + i) s 0))); [|lia|].
  - f_equal. rewrite <- Ha at 1. rewrite update_first_all. apply list_eq. intros i. unfold AES.xor. rewrite list_lookup_imap, lookup_zip_with.
    destruct (decide (i < 16)%nat) as [Hi|Hi].
    + destruct (lookup_lt_is_Some_2 a i) as [x ->]; [lia|]. rewrite !lookup_take_lt, !lookup_drop by lia. cbn [fmap option_fmap option_map].
      destruct (lookup_lt_is_Some_2 s (o + i)) as [y Ey]; [lia|]. destruct (lookup_lt_is_Some_2 s (o + 32 + i)) as [z Ez]; [lia|].
      rewrite Ey, Ez, (nth_lookup_Some _ _ _ _ Ey), (nth_lookup_Some _ _ _ _ Ez). done.
    + rewrite (lookup_ge_None_2 a) by lia. by rewrite !lookup_take_ge by lia.
  - intros i x l Hi Hx Hlx Ll. destruct (lookup_lt_is_Some_2 s (o + i)) as [y Ey]; [lia|]. destruct (lookup_lt_is_Some_2 s (o + 32 + i)) as [z Ez]; [lia|].
    rewrite (get_ok _ _ _ Ey), (get_ok _ _ _ Ez), (nth_lookup_Some _ _ _ _ Ey), (nth_lookup_Some _ _ _ _ Ez). cbn [bind]. apply set_ok. lia.
Qed.
End State.

(** ** The whole hash *)
Definition env_ok (env : aes_env) : Prop :=
  mem_ctx env = true /\ mem_key1 env = no_fault /\ mem_key2 env = no_fault /\ (16 <= length (rand_results env))%nat.

Lemma copy_key_spec c key buf : key_ok key -> length key = 32%nat -> ctx_exp_key (Some c) = Ok (expanded_key key) -> (240 <= length buf)%nat ->
  Arm.copy_key buf (Some c) = Ok (concat (AES.expand key) ++ drop 240 buf).
Proof.
  intros Hk Hl Ex Hb. destruct (expand_buffer key Hk Hl) as [_ Le]. unfold Arm.copy_key. rewrite Ex. cbn [bind expanded_key exp_data exp_data_len].
  rewrite Hl. change (Z.to_nat (Z.of_nat (16 * (32 / 4 + 7)))) with 240%nat. rewrite memcpy_ok by lia. by rewrite take_0, take_ge by lia.
Qed.

Section Hash.
Context (k : nat) (k_range : (3 <= k)%nat) (ITER : nat) (ndebug : bool) (e : extra_locals) (e_ok : extra_ok e).
Context (env : aes_env) (data : list Z).
Let N := (2 ^ k)%nat.
Let iterations := (ITER / 2)%nat.
Let s := Sponge.hash 136 200 data.
Let ks1 := keys (take 32 s).
Let ks2 := keys (take 32 (drop 32 s)).
Let text := blocks8 (drop 64 s).
Let start := (AES.xor (take 16 s) (take 16 (drop 32 s)), AES.xor (take 16 (drop 16 s)) (take 16 (drop 48 s)), explode ks1 text (N / 8)).
Let pad := scratchpad N iterations s.

Lemma N_mod8 : (N mod 8 = 0)%nat.
Proof using k_range ITER.
  unfold N. replace k with (k - 3 + 3)%nat by lia. rewrite Nat.pow_add_r. change (2 ^ 3)%nat with 8%nat. apply Nat.Div0.mod_mul.
Qed.

(** Every key of the state passes over the text. *)
Lemma ks_blocks o : (o + 32 <= 200)%nat -> Forall block16 (keys (take 32 (drop o s))).
Proof using ITER k. intros Ho. destruct (key_ok32 data o Ho) as [Hk Hl]. by apply (keys_blocks _ Hk Hl). Qed.

Lemma start_mixing : mixing N start.
Proof using k_range ITER.
  pose proof N_mod8 as H8. destruct (blocks8_spec data) as (Bt & Lt & _). fold s in Bt, Lt. fold text in Bt, Lt.
  assert (forall o, (o + 16 <= 200)%nat -> block16 (take 16 (drop o s))) as Hb by (apply state_block16).
  split; [apply xor_block; [rewrite <- (drop_0 s)|]; apply Hb; lia|]. split; [apply xor_block; apply Hb; lia|].
  destruct (explode_ok ks1 text (N / 8)) as [B L]; [unfold ks1; rewrite <- (drop_0 s); apply ks_blocks; lia|done|done|]. split; [exact B|].
  rewrite L. pose proof (Nat.div_mod_eq N 8). lia.
Qed.

Lemma mixing_iter n : mixing N (Nat.iter n (mix N) start).
Proof using k_range ITER.
  induction n as [|n IH]; [exact start_mixing|]. change (Nat.iter (S n) (mix N) start) with (mix N (Nat.iter n (mix N) start)).
  destruct (Nat.iter n (mix N) start) as [[a b] p]. exact (mix_mixing k a b p IH).
Qed.

Lemma scratchpad_iter : exists a b, Nat.iter iterations (mix N) start = (a, b, pad) /\ Forall block16 pad /\ length pad = N.
Proof using k_range ITER.
  pose proof (mixing_iter iterations) as H. unfold pad, scratchpad. fold ks1 text. fold start.
  destruct (Nat.iter iterations (mix N) start) as [[a b] p]. exists a, b. destruct H as (_ & _ & H1 & H2). done.
Qed.

(** The loops of the three implementations. *)
Lemma portable_loop n : for_ n (fun _ st => Portable.iteration ndebug (16 * N) st) 0 (flat start) = Ok (flat (Nat.iter n (mix N) start)).
Proof using k_range ITER.
  induction n as [|n IH]; [done|]. rewrite for_snoc, IH. cbn [bind]. pose proof (mixing_iter n) as Hm.
  change (Nat.iter (S n) (mix N) start) with (mix N (Nat.iter n (mix N) start)). destruct (Nat.iter n (mix N) start) as [[a b] p].
  exact (portable_iteration k a b p Hm ndebug).
Qed.

Lemma arm_loop n : (k <= 28)%nat -> for_ n (fun _ st => Arm.iteration (16 * N) st) 0 (flat start) = Ok (flat (Nat.iter n (mix N) start)).
Proof using k_range ITER.
  intros Hk. induction n as [|n IH]; [done|]. rewrite for_snoc, IH. cbn [bind]. pose proof (mixing_iter n) as Hm.
  change (Nat.iter (S n) (mix N) start) with (mix N (Nat.iter n (mix N) start)). destruct (Nat.iter n (mix N) start) as [[a b] p].
  exact (arm_iteration k a b p Hm Hk).
Qed.

Lemma x86_loop aes n :
  (forall x y, block16 x -> block16 y -> aes x y = Ok (AES.round x y)) ->
  let words st := let '(a, b, p) := st in (word0 a, word1 a, b, concat p) in
  for_ n (fun _ st => X86.iteration aes (16 * N) st) 0 (words start) = Ok (words (Nat.iter n (mix N) start)).
Proof using k_range ITER.
  intros Ha words. induction n as [|n IH]; [done|]. rewrite for_snoc, IH. cbn [bind]. pose proof (mixing_iter n) as Hm.
  change (Nat.iter (S n) (mix N) start) with (mix N (Nat.iter n (mix N) start)). destruct (Nat.iter n (mix N) start) as [[a b] p].
  exact (x86_iteration k a b p Hm aes Ha).
Qed.

(** The scratchpad and the text with the tables, from a buffer that starts with the expanded key. *)
Lemma table_fill tail ls : bytes tail -> length ls = (16 * N)%nat ->
  exists t, fill (16 * N) (concat (AES.expand (take 32 s)) ++ tail) (concat text) ls = Ok (t, concat (explode ks1 text (N / 8))) /\ length t = 128%nat.
Proof using k_range ITER.
  intros Ht Hl. destruct (key_ok32 data 0 ltac:(lia)) as [Hk Lk]. fold s in Hk, Lk. rewrite drop_0 in Hk, Lk. destruct (expand_buffer _ Hk Lk) as [Be Le].
  destruct (blocks8_spec data) as (Bt & Lt & _).
  destruct (scratchpad_fill (concat (AES.expand (take 32 s)) ++ tail)) with (ts := text) (long_state := ls) (N := N) as (t & E & L);
    [by apply Forall_app|rewrite length_app; lia|done|done|exact N_mod8|exact Hl|].
  rewrite keys10_expand in E by done. exists t. done.
Qed.

Lemma table_drain xor tail : (forall a b, block16 a -> block16 b -> xor a b = Ok (AES.xor a b)) -> bytes tail ->
  drain xor (16 * N) (concat (AES.expand (take 32 (drop 32 s))) ++ tail) (concat pad) (concat text) = Ok (concat (implode ks2 pad text (N / 8))).
Proof using k_range ITER.
  intros Hx Ht. destruct (key_ok32 data 32 ltac:(lia)) as [Hk Lk]. fold s in Hk, Lk. destruct (expand_buffer _ Hk Lk) as [Be Le].
  destruct (blocks8_spec data) as (Bt & Lt & _). destruct scratchpad_iter as (a & b & _ & Bp & Lp).
  destruct (drain_spec (concat (AES.expand (take 32 (drop 32 s))) ++ tail)) with (xor := xor) (pad := pad) (ts := text) (N := N) as [E _];
    [by apply Forall_app|rewrite length_app; lia|exact Hx|done|done|exact N_mod8|exact Bp|exact Lp|].
  rewrite keys10_expand in E by done. exact E.
Qed.

Lemma implode_ok : Forall block16 (implode ks2 pad text (N / 8)) /\ length (implode ks2 pad text (N / 8)) = 8%nat.
Proof using k_range ITER.
  destruct (key_ok32 data 32 ltac:(lia)) as [Hk Lk]. destruct (blocks8_spec data) as (Bt & Lt & _). destruct scratchpad_iter as (a & b & _ & Bp & Lp).
  pose proof (Nat.div_mod_eq N 8) as Hd. destruct (x86_drain _ Hk Lk [] pad text (N / 8)) as (_ & B & L); [done|done|done|lia|]. done.
Qed.

Lemma finish_hash : finish ndebug e s (concat (implode ks2 pad text (N / 8))) = Ok (hash N iterations data).
Proof using k_range e_ok ITER.
  destruct implode_ok as [B L]. destruct (state_ok200 data) as [_ Ls]. fold s in Ls. rewrite slow_finish by done. unfold hash. cbv zeta. fold s. fold text ks2 pad. done.
Qed.

(** The two keys, imported from the state. *)
Lemma import_both :
  env_ok env -> exists c c1 c2, oaes_alloc (mem_ctx env) (rand_results env) = Ok (Some c) /\
    import_key (mem_key1 env) (Some c) s = Ok (Some c1) /\ ctx_exp_key (Some c1) = Ok (expanded_key (take 32 s)) /\
    import_key (mem_key1 env) (Some c) (take 32 s) = Ok (Some c1) /\
    import_key (mem_key2 env) (Some c1) (drop 32 s) = Ok (Some c2) /\ ctx_exp_key (Some c2) = Ok (expanded_key (take 32 (drop 32 s))).
Proof using ITER k k_range.
  intros (-> & -> & -> & Hr). destruct (oaes_alloc_spec _ Hr) as [c Ec]. destruct (key_ok32 data 0 ltac:(lia)) as [K1 L1]. fold s in K1, L1. rewrite drop_0 in K1, L1.
  destruct (key_ok32 data 32 ltac:(lia)) as [K2 L2]. fold s in K2, L2.
  destruct (import_key_spec c (take 32 s) (drop 32 s) K1 L1) as (c1 & E1 & X1). rewrite take_drop in E1.
  destruct (import_key_spec c (take 32 s) [] K1 L1) as (c1' & E1' & X1'). rewrite app_nil_r in E1'.
  assert (c1' = c1) as ->.
  { unfold import_key, oaes_key_import_data in E1, E1'. change (key_size_ok (Z.of_nat AES_KEY_SIZE)) with true in E1, E1'. cbv iota in E1, E1'.
    replace (Z.of_nat AES_KEY_SIZE) with (Z.of_nat (length (take 32 s))) in E1, E1' by (rewrite L1; reflexivity).
    pose proof (install_key_spec c (take 32 s) (drop 32 s) K1) as I1. rewrite take_drop in I1. pose proof (install_key_spec c (take 32 s) [] K1) as I2. rewrite app_nil_r in I2.
    rewrite I1 in E1. rewrite I2 in E1'. cbn [bind] in E1, E1'. congruence. }
  destruct (import_key_spec c1 (take 32 (drop 32 s)) (drop 32 (drop 32 s)) K2 L2) as (c2 & E2 & X2). rewrite take_drop in E2.
  exists c, c1, c2. done.
Qed.

Lemma portable_spec l :
  env_ok env -> length (Portable.l_long_state l) = (16 * N)%nat -> length (Portable.l_text l) = 128%nat -> length (Portable.l_a l) = 16%nat ->
  length (Portable.l_b l) = 16%nat -> length (Portable.l_aes_key l) = 32%nat ->
  Portable.cn_slow_hash (16 * N) ITER ndebug l e env data = Ok (hash N iterations data).
Proof using k_range e_ok ITER.
  intros He H1 H2 H3 H4 H5. destruct (import_both He) as (c & c1 & c2 & Ea & _ & X1 & E1 & E2 & X2). destruct (state_ok200 data) as [_ Ls]. fold s in Ls.
  unfold Portable.cn_slow_hash. rewrite hash_process_spec. fold s. cbn [bind]. rewrite (text_spec data) by done. fold s. fold text. cbn [bind].
  unfold AES_KEY_SIZE. rewrite memcpy_ok by lia. rewrite take_0, (drop_ge (Portable.l_aes_key l)), app_nil_r by lia. cbn [bind app].
  rewrite Ea. cbn [bind]. rewrite E1. cbn [bind]. rewrite X1. cbn [bind expanded_key exp_data].
  destruct (table_fill [] (Portable.l_long_state l)) as (t & Ef & _); [constructor|done|]. rewrite app_nil_r in Ef. rewrite Ef. cbn [bind].
  rewrite (key_block_spec data 0), (key_block_spec data 16) by (done || lia). fold s. rewrite drop_0. cbn [bind Nat.add].
  pose proof (portable_loop iterations) as El. destruct scratchpad_iter as (a & b & Ei & _). rewrite Ei in El. cbn [flat start] in El. fold iterations. rewrite El. cbn [bind].
  destruct (blocks8_spec data) as (Bt & Lt & Et). fold s in Bt, Lt, Et. fold text in Bt, Lt, Et.
  rewrite (text_spec data) by (rewrite (sized_length 16) by (by apply block16_sized); fold s text; rewrite Lt; reflexivity). fold s text. cbn [bind].
  rewrite E2. cbn [bind]. rewrite X2. cbn [bind expanded_key exp_data].
  pose proof (table_drain xor_blocks [] xor_blocks_spec ltac:(constructor)) as Ed. rewrite app_nil_r in Ed. rewrite Ed. cbn [bind]. apply finish_hash.
Qed.

Lemma arm_spec l :
  (k <= 28)%nat -> env_ok env -> length (Arm.l_long_state l) = (16 * N)%nat -> length (Arm.l_text l) = 128%nat ->
  bytes (Arm.l_expandedKey l) -> length (Arm.l_expandedKey l) = 256%nat ->
  Arm.cn_slow_hash (16 * N) ITER ndebug l e env data = Ok (hash N iterations data).
Proof using k_range e_ok ITER.
  intros Hk28 He H1 H2 H3 H4. destruct (import_both He) as (c & c1 & c2 & Ea & E1 & X1 & _ & E2 & X2). destruct (state_ok200 data) as [_ Ls]. fold s in Ls.
  destruct (key_ok32 data 0 ltac:(lia)) as [K1 L1]. fold s in K1, L1. rewrite drop_0 in K1, L1. destruct (key_ok32 data 32 ltac:(lia)) as [K2 L2]. fold s in K2, L2.
  unfold Arm.cn_slow_hash. rewrite hash_process_spec. fold s. cbn [bind]. rewrite (text_spec data) by done. fold s. fold text. cbn [bind].
  rewrite Ea. cbn [bind]. rewrite E1. cbn [bind]. rewrite (copy_key_spec c1 (take 32 s)) by (done || lia). cbn [bind].
  assert (bytes (drop 240 (Arm.l_expandedKey l))) as Bd by (by apply Forall_drop).
  destruct (table_fill (drop 240 (Arm.l_expandedKey l)) (Arm.l_long_state l)) as (t & Ef & _); [done|done|]. rewrite Ef. cbn [bind].
  pose proof (key_block64_spec data 0 ltac:(lia)) as Ka. pose proof (key_block64_spec data 16 ltac:(lia)) as Kb. fold s in Ka, Kb. rewrite drop_0 in Ka.
  rewrite Ka. cbn [bind]. rewrite Kb. cbn [bind Nat.add].
  pose proof (arm_loop iterations Hk28) as El. destruct scratchpad_iter as (a & b & Ei & _). rewrite Ei in El. cbn [flat start] in El. fold iterations. rewrite El. cbn [bind].
  destruct (blocks8_spec data) as (Bt & Lt & Et). fold s in Bt, Lt, Et. fold text in Bt, Lt, Et.
  rewrite (text_spec data) by (rewrite (sized_length 16) by (by apply block16_sized); fold s text; rewrite Lt; reflexivity). fold s text. cbn [bind].
  rewrite E2. cbn [bind]. destruct (expand_buffer _ K1 L1) as [_ Le1].
  rewrite (copy_key_spec c2 (take 32 (drop 32 s))) by (first [done|rewrite length_app, length_drop; lia]). cbn [bind].
  rewrite table_drain; [cbn [bind]; apply finish_hash| |].
  - intros x y Hx Hy. by rewrite xor_blocks64_spec.
  - rewrite drop_app_ge by lia. by apply Forall_drop, Forall_drop.
Qed.

Lemma x86_step2 aes ek0 m :
  (aes = false -> env_ok env) -> length ek0 = 240%nat -> length m = (16 * N)%nat ->
  exists t ctx ek, X86.step2 aes (16 * N) env s (concat text) ek0 m = Ok (t, concat (explode ks1 text (N / 8)), ctx, ek) /\ length t = 128%nat /\
    length ek = 240%nat /\
    (aes = false -> exists c2, import_key (mem_key2 env) ctx (drop 32 s) = Ok (Some c2) /\ ctx_exp_key (Some c2) = Ok (expanded_key (take 32 (drop 32 s)))).
Proof using k_range ITER.
  intros He Hek Hm. destruct (key_ok32 data 0 ltac:(lia)) as [K1 L1]. fold s in K1, L1. rewrite drop_0 in K1, L1. unfold X86.step2. destruct aes.
  - pose proof (aes_expand_key_spec (take 32 s) (drop 32 s) ek0 K1 L1 ltac:(lia)) as Ee. rewrite take_drop in Ee. rewrite Ee. cbn [bind].
    destruct (blocks8_spec data) as (Bt & Lt & _). fold s in Bt, Lt. fold text in Bt, Lt. pose proof (Nat.div_mod_eq N 8) as Hd. pose proof N_mod8 as H8.
    replace (16 * N / INIT_SIZE_BYTE)%nat with (N / 8)%nat by (unfold INIT_SIZE_BYTE, INIT_SIZE_BLK, AES_BLOCK_SIZE; change (8 * 16)%nat with (16 * 8)%nat; rewrite Nat.Div0.div_mul_cancel_l by lia; done).
    pose proof (keys_blocks _ K1 L1) as Kb.
    rewrite (fill_loop (fun t => X86.aes_pseudo_round t (concat (schedule (take 32 s)) ++ drop 176 ek0) INIT_SIZE_BLK) (keys (take 32 s)) Kb)
      by (first [done|lia|intros ts H1 H2; by apply aes_pseudo_round_spec]).
    cbn [bind]. rewrite (drop_ge m), app_nil_r by lia. destruct (texts_ok (keys (take 32 s)) text (N / 8) Kb Bt Lt) as [B2 L2].
    do 3 eexists. split; [reflexivity|]. split; [rewrite (sized_length 16) by (by apply block16_sized); lia|]. split; [|done].
    rewrite length_app, length_drop, (sized_length 16) by (apply block16_sized; by apply schedule_blocks). unfold schedule. rewrite length_fmap, length_seq. lia.
  - destruct (import_both (He eq_refl)) as (c & c1 & c2 & Ea & E1 & X1 & _ & E2 & X2). rewrite Ea. cbn [bind]. rewrite E1. cbn [bind]. rewrite X1.
    cbn [bind expanded_key exp_data]. destruct (table_fill [] m) as (t & Ef & Lt); [constructor|done|]. rewrite app_nil_r in Ef. rewrite Ef. cbn [bind].
    do 3 eexists. split; [reflexivity|]. split; [done|]. split; [done|]. intros _. by exists c2.
Qed.

Lemma x86_step4 aes ek0 ctx :
  length ek0 = 240%nat ->
  (aes = false -> exists c2, import_key (mem_key2 env) ctx (drop 32 s) = Ok (Some c2) /\ ctx_exp_key (Some c2) = Ok (expanded_key (take 32 (drop 32 s)))) ->
  X86.step4 aes (16 * N) env s (concat text) ek0 (concat pad) ctx = Ok (concat (implode ks2 pad text (N / 8))).
Proof using k_range ITER.
  intros Hek Hc. destruct (key_ok32 data 32 ltac:(lia)) as [K2 L2]. fold s in K2, L2. unfold X86.step4. destruct aes.
  - pose proof (aes_expand_key_spec (take 32 (drop 32 s)) (drop 32 (drop 32 s)) ek0 K2 L2 ltac:(lia)) as Ee. rewrite take_drop in Ee. rewrite Ee. cbn [bind].
    destruct (blocks8_spec data) as (Bt & Lt & _). fold s in Bt, Lt. fold text in Bt, Lt. pose proof (Nat.div_mod_eq N 8) as Hd. pose proof N_mod8 as H8.
    replace (16 * N / INIT_SIZE_BYTE)%nat with (N / 8)%nat by (unfold INIT_SIZE_BYTE, INIT_SIZE_BLK, AES_BLOCK_SIZE; change (8 * 16)%nat with (16 * 8)%nat; rewrite Nat.Div0.div_mul_cancel_l by lia; done).
    destruct scratchpad_iter as (a & b & _ & Bp & Lp).
    destruct (x86_drain (take 32 (drop 32 s)) K2 L2 (drop 176 ek0) pad text (N / 8)) as (E & _ & _); [done|done|done|lia|]. exact E.
  - destruct (Hc eq_refl) as (c2 & E2 & X2). rewrite E2. cbn [bind]. rewrite X2. cbn [bind expanded_key exp_data].
    pose proof (table_drain (fun b p => Ok (xor_blocks64 b p)) []) as Ed. rewrite app_nil_r in Ed. apply Ed; [|constructor].
    intros x y Hx Hy. by rewrite xor_blocks64_spec.
Qed.

Lemma x86_spec aes mmap malloc l h m :
  (aes = false -> env_ok env) -> X86.hp_state (X86.slow_hash_allocate_state mmap malloc h) = Some m -> length m = (16 * N)%nat ->
  length (X86.l_text l) = 128%nat -> length (X86.l_expandedKey l) = 240%nat ->
  X86.cn_slow_hash (16 * N) ITER aes ndebug mmap malloc l e env h data =
  Ok (hash N iterations data, X86.Hp (Some (concat pad)) (X86.hp_allocated (X86.slow_hash_allocate_state mmap malloc h))).
Proof using k_range e_ok ITER.
  intros He Eh Hm H1 H2. unfold X86.cn_slow_hash. rewrite hash_process_spec. fold s. cbn [bind]. rewrite (text_spec data) by done. fold s. fold text. cbn [bind].
  rewrite Eh. destruct (x86_step2 aes (X86.l_expandedKey l) m He H2 Hm) as (t & ctx & ek & E2 & Lt & Lek & Hc). rewrite E2. cbn [bind].
  pose proof (key_block64_spec data 0 ltac:(lia)) as Ka. pose proof (key_block64_spec data 16 ltac:(lia)) as Kb. fold s in Ka, Kb. rewrite drop_0 in Ka.
  rewrite Ka. cbn [bind]. rewrite Kb. cbn [bind Nat.add].
  set (round := if aes then _ else _).
  assert (forall x y, block16 x -> block16 y -> round x y = Ok (AES.round x y)) as Hr.
  { intros x y Hx Hy. unfold round. destruct aes; [by rewrite aesenc_spec by apply Hx|].
    rewrite aesb_single_round_spec by (rewrite ?take_ge by (destruct Hy as [_ ->]; lia); first [done|destruct Hy as [_ ->]; lia]).
    by rewrite take_ge by (destruct Hy as [_ ->]; lia). }
  pose proof (x86_loop round iterations Hr) as El. cbv zeta in El. destruct scratchpad_iter as (a & b & Ei & _). rewrite Ei in El. cbn [start] in El. fold iterations.
  rewrite El. cbn [bind]. rewrite (text_spec data) by done. fold s. fold text. cbn [bind]. rewrite (x86_step4 aes ek ctx Lek Hc). cbn [bind].
  rewrite finish_hash. reflexivity.
Qed.
End Hash.
