(* ===== verification/Crypto.v ===== *)
(** * Keys and signatures

    [src/src/crypto/crypto.cpp]: the wallet's key operations, composed from the
    field, scalar, group, hash and random components.  Keys, scalars, hashes
    and points are byte strings of 32 bytes; an operation that returns [bool]
    with an output argument returns an option; [ndebug] is whether [NDEBUG] is
    defined. *)

From stdpp Require Import base list numbers.
From Stdlib Require Import ZArith Lia.
From S2P Require Import Prelude Bytes Varint Field Scalar CurveData Group Recode ScalarMult Keccak Random.

Record signature := Sig { sig_c : list Z; sig_r : list Z }.

(** ** Scalars *)
Definition random_scalar (ndebug : bool) (g : rng) : result (rng * list Z) :=
  let! (g, tmp) := generate_random_bytes_not_thread_safe ndebug 64 g in
  let! tmp := sc_reduce tmp in
  Ok (g, tmp).

Definition hash_to_scalar (data : list Z) : result (list Z) :=
  let! res := cn_fast_hash data in
  sc_reduce32 res.

(** ** Keys *)

(** The key returned, the secret key and the public key. *)
Definition generate_keys (ndebug : bool) (recovery_key : list Z) (recover : bool) (g : rng) :
    result (rng * (list Z * list Z * list Z)) :=
  let! (g, key) := if recover then Ok (g, recovery_key) else random_scalar ndebug g in
  let! sec := sc_reduce32 key in
  let! point := ge_scalarmult_base ndebug sec in
  let! pub := ge_p3_tobytes point in
  Ok (g, (key, sec, pub)).

Definition check_key (key : list Z) : result bool :=
  let! point := ge_frombytes_vartime key in
  Ok (match point with Some _ => true | None => false end).

Definition secret_key_to_public_key (ndebug : bool) (sec : list Z) : result (option (list Z)) :=
  let! c := sc_check sec in
  if negb (c =? 0) then Ok None
  else
    let! point := ge_scalarmult_base ndebug sec in
    let! pub := ge_p3_tobytes point in
    Ok (Some pub).

Definition assert_scalar (ndebug : bool) (sec : list Z) : result unit :=
  c_assert ndebug (let! c := sc_check sec in Ok (c =? 0)).

Definition generate_key_derivation (ndebug : bool) (key1 key2 : list Z) : result (option (list Z)) :=
  let! _ := assert_scalar ndebug key2 in
  let! point := ge_frombytes_vartime key1 in
  match point with
  | None => Ok None
  | Some point =>
      let! point2 := ge_scalarmult ndebug key2 point in
      let! point3 := ge_mul8 point2 in
      let! point2 := ge_p1p1_to_p2 point3 in
      let! derivation := ge_tobytes point2 in
      Ok (Some derivation)
  end.

Definition derivation_to_scalar (ndebug : bool) (derivation : list Z) (output_index : Z) : result (list Z) :=
  let! v := write_varint VARINT_SIZE output_index in
  let! _ := c_assert ndebug (Ok (length v <=? VARINT_SIZE)%nat) in
  hash_to_scalar (derivation ++ v).

Definition derive_public_key (ndebug : bool) (derivation : list Z) (output_index : Z) (base : list Z) :
    result (option (list Z)) :=
  let! point1 := ge_frombytes_vartime base in
  match point1 with
  | None => Ok None
  | Some point1 =>
      let! scalar := derivation_to_scalar ndebug derivation output_index in
      let! point2 := ge_scalarmult_base ndebug scalar in
      let! point3 := ge_p3_to_cached point2 in
      let! point4 := ge_add point1 point3 in
      let! point5 := ge_p1p1_to_p2 point4 in
      let! derived_key := ge_tobytes point5 in
      Ok (Some derived_key)
  end.

Definition derive_secret_key (ndebug : bool) (derivation : list Z) (output_index : Z) (base : list Z) :
    result (list Z) :=
  let! _ := assert_scalar ndebug base in
  let! scalar := derivation_to_scalar ndebug derivation output_index in
  sc_add base scalar.

Definition derive_subaddress_public_key (ndebug : bool) (out_key derivation : list Z) (output_index : Z) :
    result (option (list Z)) :=
  let! point1 := ge_frombytes_vartime out_key in
  match point1 with
  | None => Ok None
  | Some point1 =>
      let! scalar := derivation_to_scalar ndebug derivation output_index in
      let! point2 := ge_scalarmult_base ndebug scalar in
      let! point3 := ge_p3_to_cached point2 in
      let! point4 := ge_sub point1 point3 in
      let! point5 := ge_p1p1_to_p2 point4 in
      let! derived_key := ge_tobytes point5 in
      Ok (Some derived_key)
  end.

(** ** Signatures *)

(** [pub] is the key of [sec]: the debug check of the signers. *)
Definition is_key_of (ndebug : bool) (pub sec : list Z) : result bool :=
  let! t := ge_scalarmult_base ndebug sec in
  let! t2 := ge_p3_tobytes t in
  Ok (bool_decide (pub = t2)).

Definition generate_signature (ndebug : bool) (prefix_hash pub sec : list Z) (g : rng) :
    result (rng * signature) :=
  let! _ := assert_scalar ndebug sec in
  let! _ := c_assert ndebug (is_key_of ndebug pub sec) in
  let! (g, k) := random_scalar ndebug g in
  let! tmp3 := ge_scalarmult_base ndebug k in
  let! comm := ge_p3_tobytes tmp3 in
  let! c := hash_to_scalar (prefix_hash ++ pub ++ comm) in
  let! r := sc_mulsub c sec k in
  Ok (g, Sig c r).

(** [sc_check(&sig.c) != 0 || sc_check(&sig.r) != 0] *)
Definition bad_scalars (s : signature) : result bool :=
  let! c := sc_check (sig_c s) in
  if negb (c =? 0) then Ok true
  else
    let! r := sc_check (sig_r s) in
    Ok (negb (r =? 0)).

Definition check_signature (ndebug : bool) (prefix_hash pub : list Z) (s : signature) : result bool :=
  let! _ := c_assert ndebug (check_key pub) in
  let! tmp3 := ge_frombytes_vartime pub in
  match tmp3 with
  | None => Ok false
  | Some tmp3 =>
      let! bad := bad_scalars s in
      if (bad : bool) then Ok false
      else
        let! tmp2 := ge_double_scalarmult_base_vartime (sig_c s) tmp3 (sig_r s) in
        let! comm := ge_tobytes tmp2 in
        let! c := hash_to_scalar (prefix_hash ++ pub ++ comm) in
        let! c := sc_sub c (sig_c s) in
        Ok (sc_isnonzero c =? 0)
  end.

(** ** Transaction proofs *)

(** [throw std::runtime_error] when a point does not decode. *)
Definition decode_or_throw (s : list Z) : result ge_p3 :=
  let! o := ge_frombytes_vartime s in
  match o with Some P => Ok P | None => Fail Thrown end.

(** [k * B] when [B] is given, else [k * G]. *)
Definition scalarmult_to_bytes (ndebug : bool) (k : list Z) (B_p3 : option ge_p3) : result (list Z) :=
  match B_p3 with
  | Some B_p3 => let! X_p2 := ge_scalarmult ndebug k B_p3 in ge_tobytes X_p2
  | None => let! X_p3 := ge_scalarmult_base ndebug k in ge_p3_tobytes X_p3
  end.

Definition generate_tx_proof (ndebug : bool) (prefix_hash R A : list Z) (B : option (list Z)) (D r : list Z)
    (g : rng) : result (rng * signature) :=
  let! _ := decode_or_throw R in
  let! A_p3 := decode_or_throw A in
  let! B_p3 :=
    match B with
    | Some B => let! P := decode_or_throw B in Ok (Some P)
    | None => Ok None
    end in
  let! _ := decode_or_throw D in
  let! _ := assert_scalar ndebug r in
  let! _ := c_assert ndebug (let! dbg_R := scalarmult_to_bytes ndebug r B_p3 in Ok (bool_decide (R = dbg_R))) in
  let! _ := c_assert ndebug (let! dbg_D := scalarmult_to_bytes ndebug r (Some A_p3) in Ok (bool_decide (D = dbg_D))) in
  let! (g, k) := random_scalar ndebug g in
  let! X := scalarmult_to_bytes ndebug k B_p3 in
  let! Y := scalarmult_to_bytes ndebug k (Some A_p3) in
  let! c := hash_to_scalar (prefix_hash ++ D ++ X ++ Y) in
  let! r := sc_mulsub c r k in
  Ok (g, Sig c r).

(** A step that may return [false] early. *)
Definition bind_bool {A} (m : result (option A)) (k : A -> result bool) : result bool :=
  let! o := m in
  match o with Some a => k a | None => Ok false end.

Notation "'try!' x ':=' m 'in' k" := (bind_bool m (fun x => k))
  (at level 10, x pattern, m at level 200, k at level 200,
   format "'[v' 'try!'  x  ':='  m  'in' '/' k ']'") : c_scope.

(** A multiple of a point, encoded and decoded again. *)
Definition recoded_multiple (ndebug : bool) (a : list Z) (P : ge_p3) : result (option ge_p3) :=
  let! Q := ge_scalarmult ndebug a P in
  let! s := ge_tobytes Q in
  ge_frombytes_vartime s.

Definition check_tx_proof (ndebug : bool) (prefix_hash R A : list Z) (B : option (list Z)) (D : list Z) (s : signature) : result bool :=
  try! R_p3 := ge_frombytes_vartime R in
  try! A_p3 := ge_frombytes_vartime A in
  try! B_p3 :=
    (match B with
     | Some B =>
         let! o := ge_frombytes_vartime B in
         Ok (match o with Some P => Some (Some P) | None => None end)
     | None => Ok (Some None)
     end) in
  try! D_p3 := ge_frombytes_vartime D in
  let! bad := bad_scalars s in
  if (bad : bool) then Ok false
  else
    try! cR_p3 := recoded_multiple ndebug (sig_c s) R_p3 in
    try! rB_p3 :=
      (match B_p3 with
       | Some B_p3 => recoded_multiple ndebug (sig_r s) B_p3
       | None => let! rG_p3 := ge_scalarmult_base ndebug (sig_r s) in Ok (Some rG_p3)
       end) in
    let! rB_cached := ge_p3_to_cached rB_p3 in
    let! X_p1p1 := ge_add cR_p3 rB_cached in
    let! X_p2 := ge_p1p1_to_p2 X_p1p1 in
    let! cD_p2 := ge_scalarmult ndebug (sig_c s) D_p3 in
    let! rA_p2 := ge_scalarmult ndebug (sig_r s) A_p3 in
    let! cD := ge_tobytes cD_p2 in
    let! rA := ge_tobytes rA_p2 in
    try! cD_p3 := ge_frombytes_vartime cD in
    try! rA_p3 := ge_frombytes_vartime rA in
    let! rA_cached := ge_p3_to_cached rA_p3 in
    let! Y_p1p1 := ge_add cD_p3 rA_cached in
    let! Y_p2 := ge_p1p1_to_p2 Y_p1p1 in
    let! X := ge_tobytes X_p2 in
    let! Y := ge_tobytes Y_p2 in
    let! c2 := hash_to_scalar (prefix_hash ++ D ++ X ++ Y) in
    let! c2 := sc_sub c2 (sig_c s) in
    Ok (sc_isnonzero c2 =? 0).

(** ** Key images and ring signatures *)
Definition hash_to_ec (ndebug : bool) (key : list Z) : result ge_p3 :=
  let! h := cn_fast_hash key in
  let! point := ge_fromfe_frombytes_vartime ndebug h in
  let! point2 := ge_mul8 point in
  ge_p1p1_to_p3 point2.

Definition generate_key_image (ndebug : bool) (pub sec : list Z) : result (list Z) :=
  let! _ := assert_scalar ndebug sec in
  let! point := hash_to_ec ndebug pub in
  let! point2 := ge_scalarmult ndebug sec point in
  ge_tobytes point2.

(** [abort()] when a point does not decode. *)
Definition decode_or_abort (s : list Z) : result ge_p3 :=
  let! o := ge_frombytes_vartime s in
  match o with Some P => Ok P | None => Fail Aborted end.

(** The debug checks of [generate_ring_signature]. *)
Definition ring_debug (image : list Z) (pubs : list (list Z)) (sec : list Z) (sec_index : nat) : result unit :=
  let! _ := assert_scalar false sec in
  let! pub := get pubs sec_index in
  let! _ := c_assert false (is_key_of false pub sec) in
  let! t3 := generate_key_image false pub sec in
  let! _ := c_assert false (Ok (bool_decide (image = t3))) in
  for_ (length pubs) (fun i _ => let! pub := get pubs i in c_assert false (check_key pub)) 0 tt.

(** The two commitments of a ring member from its challenge and response. *)
Definition ring_pair (ndebug : bool) (image_pre : list ge_cached) (tmp3 : ge_p3) (pub : list Z) (s : signature) :
    result (list Z * list Z) :=
  let! tmp2 := ge_double_scalarmult_base_vartime (sig_c s) tmp3 (sig_r s) in
  let! a := ge_tobytes tmp2 in
  let! tmp3 := hash_to_ec ndebug pub in
  let! tmp2 := ge_double_scalarmult_precomp_vartime (sig_r s) tmp3 (sig_c s) image_pre in
  let! b := ge_tobytes tmp2 in
  Ok (a, b).

(** What the signing loop has built: the generator, the sum of the challenges, the
    commitments of [buf], the signature so far and [k]. *)
Record ring_state := Ring {
  ring_rng : rng; ring_sum : list Z; ring_ab : list Z; ring_sig : list signature; ring_k : option (list Z) }.

Definition ring_step (ndebug : bool) (image_pre : list ge_cached) (pubs : list (list Z)) (sec_index : nat)
    (i : nat) (st : ring_state) : result ring_state :=
  let! pub := get pubs i in
  if (i =? sec_index)%nat then
    let! (g, k) := random_scalar ndebug (ring_rng st) in
    let! tmp3 := ge_scalarmult_base ndebug k in
    let! a := ge_p3_tobytes tmp3 in
    let! tmp3 := hash_to_ec ndebug pub in
    let! tmp2 := ge_scalarmult ndebug k tmp3 in
    let! b := ge_tobytes tmp2 in
    Ok (Ring g (ring_sum st) (ring_ab st ++ a ++ b) (ring_sig st ++ [Sig [] []]) (Some k))
  else
    let! (g, c) := random_scalar ndebug (ring_rng st) in
    let! (g, r) := random_scalar ndebug g in
    let! tmp3 := decode_or_abort pub in
    let! (a, b) := ring_pair ndebug image_pre tmp3 pub (Sig c r) in
    let! sum := sc_add (ring_sum st) c in
    Ok (Ring g sum (ring_ab st ++ a ++ b) (ring_sig st ++ [Sig c r]) (ring_k st)).

Definition generate_ring_signature (ndebug : bool) (prefix_hash image : list Z) (pubs : list (list Z))
    (sec : list Z) (sec_index : nat) (g : rng) : result (rng * list signature) :=
  let! _ := c_assert ndebug (Ok (sec_index <? length pubs)%nat) in
  let! _ := if ndebug then Ok tt else ring_debug image pubs sec sec_index in
  let! image_unp := decode_or_abort image in
  let! image_pre := ge_dsm_precomp image_unp in
  let! st := for_ (length pubs) (ring_step ndebug image_pre pubs sec_index) 0 (Ring g sc_0 [] [] None) in
  let! h := hash_to_scalar (prefix_hash ++ ring_ab st) in
  let! c := sc_sub h (ring_sum st) in
  match ring_k st with
  | None => Fail OutOfBounds
  | Some k =>
      let! r := sc_mulsub c sec k in
      let! sig := set (ring_sig st) sec_index (Sig c r) in
      Ok (ring_rng st, sig)
  end.

(** One member: [None] is an early [return false]. *)
Definition check_step (ndebug : bool) (image_pre : list ge_cached) (pubs : list (list Z)) (sig : list signature)
    (i : nat) (acc : option (list Z * list Z)) : result (option (list Z * list Z)) :=
  match acc with
  | None => Ok None
  | Some (sum, ab) =>
      let! s := get sig i in
      let! bad := bad_scalars s in
      if (bad : bool) then Ok None
      else
        let! pub := get pubs i in
        let! tmp3 := ge_frombytes_vartime pub in
        match tmp3 with
        | None => Ok None
        | Some tmp3 =>
            let! (a, b) := ring_pair ndebug image_pre tmp3 pub s in
            let! sum := sc_add sum (sig_c s) in
            Ok (Some (sum, ab ++ a ++ b))
        end
  end.

Definition check_ring_signature (ndebug : bool) (prefix_hash image : list Z) (pubs : list (list Z))
    (sig : list signature) : result bool :=
  let! _ :=
    if ndebug then Ok tt
    else for_ (length pubs) (fun i _ => let! pub := get pubs i in c_assert false (check_key pub)) 0 tt in
  try! image_unp := ge_frombytes_vartime image in
  let! image_pre := ge_dsm_precomp image_unp in
  try! (sum, ab) := for_ (length pubs) (check_step ndebug image_pre pubs sig) 0 (Some (sc_0, [])) in
  let! h := hash_to_scalar (prefix_hash ++ ab) in
  let! h := sc_sub h sum in
  Ok (sc_isnonzero h =? 0).
