(* ===== verification/CryptoFacts.v ===== *)
(** * Correctness of the key operations

    Scalars modulo [l] act on the multiples of the base point, which has order
    [l]; every operation of [Crypto] is then an operation on curve points and
    scalars. *)

From stdpp Require Import base list numbers.
From Stdlib Require Import ZArith Lia.
From S2P Require Import Prelude Bytes Varint Field FieldFacts FieldBytes Scalar ScalarFacts CurveData Group Edwards Recode ScalarMult GroupFacts GroupSpec BaseTable RecodeFacts ScalarMultFacts PointCodec GroupOrder Keccak KeccakFacts Random Crypto.

(** ** Scalars

    [scalar s v]: the 32 bytes [s] hold the reduced scalar [v]. *)
Definition scalar (s : list Z) (v : Z) : Prop := s = le_bytes 32 v /\ 0 <= v < l.

Lemma scalar_bytes s v : scalar s v -> bytes s /\ length s = 32%nat /\ le_val s = v /\ v < 2 ^ 255.
Proof.
  intros [-> Hv]. pose proof l_bound. split_and!; [apply le_bytes_bytes|apply le_bytes_length| |lia].
  rewrite le_val_bytes. apply Z.mod_small. change (256 ^ Z.of_nat 32) with (2 ^ 256). lia.
Qed.

Lemma scalar_val s v : scalar s v -> le_val s = v.
Proof. by intros (_ & _ & H & _)%scalar_bytes. Qed.

Lemma scalar_mod v : scalar (le_bytes 32 (v mod l)) (v mod l).
Proof. split; [done|]. apply Z.mod_pos_bound, l_bound. Qed.

Lemma scalar_of s : bytes s -> length s = 32%nat -> le_val s < l -> scalar s (le_val s).
Proof.
  intros Hb Hl Hv. split; [rewrite <- Hl; symmetry; by apply le_bytes_val|].
  pose proof (le_val_bound _ Hb). lia.
Qed.

Lemma scalar_top s v : scalar s v -> exists b, s !! 31%nat = Some b /\ b <= 127.
Proof.
  intros H. destruct (scalar_bytes _ _ H) as (Hb & Hl & Hv & H255).
  destruct (byte_lookup s 31) as (b & Eb & Hbb); [done|lia|]. exists b. split; [done|].
  pose proof (top_bit s b Hb Hl Eb) as Ht. rewrite Hv in Ht. unfold is_byte in Hbb.
  rewrite Z.div_small in Ht by (destruct H as [_ H]; lia).
  rewrite Z.shiftr_div_pow2 in Ht by lia. apply Z.div_small_iff in Ht; lia.
Qed.

Lemma sc_check_scalar s v : scalar s v -> sc_check s = Ok 0.
Proof.
  intros H. destruct (scalar_bytes _ _ H) as (Hb & Hl & Hv & _). rewrite sc_check_spec by done.
  rewrite decide_True; [done|]. rewrite Hv. destruct H as [_ H]. lia.
Qed.

Lemma assert_scalar_ok ndebug s v : scalar s v -> assert_scalar ndebug s = Ok tt.
Proof. intros H. unfold assert_scalar, c_assert. rewrite (sc_check_scalar _ _ H). by destruct ndebug. Qed.

Lemma bad_scalars_ok c r vc vr : scalar c vc -> scalar r vr -> bad_scalars (Sig c r) = Ok false.
Proof.
  intros Hc Hr. unfold bad_scalars. cbn [sig_c sig_r]. rewrite (sc_check_scalar _ _ Hc). cbn [bind].
  by rewrite (sc_check_scalar _ _ Hr).
Qed.

(** The hash of a message as a scalar. *)
Definition Hs (data : list Z) : Z := le_val (Sponge.hash 136 HASH_SIZE data) mod l.

Lemma hash_to_scalar_spec data : hash_to_scalar data = Ok (le_bytes 32 (Hs data)).
Proof.
  unfold hash_to_scalar. rewrite cn_fast_hash_spec. cbn [bind].
  destruct (hash_bytes 136 HASH_SIZE data) as [Hb Hl]; [lia|unfold HASH_SIZE; lia|]. by apply sc_reduce32_spec.
Qed.

Lemma Hs_scalar data : scalar (le_bytes 32 (Hs data)) (Hs data).
Proof. apply scalar_mod. Qed.

Lemma sc_sub_scalar a b va vb : scalar a va -> scalar b vb -> sc_sub a b = Ok (le_bytes 32 ((va - vb) mod l)).
Proof.
  intros (Ha & La & <- & _)%scalar_bytes (Hb & Lb & <- & _)%scalar_bytes. by apply sc_sub_spec.
Qed.

Lemma sc_add_scalar a b va vb : scalar a va -> scalar b vb -> sc_add a b = Ok (le_bytes 32 ((va + vb) mod l)).
Proof.
  intros (Ha & La & <- & _)%scalar_bytes (Hb & Lb & <- & _)%scalar_bytes. by apply sc_add_spec.
Qed.

Lemma sc_mulsub_scalar a b c va vb vc :
  scalar a va -> scalar b vb -> scalar c vc -> sc_mulsub a b c = Ok (le_bytes 32 ((vc - va * vb) mod l)).
Proof.
  intros (Ha & La & <- & _)%scalar_bytes (Hb & Lb & <- & _)%scalar_bytes (Hc & Lc & <- & _)%scalar_bytes.
  by apply sc_mulsub_spec.
Qed.

(** The final test of the verifiers: [c - c' = 0]. *)
Lemma sc_sub_isnonzero a b va vb :
  scalar a va -> scalar b vb -> returns (sc_sub a b) (fun c => sc_isnonzero c = if decide (va = vb) then 0 else 1).
Proof.
  intros Ha Hb. rewrite (sc_sub_scalar _ _ _ _ Ha Hb). cbn [returns].
  destruct (scalar_bytes _ _ (scalar_mod (va - vb))) as (Hc & _ & Hv & _).
  rewrite sc_isnonzero_spec, Hv by done. destruct Ha as [_ Ha], Hb as [_ Hb].
  assert ((va - vb) mod l = 0 <-> va = vb) as E.
  { split; [|intros ->; by rewrite Z.sub_diag]. intros H0%Z.mod_divide; [|lia]. destruct H0 as [k Hk].
    assert (k = 0) by nia. subst k. lia. }
  by destruct (decide ((va - vb) mod l = 0)), (decide (va = vb)); tauto.
Qed.

(** ** Random scalars *)
Lemma random_scalar_spec ndebug g :
  initialised g ->
  returns (random_scalar ndebug g) (fun '(g', k) => initialised g' /\ exists v, scalar k v).
Proof.
  intros Hg. unfold random_scalar. rewrite generate_spec by done. cbn [bind].
  destruct Hg as [_ Hst]. set (s := take 64 _).
  assert (length s = 64%nat /\ bytes s) as [Hl Hb].
  { unfold s. rewrite length_take, squeezed_length by done. split; [done|]. apply Forall_take, squeezed_bytes. }
  rewrite sc_reduce_spec by done. cbn [bind returns]. split.
  - split; [done|]. by apply iter_next_length.
  - eexists. apply scalar_mod.
Qed.

(** ** Points *)
Lemma encode_bytes A : bytes (encode A) /\ length (encode A) = 32%nat.
Proof. split; [apply le_bytes_bytes|apply le_bytes_length]. Qed.

Lemma decode_encode A :
  on_curve A -> returns (ge_frombytes_vartime (encode A)) (fun o => exists P, o = Some P /\ represents P A).
Proof.
  intros HA. destruct (encode_bytes A) as [Hb Hl].
  eapply returns_mono; [by apply ge_frombytes_vartime_spec|]. intros [P|] H.
  - destruct H as (A' & HP & E). exists P. split; [done|].
    pose proof (represents_curve _ _ HP) as HA'. by rewrite <- (encode_inj A' A HA' HA E).
  - by destruct (H A HA).
Qed.

(** Decoding an encoded point, as a step of a routine. *)
Lemma decode_step {T} A (k : option ge_p3 -> result T) Q :
  on_curve A -> (forall P, represents P A -> returns (k (Some P)) Q) ->
  returns (let! o := ge_frombytes_vartime (encode A) in k o) Q.
Proof.
  intros HA Hk. eapply returns_bind; [by apply decode_encode|]. intros o (P & -> & HP). by apply Hk.
Qed.

Lemma base_mult {ndebug} s v : scalar s v -> returns (ge_scalarmult_base ndebug s) (fun h => represents h (smul v B)).
Proof.
  intros H. destruct (scalar_bytes _ _ H) as (Hb & Hl & <- & _), (scalar_top _ _ H) as (b & Eb & Hb127).
  by eapply ge_scalarmult_base_spec.
Qed.

Lemma point_mult {ndebug} s v P A :
  scalar s v -> represents P A -> returns (ge_scalarmult ndebug s P) (fun h => represents h (smul v A)).
Proof.
  intros H HP. destruct (scalar_bytes _ _ H) as (Hb & Hl & <- & _), (scalar_top _ _ H) as (b & Eb & Hb127).
  by eapply ge_scalarmult_spec.
Qed.

Lemma double_mult a P b va vb A :
  scalar a va -> scalar b vb -> represents P A ->
  returns (ge_double_scalarmult_base_vartime a P b) (fun r => represents r (padd (smul va A) (smul vb B))).
Proof.
  intros (Ha & La & <- & Sa)%scalar_bytes (Hb & Lb & <- & Sb)%scalar_bytes HP.
  by apply ge_double_scalarmult_base_vartime_spec.
Qed.

(** The public key of a secret scalar. *)
Definition public (v : Z) : list Z := encode (smul v B).

Lemma smul_B_on_curve v : on_curve (smul v B).
Proof. apply smul_on_curve, B_on_curve. Qed.

Lemma public_spec {ndebug} s v : scalar s v -> (let! P := ge_scalarmult_base ndebug s in ge_p3_tobytes P) = Ok (public v).
Proof.
  intros H. pose proof (@base_mult ndebug _ _ H) as HP. apply returns_inv in HP as (P & -> & HP). cbn [bind].
  by apply ge_p3_tobytes_spec.
Qed.

(** The same, as a step of a routine. *)
Lemma public_step {T ndebug} s v (k : list Z -> result T) :
  scalar s v -> (let! P := ge_scalarmult_base ndebug s in let! x := ge_p3_tobytes P in k x) = k (public v).
Proof.
  intros H%(@public_spec ndebug). transitivity (bind (let! P := ge_scalarmult_base ndebug s in ge_p3_tobytes P) k).
  - symmetry. apply bind_assoc.
  - by rewrite H.
Qed.

Lemma mult_bytes_spec {ndebug} s v P A :
  scalar s v -> represents P A -> (let! Q := ge_scalarmult ndebug s P in ge_tobytes Q) = Ok (encode (smul v A)).
Proof.
  intros H HP. pose proof (@point_mult ndebug _ _ _ _ H HP) as HQ. apply returns_inv in HQ as (Q & -> & HQ). cbn [bind].
  by apply ge_tobytes_spec.
Qed.

Lemma public_mod v : public (v mod l) = public v.
Proof. unfold public. by rewrite smul_mod_l. Qed.

Lemma ok_some_inj {A} (a b : A) : Ok (Some a) = Ok (Some b) -> a = b.
Proof. congruence. Qed.

(** Distinct reduced scalars have distinct public keys. *)
Lemma public_inj v v' : 0 <= v < l -> 0 <= v' < l -> public v = public v' -> v = v'.
Proof.
  intros Hv Hv' H. apply encode_inj in H; [|apply smul_B_on_curve..].
  assert (smul (v - v') B ≡ₚ pzero) as H0.
  { unfold Z.sub. rewrite smul_add, smul_opp, H by apply B_on_curve. apply padd_neg, smul_B_on_curve. }
  destruct (base_exact _ H0) as [k Hk]. assert (k = 0) by nia. lia.
Qed.

(** ** Keys *)
Lemma generate_keys_spec ndebug recovery_key recover g :
  initialised g -> bytes recovery_key -> length recovery_key = 32%nat ->
  returns (generate_keys ndebug recovery_key recover g) (fun '(g', (key, sec, pub)) =>
    initialised g' /\ (recover = true -> g' = g /\ key = recovery_key) /\
    exists v, v = le_val key mod l /\ scalar sec v /\ pub = public v).
Proof.
  intros Hg Hb Hl. unfold generate_keys.
  assert (returns (if recover then Ok (g, recovery_key) else random_scalar ndebug g) (fun '(g', key) =>
    initialised g' /\ (recover = true -> g' = g /\ key = recovery_key) /\ bytes key /\ length key = 32%nat)) as H.
  { destruct recover; [done|]. eapply returns_mono; [by apply random_scalar_spec|].
    intros [g' k] [Hg' [v (Hkb & Hkl & _)%scalar_bytes]]. done. }
  eapply returns_bind; [exact H|]. intros [g' key] (Hg' & Hrec & Hkb & Hkl). cbv beta.
  rewrite sc_reduce32_spec by done. cbn [bind].
  rewrite (public_step _ _ _ (scalar_mod (le_val key))). cbn [bind returns].
  split; [done|]. split; [done|]. eexists. split; [done|]. split; [apply scalar_mod|done].
Qed.

Lemma check_key_spec key :
  bytes key -> length key = 32%nat ->
  returns (check_key key) (fun b => b = true <-> exists A, on_curve A /\ encode A = key).
Proof.
  intros Hb Hl. unfold check_key. eapply returns_bind; [by apply ge_frombytes_vartime_spec|].
  intros [P|] H; cbn [returns].
  - split; [intros _|done]. destruct H as (A & HP & E). exists A.
    split; [exact (represents_curve P A HP)|exact E].
  - split; [discriminate|]. intros (A & HA & E). destruct (H A HA E).
Qed.

Lemma secret_key_to_public_key_spec {ndebug} sec :
  bytes sec -> length sec = 32%nat ->
  secret_key_to_public_key ndebug sec = Ok (if decide (le_val sec < l) then Some (public (le_val sec)) else None).
Proof.
  intros Hb Hl. unfold secret_key_to_public_key. rewrite sc_check_spec by done. cbn [bind].
  destruct (decide (le_val sec < l)) as [H|]; [|done]. cbn [Z.eqb negb].
  by rewrite (public_step _ _ _ (scalar_of _ Hb Hl H)).
Qed.

(** ** Derivations *)
Lemma generate_key_derivation_spec ndebug A key2 v :
  on_curve A -> scalar key2 v ->
  generate_key_derivation ndebug (encode A) key2 = Ok (Some (encode (smul 8 (smul v A)))).
Proof.
  intros HA Hv. enough (returns (generate_key_derivation ndebug (encode A) key2)
    (fun o => o = Some (encode (smul 8 (smul v A))))) as H by (by apply returns_inv in H as (? & -> & ->)).
  unfold generate_key_derivation. rewrite (assert_scalar_ok _ _ _ Hv). cbn [bind].
  apply decode_step; [done|]. intros P HP.
  eapply returns_bind; [exact (point_mult _ _ _ _ Hv HP)|]. intros P2 HP2.
  eapply returns_bind; [exact (ge_mul8_represents _ _ HP2)|]. intros P3 HP3.
  eapply returns_bind; [exact (ge_p1p1_to_p2_represents _ _ HP3)|]. intros P4 HP4.
  by rewrite (ge_tobytes_spec _ _ HP4).
Qed.

(** The scalar of an output: the hash of the derivation and the index. *)
Definition output_scalar (derivation : list Z) (output_index : Z) (h : Z) : Prop :=
  exists v, varint_val v = output_index /\ (length v <= VARINT_SIZE)%nat /\ h = Hs (derivation ++ v).

Lemma derivation_to_scalar_spec ndebug derivation i :
  0 <= i < 2 ^ 64 ->
  exists h, output_scalar derivation i h /\ derivation_to_scalar ndebug derivation i = Ok (le_bytes 32 h) /\
    scalar (le_bytes 32 h) h.
Proof.
  intros Hi. assert (0 <= i < 128 ^ Z.of_nat VARINT_SIZE) as Hi' by (change (128 ^ Z.of_nat VARINT_SIZE) with (2 ^ 70); lia).
  pose proof (write_varint_spec 9 i Hi') as H. apply returns_inv in H as (v & Ev & _ & Hv & Hl).
  exists (Hs (derivation ++ v)). split; [by exists v|]. split; [|apply Hs_scalar].
  unfold derivation_to_scalar, VARINT_SIZE. rewrite Ev. cbn [bind]. unfold c_assert.
  replace (length v <=? 10)%nat with true by (symmetry; by apply Nat.leb_le).
  destruct ndebug; apply hash_to_scalar_spec.
Qed.

Lemma derive_public_key_spec ndebug derivation i h A :
  on_curve A -> derivation_to_scalar ndebug derivation i = Ok (le_bytes 32 h) -> scalar (le_bytes 32 h) h ->
  derive_public_key ndebug derivation i (encode A) = Ok (Some (encode (padd A (smul h B)))).
Proof.
  intros HA Eh Hh. enough (returns (derive_public_key ndebug derivation i (encode A))
    (fun o => o = Some (encode (padd A (smul h B))))) as H by (by apply returns_inv in H as (? & -> & ->)).
  unfold derive_public_key. apply decode_step; [done|]. intros P HP. rewrite Eh. cbn [bind].
  eapply returns_bind; [exact (base_mult _ _ Hh)|]. intros P2 HP2. cbv beta in HP2. do 3 ge_step.
  by rewrite (ge_tobytes_spec _ _ HR1).
Qed.

Lemma derive_subaddress_public_key_spec ndebug derivation i h A :
  on_curve A -> derivation_to_scalar ndebug derivation i = Ok (le_bytes 32 h) -> scalar (le_bytes 32 h) h ->
  derive_subaddress_public_key ndebug (encode A) derivation i = Ok (Some (encode (padd A (pneg (smul h B))))).
Proof.
  intros HA Eh Hh. enough (returns (derive_subaddress_public_key ndebug (encode A) derivation i)
    (fun o => o = Some (encode (padd A (pneg (smul h B)))))) as H by (by apply returns_inv in H as (? & -> & ->)).
  unfold derive_subaddress_public_key. apply decode_step; [done|]. intros P HP. rewrite Eh. cbn [bind].
  eapply returns_bind; [exact (base_mult _ _ Hh)|]. intros P2 HP2. cbv beta in HP2. do 3 ge_step.
  by rewrite (ge_tobytes_spec _ _ HR1).
Qed.

Lemma derive_secret_key_spec ndebug derivation i h base v :
  scalar base v -> derivation_to_scalar ndebug derivation i = Ok (le_bytes 32 h) -> scalar (le_bytes 32 h) h ->
  derive_secret_key ndebug derivation i base = Ok (le_bytes 32 ((v + h) mod l)).
Proof.
  intros Hv Eh Hh. unfold derive_secret_key. rewrite (assert_scalar_ok _ _ _ Hv). cbn [bind]. rewrite Eh. cbn [bind].
  by apply sc_add_scalar.
Qed.

(** ** Signatures *)

(** The commitment that a verifier recomputes: [c * x * A + (k - c * x) * A = k * A] when [A] has order [l]. *)
Lemma response_commitment A c x k :
  on_curve A -> smul l A ≡ₚ pzero ->
  padd (smul c (smul x A)) (smul ((k - c * x) mod l) A) ≡ₚ smul k A.
Proof.
  intros HA Hl. rewrite (smul_mod_order A _ HA Hl), <- smul_mul, <- smul_add by exact HA.
  by replace (c * x + (k - c * x)) with k by ring.
Qed.

Lemma is_key_of_spec {ndebug} sec v : scalar sec v -> is_key_of ndebug (public v) sec = Ok true.
Proof.
  intros H. unfold is_key_of. rewrite (public_step _ _ _ H). by rewrite bool_decide_eq_true_2.
Qed.

(** What a signature by [v] is: the challenge binds the commitment to the message. *)
Definition signed_by (prefix_hash : list Z) (v : Z) (s : signature) : Prop :=
  exists k c, c = Hs (prefix_hash ++ public v ++ public k) /\
    s = Sig (le_bytes 32 c) (le_bytes 32 ((k - c * v) mod l)).

Lemma generate_signature_spec ndebug prefix_hash sec v g :
  initialised g -> scalar sec v ->
  returns (generate_signature ndebug prefix_hash (public v) sec g) (fun '(g', s) =>
    initialised g' /\ signed_by prefix_hash v s).
Proof.
  intros Hg Hv. unfold generate_signature. rewrite (assert_scalar_ok _ _ _ Hv). cbn [bind].
  rewrite (c_assert_true _ _ (is_key_of_spec _ _ Hv)). cbn [bind].
  eapply returns_bind; [by apply random_scalar_spec|]. intros [g' kb] [Hg' [k Hk]]. cbv beta.
  rewrite (public_step _ _ _ Hk), hash_to_scalar_spec. cbn [bind].
  rewrite (sc_mulsub_scalar _ _ _ _ _ _ (Hs_scalar _) Hv Hk). cbn [bind returns].
  split; [done|]. by eexists k, _.
Qed.

(** The test at the end of the verifiers. *)
Lemma final_test data c vc :
  scalar c vc ->
  returns (let! h := hash_to_scalar data in let! h := sc_sub h c in Ok (sc_isnonzero h =? 0))
    (fun b => b = bool_decide (Hs data = vc)).
Proof.
  intros Hc. rewrite hash_to_scalar_spec. cbn [bind].
  eapply returns_bind; [exact (sc_sub_isnonzero _ _ _ _ (Hs_scalar _) Hc)|]. intros z Hz. cbn [returns].
  rewrite Hz. by destruct (decide _) as [E|E]; [rewrite bool_decide_eq_true_2|rewrite bool_decide_eq_false_2].
Qed.

Lemma check_key_encode A : on_curve A -> check_key (encode A) = Ok true.
Proof.
  intros HA. unfold check_key. pose proof (decode_encode A HA) as H.
  apply returns_inv in H as (? & E & P & -> & _). by rewrite E.
Qed.

(** The verification equation. *)
Definition verifies (prefix_hash : list Z) (A : pt) (vc vr : Z) : Prop :=
  Hs (prefix_hash ++ encode A ++ encode (padd (smul vc A) (smul vr B))) = vc.

#[global] Typeclasses Opaque verifies.

#[export] Instance verifies_dec prefix_hash A vc vr : Decision (verifies prefix_hash A vc vr).
Proof. unfold verifies. apply _. Defined.

Lemma check_signature_spec ndebug prefix_hash A c r vc vr :
  on_curve A -> scalar c vc -> scalar r vr ->
  check_signature ndebug prefix_hash (encode A) (Sig c r) = Ok (bool_decide (verifies prefix_hash A vc vr)).
Proof.
  intros HA Hc Hr. match goal with |- _ = Ok ?b =>
    enough (returns (check_signature ndebug prefix_hash (encode A) (Sig c r)) (fun x => x = b)) as H
      by (by apply returns_inv in H as (? & -> & ->)) end.
  unfold check_signature. rewrite (c_assert_true _ _ (check_key_encode A HA)). cbn [bind].
  apply decode_step; [done|]. intros P HP.
  rewrite (bad_scalars_ok _ _ _ _ Hc Hr). cbn [bind sig_c sig_r].
  eapply returns_bind; [exact (double_mult _ _ _ _ _ _ Hc Hr HP)|]. intros Q HQ.
  rewrite (ge_tobytes_spec _ _ HQ). cbn [bind]. by apply final_test.
Qed.

Lemma signed_verifies prefix_hash v s :
  signed_by prefix_hash v s ->
  exists c r vc vr, s = Sig c r /\ scalar c vc /\ scalar r vr /\ verifies prefix_hash (smul v B) vc vr.
Proof.
  intros (k & c & Ec & ->). eexists _, _, c, _. split; [done|].
  split; [rewrite Ec; apply Hs_scalar|]. split; [apply scalar_mod|]. unfold verifies.
  rewrite (response_commitment B c v k B_on_curve base_order). symmetry. exact Ec.
Qed.

(** ** Transaction proofs *)
Lemma try_step A (k : ge_p3 -> result bool) Q :
  on_curve A -> (forall P, represents P A -> returns (k P) Q) ->
  returns (try! P := ge_frombytes_vartime (encode A) in k P) Q.
Proof. intros HA Hk. unfold bind_bool. by apply (decode_step A (fun o => match o with Some a => k a | None => Ok false end)). Qed.

Lemma try_multiple {ndebug} s v P A (k : ge_p3 -> result bool) Q :
  scalar s v -> represents P A -> (forall P, represents P (smul v A) -> returns (k P) Q) ->
  returns (try! P := recoded_multiple ndebug s P in k P) Q.
Proof.
  intros Hs HP Hk. unfold bind_bool, recoded_multiple. pose proof (represents_curve _ _ HP) as HA.
  rewrite !bind_assoc. eapply returns_bind; [exact (point_mult _ _ _ _ Hs HP)|]. intros R HR. cbv beta in HR.
  rewrite (ge_tobytes_spec _ _ HR). cbn [bind].
  apply (decode_step (smul v A) (fun o => match o with Some a => k a | None => Ok false end)); [|done].
  by apply smul_on_curve.
Qed.

(** The point that multiplies the transaction key: the recipient's spend key, or the base point. *)
Definition tx_base (B0 : option pt) : pt := default B B0.

Definition option_on_curve (B0 : option pt) : Prop := match B0 with Some A => on_curve A | None => True end.

Lemma tx_base_on_curve B0 : option_on_curve B0 -> on_curve (tx_base B0).
Proof. destruct B0; [done|]. intros _. apply B_on_curve. Qed.

(** The commitments that the proof hashes. *)
Definition tx_challenge (prefix_hash : list Z) (D0 X Y : pt) : Z :=
  Hs (prefix_hash ++ encode D0 ++ encode X ++ encode Y).

(** The optional key, decoded. *)
Definition option_represents (o : option ge_p3) (B0 : option pt) : Prop :=
  match o, B0 with Some P, Some A => represents P A | None, None => True | _, _ => False end.

Lemma try_option B0 (k : option ge_p3 -> result bool) Q :
  option_on_curve B0 -> (forall o, option_represents o B0 -> returns (k o) Q) ->
  returns (try! B_p3 := (match encode <$> B0 with
     | Some B => let! o := ge_frombytes_vartime B in Ok (match o with Some P => Some (Some P) | None => None end)
     | None => Ok (Some None) end) in k B_p3) Q.
Proof.
  intros HB Hk. unfold bind_bool. destruct B0 as [B1|]; cbn [fmap option_fmap option_map]; [|by apply (Hk None)].
  rewrite bind_assoc.
  apply (decode_step B1 (fun o => let! o := Ok (match o with Some P => Some (Some P) | None => None end) in
    match o with Some a => k a | None => Ok false end)); [done|]. intros P HP. cbn [bind]. by apply Hk.
Qed.

Lemma try_base {ndebug} B0 oB r vr (k : ge_p3 -> result bool) Q :
  option_represents oB B0 -> scalar r vr -> (forall P, represents P (smul vr (tx_base B0)) -> returns (k P) Q) ->
  returns (try! rB_p3 := (match oB with
     | Some B_p3 => recoded_multiple ndebug r B_p3
     | None => let! rG_p3 := ge_scalarmult_base ndebug r in Ok (Some rG_p3) end) in k rB_p3) Q.
Proof.
  intros HoB Hr Hk. destruct oB as [PB|], B0 as [B1|]; try done; [by apply (try_multiple _ _ _ _ _ _ Hr HoB)|].
  unfold bind_bool. rewrite bind_assoc. eapply returns_bind; [exact (base_mult _ _ Hr)|]. intros P HP.
  cbn [bind]. by apply Hk.
Qed.

Lemma check_tx_proof_spec {ndebug} prefix_hash R0 A0 B0 D0 c r vc vr :
  on_curve R0 -> on_curve A0 -> option_on_curve B0 -> on_curve D0 -> scalar c vc -> scalar r vr ->
  returns (check_tx_proof ndebug prefix_hash (encode R0) (encode A0) (encode <$> B0) (encode D0) (Sig c r))
    (fun b => b = bool_decide (tx_challenge prefix_hash D0
       (padd (smul vc R0) (smul vr (tx_base B0))) (padd (smul vc D0) (smul vr A0)) = vc)).
Proof.
  intros HR0 HA0 HB0 HD0 Hc Hr. unfold check_tx_proof. apply try_step; [done|]. intros R HR.
  apply try_step; [done|]. intros A HA. apply (try_option B0); [done|]. intros oB HoB.
  apply try_step; [done|]. intros D HD.
  rewrite (bad_scalars_ok _ _ _ _ Hc Hr). cbn [bind sig_c sig_r].
  apply (try_multiple _ _ _ _ _ _ Hc HR). intros cR HcR.
  apply (try_base B0 oB r vr _ _ HoB Hr). intros rB HrB. do 3 ge_step.
  eapply returns_bind; [exact (point_mult _ _ _ _ Hc HD)|]. intros cD HcD. cbv beta in HcD.
  eapply returns_bind; [exact (point_mult _ _ _ _ Hr HA)|]. intros rA HrA. cbv beta in HrA.
  rewrite (ge_tobytes_spec _ _ HcD), (ge_tobytes_spec _ _ HrA). cbn [bind].
  apply try_step; [by apply smul_on_curve|]. intros cD3 HcD3.
  apply try_step; [by apply smul_on_curve|]. intros rA3 HrA3. do 3 ge_step.
  rewrite (ge_tobytes_spec _ _ HR3). cbn [bind]. rewrite (ge_tobytes_spec _ _ HR6). cbn [bind].
  by apply final_test.
Qed.

Lemma decode_or_throw_spec A : on_curve A -> returns (decode_or_throw (encode A)) (fun P => represents P A).
Proof.
  intros HA. unfold decode_or_throw.
  apply (decode_step A (fun o => match o with Some P => Ok P | None => Fail Thrown end)); done.
Qed.

Lemma scalarmult_to_bytes_spec {ndebug} k v o B0 :
  scalar k v -> option_represents o B0 -> scalarmult_to_bytes ndebug k o = Ok (encode (smul v (tx_base B0))).
Proof.
  intros Hk Ho. destruct o as [P|], B0 as [B1|]; try done; [by apply mult_bytes_spec|by apply public_spec].
Qed.

(** What a proof by [v] is: one response for the two commitments [k * B0] and [k * A0]. *)
Definition proved_by (prefix_hash : list Z) (A0 B0 : pt) (v : Z) (s : signature) : Prop :=
  exists k c, c = tx_challenge prefix_hash (smul v A0) (smul k B0) (smul k A0) /\
    s = Sig (le_bytes 32 c) (le_bytes 32 ((k - c * v) mod l)).

Lemma decode_option B0 :
  option_on_curve B0 ->
  returns (match encode <$> B0 with
    | Some B => let! P := decode_or_throw B in Ok (Some P) | None => Ok None end)
    (fun o => option_represents o B0).
Proof.
  intros HB. destruct B0 as [B1|]; [|done]. cbn [fmap option_fmap option_map].
  eapply returns_bind; [by apply decode_or_throw_spec|]. done.
Qed.

Lemma generate_tx_proof_spec ndebug prefix_hash A0 B0 r v g :
  initialised g -> on_curve A0 -> option_on_curve B0 -> scalar r v ->
  returns (generate_tx_proof ndebug prefix_hash (encode (smul v (tx_base B0))) (encode A0) (encode <$> B0)
      (encode (smul v A0)) r g)
    (fun '(g', s) => initialised g' /\ proved_by prefix_hash A0 (tx_base B0) v s).
Proof.
  intros Hg HA HB Hv. unfold generate_tx_proof. pose proof (tx_base_on_curve _ HB) as HT.
  eapply returns_bind; [by apply decode_or_throw_spec, smul_on_curve|]. intros R _.
  eapply returns_bind; [by apply decode_or_throw_spec|]. intros A_p3 HA3. cbv beta in HA3.
  eapply returns_bind; [by apply decode_option|]. intros oB HoB. cbv beta in HoB.
  eapply returns_bind; [by apply decode_or_throw_spec, smul_on_curve|]. intros D _.
  rewrite (assert_scalar_ok _ _ _ Hv). cbn [bind].
  assert (forall k vk, scalar k vk -> scalarmult_to_bytes ndebug k (Some A_p3) = Ok (encode (smul vk A0))) as HmA
    by (intros k vk Hk; exact (scalarmult_to_bytes_spec k vk (Some A_p3) (Some A0) Hk HA3)).
  rewrite (scalarmult_to_bytes_spec _ _ _ _ Hv HoB), (HmA _ _ Hv). cbn [bind].
  rewrite !(c_assert_true ndebug) by (by rewrite bool_decide_eq_true_2). cbn [bind].
  eapply returns_bind; [by apply random_scalar_spec|]. intros [g' kb] [Hg' [k Hk]]. cbv beta.
  rewrite (scalarmult_to_bytes_spec _ _ _ _ Hk HoB), (HmA _ _ Hk). cbn [bind].
  rewrite hash_to_scalar_spec. cbn [bind].
  rewrite (sc_mulsub_scalar _ _ _ _ _ _ (Hs_scalar _) Hv Hk). cbn [bind returns].
  split; [done|]. by eexists k, _.
Qed.

Lemma proved_checks prefix_hash A0 B0 v s :
  on_curve A0 -> on_curve B0 -> smul l A0 ≡ₚ pzero -> smul l B0 ≡ₚ pzero -> proved_by prefix_hash A0 B0 v s ->
  exists c r vc vr, s = Sig c r /\ scalar c vc /\ scalar r vr /\
    tx_challenge prefix_hash (smul v A0) (padd (smul vc (smul v B0)) (smul vr B0))
      (padd (smul vc (smul v A0)) (smul vr A0)) = vc.
Proof.
  intros HA HB LA LB (k & c & Ec & ->). eexists _, _, c, _. split; [done|].
  split; [rewrite Ec; apply Hs_scalar|]. split; [apply scalar_mod|]. unfold tx_challenge.
  rewrite (response_commitment B0 c v k HB LB), (response_commitment A0 c v k HA LA). symmetry. exact Ec.
Qed.

Lemma bad_scalars_spec c r :
  bytes c -> length c = 32%nat -> bytes r -> length r = 32%nat ->
  bad_scalars (Sig c r) = Ok (negb (bool_decide (le_val c < l /\ le_val r < l))).
Proof.
  intros Hc Lc Hr Lr. unfold bad_scalars. cbn [sig_c sig_r]. rewrite !sc_check_spec by done. cbn [bind].
  destruct (decide (le_val c < l)) as [H1|H1]; cbn [Z.eqb negb].
  - cbn [bind]. destruct (decide (le_val r < l)) as [H2|H2];
      [by rewrite bool_decide_eq_true_2|by rewrite bool_decide_eq_false_2 by tauto].
  - by rewrite bool_decide_eq_false_2 by tauto.
Qed.
