(* ===== verification/RingFacts.v ===== *)
(** * Key images and ring signatures

    [hash_to_ec] sends a key to a point of order [l]; key images are multiples
    of it.  The ring signature routines are related to the verification
    equation over the members' keys and their hash points. *)

From stdpp Require Import base list numbers.
From Stdlib Require Import ZArith Lia.
From S2P Require Import Prelude Bytes Field FieldFacts Scalar ScalarFacts CurveData Group Edwards GroupFacts GroupSpec BaseTable ScalarMult ScalarMultFacts PointCodec HashToPoint GroupOrder Keccak KeccakFacts Random Crypto CryptoFacts.

(** ** Hashing a key to a point *)
Definition hashes_to (key : list Z) (H : pt) : Prop :=
  exists E, elligator (le_val (Sponge.hash 136 HASH_SIZE key)) E /\ H ≡ₚ smul 8 E.

Lemma elligator_on_curve u E : elligator u E -> on_curve E.
Proof. by intros (z & s & _ & _ & HE & _). Qed.

Lemma hashes_to_on_curve key H : hashes_to key H -> on_curve H.
Proof. intros (E & HE & ->). by eapply smul_on_curve, elligator_on_curve. Qed.

Lemma hashes_to_order key H : hashes_to key H -> smul l H ≡ₚ pzero.
Proof. intros (E & HE & ->). by eapply cofactor_order, elligator_on_curve. Qed.

Lemma hashes_to_unique key H H' : hashes_to key H -> hashes_to key H' -> H ≡ₚ H'.
Proof. intros (E & HE & ->) (E' & HE' & ->). by rewrite (elligator_unique _ _ _ HE HE'). Qed.

Lemma hash_to_ec_total {ndebug} key :
  returns (hash_to_ec ndebug key) (fun P => exists H, hashes_to key H /\ represents P H).
Proof.
  unfold hash_to_ec. rewrite cn_fast_hash_spec. cbn [bind].
  destruct (hash_bytes 136 HASH_SIZE key) as [Hb Hl]; [lia|unfold HASH_SIZE; lia|].
  eapply returns_bind; [by apply ge_fromfe_frombytes_vartime_spec|]. intros P (E & HE & HP).
  eapply returns_bind; [by apply ge_mul8_represents|]. intros Q HQ. cbv beta in HQ.
  eapply returns_mono; [by apply ge_p1p1_to_p3_represents|]. intros R HR.
  exists (smul 8 E). split; [by exists E|done].
Qed.

Lemma hash_to_ec_spec {ndebug} key H :
  hashes_to key H -> returns (hash_to_ec ndebug key) (fun P => represents P H).
Proof.
  intros HH. eapply returns_mono; [apply hash_to_ec_total|]. intros P (H' & HH' & HP).
  by rewrite (hashes_to_unique _ _ _ HH HH').
Qed.

Lemma hashes_to_exists key : exists H, hashes_to key H.
Proof. pose proof (@hash_to_ec_total true key) as (P & _ & H & HH & _)%returns_inv. by exists H. Qed.

Lemma generate_key_image_spec {ndebug} pub sec v H :
  scalar sec v -> hashes_to pub H -> generate_key_image ndebug pub sec = Ok (encode (smul v H)).
Proof.
  intros Hv HH. unfold generate_key_image. rewrite (assert_scalar_ok _ _ _ Hv). cbn [bind].
  pose proof (@hash_to_ec_spec ndebug pub H HH) as (P & -> & HP)%returns_inv. cbn [bind]. by apply mult_bytes_spec.
Qed.

(** ** The members of a ring

    A member is its public key and the hash point of that key. *)
Definition member_ok (m : pt * pt) : Prop := on_curve m.1 /\ hashes_to (encode m.1) m.2.

Definition keys (ring : list (pt * pt)) : list (list Z) := (fun m => encode m.1) <$> ring.

Definition sig_scalars (s : signature) (v : Z * Z) : Prop := scalar (sig_c s) v.1 /\ scalar (sig_r s) v.2.

(** The two commitments of a member under a challenge and a response. *)
Definition commitment (I : pt) (m : pt * pt) (v : Z * Z) : list Z :=
  encode (padd (smul v.1 m.1) (smul v.2 B)) ++ encode (padd (smul v.2 m.2) (smul v.1 I)).

Lemma ring_pair_spec {ndebug} pre tmp3 m I s v :
  member_ok m -> represents tmp3 m.1 -> on_curve I -> odd_multiples pre I -> sig_scalars s v ->
  returns (ring_pair ndebug pre tmp3 (encode m.1) s) (fun '(a, b) => a ++ b = commitment I m v).
Proof.
  intros [HA HH] HP HI Hpre [Hc Hr]. unfold ring_pair.
  eapply returns_bind; [exact (double_mult _ _ _ _ _ _ Hc Hr HP)|]. intros T1 HT1. cbv beta in HT1.
  rewrite (ge_tobytes_spec _ _ HT1). cbn [bind].
  eapply returns_bind; [exact (hash_to_ec_spec _ _ HH)|]. intros P HPH. cbv beta in HPH.
  destruct (scalar_bytes _ _ Hc) as (Bc & Lc & Ec & Vc), (scalar_bytes _ _ Hr) as (Br & Lr & Er & Vr).
  rewrite <- Ec in Vc. rewrite <- Er in Vr.
  eapply returns_bind; [exact (ge_double_scalarmult_precomp_vartime_spec _ _ _ _ _ _ Br Lr Vr Bc Lc Vc HPH HI Hpre)|].
  rewrite Ec, Er. intros T2 HT2. rewrite (ge_tobytes_spec _ _ HT2). done.
Qed.

(** ** Verification *)
Definition challenge_sum (vs : list (Z * Z)) : Z := foldr (fun v n => v.1 + n) 0 vs.

Definition commitments (I : pt) (ring : list (pt * pt)) (vs : list (Z * Z)) : list Z :=
  mjoin (zip_with (commitment I) ring vs).

(** The verification equation: the challenges add up to the hash of the commitments. *)
Definition ring_verifies (prefix_hash : list Z) (I : pt) (ring : list (pt * pt)) (vs : list (Z * Z)) : Prop :=
  Hs (prefix_hash ++ commitments I ring vs) = challenge_sum vs mod l.

#[global] Typeclasses Opaque ring_verifies.

#[export] Instance ring_verifies_dec prefix_hash I ring vs : Decision (ring_verifies prefix_hash I ring vs).
Proof. unfold ring_verifies. apply _. Defined.

Lemma challenge_sum_app vs v : challenge_sum (vs ++ [v]) = challenge_sum vs + v.1.
Proof. unfold challenge_sum. rewrite foldr_app. simpl. induction vs as [|w vs IH]; simpl; lia. Qed.

Lemma challenge_sum_insert vs i w v :
  vs !! i = Some w -> challenge_sum (<[i := v]> vs) = challenge_sum vs + (v.1 - w.1).
Proof.
  unfold challenge_sum. revert i. induction vs as [|x vs IH]; intros [|i] H; simpl in *; [done..| |].
  - injection H as ->. lia.
  - rewrite (IH _ H). lia.
Qed.

Lemma sc_0_scalar : scalar sc_0 0.
Proof. split; [by vm_compute|done]. Qed.

Lemma scalar_sum sum n c v : scalar sum (n mod l) -> scalar c v -> sc_add sum c = Ok (le_bytes 32 ((n + v) mod l)).
Proof.
  intros Hs Hc. rewrite (sc_add_scalar _ _ _ _ Hs Hc). by rewrite Z.add_mod_idemp_l by (pose proof l_bound; lia).
Qed.

Lemma commitments_S I ring vs k m v :
  ring !! k = Some m -> vs !! k = Some v ->
  commitments I (take (S k) ring) (take (S k) vs) = commitments I (take k ring) (take k vs) ++ commitment I m v.
Proof.
  intros Hm Hv. unfold commitments.
  rewrite (take_S_r _ _ _ Hm), (take_S_r _ _ _ Hv), zip_with_app, join_app.
  - cbn [zip_with mjoin list_join]. by rewrite app_nil_r.
  - apply lookup_lt_Some in Hm, Hv. rewrite !length_take. lia.
Qed.

(** The commitments and the challenges of the first [k] members. *)
Section Verifier.
Context (ndebug : bool) (I : pt) (pre : list ge_cached) (ring : list (pt * pt)) (sig : list signature) (vs : list (Z * Z)).
Hypothesis HI : on_curve I.
Hypothesis Hpre : odd_multiples pre I.
Hypothesis Hring : Forall member_ok ring.
Hypothesis Hsig : Forall2 sig_scalars sig vs.
Hypothesis Hlen : length ring = length vs.

Definition checked (k : nat) (acc : option (list Z * list Z)) : Prop :=
  exists sum, acc = Some (sum, commitments I (take k ring) (take k vs)) /\ scalar sum (challenge_sum (take k vs) mod l).

Lemma check_step_spec k acc :
  (k < length ring)%nat -> checked k acc -> returns (check_step ndebug pre (keys ring) sig k acc) (checked (S k)).
Proof using All.
  intros Hk (sum & -> & Hsum). destruct (lookup_lt_is_Some_2 ring k Hk) as [m Hm].
  destruct (lookup_lt_is_Some_2 vs k) as [v Hv]; [lia|].
  destruct (Forall2_lookup_r _ _ _ _ _ Hsig Hv) as (s & Es & Hs). pose proof (Forall_lookup_1 _ _ _ _ Hring Hm) as Hok.
  unfold check_step. rewrite (get_ok _ _ _ Es). cbn [bind]. destruct s as [c r]. pose proof Hs as [Hc Hr].
  cbn [sig_c sig_r] in Hc, Hr. rewrite (bad_scalars_ok _ _ _ _ Hc Hr). cbn [bind].
  assert (keys ring !! k = Some (encode m.1)) as Ek by (unfold keys; by rewrite list_lookup_fmap, Hm).
  rewrite (get_ok _ _ _ Ek). cbn [bind].
  apply decode_step; [exact (proj1 Hok)|]. intros P HP.
  eapply returns_bind; [by eapply ring_pair_spec|]. intros [a b] Hab. cbn [sig_c].
  rewrite (scalar_sum _ _ _ _ Hsum Hc). cbn [bind returns].
  eexists. split; [rewrite (commitments_S _ _ _ _ _ _ Hm Hv), <- Hab; reflexivity|].
  rewrite (take_S_r _ _ _ Hv), challenge_sum_app. apply scalar_mod.
Qed.
End Verifier.

Lemma check_keys_spec ring :
  Forall member_ok ring ->
  for_ (length (keys ring)) (fun i _ => let! pub := get (keys ring) i in c_assert false (check_key pub)) 0 tt = Ok tt.
Proof.
  intros Hring. enough (returns (for_ (length (keys ring))
    (fun i _ => let! pub := get (keys ring) i in c_assert false (check_key pub)) 0 tt) (fun _ => True)) as H
    by (by apply returns_inv in H as ([] & -> & _)).
  apply (for_inv _ _ 0 tt (fun _ _ => True)); [done|]. intros k _ Hk _.
  destruct (lookup_lt_is_Some_2 (keys ring) k) as [pub Hp]; [lia|]. rewrite (get_ok _ _ _ Hp). cbn [bind].
  unfold keys in Hp. rewrite list_lookup_fmap in Hp. apply fmap_Some in Hp as (m & Hm & ->).
  rewrite (c_assert_true false); [done|]. apply check_key_encode. by destruct (Forall_lookup_1 _ _ _ _ Hring Hm).
Qed.

Lemma check_ring_signature_spec ndebug prefix_hash I ring sig vs :
  on_curve I -> Forall member_ok ring -> Forall2 sig_scalars sig vs -> length ring = length vs ->
  returns (check_ring_signature ndebug prefix_hash (encode I) (keys ring) sig)
    (fun b => b = bool_decide (ring_verifies prefix_hash I ring vs)).
Proof.
  intros HI Hring Hsig Hlen. unfold check_ring_signature. rewrite (check_keys_spec _ Hring).
  replace (if ndebug then Ok tt else Ok tt) with (Ok tt) by (by destruct ndebug). cbn [bind].
  apply try_step; [done|]. intros P HP.
  eapply returns_bind; [by apply ge_dsm_precomp_spec|]. intros pre Hpre. unfold bind_bool.
  assert (length (keys ring) = length ring) as Lk by (unfold keys; by rewrite length_fmap). rewrite Lk.
  eapply returns_bind.
  { apply (for_inv _ _ 0 _ (checked I ring vs)).
    - eexists. split; [done|]. change (0 mod l) with 0. apply sc_0_scalar.
    - intros k a Hk Ha. eapply check_step_spec; try done. lia. }
  intros o (sum & -> & Hsum). cbn beta. rewrite !take_ge in * by lia. by apply final_test.
Qed.

(** ** Signing *)
Lemma decode_or_abort_spec A : on_curve A -> returns (decode_or_abort (encode A)) (fun P => represents P A).
Proof.
  intros HA. unfold decode_or_abort.
  apply (decode_step A (fun o => match o with Some P => Ok P | None => Fail Aborted end)); done.
Qed.

(** The commitments of the signer's own place: the nonce times the two points. *)
Definition nonce_commitment (m : pt * pt) (k : Z) : list Z := encode (smul k B) ++ encode (smul k m.2).

(** The response closes the equation at the signer's place. *)
Lemma nonce_commitment_spec m v k c :
  m.1 ≡ₚ smul v B -> on_curve m.2 -> smul l m.2 ≡ₚ pzero ->
  commitment (smul v m.2) m (c, (k - c * v) mod l) = nonce_commitment m k.
Proof.
  intros Hm HH Hl. unfold commitment, nonce_commitment. cbn [fst snd]. f_equal.
  - by rewrite Hm, (response_commitment B c v k B_on_curve base_order).
  - by rewrite padd_comm, (response_commitment m.2 c v k HH Hl).
Qed.

Section Signer.
Context (ndebug : bool) (I : pt) (pre : list ge_cached) (ring : list (pt * pt)) (sec_index : nat).
Hypothesis HI : on_curve I.
Hypothesis Hpre : odd_multiples pre I.
Hypothesis Hring : Forall member_ok ring.

(** What a place of the ring holds: the signer's is still open. *)
Definition place (ko : option (list Z)) (i : nat) (m : pt * pt) (s : signature) (v : Z * Z) (com : list Z) : Prop :=
  if decide (i = sec_index) then v = (0, 0) /\ exists kb k, ko = Some kb /\ scalar kb k /\ com = nonce_commitment m k
  else sig_scalars s v /\ com = commitment I m v.

Lemma place_other ko ko' i m s v com : i <> sec_index -> place ko i m s v com -> place ko' i m s v com.
Proof using Type. intros Hi. unfold place. by rewrite !decide_False. Qed.

(** The state after [k] places. *)
Definition signed_upto (k : nat) (st : ring_state) : Prop :=
  initialised (ring_rng st) /\
  exists vs coms, length vs = k /\ length coms = k /\ length (ring_sig st) = k /\
    ring_ab st = mjoin coms /\ scalar (ring_sum st) (challenge_sum vs mod l) /\
    forall i m s v com, ring !! i = Some m -> ring_sig st !! i = Some s -> vs !! i = Some v -> coms !! i = Some com ->
      place (ring_k st) i m s v com.

Lemma signed_extend k st m g' sum' s v com ko :
  signed_upto k st -> ring !! k = Some m -> initialised g' ->
  (forall n, scalar (ring_sum st) (n mod l) -> scalar sum' ((n + v.1) mod l)) ->
  (k <> sec_index -> ko = ring_k st) -> place ko k m s v com ->
  signed_upto (S k) (Ring g' sum' (ring_ab st ++ com) (ring_sig st ++ [s]) ko).
Proof using Type.
  intros (_ & vs & coms & Lv & Lc & Ls & Eab & Hsum & Hpl) Hm Hg Hs Hko Hp. split; [done|]. cbn [ring_sum ring_ab ring_sig ring_k].
  exists (vs ++ [v]), (coms ++ [com]). rewrite !length_app. cbn [length].
  split_and!; [lia|lia|lia| | |].
  - rewrite Eab, join_app. cbn [mjoin list_join]. by rewrite app_nil_r.
  - rewrite challenge_sum_app. by apply Hs.
  - intros i m' s' v' com' Hm' Hs' Hv' Hc'. apply lookup_lt_Some in Hv' as Hi. rewrite length_app in Hi. simpl in Hi.
    destruct (decide (i = k)) as [->|Hne].
    + rewrite Hm in Hm'. rewrite lookup_app_r, Ls, Nat.sub_diag in Hs' by lia.
      rewrite lookup_app_r, Lv, Nat.sub_diag in Hv' by lia. rewrite lookup_app_r, Lc, Nat.sub_diag in Hc' by lia.
      simplify_eq/=. done.
    + rewrite lookup_app_l in Hs' by lia. rewrite lookup_app_l in Hv' by lia. rewrite lookup_app_l in Hc' by lia.
      specialize (Hpl i m' s' v' com' Hm' Hs' Hv' Hc').
      destruct (decide (k = sec_index)) as [E|E]; [|by rewrite Hko]. apply (place_other (ring_k st)); [congruence|done].
Qed.

Lemma ring_step_spec k st :
  (k < length ring)%nat -> signed_upto k st ->
  returns (ring_step ndebug pre (keys ring) sec_index k st) (signed_upto (S k)).
Proof using All.
  intros Hk Hst. destruct (lookup_lt_is_Some_2 ring k Hk) as [m Hm].
  pose proof (Forall_lookup_1 _ _ _ _ Hring Hm) as [HA HH]. pose proof Hst as [Hg _]. unfold ring_step.
  assert (keys ring !! k = Some (encode m.1)) as Ek by (unfold keys; by rewrite list_lookup_fmap, Hm).
  rewrite (get_ok _ _ _ Ek). cbn [bind]. destruct (Nat.eqb_spec k sec_index) as [E|E].
  - eapply returns_bind; [by apply random_scalar_spec|]. intros [g' kb] [Hg' [kk Hkk]].
    rewrite (public_step _ _ _ Hkk).
    eapply returns_bind; [exact (hash_to_ec_spec _ _ HH)|]. intros P HP. cbv beta in HP.
    eapply returns_bind; [exact (point_mult _ _ _ _ Hkk HP)|]. intros Q HQ. cbv beta in HQ.
    rewrite (ge_tobytes_spec _ _ HQ). cbn [bind returns].
    apply (signed_extend k st m g' _ _ (0, 0)); [done|done|done| |done|].
    + intros n. cbn [fst]. by rewrite Z.add_0_r.
    + unfold place. rewrite decide_True by done. split; [done|]. by exists kb, kk.
  - eapply returns_bind; [by apply random_scalar_spec|]. intros [g1 cb] [Hg1 [c Hc]].
    eapply returns_bind; [by apply random_scalar_spec|]. intros [g2 rb] [Hg2 [r Hr]].
    eapply returns_bind; [by apply decode_or_abort_spec|]. intros P HP. cbv beta in HP.
    eapply returns_bind; [eapply (ring_pair_spec _ _ m I (Sig cb rb) (c, r)); [by split|done|done|done|by split]|].
    intros [a b] Hab. pose proof Hst as (_ & vs & coms & _ & _ & _ & _ & Hsum & _).
    rewrite (scalar_sum _ _ _ _ Hsum Hc). cbn [bind returns]. rewrite Hab.
    apply (signed_extend k st m g2 _ _ (c, r)); [done|done|done| |done|].
    + intros n Hn. cbn [fst]. destruct Hn as [Hn _], Hsum as [Hsum _].
      assert (challenge_sum vs mod l = n mod l) as En.
      { apply (f_equal le_val) in Hsum. rewrite Hn, !le_val_bytes in Hsum. pose proof l_bound as Hl.
        pose proof (Z.mod_pos_bound n l ltac:(lia)). pose proof (Z.mod_pos_bound (challenge_sum vs) l ltac:(lia)).
        change (256 ^ Z.of_nat 32) with (2 ^ 256) in Hsum. rewrite !(Z.mod_small (_ mod l) (2 ^ 256)) in Hsum by lia. done. }
      rewrite <- (Z.add_mod_idemp_l (challenge_sum vs)), En, Z.add_mod_idemp_l by (pose proof l_bound; lia). apply scalar_mod.
    + unfold place. rewrite decide_False by done. split; [by split|done].
Qed.
End Signer.

(** The signer's place is filled last. *)
Lemma signed_close I ring s m v vs coms ko sig :
  ring !! s = Some m -> m.1 ≡ₚ smul v B -> on_curve m.2 -> smul l m.2 ≡ₚ pzero -> I = smul v m.2 ->
  length vs = length ring -> length coms = length ring -> length sig = length ring ->
  (forall i m' sg w com, ring !! i = Some m' -> sig !! i = Some sg -> vs !! i = Some w -> coms !! i = Some com ->
    place I s ko i m' sg w com) ->
  exists kb k, ko = Some kb /\ scalar kb k /\ forall c cb,
    scalar cb c -> let r := (k - c * v) mod l in
    Forall2 sig_scalars (<[s := Sig cb (le_bytes 32 r)]> sig) (<[s := (c, r)]> vs) /\
    mjoin coms = commitments I ring (<[s := (c, r)]> vs) /\
    challenge_sum (<[s := (c, r)]> vs) = challenge_sum vs + c.
Proof.
  intros Hm Hv HH Hl HI Lv Lc Ls Hpl. apply lookup_lt_Some in Hm as Hs.
  destruct (lookup_lt_is_Some_2 vs s) as [w Hw]; [lia|]. destruct (lookup_lt_is_Some_2 coms s) as [com Hcom]; [lia|].
  destruct (lookup_lt_is_Some_2 sig s) as [sg Hsg]; [lia|].
  pose proof (Hpl _ _ _ _ _ Hm Hsg Hw Hcom) as Hp. unfold place in Hp. rewrite decide_True in Hp by done.
  destruct Hp as (-> & kb & k & Hko & Hk & Ecom). exists kb, k. split_and!; [done|done|]. intros c cb Hc. cbv zeta.
  set (r := (k - c * v) mod l). split_and!.
  - apply Forall2_same_length_lookup_2; [rewrite !length_insert; lia|]. intros i sg' w'.
    destruct (decide (i = s)) as [->|Hi].
    + rewrite !list_lookup_insert_eq by lia. intros [= <-] [= <-]. split; [done|]. apply scalar_mod.
    + rewrite !list_lookup_insert_ne by done. intros Hsg' Hw'. apply lookup_lt_Some in Hw' as Hi'.
      destruct (lookup_lt_is_Some_2 ring i) as [m' Hm']; [lia|]. destruct (lookup_lt_is_Some_2 coms i) as [com' Hc']; [lia|].
      pose proof (Hpl _ _ _ _ _ Hm' Hsg' Hw' Hc') as Hp. unfold place in Hp. rewrite decide_False in Hp by done. tauto.
  - unfold commitments. f_equal. apply (list_eq_same_length _ _ (length ring)); [|lia|].
    { rewrite length_zip_with, length_insert. lia. }
    intros i com1 com2 Hi Hc1 Hc2. apply lookup_zip_with_Some in Hc2 as (m' & w' & -> & Hm' & Hw').
    destruct (decide (i = s)) as [->|Hne].
    + rewrite list_lookup_insert_eq in Hw' by lia. simplify_eq/=. symmetry. by apply nonce_commitment_spec.
    + rewrite list_lookup_insert_ne in Hw' by done. destruct (lookup_lt_is_Some_2 sig i) as [sg' Hsg']; [lia|].
      pose proof (Hpl _ _ _ _ _ Hm' Hsg' Hw' Hc1) as Hp. unfold place in Hp. rewrite decide_False in Hp by done. tauto.
  - rewrite (challenge_sum_insert _ _ _ _ Hw). cbn [fst]. lia.
Qed.

Lemma ring_debug_spec ring s m sec v :
  Forall member_ok ring -> ring !! s = Some m -> scalar sec v -> m.1 ≡ₚ smul v B ->
  ring_debug (encode (smul v m.2)) (keys ring) sec s = Ok tt.
Proof.
  intros Hring Hm Hv Em. pose proof (Forall_lookup_1 _ _ _ _ Hring Hm) as [HA HH]. unfold ring_debug.
  rewrite (assert_scalar_ok _ _ _ Hv). cbn [bind].
  assert (keys ring !! s = Some (encode m.1)) as Ek by (unfold keys; by rewrite list_lookup_fmap, Hm).
  rewrite (get_ok _ _ _ Ek). cbn [bind].
  assert (encode m.1 = public v) as Ep by (unfold public; by rewrite Em).
  rewrite (c_assert_true false) by (rewrite Ep; by apply is_key_of_spec). cbn [bind].
  rewrite (generate_key_image_spec _ _ _ _ Hv HH). cbn [bind].
  rewrite (c_assert_true false) by (by rewrite bool_decide_eq_true_2). cbn [bind]. by apply check_keys_spec.
Qed.

(** The signer's challenge makes the sum come out as the hash. *)
Lemma close_sum data n : Hs data = (n + (Hs data - n mod l) mod l) mod l.
Proof.
  pose proof l_bound as Hl. rewrite Z.add_mod_idemp_r, <- Z.add_mod_idemp_l by lia.
  replace (n mod l + (Hs data - n mod l)) with (Hs data) by lia.
  symmetry. apply Z.mod_small. apply (proj2 (Hs_scalar data)).
Qed.

Lemma generate_ring_signature_spec ndebug prefix_hash ring s m sec v g :
  initialised g -> Forall member_ok ring -> ring !! s = Some m -> scalar sec v -> m.1 ≡ₚ smul v B ->
  returns (generate_ring_signature ndebug prefix_hash (encode (smul v m.2)) (keys ring) sec s g) (fun '(g', sig) =>
    initialised g' /\ exists vs, Forall2 sig_scalars sig vs /\ length ring = length vs /\
      ring_verifies prefix_hash (smul v m.2) ring vs).
Proof.
  intros Hg Hring Hm Hv Em. pose proof (Forall_lookup_1 _ _ _ _ Hring Hm) as [HA HH].
  pose proof (hashes_to_on_curve _ _ HH) as HC. pose proof (hashes_to_order _ _ HH) as HL.
  assert (on_curve (smul v m.2)) as HI by (by apply smul_on_curve).
  assert (length (keys ring) = length ring) as Lk by (unfold keys; by rewrite length_fmap).
  apply lookup_lt_Some in Hm as Hlt. unfold generate_ring_signature.
  rewrite (c_assert_true ndebug) by (rewrite Lk; f_equal; by apply Nat.ltb_lt). cbn [bind].
  rewrite (ring_debug_spec _ _ _ _ _ Hring Hm Hv Em).
  replace (if ndebug then Ok tt else Ok tt) with (Ok tt) by (by destruct ndebug). cbn [bind].
  eapply returns_bind; [by apply decode_or_abort_spec|]. intros P HP. cbv beta in HP.
  eapply returns_bind; [by apply ge_dsm_precomp_spec|]. intros pre Hpre. cbv beta in Hpre. rewrite Lk.
  eapply returns_bind.
  { apply (for_inv _ _ 0 _ (signed_upto (smul v m.2) ring s)).
    - split; [done|]. exists [], []. by split_and!.
    - intros k a Hk Ha. apply ring_step_spec; try done. lia. }
  intros st (Hg' & vs & coms & Lv & Lc & Ls & Eab & Hsum & Hpl).
  destruct (signed_close _ ring s m v vs coms _ _ Hm Em HC HL eq_refl Lv Lc Ls Hpl) as (kb & k & -> & Hk & Hclose).
  rewrite hash_to_scalar_spec. cbn [bind]. rewrite (sc_sub_scalar _ _ _ _ (Hs_scalar _) Hsum). cbn [bind].
  rewrite (sc_mulsub_scalar _ _ _ _ _ _ (scalar_mod _) Hv Hk). cbn [bind].
  rewrite set_ok by (rewrite Ls; done). cbn [bind returns].
  destruct (Hclose _ _ (scalar_mod (Hs (prefix_hash ++ ring_ab st) - challenge_sum vs mod l))) as (Hsig & Ecom & Esum).
  split; [done|]. eexists. split; [exact Hsig|]. split; [rewrite length_insert; done|].
  unfold ring_verifies. rewrite <- Ecom, Esum, <- Eab.
  by apply close_sum.
Qed.

(** The equation depends on the keys and the image as strings only. *)
Definition member_eq (m m' : pt * pt) : Prop := m.1 ≡ₚ m'.1 /\ m.2 ≡ₚ m'.2.

Lemma members_eq ring ring' :
  Forall member_ok ring -> Forall member_ok ring' -> keys ring = keys ring' -> Forall2 member_eq ring ring'.
Proof.
  intros Hr. revert ring'. induction Hr as [|[A H] ring [HA HH] Hr IH]; intros [|[A' H'] ring'] Hr' E; [done..|].
  apply Forall_cons_1 in Hr' as [[HA' HH'] Hr']. cbn [fst snd] in *.
  pose proof (f_equal (List.hd []) E : encode A = encode A') as E1. pose proof (f_equal (List.tl (A := _)) E : keys ring = keys ring') as E2.
  constructor; [|by apply IH]. split; [exact (encode_inj A A' HA HA' E1)|]. rewrite E1 in HH.
  exact (hashes_to_unique _ _ _ HH HH').
Qed.

Lemma commitments_eq I I' ring ring' vs :
  I ≡ₚ I' -> Forall2 member_eq ring ring' -> commitments I ring vs = commitments I' ring' vs.
Proof.
  intros HI HR. revert vs. induction HR as [|m m' ring ring' [H1 H2] HR IH]; intros [|v vs]; [reflexivity..|].
  unfold commitments in *. cbn [zip_with mjoin list_join]. rewrite IH.
  assert (commitment I m v = commitment I' m' v) as -> by (unfold commitment; rewrite HI, H1, H2; reflexivity). reflexivity.
Qed.

Lemma ring_verifies_keys prefix_hash I I' ring ring' vs :
  on_curve I -> on_curve I' -> encode I' = encode I -> Forall member_ok ring -> Forall member_ok ring' ->
  keys ring' = keys ring -> ring_verifies prefix_hash I ring vs <-> ring_verifies prefix_hash I' ring' vs.
Proof.
  intros HI HI' HE Hr Hr' Hk. unfold ring_verifies.
  rewrite (commitments_eq I I' ring ring'); [done|by apply encode_inj|by apply members_eq].
Qed.
