(* ===== verification/Rct.v ===== *)
(** * Keys, amounts and commitments of ring confidential transactions

    [src/src/ringct/rctTypes.h], [rctTypes.cpp] and [rctOps.cpp]: the types, the
    conversions of amounts, and the operations on keys as byte strings.  A
    [CHECK_AND_ASSERT_THROW_MES] that fails is [Fail Thrown].  The overloads of
    a function that differ only in where they store the result are one
    definition. *)

From stdpp Require Import base list numbers.
From Stdlib Require Import ZArith Lia.
From S2P Require Import Prelude Bytes Field Scalar CurveData Group Recode ScalarMult Keccak Random Crypto.

(** The names of the namespace [rct]. *)
Module rct.
Abbreviation key := (list Z).
Abbreviation keyV := (list (list Z)).
Abbreviation keyM := (list (list (list Z))).
Record ctkey := Ctkey { dest : key; mask : key }.
Record ecdhTuple := EcdhTuple { ecdh_mask : key; ecdh_amount : key; senderPk : key }.

Definition ATOMS : nat := 64.

Definition zero : key := replicate 32 0.
Definition identity : key := 0x01 :: replicate 31 0.
Definition curveOrder : key :=
  [0xed; 0xd3; 0xf5; 0x5c; 0x1a; 0x63; 0x12; 0x58; 0xd6; 0x9c; 0xf7; 0xa2; 0xde; 0xf9; 0xde; 0x14;
   0x00; 0x00; 0x00; 0x00; 0x00; 0x00; 0x00; 0x00; 0x00; 0x00; 0x00; 0x00; 0x00; 0x00; 0x00; 0x10].
Definition keyMInit (rows cols : nat) : keyM := replicate cols (replicate rows zero).

Definition H : key :=
  [0x8b; 0x65; 0x59; 0x70; 0x15; 0x37; 0x99; 0xaf; 0x2a; 0xea; 0xdc; 0x9f; 0xf1; 0xad; 0xd0; 0xea;
   0x6c; 0x72; 0x51; 0xd5; 0x41; 0x54; 0xcf; 0xa9; 0x2c; 0x17; 0x3a; 0x0d; 0xd3; 0x9c; 0x1f; 0x94].

Definition H2 : list key := [
  [0x8b; 0x65; 0x59; 0x70; 0x15; 0x37; 0x99; 0xaf; 0x2a; 0xea; 0xdc; 0x9f; 0xf1; 0xad; 0xd0; 0xea; 0x6c; 0x72; 0x51; 0xd5; 0x41; 0x54; 0xcf; 0xa9; 0x2c; 0x17; 0x3a; 0x0d; 0xd3; 0x9c; 0x1f; 0x94];
  [0x8f; 0xaa; 0x44; 0x8a; 0xe4; 0xb3; 0xe2; 0xbb; 0x3d; 0x4d; 0x13; 0x09; 0x09; 0xf5; 0x5f; 0xcd; 0x79; 0x71; 0x1c; 0x1c; 0x83; 0xcd; 0xbc; 0xca; 0xdd; 0x42; 0xcb; 0xe1; 0x51; 0x5e; 0x87; 0x12];
  [0x12; 0xa7; 0xd6; 0x2c; 0x77; 0x91; 0x65; 0x4a; 0x57; 0xf3; 0xe6; 0x76; 0x94; 0xed; 0x50; 0xb4; 0x9a; 0x7d; 0x9e; 0x3f; 0xc1; 0xe4; 0xc7; 0xa0; 0xbd; 0xe2; 0x9d; 0x18; 0x7e; 0x9c; 0xc7; 0x1d];
  [0x78; 0x9a; 0xb9; 0x93; 0x4b; 0x49; 0xc4; 0xf9; 0xe6; 0x78; 0x5c; 0x6d; 0x57; 0xa4; 0x98; 0xb3; 0xea; 0xd4; 0x43; 0xf0; 0x4f; 0x13; 0xdf; 0x11; 0x0c; 0x54; 0x27; 0xb4; 0xf2; 0x14; 0xc7; 0x39];
  [0x77; 0x1e; 0x92; 0x99; 0xd9; 0x4f; 0x02; 0xac; 0x72; 0xe3; 0x8e; 0x44; 0xde; 0x56; 0x8a; 0xc1; 0xdc; 0xb2; 0xed; 0xc6; 0xed; 0xb6; 0x1f; 0x83; 0xca; 0x41; 0x8e; 0x10; 0x77; 0xce; 0x3d; 0xe8];
  [0x73; 0xb9; 0x6d; 0xb4; 0x30; 0x39; 0x81; 0x9b; 0xda; 0xf5; 0x68; 0x0e; 0x5c; 0x32; 0xd7; 0x41; 0x48; 0x88; 0x84; 0xd1; 0x8d; 0x93; 0x86; 0x6d; 0x40; 0x74; 0xa8; 0x49; 0x18; 0x2a; 0x8a; 0x64];
  [0x8d; 0x45; 0x8e; 0x1c; 0x2f; 0x68; 0xeb; 0xeb; 0xcc; 0xd2; 0xfd; 0x5d; 0x37; 0x9f; 0x5e; 0x58; 0xf8; 0x13; 0x4d; 0xf3; 0xe0; 0xe8; 0x8c; 0xad; 0x3d; 0x46; 0x70; 0x10; 0x63; 0xa8; 0xd4; 0x12];
  [0x09; 0x55; 0x1e; 0xdb; 0xe4; 0x94; 0x41; 0x8e; 0x81; 0x28; 0x44; 0x55; 0xd6; 0x4b; 0x35; 0xee; 0x8a; 0xc0; 0x93; 0x06; 0x8a; 0x5f; 0x16; 0x1f; 0xa6; 0x63; 0x75; 0x59; 0x17; 0x7e; 0xf4; 0x04];
  [0xd0; 0x5a; 0x88; 0x66; 0xf4; 0xdf; 0x8c; 0xee; 0x1e; 0x26; 0x8b; 0x1d; 0x23; 0xa4; 0xc5; 0x8c; 0x92; 0xe7; 0x60; 0x30; 0x97; 0x86; 0xcd; 0xac; 0x0f; 0xed; 0xa1; 0xd2; 0x47; 0xa9; 0xc9; 0xa7];
  [0x55; 0xcd; 0xaa; 0xd5; 0x18; 0xbd; 0x87; 0x1d; 0xd1; 0xeb; 0x7b; 0xc7; 0x02; 0x3e; 0x1d; 0xc0; 0xfd; 0xf3; 0x33; 0x98; 0x64; 0xf8; 0x8f; 0xdd; 0x2d; 0xe2; 0x69; 0xfe; 0x9e; 0xe1; 0x83; 0x2d];
  [0xe7; 0x69; 0x7e; 0x95; 0x1a; 0x98; 0xcf; 0xd5; 0x71; 0x2b; 0x84; 0xbb; 0xe5; 0xf3; 0x4e; 0xd7; 0x33; 0xe9; 0x47; 0x3f; 0xcb; 0x68; 0xed; 0xa6; 0x6e; 0x37; 0x88; 0xdf; 0x19; 0x58; 0xc3; 0x06];
  [0xf9; 0x2a; 0x97; 0x0b; 0xae; 0x72; 0x78; 0x29; 0x89; 0xbf; 0xc8; 0x3a; 0xdf; 0xaa; 0x92; 0xa4; 0xf4; 0x9c; 0x7e; 0x95; 0x91; 0x8b; 0x3b; 0xba; 0x3c; 0xdc; 0x7f; 0xe8; 0x8a; 0xcc; 0x8d; 0x47];
  [0x1f; 0x66; 0xc2; 0xd4; 0x91; 0xd7; 0x5a; 0xf9; 0x15; 0xc8; 0xdb; 0x6a; 0x6d; 0x1c; 0xb0; 0xcd; 0x4f; 0x7d; 0xdc; 0xd5; 0xe6; 0x3d; 0x3b; 0xa9; 0xb8; 0x3c; 0x86; 0x6c; 0x39; 0xef; 0x3a; 0x2b];
  [0x3e; 0xec; 0x98; 0x84; 0xb4; 0x3f; 0x58; 0xe9; 0x3e; 0xf8; 0xde; 0xea; 0x26; 0x00; 0x04; 0xef; 0xea; 0x2a; 0x46; 0x34; 0x4f; 0xc5; 0x96; 0x5b; 0x1a; 0x7d; 0xd5; 0xd1; 0x89; 0x97; 0xef; 0xa7];
  [0xb2; 0x9f; 0x8f; 0x0c; 0xcb; 0x96; 0x97; 0x7f; 0xe7; 0x77; 0xd4; 0x89; 0xd6; 0xbe; 0x9e; 0x7e; 0xbc; 0x19; 0xc4; 0x09; 0xb5; 0x10; 0x35; 0x68; 0xf2; 0x77; 0x61; 0x1d; 0x7e; 0xa8; 0x48; 0x94];
  [0x56; 0xb1; 0xf5; 0x12; 0x65; 0xb9; 0x55; 0x98; 0x76; 0xd5; 0x8d; 0x24; 0x9d; 0x0c; 0x14; 0x6d; 0x69; 0xa1; 0x03; 0x63; 0x66; 0x99; 0x87; 0x4d; 0x3f; 0x90; 0x47; 0x35; 0x50; 0xfe; 0x3f; 0x2c];
  [0x1d; 0x7a; 0x36; 0x57; 0x5e; 0x22; 0xf5; 0xd1; 0x39; 0xff; 0x9c; 0xc5; 0x10; 0xfa; 0x13; 0x85; 0x05; 0x57; 0x6b; 0x63; 0x81; 0x5a; 0x94; 0xe4; 0xb0; 0x12; 0xbf; 0xd4; 0x57; 0xca; 0xaa; 0xda];
  [0xd0; 0xac; 0x50; 0x7a; 0x86; 0x4e; 0xcd; 0x05; 0x93; 0xfa; 0x67; 0xbe; 0x7d; 0x23; 0x13; 0x43; 0x92; 0xd0; 0x0e; 0x40; 0x07; 0xe2; 0x53; 0x48; 0x78; 0xd9; 0xb2; 0x42; 0xe1; 0x0d; 0x76; 0x20];
  [0xf6; 0xc6; 0x84; 0x0b; 0x9c; 0xf1; 0x45; 0xbb; 0x2d; 0xcc; 0xf8; 0x6e; 0x94; 0x0b; 0xe0; 0xfc; 0x09; 0x8e; 0x32; 0xe3; 0x10; 0x99; 0xd5; 0x6f; 0x7f; 0xe0; 0x87; 0xbd; 0x5d; 0xeb; 0x50; 0x94];
  [0x28; 0x83; 0x1a; 0x33; 0x40; 0x07; 0x0e; 0xb1; 0xdb; 0x87; 0xc1; 0x2e; 0x05; 0x98; 0x0d; 0x5f; 0x33; 0xe9; 0xef; 0x90; 0xf8; 0x3a; 0x48; 0x17; 0xc9; 0xf4; 0xa0; 0xa3; 0x32; 0x27; 0xe1; 0x97];
  [0x87; 0x63; 0x22; 0x73; 0xd6; 0x29; 0xcc; 0xb7; 0xe1; 0xed; 0x1a; 0x76; 0x8f; 0xa2; 0xeb; 0xd5; 0x17; 0x60; 0xf3; 0x2e; 0x1c; 0x0b; 0x86; 0x7a; 0x5d; 0x36; 0x8d; 0x52; 0x71; 0x05; 0x5c; 0x6e];
  [0x5c; 0x7b; 0x29; 0x42; 0x43; 0x47; 0x96; 0x4d; 0x04; 0x27; 0x55; 0x17; 0xc5; 0xae; 0x14; 0xb6; 0xb5; 0xea; 0x27; 0x98; 0xb5; 0x73; 0xfc; 0x94; 0xe6; 0xe4; 0x4a; 0x53; 0x21; 0x60; 0x0c; 0xfb];
  [0xe6; 0x94; 0x50; 0x42; 0xd7; 0x8b; 0xc2; 0xc3; 0xbd; 0x6e; 0xc5; 0x8c; 0x51; 0x1a; 0x9f; 0xe8; 0x59; 0xc0; 0xad; 0x63; 0xfd; 0xe4; 0x94; 0xf5; 0x03; 0x9e; 0x0e; 0x82; 0x32; 0x61; 0x2b; 0xd5];
  [0x36; 0xd5; 0x69; 0x07; 0xe2; 0xec; 0x74; 0x5d; 0xb6; 0xe5; 0x4f; 0x0b; 0x2e; 0x1b; 0x23; 0x00; 0xab; 0xcb; 0x42; 0x2e; 0x71; 0x2d; 0xa5; 0x88; 0xa4; 0x0d; 0x3f; 0x1e; 0xbb; 0xbe; 0x02; 0xf6];
  [0x34; 0xdb; 0x6e; 0xe4; 0xd0; 0x60; 0x8e; 0x5f; 0x78; 0x36; 0x50; 0x49; 0x5a; 0x3b; 0x2f; 0x52; 0x73; 0xc5; 0x13; 0x4e; 0x52; 0x84; 0xe4; 0xfd; 0xf9; 0x66; 0x27; 0xbb; 0x16; 0xe3; 0x1e; 0x6b];
  [0x8e; 0x76; 0x59; 0xfb; 0x45; 0xa3; 0x78; 0x7d; 0x67; 0x4a; 0xe8; 0x67; 0x31; 0xfa; 0xa2; 0x53; 0x8e; 0xc0; 0xfd; 0xf4; 0x42; 0xab; 0x26; 0xe9; 0xc7; 0x91; 0xfa; 0xda; 0x08; 0x94; 0x67; 0xe9];
  [0x30; 0x06; 0xcf; 0x19; 0x8b; 0x24; 0xf3; 0x1b; 0xb4; 0xc7; 0xe6; 0x34; 0x60; 0x00; 0xab; 0xc7; 0x01; 0xe8; 0x27; 0xcf; 0xbb; 0x5d; 0xf5; 0x2d; 0xcf; 0xa4; 0x2e; 0x9c; 0xa9; 0xff; 0x08; 0x02];
  [0xf5; 0xfd; 0x40; 0x3c; 0xb6; 0xe8; 0xbe; 0x21; 0x47; 0x2e; 0x37; 0x7f; 0xfd; 0x80; 0x5a; 0x8c; 0x60; 0x83; 0xea; 0x48; 0x03; 0xb8; 0x48; 0x53; 0x89; 0xcc; 0x3e; 0xbc; 0x21; 0x5f; 0x00; 0x2a];
  [0x37; 0x31; 0xb2; 0x60; 0xeb; 0x3f; 0x94; 0x82; 0xe4; 0x5f; 0x1c; 0x3f; 0x3b; 0x9d; 0xcf; 0x83; 0x4b; 0x75; 0xe6; 0xee; 0xf8; 0xc4; 0x0f; 0x46; 0x1e; 0xa2; 0x7e; 0x8b; 0x6e; 0xd9; 0x47; 0x3d];
  [0x9f; 0x9d; 0xab; 0x09; 0xc3; 0xf5; 0xe4; 0x28; 0x55; 0xc2; 0xde; 0x97; 0x1b; 0x65; 0x93; 0x28; 0xa2; 0xdb; 0xc4; 0x54; 0x84; 0x5f; 0x39; 0x6f; 0xfc; 0x05; 0x3f; 0x0b; 0xb1; 0x92; 0xf8; 0xc3];
  [0x5e; 0x05; 0x5d; 0x25; 0xf8; 0x5f; 0xdb; 0x98; 0xf2; 0x73; 0xe4; 0xaf; 0xe0; 0x84; 0x64; 0xc0; 0x03; 0xb7; 0x0f; 0x1e; 0xf0; 0x67; 0x7b; 0xb5; 0xe2; 0x57; 0x06; 0x40; 0x0b; 0xe6; 0x20; 0xa5];
  [0x86; 0x8b; 0xcf; 0x36; 0x79; 0xcb; 0x6b; 0x50; 0x0b; 0x94; 0x41; 0x8c; 0x0b; 0x89; 0x25; 0xf9; 0x86; 0x55; 0x30; 0x30; 0x3a; 0xe4; 0xe4; 0xb2; 0x62; 0x59; 0x18; 0x65; 0x66; 0x6a; 0x45; 0x90];
  [0xb3; 0xdb; 0x6b; 0xd3; 0x89; 0x7a; 0xfb; 0xd1; 0xdf; 0x3f; 0x96; 0x44; 0xab; 0x21; 0xc8; 0x05; 0x0e; 0x1f; 0x00; 0x38; 0xa5; 0x2f; 0x7c; 0xa9; 0x5a; 0xc0; 0xc3; 0xde; 0x75; 0x58; 0xcb; 0x7a];
  [0x81; 0x19; 0xb3; 0xa0; 0x59; 0xff; 0x2c; 0xac; 0x48; 0x3e; 0x69; 0xbc; 0xd4; 0x1d; 0x6d; 0x27; 0x14; 0x94; 0x47; 0x91; 0x42; 0x88; 0xbb; 0xea; 0xee; 0x34; 0x13; 0xe6; 0xdc; 0xc6; 0xd1; 0xeb];
  [0x10; 0xfc; 0x58; 0xf3; 0x5f; 0xc7; 0xfe; 0x7a; 0xe8; 0x75; 0x52; 0x4b; 0xb5; 0x85; 0x00; 0x03; 0x00; 0x5b; 0x7f; 0x97; 0x8c; 0x0c; 0x65; 0xe2; 0xa9; 0x65; 0x46; 0x4b; 0x6d; 0x00; 0x81; 0x9c];
  [0x5a; 0xcd; 0x94; 0xeb; 0x3c; 0x57; 0x83; 0x79; 0xc1; 0xea; 0x58; 0xa3; 0x43; 0xec; 0x4f; 0xcf; 0xf9; 0x62; 0x77; 0x6f; 0xe3; 0x55; 0x21; 0xe4; 0x75; 0xa0; 0xe0; 0x6d; 0x88; 0x7b; 0x2d; 0xb9];
  [0x33; 0xda; 0xf3; 0xa2; 0x14; 0xd6; 0xe0; 0xd4; 0x2d; 0x23; 0x00; 0xa7; 0xb4; 0x4b; 0x39; 0x29; 0x0d; 0xb8; 0x98; 0x9b; 0x42; 0x79; 0x74; 0xcd; 0x86; 0x5d; 0xb0; 0x11; 0x05; 0x5a; 0x29; 0x01];
  [0xcf; 0xc6; 0x57; 0x2f; 0x29; 0xaf; 0xd1; 0x64; 0xa4; 0x94; 0xe6; 0x4e; 0x6f; 0x1a; 0xeb; 0x82; 0x0c; 0x3e; 0x7d; 0xa3; 0x55; 0x14; 0x4e; 0x51; 0x24; 0xa3; 0x91; 0xd0; 0x6e; 0x9f; 0x95; 0xea];
  [0xd5; 0x31; 0x2a; 0x4b; 0x0e; 0xf6; 0x15; 0xa3; 0x31; 0xf6; 0x35; 0x2c; 0x2e; 0xd2; 0x1d; 0xac; 0x9e; 0x7c; 0x36; 0x39; 0x8b; 0x93; 0x9a; 0xec; 0x90; 0x1c; 0x25; 0x7f; 0x6c; 0xbc; 0x9e; 0x8e];
  [0x55; 0x1d; 0x67; 0xfe; 0xfc; 0x7b; 0x5b; 0x9f; 0x9f; 0xdb; 0xf6; 0xaf; 0x57; 0xc9; 0x6c; 0x8a; 0x74; 0xd7; 0xe4; 0x5a; 0x00; 0x20; 0x78; 0xa7; 0xb5; 0xba; 0x45; 0xc6; 0xfd; 0xe9; 0x3e; 0x33];
  [0xd5; 0x0a; 0xc7; 0xbd; 0x5c; 0xa5; 0x93; 0xc6; 0x56; 0x92; 0x8f; 0x38; 0x42; 0x80; 0x17; 0xfc; 0x7b; 0xa5; 0x02; 0x85; 0x4c; 0x43; 0xd8; 0x41; 0x49; 0x50; 0xe9; 0x6e; 0xcb; 0x40; 0x5d; 0xc3];
  [0x07; 0x73; 0xe1; 0x8e; 0xa1; 0xbe; 0x44; 0xfe; 0x1a; 0x97; 0xe2; 0x39; 0x57; 0x3c; 0xfa; 0xe3; 0xe4; 0xe9; 0x5e; 0xf9; 0xaa; 0x9f; 0xaa; 0xbe; 0xac; 0x12; 0x74; 0xd3; 0xad; 0x26; 0x16; 0x04];
  [0xe9; 0xaf; 0x0e; 0x7c; 0xa8; 0x93; 0x30; 0xd2; 0xb8; 0x61; 0x5d; 0x1b; 0x41; 0x37; 0xca; 0x61; 0x7e; 0x21; 0x29; 0x7f; 0x2f; 0x0d; 0xed; 0x8e; 0x31; 0xb7; 0xd2; 0xea; 0xd8; 0x71; 0x46; 0x60];
  [0x7b; 0x12; 0x45; 0x83; 0x09; 0x7f; 0x10; 0x29; 0xa0; 0xc7; 0x41; 0x91; 0xfe; 0x73; 0x78; 0xc9; 0x10; 0x5a; 0xcc; 0x70; 0x66; 0x95; 0xed; 0x14; 0x93; 0xbb; 0x76; 0x03; 0x42; 0x26; 0xa5; 0x7b];
  [0xec; 0x40; 0x05; 0x7b; 0x99; 0x54; 0x76; 0x65; 0x0b; 0x3d; 0xb9; 0x8e; 0x9d; 0xb7; 0x57; 0x38; 0xa8; 0xcd; 0x2f; 0x94; 0xd8; 0x63; 0xb9; 0x06; 0x15; 0x0c; 0x56; 0xaa; 0xc1; 0x9c; 0xaa; 0x6b];
  [0x01; 0xd9; 0xff; 0x72; 0x9e; 0xfd; 0x39; 0xd8; 0x37; 0x84; 0xc0; 0xfe; 0x59; 0xc4; 0xae; 0x81; 0xa6; 0x70; 0x34; 0xcb; 0x53; 0xc9; 0x43; 0xfb; 0x81; 0x8b; 0x9d; 0x8a; 0xe7; 0xfc; 0x33; 0xe5];
  [0x00; 0xdf; 0xb3; 0xc6; 0x96; 0x32; 0x8c; 0x76; 0x42; 0x45; 0x19; 0xa7; 0xbe; 0xfe; 0x8e; 0x0f; 0x6c; 0x76; 0xf9; 0x47; 0xb5; 0x27; 0x67; 0x91; 0x6d; 0x24; 0x82; 0x3f; 0x73; 0x5b; 0xaf; 0x2e];
  [0x46; 0x1b; 0x79; 0x9b; 0x4d; 0x9c; 0xee; 0xa8; 0xd5; 0x80; 0xdc; 0xb7; 0x6d; 0x11; 0x15; 0x0d; 0x53; 0x5e; 0x16; 0x39; 0xd1; 0x60; 0x03; 0xc3; 0xfb; 0x7e; 0x9d; 0x1f; 0xd1; 0x30; 0x83; 0xa8];
  [0xee; 0x03; 0x03; 0x94; 0x79; 0xe5; 0x22; 0x8f; 0xdc; 0x55; 0x1c; 0xbd; 0xe7; 0x07; 0x9d; 0x34; 0x12; 0xea; 0x18; 0x6a; 0x51; 0x7c; 0xcc; 0x63; 0xe4; 0x6e; 0x9f; 0xcc; 0xe4; 0xfe; 0x3a; 0x6c];
  [0xa8; 0xcf; 0xb5; 0x43; 0x52; 0x4e; 0x7f; 0x02; 0xb9; 0xf0; 0x45; 0xac; 0xd5; 0x43; 0xc2; 0x1c; 0x37; 0x3b; 0x4c; 0x9b; 0x98; 0xac; 0x20; 0xce; 0xc4; 0x17; 0xa6; 0xdd; 0xb5; 0x74; 0x4e; 0x94];
  [0x93; 0x2b; 0x79; 0x4b; 0xf8; 0x9c; 0x6e; 0xda; 0xf5; 0xd0; 0x65; 0x0c; 0x7c; 0x4b; 0xad; 0x92; 0x42; 0xb2; 0x56; 0x26; 0xe3; 0x7e; 0xad; 0x5a; 0xa7; 0x5e; 0xc8; 0xc6; 0x4e; 0x09; 0xdd; 0x4f];
  [0x16; 0xb1; 0x0c; 0x77; 0x9c; 0xe5; 0xcf; 0xef; 0x59; 0xc7; 0x71; 0x0d; 0x2e; 0x68; 0x44; 0x1e; 0xa6; 0xfa; 0xcb; 0x68; 0xe9; 0xb5; 0xf7; 0xd5; 0x33; 0xae; 0x0b; 0xb7; 0x8e; 0x28; 0xbf; 0x57];
  [0x0f; 0x77; 0xc7; 0x67; 0x43; 0xe7; 0x39; 0x6f; 0x99; 0x10; 0x13; 0x9f; 0x49; 0x37; 0xd8; 0x37; 0xae; 0x54; 0xe2; 0x10; 0x38; 0xac; 0x5c; 0x0b; 0x3f; 0xd6; 0xef; 0x17; 0x1a; 0x28; 0xa7; 0xe4];
  [0xd7; 0xe5; 0x74; 0xb7; 0xb9; 0x52; 0xf2; 0x93; 0xe8; 0x0d; 0xde; 0x90; 0x5e; 0xb5; 0x09; 0x37; 0x3f; 0x3f; 0x6c; 0xd1; 0x09; 0xa0; 0x22; 0x08; 0xb3; 0xc1; 0xe9; 0x24; 0x08; 0x0a; 0x20; 0xca];
  [0x45; 0x66; 0x6f; 0x8c; 0x38; 0x1e; 0x3d; 0xa6; 0x75; 0x56; 0x3f; 0xf8; 0xba; 0x23; 0xf8; 0x3b; 0xfa; 0xc3; 0x0c; 0x34; 0xab; 0xdd; 0xe6; 0xe5; 0xc0; 0x97; 0x5e; 0xf9; 0xfd; 0x70; 0x0c; 0xb9];
  [0xb2; 0x46; 0x12; 0xe4; 0x54; 0x60; 0x7e; 0xb1; 0xab; 0xa4; 0x47; 0xf8; 0x16; 0xd1; 0xa4; 0x55; 0x1e; 0xf9; 0x5f; 0xa7; 0x24; 0x7f; 0xb7; 0xc1; 0xf5; 0x03; 0x02; 0x0a; 0x71; 0x77; 0xf0; 0xdd];
  [0x7e; 0x20; 0x88; 0x61; 0x85; 0x6d; 0xa4; 0x2c; 0x8b; 0xb4; 0x6a; 0x75; 0x67; 0xf8; 0x12; 0x13; 0x62; 0xd9; 0xfb; 0x24; 0x96; 0xf1; 0x31; 0xa4; 0xaa; 0x90; 0x17; 0xcf; 0x36; 0x6c; 0xdf; 0xce];
  [0x5b; 0x64; 0x6b; 0xff; 0x6a; 0xd1; 0x10; 0x01; 0x65; 0x03; 0x7a; 0x05; 0x56; 0x01; 0xea; 0x02; 0x35; 0x8c; 0x0f; 0x41; 0x05; 0x0f; 0x9d; 0xfe; 0x3c; 0x95; 0xdc; 0xcb; 0xd3; 0x08; 0x7b; 0xe0];
  [0x74; 0x6d; 0x1d; 0xcc; 0xfe; 0xd2; 0xf0; 0xff; 0x1e; 0x13; 0xc5; 0x1e; 0x2d; 0x50; 0xd5; 0x32; 0x43; 0x75; 0xfb; 0xd5; 0xbf; 0x7c; 0xa8; 0x2a; 0x89; 0x31; 0x82; 0x8d; 0x80; 0x1d; 0x43; 0xab];
  [0xcb; 0x98; 0x11; 0x0d; 0x4a; 0x6b; 0xb9; 0x7d; 0x22; 0xfe; 0xad; 0xbc; 0x6c; 0x0d; 0x89; 0x30; 0xc5; 0xf8; 0xfc; 0x50; 0x8b; 0x2f; 0xc5; 0xb3; 0x53; 0x28; 0xd2; 0x6b; 0x88; 0xdb; 0x19; 0xae];
  [0x60; 0xb6; 0x26; 0xa0; 0x33; 0xb5; 0x5f; 0x27; 0xd7; 0x67; 0x6c; 0x40; 0x95; 0xea; 0xba; 0xbc; 0x7a; 0x2c; 0x7e; 0xde; 0x26; 0x24; 0xb4; 0x72; 0xe9; 0x7f; 0x64; 0xf9; 0x6b; 0x8c; 0xfc; 0x0e];
  [0xe5; 0xb5; 0x2b; 0xc9; 0x27; 0x46; 0x8d; 0xf7; 0x18; 0x93; 0xeb; 0x81; 0x97; 0xef; 0x82; 0x0c; 0xf7; 0x6c; 0xb0; 0xaa; 0xf6; 0xe8; 0xe4; 0xfe; 0x93; 0xad; 0x62; 0xd8; 0x03; 0x98; 0x31; 0x04];
  [0x05; 0x65; 0x41; 0xae; 0x5d; 0xa9; 0x96; 0x1b; 0xe2; 0xb0; 0xa5; 0xe8; 0x95; 0xe5; 0xc5; 0xba; 0x15; 0x3c; 0xbb; 0x62; 0xdd; 0x56; 0x1a; 0x42; 0x7b; 0xad; 0x0f; 0xfd; 0x41; 0x92; 0x31; 0x99];
  [0xf8; 0xfe; 0xf0; 0x5a; 0x3f; 0xa5; 0xc9; 0xf3; 0xeb; 0xa4; 0x16; 0x38; 0xb2; 0x47; 0xb7; 0x11; 0xa9; 0x9f; 0x96; 0x0f; 0xe7; 0x3a; 0xa2; 0xf9; 0x01; 0x36; 0xae; 0xb2; 0x03; 0x29; 0xb8; 0x88]].

(** ** Conversions of amounts

    [bits] are 64 unsigned integers.  The fuel of the loops is one more than the
    number of bytes or bits of a 64-bit amount. *)
Fixpoint d2h_loop (fuel : nat) (i : nat) (val : Z) (amounth : key) : result key :=
  match fuel with
  | O => Fail OutOfFuel
  | S fuel =>
      if val =? 0 then Ok amounth
      else
        let! amounth := set amounth i (u8 (Z.land val 0xFF)) in
        d2h_loop fuel (S i) (val / 256) amounth
  end.

Definition d2h (in_ : Z) : result key := d2h_loop 9 0 in_ sc_0.

Fixpoint d2b_loop (fuel : nat) (i : nat) (val : Z) (amountb : list Z) : result (nat * list Z) :=
  match fuel with
  | O => Fail OutOfFuel
  | S fuel =>
      if val =? 0 then Ok (i, amountb)
      else
        let! amountb := set amountb i (Z.land val 1) in
        d2b_loop fuel (S i) (Z.shiftr val 1) amountb
  end.

(** [amountb] is what the array held. *)
Definition d2b (amountb : list Z) (val : Z) : result (list Z) :=
  let! (i, amountb) := d2b_loop 65 0 val amountb in
  for_ (64 - i) (fun i amountb => set amountb i 0) i amountb.

Definition h2d (test : key) : result Z :=
  for_down 8 (fun j vali => let! b := get test j in Ok (u64 (vali * 256 + b))) 0.

Fixpoint h2b_bits (fuel : nat) (i : nat) (val : Z) (amountb2 : list Z) : result (nat * list Z) :=
  match fuel with
  | O => Fail OutOfFuel
  | S fuel =>
      if val =? 0 then Ok (i, amountb2)
      else
        let! amountb2 := set amountb2 i (Z.land val 1) in
        h2b_bits fuel (S i) (Z.shiftr val 1) amountb2
  end.

(** [while (i < 8 * (j + 1)) { amountb2[i] = 0; }]: [i] does not change. *)
Fixpoint h2b_zeros (fuel : nat) (i bound : nat) (amountb2 : list Z) : result (list Z) :=
  match fuel with
  | O => Fail OutOfFuel
  | S fuel =>
      if (i <? bound)%nat then
        let! amountb2 := set amountb2 i 0 in
        h2b_zeros fuel i bound amountb2
      else Ok amountb2
  end.

Definition h2b (fuel : nat) (amountb2 : list Z) (test : key) : result (list Z) :=
  for_ 8 (fun j amountb2 =>
    let! val := get test j in
    let! (i, amountb2) := h2b_bits 9 (8 * j) val amountb2 in
    h2b_zeros fuel i (8 * (j + 1)) amountb2) 0 amountb2.

(** [byte] is an [int], to which an [unsigned int] is added. *)
Definition b2h_byte (amountb2 : list Z) (j : nat) : result Z :=
  for_down 8 (fun i byte =>
    let! b := get amountb2 (8 * j + i) in
    let! byte := i32 (byte * 2) in
    Ok (to_i32 (u32 (byte + b)))) 0.

Definition b2h (amountdh : key) (amountb2 : list Z) : result key :=
  let! amountdh := for_ 8 (fun j amountdh => let! byte := b2h_byte amountb2 j in set amountdh j (u8 byte)) 0 amountdh in
  for_ 24 (fun j amountdh => set amountdh j 0x00) 8 amountdh.

Definition b2d (amountb : list Z) : result Z :=
  for_down 64 (fun j vali => let! b := get amountb j in Ok (u64 (vali * 2 + b))) 0.

(** ** Hashes *)
Definition cn_fast_hash (data : list Z) : result key := keccak (S (length data)) data 32.

Definition hash_to_scalar (data : list Z) : result key :=
  let! hash := cn_fast_hash data in
  sc_reduce32 hash.

Definition cn_fast_hash128 (in_ : list Z) : result key := cn_fast_hash (take 128 in_).

Definition hash_to_scalar128 (in_ : list Z) : result key :=
  let! hash := cn_fast_hash128 in_ in
  sc_reduce32 hash.

(** The overloads for a vector of pairs of keys, for a vector of keys and for 64 keys. *)
Definition cn_fast_hash_ctkeyV (PC : list ctkey) : result key :=
  match PC with
  | [] => Keccak.cn_fast_hash []
  | _ => cn_fast_hash (concat ((fun k => dest k ++ mask k) <$> PC))
  end.

Definition hash_to_scalar_ctkeyV (PC : list ctkey) : result key :=
  let! rv := cn_fast_hash_ctkeyV PC in
  sc_reduce32 rv.

Definition cn_fast_hash_keyV (keys : keyV) : result key :=
  match keys with
  | [] => Keccak.cn_fast_hash []
  | _ => cn_fast_hash (concat keys)
  end.

Definition hash_to_scalar_keyV (keys : keyV) : result key :=
  let! rv := cn_fast_hash_keyV keys in
  sc_reduce32 rv.

Definition cn_fast_hash_key64 (keys : keyV) : result key := cn_fast_hash (concat keys).

Definition hash_to_scalar_key64 (keys : keyV) : result key :=
  let! rv := cn_fast_hash_key64 keys in
  sc_reduce32 rv.

(** ** Points *)
Definition scalarmultBase (ndebug : bool) (a : key) : result key :=
  let! aG := sc_reduce32copy a in
  let! point := ge_scalarmult_base ndebug aG in
  ge_p3_tobytes point.

Definition scalarmultKey (ndebug : bool) (P a : key) : result key :=
  let! A := decode_or_throw P in
  let! R := ge_scalarmult ndebug a A in
  ge_tobytes R.

Definition scalarmultH (ndebug : bool) (a : key) : result key :=
  let! A := decode_or_throw H in
  let! R := ge_scalarmult ndebug a A in
  ge_tobytes R.

Definition addKeys (A B : key) : result key :=
  let! B2 := decode_or_throw B in
  let! A2 := decode_or_throw A in
  let! tmp2 := ge_p3_to_cached B2 in
  let! tmp3 := ge_add A2 tmp2 in
  let! A2 := ge_p1p1_to_p3 tmp3 in
  ge_p3_tobytes A2.

Definition addKeys1 (ndebug : bool) (a B : key) : result key :=
  let! aG := scalarmultBase ndebug a in
  addKeys aG B.

Definition addKeys2 (a b B : key) : result key :=
  let! B2 := decode_or_throw B in
  let! rv := ge_double_scalarmult_base_vartime b B2 a in
  ge_tobytes rv.

Definition precomp (B : key) : result (list ge_cached) :=
  let! B2 := decode_or_throw B in
  ge_dsm_precomp B2.

Definition addKeys3 (a A b : key) (B : list ge_cached) : result key :=
  let! A2 := decode_or_throw A in
  let! rv := ge_double_scalarmult_precomp_vartime a A2 b B in
  ge_tobytes rv.

(** The overload for two precomputed points. *)
Definition addKeys3_precomp (a : key) (A : list ge_cached) (b : key) (B : list ge_cached) : result key :=
  let! rv := ge_double_scalarmult_precomp_vartime2 a A b B in
  ge_tobytes rv.

Definition subKeys (A B : key) : result key :=
  let! B2 := decode_or_throw B in
  let! A2 := decode_or_throw A in
  let! tmp2 := ge_p3_to_cached B2 in
  let! tmp3 := ge_sub A2 tmp2 in
  let! A2 := ge_p1p1_to_p3 tmp3 in
  ge_p3_tobytes A2.

Definition equalKeys (a b : key) : result bool :=
  for_ 32 (fun i rv => let! x := get a i in let! y := get b i in Ok (if negb (x =? y) then false else rv)) 0 true.

Definition sumKeys (Cis : keyV) : result key :=
  for_ (length Cis) (fun i Csum => let! Ci := get Cis i in addKeys Csum Ci) 0 identity.

Definition hashToPointSimple (hh : key) : result key :=
  let! h := cn_fast_hash hh in
  let! res := decode_or_throw h in
  let! point2 := ge_mul8 (ge_p3_to_p2 res) in
  let! res := ge_p1p1_to_p3 point2 in
  ge_p3_tobytes res.

Definition hashToPoint (ndebug : bool) (hh : key) : result key :=
  let! h := cn_fast_hash hh in
  let! point := ge_fromfe_frombytes_vartime ndebug h in
  let! point2 := ge_mul8 point in
  let! res := ge_p1p1_to_p3 point2 in
  ge_p3_tobytes res.

(** ** Random keys *)
Definition skGen (ndebug : bool) (g : rng) : result (rng * key) :=
  let! (g, sk) := generate_random_bytes_not_thread_safe ndebug 32 g in
  let! sk := sc_reduce32 sk in
  Ok (g, sk).

Definition skvGen (ndebug : bool) (rows : nat) (g : rng) : result (rng * keyV) :=
  if (rows =? 0)%nat then Fail Thrown
  else
    let! (g, bytes) := generate_random_bytes_not_thread_safe ndebug (rows * 32) g in
    let! rv := for_ rows (fun i rv => let! k := sc_reduce32 (take 32 (drop (32 * i) bytes)) in Ok (rv ++ [k])) 0 [] in
    Ok (g, rv).

Definition skpkGen (ndebug : bool) (g : rng) : result (rng * (key * key)) :=
  let! (g, sk) := skGen ndebug g in
  let! pk := scalarmultBase ndebug sk in
  Ok (g, (sk, pk)).

Definition pkGen (ndebug : bool) (g : rng) : result (rng * key) :=
  let! (g, (_, pk)) := skpkGen ndebug g in
  Ok (g, pk).

Definition randXmrAmount (ndebug : bool) (upperlimit : Z) (g : rng) : result (rng * Z) :=
  let! (g, sk) := skGen ndebug g in
  let! v := h2d sk in
  if upperlimit =? 0 then Fail DivisionByZero else Ok (g, v mod upperlimit).

(** ** Commitments *)
Definition genC (ndebug : bool) (a : key) (amount : Z) : result key :=
  let! h := d2h amount in
  let! bH := scalarmultH ndebug h in
  addKeys1 ndebug a bH.

(** The overload that takes [bH]: the secret and the public pair. *)
Definition ctskpkGen_bH (ndebug : bool) (bH : key) (g : rng) : result (rng * (ctkey * ctkey)) :=
  let! (g, (sk_dest, pk_dest)) := skpkGen ndebug g in
  let! (g, (sk_mask, pk_mask)) := skpkGen ndebug g in
  let! pk_mask := addKeys pk_mask bH in
  Ok (g, (Ctkey sk_dest sk_mask, Ctkey pk_dest pk_mask)).

Definition ctskpkGen (ndebug : bool) (amount : Z) (g : rng) : result (rng * (ctkey * ctkey)) :=
  let! (g, (sk_dest, pk_dest)) := skpkGen ndebug g in
  let! (g, (sk_mask, pk_mask)) := skpkGen ndebug g in
  let! am := d2h amount in
  let! bH := scalarmultH ndebug am in
  let! pk_mask := addKeys pk_mask bH in
  Ok (g, (Ctkey sk_dest sk_mask, Ctkey pk_dest pk_mask)).

Definition commit (ndebug : bool) (amount : Z) (mask : key) : result key :=
  let! c := scalarmultBase ndebug mask in
  let! am := d2h amount in
  let! bH := scalarmultH ndebug am in
  addKeys c bH.

Definition zeroCommit (ndebug : bool) (amount : Z) : result key :=
  let! mask := scalarmultBase ndebug identity in
  let! am := d2h amount in
  let! bH := scalarmultH ndebug am in
  addKeys mask bH.

(** ** Masked amounts *)
Definition ecdhEncode (unmasked : ecdhTuple) (sharedSec : key) : result ecdhTuple :=
  let! sharedSec1 := hash_to_scalar sharedSec in
  let! sharedSec2 := hash_to_scalar sharedSec1 in
  let! m := sc_add (ecdh_mask unmasked) sharedSec1 in
  let! a := sc_add (ecdh_amount unmasked) sharedSec2 in
  Ok (EcdhTuple m a (senderPk unmasked)).

Definition ecdhDecode (masked : ecdhTuple) (sharedSec : key) : result ecdhTuple :=
  let! sharedSec1 := hash_to_scalar sharedSec in
  let! sharedSec2 := hash_to_scalar sharedSec1 in
  let! m := sc_sub (ecdh_mask masked) sharedSec1 in
  let! a := sc_sub (ecdh_amount masked) sharedSec2 in
  Ok (EcdhTuple m a (senderPk masked)).
End rct.
