(* ===== verification/RctFacts.v ===== *)
(** * Correctness of the conversions and of the operations on keys

    Amounts and keys are little-endian numbers, [bits] their binary digits, and
    every operation on keys is an operation on the points they encode. *)

From stdpp Require Import base list numbers.
From Stdlib Require Import ZArith Lia.
From S2P Require Import Prelude Bytes Field FieldFacts Scalar ScalarFacts CurveData Group Edwards GroupFacts GroupSpec BaseTable Recode ScalarMult ScalarMultFacts PointCodec HashToPoint GroupOrder Keccak KeccakFacts Random Crypto CryptoFacts RingFacts Rct.

(** ** Amounts *)

(** The [n] low binary digits of [v]. *)
Fixpoint le_bits (n : nat) (v : Z) : list Z :=
  match n with O => [] | S n => v mod 2 :: le_bits n (v / 2) end.

Lemma le_bits_length n v : length (le_bits n v) = n.
Proof. revert v. induction n; intros; simpl; auto. Qed.

Lemma le_bits_0 n : le_bits n 0 = replicate n 0.
Proof. induction n as [|n IH]; [done|]. transitivity (0 :: le_bits n 0); [done|]. by rewrite IH. Qed.

Lemma le_bytes_0 n : le_bytes n 0 = replicate n 0.
Proof. induction n as [|n IH]; [done|]. transitivity (0 :: le_bytes n 0); [done|]. by rewrite IH. Qed.

Lemma div_pow_bound b v n : 1 < b -> 0 <= v < b ^ Z.of_nat (S n) -> 0 <= v / b < b ^ Z.of_nat n.
Proof.
  intros Hb Hv. rewrite Nat2Z.inj_succ, Z.pow_succ_r in Hv by lia.
  split; [apply Z.div_pos; lia|]. apply Z.div_lt_upper_bound; lia.
Qed.

Lemma insert_next {A} (pre rest : list A) (x y : A) : <[length pre := y]> (pre ++ x :: rest) = (pre ++ [y]) ++ rest.
Proof. by rewrite insert_app_r_alt, Nat.sub_diag, <- app_assoc by lia. Qed.

Lemma set_next {A} (pre rest : list A) (x y : A) i : i = length pre -> set (pre ++ x :: rest) i y = Ok ((pre ++ [y]) ++ rest).
Proof. intros ->. rewrite set_ok by (rewrite length_app; simpl; lia). by rewrite insert_next. Qed.

Lemma d2h_loop_spec n m v pre :
  (n <= m)%nat -> 0 <= v < 256 ^ Z.of_nat n ->
  rct.d2h_loop (S n) (length pre) v (pre ++ replicate m 0) = Ok (pre ++ le_bytes m v).
Proof.
  revert m v pre. induction n as [|n IH]; intros m v pre Hm Hv; cbn [rct.d2h_loop].
  - change (256 ^ Z.of_nat 0) with 1 in Hv. replace v with 0 by lia. by rewrite le_bytes_0.
  - destruct (Z.eqb_spec v 0) as [->|Hne]; [by rewrite le_bytes_0|].
    destruct m as [|m]; [lia|]. cbn [replicate]. rewrite set_next by done. cbn [bind].
    replace (S (length pre)) with (length (pre ++ [u8 (Z.land v 255)])) by (rewrite length_app; simpl; lia).
    change (if _ =? 0 then _ else _) with
      (rct.d2h_loop (S n) (length (pre ++ [u8 (Z.land v 255)])) (v / 256) ((pre ++ [u8 (Z.land v 255)]) ++ replicate m 0)).
    rewrite IH by (lia || apply div_pow_bound; lia). cbn [le_bytes]. rewrite <- app_assoc. do 3 f_equal.
    change 255 with (Z.ones 8). rewrite Z.land_ones by lia. unfold u8. by rewrite Z.mod_mod.
Qed.

Lemma d2h_spec v : 0 <= v < 2 ^ 64 -> rct.d2h v = Ok (le_bytes 32 v).
Proof. intros Hv. exact (d2h_loop_spec 8 32 v [] ltac:(lia) Hv). Qed.

Lemma d2b_loop_spec n v pre rest :
  (n <= length rest)%nat -> 0 <= v < 2 ^ Z.of_nat n ->
  exists k, (k <= n)%nat /\ v < 2 ^ Z.of_nat k /\ (k <> 0%nat -> 2 ^ (Z.of_nat k - 1) <= v) /\
    rct.d2b_loop (S n) (length pre) v (pre ++ rest) = Ok ((length pre + k)%nat, pre ++ le_bits k v ++ drop k rest).
Proof.
  revert v pre rest. induction n as [|n IH]; intros v pre rest Hm Hv; cbn [rct.d2b_loop].
  - exists 0%nat. change (2 ^ Z.of_nat 0) with 1 in *. replace v with 0 by lia. split_and!; [lia|lia|done|].
    cbn [Z.eqb le_bits drop app]. by rewrite Nat.add_0_r.
  - destruct (Z.eqb_spec v 0) as [->|Hne].
    { exists 0%nat. split_and!; [lia|done|done|]. cbn [le_bits drop app]. by rewrite Nat.add_0_r. }
    destruct rest as [|x rest]; [simpl in Hm; lia|]. rewrite set_next by done. cbn [bind].
    replace (S (length pre)) with (length (pre ++ [Z.land v 1])) by (rewrite length_app; simpl; lia).
    assert (0 <= Z.shiftr v 1 < 2 ^ Z.of_nat n) as Hv'.
    { rewrite Z.shiftr_div_pow2 by lia. apply div_pow_bound; lia. }
    destruct (IH (Z.shiftr v 1) (pre ++ [Z.land v 1]) rest ltac:(simpl in Hm; lia) Hv') as (k & Hk & Hvk & Hmin & E).
    exists (S k). split_and!; [lia| | |].
    { rewrite Nat2Z.inj_succ, Z.pow_succ_r by lia. rewrite Z.shiftr_div_pow2 in Hvk by lia. change (2 ^ 1) with 2 in Hvk.
      Z.to_euclidean_division_equations; lia. }
    { intros _. destruct (decide (k = 0%nat)) as [->|Hk0]; [change (2 ^ (Z.of_nat 1 - 1)) with 1; lia|].
      specialize (Hmin Hk0). rewrite Z.shiftr_div_pow2 in Hmin by lia. change (2 ^ 1) with 2 in Hmin.
      replace (Z.of_nat (S k) - 1) with (Z.succ (Z.of_nat k - 1)) by lia. rewrite Z.pow_succ_r by lia.
      Z.to_euclidean_division_equations; lia. }
    etransitivity; [exact E|]. rewrite length_app. cbn [length le_bits drop]. rewrite <- app_assoc. cbn [app].
    rewrite Z.shiftr_div_pow2 by lia. change (2 ^ 1) with 2.
    change 1 with (Z.ones 1). rewrite Z.land_ones by lia. change (2 ^ 1) with 2.
    replace (length pre + 1 + k)%nat with (length pre + S k)%nat by lia. done.
Qed.

Lemma zero_fill_spec n pre rest :
  length rest = n -> for_ n (fun i b => set b i 0) (length pre) (pre ++ rest) = Ok (pre ++ replicate n 0).
Proof.
  revert pre rest. induction n as [|n IH]; intros pre rest Hr; cbn [for_].
  - by apply length_zero_iff_nil in Hr as ->.
  - destruct rest as [|x rest]; [done|]. rewrite set_next by done. cbn [bind].
    replace (S (length pre)) with (length (pre ++ [0])) by (rewrite length_app; simpl; lia).
    rewrite IH by (simpl in Hr; lia). by rewrite <- app_assoc.
Qed.

Lemma le_bits_split k n v : 0 <= v < 2 ^ Z.of_nat k -> le_bits (k + n) v = le_bits k v ++ replicate n 0.
Proof.
  revert v. induction k as [|k IH]; intros v Hv.
  - change (2 ^ Z.of_nat 0) with 1 in Hv. replace v with 0 by lia. apply le_bits_0.
  - cbn [le_bits Nat.add app]. rewrite IH by (apply div_pow_bound; lia). done.
Qed.

Lemma d2b_spec amountb v : length amountb = 64%nat -> 0 <= v < 2 ^ 64 -> rct.d2b amountb v = Ok (le_bits 64 v).
Proof.
  intros Hl Hv. unfold rct.d2b.
  destruct (d2b_loop_spec 64 v [] amountb ltac:(lia) Hv) as (k & Hk & Hvk & _ & E). cbn [length app] in E.
  change (length (@nil Z)) with 0%nat in E. rewrite E. cbn [bind Nat.add].
  pose proof (zero_fill_spec (64 - k) (le_bits k v) (drop k amountb)) as F. rewrite le_bits_length, length_drop in F.
  rewrite F by lia. rewrite <- le_bits_split by lia. by replace (k + (64 - k))%nat with 64%nat by lia.
Qed.

(** The number that binary digits stand for. *)
Fixpoint bits_val (b : list Z) : Z := match b with [] => 0 | x :: b => x + 2 * bits_val b end.

Lemma bits_val_le_bits n v : bits_val (le_bits n v) = v mod 2 ^ Z.of_nat n.
Proof.
  revert v. induction n as [|n IH]; intros v; cbn [le_bits bits_val].
  - change (2 ^ Z.of_nat 0) with 1. by rewrite Z.mod_1_r.
  - rewrite IH, Nat2Z.inj_succ, Z.pow_succ_r by lia. by rewrite Z.rem_mul_r by lia.
Qed.

(** The digits of a number read from the top, one by one. *)
Lemma digits_down_spec b n (s : list Z) (valf : list Z -> Z) :
  valf [] = 0 -> (forall x s, valf (x :: s) = x + b * valf s) -> (forall k, (k <= n)%nat -> 0 <= valf (drop k s) < 2 ^ 64) ->
  length s = n ->
  for_down n (fun j v => let! x := get s j in Ok (u64 (v * b + x))) 0 = Ok (valf s).
Proof.
  intros H0 Hc Hb Hl.
  enough (returns (for_down n (fun j v => let! x := get s j in Ok (u64 (v * b + x))) 0) (fun v => v = valf (drop 0 s))) as H
    by (by apply returns_inv in H as (? & -> & ->)).
  apply (for_down_inv n _ _ (fun k v => v = valf (drop k s))).
  - by rewrite drop_ge by lia.
  - intros k v Hk ->. destruct (lookup_lt_is_Some_2 s k) as [x Hx]; [lia|]. rewrite (get_ok _ _ _ Hx). cbn [bind returns].
    rewrite (drop_S s x k Hx), Hc. unfold u64. rewrite Z.mod_small; [lia|].
    pose proof (Hb k ltac:(lia)) as B. rewrite (drop_S s x k Hx), Hc in B. lia.
Qed.

Lemma for_down_ext {A} n (f g : nat -> A -> result A) s :
  (forall k a, (k < n)%nat -> f k a = g k a) -> for_down n f s = for_down n g s.
Proof.
  revert s. induction n as [|n IH]; intros s E; [done|]. cbn [for_down]. rewrite E by lia.
  destruct (g n s) as [r|]; [|done]. cbn [bind]. apply IH. intros k a Hk. apply E. lia.
Qed.

Lemma le_val_drop_bound s k : bytes s -> (length s <= 8)%nat -> 0 <= le_val (drop k s) < 2 ^ 64.
Proof.
  intros Hs Hl. pose proof (le_val_bound (drop k s) ltac:(by apply Forall_drop)) as B. rewrite length_drop in B.
  pose proof (Z.pow_le_mono_r 256 (Z.of_nat (length s - k)) 8 ltac:(lia) ltac:(lia)). change (256 ^ 8) with (2 ^ 64) in *. lia.
Qed.

Lemma h2d_spec k : bytes k -> (8 <= length k)%nat -> rct.h2d k = Ok (le_val (take 8 k)).
Proof.
  intros Hk Hl. unfold rct.h2d.
  erewrite for_down_ext; [apply (digits_down_spec 256 8 (take 8 k) le_val)|].
  - done.
  - done.
  - intros j _. apply le_val_drop_bound; [by apply Forall_take|]. rewrite length_take. lia.
  - rewrite length_take. lia.
  - intros j v Hj. unfold get. by rewrite lookup_take_lt by lia.
Qed.

(** Binary digits. *)
Definition is_bits (b : list Z) : Prop := Forall (fun x => x = 0 \/ x = 1) b.

Lemma le_bits_is_bits n v : is_bits (le_bits n v).
Proof.
  revert v. induction n as [|n IH]; intros v; cbn [le_bits]; constructor; [|apply IH].
  pose proof (Z.mod_pos_bound v 2 ltac:(lia)). lia.
Qed.

Lemma bits_val_bound b : is_bits b -> 0 <= bits_val b < 2 ^ Z.of_nat (length b).
Proof.
  induction 1 as [|x b Hx Hb IH]; [done|]. cbn [bits_val length]. rewrite Nat2Z.inj_succ, Z.pow_succ_r by lia. lia.
Qed.

Lemma b2d_spec b : is_bits b -> length b = 64%nat -> rct.b2d b = Ok (bits_val b).
Proof.
  intros Hb Hl. unfold rct.b2d. apply digits_down_spec; [done|done| |done].
  intros k _. pose proof (bits_val_bound (drop k b) ltac:(by apply Forall_drop)) as B. rewrite length_drop in B.
  pose proof (Z.pow_le_mono_r 2 (Z.of_nat (length b - k)) 64 ltac:(lia) ltac:(lia)). lia.
Qed.

Lemma b2h_byte_spec b j :
  is_bits b -> (8 * j + 8 <= length b)%nat -> rct.b2h_byte b j = Ok (bits_val (take 8 (drop (8 * j) b))).
Proof.
  intros Hb Hl. set (s := take 8 (drop (8 * j) b)). assert (is_bits s) as Hs by (by apply Forall_take, Forall_drop).
  assert (length s = 8%nat) as Ls by (unfold s; rewrite length_take, length_drop; lia).
  enough (returns (rct.b2h_byte b j) (fun v => v = bits_val (drop 0 s))) as H by (by apply returns_inv in H as (? & -> & ->)).
  apply (for_down_inv 8 _ _ (fun k v => v = bits_val (drop k s))); [by rewrite drop_ge by lia|].
  intros k v Hk ->. destruct (lookup_lt_is_Some_2 s k) as [x Hx]; [lia|].
  assert (b !! (8 * j + k)%nat = Some x) as Hx' by (unfold s in Hx; by rewrite lookup_take_lt, lookup_drop in Hx by lia).
  rewrite (get_ok _ _ _ Hx'). cbn [bind].
  pose proof (bits_val_bound (drop (S k) s) ltac:(by apply Forall_drop)) as B. rewrite length_drop, Ls in B.
  pose proof (Z.pow_le_mono_r 2 (Z.of_nat (8 - S k)) 8 ltac:(lia) ltac:(lia)) as P8. change (2 ^ 8) with 256 in P8.
  pose proof (Forall_lookup_1 _ _ _ _ Hs Hx) as Hx01. cbv beta in Hx01.
  rewrite i32_abs by lia. cbn [bind returns]. rewrite (drop_S s x k Hx). cbn [bits_val].
  unfold u32. rewrite Z.mod_small by lia. rewrite to_i32_id by lia. lia.
Qed.

Lemma le_bits_app n m v : le_bits (n + m) v = le_bits n v ++ le_bits m (v / 2 ^ Z.of_nat n).
Proof.
  revert v. induction n as [|n IH]; intros v.
  - change (2 ^ Z.of_nat 0) with 1. by rewrite Z.div_1_r.
  - cbn [Nat.add le_bits app]. rewrite IH, Z.div_div by lia. by rewrite Nat2Z.inj_succ, Z.pow_succ_r by lia.
Qed.

Lemma bits_byte n j v :
  (8 * j + 8 <= n)%nat -> bits_val (take 8 (drop (8 * j) (le_bits n v))) = v / 256 ^ Z.of_nat j mod 256.
Proof.
  intros Hn. replace n with (8 * j + (8 + (n - 8 * j - 8)))%nat by lia.
  rewrite (le_bits_app (8 * j)), drop_app_length' by (by rewrite le_bits_length).
  rewrite (le_bits_app 8), take_app_length' by (by rewrite le_bits_length).
  rewrite bits_val_le_bits. change (2 ^ Z.of_nat 8) with 256.
  by rewrite Nat2Z.inj_mul, Z.pow_mul_r by lia.
Qed.

Lemma b2h_spec k v : length k = 32%nat -> 0 <= v < 2 ^ 64 -> rct.b2h k (le_bits 64 v) = Ok (le_bytes 32 v).
Proof.
  intros Hk Hv. unfold rct.b2h.
  rewrite (for_update 8 _ (fun j _ => v / 256 ^ Z.of_nat j mod 256)); [|lia|].
  2: { intros i x a Hi _ Hx La. rewrite b2h_byte_spec; [|apply le_bits_is_bits|rewrite le_bits_length; lia]. cbn [bind].
       rewrite bits_byte by lia. unfold u8. rewrite Z.mod_mod by lia. by rewrite set_ok by lia. }
  cbn [bind]. set (a := update_first 8 _ k).
  assert (length a = 32%nat) as La by (unfold a; by rewrite update_first_length).
  rewrite <- (take_drop 8 a). pose proof (zero_fill_spec 24 (take 8 a) (drop 8 a)) as F.
  rewrite length_take, length_drop, La in F. change (8 `min` 32)%nat with 8%nat in F. rewrite F by done. f_equal.
  apply (list_eq_same_length _ _ 32); [by rewrite le_bytes_length|rewrite length_app, length_take, length_replicate; lia|].
  intros i x y Hi. rewrite le_bytes_alt, list_lookup_fmap, lookup_seq_lt by lia. cbn [fmap option_fmap option_map].
  destruct (decide (i < 8)%nat).
  - rewrite lookup_app_l by (rewrite length_take; lia). rewrite lookup_take_lt by lia. unfold a. rewrite update_first_lookup.
    destruct (lookup_lt_is_Some_2 k i) as [z Hz]; [lia|]. rewrite Hz. cbn [fmap option_fmap option_map].
    rewrite decide_True by lia. intros [= <-] [= <-]. unfold Bytes.bits. rewrite Z.shiftr_div_pow2 by lia.
    change 256 with (2 ^ 8). by rewrite <- Z.pow_mul_r by lia.
  - rewrite lookup_app_r by (rewrite length_take; lia). rewrite length_take, lookup_replicate_2 by lia.
    intros [= <-] [= <-]. unfold Bytes.bits. rewrite Z.shiftr_div_pow2 by lia. rewrite Z.div_small; [done|].
    split; [lia|]. apply (Z.lt_le_trans _ (2 ^ 64)); [lia|]. apply Z.pow_le_mono_r; lia.
Qed.

(** ** [h2b] ends only when every one of the eight bytes has its top bit set *)
Lemma h2b_bits_eq fuel i v a : rct.h2b_bits fuel i v a = rct.d2b_loop fuel i v a.
Proof. done. Qed.

Lemma h2b_bits_spec j v a :
  is_byte v -> length a = 64%nat -> (j < 8)%nat ->
  exists k, (k <= 8)%nat /\ (k = 8%nat <-> 128 <= v) /\
    rct.h2b_bits 9 (8 * j) v a = Ok ((8 * j + k)%nat, take (8 * j) a ++ le_bits k v ++ drop (8 * j + k) a).
Proof.
  intros Hv La Hj. unfold is_byte in Hv.
  destruct (d2b_loop_spec 8 v (take (8 * j) a) (drop (8 * j) a)) as (k & Hk & Hvk & Hmin & E).
  { rewrite length_drop. lia. }
  { done. }
  rewrite length_take, La, Nat.min_l in E by lia. exists k. split; [done|]. split.
  - split.
    + intros ->. exact (Hmin ltac:(lia)).
    + intros Hv'. destruct (decide (k = 8%nat)) as [|Hne]; [done|].
      pose proof (Z.pow_le_mono_r 2 (Z.of_nat k) 7 ltac:(lia) ltac:(lia)) as P7. change (2 ^ 7) with 128 in P7. lia.
  - rewrite take_drop, drop_drop in E. exact E.
Qed.

Lemma h2b_zeros_stuck fuel i bound a : (i < bound)%nat -> (bound <= length a)%nat -> rct.h2b_zeros fuel i bound a = Fail OutOfFuel.
Proof.
  intros Hi Ha. revert a Ha. induction fuel as [|fuel IH]; intros a Ha; [done|]. cbn [rct.h2b_zeros].
  replace (i <? bound)%nat with true by (symmetry; by apply Nat.ltb_lt). rewrite set_ok by lia. cbn [bind].
  apply IH. by rewrite length_insert.
Qed.

Definition h2b_step (fuel : nat) (test : list Z) (j : nat) (a : list Z) : result (list Z) :=
  let! val := get test j in
  let! (i, a) := rct.h2b_bits 9 (8 * j) val a in
  rct.h2b_zeros fuel i (8 * (j + 1)) a.

Lemma h2b_step_spec fuel test j v a :
  test !! j = Some v -> is_byte v -> length a = 64%nat -> (j < 8)%nat ->
  h2b_step (S fuel) test j a =
    if decide (128 <= v) then Ok (take (8 * j) a ++ le_bits 8 v ++ drop (8 * j + 8) a) else Fail OutOfFuel.
Proof.
  intros Ht Hv La Hj. unfold h2b_step. rewrite (get_ok _ _ _ Ht). cbn [bind].
  destruct (h2b_bits_spec j v a Hv La Hj) as (k & Hk & Hk8 & ->). cbn [bind].
  destruct (decide (128 <= v)) as [H128|H128].
  - apply Hk8 in H128 as ->. cbn [rct.h2b_zeros].
    replace (8 * j + 8 <? 8 * (j + 1))%nat with false by (symmetry; apply Nat.ltb_ge; lia). done.
  - apply h2b_zeros_stuck; [lia|]. rewrite !length_app, length_take, le_bits_length, length_drop. lia.
Qed.

Lemma h2b_stuck n i fuel test a j v :
  bytes test -> (n + i = 8)%nat -> (8 <= length test)%nat -> length a = 64%nat ->
  (i <= j < 8)%nat -> test !! j = Some v -> v < 128 -> for_ n (h2b_step (S fuel) test) i a = Fail OutOfFuel.
Proof.
  intros Hb. revert i a. induction n as [|n IH]; intros i a Hn Hl La Hj Ht Hv; [lia|]. cbn [for_].
  destruct (byte_lookup test i Hb ltac:(lia)) as (x & Hx & Hxb).
  rewrite (h2b_step_spec _ _ _ _ _ Hx Hxb La ltac:(lia)).
  destruct (decide (128 <= x)) as [H128|]; [|done]. cbn [bind]. apply IH; [lia|done| | |done|done].
  - rewrite !length_app, length_take, le_bits_length, length_drop. lia.
  - enough (i <> j) by lia. intros ->. simplify_eq. lia.
Qed.

Lemma h2b_diverges fuel test a j v :
  bytes test -> (8 <= length test)%nat -> length a = 64%nat -> (j < 8)%nat -> test !! j = Some v -> v < 128 ->
  rct.h2b fuel a test = Fail OutOfFuel.
Proof.
  intros Hb Hl La Hj Ht Hv. destruct fuel as [|fuel].
  - unfold rct.h2b. destruct (byte_lookup test 0 Hb ltac:(lia)) as (x & Hx & Hxb).
    cbn [for_]. rewrite (get_ok _ _ _ Hx). cbn [bind].
    destruct (h2b_bits_spec 0 x a Hxb La ltac:(lia)) as (k & _ & _ & E). by rewrite E.
  - exact (h2b_stuck 8 0 fuel test a j v Hb eq_refl Hl La ltac:(lia) Ht Hv).
Qed.

Lemma bits_of_bytes s : bytes s -> concat (le_bits 8 <$> s) = le_bits (8 * length s) (le_val s).
Proof.
  induction 1 as [|b s Hb Hs IH]; [done|]. unfold is_byte in Hb. cbn [fmap list_fmap concat length le_val]. rewrite IH.
  replace (8 * S (length s))%nat with (8 + 8 * length s)%nat by lia. rewrite le_bits_app.
  change (2 ^ Z.of_nat 8) with 256.
  replace ((b + 256 * le_val s) / 256) with (le_val s) by (Z.to_euclidean_division_equations; lia). f_equal.
  assert (forall n x y, x mod 2 ^ Z.of_nat n = y mod 2 ^ Z.of_nat n -> le_bits n x = le_bits n y) as Hmod.
  { clear. induction n as [|n IH]; intros x y E; [done|]. cbn [le_bits].
    rewrite Nat2Z.inj_succ, Z.pow_succ_r, !Z.rem_mul_r in E by lia.
    pose proof (Z.mod_pos_bound x 2 ltac:(lia)). pose proof (Z.mod_pos_bound y 2 ltac:(lia)).
    assert (x mod 2 = y mod 2) as E1 by lia. rewrite E1. f_equal. apply IH. lia. }
  apply Hmod. change (2 ^ Z.of_nat 8) with 256. by rewrite (Z.mul_comm 256), Z.mod_add by lia.
Qed.

Lemma h2b_spec fuel test a :
  bytes test -> (8 <= length test)%nat -> length a = 64%nat -> Forall (fun b => 128 <= b) (take 8 test) ->
  rct.h2b (S fuel) a test = Ok (le_bits 64 (le_val (take 8 test))).
Proof.
  intros Hb Hl La H128.
  enough (returns (for_ 8 (h2b_step (S fuel) test) 0 a)
    (fun r => r = concat (le_bits 8 <$> take 8 test) ++ drop 64 a)) as H.
  { change (rct.h2b (S fuel) a test) with (for_ 8 (h2b_step (S fuel) test) 0 a).
    apply returns_inv in H as (r & -> & ->). f_equal. rewrite drop_ge, app_nil_r by lia.
    rewrite bits_of_bytes by (by apply Forall_take). rewrite length_take. by rewrite Nat.min_l by lia. }
  apply (for_inv 8 _ 0 a (fun k r => r = concat (le_bits 8 <$> take k test) ++ drop (8 * k) a)); [done|].
  intros k r Hk ->. destruct (byte_lookup test k Hb ltac:(lia)) as (x & Hx & Hxb).
  assert (length (concat (le_bits 8 <$> take k test)) = (8 * k)%nat) as Lc.
  { rewrite bits_of_bytes by (by apply Forall_take). rewrite le_bits_length, length_take. lia. }
  rewrite (h2b_step_spec _ _ _ _ _ Hx Hxb); [|rewrite length_app, Lc, length_drop; lia|lia].
  rewrite decide_True. 2: { eapply (Forall_lookup_1 _ _ k x H128). by rewrite lookup_take_lt by lia. }
  cbn [returns]. rewrite take_app_length' by done. rewrite (take_S_r _ _ _ Hx), fmap_app, concat_app. cbn [fmap list_fmap concat].
  rewrite app_nil_r, <- !app_assoc. do 2 f_equal. rewrite drop_app_ge by lia. rewrite Lc, drop_drop. f_equal. lia.
Qed.

(** ** Hashes *)
Lemma rct_cn_fast_hash_spec data : rct.cn_fast_hash data = Ok (Sponge.hash 136 HASH_SIZE data).
Proof.
  unfold rct.cn_fast_hash. rewrite keccak_ok; [done|left; split; [lia|done]|].
  apply Nat.lt_succ_r, Nat.Div0.div_le_upper_bound. change (rate 32) with 136%nat. lia.
Qed.

Lemma rct_hash_to_scalar_spec data : rct.hash_to_scalar data = Ok (le_bytes 32 (Hs data)).
Proof.
  unfold rct.hash_to_scalar. rewrite rct_cn_fast_hash_spec. cbn [bind].
  destruct (hash_bytes 136 HASH_SIZE data) as [Hb Hl]; [lia|unfold HASH_SIZE; lia|]. by apply sc_reduce32_spec.
Qed.

Lemma hash_to_scalar_keyV_spec ks : rct.hash_to_scalar_keyV ks = Ok (le_bytes 32 (Hs (concat ks))).
Proof.
  rewrite <- rct_hash_to_scalar_spec. unfold rct.hash_to_scalar_keyV, rct.cn_fast_hash_keyV, rct.hash_to_scalar.
  destruct ks; [|done]. by rewrite cn_fast_hash_spec, rct_cn_fast_hash_spec.
Qed.

Lemma cn_fast_hash_keyV_spec ks : rct.cn_fast_hash_keyV ks = Ok (Sponge.hash 136 HASH_SIZE (concat ks)).
Proof.
  unfold rct.cn_fast_hash_keyV. destruct ks; [apply cn_fast_hash_spec|apply rct_cn_fast_hash_spec].
Qed.

Lemma hash_to_scalar_key64_spec ks : rct.hash_to_scalar_key64 ks = Ok (le_bytes 32 (Hs (concat ks))).
Proof. apply rct_hash_to_scalar_spec. Qed.

(** ** Points *)
(** Decoding a key, as a step of a routine whose result is known. *)
Lemma decode_throw_step {T} A (k : ge_p3 -> result T) r :
  on_curve A -> (forall P, represents P A -> k P = Ok r) -> (let! P := decode_or_throw (encode A) in k P) = Ok r.
Proof. intros HA Hk. pose proof (decode_or_throw_spec A HA) as (P & -> & HP)%returns_inv. by apply Hk. Qed.

Lemma bind_ok {S T} (a : S) (k : S -> result T) : bind (Ok a) k = k a.
Proof. done. Qed.

(** A step that is known to return a representation. *)
Lemma rep_step {S T} (m : result S) (Q : S -> Prop) (k : S -> result T) r :
  returns m Q -> (forall a, Q a -> k a = Ok r) -> bind m k = Ok r.
Proof. intros (a & -> & Ha)%returns_inv Hk. by apply Hk. Qed.

Lemma scalarmultBase_spec ndebug a :
  bytes a -> length a = 32%nat -> rct.scalarmultBase ndebug a = Ok (public (le_val a)).
Proof.
  intros Hb Hl. unfold rct.scalarmultBase. rewrite sc_reduce32copy_spec by done. cbn [bind].
  rewrite (public_spec _ _ (scalar_mod (le_val a))). by rewrite public_mod.
Qed.

Lemma scalarmultBase_scalar ndebug a v : scalar a v -> rct.scalarmultBase ndebug a = Ok (public v).
Proof. intros (Hb & Hl & <- & _)%scalar_bytes. by apply scalarmultBase_spec. Qed.

Lemma scalarmultKey_spec ndebug A a v :
  on_curve A -> scalar a v -> rct.scalarmultKey ndebug (encode A) a = Ok (encode (smul v A)).
Proof.
  intros HA Ha. unfold rct.scalarmultKey. apply decode_throw_step; [done|]. intros P HP. by apply mult_bytes_spec.
Qed.

Lemma addKeys_spec A C : on_curve A -> on_curve C -> rct.addKeys (encode A) (encode C) = Ok (encode (padd A C)).
Proof.
  intros HA HC. unfold rct.addKeys. apply decode_throw_step; [done|]. intros P2 HP2.
  apply decode_throw_step; [done|]. intros P1 HP1.
  eapply rep_step; [by apply ge_p3_to_cached_represents|]. intros t2 Ht2. cbv beta in Ht2.
  eapply rep_step; [by apply (ge_add_represents _ _ A C)|]. intros t3 Ht3. cbv beta in Ht3.
  eapply rep_step; [by apply ge_p1p1_to_p3_represents|]. intros R HR. by apply ge_p3_tobytes_spec.
Qed.

Lemma subKeys_spec A C : on_curve A -> on_curve C -> rct.subKeys (encode A) (encode C) = Ok (encode (padd A (pneg C))).
Proof.
  intros HA HC. unfold rct.subKeys. apply decode_throw_step; [done|]. intros P2 HP2.
  apply decode_throw_step; [done|]. intros P1 HP1.
  eapply rep_step; [by apply ge_p3_to_cached_represents|]. intros t2 Ht2. cbv beta in Ht2.
  eapply rep_step; [by apply (ge_sub_represents _ _ A C)|]. intros t3 Ht3. cbv beta in Ht3.
  eapply rep_step; [by apply ge_p1p1_to_p3_represents|]. intros R HR. by apply ge_p3_tobytes_spec.
Qed.

Lemma addKeys1_spec ndebug a v A :
  scalar a v -> on_curve A -> rct.addKeys1 ndebug a (encode A) = Ok (encode (padd (smul v B) A)).
Proof.
  intros Ha HA. unfold rct.addKeys1. rewrite (scalarmultBase_scalar _ _ _ Ha). cbn [bind].
  apply addKeys_spec; [apply smul_B_on_curve|done].
Qed.

Lemma addKeys2_spec a va b vb A :
  scalar a va -> scalar b vb -> on_curve A ->
  rct.addKeys2 a b (encode A) = Ok (encode (padd (smul vb A) (smul va B))).
Proof.
  intros Ha Hb HA. unfold rct.addKeys2. apply decode_throw_step; [done|]. intros P HP.
  eapply rep_step; [by apply (double_mult b P a vb va A)|]. intros R HR. by apply ge_tobytes_spec.
Qed.

Lemma precomp_spec A : on_curve A -> returns (rct.precomp (encode A)) (fun t => odd_multiples t A).
Proof.
  intros HA. unfold rct.precomp. eapply returns_bind; [by apply decode_or_throw_spec|]. intros P HP. by apply ge_dsm_precomp_spec.
Qed.

Lemma addKeys3_spec a va A b vb t C :
  scalar a va -> scalar b vb -> on_curve A -> on_curve C -> odd_multiples t C ->
  rct.addKeys3 a (encode A) b t = Ok (encode (padd (smul va A) (smul vb C))).
Proof.
  intros (Ba & La & Ea & Va)%scalar_bytes (Bb & Lb & Eb & Vb)%scalar_bytes HA HC Ht. subst va vb.
  unfold rct.addKeys3. apply decode_throw_step; [done|]. intros P HP.
  eapply rep_step; [by apply (ge_double_scalarmult_precomp_vartime_spec a P b t A C)|]. intros R HR. by apply ge_tobytes_spec.
Qed.

Lemma addKeys3_precomp_spec a va t A b vb t' C :
  scalar a va -> scalar b vb -> on_curve A -> on_curve C -> odd_multiples t A -> odd_multiples t' C ->
  rct.addKeys3_precomp a t b t' = Ok (encode (padd (smul va A) (smul vb C))).
Proof.
  intros (Ba & La & Ea & Va)%scalar_bytes (Bb & Lb & Eb & Vb)%scalar_bytes HA HC Ht Ht'. subst va vb.
  unfold rct.addKeys3_precomp.
  eapply rep_step; [by apply (ge_double_scalarmult_precomp_vartime2_spec a t b t' A C)|]. intros R HR. by apply ge_tobytes_spec.
Qed.

Lemma hashToPoint_spec ndebug k P : hashes_to k P -> rct.hashToPoint ndebug k = Ok (encode P).
Proof.
  intros HP. pose proof (@hash_to_ec_spec ndebug k P HP) as (R & E & HR)%returns_inv.
  unfold rct.hashToPoint. unfold hash_to_ec in E. rewrite cn_fast_hash_spec in E. rewrite rct_cn_fast_hash_spec.
  cbn [bind] in *. destruct (ge_fromfe_frombytes_vartime _ _) as [t|]; [|done]. cbn [bind] in *.
  destruct (ge_mul8 t) as [t2|]; [|done]. cbn [bind] in *. rewrite E. cbn [bind]. by apply ge_p3_tobytes_spec.
Qed.

Lemma equalKeys_spec a b :
  length a = 32%nat -> length b = 32%nat -> rct.equalKeys a b = Ok (bool_decide (a = b)).
Proof.
  intros La Lb.
  set (I := fun (k : nat) (r : bool) => r = bool_decide (take k a = take k b)).
  enough (returns (rct.equalKeys a b) (I 32%nat)) as H.
  { apply returns_inv in H as (r & -> & ->). by rewrite !take_ge by lia. }
  apply (for_inv 32 _ 0 true I); [done|]. intros k r Hk ->. unfold I. destruct (lookup_lt_is_Some_2 a k) as [x Hx]; [lia|]. destruct (lookup_lt_is_Some_2 b k) as [y Hy]; [lia|].
  rewrite (get_ok _ _ _ Hx), (get_ok _ _ _ Hy). cbn [bind returns]. rewrite (take_S_r _ _ _ Hx), (take_S_r _ _ _ Hy).
  destruct (Z.eqb_spec x y) as [->|Hne]; cbn [negb].
  - apply bool_decide_ext. split; [by intros ->|]. by intros [E _]%app_inj_tail_iff.
  - symmetry. apply bool_decide_eq_false_2. by intros [_ E]%app_inj_tail_iff.
Qed.

(** ** Random keys *)
Lemma skGen_spec ndebug g :
  initialised g -> returns (rct.skGen ndebug g) (fun '(g', k) => initialised g' /\ exists v, scalar k v).
Proof.
  intros Hg. unfold rct.skGen. rewrite generate_spec by done. cbn [bind]. destruct Hg as [_ Hst]. set (s := take 32 _).
  assert (length s = 32%nat /\ bytes s) as [Hl Hb].
  { unfold s. rewrite length_take, squeezed_length by done. split; [done|]. apply Forall_take, squeezed_bytes. }
  rewrite sc_reduce32_spec by done. cbn [bind returns]. split.
  - split; [done|]. by apply iter_next_length.
  - eexists. apply scalar_mod.
Qed.

Lemma skpkGen_spec ndebug g :
  initialised g ->
  returns (rct.skpkGen ndebug g) (fun '(g', (sk, pk)) => initialised g' /\ exists v, scalar sk v /\ pk = public v).
Proof.
  intros Hg. unfold rct.skpkGen. eapply returns_bind; [by apply skGen_spec|]. intros [g' sk] [Hg' [v Hv]].
  rewrite (scalarmultBase_scalar _ _ _ Hv). cbn [bind returns]. split; [done|]. by exists v.
Qed.

Lemma skvGen_spec ndebug rows g :
  initialised g -> rows <> 0%nat ->
  returns (rct.skvGen ndebug rows g) (fun '(g', ks) => initialised g' /\ exists vs, length vs = rows /\ Forall2 scalar ks vs).
Proof.
  intros Hg Hr. unfold rct.skvGen. replace (rows =? 0)%nat with false by (symmetry; by apply Nat.eqb_neq).
  rewrite generate_spec by done. cbn [bind]. destruct Hg as [_ Hst]. set (s := take (rows * 32) _).
  assert (length s = (rows * 32)%nat /\ bytes s) as [Hl Hb].
  { unfold s. rewrite length_take, squeezed_length by done. split; [|apply Forall_take, squeezed_bytes].
    apply Nat.min_l, blocks_for_enough. }
  eapply returns_bind.
  { apply (for_inv rows _ 0 [] (fun k ks => exists vs, length vs = k /\ Forall2 scalar ks vs)); [by exists []|].
    intros k ks Hk (vs & Lv & Hv). rewrite sc_reduce32_spec.
    - cbn [bind returns]. eexists (vs ++ [_]). rewrite length_app. split; [simpl; lia|]. apply Forall2_app; [done|].
      constructor; [apply scalar_mod|done].
    - by apply Forall_take, Forall_drop.
    - rewrite length_take, length_drop. lia. }
  intros ks (vs & Lv & Hv). cbn [returns]. split; [split; [done|by apply iter_next_length]|]. by exists vs.
Qed.

(** ** The second base point *)

(** The point whose encoding is the hash of the base point, and [H], eight times it. *)
Definition H_root : pt :=
  (57701914911747821057445958566581218620782741241240001393355936663485847981287,
   43900498174272981350934271567304109497575013990668179171682307948917429198878).
Definition Hpt : pt :=
  (44115840154693352731557989475342686826820046586146704265789981914775973517427,
   9102111593045260626123023279363907201838477468971026384621755002289944880523).

Lemma H_root_on_curve : on_curve H_root.
Proof. unfold on_curve, H_root. apply eqp_compute. by vm_compute. Qed.

Lemma Hpt_on_curve : on_curve Hpt.
Proof. unfold on_curve, Hpt. apply eqp_compute. by vm_compute. Qed.

Lemma encode_Hpt : encode Hpt = rct.H.
Proof. by vm_compute. Qed.

Lemma encode_H_root : encode H_root = Sponge.hash 136 HASH_SIZE (encode B).
Proof. by vm_compute. Qed.

Definition eight_check (P Q : pt) : bool :=
  let '(X, Y, Z) := dblp (dblp (dblp (P.1, P.2, 1))) in eqpb X (mulp Q.1 Z) && eqpb Y (mulp Q.2 Z).

Lemma eight_check_ok P Q : eight_check P Q = true -> on_curve P -> smul 8 P ≡ₚ Q.
Proof.
  unfold eight_check. intros Hc HP.
  assert (proj (P.1, P.2, 1) P) as HP0.
  { split; [done|]. split; [apply nz_1|]. split; apply eqp_of_eq; ring. }
  do 3 apply dblp_proj in HP0.
  assert (smul 8 P ≡ₚ padd (padd (padd P P) (padd P P)) (padd (padd P P) (padd P P))) as ->.
  { change 8 with (2 * (2 * (2 * 1))). rewrite !smul_double, !smul_1 by done. done. }
  destruct (dblp _) as [[X Y] Z]. destruct HP0 as (_ & HZ & HX & HY).
  apply andb_prop in Hc as [Hx%eqpb_eqp Hy%eqpb_eqp]. rewrite mulp_eqp in Hx, Hy.
  split; apply (eqp_mul_l Z); try done; rewrite !(Z.mul_comm Z); congruence.
Qed.

Lemma Hpt_root : smul 8 H_root ≡ₚ Hpt.
Proof. apply eight_check_ok; [by vm_compute|apply H_root_on_curve]. Qed.

Lemma Hpt_order : smul l Hpt ≡ₚ pzero.
Proof. rewrite <- Hpt_root. apply cofactor_order, H_root_on_curve. Qed.

Lemma hashToPointSimple_spec k A :
  on_curve A -> Sponge.hash 136 HASH_SIZE k = encode A -> rct.hashToPointSimple k = Ok (encode (smul 8 A)).
Proof.
  intros HA E. unfold rct.hashToPointSimple. rewrite rct_cn_fast_hash_spec. cbn [bind]. rewrite E.
  apply decode_throw_step; [done|]. intros P HP.
  eapply rep_step; [by apply ge_mul8_represents, ge_p3_to_p2_represents|]. intros Q HQ. cbv beta in HQ.
  eapply rep_step; [by apply ge_p1p1_to_p3_represents|]. intros R HR. by apply ge_p3_tobytes_spec.
Qed.

(** The x-coordinates of the table of doublings. *)
Definition H2_x : list Z := [
  44115840154693352731557989475342686826820046586146704265789981914775973517427;
  21887502907852327512161645864292694872593502520628969212237600592913256965730;
  41588944903280473071715959327419035112949396200362177688321681581243820540558;
  24462944360703661855804003447120648570478666629264811155506725847509989995922;
  34736432599419345002075668718594423595422573033361693832907570018378399496671;
  5035696844832586922582584478686745869458741122240005196150197282005161362970;
  8791637206177435063168150332781165970727062219171811828526002389578666362064;
  44882878918884453110191118899098714916143033732634125371304788157271779206644;
  9217263585868509733179310401531949339824061003410897985333169323893767985271;
  11587341316027925284725312109808036020833103907048540189469990259331159815446;
  18879868485482183688684621164973113391561606989557349041600957441324455033754;
  50259519091485564485983747384794324295397414505792154678243150646008888335476;
  51618184371412130469615831305363325329491083088823469136159919609849188902024;
  38929998764697060194418013299181021077952701918395182302407844398238865403721;
  10592985877495640278334570871017595565539287443799705470236513782422631798613;
  25884405003252739968463371498281045756666351093484082674290227293988877761582;
  3291915927713039657947548124417918068232598885629581504755257116635916178065;
  41482334082649911855993915686640811685047202292827534739050733420351955806778;
  3569141040624645068746432076217476712207222541635567318112696561217766065639;
  54750502050501753812678189337729024042148318881833874548923784748270879941565;
  5247231924602377698414268984380571186873117197006503179428150175115377374068;
  10950877724520631727960704505986790897793390731077029035960349829294825813919;
  7527321546596294066994481046354532233444903083400383625596677997965962759135;
  14609051779384522541379836316961019298521571006742426699820281553247851110499;
  25712737277381317502381222081738918858081063803048947018506350394000491098090;
  56745973156249230477345160724644945505181100145856305072418898933968892833151;
  26092861902412766090151769103920569442302326551656930625959149842047394260302;
  11300693936289462366426195910590205602758794849889940179723509944180797690228;
  7501406001513012941475442530835326218194630505827839143568248608989912119242;
  30313005916617871165024799884883088390663758017258171648842049189328948035839;
  54214202598270634349100642072215201520275741979371807405492429666818868356773;
  37693415674051507939458837795304125420846316407653517513227846849425015451605;
  23675740566217078065331237104817060634389702901902215507010974982589696778616;
  14786124139470644446052311911977488163431587522776322069828567173430325550723;
  20027674157896164542028949596442834585218758717894754530997152123736853202695;
  38818776264814999839963375071064556699991834324735983732858720088307303445395;
  26206382071772616819207860000139758588484236835011523110014274059570025078990;
  53882365347687183258723835152445537651541374828017136972102483984710834009243;
  45222167229104647935925341757756639547446992779060613648256871938244179689057;
  33601519402444205932399168378052812384555308175320541519174369541304431348722;
  57885782755842964124280904968679451692808149307755925597289054641053881463829;
  32548187706008030095668147385514017088947192485818319199623486042079246458804;
  38566599956840716636498396927346419529891388523257095161520543366051670653392;
  26407919742309165130375379224703184433330062605849452015480527798190316927098;
  10383970808100680711490195590234212608269322052068566023141708319429332944322;
  45128217331626823137667721595838469940795571629692694682223043441516347986013;
  4626052601440559751628561634009120432073528219788518720301170861156181499782;
  42491102085280442140455972991286696349342346712520285398757936412865369859545;
  34581581910632685795112715522164427366537929724553976482899422296357749086780;
  21960340388546908497137605632632749441948289041688609485711936459222387895739;
  11272421235488258710216428370389040479708689066957703461126893105171939720170;
  24092555184938333255092807336085475413918900663969849757599382821893946019178;
  11997797821102804949559437063302155112044999668514310169081743090983625620633;
  1601509994602381693232066955736016673835590182393756443866306427216305044205;
  47598405048270600565808973951147953620873039818218316396118341995950734916175;
  5810446869357212116405138765904336925708528914857494985056076894857398781513;
  32398694467385399439278747822929578004944710001438265039609411086397047518509;
  43828441849322815424920851440893406270343586074240905519774360253147550390761;
  22350711686641628588738925764518902938852868854977073802542105596923039892113;
  11519816717622446605368503650678244339333777408591483277500126573213417424781;
  34961808490317700960686476548325904437057389410246908036107483865350438970346;
  37546361449045091621200096787086399396019829569202704782948661234707999140786;
  14838734574831445413200033939124225313862355756654344101289092931938177267537;
  34598669537142688881588211151981060077871242680471831086516226716531058598333].

Definition H2_point (x : Z) (k : list Z) : pt := (x, le_val k mod 2 ^ 255).

Fixpoint doublings_check (P : pt) (xs : list Z) (ks : list (list Z)) : bool :=
  match xs, ks with
  | x :: xs, k :: ks =>
      let Q := H2_point x k in
      sum_check P P Q && bool_decide (encode Q = k) && doublings_check Q xs ks
  | [], [] => true
  | _, _ => false
  end.

Lemma doublings_check_ok n P xs ks :
  doublings_check P xs ks = true -> P ≡ₚ smul (2 ^ Z.of_nat n) Hpt ->
  forall i k, ks !! i = Some k -> k = encode (smul (2 ^ Z.of_nat (n + S i)) Hpt).
Proof.
  revert n P ks. induction xs as [|x xs IH]; intros n P [|k0 ks] Hc HP i k Hi; [done..|].
  cbn [doublings_check] in Hc. apply andb_prop in Hc as [Hc Hr]. apply andb_prop in Hc as [Hs He%bool_decide_eq_true_1].
  assert (on_curve P) as HPc by (rewrite HP; apply smul_on_curve, Hpt_on_curve).
  assert (H2_point x k0 ≡ₚ smul (2 ^ Z.of_nat (S n)) Hpt) as HQ.
  { rewrite <- (sum_check_ok _ _ _ Hs HPc HPc), HP. rewrite Nat2Z.inj_succ, Z.pow_succ_r by lia.
    by rewrite smul_double by apply Hpt_on_curve. }
  destruct i as [|i]; cbn in Hi.
  - injection Hi as <-. rewrite <- He, HQ. by replace (n + 1)%nat with (S n) by lia.
  - rewrite (IH (S n) _ ks Hr HQ i k Hi). by replace (S n + S i)%nat with (n + S (S i))%nat by lia.
Qed.

Lemma H2_check : doublings_check Hpt (drop 1 H2_x) (drop 1 rct.H2) = true.
Proof. by vm_compute. Qed.

Lemma H2_spec i k : rct.H2 !! i = Some k -> k = encode (smul (2 ^ Z.of_nat i) Hpt).
Proof.
  destruct i as [|i]; intros Hi.
  - injection Hi as <-. rewrite smul_1 by apply Hpt_on_curve. symmetry. apply encode_Hpt.
  - apply (doublings_check_ok 0 Hpt _ _ H2_check); [by rewrite smul_1 by apply Hpt_on_curve|]. by rewrite lookup_drop.
Qed.

Lemma H2_length : length rct.H2 = 64%nat.
Proof. done. Qed.

Lemma H2_get i : (i < 64)%nat -> get rct.H2 i = Ok (encode (smul (2 ^ Z.of_nat i) Hpt)).
Proof. intros Hi. destruct (lookup_lt_is_Some_2 rct.H2 i) as [k Hk]; [by rewrite H2_length|]. rewrite (get_ok _ _ _ Hk). f_equal. by apply H2_spec. Qed.

(** ** Commitments *)
Ltac curve_base :=
  lazymatch goal with
  | |- on_curve B => exact B_on_curve
  | |- on_curve Hpt => exact Hpt_on_curve
  | |- on_curve (smul _ _) => apply smul_on_curve; curve_base
  | |- on_curve (padd _ _) => apply padd_on_curve; curve_base
  | |- on_curve (pneg _) => apply pneg_on_curve; curve_base
  | |- on_curve pzero => exact pzero_on_curve
  | |- on_curve _ => assumption
  end.

(** The Pedersen commitment to [b] with the mask [a]. *)
Definition pedersen (a b : Z) : pt := padd (smul a B) (smul b Hpt).

Lemma pedersen_on_curve a b : on_curve (pedersen a b).
Proof. unfold pedersen. curve_base. Qed.

Lemma pedersen_add a b a' b' : padd (pedersen a b) (pedersen a' b') ≡ₚ pedersen (a + a') (b + b').
Proof.
  unfold pedersen. rewrite !smul_add by curve_base.
  apply padd_swap; curve_base.
Qed.

Lemma pedersen_mod a b : pedersen (a mod l) b ≡ₚ pedersen a b.
Proof. unfold pedersen. by rewrite smul_mod_l. Qed.

Lemma pedersen_0 : pedersen 0 0 ≡ₚ pzero.
Proof. unfold pedersen. rewrite (smul_0 B), (smul_0 Hpt). apply padd_0_l, pzero_on_curve. Qed.

Lemma pedersen_neg a b : pneg (pedersen a b) ≡ₚ pedersen (- a) (- b).
Proof. unfold pedersen. by rewrite pneg_padd, !smul_opp by curve_base. Qed.

Lemma amount_scalar v : 0 <= v < 2 ^ 64 -> scalar (le_bytes 32 v) v.
Proof. intros Hv. split; [done|]. split; [lia|]. apply (Z.lt_trans _ (2 ^ 64)); [lia|]. by vm_compute. Qed.

Lemma scalarmultH_spec ndebug a v : scalar a v -> rct.scalarmultH ndebug a = Ok (encode (smul v Hpt)).
Proof.
  intros Ha. unfold rct.scalarmultH. rewrite <- encode_Hpt. apply decode_throw_step; [exact Hpt_on_curve|].
  intros P HP. by apply mult_bytes_spec.
Qed.

Lemma amount_step {T} ndebug v (k : list Z -> result T) :
  0 <= v < 2 ^ 64 -> (let! h := rct.d2h v in let! bH := rct.scalarmultH ndebug h in k bH) = k (encode (smul v Hpt)).
Proof.
  intros Hv. pose proof (scalarmultH_spec ndebug (le_bytes 32 v) v (amount_scalar v Hv)) as E.
  rewrite d2h_spec by exact Hv. rewrite bind_ok, E, bind_ok. reflexivity.
Qed.

Lemma commit_spec ndebug amount mask a :
  scalar mask a -> 0 <= amount < 2 ^ 64 -> rct.commit ndebug amount mask = Ok (encode (pedersen a amount)).
Proof.
  intros Ha Hv. unfold rct.commit, pedersen. rewrite (scalarmultBase_scalar _ _ _ Ha), bind_ok, amount_step by done.
  apply addKeys_spec; [apply smul_B_on_curve|apply smul_on_curve, Hpt_on_curve].
Qed.

Lemma genC_spec ndebug amount mask a :
  scalar mask a -> 0 <= amount < 2 ^ 64 -> rct.genC ndebug mask amount = Ok (encode (pedersen a amount)).
Proof.
  intros Ha Hv. unfold rct.genC, pedersen. rewrite amount_step by done.
  apply addKeys1_spec; [done|apply smul_on_curve, Hpt_on_curve].
Qed.

Lemma identity_scalar : scalar rct.identity 1.
Proof. split; [by vm_compute|]. split; [lia|by vm_compute]. Qed.

Lemma encode_pzero : encode pzero = rct.identity.
Proof. by vm_compute. Qed.

Lemma zeroCommit_spec ndebug amount :
  0 <= amount < 2 ^ 64 -> rct.zeroCommit ndebug amount = Ok (encode (pedersen 1 amount)).
Proof. intros Hv. exact (commit_spec ndebug amount _ _ identity_scalar Hv). Qed.

Lemma ctskpkGen_spec ndebug amount g :
  initialised g -> 0 <= amount < 2 ^ 64 ->
  returns (rct.ctskpkGen ndebug amount g) (fun '(g', (sk, pk)) => initialised g' /\ exists x a,
    scalar (rct.dest sk) x /\ rct.dest pk = public x /\ scalar (rct.mask sk) a /\ rct.mask pk = encode (pedersen a amount)).
Proof.
  intros Hg Hv. unfold rct.ctskpkGen, pedersen. eapply returns_bind; [by apply skpkGen_spec|].
  intros [g1 [sd pd]] (Hg1 & x & Hx & ->). cbv beta.
  eapply returns_bind; [by apply skpkGen_spec|]. intros [g2 [sm pm]] (Hg2 & a & Ha & ->). cbv beta.
  rewrite amount_step by done. unfold public. rewrite addKeys_spec; [|apply smul_B_on_curve|apply smul_on_curve, Hpt_on_curve].
  cbn [bind returns]. split; [done|]. by exists x, a.
Qed.

(** The sum of commitments that have been made. *)
Lemma sumKeys_spec As : Forall on_curve As -> rct.sumKeys (encode <$> As) = Ok (encode (foldl padd pzero As)).
Proof.
  intros HA. enough (returns (rct.sumKeys (encode <$> As)) (fun r => r = encode (foldl padd pzero (take (length As) As)) /\
    on_curve (foldl padd pzero (take (length As) As)))) as Hr.
  { apply returns_inv in Hr as (r & -> & -> & _). by rewrite take_ge by lia. }
  unfold rct.sumKeys. rewrite length_fmap.
  apply (for_inv (length As) _ 0 _ (fun k r => r = encode (foldl padd pzero (take k As)) /\ on_curve (foldl padd pzero (take k As)))).
  - split; [symmetry; apply encode_pzero|apply pzero_on_curve].
  - intros k r Hk [-> Hc]. destruct (lookup_lt_is_Some_2 As k) as [A Hk']; [lia|].
    pose proof (Forall_lookup_1 _ _ _ _ HA Hk') as HAc.
    rewrite (get_ok _ _ (encode A)) by (by rewrite list_lookup_fmap, Hk'). cbn [bind]. rewrite addKeys_spec by done.
    cbn [returns]. rewrite (take_S_r _ _ _ Hk'), foldl_app. split; [done|]. by apply padd_on_curve.
Qed.

(** ** Masked amounts *)
Definition shared1 (s : list Z) : Z := Hs s.
Definition shared2 (s : list Z) : Z := Hs (le_bytes 32 (Hs s)).

Lemma ecdhEncode_spec m a k s vm va :
  scalar m vm -> scalar a va ->
  rct.ecdhEncode (rct.EcdhTuple m a k) s =
    Ok (rct.EcdhTuple (le_bytes 32 ((vm + shared1 s) mod l)) (le_bytes 32 ((va + shared2 s) mod l)) k).
Proof.
  intros Hm Ha. unfold rct.ecdhEncode. rewrite rct_hash_to_scalar_spec. cbn [bind]. rewrite rct_hash_to_scalar_spec.
  cbn [bind rct.ecdh_mask rct.ecdh_amount rct.senderPk]. rewrite (sc_add_scalar _ _ _ _ Hm (Hs_scalar s)). cbn [bind].
  rewrite (sc_add_scalar _ _ _ _ Ha (Hs_scalar (le_bytes 32 (Hs s)))). cbn [bind]. unfold shared1, shared2. reflexivity.
Qed.

Lemma ecdhDecode_spec m a k s vm va :
  scalar m vm -> scalar a va ->
  rct.ecdhDecode (rct.EcdhTuple m a k) s =
    Ok (rct.EcdhTuple (le_bytes 32 ((vm - shared1 s) mod l)) (le_bytes 32 ((va - shared2 s) mod l)) k).
Proof.
  intros Hm Ha. unfold rct.ecdhDecode. rewrite rct_hash_to_scalar_spec. cbn [bind]. rewrite rct_hash_to_scalar_spec.
  cbn [bind rct.ecdh_mask rct.ecdh_amount rct.senderPk]. rewrite (sc_sub_scalar _ _ _ _ Hm (Hs_scalar s)). cbn [bind].
  rewrite (sc_sub_scalar _ _ _ _ Ha (Hs_scalar (le_bytes 32 (Hs s)))). cbn [bind]. unfold shared1, shared2. reflexivity.
Qed.

Lemma unmask v h : 0 <= v < l -> ((v + h) mod l - h) mod l = v.
Proof.
  intros Hv. rewrite Zminus_mod_idemp_l. replace (v + h - h) with v by lia. by apply Z.mod_small.
Qed.

Lemma ecdh_roundtrip_spec m a k s vm va :
  scalar m vm -> scalar a va ->
  exists e, rct.ecdhEncode (rct.EcdhTuple m a k) s = Ok e /\ rct.ecdhDecode e s = Ok (rct.EcdhTuple m a k).
Proof.
  intros Hm Ha. eexists. split; [by apply ecdhEncode_spec|].
  rewrite (ecdhDecode_spec _ _ _ _ _ _ (scalar_mod _) (scalar_mod _)). destruct Hm as [Em Vm], Ha as [Ea Va].
  rewrite !unmask by done. by rewrite <- Em, <- Ea.
Qed.
