(* ===== verification/RctSigs.v ===== *)
(** * Signatures of ring confidential transactions

    [src/src/ringct/rctSigs.cpp] and the records of [rctTypes.h]: range proofs
    by Borromean signatures, MLSAG signatures, and the transactions that are
    made of them.  [rng] is threaded through the functions that draw random
    keys; arrays and locals hold [[]] or [rct.zero] until they are written.  The
    tasks that check the proofs of a transaction are run in order, each as if by a
    worker of the pool: they share nothing.  The functions of [bulletproofs.cc] are arguments of the functions
    that call them. *)

From stdpp Require Import base list numbers.
From Stdlib Require Import ZArith Lia.
From S2P Require Import Prelude Bytes Varint Scalar Group ScalarMult Keccak Random Crypto Rct.

(** ** Records *)
Record boroSig := BoroSig { s0 : rct.keyV; s1 : rct.keyV; ee : rct.key }.
Record rangeSig := RangeSig { asig : boroSig; Ci : rct.keyV }.
Record mgSig := MgSig { ss : rct.keyM; cc : rct.key; II : rct.keyV }.
Record multisig_kLRki := KLRki { ms_k : rct.key; ms_L : rct.key; ms_R : rct.key; ms_ki : rct.key }.
Record Bulletproof := BulletproofOf {
  bp_V : rct.keyV; bp_A : rct.key; bp_S : rct.key; bp_T1 : rct.key; bp_T2 : rct.key; bp_taux : rct.key; bp_mu : rct.key;
  bp_L : rct.keyV; bp_R : rct.keyV; bp_a : rct.key; bp_b : rct.key; bp_t : rct.key }.

Definition RCTTypeNull : Z := 0.
Definition RCTTypeFull : Z := 1.
Definition RCTTypeSimple : Z := 2.
Definition RCTTypeFullBulletproof : Z := 3.
Definition RCTTypeSimpleBulletproof : Z := 4.

Record rctSig := RctSig {
  type : Z; message : rct.key; mixRing : list (list rct.ctkey); pseudoOuts : rct.keyV; ecdhInfo : list rct.ecdhTuple;
  outPk : list rct.ctkey; txnFee : Z; rangeSigs : list rangeSig; bulletproofs : list Bulletproof; MGs : list mgSig }.

(** [CHECK_AND_ASSERT_THROW_MES(b, ...)] *)
Definition check_throw (b : bool) : result unit := if b then Ok tt else Fail Thrown.

(** [try { m } catch (...) { return false; }] *)
Definition catch_false (m : result bool) : result bool := match m with Fail Thrown => Ok false | _ => m end.

(** ** Borromean signatures *)

(** [L[n][i] = k] *)
Definition set2 (L : rct.keyM) (n : Z) (i : nat) (k : rct.key) : result rct.keyM :=
  if n <? 0 then Fail OutOfBounds
  else
    let! row := get L (Z.to_nat n) in
    let! row := set row i k in
    set L (Z.to_nat n) row.

Record boro_state := Boro { b_rng : rng; b_L : rct.keyM; b_alpha : rct.keyV; b_s1 : rct.keyV }.

(** The first loop. *)
Definition boro_commit (ndebug : bool) (P2 : rct.keyV) (indices : list Z) (ii : nat) (st : boro_state) : result boro_state :=
  let! index := get indices ii in
  let naught := to_i32 index in
  let prime := to_i32 (u32 (index + 1) mod 2) in
  let! (g, a) := rct.skGen ndebug (b_rng st) in
  let! alpha := set (b_alpha st) ii a in
  let! k := rct.scalarmultBase ndebug a in
  let! L := set2 (b_L st) naught ii k in
  if naught =? 0 then
    let! (g, s) := rct.skGen ndebug g in
    let! s1 := set (b_s1 st) ii s in
    let! c := rct.hash_to_scalar k in
    let! p2 := get P2 ii in
    let! k := rct.addKeys2 s c p2 in
    let! L := set2 L prime ii k in
    Ok (Boro g L alpha s1)
  else Ok (Boro g L alpha (b_s1 st)).

(** The second loop: the generator and the responses. *)
Definition boro_respond (ndebug : bool) (x P1 : rct.keyV) (indices : list Z) (ee : rct.key) (alpha : rct.keyV) (jj : nat)
    (st : rng * rct.keyV * rct.keyV) : result (rng * rct.keyV * rct.keyV) :=
  let '(g, s0, s1) := st in
  let! index := get indices jj in
  let! xj := get x jj in
  let! aj := get alpha jj in
  if index =? 0 then
    let! s := sc_mulsub xj ee aj in
    let! s0 := set s0 jj s in
    Ok (g, s0, s1)
  else
    let! (g, s) := rct.skGen ndebug g in
    let! s0 := set s0 jj s in
    let! p1 := get P1 jj in
    let! LL := rct.addKeys2 s ee p1 in
    let! cc := rct.hash_to_scalar LL in
    let! s := sc_mulsub xj cc aj in
    let! s1 := set s1 jj s in
    Ok (g, s0, s1).

Definition key64 : rct.keyV := replicate 64 [].

Definition genBorromean (ndebug : bool) (x P1 P2 : rct.keyV) (indices : list Z) (g : rng) : result (rng * boroSig) :=
  let! st := for_ 64 (boro_commit ndebug P2 indices) 0 (Boro g [key64; key64] key64 key64) in
  let! L1 := get (b_L st) 1 in
  let! ee := rct.hash_to_scalar_key64 L1 in
  let! (g, s0, s1) := for_ 64 (boro_respond ndebug x P1 indices ee (b_alpha st)) 0 (b_rng st, key64, b_s1 st) in
  Ok (g, BoroSig s0 s1 ee).

Definition verifyBorromean (bb : boroSig) (P1 P2 : rct.keyV) : result bool :=
  let! Lv1 := for_ 64 (fun ii Lv1 =>
    let! a := get (s0 bb) ii in
    let! p1 := get P1 ii in
    let! LL := rct.addKeys2 a (ee bb) p1 in
    let! chash := rct.hash_to_scalar LL in
    let! b := get (s1 bb) ii in
    let! p2 := get P2 ii in
    let! k := rct.addKeys2 b chash p2 in
    set Lv1 ii k) 0 key64 in
  let! eeComputed := rct.hash_to_scalar_key64 Lv1 in
  rct.equalKeys eeComputed (ee bb).

(** ** Range proofs *)
Record range_state := Range {
  r_rng : rng; r_C : rct.key; r_mask : rct.key; r_Ci : rct.keyV; r_ai : rct.keyV; r_CiH : rct.keyV }.

Definition range_step (ndebug : bool) (b : list Z) (i : nat) (st : range_state) : result range_state :=
  let! (g, a) := rct.skGen ndebug (r_rng st) in
  let! ai := set (r_ai st) i a in
  let! bi := get b i in
  let! h := get rct.H2 i in
  let! Ci := if bi =? 0 then let! c := rct.scalarmultBase ndebug a in set (r_Ci st) i c else Ok (r_Ci st) in
  let! Ci := if bi =? 1 then let! c := rct.addKeys1 ndebug a h in set Ci i c else Ok Ci in
  let! c := get Ci i in
  let! d := rct.subKeys c h in
  let! CiH := set (r_CiH st) i d in
  let! mask := sc_add (r_mask st) a in
  let! C := rct.addKeys (r_C st) c in
  Ok (Range g C mask Ci ai CiH).

(** The commitment, its mask and the proof; [b] is what the array of bits held. *)
Definition proveRange (ndebug : bool) (b : list Z) (amount : Z) (g : rng) : result (rng * (rct.key * rct.key * rangeSig)) :=
  let! b := rct.d2b b amount in
  let! st := for_ rct.ATOMS (range_step ndebug b) 0 (Range g rct.identity sc_0 key64 key64 key64) in
  let! (g, sig) := genBorromean ndebug (r_ai st) (r_Ci st) (r_CiH st) b (r_rng st) in
  Ok (g, (r_C st, r_mask st, RangeSig sig (r_Ci st))).

Definition verRange_try (C : rct.key) (as_ : rangeSig) : result bool :=
  let! (CiH, Ctmp) := for_ 64 (fun i '(CiH, Ctmp) =>
    let! c := get (Ci as_) i in
    let! h := get rct.H2 i in
    let! d := rct.subKeys c h in
    let! CiH := set CiH i d in
    let! Ctmp := rct.addKeys Ctmp c in
    Ok (CiH, Ctmp)) 0 (key64, rct.identity) in
  let! eq := rct.equalKeys C Ctmp in
  if negb eq then Ok false
  else
    let! ok := verifyBorromean (asig as_) (Ci as_) CiH in
    if negb ok then Ok false else Ok true.

Definition verRange (C : rct.key) (as_ : rangeSig) : result bool := catch_false (verRange_try C as_).

(** ** MLSAG signatures *)
Definition keyImageV (ndebug : bool) (xx : rct.keyV) : result rct.keyV :=
  for_ (length xx) (fun i II =>
    let! x := get xx i in
    let! pk := rct.scalarmultBase ndebug x in
    let! h := rct.hashToPoint ndebug pk in
    let! k := rct.scalarmultKey ndebug h x in
    Ok (II ++ [k])) 0 [].

(** The part of the hashed keys that a column with the challenge [c_old] and the responses [ss] fills in. *)
Definition mg_ds_row (ndebug : bool) (pk ss : rct.keyV) (c_old : rct.key) (Ip : list (list ge_cached)) (j : nat) (toHash : rct.keyV) : result rct.keyV :=
  let! s := get ss j in
  let! p := get pk j in
  let! L := rct.addKeys2 s c_old p in
  let! Hi := rct.hashToPoint ndebug p in
  let! pre := get Ip j in
  let! R := rct.addKeys3 s Hi c_old pre in
  let! toHash := set toHash (3 * j + 1) p in
  let! toHash := set toHash (3 * j + 2) L in
  set toHash (3 * j + 3) R.

Definition mg_nds_row (pk ss : rct.keyV) (c_old : rct.key) (dsRows : nat) (j : nat) (toHash : rct.keyV) : result rct.keyV :=
  let ii := (j - dsRows)%nat in
  let! s := get ss j in
  let! p := get pk j in
  let! L := rct.addKeys2 s c_old p in
  let! toHash := set toHash (3 * dsRows + 2 * ii + 1) p in
  set toHash (3 * dsRows + 2 * ii + 2) L.

(** The rows of a column and the next challenge. *)
Definition mg_column (ndebug : bool) (pk ss : rct.keyV) (c_old : rct.key) (Ip : list (list ge_cached)) (rows dsRows : nat) (toHash : rct.keyV) :
    result (rct.keyV * rct.key) :=
  let! toHash := for_ dsRows (mg_ds_row ndebug pk ss c_old Ip) 0 toHash in
  let! toHash := for_ (rows - dsRows) (mg_nds_row pk ss c_old dsRows) dsRows toHash in
  let! c := rct.hash_to_scalar_keyV toHash in
  Ok (toHash, c).

Definition rectangular {A} (rows : nat) (M : list (list A)) : bool := forallb (fun col => (length col =? rows)%nat) M.

(** The checks on the arguments of [MLSAG_Gen]. *)
Definition mg_gen_checks (pk : rct.keyM) (xx : rct.keyV) (kLRki : option multisig_kLRki) (mscout : bool) (index dsRows : nat) : result nat :=
  let! _ := check_throw (2 <=? length pk)%nat in
  let! _ := check_throw (index <? length pk)%nat in
  let! col := get pk 0 in
  let rows := length col in
  let! _ := check_throw (1 <=? rows)%nat in
  let! _ := check_throw (rectangular rows (drop 1 pk)) in
  let! _ := check_throw (length xx =? rows)%nat in
  let! _ := check_throw (dsRows <=? rows)%nat in
  let multisig := match kLRki with Some _ => true | None => false end in
  let! _ := check_throw ((multisig && mscout) || (negb multisig && negb mscout)) in
  let! _ := check_throw (negb multisig || (dsRows =? 1)%nat) in
  Ok rows.

(** What the loops of [MLSAG_Gen] have built before the first challenge. *)
Record mg_state := Mg { m_rng : rng; m_alpha : rct.keyV; m_toHash : rct.keyV; m_II : rct.keyV; m_Ip : list (list ge_cached) }.

Definition mg_ds_start (ndebug : bool) (pk xx : rct.keyV) (kLRki : option multisig_kLRki) (i : nat) (st : mg_state) : result mg_state :=
  let! p := get pk i in
  let! toHash := set (m_toHash st) (3 * i + 1) p in
  match kLRki with
  | Some m =>
      let! alpha := set (m_alpha st) i (ms_k m) in
      let! toHash := set toHash (3 * i + 2) (ms_L m) in
      let! toHash := set toHash (3 * i + 3) (ms_R m) in
      let! II := set (m_II st) i (ms_ki m) in
      let! pre := rct.precomp (ms_ki m) in
      let! Ip := set (m_Ip st) i pre in
      Ok (Mg (m_rng st) alpha toHash II Ip)
  | None =>
      let! Hi := rct.hashToPoint ndebug p in
      let! (g, (a, aG)) := rct.skpkGen ndebug (m_rng st) in
      let! alpha := set (m_alpha st) i a in
      let! aHP := rct.scalarmultKey ndebug Hi a in
      let! toHash := set toHash (3 * i + 2) aG in
      let! toHash := set toHash (3 * i + 3) aHP in
      let! x := get xx i in
      let! image := rct.scalarmultKey ndebug Hi x in
      let! II := set (m_II st) i image in
      let! pre := rct.precomp image in
      let! Ip := set (m_Ip st) i pre in
      Ok (Mg g alpha toHash II Ip)
  end.

Definition mg_nds_start (ndebug : bool) (pk : rct.keyV) (dsRows : nat) (i : nat) (st : mg_state) : result mg_state :=
  let ii := (i - dsRows)%nat in
  let! (g, (a, aG)) := rct.skpkGen ndebug (m_rng st) in
  let! alpha := set (m_alpha st) i a in
  let! p := get pk i in
  let! toHash := set (m_toHash st) (3 * dsRows + 2 * ii + 1) p in
  let! toHash := set toHash (3 * dsRows + 2 * ii + 2) aG in
  Ok (Mg g alpha toHash (m_II st) (m_Ip st)).

(** [while (i != index)]: the generator, the responses, [cc], the hashed keys and the last challenge. *)
Fixpoint mg_loop (fuel : nat) (ndebug : bool) (pk : rct.keyM) (Ip : list (list ge_cached)) (rows dsRows index i : nat)
    (g : rng) (ss : rct.keyM) (cc : rct.key) (toHash : rct.keyV) (c_old : rct.key) : result (rng * rct.keyM * rct.key * rct.key) :=
  match fuel with
  | O => Fail OutOfFuel
  | S fuel =>
      if (i =? index)%nat then Ok (g, ss, cc, c_old)
      else
        let! (g, s) := rct.skvGen ndebug rows g in
        let! ss := set ss i s in
        let! p := get pk i in
        let! (toHash, c) := mg_column ndebug p s c_old Ip rows dsRows toHash in
        let i := (S i mod length pk)%nat in
        mg_loop fuel ndebug pk Ip rows dsRows index i g ss (if (i =? 0)%nat then c else cc) toHash c
  end.

(** The signature and, when [mscout] is given, the last challenge.  The loop runs less often than there are columns. *)
Definition MLSAG_Gen (ndebug : bool) (message : rct.key) (pk : rct.keyM) (xx : rct.keyV) (kLRki : option multisig_kLRki) (mscout : bool)
    (index dsRows : nat) (g : rng) : result (rng * (mgSig * option rct.key)) :=
  let! rows := mg_gen_checks pk xx kLRki mscout index dsRows in
  let cols := length pk in
  let! pki := get pk index in
  let toHash := replicate (1 + 3 * dsRows + 2 * (rows - dsRows)) rct.zero in
  let! toHash := set toHash 0 message in
  let! st := for_ dsRows (mg_ds_start ndebug pki xx kLRki) 0
               (Mg g (replicate rows rct.zero) toHash (replicate dsRows rct.zero) (replicate dsRows [])) in
  let! st := for_ (rows - dsRows) (mg_nds_start ndebug pki dsRows) dsRows st in
  let! c_old := rct.hash_to_scalar_keyV (m_toHash st) in
  let i := (S index mod cols)%nat in
  let! (g, ss, cc, c) := mg_loop cols ndebug pk (m_Ip st) rows dsRows index i (m_rng st) (replicate cols (replicate rows rct.zero))
                           (if (i =? 0)%nat then c_old else rct.zero) (m_toHash st) c_old in
  let! s := for_ rows (fun j s =>
    let! x := get xx j in
    let! a := get (m_alpha st) j in
    let! r := sc_mulsub c x a in
    set s j r) 0 (replicate rows rct.zero) in
  let! ss := set ss index s in
  Ok (g, (MgSig ss cc (m_II st), if mscout then Some c else None)).

(** Every scalar of the list is reduced. *)
Fixpoint all_scalars (l : rct.keyV) : result bool :=
  match l with
  | [] => Ok true
  | s :: l => let! c := sc_check s in if negb (c =? 0) then Ok false else all_scalars l
  end.

Definition MLSAG_Ver (ndebug : bool) (message : rct.key) (pk : rct.keyM) (rv : mgSig) (dsRows : nat) : result bool :=
  if negb (2 <=? length pk)%nat then Ok false
  else
    let! col := get pk 0 in
    let rows := length col in
    if negb ((1 <=? rows)%nat && rectangular rows (drop 1 pk) && (length (II rv) =? dsRows)%nat && (length (ss rv) =? length pk)%nat
             && rectangular rows (ss rv) && (dsRows <=? rows)%nat) then Ok false
    else
      let! ok := all_scalars (concat (ss rv) ++ [cc rv]) in
      if negb ok then Ok false
      else
        let! Ip := for_ dsRows (fun i Ip => let! k := get (II rv) i in let! pre := rct.precomp k in Ok (Ip ++ [pre])) 0 [] in
        let! toHash := set (replicate (1 + 3 * dsRows + 2 * (rows - dsRows)) rct.zero) 0 message in
        let! (_, c_old) := for_ (length pk) (fun i '(toHash, c_old) =>
          let! p := get pk i in
          let! s := get (ss rv) i in
          mg_column ndebug p s c_old Ip rows dsRows toHash) 0 (toHash, cc rv) in
        let! c := sc_sub c_old (cc rv) in
        Ok (sc_isnonzero c =? 0).

(** ** The signatures of the inputs *)

(** The last row of a column: the input commitments less the output commitments and the fee. *)
Definition mg_last (masks : rct.keyV) (outPk : list rct.ctkey) (txnFeeKey : rct.key) : result rct.key :=
  let! m := for_ (length masks) (fun j m => let! k := get masks j in rct.addKeys m k) 0 rct.identity in
  let! m := for_ (length outPk) (fun j m => let! o := get outPk j in rct.subKeys m (rct.mask o)) 0 m in
  rct.subKeys m txnFeeKey.

(** The columns of the matrix that is signed. *)
Fixpoint mg_matrix (pubs : list (list rct.ctkey)) (outPk : list rct.ctkey) (txnFeeKey : rct.key) : result rct.keyM :=
  match pubs with
  | [] => Ok []
  | col :: pubs =>
      let! m := mg_last (rct.mask <$> col) outPk txnFeeKey in
      let! M := mg_matrix pubs outPk txnFeeKey in
      Ok (((rct.dest <$> col) ++ [m]) :: M)
  end.

Definition proveRctMG (ndebug : bool) (message : rct.key) (pubs : list (list rct.ctkey)) (inSk outSk outPk : list rct.ctkey)
    (kLRki : option multisig_kLRki) (mscout : bool) (index : nat) (txnFeeKey : rct.key) (g : rng) :
    result (rng * (mgSig * option rct.key)) :=
  let! _ := check_throw (1 <=? length pubs)%nat in
  let! col := get pubs 0 in
  let rows := length col in
  let! _ := check_throw (1 <=? rows)%nat in
  let! _ := check_throw (rectangular rows (drop 1 pubs)) in
  let! _ := check_throw (length inSk =? rows)%nat in
  let! _ := check_throw (length outSk =? length outPk)%nat in
  let multisig := match kLRki with Some _ => true | None => false end in
  let! _ := check_throw ((multisig && mscout) || (negb multisig && negb mscout)) in
  let! M := mg_matrix pubs outPk txnFeeKey in
  let! sk := for_ rows (fun j sk => let! k := get inSk j in sc_add sk (rct.mask k)) 0 sc_0 in
  let! sk := for_ (length outPk) (fun j sk => let! k := get outSk j in sc_sub sk (rct.mask k)) 0 sk in
  MLSAG_Gen ndebug message M ((rct.dest <$> inSk) ++ [sk]) kLRki mscout index rows g.

Definition verRctMG (ndebug : bool) (mg : mgSig) (pubs : list (list rct.ctkey)) (outPk : list rct.ctkey) (txnFeeKey message : rct.key) : result bool :=
  if negb (1 <=? length pubs)%nat then Ok false
  else
    let! col := get pubs 0 in
    let rows := length col in
    if negb ((1 <=? rows)%nat && rectangular rows (drop 1 pubs)) then Ok false
    else
      let! M := mg_matrix pubs outPk txnFeeKey in
      MLSAG_Ver ndebug message M mg rows.

(** The two rows of each column: the key and the difference of the commitments. *)
Fixpoint mg_simple_matrix (pubs : list rct.ctkey) (Cout : rct.key) : result rct.keyM :=
  match pubs with
  | [] => Ok []
  | p :: pubs =>
      let! m := rct.subKeys (rct.mask p) Cout in
      let! M := mg_simple_matrix pubs Cout in
      Ok ([rct.dest p; m] :: M)
  end.

Definition proveRctMGSimple (ndebug : bool) (message : rct.key) (pubs : list rct.ctkey) (inSk : rct.ctkey) (a Cout : rct.key)
    (kLRki : option multisig_kLRki) (mscout : bool) (index : nat) (g : rng) : result (rng * (mgSig * option rct.key)) :=
  let! _ := check_throw (1 <=? length pubs)%nat in
  let multisig := match kLRki with Some _ => true | None => false end in
  let! _ := check_throw ((multisig && mscout) || (negb multisig && negb mscout)) in
  let! M := mg_simple_matrix pubs Cout in
  let! sk := sc_sub (rct.mask inSk) a in
  MLSAG_Gen ndebug message M [rct.dest inSk; sk] kLRki mscout index 1 g.

Definition verRctMGSimple (ndebug : bool) (message : rct.key) (mg : mgSig) (pubs : list rct.ctkey) (C : rct.key) : result bool :=
  catch_false
    (if negb (1 <=? length pubs)%nat then Ok false
     else
       let! M := mg_simple_matrix pubs C in
       MLSAG_Ver ndebug message M mg 1).

(** ** What is signed *)

Definition is_full (t : Z) : bool := (t =? RCTTypeFull) || (t =? RCTTypeFullBulletproof).
Definition is_simple (t : Z) : bool := (t =? RCTTypeSimple) || (t =? RCTTypeSimpleBulletproof).

(** [serialize_rctsig_base] to a binary archive: [None] when it returns [false]. *)
Definition serialize_rctsig_base (rv : rctSig) (inputs outputs : nat) : result (option (list Z)) :=
  if type rv =? RCTTypeNull then Ok (Some [type rv])
  else if negb (is_full (type rv) || is_simple (type rv)) then Ok None
  else
    let! fee := write_varint VARINT_SIZE (txnFee rv) in
    if is_simple (type rv) && negb (length (pseudoOuts rv) =? inputs)%nat then Ok None
    else if negb (length (ecdhInfo rv) =? outputs)%nat || negb (length (outPk rv) =? outputs)%nat then Ok None
    else
      Ok (Some ([type rv] ++ fee ++ (if is_simple (type rv) then concat (pseudoOuts rv) else []) ++
                concat ((fun e => rct.ecdh_mask e ++ rct.ecdh_amount e) <$> ecdhInfo rv) ++ concat (rct.mask <$> outPk rv))).

Definition bulletproof_keys (p : Bulletproof) : rct.keyV :=
  [bp_A p; bp_S p; bp_T1 p; bp_T2 p; bp_taux p; bp_mu p] ++ bp_L p ++ bp_R p ++ [bp_a p; bp_b p; bp_t p].

Definition rangeSig_keys (r : rangeSig) : rct.keyV := take 64 (s0 (asig r)) ++ take 64 (s1 (asig r)) ++ [ee (asig r)] ++ take 64 (Ci r).

Definition get_pre_mlsag_hash (rv : rctSig) : result rct.key :=
  let! o := serialize_rctsig_base rv (length (pseudoOuts rv)) (length (ecdhInfo rv)) in
  match o with
  | None => Fail Thrown
  | Some blob =>
      let! h := Keccak.cn_fast_hash blob in
      let kv :=
        if (type rv =? RCTTypeSimpleBulletproof) || (type rv =? RCTTypeFullBulletproof)
        then concat (bulletproof_keys <$> bulletproofs rv)
        else concat (rangeSig_keys <$> rangeSigs rv) in
      let! k := rct.cn_fast_hash_keyV kv in
      rct.cn_fast_hash_keyV [message rv; h; k]
  end.

(** ** Transactions *)
Section Transactions.
Context (bulletproof_PROVE : Z -> rct.key -> rng -> result (rng * Bulletproof)) (bulletproof_VERIFY : Bulletproof -> result bool).

Definition proveRangeBulletproof (ndebug : bool) (amount : Z) (g : rng) : result (rng * (rct.key * rct.key * Bulletproof)) :=
  let! (g, mask) := rct.skGen ndebug g in
  let! (g, proof) := bulletproof_PROVE amount mask g in
  let! _ := check_throw (length (bp_V proof) =? 1)%nat in
  let! C := get (bp_V proof) 0 in
  Ok (g, (C, mask, proof)).

(** The outputs: their pairs of keys, the masks and the masked amounts, with a proof of either kind for each. *)
Record outputs := Outputs {
  o_rng : rng; o_outPk : list rct.ctkey; o_masks : rct.keyV; o_ecdh : list rct.ecdhTuple; o_rangeSigs : list rangeSig; o_bulletproofs : list Bulletproof }.

Definition gen_output (ndebug bulletproof : bool) (b : list Z) (destinations : rct.keyV) (amounts : list Z) (amount_keys : rct.keyV) (i : nat)
    (st : outputs) : result outputs :=
  let! dest := get destinations i in
  let! amount := get amounts i in
  let! (g, C, mask, rs, bps) :=
    if bulletproof then
      let! (g, (C, mask, p)) := proveRangeBulletproof ndebug amount (o_rng st) in
      Ok (g, C, mask, o_rangeSigs st, o_bulletproofs st ++ [p])
    else
      let! (g, (C, mask, r)) := proveRange ndebug b amount (o_rng st) in
      Ok (g, C, mask, o_rangeSigs st ++ [r], o_bulletproofs st) in
  let! h := rct.d2h amount in
  let! k := get amount_keys i in
  let! e := rct.ecdhEncode (rct.EcdhTuple mask h rct.zero) k in
  Ok (Outputs g (o_outPk st ++ [rct.Ctkey dest C]) (o_masks st ++ [mask]) (o_ecdh st ++ [e]) rs bps).

(** [resize(n)] of a vector of pairs of keys. *)
Definition resize_ctkeys (n : nat) (l : list rct.ctkey) : list rct.ctkey :=
  take n l ++ replicate (n - length l) (rct.Ctkey rct.zero rct.zero).

Definition set_masks (outSk : list rct.ctkey) (masks : rct.keyV) : list rct.ctkey :=
  zip_with (fun o m => rct.Ctkey (rct.dest o) m) outSk masks.

(** The transaction, the secret output keys and, when [msout] is given, the challenges. *)
Definition genRct (ndebug : bool) (b : list Z) (message : rct.key) (inSk : list rct.ctkey) (destinations : rct.keyV) (amounts : list Z)
    (mixRing : list (list rct.ctkey)) (amount_keys : rct.keyV) (kLRki : option multisig_kLRki) (msout : bool) (index : nat)
    (outSk : list rct.ctkey) (bulletproof : bool) (g : rng) : result (rng * (rctSig * list rct.ctkey * option rct.keyV)) :=
  let n := length destinations in
  let! _ := check_throw ((length amounts =? n)%nat || (length amounts =? n + 1)%nat) in
  let! _ := check_throw (length amount_keys =? n)%nat in
  let! _ := check_throw (index <? length mixRing)%nat in
  let! _ := check_throw (rectangular (length inSk) mixRing) in
  let multisig := match kLRki with Some _ => true | None => false end in
  let! _ := check_throw ((multisig && msout) || (negb multisig && negb msout)) in
  let! o := for_ n (gen_output ndebug bulletproof b destinations amounts amount_keys) 0 (Outputs g [] [] [] [] []) in
  let outSk := set_masks (resize_ctkeys n outSk) (o_masks o) in
  let! fee := if (n <? length amounts)%nat then get amounts n else Ok 0 in
  let! h := rct.d2h fee in
  let! txnFeeKey := rct.scalarmultH ndebug h in
  let rv := RctSig (if bulletproof then RCTTypeFullBulletproof else RCTTypeFull) message mixRing [] (o_ecdh o) (o_outPk o) fee
              (o_rangeSigs o) (o_bulletproofs o) in
  let! m := get_pre_mlsag_hash (rv []) in
  let! (g, (mg, c)) := proveRctMG ndebug m mixRing inSk outSk (o_outPk o) kLRki msout index txnFeeKey (o_rng o) in
  Ok (g, (rv [mg], outSk, match c with Some c => Some [c] | None => None end)).

(** The commitments of the inputs of a simple transaction but the last: the generator, the masks, their sum and the commitments. *)
Definition gen_pseudo (ndebug : bool) (inamounts : list Z) (i : nat) (st : rng * rct.keyV * rct.key * rct.keyV) :
    result (rng * rct.keyV * rct.key * rct.keyV) :=
  let '(g, a, sumpouts, pseudo) := st in
  let! (g, ai) := rct.skGen ndebug g in
  let! sumpouts := sc_add ai sumpouts in
  let! amount := get inamounts i in
  let! C := rct.genC ndebug ai amount in
  Ok (g, a ++ [ai], sumpouts, pseudo ++ [C]).

Definition gen_mg (ndebug : bool) (m : rct.key) (mixRing : list (list rct.ctkey)) (inSk : list rct.ctkey) (a pseudo : rct.keyV)
    (kLRki : option (list multisig_kLRki)) (msout : bool) (index : list nat) (i : nat) (st : rng * list mgSig * list (option rct.key)) :
    result (rng * list mgSig * list (option rct.key)) :=
  let '(g, mgs, cs) := st in
  let! ring := get mixRing i in
  let! sk := get inSk i in
  let! ai := get a i in
  let! C := get pseudo i in
  let! k := match kLRki with Some l => let! k := get l i in Ok (Some k) | None => Ok None end in
  let! ix := get index i in
  let! (g, (mg, c)) := proveRctMGSimple ndebug m ring sk ai C k msout ix g in
  Ok (g, mgs ++ [mg], cs ++ [c]).

Definition genRctSimple (ndebug : bool) (b : list Z) (message : rct.key) (inSk : list rct.ctkey) (destinations : rct.keyV)
    (inamounts outamounts : list Z) (txnFee : Z) (mixRing : list (list rct.ctkey)) (amount_keys : rct.keyV)
    (kLRki : option (list multisig_kLRki)) (msout : bool) (index : list nat) (outSk : list rct.ctkey) (bulletproof : bool) (g : rng) :
    result (rng * (rctSig * list rct.ctkey * option rct.keyV)) :=
  let n := length destinations in
  let ins := length inamounts in
  let! _ := check_throw (0 <? ins)%nat in
  let! _ := check_throw (ins =? length inSk)%nat in
  let! _ := check_throw (length outamounts =? n)%nat in
  let! _ := check_throw (length amount_keys =? n)%nat in
  let! _ := check_throw (length index =? length inSk)%nat in
  let! _ := check_throw (length mixRing =? length inSk)%nat in
  let! _ := check_throw (forallb (fun '(i, ring) => (i <? length ring)%nat) (zip index mixRing)) in
  let multisig := match kLRki with Some _ => true | None => false end in
  let! _ := check_throw ((multisig && msout) || (negb multisig && negb msout)) in
  let! _ := check_throw (match kLRki with Some l => (length l =? ins)%nat | None => true end) in
  let! o := for_ n (gen_output ndebug bulletproof b destinations outamounts amount_keys) 0 (Outputs g [] [] [] [] []) in
  let outSk := set_masks (resize_ctkeys n outSk) (o_masks o) in
  let! sumout := for_ n (fun i s => let! m := get (o_masks o) i in sc_add m s) 0 rct.zero in
  let! (g, a, sumpouts, pseudo) := for_ (ins - 1) (gen_pseudo ndebug inamounts) 0 (o_rng o, [], rct.zero, []) in
  let! last := sc_sub sumout sumpouts in
  let! amount := get inamounts (ins - 1) in
  let! C := rct.genC ndebug last amount in
  let a := a ++ [last] in
  let pseudo := pseudo ++ [C] in
  let rv := RctSig (if bulletproof then RCTTypeSimpleBulletproof else RCTTypeSimple) message mixRing pseudo (o_ecdh o) (o_outPk o) txnFee
              (o_rangeSigs o) (o_bulletproofs o) in
  let! m := get_pre_mlsag_hash (rv []) in
  let! (g, mgs, cs) := for_ ins (gen_mg ndebug m mixRing inSk a pseudo kLRki msout index) 0 (g, [], []) in
  Ok (g, (rv mgs, outSk, if msout then Some (omap id cs) else None)).

(** The proof of every output: all are checked, whatever the answers. *)
Definition verify_output (rv : rctSig) (i : nat) : result bool :=
  match rangeSigs rv with
  | [] => let! p := get (bulletproofs rv) i in bulletproof_VERIFY p
  | _ =>
      let! o := get (outPk rv) i in
      let! r := get (rangeSigs rv) i in
      verRange (rct.mask o) r
  end.

(** A task of the thread pool: an exception that leaves a worker ends the process. *)
Definition task (m : result bool) : result bool := match m with Fail Thrown => Fail Aborted | _ => m end.

Definition run_all (n : nat) (f : nat -> result bool) : result (list bool) :=
  for_ n (fun i results => let! r := task (f i) in Ok (results ++ [r])) 0 [].

Definition proof_sizes_ok (rv : rctSig) (bulletproof_type : Z) : bool :=
  (length (outPk rv) =? (if (type rv =? bulletproof_type)%Z then length (bulletproofs rv) else length (rangeSigs rv)))%nat
  && (length (outPk rv) =? length (ecdhInfo rv))%nat.

Definition verRct (ndebug : bool) (rv : rctSig) (semantics : bool) : result bool :=
  if negb (is_full (type rv)) then Ok false
  else if semantics && negb (proof_sizes_ok rv RCTTypeFullBulletproof && (length (MGs rv) =? 1)%nat) then Ok false
  else
    catch_false
      (if semantics then
         let! results := run_all (length (outPk rv)) (verify_output rv) in
         Ok (forallb id results)
       else
         let! h := rct.d2h (txnFee rv) in
         let! txnFeeKey := rct.scalarmultH ndebug h in
         let! mg := get (MGs rv) 0 in
         let! m := get_pre_mlsag_hash rv in
         verRctMG ndebug mg (mixRing rv) (outPk rv) txnFeeKey m).

(** [sumPseudoOuts == sumOutpks] *)
Definition sums_equal (ndebug : bool) (rv : rctSig) : result bool :=
  let! sumOutpks := for_ (length (outPk rv)) (fun i s => let! o := get (outPk rv) i in rct.addKeys s (rct.mask o)) 0 rct.identity in
  let! h := rct.d2h (txnFee rv) in
  let! txnFeeKey := rct.scalarmultH ndebug h in
  let! sumOutpks := rct.addKeys txnFeeKey sumOutpks in
  let! sumPseudoOuts := for_ (length (pseudoOuts rv)) (fun i s => let! k := get (pseudoOuts rv) i in rct.addKeys s k) 0 rct.identity in
  rct.equalKeys sumPseudoOuts sumOutpks.

Definition verRctSimple (ndebug : bool) (rv : rctSig) (semantics : bool) : result bool :=
  catch_false
    (if negb (is_simple (type rv)) then Ok false
     else if semantics && negb (proof_sizes_ok rv RCTTypeSimpleBulletproof && (length (pseudoOuts rv) =? length (MGs rv))%nat) then Ok false
     else if negb semantics && negb (length (pseudoOuts rv) =? length (mixRing rv))%nat then Ok false
     else if semantics then
       let! eq := sums_equal ndebug rv in
       if negb eq then Ok false
       else
         let! results := run_all (length (outPk rv)) (verify_output rv) in
         Ok (forallb id results)
     else
       let! m := get_pre_mlsag_hash rv in
       let! results := run_all (length (mixRing rv)) (fun i =>
         let! mg := get (MGs rv) i in
         let! ring := get (mixRing rv) i in
         let! C := get (pseudoOuts rv) i in
         verRctMGSimple ndebug m mg ring C) in
       Ok (forallb id results)).
End Transactions.

(** The amount and the mask that an output hides; [mask] is what the output argument held. *)
Definition decode_output (rv : rctSig) (ok : bool) (sk : rct.key) (i : nat) (mask : rct.key) : result (Z * rct.key) :=
  if negb ok then Ok (0, mask)
  else
    let! _ := check_throw (i <? length (ecdhInfo rv))%nat in
    let! _ := check_throw (length (outPk rv) =? length (ecdhInfo rv))%nat in
    let! e := get (ecdhInfo rv) i in
    let! e := rct.ecdhDecode e sk in
    let! o := get (outPk rv) i in
    let! Ctmp := rct.addKeys2 (rct.ecdh_mask e) (rct.ecdh_amount e) rct.H in
    let! eq := rct.equalKeys (rct.mask o) Ctmp in
    let! _ := check_throw eq in
    let! amount := rct.h2d (rct.ecdh_amount e) in
    Ok (amount, rct.ecdh_mask e).

Definition decodeRct (rv : rctSig) (sk : rct.key) (i : nat) (mask : rct.key) : result (Z * rct.key) :=
  decode_output rv (is_full (type rv)) sk i mask.

Definition decodeRctSimple (rv : rctSig) (sk : rct.key) (i : nat) (mask : rct.key) : result (Z * rct.key) :=
  decode_output rv (is_simple (type rv)) sk i mask.

(** ** Multisignatures *)
Definition multisig_lines_ok (indices : list nat) (MGs : list mgSig) : bool :=
  forallb (fun '(i, mg) => match ss mg !! i with Some (_ :: _) => true | _ => false end) (zip indices MGs).

Definition multisig_line (c secret_key k : rct.key) (index : nat) (mg : mgSig) : result mgSig :=
  let! diff := sc_mulsub c secret_key k in
  let! line := get (ss mg) index in
  let! s := get line 0 in
  let! s := sc_add s diff in
  let! line := set line 0 s in
  let! ss := set (ss mg) index line in
  Ok (MgSig ss (cc mg) (II mg)).

Definition signMultisig (rv : rctSig) (indices : list nat) (k : rct.keyV) (msout_c : rct.keyV) (secret_key : rct.key) : result (bool * rctSig) :=
  if negb (is_full (type rv) || is_simple (type rv)) || negb (length indices =? length k)%nat || negb (length k =? length (MGs rv))%nat
     || negb (length k =? length msout_c)%nat || (is_full (type rv) && negb (length (MGs rv) =? 1)%nat)
     || negb (multisig_lines_ok indices (MGs rv)) then Ok (false, rv)
  else
    let! mgs := for_ (length indices) (fun n mgs =>
      let! c := get msout_c n in
      let! kn := get k n in
      let! ix := get indices n in
      let! mg := get mgs n in
      let! mg := multisig_line c secret_key kn ix mg in
      set mgs n mg) 0 (MGs rv) in
    Ok (true, RctSig (type rv) (message rv) (mixRing rv) (pseudoOuts rv) (ecdhInfo rv) (outPk rv) (txnFee rv) (rangeSigs rv) (bulletproofs rv) mgs).
