(* ===== verification/RctRange.v ===== *)
(** * Range proofs are accepted

    Borromean signatures on a chain of two commitments per bit, and the range
    proofs that are made of them. *)

From stdpp Require Import base list numbers.
From Stdlib Require Import ZArith Lia.
From S2P Require Import Prelude Bytes Field FieldFacts Scalar ScalarFacts CurveData Group Edwards GroupFacts GroupSpec BaseTable Recode ScalarMult ScalarMultFacts PointCodec HashToPoint GroupOrder Keccak KeccakFacts Random Crypto CryptoFacts RingFacts Rct RctFacts RctSigs.

(** ** Lists built entry by entry *)
Lemma list_choice {A} (P : nat -> A -> Prop) n :
  (forall i, (i < n)%nat -> exists a, P i a) -> exists l, length l = n /\ forall i a, l !! i = Some a -> P i a.
Proof.
  intros H. induction n as [|n IH]; [by exists []|].
  destruct IH as (l & Hl & HP); [intros i Hi; apply H; lia|]. destruct (H n ltac:(lia)) as [a Ha].
  exists (l ++ [a]). rewrite length_app. split; [simpl; lia|]. intros i b Hb.
  destruct (decide (i < n)%nat) as [Hi|Hi]; [rewrite lookup_app_l in Hb by lia; by apply HP|].
  apply lookup_lt_Some in Hb as Hlt. rewrite length_app in Hlt. simpl in Hlt. assert (i = n) as -> by lia.
  rewrite lookup_app_r, Hl, Nat.sub_diag in Hb by lia. by injection Hb as <-.
Qed.

(** An array that is written from the start: its first [k] entries satisfy [P]. *)
Definition filled {A} (P : nat -> A -> Prop) (k : nat) (s : list A) : Prop := forall i a, (i < k)%nat -> s !! i = Some a -> P i a.

Lemma filled_set {A} (P : nat -> A -> Prop) k s a : filled P k s -> (k < length s)%nat -> P k a -> filled P (S k) (<[k := a]> s).
Proof.
  intros Hs Hk Ha i b Hi. destruct (decide (i = k)) as [->|Hne].
  - rewrite list_lookup_insert_eq by done. by intros [= <-].
  - rewrite list_lookup_insert_ne by done. apply Hs. lia.
Qed.

Lemma get_lt {A} (s : list A) i : (i < length s)%nat -> exists a, s !! i = Some a /\ get s i = Ok a.
Proof. intros Hi. destruct (lookup_lt_is_Some_2 s i Hi) as [a Ha]. exists a. split; [done|]. by apply get_ok. Qed.

Lemma scalar_eq a b va vb : scalar a va -> scalar b vb -> a = b <-> va = vb.
Proof.
  intros Ha Hb. split; [|intros ->; destruct Ha as [-> _], Hb as [-> _]; done].
  intros ->. by rewrite <- (scalar_val _ _ Ha), (scalar_val _ _ Hb).
Qed.

(** ** Borromean signatures *)

(** The end of a chain with the challenge [e], the keys [m] and the responses [r]. *)
Definition boro_link (e : Z) (m : pt * pt) (r : Z * Z) : list Z :=
  encode (padd (smul (Hs (encode (padd (smul e m.1) (smul r.1 B)))) m.2) (smul r.2 B)).

Definition pair_ok (m : pt * pt) : Prop := on_curve m.1 /\ on_curve m.2.

Definition firsts (ms : list (pt * pt)) : list (list Z) := (fun m => encode m.1) <$> ms.
Definition seconds (ms : list (pt * pt)) : list (list Z) := (fun m => encode m.2) <$> ms.

Lemma firsts_lookup ms i m : ms !! i = Some m -> get (firsts ms) i = Ok (encode m.1).
Proof. intros H. apply get_ok. unfold firsts. by rewrite list_lookup_fmap, H. Qed.

Lemma seconds_lookup ms i m : ms !! i = Some m -> get (seconds ms) i = Ok (encode m.2).
Proof. intros H. apply get_ok. unfold seconds. by rewrite list_lookup_fmap, H. Qed.

(** The responses of a signature as numbers. *)
Definition responses (bb : boroSig) (rs : list (Z * Z)) : Prop :=
  Forall2 (fun k r => scalar k r.1) (s0 bb) rs /\ Forall2 (fun k r => scalar k r.2) (s1 bb) rs.

Lemma verifyBorromean_spec bb ms rs e :
  Forall pair_ok ms -> length ms = 64%nat -> length rs = 64%nat -> responses bb rs -> scalar (ee bb) e ->
  verifyBorromean bb (firsts ms) (seconds ms) = Ok (bool_decide (e = Hs (concat (zip_with (boro_link e) ms rs)))).
Proof.
  intros Hms Lm Lr [H0 H1] He. unfold verifyBorromean.
  assert (returns (for_ 64 (fun ii Lv1 =>
    let! a := get (s0 bb) ii in
    let! p1 := get (firsts ms) ii in
    let! LL := rct.addKeys2 a (ee bb) p1 in
    let! chash := rct.hash_to_scalar LL in
    let! b := get (s1 bb) ii in
    let! p2 := get (seconds ms) ii in
    let! k := rct.addKeys2 b chash p2 in
    set Lv1 ii k) 0 key64) (fun r => length r = 64%nat /\
      filled (fun i k => forall m v, ms !! i = Some m -> rs !! i = Some v -> k = boro_link e m v) 64 r)) as Hr.
  { apply (for_inv 64 _ 0 key64 (fun k r => length r = 64%nat /\
      filled (fun i k => forall m v, ms !! i = Some m -> rs !! i = Some v -> k = boro_link e m v) k r)).
    - split; [done|]. intros i a Hi. lia.
    - intros k r Hk [Lr' Hf]. cbv beta. destruct (lookup_lt_is_Some_2 ms k) as [m Hm]; [lia|]. destruct (lookup_lt_is_Some_2 rs k) as [v Hv]; [lia|].
      destruct (Forall2_lookup_r _ _ _ _ _ H0 Hv) as (a & Ha & Sa). destruct (Forall2_lookup_r _ _ _ _ _ H1 Hv) as (b & Hb & Sb).
      destruct (Forall_lookup_1 _ _ _ _ Hms Hm) as [C1 C2].
      rewrite (get_ok _ _ _ Ha), bind_ok, (firsts_lookup _ _ _ Hm), bind_ok, (addKeys2_spec _ _ _ _ _ Sa He C1), bind_ok.
      rewrite rct_hash_to_scalar_spec, bind_ok, (get_ok _ _ _ Hb), bind_ok, (seconds_lookup _ _ _ Hm), bind_ok.
      rewrite (addKeys2_spec _ _ _ _ _ Sb (Hs_scalar _) C2), bind_ok, set_ok by lia.
      cbn [returns]. rewrite length_insert. split; [done|]. apply filled_set; [done|lia|]. intros m' v' Hm' Hv'. by simplify_eq. }
  apply returns_inv in Hr as (L & -> & LL & HL). rewrite bind_ok.
  assert (L = zip_with (boro_link e) ms rs) as ->.
  { apply (list_eq_same_length _ _ 64); [rewrite length_zip_with; lia|done|]. intros i x y Hi Hx Hy.
    apply lookup_zip_with_Some in Hy as (m & v & -> & Hm & Hv). exact (HL i x Hi Hx m v Hm Hv). }
  rewrite hash_to_scalar_key64_spec, bind_ok. set (h := Hs _).
  pose proof (Hs_scalar (concat (zip_with (boro_link e) ms rs))) as Sh. fold h in Sh.
  destruct (scalar_bytes _ _ Sh) as (_ & Lh & _). destruct (scalar_bytes _ _ He) as (_ & Le & _).
  rewrite equalKeys_spec by done. f_equal. apply bool_decide_ext. rewrite (scalar_eq _ _ _ _ Sh He). naive_solver.
Qed.

(** *** Signing *)
Section Borromean.
Context (ndebug : bool) (ms : list (pt * pt)) (bs : list Z) (xs : list (list Z)) (vs : list Z).
Hypothesis Hms : Forall pair_ok ms.
Hypothesis Lms : length ms = 64%nat.
Hypothesis Hbs : is_bits bs.
Hypothesis Lbs : length bs = 64%nat.
Hypothesis Hxs : Forall2 scalar xs vs.
Hypothesis Lvs : length vs = 64%nat.
Hypothesis Hkeys : forall i m b v, ms !! i = Some m -> bs !! i = Some b -> vs !! i = Some v ->
  (if decide (b = 0) then m.1 else m.2) ≡ₚ smul v B.

(** What the first loop leaves at a place: the nonce [a], the response [s] of the bit 0 and the end [k] of the chain. *)
Definition committed (m : pt * pt) (b : Z) (a s k : list Z) : Prop :=
  exists va, scalar a va /\
    if decide (b = 0) then exists vs, scalar s vs /\ k = encode (padd (smul (Hs (public va)) m.2) (smul vs B))
    else k = public va.

Definition commit_inv (n : nat) (st : boro_state) : Prop :=
  initialised (b_rng st) /\ length (b_alpha st) = 64%nat /\ length (b_s1 st) = 64%nat /\
  exists L0 L1, b_L st = [L0; L1] /\ length L0 = 64%nat /\ length L1 = 64%nat /\
    forall i m b a s k, (i < n)%nat -> ms !! i = Some m -> bs !! i = Some b ->
      b_alpha st !! i = Some a -> b_s1 st !! i = Some s -> L1 !! i = Some k -> committed m b a s k.

(** One more place is filled in. *)
Lemma commit_extend n (alpha s1 L1 : list (list Z)) m b a s k :
  (n < 64)%nat -> length alpha = 64%nat -> length s1 = 64%nat -> length L1 = 64%nat ->
  (forall i m b a s k, (i < n)%nat -> ms !! i = Some m -> bs !! i = Some b ->
     alpha !! i = Some a -> s1 !! i = Some s -> L1 !! i = Some k -> committed m b a s k) ->
  ms !! n = Some m -> bs !! n = Some b -> committed m b a s k ->
  forall i m b a' s' k', (i < S n)%nat -> ms !! i = Some m -> bs !! i = Some b ->
    <[n := a]> alpha !! i = Some a' -> <[n := s]> s1 !! i = Some s' -> <[n := k]> L1 !! i = Some k' -> committed m b a' s' k'.
Proof using All.
  intros Hn La Ls Lk Hi Hm Hb Hc i m' b' a' s' k' Hi' Hm' Hb'. destruct (decide (i = n)) as [->|Hne].
  - rewrite !list_lookup_insert_eq by lia. intros [= <-] [= <-] [= <-]. by simplify_eq.
  - rewrite !list_lookup_insert_ne by done. apply Hi; [lia|done|done].
Qed.

Lemma set2_0 (L0 L1 : list (list Z)) i k : (i < length L0)%nat -> set2 [L0; L1] 0 i k = Ok [<[i := k]> L0; L1].
Proof using Type. intros Hi. unfold set2. change (0 <? 0) with false. cbv iota. rewrite (get_ok _ _ L0) by done. by rewrite bind_ok, set_ok, bind_ok by done. Qed.

Lemma set2_1 (L0 L1 : list (list Z)) i k : (i < length L1)%nat -> set2 [L0; L1] 1 i k = Ok [L0; <[i := k]> L1].
Proof using Type. intros Hi. unfold set2. change (1 <? 0) with false. cbv iota. rewrite (get_ok _ _ L1) by done. by rewrite bind_ok, set_ok, bind_ok by done. Qed.

Lemma boro_commit_spec n st :
  (n < 64)%nat -> commit_inv n st -> returns (boro_commit ndebug (seconds ms) bs n st) (commit_inv (S n)).
Proof using All.
  intros Hn (Hg & La & Ls & L0 & L1 & EL & Ll0 & Ll1 & Hi). destruct (lookup_lt_is_Some_2 ms n) as [m Hm]; [lia|].
  destruct (lookup_lt_is_Some_2 bs n) as [b Hb]; [lia|]. pose proof (Forall_lookup_1 _ _ _ _ Hbs Hb) as H01. cbv beta in H01.
  destruct (Forall_lookup_1 _ _ _ _ Hms Hm) as [C1 C2]. destruct (lookup_lt_is_Some_2 (b_s1 st) n) as [s' Hs']; [lia|].
  unfold boro_commit. rewrite (get_ok _ _ _ Hb), bind_ok.
  eapply returns_bind; [by apply skGen_spec|]. intros [g1 a] [Hg1 [va Ha]]. cbv beta.
  rewrite set_ok, bind_ok, (scalarmultBase_scalar _ _ _ Ha), bind_ok, EL by lia.
  destruct H01 as [-> | ->].
  - change (to_i32 0) with 0. change (to_i32 (u32 (0 + 1) mod 2)) with 1. rewrite set2_0, bind_ok by lia.
    change (0 =? 0) with true. cbv iota.
    eapply returns_bind; [by apply skGen_spec|]. intros [g2 s] [Hg2 [vs' Ssc]]. cbv beta.
    rewrite set_ok, bind_ok, rct_hash_to_scalar_spec, bind_ok, (seconds_lookup _ _ _ Hm), bind_ok by lia.
    rewrite (addKeys2_spec _ _ _ _ _ Ssc (Hs_scalar _) C2), bind_ok, set2_1, bind_ok by lia.
    cbn [returns]. unfold commit_inv. cbn [b_rng b_alpha b_s1 b_L]. rewrite !length_insert. split_and!; [done|done|done|].
    exists (<[n := public va]> L0), (<[n := encode (padd (smul (Hs (public va)) m.2) (smul vs' B))]> L1).
    rewrite !length_insert. split_and!; [done|done|done|].
    apply (commit_extend n _ _ _ m 0 a s _ Hn La Ls Ll1 Hi Hm Hb). exists va. split; [done|]. rewrite decide_True by done. by exists vs'.
  - change (to_i32 1) with 1. rewrite set2_1, bind_ok by lia. change (1 =? 0) with false. cbv iota. cbn [returns].
    unfold commit_inv. cbn [b_rng b_alpha b_s1 b_L]. rewrite !length_insert. split_and!; [done|done|done|].
    exists L0, (<[n := public va]> L1). rewrite !length_insert. split_and!; [done|done|done|].
    rewrite <- (list_insert_id (b_s1 st) n s') by done.
    apply (commit_extend n _ _ _ m 1 a s' _ Hn La Ls Ll1 Hi Hm Hb). exists va. split; [done|]. by rewrite decide_False by done.
Qed.

(** The two ways to close a chain. *)
Lemma close_zero m v e va r1 :
  pair_ok m -> m.1 ≡ₚ smul v B ->
  boro_link e m ((va - v * e) mod l, r1) = encode (padd (smul (Hs (public va)) m.2) (smul r1 B)).
Proof using Type.
  intros [C1 C2] Hm. unfold boro_link. cbn [fst snd]. unfold public.
  assert (encode (padd (smul e m.1) (smul ((va - v * e) mod l) B)) = encode (smul va B)) as ->; [|done].
  rewrite Hm, (Z.mul_comm v e). by rewrite (response_commitment B e v va B_on_curve base_order).
Qed.

Lemma close_one m v e va r0 :
  pair_ok m -> m.2 ≡ₚ smul v B ->
  boro_link e m (r0, (va - v * Hs (encode (padd (smul e m.1) (smul r0 B)))) mod l) = public va.
Proof using Type.
  intros [C1 C2] Hm. unfold boro_link. cbn [fst snd]. unfold public. set (c := Hs _).
  rewrite Hm, (Z.mul_comm v c). by rewrite (response_commitment B c v va B_on_curve base_order).
Qed.

(** What the second loop leaves at a place. *)
Definition responded (e : Z) (m : pt * pt) (a0 a1 k : list Z) : Prop :=
  exists r, scalar a0 r.1 /\ scalar a1 r.2 /\ k = boro_link e m r.

Definition respond_inv (e : Z) (s1 L1 : list (list Z)) (n : nat) (st : rng * list (list Z) * list (list Z)) : Prop :=
  let '(g, t0, t1) := st in
  initialised g /\ length t0 = 64%nat /\ length t1 = 64%nat /\ (forall i, (n <= i)%nat -> t1 !! i = s1 !! i) /\
  forall i m a0 a1 k, (i < n)%nat -> ms !! i = Some m -> t0 !! i = Some a0 -> t1 !! i = Some a1 -> L1 !! i = Some k ->
    responded e m a0 a1 k.

Lemma respond_extend e s1 L1 n (t0 t1 : list (list Z)) m a0 a1 k :
  (n < 64)%nat -> length t0 = 64%nat -> length t1 = 64%nat -> (forall i, (n <= i)%nat -> t1 !! i = s1 !! i) ->
  (forall i m a0 a1 k, (i < n)%nat -> ms !! i = Some m -> t0 !! i = Some a0 -> t1 !! i = Some a1 -> L1 !! i = Some k ->
    responded e m a0 a1 k) ->
  ms !! n = Some m -> L1 !! n = Some k -> responded e m a0 a1 k ->
  forall g, initialised g -> respond_inv e s1 L1 (S n) (g, <[n := a0]> t0, <[n := a1]> t1).
Proof using Type.
  clear Hms Lms Hbs Lbs Hxs Lvs Hkeys. intros Hn L0 L1' Hrest Hi Hm Hk Hr g Hg. unfold respond_inv. rewrite !length_insert. split_and!; [done|done|done| |].
  - intros i Hle. rewrite list_lookup_insert_ne by lia. apply Hrest. lia.
  - intros i m' a0' a1' k' Hlt Hm'. destruct (decide (i = n)) as [->|Hne].
    + rewrite !list_lookup_insert_eq by lia. intros [= <-] [= <-] Hk'. by simplify_eq.
    + rewrite !list_lookup_insert_ne by done. apply Hi; [lia|done].
Qed.

Lemma boro_respond_spec e eb st0 L0 L1 n st :
  scalar eb e -> commit_inv 64 st0 -> b_L st0 = [L0; L1] -> (n < 64)%nat -> respond_inv e (b_s1 st0) L1 n st ->
  returns (boro_respond ndebug xs (firsts ms) bs eb (b_alpha st0) n st) (respond_inv e (b_s1 st0) L1 (S n)).
Proof using All.
  intros He (_ & La & Ls & L0' & L1' & EL & _ & Ll1 & Hc) EL' Hn. rewrite EL in EL'. injection EL' as <- <-.
  destruct st as [[g t0] t1]. intros (Hg & Lt0 & Lt1 & Hrest & Hi).
  destruct (lookup_lt_is_Some_2 ms n) as [m Hm]; [lia|]. destruct (lookup_lt_is_Some_2 bs n) as [b Hb]; [lia|].
  destruct (lookup_lt_is_Some_2 vs n) as [v Hv]; [lia|]. destruct (Forall2_lookup_r _ _ _ _ _ Hxs Hv) as (x & Hx & Sx).
  destruct (lookup_lt_is_Some_2 (b_alpha st0) n) as [a Ha]; [lia|]. destruct (lookup_lt_is_Some_2 (b_s1 st0) n) as [s Hs1]; [lia|].
  destruct (lookup_lt_is_Some_2 L1' n) as [k Hk]; [lia|]. pose proof (Forall_lookup_1 _ _ _ _ Hms Hm) as Hp.
  destruct (Hc n m b a s k Hn Hm Hb Ha Hs1 Hk) as (va & Sa & Hcase). pose proof (Hkeys n m b v Hm Hb Hv) as Hkey.
  unfold boro_respond. rewrite (get_ok _ _ _ Hb), bind_ok, (get_ok _ _ _ Hx), bind_ok, (get_ok _ _ _ Ha), bind_ok.
  destruct (Z.eqb_spec b 0) as [->|Hne].
  - rewrite (sc_mulsub_scalar _ _ _ _ _ _ Sx He Sa), bind_ok, set_ok, bind_ok by lia. cbn [returns].
    rewrite decide_True in Hcase by done. rewrite decide_True in Hkey by done. destruct Hcase as (r1 & S1 & ->).
    rewrite <- (list_insert_id t1 n s) by (by rewrite Hrest).
    apply (respond_extend e (b_s1 st0) L1' n t0 t1 m _ s _ Hn Lt0 Lt1 Hrest Hi Hm Hk); [|done].
    exists ((va - v * e) mod l, r1). split; [apply scalar_mod|]. split; [done|]. by rewrite close_zero.
  - rewrite decide_False in Hcase by done. rewrite decide_False in Hkey by done. subst k.
    eapply returns_bind; [by apply skGen_spec|]. intros [g1 s'] [Hg1 [r0 S0]]. cbv beta. destruct Hp as [C1 C2].
    rewrite set_ok, bind_ok, (firsts_lookup _ _ _ Hm), bind_ok, (addKeys2_spec _ _ _ _ _ S0 He C1), bind_ok by lia.
    rewrite rct_hash_to_scalar_spec, bind_ok, (sc_mulsub_scalar _ _ _ _ _ _ Sx (Hs_scalar _) Sa), bind_ok, set_ok, bind_ok by lia.
    cbn [returns]. apply (respond_extend e (b_s1 st0) L1' n t0 t1 m _ _ _ Hn Lt0 Lt1 Hrest Hi Hm Hk); [|done].
    eexists (r0, _). split; [done|]. split; [apply scalar_mod|]. cbn [snd]. by rewrite close_one.
Qed.

(** A signature that is made verifies. *)
Lemma genBorromean_spec g :
  initialised g ->
  returns (genBorromean ndebug xs (firsts ms) (seconds ms) bs g) (fun '(g', bb) =>
    initialised g' /\ verifyBorromean bb (firsts ms) (seconds ms) = Ok true).
Proof using All.
  intros Hg. unfold genBorromean. eapply returns_bind.
  { apply (for_inv 64 _ 0 _ commit_inv).
    - split; [done|]. split_and!; [done|done|]. exists key64, key64. split_and!; [done|done|done|]. intros i m b a s k Hi. lia.
    - intros k a Hk. apply boro_commit_spec. lia. }
  intros st Hst. change (0 + 64)%nat with 64%nat in Hst. pose proof Hst as (Hg1 & La & Ls & L0 & L1 & EL & _ & Ll1 & _).
  rewrite EL. rewrite (get_ok _ _ L1) by done. rewrite bind_ok, hash_to_scalar_key64_spec, bind_ok.
  set (e := Hs (concat L1)). assert (scalar (le_bytes 32 e) e) as He by apply Hs_scalar.
  eapply returns_bind.
  { apply (for_inv 64 _ 0 _ (respond_inv e (b_s1 st) L1)).
    - split; [done|]. split_and!; [done|done|done|]. intros i m a0 a1 k Hi. lia.
    - intros k a Hk. apply (boro_respond_spec e _ st L0 L1); [done|done|done|lia]. }
  intros [[g2 t0] t1] (Hg2 & Lt0 & Lt1 & _ & Hr). cbn [returns]. split; [done|].
  destruct (list_choice (fun i r => forall m a0 a1 k, ms !! i = Some m -> t0 !! i = Some a0 -> t1 !! i = Some a1 -> L1 !! i = Some k ->
    scalar a0 r.1 /\ scalar a1 r.2 /\ k = boro_link e m r) 64) as (rs & Lrs & Hrs).
  { intros i Hi. destruct (lookup_lt_is_Some_2 ms i) as [m Hm]; [lia|]. destruct (lookup_lt_is_Some_2 t0 i) as [a0 H0]; [lia|].
    destruct (lookup_lt_is_Some_2 t1 i) as [a1 H1]; [lia|]. destruct (lookup_lt_is_Some_2 L1 i) as [k Hk]; [lia|].
    destruct (Hr i m a0 a1 k Hi Hm H0 H1 Hk) as [r Hr']. exists r. intros. by simplify_eq. }
  rewrite (verifyBorromean_spec (BoroSig t0 t1 (le_bytes 32 e)) ms rs e Hms Lms Lrs).
  - f_equal. apply bool_decide_eq_true_2. unfold e at 1. f_equal. f_equal.
    apply (list_eq_same_length _ _ 64); [rewrite length_zip_with; lia|done|]. intros i x y Hi Hx Hy.
    apply lookup_zip_with_Some in Hy as (m & r & -> & Hm & Hr').
    destruct (lookup_lt_is_Some_2 t0 i) as [a0 H0]; [lia|]. destruct (lookup_lt_is_Some_2 t1 i) as [a1 H1]; [lia|].
    by destruct (Hrs i r Hr' m a0 a1 x Hm H0 H1 Hx) as (_ & _ & ->).
  - split; (apply Forall2_same_length_lookup_2; [cbn [s0 s1]; lia|]); intros i a r Ha Hr';
      destruct (lookup_lt_is_Some_2 ms i) as [m Hm]; try (apply lookup_lt_Some in Hr'; lia);
      destruct (lookup_lt_is_Some_2 t0 i) as [a0 H0]; try (apply lookup_lt_Some in Hr'; lia);
      destruct (lookup_lt_is_Some_2 t1 i) as [a1 H1]; try (apply lookup_lt_Some in Hr'; lia);
      destruct (lookup_lt_is_Some_2 L1 i) as [k Hk]; try (apply lookup_lt_Some in Hr'; lia);
      destruct (Hrs i r Hr' m a0 a1 k Hm H0 H1 Hk) as (? & ? & _); cbn [s0 s1] in Ha; by simplify_eq.
  - exact He.
Qed.
End Borromean.

(** ** Range proofs *)
Definition sum_Z (l : list Z) : Z := foldr Z.add 0 l.

Lemma sum_Z_snoc l a : sum_Z (l ++ [a]) = sum_Z l + a.
Proof. unfold sum_Z. induction l as [|x l IH]; cbn [foldr app]; lia. Qed.

(** The commitment to a bit and its difference to the commitment to [2^i]. *)
Definition range_pair (i : nat) (b a : Z) : pt * pt :=
  let C := pedersen a (b * 2 ^ Z.of_nat i) in (C, padd C (pneg (smul (2 ^ Z.of_nat i) Hpt))).

Lemma H2_curve i : on_curve (smul (2 ^ Z.of_nat i) Hpt).
Proof. curve_base. Qed.

Lemma range_pair_ok i b a : pair_ok (range_pair i b a).
Proof.
  split; [apply pedersen_on_curve|]. apply padd_on_curve; [apply pedersen_on_curve|apply pneg_on_curve, H2_curve].
Qed.

Lemma padd_0_r A : on_curve A -> padd A pzero ≡ₚ A.
Proof. intros HA. by rewrite padd_comm, padd_0_l. Qed.

Lemma range_pair_0 i a : (range_pair i 0 a).1 ≡ₚ smul a B.
Proof. cbn [range_pair fst]. unfold pedersen. rewrite Z.mul_0_l, smul_0. apply padd_0_r, smul_B_on_curve. Qed.

Lemma range_pair_1 i a : (range_pair i 1 a).2 ≡ₚ smul a B.
Proof.
  cbn [range_pair snd]. unfold pedersen. rewrite Z.mul_1_l.
  rewrite padd_assoc by curve_base. rewrite padd_neg by curve_base. apply padd_0_r, smul_B_on_curve.
Qed.

Lemma le_bits_lookup n v i : (i < n)%nat -> le_bits n v !! i = Some (v / 2 ^ Z.of_nat i mod 2).
Proof.
  revert v i. induction n as [|n IH]; intros v [|i] Hi; [lia|lia| |]; cbn [le_bits lookup list_lookup].
  - change (2 ^ Z.of_nat 0) with 1. by rewrite Z.div_1_r.
  - change (le_bits n (v / 2) !! i = Some (v / 2 ^ Z.of_nat (S i) mod 2)). rewrite IH by lia.
    rewrite Z.div_div by lia. by rewrite Nat2Z.inj_succ, Z.pow_succ_r by lia.
Qed.

Lemma mod_next v n : v mod 2 ^ Z.of_nat (S n) = v mod 2 ^ Z.of_nat n + (v / 2 ^ Z.of_nat n mod 2) * 2 ^ Z.of_nat n.
Proof. rewrite Nat2Z.inj_succ, Z.pow_succ_r, Z.mul_comm, Z.rem_mul_r by lia. lia. Qed.

Lemma pedersen_snoc s v n a b :
  v mod 2 ^ Z.of_nat (S n) = v mod 2 ^ Z.of_nat n + b * 2 ^ Z.of_nat n ->
  encode (padd (pedersen s (v mod 2 ^ Z.of_nat n)) (pedersen a (b * 2 ^ Z.of_nat n))) = encode (pedersen (s + a) (v mod 2 ^ Z.of_nat (S n))).
Proof. intros ->. by rewrite pedersen_add. Qed.

Section Range.
Context (ndebug : bool) (v : Z).

Definition range_inv (n : nat) (st : range_state) : Prop :=
  initialised (r_rng st) /\ length (r_ai st) = 64%nat /\ length (r_Ci st) = 64%nat /\ length (r_CiH st) = 64%nat /\
  exists vs, length vs = n /\ scalar (r_mask st) (sum_Z vs mod l) /\ r_C st = encode (pedersen (sum_Z vs) (v mod 2 ^ Z.of_nat n)) /\
    forall i a k c d, vs !! i = Some a -> r_ai st !! i = Some k -> r_Ci st !! i = Some c -> r_CiH st !! i = Some d ->
      let m := range_pair i (v / 2 ^ Z.of_nat i mod 2) a in scalar k a /\ c = encode m.1 /\ d = encode m.2.

(** The commitment of a bit. *)
Lemma range_commit i b k a (Ci : list (list Z)) :
  b = 0 \/ b = 1 -> scalar k a -> (i < length Ci)%nat ->
  (let! Ci := if b =? 0 then let! c := rct.scalarmultBase ndebug k in set Ci i c else Ok Ci in
   if b =? 1 then let! c := rct.addKeys1 ndebug k (encode (smul (2 ^ Z.of_nat i) Hpt)) in set Ci i c else Ok Ci) =
  Ok (<[i := encode (range_pair i b a).1]> Ci).
Proof using Type.
  intros [-> | ->] Hk Hi.
  - change (0 =? 0) with true. change (0 =? 1) with false. cbv iota. rewrite (scalarmultBase_scalar _ _ _ Hk), bind_ok, set_ok, bind_ok by done.
    do 2 f_equal. unfold public. by rewrite range_pair_0.
  - change (1 =? 0) with false. change (1 =? 1) with true. cbv iota. rewrite bind_ok, (addKeys1_spec _ _ _ _ Hk (H2_curve i)), bind_ok, set_ok by done.
    cbn [range_pair fst]. unfold pedersen. by rewrite Z.mul_1_l.
Qed.

Lemma range_step_spec n st :
  (n < 64)%nat -> range_inv n st -> returns (range_step ndebug (le_bits 64 v) n st) (range_inv (S n)).
Proof using Type.
  intros Hn (Hg & La & Lc & Ld & vs & Lv & Hmask & HC & Hi). unfold range_step.
  eapply returns_bind; [by apply skGen_spec|]. intros [g k] [Hg1 [a Hk]]. cbv beta.
  rewrite set_ok, bind_ok, (get_ok _ _ _ (le_bits_lookup 64 v n Hn)), bind_ok, (H2_get n Hn), bind_ok by lia.
  set (b := v / 2 ^ Z.of_nat n mod 2). assert (b = 0 \/ b = 1) as Hb by (pose proof (Z.mod_pos_bound (v / 2 ^ Z.of_nat n) 2 ltac:(lia)); lia).
  rewrite <- bind_assoc, (range_commit n b k a (r_Ci st) Hb Hk) by lia. rewrite bind_ok.
  destruct (range_pair_ok n b a) as [C1 C2].
  rewrite (get_ok _ _ (encode (range_pair n b a).1)) by (apply list_lookup_insert_eq; lia).
  rewrite bind_ok, (subKeys_spec _ _ C1 (H2_curve n)), bind_ok, set_ok, bind_ok by lia.
  rewrite (sc_add_scalar _ _ _ _ Hmask Hk), bind_ok, HC, (addKeys_spec _ _ (pedersen_on_curve _ _) C1), bind_ok.
  cbn [returns]. unfold range_inv. cbn [r_rng r_ai r_Ci r_CiH r_mask r_C]. rewrite !length_insert. split_and!; [done..|].
  exists (vs ++ [a]). rewrite length_app, sum_Z_snoc. split_and!; [simpl; lia| | |].
  - rewrite Z.add_mod_idemp_l by (pose proof l_bound; lia). apply scalar_mod.
  - cbn [range_pair fst]. by apply pedersen_snoc, mod_next.
  - intros i a' k' c d Ha'. apply lookup_lt_Some in Ha' as Hlt. rewrite length_app in Hlt. simpl in Hlt.
    destruct (decide (i = n)) as [->|Hne].
    + rewrite !list_lookup_insert_eq by lia. rewrite lookup_app_r, Lv, Nat.sub_diag in Ha' by lia. injection Ha' as <-.
      intros [= <-] [= <-] [= <-]. done.
    + rewrite !list_lookup_insert_ne by done. rewrite lookup_app_l in Ha' by lia. by apply Hi.
Qed.
End Range.

(** The sum of curve points. *)
Definition psum (As : list pt) : pt := foldl padd pzero As.

Lemma psum_snoc As A : psum (As ++ [A]) = padd (psum As) A.
Proof. unfold psum. by rewrite foldl_app. Qed.

Lemma psum_on_curve As : Forall on_curve As -> on_curve (psum As).
Proof.
  induction As as [|A As IH] using rev_ind; intros HA; [apply pzero_on_curve|].
  rewrite psum_snoc. apply Forall_app in HA as [H1 H2]. apply padd_on_curve; [exact (IH H1)|by apply Forall_cons_1 in H2 as [H2 _]].
Qed.

(** The commitments of the bits of [v] with the masks [vs]. *)
Definition bit_pairs (v : Z) (vs : list Z) : list (pt * pt) := imap (fun i a => range_pair i (v / 2 ^ Z.of_nat i mod 2) a) vs.

Lemma bit_pairs_lookup v vs i m : bit_pairs v vs !! i = Some m -> exists a, vs !! i = Some a /\ m = range_pair i (v / 2 ^ Z.of_nat i mod 2) a.
Proof. unfold bit_pairs. rewrite list_lookup_imap. destruct (vs !! i); [|done]. intros [= <-]. by eexists. Qed.

Lemma bit_pairs_ok v vs : Forall pair_ok (bit_pairs v vs).
Proof. apply Forall_lookup_2. intros i m (a & _ & ->)%bit_pairs_lookup. apply range_pair_ok. Qed.

Lemma bit_pairs_sum v vs : psum ((bit_pairs v vs).*1) ≡ₚ pedersen (sum_Z vs) (v mod 2 ^ Z.of_nat (length vs)).
Proof.
  induction vs as [|a vs IH] using rev_ind.
  - change (2 ^ Z.of_nat (length [])) with 1. rewrite Z.mod_1_r. symmetry. apply pedersen_0.
  - unfold bit_pairs in *. rewrite imap_app, fmap_app. cbn [imap fmap list_fmap]. rewrite psum_snoc, sum_Z_snoc, length_app, IH.
    cbn [length]. rewrite Nat.add_0_r, Nat.add_1_r. cbn [range_pair fst]. rewrite pedersen_add. by rewrite mod_next.
Qed.

(** The values that [verRange] computes from the commitments [Cs] of the bits. *)
Definition bit_chain (Cs : list pt) : list (pt * pt) := imap (fun i C => (C, padd C (pneg (smul (2 ^ Z.of_nat i) Hpt)))) Cs.

Lemma bit_chain_ok Cs : Forall on_curve Cs -> Forall pair_ok (bit_chain Cs).
Proof.
  intros HC. apply Forall_lookup_2. intros i m. unfold bit_chain. rewrite list_lookup_imap. destruct (Cs !! i) as [C|] eqn:E; [|done].
  intros [= <-]. pose proof (Forall_lookup_1 _ _ _ _ HC E) as Hc. split; cbn [fst snd]; [exact Hc|]. apply padd_on_curve; [exact Hc|apply pneg_on_curve, H2_curve].
Qed.

Lemma bit_chain_firsts Cs : firsts (bit_chain Cs) = encode <$> Cs.
Proof.
  apply list_eq. intros i. unfold firsts, bit_chain. rewrite !list_lookup_fmap, list_lookup_imap. by destruct (Cs !! i).
Qed.

Lemma catch_false_ok b : catch_false (Ok b) = Ok b.
Proof. done. Qed.

Lemma verRange_borromean C Cs bb b :
  Forall on_curve Cs -> length Cs = 64%nat -> length C = 32%nat ->
  verifyBorromean bb (firsts (bit_chain Cs)) (seconds (bit_chain Cs)) = Ok b ->
  verRange C (RangeSig bb (encode <$> Cs)) = Ok (bool_decide (C = encode (psum Cs)) && b).
Proof.
  intros HC LC L32 Hb. unfold verRange, verRange_try. cbn [Ci asig].
  assert (returns (for_ 64 (fun i '(CiH, Ctmp) =>
    let! c := get (encode <$> Cs) i in
    let! h := get rct.H2 i in
    let! d := rct.subKeys c h in
    let! CiH := set CiH i d in
    let! Ctmp := rct.addKeys Ctmp c in
    Ok (CiH, Ctmp)) 0 (key64, rct.identity)) (fun '(CiH, Ctmp) => CiH = seconds (bit_chain Cs) /\ Ctmp = encode (psum Cs))) as H.
  { eapply returns_mono.
    - apply (for_inv 64 _ 0 _ (fun n '(CiH, Ctmp) => length CiH = 64%nat /\ Ctmp = encode (psum (take n Cs)) /\
        filled (fun i d => forall C, Cs !! i = Some C -> d = encode (padd C (pneg (smul (2 ^ Z.of_nat i) Hpt)))) n CiH)).
      + split_and!; [done|symmetry; apply encode_pzero|]. intros i a Hi. lia.
      + intros n [CiH Ctmp] Hn (LCi & -> & Hf). destruct (lookup_lt_is_Some_2 Cs n) as [Cn HCn]; [lia|].
        pose proof (Forall_lookup_1 _ _ _ _ HC HCn) as Hc. cbv beta iota.
        rewrite (get_ok _ _ (encode Cn)) by (by rewrite list_lookup_fmap, HCn).
        rewrite bind_ok, (H2_get n), bind_ok, (subKeys_spec _ _ Hc (H2_curve n)), bind_ok, set_ok, bind_ok by lia.
        rewrite (addKeys_spec _ _ (psum_on_curve _ (Forall_take _ _ _ HC)) Hc), bind_ok.
        cbn [returns]. rewrite length_insert, (take_S_r _ _ _ HCn), psum_snoc. split_and!; [done|done|].
        apply filled_set; [done|lia|]. intros C' HC'. by simplify_eq.
    - intros [CiH Ctmp] (LCi & -> & Hf). rewrite take_ge by lia. split; [|done].
      apply (list_eq_same_length _ _ 64); [unfold seconds, bit_chain; by rewrite length_fmap, length_imap|done|].
      intros i x y Hi Hx Hy. unfold seconds, bit_chain in Hy. rewrite list_lookup_fmap, list_lookup_imap in Hy.
      destruct (Cs !! i) as [Cn|] eqn:E; [|done]. injection Hy as <-. exact (Hf i x Hi Hx Cn E). }
  apply returns_inv in H as ([CiH Ctmp] & -> & -> & ->). rewrite bind_ok. destruct (encode_bytes (psum Cs)) as [_ LP].
  rewrite equalKeys_spec, bind_ok by done. destruct (bool_decide_reflect (C = encode (psum Cs))) as [HE|HE]; cbn [negb andb]; [|done].
  rewrite <- (bit_chain_firsts Cs), Hb, bind_ok. by destruct b.
Qed.

Lemma verRange_spec C Cs bb rs e :
  Forall on_curve Cs -> length Cs = 64%nat -> length C = 32%nat -> length rs = 64%nat -> responses bb rs -> scalar (ee bb) e ->
  verRange C (RangeSig bb (encode <$> Cs)) =
    Ok (bool_decide (C = encode (psum Cs)) && bool_decide (e = Hs (concat (zip_with (boro_link e) (bit_chain Cs) rs)))).
Proof.
  intros HC LC L32 Lr Hr He. apply verRange_borromean; [done..|]. apply verifyBorromean_spec; [by apply bit_chain_ok| |done..].
  unfold bit_chain. by rewrite length_imap.
Qed.

(** ** A range proof that is made is accepted *)
Lemma bit_pairs_chain v vs : bit_chain ((bit_pairs v vs).*1) = bit_pairs v vs.
Proof.
  apply list_eq. intros i. unfold bit_chain, bit_pairs. rewrite !list_lookup_imap, list_lookup_fmap, list_lookup_imap.
  by destruct (vs !! i).
Qed.

Lemma bit_pairs_curve v vs : Forall on_curve ((bit_pairs v vs).*1).
Proof.
  apply Forall_lookup_2. intros i C HCi. rewrite list_lookup_fmap in HCi. apply fmap_Some in HCi as (m & Hm & ->).
  by destruct (Forall_lookup_1 _ _ _ _ (bit_pairs_ok v vs) Hm).
Qed.

(** What the loop of [proveRange] leaves behind, as lists. *)
Lemma range_done v st :
  range_inv v 64 st ->
  exists vs, length vs = 64%nat /\ scalar (r_mask st) (sum_Z vs mod l) /\ r_C st = encode (pedersen (sum_Z vs) (v mod 2 ^ 64)) /\
    Forall2 scalar (r_ai st) vs /\ r_Ci st = firsts (bit_pairs v vs) /\ r_CiH st = seconds (bit_pairs v vs).
Proof.
  intros (_ & La & Lc & Ld & vs & Lv & Hmask & HC & Hi). exists vs. split; [done|]. split; [done|]. split; [exact HC|].
  assert (forall i a k c d, vs !! i = Some a -> r_ai st !! i = Some k -> r_Ci st !! i = Some c -> r_CiH st !! i = Some d ->
    scalar k a /\ firsts (bit_pairs v vs) !! i = Some c /\ seconds (bit_pairs v vs) !! i = Some d) as Hall.
  { intros i a k c d Ha Hk Hc Hd. destruct (Hi i a k c d Ha Hk Hc Hd) as (S & -> & ->). split; [done|].
    unfold firsts, seconds, bit_pairs. by rewrite !list_lookup_fmap, !list_lookup_imap, Ha. }
  assert (forall i, (i < 64)%nat -> exists a k c d, vs !! i = Some a /\ r_ai st !! i = Some k /\ r_Ci st !! i = Some c /\ r_CiH st !! i = Some d) as Hex.
  { intros i Hlt. destruct (lookup_lt_is_Some_2 vs i) as [a Ha]; [lia|]. destruct (lookup_lt_is_Some_2 (r_ai st) i) as [k Hk]; [lia|].
    destruct (lookup_lt_is_Some_2 (r_Ci st) i) as [c Hc]; [lia|]. destruct (lookup_lt_is_Some_2 (r_CiH st) i) as [d Hd]; [lia|]. by exists a, k, c, d. }
  split; [|split].
  - apply Forall2_same_length_lookup_2; [lia|]. intros i k a Hk Ha. apply lookup_lt_Some in Ha as Hlt.
    destruct (Hex i ltac:(lia)) as (a' & k' & c & d & Ha' & Hk' & Hc & Hd). destruct (Hall i a' k' c d Ha' Hk' Hc Hd) as (S & _). congruence.
  - apply (list_eq_same_length _ _ 64); [unfold firsts, bit_pairs; by rewrite length_fmap, length_imap|done|]. intros i x y Hlt Hx Hy.
    destruct (Hex i Hlt) as (a & k & c & d & Ha & Hk & Hc & Hd). destruct (Hall i a k c d Ha Hk Hc Hd) as (_ & E & _). congruence.
  - apply (list_eq_same_length _ _ 64); [unfold seconds, bit_pairs; by rewrite length_fmap, length_imap|done|]. intros i x y Hlt Hx Hy.
    destruct (Hex i Hlt) as (a & k & c & d & Ha & Hk & Hc & Hd). destruct (Hall i a k c d Ha Hk Hc Hd) as (_ & _ & E). congruence.
Qed.

(** The mask of a bit is the secret key of the commitment that the bit selects. *)
Lemma bit_pairs_keys v vs i m b a :
  (i < 64)%nat -> bit_pairs v vs !! i = Some m -> le_bits 64 v !! i = Some b -> vs !! i = Some a ->
  (if decide (b = 0) then m.1 else m.2) ≡ₚ smul a B.
Proof.
  intros Hlt Hm Hb Ha. rewrite le_bits_lookup in Hb by lia. injection Hb as <-.
  apply bit_pairs_lookup in Hm as (a' & Ha' & ->). rewrite Ha in Ha'. injection Ha' as <-.
  pose proof (Z.mod_pos_bound (v / 2 ^ Z.of_nat i) 2 ltac:(lia)) as Hb01. destruct (decide _) as [->|Hne]; [apply range_pair_0|].
  replace (v / 2 ^ Z.of_nat i mod 2) with 1 by lia. apply range_pair_1.
Qed.

Lemma proveRange_spec ndebug b0 v g :
  initialised g -> length b0 = 64%nat -> 0 <= v < 2 ^ 64 ->
  returns (proveRange ndebug b0 v g) (fun '(g', (C, mask, sig)) => initialised g' /\
    exists a, scalar mask a /\ C = encode (pedersen a v) /\
      forall C', length C' = 32%nat -> verRange C' sig = Ok (bool_decide (C' = C))).
Proof.
  intros Hg Lb Hv. unfold proveRange. rewrite d2b_spec, bind_ok by done. eapply returns_bind.
  { apply (for_inv rct.ATOMS _ 0 _ (range_inv v)).
    - split; [done|]. split_and!; [done|done|done|]. exists []. split_and!; [done|apply sc_0_scalar| |done].
      cbn [r_C]. change (2 ^ Z.of_nat 0) with 1. rewrite Z.mod_1_r. change (sum_Z []) with 0. rewrite pedersen_0. symmetry. apply encode_pzero.
    - intros k a Hk. apply range_step_spec. unfold rct.ATOMS in Hk. lia. }
  intros st Hst. change (0 + rct.ATOMS)%nat with 64%nat in Hst. pose proof Hst as (Hg1 & _).
  destruct (range_done v st Hst) as (vs & Lv & Hmask & HC & Hai & -> & ->). rewrite Z.mod_small in HC by done.
  assert (length (bit_pairs v vs) = 64%nat) as Lm by (unfold bit_pairs; by rewrite length_imap).
  eapply returns_bind.
  { apply (genBorromean_spec ndebug (bit_pairs v vs) (le_bits 64 v) (r_ai st) vs);
      [apply bit_pairs_ok|done|apply le_bits_is_bits|apply le_bits_length|done|done| |done].
    intros i m b a Hm Hb Ha. apply lookup_lt_Some in Ha as Hlt. by apply (bit_pairs_keys v vs i); [lia|..]. }
  intros [g2 bb] [Hg2 Hver]. cbn [returns]. split; [done|]. exists (sum_Z vs mod l). split; [done|].
  rewrite HC. split; [by rewrite pedersen_mod|]. intros C' LC'.
  replace (firsts (bit_pairs v vs)) with (encode <$> ((bit_pairs v vs).*1)) by (unfold firsts; by rewrite <- list_fmap_compose).
  rewrite (verRange_borromean _ _ _ true).
  - rewrite andb_true_r. assert (encode (psum (bit_pairs v vs).*1) = encode (pedersen (sum_Z vs) v)) as ->; [|done].
    rewrite bit_pairs_sum, Lv. change (Z.of_nat 64) with 64. by rewrite Z.mod_small by done.
  - apply bit_pairs_curve.
  - by rewrite length_fmap.
  - done.
  - by rewrite bit_pairs_chain.
Qed.
