(* ===== verification/RctMlsag.v ===== *)
(** * MLSAG signatures are accepted

    A column is a list of keys with their hash points.  The challenge of the
    next column is a hash of what the column makes of its challenge and its
    responses; a signature is valid when the challenges close to a ring. *)

From stdpp Require Import base list numbers.
From Stdlib Require Import ZArith Lia.
From S2P Require Import Prelude Bytes Field FieldFacts Scalar ScalarFacts CurveData Group Edwards GroupFacts GroupSpec BaseTable Recode ScalarMult ScalarMultFacts PointCodec HashToPoint GroupOrder Keccak KeccakFacts Random Crypto CryptoFacts RingFacts Rct RctFacts RctSigs RctRange.

(** ** What a column contributes to the hash *)
Definition ds_row (c : Z) (m : pt * pt) (r : Z) (Im : pt) : list (list Z) :=
  [encode m.1; encode (padd (smul c m.1) (smul r B)); encode (padd (smul r m.2) (smul c Im))].
Definition nds_row (c : Z) (m : pt * pt) (r : Z) : list (list Z) := [encode m.1; encode (padd (smul c m.1) (smul r B))].

(** The rows with a key image, then the rows without. *)
Fixpoint ds_rows (c : Z) (Is : list pt) (col : list (pt * pt)) (rs : list Z) : list (list Z) :=
  match Is, col, rs with
  | Im :: Is, m :: col, r :: rs => ds_row c m r Im ++ ds_rows c Is col rs
  | _, _, _ => []
  end.
Fixpoint nds_rows (c : Z) (col : list (pt * pt)) (rs : list Z) : list (list Z) :=
  match col, rs with
  | m :: col, r :: rs => nds_row c m r ++ nds_rows c col rs
  | _, _ => []
  end.

(** The keys that are hashed, and the next challenge. *)
Definition column_keys (msg : list Z) (Is : list pt) (c : Z) (col : list (pt * pt)) (rs : list Z) : list (list Z) :=
  msg :: ds_rows c Is col rs ++ nds_rows c (drop (length Is) col) (drop (length Is) rs).
Definition next_challenge (msg : list Z) (Is : list pt) (c : Z) (col : list (pt * pt)) (rs : list Z) : Z :=
  Hs (concat (column_keys msg Is c col rs)).

(** The challenge after the columns. *)
Fixpoint run (msg : list Z) (Is : list pt) (c : Z) (cols : list (list (pt * pt))) (rss : list (list Z)) : Z :=
  match cols, rss with
  | col :: cols, rs :: rss => run msg Is (next_challenge msg Is c col rs) cols rss
  | _, _ => c
  end.

Lemma run_app msg Is c cols cols' rss rss' :
  length cols = length rss -> run msg Is c (cols ++ cols') (rss ++ rss') = run msg Is (run msg Is c cols rss) cols' rss'.
Proof.
  revert c rss. induction cols as [|col cols IH]; intros c [|rs rss] E; [done|done|done|]. cbn [app run]. apply IH. by injection E.
Qed.

Lemma length_ds_rows c Is col rs :
  (length Is <= length col)%nat -> (length Is <= length rs)%nat -> length (ds_rows c Is col rs) = (3 * length Is)%nat.
Proof.
  revert col rs. induction Is as [|Im Is IH]; intros [|m col] [|r rs] Hc Hr; cbn [length] in *; try lia; [done..|].
  cbn [ds_rows]. rewrite length_app, IH by lia. cbn [ds_row length]. lia.
Qed.

Lemma length_nds_rows c col rs : length col = length rs -> length (nds_rows c col rs) = (2 * length col)%nat.
Proof.
  revert rs. induction col as [|m col IH]; intros [|r rs] E; cbn [length] in *; try lia; [done|].
  cbn [nds_rows]. rewrite length_app, IH by lia. cbn [nds_row length]. lia.
Qed.

(** ** Arrays read and written from a place on *)
Lemma get_drop {A} (s : list A) j x t : drop j s = x :: t -> get s j = Ok x /\ drop (S j) s = t.
Proof.
  intros E. assert (s !! j = Some x) as Hx by (rewrite <- (Nat.add_0_r j), <- lookup_drop, E; done).
  split; [by apply get_ok|]. rewrite <- Nat.add_1_r, <- drop_drop, E. done.
Qed.

Lemma set_two {A} (pre rest : list A) x y i j :
  i = length pre -> j = S (length pre) -> (2 <= length rest)%nat ->
  (let! t := set (pre ++ rest) i x in set t j y) = Ok ((pre ++ [x; y]) ++ drop 2 rest).
Proof.
  intros -> -> Hr. destruct rest as [|r0 [|r1 rest]]; cbn [length] in Hr; try lia.
  rewrite set_next, bind_ok by done. rewrite set_next by (rewrite length_app; simpl; lia). by rewrite <- (app_assoc pre).
Qed.

Lemma set_three {A} (pre rest : list A) x y z i j m :
  i = length pre -> j = S (length pre) -> m = S (S (length pre)) -> (3 <= length rest)%nat ->
  (let! t := set (pre ++ rest) i x in let! t := set t j y in set t m z) = Ok ((pre ++ [x; y; z]) ++ drop 3 rest).
Proof.
  intros -> -> -> Hr. destruct rest as [|r0 rest]; cbn [length] in Hr; try lia. rewrite set_next, bind_ok by done.
  rewrite set_two by (rewrite ?length_app; simpl; lia). by rewrite <- !app_assoc.
Qed.

(** ** The rows of a column *)
Section Column.
Context (ndebug : bool) (ck : list Z) (c : Z).
Hypothesis Hc : scalar ck c.

Lemma ds_loop_spec Is Ip col pk rs ss j pre rest :
  Forall member_ok col -> Forall on_curve Is -> Forall2 odd_multiples (drop j Ip) Is ->
  drop j pk = keys col -> Forall2 scalar (drop j ss) rs -> (length Is <= length col)%nat -> (length Is <= length rs)%nat ->
  length pre = (3 * j + 1)%nat -> (3 * length Is <= length rest)%nat ->
  for_ (length Is) (mg_ds_row ndebug pk ss ck Ip) j (pre ++ rest) = Ok (pre ++ ds_rows c Is col rs ++ drop (3 * length Is) rest).
Proof using All.
  revert col rs j pre rest.
  induction Is as [|Im Is IH]; intros [|m col] [|r rs] j pre rest Hcol HIs HIp Hpk Hss Lc Lr Lp Lt; cbn [length] in Lc, Lr, Lt; try lia; [done..|].
  apply Forall_cons_1 in Hcol as [[Hm1 Hm2] Hcol]. apply Forall_cons_1 in HIs as [HI HIs].
  destruct (drop j Ip) as [|t Ip'] eqn:EIp; [by inversion HIp|]. apply Forall2_cons_1 in HIp as [Ht HIp].
  destruct (drop j ss) as [|s ss'] eqn:Ess; [by inversion Hss|]. apply Forall2_cons_1 in Hss as [Hs Hss].
  apply get_drop in EIp as [Gt <-], Ess as [Gs <-], Hpk as [Gp Hpk]. fold (keys col) in Hpk.
  cbn [length for_]. unfold mg_ds_row at 1.
  rewrite Gs, bind_ok, Gp, bind_ok, (addKeys2_spec _ _ _ _ _ Hs Hc Hm1), bind_ok, (hashToPoint_spec _ _ _ Hm2), bind_ok, Gt, bind_ok.
  rewrite (addKeys3_spec _ _ _ _ _ _ _ Hs Hc (hashes_to_on_curve _ _ Hm2) HI Ht), bind_ok.
  rewrite set_three, bind_ok by lia.
  rewrite (IH col rs (S j)); try done; try lia.
  - rewrite drop_drop. cbn [ds_rows]. rewrite <- !app_assoc. by replace (3 + 3 * length Is)%nat with (3 * S (length Is))%nat by lia.
  - rewrite length_app. simpl. lia.
  - rewrite length_drop. lia.
Qed.

Lemma nds_loop_spec d col pk rs ss j pre rest :
  Forall member_ok col -> drop j pk = keys col -> Forall2 scalar (drop j ss) rs -> length rs = length col ->
  (d <= j)%nat -> length pre = (3 * d + 2 * (j - d) + 1)%nat -> (2 * length col <= length rest)%nat ->
  for_ (length col) (mg_nds_row pk ss ck d) j (pre ++ rest) = Ok (pre ++ nds_rows c col rs ++ drop (2 * length col) rest).
Proof using All.
  revert rs j pre rest.
  induction col as [|m col IH]; intros [|r rs] j pre rest Hcol Hpk Hss Lr Hd Lp Lt; cbn [length] in Lr, Lt; try lia; [done|].
  apply Forall_cons_1 in Hcol as [[Hm1 Hm2] Hcol].
  destruct (drop j ss) as [|s ss'] eqn:Ess; [by inversion Hss|]. apply Forall2_cons_1 in Hss as [Hs Hss].
  apply get_drop in Ess as [Gs <-], Hpk as [Gp Hpk]. fold (keys col) in Hpk.
  cbn [length for_]. unfold mg_nds_row at 1.
  rewrite Gs, bind_ok, Gp, bind_ok, (addKeys2_spec _ _ _ _ _ Hs Hc Hm1), bind_ok.
  rewrite set_two, bind_ok by lia.
  rewrite (IH rs (S j)); try done; try lia.
  - rewrite drop_drop. cbn [nds_rows]. rewrite <- !app_assoc. by replace (2 + 2 * length col)%nat with (2 * S (length col))%nat by lia.
  - rewrite length_app. simpl. lia.
  - rewrite length_drop. lia.
Qed.

(** A column from any keys hashed before. *)
Lemma mg_column_spec msg Is Ip col rs ss t :
  Forall member_ok col -> Forall on_curve Is -> Forall2 odd_multiples Ip Is -> Forall2 scalar ss rs ->
  length rs = length col -> (length Is <= length col)%nat -> length t = (3 * length Is + 2 * (length col - length Is))%nat ->
  mg_column ndebug (keys col) ss ck Ip (length col) (length Is) (msg :: t) =
    Ok (column_keys msg Is c col rs, le_bytes 32 (next_challenge msg Is c col rs)).
Proof using All.
  intros Hcol HIs HIp Hss Lr Ld Lt. unfold mg_column. change (msg :: t) with ([msg] ++ t).
  rewrite (ds_loop_spec Is Ip col _ rs) by (done || simpl; lia). rewrite bind_ok.
  rewrite app_assoc, <- length_drop.
  rewrite (nds_loop_spec (length Is) (drop (length Is) col) _ (drop (length Is) rs)).
  - rewrite bind_ok. rewrite drop_drop, length_drop, (drop_ge t), app_nil_r by lia. rewrite <- app_assoc.
    change ([msg] ++ _) with (column_keys msg Is c col rs). by rewrite hash_to_scalar_keyV_spec, bind_ok.
  - by apply Forall_drop.
  - unfold keys. by rewrite fmap_drop.
  - by apply Forall2_drop.
  - rewrite !length_drop. lia.
  - lia.
  - rewrite length_app, length_ds_rows by lia. simpl. lia.
  - rewrite !length_drop. lia.
Qed.
End Column.

Lemma length_column_keys msg Is c col rs :
  length rs = length col -> (length Is <= length col)%nat ->
  exists t, column_keys msg Is c col rs = msg :: t /\ length t = (3 * length Is + 2 * (length col - length Is))%nat.
Proof.
  intros Lr Ld. eexists. split; [done|]. rewrite length_app, length_ds_rows, length_nds_rows, length_drop by (rewrite ?length_drop; lia). done.
Qed.

(** ** Verification *)

(** A matrix of curve points, with their hash points. *)
Definition matrix (rows : nat) (cols : list (list (pt * pt))) : Prop :=
  Forall (fun col => Forall member_ok col /\ length col = rows) cols.

(** Responses as numbers. *)
Definition matrix_scalars (rows : nat) (ss : list (list (list Z))) (rss : list (list Z)) : Prop :=
  Forall2 (fun s rs => Forall2 scalar s rs /\ length rs = rows) ss rss.

Lemma rectangular_ok {A} rows (M : list (list A)) : Forall (fun col => length col = rows) M -> rectangular rows M = true.
Proof. intros H. apply forallb_forall. intros col Hc. apply Nat.eqb_eq. rewrite Forall_forall in H. exact (H col Hc). Qed.

Lemma keys_lengths rows cols : matrix rows cols -> Forall (fun k => length k = rows) (keys <$> cols).
Proof. intros H. apply Forall_fmap. eapply Forall_impl; [|exact H]. intros col [_ L]. simpl. unfold keys. by rewrite length_fmap. Qed.

Lemma matrix_scalars_lengths rows ss rss : matrix_scalars rows ss rss -> Forall (fun s => length s = rows) ss.
Proof. induction 1 as [|s rs ss rss [H L] _ IH]; constructor; [|exact IH]. by rewrite (Forall2_length H). Qed.

Lemma all_scalars_ok s vs : Forall2 scalar s vs -> all_scalars s = Ok true.
Proof.
  induction 1 as [|a v s vs Ha _ IH]; [done|]. cbn [all_scalars]. rewrite (sc_check_scalar _ _ Ha), bind_ok. exact IH.
Qed.

Lemma matrix_scalars_concat rows ss rss : matrix_scalars rows ss rss -> Forall2 scalar (concat ss) (concat rss).
Proof. induction 1 as [|s rs ss rss [H _] _ IH]; [constructor|]. cbn [concat]. by apply Forall2_app. Qed.

Lemma precomps_spec Is :
  Forall on_curve Is ->
  returns (for_ (length Is) (fun i Ip => let! k := get (encode <$> Is) i in let! pre := rct.precomp k in Ok (Ip ++ [pre])) 0 [])
    (fun Ip => Forall2 odd_multiples Ip Is).
Proof.
  intros HI. eapply returns_mono; [apply (for_inv _ _ 0 _ (fun k Ip => Forall2 odd_multiples Ip (take k Is)))|].
  - constructor.
  - intros k Ip Hk HIp. destruct (lookup_lt_is_Some_2 Is k) as [P HP]; [lia|].
    rewrite (get_ok _ _ (encode P)), bind_ok by (by rewrite list_lookup_fmap, HP).
    eapply returns_bind; [apply precomp_spec, (Forall_lookup_1 _ _ _ _ HI HP)|]. intros t Ht. cbn [returns].
    rewrite (take_S_r _ _ _ HP). apply Forall2_app; [done|]. by constructor.
  - intros Ip. by rewrite take_ge by lia.
Qed.

Section Verify.
Context (ndebug : bool) (msg : list Z) (rows : nat) (cols : list (list (pt * pt))) (Is : list pt) (rss : list (list Z)) (sig : mgSig) (e : Z).
Hypothesis Hcols : matrix rows cols.
Hypothesis HIs : Forall on_curve Is.
Hypothesis Hss : matrix_scalars rows (ss sig) rss.
Hypothesis Hcc : scalar (cc sig) e.
Hypothesis HII : II sig = encode <$> Is.
Hypothesis Ln : (2 <= length cols)%nat.
Hypothesis Lr : (1 <= rows)%nat.
Hypothesis Ld : (length Is <= rows)%nat.
Hypothesis Ls : length rss = length cols.

(** The keys hashed and the challenge, before column [k]. *)
Definition ver_inv (k : nat) (st : list (list Z) * list Z) : Prop :=
  (exists t, st.1 = msg :: t /\ length t = (3 * length Is + 2 * (rows - length Is))%nat) /\
  scalar st.2 (run msg Is e (take k cols) (take k rss)).

Lemma ver_column_spec Ip k st :
  Forall2 odd_multiples Ip Is -> (k < length cols)%nat -> ver_inv k st ->
  returns (let '(toHash, c_old) := st in
           let! p := get (keys <$> cols) k in let! s := get (ss sig) k in
           mg_column ndebug p s c_old Ip rows (length Is) toHash) (ver_inv (S k)).
Proof using All.
  destruct st as [toHash c_old]. intros HIp Hk [(t & Et & Lt) Hc]. cbn [fst snd] in *. subst toHash.
  destruct (lookup_lt_is_Some_2 cols k Hk) as [col Hcol]. destruct (lookup_lt_is_Some_2 rss k) as [rs Hrs]; [lia|].
  destruct (Forall2_lookup_r _ _ _ _ _ Hss Hrs) as (s & Gs & Hs & Lrs). destruct (Forall_lookup_1 _ _ _ _ Hcols Hcol) as [Hm Lcol].
  rewrite (get_ok _ _ (keys col)), bind_ok, (get_ok _ _ _ Gs), bind_ok by (by rewrite list_lookup_fmap, Hcol).
  rewrite <- Lcol at 1. rewrite (mg_column_spec ndebug c_old _ Hc msg Is Ip col rs s t) by (done || lia). cbn [returns].
  split; cbn [fst snd]; [rewrite <- Lcol; apply length_column_keys; lia|].
  rewrite (take_S_r _ _ _ Hcol), (take_S_r _ _ _ Hrs), run_app by (rewrite !length_take; lia).
  cbn [run]. apply Hs_scalar.
Qed.

(** Verification is the equation [run e = e]. *)
Lemma MLSAG_Ver_spec :
  MLSAG_Ver ndebug msg (keys <$> cols) sig (length Is) = Ok (bool_decide (run msg Is e cols rss = e)).
Proof using All.
  assert (rectangular rows (keys <$> cols) = true) as R1 by (by apply rectangular_ok, keys_lengths).
  assert (rectangular rows (ss sig) = true) as R2 by (by eapply rectangular_ok, matrix_scalars_lengths).
  destruct (lookup_lt_is_Some_2 cols 0) as [col0 H0]; [lia|]. destruct (Forall_lookup_1 _ _ _ _ Hcols H0) as [_ L0].
  assert (rectangular rows (drop 1 (keys <$> cols)) = true) as R3.
  { apply rectangular_ok, Forall_drop. by apply keys_lengths. }
  assert (returns (MLSAG_Ver ndebug msg (keys <$> cols) sig (length Is)) (fun b => b = bool_decide (run msg Is e cols rss = e))) as Hr.
  2: { by apply returns_inv in Hr as (b & -> & ->). }
  unfold MLSAG_Ver. rewrite length_fmap. replace (2 <=? length cols)%nat with true by (symmetry; by apply Nat.leb_le). cbn [negb].
  rewrite (get_ok _ _ (keys col0)), bind_ok by (by rewrite list_lookup_fmap, H0).
  replace (length (keys col0)) with rows by (unfold keys; by rewrite length_fmap). rewrite R2, R3, HII, length_fmap, Nat.eqb_refl.
  rewrite (Forall2_length Hss), Ls, Nat.eqb_refl.
  replace (1 <=? rows)%nat with true by (symmetry; by apply Nat.leb_le). replace (length Is <=? rows)%nat with true by (symmetry; by apply Nat.leb_le).
  cbn [andb negb]. rewrite (all_scalars_ok _ (concat rss ++ [e])), bind_ok.
  2: { apply Forall2_app; [by eapply matrix_scalars_concat|by constructor]. }
  cbn [negb]. eapply returns_bind; [by apply precomps_spec|]. intros Ip HIp. cbv beta.
  rewrite set_ok, bind_ok by (rewrite length_replicate; lia).
  eapply returns_bind.
  { apply (for_inv _ _ 0 _ ver_inv).
    - split; cbn [fst snd]; [|done]. eexists. cbn [Nat.add replicate]. split; [done|]. by rewrite length_replicate.
    - intros k [h c] Hk Hi. apply (ver_column_spec Ip k (h, c)); [done|lia|done]. }
  intros [h c_old] [_ Hc]. cbn [snd] in Hc. rewrite !take_ge in Hc by lia.
  eapply returns_bind; [exact (sc_sub_isnonzero _ _ _ _ Hc Hcc)|]. intros z Hz. cbn [returns]. rewrite Hz.
  by destruct (decide _) as [E|E]; [rewrite bool_decide_eq_true_2|rewrite bool_decide_eq_false_2].
Qed.
End Verify.

(** ** The nonces *)
Definition images (n : nat) (vs : list Z) (col : list (pt * pt)) : list pt := zip_with (fun v m => smul v m.2) (take n vs) (take n col).

(** What the signer hashes in place of the rows of its own column. *)
Fixpoint nonce_ds_rows (ks : list Z) (col : list (pt * pt)) : list (list Z) :=
  match ks, col with
  | k :: ks, m :: col => [encode m.1; public k; encode (smul k m.2)] ++ nonce_ds_rows ks col
  | _, _ => []
  end.
Fixpoint nonce_nds_rows (ks : list Z) (col : list (pt * pt)) : list (list Z) :=
  match ks, col with
  | k :: ks, m :: col => [encode m.1; public k] ++ nonce_nds_rows ks col
  | _, _ => []
  end.

Lemma images_curve n vs col : Forall member_ok col -> Forall on_curve (images n vs col).
Proof.
  intros Hcol. apply Forall_lookup_2. intros i P (v & m & -> & _ & Hm)%lookup_zip_with_Some.
  apply smul_on_curve. apply lookup_take_Some in Hm as [Hm _]. destruct (Forall_lookup_1 _ _ _ _ Hcol Hm) as [_ H].
  by eapply hashes_to_on_curve.
Qed.

Lemma images_length n vs col : (n <= length vs)%nat -> (n <= length col)%nat -> length (images n vs col) = n.
Proof. intros Hv Hc. unfold images. rewrite length_zip_with, !length_take. lia. Qed.

Lemma length_nonce_ds_rows ks col : (length ks <= length col)%nat -> length (nonce_ds_rows ks col) = (3 * length ks)%nat.
Proof.
  revert col. induction ks as [|k ks IH]; intros [|m col] L; cbn [length] in *; try lia; [done..|]. cbn [nonce_ds_rows app length]. rewrite IH; lia.
Qed.

(** An array whose next entry is written. *)
Lemma set_rest {A} (pre rest : list A) x i : i = length pre -> (1 <= length rest)%nat -> set (pre ++ rest) i x = Ok ((pre ++ [x]) ++ drop 1 rest).
Proof. intros -> Hr. destruct rest as [|r rest]; cbn [length] in Hr; [lia|]. by rewrite set_next. Qed.

Section Nonces.
Context (ndebug : bool).

(** What the first loop adds to the arrays. *)
Definition ds_started (n : nat) (col : list (pt * pt)) (vs : list Z) (al ra pre rest im ri : list (list Z)) (ip rp : list (list ge_cached)) (st : mg_state) : Prop :=
  initialised (m_rng st) /\ exists ks al' ip', length ks = n /\ Forall2 scalar al' ks /\ m_alpha st = al ++ al' ++ drop n ra /\
    m_toHash st = pre ++ nonce_ds_rows ks col ++ drop (3 * n) rest /\
    m_II st = im ++ (encode <$> images n vs col) ++ drop n ri /\
    Forall2 odd_multiples ip' (images n vs col) /\ m_Ip st = ip ++ ip' ++ drop n rp.

Lemma ds_start_spec n col pk vs xx j g al ra pre rest im ri ip rp :
  initialised g -> Forall member_ok col -> drop j pk = keys col -> Forall2 scalar (drop j xx) vs ->
  (n <= length col)%nat -> (n <= length vs)%nat ->
  length al = j -> length im = j -> length ip = j -> length pre = (3 * j + 1)%nat ->
  (n <= length ra)%nat -> (n <= length ri)%nat -> (n <= length rp)%nat -> (3 * n <= length rest)%nat ->
  returns (for_ n (mg_ds_start ndebug pk xx None) j (Mg g (al ++ ra) (pre ++ rest) (im ++ ri) (ip ++ rp)))
    (ds_started n col vs al ra pre rest im ri ip rp).
Proof using Type.
  revert col vs j g al ra pre rest im ri ip rp. induction n as [|n IH]; intros col vs j g al ra pre rest im ri ip rp Hg Hcol Hpk Hxx Lc Lv La Li Lp Lh Ra Ri Rp Rh.
  { cbn [for_ returns]. split; [done|]. exists [], [], []. split_and!; (done || constructor). }
  destruct col as [|m col], vs as [|v vs]; cbn [length] in Lc, Lv; try lia. apply Forall_cons_1 in Hcol as [[Hm1 Hm2] Hcol].
  pose proof (hashes_to_on_curve _ _ Hm2) as HC.
  destruct (drop j xx) as [|x xx'] eqn:Ex; [by inversion Hxx|]. apply Forall2_cons_1 in Hxx as [Hv Hxx].
  apply get_drop in Ex as [Gx <-], Hpk as [Gp Hpk]. fold (keys col) in Hpk.
  cbn [for_]. unfold mg_ds_start at 1. cbn [m_rng m_alpha m_toHash m_II m_Ip]. rewrite Gp, bind_ok, (set_rest pre), bind_ok by lia.
  rewrite (hashToPoint_spec _ _ _ Hm2), bind_ok.
  rewrite bind_assoc. eapply returns_bind; [by apply skpkGen_spec|]. intros [g1 [a aG]] [Hg1 (k & Hk & ->)]. cbv beta iota.
  rewrite (set_rest al), bind_ok, (scalarmultKey_spec _ _ _ _ HC Hk), bind_ok by lia.
  rewrite (set_rest (pre ++ _)), bind_ok by (rewrite ?length_app, ?length_drop; simpl; lia).
  rewrite (set_rest ((pre ++ _) ++ _)), bind_ok by (rewrite ?length_app, ?length_drop; simpl; lia).
  rewrite Gx, bind_ok, (scalarmultKey_spec _ _ _ _ HC Hv), bind_ok, (set_rest im), bind_ok by lia.
  rewrite bind_assoc. eapply returns_bind; [apply precomp_spec; by apply smul_on_curve|]. intros t Ht. cbv beta.
  rewrite (set_rest ip), bind_ok by lia. rewrite bind_ok.
  eapply returns_mono; [apply (IH col vs (S j)); rewrite ?length_app, ?length_drop; simpl; (done || lia)|].
  intros st (Hg' & ks & al' & ip' & Lk & Hal & Ea & Eh & Ei & Hip & Ep). split; [done|]. exists (k :: ks), (a :: al'), (t :: ip').
  rewrite Ea, Eh, Ei, Ep. rewrite !drop_drop. cbn [length nonce_ds_rows]. unfold images in *. cbn [take zip_with fmap list_fmap].
  replace (1 + (1 + (1 + 3 * n)))%nat with (3 * S n)%nat by lia. rewrite <- !app_assoc.
  split_and!; [by rewrite Lk|by constructor|done|done|done|by constructor|done].
Qed.
End Nonces.

(** What the second loop adds. *)
Definition nds_started (n : nat) (col : list (pt * pt)) (al ra pre rest im : list (list Z)) (ip : list (list ge_cached)) (st : mg_state) : Prop :=
  initialised (m_rng st) /\ exists ks al', length ks = n /\ Forall2 scalar al' ks /\ m_alpha st = al ++ al' ++ drop n ra /\
    m_toHash st = pre ++ nonce_nds_rows ks col ++ drop (2 * n) rest /\ m_II st = im /\ m_Ip st = ip.

Lemma nds_start_spec ndebug d col pk j g al ra pre rest im ip :
  initialised g -> drop j pk = keys col -> (d <= j)%nat -> length al = j -> length pre = (3 * d + 2 * (j - d) + 1)%nat ->
  (length col <= length ra)%nat -> (2 * length col <= length rest)%nat ->
  returns (for_ (length col) (mg_nds_start ndebug pk d) j (Mg g (al ++ ra) (pre ++ rest) im ip))
    (nds_started (length col) col al ra pre rest im ip).
Proof.
  revert j g al ra pre rest. induction col as [|m col IH]; intros j g al ra pre rest Hg Hpk Hd La Lh Ra Rh; cbn [length] in Ra, Rh.
  { cbn [length for_ returns]. split; [done|]. exists [], []. split_and!; (done || constructor). }
  apply get_drop in Hpk as [Gp Hpk]. fold (keys col) in Hpk.
  cbn [length for_]. unfold mg_nds_start at 1. cbn [m_rng m_alpha m_toHash m_II m_Ip].
  rewrite bind_assoc. eapply returns_bind; [by apply skpkGen_spec|]. intros [g1 [a aG]] [Hg1 (k & Hk & ->)]. cbv beta iota.
  rewrite (set_rest al), bind_ok, Gp, bind_ok, (set_rest pre), bind_ok by lia.
  rewrite (set_rest (pre ++ _)), bind_ok by (rewrite ?length_app, ?length_drop; simpl; lia). rewrite bind_ok.
  eapply returns_mono; [apply (IH (S j)); rewrite ?length_app, ?length_drop; simpl; (done || lia)|].
  intros st (Hg' & ks & al' & Lk & Hal & Ea & Eh & Ei & Ep). split; [done|]. exists (k :: ks), (a :: al').
  rewrite Ea, Eh, Ei, Ep. rewrite !drop_drop. cbn [length nonce_nds_rows]. replace (1 + (1 + 2 * length col))%nat with (2 * S (length col))%nat by lia.
  rewrite <- !app_assoc. split_and!; [by rewrite Lk|by constructor|done|done|done|done].
Qed.

(** ** The responses of the signer close the ring *)
Definition respond (c : Z) (ks vs : list Z) : list Z := zip_with (fun k v => (k - c * v) mod l) ks vs.

(** The secret keys of a column. *)
Definition owned (col : list (pt * pt)) (vs : list Z) : Prop := Forall2 (fun m v => m.1 ≡ₚ smul v B) col vs.

Lemma nds_row_close c m v k : m.1 ≡ₚ smul v B -> nds_row c m ((k - c * v) mod l) = [encode m.1; public k].
Proof. intros Hm. unfold nds_row, public. do 2 f_equal. by rewrite Hm, (response_commitment B c v k B_on_curve base_order). Qed.

Lemma ds_row_close c m v k :
  member_ok m -> m.1 ≡ₚ smul v B -> ds_row c m ((k - c * v) mod l) (smul v m.2) = [encode m.1; public k; encode (smul k m.2)].
Proof.
  intros [_ H] Hm. unfold ds_row, public. do 2 f_equal; [by rewrite Hm, (response_commitment B c v k B_on_curve base_order)|]. f_equal.
  by rewrite padd_comm, (response_commitment m.2 c v k (hashes_to_on_curve _ _ H) (hashes_to_order _ _ H)).
Qed.

Lemma ds_rows_close c n ks col vs :
  Forall member_ok col -> owned col vs -> length ks = length col ->
  ds_rows c (images n vs col) col (respond c ks vs) = nonce_ds_rows (take n ks) col.
Proof.
  intros Hcol Ho. revert n ks Hcol. induction Ho as [|m v col vs Hm Ho IH]; intros [|n] [|k ks] Hcol L; cbn [length] in L; try lia; [done..|].
  apply Forall_cons_1 in Hcol as [Hok Hcol]. unfold images. cbn [take zip_with ds_rows respond nonce_ds_rows].
  rewrite (ds_row_close _ _ _ _ Hok Hm). f_equal. apply IH; [done|lia].
Qed.

Lemma nds_rows_close c ks col vs :
  owned col vs -> length ks = length col -> nds_rows c col (respond c ks vs) = nonce_nds_rows ks col.
Proof.
  intros Ho. revert ks. induction Ho as [|m v col vs Hm Ho IH]; intros [|k ks] L; cbn [length] in L; try lia; [done|].
  cbn [zip_with nds_rows respond nonce_nds_rows]. rewrite (nds_row_close _ _ _ _ Hm). f_equal. apply IH. lia.
Qed.

Lemma respond_drop c ks vs n : drop n (respond c ks vs) = respond c (drop n ks) (drop n vs).
Proof. revert ks vs. induction n as [|n IH]; intros [|k ks] [|v vs]; try done; [|apply IH]. cbn [drop]. unfold respond. by destruct (drop n ks). Qed.

Lemma column_close msg c n ks col vs :
  Forall member_ok col -> owned col vs -> length ks = length col -> (n <= length col)%nat ->
  column_keys msg (images n vs col) c col (respond c ks vs) = msg :: nonce_ds_rows (take n ks) col ++ nonce_nds_rows (drop n ks) (drop n col).
Proof.
  intros Hcol Ho L Hn. pose proof (Forall2_length Ho) as Lv. unfold column_keys. rewrite images_length by lia.
  rewrite ds_rows_close by done. rewrite respond_drop, nds_rows_close; [done|by apply Forall2_drop|rewrite !length_drop; lia].
Qed.

Lemma responses_spec c ck ks al vs xx :
  scalar ck c -> Forall2 scalar al ks -> Forall2 scalar xx vs -> length ks = length vs ->
  returns (for_ (length vs) (fun j s => let! x := get xx j in let! a := get al j in let! r := sc_mulsub ck x a in set s j r) 0
             (replicate (length vs) rct.zero)) (fun s => Forall2 scalar s (respond c ks vs)).
Proof.
  intros Hc Hal Hxx L.
  eapply returns_mono; [apply (for_inv _ _ 0 _ (fun k s => exists d, s = d ++ replicate (length vs - k) rct.zero /\ Forall2 scalar d (respond c (take k ks) (take k vs))))|].
  - exists []. rewrite Nat.sub_0_r. split; [done|constructor].
  - intros k s Hk (d & -> & Hd). destruct (lookup_lt_is_Some_2 vs k) as [v Hv]; [lia|]. destruct (lookup_lt_is_Some_2 ks k) as [n Hn]; [lia|].
    destruct (Forall2_lookup_r _ _ _ _ _ Hxx Hv) as (x & Gx & Sx). destruct (Forall2_lookup_r _ _ _ _ _ Hal Hn) as (a & Ga & Sa).
    assert (length d = k) as Ld. { rewrite (Forall2_length Hd). unfold respond. rewrite length_zip_with, !length_take. lia. }
    rewrite (get_ok _ _ _ Gx), bind_ok, (get_ok _ _ _ Ga), bind_ok, (sc_mulsub_scalar _ _ _ _ _ _ Hc Sx Sa), bind_ok.
    rewrite set_rest by (rewrite ?length_replicate; lia). cbn [returns].
    eexists. rewrite drop_replicate. split; [do 2 f_equal; lia|]. rewrite (take_S_r _ _ _ Hn), (take_S_r _ _ _ Hv).
    unfold respond. rewrite zip_with_app by (rewrite !length_take; lia). apply Forall2_app; [exact Hd|]. constructor; [|done]. apply scalar_mod.
  - intros s (d & -> & Hd). rewrite Nat.add_0_l, Nat.sub_diag, app_nil_r. by rewrite !take_ge in Hd by lia.
Qed.

(** ** The loop over the other columns *)
Section Loop.
Context (ndebug : bool) (msg : list Z) (rows : nat) (cols : list (list (pt * pt))) (Is : list pt) (Ip : list (list ge_cached)) (index : nat).
Hypothesis Hcols : matrix rows cols.
Hypothesis HIs : Forall on_curve Is.
Hypothesis HIp : Forall2 odd_multiples Ip Is.
Hypothesis Hrows : (1 <= rows)%nat.
Hypothesis Hds : (length Is <= rows)%nat.
Hypothesis Hindex : (index < length cols)%nat.

Definition hashed (toHash : list (list Z)) : Prop :=
  exists t, toHash = msg :: t /\ length t = (3 * length Is + 2 * (rows - length Is))%nat.

Definition mg_go (fuel i : nat) (g : rng) (ss : list (list (list Z))) (cc : list Z) (toHash : list (list Z)) (ck : list Z) :=
  mg_loop fuel ndebug (keys <$> cols) Ip rows (length Is) index i g ss cc toHash ck.

Lemma mg_loop_step fuel i col g ss cc toHash ck c Q :
  cols !! i = Some col -> i <> index -> initialised g -> (i < length ss)%nat -> hashed toHash -> scalar ck c ->
  (forall g' s rs toHash', initialised g' -> Forall2 scalar s rs -> length rs = rows -> hashed toHash' ->
     let ck' := le_bytes 32 (next_challenge msg Is c col rs) in
     returns (mg_go fuel (S i mod length cols) g' (<[i := s]> ss) (if (S i mod length cols =? 0)%nat then ck' else cc) toHash' ck') Q) ->
  returns (mg_go (S fuel) i g ss cc toHash ck) Q.
Proof using All.
  intros Hcol Hi Hg Ls (t & -> & Lt) Hck HQ. destruct (Forall_lookup_1 _ _ _ _ Hcols Hcol) as [Hm Lcol].
  unfold mg_go. cbn [mg_loop]. replace (i =? index)%nat with false by (symmetry; by apply Nat.eqb_neq).
  eapply returns_bind; [apply skvGen_spec; [done|lia]|]. intros [g' s] [Hg' (rs & Lrs & Hs)]. cbv beta iota.
  rewrite set_ok, bind_ok, (get_ok _ _ (keys col)), bind_ok by (done || by rewrite list_lookup_fmap, Hcol).
  rewrite <- Lcol at 1. rewrite (mg_column_spec ndebug ck c Hck msg Is Ip col rs s t) by (done || lia). rewrite bind_ok, length_fmap. cbv beta iota zeta.
  apply (HQ g' s rs); [done|done|done|]. unfold hashed. rewrite <- Lcol. apply length_column_keys; lia.
Qed.

(** The columns after the signer's: at the end the challenge of column 0 is known. *)
Lemma mg_loop_tail A fuel i g pre rest cc toHash ck c Q :
  drop i cols = A -> A <> [] -> (index < i)%nat -> initialised g -> length pre = i -> length rest = length A -> hashed toHash -> scalar ck c ->
  (forall g' sA rA toHash', initialised g' -> matrix_scalars rows sA rA -> length rA = length A -> hashed toHash' ->
     let ck' := le_bytes 32 (run msg Is c A rA) in returns (mg_go fuel 0 g' (pre ++ sA) ck' toHash' ck') Q) ->
  returns (mg_go (length A + fuel) i g (pre ++ rest) cc toHash ck) Q.
Proof using All.
  revert i g pre rest cc toHash ck c. induction A as [|col A IH]; intros i g pre rest cc toHash ck c HA HA0 Hi Hg Lp Lrest Hh Hck HQ; [done|].
  destruct rest as [|r rest]; [done|]. injection Lrest as Lrest.
  assert (cols !! i = Some col) as Hcol by (rewrite <- (Nat.add_0_r i), <- lookup_drop, HA; done).
  assert (drop (S i) cols = A) as HA' by (rewrite <- Nat.add_1_r, <- drop_drop, HA; done).
  apply lookup_lt_Some in Hcol as Hlt. cbn [length Nat.add].
  eapply mg_loop_step; [exact Hcol|lia|done|rewrite length_app; simpl; lia|done|exact Hck|].
  intros g' s rs toHash' Hg' Hs Lrs Hh'. rewrite <- Lp, insert_next, Lp. cbv zeta.
  pose proof (f_equal length HA') as Ld. rewrite length_drop in Ld. destruct A as [|col' A].
  - cbn [length] in Ld. replace (S i) with (length cols) by lia. rewrite Nat.Div0.mod_same. destruct rest; [|done]. rewrite app_nil_r.
    apply (HQ g' [s] [rs]); [done| |done|done]. constructor; [done|constructor].
  - cbn [length] in Ld. rewrite Nat.mod_small by lia. apply (IH (S i)) with (c := next_challenge msg Is c col rs); try done.
    + lia.
    + rewrite length_app. simpl. lia.
    + apply Hs_scalar.
    + intros g2 sA rA toHash2 Hg2 HsA LA Hh2. rewrite <- app_assoc. apply (HQ g2 (s :: sA) (rs :: rA)); try done.
      * constructor; [done|exact HsA].
      * simpl in *. lia.
Qed.

(** The columns before the signer's. *)
Lemma mg_loop_head A i g pre rest cc toHash ck c :
  take (index - i) (drop i cols) = A -> (i <= index)%nat -> initialised g -> length pre = i -> (length A <= length rest)%nat -> hashed toHash -> scalar ck c ->
  returns (mg_go (S (length A)) i g (pre ++ rest) cc toHash ck) (fun '(g', ss, cc', ck') =>
    initialised g' /\ cc' = cc /\ exists sA rA, matrix_scalars rows sA rA /\ length rA = length A /\
      ss = pre ++ sA ++ drop (length A) rest /\ scalar ck' (run msg Is c A rA)).
Proof using All.
  revert i g pre rest toHash ck c. induction A as [|col A IH]; intros i g pre rest toHash ck c HA Hi Hg Lp Lrest Hh Hck.
  - pose proof (f_equal length HA) as Ld. rewrite length_take, length_drop in Ld. cbn [length] in Ld. replace i with index by lia.
    unfold mg_go. cbn [length mg_loop]. rewrite Nat.eqb_refl. cbn [returns]. split_and!; [done|done|]. exists [], []. split_and!; try done. constructor.
  - pose proof (f_equal length HA) as Ld. rewrite length_take, length_drop in Ld. cbn [length] in Ld, Lrest.
    destruct rest as [|r rest]; cbn [length] in Lrest; [lia|].
    assert (cols !! i = Some col) as Hcol.
    { rewrite <- (Nat.add_0_r i), <- lookup_drop. rewrite <- (lookup_take_lt _ (index - i)), HA by lia. done. }
    eapply mg_loop_step; [exact Hcol|lia|done|rewrite length_app; simpl; lia|done|exact Hck|].
    intros g' s rs toHash' Hg' Hs Lrs Hh'. rewrite <- Lp, insert_next, Lp. cbv zeta. rewrite Nat.mod_small by lia. cbn [Nat.eqb].
    eapply returns_mono; [apply (IH (S i)) with (c := next_challenge msg Is c col rs); try done|].
    + replace (index - i)%nat with (S (index - S i)) in HA by lia. rewrite (drop_S _ _ _ Hcol) in HA. cbn [take] in HA. by injection HA.
    + lia.
    + rewrite length_app. simpl. lia.
    + lia.
    + apply Hs_scalar.
    + intros [[[g2 ss2] cc2] ck2] (Hg2 & -> & sA & rA & HsA & LA & -> & Hck2). split_and!; [done|done|].
      exists (s :: sA), (rs :: rA). rewrite <- app_assoc. split_and!; [constructor; [done|exact HsA]|simpl; lia|done|exact Hck2].
Qed.
End Loop.

Lemma run_scalar msg Is c ck cols rss : scalar ck c -> scalar (le_bytes 32 (run msg Is c cols rss)) (run msg Is c cols rss).
Proof.
  revert c ck rss. induction cols as [|col cols IH]; intros c ck [|rs rss] Hc; cbn [run]; [by destruct Hc as [-> Hc]..|].
  apply (IH _ (le_bytes 32 (next_challenge msg Is c col rs))). apply Hs_scalar.
Qed.

Section Whole.
Context (ndebug : bool) (msg : list Z) (rows : nat) (cols : list (list (pt * pt))) (index : nat).
Hypothesis Hcols : matrix rows cols.
Hypothesis Hrows : (1 <= rows)%nat.
Hypothesis Hindex : (index < length cols)%nat.

Abbreviation before := (take index cols).
Abbreviation after := (drop (S index) cols).

(** The loop from the first challenge [c0], with [z] in every line: the challenge of column 0 and that of the signer's column. *)
Lemma mg_loop_spec Is Ip g z toHash ck c0 :
  Forall on_curve Is -> Forall2 odd_multiples Ip Is -> (length Is <= rows)%nat -> initialised g -> hashed msg rows Is toHash -> scalar ck c0 ->
  let i := (S index mod length cols)%nat in
  returns (mg_go ndebug rows cols Is Ip index (length cols) i g (replicate (length cols) z) (if (i =? 0)%nat then ck else rct.zero) toHash ck)
    (fun '(g', ss, cc, ck') => initialised g' /\ exists sA rA sB rB,
      matrix_scalars rows sA rA /\ length rA = length after /\ matrix_scalars rows sB rB /\ length rB = index /\ ss = sB ++ z :: sA /\
      scalar cc (run msg Is c0 after rA) /\ scalar ck' (run msg Is (run msg Is c0 after rA) before rB)).
Proof using All.
  intros HIs HIp Hds Hg Hh Hck i.
  assert (length before = index) as LB by (rewrite length_take; lia).
  pose proof (length_drop cols (S index)) as LA.
  assert (drop index (replicate (S index) z) = [z]) as Ez by (rewrite drop_replicate; by replace (S index - index)%nat with 1%nat by lia).
  destruct (decide (S index = length cols)) as [E|E].
  - assert (i = 0%nat) as -> by (unfold i; rewrite E; apply Nat.Div0.mod_same). cbn [Nat.eqb].
    assert (after = []) as EA by (by rewrite E, drop_all).
    pose proof (mg_loop_head ndebug msg rows cols Is Ip index Hcols HIs HIp Hrows Hds Hindex before 0 g [] (replicate (length cols) z) ck toHash ck c0
      ltac:(by rewrite Nat.sub_0_r) ltac:(lia) Hg eq_refl ltac:(rewrite LB, length_replicate; lia) Hh Hck) as Hr.
    rewrite LB, E in Hr. eapply returns_mono; [exact Hr|].
    intros [[[g' ss] cc] ck'] (Hg' & -> & sB & rB & HsB & LrB & -> & Hck'). split; [done|].
    exists [], [], sB, rB. rewrite EA. rewrite <- E, Ez. split_and!; (done || constructor).
  - assert (i = S index) as -> by (unfold i; apply Nat.mod_small; lia). cbn [Nat.eqb].
    replace (length cols) with (length after + S index)%nat at 1 by lia.
    replace (replicate (length cols) z) with (replicate (S index) z ++ replicate (length after) z) by (rewrite <- replicate_add; f_equal; lia).
    apply (mg_loop_tail ndebug msg rows cols Is Ip index) with (c := c0); try done.
    + intros EA. rewrite EA in LA. cbn [length] in LA. lia.
    + lia.
    + by rewrite length_replicate.
    + by rewrite length_replicate.
    + intros g1 sA rA toHash1 Hg1 HsA LrA Hh1. cbv zeta.
      assert (scalar (le_bytes 32 (run msg Is c0 after rA)) (run msg Is c0 after rA)) as Hcc by (by eapply run_scalar).
      pose proof (mg_loop_head ndebug msg rows cols Is Ip index Hcols HIs HIp Hrows Hds Hindex before 0 g1 [] (replicate (S index) z ++ sA)
        (le_bytes 32 (run msg Is c0 after rA)) toHash1 _ _ ltac:(by rewrite Nat.sub_0_r) ltac:(lia) Hg1 eq_refl
        ltac:(rewrite LB, length_app, length_replicate; lia) Hh1 Hcc) as Hr.
      rewrite LB in Hr. eapply returns_mono; [exact Hr|].
      intros [[[g' ss] cc] ck'] (Hg' & -> & sB & rB & HsB & LrB & -> & Hck'). split; [done|].
      exists sA, rA, sB, rB. rewrite drop_app_le, Ez by (rewrite length_replicate; lia). split_and!; done.
Qed.

(** The challenge is asked for when the nonces are given, with one key image. *)
Definition multisig_ok (kLRki : option multisig_kLRki) (mscout : bool) (d : nat) : Prop :=
  match kLRki with Some _ => mscout = true /\ d = 1%nat | None => mscout = false end.

Lemma mg_gen_checks_spec xx kLRki mscout d :
  (2 <= length cols)%nat -> length xx = rows -> (d <= rows)%nat -> multisig_ok kLRki mscout d ->
  mg_gen_checks (keys <$> cols) xx kLRki mscout index d = Ok rows.
Proof using All.
  intros Ln Lx Hd Hms. destruct (lookup_lt_is_Some_2 cols 0) as [col0 H0]; [lia|]. destruct (Forall_lookup_1 _ _ _ _ Hcols H0) as [_ L0].
  assert (rectangular rows (drop 1 (keys <$> cols)) = true) as R. { apply rectangular_ok, Forall_drop. by apply keys_lengths. }
  unfold mg_gen_checks. rewrite length_fmap. replace (2 <=? length cols)%nat with true by (symmetry; by apply Nat.leb_le).
  replace (index <? length cols)%nat with true by (symmetry; by apply Nat.ltb_lt). cbn [check_throw]. rewrite !bind_ok.
  rewrite (get_ok _ _ (keys col0)), bind_ok by (by rewrite list_lookup_fmap, H0).
  replace (length (keys col0)) with rows by (unfold keys; by rewrite length_fmap). rewrite R, Lx, Nat.eqb_refl.
  replace (1 <=? rows)%nat with true by (symmetry; by apply Nat.leb_le). replace (d <=? rows)%nat with true by (symmetry; by apply Nat.leb_le).
  destruct kLRki as [m|]; cbn [multisig_ok] in Hms; [by destruct Hms as [-> ->]|by rewrite Hms].
Qed.

(** The nonces of a column: the state before the first challenge. *)
Lemma mg_start_spec d col vs xx g :
  Forall member_ok col -> length col = rows -> Forall2 scalar xx vs -> length vs = rows -> (d <= rows)%nat -> initialised g ->
  returns (let! toHash := set (replicate (1 + 3 * d + 2 * (rows - d)) rct.zero) 0 msg in
           let! st := for_ d (mg_ds_start ndebug (keys col) xx None) 0
               (Mg g (replicate rows rct.zero) toHash (replicate d rct.zero) (replicate d [])) in
           for_ (rows - d) (mg_nds_start ndebug (keys col) d) d st) (fun st =>
    initialised (m_rng st) /\ m_II st = encode <$> images d vs col /\ Forall2 odd_multiples (m_Ip st) (images d vs col) /\
    exists ks, length ks = rows /\ Forall2 scalar (m_alpha st) ks /\
      m_toHash st = msg :: nonce_ds_rows (take d ks) col ++ nonce_nds_rows (drop d ks) (drop d col)).
Proof using All.
  intros Hcol Lcol Hxx Lv Hd Hg. rewrite set_ok, bind_ok by (rewrite length_replicate; lia). set (z := replicate (3 * d + 2 * (rows - d)) rct.zero).
  change (<[0%nat := msg]> (replicate (1 + 3 * d + 2 * (rows - d)) rct.zero)) with ([msg] ++ z).
  assert (length z = (3 * d + 2 * (rows - d))%nat) as Lz by apply length_replicate.
  eapply returns_bind.
  { apply (ds_start_spec ndebug d col (keys col) vs xx 0 g [] (replicate rows rct.zero) [msg] z [] (replicate d rct.zero) [] (replicate d []));
      rewrite ?length_replicate; try done; lia. }
  intros [g1 al1 h1 i1 p1] (Hg1 & ks & al & ip & Lk & Hal & Ea & Eh & Ei & Hip & Ep). cbn [m_rng m_alpha m_toHash m_II m_Ip] in *.
  rewrite drop_replicate, Nat.sub_diag in Ei. rewrite drop_replicate, Nat.sub_diag in Ep. cbn [app replicate] in Ei, Ep. rewrite app_nil_r in Ei. rewrite app_nil_r in Ep. rewrite drop_replicate in Ea. subst al1 h1 i1 p1.
  replace (rows - d)%nat with (length (drop d col)) by (rewrite length_drop; lia). rewrite app_nil_l, (app_assoc [msg]).
  eapply returns_mono.
  { apply nds_start_spec; try done.
    - unfold keys. by rewrite fmap_drop.
    - rewrite (Forall2_length Hal). done.
    - rewrite length_app, length_nonce_ds_rows by lia. simpl. lia.
    - by rewrite length_replicate.
    - rewrite !length_drop. lia. }
  intros st (Hg2 & ks2 & al2 & Lk2 & Hal2 & Ea2 & Eh2 & Ei2 & Ep2). rewrite length_drop in *. split_and!; [done|done|by rewrite Ep2|].
  exists (ks ++ ks2). rewrite length_app, take_app_length', drop_app_length' by done. split; [lia|]. split.
  - rewrite Ea2, drop_replicate, Nat.sub_diag, app_nil_r. by apply Forall2_app.
  - rewrite Eh2, drop_drop, (drop_ge z) by lia. rewrite app_nil_r, <- app_assoc. done.
Qed.

(** What is hashed before the first challenge is what a verifier hashes for the responses [r c] to any challenge [c]. *)
Definition closes (Is : list pt) (col : list (pt * pt)) (r : Z -> list Z) (toHash : list (list Z)) : Prop :=
  forall c, length (r c) = rows /\ column_keys msg Is c col (r c) = toHash.

(** The ring from the nonces on. *)
Lemma MLSAG_Gen_rest Is col vs xx ks r st kLRki mscout g :
  (2 <= length cols)%nat -> cols !! index = Some col -> Forall2 scalar xx vs -> length vs = rows -> (length Is <= rows)%nat ->
  multisig_ok kLRki mscout (length Is) -> Forall on_curve Is ->
  (let! toHash := set (replicate (1 + 3 * length Is + 2 * (rows - length Is)) rct.zero) 0 msg in
   let! st := for_ (length Is) (mg_ds_start ndebug (keys col) xx kLRki) 0
               (Mg g (replicate rows rct.zero) toHash (replicate (length Is) rct.zero) (replicate (length Is) [])) in
   for_ (rows - length Is) (mg_nds_start ndebug (keys col) (length Is)) (length Is) st) = Ok st ->
  initialised (m_rng st) -> Forall2 odd_multiples (m_Ip st) Is -> length ks = rows -> Forall2 scalar (m_alpha st) ks -> closes Is col r (m_toHash st) ->
  returns (MLSAG_Gen ndebug msg (keys <$> cols) xx kLRki mscout index (length Is) g) (fun '(g', (sig, co)) =>
    initialised g' /\ II sig = m_II st /\ exists sB s sA rB rA c ck e,
      ss sig = sB ++ s :: sA /\ length sB = index /\ Forall2 scalar s (respond c ks vs) /\ matrix_scalars rows sB rB /\ matrix_scalars rows sA rA /\
      length (rB ++ r c :: rA) = length cols /\ scalar ck c /\ co = (if mscout then Some ck else None) /\ scalar (cc sig) e /\
      run msg Is e cols (rB ++ r c :: rA) = e).
Proof using All.
  intros Ln Hcol Hxx Lv Hd Hms HIs Est Hg1 HIp Lks Hks Hcl. destruct (Forall_lookup_1 _ _ _ _ Hcols Hcol) as [Hm Lcol].
  pose proof (Forall2_length Hxx) as Lx. unfold MLSAG_Gen.
  rewrite mg_gen_checks_spec, bind_ok by (done || lia). rewrite length_fmap, (get_ok _ _ (keys col)), bind_ok by (by rewrite list_lookup_fmap, Hcol).
  rewrite set_ok, bind_ok in Est by (rewrite length_replicate; lia). rewrite set_ok, bind_ok by (rewrite length_replicate; lia).
  destruct (for_ (length Is) _ 0 _) as [st0|]; [|discriminate Est]. rewrite bind_ok in Est. rewrite bind_ok, Est, bind_ok, hash_to_scalar_keyV_spec, bind_ok. cbv zeta.
  set (c0 := Hs (concat (m_toHash st))).
  assert (forall c, next_challenge msg Is c col (r c) = c0) as Hclose. { intros c. unfold next_challenge, c0. by destruct (Hcl c) as [_ ->]. }
  eapply returns_bind.
  { apply (mg_loop_spec Is (m_Ip st) (m_rng st) _ (m_toHash st) _ c0); try done; [|apply Hs_scalar].
    destruct (Hcl 0) as [Lr <-]. unfold hashed. rewrite <- Lcol. apply length_column_keys; lia. }
  intros [[[g' ss'] cc'] ck] (Hg' & sA & rA & sB & rB & HsA & LA & HsB & LB & -> & Hcc & Hck). cbv beta iota.
  rewrite <- Lv at 1. rewrite <- Lv at 1. eapply returns_bind; [apply (responses_spec _ _ ks _ vs _ Hck Hks Hxx); lia|]. intros s Hs. cbv beta.
  assert (length sB = index) as LsB by (rewrite (Forall2_length HsB); done).
  rewrite (set_next sB sA), bind_ok by done. cbn [returns]. cbn [ss cc II]. split_and!; [done|done|].
  set (e := run msg Is c0 (drop (S index) cols) rA) in *. set (c := run msg Is e (take index cols) rB) in *.
  exists sB, s, sA, rB, rA, c, ck, e. split_and!; try done.
  - by rewrite <- app_assoc.
  - rewrite length_app. cbn [length]. rewrite LA, LB, length_drop. lia.
  - transitivity (run msg Is e (take index cols ++ col :: drop (S index) cols) (rB ++ r c :: rA)); [by rewrite (take_drop_middle _ _ _ Hcol)|].
    rewrite run_app by (rewrite length_take; lia). cbn [run]. fold c. by rewrite Hclose.
Qed.

(** A signature of the owner of a column satisfies the equation of the verifier. *)
Lemma MLSAG_Gen_spec d col vs xx g :
  (2 <= length cols)%nat -> cols !! index = Some col -> Forall2 scalar xx vs -> owned col vs -> (d <= rows)%nat -> initialised g ->
  returns (MLSAG_Gen ndebug msg (keys <$> cols) xx None false index d g) (fun '(g', (sig, c)) =>
    initialised g' /\ c = None /\ exists rss e, matrix_scalars rows (ss sig) rss /\ length rss = length cols /\ scalar (cc sig) e /\
      II sig = encode <$> images d vs col /\ run msg (images d vs col) e cols rss = e).
Proof using All.
  intros Ln Hcol Hxx Ho Hd Hg. destruct (Forall_lookup_1 _ _ _ _ Hcols Hcol) as [Hm Lcol].
  pose proof (Forall2_length Ho) as Lv. rewrite Lcol in Lv.
  pose proof (mg_start_spec d col vs xx g Hm Lcol Hxx (eq_sym Lv) Hd Hg) as Hstart.
  set (Is := images d vs col) in *. assert (length Is = d) as LI by (apply images_length; lia).
  apply returns_inv in Hstart as (st & Est & Hg1 & EII & HIp & ks & Lks & Hks & Eh).
  assert (Forall on_curve Is) as HIs by (by apply images_curve).
  assert (closes Is col (fun c => respond c ks vs) (m_toHash st)) as Hcl.
  { intros c. split; [unfold respond; rewrite length_zip_with; lia|]. unfold Is. rewrite column_close, Eh by (done || lia). done. }
  clearbody Is. subst d.
  eapply returns_mono; [by apply (MLSAG_Gen_rest Is col vs xx ks (fun c => respond c ks vs) st)|].
  intros [g' [sig co]] (Hg' & EI & sB & s & sA & rB & rA & c & ck & e & Ess & LsB & Hs & HsB & HsA & Lr & Hck & -> & Hcc & Hrun).
  split_and!; [done|done|]. exists (rB ++ respond c ks vs :: rA), e. split_and!; [|done|done|by rewrite EI|done].
  rewrite Ess. apply Forall2_app; [exact HsB|]. constructor; [|exact HsA]. split; [exact Hs|]. unfold respond. rewrite length_zip_with. lia.
Qed.

(** ** Multisignatures

    The nonce [K] and the key [X] of the first row are shared: the first signer
    has the parts [k1] and [x1] of them. *)
Lemma multisig_first_row mm p pk xx t z0 za z1 z2 z3 zt z4 z5 g :
  rct.precomp (ms_ki mm) = Ok t ->
  mg_ds_start ndebug (p :: pk) xx (Some mm) 0 (Mg g (z0 :: za) ([msg; z1; z2; z3] ++ zt) [z4] [z5]) =
    Ok (Mg g (ms_k mm :: za) ([msg; p; ms_L mm; ms_R mm] ++ zt) [ms_ki mm] [t]).
Proof using Type. intros Et. unfold mg_ds_start. cbn [m_rng m_alpha m_toHash m_II m_Ip]. rewrite Et. done. Qed.

Lemma multisig_start_spec mm mem col xx k1 K X g :
  Forall member_ok (mem :: col) -> S (length col) = rows -> scalar (ms_k mm) k1 -> ms_L mm = public K ->
  ms_R mm = encode (smul K mem.2) -> ms_ki mm = encode (smul X mem.2) -> initialised g ->
  returns (let! toHash := set (replicate (1 + 3 * 1 + 2 * (rows - 1)) rct.zero) 0 msg in
           let! st := for_ 1 (mg_ds_start ndebug (keys (mem :: col)) xx (Some mm)) 0
               (Mg g (replicate rows rct.zero) toHash (replicate 1 rct.zero) (replicate 1 [])) in
           for_ (rows - 1) (mg_nds_start ndebug (keys (mem :: col)) 1) 1 st) (fun st =>
    initialised (m_rng st) /\ m_II st = [encode (smul X mem.2)] /\ Forall2 odd_multiples (m_Ip st) [smul X mem.2] /\
    exists ks, length ks = length col /\ Forall2 scalar (m_alpha st) (k1 :: ks) /\
      m_toHash st = msg :: nonce_ds_rows [K] (mem :: col) ++ nonce_nds_rows ks col).
Proof using All.
  intros Hcol Lcol Hk EL ER Eki Hg. apply Forall_cons_1 in Hcol as [[_ Hh] Hcol]. pose proof (hashes_to_on_curve _ _ Hh) as HC.
  rewrite set_ok, bind_ok by (rewrite length_replicate; lia). set (z := replicate (2 * (rows - 1)) rct.zero).
  change (<[0%nat := msg]> (replicate (1 + 3 * 1 + 2 * (rows - 1)) rct.zero)) with ([msg; rct.zero; rct.zero; rct.zero] ++ z).
  pose proof (precomp_spec (smul X mem.2) ltac:(by apply smul_on_curve)) as (t & Et & Ht)%returns_inv. rewrite <- Eki in Et.
  rewrite <- Lcol at 1. cbn [for_ replicate keys fmap list_fmap]. fold (keys col).
  rewrite (multisig_first_row mm (encode mem.1) (keys col) xx t _ _ _ _ _ z _ _ g Et), !bind_ok, EL, ER, Eki.
  replace (rows - 1)%nat with (length col) by lia.
  eapply returns_mono.
  { apply (nds_start_spec ndebug 1 col (encode mem.1 :: keys col) 1 g [ms_k mm] (replicate (length col) rct.zero)
      [msg; encode mem.1; public K; encode (smul K mem.2)] z); try done; [by rewrite length_replicate|unfold z; rewrite length_replicate; lia]. }
  intros st (Hg1 & ks & al & Lks & Hal & Ea & Eh & Ei & Ep). split_and!; [done|done|rewrite Ep; by constructor|].
  exists ks. rewrite drop_replicate, Nat.sub_diag, app_nil_r in Ea. unfold z in Eh. rewrite drop_replicate in Eh.
  replace (2 * (rows - 1) - 2 * length col)%nat with 0%nat in Eh by lia. rewrite app_nil_r in Eh. rewrite Ea, Eh. split_and!; [done|by constructor|done].
Qed.

(** The part of the first signer; any [t] that completes its first response makes a valid signature. *)
Lemma MLSAG_multisig_spec ndebug' mm mem col x1 X xx vs k1 K g :
  (2 <= length cols)%nat -> cols !! index = Some (mem :: col) -> Forall2 scalar xx (x1 :: vs) -> owned (mem :: col) (X :: vs) ->
  scalar (ms_k mm) k1 -> ms_L mm = public K -> ms_R mm = encode (smul K mem.2) -> ms_ki mm = encode (smul X mem.2) -> initialised g ->
  returns (MLSAG_Gen ndebug msg (keys <$> cols) xx (Some mm) true index 1 g) (fun '(g', (sig, co)) =>
    initialised g' /\ exists ck c sB s0 s sA, co = Some ck /\ scalar ck c /\ ss sig = sB ++ (s0 :: s) :: sA /\ length sB = index /\
      scalar s0 ((k1 - c * x1) mod l) /\ forall t, scalar t ((K - c * X) mod l) ->
        MLSAG_Ver ndebug' msg (keys <$> cols) (MgSig (sB ++ (t :: s) :: sA) (cc sig) (II sig)) 1 = Ok true).
Proof using All.
  intros Ln Hcol Hxx Ho Hk EL ER Eki Hg. destruct (Forall_lookup_1 _ _ _ _ Hcols Hcol) as [Hm Lcol].
  pose proof (Forall2_length Ho) as Lv. cbn [length] in Lcol, Lv.
  pose proof (multisig_start_spec mm mem col xx k1 K X g Hm Lcol Hk EL ER Eki Hg) as (st & Est & Hg1 & EII & HIp & ks & Lks & Hks & Eh)%returns_inv.
  assert (Forall on_curve [smul X mem.2]) as HIs by (apply (images_curve 1 (X :: vs) _ Hm)).
  assert (closes [smul X mem.2] (mem :: col) (fun c => respond c (K :: ks) (X :: vs)) (m_toHash st)) as Hcl.
  { intros c. split; [unfold respond; rewrite length_zip_with; simpl; lia|].
    pose proof (column_close msg c 1 (K :: ks) (mem :: col) (X :: vs) Hm Ho ltac:(simpl; lia) ltac:(simpl; lia)) as Hc. rewrite Eh. exact Hc. }
  eapply returns_mono.
  { apply (MLSAG_Gen_rest [smul X mem.2] (mem :: col) (x1 :: vs) xx (k1 :: ks) (fun c => respond c (K :: ks) (X :: vs)) st (Some mm) true g);
      try done; simpl; lia. }
  intros [g' [sig co]] (Hg' & EI & sB & s & sA & rB & rA & c & ck & e & Ess & LsB & Hs & HsB & HsA & Lr & Hck & -> & Hcc & Hrun).
  split; [done|]. destruct s as [|s0 s]; [by inversion Hs|]. cbn [respond zip_with] in Hs. apply Forall2_cons_1 in Hs as [Hs0 Hs].
  exists ck, c, sB, s0, s, sA. split_and!; try done. intros t Ht.
  rewrite (MLSAG_Ver_spec ndebug' msg rows cols [smul X mem.2] (rB ++ respond c (K :: ks) (X :: vs) :: rA) _ e); cbn [ss cc II]; try done.
  - f_equal. by apply bool_decide_eq_true_2.
  - apply Forall2_app; [exact HsB|]. constructor; [|exact HsA]. split; [by constructor|]. unfold respond. rewrite length_zip_with. simpl. lia.
  - by rewrite EI.
Qed.
End Whole.
