(* ===== verification/RctTransactions.v ===== *)
(** * Transactions are accepted and decoded

    A transaction whose input amounts add up to the outputs and the fee, made
    by the owner of its inputs, passes both checks, and its receivers read the
    amounts. *)

From stdpp Require Import base list numbers.
From Stdlib Require Import ZArith Lia.
From S2P Require Import Prelude Bytes Varint Streaming Field FieldFacts Scalar ScalarFacts CurveData Group Edwards GroupFacts GroupSpec BaseTable Recode ScalarMult ScalarMultFacts PointCodec HashToPoint GroupOrder Keccak KeccakFacts Random Crypto CryptoFacts RingFacts Rct RctFacts RctSigs RctRange RctMlsag.

(** ** Sums of keys *)
Lemma sum_fold_curve (f : pt -> pt -> pt) As A :
  (forall P Q, on_curve P -> on_curve Q -> on_curve (f P Q)) -> on_curve A -> Forall on_curve As -> on_curve (foldl f A As).
Proof. intros Hf HA HAs. revert A HA. induction HAs as [|C As HC _ IH]; intros A HA; [done|]. cbn [foldl]. apply IH. by apply Hf. Qed.

(** A loop that combines a key with those of a list. *)
Lemma fold_keys_loop {T} (op : list Z -> list Z -> result (list Z)) (f : pt -> pt -> pt) (key : T -> list Z) ts As A :
  (forall P Q, on_curve P -> on_curve Q -> on_curve (f P Q)) ->
  (forall P Q, on_curve P -> on_curve Q -> op (encode P) (encode Q) = Ok (encode (f P Q))) ->
  key <$> ts = encode <$> As -> on_curve A -> Forall on_curve As ->
  for_ (length ts) (fun i s => let! t := get ts i in op s (key t)) 0 (encode A) = Ok (encode (foldl f A As)).
Proof.
  intros Hf Hop E HA HAs. enough (forall j us, drop j ts = us -> key <$> us = encode <$> As ->
    for_ (length us) (fun i s => let! t := get ts i in op s (key t)) j (encode A) = Ok (encode (foldl f A As))) as H.
  { apply (H 0%nat ts); [apply drop_0|exact E]. }
  clear E. revert A HA. induction HAs as [|C As HC HAs IH]; intros A HA j [|u us] Ej E; try done. injection E as Eu E.
  apply get_drop in Ej as [G Ej]. cbn [length for_]. rewrite G, bind_ok, Eu, Hop, bind_ok by done. cbn [foldl].
  apply IH; [by apply Hf|done|done].
Qed.

Lemma sum_loop {T} (key : T -> list Z) ts As A :
  key <$> ts = encode <$> As -> on_curve A -> Forall on_curve As ->
  for_ (length ts) (fun i s => let! t := get ts i in rct.addKeys s (key t)) 0 (encode A) = Ok (encode (foldl padd A As)).
Proof. apply fold_keys_loop; [apply padd_on_curve|apply addKeys_spec]. Qed.

Definition psub (A C : pt) : pt := padd A (pneg C).

Lemma psub_on_curve A C : on_curve A -> on_curve C -> on_curve (psub A C).
Proof. intros HA HC. apply padd_on_curve; [done|by apply pneg_on_curve]. Qed.

Lemma diff_loop {T} (key : T -> list Z) ts As A :
  key <$> ts = encode <$> As -> on_curve A -> Forall on_curve As ->
  for_ (length ts) (fun i s => let! t := get ts i in rct.subKeys s (key t)) 0 (encode A) = Ok (encode (foldl psub A As)).
Proof. apply fold_keys_loop; [apply psub_on_curve|apply subKeys_spec]. Qed.

#[export] Instance psub_proper : Proper (pt_eq ==> pt_eq ==> pt_eq) psub.
Proof. intros A A' HA C C' HC. unfold psub. by rewrite HA, HC. Qed.

(** Commitments to [vs] with the masks [ms]. *)
Definition pedersens (ms vs : list Z) : list pt := zip_with pedersen ms vs.

Lemma pedersens_curve ms vs : Forall on_curve (pedersens ms vs).
Proof. apply Forall_lookup_2. intros i P (a & v & -> & _ & _)%lookup_zip_with_Some. apply pedersen_on_curve. Qed.

Lemma fold_pedersen ms vs a v A :
  length ms = length vs -> A ≡ₚ pedersen a v -> foldl padd A (pedersens ms vs) ≡ₚ pedersen (a + sum_Z ms) (v + sum_Z vs).
Proof.
  revert vs a v A. induction ms as [|m ms IH]; intros [|w vs] a v A E HA; cbn [length] in E; try lia; cbn [foldl].
  - cbn [pedersens zip_with foldl sum_Z foldr]. by rewrite !Z.add_0_r.
  - cbn [pedersens zip_with foldl]. rewrite (IH vs (a + m) (v + w)); [|lia|by rewrite HA, pedersen_add].
    cbn [sum_Z foldr]. by rewrite !Z.add_assoc.
Qed.

Lemma pedersen_sub a b a' b' : psub (pedersen a b) (pedersen a' b') ≡ₚ pedersen (a - a') (b - b').
Proof. unfold psub. rewrite pedersen_neg, pedersen_add. done. Qed.

Lemma fold_pedersen_sub ms vs a v A :
  length ms = length vs -> A ≡ₚ pedersen a v -> foldl psub A (pedersens ms vs) ≡ₚ pedersen (a - sum_Z ms) (v - sum_Z vs).
Proof.
  revert vs a v A. induction ms as [|m ms IH]; intros [|w vs] a v A E HA; cbn [length] in E; try lia; cbn [foldl].
  - cbn [pedersens zip_with foldl sum_Z foldr]. by rewrite !Z.sub_0_r.
  - cbn [pedersens zip_with foldl]. rewrite (IH vs (a - m) (v - w)); [|lia|by rewrite HA, pedersen_sub].
    cbn [sum_Z foldr]. by rewrite !Z.sub_add_distr.
Qed.

Lemma pedersen_value_0 a : pedersen a 0 ≡ₚ smul a B.
Proof. unfold pedersen. rewrite (smul_0 Hpt). apply padd_0_r, smul_B_on_curve. Qed.

Lemma pedersen_mask_0 v : pedersen 0 v ≡ₚ smul v Hpt.
Proof. unfold pedersen. rewrite (smul_0 B). apply padd_0_l, smul_on_curve, Hpt_on_curve. Qed.

(** ** Signatures on a matrix of keys *)
Definition points_matrix (rows : nat) (pts : list (list pt)) : Prop := Forall (fun col => Forall on_curve col /\ length col = rows) pts.
Definition encoded (pts : list (list pt)) : list (list (list Z)) := fmap (M := list) (fmap (M := list) encode) pts.

Lemma column_exists col : Forall on_curve col -> exists ms, Forall member_ok ms /\ ms.*1 = col.
Proof.
  induction 1 as [|P col HP _ (ms & Hms & E)]; [by exists []|]. destruct (hashes_to_exists (encode P)) as [Q HQ].
  exists ((P, Q) :: ms). cbn [fmap list_fmap fst]. split; [constructor; [by split|done]|by f_equal].
Qed.

Lemma columns_exist rows pts : points_matrix rows pts -> exists cols, matrix rows cols /\ (fun col => col.*1) <$> cols = pts.
Proof.
  induction 1 as [|col pts [Hc Lc] _ (cols & Hcols & E)]; [exists []; split; [constructor|done]|].
  destruct (column_exists col Hc) as (ms & Hms & Ems). exists (ms :: cols). cbn [fmap list_fmap]. split; [|by f_equal].
  constructor; [|exact Hcols]. split; [done|]. rewrite <- Lc, <- Ems. by rewrite length_fmap.
Qed.

Lemma keys_encoded cols : keys <$> cols = encoded ((fun col => col.*1) <$> cols).
Proof. unfold encoded. rewrite <- list_fmap_compose. apply list_fmap_ext. intros i col _. unfold keys, compose. by rewrite <- list_fmap_compose. Qed.

(** A signature of the owner of a column is accepted. *)
Lemma MLSAG_complete ndebug ndebug' msg rows pts index d col vs xx g :
  points_matrix rows pts -> (1 <= rows)%nat -> (2 <= length pts)%nat -> (d <= rows)%nat -> pts !! index = Some col ->
  Forall2 scalar xx vs -> Forall2 (fun P v => P ≡ₚ smul v B) col vs -> initialised g ->
  returns (MLSAG_Gen ndebug msg (encoded pts) xx None false index d g) (fun '(g', (sig, c)) =>
    initialised g' /\ c = None /\ MLSAG_Ver ndebug' msg (encoded pts) sig d = Ok true).
Proof.
  intros Hpts Hr Hn Hd Hcol Hxx Ho Hg. destruct (columns_exist _ _ Hpts) as (cols & Hcols & <-). rewrite length_fmap in Hn.
  rewrite list_lookup_fmap in Hcol. apply fmap_Some in Hcol as (ms & Hms & ->). rewrite <- keys_encoded.
  destruct (Forall_lookup_1 _ _ _ _ Hcols Hms) as [Hmem Lms].
  assert (owned ms vs) as Hown by (by apply Forall2_fmap_l in Ho).
  pose proof (Forall2_length Hown) as Lv.
  eapply returns_mono.
  { apply (MLSAG_Gen_spec ndebug msg rows cols index Hcols Hr) with (col := ms) (vs := vs); try done. by eapply lookup_lt_Some. }
  intros [g' [sig c]] (Hg' & -> & rss & e & Hss & Ls & Hcc & HII & Hrun). split_and!; [done|done|].
  pose proof (images_length d vs ms ltac:(lia) ltac:(lia)) as LI.
  pose proof (MLSAG_Ver_spec ndebug' msg rows cols (images d vs ms) rss sig e Hcols (images_curve _ _ _ Hmem) Hss Hcc HII Hn Hr
    ltac:(lia) Ls) as Hv. rewrite LI in Hv. rewrite Hv. f_equal. by apply bool_decide_eq_true_2.
Qed.

(** ** The inputs of a simple transaction *)

(** Keys with their commitments. *)
Definition ctkeys (ms : list (pt * pt)) : list rct.ctkey := (fun m => rct.Ctkey (encode m.1) (encode m.2)) <$> ms.

Definition simple_points (Cout : pt) (ms : list (pt * pt)) : list (list pt) := (fun m => [m.1; psub m.2 Cout]) <$> ms.

Lemma mg_simple_matrix_spec ms Cout :
  Forall pair_ok ms -> on_curve Cout -> mg_simple_matrix (ctkeys ms) (encode Cout) = Ok (encoded (simple_points Cout ms)).
Proof.
  intros Hms HC. induction Hms as [|m ms [H1 H2] Hms IH]; [done|]. unfold ctkeys. cbn [fmap list_fmap mg_simple_matrix rct.mask rct.dest].
  rewrite subKeys_spec, bind_ok by done. fold (ctkeys ms). by rewrite IH, bind_ok.
Qed.

Lemma simple_points_matrix ms Cout : Forall pair_ok ms -> on_curve Cout -> points_matrix 2 (simple_points Cout ms).
Proof.
  intros Hms HC. apply Forall_fmap. eapply Forall_impl; [|exact Hms]. intros m [H1 H2]. simpl. split; [|done].
  repeat constructor; [done|by apply psub_on_curve].
Qed.

(** The secrets of an input: the key, the mask and the amount. *)
Record opening := Opening { o_key : Z; o_mask : Z; o_amount : Z }.
Definition owns (mem : pt * pt) (s : opening) : Prop := mem.1 ≡ₚ smul (o_key s) B /\ mem.2 ≡ₚ pedersen (o_mask s) (o_amount s).
Definition holds (sk : rct.ctkey) (s : opening) : Prop := scalar (rct.dest sk) (o_key s) /\ scalar (rct.mask sk) (o_mask s).

Lemma proveRctMGSimple_spec ndebug ndebug' msg ms mem sk s ak a index g :
  Forall pair_ok ms -> (2 <= length ms)%nat -> ms !! index = Some mem -> owns mem s ->
  holds sk s -> scalar ak a -> initialised g ->
  returns (proveRctMGSimple ndebug msg (ctkeys ms) sk ak (encode (pedersen a (o_amount s))) None false index g) (fun '(g', (sig, c)) =>
    initialised g' /\ c = None /\ verRctMGSimple ndebug' msg sig (ctkeys ms) (encode (pedersen a (o_amount s))) = Ok true).
Proof.
  intros Hms Hn Hmem [Ox Om] [Hx Hm] Ha Hg. pose proof (pedersen_on_curve a (o_amount s)) as HC.
  unfold proveRctMGSimple, verRctMGSimple. assert (length (ctkeys ms) = length ms) as -> by apply length_fmap.
  replace (1 <=? length ms)%nat with true by (symmetry; apply Nat.leb_le; lia). cbn [check_throw negb andb orb]. rewrite !bind_ok.
  rewrite mg_simple_matrix_spec, bind_ok, (sc_sub_scalar _ _ _ _ Hm Ha), bind_ok by done.
  eapply returns_mono.
  { apply (MLSAG_complete ndebug ndebug' msg 2 _ index 1 [mem.1; psub mem.2 (pedersen a (o_amount s))] [o_key s; (o_mask s - a) mod l]); try done.
    - by apply simple_points_matrix.
    - lia.
    - unfold simple_points. by rewrite length_fmap.
    - lia.
    - unfold simple_points. by rewrite list_lookup_fmap, Hmem.
    - constructor; [exact Hx|]. constructor; [apply scalar_mod|constructor].
    - constructor; [done|]. constructor; [|constructor]. by rewrite Om, pedersen_sub, Z.sub_diag, pedersen_value_0, smul_mod_l. }
  intros [g' [sig c]] (Hg' & -> & Hv). split_and!; [done|done|]. by rewrite bind_ok, Hv.
Qed.

(** ** The inputs of a full transaction *)
Definition last_point (Os : list pt) (F : pt) (Cs : list pt) : pt := psub (foldl psub (foldl padd pzero Cs) Os) F.
Definition full_column (Os : list pt) (F : pt) (ms : list (pt * pt)) : list pt := ms.*1 ++ [last_point Os F ms.*2].

Lemma last_point_curve Os F Cs : Forall on_curve Os -> on_curve F -> Forall on_curve Cs -> on_curve (last_point Os F Cs).
Proof.
  intros HO HF HC. apply psub_on_curve; [|done]. apply sum_fold_curve; [apply psub_on_curve| |done].
  apply sum_fold_curve; [apply padd_on_curve|apply pzero_on_curve|done].
Qed.

Lemma mg_last_spec Cs outPk Os F :
  rct.mask <$> outPk = encode <$> Os -> Forall on_curve Cs -> Forall on_curve Os -> on_curve F ->
  mg_last (encode <$> Cs) outPk (encode F) = Ok (encode (last_point Os F Cs)).
Proof.
  intros EO HC HO HF. unfold mg_last. rewrite <- encode_pzero.
  assert (on_curve (foldl padd pzero Cs)) as H1 by (apply sum_fold_curve; [apply padd_on_curve|apply pzero_on_curve|done]).
  rewrite (sum_loop id (encode <$> Cs) Cs) by (try apply pzero_on_curve; try done; by rewrite list_fmap_id). rewrite bind_ok.
  rewrite (diff_loop rct.mask outPk Os), bind_ok by done. apply subKeys_spec; [|done]. apply sum_fold_curve; [apply psub_on_curve|done|done].
Qed.

Lemma ctkeys_mask ms : rct.mask <$> ctkeys ms = encode <$> ms.*2.
Proof. unfold ctkeys. by rewrite <- !list_fmap_compose. Qed.

Lemma ctkeys_dest ms : rct.dest <$> ctkeys ms = encode <$> ms.*1.
Proof. unfold ctkeys. by rewrite <- !list_fmap_compose. Qed.

Lemma pairs_curve ms : Forall pair_ok ms -> Forall on_curve ms.*1 /\ Forall on_curve ms.*2.
Proof. intros H. split; apply Forall_fmap; (eapply Forall_impl; [|exact H]); by intros m [H1 H2]. Qed.

Lemma mg_matrix_spec rings outPk Os F :
  rct.mask <$> outPk = encode <$> Os -> Forall (Forall pair_ok) rings -> Forall on_curve Os -> on_curve F ->
  mg_matrix (ctkeys <$> rings) outPk (encode F) = Ok (encoded (full_column Os F <$> rings)).
Proof.
  intros EO HR HO HF. induction HR as [|ms rings Hms HR IH]; [done|]. cbn [fmap list_fmap mg_matrix].
  destruct (pairs_curve ms Hms) as [H1 H2]. rewrite ctkeys_mask, (mg_last_spec _ _ Os), bind_ok by done.
  fold (fmap (M := list) ctkeys rings). rewrite IH, bind_ok, ctkeys_dest.
  unfold encoded, full_column. cbn [fmap list_fmap]. by rewrite fmap_app.
Qed.

Lemma full_points_matrix n rings Os F :
  Forall (fun ms => Forall pair_ok ms /\ length ms = n) rings -> Forall on_curve Os -> on_curve F ->
  points_matrix (n + 1) (full_column Os F <$> rings).
Proof.
  intros HR HO HF. apply Forall_fmap. eapply Forall_impl; [|exact HR]. intros ms [Hms L]. destruct (pairs_curve ms Hms) as [H1 H2].
  unfold full_column. cbn [compose]. split; [|rewrite length_app, length_fmap, L; done].
  apply Forall_app. split; [done|]. constructor; [|constructor]. by apply last_point_curve.
Qed.

(** Sums of scalars. *)
Lemma scalar_loop {T} (op : list Z -> list Z -> result (list Z)) (f : Z -> Z -> Z) (key : T -> list Z) ts vs a va :
  (forall x y vx vy, scalar x vx -> scalar y vy -> op x y = Ok (le_bytes 32 (f vx vy mod l))) ->
  (forall x y, f (x mod l) y mod l = f x y mod l) ->
  Forall2 (fun t v => scalar (key t) v) ts vs -> scalar a (va mod l) ->
  returns (for_ (length ts) (fun i s => let! t := get ts i in op s (key t)) 0 a) (fun s => scalar s (foldl f va vs mod l)).
Proof.
  intros Hop Hf Hts. enough (forall j us a va, drop j ts = us -> Forall2 (fun t v => scalar (key t) v) us vs -> scalar a (va mod l) ->
    returns (for_ (length us) (fun i s => let! t := get ts i in op s (key t)) j a) (fun s => scalar s (foldl f va vs mod l))) as H.
  { intros Ha. apply (H 0%nat ts); [apply drop_0|done|done]. }
  clear Hts a va. induction vs as [|v vs IH]; intros j us a va Ej Hus Ha.
  - inversion Hus. exact Ha.
  - destruct us as [|u us]; [by inversion Hus|]. apply Forall2_cons_1 in Hus as [Hu Hus]. apply get_drop in Ej as [G Ej].
    cbn [length for_]. rewrite G, bind_ok, (Hop _ _ _ _ Ha Hu), bind_ok. cbn [foldl]. apply IH; [done|done|]. rewrite Hf. apply scalar_mod.
Qed.

Lemma foldl_add_sum a vs : foldl Z.add a vs = a + sum_Z vs.
Proof. revert a. induction vs as [|v vs IH]; intros a; cbn [foldl sum_Z foldr]; [lia|]. rewrite IH. unfold sum_Z. lia. Qed.

Lemma foldl_sub_sum a vs : foldl Z.sub a vs = a - sum_Z vs.
Proof. revert a. induction vs as [|v vs IH]; intros a; cbn [foldl sum_Z foldr]; [lia|]. rewrite IH. unfold sum_Z. lia. Qed.

Lemma fold_owned col ss a v A :
  Forall2 owns col ss -> A ≡ₚ pedersen a v ->
  foldl padd A col.*2 ≡ₚ pedersen (a + sum_Z (o_mask <$> ss)) (v + sum_Z (o_amount <$> ss)).
Proof.
  intros Ho. revert a v A. induction Ho as [|mem s col ss [_ Om] _ IH]; intros a v A HA; cbn [fmap list_fmap foldl sum_Z foldr].
  - by rewrite !Z.add_0_r.
  - etransitivity; [apply (IH (a + o_mask s) (v + o_amount s)); by rewrite HA, Om, pedersen_add|]. unfold sum_Z. by rewrite !Z.add_assoc.
Qed.

(** The last row of the owner's column: the amounts cancel. *)
Lemma last_point_owned col ss os ws fee :
  Forall2 owns col ss -> length os = length ws -> sum_Z (o_amount <$> ss) = sum_Z ws + fee ->
  last_point (pedersens os ws) (smul fee Hpt) col.*2 ≡ₚ smul ((sum_Z (o_mask <$> ss) - sum_Z os) mod l) B.
Proof.
  intros Ho L E. unfold last_point. rewrite <- (pedersen_mask_0 fee).
  rewrite (fold_pedersen_sub os ws (0 + sum_Z (o_mask <$> ss)) (0 + sum_Z (o_amount <$> ss))); [|done|apply fold_owned; [done|symmetry; apply pedersen_0]].
  rewrite pedersen_sub, smul_mod_l. replace (0 + sum_Z (o_amount <$> ss) - sum_Z ws - fee) with 0 by lia.
  rewrite pedersen_value_0. by replace (0 + sum_Z (o_mask <$> ss) - sum_Z os - 0) with (sum_Z (o_mask <$> ss) - sum_Z os) by lia.
Qed.

Lemma holds_dest sks ss : Forall2 holds sks ss -> Forall2 scalar (rct.dest <$> sks) (o_key <$> ss).
Proof. induction 1 as [|sk s sks ss [H _] _ IH]; cbn [fmap list_fmap]; constructor; done. Qed.

Lemma holds_mask sks ss : Forall2 holds sks ss -> Forall2 (fun sk v => scalar (rct.mask sk) v) sks (o_mask <$> ss).
Proof. induction 1 as [|sk s sks ss [_ H] _ IH]; cbn [fmap list_fmap]; constructor; done. Qed.

Lemma owns_dest col ss : Forall2 owns col ss -> Forall2 (fun P v => P ≡ₚ smul v B) col.*1 (o_key <$> ss).
Proof. induction 1 as [|m s col ss [H _] _ IH]; cbn [fmap list_fmap]; constructor; done. Qed.

(** The secret key of the last row. *)
Lemma last_key_spec inSk ss outSk os :
  Forall2 holds inSk ss -> Forall2 (fun k v => scalar (rct.mask k) v) outSk os ->
  returns (let! sk := for_ (length inSk) (fun j sk => let! k := get inSk j in sc_add sk (rct.mask k)) 0 sc_0 in
           for_ (length outSk) (fun j sk => let! k := get outSk j in sc_sub sk (rct.mask k)) 0 sk)
    (fun sk => scalar sk ((sum_Z (o_mask <$> ss) - sum_Z os) mod l)).
Proof.
  intros Hin Hout. eapply returns_bind.
  { apply (scalar_loop sc_add Z.add rct.mask inSk (o_mask <$> ss) sc_0 0); [apply sc_add_scalar|intros; apply Zplus_mod_idemp_l|by apply holds_mask|apply sc_0_scalar]. }
  intros sk Hsk. cbv beta in Hsk |- *. rewrite foldl_add_sum, Z.add_0_l in Hsk. rewrite <- foldl_sub_sum.
  by apply (scalar_loop sc_sub Z.sub rct.mask); [apply sc_sub_scalar|intros; apply Zminus_mod_idemp_l|..].
Qed.

Lemma proveRctMG_spec ndebug ndebug' msg rings col ss inSk outSk outPk os ws fee index g :
  Forall (fun ms => Forall pair_ok ms /\ length ms = length inSk) rings -> (2 <= length rings)%nat -> (1 <= length inSk)%nat ->
  rings !! index = Some col -> Forall2 owns col ss -> Forall2 holds inSk ss ->
  rct.mask <$> outPk = encode <$> pedersens os ws -> Forall2 (fun k v => scalar (rct.mask k) v) outSk os -> length os = length ws ->
  sum_Z (o_amount <$> ss) = sum_Z ws + fee -> initialised g ->
  returns (proveRctMG ndebug msg (ctkeys <$> rings) inSk outSk outPk None false index (encode (smul fee Hpt)) g) (fun '(g', (sig, c)) =>
    initialised g' /\ c = None /\ verRctMG ndebug' sig (ctkeys <$> rings) outPk (encode (smul fee Hpt)) msg = Ok true).
Proof.
  intros HR Hn Hi Hcol Hown Hhold EO Hout Lo Esum Hg.
  pose proof (Forall2_length Hout) as Lout. pose proof (Forall2_length Hown) as Lcol.
  assert (length outPk = length os) as LoP.
  { apply (f_equal length) in EO. unfold pedersens in EO. rewrite !length_fmap, length_zip_with in EO. lia. }
  assert (on_curve (smul fee Hpt)) as HF by curve_base.
  destruct (lookup_lt_is_Some_2 rings 0) as [r0 H0]; [lia|]. destruct (Forall_lookup_1 _ _ _ _ HR H0) as [_ L0].
  assert (rectangular (length inSk) (drop 1 (ctkeys <$> rings)) = true) as R.
  { apply rectangular_ok, Forall_drop, Forall_fmap. eapply Forall_impl; [|exact HR]. intros ms [_ L]. unfold ctkeys. simpl. by rewrite length_fmap. }
  assert (mg_matrix (ctkeys <$> rings) outPk (encode (smul fee Hpt)) =
    Ok (encoded (full_column (pedersens os ws) (smul fee Hpt) <$> rings))) as EM.
  { apply mg_matrix_spec; [done| |apply pedersens_curve|done]. eapply Forall_impl; [|exact HR]. by intros ms [H _]. }
  unfold proveRctMG, verRctMG. rewrite length_fmap. replace (1 <=? length rings)%nat with true by (symmetry; apply Nat.leb_le; lia).
  rewrite (get_ok _ _ (ctkeys r0)) by (by rewrite list_lookup_fmap, H0). cbn [check_throw]. rewrite !bind_ok.
  replace (length (ctkeys r0)) with (length inSk) by (unfold ctkeys; by rewrite length_fmap). rewrite R.
  replace (1 <=? length inSk)%nat with true by (symmetry; by apply Nat.leb_le). rewrite Nat.eqb_refl.
  replace (length outSk =? length outPk)%nat with true by (symmetry; apply Nat.eqb_eq; lia). cbn [check_throw negb andb orb]. rewrite !bind_ok, EM, bind_ok.
  pose proof (last_key_spec inSk ss outSk os Hhold Hout) as Hk. replace (length outPk) with (length outSk) by lia.
  apply returns_inv in Hk as (sk & Ek & Hsk). destruct (for_ (length inSk) _ 0 sc_0) as [s0|]; [|discriminate Ek].
  rewrite bind_ok in Ek. rewrite bind_ok, Ek, bind_ok.
  eapply returns_mono.
  { apply (MLSAG_complete ndebug ndebug' msg (length inSk + 1) _ index (length inSk) (full_column (pedersens os ws) (smul fee Hpt) col)
      ((o_key <$> ss) ++ [(sum_Z (o_mask <$> ss) - sum_Z os) mod l])); [|lia|by rewrite length_fmap|lia|by rewrite list_lookup_fmap, Hcol| | |done].
    - apply full_points_matrix; [done|apply pedersens_curve|done].
    - apply Forall2_app; [by apply holds_dest|by constructor].
    - apply Forall2_app; [by apply owns_dest|]. constructor; [by apply last_point_owned|constructor]. }
  intros [g' [sig c]] (Hg' & -> & Hv). split_and!; [done|done|]. cbn [negb]. rewrite bind_ok. cbv zeta.
  replace (length (ctkeys r0)) with (length inSk) by (unfold ctkeys; by rewrite length_fmap). rewrite R.
  replace (1 <=? length inSk)%nat with true by (symmetry; by apply Nat.leb_le). cbn [negb andb]. by rewrite bind_ok.
Qed.

(** ** The outputs *)

(** A masked amount and mask are read with the key [t.2]. *)
Definition reads (e : rct.ecdhTuple) (t : list Z * Z * list Z) : Prop :=
  rct.ecdhDecode e t.2 = Ok (rct.EcdhTuple t.1.1 (le_bytes 32 t.1.2) rct.zero).

Section Outputs.
Context (PROVE : Z -> rct.key -> rng -> result (rng * Bulletproof)) (ndebug : bool) (b : list Z).
Context (dests : list (list Z)) (amounts : list Z) (akeys : list (list Z)).
Hypothesis Hb : length b = 64%nat.
Hypothesis Hamounts : Forall (fun v => 0 <= v < 2 ^ 64) amounts.

(** The first [k] outputs, with the masks [os]. *)
Definition outputs_done (k : nat) (os : list Z) (o : outputs) : Prop :=
  initialised (o_rng o) /\ length os = k /\ Forall2 scalar (o_masks o) os /\
  o_outPk o = zip_with rct.Ctkey (take k dests) (encode <$> pedersens os (take k amounts)) /\
  Forall2 reads (o_ecdh o) (zip (zip (o_masks o) (take k amounts)) (take k akeys)) /\
  o_bulletproofs o = [] /\ Forall2 (fun p r => verRange (rct.mask p) r = Ok true) (o_outPk o) (o_rangeSigs o).

Lemma gen_output_spec k os o :
  (k < length dests)%nat -> (k < length amounts)%nat -> (k < length akeys)%nat -> outputs_done k os o ->
  returns (gen_output PROVE ndebug false b dests amounts akeys k o) (fun o => exists os, outputs_done (S k) os o).
Proof using All.
  intros Kd Ka Kk (Hg & Lo & Hm & Eo & He & Ebp & Hr).
  destruct (lookup_lt_is_Some_2 dests k Kd) as [d Gd]. destruct (lookup_lt_is_Some_2 amounts k Ka) as [v Gv].
  destruct (lookup_lt_is_Some_2 akeys k Kk) as [key Gk]. pose proof (Forall_lookup_1 _ _ _ _ Hamounts Gv) as Hv. cbv beta in Hv.
  pose proof (Forall2_length Hm) as Lm.
  unfold gen_output. rewrite (get_ok _ _ _ Gd), bind_ok, (get_ok _ _ _ Gv), bind_ok.
  rewrite bind_assoc. eapply returns_bind; [by apply proveRange_spec|]. intros [g' [[C mask] r]] (Hg' & a & Ha & EC & Hver). cbv beta iota.
  specialize (Hver C ltac:(rewrite EC; apply encode_bytes)). rewrite bool_decide_eq_true_2 in Hver by done.
  rewrite bind_ok, d2h_spec, bind_ok, (get_ok _ _ _ Gk), bind_ok by done.
  destruct (ecdh_roundtrip_spec mask (le_bytes 32 v) rct.zero key a v Ha (amount_scalar v Hv)) as (e & Ee & De).
  rewrite Ee, bind_ok. cbn [returns]. exists (os ++ [a]). unfold outputs_done. cbn [o_rng o_masks o_outPk o_ecdh o_rangeSigs o_bulletproofs].
  rewrite (take_S_r _ _ _ Gd), (take_S_r _ _ _ Gv), (take_S_r _ _ _ Gk).
  split_and!; [done|rewrite length_app; simpl; lia|apply Forall2_app; [done|by constructor]| | |done|].
  - unfold pedersens. rewrite zip_with_app by (rewrite length_take; lia). rewrite fmap_app.
    rewrite zip_with_app by (rewrite length_fmap, length_zip_with, !length_take; lia). unfold pedersens in Eo. rewrite <- Eo. cbn [zip_with fmap list_fmap]. by rewrite EC.
  - rewrite zip_with_app by (rewrite length_take; lia). rewrite zip_with_app by (rewrite length_zip_with, !length_take; lia).
    apply Forall2_app; [done|]. constructor; [exact De|constructor].
  - apply Forall2_app; [done|]. by constructor.
Qed.

Lemma gen_outputs_spec g :
  initialised g -> (length dests <= length amounts)%nat -> length akeys = length dests ->
  returns (for_ (length dests) (gen_output PROVE ndebug false b dests amounts akeys) 0 (Outputs g [] [] [] [] []))
    (fun o => exists os, outputs_done (length dests) os o).
Proof using All.
  intros Hg La Lk. apply (for_inv _ _ 0 _ (fun k o => exists os, outputs_done k os o)).
  - exists []. unfold outputs_done. cbn [o_rng o_masks o_outPk o_ecdh o_rangeSigs o_bulletproofs]. split_and!; (done || constructor).
  - intros k o Hk [os Ho]. apply (gen_output_spec k os); (done || lia).
Qed.
End Outputs.

(** ** What is signed *)
Lemma get_pre_mlsag_hash_returns rv :
  is_full (type rv) || is_simple (type rv) = true -> 0 <= txnFee rv < 2 ^ 64 -> length (outPk rv) = length (ecdhInfo rv) ->
  exists h, get_pre_mlsag_hash rv = Ok h.
Proof.
  intros Ht Hf L. unfold get_pre_mlsag_hash, serialize_rctsig_base.
  assert ((type rv =? RCTTypeNull) = false) as ->.
  { destruct (Z.eqb_spec (type rv) RCTTypeNull) as [E|]; [|done]. rewrite E in Ht. discriminate Ht. }
  rewrite Ht, L, !Nat.eqb_refl. cbn [negb orb andb]. rewrite andb_false_r.
  assert (0 <= txnFee rv < 128 ^ Z.of_nat VARINT_SIZE) as Hb by (change (128 ^ Z.of_nat VARINT_SIZE) with (128 ^ 10); lia).
  pose proof (write_varint_spec 9 (txnFee rv) Hb) as (s & Es & _)%returns_inv. change (S 9) with VARINT_SIZE in Es. rewrite Es, !bind_ok.
  rewrite cn_fast_hash_spec, bind_ok, cn_fast_hash_keyV_spec, bind_ok, cn_fast_hash_keyV_spec. by eexists.
Qed.

(** ** Checks and decoding *)
Lemma run_all_true n f : (forall i, (i < n)%nat -> f i = Ok true) -> run_all n f = Ok (replicate n true).
Proof.
  intros Hf. assert (returns (run_all n f) (fun r => r = replicate n true)) as (r & -> & ->)%returns_inv; [|done].
  apply (for_inv n _ 0 [] (fun k r => r = replicate k true)); [done|]. intros k r Hk ->. rewrite Hf by lia. cbn [task]. rewrite bind_ok. cbn [returns].
  by rewrite <- replicate_S_end.
Qed.

Lemma all_true n : forallb id (replicate n true) = true.
Proof. induction n as [|n IH]; [done|]. exact IH. Qed.

Lemma decode_output_spec rv key i m0 e o v mask a :
  length (outPk rv) = length (ecdhInfo rv) -> ecdhInfo rv !! i = Some e -> reads e (mask, v, key) -> 0 <= v < 2 ^ 64 -> scalar mask a ->
  outPk rv !! i = Some o -> rct.mask o = encode (pedersen a v) -> decode_output rv true key i m0 = Ok (v, mask).
Proof.
  intros L He Hr Hv Ha Ho Em. unfold decode_output. cbn [negb]. apply lookup_lt_Some in He as Hi.
  replace (i <? length (ecdhInfo rv))%nat with true by (symmetry; by apply Nat.ltb_lt). rewrite L, Nat.eqb_refl. cbn [check_throw]. rewrite !bind_ok.
  unfold reads in Hr. cbn [fst snd] in Hr. pose proof (addKeys2_spec mask a (le_bytes 32 v) v Hpt Ha (amount_scalar v Hv) Hpt_on_curve) as EC. rewrite encode_Hpt in EC.
  rewrite (get_ok _ _ _ He), bind_ok, Hr, bind_ok, (get_ok _ _ _ Ho), bind_ok. cbn [rct.ecdh_mask rct.ecdh_amount]. rewrite EC, bind_ok.
  assert (rct.mask o = encode (padd (smul v Hpt) (smul a B))) as -> by (rewrite Em; unfold pedersen; by rewrite padd_comm).
  rewrite equalKeys_spec, bind_ok by apply encode_bytes. rewrite bool_decide_eq_true_2 by done. cbn [check_throw]. rewrite bind_ok.
  rewrite h2d_spec, bind_ok; [|apply le_bytes_bytes|rewrite le_bytes_length; lia]. do 2 f_equal.
  change (take 8 (le_bytes 32 v)) with (le_bytes 8 v). rewrite le_val_bytes. by apply Z.mod_small.
Qed.

(** Sums of the commitments of a list of keys. *)
Lemma sums_equal_spec ndebug rv os ws ps us :
  rct.mask <$> outPk rv = encode <$> pedersens os ws -> length os = length ws ->
  pseudoOuts rv = encode <$> pedersens ps us -> length ps = length us -> 0 <= txnFee rv < 2 ^ 64 ->
  sum_Z ps mod l = sum_Z os mod l -> sum_Z us = sum_Z ws + txnFee rv -> sums_equal ndebug rv = Ok true.
Proof.
  intros EO Lo EP Lp Hf Em Ev. pose proof pzero_on_curve as H0. unfold sums_equal. rewrite <- encode_pzero.
  rewrite (sum_loop rct.mask _ (pedersens os ws)), bind_ok by (done || apply pedersens_curve). rewrite amount_step by done.
  rewrite addKeys_spec, bind_ok; [|curve_base|apply sum_fold_curve; [apply padd_on_curve|done|apply pedersens_curve]].
  rewrite EP. rewrite (sum_loop id _ (pedersens ps us)), bind_ok; [|by rewrite list_fmap_id|done|apply pedersens_curve].
  rewrite equalKeys_spec by apply encode_bytes. f_equal. apply bool_decide_eq_true_2.
  rewrite (fold_pedersen ps us 0 0 pzero Lp (symmetry pedersen_0)), (fold_pedersen os ws 0 0 pzero Lo (symmetry pedersen_0)).
  rewrite <- pedersen_mask_0, pedersen_add, !Z.add_0_l, <- (pedersen_mod (sum_Z ps)), Em, pedersen_mod, Ev. by rewrite (Z.add_comm (txnFee rv)).
Qed.

Lemma set_masks_lookup n outSk masks i m :
  length masks = n -> masks !! i = Some m -> exists sk, set_masks (resize_ctkeys n outSk) masks !! i = Some sk /\ rct.mask sk = m.
Proof.
  intros L Hm. apply lookup_lt_Some in Hm as Hi.
  destruct (lookup_lt_is_Some_2 (resize_ctkeys n outSk) i) as [o Ho].
  { unfold resize_ctkeys. rewrite length_app, length_take, length_replicate. lia. }
  exists (rct.Ctkey (rct.dest o) m). split; [|done]. unfold set_masks. by rewrite lookup_zip_with, Ho, Hm.
Qed.

Lemma set_masks_scalars n outSk masks os :
  length masks = n -> Forall2 scalar masks os -> Forall2 (fun k v => scalar (rct.mask k) v) (set_masks (resize_ctkeys n outSk) masks) os.
Proof.
  intros L Hm. pose proof (Forall2_length Hm) as Lo. apply Forall2_same_length_lookup_2.
  - unfold set_masks, resize_ctkeys. rewrite length_zip_with, length_app, length_take, length_replicate. lia.
  - intros i sk v Hsk Hv. destruct (Forall2_lookup_r _ _ _ _ _ Hm Hv) as (m & Gm & Sm).
    destruct (set_masks_lookup n outSk masks i m L Gm) as (sk' & Hsk' & E). rewrite Hsk in Hsk'. injection Hsk' as <-. by rewrite E.
Qed.

(** ** Simple transactions *)
Record input := Input { i_ring : list (pt * pt); i_index : nat; i_open : opening }.

(** The signer owns a member of a ring of at least two. *)
Definition input_ok (i : input) : Prop :=
  Forall pair_ok (i_ring i) /\ (2 <= length (i_ring i))%nat /\ (exists mem, i_ring i !! i_index i = Some mem /\ owns mem (i_open i)) /\
  0 <= o_amount (i_open i) < 2 ^ 64.

Definition rings (ins : list input) : list (list rct.ctkey) := (fun i => ctkeys (i_ring i)) <$> ins.
Definition input_amounts (ins : list input) : list Z := (fun i => o_amount (i_open i)) <$> ins.

Section Pseudo.
Context (ndebug : bool) (vs : list Z).
Hypothesis Hvs : Forall (fun v => 0 <= v < 2 ^ 64) vs.

(** The commitments of the first [k] inputs. *)
Definition pseudo_done (k : nat) (st : rng * list (list Z) * list Z * list (list Z)) : Prop :=
  let '(g, a, sum, pseudo) := st in
  initialised g /\ exists ps, length ps = k /\ Forall2 scalar a ps /\ scalar sum (sum_Z ps mod l) /\ pseudo = encode <$> pedersens ps (take k vs).

Lemma gen_pseudo_spec k st : (k < length vs)%nat -> pseudo_done k st -> returns (gen_pseudo ndebug vs k st) (pseudo_done (S k)).
Proof using All.
  destruct st as [[[g a] sum] pseudo]. intros Hk (Hg & ps & Lp & Ha & Hs & ->).
  destruct (lookup_lt_is_Some_2 vs k Hk) as [v Gv]. pose proof (Forall_lookup_1 _ _ _ _ Hvs Gv) as Hv. cbv beta in Hv.
  unfold gen_pseudo. eapply returns_bind; [by apply skGen_spec|]. intros [g' ai] [Hg' [p Hp]]. cbv beta iota.
  rewrite (sc_add_scalar _ _ _ _ Hp Hs), bind_ok, (get_ok _ _ _ Gv), bind_ok, (genC_spec _ _ _ _ Hp Hv), bind_ok. cbn [returns].
  split; [done|]. exists (ps ++ [p]). rewrite length_app. split_and!; [simpl; lia|apply Forall2_app; [done|by constructor]| |].
  - rewrite Zplus_mod_idemp_r, sum_Z_snoc, Z.add_comm. apply scalar_mod.
  - rewrite (take_S_r _ _ _ Gv). unfold pedersens. rewrite zip_with_app by (rewrite length_take; lia). by rewrite fmap_app.
Qed.

(** The masks of all inputs add up to those of the outputs. *)
Lemma gen_pseudos_spec g sumout so :
  initialised g -> (1 <= length vs)%nat -> scalar sumout (so mod l) ->
  returns (let! (g, a, sumpouts, pseudo) := for_ (length vs - 1) (gen_pseudo ndebug vs) 0 (g, [], rct.zero, []) in
           let! last := sc_sub sumout sumpouts in
           let! amount := get vs (length vs - 1) in
           let! C := rct.genC ndebug last amount in
           Ok (g, a ++ [last], pseudo ++ [C])) (fun '(g, a, pseudo) =>
    initialised g /\ exists ps, length ps = length vs /\ Forall2 scalar a ps /\ sum_Z ps mod l = so mod l /\ pseudo = encode <$> pedersens ps vs).
Proof using All.
  intros Hg Hn Hso. eapply returns_bind.
  { apply (for_inv _ _ 0 _ pseudo_done).
    - split; [done|]. exists []. split_and!; (done || constructor).
    - intros k st Hk. apply gen_pseudo_spec. lia. }
  intros [[[g' a] sum] pseudo] (Hg' & ps & Lp & Ha & Hs & ->). cbv beta iota. rewrite Nat.add_0_l in *.
  destruct (lookup_lt_is_Some_2 vs (length vs - 1)) as [v Gv]; [lia|]. pose proof (Forall_lookup_1 _ _ _ _ Hvs Gv) as Hv. cbv beta in Hv.
  rewrite (sc_sub_scalar _ _ _ _ Hso Hs), bind_ok, (get_ok _ _ _ Gv), bind_ok. rewrite <- Zminus_mod.
  rewrite (genC_spec _ _ _ _ (scalar_mod _) Hv), bind_ok. cbn [returns]. split; [done|].
  exists (ps ++ [(so - sum_Z ps) mod l]). rewrite length_app. split_and!; [simpl; lia|apply Forall2_app; [done|by constructor; [apply scalar_mod|]]| |].
  - rewrite sum_Z_snoc, Zplus_mod_idemp_r. by replace (sum_Z ps + (so - sum_Z ps)) with so by lia.
  - assert (vs = take (length vs - 1) vs ++ [v]) as Evs.
    { rewrite <- (take_S_r _ _ _ Gv). replace (S (length vs - 1)) with (length vs) by lia. by rewrite firstn_all. }
    transitivity (encode <$> pedersens (ps ++ [(so - sum_Z ps) mod l]) (take (length vs - 1) vs ++ [v])); [|by rewrite <- Evs].
    unfold pedersens. rewrite zip_with_app by (rewrite length_take; lia). by rewrite fmap_app.
Qed.
End Pseudo.

(** The signatures of the inputs. *)
Section Inputs.
Context (ndebug ndebug' : bool) (m : list Z) (ins : list input) (inSk : list rct.ctkey) (a : list (list Z)) (ps : list Z).
Hypothesis Hins : Forall input_ok ins.
Hypothesis Hsk : Forall2 holds inSk (i_open <$> ins).
Hypothesis Ha : Forall2 scalar a ps.
Hypothesis Lps : length ps = length ins.

Definition pseudos : list (list Z) := encode <$> pedersens ps (input_amounts ins).

Definition signed (k : nat) (st : rng * list mgSig * list (option (list Z))) : Prop :=
  let '(g, mgs, cs) := st in
  initialised g /\ length mgs = k /\ forall i mg ring C, mgs !! i = Some mg -> rings ins !! i = Some ring -> pseudos !! i = Some C ->
    verRctMGSimple ndebug' m mg ring C = Ok true.

Lemma gen_mg_spec k st :
  (k < length ins)%nat -> signed k st ->
  returns (gen_mg ndebug m (rings ins) inSk a pseudos None false (i_index <$> ins) k st) (signed (S k)).
Proof using All.
  destruct st as [[g mgs] cs]. intros Hk (Hg & Lm & Hver). destruct (lookup_lt_is_Some_2 ins k Hk) as [i Gi].
  destruct (Forall_lookup_1 _ _ _ _ Hins Gi) as (Hr & Lr & (mem & Gm & Ho) & Hv).
  destruct (lookup_lt_is_Some_2 ps k) as [p Gp]; [lia|]. destruct (Forall2_lookup_r _ _ _ _ _ Ha Gp) as (ak & Gak & Sak).
  destruct (Forall2_lookup_r _ _ _ k (i_open i) Hsk) as (sk & Gsk & Hhold); [by rewrite list_lookup_fmap, Gi|].
  assert (rings ins !! k = Some (ctkeys (i_ring i))) as Gr by (unfold rings; by rewrite list_lookup_fmap, Gi).
  assert (pseudos !! k = Some (encode (pedersen p (o_amount (i_open i))))) as Gc.
  { unfold pseudos, pedersens, input_amounts. by rewrite list_lookup_fmap, lookup_zip_with, Gp, list_lookup_fmap, Gi. }
  unfold gen_mg. rewrite (get_ok _ _ _ Gr), bind_ok, (get_ok _ _ _ Gsk), bind_ok, (get_ok _ _ _ Gak), bind_ok, (get_ok _ _ _ Gc), bind_ok, bind_ok.
  rewrite (get_ok _ _ (i_index i)), bind_ok by (by rewrite list_lookup_fmap, Gi).
  eapply returns_bind; [by apply (proveRctMGSimple_spec ndebug ndebug' m (i_ring i) mem sk (i_open i) ak p)|].
  intros [g' [mg c]] (Hg' & -> & Hv'). cbn [returns]. split_and!; [done|rewrite length_app; simpl; lia|].
  intros j mg' ring C Gmg Gring GC. destruct (decide (j < k)%nat) as [Hj|Hj].
  - rewrite lookup_app_l in Gmg by lia. by apply (Hver j).
  - apply lookup_lt_Some in Gmg as Hlt. rewrite length_app in Hlt. simpl in Hlt. assert (j = k) as -> by lia.
    rewrite lookup_app_r, Lm, Nat.sub_diag in Gmg by lia. by simplify_eq/=.
Qed.
End Inputs.

(** *** Both checks *)
Lemma range_proofs_ok VERIFY rv :
  Forall2 (fun p r => verRange (rct.mask p) r = Ok true) (outPk rv) (rangeSigs rv) ->
  run_all (length (outPk rv)) (verify_output VERIFY rv) = Ok (replicate (length (outPk rv)) true).
Proof.
  intros Hr. apply run_all_true. intros i Hi. destruct (lookup_lt_is_Some_2 (outPk rv) i Hi) as [p Gp].
  destruct (Forall2_lookup_l _ _ _ _ _ Hr Gp) as (r & Gr & Hv). unfold verify_output. destruct (rangeSigs rv) as [|r0 rs] eqn:E; [done|].
  by rewrite (get_ok _ _ _ Gp), bind_ok, (get_ok _ _ _ Gr), bind_ok.
Qed.

Lemma proof_sizes_ok_spec rv t :
  type rv <> t -> length (outPk rv) = length (ecdhInfo rv) -> Forall2 (fun p r => verRange (rct.mask p) r = Ok true) (outPk rv) (rangeSigs rv) ->
  proof_sizes_ok rv t = true.
Proof.
  intros Ht L Hr. unfold proof_sizes_ok. rewrite (proj2 (Z.eqb_neq _ _) Ht). rewrite <- (Forall2_length Hr), L, !Nat.eqb_refl. done.
Qed.

Lemma verRctSimple_semantics VERIFY ndebug rv os ws ps us :
  type rv = RCTTypeSimple -> length (outPk rv) = length (ecdhInfo rv) -> length (pseudoOuts rv) = length (MGs rv) ->
  Forall2 (fun p r => verRange (rct.mask p) r = Ok true) (outPk rv) (rangeSigs rv) ->
  rct.mask <$> outPk rv = encode <$> pedersens os ws -> length os = length ws ->
  pseudoOuts rv = encode <$> pedersens ps us -> length ps = length us -> 0 <= txnFee rv < 2 ^ 64 ->
  sum_Z ps mod l = sum_Z os mod l -> sum_Z us = sum_Z ws + txnFee rv -> verRctSimple VERIFY ndebug rv true = Ok true.
Proof.
  intros Ht Le Lm Hr EO Lo EP Lp Hf Em Ev. unfold verRctSimple.
  rewrite proof_sizes_ok_spec by (done || by rewrite Ht). rewrite Ht, Lm, Nat.eqb_refl. cbn [is_simple negb andb orb].
  rewrite (sums_equal_spec ndebug rv os ws ps us), bind_ok by done. cbn [negb].
  by rewrite range_proofs_ok, bind_ok, all_true by done.
Qed.

Lemma verRctSimple_rings VERIFY ndebug rv m :
  type rv = RCTTypeSimple -> length (pseudoOuts rv) = length (mixRing rv) -> length (MGs rv) = length (mixRing rv) -> get_pre_mlsag_hash rv = Ok m ->
  (forall i mg ring C, MGs rv !! i = Some mg -> mixRing rv !! i = Some ring -> pseudoOuts rv !! i = Some C -> verRctMGSimple ndebug m mg ring C = Ok true) ->
  verRctSimple VERIFY ndebug rv false = Ok true.
Proof.
  intros Ht Lp Lm Hm Hv. unfold verRctSimple. rewrite Ht, Lp, Nat.eqb_refl. cbn [is_simple negb andb orb]. rewrite Hm, bind_ok.
  rewrite run_all_true, bind_ok, all_true; [done|]. intros i Hi. destruct (lookup_lt_is_Some_2 (MGs rv) i) as [mg Gm]; [lia|].
  destruct (lookup_lt_is_Some_2 (mixRing rv) i) as [ring Gr]; [lia|]. destruct (lookup_lt_is_Some_2 (pseudoOuts rv) i) as [C Gc]; [lia|].
  rewrite (get_ok _ _ _ Gm), bind_ok, (get_ok _ _ _ Gr), bind_ok, (get_ok _ _ _ Gc), bind_ok. by apply (Hv i).
Qed.

(** *** What the outputs are *)
Lemma outputs_facts dests amounts akeys os o :
  outputs_done dests amounts akeys (length dests) os o -> (length dests <= length amounts)%nat -> length akeys = length dests ->
  length (o_masks o) = length dests /\ length (o_outPk o) = length dests /\ length (o_ecdh o) = length dests /\
  rct.mask <$> o_outPk o = encode <$> pedersens os (take (length dests) amounts).
Proof.
  intros (_ & Lo & Hm & Eo & He & _ & _) La Lk. pose proof (Forall2_length Hm) as Lm. pose proof (Forall2_length He) as Le.
  rewrite !length_zip_with, !length_take in Le. rewrite Eo. split_and!; [lia| |lia|].
  - unfold pedersens. rewrite length_zip_with, length_fmap, length_zip_with, !length_take. lia.
  - rewrite fmap_zip_with_r; [done|done|]. unfold pedersens. rewrite length_fmap, length_zip_with, !length_take. lia.
Qed.

Lemma outputs_decode dests amounts akeys os o rv outSk i v key m0 :
  outputs_done dests amounts akeys (length dests) os o -> (length dests <= length amounts)%nat -> length akeys = length dests ->
  Forall (fun v => 0 <= v < 2 ^ 64) amounts -> ecdhInfo rv = o_ecdh o -> outPk rv = o_outPk o -> amounts !! i = Some v -> akeys !! i = Some key ->
  exists sk, set_masks (resize_ctkeys (length dests) outSk) (o_masks o) !! i = Some sk /\ decode_output rv true key i m0 = Ok (v, rct.mask sk).
Proof.
  intros Hd La Lk Hr Ee Ep Gv Gk. destruct (outputs_facts _ _ _ _ _ Hd La Lk) as (Lm & Lp & Le & EO).
  destruct Hd as (_ & Lo & Hm & Eo & He & _ & _). apply lookup_lt_Some in Gk as Hi. rewrite Lk in Hi.
  destruct (lookup_lt_is_Some_2 (o_masks o) i) as [mask Gm]; [lia|]. destruct (Forall2_lookup_l _ _ _ _ _ Hm Gm) as (a & Ga & Sa).
  destruct (lookup_lt_is_Some_2 (o_ecdh o) i) as [e Ge]; [lia|]. destruct (lookup_lt_is_Some_2 (o_outPk o) i) as [p Gp]; [lia|].
  assert (take (length dests) amounts !! i = Some v) as Gv' by (by rewrite lookup_take_lt).
  assert (reads e (mask, v, key)) as Hread.
  { destruct (Forall2_lookup_l _ _ _ _ _ He Ge) as (t & Gt & Ht). rewrite !lookup_zip_with, Gm, Gv' in Gt. cbn in Gt.
    rewrite lookup_take_lt, Gk in Gt by done. by injection Gt as <-. }
  assert (rct.mask p = encode (pedersen a v)) as Emask.
  { assert ((rct.mask <$> o_outPk o) !! i = Some (rct.mask p)) as Hp by (by rewrite list_lookup_fmap, Gp).
    rewrite EO in Hp. unfold pedersens in Hp. rewrite list_lookup_fmap, lookup_zip_with, Ga, Gv' in Hp. by injection Hp. }
  destruct (set_masks_lookup (length dests) outSk _ i mask Lm Gm) as (sk & Gsk & <-). exists sk. split; [done|].
  apply (decode_output_spec rv key i m0 e p v (rct.mask sk) a); [congruence|congruence|done| |done|congruence|done].
  exact (Forall_lookup_1 _ _ _ _ Hr Gv).
Qed.

(** The fee is the amount after those of the outputs, if there is one. *)
Definition fee_of (n : nat) (amounts : list Z) : Z := default 0 (amounts !! n).

Lemma fee_spec n amounts :
  Forall (fun v => 0 <= v < 2 ^ 64) amounts ->
  (if (n <? length amounts)%nat then get amounts n else Ok 0) = Ok (fee_of n amounts) /\ 0 <= fee_of n amounts < 2 ^ 64.
Proof.
  intros Hv. unfold fee_of. destruct (Nat.ltb_spec n (length amounts)) as [Hl|Hl].
  - destruct (lookup_lt_is_Some_2 amounts n Hl) as [f Gf]. rewrite (get_ok _ _ _ Gf), Gf. split; [done|].
    exact (Forall_lookup_1 _ _ _ _ Hv Gf).
  - rewrite lookup_ge_None_2 by done. split; [done|simpl; lia].
Qed.

Lemma fee_sum n amounts :
  length amounts = n \/ length amounts = S n -> sum_Z amounts = sum_Z (take n amounts) + fee_of n amounts.
Proof.
  intros [L|L]; unfold fee_of.
  - rewrite take_ge, lookup_ge_None_2 by lia. simpl. lia.
  - destruct (lookup_lt_is_Some_2 amounts n) as [f Gf]; [lia|]. rewrite Gf. change (default 0 (Some f)) with f. rewrite <- sum_Z_snoc, <- (take_S_r _ _ _ Gf).
    by rewrite take_ge by lia.
Qed.

(** *** Whole transactions *)
Section Accepted.
Context (PROVE : Z -> rct.key -> rng -> result (rng * Bulletproof)) (VERIFY : Bulletproof -> result bool) (ndebug ndebug' : bool).
Context (b msg : list Z) (dests : list (list Z)) (akeys : list (list Z)) (outSk : list rct.ctkey) (g : rng).
Hypothesis Hg : initialised g.
Hypothesis Hb : length b = 64%nat.
Hypothesis Lk : length akeys = length dests.

(** Every receiver reads the amount and the mask of an output. *)
Definition decoded (decode : rctSig -> list Z -> nat -> list Z -> result (Z * list Z)) (amounts : list Z) (rv : rctSig) (outSk : list rct.ctkey) : Prop :=
  forall i v key m0, amounts !! i = Some v -> akeys !! i = Some key ->
    exists sk, outSk !! i = Some sk /\ decode rv key i m0 = Ok (v, rct.mask sk).

Lemma sumout_spec masks os n :
  Forall2 scalar masks os -> length masks = n ->
  returns (for_ n (fun i s => let! m := get masks i in sc_add m s) 0 rct.zero) (fun s => scalar s (sum_Z os mod l)).
Proof using Type.
  intros Hm <-. rewrite <- (Z.add_0_l (sum_Z os)), <- foldl_add_sum.
  apply (scalar_loop (fun s m => sc_add m s) Z.add id masks os rct.zero 0).
  - intros x y vx vy Hx Hy. by rewrite (sc_add_scalar _ _ _ _ Hy Hx), Z.add_comm.
  - intros x y. apply Zplus_mod_idemp_l.
  - exact Hm.
  - split; [by vm_compute|by vm_compute].
Qed.

(** The transaction before its signatures. *)
Definition simple_sig (ins : list input) (fee : Z) (ps : list Z) (o : outputs) : list mgSig -> rctSig :=
  RctSig RCTTypeSimple msg (rings ins) (pseudos ins ps) (o_ecdh o) (o_outPk o) fee (o_rangeSigs o) (o_bulletproofs o).

(** The parts of a made transaction that its balance is about: the keys are strings of 32 bytes. *)
Definition key_string (k : rct.key) : Prop := bytes k /\ length k = 32%nat.

Definition simple_shape (amounts : list Z) (fee : Z) (rv : rctSig) : Prop :=
  type rv = RCTTypeSimple /\ txnFee rv = fee /\ length (outPk rv) = length amounts /\
  Forall key_string (rct.mask <$> outPk rv) /\ Forall key_string (pseudoOuts rv).

Lemma encoded_strings Ps : Forall key_string (encode <$> Ps).
Proof using Type. apply Forall_fmap, Forall_true. intros P. apply encode_bytes. Qed.

(** The signatures of the inputs complete it. *)
Lemma simple_signed ins inSk amounts fee o os ps a g1 :
  Forall input_ok ins -> Forall2 holds inSk (i_open <$> ins) -> length amounts = length dests ->
  Forall (fun v => 0 <= v < 2 ^ 64) amounts -> 0 <= fee < 2 ^ 64 -> sum_Z (input_amounts ins) = sum_Z amounts + fee ->
  outputs_done dests amounts akeys (length dests) os o -> length ps = length ins -> Forall2 scalar a ps ->
  sum_Z ps mod l = sum_Z os mod l -> initialised g1 ->
  returns (let! m := get_pre_mlsag_hash (simple_sig ins fee ps o []) in
           let! (g, mgs, cs) := for_ (length ins) (gen_mg ndebug m (rings ins) inSk a (pseudos ins ps) None false (i_index <$> ins)) 0 (g1, [], []) in
           Ok (g, (simple_sig ins fee ps o mgs, set_masks (resize_ctkeys (length dests) outSk) (o_masks o), @None (list (list Z)))))
    (fun '(g', (rv, outSk', c)) => initialised g' /\ c = None /\ verRctSimple VERIFY ndebug' rv true = Ok true /\
      verRctSimple VERIFY ndebug' rv false = Ok true /\ decoded decodeRctSimple amounts rv outSk' /\ simple_shape amounts fee rv).
Proof using All.
  intros Hins Hsk La Hv Hf Esum Ho Lps Ha Emask Hg1. destruct (outputs_facts _ _ _ _ _ Ho ltac:(lia) Lk) as (Lm & Lp & Le & EO).
  rewrite (take_ge amounts) in EO by lia. pose proof Ho as (_ & Los & _ & _ & _ & _ & Hr).
  assert (length (input_amounts ins) = length ins) as Lin by (unfold input_amounts; by rewrite length_fmap).
  assert (length (pseudos ins ps) = length ins) as LP by (unfold pseudos, pedersens; rewrite length_fmap, length_zip_with; lia).
  destruct (get_pre_mlsag_hash_returns (simple_sig ins fee ps o []) eq_refl Hf ltac:(simpl; congruence)) as [m Em]. rewrite Em, bind_ok.
  eapply returns_bind.
  { apply (for_inv _ _ 0 _ (signed ndebug' m ins ps)).
    - split_and!; done.
    - intros k st Hk. apply gen_mg_spec; (done || lia). }
  intros [[g' mgs] cs] (Hg' & Lmgs & Hver). cbn [returns]. split; [done|]. split; [done|]. split; [|split; [|split]].
  - apply (verRctSimple_semantics VERIFY ndebug' _ os amounts ps (input_amounts ins)); cbn [simple_sig type outPk ecdhInfo pseudoOuts MGs rangeSigs txnFee];
      (done || congruence || lia).
  - apply (verRctSimple_rings VERIFY ndebug' _ m); cbn [simple_sig type pseudoOuts MGs mixRing]; unfold rings; rewrite ?length_fmap; (done || lia).
  - intros i v key m0 Gv Gk. by apply (outputs_decode dests amounts akeys os o); (done || lia).
  - unfold simple_shape. cbn [simple_sig type outPk pseudoOuts txnFee]. rewrite EO. unfold pseudos.
    split_and!; [done|done|congruence|apply encoded_strings..].
Qed.

Lemma genRctSimple_spec ins inSk amounts fee :
  ins <> [] -> Forall input_ok ins -> Forall2 holds inSk (i_open <$> ins) -> length amounts = length dests ->
  Forall (fun v => 0 <= v < 2 ^ 64) amounts -> 0 <= fee < 2 ^ 64 -> sum_Z (input_amounts ins) = sum_Z amounts + fee ->
  returns (genRctSimple PROVE ndebug b msg inSk dests (input_amounts ins) amounts fee (rings ins) akeys None false (i_index <$> ins) outSk false g)
    (fun '(g', (rv, outSk', c)) => initialised g' /\ c = None /\ verRctSimple VERIFY ndebug' rv true = Ok true /\
      verRctSimple VERIFY ndebug' rv false = Ok true /\ decoded decodeRctSimple amounts rv outSk' /\ simple_shape amounts fee rv).
Proof using All.
  intros Hne Hins Hsk La Hv Hf Esum. pose proof (Forall2_length Hsk) as Lsk. rewrite length_fmap in Lsk.
  assert (0 < length ins)%nat as Hpos by (destruct ins; [done|simpl; lia]).
  assert (length (input_amounts ins) = length ins) as Lin by (unfold input_amounts; by rewrite length_fmap).
  assert (Forall (fun v => 0 <= v < 2 ^ 64) (input_amounts ins)) as Hvin.
  { apply Forall_fmap. eapply Forall_impl; [|exact Hins]. by intros i (_ & _ & _ & H). }
  assert (forallb (fun '(i, ring) => (i <? length ring)%nat) (zip (i_index <$> ins) (rings ins)) = true) as Hidx.
  { clear -Hins. induction Hins as [|i ins (_ & _ & (mem & Gm & _) & _) _ IH]; [done|]. unfold rings. cbn [fmap list_fmap zip_with forallb].
    apply andb_true_intro. split; [|exact IH]. apply Nat.ltb_lt. unfold ctkeys. rewrite length_fmap. by eapply lookup_lt_Some. }
  unfold genRctSimple. cbv zeta. rewrite Lin, La, Lk, <- Lsk, Hidx. unfold rings at 1. rewrite !length_fmap, <- Lsk, !Nat.eqb_refl.
  replace (0 <? length inSk)%nat with true by (symmetry; apply Nat.ltb_lt; lia). cbn [check_throw negb andb orb]. rewrite !bind_ok.
  eapply returns_bind; [apply gen_outputs_spec; (done || lia)|]. intros o [os Ho]. cbv beta.
  destruct (outputs_facts _ _ _ _ _ Ho ltac:(lia) Lk) as (Lm & Lp & Le & EO). rewrite (take_ge amounts) in EO by lia.
  pose proof Ho as (Hg1 & Los & Hm & _ & _ & Ebp & Hr).
  eapply returns_bind; [by apply sumout_spec|]. intros sumout Hso. cbv beta.
  pose proof (gen_pseudos_spec ndebug (input_amounts ins) Hvin (o_rng o) sumout (sum_Z os) Hg1 ltac:(lia) Hso) as Hp.
  rewrite Lin, Lsk in *. apply returns_inv in Hp as ([[g2 a] pseudo] & Ep & Hg2 & ps & Lps & Ha & Emask & ->).
  destruct (for_ (length ins - 1) _ 0 _) as [[[[g1 a1] sp] pseudo1]|]; [|discriminate Ep]. rewrite bind_ok in Ep; rewrite bind_ok.
  destruct (sc_sub sumout sp) as [last|]; [|discriminate Ep]. rewrite bind_ok in Ep; rewrite bind_ok.
  destruct (get (input_amounts ins) _) as [amount|]; [|discriminate Ep]. rewrite bind_ok in Ep; rewrite bind_ok.
  destruct (rct.genC ndebug last amount) as [C|]; [|discriminate Ep]. rewrite bind_ok in Ep; rewrite bind_ok. injection Ep as -> <- Ep. rewrite Ep.
  by apply (simple_signed ins inSk amounts fee o os ps).
Qed.

Lemma verRct_ok rv os ws m mg fee' :
  type rv = RCTTypeFull -> length (outPk rv) = length (ecdhInfo rv) -> MGs rv = [mg] -> txnFee rv = fee' -> 0 <= fee' < 2 ^ 64 ->
  Forall2 (fun p r => verRange (rct.mask p) r = Ok true) (outPk rv) (rangeSigs rv) ->
  rct.mask <$> outPk rv = encode <$> pedersens os ws -> get_pre_mlsag_hash rv = Ok m ->
  verRctMG ndebug' mg (mixRing rv) (outPk rv) (encode (smul fee' Hpt)) m = Ok true ->
  verRct VERIFY ndebug' rv true = Ok true /\ verRct VERIFY ndebug' rv false = Ok true.
Proof using Type.
  intros Ht Le EM Ef Hf Hr EO Em Hv. unfold verRct. rewrite proof_sizes_ok_spec by (done || by rewrite Ht). rewrite Ht, EM, Ef.
  cbn [is_full negb andb orb length Nat.eqb]. split.
  - by rewrite range_proofs_ok, bind_ok, all_true by done.
  - rewrite amount_step by done. rewrite (get_ok _ _ mg), bind_ok, Em, bind_ok by done. by rewrite Hv.
Qed.

Lemma genRct_spec mixRing col ss inSk amounts index :
  Forall (fun ms => Forall pair_ok ms /\ length ms = length inSk) mixRing -> (2 <= length mixRing)%nat -> (1 <= length inSk)%nat ->
  mixRing !! index = Some col -> Forall2 owns col ss -> Forall2 holds inSk ss ->
  (length amounts = length dests \/ length amounts = S (length dests)) -> Forall (fun v => 0 <= v < 2 ^ 64) amounts ->
  sum_Z (o_amount <$> ss) = sum_Z amounts ->
  returns (genRct PROVE ndebug b msg inSk dests amounts (ctkeys <$> mixRing) akeys None false index outSk false g)
    (fun '(g', (rv, outSk', c)) => initialised g' /\ c = None /\ verRct VERIFY ndebug' rv true = Ok true /\
      verRct VERIFY ndebug' rv false = Ok true /\ decoded decodeRct (take (length dests) amounts) rv outSk').
Proof using All.
  intros HR Hn Hi Hcol Hown Hhold La Hv Esum. apply lookup_lt_Some in Hcol as Hlt.
  assert (rectangular (length inSk) (ctkeys <$> mixRing) = true) as R.
  { apply rectangular_ok, Forall_fmap. eapply Forall_impl; [|exact HR]. intros ms [_ L]. unfold ctkeys. simpl. by rewrite length_fmap. }
  assert ((length amounts =? length dests)%nat || (length amounts =? length dests + 1)%nat = true) as Hla.
  { apply orb_true_iff. rewrite !Nat.eqb_eq. lia. }
  destruct (fee_spec (length dests) amounts Hv) as [Hfee Hf].
  unfold genRct. cbv zeta. rewrite Hla, Lk, R, Hfee, length_fmap, Nat.eqb_refl.
  replace (index <? length mixRing)%nat with true by (symmetry; by apply Nat.ltb_lt). cbn [check_throw negb andb orb]. rewrite !bind_ok.
  eapply returns_bind; [apply gen_outputs_spec; (done || lia)|]. intros o [os Ho]. cbv beta.
  destruct (outputs_facts _ _ _ _ _ Ho ltac:(lia) Lk) as (Lm & Lp & Le & EO). pose proof Ho as (Hg1 & Los & Hm & _ & _ & Ebp & Hr).
  rewrite bind_ok, amount_step by done. set (rv := RctSig RCTTypeFull msg _ _ _ _ _ _ _).
  destruct (get_pre_mlsag_hash_returns (rv []) eq_refl Hf ltac:(simpl; congruence)) as [m Em]. rewrite Em, bind_ok.
  eapply returns_bind.
  { apply (proveRctMG_spec ndebug ndebug' m mixRing col ss inSk _ _ os (take (length dests) amounts) (fee_of (length dests) amounts)); try done.
    - by apply set_masks_scalars.
    - rewrite length_take. lia.
    - by rewrite Esum, (fee_sum (length dests)). }
  intros [g' [mg c]] (Hg' & -> & Hmg). cbn [returns].
  destruct (verRct_ok (rv [mg]) os (take (length dests) amounts) m mg (fee_of (length dests) amounts)) as [V1 V2]; try done; [simpl; congruence|].
  split_and!; [done|done|done|done|]. intros i v key m0 Gv Gk. rewrite lookup_take_Some in Gv. destruct Gv as [Gv _].
  by apply (outputs_decode dests amounts akeys os o); (done || lia).
Qed.
End Accepted.

(** ** Multisignatures *)
Definition with_MGs (rv : rctSig) (mgs : list mgSig) : rctSig :=
  RctSig (type rv) (message rv) (mixRing rv) (pseudoOuts rv) (ecdhInfo rv) (outPk rv) (txnFee rv) (rangeSigs rv) (bulletproofs rv) mgs.

(** The other signers add their parts of the nonce and of the key, one after the other. *)
Fixpoint cosign (rv : rctSig) (index : nat) (ck : list Z) (signers : list (list Z * list Z)) : result rctSig :=
  match signers with
  | [] => Ok rv
  | (k, x) :: signers =>
      let! (ok, rv) := signMultisig rv [index] [k] [ck] x in
      if ok then cosign rv index ck signers else Fail Thrown
  end.

Definition part (s : list Z * list Z) (v : Z * Z) : Prop := scalar s.1 v.1 /\ scalar s.2 v.2.

Section Multisig.
Context (rv : rctSig) (sB sA : list (list (list Z))) (s : list (list Z)) (c0 : list Z) (I : list (list Z)) (ck : list Z) (c : Z).
Hypothesis Hfull : is_full (type rv) = true.
Hypothesis Hck : scalar ck c.

Definition with_first (t : list Z) : rctSig := with_MGs rv [MgSig (sB ++ (t :: s) :: sA) c0 I].

Lemma signMultisig_spec t v kb k xb x :
  scalar t (v mod l) -> scalar kb k -> scalar xb x ->
  exists t', signMultisig (with_first t) [length sB] [kb] [ck] xb = Ok (true, with_first t') /\ scalar t' ((v + (k - c * x)) mod l).
Proof using All.
  intros Ht Hk Hx. exists (le_bytes 32 ((v + (k - c * x)) mod l)). split; [|apply scalar_mod].
  assert ((sB ++ (t :: s) :: sA) !! length sB = Some (t :: s)) as Gl by (by rewrite lookup_app_r, Nat.sub_diag by lia).
  unfold signMultisig. cbn [with_first with_MGs type MGs length Nat.eqb]. rewrite Hfull. cbn [negb orb andb Nat.eqb]. unfold multisig_lines_ok. cbn [zip_with forallb ss].
  rewrite Gl. cbn [negb orb andb for_ get list_lookup lookup]. rewrite !bind_ok. unfold multisig_line. cbn [ss cc II].
  rewrite (sc_mulsub_scalar _ _ _ _ _ _ Hck Hx Hk), bind_ok, (get_ok _ _ _ Gl), bind_ok, (get_ok _ _ t), bind_ok by done.
  rewrite (sc_add_scalar _ _ _ _ Ht (scalar_mod _)), bind_ok, <- Zplus_mod. rewrite set_ok, bind_ok by (simpl; lia).
  rewrite (set_next sB sA), !bind_ok by done. cbn. by rewrite <- app_assoc.
Qed.

Lemma cosign_spec signers vals t v :
  Forall2 part signers vals -> scalar t (v mod l) ->
  exists t', cosign (with_first t) (length sB) ck signers = Ok (with_first t') /\
    scalar t' ((v + (sum_Z vals.*1 - c * sum_Z vals.*2)) mod l).
Proof using All.
  intros Hs. revert t v. induction Hs as [|[kb xb] [k x] signers vals [Hk Hx] _ IH]; intros t v Ht.
  - exists t. cbn [fmap list_fmap sum_Z foldr]. by replace (v + (0 - c * 0)) with v by lia.
  - destruct (signMultisig_spec t v kb k xb x Ht Hk Hx) as (t1 & E1 & H1). cbn [cosign]. rewrite E1, bind_ok.
    destruct (IH t1 (v + (k - c * x)) H1) as (t2 & E2 & H2). exists t2. split; [done|]. cbn [fmap list_fmap sum_Z foldr fst snd].
    unfold sum_Z in H2. by replace (v + (k + foldr Z.add 0 vals.*1 - c * (x + foldr Z.add 0 vals.*2)))
      with (v + (k - c * x) + (foldr Z.add 0 vals.*1 - c * foldr Z.add 0 vals.*2)) by lia.
Qed.
End Multisig.

(** The signature that all signers have added to is accepted. *)
Lemma multisig_spec ndebug ndebug' msg rows cols index mm mem col x1 X xx vs k1 K signers vals rv g :
  matrix rows cols -> (2 <= length cols)%nat -> cols !! index = Some (mem :: col) -> Forall2 scalar xx (x1 :: vs) -> owned (mem :: col) (X :: vs) ->
  scalar (ms_k mm) k1 -> ms_L mm = public K -> ms_R mm = encode (smul K mem.2) -> ms_ki mm = encode (smul X mem.2) ->
  Forall2 part signers vals -> K = k1 + sum_Z vals.*1 -> X = x1 + sum_Z vals.*2 -> is_full (type rv) = true -> initialised g ->
  returns (let! (g, (sig, co)) := MLSAG_Gen ndebug msg (keys <$> cols) xx (Some mm) true index 1 g in
           cosign (with_MGs rv [sig]) index (default [] co) signers)
    (fun rv' => exists sig, rv' = with_MGs rv [sig] /\ MLSAG_Ver ndebug' msg (keys <$> cols) sig 1 = Ok true).
Proof.
  intros Hcols Ln Hcol Hxx Ho Hk EL ER Eki Hparts EK EX Hfull Hg. apply lookup_lt_Some in Hcol as Hlt.
  destruct (Forall_lookup_1 _ _ _ _ Hcols Hcol) as [_ Lcol]. cbn [length] in Lcol.
  eapply returns_bind; [by apply (MLSAG_multisig_spec ndebug msg rows cols index Hcols ltac:(lia) Hlt ndebug' mm mem col x1 X xx vs k1 K)|].
  intros [g' [[ss0 cc0 II0] co]] (_ & ck & c & sB & s0 & s & sA & -> & Hck & Ess & <- & Hs0 & Hver). cbn [ss cc II] in *. subst ss0.
  destruct (cosign_spec rv sB sA s cc0 II0 ck c Hfull Hck signers vals s0 _ Hparts Hs0) as (t & Et & Ht).
  change (default [] (Some ck)) with ck. change (with_MGs rv [MgSig (sB ++ (s0 :: s) :: sA) cc0 II0]) with (with_first rv sB sA s cc0 II0 s0).
  rewrite Et. cbn [returns]. eexists. split; [reflexivity|]. apply Hver. subst K X.
  by replace (k1 + sum_Z vals.*1 - c * (x1 + sum_Z vals.*2)) with (k1 - c * x1 + (sum_Z vals.*1 - c * sum_Z vals.*2)) by lia.
Qed.

(** ** What an accepted transaction shows *)
Lemma run_all_inv n f rs :
  run_all n f = Ok rs -> forallb id rs = true -> forall i, (i < n)%nat -> f i = Ok true.
Proof.
  revert rs. unfold run_all. induction n as [|n IH]; intros rs; [lia|]. rewrite for_snoc, Nat.add_0_l. intros E Ht i Hi.
  destruct (for_ n _ 0 []) as [rs'|]; [|discriminate E]. rewrite bind_ok in E. destruct (f n) as [r|[]] eqn:En; try discriminate E.
  cbn [task] in E. rewrite bind_ok in E. injection E as <-. rewrite forallb_app in Ht. apply andb_prop in Ht as [H1 H2].
  cbn [forallb] in H2. rewrite andb_true_r in H2. destruct (decide (i = n)) as [->|Hne]; [rewrite En; f_equal; exact H2|].
  by apply (IH rs' eq_refl H1); lia.
Qed.

Lemma sums_equal_exact ndebug rv Os Ps :
  rct.mask <$> outPk rv = encode <$> Os -> Forall on_curve Os -> pseudoOuts rv = encode <$> Ps -> Forall on_curve Ps -> 0 <= txnFee rv < 2 ^ 64 ->
  sums_equal ndebug rv = Ok (bool_decide (encode (psum Ps) = encode (padd (smul (txnFee rv) Hpt) (psum Os)))).
Proof.
  intros EO HO EP HP Hf. pose proof pzero_on_curve as H0. unfold sums_equal. rewrite <- encode_pzero.
  rewrite (sum_loop rct.mask _ Os), bind_ok by done. rewrite amount_step by done. fold (psum Os).
  rewrite addKeys_spec, bind_ok; [|curve_base|by apply psum_on_curve].
  rewrite EP. rewrite (sum_loop id _ Ps), bind_ok; [|by rewrite list_fmap_id|done|done]. fold (psum Ps).
  by rewrite equalKeys_spec by apply encode_bytes.
Qed.

Lemma catch_false_true m : catch_false m = Ok true -> m = Ok true.
Proof. destruct m as [[]|[]]; done. Qed.

Lemma verRctSimple_inv VERIFY ndebug rv :
  type rv = RCTTypeSimple -> verRctSimple VERIFY ndebug rv true = Ok true ->
  length (outPk rv) = length (rangeSigs rv) /\ sums_equal ndebug rv = Ok true /\
  forall i, (i < length (outPk rv))%nat -> verify_output VERIFY rv i = Ok true.
Proof.
  intros Ht E%catch_false_true. rewrite Ht in E. cbn [is_simple negb andb orb] in E. unfold proof_sizes_ok in E. rewrite Ht in E.
  change (RCTTypeSimple =? RCTTypeSimpleBulletproof) with false in E. cbv iota in E.
  destruct (Nat.eqb_spec (length (outPk rv)) (length (rangeSigs rv))) as [L|]; [|discriminate E].
  destruct (length (outPk rv) =? length (ecdhInfo rv))%nat; [|discriminate E].
  destruct (length (pseudoOuts rv) =? length (MGs rv))%nat; [|discriminate E]. cbn [negb andb] in E.
  destruct (sums_equal ndebug rv) as [[]|]; try discriminate E. rewrite bind_ok in E. cbn [negb] in E.
  destruct (run_all _ _) as [rs|] eqn:Er; [|discriminate E]. rewrite bind_ok in E. injection E as E.
  split_and!; [done|done|]. exact (run_all_inv _ _ _ Er E).
Qed.

(** A loop that returned has run every step. *)
Lemma for_ok {A} n (f : nat -> A -> result A) i a r :
  for_ n f i a = Ok r -> forall k, (k < n)%nat -> exists b c, f (i + k)%nat b = Ok c.
Proof.
  revert i a. induction n as [|n IH]; intros i a E k Hk; [lia|]. cbn [for_] in E.
  destruct (f i a) as [a'|] eqn:Ea; [|discriminate E]. destruct k as [|k]; [exists a, a'; by rewrite Nat.add_0_r|].
  destruct (IH (S i) a' E k ltac:(lia)) as (b & c & Eb). exists b, c. by replace (i + S k)%nat with (S i + k)%nat by lia.
Qed.

(** [addKeys] returns only for encodings of points. *)
Lemma addKeys_inv A C r : key_string C -> rct.addKeys A C = Ok r -> exists P, on_curve P /\ encode P = C.
Proof.
  intros [Hb Hl] E. unfold rct.addKeys, decode_or_throw in E.
  pose proof (ge_frombytes_vartime_spec C Hb Hl) as ([P|] & Ed & HP)%returns_inv; rewrite Ed in E; [|discriminate E].
  destruct HP as (A' & HP & <-). exists A'. split; [exact (represents_curve _ _ HP)|done].
Qed.

Lemma sum_loop_inv {T} (f : T -> rct.key) (xs : list T) s r :
  Forall key_string (f <$> xs) -> for_ (length xs) (fun i s => let! x := get xs i in rct.addKeys s (f x)) 0 s = Ok r ->
  exists Ps, Forall on_curve Ps /\ f <$> xs = encode <$> Ps.
Proof.
  intros Hs E. pose proof (for_ok _ _ _ _ _ E) as H. clear E. induction xs as [|x xs IH] using rev_ind; [by exists []|].
  rewrite fmap_app in Hs |- *. apply Forall_app in Hs as [Hs Hx]. destruct IH as (Ps & HPs & EP).
  - done.
  - intros k Hk. destruct (H k) as (b & c & Ek); [rewrite length_app; lia|]. exists b, c. rewrite Nat.add_0_l in Ek |- *.
    destruct (lookup_lt_is_Some_2 xs k Hk) as [y Ey]. rewrite (get_ok _ _ y) in Ek by (by rewrite lookup_app_l). by rewrite (get_ok _ _ _ Ey).
  - destruct (H (length xs)) as (b & c & Ek); [rewrite length_app; simpl; lia|]. rewrite Nat.add_0_l in Ek.
    rewrite (get_ok _ _ x), bind_ok in Ek by (by rewrite lookup_app_r, Nat.sub_diag by lia).
    apply Forall_cons_1 in Hx as [Hx _]. destruct (addKeys_inv _ _ _ Hx Ek) as (P & HP & Ex).
    exists (Ps ++ [P]). rewrite fmap_app, EP. cbn [fmap list_fmap]. rewrite Ex. split; [|done]. apply Forall_app. by split; [|constructor].
Qed.

(** The sums are compared only when every commitment is the encoding of a point. *)
Lemma sums_equal_inv ndebug rv :
  Forall key_string (rct.mask <$> outPk rv) -> Forall key_string (pseudoOuts rv) -> sums_equal ndebug rv = Ok true ->
  exists Os Ps, Forall on_curve Os /\ rct.mask <$> outPk rv = encode <$> Os /\ Forall on_curve Ps /\ pseudoOuts rv = encode <$> Ps.
Proof.
  intros HO HP E. unfold sums_equal in E.
  destruct (for_ (length (outPk rv)) _ _ _) as [s|] eqn:EO; [|discriminate E]. rewrite bind_ok in E.
  destruct (rct.d2h _); [|discriminate E]. rewrite bind_ok in E. destruct (rct.scalarmultH _ _); [|discriminate E]. rewrite bind_ok in E.
  destruct (rct.addKeys _ _); [|discriminate E]. rewrite bind_ok in E.
  destruct (for_ (length (pseudoOuts rv)) _ _ _) as [t|] eqn:EP; [|discriminate E].
  destruct (sum_loop_inv rct.mask _ _ _ HO EO) as (Os & HOs & EOs).
  destruct (sum_loop_inv id (pseudoOuts rv) rct.identity t) as (Ps & HPs & EPs); [by rewrite list_fmap_id|exact EP|].
  rewrite list_fmap_id in EPs. by exists Os, Ps.
Qed.
