(* ===== verification/CryptoTheorems.v ===== *)
(** * Theorems on keys and signatures

    What the callers of [crypto.cpp] rely on: two parties derive the same
    secret, one-time keys match, what is signed verifies, and a signature
    verifies only under the verification equation. *)

From stdpp Require Import base list numbers.
From Stdlib Require Import ZArith Lia.
From S2P Require Import Prelude Bytes Field FieldFacts Scalar ScalarFacts CurveData Group Edwards GroupFacts GroupSpec BaseTable ScalarMultFacts PointCodec GroupOrder Keccak KeccakFacts Random Crypto CryptoFacts.

(** A generator after [init_random], for the instances below. *)
Definition example_rng : rng := Rng (replicate 25 7) 1.

Lemma example_rng_initialised : initialised example_rng.
Proof. by split. Defined.

Lemma scalar_const v : bool_decide (0 <= v < l) = true -> scalar (le_bytes 32 v) v.
Proof. intros H%bool_decide_eq_true_1. by split. Defined.

(** C1: a signature made by [generate_signature] with a key pair is accepted by [check_signature]
    for the same message and public key, in release and in debug builds: no assertion
    fires, no arithmetic overflows, and the answer is [true]. *)
Theorem signature_complete ndebug prefix_hash sec v g :
  initialised g -> scalar sec v ->
  returns (let! (g', s) := generate_signature ndebug prefix_hash (public v) sec g in
           check_signature ndebug prefix_hash (public v) s) (fun b => b = true).
Proof.
  intros Hg Hv. eapply returns_bind; [exact (generate_signature_spec ndebug prefix_hash sec v g Hg Hv)|].
  intros [g' s] [_ Hs]. destruct (signed_verifies _ _ _ Hs) as (c & r & vc & vr & -> & Hc & Hr & Hver).
  rewrite (check_signature_spec _ _ _ _ _ _ _ (smul_B_on_curve v) Hc Hr). cbn [returns].
  by apply bool_decide_eq_true_2.
Qed.

Lemma signature_complete_witness :
  returns (let! (g', s) := generate_signature false [1; 2; 3] (public 5) (le_bytes 32 5) example_rng in
           check_signature false [1; 2; 3] (public 5) s) (fun b => b = true).
Proof.
  exact (signature_complete false [1; 2; 3] (le_bytes 32 5) 5 example_rng example_rng_initialised
    (scalar_const 5 eq_refl)).
Defined.

(** No encoding has all bits set. *)
Lemma all_ones_invalid : ~ (exists A, on_curve A /\ encode A = replicate 32 255).
Proof.
  intros (A & _ & E). apply (f_equal le_val) in E. unfold encode in E. rewrite le_val_bytes in E.
  change (le_val (replicate 32 255)) with (2 ^ 256 - 1) in E. change (256 ^ Z.of_nat 32) with (2 ^ 256) in E.
  pose proof (Z.mod_pos_bound A.2 p ltac:(unfold p; lia)). pose proof (Z.mod_pos_bound (A.1 mod p) 2 ltac:(lia)).
  rewrite Z.mod_small in E; unfold p in *; lia.
Qed.

(** What a release build of [check_signature] answers. *)
Lemma check_signature_release prefix_hash pub c r :
  bytes pub -> length pub = 32%nat -> bytes c -> length c = 32%nat -> bytes r -> length r = 32%nat ->
  returns (check_signature true prefix_hash pub (Sig c r)) (fun b => b = true <->
    le_val c < l /\ le_val r < l /\
    exists A, on_curve A /\ encode A = pub /\ verifies prefix_hash A (le_val c) (le_val r)).
Proof.
  intros Hp Lp Hc Lc Hr Lr. unfold check_signature at 1. cbn [c_assert bind].
  eapply returns_bind; [by apply ge_frombytes_vartime_spec|]. intros [P|] HP.
  - destruct HP as (A & HP & <-). pose proof (represents_curve _ _ HP) as HA.
    rewrite bad_scalars_spec by done. cbn [bind]. case_bool_decide as HS; cbn [negb].
    + destruct HS as [Sc Sr]. cbn [sig_c sig_r].
      pose proof (scalar_of c Hc Lc Sc) as Hcs. pose proof (scalar_of r Hr Lr Sr) as Hrs.
      eapply returns_bind; [exact (double_mult _ _ _ _ _ _ Hcs Hrs HP)|]. intros Q HQ.
      rewrite (ge_tobytes_spec _ _ HQ). cbn [bind].
      eapply returns_mono; [exact (final_test _ _ _ Hcs)|]. intros b ->.
      rewrite bool_decide_eq_true. split.
      * intros Hv. split; [exact Sc|]. split; [exact Sr|]. exists A. split; [exact HA|]. split; [reflexivity|exact Hv].
      * intros (_ & _ & A' & HA' & E & Hv). unfold verifies in Hv.
        rewrite E, (encode_inj A' A HA' HA E) in Hv. exact Hv.
    + cbn [returns]. split; [discriminate|]. intros (? & ? & _). tauto.
  - cbn [returns]. split; [discriminate|]. intros (_ & _ & A & HA & E & _). destruct (HP A HA E).
Qed.

(** C2: [check_signature] accepts exactly when both scalars are reduced, the public key is the canonical
    encoding of a curve point [A], and the challenge is the hash of the message, the key and the
    commitment [c*A + r*B].  In release builds, and in debug builds when the public key is valid, every other input is
    answered [false]; a debug build aborts at its assertion when the public key is not valid. *)
Theorem check_signature_exact ndebug prefix_hash pub c r :
  bytes pub -> length pub = 32%nat -> bytes c -> length c = 32%nat -> bytes r -> length r = 32%nat ->
  (ndebug = true \/ (exists A, on_curve A /\ encode A = pub) ->
   returns (check_signature ndebug prefix_hash pub (Sig c r)) (fun b => b = true <->
     le_val c < l /\ le_val r < l /\
     exists A, on_curve A /\ encode A = pub /\ verifies prefix_hash A (le_val c) (le_val r))) /\
  (ndebug = false -> ~ (exists A, on_curve A /\ encode A = pub) -> check_signature ndebug prefix_hash pub (Sig c r) = Fail Aborted).
Proof.
  intros Hp Lp Hc Lc Hr Lr. pose proof (check_key_spec pub Hp Lp) as (b & Eb & Hb)%returns_inv. split.
  - intros Hd. enough (check_signature ndebug prefix_hash pub (Sig c r) = check_signature true prefix_hash pub (Sig c r)) as ->
      by (by apply check_signature_release).
    destruct ndebug; [reflexivity|]. destruct Hd as [?|Hv]; [discriminate|]. rewrite (proj2 Hb Hv) in Eb.
    unfold check_signature at 1. by rewrite (c_assert_true _ _ Eb).
  - intros -> Hv. destruct b; [destruct Hv; by apply Hb|]. unfold check_signature. by rewrite (c_assert_false _ Eb).
Qed.

(** A key that is the encoding of no point, in a release and in a debug build. *)
Lemma check_signature_exact_witness :
  returns (check_signature true [9] (replicate 32 255) (Sig (replicate 32 1) (replicate 32 2))) (fun b => b = true <->
    le_val (replicate 32 1) < l /\ le_val (replicate 32 2) < l /\
    exists A, on_curve A /\ encode A = replicate 32 255 /\
      verifies [9] A (le_val (replicate 32 1)) (le_val (replicate 32 2))) /\
  check_signature false [9] (replicate 32 255) (Sig (replicate 32 1) (replicate 32 2)) = Fail Aborted.
Proof.
  assert (forall ndebug, _) as H by (intros ndebug;
    refine (check_signature_exact ndebug [9] (replicate 32 255) (replicate 32 1) (replicate 32 2) _ eq_refl _ eq_refl _ eq_refl);
    apply (bool_decide_eq_true_1 _); vm_compute; reflexivity).
  split; [apply (proj1 (H true)); by left|]. apply (proj2 (H false)); [reflexivity|exact all_ones_invalid].
Defined.

(** Diffie-Hellman.  The sender with secret [a] and the receiver's key [b*B], and the receiver with
    secret [b] and the sender's key [a*B], compute the same derivation, the encoding of [8*a*b*B]. *)
Theorem key_derivation_agrees ndebug a b va vb :
  scalar a va -> scalar b vb ->
  generate_key_derivation ndebug (public vb) a = Ok (Some (encode (smul (8 * va * vb) B))) /\
  generate_key_derivation ndebug (public va) b = generate_key_derivation ndebug (public vb) a.
Proof.
  intros Ha Hb. assert (forall x y, encode (smul 8 (smul x (smul y B))) = encode (smul (8 * x * y) B)) as E
    by (intros x y; rewrite <- (smul_mul B x y), <- (smul_mul B) by apply B_on_curve; by rewrite Z.mul_assoc).
  unfold public. rewrite (generate_key_derivation_spec _ _ _ _ (smul_B_on_curve vb) Ha).
  rewrite (generate_key_derivation_spec _ _ _ _ (smul_B_on_curve va) Hb), !E. split; [reflexivity|].
  by replace (8 * vb * va) with (8 * va * vb) by ring.
Qed.

Lemma key_derivation_agrees_witness :
  generate_key_derivation false (public 11) (le_bytes 32 3) = Ok (Some (encode (smul (8 * 3 * 11) B))) /\
  generate_key_derivation false (public 3) (le_bytes 32 11) = generate_key_derivation false (public 11) (le_bytes 32 3).
Proof.
  exact (key_derivation_agrees false (le_bytes 32 3) (le_bytes 32 11) 3 11 (scalar_const 3 eq_refl) (scalar_const 11 eq_refl)).
Defined.

(** One-time keys.  The secret key that the receiver derives is the secret key of the public key that
    the sender derives from the same derivation, output index and spend key. *)
Theorem derived_keys_match ndebug derivation i base v :
  0 <= i < 2 ^ 64 -> scalar base v ->
  returns (derive_secret_key ndebug derivation i base) (fun sec =>
    exists pub, derive_public_key ndebug derivation i (public v) = Ok (Some pub) /\
      secret_key_to_public_key ndebug sec = Ok (Some pub)).
Proof.
  intros Hi Hv. destruct (derivation_to_scalar_spec ndebug derivation i Hi) as (h & _ & Eh & Hh).
  rewrite (derive_secret_key_spec _ _ _ _ _ _ Hv Eh Hh). cbn [returns].
  exists (public (v + h)). unfold public. rewrite (derive_public_key_spec _ _ _ _ _ (smul_B_on_curve v) Eh Hh).
  rewrite smul_add by apply B_on_curve. split; [reflexivity|].
  pose proof (scalar_mod (v + h)) as Hs. pose proof (proj2 Hs) as Hlt. destruct (scalar_bytes _ _ Hs) as (Hb & Hl & Ev & _).
  rewrite secret_key_to_public_key_spec, Ev, decide_True by (done || lia).
  rewrite public_mod. unfold public. by rewrite smul_add by apply B_on_curve.
Qed.

Lemma derived_keys_match_witness :
  returns (derive_secret_key false [1; 2] 300 (le_bytes 32 7)) (fun sec =>
    exists pub, derive_public_key false [1; 2] 300 (public 7) = Ok (Some pub) /\
      secret_key_to_public_key false sec = Ok (Some pub)).
Proof. apply (derived_keys_match false [1; 2] 300 (le_bytes 32 7) 7); [lia|exact (scalar_const 7 eq_refl)]. Defined.

(** [derive_subaddress_public_key] undoes [derive_public_key]: from a one-time key and the derivation the
    receiver recovers the spend key it was made from, whatever curve point that is. *)
Theorem subaddress_key_recovered ndebug derivation i A :
  0 <= i < 2 ^ 64 -> on_curve A ->
  returns (derive_public_key ndebug derivation i (encode A)) (fun o =>
    exists k, o = Some k /\ derive_subaddress_public_key ndebug k derivation i = Ok (Some (encode A))).
Proof.
  intros Hi HA. destruct (derivation_to_scalar_spec ndebug derivation i Hi) as (h & _ & Eh & Hh).
  rewrite (derive_public_key_spec _ _ _ _ _ HA Eh Hh). cbn [returns]. eexists. split; [reflexivity|].
  pose proof (smul_B_on_curve h) as HB. pose proof (padd_on_curve _ _ HA HB) as HAB.
  rewrite (derive_subaddress_public_key_spec _ _ _ _ _ HAB Eh Hh).
  rewrite padd_assoc, padd_neg, padd_comm, padd_0_l; [reflexivity|..]; first [assumption|by apply pneg_on_curve].
Qed.

Lemma subaddress_key_recovered_witness :
  returns (derive_public_key false [1; 2] 300 (encode B)) (fun o =>
    exists k, o = Some k /\ derive_subaddress_public_key false k [1; 2] 300 = Ok (Some (encode B))).
Proof. apply (subaddress_key_recovered false [1; 2] 300 B); [lia|exact B_on_curve]. Defined.

(** A transaction proof made by [generate_tx_proof] for the secret [r], the recipient's view key [A] and
    optional spend key [B0], all in the subgroup of order [l], is accepted by [check_tx_proof]. *)
Theorem tx_proof_complete ndebug prefix_hash A B0 r v g :
  initialised g -> scalar r v -> on_curve A -> option_on_curve B0 ->
  smul l A ≡ₚ pzero -> smul l (tx_base B0) ≡ₚ pzero ->
  returns (let! (g', s) := generate_tx_proof ndebug prefix_hash (encode (smul v (tx_base B0))) (encode A)
             (encode <$> B0) (encode (smul v A)) r g in
           check_tx_proof ndebug prefix_hash (encode (smul v (tx_base B0))) (encode A) (encode <$> B0) (encode (smul v A)) s)
    (fun b => b = true).
Proof.
  intros Hg Hv HA HB LA LB. eapply returns_bind;
    [exact (generate_tx_proof_spec ndebug prefix_hash A B0 r v g Hg HA HB Hv)|].
  intros [g' s] [_ Hp]. pose proof (tx_base_on_curve _ HB) as HT.
  destruct (proved_checks _ _ _ _ _ HA HT LA LB Hp) as (c & k & vc & vk & -> & Hc & Hk & E).
  eapply returns_mono; [exact (check_tx_proof_spec prefix_hash _ _ _ _ _ _ _ _
    (smul_on_curve _ HT v) HA HB (smul_on_curve _ HA v) Hc Hk)|].
  intros b ->. apply bool_decide_eq_true_2. exact E.
Qed.

Lemma tx_proof_complete_witness :
  returns (let! (g', s) := generate_tx_proof false [4] (encode (smul 6 (tx_base None))) (encode B)
             (encode <$> None) (encode (smul 6 B)) (le_bytes 32 6) example_rng in
           check_tx_proof false [4] (encode (smul 6 (tx_base None))) (encode B) (encode <$> None) (encode (smul 6 B)) s)
    (fun b => b = true).
Proof.
  exact (tx_proof_complete false [4] B None (le_bytes 32 6) 6 example_rng example_rng_initialised
    (scalar_const 6 eq_refl) B_on_curve I base_order base_order).
Defined.

(** C25: [generate_keys] returns a reduced secret key, the reduction of the recovery key or of a fresh random
    scalar, with its public key, which no other secret key has; the generator stays usable, and recovery does not touch it. *)
Theorem generate_keys_pair ndebug recovery_key recover g :
  initialised g -> bytes recovery_key -> length recovery_key = 32%nat ->
  returns (generate_keys ndebug recovery_key recover g) (fun '(g', (key, sec, pub)) =>
    initialised g' /\ (recover = true -> g' = g /\ key = recovery_key) /\
    sec = le_bytes 32 (le_val key mod l) /\ check_key pub = Ok true /\
    forall sec', bytes sec' -> length sec' = 32%nat ->
      secret_key_to_public_key ndebug sec' = Ok (Some pub) <-> sec' = sec).
Proof.
  intros Hg Hb Hl. eapply returns_mono; [exact (generate_keys_spec ndebug recovery_key recover g Hg Hb Hl)|].
  intros [g' [[key sec] pub]] (Hg' & Hrec & v & -> & Hs & ->). split; [exact Hg'|]. split; [exact Hrec|].
  split; [exact (proj1 Hs)|]. split; [apply check_key_encode, smul_B_on_curve|]. intros sec' Hb' Hl'.
  rewrite secret_key_to_public_key_spec by done. destruct (decide (le_val sec' < l)) as [Hlt|Hge].
  - pose proof (scalar_of sec' Hb' Hl' Hlt) as Hs'. split; [|intros ->; by rewrite (scalar_val _ _ Hs)].
    intros E%ok_some_inj. apply public_inj in E; [|exact (proj2 Hs')|exact (proj2 Hs)]. rewrite (proj1 Hs), <- E. exact (proj1 Hs').
  - split; [discriminate|]. intros ->. destruct Hge. rewrite (scalar_val _ _ Hs). exact (proj2 (proj2 Hs)).
Qed.

Lemma generate_keys_pair_witness :
  returns (generate_keys false (replicate 32 200) true example_rng) (fun '(g', (key, sec, pub)) =>
    initialised g' /\ (true = true -> g' = example_rng /\ key = replicate 32 200) /\
    sec = le_bytes 32 (le_val key mod l) /\ check_key pub = Ok true /\
    forall sec', bytes sec' -> length sec' = 32%nat ->
      secret_key_to_public_key false sec' = Ok (Some pub) <-> sec' = sec).
Proof.
  apply (generate_keys_pair false (replicate 32 200) true example_rng example_rng_initialised);
    first [reflexivity | apply (bool_decide_eq_true_1 _); vm_compute; reflexivity].
Defined.
