(* ===== verification/RingTheorems.v ===== *)
(** * Theorems on key images and ring signatures *)

From stdpp Require Import base list numbers.
From Stdlib Require Import ZArith Lia.
From S2P Require Import Prelude Bytes Field FieldFacts Scalar ScalarFacts CurveData Group Edwards GroupFacts GroupSpec BaseTable ScalarMult ScalarMultFacts PointCodec HashToPoint GroupOrder Keccak KeccakFacts Random Crypto CryptoFacts CryptoTheorems RingFacts.

(** A string that is the canonical encoding of a curve point. *)
Definition valid_key (pub : list Z) : Prop := exists A, on_curve A /\ encode A = pub.

Lemma ring_of pubs : Forall valid_key pubs -> exists ring, Forall member_ok ring /\ keys ring = pubs.
Proof.
  induction 1 as [|pub pubs (A & HA & <-) _ (ring & Hr & <-)]; [by exists []|].
  destruct (hashes_to_exists (encode A)) as [H HH]. exists ((A, H) :: ring). split; [by constructor|done].
Qed.

(** The members of a ring have keys that are valid. *)
Lemma keys_valid ring : Forall member_ok ring -> Forall valid_key (keys ring).
Proof. intros H. unfold keys. apply Forall_fmap. revert H. apply Forall_impl. intros [A C] [HA _]. by exists A. Qed.

(** C3: a ring signature made with the key image of [generate_key_image] and the secret key of any member of
    the ring is accepted by [check_ring_signature] for the same message, image and ring, in release and in
    debug builds: the routines return, no assertion fires, and the answer is [true]. *)
Theorem ring_signature_complete ndebug prefix_hash pubs sec v sec_index g :
  initialised g -> Forall valid_key pubs -> scalar sec v -> pubs !! sec_index = Some (public v) ->
  returns (let! image := generate_key_image ndebug (public v) sec in
           let! (g', sig) := generate_ring_signature ndebug prefix_hash image pubs sec sec_index g in
           check_ring_signature ndebug prefix_hash image pubs sig) (fun b => b = true).
Proof.
  intros Hg Hpubs Hv Hs. destruct (ring_of pubs Hpubs) as (ring & Hring & <-).
  pose proof Hs as Hs'. unfold keys in Hs'. rewrite list_lookup_fmap in Hs'. apply fmap_Some in Hs' as (m & Hm & Em).
  pose proof (Forall_lookup_1 _ _ _ _ Hring Hm) as [HA HH].
  assert (m.1 ≡ₚ smul v B) as EA by (apply encode_inj; [done|apply smul_B_on_curve|symmetry; exact Em]).
  rewrite Em, (generate_key_image_spec _ _ _ _ Hv HH). cbn [bind].
  eapply returns_bind; [exact (generate_ring_signature_spec _ _ _ _ _ _ _ _ Hg Hring Hm Hv EA)|].
  intros [g' sig] (_ & vs & Hsig & Hlen & Hver).
  eapply returns_mono; [apply check_ring_signature_spec; try done; by apply smul_on_curve; eapply hashes_to_on_curve|].
  intros b ->. by apply bool_decide_eq_true_2.
Qed.

Lemma public_valid v : valid_key (public v).
Proof. exists (smul v B). split; [apply smul_B_on_curve|reflexivity]. Defined.

Lemma ring_signature_complete_witness :
  returns (let! image := generate_key_image false (public 5) (le_bytes 32 5) in
           let! (g', sig) := generate_ring_signature false [1; 2; 3] image [public 9; public 5; public 7] (le_bytes 32 5) 1 example_rng in
           check_ring_signature false [1; 2; 3] image [public 9; public 5; public 7] sig) (fun b => b = true).
Proof.
  refine (ring_signature_complete false [1; 2; 3] [public 9; public 5; public 7] (le_bytes 32 5) 5 1 example_rng
    example_rng_initialised _ (scalar_const 5 eq_refl) eq_refl).
  repeat constructor; apply public_valid.
Defined.

(** [hash_to_ec] is total: for every input it returns, in debug builds too, a point of the curve, and that
    point has order [l], whatever the point that the hash was first mapped to. *)
Theorem hash_to_ec_prime_order ndebug key :
  returns (hash_to_ec ndebug key) (fun P => exists H, represents P H /\ hashes_to key H /\ smul l H ≡ₚ pzero).
Proof.
  eapply returns_mono; [apply hash_to_ec_total|]. intros P (H & HH & HP). exists H. split; [done|].
  split; [done|]. by eapply hashes_to_order.
Qed.

(** ** Rejection *)

(** The signature of a member and its key are well formed. *)
Definition good_member (s : signature) (pub : list Z) : Prop :=
  le_val (sig_c s) < l /\ le_val (sig_r s) < l /\ valid_key pub.

Definition sig_bytes (s : signature) : Prop :=
  bytes (sig_c s) /\ length (sig_c s) = 32%nat /\ bytes (sig_r s) /\ length (sig_r s) = 32%nat.

Definition sig_values (s : signature) : Z * Z := (le_val (sig_c s), le_val (sig_r s)).

(** The loop of the verifier stops early exactly at a member that is not well formed. *)
Definition loop_state (sig : list signature) (pubs : list (list Z)) (k : nat) (acc : option (list Z * list Z)) : Prop :=
  match acc with
  | None => exists i s pub, sig !! i = Some s /\ pubs !! i = Some pub /\ ~ good_member s pub
  | Some (sum, _) => (exists n, scalar sum n) /\
      forall i s pub, (i < k)%nat -> sig !! i = Some s -> pubs !! i = Some pub -> good_member s pub
  end.

Lemma check_step_total ndebug I pre sig pubs k acc :
  on_curve I -> odd_multiples pre I -> (k < length sig)%nat -> length sig = length pubs ->
  Forall sig_bytes sig -> Forall (fun pub => bytes pub /\ length pub = 32%nat) pubs ->
  loop_state sig pubs k acc -> returns (check_step ndebug pre pubs sig k acc) (loop_state sig pubs (S k)).
Proof.
  intros HI Hpre Hk Hlen Hsig Hpubs Hacc. destruct acc as [[sum ab]|]; [|exact Hacc].
  destruct Hacc as [[n Hn] Hgood]. destruct (lookup_lt_is_Some_2 sig k Hk) as [s Hs].
  destruct (lookup_lt_is_Some_2 pubs k ltac:(lia)) as [pub Hp].
  pose proof (Forall_lookup_1 _ _ _ _ Hsig Hs) as (Bc & Lc & Br & Lr).
  pose proof (Forall_lookup_1 _ _ _ _ Hpubs Hp) as [Bp Lp].
  unfold check_step. rewrite (get_ok _ _ _ Hs). cbn [bind].
  assert (forall good, ~ good_member s pub -> loop_state sig pubs good None) as Hbad by (intros good Hb; by exists k, s, pub).
  destruct s as [c r]. cbn [sig_c sig_r] in *.
  rewrite bad_scalars_spec by done. cbn [bind]. case_bool_decide as HS; cbn [negb].
  2: { apply Hbad. unfold good_member. cbn [sig_c sig_r]. tauto. }
  rewrite (get_ok _ _ _ Hp). cbn [bind].
  eapply returns_bind; [by apply ge_frombytes_vartime_spec|]. intros [P|] HP.
  2: { apply Hbad. intros (_ & _ & A & HA & HE). by apply (HP A HA). }
  destruct HP as (A & HP & <-). pose proof (represents_curve _ _ HP) as HA. destruct HS as [Sc Sr].
  pose proof (scalar_of c Bc Lc Sc) as Hc. pose proof (scalar_of r Br Lr Sr) as Hr.
  destruct (hashes_to_exists (encode A)) as [H HH].
  eapply returns_bind; [eapply (ring_pair_spec _ _ (A, H) I _ (_, _)); [by split|done|done|done|by split]|].
  intros [a b] _. cbn [sig_c]. rewrite (sc_add_scalar _ _ _ _ Hn Hc). cbn [bind returns loop_state].
  split; [eexists; apply scalar_mod|]. intros i s' pub' Hi Hs' Hp'.
  destruct (decide (i = k)) as [->|Hne]; [|eapply Hgood; [|done|done]; lia].
  rewrite Hs in Hs'. rewrite Hp in Hp'. injection Hs' as <-. injection Hp' as <-.
  split; [done|]. split; [done|]. by exists A.
Qed.

(** With the debug checks passed, the verifier is total. *)
Lemma check_ring_total (ndebug : bool) prefix_hash image pubs sig :
  bytes image -> length image = 32%nat -> Forall (fun pub => bytes pub /\ length pub = 32%nat) pubs ->
  Forall sig_bytes sig -> length sig = length pubs ->
  (if ndebug then Ok tt
   else for_ (length pubs) (fun i _ => let! pub := get pubs i in c_assert false (check_key pub)) 0 tt) = Ok tt ->
  returns (check_ring_signature ndebug prefix_hash image pubs sig) (fun b => b = true <->
    exists I ring, on_curve I /\ encode I = image /\ Forall member_ok ring /\ keys ring = pubs /\
      Forall2 sig_scalars sig (sig_values <$> sig) /\ ring_verifies prefix_hash I ring (sig_values <$> sig)).
Proof.
  intros Hi Li Hpubs Hsig Hlen Hdbg.
  pose proof (ge_frombytes_vartime_spec image Hi Li) as ([P|] & EP & HP)%returns_inv.
  2: { unfold check_ring_signature, bind_bool. rewrite Hdbg. cbn [bind]. rewrite EP. cbn [bind returns].
    split; [done|]. intros (I & ring & HI & HE & _). by destruct (HP I HI). }
  destruct HP as (I & HP & EI). pose proof (represents_curve _ _ HP) as HI.
  pose proof (ge_dsm_precomp_spec P I HP) as (pre & Epre & Hpre)%returns_inv.
  assert (returns (for_ (length pubs) (check_step ndebug pre pubs sig) 0 (Some (sc_0, []))) (loop_state sig pubs (length pubs)))
    as (acc & Eacc & Hacc)%returns_inv.
  { apply (for_inv _ _ 0 _ (loop_state sig pubs)).
    - split; [exists 0; apply sc_0_scalar|]. intros; lia.
    - intros k a Hk Ha. apply (check_step_total ndebug I); try done. lia. }
  destruct acc as [[sum ab]|].
  - destruct Hacc as [_ Hgood].
    assert (Forall2 good_member sig pubs) as HG.
    { apply Forall2_same_length_lookup_2; [done|]. intros i s pub Hs Hp. apply (Hgood i); [|done|done].
      by apply lookup_lt_Some in Hp. }
    destruct (ring_of pubs) as (ring & Hring & Ek).
    { apply Forall_lookup. intros i pub Hp. destruct (Forall2_lookup_r _ _ _ _ _ HG Hp) as (s & _ & _ & _ & Hv). exact Hv. }
    assert (Forall2 sig_scalars sig (sig_values <$> sig)) as Hvs.
    { apply Forall2_fmap_r, Forall_Forall2_diag, Forall_lookup. intros i s Hs.
      destruct (Forall2_lookup_l _ _ _ _ _ HG Hs) as (pub & _ & Hc & Hr & _).
      destruct (Forall_lookup_1 _ _ _ _ Hsig Hs) as (? & ? & ? & ?). split; by apply scalar_of. }
    assert (length ring = length (sig_values <$> sig)) as Lr
      by (rewrite length_fmap, Hlen, <- Ek; unfold keys; by rewrite length_fmap).
    rewrite <- EI, <- Ek. eapply returns_mono; [by apply (check_ring_signature_spec ndebug prefix_hash I ring)|].
    intros b ->. rewrite bool_decide_eq_true. split; [intros Hver; by exists I, ring|].
    intros (I' & ring' & HI' & HE & Hring' & Ek' & _ & Hver).
    by apply (ring_verifies_keys prefix_hash I I' ring ring').
  - unfold check_ring_signature, bind_bool. rewrite Hdbg. cbn [bind]. rewrite EP. cbn [bind]. rewrite Epre. cbn [bind]. rewrite Eacc. cbn [bind returns].
    split; [done|]. intros (I' & ring & _ & _ & Hring & Ek & Hvs & _). exfalso.
    destruct Hacc as (i & s & pub & Hs & Hp & Hbad). apply Hbad.
    destruct (Forall2_lookup_l _ _ _ _ _ Hvs Hs) as (v & Hv & Hc & Hr). rewrite list_lookup_fmap, Hs in Hv. injection Hv as <-.
    split; [apply (proj2 Hc)|]. split; [apply (proj2 Hr)|].
    rewrite <- Ek in Hp. by eapply (Forall_lookup_1 _ _ _ _ (keys_valid _ Hring)).
Qed.

(** The checks of a debug build on the keys of the ring. *)
Lemma key_checks pubs :
  Forall (fun pub => bytes pub /\ length pub = 32%nat) pubs ->
  let checks := for_ (length pubs) (fun i _ => let! pub := get pubs i in c_assert false (check_key pub)) 0 tt in
  Forall valid_key pubs /\ checks = Ok tt \/ ~ Forall valid_key pubs /\ checks = Fail Aborted.
Proof.
  intros Hp. cbv zeta.
  enough (forall n i, (i + n = length pubs)%nat ->
    let checks := for_ n (fun i _ => let! pub := get pubs i in c_assert false (check_key pub)) i tt in
    Forall valid_key (drop i pubs) /\ checks = Ok tt \/ ~ Forall valid_key (drop i pubs) /\ checks = Fail Aborted) as H
    by exact (H (length pubs) 0%nat eq_refl).
  cbv zeta. induction n as [|n IH]; intros i Hi; [left; by rewrite drop_ge by lia|]. cbn [for_].
  destruct (lookup_lt_is_Some_2 pubs i ltac:(lia)) as [pub Ep]. rewrite (get_ok _ _ _ Ep), (drop_S _ _ _ Ep). cbn [bind].
  pose proof (Forall_cons_iff valid_key pub (drop (S i) pubs)) as HF.
  destruct (Forall_lookup_1 _ _ _ _ Hp Ep) as [Bp Lp]. pose proof (check_key_spec pub Bp Lp) as ([] & Ec & Hc)%returns_inv.
  - rewrite (c_assert_true _ _ Ec). cbn [bind]. assert (valid_key pub) as Hv by (by apply Hc).
    destruct (IH (S i) ltac:(lia)) as [[HV ->]|[HV ->]]; [left|right]; (split; [|done]).
    + by apply HF.
    + intros [_ ?]%HF. done.
  - right. rewrite (c_assert_false _ Ec). split; [|done]. intros [Hv _]%HF. apply Hc in Hv. discriminate.
Qed.

(** C4: [check_ring_signature] accepts exactly when every challenge and response is reduced, every public key and
    the image are canonical encodings of curve points, and the challenges add up, modulo [l], to the hash of the
    message and the members' commitments.  In release builds, and in debug builds when every public key is valid, it
    returns on every other input, and the answer is [false]; a debug build aborts at its assertions when a public key is
    not valid. *)
Theorem check_ring_signature_exact ndebug prefix_hash image pubs sig :
  bytes image -> length image = 32%nat -> Forall (fun pub => bytes pub /\ length pub = 32%nat) pubs ->
  Forall sig_bytes sig -> length sig = length pubs ->
  (ndebug = true \/ Forall valid_key pubs ->
   returns (check_ring_signature ndebug prefix_hash image pubs sig) (fun b => b = true <->
     exists I ring, on_curve I /\ encode I = image /\ Forall member_ok ring /\ keys ring = pubs /\
       Forall2 sig_scalars sig (sig_values <$> sig) /\ ring_verifies prefix_hash I ring (sig_values <$> sig))) /\
  (ndebug = false -> ~ Forall valid_key pubs -> check_ring_signature ndebug prefix_hash image pubs sig = Fail Aborted).
Proof.
  intros Hi Li Hpubs Hsig Hlen. pose proof (key_checks pubs Hpubs) as HK. cbv zeta in HK. split.
  2: { intros -> Hv. destruct HK as [[? _]|[_ E]]; [done|]. unfold check_ring_signature. by rewrite E. }
  intros Hd. apply (check_ring_total ndebug prefix_hash image pubs sig Hi Li Hpubs Hsig Hlen).
  destruct Hd as [->|Hv]; [done|]. destruct HK as [[_ ->]|[? _]]; [by destruct ndebug|done].
Qed.

(** A ring whose second key is the encoding of no point, in a release and in a debug build. *)
Lemma check_ring_signature_exact_witness :
  let image := le_bytes 32 1 in let pubs := [le_bytes 32 1; replicate 32 255] in
  let sig := [Sig (le_bytes 32 3) (le_bytes 32 4); Sig (le_bytes 32 5) (le_bytes 32 6)] in
  returns (check_ring_signature true [1; 2; 3] image pubs sig) (fun b => b = true <->
    exists I ring, on_curve I /\ encode I = image /\ Forall member_ok ring /\ keys ring = pubs /\
      Forall2 sig_scalars sig (sig_values <$> sig) /\ ring_verifies [1; 2; 3] I ring (sig_values <$> sig)) /\
  check_ring_signature false [1; 2; 3] image pubs sig = Fail Aborted.
Proof.
  assert (forall ndebug, _) as H by (intros ndebug;
    refine (check_ring_signature_exact ndebug [1; 2; 3] (le_bytes 32 1) [le_bytes 32 1; replicate 32 255]
      [Sig (le_bytes 32 3) (le_bytes 32 4); Sig (le_bytes 32 5) (le_bytes 32 6)] _ _ _ _ eq_refl);
    [apply le_bytes_bytes|apply le_bytes_length| |];
    repeat (apply Forall_cons_2); try apply Forall_nil_2; repeat split;
    (apply le_bytes_bytes || apply le_bytes_length || reflexivity || apply (bool_decide_eq_true_1 _); vm_compute; reflexivity)).
  split; [apply (proj1 (H true)); by left|]. apply (proj2 (H false)); [reflexivity|].
  intros HV. apply Forall_cons_iff in HV as [_ HV]. apply Forall_cons_iff in HV as [HV _]. exact (all_ones_invalid HV).
Defined.
