(* ===== verification/RctTheorems.v ===== *)
(** * Theorems on ring confidential transactions *)

From stdpp Require Import base list numbers.
From Stdlib Require Import ZArith Lia.
From S2P Require Import Prelude Bytes Field FieldFacts Scalar ScalarFacts CurveData Group Edwards GroupFacts GroupSpec BaseTable ScalarMult ScalarMultFacts PointCodec HashToPoint GroupOrder Keccak KeccakFacts Random Crypto CryptoFacts CryptoTheorems RingFacts Rct RctFacts RctSigs RctRange RctMlsag RctTransactions.

(** ** Transactions *)

(** C5: a transaction that [genRctSimple] makes with range signatures, from inputs whose signer owns a member of each
    ring (its key, and the opening of its commitment), and whose input amounts add up to the output amounts and the fee,
    passes both checks of [verRctSimple], and [decodeRctSimple] gives every receiver the amount and the mask of its
    output: the routines return, no check throws, in release and in debug builds, whatever the bulletproof functions. *)
Theorem simple_transaction_accepted PROVE VERIFY ndebug ndebug' b msg ins inSk dests amounts fee akeys outSk g :
  initialised g -> length b = 64%nat -> ins <> [] -> Forall input_ok ins -> Forall2 holds inSk (i_open <$> ins) ->
  length amounts = length dests -> length akeys = length dests -> Forall (fun v => 0 <= v < 2 ^ 64) amounts -> 0 <= fee < 2 ^ 64 ->
  sum_Z (input_amounts ins) = sum_Z amounts + fee ->
  returns (genRctSimple PROVE ndebug b msg inSk dests (input_amounts ins) amounts fee (rings ins) akeys None false (i_index <$> ins) outSk false g)
    (fun '(_, (rv, outSk', _)) => verRctSimple VERIFY ndebug' rv true = Ok true /\ verRctSimple VERIFY ndebug' rv false = Ok true /\
      forall i v key m0, amounts !! i = Some v -> akeys !! i = Some key ->
        exists sk, outSk' !! i = Some sk /\ decodeRctSimple rv key i m0 = Ok (v, rct.mask sk)).
Proof.
  intros Hg Hb Hne Hins Hsk La Lk Hv Hf Es.
  eapply returns_mono; [by apply (genRctSimple_spec PROVE VERIFY ndebug ndebug')|]. intros [g' [[rv sks] c]] (_ & _ & V1 & V2 & Hd & _). by split_and!.
Qed.

(** A ring of two members with the same key, whose secrets are 1 and 1, and an amount. *)
Definition example_input (amount : Z) : input :=
  Input [(smul 1 B, pedersen 1 amount); (smul 1 B, pedersen 1 amount)] 1 (Opening 1 1 amount).

Lemma example_input_ok amount : 0 <= amount < 2 ^ 64 -> input_ok (example_input amount).
Proof.
  intros Ha. assert (pair_ok (smul 1 B, pedersen 1 amount)) as Hp by (split; [apply smul_B_on_curve|apply pedersen_on_curve]).
  split; [by constructor; [|constructor; [|constructor]]|]. split; [cbn; lia|]. split; [|exact Ha]. eexists. split; [reflexivity|]. split; reflexivity.
Qed.

Definition example_sk : rct.ctkey := rct.Ctkey (le_bytes 32 1) (le_bytes 32 1).

Lemma example_holds amount : holds example_sk (Opening 1 1 amount).
Proof. split; exact (scalar_const 1 eq_refl). Qed.

Lemma simple_transaction_accepted_witness :
  returns (genRctSimple (fun _ _ _ => Fail Thrown) false (replicate 64 0) [1] [example_sk; example_sk] [[2]; [3]] [5; 4] [6; 1] 2
             (rings [example_input 5; example_input 4]) [[8]; [9]] None false [1%nat; 1%nat] [] false example_rng)
    (fun '(_, (rv, outSk', _)) => verRctSimple (fun _ => Fail Thrown) false rv true = Ok true /\ verRctSimple (fun _ => Fail Thrown) false rv false = Ok true /\
      forall i v key m0, [6; 1] !! i = Some v -> [[8]; [9]] !! i = Some key ->
        exists sk, outSk' !! i = Some sk /\ decodeRctSimple rv key i m0 = Ok (v, rct.mask sk)).
Proof.
  apply (simple_transaction_accepted (fun _ _ _ => Fail Thrown) (fun _ => Fail Thrown) false false (replicate 64 0) [1]
    [example_input 5; example_input 4] [example_sk; example_sk] [[2]; [3]] [6; 1] 2 [[8]; [9]] [] example_rng example_rng_initialised);
    try reflexivity; try lia; [discriminate| | |].
  - constructor; [apply example_input_ok; lia|]. constructor; [apply example_input_ok; lia|constructor].
  - constructor; [apply example_holds|]. constructor; [apply example_holds|constructor].
  - constructor; [lia|]. constructor; [lia|constructor].
Defined.

(** C7: a transaction that [genRct] makes with range signatures, signed by the owner of one column of the matrix of
    possible inputs, whose amounts add up to the outputs and the fee (the amount after those of the outputs, if there is
    one), passes both checks of [verRct], and [decodeRct] gives every receiver the amount and the mask of its output. *)
Theorem full_transaction_accepted PROVE VERIFY ndebug ndebug' b msg mixRing col ss inSk dests amounts akeys index outSk g :
  initialised g -> length b = 64%nat -> length akeys = length dests ->
  Forall (fun ms => Forall pair_ok ms /\ length ms = length inSk) mixRing -> (2 <= length mixRing)%nat -> (1 <= length inSk)%nat ->
  mixRing !! index = Some col -> Forall2 owns col ss -> Forall2 holds inSk ss ->
  (length amounts = length dests \/ length amounts = S (length dests)) -> Forall (fun v => 0 <= v < 2 ^ 64) amounts ->
  sum_Z (o_amount <$> ss) = sum_Z amounts ->
  returns (genRct PROVE ndebug b msg inSk dests amounts (ctkeys <$> mixRing) akeys None false index outSk false g)
    (fun '(_, (rv, outSk', _)) => verRct VERIFY ndebug' rv true = Ok true /\ verRct VERIFY ndebug' rv false = Ok true /\
      forall i v key m0, take (length dests) amounts !! i = Some v -> akeys !! i = Some key ->
        exists sk, outSk' !! i = Some sk /\ decodeRct rv key i m0 = Ok (v, rct.mask sk)).
Proof.
  intros Hg Hb Lk HR Hn Hi Hcol Ho Hsk La Hv Es.
  eapply returns_mono; [by apply (genRct_spec PROVE VERIFY ndebug ndebug') with (col := col) (ss := ss)|].
  intros [g' [[rv sks] c]] (_ & _ & V1 & V2 & Hd). by split_and!.
Qed.

Lemma full_transaction_accepted_witness :
  let col := [(smul 1 B, pedersen 1 9)] in
  returns (genRct (fun _ _ _ => Fail Thrown) false (replicate 64 0) [1] [example_sk] [[2]] [7; 2] (ctkeys <$> [col; col]) [[8]] None false 1 [] false
             example_rng)
    (fun '(_, (rv, outSk', _)) => verRct (fun _ => Fail Thrown) false rv true = Ok true /\ verRct (fun _ => Fail Thrown) false rv false = Ok true /\
      forall i v key m0, [7] !! i = Some v -> [[8]] !! i = Some key ->
        exists sk, outSk' !! i = Some sk /\ decodeRct rv key i m0 = Ok (v, rct.mask sk)).
Proof.
  cbv zeta. destruct (example_input_ok 9 ltac:(lia)) as (Hp & _ & _ & _). cbn [example_input i_ring] in Hp. apply Forall_cons_1 in Hp as [Hp _].
  apply (full_transaction_accepted (fun _ _ _ => Fail Thrown) (fun _ => Fail Thrown) false false (replicate 64 0) [1]
    [[(smul 1 B, pedersen 1 9)]; [(smul 1 B, pedersen 1 9)]] [(smul 1 B, pedersen 1 9)] [Opening 1 1 9] [example_sk] [[2]] [7; 2] [[8]] 1 []
    example_rng example_rng_initialised); try reflexivity; try (cbn; lia).
  - constructor; [|constructor; [|constructor]]; (split; [by constructor|reflexivity]).
  - constructor; [split; reflexivity|constructor].
  - constructor; [apply example_holds|constructor].
  - constructor; [lia|]. constructor; [lia|constructor].
Defined.

(** C6: a simple transaction with range signatures that [verRctSimple] accepts as well formed creates no money: for keys that
    are any strings of 32 bytes, the commitments of its outputs and its pseudo-outputs are all canonical encodings of
    points of the curve, those of the inputs add up, as points, to those of the outputs and the fee, and the
    commitment of every output has a range proof that [verRange] accepts.  A key that is not the encoding of a point is never accepted. *)
Theorem simple_transaction_balanced VERIFY ndebug rv :
  type rv = RCTTypeSimple -> Forall key_string (rct.mask <$> outPk rv) -> Forall key_string (pseudoOuts rv) ->
  0 <= txnFee rv < 2 ^ 64 -> verRctSimple VERIFY ndebug rv true = Ok true ->
  exists Os Ps, Forall on_curve Os /\ rct.mask <$> outPk rv = encode <$> Os /\ Forall on_curve Ps /\ pseudoOuts rv = encode <$> Ps /\
    psum Ps ≡ₚ padd (smul (txnFee rv) Hpt) (psum Os) /\
    Forall2 (fun o r => verRange (rct.mask o) r = Ok true) (outPk rv) (rangeSigs rv).
Proof.
  intros Ht KO KP Hf Hv. destruct (verRctSimple_inv _ _ _ Ht Hv) as (L & Hs & Hr).
  destruct (sums_equal_inv _ _ KO KP Hs) as (Os & Ps & HO & EO & HP & EP). exists Os, Ps. split_and!; try done.
  - rewrite (sums_equal_exact ndebug rv Os Ps) in Hs by done. injection Hs as Hs%bool_decide_eq_true_1.
    apply encode_inj; [by apply psum_on_curve| |exact Hs]. apply padd_on_curve; [curve_base|by apply psum_on_curve].
  - apply Forall2_same_length_lookup_2; [done|]. intros i o r Ho Hr'. specialize (Hr i ltac:(by eapply lookup_lt_Some)).
    unfold verify_output in Hr. destruct (rangeSigs rv) as [|r0 rs] eqn:E; [done|].
    by rewrite (get_ok _ _ _ Ho), bind_ok, (get_ok _ _ _ Hr'), bind_ok in Hr.
Qed.

(** A transaction with two inputs, of 5 and 4, two outputs, of 6 and 1, and a fee of 2. *)
Lemma simple_transaction_balanced_witness :
  returns (genRctSimple (fun _ _ _ => Fail Thrown) false (replicate 64 0) [1] [example_sk; example_sk] [[2]; [3]] [5; 4] [6; 1] 2
             (rings [example_input 5; example_input 4]) [[8]; [9]] None false [1%nat; 1%nat] [] false example_rng)
    (fun '(_, (rv, _, _)) => exists Os Ps, length Os = 2%nat /\ rct.mask <$> outPk rv = encode <$> Os /\ pseudoOuts rv = encode <$> Ps /\
       psum Ps ≡ₚ padd (smul 2 Hpt) (psum Os) /\ Forall2 (fun o r => verRange (rct.mask o) r = Ok true) (outPk rv) (rangeSigs rv)).
Proof.
  eapply returns_mono.
  - apply (genRctSimple_spec (fun _ _ _ => Fail Thrown) (fun _ => Fail Thrown) false false (replicate 64 0) [1] [[2]; [3]] [[8]; [9]] [] example_rng
      example_rng_initialised eq_refl eq_refl [example_input 5; example_input 4] [example_sk; example_sk] [6; 1] 2); try reflexivity; try lia; [discriminate| | |].
    + constructor; [apply example_input_ok; lia|]. constructor; [apply example_input_ok; lia|constructor].
    + constructor; [apply example_holds|]. constructor; [apply example_holds|constructor].
    + constructor; [lia|]. constructor; [lia|constructor].
  - intros [g' [[rv sks] c]] (_ & _ & V & _ & _ & Ht & Ef & Lo & KO & KP).
    destruct (simple_transaction_balanced (fun _ => Fail Thrown) false rv Ht KO KP ltac:(rewrite Ef; lia) V)
      as (Os & Ps & _ & EO & _ & EP & Hsum & Hr).
    exists Os, Ps. rewrite Ef in Hsum. split_and!; try done. apply (f_equal length) in EO. rewrite !length_fmap in EO.
    rewrite <- EO. exact Lo.
Defined.

(** ** Range proofs *)

(** C8: for every 64-bit amount, [proveRange] returns the commitment that [commit] makes of the amount and the returned
    mask, and a proof that [verRange] accepts for this commitment and refuses for every other key. *)
Theorem range_proof_exact ndebug ndebug' b amount g :
  initialised g -> length b = 64%nat -> 0 <= amount < 2 ^ 64 ->
  returns (proveRange ndebug b amount g) (fun '(_, (C, mask, sig)) =>
    rct.commit ndebug' amount mask = Ok C /\ forall C', length C' = 32%nat -> verRange C' sig = Ok (bool_decide (C' = C))).
Proof.
  intros Hg Hb Ha. eapply returns_mono; [by apply proveRange_spec|]. intros [g' [[C mask] sig]] (_ & a & Hm & -> & Hv). split; [|done].
  by apply commit_spec.
Qed.

Lemma range_proof_exact_witness :
  returns (proveRange false (replicate 64 0) 1234567 example_rng) (fun '(_, (C, mask, sig)) =>
    rct.commit true 1234567 mask = Ok C /\ forall C', length C' = 32%nat -> verRange C' sig = Ok (bool_decide (C' = C))).
Proof. apply (range_proof_exact false true (replicate 64 0) 1234567 example_rng example_rng_initialised); [reflexivity|lia]. Defined.

(** ** MLSAG signatures *)
Lemma all_scalars_spec ks :
  Forall (fun k => bytes k /\ length k = 32%nat) ks -> all_scalars ks = Ok (bool_decide (Forall (fun k => le_val k < l) ks)).
Proof.
  induction 1 as [|k ks [Hb Hl] _ IH]; [done|]. cbn [all_scalars]. rewrite sc_check_spec, bind_ok by done.
  destruct (decide (le_val k < l)) as [Hk|Hk]; cbn [negb Z.eqb].
  - rewrite IH. f_equal. apply bool_decide_ext. rewrite Forall_cons_iff. tauto.
  - symmetry. f_equal. apply bool_decide_eq_false_2. rewrite Forall_cons_iff. tauto.
Qed.

(** The responses and the challenge as numbers. *)
Definition response_values (sig : mgSig) : list (list Z) := fmap (M := list) (fmap (M := list) le_val) (ss sig).

(** The keys of a signature are strings of 32 bytes, in as many columns and rows as the matrix has. *)
Definition sig_shape (rows n : nat) (sig : mgSig) : Prop :=
  length (ss sig) = n /\ Forall (fun s => length s = rows /\ Forall (fun k => bytes k /\ length k = 32%nat) s) (ss sig) /\
  bytes (cc sig) /\ length (cc sig) = 32%nat.

Lemma sig_shape_scalars rows n sig :
  sig_shape rows n sig -> Forall (fun k => le_val k < l) (concat (ss sig)) -> matrix_scalars rows (ss sig) (response_values sig).
Proof.
  intros (_ & Hs & _). unfold response_values, matrix_scalars. induction Hs as [|s ss [Ls Hk] _ IH]; intros Hl; [constructor|].
  cbn [concat] in Hl. apply Forall_app in Hl as [H1 H2]. cbn [fmap list_fmap]. constructor; [|exact (IH H2)]. split; [|by rewrite length_fmap].
  clear -Hk H1. induction Hk as [|k s [Hb Hl] _ IH]; [constructor|]. apply Forall_cons_1 in H1 as [H1 H2]. cbn [fmap list_fmap].
  constructor; [by apply scalar_of|exact (IH H2)].
Qed.

Lemma sig_shape_keys rows n sig : sig_shape rows n sig -> Forall (fun k => bytes k /\ length k = 32%nat) (concat (ss sig) ++ [cc sig]).
Proof.
  intros (_ & Hs & Hb & Hl). apply Forall_app. split; [|by constructor]. clear -Hs. induction Hs as [|s ss [_ Hk] _ IH]; [constructor|].
  cbn [concat]. by apply Forall_app.
Qed.

(** C9: for a matrix of curve points, key images on the curve and a signature with as many columns and rows as the matrix,
    whose keys are any strings of 32 bytes, [MLSAG_Ver] answers [true] exactly when every response and
    the challenge [cc] are reduced and the challenges, each a hash of the message and of what the responses make of the
    one before, come back to [cc] after the last column. *)
Theorem mlsag_ver_exact ndebug msg rows cols Is sig :
  matrix rows cols -> (2 <= length cols)%nat -> (1 <= rows)%nat -> (length Is <= rows)%nat -> Forall on_curve Is -> II sig = encode <$> Is ->
  sig_shape rows (length cols) sig ->
  MLSAG_Ver ndebug msg (keys <$> cols) sig (length Is) =
    Ok (bool_decide (Forall (fun k => le_val k < l) (concat (ss sig) ++ [cc sig]) /\
                     run msg Is (le_val (cc sig)) cols (response_values sig) = le_val (cc sig))).
Proof.
  intros Hcols Hn Hr Hd HIs HII Hsh. pose proof (all_scalars_spec _ (sig_shape_keys _ _ _ Hsh)) as Hall.
  destruct (decide (Forall (fun k => le_val k < l) (concat (ss sig) ++ [cc sig]))) as [Hred|Hred].
  - pose proof Hred as [Hred1 Hred2]%Forall_app. apply Forall_cons_1 in Hred2 as [Hcc _]. pose proof Hsh as (Ls & _ & Hb & Hl).
    rewrite (MLSAG_Ver_spec ndebug msg rows cols Is (response_values sig) sig (le_val (cc sig))); try done.
    + f_equal. apply bool_decide_ext. tauto.
    + by eapply sig_shape_scalars.
    + by apply scalar_of.
    + unfold response_values. by rewrite length_fmap.
  - rewrite bool_decide_eq_false_2 in Hall by done. rewrite bool_decide_eq_false_2 by tauto.
    destruct (lookup_lt_is_Some_2 cols 0) as [col0 H0]; [lia|]. unfold MLSAG_Ver. rewrite length_fmap, Hall.
    rewrite (get_ok _ _ (keys col0)), bind_ok by (by rewrite list_lookup_fmap, H0).
    by repeat match goal with |- context [if ?b then _ else _] => destruct b end.
Qed.

(** A column of the base point, with its hash point. *)
Lemma mlsag_ver_exact_witness :
  exists P, let cols := [[(B, P)]; [(B, P)]] in let s := le_bytes 32 3 in let sig := MgSig [[s]; [s]] s [encode B] in
  MLSAG_Ver false [1; 2] (keys <$> cols) sig 1 =
    Ok (bool_decide (Forall (fun k => le_val k < l) (concat (ss sig) ++ [cc sig]) /\
                     run [1; 2] [B] (le_val (cc sig)) cols (response_values sig) = le_val (cc sig))).
Proof.
  destruct (hashes_to_exists (encode B)) as [P HP]. exists P. cbv zeta.
  apply (mlsag_ver_exact false [1; 2] 1 [[(B, P)]; [(B, P)]] [B] (MgSig [[le_bytes 32 3]; [le_bytes 32 3]] (le_bytes 32 3) [encode B])); try (cbn; lia).
  - assert (member_ok (B, P)) as HB by (split; [exact B_on_curve|exact HP]).
    repeat (exact HB || apply Forall_cons_2 || apply Forall_nil_2 || split || reflexivity).
  - repeat constructor; exact B_on_curve.
  - reflexivity.
  - split; [reflexivity|]. split; [|split; [apply le_bytes_bytes|apply le_bytes_length]].
    repeat (apply le_bytes_bytes || apply le_bytes_length || apply Forall_cons_2 || apply Forall_nil_2 || split || reflexivity).
Defined.

(** C10: a signature whose first secret key and nonce are shared by several signers: [MLSAG_Gen] with the first signer's parts and
    the common [L], [R] and key image, then one call of [signMultisig] per other signer with its parts and the challenge
    that [MLSAG_Gen] gave out, in any number and order, make a signature that [MLSAG_Ver] accepts when the parts add up to the
    secret key and to the nonce. *)
Theorem multisig_complete ndebug ndebug' msg rows cols index mm mem col x1 X xx vs k1 K signers vals rv g :
  matrix rows cols -> (2 <= length cols)%nat -> cols !! index = Some (mem :: col) -> Forall2 scalar xx (x1 :: vs) -> owned (mem :: col) (X :: vs) ->
  scalar (ms_k mm) k1 -> ms_L mm = public K -> ms_R mm = encode (smul K mem.2) -> ms_ki mm = encode (smul X mem.2) ->
  Forall2 part signers vals -> K = k1 + sum_Z vals.*1 -> X = x1 + sum_Z vals.*2 -> is_full (type rv) = true -> initialised g ->
  returns (let! (g, (sig, c)) := MLSAG_Gen ndebug msg (keys <$> cols) xx (Some mm) true index 1 g in
           cosign (with_MGs rv [sig]) index (default [] c) signers)
    (fun rv' => exists sig, rv' = with_MGs rv [sig] /\ MLSAG_Ver ndebug' msg (keys <$> cols) sig 1 = Ok true).
Proof.
  intros Hcols Ln Hcol Hxx Ho Hk EL ER Eki Hp EK EX Hf Hg.
  by apply (multisig_spec ndebug ndebug' msg rows cols index mm mem col x1 X xx vs k1 K signers vals).
Qed.

(** Three signers with the parts 2, 3 and 4 of the key and 5, 6 and 7 of the nonce. *)
Lemma multisig_complete_witness :
  exists P, let cols := [[(smul 9 B, P)]; [(smul 9 B, P)]] in let rv := RctSig RCTTypeFull [] [] [] [] [] 0 [] [] [] in
  returns (let! (g, (sig, c)) := MLSAG_Gen false [1; 2] (keys <$> cols) [le_bytes 32 2]
             (Some (KLRki (le_bytes 32 5) (public 18) (encode (smul 18 P)) (encode (smul 9 P)))) true 1 1 example_rng in
           cosign (with_MGs rv [sig]) 1 (default [] c) [(le_bytes 32 6, le_bytes 32 3); (le_bytes 32 7, le_bytes 32 4)])
    (fun rv' => exists sig, rv' = with_MGs rv [sig] /\ MLSAG_Ver true [1; 2] (keys <$> cols) sig 1 = Ok true).
Proof.
  destruct (hashes_to_exists (encode (smul 9 B))) as [P HP]. exists P. cbv zeta.
  assert (member_ok (smul 9 B, P)) as HB by (split; [apply smul_B_on_curve|exact HP]).
  apply (multisig_complete false true [1; 2] 1 [[(smul 9 B, P)]; [(smul 9 B, P)]] 1
    (KLRki (le_bytes 32 5) (public 18) (encode (smul 18 P)) (encode (smul 9 P))) (smul 9 B, P) [] 2 9 [le_bytes 32 2] [] 5 18
    [(le_bytes 32 6, le_bytes 32 3); (le_bytes 32 7, le_bytes 32 4)] [(6, 3); (7, 4)]);
    try reflexivity; try (cbn; lia); try exact (scalar_const 5 eq_refl); try exact example_rng_initialised.
  - constructor; [split; [by constructor|reflexivity]|]. constructor; [split; [by constructor|reflexivity]|constructor].
  - constructor; [exact (scalar_const 2 eq_refl)|constructor].
  - constructor; [reflexivity|constructor].
  - constructor; [split; [exact (scalar_const 6 eq_refl)|exact (scalar_const 3 eq_refl)]|].
    constructor; [split; [exact (scalar_const 7 eq_refl)|exact (scalar_const 4 eq_refl)]|constructor].
Defined.

(** ** Conversions *)

(** An amount survives the conversions to a key and to an array of bits and back. *)
Theorem amount_conversions amount b k :
  0 <= amount < 2 ^ 64 -> length b = 64%nat -> length k = 32%nat ->
  (let! h := rct.d2h amount in rct.h2d h) = Ok amount /\ (let! b := rct.d2b b amount in rct.b2d b) = Ok amount /\
  (let! b := rct.d2b b amount in let! h := rct.b2h k b in rct.h2d h) = Ok amount.
Proof.
  intros Ha Hb Hk. assert (rct.h2d (le_bytes 32 amount) = Ok amount) as Hh.
  { rewrite h2d_spec by (apply le_bytes_bytes || rewrite le_bytes_length; lia). change (take 8 (le_bytes 32 amount)) with (le_bytes 8 amount).
    rewrite le_val_bytes. by rewrite Z.mod_small. }
  rewrite d2h_spec, bind_ok, d2b_spec, !bind_ok, b2h_spec, bind_ok by done. split_and!; [done| |done].
  rewrite b2d_spec, bits_val_le_bits by (apply le_bits_is_bits || apply le_bits_length). by rewrite Z.mod_small.
Qed.

(** C30: [h2b] returns the 64 bits of the first eight bytes of a key only when each of these bytes is at least 128; when one of
    them is less, its loop that writes the missing zeros never moves on, whatever the fuel. *)
Theorem h2b_termination test a :
  bytes test -> (8 <= length test)%nat -> length a = 64%nat ->
  (Forall (fun v => 128 <= v) (take 8 test) -> forall fuel, rct.h2b (S fuel) a test = Ok (le_bits 64 (le_val (take 8 test)))) /\
  (~ Forall (fun v => 128 <= v) (take 8 test) -> forall fuel, rct.h2b fuel a test = Fail OutOfFuel).
Proof.
  intros Hb Hl La. split; [intros H fuel; by apply h2b_spec|]. intros (v & Hv & Hlt)%not_Forall_Exists%Exists_exists fuel.
  2: { intros x. apply _. }
  change (~ 128 <= v) in Hlt. apply list_elem_of_In, list_elem_of_lookup_1 in Hv as (j & Hj). apply lookup_take_Some in Hj as [Hj Hj8]. apply (h2b_diverges fuel test a j v); (done || lia).
Qed.

Lemma h2b_termination_witness :
  rct.h2b 1 (replicate 64 0) (replicate 32 200) = Ok (le_bits 64 (le_val (replicate 8 200))) /\
  forall fuel, rct.h2b fuel (replicate 64 0) (replicate 32 1) = Fail OutOfFuel.
Proof.
  split.
  - apply (h2b_termination (replicate 32 200) (replicate 64 0)); [|cbn; lia|reflexivity|].
    + repeat constructor; lia.
    + repeat constructor; lia.
  - apply (h2b_termination (replicate 32 1) (replicate 64 0)); [|cbn; lia|reflexivity|].
    + repeat constructor; lia.
    + intros H. apply Forall_cons_1 in H as [H _]. lia.
Defined.
