(* ===== verification/CurveTheorems.v ===== *)
(** * Theorems on the curve routines of [crypto-ops.c] *)

From stdpp Require Import base list numbers.
From Stdlib Require Import ZArith Lia.
From S2P Require Import Prelude Bytes Limbs Field FieldFacts FieldBytes CurveData Group Edwards Recode ScalarMult GroupFacts GroupSpec BaseTable RecodeFacts ScalarMultFacts PointCodec.

(** ** Instances for the witnesses *)

(** The base point in extended coordinates, with [Z = 1]. *)
Definition B3 : ge_p3 :=
  P3 (Fe (-14297830) (-7645148) 16144683 (-16471763) 27570974 (-2696100) (-26142465) 8378389 20764389 8758491)
     (Fe (-26843541) (-6710886) 13421773 (-13421773) 26843546 6710886 (-13421773) 13421773 (-26843546) (-6710886))
     fe_1
     (Fe 28827062 (-6116119) (-27349572) 244363 8635006 11264893 19351346 13413597 16611511 (-6414980)).

Lemma constant_bytes s : bool_decide (bytes s) = true -> bytes s.
Proof. intros H. exact (bool_decide_eq_true_1 _ H). Defined.

Lemma B3_represents : represents B3 B.
Proof.
  split; [exact B_on_curve|]. exists 1. split; [exact nz_1|].
  split; [apply (bool_decide_eq_true_1 _); vm_compute; reflexivity|].
  split_and!; apply eqp_compute; vm_compute; reflexivity.
Qed.

(** ** Scalar multiplication *)

(** C11: [ge_scalarmult] multiplies: for a scalar below [2^255] and a representation of a curve point [A], it
    returns a representation of [a * A]; no step overflows and no table access leaves its array. *)
Theorem ge_scalarmult_correct ndebug a b P A :
  bytes a -> length a = 32%nat -> a !! 31%nat = Some b -> b <= 127 -> represents P A ->
  returns (ge_scalarmult ndebug a P) (fun r => represents r (smul (le_val a) A)).
Proof. intros Ha La Hb H127 HP. exact (ge_scalarmult_spec a b P A Ha La Hb H127 HP). Qed.

Lemma ge_scalarmult_correct_witness :
  returns (ge_scalarmult false (replicate 32 100) B3) (fun r => represents r (smul (le_val (replicate 32 100)) B)).
Proof.
  apply (ge_scalarmult_correct false (replicate 32 100) 100 B3 B);
    [exact (constant_bytes (replicate 32 100) eq_refl)|reflexivity|reflexivity|lia|exact B3_represents].
Defined.

(** [ge_scalarmult_base] computes [a * B] from the table of precomputed multiples. *)
Theorem ge_scalarmult_base_correct ndebug a b :
  bytes a -> length a = 32%nat -> a !! 31%nat = Some b -> b <= 127 ->
  returns (ge_scalarmult_base ndebug a) (fun h => represents h (smul (le_val a) B)).
Proof. intros Ha La Hb H127. exact (ge_scalarmult_base_spec a b Ha La Hb H127). Qed.

Lemma ge_scalarmult_base_correct_witness :
  returns (ge_scalarmult_base false (replicate 32 100)) (fun h => represents h (smul (le_val (replicate 32 100)) B)).
Proof.
  apply (ge_scalarmult_base_correct false (replicate 32 100) 100);
    [apply constant_bytes; reflexivity|reflexivity|reflexivity|lia].
Defined.

(** C12: [ge_double_scalarmult_base_vartime] computes [a * A + b * B] from the sliding-window recodings,
    for scalars below [2^255], the bound that the recoding of [slide] documents. *)
Theorem ge_double_scalarmult_base_correct a P b A :
  bytes a -> length a = 32%nat -> le_val a < 2 ^ 255 -> bytes b -> length b = 32%nat -> le_val b < 2 ^ 255 ->
  represents P A ->
  returns (ge_double_scalarmult_base_vartime a P b)
    (fun r => represents r (padd (smul (le_val a) A) (smul (le_val b) B))).
Proof.
  intros Ha La Sa Hb Lb Sb HP.
  exact (ge_double_scalarmult_base_vartime_spec a P b A Ha La Sa Hb Lb Sb HP).
Qed.

Lemma ge_double_scalarmult_base_correct_witness :
  returns (ge_double_scalarmult_base_vartime (replicate 32 100) B3 (replicate 32 77))
    (fun r => represents r (padd (smul (le_val (replicate 32 100)) B) (smul (le_val (replicate 32 77)) B))).
Proof.
  apply (ge_double_scalarmult_base_correct (replicate 32 100) B3 (replicate 32 77) B);
    first [apply constant_bytes; reflexivity | reflexivity | exact B3_represents].
Defined.

(** The precomputed variants: with the tables that [ge_dsm_precomp] makes from [G] (and from [A]), both
    [ge_double_scalarmult_precomp_vartime] and [ge_double_scalarmult_precomp_vartime2] compute [a * A + b * G]. *)
Theorem ge_double_scalarmult_precomp_correct a P b Q A G :
  bytes a -> length a = 32%nat -> le_val a < 2 ^ 255 -> bytes b -> length b = 32%nat -> le_val b < 2 ^ 255 ->
  represents P A -> represents Q G ->
  returns (let! Bi := ge_dsm_precomp Q in ge_double_scalarmult_precomp_vartime a P b Bi)
    (fun r => represents r (padd (smul (le_val a) A) (smul (le_val b) G))) /\
  returns (let! Ai := ge_dsm_precomp P in let! Bi := ge_dsm_precomp Q in
           ge_double_scalarmult_precomp_vartime2 a Ai b Bi)
    (fun r => represents r (padd (smul (le_val a) A) (smul (le_val b) G))).
Proof.
  intros Ha La Sa Hb Lb Sb HP HQ.
  pose proof (represents_curve _ _ HP) as HA. pose proof (represents_curve _ _ HQ) as HG. split.
  - eapply returns_bind; [exact (ge_dsm_precomp_spec _ _ HQ)|]. intros Bi HBi.
    exact (ge_double_scalarmult_precomp_vartime_spec a P b Bi A G Ha La Sa Hb Lb Sb HP HG HBi).
  - eapply returns_bind; [exact (ge_dsm_precomp_spec _ _ HP)|]. intros Ai HAi.
    eapply returns_bind; [exact (ge_dsm_precomp_spec _ _ HQ)|]. intros Bi HBi.
    exact (ge_double_scalarmult_precomp_vartime2_spec a Ai b Bi A G Ha La Sa Hb Lb Sb HA HG HAi HBi).
Qed.

Lemma ge_double_scalarmult_precomp_correct_witness :
  let a := replicate 32 100 in let b := replicate 32 77 in
  returns (let! Bi := ge_dsm_precomp B3 in ge_double_scalarmult_precomp_vartime a B3 b Bi)
    (fun r => represents r (padd (smul (le_val a) B) (smul (le_val b) B))) /\
  returns (let! Ai := ge_dsm_precomp B3 in let! Bi := ge_dsm_precomp B3 in
           ge_double_scalarmult_precomp_vartime2 a Ai b Bi)
    (fun r => represents r (padd (smul (le_val a) B) (smul (le_val b) B))).
Proof.
  apply (ge_double_scalarmult_precomp_correct (replicate 32 100) B3 (replicate 32 77) B3 B B);
    first [apply constant_bytes; reflexivity | reflexivity | exact B3_represents].
Defined.

(** ** Tables and recodings *)

(** The two tables of [crypto-ops-data.c] hold what the routines assume: entry [j] of row [i] of [ge_base]
    is [(j+1) * 256^i * B], for all 32 rows of 8 entries, and entry [j] of [ge_Bi] is [(2j+1) * B]. *)
Theorem tables_correct :
  length ge_base = 32%nat /\ length ge_Bi = 8%nat /\
  (forall i row, ge_base !! i = Some row -> length row = 8%nat /\
     forall j Q, row !! j = Some Q -> represents Q (smul ((Z.of_nat j + 1) * 256 ^ Z.of_nat i) B)) /\
  (forall j Q, ge_Bi !! j = Some Q -> represents Q (smul (2 * Z.of_nat j + 1) B)).
Proof.
  destruct ge_base_shape as [L32 L8]. split; [exact L32|]. split; [exact (proj1 ge_Bi_odd)|]. split.
  - intros i row Hi. split; [exact (Forall_lookup_1 _ _ _ _ L8 Hi)|]. intros j Q Hj.
    exact (ge_base_represents i j row Q Hi Hj).
  - exact ge_Bi_represents.
Qed.

(** [slide]: the 256 signed digits are zero or odd of absolute value at most 15, and their weighted sum is
    the scalar; in particular the carry of the window never runs off the array. *)
Theorem slide_correct a :
  bytes a -> length a = 32%nat -> le_val a < 2 ^ 255 ->
  returns (slide a) (fun r => length r = 256%nat /\ rad 2 r = le_val a /\
    Forall (fun x => x = 0 \/ (Z.odd x = true /\ Z.abs x <= 15)) r).
Proof. intros Ha La Sa. exact (slide_spec a Ha La Sa). Qed.

Lemma slide_correct_witness :
  returns (slide (replicate 32 123)) (fun r => length r = 256%nat /\ rad 2 r = le_val (replicate 32 123) /\
    Forall (fun x => x = 0 \/ (Z.odd x = true /\ Z.abs x <= 15)) r).
Proof.
  apply (slide_correct (replicate 32 123)); first [apply constant_bytes; reflexivity | reflexivity].
Defined.

(** The two recodings into 64 signed hexadecimal digits, the one of [ge_scalarmult_base] that splits nibbles
    first and the one of [ge_scalarmult] that carries byte by byte, give the same digits, whose value is the scalar. *)
Theorem recodings_agree a b :
  bytes a -> length a = 32%nat -> a !! 31%nat = Some b -> b <= 127 ->
  recode_base a = recode a /\
  returns (recode a) (fun e => length e = 64%nat /\ rad 16 e = le_val a /\ Forall (fun x => -8 <= x <= 8) e).
Proof.
  intros Ha La Hb H127.
  pose proof (recode_spec a b Ha La Hb H127) as H. pose proof (recode_base_spec a b Ha La Hb H127) as H'.
  apply returns_inv in H as (e & -> & He). apply returns_inv in H' as (e' & -> & He').
  rewrite (radix16_unique e' e _ He' He). split; [reflexivity|]. destruct He as (L & V & D & _). exact (conj L (conj V D)).
Qed.

Lemma recodings_agree_witness :
  recode_base (replicate 32 123) = recode (replicate 32 123) /\
  returns (recode (replicate 32 123)) (fun e => length e = 64%nat /\ rad 16 e = le_val (replicate 32 123) /\
    Forall (fun x => -8 <= x <= 8) e).
Proof.
  apply (recodings_agree (replicate 32 123) 123);
    [apply constant_bytes; reflexivity|reflexivity|reflexivity|lia].
Defined.

(** ** Point encoding *)

(** C14: [ge_frombytes_vartime] accepts exactly the canonical encodings of curve points: it answers with a
    representation of a point whose encoding is the input, and rejects only inputs that encode no point. *)
Theorem ge_frombytes_exact s :
  bytes s -> length s = 32%nat ->
  returns (ge_frombytes_vartime s) (fun o =>
    match o with
    | Some P => exists A, represents P A /\ encode A = s
    | None => forall A, on_curve A -> encode A <> s
    end).
Proof. intros Hs Hl. exact (ge_frombytes_vartime_spec s Hs Hl). Qed.

Lemma ge_frombytes_exact_witness :
  returns (ge_frombytes_vartime (replicate 32 0)) (fun o =>
    match o with
    | Some P => exists A, represents P A /\ encode A = replicate 32 0
    | None => forall A, on_curve A -> encode A <> replicate 32 0
    end).
Proof. apply (ge_frombytes_exact (replicate 32 0)); [apply constant_bytes; reflexivity|reflexivity]. Defined.

(** C15: round trips.  Encoding a represented point, in either coordinate system, and decoding the bytes gives a
    representation of the same point; and what decodes re-encodes to the same bytes, so that no point has two
    accepted encodings. *)
Theorem point_roundtrip P A s :
  represents P A -> bytes s -> length s = 32%nat ->
  returns (let! t := ge_p3_tobytes P in ge_frombytes_vartime t) (fun o => exists Q, o = Some Q /\ represents Q A) /\
  ge_tobytes (ge_p3_to_p2 P) = ge_p3_tobytes P /\
  returns (ge_frombytes_vartime s) (fun o => forall Q, o = Some Q -> ge_p3_tobytes Q = Ok s).
Proof.
  intros HP Hs Hl. pose proof (represents_curve _ _ HP) as HA. split; [|split].
  - rewrite (ge_p3_tobytes_spec P A HP). cbn [bind].
    eapply returns_mono; [exact (ge_frombytes_vartime_spec (encode A) (le_bytes_bytes _ _) (le_bytes_length _ _))|].
    intros [Q|] HQ; [|destruct (HQ A HA eq_refl)]. destruct HQ as (A' & HQ & E). exists Q. split; [reflexivity|].
    pose proof (represents_curve _ _ HQ) as HA'. rewrite <- (encode_inj A' A HA' HA E). exact HQ.
  - rewrite (ge_p3_tobytes_spec P A HP). exact (ge_tobytes_spec _ _ (ge_p3_to_p2_represents _ _ HP)).
  - eapply returns_mono; [exact (ge_frombytes_vartime_spec s Hs Hl)|]. intros o Ho Q ->.
    destruct Ho as (A' & HQ & <-). exact (ge_p3_tobytes_spec Q A' HQ).
Qed.

Lemma point_roundtrip_witness :
  returns (let! t := ge_p3_tobytes B3 in ge_frombytes_vartime t) (fun o => exists Q, o = Some Q /\ represents Q B) /\
  ge_tobytes (ge_p3_to_p2 B3) = ge_p3_tobytes B3 /\
  returns (ge_frombytes_vartime (replicate 32 3)) (fun o => forall Q, o = Some Q -> ge_p3_tobytes Q = Ok (replicate 32 3)).
Proof.
  apply (point_roundtrip B3 B (replicate 32 3)); [exact B3_represents|apply constant_bytes; reflexivity|reflexivity].
Defined.

(** ** The group operations *)

(** C13: refinement of the curve group: addition, subtraction, their mixed variants and doubling compute the
    complete Edwards addition law on the points represented, whatever the two points are (equal, opposite or
    the identity), and [ge_mul8] multiplies by the cofactor 8, without overflow although the field bounds of the header comments are exceeded inside. *)
Theorem group_operations_refine P Q M A C :
  represents P A -> represents Q C -> represents M C ->
  returns (let! c := ge_p3_to_cached Q in ge_add P c) (fun R => represents R (padd A C)) /\
  returns (let! c := ge_p3_to_cached Q in ge_sub P c) (fun R => represents R (padd A (pneg C))) /\
  returns (ge_madd P M) (fun R => represents R (padd A C)) /\
  returns (ge_msub P M) (fun R => represents R (padd A (pneg C))) /\
  returns (let! R := ge_p3_dbl P in ge_p1p1_to_p3 R) (fun R => represents R (padd A A)) /\
  returns (let! R := ge_mul8 (ge_p3_to_p2 P) in ge_p1p1_to_p2 R) (fun R => represents R (smul 8 A)).
Proof.
  intros HP HQ HM. split_and!.
  - ge_step. ge_op.
  - ge_step. ge_op.
  - ge_op.
  - ge_op.
  - ge_step. ge_op.
  - eapply returns_bind; [exact (ge_mul8_represents _ _ (ge_p3_to_p2_represents _ _ HP))|]. intros R HR.
    exact (ge_p1p1_to_p2_represents R _ HR).
Qed.

Lemma group_operations_refine_witness :
  exists M,
  returns (let! c := ge_p3_to_cached B3 in ge_add B3 c) (fun R => represents R (padd B (smul 1 B))) /\
  returns (let! c := ge_p3_to_cached B3 in ge_sub B3 c) (fun R => represents R (padd B (pneg (smul 1 B)))) /\
  returns (ge_madd B3 M) (fun R => represents R (padd B (smul 1 B))) /\
  returns (ge_msub B3 M) (fun R => represents R (padd B (pneg (smul 1 B)))) /\
  returns (let! R := ge_p3_dbl B3 in ge_p1p1_to_p3 R) (fun R => represents R (padd B B)) /\
  returns (let! R := ge_mul8 (ge_p3_to_p2 B3) in ge_p1p1_to_p2 R) (fun R => represents R (smul 8 B)).
Proof.
  destruct (ge_Bi !! 0%nat) as [M|] eqn:E; [|discriminate E]. exists M.
  apply (group_operations_refine B3 B3 M B (smul 1 B)); [exact B3_represents| |exact (ge_Bi_represents 0 M E)].
  rewrite (smul_1 B B_on_curve). exact B3_represents.
Defined.
