(* ===== verification/FieldTheorems.v ===== *)
(** * Theorems on the field and scalar arithmetic of [crypto-ops.c] *)

From stdpp Require Import base list numbers.
From Stdlib Require Import ZArith Lia.
From S2P Require Import Prelude Bytes Limbs Field FieldFacts FieldBytes Prime Edwards Scalar ScalarFacts CurveData Group GroupSpec PointCodec.

(** Instances for the witnesses. *)
Definition f1 : fe := Fe 100000000 (-50000000) 12345678 0 (-1) 33333333 7 50000000 (-99999999) 48000000.
Definition f2 : fe := Fe (-90000000) 40000000 1 2 3 4 5 6 7 (-50000000).
Definition f3 : fe := Fe (-60000000) 30000000 1 2 3 4 5 6 7 (-30000000).

Ltac constant := first [reflexivity | apply (bool_decide_eq_true_1 _); vm_compute; reflexivity].

(** ** The field *)

(** C16: [fe_mul] multiplies modulo [2^255 - 19]: for inputs within 3.3 times the nominal limb sizes no 64-bit
    product, sum or carry overflows, the output is within 1.01 times them, and its value is the product. *)
Theorem fe_mul_correct f g :
  fe_bounded 330 f -> fe_bounded 330 g ->
  returns (fe_mul f g) (fun h => fe_bounded 101 h /\ fe_val h =ₚ fe_val f * fe_val g).
Proof. intros Hf Hg. exact (fe_mul_spec f g Hf Hg). Qed.

Lemma fe_mul_correct_witness :
  returns (fe_mul f1 f2) (fun h => fe_bounded 101 h /\ fe_val h =ₚ fe_val f1 * fe_val f2).
Proof. apply (fe_mul_correct f1 f2); constant. Defined.

(** The squarings are equivalent to the multiplication: [fe_sq] returns the very limbs of [fe_mul f f], and
    [fe_sq2] twice the square. *)
Theorem fe_sq_equivalent f :
  fe_bounded 330 f ->
  fe_sq f = fe_mul f f /\
  returns (fe_sq2 f) (fun h => fe_bounded 101 h /\ fe_val h =ₚ 2 * (fe_val f * fe_val f)).
Proof.
  intros Hf. split.
  - pose proof (fe_sq_products_spec f Hf) as H. apply returns_inv in H as (h & E & -> & _).
    pose proof (fe_mul_products_spec f f Hf Hf) as H. apply returns_inv in H as (h & E' & -> & _).
    unfold fe_sq, fe_mul. rewrite E, E'. reflexivity.
  - eapply returns_mono; [exact (fe_sq2_spec f Hf)|]. intros h [Hb Hv]. split; [exact Hb|]. rewrite Hv.
    apply eqp_of_eq. ring.
Qed.

Lemma fe_sq_equivalent_witness :
  fe_sq f1 = fe_mul f1 f1 /\
  returns (fe_sq2 f1) (fun h => fe_bounded 101 h /\ fe_val h =ₚ 2 * (fe_val f1 * fe_val f1)).
Proof. apply (fe_sq_equivalent f1); constant. Defined.

(** [fe_invert] computes the inverse in the field (the chain of 254 squarings and 11 multiplications is the
    exponent [p - 2], and [p] is prime), and zero for zero. *)
Theorem fe_invert_correct f :
  fe_bounded 330 f ->
  returns (fe_invert f) (fun r => fe_bounded 101 r /\
    (fe_val f =ₚ 0 -> fe_val r =ₚ 0) /\ (~ fe_val f =ₚ 0 -> fe_val f * fe_val r =ₚ 1)).
Proof.
  intros Hf. eapply returns_mono; [exact (fe_invert_spec 330 f Hf ltac:(lia))|].
  intros r [Hb Hr]. split; [exact Hb|]. split.
  - intros H0. rewrite Hr, (eqp_pow _ _ (p - 2) ltac:(unfold p; lia) H0), Z.pow_0_l by (unfold p; lia). reflexivity.
  - intros Hn. rewrite Hr. exact (mul_inv _ Hn).
Qed.

Lemma fe_invert_correct_witness :
  returns (fe_invert f1) (fun r => fe_bounded 101 r /\
    (fe_val f1 =ₚ 0 -> fe_val r =ₚ 0) /\ (~ fe_val f1 =ₚ 0 -> fe_val f1 * fe_val r =ₚ 1)).
Proof. apply (fe_invert_correct f1); constant. Defined.

(** [fe_divpowm1] is the square-root step: if [u/v] is a square then the result [x] satisfies [v x^2 = u] or
    [v x^2 = -u], the two cases that the callers tell apart. *)
Theorem fe_divpowm1_root u v r :
  fe_bounded 330 u -> fe_bounded 330 v -> nz (fe_val v) -> fe_val v * (r * r) =ₚ fe_val u ->
  returns (fe_divpowm1 u v) (fun x => fe_bounded 101 x /\
    (fe_val v * (fe_val x * fe_val x) =ₚ fe_val u \/ fe_val v * (fe_val x * fe_val x) =ₚ - fe_val u)).
Proof.
  intros Hu Hv Hnz Hr. eapply returns_mono; [exact (fe_divpowm1_spec 330 330 u v Hu Hv ltac:(lia) ltac:(lia))|].
  intros x [Hb Hx]. split; [exact Hb|]. exact (candidate_root _ _ _ r Hnz Hx Hr).
Qed.

Lemma fe_divpowm1_root_witness :
  let u := Fe 36 0 0 0 0 0 0 0 0 0 in let v := Fe 4 0 0 0 0 0 0 0 0 0 in
  returns (fe_divpowm1 u v) (fun x => fe_bounded 101 x /\
    (fe_val v * (fe_val x * fe_val x) =ₚ fe_val u \/ fe_val v * (fe_val x * fe_val x) =ₚ - fe_val u)).
Proof.
  apply (fe_divpowm1_root (Fe 36 0 0 0 0 0 0 0 0 0) (Fe 4 0 0 0 0 0 0 0 0 0) 3); try constant.
  unfold nz, eqp. vm_compute. discriminate.
Defined.

(** [fe_tobytes] writes the canonical representative: the 32 bytes are the value reduced below [p], so two
    field elements have the same bytes exactly when they are congruent. *)
Theorem fe_tobytes_canonical g h :
  fe_bounded 330 g -> fe_bounded 330 h ->
  fe_tobytes h = Ok (le_bytes 32 (fe_val h mod p)) /\ (fe_tobytes g = fe_tobytes h <-> fe_val g =ₚ fe_val h).
Proof.
  intros Hg Hh. rewrite (fe_tobytes_spec g Hg), (fe_tobytes_spec h Hh). split; [reflexivity|]. split.
  - intros E. apply (f_equal (fun r => match r with Ok s => le_val s | Fail _ => 0 end)) in E.
    cbv beta iota in E. rewrite !le_val_bytes in E.
    pose proof (mod_p_bound (fe_val g)). pose proof (mod_p_bound (fe_val h)).
    change (256 ^ Z.of_nat 32) with (2 ^ 256) in E.
    rewrite (Z.mod_small (_ mod p) (2 ^ 256)), (Z.mod_small (_ mod p) (2 ^ 256)) in E by lia. exact E.
  - intros E. unfold eqp in E. rewrite E. reflexivity.
Qed.

Lemma fe_tobytes_canonical_witness :
  fe_tobytes f3 = Ok (le_bytes 32 (fe_val f3 mod p)) /\ (fe_tobytes f3 = fe_tobytes f3 <-> fe_val f3 =ₚ fe_val f3).
Proof. apply (fe_tobytes_canonical f3 f3); constant. Defined.

(** Loading and storing round trip: the limbs that [ge_frombytes_vartime] loads from 32 bytes, once carried,
    store back to the same bytes when the value is below [p] (the top bit cleared), and the non-canonical test is
    exactly the test for a value of at least [p]. *)
Theorem fe_load_roundtrip s :
  bytes s -> length s = 32%nat ->
  returns (fe_load s) (fun h =>
    (fe_noncanonical h = true <-> p <= le_val s mod 2 ^ 255) /\
    (le_val s < p -> (let! f := fe_load_carry h in fe_tobytes f) = Ok s)).
Proof.
  intros Hs Hl. eapply returns_mono; [exact (fe_load_spec s Hs Hl)|]. intros h (Hin & Hv & Hc).
  split; [exact Hc|]. intros Hlt. pose proof (fe_load_carry_spec h Hin) as H.
  apply returns_inv in H as (f & -> & Hb & Hf). cbn [bind].
  rewrite (fe_tobytes_spec f (fe_bounded_le 101 330 f Hb ltac:(lia))), Hf, Hv.
  pose proof (le_val_bound _ Hs) as Hpos. rewrite (Z.mod_small _ (2 ^ 255)) by (unfold p in Hlt; lia).
  rewrite Z.mod_small, <- Hl by lia. rewrite le_bytes_val by exact Hs. reflexivity.
Qed.

Lemma fe_load_roundtrip_witness :
  returns (fe_load (replicate 32 5)) (fun h =>
    (fe_noncanonical h = true <-> p <= le_val (replicate 32 5) mod 2 ^ 255) /\
    (le_val (replicate 32 5) < p -> (let! f := fe_load_carry h in fe_tobytes f) = Ok (replicate 32 5))).
Proof. apply (fe_load_roundtrip (replicate 32 5)); constant. Defined.

(** [fe_cmov] selects: it keeps [f] for 0 and takes [g] for 1 in every build, and for any other 32-bit value
    the assertion of debug builds aborts. *)
Theorem fe_cmov_exact f g b :
  fe_bounded 6000 f -> fe_bounded 6000 g -> 0 <= b < 2 ^ 32 ->
  (forall ndebug, b = 0 -> fe_cmov ndebug f g b = Ok f) /\ (forall ndebug, b = 1 -> fe_cmov ndebug f g b = Ok g) /\
  (1 < b -> fe_cmov false f g b = Fail Aborted).
Proof.
  intros Hf Hg Hb. split_and!.
  - intros ndebug ->. rewrite (fe_cmov_spec 6000 f g 0 Hf Hg) by lia. reflexivity.
  - intros ndebug ->. rewrite (fe_cmov_spec 6000 f g 1 Hf Hg) by lia. reflexivity.
  - intros H1. apply fe_cmov_abort; [exact Hb|lia].
Qed.

Lemma fe_cmov_exact_witness :
  (forall ndebug, 2 = 0 -> fe_cmov ndebug f1 f2 2 = Ok f1) /\ (forall ndebug, 2 = 1 -> fe_cmov ndebug f1 f2 2 = Ok f2) /\
  (1 < 2 -> fe_cmov false f1 f2 2 = Fail Aborted).
Proof. apply (fe_cmov_exact f1 f2 2); [constant|constant|lia]. Defined.

(** ** Scalars *)

(** The reductions modulo the group order [l]: [sc_reduce] of 64 bytes and [sc_reduce32] of 32 bytes return
    the canonical 32 bytes, with no 64-bit overflow in any of their multiplications and carries, and
    [sc_reduce32copy] of [rctCryptoOps.c] is equivalent to [sc_reduce32]. *)
Theorem reductions_correct s t :
  bytes s -> length s = 64%nat -> bytes t -> length t = 32%nat ->
  sc_reduce s = Ok (le_bytes 32 (le_val s mod l)) /\
  sc_reduce32 t = Ok (le_bytes 32 (le_val t mod l)) /\ sc_reduce32copy t = sc_reduce32 t.
Proof.
  intros Hs Ls Ht Lt. rewrite (sc_reduce_spec s Hs Ls), (sc_reduce32_spec t Ht Lt).
  split; [reflexivity|]. split; [reflexivity|]. exact (sc_reduce32copy_spec t Ht Lt).
Qed.

Lemma reductions_correct_witness :
  let s := replicate 64 255 in let t := replicate 32 255 in
  sc_reduce s = Ok (le_bytes 32 (le_val s mod l)) /\
  sc_reduce32 t = Ok (le_bytes 32 (le_val t mod l)) /\ sc_reduce32copy t = sc_reduce32 t.
Proof. apply (reductions_correct (replicate 64 255) (replicate 32 255)); constant. Defined.

(** C17: the scalar operations compute in the integers modulo [l] on any 32-byte inputs, reduced or not: sum,
    difference, product, [c + a*b] and [c - a*b]; none overflows. *)
Theorem scalar_operations_correct a b c :
  bytes a -> length a = 32%nat -> bytes b -> length b = 32%nat -> bytes c -> length c = 32%nat ->
  sc_add a b = Ok (le_bytes 32 ((le_val a + le_val b) mod l)) /\
  sc_sub a b = Ok (le_bytes 32 ((le_val a - le_val b) mod l)) /\
  sc_mul a b = Ok (le_bytes 32 ((le_val a * le_val b) mod l)) /\
  sc_muladd a b c = Ok (le_bytes 32 ((le_val c + le_val a * le_val b) mod l)) /\
  sc_mulsub a b c = Ok (le_bytes 32 ((le_val c - le_val a * le_val b) mod l)).
Proof.
  intros Ha La Hb Lb Hc Lc. split_and!.
  - exact (sc_add_spec a b Ha La Hb Lb).
  - exact (sc_sub_spec a b Ha La Hb Lb).
  - exact (sc_mul_spec a b Ha La Hb Lb).
  - exact (sc_muladd_spec a b c Ha La Hb Lb Hc Lc).
  - exact (sc_mulsub_spec a b c Ha La Hb Lb Hc Lc).
Qed.

Lemma scalar_operations_correct_witness :
  let a := replicate 32 255 in let b := replicate 32 254 in let c := replicate 32 1 in
  sc_add a b = Ok (le_bytes 32 ((le_val a + le_val b) mod l)) /\
  sc_sub a b = Ok (le_bytes 32 ((le_val a - le_val b) mod l)) /\
  sc_mul a b = Ok (le_bytes 32 ((le_val a * le_val b) mod l)) /\
  sc_muladd a b c = Ok (le_bytes 32 ((le_val c + le_val a * le_val b) mod l)) /\
  sc_mulsub a b c = Ok (le_bytes 32 ((le_val c - le_val a * le_val b) mod l)).
Proof. apply (scalar_operations_correct (replicate 32 255) (replicate 32 254) (replicate 32 1)); constant. Defined.

(** [sc_check] is the range test: 0 for a value below [l] and -1 otherwise, [sc_isnonzero] the zero test; the
    result of every reduction passes the range test. *)
Theorem sc_check_exact s :
  bytes s -> length s = 32%nat ->
  sc_check s = Ok (if decide (le_val s < l) then 0 else -1) /\
  sc_isnonzero s = (if decide (le_val s = 0) then 0 else 1) /\
  (let! r := sc_reduce32 s in sc_check r) = Ok 0.
Proof.
  intros Hs Hl. split; [exact (sc_check_spec s Hs Hl)|]. split; [exact (sc_isnonzero_spec s Hs)|].
  rewrite (sc_reduce32_spec s Hs Hl). cbn [bind].
  rewrite (sc_check_spec _ (le_bytes_bytes _ _) (le_bytes_length _ _)), le_val_reduced.
  rewrite decide_True; [reflexivity|]. apply Z.mod_pos_bound. unfold l. lia.
Qed.

Lemma sc_check_exact_witness :
  sc_check (le_bytes 32 l) = Ok (if decide (le_val (le_bytes 32 l) < l) then 0 else -1) /\
  sc_isnonzero (le_bytes 32 l) = (if decide (le_val (le_bytes 32 l) = 0) then 0 else 1) /\
  (let! r := sc_reduce32 (le_bytes 32 l) in sc_check r) = Ok 0.
Proof. apply (sc_check_exact (le_bytes 32 l)); constant. Defined.
