(* ===== verification/ConsensusTheorems.v ===== *)
(** * Consensus rules: proof of work, difficulty, reward and hard forks

    The properties of [IntUtil], [Difficulty], [Reward] and [HardFork]. *)

From stdpp Require Import base list numbers gmap.
From Stdlib Require Import ZArith Lia.
From S2P Require Import Prelude Bytes IntUtil Difficulty Reward HardFork HardForkFacts.

(** ** Wide integers *)

(** On 64-bit words, [mul128] and the multiplication that other platforms
    use give the same two words, those of the product, and no assertion fails;
    [div128_32] of the two words by a 32-bit divisor gives the quotient, in two
    words, and the remainder. *)
Theorem wide_arithmetic_exact (ndebug : bool) (x y divisor : Z) :
  is_u64 x -> is_u64 y -> 0 < divisor < 2 ^ 32 ->
  exists lo hi qhi qlo r, mul128 ndebug x y = Ok (lo, hi) /\ mul_portable x y = (lo, hi) /\
    is_u64 lo /\ is_u64 hi /\ 2 ^ 64 * hi + lo = x * y /\
    div128_32 hi lo divisor = Ok (r, qhi, qlo) /\ is_u64 qhi /\ is_u64 qlo /\
    x * y = divisor * (2 ^ 64 * qhi + qlo) + r /\ 0 <= r < divisor.
Proof.
  intros Hx Hy Hd. rewrite mul128_spec, mul_portable_spec by done.
  assert (0 <= x * y < 2 ^ 64 * 2 ^ 64) as Hp by (unfold is_u64 in *; nia).
  assert (is_u64 ((x * y) mod 2 ^ 64) /\ is_u64 (x * y / 2 ^ 64)) as [Hlo Hhi]
    by (unfold is_u64; Z.to_euclidean_division_equations; lia).
  do 5 eexists. split; [done|]. split; [done|]. rewrite div128_32_spec by done.
  rewrite <- (Z.div_mod (x * y) (2 ^ 64)) by lia. split; [done|]. split; [done|]. split; [done|]. split; [done|].
  assert (0 <= x * y / divisor <= x * y) as Hq by (Z.to_euclidean_division_equations; nia).
  split; [unfold is_u64; Z.to_euclidean_division_equations; lia|].
  split; [unfold is_u64; Z.to_euclidean_division_equations; lia|].
  rewrite <- (Z.div_mod (x * y / divisor) (2 ^ 64)) by lia.
  split; [apply Z.div_mod; lia|apply Z.mod_pos_bound; lia].
Qed.

Lemma wide_arithmetic_exact_witness :
  exists lo hi qhi qlo r, mul128 false (2 ^ 64 - 1) (2 ^ 64 - 1) = Ok (lo, hi) /\ mul_portable (2 ^ 64 - 1) (2 ^ 64 - 1) = (lo, hi) /\
    is_u64 lo /\ is_u64 hi /\ 2 ^ 64 * hi + lo = (2 ^ 64 - 1) * (2 ^ 64 - 1) /\
    div128_32 hi lo 10 = Ok (r, qhi, qlo) /\ is_u64 qhi /\ is_u64 qlo /\
    (2 ^ 64 - 1) * (2 ^ 64 - 1) = 10 * (2 ^ 64 * qhi + qlo) + r /\ 0 <= r < 10.
Proof. apply (wide_arithmetic_exact false (2 ^ 64 - 1) (2 ^ 64 - 1) 10); unfold is_u64; lia. Defined.

(** ** Proof of work *)

(** C20: [check_hash] accepts a hash exactly when its value, read as a
    little-endian number, times the difficulty is below 2^256, with either
    multiplication and in either build; in particular a hash that passes a
    difficulty passes every smaller one. *)
Theorem check_hash_exact (x86_64 ndebug : bool) (hash : list Z) (difficulty : Z) :
  bytes hash -> length hash = 32%nat -> is_u64 difficulty ->
  check_hash x86_64 ndebug hash difficulty = Ok (bool_decide (le_val hash * difficulty < 2 ^ 256)) /\
  (forall d, 0 <= d <= difficulty -> check_hash x86_64 ndebug hash difficulty = Ok true -> check_hash x86_64 ndebug hash d = Ok true).
Proof.
  intros Hb Hl Hd. rewrite check_hash_spec by done. split.
  - f_equal. destruct (Z.ltb_spec (le_val hash * difficulty) (2 ^ 256)); [by rewrite bool_decide_true|by rewrite bool_decide_false by lia].
  - intros d Hle E. injection E as E. apply Z.ltb_lt in E. rewrite check_hash_spec by (try done; unfold is_u64 in *; lia).
    f_equal. apply Z.ltb_lt. pose proof (le_val_bound hash Hb). nia.
Qed.

Lemma check_hash_exact_witness :
  check_hash false true (replicate 31 0 ++ [1]) 200 = Ok (bool_decide (le_val (replicate 31 0 ++ [1]) * 200 < 2 ^ 256)) /\
  (forall d, 0 <= d <= 200 -> check_hash false true (replicate 31 0 ++ [1]) 200 = Ok true ->
    check_hash false true (replicate 31 0 ++ [1]) d = Ok true).
Proof.
  apply (check_hash_exact false true (replicate 31 0 ++ [1]) 200).
  - repeat constructor; lia.
  - reflexivity.
  - unfold is_u64. lia.
Defined.

(** ** Difficulty *)

(** C21: over the first 720 blocks, sorted by time and with all but the middle 600 cut
    off, [next_difficulty] returns the least difficulty at which the work of
    the window takes at least the target time per block, or 0 when it does not
    fit in 64 bits; the order of the timestamps of a window does not matter. *)
Theorem next_difficulty_exact (x86_64 ndebug : bool) (ts ds : list Z) (target : Z) :
  Forall is_u64 ts -> Forall is_u64 ds -> is_u64 target -> length ts = length ds -> (2 <= length ts)%nat ->
  let ts' := take DIFFICULTY_WINDOW ts in let ds' := take DIFFICULTY_WINDOW ds in
  0 < work ds' ->
  exists d, next_difficulty x86_64 ndebug ts ds target = Ok d /\
    (if decide (2 ^ 64 <= work ds' * target + span ts' - 1) then d = 0
     else 0 <= d /\ work ds' * target <= d * span ts' /\ (d - 1) * span ts' < work ds' * target) /\
    (forall tsp, (length ts <= DIFFICULTY_WINDOW)%nat -> tsp ≡ₚ ts -> next_difficulty x86_64 ndebug tsp ds target = Ok d).
Proof.
  intros Hts Hds Ht Hl Hn ts' ds' Hw. exists (target_difficulty ts' ds' target).
  split; [by apply next_difficulty_spec|]. split.
  - unfold target_difficulty. assert (1 <= span ts') as Hs by (unfold span; lia).
    assert (0 <= work ds' * target) as Hp by (unfold is_u64 in Ht; nia).
    case_decide as Hd; [by rewrite (proj2 (Z.leb_le _ _) Hd)|]. rewrite (proj2 (Z.leb_gt _ _)) by lia.
    generalize dependent (work ds' * target). generalize dependent (span ts'). intros s Hs p Hp Hd.
    pose proof (Z.div_mod (p + s - 1) s ltac:(lia)) as E. pose proof (Z.mod_pos_bound (p + s - 1) s ltac:(lia)).
    split; [apply Z.div_pos; lia|]. nia.
  - intros tsp Hlen Hp. assert (length tsp = length ts) as El by (by apply Permutation_length).
    rewrite next_difficulty_spec; [|by rewrite Hp|done|done|congruence|lia|done].
    unfold ts', ds'. rewrite !(take_ge ts), !(take_ge tsp) by lia. unfold target_difficulty, span.
    by rewrite (sort_perm _ _ Hp).
Qed.

Lemma next_difficulty_exact_witness :
  exists d, next_difficulty true false [300; 100; 200] [1000; 3000; 7000] 120 = Ok d /\
    (if decide (2 ^ 64 <= work [1000; 3000; 7000] * 120 + span [300; 100; 200] - 1) then d = 0
     else 0 <= d /\ work [1000; 3000; 7000] * 120 <= d * span [300; 100; 200] /\
       (d - 1) * span [300; 100; 200] < work [1000; 3000; 7000] * 120) /\
    (forall tsp, (3 <= DIFFICULTY_WINDOW)%nat -> tsp ≡ₚ [300; 100; 200] ->
      next_difficulty true false tsp [1000; 3000; 7000] 120 = Ok d).
Proof.
  apply (next_difficulty_exact true false [300; 100; 200] [1000; 3000; 7000] 120).
  - repeat constructor; lia.
  - repeat constructor; lia.
  - unfold is_u64. lia.
  - reflexivity.
  - cbn. lia.
  - vm_compute. reflexivity.
Defined.

(** ** The block reward *)

(** C22: [get_block_reward] pays the base reward, a 2^20th (2^19th from version
    2 on) of the coins that are left and at least the tail subsidy, for a block
    up to the median size or the free zone; [base (2 m - s) s / m^2], which is
    less, for a larger one; and refuses a block of more than twice the median.
    No assertion fails and no product overflows. *)
Theorem get_block_reward_exact (ndebug : bool) (version median_size size coins : Z) :
  is_u64 coins -> 0 <= size -> 0 <= median_size < 2 ^ 31 ->
  let m := Z.max (get_min_block_size version) median_size in
  let minutes := if decide (version < 2) then 1 else 2 in
  let base := Z.max ((MONEY_SUPPLY - coins) / 2 ^ (21 - minutes)) (FINAL_SUBSIDY_PER_MINUTE * minutes) in
  exists o, get_block_reward ndebug median_size size coins version = Ok o /\
    (size <= m -> o = Some base) /\
    (m < size <= 2 * m -> exists r, o = Some r /\ r = base * ((2 * m - size) * size) / (m * m) /\ 0 <= r < base) /\
    (2 * m < size -> o = None).
Proof.
  intros Hc Hs Hm m minutes base. pose proof (get_min_block_size_bounds version) as Hz.
  assert (get_base_reward version coins = base) as Eb.
  { rewrite get_base_reward_spec by done. rewrite target_minutes_spec. unfold base, minutes.
    destruct (Z.ltb_spec version 2); [by rewrite decide_True|by rewrite decide_False by lia]. }
  pose proof (get_base_reward_bounds version coins Hc) as Hb. rewrite Eb in Hb.
  rewrite get_block_reward_spec by (done || lia || (unfold effective_median; lia)).
  eexists. split; [done|]. cbv zeta. unfold effective_median. fold m. rewrite Eb. split_and!.
  - intros H1. by rewrite decide_True.
  - intros H1. rewrite decide_False, decide_True by lia. exists (penalised base m size).
    split; [done|]. split; [done|]. apply penalised_bounds; lia.
  - intros H1. by rewrite decide_False, decide_False by lia.
Qed.

Lemma get_block_reward_exact_witness :
  exists o, get_block_reward false 300000 450000 (2 ^ 63) 6 = Ok o /\
    (450000 <= 300000 -> o = Some 17592186044415) /\
    (300000 < 450000 <= 2 * 300000 ->
      exists r, o = Some r /\ r = 17592186044415 * ((2 * 300000 - 450000) * 450000) / (300000 * 300000) /\ 0 <= r < 17592186044415) /\
    (2 * 300000 < 450000 -> o = None).
Proof. apply (get_block_reward_exact false 6 300000 450000 (2 ^ 63)); unfold is_u64; lia. Defined.

(** ** Hard forks

    A database in memory, for the examples: the blocks and the recorded versions. *)
Record memdb := MemDB { mem_blocks : list block; mem_versions : gmap nat nat }.

#[export] Instance memdb_db : BlockchainDB memdb := {
  db_height db := length (mem_blocks db);
  get_block_from_height db h := match mem_blocks db !! h with Some b => Ok b | None => Fail Thrown end;
  get_hard_fork_version db h := match mem_versions db !! h with Some v => Ok v | None => Fail Thrown end;
  set_hard_fork_version db h v := MemDB (mem_blocks db) (<[h := v]> (mem_versions db))
}.

#[export] Instance memdb_laws : BlockchainDBLaws memdb.
Proof.
  split; cbn.
  - intros db h Hh. destruct (lookup_lt_is_Some_2 _ _ Hh) as [b ->]. by exists b.
  - intros db h v. by rewrite lookup_insert_eq.
  - intros db h v h' Hne. by rewrite lookup_insert_ne.
  - done.
  - done.
Qed.

Lemma memdb_chain bs vs : holds_chain bs (MemDB bs vs).
Proof. split; [done|]. intros n b Hb. cbn. by rewrite Hb. Qed.

(** Two forks, a window of two blocks and a majority of both. *)
Definition sample_config : config := Config 1 0 0 0 2 100.
Definition sample_schedule : list Params := [Fork 1 0 0 1; Fork 2 1 100 2].
Definition sample_chain : list block := [Block 1 0; Block 1 2; Block 1 2; Block 2 2].

Lemma sample_ok : schedule_ok sample_config sample_schedule.
Proof.
  apply (ordered_schedule _ _ (Fork 1 0 0 1)); try (done || (cbn; lia)).
  - change sample_schedule with (([] ++ [Fork 1 0 0 1]) ++ [Fork 2 1 100 2]).
    apply ordered_snoc; [apply ordered_snoc|].
    + split; [done|constructor].
    + split_and!; [done|cbn; lia|done].
    + unfold addable, later. cbn. lia.
  - repeat constructor; cbn; lia.
Qed.

Lemma sample_accepted : accepted_from sample_config sample_schedule sample_chain 1.
Proof.
  intros n b Hn Hb. do 4 (destruct n as [|n]; [cbn in Hb; try lia; injection Hb as <-; by vm_compute|]). done.
Qed.

(** [add_fork] keeps the schedule in order: it appends a fork exactly when
    its version, height and time are above those of the last one, its version
    is not 0 and its threshold is at most 100%, and leaves it alone otherwise;
    the schedule it builds is one that the other theorems need. *)
Theorem add_fork_ordered (c : config) (version height threshold : nat) (time : Z) (hf : hardfork) :
  ordered (heights hf) ->
  let p := Fork version height threshold time in
  let '(hf', ok) := add_fork version height threshold time hf in
  ordered (heights hf') /\ ok = bool_decide (addable (heights hf) p) /\
  heights hf' = heights hf ++ (if ok then [p] else []) /\
  (forall q, heights hf' !! 0%nat = Some q -> fork_version q = original_version c ->
    Forall (fun p => fork_version p < 256)%nat (heights hf') -> (1 <= window_size c)%nat -> Z.of_nat (window_size c) < 2 ^ 32 - 1 ->
    schedule_ok c (heights hf')).
Proof.
  intros Ho p. rewrite add_fork_spec. cbv zeta. fold p. case_decide as Hd.
  - rewrite bool_decide_true by done. cbn [heights]. pose proof (ordered_snoc _ _ Ho Hd) as Ho'.
    split_and!; [done|done|done|]. intros q Hq Hv H256 Hw1 Hw2. by apply (ordered_schedule c _ q).
  - rewrite bool_decide_false by done. split_and!; [done|done|by rewrite app_nil_r|].
    intros q Hq Hv H256 Hw1 Hw2. by apply (ordered_schedule c _ q).
Qed.

Lemma add_fork_ordered_witness :
  let p := Fork 2 1 100 2 in
  let '(hf', ok) := add_fork 2 1 100 2 (Hf [] [] [] 0) in
  ordered (heights hf') /\ ok = bool_decide (addable [] p) /\ heights hf' = [] ++ (if ok then [p] else []) /\
  (forall q, heights hf' !! 0%nat = Some q -> fork_version q = original_version sample_config ->
    Forall (fun p => fork_version p < 256)%nat (heights hf') -> (1 <= window_size sample_config)%nat ->
    Z.of_nat (window_size sample_config) < 2 ^ 32 - 1 -> schedule_ok sample_config (heights hf')).
Proof. apply (add_fork_ordered sample_config 2 1 100 2 (Hf [] [] [] 0)). split; [done|constructor]. Defined.

(** The vote elects the last fork of the schedule whose height is reached
    and for which, with the forks after it, enough of the window voted; the
    fork in force stays when none after it qualifies, so that forks never go
    back while blocks are added. *)
Theorem get_voted_fork_index_exact (c : config) (H : list Params) (ws : list nat) (vs : list nat) (index height : nat) :
  schedule_ok c H -> Z.of_nat (length ws) < 2 ^ 32 -> (index < length H)%nat ->
  exists n, get_voted_fork_index c (Hf H vs (counters ws) index) height = Ok n /\
    (index <= n < length H)%nat /\
    (n = index \/ exists p, H !! n = Some p /\ (fork_height p <= height)%nat /\ Z.of_nat (window_size c) * Z.of_nat (fork_threshold p) <= 100 * Z.of_nat (support H ws n)) /\
    (forall m p, (n < m)%nat -> H !! m = Some p -> (height < fork_height p)%nat \/ 100 * Z.of_nat (support H ws m) < Z.of_nat (window_size c) * Z.of_nat (fork_threshold p)).
Proof.
  intros Hok Hws Hi. exists (next_index c H ws height index). split; [by apply get_voted_fork_index_spec|].
  destruct (elected_spec c H ws height index (length H - 1)) as (H1 & H2 & H3). fold (next_index c H ws height index) in *.
  pose proof (next_index_bound c H ws height index Hi) as Hb. split; [lia|]. split.
  - destruct (decide (next_index c H ws height index = index)) as [E|Hne]; [by left|right]. destruct (H2 Hne) as [_ He].
    unfold eligible in He. destruct (H !! next_index c H ws height index) as [p|]; [|done]. exists p.
    apply andb_prop in He as [He1 He2]. split_and!; [done|by apply Nat.leb_le|by apply Z.leb_le].
  - intros m p Hm Hp. pose proof (lookup_lt_Some _ _ _ Hp). specialize (H3 m ltac:(lia)). unfold eligible in H3. rewrite Hp in H3.
    apply andb_false_iff in H3 as [H3|H3]; [left; by apply Nat.leb_gt|right; by apply Z.leb_gt].
Qed.

Lemma get_voted_fork_index_exact_witness :
  exists n, get_voted_fork_index sample_config (Hf sample_schedule [2; 2]%nat (counters [2; 2]%nat) 0) 3 = Ok n /\
    (0 <= n < 2)%nat /\
    (n = 0%nat \/ exists p, sample_schedule !! n = Some p /\ (fork_height p <= 3)%nat /\
      Z.of_nat (window_size sample_config) * Z.of_nat (fork_threshold p) <= 100 * Z.of_nat (support sample_schedule [2; 2]%nat n)) /\
    (forall m p, (n < m)%nat -> sample_schedule !! m = Some p ->
      (3 < fork_height p)%nat \/ 100 * Z.of_nat (support sample_schedule [2; 2]%nat m) < Z.of_nat (window_size sample_config) * Z.of_nat (fork_threshold p)).
Proof.
  apply (get_voted_fork_index_exact sample_config sample_schedule [2; 2]%nat [2; 2]%nat 0 3); [apply sample_ok|cbn; lia|cbn; lia].
Defined.

Section Database.
Context {DB : Type} `{BlockchainDBLaws DB}.

(** C19: [add] of the next block of a chain accepts it exactly when its version
    is the one in force and its vote is not below; then the window holds the
    votes of the last [window_size] blocks, the counters count that window, the
    fork is the one those votes elect and the version is recorded for the
    height.  A refused block changes nothing.  No assertion fails. *)
Theorem add_refines (c : config) (hs : list Params) (bs : list block) (ndebug : bool) (n : nat) (b : block) (db : DB) :
  schedule_ok c hs -> bs !! n = Some b ->
  add ndebug c b n (state_at c hs bs n) db =
    Ok (if bool_decide (get_block_version b = version_at c hs bs n /\ (version_at c hs bs n <= get_block_vote b)%nat)
        then (state_at c hs bs (S n), set_hard_fork_version db n (version_at c hs bs n), true)
        else (state_at c hs bs n, db, false)) /\
  versions (state_at c hs bs (S n)) = lastn (window_size c) (block_vote hs <$> take (S n) bs) /\
  last_versions (state_at c hs bs (S n)) = counters (versions (state_at c hs bs (S n))) /\
  (fork_at c hs bs n <= fork_at c hs bs (S n) < length hs)%nat.
Proof.
  intros Hok Hb. split; [|split; [done|split; [done|split; [apply fork_at_mono; lia|by apply fork_at_bound]]]].
  rewrite (add_spec c hs bs Hok ndebug n b db Hb). f_equal. unfold accepted.
  destruct (Nat.eqb_spec (get_block_version b) (version_at c hs bs n)) as [E1|E1],
    (Nat.leb_spec (version_at c hs bs n) (get_block_vote b)) as [E2|E2]; cbn [andb];
    [by rewrite bool_decide_true|by rewrite bool_decide_false by lia..].
Qed.

(** [reorganize_from_block_height], from any later state of the object and
    with the version of that height recorded, rebuilds the state of the whole
    chain and records the version of every later block; earlier versions and
    the blocks stay.  Past the end of the chain it returns [false]. *)
Theorem reorganize_restores (c : config) (hs : list Params) (bs : list block) (ndebug : bool) (h : nat) (hf : hardfork) (db : DB) :
  schedule_ok c hs -> holds_chain bs db -> heights hf = hs -> (fork_at c hs bs h <= current_fork_index hf < length hs)%nat ->
  (h <> 0%nat -> get_hard_fork_version db h = Ok (version_at c hs bs h)) -> accepted_from c hs bs (S h) ->
  if decide (h < length bs)%nat then
    exists db', reorganize_from_block_height ndebug c h hf db = Ok (Some (state_at c hs bs (length bs), db')) /\
      holds_chain bs db' /\
      (forall n, (h < n < length bs)%nat -> get_hard_fork_version db' n = Ok (version_at c hs bs n)) /\
      (forall n, (n <= h)%nat -> get_hard_fork_version db' n = get_hard_fork_version db n)
  else reorganize_from_block_height ndebug c h hf db = Ok None.
Proof.
  intros Hok Hdb EH Hi Hv Hacc. case_decide as Hh.
  - destruct (reorganize_spec c hs bs Hok ndebug db h hf Hdb Hh EH Hi Hv Hacc) as (db' & E & Hd & Hr & Ho).
    exists db'. split_and!; [done|done| |done]. intros n Hn. apply Hr. lia.
  - unfold reorganize_from_block_height. rewrite (proj1 Hdb). by rewrite (proj2 (Nat.leb_le _ _)) by lia.
Qed.

(** C18: [init] restores the state of the chain that the database holds, whether
    the versions were recorded (it scans the last window only and leaves the
    database alone) or not (it replays the chain and records them all); the
    state is the one that adding the blocks one by one would have reached. *)
Theorem init_restores (c : config) (hs : list Params) (bs : list block) (ndebug : bool) (hf : hardfork) (db : DB) :
  schedule_ok c hs -> holds_chain bs db -> heights hf = hs -> accepted_from c hs bs 1 ->
  (forall v, get_hard_fork_version db 0 = Ok v -> recorded c hs bs 0 (length bs) db) ->
  exists db', init ndebug c hf db = Ok (state_at c hs bs (length bs), db') /\ holds_chain bs db' /\
    recorded c hs bs 0 (length bs) db' /\
    ((exists v, get_hard_fork_version db 0 = Ok v) -> db' = db) /\ (exists v, get_hard_fork_version db' 0 = Ok v).
Proof.
  intros Hok Hdb EH Hacc Hrec. destruct (get_hard_fork_version db 0) as [v|f] eqn:E0.
  - specialize (Hrec v eq_refl). exists db. split; [|split_and!; [done|done|done|by exists v]].
    apply (init_populated c hs bs Hok ndebug db hf v Hdb EH E0). intros Hne. apply Hrec.
    assert (length bs <> 0%nat) by (by intros ?%length_zero_iff_nil). lia.
  - destruct (init_unpopulated c hs bs Hok ndebug db hf f Hdb EH E0 Hacc) as (db' & E & Hd & Hr).
    exists db'. split_and!; [done|done| | |].
    + intros n Hn. apply Hr. lia.
    + intros [v Hv]. done.
    + exists (version_at c hs bs 0). apply Hr. lia.
Qed.

(** After [n] blocks, [get] answers the recorded version below [n], the
    version in force at [n] and, beyond, 255 in release builds and an abort in
    debug builds; [check] and [check_for_height] of the next height agree. *)
Theorem version_queries_exact (c : config) (hs : list Params) (bs : list block) (ndebug : bool) (db : DB) (b : block) (h : nat) :
  schedule_ok c hs -> holds_chain bs db -> recorded c hs bs 0 (length bs) db -> bs <> [] ->
  let hf := state_at c hs bs (length bs) in
  (if decide (h <= length bs)%nat then get_version ndebug hf db h = Ok (version_at c hs bs h)
   else get_version ndebug hf db h = if ndebug then Ok 255%nat else Fail Aborted) /\
  check hf b = Ok (accepted c hs bs (length bs) b) /\
  check_for_height c hf b (length bs) = Ok (accepted c hs bs (length bs) b).
Proof.
  intros Hok Hdb Hr Hne hf. split; [|split; [by apply check_state|apply check_for_height_state; [done|]]].
  - case_decide as Hh; [by apply get_version_state|]. unfold get_version. rewrite (proj1 Hdb), (proj2 (Nat.ltb_lt _ _)) by lia.
    by destruct ndebug.
  - assert (length bs <> 0%nat) by (by intros ?%length_zero_iff_nil). lia.
Qed.

(** [get_voting_info] reports whether the version is in force, the size of
    the window and the votes in it for that version or a later one, and the
    last version of the schedule as the one voted for. *)
Theorem get_voting_info_exact (c : config) (hs : list Params) (bs : list block) (n version : nat) (p q : Params) :
  schedule_ok c hs -> hs !! fork_at c hs bs n = Some p -> list.last hs = Some q -> (version < 256)%nat ->
  Z.of_nat (window_size c) <= 2 ^ 24 ->
  exists h, get_voting_info (state_at c hs bs n) version =
    Ok (bool_decide (version <= version_at c hs bs n)%nat, Z.of_nat (length (window c hs bs n)),
        Z.of_nat (votes_from version (window c hs bs n)),
        (Z.of_nat (length (window c hs bs n)) * Z.of_nat (fork_threshold p) + 99) / 100, h, fork_version q) /\
    (h = 0%nat \/ exists m r, hs !! m = Some r /\ h = fork_height r /\ (fork_version r <= version)%nat).
Proof.
  intros Hok Hp Hq Hv Hw. unfold get_voting_info. cbn [state_at heights current_fork_index versions last_versions].
  rewrite (get_ok _ _ _ Hp). cbn [bind]. pose proof (lastn_length (window_size c) (votes hs bs n)) as Hl. fold (window c hs bs n) in Hl.
  pose proof (votes_from_le version (window c hs bs n)) as Hvl.
  rewrite (votes_loop _ _ _ 0) by (apply window_votes || lia; done). cbn [bind].
  destruct (schedule_versions _ _ Hok _ _ Hp) as [_ Ht]. pose proof (schedule_nonempty c hs Hok) as Hne.
  rewrite last_lookup in Hq. replace (pred (length hs)) with (length hs - 1)%nat in Hq by lia.
  unfold state_at, get_earliest_ideal_height_for_version, get_ideal_version. cbn [heights].
  pose proof (find_fork_spec hs (fun p => (fork_version p <=? version)%nat) (length hs - 1) ltac:(lia)) as Hf.
  apply returns_inv in Hf as (o & -> & Ho). cbn [bind]. rewrite (get_ok _ _ _ Hq).
  assert (bool_decide (version <= version_at c hs bs n)%nat = (version <=? fork_version p)%nat) as ->.
  { unfold version_at. rewrite Hp. by destruct (Nat.leb_spec version (fork_version p)); [rewrite bool_decide_true|rewrite bool_decide_false by lia]. }
  assert (u32 (Z.of_nat (length (window c hs bs n))) = Z.of_nat (length (window c hs bs n))) as -> by (apply Z.mod_small; lia).
  assert (u32 (u32 (Z.of_nat (length (window c hs bs n)) * Z.of_nat (fork_threshold p)) + 99) =
    Z.of_nat (length (window c hs bs n)) * Z.of_nat (fork_threshold p) + 99) as ->.
  { assert (0 <= Z.of_nat (length (window c hs bs n)) <= 2 ^ 24 /\ 0 <= Z.of_nat (fork_threshold p) <= 100) as [HL HT] by lia.
    generalize dependent (Z.of_nat (length (window c hs bs n))). generalize dependent (Z.of_nat (fork_threshold p)). clear.
    intros t Ht l Hl. assert (0 <= l * t <= 2 ^ 24 * 100) by nia. unfold u32. rewrite (Z.mod_small (l * t)), Z.mod_small by lia. done. }
  destruct o as [m|].
  - destruct Ho as (_ & (r & Hr & Hf) & _). rewrite (get_ok _ _ _ Hr). cbn [bind]. exists (fork_height r). split; [done|].
    right. exists m, r. split_and!; [done|done|by apply Nat.leb_le].
  - cbn [bind]. exists 0%nat. split; [done|by left].
Qed.
End Database.

Lemma add_refines_witness :
  add false sample_config (Block 2 2) 3 (state_at sample_config sample_schedule sample_chain 3) (MemDB sample_chain ∅) =
    Ok (if bool_decide (2%nat = version_at sample_config sample_schedule sample_chain 3 /\
          (version_at sample_config sample_schedule sample_chain 3 <= 2)%nat)
        then (state_at sample_config sample_schedule sample_chain 4,
          set_hard_fork_version (MemDB sample_chain ∅) 3 (version_at sample_config sample_schedule sample_chain 3), true)
        else (state_at sample_config sample_schedule sample_chain 3, MemDB sample_chain ∅, false)) /\
  versions (state_at sample_config sample_schedule sample_chain 4) = lastn 2 (block_vote sample_schedule <$> take 4 sample_chain) /\
  last_versions (state_at sample_config sample_schedule sample_chain 4) =
    counters (versions (state_at sample_config sample_schedule sample_chain 4)) /\
  (fork_at sample_config sample_schedule sample_chain 3 <= fork_at sample_config sample_schedule sample_chain 4 < 2)%nat.
Proof.
  apply (add_refines sample_config sample_schedule sample_chain false 3 (Block 2 2) (MemDB sample_chain ∅)); [apply sample_ok|reflexivity].
Defined.

Lemma reorganize_restores_witness :
  if decide (1 < length sample_chain)%nat then
    exists db', reorganize_from_block_height false sample_config 1
        (state_at sample_config sample_schedule sample_chain 4) (MemDB sample_chain {[1%nat := 1%nat]}) =
        Ok (Some (state_at sample_config sample_schedule sample_chain 4, db')) /\
      holds_chain sample_chain db' /\
      (forall n, (1 < n < length sample_chain)%nat ->
        get_hard_fork_version db' n = Ok (version_at sample_config sample_schedule sample_chain n)) /\
      (forall n, (n <= 1)%nat -> get_hard_fork_version db' n =
        get_hard_fork_version (MemDB sample_chain {[1%nat := 1%nat]}) n)
  else reorganize_from_block_height false sample_config 1
    (state_at sample_config sample_schedule sample_chain 4) (MemDB sample_chain {[1%nat := 1%nat]}) = Ok None.
Proof.
  apply (reorganize_restores sample_config sample_schedule sample_chain false 1
    (state_at sample_config sample_schedule sample_chain 4) (MemDB sample_chain {[1%nat := 1%nat]})).
  - apply sample_ok.
  - apply memdb_chain.
  - reflexivity.
  - vm_compute. lia.
  - intros _. vm_compute. reflexivity.
  - intros n b Hn. apply sample_accepted. lia.
Defined.

Lemma init_restores_witness :
  exists db', init false sample_config (Hf sample_schedule [] [] 0) (MemDB sample_chain ∅) =
      Ok (state_at sample_config sample_schedule sample_chain 4, db') /\ holds_chain sample_chain db' /\
    recorded sample_config sample_schedule sample_chain 0 4 db' /\
    ((exists v, get_hard_fork_version (MemDB sample_chain ∅) 0 = Ok v) -> db' = MemDB sample_chain ∅) /\
    (exists v, get_hard_fork_version db' 0 = Ok v).
Proof.
  apply (init_restores sample_config sample_schedule sample_chain false (Hf sample_schedule [] [] 0) (MemDB sample_chain ∅)).
  - apply sample_ok.
  - apply memdb_chain.
  - reflexivity.
  - apply sample_accepted.
  - intros v Hv. vm_compute in Hv. discriminate Hv.
Defined.

Lemma version_queries_exact_witness :
  let db := MemDB sample_chain (list_to_map [(0, 1); (1, 1); (2, 1); (3, 2)]%nat) in
  let hf := state_at sample_config sample_schedule sample_chain 4 in
  (if decide (7 <= 4)%nat then get_version false hf db 7 = Ok (version_at sample_config sample_schedule sample_chain 7)
   else get_version false hf db 7 = if false then Ok 255%nat else Fail Aborted) /\
  check hf (Block 2 2) = Ok (accepted sample_config sample_schedule sample_chain 4 (Block 2 2)) /\
  check_for_height sample_config hf (Block 2 2) 4 = Ok (accepted sample_config sample_schedule sample_chain 4 (Block 2 2)).
Proof.
  apply (version_queries_exact sample_config sample_schedule sample_chain false
    (MemDB sample_chain (list_to_map [(0, 1); (1, 1); (2, 1); (3, 2)]%nat)) (Block 2 2) 7).
  - apply sample_ok.
  - apply memdb_chain.
  - intros n Hn. cbn [length sample_chain] in Hn. do 4 (destruct n as [|n]; [vm_compute; reflexivity|]). lia.
  - discriminate.
Defined.

Lemma get_voting_info_exact_witness :
  exists h, get_voting_info (state_at sample_config sample_schedule sample_chain 2) 2 =
    Ok (bool_decide (2 <= version_at sample_config sample_schedule sample_chain 2)%nat,
        Z.of_nat (length (window sample_config sample_schedule sample_chain 2)),
        Z.of_nat (votes_from 2 (window sample_config sample_schedule sample_chain 2)),
        (Z.of_nat (length (window sample_config sample_schedule sample_chain 2)) * Z.of_nat 0 + 99) / 100, h, 2%nat) /\
    (h = 0%nat \/ exists m r, sample_schedule !! m = Some r /\ h = fork_height r /\ (fork_version r <= 2)%nat).
Proof.
  apply (get_voting_info_exact sample_config sample_schedule sample_chain 2 2 (Fork 1 0 0 1) (Fork 2 1 100 2)).
  - apply sample_ok.
  - vm_compute. reflexivity.
  - reflexivity.
  - lia.
  - cbn. lia.
Defined.
