(* ===== verification/EncodingTheorems.v ===== *)
(** * Integers, base58 strings and addresses

    The properties of [Varint] and [Base58]. *)

From stdpp Require Import base list numbers.
From Stdlib Require Import ZArith Lia.
From S2P Require Import Prelude Bytes IntUtil Varint Keccak KeccakFacts Base58 Base58Facts.

(** ** Variable-length integers *)
Lemma varint_data v : is_u64 v -> exists s, get_varint_data v = Ok s /\ canonical true s /\ varint_val s = v /\ (length s <= VARINT_SIZE)%nat.
Proof.
  intros Hv. unfold is_u64 in Hv. pose proof (write_varint_spec 9 v) as H.
  specialize (H ltac:(change (128 ^ Z.of_nat 10) with (2 ^ 70); lia)). apply returns_inv in H as (s & Es & Hs). by exists s.
Qed.

(** C24: an integer of 64 bits is written in at most 10 bytes, and reading them,
    whatever follows, gives it back with their number.  Reading it from a
    string otherwise means that the string begins with the very bytes that are
    written, or that it ended in the middle of the integer. *)
Theorem varint_roundtrip (v : Z) :
  is_u64 v ->
  exists s, get_varint_data v = Ok s /\ (length s <= 10)%nat /\
    (forall rest, read_varint 64 (s ++ rest) = (Z.of_nat (length s), v)) /\
    (forall t r, bytes t -> read_varint 64 t = (r, v) -> 0 < r ->
      (exists rest, t = s ++ rest /\ r = Z.of_nat (length s)) \/ (r = Z.of_nat (length t) /\ unfinished t)).
Proof.
  intros Hv. destruct (varint_data v Hv) as (s & Es & Hc & Hval & Hl). unfold is_u64 in Hv. exists s.
  split; [done|]. split; [done|]. split.
  - intros rest. rewrite read_varint_canonical by (done || lia). by rewrite Hval.
  - intros t r Ht Er Hr. destruct (read_varint_spec 64 t r v ltac:(lia) Ht Er Hr) as (n & Hn & -> & E & [Hcan|[-> Hu]]); [left|by right].
    assert (take n t = s) as <- by (apply (canonical_inj true); [done|done|congruence]).
    exists (drop n t). rewrite take_drop, length_take. split; [done|]. f_equal. lia.
Qed.

Lemma varint_roundtrip_witness :
  exists s, get_varint_data 300 = Ok s /\ (length s <= 10)%nat /\
    (forall rest, read_varint 64 (s ++ rest) = (Z.of_nat (length s), 300)) /\
    (forall t r, bytes t -> read_varint 64 t = (r, 300) -> 0 < r ->
      (exists rest, t = s ++ rest /\ r = Z.of_nat (length s)) \/ (r = Z.of_nat (length t) /\ unfinished t)).
Proof. apply (varint_roundtrip 300). unfold is_u64. lia. Defined.

(** Two readings: the second byte counts 128 times its value. *)
Lemma varint_comment_examples : read_varint 64 [0x80; 0x02] = (2, 0x100) /\ read_varint 64 [0xff; 0x02] = (2, 0x17f).
Proof. by vm_compute. Qed.

(** ** Base58 *)

(** C23: [decode] is total and accepts exactly the strings that [encode] makes:
    it answers [Some d] precisely when [d] is encoded to that string, so that
    every string of bytes has one encoding and is decoded back from it. *)
Theorem base58_decode_exact (ndebug : bool) (enc : list Z) :
  bytes enc ->
  exists o, decode ndebug enc = Ok o /\
    (forall d, o = Some d <-> bytes d /\ encode ndebug d = Ok enc).
Proof.
  intros Hb. destruct (proj1 (returns_inv _ _) (decode_spec ndebug enc Hb)) as (o & E & Ho). exists o. split; [done|].
  intros d. split.
  - intros ->. destruct Ho as [Hd <-]. split; [done|by apply encode_spec].
  - intros [Hd Ed]. rewrite encode_spec in Ed by done.
    assert (enc_string d = enc) as Ed' by congruence. destruct o as [e|].
    + destruct Ho as [He <-]. f_equal. symmetry. by apply enc_string_inj.
    + by destruct (Ho d Hd).
Qed.

Lemma base58_decode_exact_witness :
  exists o, decode false [50; 103] = Ok o /\ (forall d, o = Some d <-> bytes d /\ encode false d = Ok [50; 103]).
Proof. apply (base58_decode_exact false [50; 103]). repeat constructor; lia. Defined.

(** ** Addresses *)
Lemma canonical_prefix first s t a b : canonical first s -> canonical first t -> s ++ a = t ++ b -> s = t /\ a = b.
Proof.
  revert first t. induction s as [|x s IH]; intros first t Hs Ht E; [done|]. destruct t as [|y t]; [done|].
  injection E as -> E. destruct (decide (s = [])) as [->|Hs0], (decide (t = [])) as [->|Ht0]; [done|..].
  - apply canonical_cons in Ht as [Hy _]; [|done]. destruct Hs as [Hx _]. lia.
  - apply canonical_cons in Hs as [Hy _]; [|done]. destruct Ht as [Hx _]. lia.
  - apply canonical_cons in Hs as [_ Hs], Ht as [_ Ht]; [|done|done]. destruct (IH false t Hs Ht E) as [-> ->]. done.
Qed.

Lemma canonical_finished first s : canonical first s -> ~ unfinished s.
Proof.
  revert first. induction s as [|x s IH]; intros first Hs Hu; [done|]. apply Forall_cons_1 in Hu as [Hx Hu].
  destruct (decide (s = [])) as [->|Hne]; [destruct Hs; lia|]. apply canonical_cons in Hs as [_ Hs]; [|done]. by apply (IH false).
Qed.

Lemma addr_string_inj s t : bytes s -> bytes t -> addr_string s = addr_string t -> s = t.
Proof.
  intros Hs Ht E. destruct (checksum_ok s) as [B1 L1], (checksum_ok t) as [B2 L2].
  assert (s ++ checksum s = t ++ checksum t) as E' by (apply enc_string_inj; [by apply Forall_app|by apply Forall_app|exact E]).
  apply app_inj_2 in E' as [E' _]; [done|congruence].
Qed.

Lemma addr_string_bytes s : bytes (addr_string s).
Proof. apply Forall_app. split; [apply joined_bytes; intros; apply block_letters_bytes|apply block_letters_bytes]. Qed.

(** An address made from a tag and data is decoded to them, in release and
    debug builds.  A decoded address is the one that its tag and data make,
    unless the string holds no data and ends in the middle of the tag; a
    refused one is made by none. *)
Theorem address_roundtrip (ndebug : bool) (tag : Z) (data : list Z) :
  is_u64 tag -> bytes data ->
  exists addr, encode_addr ndebug tag data = Ok addr /\ decode_addr ndebug addr = Ok (Some (tag, data)) /\
    (forall a, bytes a -> decode_addr ndebug a = Ok (Some (tag, data)) ->
      a = addr \/ data = [] /\ exists pre, pre <> [] /\ unfinished pre /\ a = addr_string pre) /\
    (forall a, bytes a -> decode_addr ndebug a = Ok None -> a <> addr).
Proof.
  intros Ht Hd. destruct (encode_addr_spec ndebug tag data Ht Hd) as (pre & Hc & Hv & E).
  assert (bytes (pre ++ data)) as Hpd by (apply Forall_app; split; [by eapply canonical_bytes|done]).
  exists (addr_string (pre ++ data)). split; [done|].
  destruct (proj1 (returns_inv _ _) (decode_addr_spec ndebug _ (addr_string_bytes (pre ++ data)))) as (o & Eo & Ho).
  assert (o = Some (tag, data)) as ->.
  { destruct o as [[tag' data']|]; [|destruct (Ho pre data Hc ltac:(unfold is_u64 in Ht; lia) Hd eq_refl)].
    destruct Ho as (pre' & Hb' & Ea & -> & [Hc'|(-> & _ & Hu)]); apply addr_string_inj in Ea; try done.
    - destruct (canonical_prefix _ _ _ _ _ Hc Hc' Ea) as [-> ->]. by rewrite Hv.
    - rewrite app_nil_r in Ea. subst pre'. apply Forall_app in Hu as [Hu _]. by destruct (canonical_finished _ _ Hc). }
  split; [done|]. split.
  - intros a Ha Ea. pose proof (decode_addr_spec ndebug a Ha) as Hs. rewrite Ea in Hs.
    destruct Hs as (pre' & Hb' & -> & Etag & [Hc'|(-> & Hne & Hu)]).
    + left. by rewrite (canonical_inj true pre' pre Hc' Hc) by congruence.
    + right. split; [done|]. exists pre'. by rewrite app_nil_r.
  - intros a Ha Ea ->. congruence.
Qed.

Lemma address_roundtrip_witness :
  exists addr, encode_addr false 18 [7; 8; 9] = Ok addr /\ decode_addr false addr = Ok (Some (18, [7; 8; 9])) /\
    (forall a, bytes a -> decode_addr false a = Ok (Some (18, [7; 8; 9])) ->
      a = addr \/ [7; 8; 9] = [] /\ exists pre, pre <> [] /\ unfinished pre /\ a = addr_string pre) /\
    (forall a, bytes a -> decode_addr false a = Ok None -> a <> addr).
Proof. apply (address_roundtrip false 18 [7; 8; 9]); [unfold is_u64; lia|repeat constructor; lia]. Defined.

(** [read_varint] accepts a string that ends in the middle of an integer,
    as if the missing bytes were zero, and [decode_addr] with it an address
    that no tag and data make. *)
Theorem truncated_varint_accepted (ndebug : bool) :
  read_varint 64 [0x85] = (1, 5) /\ read_varint 64 [0x85; 0x00] = (EVARINT_REPRESENT, 5) /\
  exists addr, decode_addr ndebug addr = Ok (Some (5, [])) /\
    forall tag data, is_u64 tag -> bytes data -> encode_addr ndebug tag data <> Ok addr.
Proof.
  split; [by vm_compute|]. split; [by vm_compute|].
  exists (addr_string [0x85]). split; [destruct ndebug; by vm_compute|]. intros tag data Ht Hd E.
  destruct (encode_addr_spec ndebug tag data Ht Hd) as (pre & Hc & Hv & E'). rewrite E' in E.
  assert (addr_string (pre ++ data) = addr_string [0x85]) as Ea by congruence. clear E E'.
  assert (bytes (pre ++ data)) as Hpd by (apply Forall_app; split; [by eapply canonical_bytes|done]).
  apply addr_string_inj in Ea; [|done|repeat constructor; lia]. apply (canonical_finished _ _ Hc).
  assert (unfinished (pre ++ data)) as Hu by (rewrite Ea; repeat constructor; lia). by apply Forall_app in Hu as [Hu _].
Qed.
