(* ===== verification/ExtraHashTheorems.v ===== *)
(** * The hash functions of the proof of work

    The properties of [Blake256], [Groestl], [Jh] and [Skein]. *)

From stdpp Require Import base list numbers.
From Stdlib Require Import ZArith Lia.
From S2P Require Import Prelude Bytes Streaming Blake256 Blake256Facts.

(** ** BLAKE *)

(** C35: for every message of less than 2^64 bits and whatever the buffer held, [blake256_hash] and [hash_extra_blake]
    return the BLAKE-256 digest, and [blake224_hash] writes the 28 bytes of the BLAKE-224 digest followed by
    four more, the word that the digest leaves out, so that it needs room for 32 bytes.  The specification has its own permutations, and
    its constants and initial values are computed from pi and from square roots of primes. *)
Theorem blake256_correct (bf msg : list Z) :
  length bf = 64%nat -> bytes bf -> bytes msg -> 8 * Z.of_nat (length msg) < 2 ^ 64 ->
  blake256_hash bf msg (Z.of_nat (length msg)) = Ok (BlakeHash.blake256 msg) /\
  hash_extra_blake bf msg (Z.of_nat (length msg)) = Ok (BlakeHash.blake256 msg) /\
  exists extra, length (BlakeHash.blake224 msg) = 28%nat /\ length extra = 4%nat /\
    blake224_hash bf msg (Z.of_nat (length msg)) = Ok (BlakeHash.blake224 msg ++ extra).
Proof.
  intros Hl Hbf Hb Hlt. destruct (blake256_hash_spec bf msg Hl Hbf Hb Hlt) as [H1 H2]. split; [exact H1|]. split; [exact H1|].
  destruct (blake224_split msg) as (extra & Le & Ld & E). exists extra. rewrite H2, E. done.
Qed.

Lemma blake256_correct_witness :
  blake256_hash (replicate 64 0) [0x41; 0xfb] 2 = Ok (BlakeHash.blake256 [0x41; 0xfb]) /\
  hash_extra_blake (replicate 64 0) [0x41; 0xfb] 2 = Ok (BlakeHash.blake256 [0x41; 0xfb]) /\
  exists extra, length (BlakeHash.blake224 [0x41; 0xfb]) = 28%nat /\ length extra = 4%nat /\
    blake224_hash (replicate 64 0) [0x41; 0xfb] 2 = Ok (BlakeHash.blake224 [0x41; 0xfb] ++ extra).
Proof.
  apply (blake256_correct (replicate 64 0) [0x41; 0xfb]).
  - reflexivity.
  - apply Forall_replicate. unfold is_byte. lia.
  - repeat constructor; lia.
  - cbn. lia.
Defined.

(** A vector of the test suite, and the digest of a zero byte that the document of BLAKE-224 gives. *)
Example blake256_vector :
  BlakeHash.blake256 [0x41; 0xfb] =
  [0x8f; 0x34; 0x11; 0x48; 0xbe; 0x7e; 0x35; 0x4f; 0xdf; 0x38; 0xb6; 0x93; 0xd8; 0xc6; 0xb4; 0xe0;
   0xbd; 0x57; 0x30; 0x1a; 0x73; 0x4f; 0x6f; 0xd3; 0x5c; 0xd8; 0x5b; 0x84; 0x91; 0xc3; 0xdd; 0xcd] /\
  BlakeHash.blake224 [0] =
  [0x45; 0x04; 0xcb; 0x03; 0x14; 0xfb; 0x2a; 0x4f; 0x7a; 0x69; 0x2e; 0x69; 0x6e; 0x48; 0x79; 0x12;
   0xfe; 0x3f; 0x24; 0x68; 0xfe; 0x31; 0x2c; 0x73; 0xa5; 0x27; 0x8e; 0xc5].
Proof. vm_compute. split; reflexivity. Qed.

(** A message that is given to [blake256_update] in pieces has the digest
    of the whole, if after a part of a block every piece is not empty and
    either stays within the block or completes it with its length modulo 64. *)
Theorem blake256_incremental (bf : list Z) (pieces : list (list Z)) :
  length bf = 64%nat -> bytes bf -> Forall bytes pieces -> 8 * Z.of_nat (length (concat pieces)) < 2 ^ 64 ->
  regular_pieces 0 pieces ->
  (let! st := update_all (blake256_init bf) pieces in blake256_final st) = blake256_hash bf (concat pieces) (Z.of_nat (length (concat pieces))).
Proof.
  intros Hl Hbf Hp Hlt Hreg. destruct (init_absorbed bf Hl Hbf) as [H256 _].
  destruct (proj1 (returns_inv _ _) (update_all_spec Blake.iv256 pieces [] _ H256 Hp Hlt Hreg)) as (st & -> & Hst). cbn [bind].
  assert (bytes (concat pieces)) as Hb by (by apply Forall_concat).
  destruct (blake256_hash_spec bf (concat pieces) Hl Hbf Hb Hlt) as [-> _].
  apply (final_absorbed 1 Blake.iv256 _ st Hst); [by right|done].
Qed.

Lemma blake256_incremental_witness :
  (let! st := update_all (blake256_init (replicate 64 0)) [[1; 2; 3]; replicate 61 7; [9]] in blake256_final st) =
  blake256_hash (replicate 64 0) (concat [[1; 2; 3]; replicate 61 7; [9]]) 65.
Proof.
  apply (blake256_incremental (replicate 64 0) [[1; 2; 3]; replicate 61 7; [9]]).
  - reflexivity.
  - apply Forall_replicate. unfold is_byte. lia.
  - repeat constructor; lia.
  - cbn. lia.
  - cbn. unfold regular. cbn. lia.
Defined.

(** Other pieces are hashed wrong: an empty piece drops what the buffer
    holds, and a full block after a byte is compressed before that byte and
    drops it, so that different messages get the same digest. *)
Theorem blake256_pieces_lost (bf : list Z) :
  bf = replicate 64 0 ->
  (let! st := update_all (blake256_init bf) [[1]; []] in blake256_final st) =
    (let! st := update_all (blake256_init bf) [[2]; []] in blake256_final st) /\
  (let! st := update_all (blake256_init bf) [[1]; replicate 64 5] in blake256_final st) =
    (let! st := update_all (blake256_init bf) [[2]; replicate 64 5] in blake256_final st) /\
  (let! st := update_all (blake256_init bf) [[1]; []] in blake256_final st) <> blake256_hash bf [1] 1 /\
  (let! st := update_all (blake256_init bf) [[1]; replicate 64 5] in blake256_final st) <> blake256_hash bf (1 :: replicate 64 5) 65.
Proof. intros ->. split_and!; vm_compute; congruence. Qed.

Lemma blake256_pieces_lost_witness :
  let bf := replicate 64 0 in
  (let! st := update_all (blake256_init bf) [[1]; []] in blake256_final st) =
    (let! st := update_all (blake256_init bf) [[2]; []] in blake256_final st) /\
  (let! st := update_all (blake256_init bf) [[1]; replicate 64 5] in blake256_final st) =
    (let! st := update_all (blake256_init bf) [[2]; replicate 64 5] in blake256_final st) /\
  (let! st := update_all (blake256_init bf) [[1]; []] in blake256_final st) <> blake256_hash bf [1] 1 /\
  (let! st := update_all (blake256_init bf) [[1]; replicate 64 5] in blake256_final st) <> blake256_hash bf (1 :: replicate 64 5) 65.
Proof. apply (blake256_pieces_lost (replicate 64 0) eq_refl). Defined.

(** The HMAC functions compute RFC 2104 over the two hashes, except that a key of more than 64 bytes is replaced by
    its BLAKE-256 digest in both: for HMAC-BLAKE-224 by the first 28 bytes of
    that digest, where the RFC takes the BLAKE-224 digest of the key.  [hmac_blake224_hash] writes four bytes after
    its digest. *)
Theorem hmac_blake_correct (bf key msg : list Z) :
  length bf = 64%nat -> bytes bf -> bytes key -> bytes msg ->
  8 * Z.of_nat (length key) < 2 ^ 64 -> 8 * Z.of_nat (64 + length msg) < 2 ^ 64 ->
  hmac_blake256_hash bf key (Z.of_nat (length key)) msg (Z.of_nat (length msg)) =
    Ok (rfc2104 BlakeHash.blake256 (if decide (64 < length key)%nat then BlakeHash.blake256 key else key) msg) /\
  returns (hmac_blake224_hash bf key (Z.of_nat (length key)) msg (Z.of_nat (length msg))) (fun out => length out = 32%nat /\
    take 28 out = rfc2104 BlakeHash.blake224 (if decide (64 < length key)%nat then take 28 (BlakeHash.blake256 key) else key) msg).
Proof.
  intros Hl Hbf Bk Bm Lk Lm. destruct (hmac_blake256_spec bf key msg Hl Hbf Bk Bm Lk Lm) as [-> ->]. cbn [returns]. split.
  - by rewrite (proj1 (hmac_rfc2104 _ _)).
  - split; [apply hash_length; reflexivity|]. apply hmac_rfc2104.
Qed.

Lemma hmac_blake_correct_witness :
  hmac_blake256_hash (replicate 64 0) [1; 2] 2 [3] 1 = Ok (rfc2104 BlakeHash.blake256 [1; 2] [3]) /\
  returns (hmac_blake224_hash (replicate 64 0) [1; 2] 2 [3] 1) (fun out => length out = 32%nat /\
    take 28 out = rfc2104 BlakeHash.blake224 [1; 2] [3]).
Proof.
  apply (hmac_blake_correct (replicate 64 0) [1; 2] [3]).
  - reflexivity.
  - apply Forall_replicate. unfold is_byte. lia.
  - repeat constructor; lia.
  - repeat constructor; lia.
  - cbn. lia.
  - cbn. lia.
Defined.

(** ** Groestl *)
From S2P Require Import Groestl GroestlFacts.

(** C36: for every message of less than 2^31 bytes, in any pieces, and whatever
    the local arrays held, the code computes Groestl-256: the permutations built
    from the AES S-box, byte shifts and a circulant matrix over the field of 256
    elements, the compression, the padding with the number of blocks and the
    output transformation. *)
Theorem groestl_correct (zero buffer : list Z) (pieces : list (list Z)) :
  length zero = 16%nat -> state_ok buffer -> Forall bytes pieces -> Z.of_nat (length (concat pieces)) < 2 ^ 31 ->
  (let! ctx := groestl_Init buffer in
   let! ctx := groestl_update_all zero ctx pieces in
   groestl_Final zero ctx) = Ok (Grostl.hash (concat pieces)) /\
  hash_extra_groestl zero buffer (concat pieces) (Z.of_nat (length (concat pieces))) = Ok (Grostl.hash (concat pieces)).
Proof.
  intros Hz Hb Hp Hl. split.
  - by apply groestl_pieces.
  - unfold hash_extra_groestl, u64. rewrite Z.mod_small, Z.mul_comm by lia. apply groestl_spec; try done. by apply Forall_concat.
Qed.

Lemma groestl_correct_witness :
  (let! ctx := groestl_Init (replicate 64 0) in
   let! ctx := groestl_update_all (replicate 16 0) ctx [[1; 2; 3]; []; replicate 70 7] in
   groestl_Final (replicate 16 0) ctx) = Ok (Grostl.hash (concat [[1; 2; 3]; []; replicate 70 7])) /\
  hash_extra_groestl (replicate 16 0) (replicate 64 0) (concat [[1; 2; 3]; []; replicate 70 7]) 73 = Ok (Grostl.hash (concat [[1; 2; 3]; []; replicate 70 7])).
Proof.
  apply (groestl_correct (replicate 16 0) (replicate 64 0) [[1; 2; 3]; []; replicate 70 7]).
  - reflexivity.
  - split; [apply Forall_replicate; unfold is_byte; lia|reflexivity].
  - repeat constructor; lia.
  - cbn. lia.
Defined.

(** A vector of the test suite. *)
Example groestl_vector :
  Grostl.hash [0xcc] =
  [0x15; 0xe2; 0x67; 0x1f; 0x0e; 0xaf; 0x66; 0xc0; 0xde; 0x30; 0x93; 0xab; 0x7b; 0x1e; 0x39; 0xdc;
   0x68; 0xf9; 0x45; 0xd7; 0x00; 0x2f; 0xc5; 0xdf; 0xd5; 0x2d; 0x60; 0x52; 0x7e; 0x72; 0x28; 0xd1].
Proof. vm_compute. reflexivity. Qed.

(** The length of the input is narrowed to an [int]: for 2^32 bytes the
    digest is that of the empty message, whatever the bytes. *)
Theorem groestl_length_wraps (zero buffer data : list Z) :
  length zero = 16%nat -> state_ok buffer -> hash_extra_groestl zero buffer data (2 ^ 32) = Ok (Grostl.hash []).
Proof. intros Hz Hb. by apply groestl_wraps. Qed.

Lemma groestl_length_wraps_witness : hash_extra_groestl (replicate 16 0) (replicate 64 0) [1; 2] (2 ^ 32) = Ok (Grostl.hash []).
Proof.
  apply (groestl_length_wraps (replicate 16 0) (replicate 64 0) [1; 2]).
  - reflexivity.
  - split; [apply Forall_replicate; unfold is_byte; lia|reflexivity].
Defined.

(** ** JH *)
From S2P Require Import Jh JhPermutation JhFacts.

(** C37: [jh_hash] returns the digest of the JH specification (nibbles, S-boxes
    chosen by the round constants, the MDS code and the permutation of [JhSpec],
    with round constants and initial values computed there) for the four
    digest lengths and every message of less than 2^64 bits, whatever the local
    state held, and [BAD_HASHLEN] for any other length; [hash_extra_jh] is the
    256-bit digest, in debug and release builds. *)
Theorem jh_correct (ndebug : bool) (x buffer : list Z) (bitlen : Z) (data : list Z) :
  bytes buffer -> length buffer = 64%nat -> bytes data -> 8 * Z.of_nat (length data) < 2 ^ 64 ->
  jh_hash x buffer bitlen data (8 * Z.of_nat (length data)) =
    (if decide (bitlen = 224 \/ bitlen = 256 \/ bitlen = 384 \/ bitlen = 512) then Ok (SUCCESS, JhSpec.hash bitlen data)
     else Ok (BAD_HASHLEN, [])) /\
  hash_extra_jh ndebug x buffer data (Z.of_nat (length data)) = Ok (JhSpec.hash 256 data).
Proof.
  intros Hb Hl Hd Hlt. split.
  - destruct (decide _) as [Hn|Hn]; [by apply jh_hash_spec|].
    unfold jh_hash. rewrite !(proj2 (Z.eqb_neq bitlen _)) by (intros ->; apply Hn; tauto). reflexivity.
  - unfold hash_extra_jh. rewrite u64_small by lia. change (32 * 8) with 256.
    rewrite (jh_hash_spec x buffer 256 data) by (assumption || (right; left; reflexivity)). cbn [bind].
    rewrite c_assert_true by reflexivity. reflexivity.
Qed.

Lemma jh_correct_witness :
  jh_hash [] (replicate 64 0) 384 [1; 2; 3] 24 = Ok (SUCCESS, JhSpec.hash 384 [1; 2; 3]) /\
  hash_extra_jh false [] (replicate 64 0) [1; 2; 3] 3 = Ok (JhSpec.hash 256 [1; 2; 3]).
Proof.
  apply (jh_correct false [] (replicate 64 0) 384 [1; 2; 3]).
  - apply Forall_replicate. unfold is_byte. lia.
  - reflexivity.
  - repeat constructor; lia.
  - cbn. lia.
Defined.

(** A vector of the test suite. *)
Example jh_vector :
  JhSpec.hash 256 [0xcc] =
  [0x7b; 0x11; 0x91; 0xf1; 0x3a; 0x26; 0x67; 0x83; 0x01; 0x42; 0x54; 0x1b; 0xfc; 0x59; 0x18; 0x54;
   0x3d; 0x2a; 0x43; 0x4c; 0x76; 0x92; 0xe7; 0x0c; 0x3e; 0x5e; 0x9b; 0xbd; 0xdd; 0xb7; 0xf5; 0x81].
Proof. vm_compute. reflexivity. Qed.

(** A piece of the input given to [Update] after the message [m] extends
    the message, and [Final] returns the digest of the whole, exactly when the
    buffer is empty or the piece completes its block; when it does not, and the
    piece ends where the readable memory ends, the copy reads past it. *)
Theorem jh_update_exact (bitlen : Z) (st : jh_state) (m data : list Z) :
  bitlen = 224 \/ bitlen = 256 \/ bitlen = 384 \/ bitlen = 512 ->
  jh_absorbed bitlen st m -> bytes m -> bytes data -> 8 * (Z.of_nat (length m) + Z.of_nat (length data)) < 2 ^ 64 ->
  if decide (length m mod 64 = 0 \/ 64 <= length m mod 64 + length data)%nat then
    exists st', jh_Update st data (8 * Z.of_nat (length data)) = Ok st' /\ jh_absorbed bitlen st' (m ++ data) /\
      jh_Final st' = Ok (JhSpec.hash bitlen (m ++ data))
  else jh_Update st data (8 * Z.of_nat (length data)) = Fail OutOfBounds.
Proof.
  intros Hn Hst Hm Hd Hlt. pose proof (Nat.Div0.div_mod (length m) 64) as E. pose proof (Nat.mod_upper_bound (length m) 64 ltac:(lia)).
  destruct (decide _) as [Hr|Hr].
  - destruct (proj1 (returns_inv _ _) (jh_Update_spec bitlen st m data (length data) Hst Hd ltac:(lia) ltac:(lia)
      ltac:(unfold readable; lia))) as (st' & Eu & Hst').
    rewrite take_ge in Hst' by lia. exists st'. split; [exact Eu|]. split; [exact Hst'|].
    apply jh_Final_spec; [exact Hn|exact Hst'|by apply Forall_app|rewrite length_app; lia].
  - eapply jh_Update_overread; [exact Hst| |]; rewrite length_drop; lia.
Qed.

Lemma jh_update_exact_witness :
  exists st', jh_Update (jh_Init [] (replicate 64 0) 256) [1; 2; 3] 24 = Ok st' /\ jh_absorbed 256 st' [1; 2; 3] /\
    jh_Final st' = Ok (JhSpec.hash 256 [1; 2; 3]).
Proof.
  apply (jh_update_exact 256 (jh_Init [] (replicate 64 0) 256) [] [1; 2; 3]).
  - right; left; reflexivity.
  - apply jh_Init_spec; [right; left; reflexivity|apply Forall_replicate; unfold is_byte; lia|reflexivity].
  - constructor.
  - repeat constructor; lia.
  - cbn. lia.
Defined.

(** ** Skein *)
From S2P Require Import Skein SkeinBlock SkeinFacts.

(** C38: for every digest length that an [int] can hold, [skein_hash] returns
    the digest of the Skein specification (Threefish in chaining mode, with the
    initial value derived from the configuration block): Skein-512 up to 512
    bits and Skein-1024 above, for a message of any number of bits; whole bytes
    may come in any pieces.  [hash_extra_skein] is Skein-512-256.
    A digest length of 0, which an assertion of the source forbids that no build enables, gives an empty digest. *)
Theorem skein_correct (ndebug : bool) (u : skein_ctxt) (hashbitlen : Z) (data : list Z) (n : Z) (pieces : list (list Z)) :
  0 <= hashbitlen < 2 ^ 31 -> length (ctx_b u) = (if hashbitlen <=? 512 then 64%nat else 128%nat) ->
  bytes data -> 0 <= n <= 8 * Z.of_nat (length data) -> n < 2 ^ 64 -> 8 * Z.of_nat (length (concat pieces)) < 2 ^ 64 ->
  let tf := if hashbitlen <=? 512 then SkeinSpec.tf512 else SkeinSpec.tf1024 in
  skein_hash u hashbitlen data n = Ok (SKEIN_SUCCESS, SkeinSpec.hash tf hashbitlen data n) /\
  (let! (_, st) := skein_init u hashbitlen in let! st := skein_update_all st pieces in skein_final st) =
    Ok (SKEIN_SUCCESS, SkeinSpec.hash tf hashbitlen (concat pieces) (8 * Z.of_nat (length (concat pieces)))) /\
  (hashbitlen = 256 -> n = 8 * Z.of_nat (length data) ->
   hash_extra_skein ndebug u data (Z.of_nat (length data)) = Ok (SkeinSpec.hash SkeinSpec.tf512 256 data n)).
Proof.
  intros Hh Hb Hd Hn Hlt Hp tf.
  assert (length (ctx_b u) = BLOCK_BYTES (selected hashbitlen)) as Hb' by (rewrite Hb; unfold selected; by destruct (hashbitlen <=? 512)).
  pose proof (skein_hash_spec u hashbitlen data n Hh Hb' Hd Hn Hlt) as E. split; [exact E|]. split; [by apply skein_pieces_spec|].
  intros -> ->. unfold hash_extra_skein. rewrite u64_small by lia. change (8 * 32) with 256. rewrite E. cbn [bind].
  rewrite c_assert_true by reflexivity. reflexivity.
Qed.

Lemma skein_correct_witness :
  let u := Ctxt 0 0 0 0 [] (replicate 64 0) in
  skein_hash u 256 [0xcc] 8 = Ok (SKEIN_SUCCESS, SkeinSpec.hash SkeinSpec.tf512 256 [0xcc] 8) /\
  (let! (_, st) := skein_init u 256 in let! st := skein_update_all st [replicate 70 1; []; [2; 3]] in skein_final st) =
    Ok (SKEIN_SUCCESS, SkeinSpec.hash SkeinSpec.tf512 256 (concat [replicate 70 1; []; [2; 3]]) 576) /\
  (256 = 256 -> 8 = 8 -> hash_extra_skein false u [0xcc] 1 = Ok (SkeinSpec.hash SkeinSpec.tf512 256 [0xcc] 8)).
Proof.
  apply (skein_correct false (Ctxt 0 0 0 0 [] (replicate 64 0)) 256 [0xcc] 8 [replicate 70 1; []; [2; 3]]).
  - lia.
  - reflexivity.
  - repeat constructor; lia.
  - cbn. lia.
  - lia.
  - cbn. lia.
Defined.

(** A vector of the test suite. *)
Example skein_vector :
  SkeinSpec.hash SkeinSpec.tf512 256 [0xcc] 8 =
  [0xa0; 0x18; 0x26; 0x8e; 0xd8; 0x14; 0xe0; 0xad; 0x0f; 0x2d; 0x03; 0x04; 0xe8; 0xfe; 0x3f; 0x41;
   0x18; 0xfc; 0xef; 0xc0; 0x74; 0x54; 0xd0; 0x71; 0x23; 0xcc; 0x2c; 0x3e; 0x40; 0xe0; 0x6a; 0x4f].
Proof. vm_compute. reflexivity. Qed.
