(* ===== verification/SlowHashTheorems.v ===== *)
(** * Theorems about the AES library and the slow hash *)

From stdpp Require Import base list numbers.
From Stdlib Require Import ZArith Lia.
From S2P Require Import Prelude Bytes Streaming Keccak KeccakFacts Rijndael Aes Oaes OaesFacts OaesMessages Aesb AesbFacts Skein GroestlFacts SlowHash SlowHashFacts SlowHashInstructions SlowHashWhole.

(** ** The AES library *)

(** The example of FIPS 197 for 128-bit keys. *)
Example aes_vector :
  AES.cipher 10 (AES.expand (seqZ 0 16)) ((fun i => 0x11 * i) <$> seqZ 0 16) =
  [0x69; 0xc4; 0xe0; 0xd8; 0x6a; 0x7b; 0x04; 0x30; 0xd8; 0xcd; 0xb7; 0x80; 0x70; 0xb4; 0xc5; 0x5a].
Proof. by vm_compute. Qed.

(** C27: after [oaes_key_import_data] with a key of 128, 192 or 256 bits, whatever key the context had, the block
    functions of the AES library compute the cipher of FIPS 197 with the tables, the key expansion and the number of
    rounds of that key length, and [oaes_decrypt_block] inverts [oaes_encrypt_block]. *)
Theorem oaes_cipher_correct (c : oaes_ctx) (key s : list Z) :
  key_ok key -> block16 s ->
  let w := AES.expand key in
  let Nr := AES.rounds (length key / 4) in
  exists ctx, oaes_key_import_data no_fault (Some c) (Some key) (Z.of_nat (length key)) = Ok (OAES_RET_SUCCESS, Some ctx) /\
    oaes_encrypt_block ctx s OAES_BLOCK_SIZE = Ok (OAES_RET_SUCCESS, AES.cipher Nr w s) /\
    oaes_decrypt_block ctx s OAES_BLOCK_SIZE = Ok (OAES_RET_SUCCESS, AES.inv_cipher Nr w s) /\
    oaes_decrypt_block ctx (AES.cipher Nr w s) OAES_BLOCK_SIZE = Ok (OAES_RET_SUCCESS, s).
Proof.
  intros Hk Hs w Nr. exists (set_key c (Some (expanded_key key))). split.
  { unfold oaes_key_import_data. rewrite key_size_ok_spec by done. pose proof (install_key_spec c key [] Hk) as E. by rewrite app_nil_r in E. }
  assert (has_key (set_key c (Some (expanded_key key))) key) as Hh by (by split).
  destruct (encrypt_block_spec _ key s Hh Hs) as [E1 B1]. destruct (decrypt_block_spec _ key s Hh Hs) as [E2 _].
  destruct (decrypt_block_spec _ key _ Hh B1) as [E3 _]. rewrite decrypt_encrypt in E3 by done. done.
Qed.

Lemma oaes_cipher_correct_witness :
  let w := AES.expand (seqZ 0 16) in
  exists ctx, oaes_key_import_data no_fault (Some (OaesCtx None 0 [])) (Some (seqZ 0 16)) 16 = Ok (OAES_RET_SUCCESS, Some ctx) /\
    oaes_encrypt_block ctx (replicate 16 7) OAES_BLOCK_SIZE = Ok (OAES_RET_SUCCESS, AES.cipher 10 w (replicate 16 7)) /\
    oaes_decrypt_block ctx (replicate 16 7) OAES_BLOCK_SIZE = Ok (OAES_RET_SUCCESS, AES.inv_cipher 10 w (replicate 16 7)) /\
    oaes_decrypt_block ctx (AES.cipher 10 w (replicate 16 7)) OAES_BLOCK_SIZE = Ok (OAES_RET_SUCCESS, replicate 16 7).
Proof.
  apply (oaes_cipher_correct (OaesCtx None 0 []) (seqZ 0 16) (replicate 16 7)).
  - split; [apply Forall_seqZ; unfold is_byte; lia|by left].
  - split; [apply Forall_replicate; unfold is_byte; lia|reflexivity].
Defined.

(** C28: messages round trip: what [oaes_encrypt] writes with a context in ECB or CBC mode, [oaes_decrypt] reads back
    with any context that has the same key, for every message that leaves room for the header in 64 bits, the empty
    one and those that need padding included; the buffers may be larger than needed, and the byte counts both
    functions return are exact. *)
Theorem oaes_message_roundtrip (x y : oaes_ctx) (key m cbuf mbuf : list Z) (croom mroom : Z) :
  has_key x key -> has_key y key -> options_ok (ctx_options x) -> block16 (ctx_iv x) -> bytes m ->
  Z.of_nat (length m) + 48 < 2 ^ 64 ->
  Z.of_nat (length m) + 48 <= croom <= Z.of_nat (length cbuf) -> Z.of_nat (length m) + 16 <= mroom <= Z.of_nat (length mbuf) ->
  exists x' c crest mrest,
    oaes_encrypt (Some x) (Some m) (Z.of_nat (length m)) (Some cbuf) (Some croom) =
      Ok (OAES_RET_SUCCESS, Some x', Some (c ++ crest), Some (Z.of_nat (length c))) /\
    oaes_decrypt (Some y) (Some c) (Z.of_nat (length c)) (Some mbuf) (Some mroom) =
      Ok (OAES_RET_SUCCESS, Some (m ++ mrest), Some (Z.of_nat (length m))).
Proof.
  intros Hx Hy Ho Hv Hm Hl [Hc1 Hc2] [Hm1 Hm2]. destruct (padded_length m) as [_ Lp]. destruct (pad_len_spec m) as [Hp _].
  pose proof (oaes_encrypt_spec x key m cbuf croom Hx Hm Hv Hl ltac:(lia) Hc2) as E.
  pose proof (oaes_decrypt_spec y (ctx_options x) key (ctx_iv x) m mbuf mroom Hy Hm Hv Ho Hl ltac:(lia) Hm2) as D.
  do 4 eexists. split; [|exact D]. rewrite E, message_length by (first [apply Hx|done]).
  by replace (Z.of_nat (32 + 16 * Message.count m)) with (32 + 16 * Z.of_nat (Message.count m)) by lia.
Qed.

Lemma oaes_message_roundtrip_witness :
  let x := OaesCtx (Some (expanded_key (seqZ 0 32))) 2 (replicate 16 9) in
  let y := OaesCtx (Some (expanded_key (seqZ 0 32))) 1 (replicate 16 0) in
  exists x' c crest mrest,
    oaes_encrypt (Some x) (Some [1; 2; 3]) 3 (Some (replicate 64 0)) (Some 64) =
      Ok (OAES_RET_SUCCESS, Some x', Some (c ++ crest), Some (Z.of_nat (length c))) /\
    oaes_decrypt (Some y) (Some c) (Z.of_nat (length c)) (Some (replicate 32 5)) (Some 32) =
      Ok (OAES_RET_SUCCESS, Some ([1; 2; 3] ++ mrest), Some 3).
Proof.
  assert (key_ok (seqZ 0 32)) as Hk by (split; [apply Forall_seqZ; unfold is_byte; lia|right; by right]).
  apply (oaes_message_roundtrip (OaesCtx (Some (expanded_key (seqZ 0 32))) 2 (replicate 16 9))
    (OaesCtx (Some (expanded_key (seqZ 0 32))) 1 (replicate 16 0)) (seqZ 0 32) [1; 2; 3] (replicate 64 0) (replicate 32 5) 64 32).
  - by split.
  - by split.
  - by right.
  - split; [apply Forall_replicate; unfold is_byte; lia|reflexivity].
  - repeat constructor; done.
  - cbn [length]. lia.
  - rewrite length_replicate. cbn [length]. lia.
  - rewrite length_replicate. cbn [length]. lia.
Defined.

(** ** The slow hash *)

(** The scratchpad has 2^17 blocks. *)
Lemma MEMORY_blocks : MEMORY = (16 * 2 ^ 17)%nat.
Proof. unfold MEMORY. change 21%nat with (4 + 17)%nat. rewrite Nat.pow_add_r. reflexivity. Qed.

(** C26: the three implementations of [cn_slow_hash] (the portable one, the one for ARM with its 32-bit product, and the
    one for x86-64 with the AES instructions or with tables) all return CryptoNight of the data, for every scratchpad
    of a power of two of blocks that the 32-bit mask of the ARM code covers ([MEMORY] is one), every number of
    iterations, in release and debug builds, and whatever their buffers and the scratchpad of the thread held before.
    No access is out of range and no assertion fails. *)
Theorem cn_slow_hash_correct (k ITER : nat) (ndebug aes : bool) (e : extra_locals) (env : aes_env) (data : list Z)
    (lp : Portable.locals) (la : Arm.locals) (lx : X86.locals) (mmap malloc : option (list Z)) (h : X86.hp) (m : list Z) :
  (3 <= k <= 28)%nat -> extra_ok e -> env_ok env ->
  length (Portable.l_long_state lp) = (16 * 2 ^ k)%nat -> length (Portable.l_text lp) = 128%nat -> length (Portable.l_a lp) = 16%nat ->
  length (Portable.l_b lp) = 16%nat -> length (Portable.l_aes_key lp) = 32%nat ->
  length (Arm.l_long_state la) = (16 * 2 ^ k)%nat -> length (Arm.l_text la) = 128%nat ->
  bytes (Arm.l_expandedKey la) -> length (Arm.l_expandedKey la) = 256%nat ->
  X86.hp_state (X86.slow_hash_allocate_state mmap malloc h) = Some m -> length m = (16 * 2 ^ k)%nat ->
  length (X86.l_text lx) = 128%nat -> length (X86.l_expandedKey lx) = 240%nat ->
  let H := CryptoNight.hash (2 ^ k) (ITER / 2) data in
  let pad := CryptoNight.scratchpad (2 ^ k) (ITER / 2) (Sponge.hash 136 200 data) in
  Portable.cn_slow_hash (16 * 2 ^ k) ITER ndebug lp e env data = Ok H /\
  Arm.cn_slow_hash (16 * 2 ^ k) ITER ndebug la e env data = Ok H /\
  X86.cn_slow_hash (16 * 2 ^ k) ITER aes ndebug mmap malloc lx e env h data =
    Ok (H, X86.Hp (Some (concat pad)) (X86.hp_allocated (X86.slow_hash_allocate_state mmap malloc h))).
Proof.
  intros Hk He Hv P1 P2 P3 P4 P5 A1 A2 A3 A4 Eh X1 X2 X3 H pad. split_and!.
  - by apply (portable_spec k ltac:(lia) ITER ndebug e He env data lp).
  - apply (arm_spec k ltac:(lia) ITER ndebug e He env data la); (done || lia).
  - by apply (x86_spec k ltac:(lia) ITER ndebug e He env data aes mmap malloc lx h m).
Qed.

Lemma cn_slow_hash_correct_witness :
  let z n := replicate n 0 in
  let e := ExtraLocals (z 64%nat) (z 16%nat) (z 64%nat) [] (z 64%nat) (Ctxt 0 0 0 0 [] (z 64%nat)) in
  let env := AesEnv true no_fault no_fault (z 16%nat) in
  let h := X86.Hp None false in
  let H := CryptoNight.hash (2 ^ 3) (4 / 2) [1; 2; 3] in
  let pad := CryptoNight.scratchpad (2 ^ 3) (4 / 2) (Sponge.hash 136 200 [1; 2; 3]) in
  Portable.cn_slow_hash (16 * 2 ^ 3) 4 false (Portable.Locals (z 128%nat) (z 128%nat) (z 16%nat) (z 16%nat) (z 32%nat)) e env [1; 2; 3] = Ok H /\
  Arm.cn_slow_hash (16 * 2 ^ 3) 4 false (Arm.Locals (z 128%nat) (z 128%nat) (z 256%nat)) e env [1; 2; 3] = Ok H /\
  X86.cn_slow_hash (16 * 2 ^ 3) 4 true false None (Some (z 128%nat)) (X86.Locals (z 128%nat) (z 240%nat)) e env h [1; 2; 3] =
    Ok (H, X86.Hp (Some (concat pad)) false).
Proof.
  assert (forall n, bytes (replicate n 0)) as Hz by (intros n; apply Forall_replicate; unfold is_byte; lia).
  apply (cn_slow_hash_correct 3 4 false true
    (ExtraLocals (replicate 64 0) (replicate 16 0) (replicate 64 0) [] (replicate 64 0) (Ctxt 0 0 0 0 [] (replicate 64 0)))
    (AesEnv true no_fault no_fault (replicate 16 0)) [1; 2; 3]
    (Portable.Locals (replicate 128 0) (replicate 128 0) (replicate 16 0) (replicate 16 0) (replicate 32 0))
    (Arm.Locals (replicate 128 0) (replicate 128 0) (replicate 256 0)) (X86.Locals (replicate 128 0) (replicate 240 0))
    None (Some (replicate 128 0)) (X86.Hp None false) (replicate 128 0)); try reflexivity.
  - lia.
  - repeat split; apply Hz.
  - repeat split. reflexivity.
  - apply Hz.
Defined.

(** *** Without memory *)
Lemma import_no_memory mem c key :
  key_ok key -> mem_key mem && mem_data mem && mem_exp mem = false ->
  oaes_key_import_data mem (Some c) (Some key) (Z.of_nat (length key)) =
  Ok (if mem_key mem && mem_data mem then OAES_RET_UNKNOWN else OAES_RET_MEM, Some (set_key c None)).
Proof.
  intros Hk Hm. unfold oaes_key_import_data, install_key. rewrite key_size_ok_spec by done.
  destruct (mem_key mem), (mem_data mem); try done. cbn [andb] in Hm |- *. rewrite Hm, Nat2Z.id, memcpy_ok by (rewrite ?length_replicate; lia). reflexivity.
Qed.

(** C40: when memory runs out.  [oaes_key_import_data] drops the key that the context had and fails with
    [OAES_RET_MEM], except that a failed allocation of the expanded key is reported as [OAES_RET_UNKNOWN], because the
    code of the expansion is combined with a logical or.  [cn_slow_hash] ignores these codes and reads the key through
    the null pointer, and the x86-64 code writes to the scratchpad whether or not it was allocated. *)
Theorem slow_hash_no_memory (mem : allocations) (c : oaes_ctx) (key : list Z) (MEMORY ITER : nat) (ndebug aes : bool) (e : extra_locals) (env : aes_env)
    (data : list Z) (lp : Portable.locals) (lx : X86.locals) :
  key_ok key -> mem_key mem && mem_data mem && mem_exp mem = false ->
  length (Portable.l_text lp) = 128%nat -> length (Portable.l_aes_key lp) = 32%nat -> length (X86.l_text lx) = 128%nat ->
  (16 <= length (rand_results env))%nat -> mem_ctx env = false \/ mem_key1 env = mem ->
  oaes_key_import_data mem (Some c) (Some key) (Z.of_nat (length key)) =
    Ok (if mem_key mem && mem_data mem then OAES_RET_UNKNOWN else OAES_RET_MEM, Some (set_key c None)) /\
  Portable.cn_slow_hash MEMORY ITER ndebug lp e env data = Fail OutOfBounds /\
  X86.cn_slow_hash MEMORY ITER aes ndebug None None lx e env (X86.Hp None false) data = Fail OutOfBounds.
Proof.
  intros Hk Hm H1 H2 H3 Hr Hv. split; [by apply import_no_memory|]. split.
  - unfold Portable.cn_slow_hash. rewrite hash_process_spec. cbn [bind]. rewrite text_spec by done. cbn [bind].
    destruct (state_ok200 data) as [Bs Ls]. unfold AES_KEY_SIZE. rewrite memcpy_ok by lia. cbn [bind].
    rewrite take_0, (drop_ge (Portable.l_aes_key lp)), app_nil_r by lia. cbn [app].
    destruct (mem_ctx env) eqn:Ec; [|reflexivity]. destruct Hv as [?|Hv]; [done|]. destruct (oaes_alloc_spec _ Hr) as [x Ex]. rewrite Ex. cbn [bind].
    destruct (key_ok32 data 0 ltac:(lia)) as [K1 L1]. rewrite drop_0 in K1, L1. unfold import_key, AES_KEY_SIZE.
    pose proof (import_no_memory (mem_key1 env) x _ K1) as Ei. rewrite L1 in Ei. rewrite Ei by (by rewrite Hv). reflexivity.
  - unfold X86.cn_slow_hash. rewrite hash_process_spec. cbn [bind]. rewrite text_spec by done. reflexivity.
Qed.

Lemma slow_hash_no_memory_witness :
  let z n := replicate n 0 in
  let mem := Allocations true true false in
  let c := OaesCtx (Some (expanded_key (seqZ 0 32))) 2 (z 16%nat) in
  let e := ExtraLocals [] [] [] [] [] (Ctxt 0 0 0 0 [] []) in
  let env := AesEnv true mem mem (z 16%nat) in
  oaes_key_import_data mem (Some c) (Some (seqZ 0 16)) 16 = Ok (OAES_RET_UNKNOWN, Some (set_key c None)) /\
  Portable.cn_slow_hash 128 4 false (Portable.Locals [] (z 128%nat) [] [] (z 32%nat)) e env [5] = Fail OutOfBounds /\
  X86.cn_slow_hash 128 4 true false None None (X86.Locals (z 128%nat) []) e env (X86.Hp None false) [5] = Fail OutOfBounds.
Proof.
  apply (slow_hash_no_memory (Allocations true true false) (OaesCtx (Some (expanded_key (seqZ 0 32))) 2 (replicate 16 0)) (seqZ 0 16) 128 4 false true
    (ExtraLocals [] [] [] [] [] (Ctxt 0 0 0 0 [] [])) (AesEnv true (Allocations true true false) (Allocations true true false) (replicate 16 0)) [5]
    (Portable.Locals [] (replicate 128 0) [] [] (replicate 32 0)) (X86.Locals (replicate 128 0) [])); try reflexivity.
  - split; [apply Forall_seqZ; unfold is_byte; lia|by left].
  - by right.
Defined.

(** ** The scratchpad of a thread *)

(** Where the memory of the scratchpad comes from. *)
Inductive origin := Mapped | Allocated.

(** What happens to the scratchpad of one thread, with the origin of its memory: allocation, hashing and freeing. *)
Inductive hp_step : X86.hp * option origin -> option X86.release -> X86.hp * option origin -> Prop :=
  | step_map m malloc h : hp_step (h, None) None (X86.slow_hash_allocate_state (Some m) malloc h, Some Mapped)
  | step_alloc m h : hp_step (h, None) None (X86.slow_hash_allocate_state None (Some m) h, Some Allocated)
  | step_none h : hp_step (h, None) None (X86.slow_hash_allocate_state None None h, None)
  | step_again mmap malloc h o : hp_step (h, Some o) None (X86.slow_hash_allocate_state mmap malloc h, Some o)
  | step_hash m' b m o : hp_step (X86.Hp (Some m) b, Some o) None (X86.Hp (Some m') b, Some o)
  | step_free h o : hp_step (h, o) (fst (X86.slow_hash_free_state h)) (snd (X86.slow_hash_free_state h), None).

(** The states that a new thread reaches. *)
Inductive hp_reachable : X86.hp * option origin -> Prop :=
  | reach_start : hp_reachable (X86.Hp None false, None)
  | reach_step st r st' : hp_reachable st -> hp_step st r st' -> hp_reachable st'.

Lemma hp_invariant h o : hp_reachable (h, o) ->
  match o with
  | None => X86.hp_state h = None /\ X86.hp_allocated h = false
  | Some Mapped => X86.hp_state h <> None /\ X86.hp_allocated h = true
  | Some Allocated => X86.hp_state h <> None /\ X86.hp_allocated h = false
  end.
Proof.
  intros Hr. remember (h, o) as st eqn:E. revert h o E. induction Hr as [|st r st' Hr IH Hs]; intros h o E; [by simplify_eq|].
  destruct Hs as [m malloc x|m x|x|mmap malloc x y|m' b m y|x y]; simplify_eq; specialize (IH _ _ eq_refl); cbn in IH |- *.
  - destruct IH as [H1 H2]. unfold X86.slow_hash_allocate_state. by rewrite H1.
  - destruct IH as [H1 H2]. unfold X86.slow_hash_allocate_state. by rewrite H1.
  - destruct IH as [H1 H2]. unfold X86.slow_hash_allocate_state. by rewrite H1.
  - unfold X86.slow_hash_allocate_state. destruct y; destruct (X86.hp_state x) eqn:Ex; cbn in IH |- *; rewrite ?Ex; destruct IH as [H1 H2]; done.
  - destruct y; destruct IH as [H1 H2]; (split; [congruence|exact H2]).
  - unfold X86.slow_hash_free_state. destruct (X86.hp_state x) eqn:Ex; cbn; [done|]. destruct y as [[]|]; cbn in IH; destruct IH as [H1 H2]; congruence || done.
Qed.

(** C39: the scratchpad of a thread, over every sequence of allocations, hashes and frees: memory that was mapped is
    unmapped and memory that was allocated is freed, exactly once, and the thread then holds none; freeing again does
    nothing. *)
Theorem scratchpad_lifecycle (h : X86.hp) (o : option origin) :
  hp_reachable (h, o) ->
  let (r, h') := X86.slow_hash_free_state h in
  (r = match o, X86.hp_state h with
       | Some Mapped, Some m => Some (X86.Munmap m)
       | Some Allocated, Some m => Some (X86.Free m)
       | _, _ => None
       end) /\
  (o <> None <-> r <> None) /\ h' = X86.Hp None false /\ X86.slow_hash_free_state h' = (None, h').
Proof.
  intros Hr. pose proof (hp_invariant h o Hr) as Hi. destruct h as [s b]. unfold X86.slow_hash_free_state. cbn [X86.hp_state X86.hp_allocated] in *.
  destruct o as [[]|], s as [m|]; destruct Hi as [H1 ->]; naive_solver.
Qed.

Lemma scratchpad_lifecycle_witness :
  let h := X86.Hp (Some [7]) true in
  let (r, h') := X86.slow_hash_free_state h in
  r = Some (X86.Munmap [7]) /\ (Some Mapped <> None <-> r <> None) /\ h' = X86.Hp None false /\ X86.slow_hash_free_state h' = (None, h').
Proof.
  apply (scratchpad_lifecycle (X86.Hp (Some [7]) true) (Some Mapped)).
  apply (reach_step (X86.Hp (Some [1]) true, Some Mapped) None); [|constructor].
  apply (reach_step (X86.Hp None false, None) None); [constructor|]. apply (step_map [1] None (X86.Hp None false)).
Defined.
