(* ===== verification/HashTheorems.v ===== *)
(** * Theorems on the hash functions: [keccak.c], [hash.c] and [tree-hash.c] *)

From stdpp Require Import base list numbers.
From Stdlib Require Import ZArith Lia.
From S2P Require Import Prelude Bytes Keccak KeccakFacts TreeHash.

(** [keccakf] is the Keccak-f[1600] permutation: on a state of 25 words its rounds of in-place loops with the
    tables of rotations, lane positions and round constants compute theta, rho, pi, chi and iota of FIPS 202,
    whose offsets and constants are generated there by their defining recurrences. *)
Theorem keccakf_correct st rounds :
  (rounds <= 24)%nat -> length st = 25%nat -> keccakf st rounds = Ok (Spec.permutation rounds st).
Proof. intros Hr Hl. exact (proj1 (keccakf_spec st rounds Hr Hl)). Qed.

Lemma keccakf_correct_witness : keccakf (replicate 25 3) 24 = Ok (Spec.permutation 24 (replicate 25 3)).
Proof. apply (keccakf_correct (replicate 25 3) 24); [lia|reflexivity]. Defined.



(** The other digest lengths: when the rate [200 - 2*n] is not a multiple of 8, the loops absorb the whole words of a
    block only, so that the bytes after them have no influence on the digest: two messages that differ there
    collide. *)
Theorem keccak_bytes_ignored fuel mdlen a x y rest :
  29 <= mdlen < 100 -> length a = whole (rate mdlen) -> length x = (rate mdlen - whole (rate mdlen))%nat -> length y = length x ->
  (length (a ++ x ++ rest) / rate mdlen < fuel)%nat ->
  keccak fuel (a ++ x ++ rest) mdlen = keccak fuel (a ++ y ++ rest) mdlen.
Proof.
  intros Hm La Lx Ly Hf. pose proof (whole_le (rate mdlen)) as Hw.
  assert (0 < rate mdlen)%nat as Hr by (unfold rate; destruct (Z.eqb_spec mdlen 200); lia).
  assert (length (a ++ y ++ rest) = length (a ++ x ++ rest)) as L by (rewrite !length_app; lia).
  assert (forall st z, Sponge.step (whole (rate mdlen)) st (a ++ z) = Sponge.step (whole (rate mdlen)) st a) as Hstep.
  { intros st z. unfold Sponge.step, Sponge.xor_block. by rewrite take_app_length', take_ge by lia. }
  rewrite !keccak_run by (rewrite ?L; (lia || done)).
  enough (Sponge.run (whole (rate mdlen)) (rate mdlen) (a ++ x ++ rest) = Sponge.run (whole (rate mdlen)) (rate mdlen) (a ++ y ++ rest)) as ->
    by reflexivity.
  unfold Sponge.run, Sponge.padded. rewrite L. cbn [Sponge.blocks foldl]. rewrite <- !app_assoc, !(app_assoc a).
  rewrite !take_app_length', !drop_app_length' by (rewrite length_app; lia). by rewrite !Hstep.
Qed.

(** With a digest of 30 bytes the last four of the first 140 bytes do not count; with one of 97 no byte does. *)
Lemma keccak_bytes_ignored_witness :
  keccak 2 (replicate 136 1 ++ [1; 2; 3; 4] ++ [5]) 30 = keccak 2 (replicate 136 1 ++ [6; 7; 8; 9] ++ [5]) 30 /\
  keccak 2 ([] ++ [1; 2; 3; 4; 5; 6] ++ []) 97 = keccak 2 ([] ++ [0; 0; 0; 0; 0; 0] ++ []) 97.
Proof. split; (apply keccak_bytes_ignored; [lia|reflexivity|reflexivity|reflexivity|vm_compute; lia]). Defined.

(** The misuse of [keccak]: a digest length outside 1..200 aborts at once; 1 to 28 and 101 to 199 abort at the
    check after absorbing (the rate is too large for the buffer, or wraps around); and 100 makes the rate zero, so
    that the absorbing loop never ends, before the check that would abort. *)
Theorem keccak_misuse fuel inp mdlen :
  (length inp < fuel)%nat -> Z.of_nat (length inp) < 2 ^ 63 ->
  mdlen <= 28 \/ 100 <= mdlen < 200 \/ 200 < mdlen ->
  keccak fuel inp mdlen = if decide (mdlen = 100) then Fail OutOfFuel else Fail Aborted.
Proof.
  intros Hf Hl Hm. destruct (decide (mdlen = 100)) as [->|H100]; [apply keccak_rate_0|].
  destruct (decide (mdlen <= 0 \/ 200 < mdlen)) as [H0|H0].
  - unfold keccak. replace ((mdlen <=? 0) || (mdlen >? 200)) with true by lia. reflexivity.
  - destruct (decide (mdlen <= 28)) as [H28|H28].
    + apply keccak_long; [lia|]. eapply Nat.le_lt_trans; [|exact Hf].
      apply Nat.Div0.div_le_upper_bound.
      assert (1 <= rate mdlen)%nat by (unfold rate; destruct (Z.eqb_spec mdlen 200); lia). nia.
    + apply keccak_wrapped; lia.
Qed.

Lemma keccak_misuse_witness : keccak 9 [1; 2] 100 = if decide (100 = 100) then Fail OutOfFuel else Fail Aborted.
Proof. apply (keccak_misuse 9 [1; 2] 100); simpl; lia. Defined.

(** [cn_fast_hash] is total: on every input it returns the 32-byte Keccak-256 digest (rate 136, the padding
    of the original Keccak submission). *)
Theorem cn_fast_hash_total data :
  cn_fast_hash data = Ok (Sponge.hash 136 32 data) /\
  length (Sponge.hash 136 32 data) = 32%nat /\ bytes (Sponge.hash 136 32 data).
Proof.
  split; [exact (cn_fast_hash_spec data)|]. destruct (hash_bytes 136 32 data) as [Hb Hl]; [lia|lia|].
  split; [exact Hl|exact Hb].
Qed.

(** C31: [tree_hash] computes the Merkle root: the in-place, bottom-up loops over the array of hashes agree with the
    recursive definition of the tree for every count from 1 to [2^28], in release and debug builds. *)
Theorem tree_hash_correct ndebug hashes :
  (1 <= length hashes)%nat -> Z.of_nat (length hashes) <= 2 ^ 28 ->
  tree_hash ndebug hashes (length hashes) = Ok (Merkle.root (Sponge.hash 136 HASH_SIZE) hashes).
Proof. intros H1 H28. exact (tree_hash_spec ndebug hashes H1 H28). Qed.

Lemma tree_hash_correct_witness :
  tree_hash false (replicate 5 (replicate 32 1)) 5 =
  Ok (Merkle.root (Sponge.hash 136 HASH_SIZE) (replicate 5 (replicate 32 1))).
Proof. apply (tree_hash_correct false (replicate 5 (replicate 32 1))); simpl; lia. Defined.

(** The root binds the leaves: if [tree_hash] returns the same root for two lists of as many 32-byte hashes,
    the lists are equal or they exhibit a collision of the hash function. *)
Theorem tree_hash_binding ndebug hashes hashes' root :
  hashes_ok hashes -> hashes_ok hashes' -> length hashes = length hashes' ->
  (1 <= length hashes)%nat -> Z.of_nat (length hashes) <= 2 ^ 28 ->
  tree_hash ndebug hashes (length hashes) = Ok root -> tree_hash ndebug hashes' (length hashes') = Ok root ->
  hashes = hashes' \/ exists x y, x <> y /\ cn_fast_hash x = cn_fast_hash y.
Proof.
  intros Hh Hh' E H1 H28 T T'.
  rewrite tree_hash_spec in T by assumption. rewrite tree_hash_spec in T' by (rewrite <- E; assumption).
  assert (forall d, length (Sponge.hash 136 HASH_SIZE d) = HASH_SIZE) as HL by (intros; apply hash_length).
  destruct (root_binding (Sponge.hash 136 HASH_SIZE) HL hashes hashes' Hh Hh' E H1 ltac:(congruence)) as [->|(x & y & Hn & Hc)].
  - left. reflexivity.
  - right. exists x, y. split; [exact Hn|]. rewrite !cn_fast_hash_spec, Hc. reflexivity.
Qed.

Lemma tree_hash_binding_witness :
  let h := [replicate 32 1] in h = h \/ exists x y, x <> y /\ cn_fast_hash x = cn_fast_hash y.
Proof.
  apply (tree_hash_binding false [replicate 32 1] [replicate 32 1] (replicate 32 1));
    first [reflexivity | simpl; lia | by repeat constructor].
Defined.

(** [tree_hash_cnt] returns the largest power of two below the count (so [count/2], not [count], for a power of
    two), aborts in debug builds outside 3..[2^28], and in release builds never ends above [2^63]. *)
Theorem tree_hash_cnt_exact fuel count :
  (63 <= fuel)%nat -> 3 <= count ->
  (forall ndebug, count <= 2 ^ 28 -> exists k, 0 < k /\ tree_hash_cnt ndebug fuel count = Ok (2 ^ k) /\
     2 ^ k < count <= 2 ^ (k + 1)) /\
  (2 ^ 28 < count -> tree_hash_cnt false fuel count = Fail Aborted) /\
  (2 ^ 63 < count -> tree_hash_cnt true fuel count = Fail OutOfFuel).
Proof.
  intros Hf H3. split; [|split].
  - intros ndebug H28. exists (Z.log2_up count - 1).
    pose proof (Z.log2_up_spec count ltac:(lia)) as Hs. rewrite Z.sub_1_r. unfold Z.pred in *.
    assert (2 <= Z.log2_up count) as H2 by (apply (Z.log2_up_le_mono 3) in H3; exact H3).
    assert (Z.log2_up count <= 28) as H28' by (apply Z.log2_up_le_mono in H28; exact H28).
    replace (Z.log2_up count + -1 + 1) with (Z.log2_up count) by lia. split; [lia|]. split; [|lia].
    unfold tree_hash_cnt, c_assert. replace (count >=? 3) with true by lia.
    replace (count <=? 0x10000000) with true by lia.
    destruct ndebug; cbn [bind]; change (pow_loop fuel 2) with (pow_loop fuel (2 ^ 1));
      rewrite (pow_loop_spec count (Z.log2_up count)) by (rewrite ?Z.sub_1_r; unfold Z.pred; lia);
      cbn [bind]; rewrite Z.shiftr_div_pow2, <- Z.pow_sub_r by lia; reflexivity.
  - intros Hc. unfold tree_hash_cnt, c_assert. replace (count >=? 3) with true by lia.
    cbn [bind]. replace (count <=? 0x10000000) with false by lia. reflexivity.
  - intros Hc. unfold tree_hash_cnt, c_assert. cbn [bind].
    rewrite pow_loop_diverges; [reflexivity|exact Hc|]. right. exists 1. lia.
Qed.

Lemma tree_hash_cnt_exact_witness :
  (forall ndebug, 512 <= 2 ^ 28 -> exists k, 0 < k /\ tree_hash_cnt ndebug 64 512 = Ok (2 ^ k) /\
     2 ^ k < 512 <= 2 ^ (k + 1)) /\
  (2 ^ 28 < 512 -> tree_hash_cnt false 64 512 = Fail Aborted) /\
  (2 ^ 63 < 512 -> tree_hash_cnt true 64 512 = Fail OutOfFuel).
Proof. apply (tree_hash_cnt_exact 64 512); lia. Defined.
