(* ===== verification/StreamTheorems.v ===== *)
(** * Theorems on the stream cipher, the random generator and wiping *)

From stdpp Require Import base list numbers.
From Stdlib Require Import ZArith Lia.
From S2P Require Import Prelude Bytes Keccak KeccakFacts ChaCha ChaChaFacts Random.

Ltac constant := first [reflexivity | apply (bool_decide_eq_true_1 _); vm_compute; reflexivity].

(** C32: [chacha8] and [chacha20] xor the input with the ChaCha key stream of 8 and 20 rounds, block [i] of which is
    the core of the matrix with the 64-bit counter [i]; the loop ends, and the uninitialised scratch buffer that
    pads the last block has no influence on the output. *)
Theorem chacha_correct data key iv tmp :
  bytes data -> length key = 32%nat -> length iv = 8%nat -> bytes tmp -> length tmp = 64%nat ->
  chacha8 data key iv tmp = Ok (Stream.crypt 4 key iv data) /\
  chacha20 data key iv tmp = Ok (Stream.crypt 10 key iv data).
Proof.
  intros Hd Hk Hi Hb Hl. split; [exact (chacha_spec 8 data key iv tmp Hd Hk Hi Hb Hl)|].
  exact (chacha_spec 20 data key iv tmp Hd Hk Hi Hb Hl).
Qed.

Lemma chacha_correct_witness :
  chacha8 (replicate 70 1) (replicate 32 2) (replicate 8 3) (replicate 64 4) =
    Ok (Stream.crypt 4 (replicate 32 2) (replicate 8 3) (replicate 70 1)) /\
  chacha20 (replicate 70 1) (replicate 32 2) (replicate 8 3) (replicate 64 4) =
    Ok (Stream.crypt 10 (replicate 32 2) (replicate 8 3) (replicate 70 1)).
Proof. apply (chacha_correct (replicate 70 1) (replicate 32 2) (replicate 8 3) (replicate 64 4)); constant. Defined.

(** Decryption is encryption: applying [chacha] twice with the same key and iv, whatever the scratch buffers
    held, gives the data back; the length is kept. *)
Theorem chacha_roundtrip rounds data key iv tmp tmp' :
  bytes data -> length key = 32%nat -> length iv = 8%nat ->
  bytes tmp -> length tmp = 64%nat -> bytes tmp' -> length tmp' = 64%nat ->
  returns (chacha rounds data key iv tmp) (fun c =>
    length c = length data /\ chacha rounds c key iv tmp' = Ok data).
Proof.
  intros Hd Hk Hi Hb Hl Hb' Hl'. rewrite (chacha_spec rounds data key iv tmp Hd Hk Hi Hb Hl). cbn [returns].
  split; [apply crypt_length|].
  rewrite (chacha_spec rounds _ key iv tmp' (crypt_bytes _ key iv data Hd) Hk Hi Hb' Hl').
  rewrite crypt_involutive. reflexivity.
Qed.

Lemma chacha_roundtrip_witness :
  returns (chacha 20 (replicate 70 1) (replicate 32 2) (replicate 8 3) (replicate 64 4)) (fun c =>
    length c = length (replicate 70 1) /\
    chacha 20 c (replicate 32 2) (replicate 8 3) (replicate 64 5) = Ok (replicate 70 1)).
Proof.
  apply (chacha_roundtrip 20 (replicate 70 1) (replicate 32 2) (replicate 8 3) (replicate 64 4) (replicate 64 5)); constant.
Defined.

(** C33: [generate_random_bytes_not_thread_safe] squeezes the sponge: it returns exactly [n] bytes, the prefix of the
    output blocks of the successive permutations, leaves the state after [ceil(n/136)] permutations and the
    life-cycle variable at 1; before [init_random], or while another call is inside, a debug build aborts. *)
Theorem generate_random_bytes_correct ndebug n g :
  length (state g) = 25%nat ->
  (curstate g = 1 ->
   generate_random_bytes_not_thread_safe ndebug n g =
   Ok (Rng (Nat.iter (blocks_for n) next (state g)) 1, take n (squeezed (blocks_for n) (state g))) /\
   length (take n (squeezed (blocks_for n) (state g))) = n) /\
  (curstate g <> 1 -> generate_random_bytes_not_thread_safe false n g = Fail Aborted).
Proof.
  intros Hl. split.
  - intros Hc. split; [exact (generate_spec ndebug n g (conj Hc Hl))|].
    rewrite length_take, squeezed_length by exact Hl. pose proof (blocks_for_enough n). lia.
  - intros Hc. unfold generate_random_bytes_not_thread_safe. rewrite transition_abort by exact Hc. reflexivity.
Qed.

Lemma generate_random_bytes_correct_witness :
  let g := Rng (replicate 25 5) 1 in
  (curstate g = 1 ->
   generate_random_bytes_not_thread_safe false 200 g =
   Ok (Rng (Nat.iter (blocks_for 200) next (state g)) 1, take 200 (squeezed (blocks_for 200) (state g))) /\
   length (take 200 (squeezed (blocks_for 200) (state g))) = 200%nat) /\
  (curstate g <> 1 -> generate_random_bytes_not_thread_safe false 200 g = Fail Aborted).
Proof. exact (generate_random_bytes_correct false 200 (Rng (replicate 25 5) 1) eq_refl). Defined.

(** C34: [init_random] seeds the state with 32 bytes of the system source, whatever the pattern of short and
    interrupted reads, when the reads deliver them; it never starts with fewer: when it returns, the calls of [read]
    have delivered all 32 bytes, which are the first bytes of the state. *)
Theorem init_random_seeds ndebug sys :
  conforming 32 (reads sys) -> bytes (stored (reads sys)) ->
  (open_ok sys = true -> close_ok sys = true -> delivers 32 (reads sys) ->
   returns (init_random ndebug sys rng_static) (fun g => (ndebug = false -> initialised g) /\
     state_bytes (state g) = take 32 (stored (reads sys)) ++ replicate 168 0)) /\
  (forall g, init_random ndebug sys rng_static = Ok g -> delivers 32 (reads sys)).
Proof.
  intros Hc Hb. split.
  - intros Ho Hcl Hd. unfold init_random, generate_system_random_bytes. rewrite Ho, Hcl.
    rewrite (read_loop_delivers _ _ _ Hd). cbn [bind app]. rewrite transition_spec by reflexivity.
    pose proof (delivers_length _ _ Hd) as Hl. set (s := take 32 (stored (reads sys))).
    assert (length s = 32%nat) as Hs by (unfold s; rewrite length_take; lia).
    assert (state_bytes (store_prefix s (state rng_static)) = s ++ replicate 168 0) as E.
    { rewrite store_prefix_spec; [|by apply Forall_take|lia|reflexivity]. rewrite Hs. reflexivity. }
    destruct ndebug; cbn [returns]; (split; [|exact E]); [discriminate|]. intros _. by split.
  - intros g Hg. unfold init_random, generate_system_random_bytes in Hg.
    destruct (open_ok sys); [|discriminate]. destruct (read_loop 32 [] (reads sys)) as [s|] eqn:E; [|discriminate].
    exact (read_loop_returns _ _ _ _ Hc E).
Qed.

Lemma init_random_seeds_witness :
  let sys := System true [Read (replicate 10 1); Interrupted; Read (replicate 22 2)] true in
  (open_ok sys = true -> close_ok sys = true -> delivers 32 (reads sys) ->
   returns (init_random false sys rng_static) (fun g => (false = false -> initialised g) /\
     state_bytes (state g) = take 32 (stored (reads sys)) ++ replicate 168 0)) /\
  (forall g, init_random false sys rng_static = Ok g -> delivers 32 (reads sys)).
Proof.
  apply (init_random_seeds false (System true [Read (replicate 10 1); Interrupted; Read (replicate 22 2)] true)).
  - simpl. lia.
  - constant.
Defined.
